(* ===== verification/_CoqProject ===== *)
-Q . S2P
Prelude.v
Unicode.v
Codec.v
Segment.v
Num.v
Pdu.v
GoTime.v
Submit.v
ClientEncode.v
Records.v
Store.v
StoreInv.v
StoreSubmit.v
GatewayId.v
FileStore.v
Addr.v
Router.v
DlrAggregate.v
Dispatch.v
DispatchSubmit.v
DispatchSend.v
DispatchDlr.v
Workers.v
SmppSession.v
SmppEnvelope.v
SmppServer.v
SmppServerInv.v
FilterAC.v
FilterTrie.v
FilterFind.v
Filter.v
FilterMask.v
ClientReceipt.v
ReceiptRoundtrip.v
ClientConn.v
ClientWindow.v
ClientAnswer.v
ClientLive.v
ClientPool.v
GoParse.v
NetIP.v
Config.v
ConfigValid.v
ConfigOk.v
ConfigWhole.v
Float64.v
Tenant.v
TenantRate.v
Json.v
HttpRule.v
HttpProvider.v
RateLimit.v
Providers.v
RiskLimit.v
CdrWriter.v
HttpGw.v
HttpGwOk.v
HttpFlow.v
Bootstrap.v
BootstrapOk.v
AdminSession.v
Admin.v
AdminGateway.v
AdminOk.v
Postgres.v
PostgresSim.v
PostgresRefine.v
PostgresOk.v
PostgresOutbox.v
PostgresStart.v
DispatchRun.v
DispatchRunOk.v
PendingMap.v
CountryRules.v
TestEsme.v
GatewayMain.v
