(* ===== verification/Prelude.v ===== *)
(** * mysmpp: a verification development

    mysmpp is an SMS gateway in Go. ESMEs submit messages over SMPP or HTTP; the
    dispatcher admits, filters, routes and stores each one together with an
    outbox item; workers claim the items and hand them to upstream providers
    over SMPP or HTTP; delivery reports come back from the providers, are
    aggregated over the segments of a message and passed on to the source. A
    configuration file, an administration console and call data records go with
    it. This library models that path from bytes on the wire to the last report,
    the stores below it and the gateways around it, and proves what makes them
    correct. File and function names below are those under src/internal/.

    ** How code becomes definitions

    A method on a mutable object is a function from the object's record to the
    new record and the result; a Go error is the [Err] of the type [res]; a Go
    integer is a [Z], reduced to its width wherever the code can leave it
    ([u8], [u32], [u64], [i64]); a float64 is an exact binary fraction with
    rounding (Float64); a string is its bytes, and [runes] decodes UTF-8 as a Go
    range loop does; a map is a [gmap], with the order of a range loop as a
    parameter where it shows; a time is a number of nanoseconds since the zero
    time, and every reading of the clock is a parameter. Goroutines are steps of
    a transition system: the state is a record, an event names the goroutine and
    what it meets, and theorems quantify over all lists of events. Code outside
    the repository's own packages (answers of providers, HTTP exchanges, regular
    expressions, the JSON of whole records, SHA-256, time zones, the file system's
    failures, the draws of crypto/rand) is a parameter, with a hypothesis only
    where a theorem names one.

    ** Files

    - Prelude: notation, tactics, the hint database [mysmpp], lemmas on lists,
      strings and integers. Unicode, Num, GoTime, GoParse, NetIP (net/netip and
      netutil/), Float64, Json: the parts of the Go standard library the code
      uses.
    - Codec, Segment (message/): GSM 7-bit, UCS-2 and Latin-1 text; splitting a
      text into segments and joining them.
    - Pdu, Submit (smpp/pdu.go, tlv.go, udh.go, submit.go, dlr.go): framing,
      optional parameters, user data headers, submit_sm, delivery receipts.
    - SmppSession (smpp/session.go): the goroutines of one session. SmppServer
      (smpp/server.go and the submit jobs of cmd/mysmpp): all sessions with the
      registry. SmppServerInv: its invariants, by simulation with single sessions.
      SmppEnvelope (cmd/mysmpp): what a submit_sm becomes.
    - ClientEncode (smppclient/encode.go): the submit_sm bodies of a message.
      ClientReceipt (receipt.go, id.go): the parser of receipts; ReceiptRoundtrip:
      it reads what the server builds. ClientConn (connection.go, window.go): a
      connection with its attempts; ClientWindow, ClientAnswer, ClientLive: its
      invariants and the end of every call. ClientPool (pool.go).
    - Records, Store (store/memory.go): the in-memory store. StoreInv: its calls as
      one transition system, the invariant [wf], the outbox state machine.
      StoreSubmit: idempotency and quotas along traces. FileStore
      (store/file.go): snapshots on disk.
    - Postgres (store/postgres.go): tables, rows and statements. PostgresSim,
      PostgresRefine, PostgresOk: the simulation by the in-memory store.
      PostgresOutbox: many gateways on one outbox. PostgresStart: opening a store
      and the migrations.
    - GatewayId (dispatch/idalloc.go, store/id.go), Addr (dispatch/addr.go,
      country_rules.go), CountryRules (tools/countryrules, the program that makes
      those tables), Router (router/).
    - Dispatch (dispatch/dispatcher.go, types.go): the dispatcher's state and Submit;
      DispatchSubmit: what a submission leaves behind. DispatchSend: processOutbox
      and its failures. DlrAggregate, DispatchDlr: HandleDLR, FlushDLR and
      aggregation. Workers: claims, sends and requeues as an interleaving system;
      DispatchRun, DispatchRunOk: New, StartWorkers, every loop it starts, and
      Close. PendingMap (dispatch/pending.go).
    - FilterAC, FilterTrie, FilterFind (filter/ahocorasick.go): the keyword
      automaton; Filter, FilterMask (engine.go, normalize.go).
    - Config, ConfigValid, ConfigOk, ConfigWhole (config/config.go): the
      configuration, its validation and what a valid one is. Bootstrap,
      BootstrapOk (config/bootstrap.go): starting with seeds and secrets.
    - Tenant, TenantRate (tenant/), RateLimit, HttpRule, HttpProvider, Providers
      (httprule/, provider/), CdrWriter (cdr/).
    - RiskLimit, HttpGw, HttpGwOk, HttpFlow (httpgw/rules.go): the HTTP gateway.
    - AdminSession, Admin, AdminGateway, AdminOk (admin/): the console, written
      against a class [GatewayAPI] with its laws, of which the HTTP gateway is an
      instance.
    - GatewayMain (cmd/mysmpp): how the parts are put together. TestEsme
      (cmd/testesme): the test client.

    ** What the theorems show

    - Delivery at most once. Along any calls of the store an outbox item starts
      being sent at most once (StoreInv); a goroutine calls the provider only
      after it marked the item, and then no other worker can (DispatchSend); in
      any interleaving of workers in which no requeue takes back an item still
      held, no item reaches the provider twice (Workers, DispatchRunOk); over
      shared tables this holds for all gateways whose workers have names of their
      own (PostgresOutbox). Without these provisos two goroutines of the same
      worker name can both send (DispatchSend, PostgresOutbox).
    - Nothing is lost or counted twice. A refused submission leaves the books as
      they were but for what had expired, an accepted one adds one message and
      one outbox item and changes no other (DispatchSubmit); a resubmission under
      a live key that SaveIdempotency did not overwrite is answered with the first
      id, and quota usage is the sum of accepted segments within the limit
      (StoreSubmit); gateway ids are never issued twice (GatewayId); a restart
      from disk restores the store and keeps what was being sent out of the
      queue (FileStore); what Postgres serves, the in-memory store serves too, up
      to its cap of messages and where the two do not differ on the last retry of
      an item (PostgresOk).
    - Reports. After a send that gave the segments different ids, reports of all
      of them in any order give the message the worst state and clear its records;
      a report whose source is away
      waits, unswept, and a flush ends and delivers it; the lookup loop ends
      (DispatchDlr).
    - Sessions. Every request is answered exactly once, submissions stay within the window
      and come from authenticated sessions, deliver_sm calls get the answer to
      their own number (SmppServerInv). The client's window, the match of answers
      to calls, and the end by its timer of every call but one that blocks in a full
      channel (ClientAnswer, ClientLive).
    - Routing, addresses, filter. The best matching route wins, weights are exact
      (Router); country codes are found exactly when present (Addr); the tables in
      the repository are what the generator makes of them (CountryRules); the
      automaton ends, and is exact for keywords without inner prefixes, which is
      as far as it is (FilterTrie, FilterFind); the strongest rule decides
      (Filter).
    - Wire formats. Texts survive each coding, splitting and joining (Codec,
      Segment); streams of PDUs, TLV lists and headers are read back exactly
      (Pdu); the parts the client builds are understood by the server's parser,
      and its receipts by the client's (ClientEncode, ReceiptRoundtrip); requests
      to HTTP providers carry exactly their fields, in JSON as far as these are
      UTF-8 (HttpRule).
    - Limits. The bucket of a tenant in floating point is the bucket over integers
      (TenantRate); providers, addresses and logins are limited as stated
      (RateLimit, RiskLimit, AdminSession).
    - Configuration. Validation accepts exactly [config_ok] (ConfigWhole); a
      configuration is taken whole or not at all (HttpFlow) and stays valid under
      the console (AdminOk); providers follow it (Providers); starting generates
      what is asked for (BootstrapOk) and fails only for the reasons given
      (GatewayMain); only authenticated requests change anything (HttpGwOk,
      AdminOk).
    - Records and the end. CDR files hold what was accepted, in order (CdrWriter);
      [Close] of a dispatcher waits for provider calls, for reports in hand and for
      the sweep, can return when these end, and after it no provider is called;
      the goroutines of reports that found their channel full go on
      (DispatchRunOk).

    ** Fuel

    Loops that are not structural carry fuel: digits of a 64-bit number (64), the
    country code lookup (3 digits), the report lookup (42 waits of 50 ms exceed
    its 2 s), rounds of a flush (one more than the waiting reports), the scan for
    optional parameters (the length of the body), the failure links of the
    automaton (its number of nodes), durations (the length of the text), the
    groups of an IPv6 address (8), JSON values (twice the length of the text and
    two), the shortest digits of a float64 (17). Each bound is proved to be enough
    where the result is used, or is the bound the code itself has.

    ** Not modelled

    HTML pages, templates and static files (httpgw/page.go, admin/templates.go,
    static.go) and log texts (smpp's commandName); the JSON of whole records and
    configurations, which is a parameter; opening sockets, TLS and flags; the
    sequence of closings at the end of cmd/mysmpp; the archive and the XML of
    the sheets the table generator reads; the inside of a SQL server, whose
    statements take place one after the other, with row locks as far as a claim
    skips locked rows, and a connection that fails between statements. Simplified:
    the list of accounts a bind is checked against is fixed for a run of the
    server, where cmd/mysmpp reads the current configuration; UpdateConfig is one
    step, where httpgw changes the CDR writer, the registry and the dispatcher one
    after the other; finished CDR files are a list, so that a name given to two of
    them is not seen; the two clock readings of a login are one in the bound on
    guesses. *)

From stdpp Require Export base decidable numbers list strings gmap fin_maps sorting.
From Stdlib Require Export Ascii ZArith Lia ZifyNat ZifyBool.
#[global] Open Scope Z_scope.

#[global] Arguments Nat.div : simpl never.
#[global] Arguments Nat.modulo : simpl never.
#[global] Arguments Nat.mul : simpl never.
#[global] Arguments Nat.leb : simpl never.
#[global] Arguments Nat.ltb : simpl never.
#[global] Arguments Nat.eqb : simpl never.
#[global] Arguments Z.of_nat : simpl never.

(** ** Machine integers

    A Go unsigned integer of [w] bits is a [Z] in [[0, 2^w)]; a conversion
    such as [byte(x)] or an arithmetic operation reduces modulo [2^w]. *)

Definition u8 (z : Z) : Z := z mod 256.
Definition u16 (z : Z) : Z := z mod 65536.
Definition u32 (z : Z) : Z := z mod 4294967296.
Definition u64 (z : Z) : Z := z mod 18446744073709551616.
(** [int32]: two's complement. *)
Definition i32 (z : Z) : Z := (z + 2147483648) mod 4294967296 - 2147483648.
Definition i64 (z : Z) : Z := (z + 9223372036854775808) mod 18446744073709551616 - 9223372036854775808.

Definition is_u8 (z : Z) : Prop := 0 <= z < 256.
Definition is_u16 (z : Z) : Prop := 0 <= z < 65536.
Definition is_u32 (z : Z) : Prop := 0 <= z < 4294967296.

(** ** Results

    A Go function returning [(T, error)] returns a [res]: [Ok] for a nil
    error, [Err] for the error value. *)

Inductive res (E A : Type) : Type :=
| Ok (a : A)
| Err (e : E).
Arguments Ok {E A} _.
Arguments Err {E A} _.

#[export] Instance res_ret {E} : MRet (res E) := fun A a => Ok a.
#[export] Instance res_bind {E} : MBind (res E) := fun A B f m =>
  match m with Ok a => f a | Err e => Err e end.
#[export] Instance res_fmap {E} : FMap (res E) := fun A B f m =>
  match m with Ok a => Ok (f a) | Err e => Err e end.

(** A guard: [if cond { return err }]. *)
Definition fail_if {E} (c : bool) (e : E) : res E unit :=
  if c then Err e else Ok tt.

#[export] Instance res_eq_dec {E A} `{EqDecision E, EqDecision A} : EqDecision (res E A).
Proof. solve_decision. Defined.

(** ** Slices of lists

    [slice l i j] is Go's [l[i:j]] for [0 <= i <= j <= len l]. *)

Definition slice {A} (l : list A) (i j : nat) : list A := take (j - i) (drop i l).

(** [l[i]] where the code has checked the index. *)
Definition at0 (l : list Z) (k : nat) : Z := default 0 (l !! k).
Notation "l .[ k ]" := (at0 l k) (at level 1, left associativity, format "l .[ k ]").

(** ** Strings and bytes

    A Go string is a sequence of bytes, which is what Rocq's [string] is; a
    [[]byte] is a list of 8-bit integers. *)

Definition byte_of_ascii (a : Ascii.ascii) : Z := Z.of_N (Ascii.N_of_ascii a).
Definition ascii_of_byte (z : Z) : Ascii.ascii := Ascii.ascii_of_N (Z.to_N z).

Fixpoint bytes_of_string (s : string) : list Z :=
  match s with
  | EmptyString => []
  | String a s => byte_of_ascii a :: bytes_of_string s
  end.

Fixpoint string_of_bytes (l : list Z) : string :=
  match l with
  | [] => EmptyString
  | z :: l => String (ascii_of_byte z) (string_of_bytes l)
  end.

Definition slen (s : string) : nat := String.length s.

(** [strings.HasPrefix(s, p)], [strings.TrimPrefix(s, p)]. *)
Fixpoint HasPrefix (s p : string) : bool :=
  match p, s with
  | EmptyString, _ => true
  | String a p, String b s => Ascii.eqb a b && HasPrefix s p
  | String _ _, EmptyString => false
  end.

Fixpoint sdrop (n : nat) (s : string) : string :=
  match n, s with
  | O, _ => s
  | S n, EmptyString => EmptyString
  | S n, String _ s => sdrop n s
  end.

Fixpoint stake (n : nat) (s : string) : string :=
  match n, s with
  | O, _ => EmptyString
  | S n, EmptyString => EmptyString
  | S n, String a s => String a (stake n s)
  end.

Definition TrimPrefix (s p : string) : string :=
  if HasPrefix s p then sdrop (slen p) s else s.

(** [strings.TrimLeft(s, c)] for a one-byte cutset. *)
Fixpoint TrimLeft1 (s : string) (c : Ascii.ascii) : string :=
  match s with
  | String a s' => if Ascii.eqb a c then TrimLeft1 s' c else s
  | EmptyString => EmptyString
  end.

(** Character tests on bytes. *)
Definition is_digit_byte (z : Z) : bool := (48 <=? z) && (z <=? 57).

(** ** Stable sorting

    [sort.SliceStable(l, less)]: insertion from the right keeps equal
    elements in their original order. *)

Section stable_sort.
Context {A : Type} (less : A -> A -> bool).

Fixpoint sort_insert (x : A) (l : list A) : list A :=
  match l with
  | [] => [x]
  | y :: l' => if less y x then y :: sort_insert x l' else x :: l
  end.

Definition sort_stable (l : list A) : list A := foldr sort_insert [] l.

Lemma sort_insert_Permutation x l : sort_insert x l ≡ₚ x :: l.
Proof.
  induction l as [|y l IH]; simpl; [done|].
  destruct (less y x); [|done]. rewrite IH. constructor.
Qed.

Lemma sort_stable_Permutation l : sort_stable l ≡ₚ l.
Proof. induction l as [|x l IH]; simpl; [done|]. by rewrite sort_insert_Permutation, IH. Qed.

(** The result is ordered whenever [less] is a strict weak order. *)
Context (Hasym : forall x y, less x y = true -> less y x = false).
Context (Hnegtrans : forall x y z, less x y = false -> less y z = false -> less x z = false).

Lemma sort_insert_sorted x l :
  StronglySorted (fun a b => less b a = false) l ->
  StronglySorted (fun a b => less b a = false) (sort_insert x l).
Proof.
  induction 1 as [|y l Hl IH Hy]; simpl; [by repeat constructor|].
  destruct (less y x) eqn:E.
  - constructor; [done|]. rewrite sort_insert_Permutation.
    constructor; [by apply Hasym|done].
  - constructor; [by constructor|]. constructor; [done|].
    eapply Forall_impl; [exact Hy|]. intros z Hz. simpl in *. eauto.
Qed.

Lemma sort_stable_sorted l : StronglySorted (fun a b => less b a = false) (sort_stable l).
Proof. induction l; simpl; [constructor|by apply sort_insert_sorted]. Qed.
End stable_sort.

(** ** Automation *)

(** Case analysis on the boolean comparisons of the code. *)
Ltac bdestr :=
  repeat match goal with
  | |- context [Z.eqb ?a ?b] => destruct (Z.eqb_spec a b)
  | |- context [Z.ltb ?a ?b] => destruct (Z.ltb_spec a b)
  | |- context [Z.leb ?a ?b] => destruct (Z.leb_spec a b)
  | |- context [Nat.eqb ?a ?b] => destruct (Nat.eqb_spec a b)
  | |- context [Nat.ltb ?a ?b] => destruct (Nat.ltb_spec a b)
  | |- context [Nat.leb ?a ?b] => destruct (Nat.leb_spec a b)
  end.
Ltac bdestr_in H :=
  repeat match type of H with
  | context [Z.eqb ?a ?b] => destruct (Z.eqb_spec a b)
  | context [Z.ltb ?a ?b] => destruct (Z.ltb_spec a b)
  | context [Z.leb ?a ?b] => destruct (Z.leb_spec a b)
  | context [Nat.eqb ?a ?b] => destruct (Nat.eqb_spec a b)
  | context [Nat.ltb ?a ?b] => destruct (Nat.ltb_spec a b)
  | context [Nat.leb ?a ?b] => destruct (Nat.leb_spec a b)
  end.

(** Arithmetic with division and remainder by constants. *)
Ltac zlia := Z.div_mod_to_equations; lia.
Ltac nlia := zify; Z.div_mod_to_equations; lia.

Create HintDb mysmpp.

(** ** Bits *)

(** [hi<<8 | lo]. *)
Lemma lor_shiftl_8 a b : is_u8 b -> Z.lor (Z.shiftl a 8) b = a * 256 + b.
Proof.
  unfold is_u8. intros Hb. rewrite <- Z.add_nocarry_lor.
  - rewrite Z.shiftl_mul_pow2 by lia. done.
  - apply Z.bits_inj'. intros j Hj. rewrite Z.land_spec, Z.bits_0, Z.shiftl_spec by lia.
    destruct (Z.ltb_spec j 8).
    + by rewrite (Z.testbit_neg_r _ (j - 8)) by lia.
    + rewrite <- (Z.mod_small b (2 ^ 8)) by lia. rewrite Z.mod_pow2_bits_high by lia.
      apply andb_false_r.
Qed.

(** ** Bytes and strings: conversions are inverse *)

Lemma byte_of_ascii_bounds a : is_u8 (byte_of_ascii a).
Proof.
  unfold is_u8, byte_of_ascii. pose proof (Ascii.N_ascii_bounded a). lia.
Qed.

Lemma ascii_of_byte_of_ascii a : ascii_of_byte (byte_of_ascii a) = a.
Proof. unfold ascii_of_byte, byte_of_ascii. by rewrite N2Z.id, Ascii.ascii_N_embedding. Qed.

Lemma byte_of_ascii_of_byte z : is_u8 z -> byte_of_ascii (ascii_of_byte z) = z.
Proof.
  unfold is_u8, ascii_of_byte, byte_of_ascii. intros.
  rewrite Ascii.N_ascii_embedding by lia. lia.
Qed.

Lemma string_of_bytes_of_string s : string_of_bytes (bytes_of_string s) = s.
Proof. induction s as [|a s IH]; simpl; [done|]. by rewrite ascii_of_byte_of_ascii, IH. Qed.

Lemma bytes_of_string_of_bytes l : Forall is_u8 l -> bytes_of_string (string_of_bytes l) = l.
Proof. induction 1; simpl; [done|]. by rewrite byte_of_ascii_of_byte, IHForall. Qed.

Lemma bytes_of_string_u8 s : Forall is_u8 (bytes_of_string s).
Proof. induction s; simpl; constructor; auto using byte_of_ascii_bounds. Qed.

Lemma bytes_of_string_app s t :
  bytes_of_string (s +:+ t) = bytes_of_string s ++ bytes_of_string t.
Proof. induction s; simpl; [done|]. by f_equal. Qed.

Lemma string_of_bytes_app (s t : list Z) :
  string_of_bytes (s ++ t) = string_of_bytes s +:+ string_of_bytes t.
Proof. induction s as [|z s IH]; simpl; [done|]. by rewrite IH. Qed.

Lemma bytes_of_string_inj s t : bytes_of_string s = bytes_of_string t -> s = t.
Proof. intros H%(f_equal string_of_bytes). by rewrite !string_of_bytes_of_string in H. Qed.

Lemma length_bytes_of_string s : length (bytes_of_string s) = slen s.
Proof. unfold slen. induction s; simpl; [done|]. lia. Qed.

Lemma slen_string_of_bytes l : slen (string_of_bytes l) = length l.
Proof. unfold slen. induction l; simpl; [done|]. lia. Qed.

#[export] Hint Resolve byte_of_ascii_bounds bytes_of_string_u8 : mysmpp.

(** ** String slicing *)

Lemma sdrop_app p s : sdrop (slen p) (p +:+ s) = s.
Proof. by induction p. Qed.

Lemma HasPrefix_spec s p : HasPrefix s p = true <-> exists t, s = p +:+ t.
Proof.
  split.
  - revert s. induction p as [|a p IH]; intros s H; [by exists s|].
    destruct s as [|b s]; simpl in H; [done|].
    apply andb_true_iff in H as [->%Ascii.eqb_eq [t ->]%IH]. by exists t.
  - intros [t ->]. induction p as [|a p IH]; [by destruct t|].
    change (String a p +:+ t) with (String a (p +:+ t)). simpl.
    by rewrite Ascii.eqb_refl.
Qed.

Lemma TrimPrefix_app p s : TrimPrefix (p +:+ s) p = s.
Proof.
  unfold TrimPrefix. rewrite (proj2 (HasPrefix_spec _ _)) by eauto. apply sdrop_app.
Qed.

Lemma slen_app s t : slen (s +:+ t) = (slen s + slen t)%nat.
Proof. unfold slen. induction s; simpl; [done|]. lia. Qed.

Lemma append_assoc (a b c : string) : (a +:+ b) +:+ c = a +:+ (b +:+ c).
Proof.
  induction a as [|x a IH]; [done|].
  change (String x ((a +:+ b) +:+ c) = String x (a +:+ (b +:+ c))). by rewrite IH.
Qed.

Lemma append_nil_r (a : string) : a +:+ "" = a.
Proof.
  induction a as [|x a IH]; [done|]. change (String x (a +:+ "") = String x a). by rewrite IH.
Qed.

(** ** Maps *)

Lemma map_Forall_filter {K A} `{Countable K} (P : K -> A -> Prop) (Q : K * A -> Prop)
    `{forall x, Decision (Q x)} (m : gmap K A) :
  map_Forall P m -> map_Forall P (filter Q m).
Proof. intros Hm k x Hx. apply map_lookup_filter_Some in Hx as [Hx _]. by apply Hm. Qed.

(** A map filled by a loop over keys without duplicates. *)
Lemma foldl_insert_lookup {A B} (key : A -> string) (val : A -> B) l (m : gmap string B) x :
  NoDup (key <$> l) -> x ∈ l -> foldl (fun m a => <[key a := val a]> m) m l !! key x = Some (val x).
Proof.
  revert m. induction l as [|a l IH]; intros m Hd Hx; [by apply not_elem_of_nil in Hx|]. cbn [foldl].
  apply NoDup_cons in Hd as [Ha Hd]. apply elem_of_cons in Hx as [-> |Hx]; [|by apply IH].
  clear IH Hd. assert (forall m : gmap string B, (forall b, b ∈ l -> key b <> key a) -> m !! key a = Some (val a) ->
    foldl (fun m b => <[key b := val b]> m) m l !! key a = Some (val a)) as H.
  { clear. induction l as [|b l IH]; intros m Hn Hm; cbn [foldl]; [done|]. apply IH; [intros c Hc; apply Hn; by right|].
    rewrite lookup_insert_ne; [done|]. apply Hn. left. }
  apply H; [|apply lookup_insert_eq]. intros b Hb E. apply Ha. rewrite <- E. by apply list_elem_of_fmap_2.
Qed.

Lemma foldl_insert_None {A B} (key : A -> string) (val : A -> B) l (m : gmap string B) k :
  k ∉ key <$> l -> foldl (fun m a => <[key a := val a]> m) m l !! k = m !! k.
Proof.
  revert m. induction l as [|a l IH]; intros m Hk; [done|]. cbn [foldl]. cbn in Hk. apply not_elem_of_cons in Hk as [Hk Hl].
  rewrite IH by done. by apply lookup_insert_ne.
Qed.

(** ** Lists *)

Lemma elem_of_take_inv {A} n (l : list A) x : x ∈ take n l -> x ∈ l.
Proof. intros H. rewrite <- (take_drop n l). apply elem_of_app. by left. Qed.

Lemma stake_sdrop n s : stake n s +:+ sdrop n s = s.
Proof.
  revert s. induction n as [|n IH]; intros [|a s]; simpl; try done.
  change (String a (stake n s +:+ sdrop n s) = String a s). by rewrite IH.
Qed.

Lemma stake_app p s : stake (slen p) (p +:+ s) = p.
Proof.
  induction p as [|a p IH]; [by destruct s|].
  change (String a (stake (slen p) (p +:+ s)) = String a p). by rewrite IH.
Qed.

Lemma stake_app_le n p s : (n <= slen p)%nat -> stake n (p +:+ s) = stake n p.
Proof.
  revert n. induction p as [|a p IH]; intros n Hn.
  - assert (n = 0%nat) as -> by (change (slen "") with 0%nat in Hn; lia). by destruct s.
  - destruct n as [|n]; [done|]. change (slen (String a p)) with (S (slen p)) in Hn.
    change (String a (stake n (p +:+ s)) = String a (stake n p)). by rewrite IH by lia.
Qed.

Lemma slen_stake n s : (n <= slen s)%nat -> slen (stake n s) = n.
Proof.
  revert s. induction n as [|n IH]; intros [|a s] Hn; try done.
  - change (slen "") with 0%nat in Hn. lia.
  - change (slen (String a s)) with (S (slen s)) in Hn.
    change (S (slen (stake n s)) = S n). by rewrite IH by lia.
Qed.

Lemma TrimLeft1_idem s c : TrimLeft1 (TrimLeft1 s c) c = TrimLeft1 s c.
Proof.
  induction s as [|a s IH]; [done|]. simpl. destruct (Ascii.eqb a c) eqn:E; [done|]. simpl. by rewrite E.
Qed.
