(* ===== verification/Unicode.v ===== *)
(** * Text: the Go language's view of strings as UTF-8, and unicode/utf16

    [for _, r := range text], [[]rune(text)] and [string(runes)] decode and
    encode UTF-8; an invalid byte reads as U+FFFD and advances by one byte.
    [utf16.Encode], [utf16.Decode] and [utf16.RuneLen] are the library
    functions internal/message calls. *)

From S2P Require Import Prelude.

Definition RuneError : Z := 65533. (* U+FFFD *)

Definition in_range (lo hi z : Z) : bool := (lo <=? z) && (z <=? hi).
Definition cont (b : Z) : bool := in_range 128 191 b.

(** Well-formed two, three and four byte sequences (Unicode table 3-7). *)
Definition utf8_ok2 (b0 b1 : Z) : bool := in_range 194 223 b0 && cont b1.
Definition utf8_ok3 (b0 b1 b2 : Z) : bool :=
  ((b0 =? 224) && in_range 160 191 b1
   || in_range 225 236 b0 && cont b1
   || (b0 =? 237) && in_range 128 159 b1
   || in_range 238 239 b0 && cont b1) && cont b2.
Definition utf8_ok4 (b0 b1 b2 b3 : Z) : bool :=
  ((b0 =? 240) && in_range 144 191 b1
   || in_range 241 243 b0 && cont b1
   || (b0 =? 244) && in_range 128 143 b1) && cont b2 && cont b3.

(** The runes a [range] loop over the bytes yields. *)
Fixpoint runes_of_bytes (l : list Z) : list Z :=
  match l with
  | [] => []
  | b0 :: t =>
    if b0 <? 128 then b0 :: runes_of_bytes t
    else match t with
    | [] => RuneError :: runes_of_bytes t
    | b1 :: t1 =>
      if utf8_ok2 b0 b1 then (b0 - 192) * 64 + (b1 - 128) :: runes_of_bytes t1
      else match t1 with
      | [] => RuneError :: runes_of_bytes t
      | b2 :: t2 =>
        if utf8_ok3 b0 b1 b2
        then (b0 - 224) * 4096 + (b1 - 128) * 64 + (b2 - 128) :: runes_of_bytes t2
        else match t2 with
        | [] => RuneError :: runes_of_bytes t
        | b3 :: t3 =>
          if utf8_ok4 b0 b1 b2 b3
          then (b0 - 240) * 262144 + (b1 - 128) * 4096 + (b2 - 128) * 64 + (b3 - 128)
               :: runes_of_bytes t3
          else RuneError :: runes_of_bytes t
        end
      end
    end
  end.

Definition runes (s : string) : list Z := runes_of_bytes (bytes_of_string s).

(** A rune that UTF-8 can carry: a Unicode scalar value. *)
Definition scalarb (r : Z) : bool := in_range 0 55295 r || in_range 57344 1114111 r.
Definition scalar (r : Z) : Prop := 0 <= r < 55296 \/ 57344 <= r < 1114112.

(** [utf8.AppendRune]. *)
Definition encode_rune (r : Z) : list Z :=
  if negb (scalarb r) then [239; 191; 189]
  else if r <? 128 then [r]
  else if r <? 2048 then [192 + r / 64; 128 + r mod 64]
  else if r <? 65536 then [224 + r / 4096; 128 + (r / 64) mod 64; 128 + r mod 64]
  else [240 + r / 262144; 128 + (r / 4096) mod 64; 128 + (r / 64) mod 64; 128 + r mod 64].

(** [string(rs)] for a rune slice, and [strings.Builder.WriteRune] in sequence. *)
Definition string_of_runes (rs : list Z) : string := string_of_bytes (rs ≫= encode_rune).

(** ** UTF-16 *)

(** [utf16.RuneLen]: -1 when the rune has no UTF-16 encoding. *)
Definition utf16_RuneLen (r : Z) : Z :=
  if in_range 0 55295 r || in_range 57344 65535 r then 1
  else if in_range 65536 1114111 r then 2 else -1.

Definition utf16_encode_rune (r : Z) : list Z :=
  if in_range 0 55295 r || in_range 57344 65535 r then [r]
  else if in_range 65536 1114111 r
  then [55296 + ((r - 65536) / 1024) mod 1024; 56320 + (r - 65536) mod 1024]
  else [RuneError].

Definition utf16_Encode (rs : list Z) : list Z := rs ≫= utf16_encode_rune.

Fixpoint utf16_Decode (l : list Z) : list Z :=
  match l with
  | [] => []
  | u :: t =>
    if (u <? 55296) || (57344 <=? u) then u :: utf16_Decode t
    else match t with
    | v :: t' =>
      if in_range 55296 56319 u && in_range 56320 57343 v
      then (u - 55296) * 1024 + (v - 56320) + 65536 :: utf16_Decode t'
      else RuneError :: utf16_Decode t
    | [] => RuneError :: utf16_Decode t
    end
  end.

(** ** Case folding

    The source compares folded or lowered strings with ASCII literals only
    ([strings.EqualFold(enc, "gsm7")], [switch strings.ToLower(s)]). On such
    comparisons the Unicode tables act as follows: A-Z map to a-z; under
    simple folding U+017F is an s and U+212A a k; under lowering U+212A is k
    and U+0130 is i; no other non-ASCII rune maps into ASCII. *)

Definition ascii_lower (r : Z) : Z := if in_range 65 90 r then r + 32 else r.
Definition fold_rune (r : Z) : Z :=
  if r =? 383 then 115 else if r =? 8490 then 107 else ascii_lower r.
Definition lower_rune (r : Z) : Z :=
  if r =? 8490 then 107 else if r =? 304 then 105 else ascii_lower r.

(** [strings.EqualFold(s, lit)] for an ASCII literal. *)
Definition EqualFold (s lit : string) : bool :=
  bool_decide (fold_rune <$> runes s = fold_rune <$> runes lit).

(** [strings.ToLower(s) == lit] for an ASCII literal in lower case. *)
Definition ToLowerEq (s lit : string) : bool :=
  bool_decide (lower_rune <$> runes s = runes lit).

(** ** Properties *)

(** The byte tests are boolean combinations of comparisons, which [lia] decides. *)
Ltac ubool := unfold utf8_ok2, utf8_ok3, utf8_ok4, scalarb, cont, in_range in *; lia.

Lemma scalarb_spec r : scalarb r = true <-> scalar r.
Proof. unfold scalar. split; intros; ubool. Qed.

Lemma RuneError_scalar : scalar RuneError.
Proof. unfold scalar, RuneError. lia. Qed.

(** Encoding a scalar value then decoding consumes exactly its bytes. *)
Lemma runes_encode_rune r t :
  scalar r -> runes_of_bytes (encode_rune r ++ t) = r :: runes_of_bytes t.
Proof.
  intros Hr. unfold encode_rune. rewrite (proj2 (scalarb_spec r) Hr). simpl.
  destruct (Z.ltb_spec r 128) as [H1|H1].
  { simpl. destruct (Z.ltb_spec r 128); [done|lia]. }
  destruct (Z.ltb_spec r 2048) as [H2|H2].
  { simpl. destruct (Z.ltb_spec (192 + r / 64) 128); [zlia|].
    destruct (utf8_ok2 (192 + r / 64) (128 + r mod 64)) eqn:E.
    - f_equal. zlia.
    - exfalso. assert (2 <= r / 64 < 32) by zlia. assert (0 <= r mod 64 < 64) by zlia. ubool. }
  destruct (Z.ltb_spec r 65536) as [H3|H3].
  { simpl. assert (0 <= r mod 64 < 64) by zlia. assert (0 <= (r / 64) mod 64 < 64) by zlia.
    assert (0 <= r / 4096 < 16) by zlia.
    assert (r = r / 4096 * 4096 + (r / 64) mod 64 * 64 + r mod 64) as Hsum.
    { pose proof (Z.div_div r 64 64 ltac:(lia) ltac:(lia)). zlia. }
    generalize dependent (r mod 64). generalize dependent ((r / 64) mod 64).
    generalize dependent (r / 4096). intros a Ha b Hb c Hc Hsum.
    destruct (Z.ltb_spec (224 + a) 128); [lia|].
    destruct (utf8_ok2 (224 + a) (128 + b)) eqn:E2; [ubool|].
    destruct (utf8_ok3 (224 + a) (128 + b) (128 + c)) eqn:E3; [f_equal; lia|].
    exfalso. unfold scalar in Hr. ubool. }
  simpl. assert (0 <= r mod 64 < 64) by zlia. assert (0 <= (r / 64) mod 64 < 64) by zlia.
  assert (0 <= (r / 4096) mod 64 < 64) by zlia. assert (0 <= r / 262144 < 5) by (destruct Hr; zlia).
  assert (r = r / 262144 * 262144 + (r / 4096) mod 64 * 4096 + (r / 64) mod 64 * 64 + r mod 64) as Hsum.
  { pose proof (Z.div_div r 64 64 ltac:(lia) ltac:(lia)).
    pose proof (Z.div_div r 4096 64 ltac:(lia) ltac:(lia)). zlia. }
  generalize dependent (r mod 64). generalize dependent ((r / 64) mod 64).
  generalize dependent ((r / 4096) mod 64). generalize dependent (r / 262144).
  intros a Ha b Hb c Hc d Hd Hsum.
  destruct (Z.ltb_spec (240 + a) 128); [lia|].
  destruct (utf8_ok2 (240 + a) (128 + b)) eqn:E2; [ubool|].
  destruct (utf8_ok3 (240 + a) (128 + b) (128 + c)) eqn:E3; [ubool|].
  destruct (utf8_ok4 (240 + a) (128 + b) (128 + c) (128 + d)) eqn:E4; [f_equal; lia|].
  exfalso. unfold scalar in Hr. ubool.
Qed.

Lemma encode_rune_u8 r : Forall is_u8 (encode_rune r).
Proof.
  unfold encode_rune, is_u8. destruct (scalarb r) eqn:E; simpl.
  - apply scalarb_spec in E. unfold scalar in E.
    bdestr; repeat constructor; zlia.
  - repeat constructor; lia.
Qed.

Lemma encode_runes_u8 rs : Forall is_u8 (rs ≫= encode_rune).
Proof. induction rs; csimpl; [constructor|]. apply Forall_app; auto using encode_rune_u8. Qed.

Lemma runes_of_encode rs t :
  Forall scalar rs -> runes_of_bytes ((rs ≫= encode_rune) ++ t) = rs ++ runes_of_bytes t.
Proof.
  induction 1 as [|r rs Hr _ IH]; [done|]. csimpl.
  by rewrite <- app_assoc, runes_encode_rune, IH.
Qed.

(** Decoding the UTF-8 encoding of scalar values gives them back. *)
Lemma runes_string_of_runes rs : Forall scalar rs -> runes (string_of_runes rs) = rs.
Proof.
  intros H. unfold runes, string_of_runes.
  rewrite bytes_of_string_of_bytes by apply encode_runes_u8.
  pose proof (runes_of_encode rs [] H) as E. by rewrite !app_nil_r in E.
Qed.

Lemma string_of_runes_app rs rs' :
  string_of_runes (rs ++ rs') = string_of_runes rs +:+ string_of_runes rs'.
Proof. unfold string_of_runes. by rewrite bind_app, string_of_bytes_app. Qed.

(** A text is valid UTF-8 when it is the encoding of some scalar values. *)
Definition valid_utf8 (s : string) : Prop := exists rs, Forall scalar rs /\ s = string_of_runes rs.

Lemma string_of_runes_runes s : valid_utf8 s -> string_of_runes (runes s) = s.
Proof. intros (rs & H & ->). by rewrite runes_string_of_runes. Qed.

(** Whatever the bytes, a [range] loop yields scalar values only. *)
Lemma runes_of_bytes_scalar l : Forall is_u8 l -> Forall scalar (runes_of_bytes l).
Proof.
  remember (length l) as n eqn:Hn. revert l Hn.
  induction n as [n IH] using lt_wf_ind. intros l -> Hl.
  destruct l as [|b0 t]; [constructor|]. inversion_clear Hl as [|? ? Hb0 Ht].
  assert (forall k, Forall scalar (runes_of_bytes (drop k t))) as IHk.
  { intros k. eapply (IH (length (drop k t))); [|done|by apply Forall_drop].
    rewrite length_drop. simpl. lia. }
  pose proof (IHk 0%nat) as I0. rewrite drop_0 in I0. cbn [runes_of_bytes].
  destruct (Z.ltb_spec b0 128); [constructor; [unfold scalar, is_u8 in *; lia|done]|].
  destruct t as [|b1 t1]; [constructor; [apply RuneError_scalar|done]|].
  pose proof (IHk 1%nat) as I1. cbn [drop] in I1. rewrite drop_0 in I1.
  destruct (utf8_ok2 b0 b1) eqn:E2; [constructor; [unfold scalar; ubool|done]|].
  destruct t1 as [|b2 t2]; [constructor; [apply RuneError_scalar|done]|].
  pose proof (IHk 2%nat) as I2. cbn [drop] in I2. rewrite drop_0 in I2.
  destruct (utf8_ok3 b0 b1 b2) eqn:E3; [constructor; [unfold scalar; ubool|done]|].
  destruct t2 as [|b3 t3]; [constructor; [apply RuneError_scalar|done]|].
  pose proof (IHk 3%nat) as I3. cbn [drop] in I3. rewrite drop_0 in I3.
  destruct (utf8_ok4 b0 b1 b2 b3) eqn:E4; [constructor; [unfold scalar; ubool|done]|].
  constructor; [apply RuneError_scalar|done].
Qed.

Lemma runes_scalar s : Forall scalar (runes s).
Proof. apply runes_of_bytes_scalar, bytes_of_string_u8. Qed.

(** ASCII text: one rune per byte. *)
Lemma runes_of_bytes_ascii l : Forall (fun b => 0 <= b < 128) l -> runes_of_bytes l = l.
Proof.
  induction 1 as [|b l Hb _ IH]; [done|]. cbn [runes_of_bytes].
  destruct (Z.ltb_spec b 128); [by rewrite IH|lia].
Qed.

(** ** UTF-16 *)

Lemma utf16_RuneLen_scalar r : scalar r -> 1 <= utf16_RuneLen r <= 2.
Proof. unfold scalar, utf16_RuneLen, in_range. intros. bdestr; simpl; lia. Qed.

Lemma length_utf16_encode_rune r :
  scalar r -> Z.of_nat (length (utf16_encode_rune r)) = utf16_RuneLen r.
Proof. unfold scalar, utf16_RuneLen, utf16_encode_rune, in_range. intros. bdestr; simpl; lia. Qed.

Lemma utf16_decode_encode_rune r t :
  scalar r -> utf16_Decode (utf16_encode_rune r ++ t) = r :: utf16_Decode t.
Proof.
  intros Hr. unfold utf16_encode_rune.
  destruct (in_range 0 55295 r || in_range 57344 65535 r) eqn:E1.
  { cbn [app utf16_Decode].
    destruct ((r <? 55296) || (57344 <=? r)) eqn:E; [done|]. unfold in_range in *. lia. }
  destruct (in_range 65536 1114111 r) eqn:E2; [|unfold in_range, scalar in *; lia].
  unfold in_range in E2. assert (65536 <= r <= 1114111) as Hb by lia. clear E1 E2 Hr.
  assert (0 <= (r - 65536) / 1024 < 1024) by zlia.
  rewrite (Z.mod_small ((r - 65536) / 1024)) by done.
  assert (0 <= (r - 65536) mod 1024 < 1024) by zlia.
  assert ((r - 65536) / 1024 * 1024 + (r - 65536) mod 1024 + 65536 = r) by zlia.
  cbn [app utf16_Decode].
  destruct (_ || _) eqn:E3; [lia|].
  destruct (_ && _) eqn:E4; [f_equal; lia|]. unfold in_range in E4. lia.
Qed.

Lemma utf16_decode_encode rs : Forall scalar rs -> utf16_Decode (utf16_Encode rs) = rs.
Proof.
  unfold utf16_Encode. induction 1 as [|r rs Hr _ IH]; [done|]. csimpl.
  by rewrite utf16_decode_encode_rune, IH.
Qed.

Lemma utf16_encode_rune_u16 r : Forall is_u16 (utf16_encode_rune r).
Proof.
  unfold utf16_encode_rune, is_u16, in_range, RuneError. bdestr; simpl; repeat constructor; zlia.
Qed.

Lemma utf16_Encode_u16 rs : Forall is_u16 (utf16_Encode rs).
Proof.
  unfold utf16_Encode.
  induction rs; csimpl; [constructor|]. apply Forall_app; auto using utf16_encode_rune_u16.
Qed.

#[export] Hint Resolve runes_scalar encode_runes_u8 utf16_Encode_u16 : mysmpp.

(** Text whose decoding shows no U+FFFD is valid UTF-8: encoding gives it back. *)
Lemma encode_decoded_bytes l :
  Forall is_u8 l -> RuneError ∉ runes_of_bytes l -> (runes_of_bytes l ≫= encode_rune) = l.
Proof.
  remember (length l) as n eqn:Hn. revert l Hn.
  induction n as [n IH] using lt_wf_ind. intros l -> Hl Hne.
  destruct l as [|b0 t]; [done|]. inversion_clear Hl as [|? ? Hb0 Ht].
  assert (forall t', (length t' <= length t)%nat -> Forall is_u8 t' ->
    RuneError ∉ runes_of_bytes t' -> (runes_of_bytes t' ≫= encode_rune) = t') as IHt.
  { intros t' Hlen. apply (IH (length t')); simpl; lia || done. }
  unfold is_u8 in Hb0. cbn [runes_of_bytes] in *.
  destruct (Z.ltb_spec b0 128).
  { apply not_elem_of_cons in Hne as [_ Hne]. csimpl. rewrite IHt by done.
    unfold encode_rune. destruct (scalarb b0) eqn:E; [|ubool].
    simpl. destruct (Z.ltb_spec b0 128); [done|lia]. }
  destruct t as [|b1 t1]; [exfalso; apply Hne; constructor|].
  inversion_clear Ht as [|? ? Hb1 Ht1].
  destruct (utf8_ok2 b0 b1) eqn:E2.
  { apply not_elem_of_cons in Hne as [_ Hne]. csimpl. rewrite IHt by (done || simpl; lia).
    assert (194 <= b0 <= 223 /\ 128 <= b1 <= 191) as [H0 H1] by ubool.
    set (r := (b0 - 192) * 64 + (b1 - 128)). assert (128 <= r < 2048) as Hr by (subst r; lia).
    unfold encode_rune. destruct (scalarb r) eqn:E; [|ubool]. simpl.
    destruct (Z.ltb_spec r 128); [lia|]. destruct (Z.ltb_spec r 2048); [|lia].
    simpl. repeat f_equal; subst r; zlia. }
  destruct t1 as [|b2 t2]; [exfalso; apply Hne; constructor|].
  inversion_clear Ht1 as [|? ? Hb2 Ht2].
  destruct (utf8_ok3 b0 b1 b2) eqn:E3.
  { apply not_elem_of_cons in Hne as [_ Hne]. csimpl. rewrite IHt by (done || simpl; lia).
    assert (224 <= b0 <= 239 /\ 128 <= b1 <= 191 /\ 128 <= b2 <= 191 /\
      (b0 = 224 -> 160 <= b1) /\ (b0 = 237 -> b1 <= 159)) as (H0 & H1 & H2 & H3 & H4) by ubool.
    set (r := (b0 - 224) * 4096 + (b1 - 128) * 64 + (b2 - 128)).
    assert (2048 <= r < 65536) as Hr by (subst r; lia).
    unfold encode_rune. destruct (scalarb r) eqn:E.
    2:{ exfalso. subst r. ubool. }
    simpl. destruct (Z.ltb_spec r 128); [lia|]. destruct (Z.ltb_spec r 2048); [lia|].
    destruct (Z.ltb_spec r 65536); [|lia]. simpl. repeat f_equal; subst r; zlia. }
  destruct t2 as [|b3 t3]; [exfalso; apply Hne; constructor|].
  inversion_clear Ht2 as [|? ? Hb3 Ht3].
  destruct (utf8_ok4 b0 b1 b2 b3) eqn:E4; [|exfalso; apply Hne; constructor].
  apply not_elem_of_cons in Hne as [_ Hne]. csimpl. rewrite IHt by (done || simpl; lia).
  assert (240 <= b0 <= 244 /\ 128 <= b1 <= 191 /\ 128 <= b2 <= 191 /\ 128 <= b3 <= 191 /\
    (b0 = 240 -> 144 <= b1) /\ (b0 = 244 -> b1 <= 143)) as (H0 & H1 & H2 & H3 & H4 & H5) by ubool.
  set (r := (b0 - 240) * 262144 + (b1 - 128) * 4096 + (b2 - 128) * 64 + (b3 - 128)).
  assert (65536 <= r < 1114112) as Hr by (subst r; lia).
  unfold encode_rune. destruct (scalarb r) eqn:E; [|exfalso; subst r; ubool].
  simpl. destruct (Z.ltb_spec r 128); [lia|]. destruct (Z.ltb_spec r 2048); [lia|].
  destruct (Z.ltb_spec r 65536); [lia|]. simpl. repeat f_equal; subst r; zlia.
Qed.

Lemma valid_utf8_no_error s : RuneError ∉ runes s -> valid_utf8 s.
Proof.
  intros H. exists (runes s). split; [apply runes_scalar|].
  unfold string_of_runes, runes. rewrite encode_decoded_bytes; [|apply bytes_of_string_u8|done].
  by rewrite string_of_bytes_of_string.
Qed.

(** ** White space and upper case *)

(** [unicode.IsSpace]. *)
Definition is_space (r : Z) : bool :=
  in_range 9 13 r || (r =? 32) || (r =? 133) || (r =? 160) || (r =? 5760) || in_range 8192 8202 r
  || (r =? 8232) || (r =? 8233) || (r =? 8239) || (r =? 8287) || (r =? 12288).

Fixpoint trim_left_runes (rs : list Z) : list Z :=
  match rs with
  | r :: rs' => if is_space r then trim_left_runes rs' else rs
  | [] => []
  end.

Definition trim_runes (rs : list Z) : list Z := reverse (trim_left_runes (reverse (trim_left_runes rs))).

(** [unicode.ToUpper] as far as ASCII results go: the dotless i and the long s
    are the only runes outside ASCII whose upper case is in ASCII. *)
Definition upper_rune (r : Z) : Z :=
  if in_range 97 122 r then r - 32 else if r =? 305 then 73 else if r =? 383 then 83 else r.

(** [strings.ToUpper(strings.TrimSpace(s))], compared by the code with ASCII
    words only. *)
Definition ToUpperTrim (s : string) : string := string_of_runes (upper_rune <$> trim_runes (runes s)).
