(* ===== verification/Codec.v ===== *)
(** * Message text codecs: internal/message/codec.go

    The GSM 03.38 alphabet with its extension table, septet packing, UCS-2 and
    Latin-1, and the heuristics that recognise unpacked ASCII. The results:
    the packer is characterised bit by bit, packing and unpacking are inverse
    up to the one ambiguity of the format, and UCS-2 and Latin-1 round trip. *)

From S2P Require Import Prelude Unicode.

(** ** The alphabet *)

(** [gsm7DefaultRunes]: the rune of each septet, 0 at the escape code 0x1B. *)
Definition gsm7DefaultRunes : list Z :=
  [64; 163; 36; 165; 232; 233; 249; 236; 242; 199; 10; 216; 248; 13; 197; 229;
   916; 95; 934; 915; 923; 937; 928; 936; 931; 920; 926; 0; 198; 230; 223; 201;
   32; 33; 34; 35; 164; 37; 38; 39; 40; 41; 42; 43; 44; 45; 46; 47;
   48; 49; 50; 51; 52; 53; 54; 55; 56; 57; 58; 59; 60; 61; 62; 63;
   161; 65; 66; 67; 68; 69; 70; 71; 72; 73; 74; 75; 76; 77; 78; 79;
   80; 81; 82; 83; 84; 85; 86; 87; 88; 89; 90; 196; 214; 209; 220; 167;
   191; 97; 98; 99; 100; 101; 102; 103; 104; 105; 106; 107; 108; 109; 110; 111;
   112; 113; 114; 115; 116; 117; 118; 119; 120; 121; 122; 228; 246; 241; 252; 224].

(** [gsm7ExtToRune]: form feed, ^, {, }, backslash, [, ~, ], | and the euro sign. *)
Definition gsm7ExtToRune : gmap Z Z :=
  list_to_map [(10, 12); (20, 94); (40, 123); (41, 125); (47, 92); (60, 91);
               (61, 126); (62, 93); (64, 124); (101, 8364)].

(** [init]: the two inverse tables, filled by a loop over each table. *)
Definition gsm7DefaultCodes : gmap Z Z :=
  foldl (fun m '(i, r) => if r =? 0 then m else <[r := u8 (Z.of_nat i)]> m) ∅
        (imap (fun i r => (i, r)) gsm7DefaultRunes).

Definition gsm7RuneToExt : gmap Z Z :=
  foldl (fun m '(code, r) => <[r := code]> m) ∅ (map_to_list gsm7ExtToRune).

(** ** Encoding *)

(** The septets one rune contributes; a rune outside the alphabet becomes '?'. *)
Definition gsm7_codes (r : Z) : list Z :=
  match gsm7DefaultCodes !! r with
  | Some code => [code]
  | None =>
    match gsm7RuneToExt !! r with
    | Some code => [27; code]
    | None => [default 0 (gsm7DefaultCodes !! 63)]
    end
  end.

Definition gsm7_septets (text : string) : list Z := runes text ≫= gsm7_codes.

Definition EncodeGSM7Unpacked (text : string) : list Z := gsm7_septets text.

(** One turn of the packing loop: [out[k] |= septet << shift] and, when the
    septet crosses the byte, [out[k+1] |= septet >> (8 - shift)]. *)
Definition pack_step (i : nat) (septet : Z) (out : list Z) : list Z :=
  let bit := (i * 7)%nat in
  let byteIndex := (bit / 8)%nat in
  let shift := (bit mod 8)%nat in
  let out := <[byteIndex := Z.lor out.[byteIndex] (u8 (Z.shiftl septet (Z.of_nat shift)))]> out in
  if (1 <? shift)%nat && (byteIndex + 1 <? length out)%nat
  then <[(byteIndex + 1)%nat :=
           Z.lor out.[(byteIndex + 1)%nat] (Z.shiftr septet (8 - Z.of_nat shift))]> out
  else out.

Fixpoint pack_loop (septets : list Z) (i : nat) (out : list Z) : list Z :=
  match septets with
  | [] => out
  | septet :: rest => pack_loop rest (S i) (pack_step i septet out)
  end.

Definition pack_septets (septets : list Z) : list Z :=
  pack_loop septets 0 (replicate ((length septets * 7 + 7) / 8) 0).

Definition encodeGSM7Packed (text : string) : list Z := pack_septets (gsm7_septets text).

(** Big-endian UCS-2 bytes. *)
Definition u16_bytes (c : Z) : list Z := [u8 (Z.shiftr c 8); u8 c].

Definition EncodeText (text : string) (dataCoding : Z) : list Z :=
  if dataCoding =? 8 then utf16_Encode (runes text) ≫= u16_bytes
  else if dataCoding =? 3 then (fun r => if 255 <? r then 63 else u8 r) <$> runes text
  else encodeGSM7Packed text.

(** ** Decoding *)

Definition septet_at (body : list Z) (i : nat) : Z :=
  let bit := (i * 7)%nat in
  let byteIndex := (bit / 8)%nat in
  let shift := (bit mod 8)%nat in
  let value := Z.land (Z.shiftr body.[byteIndex] (Z.of_nat shift)) 127 in
  if (1 <? shift)%nat && (byteIndex + 1 <? length body)%nat
  then Z.lor value
         (Z.land (u8 (Z.shiftl body.[(byteIndex + 1)%nat] (8 - Z.of_nat shift))) 127)
  else value.

(** [for i := 0; i < septetCount; i++] with its [break]. *)
Fixpoint unpack_loop (body : list Z) (i n : nat) : list Z :=
  match n with
  | O => []
  | S n =>
    if (length body <=? i * 7 / 8)%nat then []
    else septet_at body i :: unpack_loop body (S i) n
  end.

Fixpoint gsm7_runes (septets : list Z) : list Z :=
  match septets with
  | [] => []
  | code :: rest =>
    let plain :=
      match gsm7DefaultRunes !! Z.to_nat code with
      | Some r => if r =? 0 then gsm7_runes rest else r :: gsm7_runes rest
      | None => gsm7_runes rest
      end in
    if code =? 27 then
      match rest with
      | e :: rest' =>
        match gsm7ExtToRune !! e with
        | Some r => r :: gsm7_runes rest'
        | None => gsm7_runes rest'
        end
      | [] => plain
      end
    else plain
  end.

(** The septets of a packed body: all of them, less a zero in the last place
    of a body whose length is a multiple of seven. *)
Definition unpack_septets (body : list Z) : list Z :=
  let septets := unpack_loop body 0 (length body * 8 / 7) in
  if (length body mod 7 =? 0)%nat && bool_decide (last septets = Some 0)
  then take (length septets - 1) septets
  else septets.

Definition decodeGSM7Packed (body : list Z) : string :=
  match body with
  | [] => EmptyString
  | _ => string_of_runes (gsm7_runes (unpack_septets body))
  end.

Fixpoint u16_pairs (body : list Z) : list Z :=
  match body with
  | hi :: lo :: rest => Z.lor (u16 (Z.shiftl hi 8)) lo :: u16_pairs rest
  | _ => []
  end.

Definition DecodeText (body : list Z) (dataCoding : Z) : string :=
  if dataCoding =? 8 then
    if negb (length body mod 2 =? 0)%nat then string_of_bytes body
    else string_of_runes (utf16_Decode (u16_pairs body))
  else if dataCoding =? 3 then string_of_runes body
  else decodeGSM7Packed body.

(** ** Unpacked ASCII heuristics *)

Definition is_control (r : Z) : bool := (r =? 13) || (r =? 10) || (r =? 9).

Definition isLikelyUnpackedASCII (body : list Z) : bool :=
  match body with
  | [] => false
  | _ => forallb (fun b => is_control b || negb ((b <? 32) || (126 <? b))) body
  end.

Definition isMostlyPrintableASCII (text : string) : bool :=
  if String.eqb text "" then true
  else
    let rs := runes text in
    let total := Z.of_nat (length rs) in
    let printable :=
      Z.of_nat (length (List.filter
        (fun r => is_control r || ((32 <=? r) && (r <=? 126))) rs)) in
    90 <=? printable * 100 / total.

Definition containsASCIIControl (text : string) : bool := existsb is_control (runes text).

Definition rune_score (r : Z) : Z :=
  if (97 <=? r) && (r <=? 122) then 4
  else if (65 <=? r) && (r <=? 90) then 3
  else if (48 <=? r) && (r <=? 57) then 2
  else if r =? 32 then 4
  else if (r =? 46) || (r =? 44) || (r =? 33) || (r =? 63) || (r =? 45) || (r =? 95)
          || (r =? 58) || (r =? 59) || (r =? 39) || (r =? 34) then 1
  else if is_control r then -8
  else if (32 <=? r) && (r <=? 126) then -1
  else -4.

(** Go's integer division truncates toward zero. *)
Definition textScore (text : string) : Z :=
  if String.eqb text "" then 0
  else Z.quot (foldl (fun s r => s + rune_score r) 0 (runes text) * 100)
              (Z.of_nat (length (runes text))).

Definition isLikelyUnpackedSubmit (body : list Z) (packedDecoded : string) : bool :=
  if negb (isMostlyPrintableASCII packedDecoded) then true
  else
    let raw := string_of_bytes body in
    if negb (containsASCIIControl raw) && containsASCIIControl packedDecoded then true
    else textScore packedDecoded + 20 <? textScore raw.

Definition DecodeSubmitText (body : list Z) (dataCoding : Z) : string :=
  let decoded := DecodeText body dataCoding in
  if (dataCoding =? 0) && isLikelyUnpackedASCII body && isLikelyUnpackedSubmit body decoded
  then string_of_bytes body
  else decoded.

(** ** Packing, bit by bit *)

(** Bit [n] of a byte string, least significant bit of each byte first, and bit
    [n] of a string of septets. *)
Definition bit_of_bytes (l : list Z) (n : nat) : bool :=
  Z.testbit l.[(n / 8)%nat] (Z.of_nat (n mod 8)).
Definition bit_of_septets (l : list Z) (n : nat) : bool :=
  Z.testbit l.[(n / 7)%nat] (Z.of_nat (n mod 7)).

Definition is_septet (z : Z) : Prop := 0 <= z < 128.

Lemma septet_bits_high s j : is_septet s -> 7 <= j -> Z.testbit s j = false.
Proof.
  intros [H0 H1] Hj. destruct (Z.eqb_spec s 0) as [->|Hne]; [apply Z.bits_0|].
  apply Z.bits_above_log2; [done|]. enough (Z.log2 s < 7) by lia.
  apply Z.log2_lt_pow2; [lia|]. done.
Qed.

Lemma u8_testbit z j : 0 <= j -> Z.testbit (u8 z) j = (j <? 8) && Z.testbit z j.
Proof.
  intros. unfold u8. change 256 with (2 ^ 8).
  destruct (Z.ltb_spec j 8); [apply Z.mod_pow2_bits_low|apply Z.mod_pow2_bits_high]; lia.
Qed.

Lemma at0_beyond (l : list Z) n : (length l <= n)%nat -> l.[n] = 0.
Proof. intros H. unfold at0. by rewrite lookup_ge_None_2. Qed.

Lemma at0_insert (l : list Z) (k n : nat) x :
  (k < length l)%nat -> (<[k := x]> l).[n] = if (n =? k)%nat then x else l.[n].
Proof.
  intros Hk. unfold at0. destruct (Nat.eqb_spec n k) as [->|];
    [by rewrite list_lookup_insert_eq|by rewrite list_lookup_insert_ne].
Qed.

Lemma length_pack_step i s out : length (pack_step i s out) = length out.
Proof. unfold pack_step. case_match; by rewrite ?length_insert. Qed.

(** One turn of the loop ors the seven bits of the septet into place. *)
Lemma pack_step_bit i s out n :
  is_septet s -> (7 * (i + 1) <= 8 * length out)%nat ->
  bit_of_bytes (pack_step i s out) n
  = bit_of_bytes out n || ((n / 7 =? i)%nat && Z.testbit s (Z.of_nat (n mod 7))).
Proof.
  intros Hs Hlen. unfold bit_of_bytes, pack_step.
  remember (i * 7 / 8)%nat as k eqn:Hk. remember (i * 7 mod 8)%nat as sh eqn:Hsh.
  remember (n / 8)%nat as q eqn:Hq. remember (n mod 8)%nat as j eqn:Hj.
  assert (i * 7 = 8 * k + sh /\ sh < 8)%nat as [Hi Hsh8] by nlia.
  assert (n = 8 * q + j /\ j < 8)%nat as [Hn Hj8] by nlia.
  clear Hk Hsh Hq Hj. assert (k < length out)%nat as Hkl by lia.
  set (out1 := <[k := _]> out). set (out2 := <[(k + 1)%nat := _]> out1).
  assert (length out1 = length out) as Hl1 by (unfold out1; by rewrite length_insert).
  assert (forall z, Z.testbit (Z.lor out.[k] (u8 (Z.shiftl s (Z.of_nat sh)))) z
     = Z.testbit out.[k] z || Z.testbit (u8 (Z.shiftl s (Z.of_nat sh))) z) as E1
    by (intros; apply Z.lor_spec).
  assert ((if (1 <? sh)%nat && (k + 1 <? length out1)%nat then out2 else out1).[q]
    = if (q =? k)%nat then Z.lor out.[k] (u8 (Z.shiftl s (Z.of_nat sh)))
      else if (q =? k + 1)%nat && (1 <? sh)%nat && (k + 1 <? length out)%nat
      then Z.lor out.[q] (Z.shiftr s (8 - Z.of_nat sh)) else out.[q]) as ->.
  { rewrite Hl1. destruct (1 <? sh)%nat; simpl; [|rewrite andb_false_r; simpl].
    - destruct (Nat.ltb_spec (k + 1) (length out)) as [H1|H1]; simpl;
        rewrite ?andb_true_r, ?andb_false_r; simpl.
      + unfold out2. rewrite at0_insert by lia. unfold out1.
        rewrite !at0_insert by done.
        destruct (Nat.eqb_spec q (k + 1)) as [->|]; [|done].
        destruct (Nat.eqb_spec (k + 1) k); [lia|done].
      + unfold out1. rewrite at0_insert by done. by destruct (q =? k)%nat.
    - unfold out1. rewrite at0_insert by done. by destruct (q =? k)%nat. }
  clear out1 out2 Hl1.
  destruct (Nat.eqb_spec q k) as [->|Hqk].
  { rewrite E1. f_equal. rewrite u8_testbit, Z.shiftl_spec by lia.
    destruct (Z.ltb_spec (Z.of_nat j) 8); [simpl|lia].
    destruct (Nat.eqb_spec (n / 7) i) as [He|He]; simpl.
    - f_equal. nlia.
    - destruct (Nat.ltb_spec j sh); [apply Z.testbit_neg_r; lia|].
      apply septet_bits_high; [done|]. nlia. }
  destruct (Nat.eqb_spec q (k + 1)) as [->|Hqk1]; simpl.
  - destruct (Nat.ltb_spec 1 sh); simpl.
    + destruct (Nat.ltb_spec (k + 1) (length out)).
      * rewrite Z.lor_spec, Z.shiftr_spec by lia. f_equal.
        destruct (Nat.eqb_spec (n / 7) i) as [He|He]; simpl; [f_equal; nlia|].
        apply septet_bits_high; [done|]. nlia.
      * destruct (Nat.eqb_spec (n / 7) i) as [He|He]; simpl; [nlia|by rewrite orb_false_r].
    + destruct (Nat.eqb_spec (n / 7) i) as [He|He]; simpl; [nlia|by rewrite orb_false_r].
  - destruct (Nat.eqb_spec (n / 7) i) as [He|He]; simpl; [nlia|by rewrite orb_false_r].
Qed.

Lemma pack_loop_bit l i out n :
  Forall is_septet l -> (7 * (i + length l) <= 8 * length out)%nat ->
  bit_of_bytes (pack_loop l i out) n
  = bit_of_bytes out n || ((i <=? n / 7)%nat && (n / 7 <? i + length l)%nat
                           && Z.testbit l.[(n / 7 - i)%nat] (Z.of_nat (n mod 7))).
Proof.
  intros Hl. revert i out. induction Hl as [|s l Hs _ IH]; intros i out Hlen; simpl in *.
  { destruct (Nat.leb_spec i (n / 7)), (Nat.ltb_spec (n / 7) (i + 0)); simpl;
      rewrite ?orb_false_r; done || lia. }
  rewrite IH by (rewrite length_pack_step; lia). rewrite pack_step_bit by (done || lia).
  rewrite <- orb_assoc. f_equal.
  destruct (Nat.eqb_spec (n / 7) i) as [He|He]; simpl.
  - rewrite He, Nat.sub_diag. simpl.
    destruct (Nat.leb_spec (S i) i), (Nat.leb_spec i i), (Nat.ltb_spec i (i + S (length l)));
      simpl; rewrite ?orb_false_r; done || lia.
  - destruct (Nat.leb_spec i (n / 7)), (Nat.leb_spec (S i) (n / 7)),
      (Nat.ltb_spec (n / 7) (S (i + length l))), (Nat.ltb_spec (n / 7) (i + S (length l)));
      simpl; try done; try lia.
    replace (n / 7 - i)%nat with (S (n / 7 - S i)) by lia. done.
Qed.

Lemma length_pack_loop l i out : length (pack_loop l i out) = length out.
Proof. revert i out. induction l; intros; simpl; [done|]. by rewrite IHl, length_pack_step. Qed.

Lemma length_pack_septets l : length (pack_septets l) = ((length l * 7 + 7) / 8)%nat.
Proof. unfold pack_septets. by rewrite length_pack_loop, length_replicate. Qed.

Lemma bit_of_zeros k n : bit_of_bytes (replicate k 0) n = false.
Proof.
  unfold bit_of_bytes. destruct (Nat.ltb_spec (n / 8) k).
  - unfold at0. rewrite lookup_replicate_2 by done. apply Z.bits_0.
  - rewrite at0_beyond by (rewrite length_replicate; lia). apply Z.bits_0.
Qed.

(** The packed string carries bit [n] of the septet string at bit [n]. *)
Lemma pack_septets_bit l n :
  Forall is_septet l ->
  bit_of_bytes (pack_septets l) n = (n <? 7 * length l)%nat && bit_of_septets l n.
Proof.
  intros Hl. unfold pack_septets. rewrite pack_loop_bit; [|done|rewrite length_replicate; nlia].
  rewrite bit_of_zeros. simpl. unfold bit_of_septets. rewrite Nat.sub_0_r.
  destruct (Nat.ltb_spec (n / 7) (length l)), (Nat.ltb_spec n (7 * length l)); simpl; done || nlia.
Qed.

(** ** Unpacking *)

Lemma septet_at_is_septet body i : is_septet (septet_at body i).
Proof.
  assert (forall z, Z.land z 127 = z mod 2 ^ 7) as Hl
    by (intros; change 127 with (Z.ones 7); apply Z.land_ones; lia).
  assert (forall z j, 7 <= j -> Z.testbit (Z.land z 127) j = false) as Hh.
  { intros z j Hj. rewrite Hl. apply Z.mod_pow2_bits_high. lia. }
  assert (forall z, 0 <= Z.land z 127 < 128) as Hb.
  { intros z. rewrite Hl. apply Z.mod_pos_bound. lia. }
  unfold is_septet, septet_at. case_match; [|apply Hb].
  match goal with |- 0 <= Z.lor ?a ?b < 128 => set (v := Z.lor a b) end.
  assert (v = v mod 2 ^ 7) as ->; [|apply Z.mod_pos_bound; lia].
  apply Z.bits_inj'. intros j Hj. destruct (Z.ltb_spec j 7).
  - by rewrite Z.mod_pow2_bits_low.
  - rewrite Z.mod_pow2_bits_high by lia. unfold v. rewrite Z.lor_spec, !Hh by lia. done.
Qed.

Lemma byte_bits_high b j : is_u8 b -> 8 <= j -> Z.testbit b j = false.
Proof.
  intros Hb Hj. assert (b = b mod 2 ^ 8) as -> by (rewrite Z.mod_small; unfold is_u8 in *; lia).
  apply Z.mod_pow2_bits_high. lia.
Qed.

Lemma at0_u8 l k : Forall is_u8 l -> is_u8 (l.[k]).
Proof.
  intros Hl. unfold at0. destruct (l !! k) eqn:E; simpl; [|unfold is_u8; lia].
  by eapply Forall_lookup_1 in E.
Qed.

(** A septet reads its seven bits. *)
Lemma septet_at_bit body i j :
  Forall is_u8 body -> (j < 7)%nat ->
  Z.testbit (septet_at body i) (Z.of_nat j) = bit_of_bytes body (i * 7 + j).
Proof.
  intros Hb Hj. unfold septet_at, bit_of_bytes.
  remember (i * 7 / 8)%nat as k eqn:Hk. remember (i * 7 mod 8)%nat as sh eqn:Hsh.
  assert (i * 7 = 8 * k + sh /\ sh < 8)%nat as [Hi Hsh8] by nlia. clear Hk Hsh.
  assert (forall z, Z.testbit (Z.land z 127) (Z.of_nat j) = Z.testbit z (Z.of_nat j)) as Hl.
  { intros z. change 127 with (Z.ones 7).
    rewrite Z.land_ones by lia. apply Z.mod_pow2_bits_low. lia. }
  destruct (Nat.ltb_spec (sh + j) 8) as [Hin|Hout].
  - replace ((i * 7 + j) / 8)%nat with k by nlia.
    replace ((i * 7 + j) mod 8)%nat with (sh + j)%nat by nlia.
    case_match.
    + rewrite Z.lor_spec, !Hl, Z.shiftr_spec, u8_testbit, Z.shiftl_spec by lia.
      rewrite (Z.testbit_neg_r (body.[(k + 1)%nat])) by lia.
      rewrite andb_false_r, orb_false_r. f_equal. lia.
    + rewrite Hl, Z.shiftr_spec by lia. f_equal. lia.
  - replace ((i * 7 + j) / 8)%nat with (k + 1)%nat by nlia.
    replace ((i * 7 + j) mod 8)%nat with (sh + j - 8)%nat by nlia.
    pose proof (at0_u8 body k Hb) as Hk.
    destruct (Nat.ltb_spec 1 sh); [simpl|lia].
    destruct (Nat.ltb_spec (k + 1) (length body)).
    + rewrite Z.lor_spec, !Hl, Z.shiftr_spec, u8_testbit, Z.shiftl_spec by lia.
      rewrite (byte_bits_high (body.[k])) by (done || lia). simpl.
      destruct (Z.ltb_spec (Z.of_nat j) 8); [simpl|lia]. f_equal. lia.
    + rewrite Hl, Z.shiftr_spec by lia. rewrite byte_bits_high by (done || lia).
      rewrite at0_beyond by lia. by rewrite Z.bits_0.
Qed.

Lemma u8_is_u8 z : is_u8 (u8 z).
Proof. unfold is_u8, u8. zlia. Qed.

Lemma lor_u8 a b : is_u8 a -> is_u8 b -> is_u8 (Z.lor a b).
Proof.
  intros Ha Hb. assert (Z.lor a b = Z.lor a b mod 2 ^ 8) as ->.
  - apply Z.bits_inj'. intros j Hj. destruct (Z.ltb_spec j 8).
    + by rewrite Z.mod_pow2_bits_low.
    + rewrite Z.mod_pow2_bits_high, Z.lor_spec, !byte_bits_high by (done || lia). done.
  - unfold is_u8. pose proof (Z.mod_pos_bound (Z.lor a b) (2 ^ 8)). lia.
Qed.

Lemma shiftr_septet_u8 s k : is_septet s -> 0 <= k -> is_u8 (Z.shiftr s k).
Proof.
  intros Hs Hk. unfold is_septet, is_u8 in *. rewrite Z.shiftr_div_pow2 by done.
  pose proof (Z.pow_pos_nonneg 2 k). split; [apply Z.div_pos; lia|].
  apply Z.div_lt_upper_bound; nia.
Qed.

Lemma pack_step_u8 i s out :
  is_septet s -> Forall is_u8 out -> Forall is_u8 (pack_step i s out).
Proof.
  intros Hs Ho. unfold pack_step.
  assert (Forall is_u8 (<[(i * 7 / 8)%nat :=
    Z.lor out.[(i * 7 / 8)%nat] (u8 (Z.shiftl s (Z.of_nat (i * 7 mod 8))))]> out)) as H1
    by (apply Forall_insert; auto using lor_u8, at0_u8, u8_is_u8).
  case_match; [|done]. apply Forall_insert; [done|].
  apply lor_u8; [by apply at0_u8|]. apply shiftr_septet_u8; [done|nlia].
Qed.

Lemma pack_septets_u8 l : Forall is_septet l -> Forall is_u8 (pack_septets l).
Proof.
  intros Hl. unfold pack_septets.
  assert (forall out, Forall is_u8 out -> forall i, Forall is_u8 (pack_loop l i out)) as H.
  { induction Hl; intros; simpl; auto using pack_step_u8. }
  apply H. apply Forall_replicate. unfold is_u8. lia.
Qed.

(** Reading septet [i] of a packed string gives septet [i], and zero past the end. *)
Lemma septet_at_pack l i : Forall is_septet l -> septet_at (pack_septets l) i = l.[i].
Proof.
  intros Hl. apply Z.bits_inj'. intros j Hj. destruct (Z.ltb_spec j 7) as [Hj7|Hj7].
  - replace j with (Z.of_nat (Z.to_nat j)) by lia.
    rewrite septet_at_bit, pack_septets_bit by (lia || auto using pack_septets_u8).
    unfold bit_of_septets.
    replace ((i * 7 + Z.to_nat j) / 7)%nat with i by nlia.
    replace ((i * 7 + Z.to_nat j) mod 7)%nat with (Z.to_nat j) by nlia.
    destruct (Nat.ltb_spec (i * 7 + Z.to_nat j) (7 * length l)); [done|].
    rewrite at0_beyond by lia. by rewrite Z.bits_0.
  - rewrite !septet_bits_high; try done; [|apply septet_at_is_septet].
    unfold at0. destruct (l !! i) eqn:E; simpl; [by eapply Forall_lookup_1 in E|].
    unfold is_septet; lia.
Qed.

Lemma unpack_loop_map body i n :
  (forall m, (i <= m < i + n)%nat -> (m * 7 / 8 < length body)%nat) ->
  unpack_loop body i n = septet_at body <$> seq i n.
Proof.
  revert i. induction n as [|n IH]; intros i H; [done|]. cbn [unpack_loop seq fmap list_fmap].
  pose proof (H i ltac:(lia)). destruct (Nat.leb_spec (length body) (i * 7 / 8)); [lia|].
  f_equal. apply IH. intros m Hm. apply H. lia.
Qed.

Lemma fmap_at0_seq (l : list Z) : at0 l <$> seq 0 (length l) = l.
Proof.
  apply list_eq. intros i. rewrite list_lookup_fmap. destruct (decide (i < length l)%nat) as [H|H].
  - rewrite lookup_seq_lt by done. simpl. unfold at0.
    destruct (lookup_lt_is_Some_2 l i H) as [x Hx]. by rewrite Hx.
  - rewrite lookup_seq_ge, lookup_ge_None_2 by lia. done.
Qed.

(** Unpacking a packed septet string gives it back, unless a final zero septet
    completes the last byte: that one the decoder drops. *)
Lemma unpack_pack l :
  Forall is_septet l ->
  unpack_septets (pack_septets l)
  = if (length l mod 8 =? 0)%nat && bool_decide (last l = Some 0)
    then take (length l - 1) l else l.
Proof.
  intros Hl. unfold unpack_septets.
  set (body := pack_septets l). set (count := (length body * 8 / 7)%nat).
  assert (length body = (length l * 7 + 7) / 8)%nat as Hlb by apply length_pack_septets.
  rewrite unpack_loop_map by (intros m Hm; subst count; nlia).
  rewrite (list_fmap_ext (septet_at body) (at0 l) (seq 0 count))
    by (intros; by apply septet_at_pack).
  destruct (decide (length l mod 8 = 7)%nat) as [H7|H7].
  - assert (count = S (length l)) as -> by (subst count; nlia).
    rewrite seq_S, fmap_app, fmap_at0_seq. simpl. rewrite at0_beyond by lia.
    destruct (Nat.eqb_spec (length l mod 8) 0); [lia|]. simpl.
    destruct (Nat.eqb_spec (length body mod 7) 0); [|nlia]. simpl.
    rewrite bool_decide_true by apply last_snoc.
    rewrite length_app. simpl. rewrite take_app_le by lia. by rewrite firstn_all2 by lia.
  - assert (count = length l) as -> by (subst count; nlia).
    rewrite fmap_at0_seq.
    destruct (Nat.eqb_spec (length l mod 8) 0), (Nat.eqb_spec (length body mod 7) 0);
      simpl; done || nlia.
Qed.

(** ** Encoding detection (message.go) *)

Definition isGSM7Basic (r : Z) : bool :=
  match gsm7DefaultCodes !! r with
  | Some _ => true
  | None => match gsm7RuneToExt !! r with Some _ => true | None => false end
  end.

Definition DetectEncoding (text : string) : string :=
  if forallb isGSM7Basic (runes text) then "gsm7" else "ucs2".

(** ** The tables are inverse *)

(** A boolean test on every entry of a table, decided by computation. *)
Lemma map_forallb {A} `{Countable K} (m : gmap K A) (P : K -> A -> bool) :
  forallb (fun kv => P kv.1 kv.2) (map_to_list m) = true ->
  forall k v, m !! k = Some v -> P k v = true.
Proof.
  intros Hm k v Hk. apply elem_of_map_to_list, list_elem_of_In in Hk.
  rewrite forallb_forall in Hm. by apply (Hm (k, v)).
Qed.

Definition default_code_test (r c : Z) : bool :=
  in_range 0 127 c && negb (c =? 27) && bool_decide (gsm7DefaultRunes !! Z.to_nat c = Some r)
  && negb (r =? 0) && scalarb r && negb (r =? RuneError) && (negb (c =? 0) || (r =? 64)).

Definition ext_code_test (r c : Z) : bool :=
  in_range 0 127 c && negb (c =? 0) && bool_decide (gsm7ExtToRune !! c = Some r)
  && scalarb r && negb (r =? RuneError).

Lemma default_codes_pass :
  forallb (fun kv => default_code_test kv.1 kv.2) (map_to_list gsm7DefaultCodes) = true.
Proof. vm_compute. reflexivity. Qed.

Lemma ext_codes_pass :
  forallb (fun kv => ext_code_test kv.1 kv.2) (map_to_list gsm7RuneToExt) = true.
Proof. vm_compute. reflexivity. Qed.

Lemma default_code_ok r c :
  gsm7DefaultCodes !! r = Some c ->
  is_septet c /\ c <> 27 /\ gsm7DefaultRunes !! Z.to_nat c = Some r /\ r <> 0 /\ scalar r
  /\ r <> RuneError /\ (c = 0 -> r = 64).
Proof.
  intros Hc. pose proof (map_forallb _ _ default_codes_pass r c Hc) as E.
  unfold default_code_test in E.
  rewrite !andb_true_iff, bool_decide_eq_true, scalarb_spec in E. unfold in_range, is_septet in *.
  intuition lia.
Qed.

Lemma ext_code_ok r c :
  gsm7RuneToExt !! r = Some c ->
  is_septet c /\ c <> 0 /\ gsm7ExtToRune !! c = Some r /\ scalar r /\ r <> RuneError.
Proof.
  intros Hc. pose proof (map_forallb _ _ ext_codes_pass r c Hc) as E.
  unfold ext_code_test in E.
  rewrite !andb_true_iff, bool_decide_eq_true, scalarb_spec in E. unfold in_range, is_septet in *.
  intuition lia.
Qed.

#[global] Opaque gsm7DefaultCodes gsm7RuneToExt gsm7ExtToRune gsm7DefaultRunes.
#[global] Arguments gsm7_codes : simpl never.
#[global] Arguments isGSM7Basic : simpl never.

Lemma gsm7_codes_septet r : Forall is_septet (gsm7_codes r).
Proof.
  unfold gsm7_codes. destruct (gsm7DefaultCodes !! r) eqn:E.
  { apply default_code_ok in E. apply Forall_singleton. tauto. }
  destruct (gsm7RuneToExt !! r) eqn:E'.
  { apply ext_code_ok in E'. constructor; [unfold is_septet; lia|apply Forall_singleton; tauto]. }
  apply Forall_singleton. by vm_compute.
Qed.

Lemma gsm7_septets_septet rs : Forall is_septet (rs ≫= gsm7_codes).
Proof. induction rs; csimpl; [constructor|]. apply Forall_app; auto using gsm7_codes_septet. Qed.

(** Decoding the septets of an alphabet rune yields the rune and goes on. *)
Lemma gsm7_runes_codes r t :
  isGSM7Basic r = true -> gsm7_runes (gsm7_codes r ++ t) = r :: gsm7_runes t.
Proof.
  unfold isGSM7Basic, gsm7_codes. destruct (gsm7DefaultCodes !! r) as [c|] eqn:E; intros H.
  { apply default_code_ok in E as (_ & Hc & Hr & Hr0 & _). cbn [app gsm7_runes].
    destruct (Z.eqb_spec c 27); [done|]. rewrite Hr. by destruct (Z.eqb_spec r 0). }
  destruct (gsm7RuneToExt !! r) as [c|] eqn:E'; [|done].
  apply ext_code_ok in E' as (_ & _ & Hr & _). cbn [app gsm7_runes]. simpl. by rewrite Hr.
Qed.

Lemma gsm7_runes_septets rs :
  Forall (fun r => isGSM7Basic r = true) rs -> gsm7_runes (rs ≫= gsm7_codes) = rs.
Proof. induction 1 as [|r rs Hr _ IH]; [done|]. csimpl. by rewrite gsm7_runes_codes, IH. Qed.

Lemma isGSM7Basic_no_error r : isGSM7Basic r = true -> r <> RuneError.
Proof.
  unfold isGSM7Basic. destruct (_ !! r) eqn:E; [apply default_code_ok in E; tauto|].
  destruct (gsm7RuneToExt !! r) eqn:E'; [apply ext_code_ok in E'; tauto|done].
Qed.

(** The last septet is zero exactly when the last rune is '@'. *)
Lemma last_septet_zero rs r :
  isGSM7Basic r = true -> last ((rs ++ [r]) ≫= gsm7_codes) = Some 0 <-> r = 64.
Proof.
  intros Hr. rewrite bind_app. csimpl. rewrite app_nil_r. unfold isGSM7Basic, gsm7_codes in *.
  destruct (gsm7DefaultCodes !! r) as [c|] eqn:E.
  { rewrite last_snoc. split; [|intros ->; by vm_compute in E].
    intros [= ->]. apply default_code_ok in E. tauto. }
  destruct (gsm7RuneToExt !! r) as [c|] eqn:E'; [|done].
  rewrite (cons_middle 27 _ [c]), app_assoc, last_snoc. apply ext_code_ok in E' as (_ & Hc & _).
  split; [congruence|]. intros ->. by vm_compute in E.
Qed.

(** ** Round trips *)

Lemma detect_gsm7 text :
  DetectEncoding text = "gsm7" -> Forall (fun r => isGSM7Basic r = true) (runes text).
Proof.
  unfold DetectEncoding. destruct (forallb _ _) eqn:E; [|done]. intros _.
  apply Forall_forall. intros r Hr. eapply forallb_forall in E; [done|]. by apply list_elem_of_In.
Qed.

Lemma gsm7_text_valid text : DetectEncoding text = "gsm7" -> valid_utf8 text.
Proof.
  intros H%detect_gsm7. apply valid_utf8_no_error. intros Hin.
  rewrite Forall_forall in H. by apply (isGSM7Basic_no_error RuneError); [apply H|].
Qed.

(** Whether packing loses the last character: the septets fill the bytes
    exactly and the text ends with '@'. *)
Definition drops_at (text : string) : bool :=
  (length (gsm7_septets text) mod 8 =? 0)%nat && bool_decide (last (runes text) = Some 64).

Lemma decode_pack_septets l :
  Forall is_septet l -> decodeGSM7Packed (pack_septets l) = string_of_runes (gsm7_runes (
    if (length l mod 8 =? 0)%nat && bool_decide (last l = Some 0) then take (length l - 1) l else l)).
Proof.
  intros Hl. rewrite <- unpack_pack by done. unfold decodeGSM7Packed.
  by destruct (pack_septets l) eqn:E.
Qed.

(** Packing a GSM 7-bit text and unpacking it gives the text back, except that a
    final @ is lost when the septets fill the last byte exactly. *)
Theorem gsm7_packed_roundtrip text :
  DetectEncoding text = "gsm7" ->
  DecodeText (EncodeText text 0) 0
  = if drops_at text then string_of_runes (take (length (runes text) - 1) (runes text)) else text.
Proof.
  intros Hd. pose proof (string_of_runes_runes _ (gsm7_text_valid _ Hd)) as Hv.
  apply detect_gsm7 in Hd. unfold DecodeText, EncodeText, encodeGSM7Packed, drops_at. simpl.
  rewrite decode_pack_septets by apply gsm7_septets_septet.
  unfold gsm7_septets. set (septets := runes text ≫= gsm7_codes).
  assert (bool_decide (last septets = Some 0) = bool_decide (last (runes text) = Some 64)) as ->.
  { subst septets. destruct (runes text) as [|r rs _] using rev_ind; [done|].
    apply bool_decide_ext. rewrite last_snoc. apply Forall_app in Hd as [_ Hd].
    inversion_clear Hd. rewrite last_septet_zero by done. split; congruence. }
  destruct (_ && _) eqn:E.
  - subst septets. destruct (runes text) as [|r rs _] using rev_ind; [by vm_compute in E|].
    apply andb_true_iff in E as [_ E]. apply bool_decide_eq_true in E. rewrite last_snoc in E.
    injection E as ->. apply Forall_app in Hd as [Hd _].
    rewrite bind_app, !length_app. csimpl. change (gsm7_codes 64) with [0]. simpl.
    rewrite !Nat.add_sub, !take_app_length. by rewrite gsm7_runes_septets.
  - subst septets. by rewrite gsm7_runes_septets.
Qed.

Lemma gsm7_packed_roundtrip_witness :
  DetectEncoding "Hello {1}" = "gsm7" /\ DecodeText (EncodeText "Hello {1}" 0) 0 = "Hello {1}".
Proof.
  split; [vm_compute; reflexivity|].
  etrans; [apply (gsm7_packed_roundtrip "Hello {1}"); vm_compute; reflexivity|].
  vm_compute. reflexivity.
Defined.

Lemma u16_pairs_bytes us : Forall is_u16 us -> u16_pairs (us ≫= u16_bytes) = us.
Proof.
  induction 1 as [|u us Hu _ IH]; [done|]. csimpl. rewrite IH. f_equal.
  unfold is_u16, u8, u16 in *. rewrite Z.shiftr_div_pow2 by lia. change (2 ^ 8) with 256.
  rewrite (Z.mod_small (u / 256)) by zlia.
  rewrite (Z.mod_small (Z.shiftl _ 8)) by (rewrite Z.shiftl_mul_pow2; zlia).
  rewrite lor_shiftl_8; unfold is_u8; zlia.
Qed.

Lemma length_u16_bytes us : length (us ≫= u16_bytes) = (2 * length us)%nat.
Proof. induction us; csimpl; [done|]. lia. Qed.

(** Encoding a valid text as UCS-2 and decoding it gives the text back,
    surrogate pairs included. *)
Theorem ucs2_roundtrip text :
  valid_utf8 text -> DecodeText (EncodeText text 8) 8 = text.
Proof.
  intros Hv. unfold DecodeText, EncodeText. simpl.
  rewrite length_u16_bytes. destruct (Nat.eqb_spec (2 * length (utf16_Encode (runes text)) mod 2) 0); [|nlia].
  simpl. rewrite u16_pairs_bytes by apply utf16_Encode_u16.
  rewrite utf16_decode_encode by apply runes_scalar. by apply string_of_runes_runes.
Qed.

Lemma valid_utf8_hi : valid_utf8 "hi".
Proof.
  exists [104; 105]. split; [|vm_compute; reflexivity].
  repeat (apply Forall_cons; split; [left; lia|]). apply Forall_nil_2.
Qed.

Lemma ucs2_roundtrip_witness : DecodeText (EncodeText "hi" 8) 8 = "hi".
Proof. apply (ucs2_roundtrip "hi"). apply valid_utf8_hi. Defined.

(** Encoding a valid text of code points below 256 as Latin-1 and decoding it
    gives the text back. *)
Theorem latin1_roundtrip text :
  valid_utf8 text -> Forall (fun r => r <= 255) (runes text) ->
  DecodeText (EncodeText text 3) 3 = text.
Proof.
  intros Hv Hr. unfold DecodeText, EncodeText. simpl.
  rewrite (Forall_fmap_ext_1 _ id), list_fmap_id; [by apply string_of_runes_runes|].
  pose proof (runes_scalar text) as Hs. induction Hr as [|r rs Hr _ IH]; [constructor|].
  inversion_clear Hs. constructor; [|by apply IH]. simpl.
  destruct (Z.ltb_spec 255 r); [lia|]. unfold u8. apply Z.mod_small.
  unfold scalar in *. lia.
Qed.

Lemma latin1_roundtrip_witness : DecodeText (EncodeText "hi" 3) 3 = "hi".
Proof.
  apply (latin1_roundtrip "hi"); [apply valid_utf8_hi|].
  change (Forall (fun r => r <= 255) [104; 105]). repeat constructor; lia.
Defined.
