(* ===== verification/Segment.v ===== *)
(** * Messages and long-message segmentation: internal/message/message.go

    The message record, encoding detection (in Codec), splitting a text into
    concatenated segments and joining segments back. The results: joining any
    arrangement of the segments of a text gives the text back, every segment
    fits the 140 byte user data field with its header, and segments are
    numbered from one to the total. *)

From S2P Require Import Prelude Unicode Codec.

Definition DefaultGSM7SingleLimit : Z := 160.
Definition DefaultGSM7ConcatLimit : Z := 153.
Definition Default8BitSingleLimit : Z := 140.
Definition Default8BitConcatLimit : Z := 134.
Definition DefaultUCS2SingleLimit : Z := 70.
Definition DefaultUCS2ConcatLimit : Z := 67.

Inductive Direction := DirectionMO | DirectionMT.

#[export] Instance Direction_eq_dec : EqDecision Direction.
Proof. solve_decision. Defined.

Record Segment := mkSegment {
  seg_Reference : Z;
  seg_Part : Z;
  seg_Total : Z;
  seg_Text : string;
  seg_UDH : list Z }.

#[export] Instance Segment_eq_dec : EqDecision Segment.
Proof. solve_decision. Defined.

(** [time.Time] is a number of nanoseconds since the zero time; [IsZero] is
    being 0. A [map[string]string] may be nil. *)
Record Message := mkMessage {
  msg_ID : string;
  msg_ProviderID : string;
  msg_TenantID : string;
  msg_AccountID : string;
  msg_ClientMsgID : string;
  msg_Direction : Direction;
  msg_From : string;
  msg_To : string;
  msg_Text : string;
  msg_Encoding : string;
  msg_Route : string;
  msg_Provider : string;
  msg_SourceKind : string;
  msg_SourceID : string;
  msg_State : string;
  msg_ErrorCode : Z;
  msg_Segments : list Segment;
  msg_Metadata : option (gmap string string);
  msg_SubmittedAt : Z;
  msg_SentAt : Z;
  msg_DoneAt : Z }.

#[export] Instance Message_eq_dec : EqDecision Message.
Proof. solve_decision. Defined.

(** [New], at the clock reading [now]. *)
Definition New (now : Z) (id : string) (direction : Direction) (from to text : string) : Message :=
  {| msg_ID := id; msg_ProviderID := ""; msg_TenantID := ""; msg_AccountID := "";
     msg_ClientMsgID := ""; msg_Direction := direction; msg_From := from; msg_To := to;
     msg_Text := text; msg_Encoding := DetectEncoding text; msg_Route := ""; msg_Provider := "";
     msg_SourceKind := ""; msg_SourceID := ""; msg_State := "submitted"; msg_ErrorCode := 0;
     msg_Segments := []; msg_Metadata := Some ∅; msg_SubmittedAt := now; msg_SentAt := 0;
     msg_DoneAt := 0 |}.

(** An assignment to the [Encoding] field. *)
Definition msg_with_Encoding (e : string) (m : Message) : Message :=
  {| msg_ID := msg_ID m; msg_ProviderID := msg_ProviderID m; msg_TenantID := msg_TenantID m;
     msg_AccountID := msg_AccountID m; msg_ClientMsgID := msg_ClientMsgID m;
     msg_Direction := msg_Direction m; msg_From := msg_From m; msg_To := msg_To m;
     msg_Text := msg_Text m; msg_Encoding := e; msg_Route := msg_Route m;
     msg_Provider := msg_Provider m; msg_SourceKind := msg_SourceKind m;
     msg_SourceID := msg_SourceID m; msg_State := msg_State m; msg_ErrorCode := msg_ErrorCode m;
     msg_Segments := msg_Segments m; msg_Metadata := msg_Metadata m;
     msg_SubmittedAt := msg_SubmittedAt m; msg_SentAt := msg_SentAt m; msg_DoneAt := msg_DoneAt m |}.

(** ** Lengths and chunks *)

Definition gsm7_size (r : Z) : Z :=
  match gsm7RuneToExt !! r with Some _ => 2 | None => 1 end.

Definition gsm7SeptetLen (text : string) : Z := foldl (fun t r => t + gsm7_size r) 0 (runes text).
Definition ucs2UnitLen (text : string) : Z := foldl (fun t r => t + utf16_RuneLen r) 0 (runes text).

(** The loop of [chunkGSM7] and [chunkUCS2]: close the current chunk when the
    next rune would overflow it. *)
Fixpoint chunk_loop (size : Z -> Z) (limit : Z) (rs cur : list Z) (used : Z) : list (list Z) :=
  match rs with
  | [] => match cur with [] => [] | _ => [cur] end
  | r :: rs =>
    if (0 <? used) && (limit <? used + size r)
    then cur :: chunk_loop size limit rs [r] (size r)
    else chunk_loop size limit rs (cur ++ [r]) (used + size r)
  end.

Definition chunkGSM7 (text : string) (limit : Z) : list string :=
  string_of_runes <$> chunk_loop gsm7_size limit (runes text) [] 0.

Definition chunkUCS2 (text : string) (limit : Z) : list string :=
  string_of_runes <$> chunk_loop utf16_RuneLen limit (runes text) [] 0.

(** [for len(runes) > 0] cutting [limit] runes at a time; the number of runes
    bounds the number of turns. *)
Fixpoint chunk_runes_loop (fuel : nat) (rs : list Z) (limit : nat) : list (list Z) :=
  match fuel, rs with
  | _, [] => []
  | O, _ => []
  | S fuel, _ => take limit rs :: chunk_runes_loop fuel (drop limit rs) limit
  end.

Definition chunkRunes (text : string) (limit : Z) : list string :=
  string_of_runes <$> chunk_runes_loop (length (runes text)) (runes text) (Z.to_nat limit).

Definition concatUDH (ref part total : Z) : list Z := [5; 0; 3; u8 ref; u8 total; u8 part].

(** ** Split and Join *)

Definition split_encoding (force text : string) : string :=
  if bool_decide (force = "") || bool_decide (force = "auto") then DetectEncoding text else force.

Definition split_limits (encoding : string) : Z * Z :=
  if EqualFold encoding "8bit" then (Default8BitSingleLimit, Default8BitConcatLimit)
  else if EqualFold encoding "ucs2" then (DefaultUCS2SingleLimit, DefaultUCS2ConcatLimit)
  else (DefaultGSM7SingleLimit, DefaultGSM7ConcatLimit).

Definition split_length (encoding text : string) : Z :=
  if EqualFold encoding "gsm7" then gsm7SeptetLen text
  else if EqualFold encoding "ucs2" then ucs2UnitLen text
  else Z.of_nat (length (runes text)).

Definition split_chunks (encoding text : string) (concatLimit : Z) : list string :=
  if EqualFold encoding "gsm7" then chunkGSM7 text concatLimit
  else if EqualFold encoding "ucs2" then chunkUCS2 text concatLimit
  else chunkRunes text concatLimit.

(** The segment of the [i]th chunk. *)
Definition split_segment (ref total : Z) (i : nat) (chunk : string) : Segment :=
  let part := Z.of_nat i + 1 in
  {| seg_Reference := ref; seg_Part := part; seg_Total := total; seg_Text := chunk;
     seg_UDH := concatUDH ref part total |}.

(** [Split]; [ref] is what [randomReference] drew. *)
Definition Split (text force : string) (ref : Z) : list Segment :=
  let encoding := split_encoding force text in
  let '(singleLimit, concatLimit) := split_limits encoding in
  if split_length encoding text <=? singleLimit then
    [ {| seg_Reference := 0; seg_Part := 1; seg_Total := 1; seg_Text := text; seg_UDH := [] |} ]
  else
    let chunks := split_chunks encoding text concatLimit in
    let total := Z.of_nat (length chunks) in
    imap (split_segment ref total) chunks.

(** The inner loop of [Join]: the new element moves left past greater parts.
    The sorted prefix is kept in reverse. *)
Fixpoint join_sift (rev_prefix : list Segment) (x : Segment) : list Segment :=
  match rev_prefix with
  | y :: t => if seg_Part x <? seg_Part y then y :: join_sift t x else x :: rev_prefix
  | [] => [x]
  end.

Definition join_order (segments : list Segment) : list Segment :=
  reverse (foldl join_sift [] segments).

Definition Join (segments : list Segment) : string :=
  foldl (fun b s => b +:+ seg_Text s) "" (join_order segments).

(** ** Chunking *)

Definition total_size (size : Z -> Z) (rs : list Z) : Z := foldr (fun r t => size r + t) 0 rs.

Lemma total_size_app size rs rs' :
  total_size size (rs ++ rs') = total_size size rs + total_size size rs'.
Proof. induction rs; simpl; lia. Qed.

Lemma total_size_foldl size rs a :
  foldl (fun t r => t + size r) a rs = a + total_size size rs.
Proof. revert a. induction rs as [|r rs IH]; intros; simpl; [lia|]. rewrite IH. lia. Qed.

Lemma chunk_loop_concat size limit rs cur used :
  mjoin (chunk_loop size limit rs cur used) = cur ++ rs.
Proof.
  revert cur used. induction rs as [|r rs IH]; intros cur used; cbn [chunk_loop].
  { destruct cur; simpl; by rewrite ?app_nil_r. }
  destruct (_ && _); csimpl; rewrite IH; [done|]. by rewrite <- app_assoc.
Qed.

(** Chunks are nonempty and no larger than the limit. *)
Lemma chunk_loop_bound size limit rs cur used :
  Forall (fun r => 1 <= size r <= limit) rs ->
  used = total_size size cur -> used <= limit ->
  Forall (fun c => c <> [] /\ total_size size c <= limit) (chunk_loop size limit rs cur used).
Proof.
  intros Hrs. revert cur used. induction Hrs as [|r rs Hr _ IH]; intros cur used Hu Hl; cbn [chunk_loop].
  { destruct cur; [constructor|]. apply Forall_singleton. split; [done|lia]. }
  destruct (Z.ltb_spec 0 used); simpl.
  - destruct (Z.ltb_spec limit (used + size r)).
    + constructor; [|apply IH; simpl; lia]. split; [|lia]. intros ->. simpl in *. lia.
    + apply IH; [|lia]. rewrite total_size_app. simpl. lia.
  - apply IH; [|lia]. rewrite total_size_app. simpl. lia.
Qed.

Lemma chunk_runes_concat fuel rs limit :
  (0 < limit)%nat -> (length rs <= fuel)%nat -> mjoin (chunk_runes_loop fuel rs limit) = rs.
Proof.
  intros Hl. revert rs. induction fuel as [|fuel IH]; intros rs Hf.
  { by destruct rs; [|simpl in Hf; lia]. }
  destruct rs as [|r rs]; [done|]. cbn [chunk_runes_loop]. csimpl.
  rewrite IH; [by rewrite take_drop|]. rewrite length_drop. simpl in *. lia.
Qed.

Lemma chunk_runes_bound fuel rs limit :
  (0 < limit)%nat ->
  Forall (fun c => c <> [] /\ (length c <= limit)%nat) (chunk_runes_loop fuel rs limit).
Proof.
  intros Hl. revert rs. induction fuel as [|fuel IH]; intros rs; [by destruct rs|].
  destruct rs as [|r rs]; [constructor|]. cbn [chunk_runes_loop]. constructor; [|apply IH].
  split; [destruct limit; [lia|done]|]. rewrite length_take. lia.
Qed.

Lemma total_size_length rs : total_size (fun _ => 1) rs = Z.of_nat (length rs).
Proof. induction rs; simpl; lia. Qed.

(** The runes of the chunks of a text, whatever the encoding. *)
Definition chunk_runes (encoding text : string) (concatLimit : Z) : list (list Z) :=
  if EqualFold encoding "gsm7" then chunk_loop gsm7_size concatLimit (runes text) [] 0
  else if EqualFold encoding "ucs2" then chunk_loop utf16_RuneLen concatLimit (runes text) [] 0
  else chunk_runes_loop (length (runes text)) (runes text) (Z.to_nat concatLimit).

Lemma split_chunks_runes encoding text limit :
  split_chunks encoding text limit = string_of_runes <$> chunk_runes encoding text limit.
Proof.
  unfold split_chunks, chunk_runes, chunkGSM7, chunkUCS2, chunkRunes.
  repeat destruct (EqualFold _ _); done.
Qed.

Lemma chunk_runes_join encoding text limit :
  0 < limit -> mjoin (chunk_runes encoding text limit) = runes text.
Proof.
  intros. unfold chunk_runes. repeat destruct (EqualFold _ _).
  - by rewrite chunk_loop_concat.
  - by rewrite chunk_loop_concat.
  - by rewrite chunk_runes_concat by lia.
Qed.

(** The size function that measures a text of an encoding. *)
Definition enc_size (encoding : string) : Z -> Z :=
  if EqualFold encoding "gsm7" then gsm7_size
  else if EqualFold encoding "ucs2" then utf16_RuneLen else fun _ => 1.

Lemma split_length_size encoding text :
  split_length encoding text = total_size (enc_size encoding) (runes text).
Proof.
  unfold split_length, enc_size, gsm7SeptetLen, ucs2UnitLen.
  repeat destruct (EqualFold _ _); rewrite ?total_size_foldl, ?total_size_length; lia.
Qed.

Lemma gsm7_size_bounds r : 1 <= gsm7_size r <= 2.
Proof. unfold gsm7_size. destruct (_ !! r); lia. Qed.

Lemma chunk_runes_sized encoding text limit :
  2 <= limit ->
  Forall (fun c => c <> [] /\ total_size (enc_size encoding) c <= limit)
         (chunk_runes encoding text limit).
Proof.
  intros Hl. unfold chunk_runes, enc_size. pose proof (runes_scalar text) as Hs.
  repeat destruct (EqualFold _ _).
  - apply chunk_loop_bound; [|done|lia]. eapply Forall_impl; [exact Hs|].
    intros r _. pose proof (gsm7_size_bounds r). lia.
  - apply chunk_loop_bound; [|done|lia]. eapply Forall_impl; [exact Hs|].
    intros r Hr%utf16_RuneLen_scalar. lia.
  - eapply Forall_impl; [apply chunk_runes_bound; lia|]. intros c [Hc Hb]. simpl.
    rewrite total_size_length. split; [done|lia].
Qed.

Lemma split_limits_order encoding : 67 <= (split_limits encoding).2 < (split_limits encoding).1.
Proof.
  unfold split_limits. repeat destruct (EqualFold _ _); simpl;
    unfold Default8BitSingleLimit, Default8BitConcatLimit, DefaultUCS2SingleLimit,
      DefaultUCS2ConcatLimit, DefaultGSM7SingleLimit, DefaultGSM7ConcatLimit; lia.
Qed.

Lemma total_size_join size cs limit :
  Forall (fun c => c <> [] /\ total_size size c <= limit) cs ->
  total_size size (mjoin cs) <= limit * Z.of_nat (length cs).
Proof. induction 1 as [|c cs [_ Hc] _ IH]; csimpl; [lia|]. rewrite total_size_app. lia. Qed.

(** ** Splitting *)

Definition single_segment (text : string) : Segment :=
  {| seg_Reference := 0; seg_Part := 1; seg_Total := 1; seg_Text := text; seg_UDH := [] |}.

(** Either the text is short and kept whole, or it is cut into at least two
    chunks of its runes, each within the concatenation limit. *)
Lemma Split_cases text force ref :
  let e := split_encoding force text in
  (split_length e text <= (split_limits e).1 /\ Split text force ref = [single_segment text])
  \/ exists cs,
      (split_limits e).1 < split_length e text
      /\ mjoin cs = runes text
      /\ Forall (fun c => c <> [] /\ total_size (enc_size e) c <= (split_limits e).2) cs
      /\ (2 <= length cs)%nat
      /\ Split text force ref
         = imap (split_segment ref (Z.of_nat (length cs))) (string_of_runes <$> cs).
Proof.
  intros e. unfold Split. fold e. pose proof (split_limits_order e) as Ho.
  destruct (split_limits e) as [single concat] eqn:El. simpl in *.
  destruct (Z.leb_spec (split_length e text) single) as [H|H]; [by left|right].
  pose proof (chunk_runes_join e text concat ltac:(lia)) as Hj.
  pose proof (chunk_runes_sized e text concat ltac:(lia)) as Hs.
  exists (chunk_runes e text concat). split_and!; try done.
  - pose proof (total_size_join _ _ _ Hs) as Ht. rewrite Hj, <- split_length_size in Ht. nia.
  - rewrite split_chunks_runes, length_fmap. done.
Qed.

Lemma chunk_scalar text cs : mjoin cs = runes text -> Forall (Forall scalar) cs.
Proof.
  intros H. pose proof (runes_scalar text) as Hs. rewrite <- H in Hs. clear H.
  induction cs as [|c cs IH]; [constructor|]. csimpl in Hs.
  apply Forall_app in Hs as [Hc Hs]. constructor; auto.
Qed.

(** ** Joining *)

Definition sconcat (l : list string) : string := foldr String.append "" l.

Lemma foldl_sconcat l acc :
  foldl (fun b s => b +:+ seg_Text s) acc l = acc +:+ sconcat (seg_Text <$> l).
Proof.
  revert acc. induction l as [|s l IH]; intros; simpl; [by rewrite append_nil_r|].
  rewrite IH. by rewrite append_assoc.
Qed.

Lemma sconcat_runes cs : sconcat (string_of_runes <$> cs) = string_of_runes (mjoin cs).
Proof. induction cs as [|c cs IH]; [done|]. csimpl. by rewrite IH, string_of_runes_app. Qed.

Lemma join_sift_Permutation l x : join_sift l x ≡ₚ x :: l.
Proof.
  induction l as [|y l IH]; simpl; [done|]. destruct (_ <? _); [|done]. rewrite IH. constructor.
Qed.

Lemma join_fold_Permutation l acc : foldl join_sift acc l ≡ₚ l ++ acc.
Proof.
  revert acc. induction l as [|x l IH]; intros; simpl; [done|].
  rewrite IH, join_sift_Permutation. by rewrite Permutation_middle.
Qed.

Lemma join_order_Permutation l : join_order l ≡ₚ l.
Proof. unfold join_order. rewrite reverse_Permutation, join_fold_Permutation. by rewrite app_nil_r. Qed.

Definition part_ge (a b : Segment) : Prop := seg_Part b <= seg_Part a.

Lemma join_sift_sorted l x : StronglySorted part_ge l -> StronglySorted part_ge (join_sift l x).
Proof.
  induction 1 as [|y l Hl IH Hy]; simpl; [by repeat constructor|].
  destruct (Z.ltb_spec (seg_Part x) (seg_Part y)).
  - constructor; [done|]. rewrite join_sift_Permutation.
    constructor; [unfold part_ge; lia|done].
  - constructor; [by constructor|]. constructor; [unfold part_ge; lia|].
    eapply Forall_impl; [exact Hy|]. unfold part_ge. intros; lia.
Qed.

Lemma join_fold_sorted l acc :
  StronglySorted part_ge acc -> StronglySorted part_ge (foldl join_sift acc l).
Proof. revert acc. induction l; intros; simpl; auto using join_sift_sorted. Qed.

(** Sorting is canonical: segments with distinct parts have one order. *)
Lemma join_order_canonical l l' :
  l ≡ₚ l' -> NoDup (seg_Part <$> l) -> join_order l = join_order l'.
Proof.
  intros Hp Hnd. unfold join_order. f_equal.
  eapply (StronglySorted_unique_strong part_ge).
  - intros x y Hx Hy Hxy Hyx. rewrite join_fold_Permutation, app_nil_r in Hx, Hy.
    rewrite <- Hp in Hy. apply list_elem_of_lookup in Hx as [i Hi], Hy as [j Hj].
    assert (i = j) as ->; [|congruence].
    eapply (NoDup_lookup _ _ _ _ Hnd); rewrite list_lookup_fmap, ?Hi, ?Hj; [done|].
    simpl. f_equal. unfold part_ge in *. lia.
  - apply join_fold_sorted. constructor.
  - apply join_fold_sorted. constructor.
  - by rewrite !join_fold_Permutation, Hp.
Qed.

(** A list already in part order is kept. *)
Lemma join_order_sorted l :
  StronglySorted (fun a b => seg_Part a < seg_Part b) l -> join_order l = l.
Proof.
  unfold join_order. intros H.
  enough (forall acc, (forall a b, a ∈ acc -> b ∈ l -> seg_Part a < seg_Part b) ->
    foldl join_sift acc l = reverse l ++ acc) as ->.
  { by rewrite app_nil_r, reverse_involutive. }
  { intros a b Ha. by apply elem_of_nil in Ha. }
  induction H as [|x l Hl IH Hx]; intros acc Hacc; [done|]. simpl.
  assert (join_sift acc x = x :: acc) as ->.
  { destruct acc as [|y acc]; [done|]. simpl.
    pose proof (Hacc y x ltac:(constructor) ltac:(constructor)).
    destruct (Z.ltb_spec (seg_Part x) (seg_Part y)); [lia|done]. }
  rewrite IH; [by rewrite reverse_cons, <- app_assoc|].
  intros a b [->|Ha]%elem_of_cons Hb; [rewrite Forall_forall in Hx; by apply Hx|].
  apply Hacc; [done|by constructor].
Qed.

Lemma imap_segment_sorted ref total k cs :
  StronglySorted (fun a b => seg_Part a < seg_Part b)
    (imap (fun i => split_segment ref total (k + i)) cs).
Proof.
  revert k. induction cs as [|c cs IH]; intros k; simpl; [constructor|].
  assert (imap ((fun i => split_segment ref total (k + i)) ∘ S) cs
          = imap (fun i => split_segment ref total (S k + i)) cs) as ->.
  { apply imap_ext. intros i x _. simpl. f_equal. lia. }
  constructor; [apply IH|]. apply Forall_forall. intros s Hs.
  apply elem_of_lookup_imap in Hs as (i & x & -> & _). simpl. lia.
Qed.

Lemma seg_Text_imap ref total k cs :
  seg_Text <$> imap (fun i => split_segment ref total (k + i)) cs = cs.
Proof.
  apply list_eq. intros i. rewrite list_lookup_fmap, list_lookup_imap. by destruct (cs !! i).
Qed.

(** ** The segments of a text *)

Lemma Split_sorted text force ref :
  StronglySorted (fun a b => seg_Part a < seg_Part b) (Split text force ref).
Proof.
  destruct (Split_cases text force ref) as [[_ ->]|(cs & _ & _ & _ & _ & ->)].
  - by repeat constructor.
  - apply (imap_segment_sorted ref _ 0).
Qed.

Lemma Split_text text force ref :
  valid_utf8 text -> sconcat (seg_Text <$> Split text force ref) = text.
Proof.
  intros Hv. destruct (Split_cases text force ref) as [[_ ->]|(cs & _ & Hj & _ & _ & ->)].
  - simpl. apply append_nil_r.
  - rewrite (seg_Text_imap ref _ 0), sconcat_runes, Hj. by apply string_of_runes_runes.
Qed.

(** Joining the segments of a valid text in any arrangement gives the text back. *)
Theorem split_join_any_order text force ref segments :
  valid_utf8 text -> segments ≡ₚ Split text force ref -> Join segments = text.
Proof.
  intros Hv Hp. unfold Join. pose proof (Split_sorted text force ref) as Hs.
  rewrite <- (join_order_canonical (Split text force ref)); [|done|].
  - rewrite join_order_sorted by done. rewrite foldl_sconcat, Split_text by done. done.
  - clear -Hs. induction Hs as [|s l _ IH Hs]; csimpl; [constructor|].
    constructor; [|done]. rewrite list_elem_of_fmap. intros (s' & He & Hin).
    rewrite Forall_forall in Hs. apply Hs in Hin. simpl in Hin. lia.
Qed.

Lemma split_join_any_order_witness : Join (Split "hi" "auto" 7) = "hi".
Proof. apply (split_join_any_order "hi" "auto" 7); [apply valid_utf8_hi|reflexivity]. Defined.

Lemma Split_lookup text force ref i s :
  Split text force ref !! i = Some s ->
  seg_Part s = Z.of_nat i + 1 /\ seg_Total s = Z.of_nat (length (Split text force ref))
  /\ seg_UDH s = (if seg_Total s =? 1 then [] else concatUDH ref (seg_Part s) (seg_Total s)).
Proof.
  destruct (Split_cases text force ref) as [[_ ->]|(cs & _ & _ & _ & Hlen & ->)]; intros Hi.
  - destruct i; [|done]. by injection Hi as <-.
  - rewrite list_lookup_imap in Hi.
    apply fmap_Some in Hi as (c & Hc & ->). unfold split_segment. cbn [seg_Part seg_Total seg_UDH].
    rewrite length_imap, length_fmap. destruct (Z.eqb_spec (Z.of_nat (length cs)) 1); [lia|done].
Qed.

(** Segments are numbered from one, all carry the number of segments, and a
    split segment carries the concatenation header with its reference, total
    and part. *)
Theorem split_numbering text force ref i s :
  Split text force ref !! i = Some s ->
  seg_Part s = Z.of_nat i + 1 /\ seg_Total s = Z.of_nat (length (Split text force ref))
  /\ seg_UDH s = (if seg_Total s =? 1 then [] else concatUDH ref (seg_Part s) (seg_Total s)).
Proof. apply Split_lookup. Qed.

Definition long_text : string := string_of_runes (replicate 161 97).

Lemma split_numbering_witness :
  exists s, Split long_text "gsm7" 7 !! 1%nat = Some s /\ seg_Part s = 2 /\ seg_Total s = 2
    /\ seg_UDH s = [5; 0; 3; 7; 2; 2].
Proof.
  destruct (Split long_text "gsm7" 7 !! 1%nat) as [s|] eqn:E; [|vm_compute in E; discriminate].
  exists s. split; [reflexivity|]. destruct (split_numbering long_text "gsm7" 7 1 s E) as (H1 & H2 & H3).
  assert (length (Split long_text "gsm7" 7) = 2%nat) as Hl by (vm_compute; reflexivity).
  rewrite Hl in H2. rewrite H1, H2 in *. rewrite H3. repeat split; reflexivity.
Defined.

(** ** Sizes on the wire *)

Definition tables_disjoint_test : bool :=
  forallb (fun kv => bool_decide (gsm7DefaultCodes !! kv.1 = None)) (map_to_list gsm7RuneToExt).

Lemma gsm7_size_codes r : Z.of_nat (length (gsm7_codes r)) = gsm7_size r.
Proof.
  assert (tables_disjoint_test = true) as Ht by (vm_compute; reflexivity).
  unfold gsm7_codes, gsm7_size. destruct (gsm7RuneToExt !! r) eqn:E.
  - pose proof (map_forallb _ (fun k _ => bool_decide (gsm7DefaultCodes !! k = None)) Ht r _ E) as H.
    apply bool_decide_eq_true in H. by rewrite H.
  - by destruct (gsm7DefaultCodes !! r).
Qed.

Lemma length_gsm7_septets rs :
  Z.of_nat (length (rs ≫= gsm7_codes)) = total_size gsm7_size rs.
Proof.
  induction rs; csimpl; [done|]. rewrite length_app, Nat2Z.inj_add, gsm7_size_codes. lia.
Qed.

Lemma length_utf16_Encode rs :
  Forall scalar rs -> Z.of_nat (length (utf16_Encode rs)) = total_size utf16_RuneLen rs.
Proof.
  unfold utf16_Encode. induction 1 as [|r rs Hr _ IH]; csimpl; [done|].
  rewrite length_app, Nat2Z.inj_add, length_utf16_encode_rune by done. lia.
Qed.

(** The bytes of a text in each coding, from the measure of its runes. *)
Lemma length_EncodeText text :
  Z.of_nat (length (EncodeText text 0)) = (7 * total_size gsm7_size (runes text) + 7) / 8
  /\ Z.of_nat (length (EncodeText text 3)) = Z.of_nat (length (runes text))
  /\ Z.of_nat (length (EncodeText text 8)) = 2 * total_size utf16_RuneLen (runes text).
Proof.
  unfold EncodeText, encodeGSM7Packed. simpl. split_and!.
  - rewrite length_pack_septets. unfold gsm7_septets. rewrite <- length_gsm7_septets. nlia.
  - by rewrite length_fmap.
  - rewrite length_u16_bytes, <- length_utf16_Encode by apply runes_scalar. lia.
Qed.

(** The data coding that carries an encoding. *)
Definition carries (encoding : string) (dataCoding : Z) : Prop :=
  (EqualFold encoding "gsm7" = true /\ dataCoding = 0)
  \/ (EqualFold encoding "8bit" = true /\ dataCoding = 3)
  \/ (EqualFold encoding "ucs2" = true /\ dataCoding = 8).

Lemma EqualFold_trans e a b :
  EqualFold e a = true -> EqualFold e b = true -> EqualFold a b = true.
Proof. unfold EqualFold. rewrite !bool_decide_eq_true. congruence. Qed.

Lemma EqualFold_other e a b :
  EqualFold a b = false -> EqualFold e a = true -> EqualFold e b = false.
Proof.
  intros Hab Ha. destruct (EqualFold e b) eqn:Hb; [|done].
  by rewrite (EqualFold_trans e a b Ha Hb) in Hab.
Qed.

(** What the limits of an encoding allow in bytes. *)
Lemma carried_size e dc text n :
  carries e dc -> total_size (enc_size e) (runes text) <= n ->
  Z.of_nat (length (EncodeText text dc))
  <= (if dc =? 0 then (7 * n + 7) / 8 else if dc =? 3 then n else 2 * n).
Proof.
  intros Hc Hn. destruct (length_EncodeText text) as (H0 & H3 & H8). unfold enc_size in Hn.
  destruct Hc as [[He ->]|[[He ->]|[He ->]]]; simpl.
  - rewrite He in Hn. rewrite H0. zlia.
  - rewrite !(EqualFold_other e "8bit") in Hn by done.
    rewrite total_size_length in Hn. lia.
  - rewrite (EqualFold_other e "ucs2" "gsm7"), He in Hn by done. lia.
Qed.

Lemma carried_limits e dc :
  carries e dc -> split_limits e = if dc =? 0 then (160, 153) else if dc =? 3 then (140, 134) else (70, 67).
Proof.
  unfold split_limits. intros [[He ->]|[[He ->]|[He ->]]]; simpl.
  - by rewrite !(EqualFold_other e "gsm7") by done.
  - by rewrite He.
  - by rewrite (EqualFold_other e "ucs2" "8bit"), He by done.
Qed.

(** Each segment with its header, encoded with the data coding of its encoding,
    fits the 140 octets of user data. *)
Theorem segment_fits_user_data text force ref dataCoding s :
  carries (split_encoding force text) dataCoding -> s ∈ Split text force ref ->
  (length (seg_UDH s) + length (EncodeText (seg_Text s) dataCoding) <= 140)%nat.
Proof.
  intros Hc Hin. pose proof (Split_cases text force ref) as Hcases. simpl in Hcases.
  generalize dependent (split_encoding force text). intros e Hc Hcases.
  destruct Hcases as [[Hl Hs]|(cs & _ & Hj & Hb & _ & Hs)]; rewrite Hs in Hin.
  - apply list_elem_of_singleton in Hin as ->. simpl. rewrite split_length_size in Hl.
    pose proof (carried_size _ _ _ _ Hc Hl) as Hz. rewrite (carried_limits _ _ Hc) in Hz.
    destruct Hc as [[_ ->]|[[_ ->]|[_ ->]]]; simpl in Hz; zlia.
  - apply elem_of_lookup_imap in Hin as (i & c & -> & Hi).
    rewrite list_lookup_fmap in Hi. apply fmap_Some in Hi as (rs & Hrs & ->).
    assert (runes (string_of_runes rs) = rs) as Hr.
    { apply runes_string_of_runes. pose proof (chunk_scalar _ _ Hj) as Hsc.
      by eapply Forall_lookup_1 in Hsc. }
    eapply Forall_lookup_1 in Hb as [_ Hb]; [|done].
    assert (total_size (enc_size e) (runes (string_of_runes rs)) <= (split_limits e).2) as Hb'
      by by rewrite Hr.
    pose proof (carried_size _ _ _ _ Hc Hb') as Hz. rewrite (carried_limits _ _ Hc) in Hz.
    cbn [seg_UDH seg_Text split_segment]. unfold concatUDH. simpl length.
    destruct Hc as [[_ ->]|[[_ ->]|[_ ->]]]; simpl in Hz; zlia.
Qed.

Lemma segment_fits_user_data_witness :
  (length (EncodeText "hi" 0) <= 140)%nat.
Proof.
  apply (segment_fits_user_data "hi" "gsm7" 7 0 (single_segment "hi")).
  - left. vm_compute. split; reflexivity.
  - vm_compute. constructor.
Defined.

(** No segment is longer than 160 runes, whatever the encoding. *)
Lemma total_size_ge size rs : Forall (fun r => 1 <= size r) rs -> Z.of_nat (length rs) <= total_size size rs.
Proof. induction 1; simpl; [done|]. lia. Qed.

Lemma enc_size_pos e r : scalar r -> 1 <= enc_size e r.
Proof.
  intros Hr. unfold enc_size. case_match; [unfold gsm7_size; case_match; lia|].
  case_match; [|lia]. unfold utf16_RuneLen, scalar, in_range in *. repeat case_match; lia.
Qed.

Lemma split_limits_le e : (split_limits e).1 <= 160 /\ (split_limits e).2 <= 160.
Proof. unfold split_limits. by repeat case_match. Qed.

Lemma segment_runes_le text force ref s :
  s ∈ Split text force ref -> Z.of_nat (length (runes (seg_Text s))) <= 160.
Proof.
  intros Hin. pose proof (Split_cases text force ref) as Hcases. simpl in Hcases.
  generalize dependent (split_encoding force text). intros e Hcases.
  destruct (split_limits_le e) as [H1 H2].
  assert (total_size (enc_size e) (runes (seg_Text s)) <= 160) as Ht.
  { destruct Hcases as [[Hl Hs]|(cs & _ & Hj & Hb & _ & Hs)]; rewrite Hs in Hin.
    - apply list_elem_of_singleton in Hin as ->. simpl. rewrite split_length_size in Hl. lia.
    - apply elem_of_lookup_imap in Hin as (i & c & -> & Hi).
      rewrite list_lookup_fmap in Hi. apply fmap_Some in Hi as (rs & Hrs & ->). simpl.
      pose proof (chunk_scalar _ _ Hj) as Hsc. eapply Forall_lookup_1 in Hsc; [|done].
      rewrite runes_string_of_runes by done.
      eapply Forall_lookup_1 in Hb as [_ Hb]; [|done]. lia. }
  etrans; [|exact Ht]. apply total_size_ge. eapply Forall_impl; [apply runes_scalar|].
  intros r. apply enc_size_pos.
Qed.

(** ** Encoded texts are bytes *)

#[export] Hint Resolve u8_is_u8 : mysmpp.

Lemma EncodeGSM7Unpacked_u8 text : Forall is_u8 (EncodeGSM7Unpacked text).
Proof.
  eapply Forall_impl; [apply gsm7_septets_septet|]. unfold is_septet, is_u8. simpl. lia.
Qed.

Lemma EncodeText_u8 text dataCoding : Forall is_u8 (EncodeText text dataCoding).
Proof.
  unfold EncodeText. case_match; [|case_match].
  - induction (utf16_Encode (runes text)) as [|c cs IH]; csimpl; [done|].
    do 2 (constructor; [auto with mysmpp|]). done.
  - apply Forall_fmap, Forall_true. intros r. simpl. case_match; [done|auto with mysmpp].
  - apply pack_septets_u8, gsm7_septets_septet.
Qed.

(** Four bytes per rune bound every encoding. *)
Lemma length_EncodeText_le text dataCoding :
  (length (EncodeText text dataCoding) <= 4 * length (runes text))%nat
  /\ (length (EncodeGSM7Unpacked text) <= 2 * length (runes text))%nat.
Proof.
  assert (length (EncodeGSM7Unpacked text) <= 2 * length (runes text))%nat as Hg.
  { unfold EncodeGSM7Unpacked, gsm7_septets. induction (runes text) as [|r rs IH]; csimpl; [done|].
    rewrite length_app. assert (length (gsm7_codes r) <= 2)%nat; [|lia].
    pose proof (gsm7_size_codes r) as Hr. unfold gsm7_size in Hr.
    destruct (gsm7RuneToExt !! r); lia. }
  split; [|done]. unfold EncodeText. case_match; [|case_match].
  - clear Hg. rewrite length_u16_bytes. unfold utf16_Encode.
    induction (runes text) as [|r rs IH]; csimpl; [done|].
    rewrite length_app. assert (length (utf16_encode_rune r) <= 2)%nat; [|lia].
    unfold utf16_encode_rune. repeat case_match; simpl; lia.
  - rewrite length_fmap. lia.
  - unfold encodeGSM7Packed. rewrite length_pack_septets.
    unfold EncodeGSM7Unpacked in Hg. nlia.
Qed.

Lemma Split_reference text force ref i s :
  Split text force ref !! i = Some s -> seg_Total s <> 1 -> seg_Reference s = ref.
Proof.
  destruct (Split_cases text force ref) as [[_ ->]|(cs & _ & _ & _ & Hlen & ->)]; intros Hi Ht.
  - destruct i; [|done]. by injection Hi as <-.
  - rewrite list_lookup_imap in Hi. by apply fmap_Some in Hi as (c & Hc & ->).
Qed.
