(* ===== verification/Num.v ===== *)
(** * Numbers as text: what the code uses of strconv and fmt

    [FormatUint], [ParseUint], [Itoa], [Atoi] and the zero-padded verbs of
    [Sprintf], on the 64-bit integers of the target. Formatting and parsing
    are inverse in every base from 2 to 36. *)

From S2P Require Import Prelude.

Definition maxUint64 : Z := 18446744073709551615.

Definition digit_char (d : Z) : Z := if d <? 10 then 48 + d else 87 + d.

(** Digits of [n], most significant first; 64 turns suffice for 64 bits. *)
Fixpoint digits_loop (fuel : nat) (base n : Z) (acc : list Z) : list Z :=
  if n <? base then n :: acc
  else match fuel with
  | O => acc
  | S fuel => digits_loop fuel base (n / base) (n mod base :: acc)
  end.

Definition digits (base n : Z) : list Z := digits_loop 64 base n [].

Definition FormatUint (n base : Z) : string := string_of_bytes (digit_char <$> digits base n).

(** [strconv.Itoa] and [%d]. *)
Definition Itoa (n : Z) : string :=
  if n <? 0 then "-" +:+ FormatUint (- n) 10 else FormatUint n 10.

Fixpoint repeat_string (c : Ascii.ascii) (n : nat) : string :=
  match n with O => EmptyString | S n => String c (repeat_string c n) end.

(** Zero padding on the left to width [w], as [%0ws] does for a string. *)
Definition pad0 (w : nat) (s : string) : string := repeat_string "0"%char (w - slen s) +:+ s.

(** [%03d], [%02d]: the sign counts for the width and stays in front. *)
Definition fmt_0d (w : nat) (n : Z) : string :=
  if n <? 0 then "-" +:+ pad0 (w - 1) (FormatUint (- n) 10) else pad0 w (FormatUint n 10).

(** ** Parsing *)

Inductive num_err := ErrSyntax | ErrRange.

#[export] Instance num_err_eq_dec : EqDecision num_err.
Proof. solve_decision. Defined.

Definition digit_value (c : Z) : option Z :=
  if (48 <=? c) && (c <=? 57) then Some (c - 48)
  else if (97 <=? c) && (c <=? 122) then Some (c - 97 + 10)
  else if (65 <=? c) && (c <=? 90) then Some (c - 65 + 10)
  else None.

(** The loop of [strconv.ParseUint(s, base, 64)] for an explicit base. *)
Fixpoint parse_uint_loop (base : Z) (s : list Z) (n : Z) : res num_err Z :=
  match s with
  | [] => Ok n
  | c :: s =>
    match digit_value c with
    | None => Err ErrSyntax
    | Some d =>
      if base <=? d then Err ErrSyntax
      else if maxUint64 / base + 1 <=? n then Err ErrRange
      else if maxUint64 <? n * base + d then Err ErrRange
      else parse_uint_loop base s (n * base + d)
    end
  end.

Definition ParseUint (s : string) (base : Z) : res num_err Z :=
  match s with
  | EmptyString => Err ErrSyntax
  | _ => parse_uint_loop base (bytes_of_string s) 0
  end.

(** [strconv.Atoi]; on failure the code that ignores the error uses the value,
    which is 0 for a syntax error and the nearest bound for an overflow. *)
Definition Atoi (s : string) : res num_err Z :=
  let '(neg, rest) :=
    match s with
    | String "+"%char r => (false, r)
    | String "-"%char r => (true, r)
    | _ => (false, s)
    end in
  n ← ParseUint rest 10;
  if neg then if 9223372036854775808 <? n then Err ErrRange else Ok (- n)
  else if 9223372036854775808 <=? n then Err ErrRange else Ok n.

Definition Atoi_value (s : string) : Z :=
  match Atoi s with
  | Ok n => n
  | Err ErrSyntax => 0
  | Err ErrRange => if HasPrefix s "-" then -9223372036854775808 else 9223372036854775807
  end.

(** ** Round trip *)

Definition of_digits (base : Z) (ds : list Z) (n : Z) : Z := foldl (fun n d => n * base + d) n ds.

Lemma digits_loop_spec fuel base n acc :
  2 <= base -> 0 <= n < base ^ (Z.of_nat fuel + 1) ->
  exists ds, digits_loop fuel base n acc = ds ++ acc /\ of_digits base ds 0 = n
    /\ Forall (fun d => 0 <= d < base) ds /\ ds <> [] /\ (head ds = Some 0 -> n = 0).
Proof.
  intros Hb. revert n acc. induction fuel as [|fuel IH]; intros n acc Hn;
    simpl; destruct (Z.ltb_spec n base) as [Hlt|Hge].
  1,3: exists [n]; unfold of_digits; simpl; split; [done|]; split; [lia|]; split;
       [repeat constructor; lia|]; split; [done|congruence].
  { change (Z.of_nat 0 + 1) with 1 in Hn. rewrite Z.pow_1_r in Hn. lia. }
  rewrite Nat2Z.inj_succ, <- Z.add_1_r, (Z.pow_add_r base (Z.of_nat fuel + 1) 1), Z.pow_1_r in Hn by lia.
  assert (0 < n / base) by (apply Z.div_str_pos; lia).
  destruct (IH (n / base) (n mod base :: acc)) as (ds & -> & Hv & Hd & Hne & Hh).
  { split; [lia|]. apply Z.div_lt_upper_bound; lia. }
  exists (ds ++ [n mod base]). split; [by rewrite <- app_assoc|]. unfold of_digits in *.
  rewrite foldl_app, Hv. simpl. split; [rewrite (Z.div_mod n base) at 3; lia|].
  split; [apply Forall_app; split; [done|]; repeat constructor; apply Z.mod_pos_bound; lia|].
  split; [by destruct ds|]. destruct ds as [|d ds]; [done|]. simpl. intros E. apply Hh in E. lia.
Qed.

Lemma pow_65 base : 2 <= base -> maxUint64 < base ^ (Z.of_nat 64 + 1).
Proof.
  intros. apply Z.lt_le_trans with (2 ^ 65); [done|].
  change (Z.of_nat 64 + 1) with 65. apply Z.pow_le_mono_l. lia.
Qed.

Lemma digits_spec base n :
  2 <= base -> 0 <= n <= maxUint64 ->
  of_digits base (digits base n) 0 = n /\ Forall (fun d => 0 <= d < base) (digits base n)
  /\ digits base n <> [] /\ (head (digits base n) = Some 0 -> n = 0).
Proof.
  intros Hb Hn. pose proof (pow_65 base Hb).
  destruct (digits_loop_spec 64 base n [] Hb) as (ds & E & H1 & H2 & H3 & H4); [lia|].
  unfold digits. rewrite E, app_nil_r. done.
Qed.

Lemma digit_value_char d : 0 <= d < 36 -> digit_value (digit_char d) = Some d.
Proof.
  intros. unfold digit_value, digit_char. destruct (Z.ltb_spec d 10).
  - destruct (Z.leb_spec 48 (48 + d)); [|lia]. destruct (Z.leb_spec (48 + d) 57); [|lia].
    simpl. f_equal. lia.
  - destruct (Z.leb_spec (87 + d) 57); [lia|]. rewrite andb_false_r.
    destruct (Z.leb_spec 97 (87 + d)); [|lia]. destruct (Z.leb_spec (87 + d) 122); [|lia].
    simpl. f_equal. lia.
Qed.

Lemma digit_char_u8 d : 0 <= d < 36 -> is_u8 (digit_char d).
Proof. unfold is_u8, digit_char. intros. case_match; lia. Qed.

Lemma of_digits_ge base ds n :
  2 <= base -> Forall (fun d => 0 <= d < base) ds -> 0 <= n -> n <= of_digits base ds n.
Proof.
  intros Hb Hd. revert n. induction Hd as [|d ds Hd _ IH]; intros n Hn; simpl; [lia|].
  etrans; [|apply IH; nia]. nia.
Qed.

Lemma parse_uint_loop_digits base ds n :
  2 <= base <= 36 -> Forall (fun d => 0 <= d < base) ds -> 0 <= n ->
  of_digits base ds n <= maxUint64 ->
  parse_uint_loop base (digit_char <$> ds) n = Ok (of_digits base ds n).
Proof.
  intros Hb Hd. revert n. induction Hd as [|d ds Hd Hds IH]; intros n Hn Hv; [done|].
  csimpl. rewrite digit_value_char by lia. destruct (Z.leb_spec base d); [lia|].
  change (of_digits base ds (n * base + d) <= maxUint64) in Hv.
  pose proof (of_digits_ge base ds (n * base + d) ltac:(lia) Hds ltac:(nia)).
  assert (n * base + d <= maxUint64) as Hle by lia.
  assert (n <= maxUint64 / base) by (apply Z.div_le_lower_bound; nia).
  destruct (Z.leb_spec (maxUint64 / base + 1) n); [lia|].
  destruct (Z.ltb_spec maxUint64 (n * base + d)); [lia|]. apply IH; [nia|done].
Qed.

Lemma bytes_of_FormatUint n base :
  2 <= base <= 36 -> 0 <= n <= maxUint64 ->
  bytes_of_string (FormatUint n base) = digit_char <$> digits base n.
Proof.
  intros Hb Hn. unfold FormatUint. apply bytes_of_string_of_bytes, Forall_fmap.
  destruct (digits_spec base n) as (_ & Hd & _); [lia..|].
  eapply Forall_impl; [exact Hd|]. intros d Hd'. apply digit_char_u8. simpl in Hd'. lia.
Qed.

Lemma ParseUint_bytes s base : s <> "" -> ParseUint s base = parse_uint_loop base (bytes_of_string s) 0.
Proof. by destruct s. Qed.

Lemma FormatUint_nonempty n base :
  2 <= base <= 36 -> 0 <= n <= maxUint64 -> FormatUint n base <> "".
Proof.
  intros Hb Hn E. pose proof (bytes_of_FormatUint n base Hb Hn) as H. rewrite E in H.
  destruct (digits_spec base n) as (_ & _ & Hne & _); [lia..|]. by destruct (digits base n).
Qed.

Lemma ParseUint_FormatUint n base :
  2 <= base <= 36 -> 0 <= n <= maxUint64 -> ParseUint (FormatUint n base) base = Ok n.
Proof.
  intros Hb Hn. rewrite ParseUint_bytes by (by apply FormatUint_nonempty).
  rewrite bytes_of_FormatUint by lia. destruct (digits_spec base n) as (Hv & Hd & _); [lia..|].
  rewrite parse_uint_loop_digits by (done || lia). by rewrite Hv.
Qed.

Lemma FormatUint_inj base n m :
  2 <= base <= 36 -> 0 <= n <= maxUint64 -> 0 <= m <= maxUint64 ->
  FormatUint n base = FormatUint m base -> n = m.
Proof.
  intros Hb Hn Hm E. pose proof (ParseUint_FormatUint n base Hb Hn) as H.
  rewrite E, ParseUint_FormatUint in H by lia. congruence.
Qed.

(** Leading zeros do not change the value. *)
Lemma parse_uint_loop_zeros base k s n :
  2 <= base -> n = 0 -> parse_uint_loop base (bytes_of_string (repeat_string "0"%char k +:+ s)) n
  = parse_uint_loop base (bytes_of_string s) n.
Proof.
  intros Hb ->. rewrite bytes_of_string_app. induction k as [|k IH]; [done|].
  cbn [repeat_string bytes_of_string app parse_uint_loop]. change (digit_value (byte_of_ascii "0"%char)) with (Some 0).
  cbn match. destruct (Z.leb_spec base 0); [lia|].
  destruct (Z.leb_spec (maxUint64 / base + 1) 0) as [H0|_].
  { assert (0 <= maxUint64 / base) by (apply Z.div_pos; [done|lia]). lia. }
  done.
Qed.

Lemma ParseUint_pad0 w n base :
  2 <= base <= 36 -> 0 <= n <= maxUint64 -> ParseUint (pad0 w (FormatUint n base)) base = Ok n.
Proof.
  intros Hb Hn. pose proof (FormatUint_nonempty n base Hb Hn) as Hne.
  rewrite <- (ParseUint_FormatUint n base Hb Hn). rewrite !ParseUint_bytes.
  - unfold pad0. by rewrite parse_uint_loop_zeros by lia.
  - done.
  - unfold pad0. by destruct (_ - _)%nat.
Qed.

Lemma slen_repeat c k : slen (repeat_string c k) = k.
Proof. unfold slen. induction k; simpl; [done|]. by f_equal. Qed.

Lemma slen_pad0 w s : slen (pad0 w s) = Nat.max w (slen s).
Proof. unfold pad0. rewrite slen_app, slen_repeat. lia. Qed.

Lemma digits_loop_acc fuel base n acc :
  digits_loop fuel base n acc = digits_loop fuel base n [] ++ acc.
Proof.
  revert n acc. induction fuel as [|fuel IH]; intros n acc; simpl; destruct (n <? base); try done.
  rewrite IH, (IH _ [_]), <- app_assoc. done.
Qed.

(** The number of digits: [n < base ^ k] has at most [k] of them. *)
Lemma length_digits_loop fuel base n k :
  2 <= base -> 0 <= n < base ^ Z.of_nat (S k) -> (length (digits_loop fuel base n []) <= S k)%nat.
Proof.
  intros Hb. revert n k. induction fuel as [|fuel IH]; intros n k Hn; simpl;
    destruct (Z.ltb_spec n base); simpl; try lia.
  rewrite digits_loop_acc, length_app. simpl. destruct k as [|k].
  { rewrite Z.pow_1_r in Hn. lia. }
  rewrite Nat2Z.inj_succ, Z.pow_succ_r in Hn by lia.
  specialize (IH (n / base) k). rewrite Nat.add_1_r. apply le_n_S, IH.
  split; [apply Z.div_pos; lia|]. apply Z.div_lt_upper_bound; lia.
Qed.

Lemma slen_FormatUint n base k :
  2 <= base -> 0 <= n < base ^ Z.of_nat (S k) -> (slen (FormatUint n base) <= S k)%nat.
Proof.
  intros. unfold FormatUint, digits. rewrite slen_string_of_bytes, length_fmap.
  by apply length_digits_loop.
Qed.
