(* ===== verification/Pdu.v ===== *)
(** * SMPP wire formats: internal/smpp/pdu.go, tlv.go, udh.go

    PDU framing on a byte stream, C-octet strings, optional parameters (TLVs),
    user data headers and concatenation information. The results: a written
    PDU is read back exactly whatever follows it on the stream, the TLV parser
    accepts exactly the encodings of TLV lists, and an accepted user data
    header only carries well-formed part numbers. *)

From S2P Require Import Prelude Unicode Codec Segment.

(** ** Commands and statuses *)

Definition commandBindReceiver : Z := 0x00000001.
Definition commandBindTransmitter : Z := 0x00000002.
Definition commandSubmitSM : Z := 0x00000004.
Definition commandDeliverSM : Z := 0x00000005.
Definition commandUnbind : Z := 0x00000006.
Definition commandBindTransceiver : Z := 0x00000009.
Definition commandEnquireLink : Z := 0x00000015.
Definition commandGenericNack : Z := 0x80000000.
Definition commandBindReceiverResp : Z := 0x80000001.
Definition commandBindTransmitterResp : Z := 0x80000002.
Definition commandSubmitSMResp : Z := 0x80000004.
Definition commandDeliverSMResp : Z := 0x80000005.
Definition commandUnbindResp : Z := 0x80000006.
Definition commandBindTransceiverResp : Z := 0x80000009.
Definition commandEnquireLinkResp : Z := 0x80000015.

Definition statusOK : Z := 0x00000000.
Definition statusInvalidCmd : Z := 0x00000003.
Definition statusInvalidBind : Z := 0x00000004.
Definition statusAlreadyBound : Z := 0x00000005.
Definition statusBindFailed : Z := 0x0000000D.
Definition statusInvalidPassword : Z := 0x0000000E.
Definition statusInvalidSystemID : Z := 0x0000000F.
Definition statusThrottled : Z := 0x00000058.
Definition StatusInvalidSrcAddr : Z := 0x0000000A.
Definition StatusInvalidDestAddr : Z := 0x0000000B.
Definition StatusMsgQFull : Z := 0x00000014.
Definition StatusSubmitFailed : Z := 0x00000045.

(** ** Big-endian integers (encoding/binary) *)

Definition PutUint16 (z : Z) : list Z := [u8 (z / 256); u8 z].
Definition PutUint32 (z : Z) : list Z :=
  [u8 (z / 16777216); u8 (z / 65536); u8 (z / 256); u8 z].
Definition Uint16 (b : list Z) : Z := b.[0] * 256 + b.[1].
Definition Uint32 (b : list Z) : Z :=
  b.[0] * 16777216 + b.[1] * 65536 + b.[2] * 256 + b.[3].

(** ** PDUs *)

Record PDU := mkPDU {
  pdu_Length : Z;
  pdu_CommandID : Z;
  pdu_Status : Z;
  pdu_SequenceID : Z;
  pdu_Body : list Z }.

#[export] Instance PDU_eq_dec : EqDecision PDU.
Proof. solve_decision. Defined.

(** A PDU literal of the source: [Length] is left zero. *)
Definition pdu (command status sequence : Z) (body : list Z) : PDU :=
  mkPDU 0 command status sequence body.

Inductive read_err :=
| EOF
| ErrUnexpectedEOF
| ErrInvalidLength
| ErrTooLarge (length : Z).

(** [io.ReadFull(r, buf)] on a reader that holds the bytes [r] before its end. *)
Definition ReadFull (n : nat) (r : list Z) : res read_err (list Z * list Z) :=
  if (n <=? length r)%nat then Ok (take n r, drop n r)
  else match r with [] => Err EOF | _ => Err ErrUnexpectedEOF end.

(** [ReadPDU], returning what is left on the stream. *)
Definition ReadPDU (r : list Z) : res read_err (PDU * list Z) :=
  '(header, r) ← ReadFull 16 r;
  let length := Uint32 (slice header 0 4) in
  if length <? 16 then Err ErrInvalidLength
  else if 1024 * 1024 <? length then Err (ErrTooLarge length)
  else
    '(body, r) ← ReadFull (Z.to_nat (length - 16)) r;
    Ok ({| pdu_Length := length;
           pdu_CommandID := Uint32 (slice header 4 8);
           pdu_Status := Uint32 (slice header 8 12);
           pdu_SequenceID := Uint32 (slice header 12 16);
           pdu_Body := body |}, r).

(** The bytes [WritePDU] writes: the length is recomputed from the body. *)
Definition WritePDU (p : PDU) : list Z :=
  PutUint32 (u32 (16 + Z.of_nat (length (pdu_Body p)))) ++ PutUint32 (pdu_CommandID p)
  ++ PutUint32 (pdu_Status p) ++ PutUint32 (pdu_SequenceID p) ++ pdu_Body p.

(** ** C-octet strings *)

Definition CString (value : string) : list Z := bytes_of_string value ++ [0].

Inductive parse_err :=
| CStringExceeds (max : nat)
| ParseError (msg : string).

#[export] Instance parse_err_eq_dec : EqDecision parse_err.
Proof. solve_decision. Defined.

(** The scan of [readCStringMax] from the current offset: how many bytes
    precede the terminator. *)
Fixpoint cstring_scan (rest : list Z) (k max : nat) : res parse_err nat :=
  match rest with
  | [] => Err (ParseError "unterminated c-octet string")
  | b :: rest =>
    if b =? 0 then Ok k
    else if (max <=? k)%nat then Err (CStringExceeds max)
    else cstring_scan rest (S k) max
  end.

Definition readCStringMax (body : list Z) (offset max : nat) : res parse_err (string * nat) :=
  n ← cstring_scan (drop offset body) 0 max;
  Ok (string_of_bytes (slice body offset (offset + n)), (offset + n + 1)%nat).

(** ** Optional parameters *)

Definition TagSARMsgRefNum : Z := 0x020C.
Definition TagSARTotalSegments : Z := 0x020E.
Definition TagSARSegmentSeqnum : Z := 0x020F.
Definition TagMessagePayload : Z := 0x0424.
Definition TagReceiptedMessageID : Z := 0x001E.
Definition TagMessageState : Z := 0x0427.

Record TLV := mkTLV { tlv_Tag : Z; tlv_Value : list Z }.

#[export] Instance TLV_eq_dec : EqDecision TLV.
Proof. solve_decision. Defined.

(** The loop of [ParseTLVsStrict]: every turn consumes at least four bytes, so
    the length of the body bounds the number of turns. *)
Fixpoint tlv_loop (fuel : nat) (body : list Z) : res parse_err (list TLV) :=
  match body with
  | [] => Ok []
  | _ =>
    if (length body <? 4)%nat then Err (ParseError "short optional parameter header")
    else
      let tag := Uint16 (slice body 0 2) in
      let size := Z.to_nat (Uint16 (slice body 2 4)) in
      if (length body <? 4 + size)%nat then Err (ParseError "short optional parameter value")
      else match fuel with
      | O => Err (ParseError "out of fuel")
      | S fuel =>
        out ← tlv_loop fuel (drop (4 + size) body);
        Ok (mkTLV tag (slice body 4 (4 + size)) :: out)
      end
  end.

Definition ParseTLVsStrict (body : list Z) : res parse_err (list TLV) :=
  tlv_loop (length body) body.

Definition ParseTLVs (body : list Z) : list TLV :=
  match ParseTLVsStrict body with Ok out => out | Err _ => [] end.

Fixpoint FindTLV (tlvs : list TLV) (tag : Z) : option (list Z) :=
  match tlvs with
  | [] => None
  | t :: tlvs => if tlv_Tag t =? tag then Some (tlv_Value t) else FindTLV tlvs tag
  end.

(** The writer's side, shared by dlr.go and smppclient/encode.go. *)
Definition tlv_bytes (t : TLV) : list Z :=
  PutUint16 (tlv_Tag t) ++ PutUint16 (u16 (Z.of_nat (length (tlv_Value t)))) ++ tlv_Value t.

Definition appendTLVBytes (body : list Z) (tag : Z) (value : list Z) : list Z :=
  body ++ tlv_bytes (mkTLV tag value).

Definition appendTLVCString (body : list Z) (tag : Z) (value : string) : list Z :=
  appendTLVBytes body tag (CString value).

(** ** User data headers *)

Record ConcatInfo := mkConcatInfo {
  ci_Reference : Z;
  ci_Total : Z;
  ci_Part : Z }.

#[export] Instance ConcatInfo_eq_dec : EqDecision ConcatInfo.
Proof. solve_decision. Defined.

Definition validConcatPart (total part : Z) : bool :=
  (0 <? total) && (0 <? part) && (part <=? total).

Definition newConcatInfo (reference total part : Z) : option ConcatInfo :=
  if negb (validConcatPart total part) then None
  else Some (mkConcatInfo reference total part).

Definition bad_ie : parse_err := ParseError "malformed udh information element".
Definition bad_concat_ie : parse_err := ParseError "malformed concatenation information element".

(** The check of one concatenation element inside [SplitUDH]. *)
Definition check_ie (iei : Z) (data : list Z) : bool :=
  if iei =? 0 then (length data =? 3)%nat && validConcatPart (data.[1]) (data.[2])
  else if iei =? 8 then (length data =? 4)%nat && validConcatPart (data.[2]) (data.[3])
  else true.

Fixpoint udh_loop (fuel : nat) (ies : list Z) : res parse_err unit :=
  match ies with
  | [] => Ok tt
  | _ =>
    if (length ies <? 2)%nat then Err bad_ie
    else
      let length' := Z.to_nat (ies.[1]) in
      if (length ies - 2 <? length')%nat then Err bad_ie
      else if negb (check_ie (ies.[0]) (slice ies 2 (2 + length'))) then Err bad_concat_ie
      else match fuel with
      | O => Err (ParseError "out of fuel")
      | S fuel => udh_loop fuel (drop (2 + length') ies)
      end
  end.

(** [SplitUDH] returns a nil header when the flag is clear. *)
Definition SplitUDH (raw : list Z) (esmClass : Z) : res parse_err (option (list Z) * list Z) :=
  if Z.land esmClass 64 =? 0 then Ok (None, raw)
  else match raw with
  | [] => Err (ParseError "udh flag set but short_message empty")
  | _ =>
    let udhLen := (Z.to_nat (raw.[0]) + 1)%nat in
    if (udhLen <=? 1)%nat || (length raw <? udhLen)%nat
    then Err (ParseError "udh length exceeds short_message")
    else
      _ ← udh_loop udhLen (slice raw 1 udhLen);
      Ok (Some (take udhLen raw), drop udhLen raw)
  end.

Fixpoint concat_loop (fuel : nat) (ies : list Z) : option ConcatInfo :=
  if (length ies <? 2)%nat then None
  else
    let iei := ies.[0] in
    let iedl := Z.to_nat (ies.[1]) in
    if (length ies <? 2 + iedl)%nat then None
    else
      let data := slice ies 2 (2 + iedl) in
      if (iei =? 0) && (length data =? 3)%nat
      then newConcatInfo (data.[0]) (data.[1]) (data.[2])
      else if (iei =? 8) && (length data =? 4)%nat
      then newConcatInfo (Z.lor (u16 (Z.shiftl (data.[0]) 8)) (data.[1])) (data.[2]) (data.[3])
      else match fuel with
      | O => None
      | S fuel => concat_loop fuel (drop (2 + iedl) ies)
      end.

Definition ParseConcat (udh : list Z) : option ConcatInfo :=
  match udh with
  | [] => None
  | _ =>
    let udhLen := Z.to_nat (udh.[0]) in
    if (length udh <? 1 + udhLen)%nat then None
    else concat_loop udhLen (slice udh 1 (1 + udhLen))
  end.

Definition ParseSAR (tlvs : list TLV) : option ConcatInfo :=
  match FindTLV tlvs TagSARMsgRefNum, FindTLV tlvs TagSARTotalSegments,
        FindTLV tlvs TagSARSegmentSeqnum with
  | Some ref, Some total, Some part =>
    if (negb (length ref =? 1)%nat && negb (length ref =? 2)%nat)
       || negb (length total =? 1)%nat || negb (length part =? 1)%nat
    then None
    else
      let refNum :=
        if (length ref =? 1)%nat then ref.[0]
        else Z.lor (u16 (Z.shiftl (ref.[0]) 8)) (ref.[1]) in
      newConcatInfo refNum (total.[0]) (part.[0])
  | _, _, _ => None
  end.

Definition is_sar_tag (tag : Z) : bool :=
  (tag =? TagSARMsgRefNum) || (tag =? TagSARTotalSegments) || (tag =? TagSARSegmentSeqnum).

Definition HasSAR (tlvs : list TLV) : bool := existsb (fun t => is_sar_tag (tlv_Tag t)) tlvs.

(** [hasDuplicateSARTag] with the set of tags seen so far. *)
Fixpoint dup_sar_loop (tlvs : list TLV) (seen : gset Z) : bool :=
  match tlvs with
  | [] => false
  | t :: tlvs =>
    if is_sar_tag (tlv_Tag t) then
      if bool_decide (tlv_Tag t ∈ seen) then true
      else dup_sar_loop tlvs ({[tlv_Tag t]} ∪ seen)
    else dup_sar_loop tlvs seen
  end.

Definition hasDuplicateSARTag (tlvs : list TLV) : bool := dup_sar_loop tlvs ∅.

#[global] Arguments tlv_bytes : simpl never.
#[global] Arguments PutUint16 : simpl never.
#[global] Arguments PutUint32 : simpl never.
#[global] Arguments ReadPDU : simpl never.
#[global] Arguments WritePDU : simpl never.

(** ** Integers on the wire *)

Lemma Uint32_Put z l : is_u32 z -> Uint32 (slice (PutUint32 z ++ l) 0 4) = z.
Proof. unfold is_u32, Uint32, PutUint32, slice, at0, u8. simpl. zlia. Qed.

Lemma Uint16_Put z : is_u16 z -> u8 (z / 256) * 256 + u8 z = z.
Proof. unfold is_u16, u8. zlia. Qed.

Lemma Put_Uint16 a b : is_u8 a -> is_u8 b -> PutUint16 (a * 256 + b) = [a; b].
Proof. unfold is_u8, PutUint16, u8. intros. repeat f_equal; zlia. Qed.

Lemma PutUint16_u8 z : Forall is_u8 (PutUint16 z).
Proof. unfold PutUint16. repeat constructor; unfold u8; zlia. Qed.

Lemma PutUint32_u8 z : Forall is_u8 (PutUint32 z).
Proof. unfold PutUint32. repeat constructor; unfold u8; zlia. Qed.

Lemma u16_is_u16 z : is_u16 (u16 z).
Proof. unfold is_u16, u16. zlia. Qed.

(** ** Framing *)

(** The fields of a PDU that the wire can carry. *)
Definition pdu_ok (p : PDU) : Prop :=
  is_u32 (pdu_CommandID p) /\ is_u32 (pdu_Status p) /\ is_u32 (pdu_SequenceID p)
  /\ Z.of_nat (length (pdu_Body p)) <= 1024 * 1024 - 16.

(** What the reader sees: the PDU with its length field filled in. *)
Definition framed (p : PDU) : PDU :=
  {| pdu_Length := 16 + Z.of_nat (length (pdu_Body p)); pdu_CommandID := pdu_CommandID p;
     pdu_Status := pdu_Status p; pdu_SequenceID := pdu_SequenceID p; pdu_Body := pdu_Body p |}.

Lemma ReadFull_app n a b : length a = n -> ReadFull n (a ++ b) = Ok (a, b).
Proof.
  intros <-. unfold ReadFull. rewrite length_app.
  destruct (Nat.leb_spec (length a) (length a + length b)); [|lia].
  by rewrite take_app_length, drop_app_length.
Qed.

Lemma read_write_pdu p rest :
  pdu_ok p -> ReadPDU (WritePDU p ++ rest) = Ok (framed p, rest).
Proof.
  intros (Hc & Hs & Hq & Hb). unfold ReadPDU, WritePDU. rewrite <- !app_assoc.
  set (len := 16 + Z.of_nat (length (pdu_Body p))).
  assert (u32 len = len) as Hu by (unfold u32; subst len; rewrite Z.mod_small; lia).
  rewrite Hu. assert (is_u32 len) as Hl by (unfold is_u32; subst len; lia).
  rewrite (app_assoc (PutUint32 len)), (app_assoc (_ ++ _)), (app_assoc (_ ++ _)).
  rewrite ReadFull_app by done. csimpl.
  pose proof (Uint32_Put len (PutUint32 (pdu_CommandID p)
    ++ PutUint32 (pdu_Status p) ++ PutUint32 (pdu_SequenceID p)) Hl) as E0.
  pose proof (Uint32_Put _ [] Hc) as E1. pose proof (Uint32_Put _ [] Hs) as E2.
  pose proof (Uint32_Put _ [] Hq) as E3.
  unfold slice, PutUint32 in *. simpl in E0, E1, E2, E3 |- *. rewrite E0, E1, E2, E3.
  destruct (Z.ltb_spec len 16); [lia|]. destruct (Z.ltb_spec (1024 * 1024) len); [lia|].
  rewrite ReadFull_app by lia. done.
Qed.

(** Reading frame after frame, as the read loops do, until the stream ends. *)
Fixpoint read_frames (n : nat) (r : list Z) : res read_err (list PDU * list Z) :=
  match n with
  | O => Ok ([], r)
  | S n =>
    '(p, r) ← ReadPDU r;
    '(ps, r) ← read_frames n r;
    Ok (p :: ps, r)
  end.

(** Any sequence of representable PDUs written back to back is read frame by
    frame to the same PDUs with their lengths filled in, leaving what
    follows untouched. *)
Theorem stream_roundtrip ps rest :
  Forall pdu_ok ps ->
  read_frames (length ps) ((ps ≫= WritePDU) ++ rest) = Ok (framed <$> ps, rest).
Proof.
  induction 1 as [|p ps Hp _ IH]; [done|].
  change ((p :: ps) ≫= WritePDU) with (WritePDU p ++ (ps ≫= WritePDU)).
  rewrite <- app_assoc. cbn [length read_frames]. rewrite read_write_pdu by done.
  cbn [mbind res_bind]. by rewrite IH.
Qed.

Lemma stream_roundtrip_witness :
  read_frames 2 ((([pdu commandEnquireLink 0 7 []; pdu commandSubmitSM 0 8 [1; 2]] ≫= WritePDU)) ++ [9])
  = Ok ([mkPDU 16 commandEnquireLink 0 7 []; mkPDU 18 commandSubmitSM 0 8 [1; 2]], [9]).
Proof.
  apply (stream_roundtrip [pdu commandEnquireLink 0 7 []; pdu commandSubmitSM 0 8 [1; 2]] [9]).
  repeat constructor; cbv; congruence.
Defined.

(** A PDU that is read has a length between 16 and 1 MiB, consumes exactly that
    many bytes and its body is the rest of the frame. *)
Theorem read_pdu_bounds r p rest :
  ReadPDU r = Ok (p, rest) ->
  16 <= pdu_Length p <= 1024 * 1024
  /\ Z.of_nat (length (pdu_Body p)) = pdu_Length p - 16
  /\ Z.of_nat (length r) = pdu_Length p + Z.of_nat (length rest)
  /\ exists header, length header = 16%nat /\ r = header ++ pdu_Body p ++ rest.
Proof.
  unfold ReadPDU, ReadFull. destruct (Nat.leb_spec 16 (length r)) as [Hr|Hr]; [|by destruct r].
  csimpl. set (len := Uint32 _).
  destruct (Z.ltb_spec len 16) as [|H1]; [done|].
  destruct (Z.ltb_spec (1024 * 1024) len) as [|H2]; [done|].
  destruct (Nat.leb_spec (Z.to_nat (len - 16)) (length (drop 16 r))) as [H3|H3];
    [|by destruct (drop 16 r)].
  csimpl. intros [= <- <-]. rewrite length_drop in H3. simpl.
  split; [lia|]. split; [rewrite length_take, length_drop; lia|].
  split; [rewrite !length_drop; lia|].
  exists (take 16 r). split; [rewrite length_take; lia|]. by rewrite !take_drop.
Qed.

Lemma read_pdu_bounds_witness : 16 <= pdu_Length (framed (pdu commandEnquireLink 0 7 [])) <= 1024 * 1024.
Proof.
  apply (read_pdu_bounds (WritePDU (pdu commandEnquireLink 0 7 []) ++ [9]) _ [9]).
  vm_compute. reflexivity.
Defined.

(** ** Optional parameters *)

Definition tlv_ok (t : TLV) : Prop :=
  is_u16 (tlv_Tag t) /\ Forall is_u8 (tlv_Value t) /\ Z.of_nat (length (tlv_Value t)) < 65536.

Lemma length_tlv_bytes t : length (tlv_bytes t) = (4 + length (tlv_Value t))%nat.
Proof. unfold tlv_bytes. rewrite !length_app. done. Qed.

Lemma tlv_loop_app fuel t rest :
  tlv_ok t -> tlv_loop (S fuel) (tlv_bytes t ++ rest) = (cons t) <$> tlv_loop fuel rest.
Proof.
  intros (Ht & Hv & Hl). assert (u16 (Z.of_nat (length (tlv_Value t))) = Z.of_nat (length (tlv_Value t))) as Hu
    by (unfold u16; rewrite Z.mod_small; lia).
  pose proof (length_tlv_bytes t) as Hlen. destruct (tlv_bytes t ++ rest) as [|x xs] eqn:E.
  { apply app_eq_nil in E as [E _]. rewrite E in Hlen. done. }
  cbn [tlv_loop]. rewrite <- E. clear E x xs.
  rewrite length_app, Hlen. destruct (Nat.ltb_spec (4 + length (tlv_Value t) + length rest) 4); [lia|].
  assert (Uint16 (slice (tlv_bytes t ++ rest) 2 4) = Z.of_nat (length (tlv_Value t))) as ->.
  { unfold tlv_bytes, PutUint16, Uint16, slice, at0. simpl. rewrite Hu.
    apply Uint16_Put. unfold is_u16. lia. }
  rewrite Nat2Z.id. destruct (Nat.ltb_spec (4 + length (tlv_Value t) + length rest) (4 + length (tlv_Value t))); [lia|].
  rewrite (drop_app_length' _ _ _ (eq_sym Hlen)).
  assert (slice (tlv_bytes t ++ rest) 4 (4 + length (tlv_Value t)) = tlv_Value t) as ->.
  { unfold slice. replace (4 + length (tlv_Value t) - 4)%nat with (length (tlv_Value t)) by lia.
    change (drop 4 (tlv_bytes t ++ rest)) with (tlv_Value t ++ rest).
    by rewrite take_app_length. }
  assert (Uint16 (slice (tlv_bytes t ++ rest) 0 2) = tlv_Tag t) as ->.
  { unfold tlv_bytes, PutUint16, Uint16, slice, at0. simpl. by apply Uint16_Put. }
  destruct t. by destruct (tlv_loop fuel rest).
Qed.

Lemma tlv_loop_complete tlvs fuel :
  Forall tlv_ok tlvs -> (length (tlvs ≫= tlv_bytes) <= fuel)%nat ->
  tlv_loop fuel (tlvs ≫= tlv_bytes) = Ok tlvs.
Proof.
  intros H. revert fuel. induction H as [|t tlvs Ht _ IH]; intros fuel Hf; [by destruct fuel|].
  rewrite bind_cons in *. rewrite length_app, length_tlv_bytes in Hf.
  destruct fuel as [|fuel]; [lia|]. rewrite tlv_loop_app, IH by (done || lia). done.
Qed.

Lemma tlv_loop_sound fuel body tlvs :
  Forall is_u8 body -> tlv_loop fuel body = Ok tlvs ->
  Forall tlv_ok tlvs /\ body = tlvs ≫= tlv_bytes.
Proof.
  revert body tlvs. induction fuel as [|fuel IH]; intros body tlvs Hb Hp.
  { destruct body as [|b0 [|b1 [|b2 [|b3 body]]]]; cbn in Hp; try done.
    - by injection Hp as <-.
    - revert Hp. case_match; [done|]. case_match; done. }
  destruct body as [|b0 body]; [by injection Hp as <-|]. cbn [tlv_loop] in Hp.
  destruct (Nat.ltb_spec (length (b0 :: body)) 4); [done|].
  destruct body as [|b1 [|b2 [|b3 body]]]; simpl in *; try lia.
  rewrite !Forall_cons in Hb. destruct Hb as (H0 & H1 & H2 & H3 & Hb).
  unfold Uint16, slice, at0 in Hp. simpl in Hp.
  set (size := Z.to_nat (b2 * 256 + b3)) in *.
  destruct (Nat.ltb_spec (S (S (S (S (length body))))) (S (S (S (S size))))) as [|Hsz]; [done|].
  destruct (tlv_loop fuel (drop size body)) as [out|] eqn:E; [|done].
  csimpl in Hp. injection Hp as <-.
  apply IH in E as [Hok Hbody]; [|by apply Forall_drop].
  rewrite Nat.sub_0_r, drop_0.
  assert (length (take size body) = size) as Hlt by (rewrite length_take; lia).
  assert (Z.of_nat size = b2 * 256 + b3) as Hsize by (subst size; unfold is_u8 in *; lia).
  split.
  - constructor; [|done]. unfold tlv_ok. simpl. rewrite Hlt. unfold is_u16, is_u8 in *.
    split; [lia|]. split; [by apply Forall_take|lia].
  - rewrite bind_cons, <- Hbody. unfold tlv_bytes. cbn [tlv_Tag tlv_Value].
    rewrite Hlt, Hsize. unfold u16. rewrite Z.mod_small by (unfold is_u8 in *; lia).
    rewrite !Put_Uint16 by done. simpl. by rewrite take_drop.
Qed.

(** The strict TLV parser accepts a byte string exactly when it is the
    concatenated encoding of a list of TLVs, and returns that list. *)
Theorem tlv_parse_iff body tlvs :
  Forall is_u8 body ->
  ParseTLVsStrict body = Ok tlvs <-> Forall tlv_ok tlvs /\ body = tlvs ≫= tlv_bytes.
Proof.
  intros Hb. unfold ParseTLVsStrict. split; [by apply tlv_loop_sound|].
  intros [Hok ->]. by apply tlv_loop_complete.
Qed.

Lemma tlv_parse_iff_witness : ParseTLVsStrict [2; 14; 0; 1; 5] = Ok [mkTLV 526 [5]].
Proof.
  apply (tlv_parse_iff [2; 14; 0; 1; 5] [mkTLV 526 [5]]).
  - repeat constructor; cbv; congruence.
  - split; [repeat constructor; cbv; congruence|reflexivity].
Defined.

(** ** User data headers *)

(** The grammar of a header: a length octet and a sequence of information
    elements, where concatenation elements carry valid part numbers. *)
Record IE := mkIE { ie_id : Z; ie_data : list Z }.

Definition ie_bytes (e : IE) : list Z :=
  ie_id e :: Z.of_nat (length (ie_data e)) :: ie_data e.
#[global] Arguments ie_bytes : simpl never.

Definition ie_ok (e : IE) : Prop :=
  is_u8 (ie_id e) /\ Forall is_u8 (ie_data e) /\ Z.of_nat (length (ie_data e)) < 256
  /\ check_ie (ie_id e) (ie_data e) = true.

Definition udh_bytes (ies : list IE) : list Z :=
  Z.of_nat (length (ies ≫= ie_bytes)) :: (ies ≫= ie_bytes).

Definition udh_ok (ies : list IE) : Prop :=
  Forall ie_ok ies /\ 0 < Z.of_nat (length (ies ≫= ie_bytes)) < 256.

(** What one element says about concatenation. *)
Definition concat_of (e : IE) : option ConcatInfo :=
  if ie_id e =? 0 then Some (mkConcatInfo ((ie_data e).[0]) ((ie_data e).[1]) ((ie_data e).[2]))
  else if ie_id e =? 8
  then Some (mkConcatInfo ((ie_data e).[0] * 256 + (ie_data e).[1]) ((ie_data e).[2]) ((ie_data e).[3]))
  else None.

Lemma length_ie_bytes e : length (ie_bytes e) = (2 + length (ie_data e))%nat.
Proof. done. Qed.

Lemma length_ies ies : (length ies <= length (ies ≫= ie_bytes))%nat.
Proof.
  induction ies as [|e ies IH]; [done|].
  rewrite bind_cons, length_app, length_ie_bytes. simpl. lia.
Qed.

Lemma slice_1 {A} (l : list A) n : slice l 1 (S n) = take n (drop 1 l).
Proof. unfold slice. simpl. by rewrite Nat.sub_0_r. Qed.

Lemma slice_ie e rest : slice (ie_bytes e ++ rest) 2 (2 + length (ie_data e)) = ie_data e.
Proof.
  unfold slice. replace (2 + length (ie_data e) - 2)%nat with (length (ie_data e)) by lia.
  change (drop 2 (ie_bytes e ++ rest)) with (ie_data e ++ rest). apply take_app_length.
Qed.

Lemma udh_loop_app fuel e rest :
  ie_ok e -> udh_loop (S fuel) (ie_bytes e ++ rest) = udh_loop fuel rest.
Proof.
  intros (_ & _ & _ & Hc). cbn [udh_loop].
  destruct (ie_bytes e ++ rest) eqn:E; [done|]. rewrite <- E.
  change ((ie_bytes e ++ rest).[1]) with (Z.of_nat (length (ie_data e))).
  change ((ie_bytes e ++ rest).[0]) with (ie_id e).
  rewrite Nat2Z.id, slice_ie, Hc, length_app, length_ie_bytes.
  destruct (Nat.ltb_spec (2 + length (ie_data e) + length rest) 2); [lia|].
  destruct (Nat.ltb_spec (2 + length (ie_data e) + length rest - 2) (length (ie_data e))); [lia|].
  simpl negb. cbn match. by rewrite (drop_app_length' (ie_bytes e)).
Qed.

Lemma udh_loop_complete ies fuel :
  Forall ie_ok ies -> (length ies <= fuel)%nat -> udh_loop fuel (ies ≫= ie_bytes) = Ok tt.
Proof.
  intros H. revert fuel. induction H as [|e ies He _ IH]; intros fuel Hf; [by destruct fuel|].
  simpl in Hf. destruct fuel as [|fuel]; [lia|].
  rewrite bind_cons, udh_loop_app, IH by (done || lia). done.
Qed.

Lemma udh_loop_sound fuel body :
  Forall is_u8 body -> udh_loop fuel body = Ok tt ->
  exists ies, Forall ie_ok ies /\ body = ies ≫= ie_bytes.
Proof.
  revert body. induction fuel as [|fuel IH]; intros body Hb Hp;
    (destruct body as [|b0 [|b1 body]]; [by exists []|done|]);
    rewrite !Forall_cons in Hb; destruct Hb as (H0 & H1 & Hb);
    cbn [udh_loop] in Hp; unfold at0 in Hp; simpl in Hp;
    destruct (Nat.ltb_spec (S (S (length body))) 2); try lia;
    destruct (Nat.ltb_spec (length body - 0) (Z.to_nat b1)) as [|Hl]; try done;
    destruct (check_ie b0 _) eqn:Hc; try done.
  apply IH in Hp as (ies & Hok & Hbody); [|by apply Forall_drop].
  unfold slice in Hc. simpl in Hc. rewrite Nat.sub_0_r, drop_0 in *.
  assert (length (take (Z.to_nat b1) body) = Z.to_nat b1) as Hlt by (rewrite length_take; lia).
  exists (mkIE b0 (take (Z.to_nat b1) body) :: ies). unfold is_u8 in *. split.
  - constructor; [|done]. unfold ie_ok; simpl. rewrite Hlt.
    repeat split; [lia..|by apply Forall_take|lia|done].
  - rewrite bind_cons, <- Hbody. unfold ie_bytes; simpl. rewrite Hlt, take_drop.
    repeat f_equal. lia.
Qed.

Lemma SplitUDH_sound raw esmClass udh body :
  Forall is_u8 raw -> SplitUDH raw esmClass = Ok (Some udh, body) ->
  Z.land esmClass 64 <> 0 /\ exists ies, udh_ok ies /\ udh = udh_bytes ies /\ raw = udh ++ body.
Proof.
  intros Hr. unfold SplitUDH. destruct (Z.eqb_spec (Z.land esmClass 64) 0) as [E|E]; [done|].
  destruct raw as [|b raw]; [done|]. change ((b :: raw).[0]) with b.
  apply Forall_cons in Hr as [Hb Hr]. unfold is_u8 in Hb. rewrite Nat.add_1_r.
  destruct (Nat.leb_spec (S (Z.to_nat b)) 1); [done|].
  destruct (Nat.ltb_spec (length (b :: raw)) (S (Z.to_nat b))) as [|Hl]; [done|]. simpl in Hl.
  rewrite slice_1. change (drop 1 (b :: raw)) with (drop 0 raw). rewrite drop_0. cbn [orb].
  destruct (udh_loop _ _) as [[]|] eqn:Hp; [|done]. csimpl. intros [= <- <-].
  apply udh_loop_sound in Hp as (ies & Hok & Hies); [|by apply Forall_take].
  split; [done|]. exists ies.
  assert (length (take (Z.to_nat b) raw) = Z.to_nat b) as Hlt by (rewrite length_take; lia).
  unfold udh_ok, udh_bytes. rewrite <- Hies, Hlt. rewrite Z2Nat.id by lia.
  split; [split; [done|lia]|]. split; [done|]. simpl. by rewrite take_drop.
Qed.

Lemma SplitUDH_complete esmClass ies body :
  Z.land esmClass 64 <> 0 -> udh_ok ies ->
  SplitUDH (udh_bytes ies ++ body) esmClass = Ok (Some (udh_bytes ies), body).
Proof.
  intros E [Hok Hlen]. unfold SplitUDH. destruct (Z.eqb_spec (Z.land esmClass 64) 0); [done|].
  unfold udh_bytes. simpl. pose proof (length_ies ies) as Hi.
  set (ib := ies ≫= ie_bytes) in *. unfold at0; simpl. rewrite Nat2Z.id.
  replace (length ib + 1)%nat with (S (length ib)) by lia.
  destruct (Nat.leb_spec (S (length ib)) 1); [lia|].
  destruct (Nat.ltb_spec (S (length (ib ++ body))) (S (length ib))) as [Hl|_];
    [rewrite length_app in Hl; lia|].
  rewrite slice_1. cbn [drop orb take]. rewrite take_app_length, drop_app_length, ?drop_0.
  subst ib. by rewrite take_app_length, udh_loop_complete by (done || lia).
Qed.

(** SplitUDH separates a header from a body exactly when the flag is set and the
    header is a length octet and well-formed information elements whose
    concatenation elements carry valid part numbers. *)
Theorem split_udh_iff raw esmClass udh body :
  Forall is_u8 raw ->
  SplitUDH raw esmClass = Ok (Some udh, body) <->
  Z.land esmClass 64 <> 0
  /\ exists ies, udh_ok ies /\ udh = udh_bytes ies /\ raw = udh ++ body.
Proof.
  intros Hr. split; [by apply SplitUDH_sound|].
  intros (E & ies & Hok & -> & ->). by apply SplitUDH_complete.
Qed.

Lemma split_udh_iff_witness : SplitUDH [5; 0; 3; 9; 2; 1; 65] 64 = Ok (Some [5; 0; 3; 9; 2; 1], [65]).
Proof.
  apply (split_udh_iff [5; 0; 3; 9; 2; 1; 65] 64 [5; 0; 3; 9; 2; 1] [65]).
  - repeat constructor; cbv; congruence.
  - split; [done|]. exists [mkIE 0 [9; 2; 1]]. split; [|split; reflexivity].
    split; [repeat constructor; cbv; congruence|cbv; split; congruence].
Defined.

Lemma concat_loop_app fuel e rest :
  ie_ok e -> concat_loop (S fuel) (ie_bytes e ++ rest) =
  match concat_of e with Some ci => Some ci | None => concat_loop fuel rest end.
Proof.
  intros (Hi & Hd & _ & Hc). cbn [concat_loop]. rewrite length_app, length_ie_bytes.
  change ((ie_bytes e ++ rest).[1]) with (Z.of_nat (length (ie_data e))).
  change ((ie_bytes e ++ rest).[0]) with (ie_id e).
  rewrite Nat2Z.id, slice_ie.
  destruct (Nat.ltb_spec (2 + length (ie_data e) + length rest) 2); [lia|].
  destruct (Nat.ltb_spec (2 + length (ie_data e) + length rest) (2 + length (ie_data e))); [lia|].
  rewrite (drop_app_length' (ie_bytes e)) by done. unfold concat_of, check_ie, newConcatInfo in *.
  destruct e as [i d]; simpl in *. destruct (Z.eqb_spec i 0) as [->|H1]; simpl.
  { apply andb_true_iff in Hc as [-> ->]. done. }
  destruct (Z.eqb_spec i 8) as [->|]; simpl; [|done].
  apply andb_true_iff in Hc as [Hl Hv]. rewrite Hl. simpl.
  destruct d as [|d0 [|d1 d]]; try done. rewrite !Forall_cons in Hd. destruct Hd as (H2 & H3 & _).
  unfold at0 in *. simpl in *. rewrite Hv. simpl.
  assert (u16 (Z.shiftl d0 8) = Z.shiftl d0 8) as ->.
  { unfold u16, is_u8 in *. rewrite Z.shiftl_mul_pow2, Z.mod_small by lia. done. }
  by rewrite lor_shiftl_8.
Qed.

Lemma concat_loop_spec ies fuel :
  Forall ie_ok ies -> (length ies <= fuel)%nat ->
  concat_loop fuel (ies ≫= ie_bytes) = head (omap concat_of ies).
Proof.
  intros H. revert fuel. induction H as [|e ies He _ IH]; intros fuel Hf; [by destruct fuel|].
  simpl in Hf. destruct fuel as [|fuel]; [lia|].
  rewrite bind_cons, concat_loop_app by done. simpl.
  destruct (concat_of e); [done|]. apply IH. lia.
Qed.

Lemma parse_concat_udh ies : udh_ok ies -> ParseConcat (udh_bytes ies) = head (omap concat_of ies).
Proof.
  intros [Hok Hl]. unfold ParseConcat, udh_bytes. set (ib := ies ≫= ie_bytes) in *.
  unfold at0; simpl. rewrite Nat2Z.id. destruct (Nat.ltb_spec (S (length ib)) (S (length ib))); [lia|].
  rewrite slice_1. cbn [drop]. rewrite drop_0, take_ge by lia.
  apply concat_loop_spec; [done|]. pose proof (length_ies ies). subst ib. lia.
Qed.

Lemma concat_of_valid e ci : ie_ok e -> concat_of e = Some ci -> validConcatPart (ci_Total ci) (ci_Part ci) = true.
Proof.
  intros (_ & _ & _ & Hc). unfold concat_of, check_ie in *.
  destruct (ie_id e =? 0); [|destruct (ie_id e =? 8); [|done]];
    apply andb_true_iff in Hc as [_ Hv]; by intros [= <-].
Qed.
