(* ===== verification/GoTime.v ===== *)
(** * Times and calendar dates: what the code uses of package time

    A [time.Time] is the number of nanoseconds since 1 January of year 1, UTC,
    so that the zero time is 0 and [IsZero] is a comparison with 0. A clock
    reading is a parameter of the operation that takes it. *)

From S2P Require Import Prelude Num.

Abbreviation time := Z (only parsing).
Abbreviation duration := Z (only parsing).

Definition Second : duration := 1000000000.
Definition Minute : duration := 60 * Second.
Definition Hour : duration := 60 * Minute.
Definition Day : duration := 24 * Hour.

Definition IsZero (t : time) : bool := t =? 0.
Definition After (t u : time) : bool := u <? t.
Definition Before (t u : time) : bool := t <? u.

(** ** The proleptic Gregorian calendar *)

Definition days_before : list Z := [0; 31; 59; 90; 120; 151; 181; 212; 243; 273; 304; 334].

Definition is_leap (y : Z) : bool := (y mod 4 =? 0) && (negb (y mod 100 =? 0) || (y mod 400 =? 0)).

(** Year (from 1) and day of the year (from 0) of a day number. *)
Definition year_day (d : Z) : Z * Z :=
  let n400 := d / 146097 in
  let r := d mod 146097 in
  let n100 := Z.min (r / 36524) 3 in
  let r := r - 36524 * n100 in
  let n4 := r / 1461 in
  let r := r mod 1461 in
  let n1 := Z.min (r / 365) 3 in
  (400 * n400 + 100 * n100 + 4 * n4 + n1 + 1, r - 365 * n1).

(** The length of the year before month [m] (0 for January). *)
Definition before_month (leap : bool) (m : nat) : Z :=
  days_before.[m] + (if leap && (2 <=? m)%nat then 1 else 0).

Fixpoint month_loop (leap : bool) (yday : Z) (m : nat) : nat :=
  match m with
  | O => O
  | S m' => if before_month leap m <=? yday then m else month_loop leap yday m'
  end.

Record civil := mkCivil {
  c_year : Z; c_month : Z; c_day : Z; c_hour : Z; c_minute : Z; c_second : Z }.

Definition civil_of (t : time) : civil :=
  let d := t / Day in
  let s := (t mod Day) / Second in
  let '(y, yd) := year_day d in
  let m := month_loop (is_leap y) yd 11 in
  mkCivil y (Z.of_nat m + 1) (yd - before_month (is_leap y) m + 1)
    (s / 3600) (s / 60 mod 60) (s mod 60).

(** [Weekday]: 0 is Sunday; 1 January of year 1 was a Monday. *)
Definition Weekday (t : time) : Z := (t / Day + 1) mod 7.

(** [t.UTC().Format("0601021504")]. *)
Definition Format_0601021504 (t : time) : string :=
  let c := civil_of t in
  fmt_0d 2 (c_year c mod 100) +:+ fmt_0d 2 (c_month c) +:+ fmt_0d 2 (c_day c)
  +:+ fmt_0d 2 (c_hour c) +:+ fmt_0d 2 (c_minute c).

Definition Unix (sec : Z) : time := (sec + 62135596800) * Second.

Lemma format_example : Format_0601021504 (Unix 1700000000) = "2311142213".
Proof. vm_compute. reflexivity. Qed.

Lemma slen_fmt_0d w n : 0 <= n < 10 ^ Z.of_nat (S w) -> slen (fmt_0d (S w) n) = S w.
Proof.
  intros Hn. unfold fmt_0d. destruct (Z.ltb_spec n 0); [lia|]. rewrite slen_pad0.
  pose proof (slen_FormatUint n 10 w ltac:(lia) Hn). lia.
Qed.

Lemma month_loop_le leap yd m : (month_loop leap yd m <= m)%nat.
Proof. induction m as [|m IH]; simpl; [lia|]. case_match; lia. Qed.

(** Bounds of the civil fields, which make the formatted width constant. *)
Lemma year_day_bounds d : 0 <= (year_day d).2 <= 365.
Proof. unfold year_day. cbn [snd]. zlia. Qed.

Lemma month_day_check :
  forallb (fun yd => forallb (fun leap =>
    let m := month_loop leap yd 11 in
    (0 <=? yd - before_month leap m) && (yd - before_month leap m <=? 98)) [true; false])
    (seqZ 0 366) = true.
Proof. vm_compute. reflexivity. Qed.

Lemma month_day_bounds leap yd :
  0 <= yd <= 365 -> 0 <= yd - before_month leap (month_loop leap yd 11) <= 98.
Proof.
  intros H. pose proof month_day_check as C. rewrite forallb_forall in C.
  assert (In yd (seqZ 0 366)) as Hin.
  { apply list_elem_of_In. apply elem_of_seqZ. lia. }
  specialize (C yd Hin). cbn [forallb] in C.
  rewrite andb_true_r, !andb_true_iff, !Z.leb_le in C. destruct leap; tauto.
Qed.

Lemma slen_Format t : slen (Format_0601021504 t) = 10%nat.
Proof.
  unfold Format_0601021504, civil_of. pose proof (year_day_bounds (t / Day)) as Hy.
  destruct (year_day (t / Day)) as [y yd]. simpl in Hy.
  pose proof (month_loop_le (is_leap y) yd 11). pose proof (month_day_bounds (is_leap y) yd Hy).
  unfold Second, Day, Hour, Minute, Second in *. cbn [c_year c_month c_day c_hour c_minute].
  rewrite !slen_app, !slen_fmt_0d; [done|zlia..].
Qed.
