(* ===== verification/Submit.v ===== *)
(** * submit_sm bodies and delivery receipts: internal/smpp/submit.go, dlr.go

    Parsing a submit_sm body and building the deliver_sm that carries a
    delivery receipt. *)

From S2P Require Import Prelude Unicode Codec Segment Pdu Num GoTime.

Definition smppMaxServiceType : nat := 6.
Definition SMPPMaxAddress : nat := 20.

Record SubmitSM := mkSubmitSM {
  sm_SequenceID : Z;
  sm_From : string;
  sm_To : string;
  sm_Text : string;
  sm_DataCoding : Z;
  sm_RegisteredDelivery : Z;
  sm_ESMClass : Z;
  sm_ProtocolID : Z;
  sm_PriorityFlag : Z;
  sm_ReplaceIfPresent : Z;
  sm_SMDefaultMsgID : Z;
  sm_OptionalParamsOffset : nat;
  sm_Payload : list Z;
  sm_UDH : option (list Z);
  sm_Concat : option ConcatInfo;
  sm_TLVs : list TLV }.

#[export] Instance SubmitSM_eq_dec : EqDecision SubmitSM.
Proof. solve_decision. Defined.

(** [message_payload] replaces an empty short message. *)
Definition submit_raw (smLen : nat) (raw : list Z) (tlvs : list TLV) : res parse_err (list Z) :=
  match FindTLV tlvs TagMessagePayload with
  | Some payload =>
    if (0 <? smLen)%nat
    then Err (ParseError "short_message and message_payload cannot both be set")
    else Ok payload
  | None => Ok raw
  end.

(** The concatenation data: from the header, else from the SAR parameters. *)
Definition submit_concat (udh : option (list Z)) (tlvs : list TLV) : res parse_err (option ConcatInfo) :=
  match udh ≫= ParseConcat with
  | Some ci => Ok (Some ci)
  | None =>
    match ParseSAR tlvs with
    | Some ci => Ok (Some ci)
    | None =>
      if HasSAR tlvs then Err (ParseError "malformed sar optional parameters") else Ok None
    end
  end.

Definition ParseSubmitSM (p : PDU) : res parse_err SubmitSM :=
  let body := pdu_Body p in
  let n := length body in
  '(_, offset) ← readCStringMax body 0 smppMaxServiceType;
  _ ← fail_if (n <? offset + 2)%nat (ParseError "short submit_sm");
  let offset := (offset + 2)%nat in
  '(from, offset) ← readCStringMax body offset SMPPMaxAddress;
  _ ← fail_if (n <? offset + 2)%nat (ParseError "missing destination ton/npi");
  let offset := (offset + 2)%nat in
  '(to, offset) ← readCStringMax body offset SMPPMaxAddress;
  _ ← fail_if (n <? offset + 3)%nat (ParseError "missing submit_sm fixed fields");
  let esmClass := body.[offset] in
  let protocolID := body.[offset + 1] in
  let priorityFlag := body.[offset + 2] in
  let offset := (offset + 3)%nat in
  '(_, offset) ← readCStringMax body offset 16;
  '(_, offset) ← readCStringMax body offset 16;
  _ ← fail_if (n <? offset + 5)%nat (ParseError "missing submit_sm delivery fields");
  let registeredDelivery := body.[offset] in
  let replaceIfPresent := body.[offset + 1] in
  let dataCoding := body.[offset + 2] in
  let smDefaultMsgID := body.[offset + 3] in
  let offset := (offset + 4)%nat in
  _ ← fail_if (n <=? offset)%nat (ParseError "missing sm length");
  let smLen := Z.to_nat (body.[offset]) in
  let offset := (offset + 1)%nat in
  _ ← fail_if (n <? offset + smLen)%nat (ParseError "short short_message");
  let raw := slice body offset (offset + smLen) in
  let offset := (offset + smLen)%nat in
  tlvs ← ParseTLVsStrict (drop offset body);
  _ ← fail_if (hasDuplicateSARTag tlvs) (ParseError "duplicate sar optional parameter");
  raw ← submit_raw smLen raw tlvs;
  '(udh, payload) ← SplitUDH raw esmClass;
  concat ← submit_concat udh tlvs;
  _ ← fail_if (match udh with Some _ => HasSAR tlvs | None => false end)
        (ParseError "udh and sar concatenation cannot be combined");
  Ok {| sm_SequenceID := pdu_SequenceID p; sm_From := from; sm_To := to;
        sm_Text := DecodeSubmitText payload dataCoding; sm_DataCoding := dataCoding;
        sm_RegisteredDelivery := registeredDelivery; sm_ESMClass := esmClass;
        sm_ProtocolID := protocolID; sm_PriorityFlag := priorityFlag;
        sm_ReplaceIfPresent := replaceIfPresent; sm_SMDefaultMsgID := smDefaultMsgID;
        sm_OptionalParamsOffset := offset; sm_Payload := payload; sm_UDH := udh;
        sm_Concat := concat; sm_TLVs := tlvs |}.

(** [parseSubmitSM], at the clock reading [now]. *)
Definition parseSubmitSM (now : time) (p : PDU) : res parse_err Message :=
  submit ← ParseSubmitSM p;
  let msg := New now "" DirectionMO (sm_From submit) (sm_To submit) (sm_Text submit) in
  Ok (if sm_DataCoding submit =? 0x08 then msg_with_Encoding "ucs2" msg else msg).

(** ** Delivery receipts *)

Record DLRParams := mkDLRParams {
  dp_GatewayID : string;
  dp_SourceAddr : string;
  dp_DestAddr : string;
  dp_SubmittedAt : time;
  dp_DoneAt : time;
  dp_State : string;
  dp_ErrorCode : Z;
  dp_OriginalText : string }.

Definition receipt_states : list string :=
  ["DELIVRD"; "EXPIRED"; "DELETED"; "UNDELIV"; "ACCEPTD"; "UNKNOWN"; "REJECTD"].

Definition normalizeState (state : string) : string :=
  if bool_decide (state ∈ receipt_states) then state else "UNKNOWN".

Definition stateToCode (state : string) : Z :=
  if bool_decide (state = "ENROUTE") then 1
  else if bool_decide (state = "DELIVRD") then 2
  else if bool_decide (state = "EXPIRED") then 3
  else if bool_decide (state = "DELETED") then 4
  else if bool_decide (state = "UNDELIV") then 5
  else if bool_decide (state = "ACCEPTD") then 6
  else if bool_decide (state = "REJECTD") then 8
  else 7.

Definition truncateRunes (value : string) (limit : nat) : string :=
  let rs := runes value in
  if (length rs <=? limit)%nat then value else string_of_runes (take limit rs).

Definition FormatReceiptText (params : DLRParams) : string :=
  let state := normalizeState (dp_State params) in
  let delivered := if bool_decide (state = "DELIVRD") then 1 else 0 in
  "id:" +:+ dp_GatewayID params +:+ " sub:001 dlvrd:" +:+ fmt_0d 3 delivered
  +:+ " submit date:" +:+ Format_0601021504 (dp_SubmittedAt params)
  +:+ " done date:" +:+ Format_0601021504 (dp_DoneAt params)
  +:+ " stat:" +:+ state +:+ " err:" +:+ fmt_0d 3 (dp_ErrorCode params)
  +:+ " text:" +:+ truncateRunes (dp_OriginalText params) 20.

Definition buildDeliverSMBody (params : DLRParams) : list Z :=
  let receipt := bytes_of_string (FormatReceiptText params) in
  CString "" ++ [0; 0] ++ CString (dp_SourceAddr params) ++ [0; 0]
  ++ CString (dp_DestAddr params) ++ [0x04; 0; 0] ++ CString "" ++ CString ""
  ++ [0; 0; 0; 0] ++ [u8 (Z.of_nat (length receipt))] ++ receipt.

Definition BuildDLR (params : DLRParams) : PDU :=
  let body := buildDeliverSMBody params in
  let body := appendTLVCString body TagReceiptedMessageID (dp_GatewayID params) in
  let body := appendTLVBytes body TagMessageState [stateToCode (dp_State params)] in
  pdu commandDeliverSM statusOK 0 body.

(** ** Parsing a body from its layout *)

Definition cstr_ok (max : nat) (s : string) : Prop :=
  Forall (fun b => b <> 0) (bytes_of_string s) /\ (slen s <= max)%nat.

#[export] Instance cstr_ok_dec max s : Decision (cstr_ok max s).
Proof. unfold cstr_ok. apply _. Defined.

Lemma cstring_scan_app l rest k max :
  Forall (fun b => b <> 0) l -> (k + length l <= max)%nat ->
  cstring_scan (l ++ 0 :: rest) k max = Ok (k + length l)%nat.
Proof.
  intros Hl. revert k. induction Hl as [|b l Hb _ IH]; intros k Hk; simpl in *.
  { f_equal. lia. }
  destruct (Z.eqb_spec b 0); [done|]. destruct (Nat.leb_spec max k); [lia|].
  rewrite IH by lia. f_equal. lia.
Qed.

(** A reader at [offset], when what is left of the body is known. *)
Lemma read_at body offset s rest max :
  drop offset body = CString s ++ rest -> cstr_ok max s ->
  readCStringMax body offset max = Ok (s, (offset + slen s + 1)%nat).
Proof.
  intros Hd [Hs Hm]. unfold readCStringMax, CString in *. rewrite <- app_assoc in Hd. simpl in Hd.
  rewrite Hd, cstring_scan_app by (rewrite ?length_bytes_of_string; done || lia).
  cbn [mbind res_bind]. unfold slice. rewrite Hd, length_bytes_of_string. simpl.
  replace (offset + slen s - offset)%nat with (slen s) by lia.
  rewrite take_app_length' by (by rewrite length_bytes_of_string).
  by rewrite string_of_bytes_of_string.
Qed.

Lemma drop_next {A} (body : list A) offset n a rest :
  drop offset body = a ++ rest -> n = length a -> drop (offset + n) body = rest.
Proof. intros H ->. by rewrite <- drop_drop, H, drop_app_length. Qed.

Lemma room {A} (body : list A) offset n a rest :
  drop offset body = a ++ rest -> n = length a -> a <> [] -> (length body <? offset + n)%nat = false.
Proof.
  intros H -> Ha. apply Nat.ltb_ge. apply (f_equal length) in H.
  rewrite length_drop, length_app in H. destruct a; [done|]. simpl in *. lia.
Qed.

Lemma at_drop (body : list Z) offset k : body.[offset + k] = (drop offset body).[k].
Proof. unfold at0. by rewrite lookup_drop. Qed.

Lemma at_drop0 (body : list Z) offset : body.[offset] = (drop offset body).[0].
Proof. rewrite <- at_drop. by rewrite Nat.add_0_r. Qed.

Lemma at_app_l (l r : list Z) k : (k < length l)%nat -> (l ++ r).[k] = l.[k].
Proof. intros. unfold at0. by rewrite lookup_app_l. Qed.

Lemma length_CString s : length (CString s) = (slen s + 1)%nat.
Proof. unfold CString. by rewrite length_app, length_bytes_of_string. Qed.

Lemma CString_nonempty s : CString s <> [].
Proof. unfold CString. by destruct (bytes_of_string s). Qed.

(** The end of [ParseSubmitSM], after the fixed fields. *)
Definition submit_finish (seq : Z) (from to : string)
    (esm pid prio reg repl dc smd : Z) (offset : nat) (sm : list Z) (tlvs : list TLV)
    : res parse_err SubmitSM :=
  _ ← fail_if (hasDuplicateSARTag tlvs) (ParseError "duplicate sar optional parameter");
  raw ← submit_raw (length sm) sm tlvs;
  '(udh, payload) ← SplitUDH raw esm;
  concat ← submit_concat udh tlvs;
  _ ← fail_if (match udh with Some _ => HasSAR tlvs | None => false end)
        (ParseError "udh and sar concatenation cannot be combined");
  Ok {| sm_SequenceID := seq; sm_From := from; sm_To := to;
        sm_Text := DecodeSubmitText payload dc; sm_DataCoding := dc;
        sm_RegisteredDelivery := reg; sm_ESMClass := esm;
        sm_ProtocolID := pid; sm_PriorityFlag := prio;
        sm_ReplaceIfPresent := repl; sm_SMDefaultMsgID := smd;
        sm_OptionalParamsOffset := offset; sm_Payload := payload; sm_UDH := udh;
        sm_Concat := concat; sm_TLVs := tlvs |}.

Definition submit_wire (st : string) (a b : Z) (from : string) (c d : Z) (to : string)
    (esm pid prio : Z) (sched validity : string) (reg repl dc smd : Z) (sm : list Z)
    (tlvs : list TLV) : list Z :=
  CString st ++ [a; b] ++ CString from ++ [c; d] ++ CString to ++ [esm; pid; prio]
  ++ CString sched ++ CString validity ++ [reg; repl; dc; smd]
  ++ (Z.of_nat (length sm) :: sm) ++ (tlvs ≫= tlv_bytes).

(** Steps of the parser over a body whose rest [H : drop offset body = a ++ rest]
    is known: skip [n] bytes, or read the C-octet string it starts with. *)
Ltac wire_skip H n :=
  match type of H with
  | drop ?o ?body = _ =>
    apply (drop_next _ _ n) in H; [|by rewrite ?length_CString]; revert H;
    generalize (o + n)%nat; try clear o; let o' := fresh "o" in intros o' H
  end.
Ltac wire_read H Hs :=
  rewrite (read_at _ _ _ _ _ H Hs); cbn [mbind res_bind];
  match type of H with
  | drop ?o _ = CString ?s ++ _ =>
    apply (drop_next _ _ (slen s + 1)) in H; [|by rewrite ?length_CString];
    rewrite Nat.add_assoc in H; revert H; generalize (o + slen s + 1)%nat; try clear o; let o' := fresh "o" in intros o' H
  end.

Lemma parse_submit_wire cmd status seq st a b from c d to esm pid prio sched validity
    reg repl dc smd sm tlvs :
  cstr_ok smppMaxServiceType st -> cstr_ok SMPPMaxAddress from -> cstr_ok SMPPMaxAddress to ->
  cstr_ok 16 sched -> cstr_ok 16 validity -> Forall tlv_ok tlvs ->
  let body := submit_wire st a b from c d to esm pid prio sched validity reg repl dc smd sm tlvs in
  exists offset,
    ParseSubmitSM (pdu cmd status seq body)
    = submit_finish seq from to esm pid prio reg repl dc smd offset sm tlvs.
Proof.
  intros Hst Hfrom Hto Hsched Hval Htlv body.
  assert (drop 0 body = body) as H by done. unfold body at 2, submit_wire in H.
  unfold ParseSubmitSM. cbn [pdu pdu_Body pdu_SequenceID]. generalize dependent body. intros body H.
  wire_read H Hst. rewrite (room _ _ 2 _ _ H) by done. cbn [fail_if mbind res_bind]. wire_skip H 2%nat.
  wire_read H Hfrom. rewrite (room _ _ 2 _ _ H) by done. cbn [fail_if mbind res_bind]. wire_skip H 2%nat.
  wire_read H Hto. rewrite (room _ _ 3 _ _ H) by done. cbn [fail_if mbind res_bind].
  rewrite !(at_drop body), (at_drop0 body), H, !at_app_l by (simpl; lia).
  change ([esm; pid; prio].[0]) with esm. change ([esm; pid; prio].[1]) with pid.
  change ([esm; pid; prio].[2]) with prio.
  wire_skip H 3%nat. wire_read H Hsched. wire_read H Hval.
  assert (drop o body = [reg; repl; dc; smd; Z.of_nat (length sm)] ++ sm ++ (tlvs ≫= tlv_bytes)) as H'
    by by rewrite H. clear H. rename H' into H.
  pose proof (room _ _ 5 _ _ H eq_refl ltac:(done)) as R. rewrite R. apply Nat.ltb_ge in R.
  rewrite (proj2 (Nat.leb_gt (length body) (o + 4))) by lia. cbn [fail_if mbind res_bind].
  rewrite !(at_drop body o), (at_drop0 body), H, !at_app_l by (simpl; lia).
  set (hd := [reg; repl; dc; smd; Z.of_nat (length sm)]) in *.
  change (hd.[0]) with reg. change (hd.[1]) with repl. change (hd.[2]) with dc.
  change (hd.[3]) with smd. change (hd.[4]) with (Z.of_nat (length sm)).
  rewrite Nat2Z.id. subst hd. replace (o + 4 + 1)%nat with (o + 5)%nat by lia.
  rewrite (proj2 (Nat.ltb_ge _ _)) by (apply (f_equal length) in H;
    rewrite length_drop, !length_app in H; simpl in H; lia). cbn [fail_if mbind res_bind].
  apply (drop_next _ _ 5) in H; [|done].
  rewrite (drop_next body (o + 5) (length sm) sm (tlvs ≫= tlv_bytes)) by done.
  assert (slice body (o + 5) (o + 5 + length sm) = sm) as ->.
  { unfold slice. rewrite H. replace (o + 5 + length sm - (o + 5))%nat with (length sm) by lia.
    apply take_app_length. }
  unfold ParseTLVsStrict. rewrite tlv_loop_complete by done. cbn [mbind res_bind].
  by exists (o + 5 + length sm)%nat.
Qed.
