(* ===== verification/ClientEncode.v ===== *)
(** * The client side of submit_sm: internal/smppclient/encode.go, id.go

    Building the submit_sm bodies of a message: encoding, segmentation with a
    user data header or SAR parameters, and the fixed fields. The server's
    parser recovers from every part of a long message the text bytes, the
    addresses and the concatenation data it was built from. *)

From S2P Require Import Prelude Unicode Codec Segment Num Pdu GoTime Submit.

(** The fields of [config.SMPPClientConfig] the encoder reads. *)
Record SMPPClientConfig := mkSMPPClientConfig {
  cc_SourceTON : Z;
  cc_SourceNPI : Z;
  cc_DestTON : Z;
  cc_DestNPI : Z;
  cc_ServiceType : string;
  cc_ValidityPeriod : string;
  cc_RegisteredDelivery : Z;
  cc_GSM7Packing : string;
  cc_LongMessage : string }.

Record ClientMessage := mkClientMessage {
  cm_GatewayID : string;
  cm_SourceAddr : string;
  cm_DestAddr : string;
  cm_Text : string;
  cm_DataCoding : Z;
  cm_RegisteredDelivery : Z;
  cm_Encoding : string;
  cm_UDH : list Z;
  cm_RawPayload : list Z;
  cm_RawPayloadSet : bool;
  cm_SARRefNum : list Z;
  cm_SARTotalSegments : list Z;
  cm_SARSegmentSeqnum : list Z;
  cm_SARSet : bool }.

Record submitBodyParams := mkSubmitBodyParams {
  bp_Cfg : SMPPClientConfig;
  bp_Msg : ClientMessage;
  bp_DataCoding : Z;
  bp_RegisteredDelivery : Z;
  bp_ShortMessage : list Z;
  bp_MessagePayload : list Z;
  bp_TLVs : list TLV;
  bp_SourceTON : Z;
  bp_SourceNPI : Z;
  bp_DestTON : Z;
  bp_DestNPI : Z;
  bp_ESMClass : Z }.

Definition stripPlus (value : string) : string := TrimPrefix value "+".

(** The payload the body ends up carrying in [message_payload]. *)
Definition body_payload (params : submitBodyParams) : list Z :=
  if (254 <? length (bp_ShortMessage params))%nat then bp_ShortMessage params
  else bp_MessagePayload params.

Definition body_tlvs (params : submitBodyParams) : list TLV :=
  let payload := body_payload params in
  if (0 <? length payload)%nat then bp_TLVs params ++ [mkTLV TagMessagePayload payload]
  else bp_TLVs params.

Definition buildSubmitBody (params : submitBodyParams) : list Z :=
  let cfg := bp_Cfg params in
  let msg := bp_Msg params in
  CString (cc_ServiceType cfg)
  ++ [bp_SourceTON params; bp_SourceNPI params]
  ++ CString (stripPlus (cm_SourceAddr msg))
  ++ [bp_DestTON params; bp_DestNPI params]
  ++ CString (stripPlus (cm_DestAddr msg))
  ++ [bp_ESMClass params; 0; 0]
  ++ CString ""
  ++ CString (cc_ValidityPeriod cfg)
  ++ [bp_RegisteredDelivery params; 0; bp_DataCoding params; 0]
  ++ (if (254 <? length (bp_ShortMessage params))%nat then [0]
      else u8 (Z.of_nat (length (bp_ShortMessage params))) :: bp_ShortMessage params)
  ++ (body_tlvs params ≫= tlv_bytes).

Definition encodeText (text : string) (dataCoding : Z) (packing : string) : list Z :=
  if dataCoding =? 0x08 then EncodeText text dataCoding
  else if bool_decide (packing = "packed") then EncodeText text dataCoding
  else EncodeGSM7Unpacked text.

Definition encodeMessagePayload (msg : ClientMessage) (dataCoding : Z) (packing : string) : list Z :=
  if cm_RawPayloadSet msg then cm_RawPayload msg else encodeText (cm_Text msg) dataCoding packing.

Definition maxUDHShortMessageLen (dataCoding : Z) (packing : string) : Z :=
  if (dataCoding =? 0x03) || (dataCoding =? 0x08) then 140
  else if dataCoding =? 0 then if bool_decide (packing = "packed") then 140 else 159
  else 140.

Section encode.
(** [unicode.IsLetter]: the letter table of the Unicode standard. *)
Context (IsLetter : Z -> bool).

Definition hasLetter (value : string) : bool := existsb IsLetter (runes value).

Definition sourceTON (addr : string) (configured : Z) : Z :=
  if 0 <=? configured then u8 configured
  else if hasLetter addr then 5
  else if HasPrefix addr "+" || (8 <? slen (TrimPrefix addr "+"))%nat then 1
  else 3.

Definition sourceNPI (addr : string) (configured : Z) : Z :=
  if 0 <=? configured then u8 configured
  else if hasLetter addr || (slen (TrimPrefix addr "+") <=? 8)%nat then 0
  else 1.

(** The parameters every branch of [BuildSubmitSM] fills in the same way. *)
Definition submit_params (msg : ClientMessage) (cfg : SMPPClientConfig)
    (dataCoding registeredDelivery : Z) (short payload : list Z) (tlvs : list TLV) (esm : Z)
    : submitBodyParams :=
  {| bp_Cfg := cfg; bp_Msg := msg; bp_DataCoding := dataCoding;
     bp_RegisteredDelivery := registeredDelivery; bp_ShortMessage := short;
     bp_MessagePayload := payload; bp_TLVs := tlvs;
     bp_SourceTON := sourceTON (cm_SourceAddr msg) (cc_SourceTON cfg);
     bp_SourceNPI := sourceNPI (cm_SourceAddr msg) (cc_SourceNPI cfg);
     bp_DestTON := u8 (cc_DestTON cfg); bp_DestNPI := u8 (cc_DestNPI cfg); bp_ESMClass := esm |}.

Definition sar_tlvs (reference total part : Z) : list TLV :=
  [mkTLV TagSARMsgRefNum [u8 (Z.shiftr reference 8); u8 reference];
   mkTLV TagSARTotalSegments [u8 total];
   mkTLV TagSARSegmentSeqnum [u8 part]].

(** The body of one segment in [BuildSubmitSM]'s loop; [n] is the number of
    segments. *)
Definition segment_params (msg : ClientMessage) (cfg : SMPPClientConfig)
    (dataCoding registeredDelivery : Z) (n : nat) (segment : Segment) : submitBodyParams :=
  let payload := encodeText (seg_Text segment) dataCoding (cc_GSM7Packing cfg) in
  if (1 <? n)%nat then
    if bool_decide (cc_LongMessage cfg = "sar") then
      submit_params msg cfg dataCoding registeredDelivery payload []
        (sar_tlvs (seg_Reference segment) (seg_Total segment) (seg_Part segment)) 0
    else
      submit_params msg cfg dataCoding registeredDelivery (seg_UDH segment ++ payload) [] [] 0x40
  else submit_params msg cfg dataCoding registeredDelivery payload [] [] 0.

Definition buildSplitSubmitSM (ref : Z) (msg : ClientMessage) (cfg : SMPPClientConfig)
    (encoding : string) (dataCoding registeredDelivery : Z) : list (list Z) :=
  (fun segment =>
     buildSubmitBody (submit_params msg cfg dataCoding registeredDelivery
       (seg_UDH segment ++ encodeText (seg_Text segment) dataCoding (cc_GSM7Packing cfg)) [] [] 0x40))
  <$> Split (cm_Text msg) encoding ref.

(** The encoding and data coding [BuildSubmitSM] settles on. *)
Definition submit_coding (msg : ClientMessage) : string * Z :=
  let encoding :=
    if bool_decide (cm_Encoding msg = "") || bool_decide (cm_Encoding msg = "auto")
    then DetectEncoding (cm_Text msg) else cm_Encoding msg in
  let dataCoding :=
    if negb (cm_RawPayloadSet msg) && (cm_DataCoding msg =? 0) && EqualFold encoding "ucs2"
    then 0x08 else cm_DataCoding msg in
  let encoding :=
    if dataCoding =? 0x08 then "ucs2" else if dataCoding =? 0x03 then "8bit" else encoding in
  (encoding, dataCoding).

Definition submit_delivery (msg : ClientMessage) (cfg : SMPPClientConfig) : Z :=
  if 0 <=? cc_RegisteredDelivery cfg then u8 (cc_RegisteredDelivery cfg)
  else cm_RegisteredDelivery msg.

(** [BuildSubmitSM]; [ref] is what [randomReference] draws if the text is split. *)
Definition BuildSubmitSM (ref : Z) (msg : ClientMessage) (cfg : SMPPClientConfig) : list (list Z) :=
  let '(encoding, dataCoding) := submit_coding msg in
  let registeredDelivery := submit_delivery msg cfg in
  let payload := encodeMessagePayload msg dataCoding (cc_GSM7Packing cfg) in
  let params := submit_params msg cfg dataCoding registeredDelivery in
  if cm_SARSet msg then
    [buildSubmitBody (params payload []
       [mkTLV TagSARMsgRefNum (cm_SARRefNum msg); mkTLV TagSARTotalSegments (cm_SARTotalSegments msg);
        mkTLV TagSARSegmentSeqnum (cm_SARSegmentSeqnum msg)] 0)]
  else if (0 <? length (cm_UDH msg))%nat then
    let as_udh :=
      let short := cm_UDH msg ++ payload in
      if bool_decide (cc_LongMessage cfg = "udh") && negb (cm_RawPayloadSet msg)
         && (254 <? length short)%nat
      then buildSplitSubmitSM ref msg cfg encoding dataCoding registeredDelivery
      else [buildSubmitBody (params short [] [] 0x40)] in
    if bool_decide (cc_LongMessage cfg = "sar") && negb (cm_RawPayloadSet msg) then
      match ParseConcat (cm_UDH msg) with
      | Some info =>
        [buildSubmitBody (params payload []
           [mkTLV TagSARMsgRefNum [u8 (Z.shiftr (ci_Reference info) 8); u8 (ci_Reference info)];
            mkTLV TagSARTotalSegments [ci_Total info];
            mkTLV TagSARSegmentSeqnum [ci_Part info]] 0)]
      | None => as_udh
      end
    else as_udh
  else if bool_decide (cc_LongMessage cfg = "payload") then
    [buildSubmitBody (params [] payload [] 0)]
  else if cm_RawPayloadSet msg then
    [buildSubmitBody (params (cm_RawPayload msg) [] [] 0)]
  else
    let segments := Split (cm_Text msg) encoding ref in
    (fun segment => buildSubmitBody
       (segment_params msg cfg dataCoding registeredDelivery (length segments) segment))
    <$> segments.
End encode.

(** ** What the server reads from a client body *)

Definition cfg_ok (cfg : SMPPClientConfig) : Prop :=
  cstr_ok smppMaxServiceType (cc_ServiceType cfg) /\ cstr_ok 16 (cc_ValidityPeriod cfg).

Definition addrs_ok (msg : ClientMessage) : Prop :=
  cstr_ok SMPPMaxAddress (stripPlus (cm_SourceAddr msg))
  /\ cstr_ok SMPPMaxAddress (stripPlus (cm_DestAddr msg)).

Lemma FindTLV_app l1 l2 tag :
  FindTLV (l1 ++ l2) tag = match FindTLV l1 tag with Some v => Some v | None => FindTLV l2 tag end.
Proof. induction l1 as [|t l1 IH]; simpl; [done|]. by destruct (tlv_Tag t =? tag). Qed.

(** Whichever field carries it, the short message reaches the server. *)
Lemma buildSubmitBody_parse seq params :
  cfg_ok (bp_Cfg params) -> addrs_ok (bp_Msg params) ->
  Forall is_u8 (bp_ShortMessage params) -> Z.of_nat (length (bp_ShortMessage params)) < 65536 ->
  bp_MessagePayload params = [] -> Forall tlv_ok (bp_TLVs params) ->
  FindTLV (bp_TLVs params) TagMessagePayload = None ->
  exists offset sm,
    ParseSubmitSM (pdu commandSubmitSM statusOK seq (buildSubmitBody params))
    = submit_finish seq (stripPlus (cm_SourceAddr (bp_Msg params)))
        (stripPlus (cm_DestAddr (bp_Msg params))) (bp_ESMClass params) 0 0
        (bp_RegisteredDelivery params) 0 (bp_DataCoding params) 0 offset sm (body_tlvs params)
    /\ submit_raw (length sm) sm (body_tlvs params) = Ok (bp_ShortMessage params).
Proof.
  intros [Hst Hval] [Hsrc Hdst] Hu8 Hlen Hpay Htlv Hfind. unfold buildSubmitBody.
  set (sm := if (254 <? length (bp_ShortMessage params))%nat then [] else bp_ShortMessage params).
  assert (Forall tlv_ok (body_tlvs params)) as Htlvs.
  { unfold body_tlvs, body_payload. rewrite Hpay. repeat case_match; try done.
    apply Forall_app. split; [done|]. by repeat constructor. }
  destruct (parse_submit_wire commandSubmitSM statusOK seq (cc_ServiceType (bp_Cfg params))
    (bp_SourceTON params) (bp_SourceNPI params) (stripPlus (cm_SourceAddr (bp_Msg params)))
    (bp_DestTON params) (bp_DestNPI params) (stripPlus (cm_DestAddr (bp_Msg params)))
    (bp_ESMClass params) 0 0 "" (cc_ValidityPeriod (bp_Cfg params)) (bp_RegisteredDelivery params) 0
    (bp_DataCoding params) 0 sm (body_tlvs params)) as [offset Hp]; [done..|by repeat constructor|done|done|].
  exists offset, sm. split.
  - rewrite <- Hp. f_equal. unfold submit_wire. repeat f_equal. subst sm.
    destruct (Nat.ltb_spec 254 (length (bp_ShortMessage params))); [done|].
    unfold u8. by rewrite Z.mod_small by lia.
  - unfold submit_raw, body_tlvs, body_payload. subst sm. rewrite Hpay.
    destruct (Nat.ltb_spec 254 (length (bp_ShortMessage params))) as [Hl|Hl].
    + destruct (Nat.ltb_spec 0 (length (bp_ShortMessage params))); [|lia].
      by rewrite FindTLV_app, Hfind.
    + change (0 <? length [])%nat with false. cbn match. by rewrite Hfind.
Qed.

Lemma encodeText_ok text dc packing :
  Forall is_u8 (encodeText text dc packing)
  /\ (length (encodeText text dc packing) <= 4 * length (runes text))%nat.
Proof.
  pose proof (length_EncodeText_le text dc) as [H1 H2]. unfold encodeText.
  repeat case_match; split; auto using EncodeText_u8, EncodeGSM7Unpacked_u8. lia.
Qed.

(** The header [Split] puts on a segment, read back. *)
Lemma concat_udh_parse ref part total payload :
  0 < part <= total -> total < 256 ->
  SplitUDH (concatUDH ref part total ++ payload) 0x40 = Ok (Some (concatUDH ref part total), payload)
  /\ ParseConcat (concatUDH ref part total) = Some (mkConcatInfo (u8 ref) total part).
Proof.
  intros Hp Ht. assert (concatUDH ref part total = udh_bytes [mkIE 0 [u8 ref; total; part]]) as E.
  { unfold concatUDH, u8. by rewrite (Z.mod_small total), (Z.mod_small part) by lia. }
  assert (udh_ok [mkIE 0 [u8 ref; total; part]]) as Hok.
  { split; [|done]. constructor; [|done]. split; [done|]. split.
    - repeat (constructor; [unfold is_u8, u8; zlia|]). done.
    - split; [done|]. unfold check_ie, validConcatPart, at0. simpl. lia. }
  rewrite E. split; [by apply SplitUDH_complete|]. by rewrite parse_concat_udh.
Qed.

Lemma sar_tlvs_ok ref total part : Forall tlv_ok (sar_tlvs ref total part).
Proof.
  unfold sar_tlvs. repeat (apply Forall_cons; split); try apply Forall_nil_2;
    (split; [done|split; [|done]]); cbn [tlv_Value];
    repeat (apply Forall_cons; split; [apply u8_is_u8|]); apply Forall_nil_2.
Qed.

Lemma sar_tlvs_parse ref total part extra :
  0 < part <= total -> total < 256 -> Forall (fun t => tlv_Tag t = TagMessagePayload) extra ->
  hasDuplicateSARTag (sar_tlvs ref total part ++ extra) = false
  /\ ParseSAR (sar_tlvs ref total part ++ extra) = Some (mkConcatInfo (u16 ref) total part).
Proof.
  intros Hp Ht Hx. split.
  - assert (forall seen, dup_sar_loop extra seen = false) as He.
    { induction Hx as [|t extra Ht' _ IH]; [done|]. intros seen. simpl. rewrite Ht'. apply IH. }
    transitivity (dup_sar_loop extra ({[TagSARSegmentSeqnum]} ∪ ({[TagSARTotalSegments]}
      ∪ ({[TagSARMsgRefNum]} ∪ ∅)))); [reflexivity|apply He].
  - unfold ParseSAR, sar_tlvs. cbn. unfold newConcatInfo, validConcatPart, u8.
    rewrite (Z.mod_small total), (Z.mod_small part) by lia.
    destruct (Z.ltb_spec 0 total); [|lia]. destruct (Z.ltb_spec 0 part); [|lia].
    destruct (Z.leb_spec part total); [|lia]. simpl. do 2 f_equal.
    unfold u16. rewrite Z.shiftl_mul_pow2, Z.shiftr_div_pow2 by lia.
    change (2 ^ 8) with 256. rewrite (Z.mod_small (_ mod 256 * 256)) by zlia.
    pose proof (lor_shiftl_8 (ref / 256 mod 256) (ref mod 256)) as L.
    rewrite Z.shiftl_mul_pow2 in L by lia. change (2 ^ 8) with 256 in L.
    rewrite L by (unfold is_u8; zlia). zlia.
Qed.

(** Nothing but SAR parameters and possibly a payload follows the short message. *)
Lemma body_tlvs_cases params :
  exists extra, body_tlvs params = bp_TLVs params ++ extra
    /\ Forall (fun t => tlv_Tag t = TagMessagePayload) extra.
Proof.
  unfold body_tlvs. case_match; [|by exists []; rewrite app_nil_r].
  eexists. split; [done|]. by repeat constructor.
Qed.

Lemma payload_only_no_sar extra :
  Forall (fun t => tlv_Tag t = TagMessagePayload) extra ->
  hasDuplicateSARTag extra = false /\ HasSAR extra = false /\ ParseSAR extra = None.
Proof.
  intros Hx. split_and!.
  - unfold hasDuplicateSARTag. generalize (∅ : gset Z).
    induction Hx as [|t extra Ht _ IH]; [done|]. intros seen. simpl. rewrite Ht. apply IH.
  - induction Hx as [|t extra Ht _ IH]; [done|]. simpl. rewrite Ht. apply IH.
  - assert (FindTLV extra TagSARMsgRefNum = None) as E; [|unfold ParseSAR; by rewrite E].
    induction Hx as [|t extra Ht _ IH]; [done|]. simpl. rewrite Ht. apply IH.
Qed.

Lemma SplitUDH_clear raw esm : Z.land esm 64 = 0 -> SplitUDH raw esm = Ok (None, raw).
Proof. intros E. unfold SplitUDH. by rewrite E. Qed.

Definition part_concat (cfg : SMPPClientConfig) (ref : Z) (n : nat) (i : nat) : option ConcatInfo :=
  if (1 <? n)%nat then
    Some (mkConcatInfo (if bool_decide (cc_LongMessage cfg = "sar") then u16 ref else u8 ref)
            (Z.of_nat n) (Z.of_nat i + 1))
  else None.

(** What the server learns from a part. *)
Definition part_read (msg : ClientMessage) (cfg : SMPPClientConfig) (seq dc : Z) (text : string)
    (ci : option ConcatInfo) (sm : SubmitSM) : Prop :=
  sm_SequenceID sm = seq
  /\ sm_From sm = stripPlus (cm_SourceAddr msg) /\ sm_To sm = stripPlus (cm_DestAddr msg)
  /\ sm_DataCoding sm = dc /\ sm_RegisteredDelivery sm = submit_delivery msg cfg
  /\ sm_Payload sm = encodeText text dc (cc_GSM7Packing cfg)
  /\ sm_Text sm = DecodeSubmitText (encodeText text dc (cc_GSM7Packing cfg)) dc
  /\ sm_Concat sm = ci.

Lemma segment_part_parse IsLetter ref msg cfg seq enc dc i seg :
  cfg_ok cfg -> addrs_ok msg ->
  let segs := Split (cm_Text msg) enc ref in
  (length segs < 256)%nat -> segs !! i = Some seg ->
  exists sm,
    ParseSubmitSM (pdu commandSubmitSM statusOK seq
      (buildSubmitBody (segment_params IsLetter msg cfg dc (submit_delivery msg cfg) (length segs) seg)))
    = Ok sm
    /\ part_read msg cfg seq dc (seg_Text seg) (part_concat cfg ref (length segs) i) sm.
Proof.
  intros Hcfg Haddr segs Hn Hi.
  pose proof (segment_runes_le _ _ _ _ (list_elem_of_lookup_2 _ _ _ Hi)) as Hr.
  destruct (encodeText_ok (seg_Text seg) dc (cc_GSM7Packing cfg)) as [Hu8 Hlen].
  pose proof (Split_lookup _ _ _ _ _ Hi) as (Hpart & Htotal & Hudh). fold segs in Htotal.
  apply lookup_lt_Some in Hi as Hlt. fold segs in Hlt.
  pose proof (Split_reference _ _ _ _ _ Hi) as Href.
  set (payload := encodeText (seg_Text seg) dc (cc_GSM7Packing cfg)) in *.
  set (params := segment_params _ _ _ _ _ _ _).
  assert (bp_Cfg params = cfg /\ bp_Msg params = msg /\ bp_MessagePayload params = []
    /\ bp_RegisteredDelivery params = submit_delivery msg cfg /\ bp_DataCoding params = dc)
    as (E1 & E2 & E3 & E4 & E5).
  { subst params. unfold segment_params. by repeat case_match. }
  assert (Forall is_u8 (bp_ShortMessage params) /\ Z.of_nat (length (bp_ShortMessage params)) < 65536
    /\ Forall tlv_ok (bp_TLVs params) /\ FindTLV (bp_TLVs params) TagMessagePayload = None)
    as (Hs1 & Hs2 & Hs3 & Hs4).
  { subst params. unfold segment_params. fold payload. repeat case_match;
      cbn [submit_params bp_ShortMessage bp_TLVs]; split_and!; try done; try lia;
      try apply sar_tlvs_ok.
    - apply Forall_app. split; [|done]. rewrite Hudh. destruct (seg_Total seg =? 1); [done|].
      unfold concatUDH. repeat (apply Forall_cons; split; [done || apply u8_is_u8|]). done.
    - rewrite length_app, Hudh. destruct (seg_Total seg =? 1); simpl; lia. }
  destruct (buildSubmitBody_parse seq params) as (offset & sm & Hp & Hraw);
    rewrite ?E1, ?E2; try done.
  destruct (body_tlvs_cases params) as (extra & Ext & Hext).
  rewrite Hp. unfold submit_finish. rewrite Hraw, E2, E4, E5, Ext. clear Hp Hraw E1 E2 E3 E4 E5 Hs1 Hs2 Hs3 Hs4.
  unfold part_concat. subst params. unfold segment_params in *. fold payload in Ext |- *.
  destruct (Nat.ltb_spec 1 (length segs)) as [H1|H1]; [case_bool_decide as Hsar|];
    cbn [submit_params bp_ShortMessage bp_TLVs bp_ESMClass].
  - rewrite Hpart, Htotal, Href by lia.
    destruct (sar_tlvs_parse ref (Z.of_nat (length segs)) (Z.of_nat i + 1) extra) as [Hd Hps]; [lia..|done|].
    rewrite Hd. cbn [fail_if mbind res_bind]. rewrite SplitUDH_clear by done.
    cbn [mbind res_bind]. unfold submit_concat. cbn [mbind option_bind]. rewrite Hps.
    cbn [fail_if mbind res_bind]. eexists. by split.
  - destruct (payload_only_no_sar extra Hext) as (Hd & Hh & _). cbn [app]. rewrite Hd.
    rewrite Hudh. destruct (Z.eqb_spec (seg_Total seg) 1); [lia|]. rewrite Hpart, Htotal.
    destruct (concat_udh_parse ref (Z.of_nat i + 1) (Z.of_nat (length segs)) payload) as [Hsp Hpc]; [lia..|].
    cbn [fail_if mbind res_bind]. rewrite Hsp. cbn [mbind res_bind]. unfold submit_concat.
    cbn [mbind option_bind]. rewrite Hpc, Hh.
    cbn [fail_if mbind res_bind]. eexists. by split.
  - destruct (payload_only_no_sar extra Hext) as (Hd & Hh & Hsar). cbn [app]. rewrite Hd.
    cbn [fail_if mbind res_bind]. rewrite SplitUDH_clear by done. cbn [mbind res_bind].
    unfold submit_concat. cbn [mbind option_bind]. rewrite Hsar, Hh.
    cbn [fail_if mbind res_bind]. eexists. by split.
Qed.

Definition plain_message (msg : ClientMessage) : Prop :=
  cm_SARSet msg = false /\ cm_UDH msg = [] /\ cm_RawPayloadSet msg = false.

(** C9: For a message without a header or payload of its own, whose addresses and
    configured service type and validity fit their fields and whose text gives
    fewer than 256 segments, the SMPP client in UDH or SAR mode builds one
    submit_sm per segment; the server's parser accepts each and recovers the
    sequence number, the addresses without a leading plus, the data coding,
    the receipt request, the encoded text of that segment and the
    concatenation data. *)
Theorem client_parts_parsed IsLetter ref msg cfg seq i seg :
  plain_message msg -> cfg_ok cfg -> addrs_ok msg -> cc_LongMessage cfg <> "payload" ->
  let enc := (submit_coding msg).1 in
  let dc := (submit_coding msg).2 in
  let segs := Split (cm_Text msg) enc ref in
  (length segs < 256)%nat -> segs !! i = Some seg ->
  length (BuildSubmitSM IsLetter ref msg cfg) = length segs
  /\ exists body sm,
    BuildSubmitSM IsLetter ref msg cfg !! i = Some body
    /\ ParseSubmitSM (pdu commandSubmitSM statusOK seq body) = Ok sm
    /\ part_read msg cfg seq dc (seg_Text seg) (part_concat cfg ref (length segs) i) sm.
Proof.
  intros (Hsar & Hudh & Hraw) Hcfg Haddr Hlm enc dc segs Hn Hi.
  destruct (segment_part_parse IsLetter ref msg cfg seq enc dc i seg Hcfg Haddr Hn Hi) as (sm & Hp & Hr).
  assert (BuildSubmitSM IsLetter ref msg cfg
    = (fun sg => buildSubmitBody (segment_params IsLetter msg cfg dc (submit_delivery msg cfg) (length segs) sg)) <$> segs) as E.
  { unfold BuildSubmitSM. rewrite (surjective_pairing (submit_coding msg)).
    fold enc dc segs. rewrite Hsar, Hudh, Hraw. cbn [length]. change (0 <? 0)%nat with false. cbn match. by rewrite bool_decide_false. }
  rewrite E. split; [apply length_fmap|]. eexists _, sm. split; [by rewrite list_lookup_fmap, Hi|done].
Qed.

Definition demo_cfg (long : string) : SMPPClientConfig :=
  mkSMPPClientConfig (-1) (-1) 1 1 "" "" (-1) "unpacked" long.
Definition demo_msg (text : string) : ClientMessage :=
  mkClientMessage "m0000001" "+8613800000000" "447700900123" text 0 1 "auto" [] [] false [] [] [] false.

Lemma client_parts_parsed_witness :
  exists body sm,
    BuildSubmitSM (fun _ => false) 258 (demo_msg long_text) (demo_cfg "sar") !! 1%nat = Some body
    /\ ParseSubmitSM (pdu commandSubmitSM statusOK 3 body) = Ok sm
    /\ sm_From sm = "8613800000000" /\ sm_Concat sm = Some (mkConcatInfo 258 2 2).
Proof.
  destruct (Split long_text "gsm7" 258 !! 1%nat) as [seg|] eqn:E; [|vm_compute in E; discriminate].
  destruct (client_parts_parsed (fun _ => false) 258 (demo_msg long_text) (demo_cfg "sar") 3 1 seg)
    as (_ & body & sm & H1 & H2 & H3).
  - repeat split.
  - split; apply (bool_decide_unpack _); vm_compute; exact I.
  - split; apply (bool_decide_unpack _); vm_compute; exact I.
  - discriminate.
  - vm_compute. lia.
  - exact E.
  - exists body, sm. split; [exact H1|]. split; [exact H2|].
    destruct H3 as (_ & Hf & _ & _ & _ & _ & _ & Hc). split.
    + rewrite Hf. reflexivity.
    + rewrite Hc. vm_compute. reflexivity.
Defined.
