(* ===== verification/Records.v ===== *)
(** * The store's records: internal/store/memory.go (types), message.go

    Pending delivery-report records, outbox items and their payloads, with one
    update function per field the code assigns. A slice that is nil and one
    that is empty are the same list; a nil map is [None]. *)

From S2P Require Import Prelude Unicode Codec Segment Num GoTime.

(** ** Assignments to message fields *)

Definition msg_set_ProviderID (v : string) (r : Message) : Message :=
  {| msg_ID := msg_ID r; msg_ProviderID := v; msg_TenantID := msg_TenantID r;
     msg_AccountID := msg_AccountID r; msg_ClientMsgID := msg_ClientMsgID r; msg_Direction := msg_Direction r;
     msg_From := msg_From r; msg_To := msg_To r; msg_Text := msg_Text r;
     msg_Encoding := msg_Encoding r; msg_Route := msg_Route r; msg_Provider := msg_Provider r;
     msg_SourceKind := msg_SourceKind r; msg_SourceID := msg_SourceID r; msg_State := msg_State r;
     msg_ErrorCode := msg_ErrorCode r; msg_Segments := msg_Segments r; msg_Metadata := msg_Metadata r;
     msg_SubmittedAt := msg_SubmittedAt r; msg_SentAt := msg_SentAt r; msg_DoneAt := msg_DoneAt r |}.

Definition msg_set_State (v : string) (r : Message) : Message :=
  {| msg_ID := msg_ID r; msg_ProviderID := msg_ProviderID r; msg_TenantID := msg_TenantID r;
     msg_AccountID := msg_AccountID r; msg_ClientMsgID := msg_ClientMsgID r; msg_Direction := msg_Direction r;
     msg_From := msg_From r; msg_To := msg_To r; msg_Text := msg_Text r;
     msg_Encoding := msg_Encoding r; msg_Route := msg_Route r; msg_Provider := msg_Provider r;
     msg_SourceKind := msg_SourceKind r; msg_SourceID := msg_SourceID r; msg_State := v;
     msg_ErrorCode := msg_ErrorCode r; msg_Segments := msg_Segments r; msg_Metadata := msg_Metadata r;
     msg_SubmittedAt := msg_SubmittedAt r; msg_SentAt := msg_SentAt r; msg_DoneAt := msg_DoneAt r |}.

Definition msg_set_ErrorCode (v : Z) (r : Message) : Message :=
  {| msg_ID := msg_ID r; msg_ProviderID := msg_ProviderID r; msg_TenantID := msg_TenantID r;
     msg_AccountID := msg_AccountID r; msg_ClientMsgID := msg_ClientMsgID r; msg_Direction := msg_Direction r;
     msg_From := msg_From r; msg_To := msg_To r; msg_Text := msg_Text r;
     msg_Encoding := msg_Encoding r; msg_Route := msg_Route r; msg_Provider := msg_Provider r;
     msg_SourceKind := msg_SourceKind r; msg_SourceID := msg_SourceID r; msg_State := msg_State r;
     msg_ErrorCode := v; msg_Segments := msg_Segments r; msg_Metadata := msg_Metadata r;
     msg_SubmittedAt := msg_SubmittedAt r; msg_SentAt := msg_SentAt r; msg_DoneAt := msg_DoneAt r |}.

Definition msg_set_SentAt (v : time) (r : Message) : Message :=
  {| msg_ID := msg_ID r; msg_ProviderID := msg_ProviderID r; msg_TenantID := msg_TenantID r;
     msg_AccountID := msg_AccountID r; msg_ClientMsgID := msg_ClientMsgID r; msg_Direction := msg_Direction r;
     msg_From := msg_From r; msg_To := msg_To r; msg_Text := msg_Text r;
     msg_Encoding := msg_Encoding r; msg_Route := msg_Route r; msg_Provider := msg_Provider r;
     msg_SourceKind := msg_SourceKind r; msg_SourceID := msg_SourceID r; msg_State := msg_State r;
     msg_ErrorCode := msg_ErrorCode r; msg_Segments := msg_Segments r; msg_Metadata := msg_Metadata r;
     msg_SubmittedAt := msg_SubmittedAt r; msg_SentAt := v; msg_DoneAt := msg_DoneAt r |}.

Definition msg_set_DoneAt (v : time) (r : Message) : Message :=
  {| msg_ID := msg_ID r; msg_ProviderID := msg_ProviderID r; msg_TenantID := msg_TenantID r;
     msg_AccountID := msg_AccountID r; msg_ClientMsgID := msg_ClientMsgID r; msg_Direction := msg_Direction r;
     msg_From := msg_From r; msg_To := msg_To r; msg_Text := msg_Text r;
     msg_Encoding := msg_Encoding r; msg_Route := msg_Route r; msg_Provider := msg_Provider r;
     msg_SourceKind := msg_SourceKind r; msg_SourceID := msg_SourceID r; msg_State := msg_State r;
     msg_ErrorCode := msg_ErrorCode r; msg_Segments := msg_Segments r; msg_Metadata := msg_Metadata r;
     msg_SubmittedAt := msg_SubmittedAt r; msg_SentAt := msg_SentAt r; msg_DoneAt := v |}.

(** ** Pending delivery reports *)

Record Pending := mkPending {
  p_ProviderID : string;
  p_GatewayID : string;
  p_TenantID : string;
  p_AccountID : string;
  p_ClientMsgID : string;
  p_SegmentIndex : Z;
  p_SegmentCount : Z;
  p_SourceKind : string;
  p_SourceSession : string;
  p_SourceSystem : string;
  p_CallbackURL : string;
  p_CallbackRule : string;
  p_From : string;
  p_To : string;
  p_Text : string;
  p_DataCoding : Z;
  p_RegisteredDelivery : Z;
  p_Provider : string;
  p_Route : string;
  p_ReceivedAt : time;
  p_ExpiresAt : time;
  p_DLRReady : bool;
  p_DLRDelivered : bool;
  p_DLRState : string;
  p_DLRErrorCode : Z;
  p_DLRDoneAt : time }.

#[export] Instance Pending_eq_dec : EqDecision Pending.
Proof. solve_decision. Defined.

Definition p_set_SegmentIndex (v : Z) (r : Pending) : Pending :=
  {| p_ProviderID := p_ProviderID r; p_GatewayID := p_GatewayID r; p_TenantID := p_TenantID r;
     p_AccountID := p_AccountID r; p_ClientMsgID := p_ClientMsgID r; p_SegmentIndex := v;
     p_SegmentCount := p_SegmentCount r; p_SourceKind := p_SourceKind r; p_SourceSession := p_SourceSession r;
     p_SourceSystem := p_SourceSystem r; p_CallbackURL := p_CallbackURL r; p_CallbackRule := p_CallbackRule r;
     p_From := p_From r; p_To := p_To r; p_Text := p_Text r;
     p_DataCoding := p_DataCoding r; p_RegisteredDelivery := p_RegisteredDelivery r; p_Provider := p_Provider r;
     p_Route := p_Route r; p_ReceivedAt := p_ReceivedAt r; p_ExpiresAt := p_ExpiresAt r;
     p_DLRReady := p_DLRReady r; p_DLRDelivered := p_DLRDelivered r; p_DLRState := p_DLRState r;
     p_DLRErrorCode := p_DLRErrorCode r; p_DLRDoneAt := p_DLRDoneAt r |}.

Definition p_set_SegmentCount (v : Z) (r : Pending) : Pending :=
  {| p_ProviderID := p_ProviderID r; p_GatewayID := p_GatewayID r; p_TenantID := p_TenantID r;
     p_AccountID := p_AccountID r; p_ClientMsgID := p_ClientMsgID r; p_SegmentIndex := p_SegmentIndex r;
     p_SegmentCount := v; p_SourceKind := p_SourceKind r; p_SourceSession := p_SourceSession r;
     p_SourceSystem := p_SourceSystem r; p_CallbackURL := p_CallbackURL r; p_CallbackRule := p_CallbackRule r;
     p_From := p_From r; p_To := p_To r; p_Text := p_Text r;
     p_DataCoding := p_DataCoding r; p_RegisteredDelivery := p_RegisteredDelivery r; p_Provider := p_Provider r;
     p_Route := p_Route r; p_ReceivedAt := p_ReceivedAt r; p_ExpiresAt := p_ExpiresAt r;
     p_DLRReady := p_DLRReady r; p_DLRDelivered := p_DLRDelivered r; p_DLRState := p_DLRState r;
     p_DLRErrorCode := p_DLRErrorCode r; p_DLRDoneAt := p_DLRDoneAt r |}.

Definition p_set_DLRReady (v : bool) (r : Pending) : Pending :=
  {| p_ProviderID := p_ProviderID r; p_GatewayID := p_GatewayID r; p_TenantID := p_TenantID r;
     p_AccountID := p_AccountID r; p_ClientMsgID := p_ClientMsgID r; p_SegmentIndex := p_SegmentIndex r;
     p_SegmentCount := p_SegmentCount r; p_SourceKind := p_SourceKind r; p_SourceSession := p_SourceSession r;
     p_SourceSystem := p_SourceSystem r; p_CallbackURL := p_CallbackURL r; p_CallbackRule := p_CallbackRule r;
     p_From := p_From r; p_To := p_To r; p_Text := p_Text r;
     p_DataCoding := p_DataCoding r; p_RegisteredDelivery := p_RegisteredDelivery r; p_Provider := p_Provider r;
     p_Route := p_Route r; p_ReceivedAt := p_ReceivedAt r; p_ExpiresAt := p_ExpiresAt r;
     p_DLRReady := v; p_DLRDelivered := p_DLRDelivered r; p_DLRState := p_DLRState r;
     p_DLRErrorCode := p_DLRErrorCode r; p_DLRDoneAt := p_DLRDoneAt r |}.

Definition p_set_DLRDelivered (v : bool) (r : Pending) : Pending :=
  {| p_ProviderID := p_ProviderID r; p_GatewayID := p_GatewayID r; p_TenantID := p_TenantID r;
     p_AccountID := p_AccountID r; p_ClientMsgID := p_ClientMsgID r; p_SegmentIndex := p_SegmentIndex r;
     p_SegmentCount := p_SegmentCount r; p_SourceKind := p_SourceKind r; p_SourceSession := p_SourceSession r;
     p_SourceSystem := p_SourceSystem r; p_CallbackURL := p_CallbackURL r; p_CallbackRule := p_CallbackRule r;
     p_From := p_From r; p_To := p_To r; p_Text := p_Text r;
     p_DataCoding := p_DataCoding r; p_RegisteredDelivery := p_RegisteredDelivery r; p_Provider := p_Provider r;
     p_Route := p_Route r; p_ReceivedAt := p_ReceivedAt r; p_ExpiresAt := p_ExpiresAt r;
     p_DLRReady := p_DLRReady r; p_DLRDelivered := v; p_DLRState := p_DLRState r;
     p_DLRErrorCode := p_DLRErrorCode r; p_DLRDoneAt := p_DLRDoneAt r |}.

Definition p_set_DLRState (v : string) (r : Pending) : Pending :=
  {| p_ProviderID := p_ProviderID r; p_GatewayID := p_GatewayID r; p_TenantID := p_TenantID r;
     p_AccountID := p_AccountID r; p_ClientMsgID := p_ClientMsgID r; p_SegmentIndex := p_SegmentIndex r;
     p_SegmentCount := p_SegmentCount r; p_SourceKind := p_SourceKind r; p_SourceSession := p_SourceSession r;
     p_SourceSystem := p_SourceSystem r; p_CallbackURL := p_CallbackURL r; p_CallbackRule := p_CallbackRule r;
     p_From := p_From r; p_To := p_To r; p_Text := p_Text r;
     p_DataCoding := p_DataCoding r; p_RegisteredDelivery := p_RegisteredDelivery r; p_Provider := p_Provider r;
     p_Route := p_Route r; p_ReceivedAt := p_ReceivedAt r; p_ExpiresAt := p_ExpiresAt r;
     p_DLRReady := p_DLRReady r; p_DLRDelivered := p_DLRDelivered r; p_DLRState := v;
     p_DLRErrorCode := p_DLRErrorCode r; p_DLRDoneAt := p_DLRDoneAt r |}.

Definition p_set_DLRErrorCode (v : Z) (r : Pending) : Pending :=
  {| p_ProviderID := p_ProviderID r; p_GatewayID := p_GatewayID r; p_TenantID := p_TenantID r;
     p_AccountID := p_AccountID r; p_ClientMsgID := p_ClientMsgID r; p_SegmentIndex := p_SegmentIndex r;
     p_SegmentCount := p_SegmentCount r; p_SourceKind := p_SourceKind r; p_SourceSession := p_SourceSession r;
     p_SourceSystem := p_SourceSystem r; p_CallbackURL := p_CallbackURL r; p_CallbackRule := p_CallbackRule r;
     p_From := p_From r; p_To := p_To r; p_Text := p_Text r;
     p_DataCoding := p_DataCoding r; p_RegisteredDelivery := p_RegisteredDelivery r; p_Provider := p_Provider r;
     p_Route := p_Route r; p_ReceivedAt := p_ReceivedAt r; p_ExpiresAt := p_ExpiresAt r;
     p_DLRReady := p_DLRReady r; p_DLRDelivered := p_DLRDelivered r; p_DLRState := p_DLRState r;
     p_DLRErrorCode := v; p_DLRDoneAt := p_DLRDoneAt r |}.

Definition p_set_DLRDoneAt (v : time) (r : Pending) : Pending :=
  {| p_ProviderID := p_ProviderID r; p_GatewayID := p_GatewayID r; p_TenantID := p_TenantID r;
     p_AccountID := p_AccountID r; p_ClientMsgID := p_ClientMsgID r; p_SegmentIndex := p_SegmentIndex r;
     p_SegmentCount := p_SegmentCount r; p_SourceKind := p_SourceKind r; p_SourceSession := p_SourceSession r;
     p_SourceSystem := p_SourceSystem r; p_CallbackURL := p_CallbackURL r; p_CallbackRule := p_CallbackRule r;
     p_From := p_From r; p_To := p_To r; p_Text := p_Text r;
     p_DataCoding := p_DataCoding r; p_RegisteredDelivery := p_RegisteredDelivery r; p_Provider := p_Provider r;
     p_Route := p_Route r; p_ReceivedAt := p_ReceivedAt r; p_ExpiresAt := p_ExpiresAt r;
     p_DLRReady := p_DLRReady r; p_DLRDelivered := p_DLRDelivered r; p_DLRState := p_DLRState r;
     p_DLRErrorCode := p_DLRErrorCode r; p_DLRDoneAt := v |}.

(** ** Outbox items *)

Record OutboxPayload := mkOutboxPayload {
  op_GatewayID : string;
  op_TenantID : string;
  op_AccountID : string;
  op_ClientMsgID : string;
  op_Provider : string;
  op_Route : string;
  op_From : string;
  op_To : string;
  op_Text : string;
  op_DataCoding : Z;
  op_RegisteredDelivery : Z;
  op_Encoding : string;
  op_Meta : option (gmap string string);
  op_SourceKind : string;
  op_SourceSession : string;
  op_SourceSystem : string;
  op_CallbackURL : string;
  op_CallbackRule : string;
  op_ReceivedAt : time;
  op_UDH : list Z;
  op_RawPayload : list Z;
  op_RawPayloadSet : bool;
  op_SARRefNum : list Z;
  op_SARTotalSegments : list Z;
  op_SARSegmentSeqnum : list Z;
  op_SARSet : bool }.

#[export] Instance OutboxPayload_eq_dec : EqDecision OutboxPayload.
Proof. solve_decision. Defined.

Record OutboxItem := mkOutboxItem {
  ob_ID : Z;
  ob_GatewayID : string;
  ob_Provider : string;
  ob_Payload : OutboxPayload;
  ob_State : string;
  ob_ClaimedBy : string;
  ob_ClaimedAt : time;
  ob_NextRetryAt : time;
  ob_Attempt : Z;
  ob_MaxAttempts : Z;
  ob_LastError : string;
  ob_CreatedAt : time }.

#[export] Instance OutboxItem_eq_dec : EqDecision OutboxItem.
Proof. solve_decision. Defined.

Definition ob_set_ID (v : Z) (r : OutboxItem) : OutboxItem :=
  {| ob_ID := v; ob_GatewayID := ob_GatewayID r; ob_Provider := ob_Provider r;
     ob_Payload := ob_Payload r; ob_State := ob_State r; ob_ClaimedBy := ob_ClaimedBy r;
     ob_ClaimedAt := ob_ClaimedAt r; ob_NextRetryAt := ob_NextRetryAt r; ob_Attempt := ob_Attempt r;
     ob_MaxAttempts := ob_MaxAttempts r; ob_LastError := ob_LastError r; ob_CreatedAt := ob_CreatedAt r |}.

Definition ob_set_Payload (v : OutboxPayload) (r : OutboxItem) : OutboxItem :=
  {| ob_ID := ob_ID r; ob_GatewayID := ob_GatewayID r; ob_Provider := ob_Provider r;
     ob_Payload := v; ob_State := ob_State r; ob_ClaimedBy := ob_ClaimedBy r;
     ob_ClaimedAt := ob_ClaimedAt r; ob_NextRetryAt := ob_NextRetryAt r; ob_Attempt := ob_Attempt r;
     ob_MaxAttempts := ob_MaxAttempts r; ob_LastError := ob_LastError r; ob_CreatedAt := ob_CreatedAt r |}.

Definition ob_set_State (v : string) (r : OutboxItem) : OutboxItem :=
  {| ob_ID := ob_ID r; ob_GatewayID := ob_GatewayID r; ob_Provider := ob_Provider r;
     ob_Payload := ob_Payload r; ob_State := v; ob_ClaimedBy := ob_ClaimedBy r;
     ob_ClaimedAt := ob_ClaimedAt r; ob_NextRetryAt := ob_NextRetryAt r; ob_Attempt := ob_Attempt r;
     ob_MaxAttempts := ob_MaxAttempts r; ob_LastError := ob_LastError r; ob_CreatedAt := ob_CreatedAt r |}.

Definition ob_set_ClaimedBy (v : string) (r : OutboxItem) : OutboxItem :=
  {| ob_ID := ob_ID r; ob_GatewayID := ob_GatewayID r; ob_Provider := ob_Provider r;
     ob_Payload := ob_Payload r; ob_State := ob_State r; ob_ClaimedBy := v;
     ob_ClaimedAt := ob_ClaimedAt r; ob_NextRetryAt := ob_NextRetryAt r; ob_Attempt := ob_Attempt r;
     ob_MaxAttempts := ob_MaxAttempts r; ob_LastError := ob_LastError r; ob_CreatedAt := ob_CreatedAt r |}.

Definition ob_set_ClaimedAt (v : time) (r : OutboxItem) : OutboxItem :=
  {| ob_ID := ob_ID r; ob_GatewayID := ob_GatewayID r; ob_Provider := ob_Provider r;
     ob_Payload := ob_Payload r; ob_State := ob_State r; ob_ClaimedBy := ob_ClaimedBy r;
     ob_ClaimedAt := v; ob_NextRetryAt := ob_NextRetryAt r; ob_Attempt := ob_Attempt r;
     ob_MaxAttempts := ob_MaxAttempts r; ob_LastError := ob_LastError r; ob_CreatedAt := ob_CreatedAt r |}.

Definition ob_set_NextRetryAt (v : time) (r : OutboxItem) : OutboxItem :=
  {| ob_ID := ob_ID r; ob_GatewayID := ob_GatewayID r; ob_Provider := ob_Provider r;
     ob_Payload := ob_Payload r; ob_State := ob_State r; ob_ClaimedBy := ob_ClaimedBy r;
     ob_ClaimedAt := ob_ClaimedAt r; ob_NextRetryAt := v; ob_Attempt := ob_Attempt r;
     ob_MaxAttempts := ob_MaxAttempts r; ob_LastError := ob_LastError r; ob_CreatedAt := ob_CreatedAt r |}.

Definition ob_set_Attempt (v : Z) (r : OutboxItem) : OutboxItem :=
  {| ob_ID := ob_ID r; ob_GatewayID := ob_GatewayID r; ob_Provider := ob_Provider r;
     ob_Payload := ob_Payload r; ob_State := ob_State r; ob_ClaimedBy := ob_ClaimedBy r;
     ob_ClaimedAt := ob_ClaimedAt r; ob_NextRetryAt := ob_NextRetryAt r; ob_Attempt := v;
     ob_MaxAttempts := ob_MaxAttempts r; ob_LastError := ob_LastError r; ob_CreatedAt := ob_CreatedAt r |}.

Definition ob_set_MaxAttempts (v : Z) (r : OutboxItem) : OutboxItem :=
  {| ob_ID := ob_ID r; ob_GatewayID := ob_GatewayID r; ob_Provider := ob_Provider r;
     ob_Payload := ob_Payload r; ob_State := ob_State r; ob_ClaimedBy := ob_ClaimedBy r;
     ob_ClaimedAt := ob_ClaimedAt r; ob_NextRetryAt := ob_NextRetryAt r; ob_Attempt := ob_Attempt r;
     ob_MaxAttempts := v; ob_LastError := ob_LastError r; ob_CreatedAt := ob_CreatedAt r |}.

Definition ob_set_LastError (v : string) (r : OutboxItem) : OutboxItem :=
  {| ob_ID := ob_ID r; ob_GatewayID := ob_GatewayID r; ob_Provider := ob_Provider r;
     ob_Payload := ob_Payload r; ob_State := ob_State r; ob_ClaimedBy := ob_ClaimedBy r;
     ob_ClaimedAt := ob_ClaimedAt r; ob_NextRetryAt := ob_NextRetryAt r; ob_Attempt := ob_Attempt r;
     ob_MaxAttempts := ob_MaxAttempts r; ob_LastError := v; ob_CreatedAt := ob_CreatedAt r |}.

Definition ob_set_CreatedAt (v : time) (r : OutboxItem) : OutboxItem :=
  {| ob_ID := ob_ID r; ob_GatewayID := ob_GatewayID r; ob_Provider := ob_Provider r;
     ob_Payload := ob_Payload r; ob_State := ob_State r; ob_ClaimedBy := ob_ClaimedBy r;
     ob_ClaimedAt := ob_ClaimedAt r; ob_NextRetryAt := ob_NextRetryAt r; ob_Attempt := ob_Attempt r;
     ob_MaxAttempts := ob_MaxAttempts r; ob_LastError := ob_LastError r; ob_CreatedAt := v |}.

(** ** Options of a submission *)

Record IdempotencyOptions := mkIdempotencyOptions {
  io_ClientID : string;
  io_Key : string;
  io_TTL : duration }.

Record DailyQuotaDebit := mkDailyQuotaDebit {
  qd_TenantID : string;
  qd_Date : string;
  qd_Segments : Z;
  qd_Limit : Z }.

Record SubmitOptions := mkSubmitOptions {
  so_Idempotency : IdempotencyOptions;
  so_Quota : option DailyQuotaDebit }.

Record ListOptions := mkListOptions {
  lo_Limit : Z;
  lo_Offset : Z;
  lo_ClientID : string }.

Record idempotencyRecord := mkIdempotencyRecord {
  ir_gatewayID : string;
  ir_expiresAt : time }.

#[export] Instance idempotencyRecord_eq_dec : EqDecision idempotencyRecord.
Proof. solve_decision. Defined.
