(* ===== verification/Store.v ===== *)
(** * The in-memory store: internal/store/memory.go

    Messages, pending delivery reports, the outbox, idempotency keys, daily
    quotas and the gateway id sequence. Every exported operation runs under the
    store's mutex, so an operation is a function from the store to the new
    store and its result; a clock reading is a parameter ([now]). Where the
    code ranges over a Go map and the order can be seen (a limit, or the
    order of the result), the order is the parameter [entries]. *)

From S2P Require Import Prelude Unicode Codec Segment Num GoTime Records.

Record MemoryStore := mkMemoryStore {
  st_messages : list Message;
  st_messageByID : gmap string nat;
  st_pending : gmap string Pending;
  st_outbox : gmap Z OutboxItem;
  st_nextOutbox : Z;
  st_idempotency : gmap (string * string) idempotencyRecord;
  st_quotaUsage : gmap (string * string) Z;
  st_gatewaySeq : Z;
  st_lastSweep : time;
  st_maxMessages : Z }.

Definition st_set_messages (v : list Message) (r : MemoryStore) : MemoryStore :=
  {| st_messages := v; st_messageByID := st_messageByID r; st_pending := st_pending r;
     st_outbox := st_outbox r; st_nextOutbox := st_nextOutbox r; st_idempotency := st_idempotency r;
     st_quotaUsage := st_quotaUsage r; st_gatewaySeq := st_gatewaySeq r; st_lastSweep := st_lastSweep r;
     st_maxMessages := st_maxMessages r |}.

Definition st_set_messageByID (v : gmap string nat) (r : MemoryStore) : MemoryStore :=
  {| st_messages := st_messages r; st_messageByID := v; st_pending := st_pending r;
     st_outbox := st_outbox r; st_nextOutbox := st_nextOutbox r; st_idempotency := st_idempotency r;
     st_quotaUsage := st_quotaUsage r; st_gatewaySeq := st_gatewaySeq r; st_lastSweep := st_lastSweep r;
     st_maxMessages := st_maxMessages r |}.

Definition st_set_pending (v : gmap string Pending) (r : MemoryStore) : MemoryStore :=
  {| st_messages := st_messages r; st_messageByID := st_messageByID r; st_pending := v;
     st_outbox := st_outbox r; st_nextOutbox := st_nextOutbox r; st_idempotency := st_idempotency r;
     st_quotaUsage := st_quotaUsage r; st_gatewaySeq := st_gatewaySeq r; st_lastSweep := st_lastSweep r;
     st_maxMessages := st_maxMessages r |}.

Definition st_set_outbox (v : gmap Z OutboxItem) (r : MemoryStore) : MemoryStore :=
  {| st_messages := st_messages r; st_messageByID := st_messageByID r; st_pending := st_pending r;
     st_outbox := v; st_nextOutbox := st_nextOutbox r; st_idempotency := st_idempotency r;
     st_quotaUsage := st_quotaUsage r; st_gatewaySeq := st_gatewaySeq r; st_lastSweep := st_lastSweep r;
     st_maxMessages := st_maxMessages r |}.

Definition st_set_nextOutbox (v : Z) (r : MemoryStore) : MemoryStore :=
  {| st_messages := st_messages r; st_messageByID := st_messageByID r; st_pending := st_pending r;
     st_outbox := st_outbox r; st_nextOutbox := v; st_idempotency := st_idempotency r;
     st_quotaUsage := st_quotaUsage r; st_gatewaySeq := st_gatewaySeq r; st_lastSweep := st_lastSweep r;
     st_maxMessages := st_maxMessages r |}.

Definition st_set_idempotency (v : gmap (string * string) idempotencyRecord) (r : MemoryStore) : MemoryStore :=
  {| st_messages := st_messages r; st_messageByID := st_messageByID r; st_pending := st_pending r;
     st_outbox := st_outbox r; st_nextOutbox := st_nextOutbox r; st_idempotency := v;
     st_quotaUsage := st_quotaUsage r; st_gatewaySeq := st_gatewaySeq r; st_lastSweep := st_lastSweep r;
     st_maxMessages := st_maxMessages r |}.

Definition st_set_quotaUsage (v : gmap (string * string) Z) (r : MemoryStore) : MemoryStore :=
  {| st_messages := st_messages r; st_messageByID := st_messageByID r; st_pending := st_pending r;
     st_outbox := st_outbox r; st_nextOutbox := st_nextOutbox r; st_idempotency := st_idempotency r;
     st_quotaUsage := v; st_gatewaySeq := st_gatewaySeq r; st_lastSweep := st_lastSweep r;
     st_maxMessages := st_maxMessages r |}.

Definition st_set_gatewaySeq (v : Z) (r : MemoryStore) : MemoryStore :=
  {| st_messages := st_messages r; st_messageByID := st_messageByID r; st_pending := st_pending r;
     st_outbox := st_outbox r; st_nextOutbox := st_nextOutbox r; st_idempotency := st_idempotency r;
     st_quotaUsage := st_quotaUsage r; st_gatewaySeq := v; st_lastSweep := st_lastSweep r;
     st_maxMessages := st_maxMessages r |}.

Definition st_set_lastSweep (v : time) (r : MemoryStore) : MemoryStore :=
  {| st_messages := st_messages r; st_messageByID := st_messageByID r; st_pending := st_pending r;
     st_outbox := st_outbox r; st_nextOutbox := st_nextOutbox r; st_idempotency := st_idempotency r;
     st_quotaUsage := st_quotaUsage r; st_gatewaySeq := st_gatewaySeq r; st_lastSweep := v;
     st_maxMessages := st_maxMessages r |}.

Inductive store_err :=
| ErrNotFound
| ErrQuotaExceeded
| StoreError (msg : string).

#[export] Instance store_err_eq_dec : EqDecision store_err.
Proof. solve_decision. Defined.

Definition NewMemory : MemoryStore :=
  {| st_messages := []; st_messageByID := ∅; st_pending := ∅; st_outbox := ∅; st_nextOutbox := 0;
     st_idempotency := ∅; st_quotaUsage := ∅; st_gatewaySeq := 0; st_lastSweep := 0;
     st_maxMessages := 10000 |}.

(** ** Helpers *)

Definition pendingKey (provider providerID : string) : string :=
  provider +:+ String "000"%char providerID.

Definition normalizePending (p : Pending) : Pending :=
  let p := if p_SegmentIndex p <=? 0 then p_set_SegmentIndex 1 p else p in
  if p_SegmentCount p <=? 0 then p_set_SegmentCount 1 p else p.

(** The index of the messages, rebuilt: a later message wins. *)
Definition index_messages (messages : list Message) : gmap string nat :=
  foldl (fun m im => <[msg_ID im.2 := im.1]> m) ∅ (imap pair messages).

Definition trimMessagesLocked (s : MemoryStore) : MemoryStore :=
  if (st_maxMessages s <=? 0) || (Z.of_nat (length (st_messages s)) <=? st_maxMessages s) then s
  else
    let n := (length (st_messages s) - Z.to_nat (st_maxMessages s))%nat in
    let messages := drop n (st_messages s) in
    st_set_messageByID (index_messages messages) (st_set_messages messages s).

(** Saving a message: shared by [SaveMessage] and [SubmitAtomic]. *)
Definition put_message (msg : Message) (s : MemoryStore) : MemoryStore :=
  match st_messageByID s !! msg_ID msg with
  | Some idx => st_set_messages (<[idx := msg]> (st_messages s)) s
  | None =>
    trimMessagesLocked
      (st_set_messages (st_messages s ++ [msg])
        (st_set_messageByID (<[msg_ID msg := length (st_messages s)]> (st_messageByID s)) s))
  end.

(** [msg := s.messages[idx]; msg.X = ...; s.messages[idx] = msg]. *)
Definition upd_message (f : Message -> Message) (idx : nat) (s : MemoryStore) : MemoryStore :=
  st_set_messages (alter f idx (st_messages s)) s.

Definition pending_expired (now : time) (p : Pending) : bool :=
  negb (p_DLRReady p) && negb (IsZero (p_ExpiresAt p)) && Before (p_ExpiresAt p) now.

Definition idem_expired (now : time) (r : idempotencyRecord) : bool :=
  negb (IsZero (ir_expiresAt r)) && Before (ir_expiresAt r) now.

Definition sweepLocked (now : time) (s : MemoryStore) : MemoryStore :=
  st_set_lastSweep now
    (st_set_idempotency (filter (fun kv => idem_expired now kv.2 = false) (st_idempotency s))
      (st_set_pending (filter (fun kv => pending_expired now kv.2 = false) (st_pending s)) s)).

(** ** Messages *)

Definition SaveMessage (msg : Message) (s : MemoryStore) : MemoryStore * res store_err unit :=
  (put_message msg s, Ok tt).

Definition GetMessage (gatewayID : string) (s : MemoryStore) : option Message :=
  idx ← st_messageByID s !! gatewayID; st_messages s !! idx.

Definition UpdateMessageSent (now : time) (gatewayID providerID : string) (s : MemoryStore)
    : MemoryStore * res store_err unit :=
  match st_messageByID s !! gatewayID with
  | None => (s, Err ErrNotFound)
  | Some idx =>
    (upd_message (fun m => msg_set_SentAt now (msg_set_State "sent" (msg_set_ProviderID providerID m)))
       idx s, Ok tt)
  end.

Definition UpdateMessageState (now : time) (gatewayID state : string) (errCode : Z) (s : MemoryStore)
    : MemoryStore * res store_err unit :=
  match st_messageByID s !! gatewayID with
  | None => (s, Err ErrNotFound)
  | Some idx =>
    (upd_message (fun m => msg_set_DoneAt now (msg_set_ErrorCode errCode (msg_set_State state m)))
       idx s, Ok tt)
  end.

(** A lookup in a possibly nil map: the zero value when absent. *)
Definition meta_get (m : option (gmap string string)) (k : string) : string :=
  default "" (m ≫= fun m => m !! k).

Definition ListMessagesPage (opts : ListOptions) (s : MemoryStore) : list Message :=
  let messages :=
    if bool_decide (lo_ClientID opts = "") then st_messages s
    else filter (fun m => meta_get (msg_Metadata m) "client_id" = lo_ClientID opts) (st_messages s) in
  let n := Z.of_nat (length messages) in
  let offset := Z.min (Z.max (lo_Offset opts) 0) n in
  let limit := if (lo_Limit opts <=? 0) || (1000 <? lo_Limit opts) then 100 else lo_Limit opts in
  let end_ := Z.min (offset + limit) n in
  slice messages (Z.to_nat offset) (Z.to_nat end_).

Definition ListMessages (s : MemoryStore) : list Message :=
  ListMessagesPage (mkListOptions (Z.of_nat (length (st_messages s))) 0 "") s.

(** ** Pending delivery reports *)

Definition SavePending (now : time) (p : Pending) (s : MemoryStore) : MemoryStore * res store_err unit :=
  let s := sweepLocked now s in
  let p := normalizePending p in
  (st_set_pending (<[pendingKey (p_Provider p) (p_ProviderID p) := p]> (st_pending s)) s, Ok tt).

(** An update of one record in place. *)
Definition upd_pending (provider providerID : string) (f : Pending -> Pending) (s : MemoryStore)
    : MemoryStore * res store_err unit :=
  let key := pendingKey provider providerID in
  match st_pending s !! key with
  | None => (s, Err ErrNotFound)
  | Some p => (st_set_pending (<[key := f p]> (st_pending s)) s, Ok tt)
  end.

Definition set_dlr (state : string) (errCode : Z) (doneAt : time) (p : Pending) : Pending :=
  p_set_DLRDoneAt doneAt (p_set_DLRErrorCode errCode (p_set_DLRState state (p_set_DLRDelivered false p))).

Definition UpdatePendingDLR (provider providerID state : string) (errCode : Z) (doneAt : time) :=
  upd_pending provider providerID (set_dlr state errCode doneAt).

Definition MarkDLRReady (provider providerID state : string) (errCode : Z) (doneAt : time) :=
  upd_pending provider providerID (fun p => set_dlr state errCode doneAt (p_set_DLRReady true p)).

Definition MarkDLRDelivered (provider providerID : string) :=
  upd_pending provider providerID (fun p => p_set_DLRDelivered true (p_set_DLRReady false p)).

Definition ready_for (systemID : string) (p : Pending) : bool :=
  p_DLRReady p && (bool_decide (systemID = "") || bool_decide (p_SourceSystem p = systemID)).

(** [entries] is the map after the sweep in the order of the range loop. *)
Definition ListReadyDLR (now : time) (systemID : string) (limit : Z)
    (entries : list (string * Pending)) (s : MemoryStore) : MemoryStore * list Pending :=
  let limit := if limit <=? 0 then 100 else limit in
  (sweepLocked now s, take (Z.to_nat limit) (filter (fun p => ready_for systemID p = true) entries.*2)).

Definition GetPending (now : time) (provider providerID : string) (s : MemoryStore)
    : MemoryStore * option Pending :=
  let s := sweepLocked now s in
  let key := pendingKey provider providerID in
  match st_pending s !! key with
  | None => (s, None)
  | Some p =>
    if pending_expired now p then (st_set_pending (delete key (st_pending s)) s, None)
    else (s, Some p)
  end.

(** The order of [ListPendingByGatewayID]. *)
Definition pending_less (a b : Pending) : bool :=
  if p_SegmentIndex a =? p_SegmentIndex b then
    if bool_decide (p_Provider a = p_Provider b) then String.ltb (p_ProviderID a) (p_ProviderID b)
    else String.ltb (p_Provider a) (p_Provider b)
  else p_SegmentIndex a <? p_SegmentIndex b.

Definition ListPendingByGatewayID (now : time) (gatewayID : string) (s : MemoryStore)
    : MemoryStore * list Pending :=
  let s := sweepLocked now s in
  (s, sort_stable pending_less
        (filter (fun p => p_GatewayID p = gatewayID) (map_to_list (st_pending s)).*2)).

Definition DeletePending (provider providerID : string) (s : MemoryStore) : MemoryStore * res store_err unit :=
  (st_set_pending (delete (pendingKey provider providerID) (st_pending s)) s, Ok tt).

Definition DeletePendingByGatewayID (gatewayID : string) (s : MemoryStore) : MemoryStore * res store_err unit :=
  (st_set_pending (filter (fun kv => p_GatewayID kv.2 <> gatewayID) (st_pending s)) s, Ok tt).

Definition sweep_due (before : time) (p : Pending) : bool :=
  negb (p_DLRReady p) && Before (p_ExpiresAt p) before.

Definition SweepExpiredPending (before : time) (s : MemoryStore) : MemoryStore * Z :=
  (st_set_pending (filter (fun kv => sweep_due before kv.2 = false) (st_pending s)) s,
   Z.of_nat (size (filter (fun kv => sweep_due before kv.2 = true) (st_pending s)))).

Definition PendingSize (now : time) (s : MemoryStore) : MemoryStore * Z :=
  let s := sweepLocked now s in (s, Z.of_nat (size (st_pending s))).

(** ** Gateway ids *)

Definition ReserveGatewayIDRange (span : Z) (s : MemoryStore) : MemoryStore * (Z * Z) :=
  let span := if span =? 0 then 1 else span in
  let start := u64 (st_gatewaySeq s + 1) in
  let last := u64 (st_gatewaySeq s + span) in
  (st_set_gatewaySeq last s, (start, last)).

(** ** The outbox *)

(** The defaults [EnqueueOutbox] and [SubmitAtomic] fill in; the clock is read
    once for each of the two times. *)
Definition outbox_defaults (id : Z) (now1 now2 : time) (item : OutboxItem) : OutboxItem :=
  let item := ob_set_ID id item in
  let item := if bool_decide (ob_State item = "") then ob_set_State "pending" item else item in
  let item := if IsZero (ob_NextRetryAt item) then ob_set_NextRetryAt now1 item else item in
  let item := if IsZero (ob_CreatedAt item) then ob_set_CreatedAt now2 item else item in
  if ob_MaxAttempts item <=? 0 then ob_set_MaxAttempts 5 item else item.

Definition put_outbox (now1 now2 : time) (item : OutboxItem) (s : MemoryStore) : MemoryStore * Z :=
  let id := st_nextOutbox s + 1 in
  (st_set_outbox (<[id := outbox_defaults id now1 now2 item]> (st_outbox s)) (st_set_nextOutbox id s), id).

Definition EnqueueOutbox (now1 now2 : time) (item : OutboxItem) (s : MemoryStore)
    : MemoryStore * res store_err Z :=
  let '(s, id) := put_outbox now1 now2 item s in (s, Ok id).

Definition claimable (now : time) (item : OutboxItem) : bool :=
  bool_decide (ob_State item = "pending") && negb (After (ob_NextRetryAt item) now).

Definition claim_less (a b : OutboxItem) : bool :=
  if ob_NextRetryAt a =? ob_NextRetryAt b then ob_ID a <? ob_ID b
  else Before (ob_NextRetryAt a) (ob_NextRetryAt b).

Definition claim_item (workerID : string) (now : time) (item : OutboxItem) : OutboxItem :=
  ob_set_Attempt (ob_Attempt item + 1)
    (ob_set_ClaimedAt now (ob_set_ClaimedBy workerID (ob_set_State "claimed" item))).

Definition claim_candidates (now : time) (limit : Z) (outbox : gmap Z OutboxItem) : list OutboxItem :=
  let limit := if limit <=? 0 then 1 else limit in
  take (Z.to_nat limit)
    (sort_stable claim_less (filter (fun it => claimable now it = true) (map_to_list outbox).*2)).

Definition ClaimOutbox (now : time) (workerID : string) (limit : Z) (s : MemoryStore)
    : MemoryStore * list OutboxItem :=
  let out := claim_item workerID now <$> claim_candidates now limit (st_outbox s) in
  (st_set_outbox (foldl (fun m it => <[ob_ID it := it]> m) (st_outbox s) out) s, out).

Definition MarkOutboxSending (id : Z) (workerID : string) (s : MemoryStore)
    : MemoryStore * res store_err unit :=
  match st_outbox s !! id with
  | None => (s, Err ErrNotFound)
  | Some item =>
    if bool_decide (ob_State item = "sending") && bool_decide (ob_ClaimedBy item = workerID)
    then (s, Ok tt)
    else if negb (bool_decide (ob_State item = "claimed")) || negb (bool_decide (ob_ClaimedBy item = workerID))
    then (s, Err (StoreError "outbox is not claimed by worker"))
    else (st_set_outbox (<[id := ob_set_State "sending" item]> (st_outbox s)) s, Ok tt)
  end.

(** The loop of [validateOutboxCompletion]. *)
Fixpoint validate_records (item : OutboxItem) (pending : list Pending) : res store_err (list Pending) :=
  match pending with
  | [] => Ok []
  | rec :: rest =>
    let rec' := normalizePending rec in
    if bool_decide (p_ProviderID rec' = "")
    then Err (StoreError "outbox completion pending record has empty provider id")
    else if negb (bool_decide (p_GatewayID rec' = ob_GatewayID item))
            || negb (bool_decide (p_Provider rec' = ob_Provider item))
    then Err (StoreError "outbox completion pending record does not match outbox")
    else (cons rec') <$> validate_records item rest
  end.

Definition validateOutboxCompletion (item : OutboxItem) (pending : list Pending)
    : res store_err (list Pending) :=
  match pending with
  | [] => Err (StoreError "outbox completion requires at least one pending record")
  | _ => validate_records item pending
  end.

Definition scrubOutboxPayload (p : OutboxPayload) : OutboxPayload :=
  {| op_GatewayID := op_GatewayID p; op_TenantID := op_TenantID p; op_AccountID := op_AccountID p;
     op_ClientMsgID := op_ClientMsgID p; op_Provider := op_Provider p; op_Route := op_Route p;
     op_From := op_From p; op_To := op_To p; op_Text := op_Text p; op_DataCoding := op_DataCoding p;
     op_RegisteredDelivery := op_RegisteredDelivery p; op_Encoding := op_Encoding p;
     op_Meta := op_Meta p; op_SourceKind := op_SourceKind p; op_SourceSession := op_SourceSession p;
     op_SourceSystem := op_SourceSystem p; op_CallbackURL := op_CallbackURL p;
     op_CallbackRule := op_CallbackRule p; op_ReceivedAt := op_ReceivedAt p;
     op_UDH := []; op_RawPayload := []; op_RawPayloadSet := false; op_SARRefNum := [];
     op_SARTotalSegments := []; op_SARSegmentSeqnum := []; op_SARSet := false |}.

Definition close_item (item : OutboxItem) : OutboxItem :=
  ob_set_Payload (scrubOutboxPayload (ob_Payload item)) (ob_set_State "done" item).

Definition put_pending (recs : list Pending) (m : gmap string Pending) : gmap string Pending :=
  foldl (fun m rec => <[pendingKey (p_Provider rec) (p_ProviderID rec) := rec]> m) m recs.

Definition CompleteOutboxSend (now : time) (id : Z) (workerID : string) (pending : list Pending)
    (s : MemoryStore) : MemoryStore * res store_err unit :=
  match st_outbox s !! id with
  | None => (s, Err ErrNotFound)
  | Some item =>
    if bool_decide (ob_State item = "done") then (s, Ok tt)
    else if negb (bool_decide (ob_State item = "sending")) || negb (bool_decide (ob_ClaimedBy item = workerID))
    then (s, Err (StoreError "outbox is not sending for worker"))
    else
      match validateOutboxCompletion item pending with
      | Err e => (s, Err e)
      | Ok pending =>
        match st_messageByID s !! ob_GatewayID item with
        | None => (s, Err ErrNotFound)
        | Some idx =>
          let providerID := match pending with p :: _ => p_ProviderID p | [] => "" end in
          let s := upd_message
            (fun m => msg_set_SentAt now (msg_set_State "sent" (msg_set_ProviderID providerID m))) idx s in
          let s := st_set_pending (put_pending pending (st_pending s)) s in
          (st_set_outbox (<[id := close_item item]> (st_outbox s)) s, Ok tt)
        end
      end
  end.

Definition MarkOutboxUncertain (now : time) (id : Z) (workerID errMsg : string) (s : MemoryStore)
    : MemoryStore * res store_err unit :=
  match st_outbox s !! id with
  | None => (s, Err ErrNotFound)
  | Some item =>
    if negb (bool_decide (ob_State item = "sending")) && negb (bool_decide (ob_State item = "uncertain"))
    then (s, Err (StoreError "outbox is not sending"))
    else if negb (bool_decide (ob_ClaimedBy item = workerID))
    then (s, Err (StoreError "outbox is not owned by worker"))
    else
      let s := st_set_outbox
        (<[id := ob_set_LastError errMsg (ob_set_State "uncertain" item)]> (st_outbox s)) s in
      match st_messageByID s !! ob_GatewayID item with
      | None => (s, Ok tt)
      | Some idx =>
        (upd_message (fun m => msg_set_DoneAt now (msg_set_ErrorCode 1 (msg_set_State "UNKNOWN" m))) idx s,
         Ok tt)
      end
  end.

Definition stale (before : time) (item : OutboxItem) : bool :=
  bool_decide (ob_State item = "claimed") && negb (IsZero (ob_ClaimedAt item))
  && Before (ob_ClaimedAt item) before.

Definition requeue_item (before : time) (item : OutboxItem) : OutboxItem :=
  let item := ob_set_ClaimedAt 0 (ob_set_ClaimedBy "" (ob_set_State "pending" item)) in
  if IsZero (ob_NextRetryAt item) || After (ob_NextRetryAt item) before
  then ob_set_NextRetryAt before item else item.

(** [entries] is the outbox in the order of the range loop. *)
Definition RequeueStaleOutbox (before : time) (limit : Z) (entries : list (Z * OutboxItem))
    (s : MemoryStore) : MemoryStore * Z :=
  let limit := if limit <=? 0 then 1000 else limit in
  let due := take (Z.to_nat limit) (filter (fun kv => stale before kv.2 = true) entries) in
  (st_set_outbox (foldl (fun m kv => <[kv.1 := requeue_item before kv.2]> m) (st_outbox s) due) s,
   Z.of_nat (length due)).

Definition AckOutbox (id : Z) (s : MemoryStore) : MemoryStore * res store_err unit :=
  match st_outbox s !! id with
  | None => (s, Err ErrNotFound)
  | Some item =>
    if negb (bool_decide (ob_State item = "claimed")) then (s, Err (StoreError "outbox is not claimed"))
    else (st_set_outbox (<[id := close_item item]> (st_outbox s)) s, Ok tt)
  end.

Definition FailOutbox (id : Z) (errMsg : string) (nextRetryAt : time) (s : MemoryStore)
    : MemoryStore * res store_err unit :=
  match st_outbox s !! id with
  | None => (s, Err ErrNotFound)
  | Some item =>
    let item := ob_set_LastError errMsg item in
    if IsZero nextRetryAt || (ob_MaxAttempts item <=? ob_Attempt item) then
      if negb (bool_decide (ob_State item = "claimed")) && negb (bool_decide (ob_State item = "sending"))
      then (s, Err (StoreError "outbox cannot fail from state"))
      else (st_set_outbox (<[id := ob_set_State "failed" item]> (st_outbox s)) s, Ok tt)
    else
      if negb (bool_decide (ob_State item = "claimed"))
      then (s, Err (StoreError "outbox cannot retry from state"))
      else
        (st_set_outbox (<[id := ob_set_ClaimedAt 0 (ob_set_ClaimedBy ""
           (ob_set_NextRetryAt nextRetryAt (ob_set_State "pending" item)))]> (st_outbox s)) s, Ok tt)
  end.

Definition OutboxDepth (state : string) (s : MemoryStore) : Z :=
  Z.of_nat (size (filter (fun kv => bool_decide (state = "") || bool_decide (ob_State kv.2 = state) = true)
    (st_outbox s))).

(** ** Idempotency and quotas *)

Definition CheckIdempotency (now : time) (clientID key : string) (s : MemoryStore)
    : MemoryStore * option string :=
  if bool_decide (clientID = "") || bool_decide (key = "") then (s, None)
  else
    let s := sweepLocked now s in
    match st_idempotency s !! (clientID, key) with
    | None => (s, None)
    | Some rec =>
      if Before (ir_expiresAt rec) now
      then (st_set_idempotency (delete (clientID, key) (st_idempotency s)) s, None)
      else (s, Some (ir_gatewayID rec))
    end.

Definition idem_ttl (ttl : duration) : duration := if ttl <=? 0 then 24 * Hour else ttl.

Definition SaveIdempotency (now1 now2 : time) (clientID key gatewayID : string) (ttl : duration)
    (s : MemoryStore) : MemoryStore * res store_err unit :=
  if bool_decide (clientID = "") || bool_decide (key = "") then (s, Ok tt)
  else
    let s := sweepLocked now1 s in
    (st_set_idempotency
       (<[(clientID, key) := mkIdempotencyRecord gatewayID (now2 + idem_ttl ttl)]> (st_idempotency s)) s,
     Ok tt).

(** [time.Parse(time.DateOnly, date)] succeeds. *)
Definition digits_value (l : list Z) : option Z :=
  if forallb is_digit_byte l then Some (foldl (fun n c => 10 * n + (c - 48)) 0 l) else None.

Definition days_in (y m : Z) : Z :=
  if m =? 2 then if is_leap y then 29 else 28
  else if bool_decide (m ∈ [4; 6; 9; 11]) then 30 else 31.

Definition valid_date (date : string) : bool :=
  let b := bytes_of_string date in
  if negb (length b =? 10)%nat || negb (b.[4] =? 45) || negb (b.[7] =? 45) then false
  else
    match digits_value (slice b 0 4), digits_value (slice b 5 7), digits_value (slice b 8 10) with
    | Some y, Some m, Some d => (1 <=? m) && (m <=? 12) && (1 <=? d) && (d <=? days_in y m)
    | _, _, _ => false
    end.

Definition validateDailyQuotaDebit (q : DailyQuotaDebit) : res store_err unit :=
  if bool_decide (qd_TenantID q = "") || (qd_Segments q <=? 0) || (qd_Limit q <=? 0)
  then Err (StoreError "invalid daily quota debit")
  else if negb (valid_date (qd_Date q)) then Err (StoreError "invalid daily quota date")
  else Ok tt.

Definition quota_used (s : MemoryStore) (tenantID date : string) : Z :=
  default 0 (st_quotaUsage s !! (tenantID, date)).

(** The quota part of [SubmitAtomic]. *)
Definition debit_quota (quota : option DailyQuotaDebit) (s : MemoryStore) : res store_err MemoryStore :=
  match quota with
  | None => Ok s
  | Some q =>
    if qd_Limit q <=? 0 then Ok s
    else
      _ ← validateDailyQuotaDebit q;
      let used := quota_used s (qd_TenantID q) (qd_Date q) in
      if (qd_Limit q <? qd_Segments q) || (qd_Limit q - qd_Segments q <? used) then Err ErrQuotaExceeded
      else Ok (st_set_quotaUsage
                 (<[(qd_TenantID q, qd_Date q) := used + qd_Segments q]> (st_quotaUsage s)) s)
  end.

Record SubmitResult := mkSubmitResult {
  sr_outboxID : Z;
  sr_gatewayID : string;
  sr_duplicate : bool }.

Definition SubmitAtomic (now : time) (msg : Message) (item : OutboxItem) (opts : SubmitOptions)
    (s : MemoryStore) : MemoryStore * res store_err SubmitResult :=
  let clientID := io_ClientID (so_Idempotency opts) in
  let key := io_Key (so_Idempotency opts) in
  let ttl := idem_ttl (io_TTL (so_Idempotency opts)) in
  let keyed := negb (bool_decide (clientID = "")) && negb (bool_decide (key = "")) in
  let s := sweepLocked now s in
  let live :=
    if keyed then
      match st_idempotency s !! (clientID, key) with
      | Some rec => if After (ir_expiresAt rec) now then Some (ir_gatewayID rec) else None
      | None => None
      end
    else None in
  match live with
  | Some gatewayID => (s, Ok (mkSubmitResult 0 gatewayID true))
  | None =>
    match debit_quota (so_Quota opts) s with
    | Err e => (s, Err e)
    | Ok s =>
      let s :=
        if keyed then
          st_set_idempotency
            (<[(clientID, key) := mkIdempotencyRecord (msg_ID msg) (now + ttl)]> (st_idempotency s)) s
        else s in
      let s := put_message msg s in
      let '(s, id) := put_outbox now now item s in
      (s, Ok (mkSubmitResult id (msg_ID msg) false))
    end
  end.
