(* ===== verification/StoreInv.v ===== *)
(** * Invariants and traces of the in-memory store

    Every exported operation of [MemoryStore] as a call of one transition
    system, the well-formedness invariant, and what holds along every sequence
    of calls: the outbox state machine and its at-most-once guarantee,
    idempotency keys, daily quotas. *)

From S2P Require Import Prelude Unicode Codec Segment Num GoTime Records Store.

(** ** Calls *)

Inductive call :=
| CSaveMessage (msg : Message)
| CUpdateMessageSent (now : time) (gatewayID providerID : string)
| CUpdateMessageState (now : time) (gatewayID state : string) (errCode : Z)
| CSavePending (now : time) (p : Pending)
| CUpdatePendingDLR (provider providerID state : string) (errCode : Z) (doneAt : time)
| CMarkDLRReady (provider providerID state : string) (errCode : Z) (doneAt : time)
| CMarkDLRDelivered (provider providerID : string)
| CListReadyDLR (now : time) (systemID : string) (limit : Z)
| CGetPending (now : time) (provider providerID : string)
| CListPendingByGatewayID (now : time) (gatewayID : string)
| CDeletePending (provider providerID : string)
| CDeletePendingByGatewayID (gatewayID : string)
| CSweepExpiredPending (before : time)
| CPendingSize (now : time)
| CReserveGatewayIDRange (span : Z)
| CEnqueueOutbox (now1 now2 : time) (item : OutboxItem)
| CClaimOutbox (now : time) (workerID : string) (limit : Z)
| CMarkOutboxSending (id : Z) (workerID : string)
| CCompleteOutboxSend (now : time) (id : Z) (workerID : string) (pending : list Pending)
| CMarkOutboxUncertain (now : time) (id : Z) (workerID errMsg : string)
| CRequeueStaleOutbox (before : time) (limit : Z) (order : list Z)
| CAckOutbox (id : Z)
| CFailOutbox (id : Z) (errMsg : string) (nextRetryAt : time)
| CCheckIdempotency (now : time) (clientID key : string)
| CSaveIdempotency (now1 now2 : time) (clientID key gatewayID : string) (ttl : duration)
| CSubmitAtomic (now : time) (msg : Message) (item : OutboxItem) (opts : SubmitOptions).

(** The outbox entries in a given order of their ids. *)
Definition entries_in (order : list Z) (m : gmap Z OutboxItem) : list (Z * OutboxItem) :=
  omap (fun k => pair k <$> m !! k) order.

Definition exec (c : call) (s : MemoryStore) : MemoryStore :=
  match c with
  | CSaveMessage msg => (SaveMessage msg s).1
  | CUpdateMessageSent now g p => (UpdateMessageSent now g p s).1
  | CUpdateMessageState now g st e => (UpdateMessageState now g st e s).1
  | CSavePending now p => (SavePending now p s).1
  | CUpdatePendingDLR p i st e d => (UpdatePendingDLR p i st e d s).1
  | CMarkDLRReady p i st e d => (MarkDLRReady p i st e d s).1
  | CMarkDLRDelivered p i => (MarkDLRDelivered p i s).1
  | CListReadyDLR now sys l => (ListReadyDLR now sys l [] s).1
  | CGetPending now p i => (GetPending now p i s).1
  | CListPendingByGatewayID now g => (ListPendingByGatewayID now g s).1
  | CDeletePending p i => (DeletePending p i s).1
  | CDeletePendingByGatewayID g => (DeletePendingByGatewayID g s).1
  | CSweepExpiredPending b => (SweepExpiredPending b s).1
  | CPendingSize now => (PendingSize now s).1
  | CReserveGatewayIDRange n => (ReserveGatewayIDRange n s).1
  | CEnqueueOutbox n1 n2 it => (EnqueueOutbox n1 n2 it s).1
  | CClaimOutbox now w l => (ClaimOutbox now w l s).1
  | CMarkOutboxSending i w => (MarkOutboxSending i w s).1
  | CCompleteOutboxSend now i w ps => (CompleteOutboxSend now i w ps s).1
  | CMarkOutboxUncertain now i w e => (MarkOutboxUncertain now i w e s).1
  | CRequeueStaleOutbox b l o => (RequeueStaleOutbox b l (entries_in o (st_outbox s)) s).1
  | CAckOutbox i => (AckOutbox i s).1
  | CFailOutbox i e t => (FailOutbox i e t s).1
  | CCheckIdempotency now c k => (CheckIdempotency now c k s).1
  | CSaveIdempotency n1 n2 c k g t => (SaveIdempotency n1 n2 c k g t s).1
  | CSubmitAtomic now m it o => (SubmitAtomic now m it o s).1
  end.

(** A field no branch of the operation touches. *)
Ltac exec_frame :=
  unfold SaveMessage, put_message, trimMessagesLocked, UpdateMessageSent, UpdateMessageState,
    UpdatePendingDLR, MarkDLRReady, MarkDLRDelivered, upd_pending, GetPending, MarkOutboxSending,
    CompleteOutboxSend, MarkOutboxUncertain, AckOutbox, FailOutbox, CheckIdempotency, SaveIdempotency;
  repeat case_match; try done.

Definition exec_all (cs : list call) (s : MemoryStore) : MemoryStore := foldl (flip exec) s cs.

(** ** Well-formedness *)

Record wf (s : MemoryStore) : Prop := mk_wf {
  wf_index : forall id i, st_messageByID s !! id = Some i <-> msg_ID <$> st_messages s !! i = Some id;
  wf_bound : 0 < st_maxMessages s -> Z.of_nat (length (st_messages s)) <= st_maxMessages s;
  wf_pending : map_Forall (fun k p => k = pendingKey (p_Provider p) (p_ProviderID p)) (st_pending s);
  wf_outbox : map_Forall (fun i it => ob_ID it = i /\ 0 < i <= st_nextOutbox s) (st_outbox s);
  wf_next : 0 <= st_nextOutbox s;
  wf_quota : map_Forall (fun _ used => 0 < used) (st_quotaUsage s) }.

(** The invariant is a conjunction of one condition per field group; an
    operation that leaves a group alone keeps its condition. *)
Definition index_ok (byID : gmap string nat) (messages : list Message) : Prop :=
  forall id i, byID !! id = Some i <-> msg_ID <$> messages !! i = Some id.

Lemma index_ok_NoDup byID messages : index_ok byID messages -> NoDup (msg_ID <$> messages).
Proof.
  intros H. apply NoDup_alt. intros i j id Hi Hj. rewrite list_lookup_fmap in Hi, Hj.
  apply H in Hi, Hj. congruence.
Qed.

Lemma index_messages_snoc l m : index_messages (l ++ [m]) = <[msg_ID m := length l]> (index_messages l).
Proof.
  unfold index_messages. rewrite imap_app, foldl_app. simpl. by rewrite Nat.add_0_r.
Qed.

Lemma index_ok_append byID l msg :
  index_ok byID l -> byID !! msg_ID msg = None ->
  index_ok (<[msg_ID msg := length l]> byID) (l ++ [msg]).
Proof.
  intros H Hno id i. destruct (decide (id = msg_ID msg)) as [->|Hne].
  - rewrite lookup_insert_eq. split.
    + intros [= <-]. by rewrite lookup_app_r, Nat.sub_diag by lia.
    + intros Hi. destruct (decide (i < length l)%nat).
      * rewrite lookup_app_l in Hi by done. apply H in Hi. congruence.
      * rewrite lookup_app_r in Hi by lia. apply fmap_Some in Hi as (x & Hx & _).
        apply lookup_lt_Some in Hx. simpl in Hx. f_equal. lia.
  - rewrite lookup_insert_ne by done. etrans; [apply H|]. destruct (decide (i < length l)%nat).
    + by rewrite lookup_app_l.
    + rewrite lookup_app_r by lia. rewrite (lookup_ge_None_2 l) by lia. split; [done|].
      intros Hi. destruct (i - length l)%nat; simpl in Hi; congruence.
Qed.

Lemma index_messages_ok l : NoDup (msg_ID <$> l) -> index_ok (index_messages l) l.
Proof.
  induction l as [|m l IH] using rev_ind; intros Hnd.
  { intros id i. by destruct i. }
  rewrite fmap_app in Hnd. apply NoDup_app in Hnd as (Hnd & Hdis & _). specialize (IH Hnd).
  rewrite index_messages_snoc. apply index_ok_append; [done|].
  destruct (index_messages l !! msg_ID m) as [i|] eqn:E; [|done].
  apply IH in E. exfalso. apply (Hdis (msg_ID m)); [|constructor].
  apply list_elem_of_lookup. exists i. by rewrite list_lookup_fmap.
Qed.

Lemma index_ok_insert byID l idx msg :
  index_ok byID l -> byID !! msg_ID msg = Some idx -> index_ok byID (<[idx := msg]> l).
Proof.
  intros H Hidx id i. etrans; [apply H|]. destruct (decide (i = idx)) as [->|].
  - apply H in Hidx. destruct (l !! idx) as [m|] eqn:E; [|done].
    rewrite list_lookup_insert_eq by (by eapply lookup_lt_Some). simpl in *. naive_solver congruence.
  - by rewrite list_lookup_insert_ne.
Qed.

Lemma index_ok_alter byID l idx f :
  (forall m, msg_ID (f m) = msg_ID m) -> index_ok byID l -> index_ok byID (alter f idx l).
Proof.
  intros Hf H id i. etrans; [apply H|]. destruct (decide (i = idx)) as [->|].
  - rewrite list_lookup_alter_eq. destruct (l !! idx); simpl; [|done]. by rewrite Hf.
  - by rewrite list_lookup_alter_ne.
Qed.


(** ** Preservation, one lemma per kind of update *)

Lemma wf_NewMemory : wf NewMemory.
Proof.
  split; simpl; done.
Qed.

Lemma wf_set_pending m s :
  wf s -> map_Forall (fun k p => k = pendingKey (p_Provider p) (p_ProviderID p)) m ->
  wf (st_set_pending m s).
Proof. by intros [] ?. Qed.

Lemma wf_set_idempotency m s : wf s -> wf (st_set_idempotency m s).
Proof. by intros []. Qed.

Lemma wf_set_gatewaySeq n s : wf s -> wf (st_set_gatewaySeq n s).
Proof. by intros []. Qed.

Lemma wf_sweepLocked now s : wf s -> wf (sweepLocked now s).
Proof.
  intros []. unfold sweepLocked. split; simpl; try done. by apply map_Forall_filter.
Qed.

Lemma wf_upd_message f idx s : (forall m, msg_ID (f m) = msg_ID m) -> wf s -> wf (upd_message f idx s).
Proof.
  intros Hf []. split; simpl; try done; [by apply index_ok_alter|by rewrite length_alter].
Qed.

Lemma wf_put_message msg s : wf s -> wf (put_message msg s).
Proof.
  intros [Hix Hb Hp Ho Hn Hq]. unfold put_message. destruct (st_messageByID s !! msg_ID msg) as [idx|] eqn:E.
  { split; simpl; try done; [by apply index_ok_insert|by rewrite length_insert]. }
  pose proof (index_ok_append _ _ _ Hix E) as Hok.
  unfold trimMessagesLocked. cbn [st_set_messages st_set_messageByID st_messages st_maxMessages].
  destruct (Z.leb_spec (st_maxMessages s) 0) as [Hm|Hm].
  { split; simpl; try done. lia. }
  destruct (Z.leb_spec (Z.of_nat (length (st_messages s ++ [msg]))) (st_maxMessages s)) as [Hl|Hl].
  { split; simpl; done. }
  split; simpl; try done.
  - apply index_messages_ok. rewrite fmap_drop. apply index_ok_NoDup in Hok.
    eapply sublist_NoDup; [exact Hok|]. apply sublist_drop.
  - rewrite length_drop. lia.
Qed.

Lemma wf_outbox_insert id it it' s :
  wf s -> st_outbox s !! id = Some it -> ob_ID it' = ob_ID it ->
  wf (st_set_outbox (<[id := it']> (st_outbox s)) s).
Proof.
  intros [Hix Hb Hp Ho Hn Hq] Hit Heq. split; simpl; try done.
  apply map_Forall_insert_2; [|done]. rewrite Heq. by apply Ho in Hit.
Qed.

Lemma wf_put_outbox n1 n2 item s : wf s -> wf (put_outbox n1 n2 item s).1.
Proof.
  intros [Hix Hb Hp Ho Hn Hq]. unfold put_outbox. split; simpl; try done; [|lia].
  apply map_Forall_insert_2.
  - split; [|lia]. unfold outbox_defaults. by repeat case_match.
  - eapply map_Forall_impl; [exact Ho|]. simpl. intros; lia.
Qed.

Lemma wf_outbox_fold (f : OutboxItem -> OutboxItem) (l : list (Z * OutboxItem)) s :
  (forall it, ob_ID (f it) = ob_ID it) ->
  Forall (fun kv => ob_ID kv.2 = kv.1 /\ 0 < kv.1 <= st_nextOutbox s) l -> wf s ->
  wf (st_set_outbox (foldl (fun m kv => <[kv.1 := f kv.2]> m) (st_outbox s) l) s).
Proof.
  intros Hf Hl [Hix Hb Hp Ho Hn Hq]. split; simpl; try done.
  revert Ho. generalize (st_outbox s). induction Hl as [|[k it] l [H1 H2] _ IH]; intros m Hm; [done|].
  simpl in *. apply IH. apply map_Forall_insert_2; [|done]. by rewrite Hf.
Qed.

Lemma entries_in_elem o m k it : (k, it) ∈ entries_in o m -> m !! k = Some it.
Proof.
  unfold entries_in. rewrite list_elem_of_omap. intros (k' & _ & E).
  apply fmap_Some in E as (it' & E & [= -> ->]). done.
Qed.

Lemma claim_candidates_elem now limit m it :
  it ∈ claim_candidates now limit m -> claimable now it = true /\ exists k, m !! k = Some it.
Proof.
  unfold claim_candidates. intros H%elem_of_take_inv. rewrite sort_stable_Permutation in H.
  apply list_elem_of_filter in H as [Hc H]. split; [done|].
  apply list_elem_of_fmap in H as ([k it'] & -> & H). exists k. by apply elem_of_map_to_list.
Qed.

(** The claimed items keyed by their ids. *)
Lemma claim_fold (m : gmap Z OutboxItem) (f : OutboxItem -> OutboxItem) l :
  (forall it, ob_ID (f it) = ob_ID it) ->
  foldl (fun m it => <[ob_ID it := it]> m) m (f <$> l)
  = foldl (fun m kv => <[kv.1 := f kv.2]> m) m ((fun it => (ob_ID it, it)) <$> l).
Proof.
  intros Hf. revert m. induction l as [|it l IH]; intros m; [done|]. csimpl. by rewrite Hf, IH.
Qed.

Lemma wf_claim now w limit s : wf s -> wf (ClaimOutbox now w limit s).1.
Proof.
  intros Hwf. unfold ClaimOutbox. cbn [fst]. rewrite claim_fold by done.
  apply wf_outbox_fold; [done| |done]. apply Forall_fmap, Forall_forall. intros it Hit.
  apply claim_candidates_elem in Hit as (_ & k & Hk). simpl. split; [done|].
  apply (wf_outbox _ Hwf) in Hk as [-> ?]. done.
Qed.

Lemma put_pending_keyed recs m :
  map_Forall (fun k p => k = pendingKey (p_Provider p) (p_ProviderID p)) m ->
  map_Forall (fun k p => k = pendingKey (p_Provider p) (p_ProviderID p)) (put_pending recs m).
Proof.
  unfold put_pending. revert m. induction recs as [|r recs IH]; intros m Hm; [done|].
  simpl. apply IH. by apply map_Forall_insert_2.
Qed.

Lemma wf_upd_pending provider providerID f s :
  (forall p, p_Provider (f p) = p_Provider p /\ p_ProviderID (f p) = p_ProviderID p) ->
  wf s -> wf (upd_pending provider providerID f s).1.
Proof.
  intros Hf Hwf. unfold upd_pending. destruct (st_pending s !! _) eqn:E; [|done].
  apply wf_set_pending; [done|]. pose proof (wf_pending _ Hwf) as Hp.
  apply map_Forall_insert_2; [|done]. destruct (Hf p) as [-> ->]. by apply Hp in E.
Qed.

Lemma debit_quota_wf q s s' : wf s -> debit_quota q s = Ok s' -> wf s'.
Proof.
  intros Hwf. unfold debit_quota. destruct q as [q|]; [|by intros [= <-]].
  destruct (Z.leb_spec (qd_Limit q) 0); [by intros [= <-]|].
  unfold validateDailyQuotaDebit. destruct (bool_decide _); [done|].
  destruct (Z.leb_spec (qd_Segments q) 0); [done|]. destruct (_ <=? 0); [done|].
  destruct (valid_date _); [|done]. csimpl. case_match; [done|]. intros [= <-].
  destruct Hwf as [Hix Hb Hp Ho Hn Hq]. split; simpl; try done. apply map_Forall_insert_2; [|done].
  unfold quota_used. destruct (st_quotaUsage s !! _) eqn:E; simpl; [|lia]. apply Hq in E. lia.
Qed.

#[export] Hint Resolve wf_sweepLocked wf_put_message wf_put_outbox wf_claim : mysmpp.
#[export] Hint Resolve wf_set_idempotency wf_set_gatewaySeq : mysmpp.

Lemma wf_SubmitAtomic now msg item opts s : wf s -> wf (SubmitAtomic now msg item opts s).1.
Proof.
  intros Hwf%(wf_sweepLocked now). unfold SubmitAtomic. generalize dependent (sweepLocked now s).
  intros s' Hwf. case_match; [done|].
  destruct (debit_quota _ _) as [s2|] eqn:E; [|done]. apply debit_quota_wf in E; [|done].
  set (s3 := put_message msg _). assert (wf s3) as H3 by (subst s3; case_match; auto with mysmpp).
  pose proof (wf_put_outbox now now item s3 H3) as Hw. by destruct (put_outbox now now item s3).
Qed.

(** Every operation keeps the store well-formed. *)
Lemma wf_exec c s : wf s -> wf (exec c s).
Proof.
  intros Hwf. destruct c; cbn [exec].
  - by apply wf_put_message.
  - unfold UpdateMessageSent. case_match; [|done]. by apply wf_upd_message.
  - unfold UpdateMessageState. case_match; [|done]. by apply wf_upd_message.
  - unfold SavePending. cbn [fst]. apply wf_set_pending; [auto with mysmpp|].
    apply map_Forall_insert_2; [done|]. by apply wf_pending, wf_sweepLocked.
  - by apply wf_upd_pending.
  - by apply wf_upd_pending.
  - by apply wf_upd_pending.
  - by apply wf_sweepLocked.
  - apply (wf_sweepLocked now) in Hwf. unfold GetPending. generalize dependent (sweepLocked now s).
    intros s' Hwf. repeat case_match; simpl; try done.
    apply wf_set_pending; [done|]. apply map_Forall_delete, wf_pending, Hwf.
  - by apply wf_sweepLocked.
  - apply wf_set_pending; [done|]. apply map_Forall_delete, wf_pending, Hwf.
  - apply wf_set_pending; [done|]. apply map_Forall_filter, wf_pending, Hwf.
  - apply wf_set_pending; [done|]. apply map_Forall_filter, wf_pending, Hwf.
  - by apply wf_sweepLocked.
  - by apply wf_set_gatewaySeq.
  - unfold EnqueueOutbox. pose proof (wf_put_outbox now1 now2 item s Hwf) as H. by destruct (put_outbox _ _ _ _).
  - by apply wf_claim.
  - unfold MarkOutboxSending. repeat case_match; try done. by eapply wf_outbox_insert.
  - unfold CompleteOutboxSend. repeat case_match; try done; cbn [fst];
      (eapply (wf_outbox_insert id); [|done|done]);
      (apply wf_set_pending; [by apply wf_upd_message|]);
      apply put_pending_keyed, (wf_pending s Hwf).
  - unfold MarkOutboxUncertain. repeat case_match; try done.
    + apply wf_upd_message; [done|]. by eapply wf_outbox_insert.
    + by eapply wf_outbox_insert.
  - unfold RequeueStaleOutbox. cbn [fst]. apply wf_outbox_fold; [|..|done].
    + intros it. unfold requeue_item. by case_match.
    + apply Forall_forall. intros [k it] H%elem_of_take_inv.
      apply list_elem_of_filter in H as [_ H%entries_in_elem]. by apply (wf_outbox _ Hwf) in H.
  - unfold AckOutbox. repeat case_match; try done. by eapply wf_outbox_insert.
  - unfold FailOutbox. repeat case_match; try done; by eapply wf_outbox_insert.
  - unfold CheckIdempotency. repeat case_match; cbn [fst]; auto with mysmpp.
  - unfold SaveIdempotency. repeat case_match; cbn [fst]; auto with mysmpp.
  - by apply wf_SubmitAtomic.
Qed.

Lemma wf_exec_all cs s : wf s -> wf (exec_all cs s).
Proof.
  revert s. induction cs as [|c cs IH]; intros s Hwf; [done|]. simpl. by apply IH, wf_exec.
Qed.

(** C32: Every store reachable from NewMemory by any calls is well-formed: the
    message index matches the messages and their cap, keys of pending records
    and outbox items match their contents, ids are below the counter. *)
Theorem store_well_formed cs : wf (exec_all cs NewMemory).
Proof. apply wf_exec_all, wf_NewMemory. Qed.

(** ** The outbox state machine *)

Definition outbox_edges : list (string * string) :=
  [("pending", "claimed"); ("claimed", "pending"); ("claimed", "sending"); ("claimed", "done");
   ("claimed", "failed"); ("sending", "done"); ("sending", "uncertain"); ("sending", "failed")].

Definition outbox_edge (a b : string) : Prop := a = b \/ (a, b) ∈ outbox_edges.

(** States from which the item is never handed to a provider again. *)
Definition past_send (state : string) : bool :=
  bool_decide (state ∈ ["sending"; "done"; "uncertain"; "failed"]).

(** What an operation may do to one item. The owner of an item is fixed once it
    is being sent. *)
Definition item_step (it it' : OutboxItem) : Prop :=
  outbox_edge (ob_State it) (ob_State it') /\ ob_ID it' = ob_ID it
  /\ ob_GatewayID it' = ob_GatewayID it /\ ob_Provider it' = ob_Provider it
  /\ (past_send (ob_State it) = true -> ob_ClaimedBy it' = ob_ClaimedBy it).

Lemma item_step_refl it : item_step it it.
Proof. split; [by left|done]. Qed.
#[export] Hint Resolve item_step_refl : mysmpp.

(** Updating some entries of a map in place. *)
Lemma fold_update_lookup (f : OutboxItem -> OutboxItem) (l : list (Z * OutboxItem)) (m : gmap Z OutboxItem) id it :
  (forall k x, (k, x) ∈ l -> m !! k = Some x) -> m !! id = Some it ->
  foldl (fun m kv => <[kv.1 := f kv.2]> m) m l !! id
  = Some (if bool_decide (id ∈ l.*1) then f it else it).
Proof.
  intros Hl Hid. induction l as [|[k x] l IH] using rev_ind; [done|].
  rewrite foldl_app, fmap_app. simpl.
  assert (m !! k = Some x) as Hk by (apply Hl; set_solver).
  destruct (decide (id = k)) as [->|Hne].
  - rewrite lookup_insert_eq, bool_decide_true by set_solver. congruence.
  - rewrite lookup_insert_ne, IH by (done || intros; apply Hl; set_solver).
    f_equal. assert (bool_decide (id ∈ l.*1) = bool_decide (id ∈ l.*1 ++ [k])) as ->; [|done].
    apply bool_decide_ext. set_solver.
Qed.

Lemma fold_update_step (f : OutboxItem -> OutboxItem) (l : list (Z * OutboxItem)) (m : gmap Z OutboxItem) id it :
  (forall k x, (k, x) ∈ l -> m !! k = Some x /\ item_step x (f x)) -> m !! id = Some it ->
  exists it', foldl (fun m kv => <[kv.1 := f kv.2]> m) m l !! id = Some it' /\ item_step it it'.
Proof.
  intros Hl Hid. rewrite (fold_update_lookup f l m id it); [|naive_solver|done].
  eexists. split; [done|]. case_bool_decide as Hin; [|apply item_step_refl].
  apply list_elem_of_fmap in Hin as ([k x] & -> & Hin). simpl in Hid.
  apply Hl in Hin as [Hk Hs]. congruence.
Qed.

Lemma put_message_outbox msg s : st_outbox (put_message msg s) = st_outbox s
  /\ st_nextOutbox (put_message msg s) = st_nextOutbox s.
Proof. unfold put_message, trimMessagesLocked. by repeat case_match. Qed.

Lemma debit_quota_outbox q s s' :
  debit_quota q s = Ok s' -> st_outbox s' = st_outbox s /\ st_nextOutbox s' = st_nextOutbox s.
Proof.
  unfold debit_quota. intros E. destruct q as [q|]; [|by simplify_eq].
  case_match; [by simplify_eq|]. destruct (validateDailyQuotaDebit q); [|done].
  csimpl in E. case_match; by simplify_eq.
Qed.

(** A submission only adds an item, under the next id. *)
Lemma SubmitAtomic_outbox now msg item opts s :
  st_outbox (SubmitAtomic now msg item opts s).1 = st_outbox s
  \/ exists it, st_outbox (SubmitAtomic now msg item opts s).1 = <[st_nextOutbox s + 1 := it]> (st_outbox s).
Proof.
  unfold SubmitAtomic. set (s0 := sweepLocked now s). case_match; [by left|].
  destruct (debit_quota _ _) as [s2|] eqn:E; [|by left]. apply debit_quota_outbox in E as [E1 E2].
  right. set (s3 := put_message msg _).
  assert (st_outbox s3 = st_outbox s /\ st_nextOutbox s3 = st_nextOutbox s) as [E3 E4].
  { subst s3. destruct (put_message_outbox msg (if negb (bool_decide (io_ClientID (so_Idempotency opts) = ""))
      && negb (bool_decide (io_Key (so_Idempotency opts) = "")) then
      st_set_idempotency (<[(io_ClientID (so_Idempotency opts), io_Key (so_Idempotency opts)) :=
        mkIdempotencyRecord (msg_ID msg) (now + idem_ttl (io_TTL (so_Idempotency opts)))]> (st_idempotency s2)) s2
      else s2)) as [-> ->]. case_match; by rewrite ?E1, ?E2. }
  unfold put_outbox. cbn [fst st_set_outbox st_outbox]. rewrite E3, E4. eauto.
Qed.

Ltac edge := right; unfold outbox_edges; set_solver.
Ltac bool_states :=
  repeat match goal with
  | H : bool_decide _ = true |- _ => apply bool_decide_eq_true in H
  | H : bool_decide _ = false |- _ => apply bool_decide_eq_false in H
  | H : _ && _ = true |- _ => apply andb_true_iff in H as [? ?]
  | H : _ || _ = false |- _ => apply orb_false_iff in H as [? ?]
  | H : negb _ = false |- _ => apply negb_false_iff in H
  | H : negb _ = true |- _ => apply negb_true_iff in H
  end.

(** One item, one update. *)
Lemma outbox_insert_step (m : gmap Z OutboxItem) id k it x x' :
  m !! id = Some it -> m !! k = Some x -> item_step x x' ->
  exists it', <[k := x']> m !! id = Some it' /\ item_step it it'.
Proof.
  intros Hid Hk Hs. destruct (decide (id = k)) as [->|Hne].
  - rewrite lookup_insert_eq. eexists. split; [done|]. congruence.
  - rewrite lookup_insert_ne by done. eauto with mysmpp.
Qed.

Lemma item_step_state it it' s :
  outbox_edge (ob_State it) s -> ob_State it' = s -> ob_ID it' = ob_ID it ->
  ob_GatewayID it' = ob_GatewayID it -> ob_Provider it' = ob_Provider it ->
  past_send (ob_State it) = false \/ ob_ClaimedBy it' = ob_ClaimedBy it -> item_step it it'.
Proof. intros H <- ??? Ho. split_and!; try done. intros Hp. destruct Ho as [Ho|Ho]; [congruence|done]. Qed.

(** The item moves to the state; what is left is the edge. *)
Ltac step_to st :=
  apply (item_step_state _ _ st); [| reflexivity .. |
    first [right; reflexivity
          | left; match goal with H : ob_State ?x = _ |- past_send (ob_State ?x) = false => rewrite H; reflexivity end]].

Lemma exec_item_step c s id it :
  wf s -> st_outbox s !! id = Some it ->
  exists it', st_outbox (exec c s) !! id = Some it' /\ item_step it it'.
Proof.
  intros Hwf Hit. assert (exists it', st_outbox s !! id = Some it' /\ item_step it it') as Hsame
    by eauto with mysmpp.
  destruct c; cbn [exec]; try exact Hsame.
  - unfold SaveMessage. cbn [fst]. by rewrite (proj1 (put_message_outbox msg s)).
  - unfold UpdateMessageSent. by case_match.
  - unfold UpdateMessageState. by case_match.
  - unfold UpdatePendingDLR, upd_pending. by case_match.
  - unfold MarkDLRReady, upd_pending. by case_match.
  - unfold MarkDLRDelivered, upd_pending. by case_match.
  - unfold GetPending. by repeat case_match.
  - unfold EnqueueOutbox. simpl. apply (wf_outbox _ Hwf) in Hit as Hb. rewrite lookup_insert_ne by lia. done.
  - unfold ClaimOutbox. cbn [fst st_set_outbox st_outbox]. rewrite claim_fold by done.
    apply fold_update_step; [|done]. intros k x Hx. apply list_elem_of_fmap in Hx as (y & [= -> ->] & Hy).
    apply claim_candidates_elem in Hy as (Hc & k & Hk). apply (wf_outbox _ Hwf) in Hk as Hid.
    destruct Hid as [-> _]. split; [done|]. unfold claimable in Hc. bool_states.
    step_to "claimed". rewrite H. edge.
  - unfold MarkOutboxSending. repeat case_match; try done. bool_states.
    eapply outbox_insert_step; [done..|]. step_to "sending".
    match goal with H : ob_State _ = "claimed" |- _ => rewrite H end. edge.
  - unfold CompleteOutboxSend. repeat case_match; try done; bool_states;
      (eapply outbox_insert_step; [done..|]); step_to "done";
      match goal with H : ob_State _ = "sending" |- _ => rewrite H end; edge.
  - unfold MarkOutboxUncertain. destruct (st_outbox s !! id0) as [x|] eqn:E; [|done].
    case_match eqn:E1; [done|]. case_match; [done|]. apply andb_false_iff in E1.
    assert (exists it', <[id0 := ob_set_LastError errMsg (ob_set_State "uncertain" x)]> (st_outbox s) !! id
       = Some it' /\ item_step it it') as G.
    { eapply outbox_insert_step; [done..|]. step_to "uncertain".
      destruct E1 as [E1|E1]; bool_states; rewrite E1; [edge|by left]. }
    by case_match.
  - unfold RequeueStaleOutbox. cbn [fst st_set_outbox st_outbox]. apply fold_update_step; [|done].
    intros k x H%elem_of_take_inv. apply list_elem_of_filter in H as [Hst H%entries_in_elem].
    split; [done|]. simpl in Hst. unfold stale in Hst. bool_states.
    unfold requeue_item. case_match; step_to "pending";
      match goal with H : ob_State _ = "claimed" |- _ => rewrite H end; edge.
  - unfold AckOutbox. repeat case_match; try done. bool_states.
    eapply outbox_insert_step; [done..|]. step_to "done".
    match goal with H : ob_State _ = "claimed" |- _ => rewrite H end. edge.
  - unfold FailOutbox. destruct (st_outbox s !! id0) as [x|] eqn:E; [|done].
    case_match; case_match eqn:E1; try done; cbn [fst st_set_outbox st_outbox];
      (eapply outbox_insert_step; [done..|]).
    + step_to "failed". simpl in E1. apply andb_false_iff in E1.
      destruct E1 as [E1|E1]; bool_states; rewrite E1; edge.
    + simpl in E1. bool_states. step_to "pending". rewrite E1. edge.
  - unfold CheckIdempotency. by repeat case_match.
  - unfold SaveIdempotency. by repeat case_match.
  - destruct (SubmitAtomic_outbox now msg item opts s) as [->|[x ->]]; [done|].
    apply (wf_outbox _ Hwf) in Hit as Hb. rewrite lookup_insert_ne by lia. done.
Qed.

Lemma edge_past a b : outbox_edge a b -> past_send a = true -> past_send b = true /\ (b = "sending" -> a = "sending").
Proof.
  unfold past_send. intros [->|H] Ha; [done|]. unfold outbox_edges in H.
  rewrite !elem_of_cons, elem_of_nil in H.
  repeat destruct H as [H|H]; try done; injection H as -> ->; done.
Qed.

(** An item past sending stays there and keeps its owner. *)
Lemma exec_all_past cs s id it :
  wf s -> st_outbox s !! id = Some it -> past_send (ob_State it) = true ->
  exists it', st_outbox (exec_all cs s) !! id = Some it' /\ past_send (ob_State it') = true
    /\ ob_ClaimedBy it' = ob_ClaimedBy it.
Proof.
  revert s it. induction cs as [|c cs IH]; intros s it Hwf Hit Hp; [by exists it|].
  destruct (exec_item_step c s id it Hwf Hit) as (it1 & Hit1 & He & _ & _ & _ & Ho).
  destruct (edge_past _ _ He Hp) as [Hp1 _]. simpl.
  destruct (IH (exec c s) it1) as (it2 & ? & ? & Ho2); [by apply wf_exec|done..|].
  exists it2. rewrite Ho2. auto.
Qed.

Lemma mark_sending_ok id w s s' :
  MarkOutboxSending id w s = (s', Ok tt) ->
  exists it, st_outbox s' !! id = Some it /\ ob_State it = "sending" /\ ob_ClaimedBy it = w.
Proof.
  unfold MarkOutboxSending. destruct (st_outbox s !! id) as [it|] eqn:E; [|done].
  destruct (_ && _) eqn:E1.
  - intros [= <-]. apply andb_true_iff in E1 as [?%bool_decide_eq_true ?%bool_decide_eq_true]. eauto.
  - destruct (_ || _) eqn:E2; [done|]. intros [= <-]. apply orb_false_iff in E2 as [_ E2].
    apply negb_false_iff, bool_decide_eq_true in E2. eexists. split; [apply lookup_insert_eq|done].
Qed.

Lemma mark_sending_owner id w s it :
  st_outbox s !! id = Some it -> ob_ClaimedBy it <> w -> exists e, MarkOutboxSending id w s = (s, Err e).
Proof.
  intros Hit Ho. unfold MarkOutboxSending. rewrite Hit, (bool_decide_false (ob_ClaimedBy it = w)) by done.
  rewrite andb_false_r, orb_true_r. eauto.
Qed.

(** How often the item [id] starts being sent along a sequence of calls. *)
Definition starts_sending (id : Z) (c : call) (s : MemoryStore) : bool :=
  match st_outbox s !! id, st_outbox (exec c s) !! id with
  | Some it, Some it' =>
    bool_decide (ob_State it' = "sending") && negb (bool_decide (ob_State it = "sending"))
  | None, Some it' => bool_decide (ob_State it' = "sending")
  | _, _ => false
  end.

Fixpoint send_count (id : Z) (cs : list call) (s : MemoryStore) : nat :=
  match cs with
  | [] => 0
  | c :: cs => (if starts_sending id c s then 1 else 0) + send_count id cs (exec c s)
  end.

Lemma send_count_past id cs s it :
  wf s -> st_outbox s !! id = Some it -> past_send (ob_State it) = true -> send_count id cs s = 0%nat.
Proof.
  revert s it. induction cs as [|c cs IH]; intros s it Hwf Hit Hp; [done|]. simpl.
  destruct (exec_item_step c s id it Hwf Hit) as (it' & Hit' & He & _).
  destruct (edge_past _ _ He Hp) as [Hp' Hs].
  rewrite (IH _ it') by (done || by apply wf_exec).
  unfold starts_sending. rewrite Hit, Hit'. case_bool_decide as E; [|done].
  by rewrite bool_decide_true by auto.
Qed.

(** C2: Along any sequence of calls of any store operations from the empty store,
    an outbox item enters the state sending at most once. *)
Theorem outbox_sent_at_most_once id cs : (send_count id cs NewMemory <= 1)%nat.
Proof.
  assert (forall s, wf s -> (send_count id cs s <= 1)%nat) as H; [|by apply H, wf_NewMemory].
  induction cs as [|c cs IH]; intros s Hwf; simpl; [lia|].
  destruct (starts_sending id c s) eqn:E; [|by apply IH, wf_exec].
  assert (exists it', st_outbox (exec c s) !! id = Some it' /\ ob_State it' = "sending") as (it' & Hit' & Hs).
  { unfold starts_sending in E. repeat case_match; bool_states; eauto; done. }
  rewrite (send_count_past id cs _ it'); [lia|by apply wf_exec|done|]. by rewrite Hs.
Qed.

(** A small store: one submitted message with its outbox item. *)
Definition demo_payload (g : string) : OutboxPayload :=
  {| op_GatewayID := g; op_TenantID := ""; op_AccountID := ""; op_ClientMsgID := ""; op_Provider := "p1";
     op_Route := "r1"; op_From := "a"; op_To := "b"; op_Text := "hi"; op_DataCoding := 0;
     op_RegisteredDelivery := 1; op_Encoding := "gsm7"; op_Meta := None; op_SourceKind := "smpp";
     op_SourceSession := "s1"; op_SourceSystem := "sys"; op_CallbackURL := ""; op_CallbackRule := "";
     op_ReceivedAt := 5; op_UDH := []; op_RawPayload := []; op_RawPayloadSet := false; op_SARRefNum := [];
     op_SARTotalSegments := []; op_SARSegmentSeqnum := []; op_SARSet := false |}.
Definition demo_item (g : string) : OutboxItem :=
  {| ob_ID := 0; ob_GatewayID := g; ob_Provider := "p1"; ob_Payload := demo_payload g; ob_State := "";
     ob_ClaimedBy := ""; ob_ClaimedAt := 0; ob_NextRetryAt := 0; ob_Attempt := 0; ob_MaxAttempts := 5;
     ob_LastError := ""; ob_CreatedAt := 0 |}.
Definition demo_opts : SubmitOptions :=
  mkSubmitOptions (mkIdempotencyOptions "c1" "k1" 0) (Some (mkDailyQuotaDebit "t1" "2024-02-29" 2 10)).
Definition demo_msg (g : string) : Message := New 5 g DirectionMT "a" "b" "hi".
Definition demo_submit : call := CSubmitAtomic 100 (demo_msg "m0000001") (demo_item "m0000001") demo_opts.
Definition demo_store : MemoryStore := exec demo_submit NewMemory.

(** Every store operation moves an outbox item along an edge of the declared
    state machine or leaves its state alone, never changes its id, gateway
    id or provider, nor its owner once the item is being sent. *)
Theorem outbox_transitions c s id it :
  wf s -> st_outbox s !! id = Some it ->
  exists it', st_outbox (exec c s) !! id = Some it' /\ item_step it it'.
Proof. apply exec_item_step. Qed.

Lemma outbox_transitions_witness :
  exists it', st_outbox (exec (CClaimOutbox 200 "worker-1" 5) demo_store) !! 1 = Some it'
    /\ outbox_edge "pending" (ob_State it').
Proof.
  destruct (st_outbox demo_store !! 1) as [it|] eqn:E; [|vm_compute in E; discriminate].
  destruct (outbox_transitions (CClaimOutbox 200 "worker-1" 5) demo_store 1 it) as (it' & H1 & H2).
  - apply wf_exec, wf_NewMemory.
  - exact E.
  - exists it'. split; [exact H1|]. destruct H2 as [H2 _].
    assert (ob_State it = "pending") as Hs; [|rewrite <- Hs; exact H2].
    vm_compute in E. injection E as <-. reflexivity.
Defined.

(** ** Claiming *)

Lemma claim_less_asym a b : claim_less a b = true -> claim_less b a = false.
Proof. unfold claim_less, Before. bdestr; lia. Qed.

Lemma claim_less_negtrans a b c :
  claim_less a b = false -> claim_less b c = false -> claim_less a c = false.
Proof. unfold claim_less, Before. bdestr; lia. Qed.

Lemma claim_ids_NoDup now limit s : wf s -> NoDup (ob_ID <$> claim_candidates now limit (st_outbox s)).
Proof.
  intros Hwf. unfold claim_candidates. rewrite fmap_take.
  set (l := sort_stable _ _). cut (NoDup (ob_ID <$> l)).
  { intros H. eapply sublist_NoDup; [exact H|]. apply sublist_take. }
  subst l. rewrite sort_stable_Permutation.
  assert (NoDup (ob_ID <$> (map_to_list (st_outbox s)).*2)) as H.
  { replace (ob_ID <$> (map_to_list (st_outbox s)).*2) with (map_to_list (st_outbox s)).*1.
    - apply NoDup_fst_map_to_list.
    - rewrite <- list_fmap_compose. apply list_fmap_ext. intros i [k it] Hi.
      apply list_elem_of_lookup_2, elem_of_map_to_list in Hi. simpl.
      by apply (wf_outbox _ Hwf) in Hi as [-> _]. }
  eapply sublist_NoDup; [exact H|]. apply fmap_sublist, sublist_filter.
Qed.

Definition claim_limit (limit : Z) : nat := Z.to_nat (if limit <=? 0 then 1 else limit).

(** What was left behind is not ahead of what was taken. *)
Lemma claim_candidates_first now limit m id it :
  m !! id = Some it -> claimable now it = true -> it ∉ claim_candidates now limit m ->
  length (claim_candidates now limit m) = claim_limit limit
  /\ Forall (fun x => claim_less it x = false) (claim_candidates now limit m).
Proof.
  intros Hid Hc Hn. unfold claim_candidates in *. set (l := sort_stable _ _) in *.
  assert (it ∈ l) as Hin.
  { subst l. rewrite sort_stable_Permutation. apply list_elem_of_filter. split; [done|].
    apply list_elem_of_fmap. exists (id, it). split; [done|]. by apply elem_of_map_to_list. }
  assert (StronglySorted (fun a b => claim_less b a = false) l) as Hs
    by (apply sort_stable_sorted; eauto using claim_less_asym, claim_less_negtrans).
  fold (claim_limit limit) in *. rewrite <- (take_drop (claim_limit limit) l) in Hin, Hs.
  apply elem_of_app in Hin as [?|Hin]; [done|]. split.
  - rewrite length_take. destruct (decide (claim_limit limit < length l)%nat); [lia|].
    rewrite drop_ge in Hin by lia. by apply elem_of_nil in Hin.
  - apply Forall_forall. intros x Hx. by eapply StronglySorted_app_1_elem_of in Hs.
Qed.

Lemma claim_taken now limit s it :
  wf s -> it ∈ claim_candidates now limit (st_outbox s) ->
  st_outbox s !! ob_ID it = Some it /\ claimable now it = true.
Proof.
  intros Hwf (Hc & k & Hk)%claim_candidates_elem. by apply (wf_outbox _ Hwf) in Hk as Hid; destruct Hid as [-> _].
Qed.

Lemma claim_lookup now w limit s id it :
  wf s -> st_outbox s !! id = Some it ->
  st_outbox (ClaimOutbox now w limit s).1 !! id
  = Some (if bool_decide (id ∈ ob_ID <$> claim_candidates now limit (st_outbox s)) then claim_item w now it else it).
Proof.
  intros Hwf Hid. unfold ClaimOutbox. cbn [fst st_set_outbox st_outbox].
  rewrite claim_fold by done. rewrite (fold_update_lookup _ _ _ id it); [|..|done].
  - by rewrite <- list_fmap_compose.
  - intros k x Hx. apply list_elem_of_fmap in Hx as (y & [= -> ->] & Hy). by eapply claim_taken.
Qed.

(** ClaimOutbox takes distinct due pending items, at most the limit, marks
    exactly those as claimed by the worker, and leaves a due item behind
    only when the limit is reached and no taken item comes after it in retry
    order. *)
Theorem claim_outbox_correct now w limit s :
  wf s ->
  let s' := (ClaimOutbox now w limit s).1 in
  let taken := claim_candidates now limit (st_outbox s) in
  (ClaimOutbox now w limit s).2 = claim_item w now <$> taken
  /\ NoDup (ob_ID <$> taken) /\ (length taken <= claim_limit limit)%nat
  /\ (forall it, it ∈ taken ->
        st_outbox s !! ob_ID it = Some it /\ claimable now it = true
        /\ st_outbox s' !! ob_ID it = Some (claim_item w now it))
  /\ (forall id it, st_outbox s !! id = Some it -> it ∉ taken ->
        st_outbox s' !! id = Some it
        /\ (claimable now it = true ->
             length taken = claim_limit limit /\ Forall (fun x => claim_less it x = false) taken)).
Proof.
  intros Hwf s' taken. pose proof (fun it => claim_taken now limit s it Hwf) as Ht.
  pose proof (fun id it => claim_lookup now w limit s id it Hwf) as Hs'. fold taken in Ht, Hs'. fold s' in Hs'.
  split_and!; [done|by apply claim_ids_NoDup| |..].
  - subst taken. unfold claim_candidates. rewrite length_take. unfold claim_limit. lia.
  - intros it Hin. destruct (Ht it Hin) as [H1 H2]. split_and!; [done..|].
    rewrite (Hs' _ _ H1), bool_decide_true; [done|]. by apply list_elem_of_fmap_2.
  - intros id it Hid Hn. split.
    + rewrite (Hs' _ _ Hid), bool_decide_false; [done|]. intros (x & -> & Hx)%list_elem_of_fmap.
      apply Hn. destruct (Ht x Hx) as [Hx' _]. congruence.
    + intros Hc. by apply (claim_candidates_first _ _ _ id).
Qed.

Lemma claim_outbox_correct_witness :
  exists it, claim_candidates 200 5 (st_outbox demo_store) = [it]
    /\ st_outbox (ClaimOutbox 200 "worker-1" 5 demo_store).1 !! 1 = Some (claim_item "worker-1" 200 it).
Proof.
  destruct (claim_outbox_correct 200 "worker-1" 5 demo_store) as (_ & _ & _ & H & _).
  - apply wf_exec, wf_NewMemory.
  - destruct (claim_candidates 200 5 (st_outbox demo_store)) as [|it [|]] eqn:E;
      [vm_compute in E; discriminate| |vm_compute in E; discriminate].
    exists it. split; [reflexivity|]. destruct (H it) as (_ & _ & H3); [constructor|].
    assert (ob_ID it = 1) as Hid; [|rewrite <- Hid; exact H3].
    vm_compute in E. injection E as <-. reflexivity.
Defined.
