(* ===== verification/StoreSubmit.v ===== *)
(** * Submissions to the store: atomicity, idempotency, quotas

    What [SubmitAtomic] promises to its callers, alone and along sequences of
    calls of any operations of the store. *)

From S2P Require Import Prelude Unicode Codec Segment Num GoTime Records Store StoreInv.

(** ** Reading back *)

Lemma get_put_message msg s :
  wf s -> 0 < st_maxMessages s -> GetMessage (msg_ID msg) (put_message msg s) = Some msg.
Proof.
  intros Hwf Hm. pose proof (wf_put_message msg s Hwf) as Hwf'. unfold GetMessage.
  assert (exists i, st_messages (put_message msg s) !! i = Some msg) as [i Hi].
  { unfold put_message. destruct (st_messageByID s !! msg_ID msg) as [idx|] eqn:E.
    - exists idx. simpl. apply list_lookup_insert_eq. apply (wf_index _ Hwf) in E.
      destruct (st_messages s !! idx) eqn:E2; [|done]. by eapply lookup_lt_Some.
    - unfold trimMessagesLocked. cbn [st_set_messages st_set_messageByID st_messages st_maxMessages].
      destruct (_ || _) eqn:Hb; simpl.
      + exists (length (st_messages s)). by rewrite lookup_app_r, Nat.sub_diag by lia.
      + apply orb_false_iff in Hb as [_ Hl]. apply Z.leb_gt in Hl. rewrite length_app in *. simpl in *.
        set (n := (length (st_messages s) + 1 - Z.to_nat (st_maxMessages s))%nat).
        exists (length (st_messages s) - n)%nat. rewrite lookup_drop.
        replace (n + (length (st_messages s) - n))%nat with (length (st_messages s)) by lia.
        by rewrite lookup_app_r, Nat.sub_diag by lia. }
  assert (st_messageByID (put_message msg s) !! msg_ID msg = Some i) as ->.
  { apply (wf_index _ Hwf'). by rewrite Hi. }
  done.
Qed.

(** A well-formed store finds exactly the messages it lists. *)
Lemma get_message_iff s k m : wf s -> GetMessage k s = Some m <-> m ∈ st_messages s /\ msg_ID m = k.
Proof.
  intros Hwf. unfold GetMessage. split.
  - intros (i & Hi & Hm)%bind_Some. apply (wf_index _ Hwf) in Hi. rewrite Hm in Hi. injection Hi as <-. split; [by eapply list_elem_of_lookup_2|done].
  - intros [[i Hi]%list_elem_of_lookup <-]. apply bind_Some. exists i. split; [|done]. apply (wf_index _ Hwf). by rewrite Hi.
Qed.

Lemma get_message_None s k : wf s -> GetMessage k s = None <-> forall m, m ∈ st_messages s -> msg_ID m <> k.
Proof.
  intros Hwf. split.
  - intros H m Hm E. assert (GetMessage k s = Some m) by by apply get_message_iff. congruence.
  - intros H. destruct (GetMessage k s) as [m|] eqn:E; [|done]. apply get_message_iff in E as [Hm Hk]; [|done]. by destruct (H m Hm).
Qed.

(** Saving a message leaves every other one where it was, but for the oldest
    when the store is full. *)
Lemma get_put_other msg s k :
  wf s -> 0 < st_maxMessages s -> k <> msg_ID msg ->
  GetMessage k (put_message msg s) = GetMessage k s
  \/ (msg_ID <$> head (st_messages s) = Some k /\ Z.of_nat (length (st_messages s)) = st_maxMessages s).
Proof.
  intros Hwf Hmax Hk. pose proof (wf_put_message msg s Hwf) as Hwf'.
  enough ((forall m, msg_ID m = k -> m ∈ st_messages (put_message msg s) <-> m ∈ st_messages s)
    \/ (msg_ID <$> head (st_messages s) = Some k /\ Z.of_nat (length (st_messages s)) = st_maxMessages s)) as [H|H]; [left|by right|].
  { apply option_eq. intros m. rewrite !get_message_iff by done. split; intros [Hm E]; by split; [apply H|]. }
  unfold put_message in *. destruct (st_messageByID s !! msg_ID msg) as [i|] eqn:E.
  - left. intros m Hm. cbn [st_messages st_set_messages]. apply (wf_index _ Hwf) in E. apply fmap_Some in E as (old & Hi & Eold).
    pose proof (lookup_lt_Some _ _ _ Hi) as Hlt. rewrite !list_elem_of_lookup. split; intros [j Hj]; exists j.
    + destruct (decide (i = j)) as [<-|Hne]; [|by rewrite list_lookup_insert_ne in Hj]. rewrite list_lookup_insert_eq in Hj by done. congruence.
    + rewrite list_lookup_insert_ne; [done|]. intros <-. congruence.
  - unfold trimMessagesLocked. cbn [st_set_messages st_set_messageByID st_messages st_maxMessages]. rewrite (proj2 (Z.leb_gt _ _)) by lia. cbn [orb].
    destruct (Z.leb_spec (Z.of_nat (length (st_messages s ++ [msg]))) (st_maxMessages s)) as [Hl|Hl].
    + left. intros m Hm. cbn. rewrite elem_of_app, list_elem_of_singleton. split; [|by left]. intros [?| ->]; [done|congruence].
    + rewrite length_app in Hl. cbn in Hl. pose proof (wf_bound _ Hwf Hmax) as Hb. destruct (st_messages s) as [|m0 l] eqn:El; [cbn in *; lia|].
      destruct (decide (msg_ID m0 = k)) as [Ek|Ek]; [right; cbn in *; split; [by rewrite Ek|lia]|left].
      intros m Hm. cbn [st_messages st_set_messages st_set_messageByID]. rewrite length_app. cbn [length] in *.
      replace (S (length l) + 1 - Z.to_nat (st_maxMessages s))%nat with 1%nat by lia. change (drop 1 ((m0 :: l) ++ [msg])) with (l ++ [msg]).
      rewrite elem_of_app, list_elem_of_singleton, elem_of_cons. naive_solver.
Qed.

Definition submit_keyed (opts : SubmitOptions) : bool :=
  negb (bool_decide (io_ClientID (so_Idempotency opts) = ""))
  && negb (bool_decide (io_Key (so_Idempotency opts) = "")).

Definition submit_key (opts : SubmitOptions) : string * string :=
  (io_ClientID (so_Idempotency opts), io_Key (so_Idempotency opts)).

(** The live record of the key, after the sweep. *)
Definition live_key (now : time) (opts : SubmitOptions) (s : MemoryStore) : option string :=
  if submit_keyed opts then
    match st_idempotency (sweepLocked now s) !! submit_key opts with
    | Some rec => if After (ir_expiresAt rec) now then Some (ir_gatewayID rec) else None
    | None => None
    end
  else None.

(** The new key of an accepted submission. *)
Definition record_key (now : time) (msg : Message) (opts : SubmitOptions) (s : MemoryStore) : MemoryStore :=
  if submit_keyed opts then
    st_set_idempotency
      (<[submit_key opts := mkIdempotencyRecord (msg_ID msg) (now + idem_ttl (io_TTL (so_Idempotency opts)))]>
         (st_idempotency s)) s
  else s.

(** The three outcomes of a submission. *)
Lemma SubmitAtomic_cases now msg item opts s :
  SubmitAtomic now msg item opts s =
  match live_key now opts s with
  | Some g => (sweepLocked now s, Ok (mkSubmitResult 0 g true))
  | None =>
    match debit_quota (so_Quota opts) (sweepLocked now s) with
    | Err e => (sweepLocked now s, Err e)
    | Ok s2 =>
      ((put_outbox now now item (put_message msg (record_key now msg opts s2))).1,
       Ok (mkSubmitResult (st_nextOutbox s + 1) (msg_ID msg) false))
    end
  end.
Proof.
  unfold SubmitAtomic, live_key, submit_keyed, submit_key, record_key. case_match eqn:E; [done|].
  destruct (debit_quota _ _) as [s2|] eqn:Hd; [|done]. apply debit_quota_outbox in Hd as [_ Hn].
  unfold put_outbox. cbn [fst]. do 3 f_equal.
  rewrite (proj2 (put_message_outbox _ _)). simpl in Hn. rewrite <- Hn. by case_match.
Qed.

Lemma debit_quota_fields q s s' :
  debit_quota q s = Ok s' ->
  st_messages s' = st_messages s /\ st_messageByID s' = st_messageByID s /\ st_pending s' = st_pending s
  /\ st_outbox s' = st_outbox s /\ st_idempotency s' = st_idempotency s
  /\ st_maxMessages s' = st_maxMessages s /\ st_nextOutbox s' = st_nextOutbox s
  /\ st_gatewaySeq s' = st_gatewaySeq s.
Proof.
  unfold debit_quota. intros E. destruct q as [q|]; [|by simplify_eq].
  case_match; [by simplify_eq|]. destruct (validateDailyQuotaDebit q); [|done].
  csimpl in E. case_match; by simplify_eq.
Qed.

Lemma record_key_wf now msg opts s : wf s -> wf (record_key now msg opts s).
Proof. intros. unfold record_key. case_match; auto with mysmpp. Qed.

Lemma SubmitAtomic_visible now msg item opts s s' r :
  wf s -> 0 < st_maxMessages s ->
  SubmitAtomic now msg item opts s = (s', Ok r) -> sr_duplicate r = false ->
  sr_gatewayID r = msg_ID msg
  /\ GetMessage (msg_ID msg) s' = Some msg
  /\ st_outbox s !! sr_outboxID r = None
  /\ st_outbox s' = <[sr_outboxID r := outbox_defaults (sr_outboxID r) now now item]> (st_outbox s).
Proof.
  intros Hwf Hm. rewrite SubmitAtomic_cases. destruct (live_key now opts s); [by intros [= <- <-]|].
  pose proof (wf_sweepLocked now s Hwf) as Hsw.
  destruct (debit_quota _ _) as [s2|] eqn:Hd; [|done]. intros [= <- <-] _. simpl.
  pose proof (debit_quota_wf _ _ _ Hsw Hd) as Hw2.
  apply debit_quota_fields in Hd as (_ & _ & _ & Ho & _ & Hmax & Hn & _). simpl in Ho, Hmax, Hn.
  pose proof (record_key_wf now msg opts s2 Hw2) as Hw3.
  assert (st_outbox (record_key now msg opts s2) = st_outbox s /\ st_maxMessages (record_key now msg opts s2)
    = st_maxMessages s /\ st_nextOutbox (record_key now msg opts s2) = st_nextOutbox s) as (E1 & E2 & E3)
    by (unfold record_key; by case_match).
  split_and!; [done| | |].
  - transitivity (GetMessage (msg_ID msg) (put_message msg (record_key now msg opts s2))); [done|].
    apply get_put_message; [done|lia].
  - destruct (st_outbox s !! (st_nextOutbox s + 1)) eqn:E; [|done].
    apply (wf_outbox _ Hwf) in E. lia.
  - destruct (put_message_outbox msg (record_key now msg opts s2)) as [-> ->]. by rewrite E1, E3.
Qed.

(** An accepted submission returns the message's own id, is read back by
    GetMessage, and adds exactly one outbox item under a fresh id. *)
Theorem submit_visible now msg item opts s s' r :
  wf s -> 0 < st_maxMessages s ->
  SubmitAtomic now msg item opts s = (s', Ok r) -> sr_duplicate r = false ->
  sr_gatewayID r = msg_ID msg
  /\ GetMessage (msg_ID msg) s' = Some msg
  /\ st_outbox s !! sr_outboxID r = None
  /\ st_outbox s' = <[sr_outboxID r := outbox_defaults (sr_outboxID r) now now item]> (st_outbox s).
Proof. apply SubmitAtomic_visible. Qed.

Lemma submit_visible_witness : GetMessage "m0000001" demo_store = Some (demo_msg "m0000001").
Proof.
  apply (submit_visible 100 (demo_msg "m0000001") (demo_item "m0000001") demo_opts NewMemory demo_store
    (mkSubmitResult 1 "m0000001" false)).
  - apply wf_NewMemory.
  - reflexivity.
  - vm_compute. reflexivity.
  - reflexivity.
Defined.

(** ** Idempotency keys *)

(** The latest clock reading a call takes. *)
Definition call_clock (c : call) : option time :=
  match c with
  | CSavePending now _ | CListReadyDLR now _ _ | CGetPending now _ _ | CListPendingByGatewayID now _
  | CPendingSize now | CCheckIdempotency now _ _ | CSubmitAtomic now _ _ _ => Some now
  | CSaveIdempotency now1 _ _ _ _ _ => Some now1
  | _ => None
  end.

(** The call happens before [t] and does not overwrite the key by hand. *)
Definition call_before (t : time) (k : string * string) (c : call) : Prop :=
  (forall now, call_clock c = Some now -> now < t)
  /\ match c with CSaveIdempotency _ _ cl key _ _ => (cl, key) <> k | _ => True end.

Lemma sweep_keeps_key now k rec s :
  st_idempotency s !! k = Some rec -> now < ir_expiresAt rec ->
  st_idempotency (sweepLocked now s) !! k = Some rec.
Proof.
  intros Hk Ht. simpl. apply map_lookup_filter_Some_2; [done|]. simpl. unfold idem_expired, Before.
  destruct (Z.ltb_spec (ir_expiresAt rec) now); [lia|]. by rewrite andb_false_r.
Qed.

Lemma put_message_idempotency msg s : st_idempotency (put_message msg s) = st_idempotency s.
Proof. unfold put_message, trimMessagesLocked. by repeat case_match. Qed.

Lemma submit_live now msg item opts s rec :
  submit_keyed opts = true -> st_idempotency s !! submit_key opts = Some rec -> now < ir_expiresAt rec ->
  SubmitAtomic now msg item opts s = (sweepLocked now s, Ok (mkSubmitResult 0 (ir_gatewayID rec) true)).
Proof.
  intros Hkd Hk Ht. rewrite SubmitAtomic_cases. unfold live_key. rewrite Hkd.
  rewrite (sweep_keeps_key now _ _ _ Hk Ht). unfold After.
  by destruct (Z.ltb_spec now (ir_expiresAt rec)); [|lia].
Qed.

Lemma key_survives c k rec s :
  st_idempotency s !! k = Some rec -> call_before (ir_expiresAt rec) k c ->
  st_idempotency (exec c s) !! k = Some rec.
Proof.
  intros Hk [Hclk Hsave].
  assert (forall now, call_clock c = Some now -> st_idempotency (sweepLocked now s) !! k = Some rec) as Hsw.
  { intros now E. by apply sweep_keeps_key, Hclk. }
  destruct c; cbn [exec]; try done; try (by apply Hsw).
  all: try (by exec_frame).
  - unfold GetPending. repeat case_match; by apply (Hsw now).
  - unfold CheckIdempotency. repeat case_match; try done; try (by apply (Hsw now)). cbn [fst st_set_idempotency st_idempotency].
    destruct (decide ((clientID, key) = k)) as [<-|Hne]; [|by rewrite lookup_delete_ne; [apply (Hsw now)|]].
    specialize (Hsw now eq_refl). specialize (Hclk now eq_refl). unfold Before in *.
    rewrite Hsw in *. simplify_eq. lia.
  - unfold SaveIdempotency. repeat case_match; try done. cbn [fst st_set_idempotency st_idempotency].
    rewrite lookup_insert_ne by done. by apply (Hsw now1).
  - specialize (Hsw now eq_refl). specialize (Hclk now eq_refl). destruct (submit_keyed opts) eqn:Hkd.
    + destruct (decide (submit_key opts = k)) as [<-|Hne]; [by erewrite submit_live by done|].
      rewrite SubmitAtomic_cases. case_match; [done|]. destruct (debit_quota _ _) as [s2|] eqn:Hd; [|done].
      cbn [fst put_outbox st_set_outbox st_set_nextOutbox st_idempotency].
      rewrite put_message_idempotency. unfold record_key. rewrite Hkd. simpl.
      rewrite lookup_insert_ne by done. apply debit_quota_fields in Hd as (_ & _ & _ & _ & -> & _). done.
    + rewrite SubmitAtomic_cases. case_match; [done|]. destruct (debit_quota _ _) as [s2|] eqn:Hd; [|done].
      cbn [fst put_outbox st_set_outbox st_set_nextOutbox st_idempotency].
      rewrite put_message_idempotency. unfold record_key. rewrite Hkd.
      apply debit_quota_fields in Hd as (_ & _ & _ & _ & -> & _). done.
Qed.

(** C3: After an accepted keyed submission, any sequence of store calls made
    before the key expires, in which SaveIdempotency is not called for that
    client and key (the gateway never calls it; it would overwrite the
    record), leaves a resubmission under that key answered as a duplicate with
    the first gateway id, changing nothing but the sweep. *)
Theorem submit_idempotent now msg item opts s s1 r cs now' msg' item' opts' :
  SubmitAtomic now msg item opts s = (s1, Ok r) -> sr_duplicate r = false ->
  submit_keyed opts = true -> so_Idempotency opts' = so_Idempotency opts ->
  let t := now + idem_ttl (io_TTL (so_Idempotency opts)) in
  Forall (call_before t (submit_key opts)) cs -> now' < t ->
  let s2 := exec_all cs s1 in
  SubmitAtomic now' msg' item' opts' s2
  = (sweepLocked now' s2, Ok (mkSubmitResult 0 (msg_ID msg) true)).
Proof.
  intros Hs Hdup Hkd Hio t Hcs Hnow s2.
  assert (st_idempotency s1 !! submit_key opts = Some (mkIdempotencyRecord (msg_ID msg) t)) as H1.
  { rewrite SubmitAtomic_cases in Hs. destruct (live_key now opts s); [by simplify_eq|].
    destruct (debit_quota _ _) as [s3|]; [|done]. simplify_eq.
    cbn [fst put_outbox st_set_outbox st_set_nextOutbox st_idempotency].
    rewrite put_message_idempotency. unfold record_key. rewrite Hkd. simpl. by rewrite lookup_insert_eq. }
  assert (st_idempotency s2 !! submit_key opts = Some (mkIdempotencyRecord (msg_ID msg) t)) as H2.
  { subst s2. clear Hs. revert s1 H1. induction Hcs as [|c cs Hc _ IH]; intros s1 H1; [done|].
    simpl. apply IH. by apply key_survives. }
  unfold submit_keyed, submit_key in *. rewrite <- Hio in *.
  by apply (submit_live now' msg' item' opts' s2 _ Hkd H2).
Qed.

Lemma submit_idempotent_witness :
  (SubmitAtomic 500 (demo_msg "m0000002") (demo_item "m0000002") demo_opts
     (exec (CClaimOutbox 200 "worker-1" 5) demo_store)).2
  = Ok (mkSubmitResult 0 "m0000001" true).
Proof.
  pose proof (submit_idempotent 100 (demo_msg "m0000001") (demo_item "m0000001") demo_opts NewMemory demo_store
    (mkSubmitResult 1 "m0000001" false) [CClaimOutbox 200 "worker-1" 5] 500 (demo_msg "m0000002")
    (demo_item "m0000002") demo_opts) as H.
  cbn zeta in H. change (exec (CClaimOutbox 200 "worker-1" 5) demo_store)
    with (exec_all [CClaimOutbox 200 "worker-1" 5] demo_store). rewrite H; [reflexivity|..].
  - vm_compute. reflexivity.
  - reflexivity.
  - vm_compute. reflexivity.
  - reflexivity.
  - repeat constructor. discriminate.
  - vm_compute. reflexivity.
Defined.

(** ** Daily quotas *)

(** What a call debits from the quota [k]: the segments of an accepted
    submission that carries a limit. *)
Definition debit_of (k : string * string) (c : call) (s : MemoryStore) : Z :=
  match c with
  | CSubmitAtomic now msg item opts =>
    match (SubmitAtomic now msg item opts s).2, so_Quota opts with
    | Ok r, Some q =>
      if negb (sr_duplicate r) && (0 <? qd_Limit q) && bool_decide ((qd_TenantID q, qd_Date q) = k)
      then qd_Segments q else 0
    | _, _ => 0
    end
  | _ => 0
  end.

Fixpoint debits (k : string * string) (cs : list call) (s : MemoryStore) : Z :=
  match cs with
  | [] => 0
  | c :: cs => debit_of k c s + debits k cs (exec c s)
  end.

(** Limits on the quota [k] that submissions carry are at most [L]. *)
Definition limit_at_most (L : Z) (k : string * string) (c : call) : Prop :=
  match c with
  | CSubmitAtomic _ _ _ opts =>
    match so_Quota opts with
    | Some q => (qd_TenantID q, qd_Date q) = k -> qd_Limit q <= L
    | None => True
    end
  | _ => True
  end.

Lemma debit_quota_used q s s' k :
  debit_quota q s = Ok s' ->
  quota_used s' k.1 k.2 = quota_used s k.1 k.2 +
    match q with
    | Some q => if (0 <? qd_Limit q) && bool_decide ((qd_TenantID q, qd_Date q) = k) then qd_Segments q else 0
    | None => 0
    end
  /\ match q with
     | Some q => 0 < qd_Limit q -> (qd_TenantID q, qd_Date q) = k ->
         0 < qd_Segments q /\ quota_used s' k.1 k.2 <= qd_Limit q
     | None => True
     end.
Proof.
  unfold debit_quota. destruct q as [q|]; [|intros [= <-]; split; [lia|done]].
  destruct (Z.leb_spec (qd_Limit q) 0).
  { intros [= <-]. destruct (Z.ltb_spec 0 (qd_Limit q)); [lia|]. simpl. split; lia. }
  unfold validateDailyQuotaDebit. destruct (bool_decide _); [done|].
  destruct (Z.leb_spec (qd_Segments q) 0); [done|]. destruct (Z.leb_spec (qd_Limit q) 0); [lia|].
  destruct (valid_date _); [|done]. csimpl. destruct (Z.ltb_spec (qd_Limit q) (qd_Segments q)); [done|].
  case_match eqn:E; [done|]. apply Z.ltb_ge in E. intros [= <-]. destruct (Z.ltb_spec 0 (qd_Limit q)); [|lia].
  unfold quota_used in *. simpl. case_bool_decide as Hk; simpl.
  - subst k. simpl. rewrite lookup_insert_eq. simpl. split; lia.
  - destruct k as [kt kd]. simpl in *. rewrite lookup_insert_ne by done. split; [lia|done].
Qed.

Lemma exec_quota c s :
  (forall now msg item opts, c <> CSubmitAtomic now msg item opts) -> st_quotaUsage (exec c s) = st_quotaUsage s.
Proof.
  intros Hc. destruct c; cbn [exec]; try done; try (by exec_frame). by edestruct Hc.
Qed.

Lemma put_message_quota msg s : st_quotaUsage (put_message msg s) = st_quotaUsage s.
Proof. unfold put_message, trimMessagesLocked. by repeat case_match. Qed.

Lemma exec_quota_used c s k :
  quota_used (exec c s) k.1 k.2 = quota_used s k.1 k.2 + debit_of k c s
  /\ forall L, limit_at_most L k c -> quota_used s k.1 k.2 <= L -> quota_used (exec c s) k.1 k.2 <= L.
Proof.
  assert ((exists now msg item opts, c = CSubmitAtomic now msg item opts)
    \/ forall now msg item opts, c <> CSubmitAtomic now msg item opts) as [(now & msg & item & opts & ->)|Hc].
  { destruct c; eauto 6; right; done. }
  2: { unfold quota_used. rewrite (exec_quota c s Hc). destruct c; simpl; split; intros; try lia. by edestruct Hc. }
  cbn [exec debit_of limit_at_most]. rewrite SubmitAtomic_cases.
  assert (quota_used (sweepLocked now s) k.1 k.2 = quota_used s k.1 k.2) as Es by done.
  destruct (live_key now opts s); [cbn [fst snd]; rewrite Es; destruct (so_Quota opts); simpl; split; intros; lia|].
  destruct (debit_quota _ _) as [s2|] eqn:Hd; cbn [fst snd]; [|rewrite Es; split; intros; lia].
  apply (debit_quota_used _ _ _ k) in Hd as [H1 H2]. rewrite Es in H1. set (s3 := (put_outbox _ _ _ _).1).
  assert (quota_used s3 k.1 k.2 = quota_used s2 k.1 k.2) as ->.
  { subst s3. unfold quota_used. simpl. rewrite put_message_quota. unfold record_key. by destruct (submit_keyed opts). }
  split; [rewrite H1; by destruct (so_Quota opts)|]. intros L HL Hu. destruct (so_Quota opts) as [q|]; [|lia].
  destruct (Z.ltb_spec 0 (qd_Limit q)), (bool_decide_reflect ((qd_TenantID q, qd_Date q) = k)); simpl in H1; try lia.
Qed.

(** C4: Along any sequence of store calls the usage recorded for a tenant and date
    is the sum of the segments of accepted submissions and never exceeds the
    largest limit they carried. *)
Theorem quota_accounting L k cs :
  0 <= L -> Forall (limit_at_most L k) cs ->
  quota_used (exec_all cs NewMemory) k.1 k.2 = debits k cs NewMemory
  /\ debits k cs NewMemory <= L.
Proof.
  intros HL Hcs. assert (forall s, quota_used s k.1 k.2 <= L ->
    quota_used (exec_all cs s) k.1 k.2 = quota_used s k.1 k.2 + debits k cs s
    /\ quota_used (exec_all cs s) k.1 k.2 <= L) as H.
  { induction Hcs as [|c cs Hc _ IH]; intros s Hs; simpl; [lia|].
    destruct (exec_quota_used c s k) as [E1 E2]. destruct (IH (exec c s)) as [E3 E4]; [by apply E2|].
    simpl in *. lia. }
  assert (quota_used NewMemory k.1 k.2 = 0) as E0 by done. destruct (H NewMemory) as [E1 E2]; lia.
Qed.

Lemma quota_accounting_witness : quota_used (exec_all [demo_submit] NewMemory) "t1" "2024-02-29" = 2.
Proof.
  destruct (quota_accounting 10 ("t1", "2024-02-29") [demo_submit]) as [H _].
  - lia.
  - repeat constructor. simpl. lia.
  - etrans; [exact H|]. vm_compute. reflexivity.
Defined.
