(* ===== verification/GatewayId.v ===== *)
(** * Gateway message ids: internal/dispatch/idalloc.go, dispatcher.go (newGatewayID), store/id.go

    Each dispatcher instance hands out ids from blocks it reserves in the
    shared store. Ids are never handed out twice, across instances and whatever
    other operations the store serves in between; the printed id is read back
    to its number by the store. *)

From S2P Require Import Prelude Unicode Codec Segment Num GoTime Records Store StoreInv StoreSubmit.

Record idAllocator := mkIdAllocator {
  ia_next : Z;
  ia_end : Z;
  ia_span : Z }.

Definition newIDAllocator (span : Z) : idAllocator :=
  mkIdAllocator 0 0 (if span =? 0 then 1000 else span).

(** [idAllocator.Next] on the shared store. *)
Definition Next (a : idAllocator) (s : MemoryStore) : Z * idAllocator * MemoryStore :=
  let '(next, last, s) :=
    if (ia_next a =? 0) || (ia_end a <? ia_next a) then
      let '(s, (start, last)) := ReserveGatewayIDRange (ia_span a) s in (start, last, s)
    else (ia_next a, ia_end a, s) in
  (next, mkIdAllocator (u64 (next + 1)) last (ia_span a), s).

(** The text of an id: ["m%07s"] pads with zeros. *)
Definition gateway_id (n : Z) : res string string :=
  let encoded := FormatUint n 36 in
  if (7 <? slen encoded)%nat then Err "gateway id sequence exhausted"
  else Ok ("m" +:+ pad0 7 encoded).

Definition newGatewayID (a : idAllocator) (s : MemoryStore) : res string string * idAllocator * MemoryStore :=
  let '(n, a, s) := Next a s in (gateway_id n, a, s).

(** [store.parseGatewaySeq]. *)
Definition parseGatewaySeq (id : string) : option Z :=
  if (slen id <? 2)%nat then None
  else
    match id with
    | String "g"%char rest => match ParseUint rest 10 with Ok n => Some n | Err _ => None end
    | String "m"%char rest => match ParseUint rest 36 with Ok n => Some n | Err _ => None end
    | _ => None
    end.

(** ** Ids as text *)

Lemma gateway_id_short n id : 0 <= n <= maxUint64 -> gateway_id n = Ok id ->
  id = "m" +:+ pad0 7 (FormatUint n 36) /\ slen id = 8%nat.
Proof.
  unfold gateway_id. intros Hn. destruct (Nat.ltb_spec 7 (slen (FormatUint n 36))); [done|].
  intros [= <-]. split; [done|]. rewrite slen_app, slen_pad0. change (slen "m") with 1%nat. lia.
Qed.

Lemma parse_gateway_id n id :
  0 <= n <= maxUint64 -> gateway_id n = Ok id -> parseGatewaySeq id = Some n.
Proof.
  intros Hn H. destruct (gateway_id_short n id Hn H) as [-> Hl]. unfold parseGatewaySeq. rewrite Hl.
  change ("m" +:+ pad0 7 (FormatUint n 36)) with (String "m"%char (pad0 7 (FormatUint n 36))).
  cbn match. change (8 <? 2)%nat with false. cbn match. by rewrite ParseUint_pad0 by lia.
Qed.

Lemma gateway_id_inj n m id :
  0 <= n <= maxUint64 -> 0 <= m <= maxUint64 -> gateway_id n = Ok id -> gateway_id m = Ok id -> n = m.
Proof.
  intros Hn Hm H1 H2. apply parse_gateway_id in H1, H2; [|done..]. congruence.
Qed.

(** ** Instances sharing a store *)

Record cluster := mkCluster {
  cl_allocs : list idAllocator;
  cl_store : MemoryStore;
  cl_issued : list Z }.

(** An event: instance [i] takes the next id, or any other store operation. *)
Inductive id_event :=
| Take (i : nat)
| Other (c : call).

Definition is_reserve (c : call) : bool :=
  match c with CReserveGatewayIDRange _ => true | _ => false end.

Definition cl_step (e : id_event) (cl : cluster) : cluster :=
  match e with
  | Take i =>
    match cl_allocs cl !! i with
    | None => cl
    | Some a =>
      let '(n, a, s) := Next a (cl_store cl) in
      mkCluster (<[i := a]> (cl_allocs cl)) s (n :: cl_issued cl)
    end
  | Other c => mkCluster (cl_allocs cl) (exec c (cl_store cl)) (cl_issued cl)
  end.

Definition cl_run (es : list id_event) (cl : cluster) : cluster := foldl (flip cl_step) cl es.

Lemma exec_gatewaySeq c s : is_reserve c = false -> st_gatewaySeq (exec c s) = st_gatewaySeq s.
Proof.
  destruct c; cbn [exec is_reserve]; intros Hc; try done; try (by exec_frame).
  rewrite SubmitAtomic_cases. case_match; [done|].
  destruct (debit_quota _ _) as [s2|] eqn:Hd; [|done].
  apply debit_quota_fields in Hd as (_ & _ & _ & _ & _ & _ & _ & Hg). simpl in Hg.
  transitivity (st_gatewaySeq (record_key now msg opts s2)); [|rewrite <- Hg; unfold record_key; by case_match].
  cbn. generalize (record_key now msg opts s2). intros s3.
  unfold put_message, trimMessagesLocked. by repeat case_match.
Qed.

(** The numbers an allocator still holds. *)
Definition holds (a : idAllocator) (x : Z) : Prop := ia_next a <> 0 /\ ia_next a <= x <= ia_end a.

Definition alloc_ok (K seq : Z) (a : idAllocator) : Prop :=
  0 <= ia_next a /\ 0 < ia_span a <= K /\ ia_end a <= seq.

Record ids_ok (K : Z) (cl : cluster) : Prop := mk_ids_ok {
  io_seq : 0 <= st_gatewaySeq (cl_store cl);
  io_below : Forall (alloc_ok K (st_gatewaySeq (cl_store cl))) (cl_allocs cl);
  io_apart : forall i j a b x, cl_allocs cl !! i = Some a -> cl_allocs cl !! j = Some b ->
    holds a x -> holds b x -> i = j;
  io_issued : Forall (fun x => 1 <= x <= st_gatewaySeq (cl_store cl)) (cl_issued cl);
  io_used : forall i a x, cl_allocs cl !! i = Some a -> x ∈ cl_issued cl -> ~ holds a x;
  io_nodup : NoDup (cl_issued cl) }.

(** The number the next id has, and the range kept afterwards. *)
Lemma Next_cases a s K :
  alloc_ok K (st_gatewaySeq s) a -> 0 <= st_gatewaySeq s -> st_gatewaySeq s + K < maxUint64 ->
  exists n a' s', Next a s = (n, a', s') /\ alloc_ok K (st_gatewaySeq s') a'
    /\ st_gatewaySeq s <= st_gatewaySeq s' <= st_gatewaySeq s + K
    /\ 1 <= n <= st_gatewaySeq s' /\ (forall x, holds a' x -> n < x)
    /\ ((st_gatewaySeq s < n /\ forall x, holds a' x -> st_gatewaySeq s < x)
        \/ (holds a n /\ forall x, holds a' x -> holds a x)).
Proof.
  intros (Hn & Hs & He) Hq Hk. unfold Next, ReserveGatewayIDRange, maxUint64 in *.
  assert (forall z, 0 <= z <= st_gatewaySeq s + K -> u64 (z + 1) = z + 1) as Hu
    by (intros z Hz; unfold u64; rewrite Z.mod_small; lia).
  destruct (Z.eqb_spec (ia_next a) 0), (Z.ltb_spec (ia_end a) (ia_next a)); cbn [orb];
    try (destruct (Z.eqb_spec (ia_span a) 0); [lia|];
      assert (u64 (st_gatewaySeq s + ia_span a) = st_gatewaySeq s + ia_span a) as Hu2
        by (unfold u64; rewrite Z.mod_small; lia);
      rewrite Hu2, !Hu by lia; do 3 eexists; split; [reflexivity|];
      unfold alloc_ok, holds; cbn; split; [lia|]; split; [lia|]; split; [lia|];
      split; [intros; lia|]; left; split; [lia|intros; lia]).
  rewrite Hu by lia. do 3 eexists. split; [reflexivity|]. unfold alloc_ok, holds; cbn.
  split; [lia|]. split; [lia|]. split; [lia|]. split; [intros; lia|]. right. split; [lia|intros; lia].
Qed.

Lemma ids_ok_step K e cl :
  ids_ok K cl -> st_gatewaySeq (cl_store cl) + K < maxUint64 ->
  match e with Other c => is_reserve c = false | Take _ => True end -> 0 <= K ->
  ids_ok K (cl_step e cl)
  /\ st_gatewaySeq (cl_store (cl_step e cl)) <= st_gatewaySeq (cl_store cl) + K.
Proof.
  intros [Hq Hb Ha Hi Hu Hnd] Hk He HK. destruct e as [i|c]; cbn [cl_step].
  2: { pose proof (exec_gatewaySeq c (cl_store cl) He) as E.
       split; [split; cbn; rewrite ?E; done|cbn; lia]. }
  destruct (cl_allocs cl !! i) as [a|] eqn:E; [|split; [by split|lia]].
  pose proof (Forall_lookup_1 _ _ _ _ Hb E) as Hok.
  destruct (Next_cases a (cl_store cl) K Hok Hq Hk) as (n & a' & s' & -> & Hok' & Hs' & Hn & Hlt & Hcase).
  rewrite Forall_forall in Hi.
  assert (forall x, x ∈ cl_issued cl -> ~ holds a' x) as Hu'.
  { intros x Hx Hh. destruct Hcase as [[_ Hc]|[_ Hc]]; specialize (Hc x Hh).
    - specialize (Hi x Hx). lia.
    - by apply (Hu i a x). }
  assert (forall j b, cl_allocs cl !! j = Some b -> j <> i -> ~ holds b n /\ forall x, holds a' x -> ~ holds b x) as Hother.
  { intros j b Hj Hne. pose proof (Forall_lookup_1 _ _ _ _ Hb Hj) as (_ & _ & Hend).
    destruct Hcase as [[Hc1 Hc2]|[Hc1 Hc2]]; split.
    - unfold holds. lia.
    - intros x Hx%Hc2. unfold holds. lia.
    - intros Hh. by apply Hne, (Ha j i b a n).
    - intros x Hx%Hc2 Hh. by apply Hne, (Ha j i b a x). }
  split; [|cbn; lia]. split; cbn.
  - lia.
  - apply Forall_insert; [|done]. eapply Forall_impl; [exact Hb|]. unfold alloc_ok. intros; lia.
  - intros j k b c x Hj Hk' Hbx Hcx.
    destruct (decide (j = i)) as [->|Hji], (decide (k = i)) as [->|Hki]; [done|..];
      rewrite ?list_lookup_insert_eq in * by (by eapply lookup_lt_Some);
      rewrite ?list_lookup_insert_ne in * by done; simplify_eq.
    + exfalso. by apply (proj2 (Hother k c Hk' Hki) x).
    + exfalso. by apply (proj2 (Hother j b Hj Hji) x).
    + by apply (Ha j k b c x).
  - constructor; [lia|]. apply Forall_forall. intros x Hx. specialize (Hi x Hx). lia.
  - intros j b x Hj Hx. destruct (decide (j = i)) as [->|Hji].
    + rewrite list_lookup_insert_eq in Hj by (by eapply lookup_lt_Some). simplify_eq.
      apply elem_of_cons in Hx as [->|Hx]; [intros Hh; specialize (Hlt _ Hh); lia|by apply Hu'].
    + rewrite list_lookup_insert_ne in Hj by done. apply elem_of_cons in Hx as [->|Hx]; [by apply (proj1 (Hother j b Hj Hji))|by apply (Hu j b)].
  - constructor; [|done]. intros Hin. destruct Hcase as [[Hc _]|[Hc _]].
    + specialize (Hi n Hin). lia.
    + by apply (Hu i a n).
Qed.

Lemma ids_ok_run K es cl :
  ids_ok K cl -> 0 <= K -> st_gatewaySeq (cl_store cl) + K * Z.of_nat (S (length es)) < maxUint64 ->
  Forall (fun e => match e with Other c => is_reserve c = false | Take _ => True end) es ->
  ids_ok K (cl_run es cl) /\ st_gatewaySeq (cl_store (cl_run es cl)) <= maxUint64.
Proof.
  intros Hok HK. revert cl Hok. induction es as [|e es IH]; intros cl Hok Hb Hes; simpl.
  { simpl in Hb. split; [done|]. lia. }
  apply Forall_cons in Hes as [He Hes]. simpl length in Hb.
  destruct (ids_ok_step K e cl Hok) as [Hok' Hle]; [nia|done|done|].
  apply IH; [done| |done]. unfold flip. nia.
Qed.

(** Fresh instances on a fresh store. *)
Definition new_cluster (spans : list Z) : cluster :=
  mkCluster (newIDAllocator <$> spans) NewMemory [].

Lemma ids_ok_new K spans :
  Forall (fun sp => 0 <= sp <= K) spans -> 1000 <= K -> ids_ok K (new_cluster spans).
Proof.
  intros Hs HK. split; cbn; try done.
  - apply Forall_fmap. eapply Forall_impl; [exact Hs|]. intros sp Hsp. unfold alloc_ok, newIDAllocator. cbn.
    simpl in Hsp. destruct (Z.eqb_spec sp 0); lia.
  - intros i j a b x Hi _ Hh _. rewrite list_lookup_fmap in Hi. apply fmap_Some in Hi as (sp & _ & ->).
    by destruct Hh.
  - intros i a x _ Hx. by apply elem_of_nil in Hx.
  - constructor.
Qed.

(** The printed ids of the numbers taken so far. *)
Definition issued_ids (cl : cluster) : list string :=
  omap (fun n => match gateway_id n with Ok id => Some id | Err _ => None end) (cl_issued cl).

(** C33: Across any number of dispatcher instances on one store and any
    interleaving of allocations with store calls, no gateway id is issued
    twice. *)
Theorem gateway_ids_unique K spans es :
  Forall (fun sp => 0 <= sp <= K) spans -> 1000 <= K ->
  Forall (fun e => match e with Other c => is_reserve c = false | Take _ => True end) es ->
  K * Z.of_nat (S (length es)) < maxUint64 ->
  NoDup (issued_ids (cl_run es (new_cluster spans))).
Proof.
  intros Hs HK Hes Hb. destruct (ids_ok_run K es (new_cluster spans)) as [Hok Hmax];
    [by apply ids_ok_new|lia|done|done|].
  destruct Hok as [_ _ _ Hi _ Hnd]. unfold issued_ids. induction Hnd as [|n l Hn Hnd IH]; [constructor|].
  apply Forall_cons in Hi as [Hn1 Hi]. simpl. specialize (IH Hi).
  destruct (gateway_id n) as [id|] eqn:E; [|done]. constructor; [|done].
  rewrite list_elem_of_omap. intros (m & Hm & Hid). rewrite Forall_forall in Hi. specialize (Hi m Hm).
  destruct (gateway_id m) as [id'|] eqn:E2; [|done]. simplify_eq.
  apply Hn. assert (n = m) as ->; [|done]. apply (gateway_id_inj n m id); [lia..|done|done].
Qed.

Lemma gateway_ids_unique_witness :
  NoDup (issued_ids (cl_run [Take 0; Take 1; Other (CPendingSize 5); Take 0] (new_cluster [1000; 0]))).
Proof.
  apply (gateway_ids_unique 1000 [1000; 0] [Take 0; Take 1; Other (CPendingSize 5); Take 0]).
  - repeat constructor; lia.
  - lia.
  - repeat constructor.
  - vm_compute. reflexivity.
Defined.

(** Every sequence number below 36^7 has an id, and the store reads the number
    back from it. *)
Theorem gateway_id_roundtrip n :
  0 <= n < 36 ^ 7 ->
  exists id, gateway_id n = Ok id /\ slen id = 8%nat /\ parseGatewaySeq id = Some n.
Proof.
  intros Hn. assert (0 <= n <= maxUint64) as Hm by (unfold maxUint64; lia).
  pose proof (slen_FormatUint n 36 6 ltac:(lia) ltac:(done)) as Hl.
  destruct (gateway_id n) as [id|] eqn:E.
  - exists id. split; [done|]. split; [by apply (gateway_id_short n)|by apply parse_gateway_id].
  - unfold gateway_id in E. destruct (Nat.ltb_spec 7 (slen (FormatUint n 36))); [lia|done].
Qed.

Lemma gateway_id_roundtrip_witness : exists id, gateway_id 1000 = Ok id /\ parseGatewaySeq id = Some 1000.
Proof.
  destruct (gateway_id_roundtrip 1000) as (id & H1 & _ & H2); [lia|]. exists id. split; assumption.
Defined.
