(* ===== verification/FileStore.v ===== *)
(** * The file-backed store: internal/store/file.go

    The in-memory store with a JSON snapshot on disk, rewritten after every
    mutation and loaded at start. The JSON encoding is a parameter; the disk is
    the three files the code touches. The results: a store read back from its
    own snapshot is the store with its claims released, whatever was being sent
    stays fail-closed, and at every point of the rewrite the disk holds the old
    or the new snapshot, but not always under the name that [load] reads. *)

From S2P Require Import Prelude Unicode Codec Segment Num GoTime Records Store StoreInv StoreSubmit GatewayId.

Record fileIdempotencyRecord := mkFileIdempotencyRecord {
  fi_ClientID : string;
  fi_Key : string;
  fi_GatewayID : string;
  fi_ExpiresAt : time }.

Record fileQuotaUsage := mkFileQuotaUsage {
  fq_TenantID : string;
  fq_Date : string;
  fq_UsedSegments : Z }.

Record fileSnapshot := mkFileSnapshot {
  sn_Messages : list Message;
  sn_Pending : gmap string Pending;
  sn_Outbox : gmap Z OutboxItem;
  sn_NextOutbox : Z;
  sn_GatewaySeq : Z;
  sn_Idempotency : list fileIdempotencyRecord;
  sn_QuotaUsage : list fileQuotaUsage;
  sn_SavedAt : time }.

(** The snapshot [persist] takes under the store's lock. *)
Definition snapshot (now : time) (s : MemoryStore) : fileSnapshot :=
  {| sn_Messages := st_messages s; sn_Pending := st_pending s; sn_Outbox := st_outbox s;
     sn_NextOutbox := st_nextOutbox s; sn_GatewaySeq := st_gatewaySeq s;
     sn_Idempotency :=
       (fun kv => mkFileIdempotencyRecord kv.1.1 kv.1.2 (ir_gatewayID kv.2) (ir_expiresAt kv.2))
       <$> map_to_list (st_idempotency s);
     sn_QuotaUsage := (fun kv => mkFileQuotaUsage kv.1.1 kv.1.2 kv.2) <$> map_to_list (st_quotaUsage s);
     sn_SavedAt := now |}.

Definition unclaim (item : OutboxItem) : OutboxItem :=
  if bool_decide (ob_State item = "claimed")
  then ob_set_ClaimedAt 0 (ob_set_ClaimedBy "" (ob_set_State "pending" item)) else item.

(** The loop over the messages that raises the id sequence. *)
Definition raise_seq (seq : Z) (messages : list Message) : Z :=
  foldl (fun seq m => match parseGatewaySeq (msg_ID m) with
                      | Some n => if seq <? n then n else seq
                      | None => seq
                      end) seq messages.

Definition rekey_pending (l : list Pending) : gmap string Pending :=
  foldl (fun m v => let v := normalizePending v in
           <[pendingKey (p_Provider v) (p_ProviderID v) := v]> m) ∅ l.

(** [load], after the snapshot is decoded, into a new store. *)
Definition load_snapshot (snap : fileSnapshot) : MemoryStore :=
  let nextOutbox := foldl (fun n id => if n <? id then id else n) 0 (map_to_list (sn_Outbox snap)).*1 in
  {| st_messages := sn_Messages snap;
     st_messageByID := index_messages (sn_Messages snap);
     st_pending := rekey_pending (map_to_list (sn_Pending snap)).*2;
     st_outbox := unclaim <$> sn_Outbox snap;
     st_nextOutbox := if nextOutbox <? sn_NextOutbox snap then sn_NextOutbox snap else nextOutbox;
     st_idempotency :=
       foldl (fun m r => <[(fi_ClientID r, fi_Key r) := mkIdempotencyRecord (fi_GatewayID r) (fi_ExpiresAt r)]> m)
         ∅ (sn_Idempotency snap);
     st_quotaUsage :=
       foldl (fun m r => <[(fq_TenantID r, fq_Date r) := fq_UsedSegments r]> m) ∅ (sn_QuotaUsage snap);
     st_gatewaySeq := raise_seq (sn_GatewaySeq snap) (sn_Messages snap);
     st_lastSweep := 0;
     st_maxMessages := st_maxMessages NewMemory |}.

(** ** The disk *)

Section disk.
(** Contents of a file; [empty] is a file just created. *)
Context {content : Type} (empty : content).

Record disk := mkDisk {
  d_path : option content;
  d_bak : option content;
  d_tmp : option content }.

(** The file operations of [persist] and of config.AtomicWriteFile. *)
Inductive disk_op :=
| MkdirAll
| CreateTemp
| WriteTemp (data : content)
| ChmodTemp
| SyncTemp
| CloseTemp
| RemoveBak
| RenamePathToBak
| RenameTmpToPath.

Definition disk_step (o : disk_op) (d : disk) : disk :=
  match o with
  | MkdirAll | ChmodTemp | SyncTemp | CloseTemp => d
  | CreateTemp => mkDisk (d_path d) (d_bak d) (Some empty)
  | WriteTemp data => mkDisk (d_path d) (d_bak d) (Some data)
  | RemoveBak => mkDisk (d_path d) None (d_tmp d)
  | RenamePathToBak => mkDisk None (d_path d) (d_tmp d)
  | RenameTmpToPath => mkDisk (d_tmp d) (d_bak d) None
  end.

Definition persist_ops (data : content) (d : disk) : list disk_op :=
  [MkdirAll; CreateTemp; WriteTemp data; SyncTemp; CloseTemp]
  ++ (match d_path d with Some _ => [RemoveBak; RenamePathToBak] | None => [] end)
  ++ [RenameTmpToPath].

(** The disk after the first [k] operations. *)
Definition disk_after (k : nat) (data : content) (d : disk) : disk :=
  foldl (fun d o => disk_step o d) d (take k (persist_ops data d)).

(** The operations in order, of which [fails] do: the error of a removal of the
    backup is ignored, any other ends the sequence. The deferred removal of the
    temporary file runs in either case. *)
Fixpoint run_ops (fails : list nat) (i : nat) (ops : list disk_op) (d : disk) : disk * bool :=
  match ops with
  | [] => (d, true)
  | o :: ops =>
    if bool_decide (i ∈ fails) then
      match o with
      | RemoveBak => run_ops fails (S i) ops d
      | _ => (mkDisk (d_path d) (d_bak d) None, false)
      end
    else run_ops fails (S i) ops (disk_step o d)
  end.

(** ** The store on a disk *)

(** [json.MarshalIndent] with its final newline, and [json.Unmarshal]. *)
Context (marshal : fileSnapshot -> content) (unmarshal : content -> option fileSnapshot).

Record FileStore := mkFileStore {
  f_mem : MemoryStore;
  f_disk : disk }.

Inductive file_err :=
| FStore (e : store_err)
| FIO
| FDecode.

(** [load] at start. *)
Definition load (d : disk) : res file_err MemoryStore :=
  match d_path d with
  | None => Ok NewMemory
  | Some data =>
    match unmarshal data with
    | None => Err FDecode
    | Some snap => Ok (load_snapshot snap)
    end
  end.

Definition NewFile (d : disk) : res file_err FileStore :=
  s ← load d; Ok (mkFileStore s d).

(** [persist]; [fails] are the file operations that fail. *)
Definition persist (now : time) (fails : list nat) (fs : FileStore) : FileStore * res file_err unit :=
  let data := marshal (snapshot now (f_mem fs)) in
  let '(d, fine) := run_ops fails 0 (persist_ops data (f_disk fs)) (f_disk fs) in
  (mkFileStore (f_mem fs) d, if fine then Ok tt else Err FIO).

(** A mutation: the in-memory operation, then [persist] unless it failed. *)
Definition persisting {A} (now : time) (fails : list nat)
    (op : MemoryStore -> MemoryStore * res store_err A) (fs : FileStore) : FileStore * res file_err A :=
  let '(s, r) := op (f_mem fs) in
  let fs := mkFileStore s (f_disk fs) in
  match r with
  | Err e => (fs, Err (FStore e))
  | Ok a => let '(fs, r) := persist now fails fs in (fs, match r with Ok _ => Ok a | Err e => Err e end)
  end.

(** The same where an operation that did nothing is not persisted. *)
Definition persisting_if {A} (now : time) (fails : list nat) (did : A -> bool)
    (op : MemoryStore -> MemoryStore * A) (fs : FileStore) : FileStore * res file_err A :=
  let '(s, a) := op (f_mem fs) in
  let fs := mkFileStore s (f_disk fs) in
  if did a then
    let '(fs, r) := persist now fails fs in (fs, match r with Ok _ => Ok a | Err e => Err e end)
  else (fs, Ok a).

Definition file_SaveMessage now fails msg := persisting now fails (SaveMessage msg).
Definition file_UpdateMessageSent now fails g p := persisting now fails (UpdateMessageSent now g p).
Definition file_UpdateMessageState now fails g st e := persisting now fails (UpdateMessageState now g st e).
Definition file_SavePending now fails p := persisting now fails (SavePending now p).
Definition file_UpdatePendingDLR now fails p i st e d := persisting now fails (UpdatePendingDLR p i st e d).
Definition file_MarkDLRReady now fails p i st e d := persisting now fails (MarkDLRReady p i st e d).
Definition file_MarkDLRDelivered now fails p i := persisting now fails (MarkDLRDelivered p i).
Definition file_DeletePending now fails p i := persisting now fails (DeletePending p i).
Definition file_DeletePendingByGatewayID now fails g := persisting now fails (DeletePendingByGatewayID g).
Definition file_SweepExpiredPending now fails b :=
  persisting_if now fails (fun n => negb (n =? 0)) (SweepExpiredPending b).
Definition file_ReserveGatewayIDRange now fails span :=
  persisting_if now fails (fun _ => true) (ReserveGatewayIDRange span).
Definition file_EnqueueOutbox now fails it := persisting now fails (EnqueueOutbox now now it).
Definition file_ClaimOutbox now fails w l :=
  persisting_if now fails (fun items => negb (length items =? 0)%nat) (ClaimOutbox now w l).
Definition file_MarkOutboxSending now fails i w := persisting now fails (MarkOutboxSending i w).
Definition file_CompleteOutboxSend now fails i w ps := persisting now fails (CompleteOutboxSend now i w ps).
Definition file_MarkOutboxUncertain now fails i w e := persisting now fails (MarkOutboxUncertain now i w e).
Definition file_RequeueStaleOutbox now fails b l entries :=
  persisting_if now fails (fun n => negb (n =? 0)) (RequeueStaleOutbox b l entries).
Definition file_AckOutbox now fails i := persisting now fails (AckOutbox i).
Definition file_FailOutbox now fails i e t := persisting now fails (FailOutbox i e t).
Definition file_SaveIdempotency now fails c k g ttl := persisting now fails (SaveIdempotency now now c k g ttl).

Definition file_SubmitAtomic (now : time) (fails : list nat) (msg : Message) (item : OutboxItem)
    (opts : SubmitOptions) (fs : FileStore) : FileStore * res file_err SubmitResult :=
  let '(s, r) := SubmitAtomic now msg item opts (f_mem fs) in
  let fs := mkFileStore s (f_disk fs) in
  match r with
  | Err e => (fs, Err (FStore e))
  | Ok a =>
    if sr_duplicate a then (fs, Ok a)
    else let '(fs, r) := persist now fails fs in (fs, match r with Ok _ => Ok a | Err e => Err e end)
  end.
End disk.
Arguments disk : clear implicits.
Arguments FileStore : clear implicits.

(** ** Restart *)

(** What a restart makes of a store: claims released, records normalized. *)
Definition restart (s : MemoryStore) : MemoryStore :=
  {| st_messages := st_messages s; st_messageByID := st_messageByID s;
     st_pending := normalizePending <$> st_pending s; st_outbox := unclaim <$> st_outbox s;
     st_nextOutbox := st_nextOutbox s; st_idempotency := st_idempotency s;
     st_quotaUsage := st_quotaUsage s;
     st_gatewaySeq := raise_seq (st_gatewaySeq s) (st_messages s);
     st_lastSweep := 0; st_maxMessages := st_maxMessages NewMemory |}.

Lemma foldl_insert_union {K A B} `{Countable K} (f : B -> K * A) (l : list B) (m : gmap K A) :
  NoDup ((f <$> l).*1) ->
  foldl (fun m b => <[(f b).1 := (f b).2]> m) m l = list_to_map (f <$> l) ∪ m.
Proof.
  revert m. induction l as [|b l IH]; intros m Hnd; csimpl; [by rewrite map_empty_union|].
  csimpl in Hnd. apply NoDup_cons in Hnd as [Hb Hnd]. rewrite IH by done.
  rewrite <- insert_union_r by (by apply not_elem_of_list_to_map_1).
  rewrite insert_union_l. by destruct (f b).
Qed.

Lemma foldl_insert_map {K A B} `{Countable K} (f : B -> K * A) (m : gmap K A) (l : list B) :
  f <$> l = map_to_list m -> foldl (fun m b => <[(f b).1 := (f b).2]> m) ∅ l = m.
Proof.
  intros E. rewrite foldl_insert_union; rewrite E; [|apply NoDup_fst_map_to_list].
  by rewrite map_union_empty, list_to_map_to_list.
Qed.

Lemma normalize_key p :
  p_Provider (normalizePending p) = p_Provider p /\ p_ProviderID (normalizePending p) = p_ProviderID p.
Proof. unfold normalizePending. by repeat case_match. Qed.

Lemma rekey_pending_map m :
  map_Forall (fun k p => k = pendingKey (p_Provider p) (p_ProviderID p)) m ->
  rekey_pending (map_to_list m).*2 = normalizePending <$> m.
Proof.
  intros Hm. unfold rekey_pending.
  apply (foldl_insert_map (fun v => (pendingKey (p_Provider (normalizePending v)) (p_ProviderID (normalizePending v)),
    normalizePending v))).
  rewrite map_to_list_fmap, <- list_fmap_compose. apply list_fmap_ext. intros i [k p] Hi.
  apply list_elem_of_lookup_2, elem_of_map_to_list in Hi. apply Hm in Hi. simpl.
  destruct (normalize_key p) as [-> ->]. by rewrite <- Hi.
Qed.

Lemma max_ids_le (l : list Z) n b :
  n <= b -> Forall (fun i => i <= b) l -> n <= foldl (fun n id => if n <? id then id else n) n l <= b.
Proof.
  intros Hn Hl. revert n Hn. induction Hl as [|i l Hi _ IH]; intros n Hn; simpl; [lia|].
  destruct (Z.ltb_spec n i); specialize (IH (if n <? i then i else n)); revert IH;
    destruct (Z.ltb_spec n i); intros IH; lia.
Qed.

Lemma load_snapshot_restart now s : wf s -> load_snapshot (snapshot now s) = restart s.
Proof.
  intros [Hix Hb Hp Ho Hn Hq]. unfold load_snapshot, restart. f_equal; cbn [snapshot sn_Messages sn_Pending
    sn_Outbox sn_NextOutbox sn_GatewaySeq sn_Idempotency sn_QuotaUsage].
  - apply map_eq. intros id. apply option_eq. intros i. etrans; [|symmetry; apply Hix].
    apply index_messages_ok. by eapply index_ok_NoDup.
  - by apply rekey_pending_map.
  - pose proof (max_ids_le (map_to_list (st_outbox s)).*1 0 (st_nextOutbox s)) as Hm.
    destruct Hm as [_ Hm]; [done| |].
    + apply Forall_forall. intros i Hi. apply list_elem_of_fmap in Hi as ([k it] & -> & Hi).
      apply elem_of_map_to_list, Ho in Hi. simpl. lia.
    + case_match eqn:E; [done|]. apply Z.ltb_ge in E. lia.
  - apply (foldl_insert_map (fun r => ((fi_ClientID r, fi_Key r),
      mkIdempotencyRecord (fi_GatewayID r) (fi_ExpiresAt r)))).
    rewrite <- list_fmap_compose. rewrite <- (list_fmap_id (map_to_list (st_idempotency s))) at 2.
    apply list_fmap_ext. intros _ [[] []] _. done.
  - apply (foldl_insert_map (fun r => ((fq_TenantID r, fq_Date r), fq_UsedSegments r))).
    rewrite <- list_fmap_compose. rewrite <- (list_fmap_id (map_to_list (st_quotaUsage s))) at 2.
    apply list_fmap_ext. intros _ [[] ?] _. done.
Qed.

(** A rewrite that ended well wrote the content; one in which nothing fails does. *)
Lemma persist_ops_done {content} (empty : content) fails data d d' :
  run_ops empty fails 0 (persist_ops data d) d = (d', true) -> d_path d' = Some data.
Proof. unfold persist_ops. destruct d as [[p|] b t]; cbn [d_path app run_ops]; intros H; repeat case_bool_decide; by simplify_eq. Qed.

Lemma run_ops_fine {content} (empty : content) i ops d : run_ops empty [] i ops d = (foldl (fun d o => disk_step empty o d) d ops, true).
Proof. revert i d. induction ops as [|o ops IH]; intros i d; [done|]. cbn [run_ops]. by rewrite bool_decide_eq_false_2 by apply not_elem_of_nil. Qed.

(** C35: Persisting succeeds when no file operation fails, and whenever it
    succeeds opening the file restores the store, with claimed items pending
    again and counters never below what messages and items used. *)
Theorem restart_restores {content} (empty : content) marshal unmarshal now fs :
  unmarshal (marshal (snapshot now (f_mem fs))) = Some (snapshot now (f_mem fs)) -> wf (f_mem fs) ->
  (persist empty marshal now [] fs).2 = Ok tt
  /\ forall fails, (persist empty marshal now fails fs).2 = Ok tt ->
       load unmarshal (f_disk (persist empty marshal now fails fs).1) = Ok (restart (f_mem fs)).
Proof.
  intros Hj Hwf. split; [unfold persist; by rewrite run_ops_fine|]. intros fails. unfold persist.
  destruct (run_ops _ _ _ _ _) as [d fine] eqn:E. cbn [fst snd f_disk f_mem]. destruct fine; [intros _|done].
  unfold load. rewrite (persist_ops_done _ _ _ _ _ E), Hj. by rewrite load_snapshot_restart.
Qed.

(** An encoding that keeps the snapshot itself; the removal of the backup fails. *)
Definition demo_fs : FileStore (option fileSnapshot) := mkFileStore demo_store (mkDisk (Some None) (Some None) None).

Lemma restart_restores_witness :
  load (fun d => d) (f_disk (persist None Some 300 [5%nat] demo_fs).1) = Ok (restart demo_store).
Proof.
  apply (restart_restores None Some (fun d => d) 300 demo_fs).
  - reflexivity.
  - apply wf_exec, wf_NewMemory.
  - vm_compute. reflexivity.
Defined.

Lemma raise_seq_ge seq l : seq <= raise_seq seq l
  /\ Forall (fun m => forall n, parseGatewaySeq (msg_ID m) = Some n -> n <= raise_seq seq l) l.
Proof.
  unfold raise_seq. revert seq. induction l as [|m l IH]; intros seq; simpl; [split; [lia|constructor]|].
  destruct (parseGatewaySeq (msg_ID m)) as [n|] eqn:E.
  - destruct (Z.ltb_spec seq n) as [Hlt|Hge]; [destruct (IH n) as [H1 H2]|destruct (IH seq) as [H1 H2]];
      (split; [lia|]); (constructor; [|done]); intros n' Hn'; simplify_eq; lia.
  - destruct (IH seq) as [H1 H2]. split; [done|]. constructor; [|done]. congruence.
Qed.

(** A restart keeps a well-formed store well-formed, never moves an item that
    was being sent back to pending, and never lowers the gateway id
    sequence. *)
Theorem restart_fail_closed s :
  wf s -> st_maxMessages s = 10000 ->
  wf (restart s)
  /\ (forall id it, st_outbox s !! id = Some it -> past_send (ob_State it) = true ->
        st_outbox (restart s) !! id = Some it)
  /\ (forall id it, st_outbox (restart s) !! id = Some it -> ob_State it <> "claimed")
  /\ st_gatewaySeq s <= st_gatewaySeq (restart s)
  /\ (forall m n, m ∈ st_messages s -> parseGatewaySeq (msg_ID m) = Some n -> n <= st_gatewaySeq (restart s)).
Proof.
  intros [Hix Hb Hp Ho Hn Hq] Hm. destruct (raise_seq_ge (st_gatewaySeq s) (st_messages s)) as [H1 H2].
  split_and!.
  - split; cbn; try done.
    + rewrite Hm in Hb. lia.
    + apply map_Forall_fmap. eapply map_Forall_impl; [exact Hp|]. intros k p ->. simpl.
      by destruct (normalize_key p) as [-> ->].
    + apply map_Forall_fmap. eapply map_Forall_impl; [exact Ho|]. intros k it H. simpl.
      unfold unclaim. by case_match.
  - intros id it Hit Hps. cbn. rewrite lookup_fmap, Hit. simpl. unfold unclaim.
    case_bool_decide as E; [|done]. by rewrite E in Hps.
  - intros id it Hit. cbn in Hit. rewrite lookup_fmap in Hit. apply fmap_Some in Hit as (x & _ & ->).
    unfold unclaim. by case_bool_decide.
  - done.
  - intros m n Hin Hpn. rewrite Forall_forall in H2. by apply (H2 m).
Qed.

Lemma restart_fail_closed_witness : wf (restart demo_store) /\ 1 <= st_gatewaySeq (restart demo_store).
Proof.
  destruct (restart_fail_closed demo_store) as (H1 & _ & _ & _ & H5).
  - apply wf_exec, wf_NewMemory.
  - reflexivity.
  - split; [exact H1|]. apply (H5 (demo_msg "m0000001")); [|vm_compute; reflexivity].
    change (st_messages demo_store) with [demo_msg "m0000001"]. constructor.
Defined.

(** ** Crashes during a rewrite *)

(** At every point at which persist may stop, the file under the store's path is
    absent, the old content or the new content, never a partial write. *)
Theorem persist_crash_points {content} (empty : content) k data d :
  let d' := disk_after empty k data d in
  d_path d' = d_path d \/ d_path d' = Some data \/ (d_path d' = None /\ d_bak d' = d_path d).
Proof.
  unfold disk_after, persist_ops. destruct d as [[p|] b t]; simpl;
    do 9 (destruct k as [|k]; simpl; auto).
Qed.

(** A stop between the two renames of persist leaves no file under the store's
    path, and the next start begins with an empty store although the backup
    holds the last snapshot. *)
Theorem crash_between_renames_loses_store {content} (empty : content) marshal unmarshal now fs old :
  d_path (f_disk fs) = Some old ->
  let d' := disk_after empty 7 (marshal (snapshot now (f_mem fs))) (f_disk fs) in
  load unmarshal d' = Ok NewMemory /\ d_bak d' = Some old.
Proof.
  intros Hp. unfold disk_after, persist_ops. rewrite Hp. cbn. rewrite Hp. done.
Qed.

Lemma crash_between_renames_loses_store_witness :
  load (fun d => d) (disk_after None 7 (Some (snapshot 300 demo_store))
    (mkDisk (Some (Some (snapshot 200 demo_store))) None None)) = Ok NewMemory.
Proof.
  apply (crash_between_renames_loses_store None Some (fun d => d) 300
    (mkFileStore demo_store (mkDisk (Some (Some (snapshot 200 demo_store))) None None))
    (Some (snapshot 200 demo_store))).
  reflexivity.
Defined.
