(* ===== verification/Addr.v ===== *)
(** * Destination addresses: internal/dispatch/addr.go, country_rules.go

    Validation against the E.164 plan and the rewriting rules of a route. The
    country code of a number is unique, validation accepts exactly the numbers
    its options describe, and rewriting is idempotent. *)

From S2P Require Import Prelude.

(** The generated table of country codes. *)
Definition e164CountryCodes : list string :=
  ["1"; "7"; "20"; "27"; "30"; "31"; "32"; "33"; "34"; "36"; "39"; "40"; "41"; "43"; "44"; "45";
    "46"; "47"; "48"; "49"; "51"; "52"; "53"; "54"; "55"; "56"; "57"; "58"; "60"; "61"; "62";
    "63"; "64"; "65"; "66"; "81"; "82"; "84"; "86"; "90"; "91"; "92"; "93"; "94"; "95"; "98";
    "211"; "212"; "213"; "216"; "218"; "220"; "221"; "222"; "223"; "224"; "225"; "226"; "227";
    "228"; "229"; "230"; "231"; "232"; "233"; "234"; "235"; "236"; "237"; "238"; "239"; "240";
    "241"; "242"; "243"; "244"; "245"; "246"; "247"; "248"; "249"; "250"; "251"; "252"; "253";
    "254"; "255"; "256"; "257"; "258"; "260"; "261"; "262"; "263"; "264"; "265"; "266"; "267";
    "268"; "269"; "290"; "291"; "297"; "298"; "299"; "350"; "351"; "352"; "353"; "354"; "355";
    "356"; "357"; "358"; "359"; "370"; "371"; "372"; "373"; "374"; "375"; "376"; "377"; "378";
    "379"; "380"; "381"; "382"; "383"; "385"; "386"; "387"; "389"; "420"; "421"; "423"; "500";
    "501"; "502"; "503"; "504"; "505"; "506"; "507"; "508"; "509"; "590"; "591"; "592"; "593";
    "594"; "595"; "596"; "597"; "598"; "599"; "670"; "672"; "673"; "674"; "675"; "676"; "677";
    "678"; "679"; "680"; "681"; "682"; "683"; "685"; "686"; "687"; "688"; "689"; "690"; "691";
    "692"; "800"; "808"; "850"; "852"; "853"; "855"; "856"; "870"; "878"; "880"; "881"; "882";
    "883"; "886"; "888"; "960"; "961"; "962"; "963"; "964"; "965"; "966"; "967"; "968"; "970";
    "971"; "972"; "973"; "974"; "975"; "976"; "977"; "979"; "992"; "993"; "994"; "995"; "996";
    "998"].

(** The generated table of maximal total lengths. *)
Definition countryMaxTotalLength : list (string * Z) :=
  [("1", 11); ("7", 11); ("31", 13); ("32", 11); ("33", 12); ("39", 12); ("44", 12); ("46", 11);
    ("48", 11); ("49", 13); ("52", 12); ("54", 13); ("55", 13); ("60", 13); ("61", 12);
    ("64", 11); ("65", 10); ("66", 11); ("81", 13); ("82", 12); ("84", 11); ("86", 13);
    ("91", 12); ("92", 12); ("95", 12); ("212", 12); ("216", 11); ("233", 12); ("243", 12);
    ("244", 12); ("251", 12); ("256", 12); ("258", 12); ("355", 12); ("374", 11); ("375", 12);
    ("380", 13); ("386", 11); ("507", 11); ("852", 15); ("853", 11); ("855", 12); ("856", 15);
    ("886", 13); ("966", 12); ("971", 12); ("992", 12); ("994", 12); ("995", 12); ("996", 12);
    ("998", 12)].

Definition is_country_code (cc : string) : bool := bool_decide (cc ∈ e164CountryCodes).

Fixpoint assoc {A} (k : string) (l : list (string * A)) : option A :=
  match l with
  | [] => None
  | (k', v) :: l => if String.eqb k k' then Some v else assoc k l
  end.

Definition max_total_length (cc : string) : option Z := assoc cc countryMaxTotalLength.

Record destAddrOptions := mkDestAddrOptions {
  da_AllowShortCode : bool;
  da_MinShortLen : Z;
  da_MaxShortLen : Z;
  da_CountryLengthMode : string }.

Record AddrRewriteConfig := mkAddrRewriteConfig {
  ar_StripTrunkZeroAfterCC : bool;
  ar_CountryCode : string;
  ar_AddPrefix : string;
  ar_EnforceE164Len : bool }.

#[export] Instance AddrRewriteConfig_eq_dec : EqDecision AddrRewriteConfig.
Proof. solve_decision. Defined.

Definition digitsOnly (s : string) : bool :=
  negb (bool_decide (s = "")) && forallb is_digit_byte (bytes_of_string s).

Definition isShortCode (s : string) (opts : destAddrOptions) : bool :=
  let minLen := if da_MinShortLen opts <=? 0 then 3 else da_MinShortLen opts in
  let maxLen := if da_MaxShortLen opts <=? 0 then 6 else da_MaxShortLen opts in
  (minLen <=? Z.of_nat (slen s)) && (Z.of_nat (slen s) <=? maxLen).

(** [for n := 1; n <= 3 && n <= len(number); n++], at [n] with [fuel] turns left. *)
Fixpoint split_cc_loop (fuel n : nat) (number : string) : option string :=
  match fuel with
  | O => None
  | S fuel =>
    if (n <=? slen number)%nat then
      if is_country_code (stake n number) then Some (stake n number)
      else split_cc_loop fuel (S n) number
    else None
  end.

Definition splitE164CountryCode (number : string) : option string := split_cc_loop 3 1 number.

(** [true]: no error; [false]: [ErrInvalidDestAddr]. *)
Definition validateDestAddr (addr : string) (opts : destAddrOptions) : bool :=
  let s := TrimPrefix addr "+" in
  if negb (digitsOnly s) then false
  else if da_AllowShortCode opts && isShortCode s opts then true
  else if (slen s <? 4)%nat || (15 <? slen s)%nat then false
  else
    match splitE164CountryCode s with
    | None => false
    | Some cc =>
      let n := Z.of_nat (slen s) in
      if bool_decide (da_CountryLengthMode opts = "strict") then
        match max_total_length cc with Some m => n <=? m | None => false end
      else if bool_decide (da_CountryLengthMode opts = "compat") then
        match max_total_length cc with Some m => n <=? m | None => true end
      else true
    end.

Definition rewriteDestAddr (addr : string) (rule : AddrRewriteConfig) : string :=
  let s := TrimPrefix addr "+" in
  let s :=
    if ar_StripTrunkZeroAfterCC rule then
      let cc :=
        if bool_decide (ar_CountryCode rule = "") then
          match splitE164CountryCode s with Some parsed => parsed | None => "" end
        else ar_CountryCode rule in
      if negb (bool_decide (cc = "")) && HasPrefix s cc
      then cc +:+ TrimLeft1 (sdrop (slen cc) s) "0"%char
      else s
    else s in
  if negb (bool_decide (ar_AddPrefix rule = "")) && negb (HasPrefix s (ar_AddPrefix rule))
  then ar_AddPrefix rule +:+ s
  else s.

(** ** Country codes *)

(** No code is a proper prefix of another, and all have one to three digits. *)
Definition codes_test : bool :=
  forallb (fun a => (1 <=? slen a)%nat && (slen a <=? 3)%nat
    && forallb (fun b => String.eqb a b || negb (HasPrefix b a)) e164CountryCodes) e164CountryCodes.

Lemma codes_ok : codes_test = true.
Proof. vm_compute. reflexivity. Qed.

Lemma code_facts a :
  a ∈ e164CountryCodes ->
  (1 <= slen a <= 3)%nat /\ forall b, b ∈ e164CountryCodes -> HasPrefix b a = true -> a = b.
Proof.
  intros Ha. pose proof codes_ok as H. unfold codes_test in H. rewrite forallb_forall in H.
  apply list_elem_of_In in Ha. specialize (H a Ha). apply andb_true_iff in H as [H Hp].
  split; [lia|]. rewrite forallb_forall in Hp. intros b Hb Hab. apply list_elem_of_In in Hb.
  specialize (Hp b Hb). apply orb_true_iff in Hp as [Hp|Hp]; [by apply String.eqb_eq|].
  by rewrite Hab in Hp.
Qed.

Lemma split_cc_loop_sound fuel n number cc :
  split_cc_loop fuel n number = Some cc -> cc ∈ e164CountryCodes /\ HasPrefix number cc = true.
Proof.
  revert n. induction fuel as [|fuel IH]; intros n; simpl; [done|].
  destruct (Nat.leb_spec n (slen number)); [|done]. destruct (is_country_code _) eqn:E; [|apply IH].
  intros [= <-]. unfold is_country_code in E. apply bool_decide_eq_true in E. split; [done|].
  apply HasPrefix_spec. exists (sdrop n number). by rewrite stake_sdrop.
Qed.

Lemma split_cc_loop_complete fuel n cc t :
  cc ∈ e164CountryCodes -> (1 <= n <= slen cc)%nat -> (slen cc < n + fuel)%nat ->
  split_cc_loop fuel n (cc +:+ t) = Some cc.
Proof.
  intros Hcc. revert n. induction fuel as [|fuel IH]; intros n Hn Hf; simpl; [lia|].
  rewrite slen_app. destruct (Nat.leb_spec n (slen cc + slen t)); [|lia].
  destruct (decide (n = slen cc)) as [->|Hne].
  - rewrite stake_app. unfold is_country_code. by rewrite bool_decide_true.
  - destruct (is_country_code (stake n (cc +:+ t))) eqn:E; [|apply IH; lia].
    exfalso. unfold is_country_code in E. apply bool_decide_eq_true in E.
    rewrite stake_app_le in E by lia. destruct (code_facts _ E) as [_ Hpre].
    assert (HasPrefix cc (stake n cc) = true) as Hp.
    { apply HasPrefix_spec. exists (sdrop n cc). by rewrite stake_sdrop. }
    specialize (Hpre cc Hcc Hp). apply (f_equal slen) in Hpre. rewrite slen_stake in Hpre by lia. lia.
Qed.

Lemma split_cc_iff number cc :
  splitE164CountryCode number = Some cc <-> cc ∈ e164CountryCodes /\ HasPrefix number cc = true.
Proof.
  split; [apply split_cc_loop_sound|]. intros [Hcc [t ->]%HasPrefix_spec].
  destruct (code_facts cc Hcc) as [Hl _]. apply split_cc_loop_complete; [done|lia|lia].
Qed.

(** splitE164CountryCode finds a country code exactly when the number begins
    with it: no assigned code is a prefix of another. *)
Theorem country_code_unique number cc :
  splitE164CountryCode number = Some cc <-> cc ∈ e164CountryCodes /\ HasPrefix number cc = true.
Proof. apply split_cc_iff. Qed.

(** ** Validation *)

Definition length_rule (mode cc : string) (n : Z) : Prop :=
  (mode = "strict" -> exists m, max_total_length cc = Some m /\ n <= m)
  /\ (mode = "compat" -> forall m, max_total_length cc = Some m -> n <= m).

(** validateDestAddr accepts exactly the allowed short codes and the digit
    strings of 4 to 15 digits that begin with an assigned country code and
    whose length satisfies the length mode. *)
Theorem validate_dest_addr_iff addr opts :
  let s := TrimPrefix addr "+" in
  validateDestAddr addr opts = true <->
  digitsOnly s = true /\
  ((da_AllowShortCode opts = true /\ isShortCode s opts = true)
   \/ ((4 <= slen s <= 15)%nat /\ exists cc, cc ∈ e164CountryCodes /\ HasPrefix s cc = true
       /\ length_rule (da_CountryLengthMode opts) cc (Z.of_nat (slen s)))).
Proof.
  intros s. unfold validateDestAddr. fold s. destruct (digitsOnly s); simpl; [|naive_solver].
  destruct (da_AllowShortCode opts && isShortCode s opts) eqn:Esc.
  { apply andb_true_iff in Esc. naive_solver. }
  assert (~ (da_AllowShortCode opts = true /\ isShortCode s opts = true)) as Hns.
  { intros [H1 H2]. by rewrite H1, H2 in Esc. }
  destruct (Nat.ltb_spec (slen s) 4); simpl; [split; [done|]; intros (_ & [?|[? _]]); [done|lia]|].
  destruct (Nat.ltb_spec 15 (slen s)); simpl; [split; [done|]; intros (_ & [?|[? _]]); [done|lia]|].
  destruct (splitE164CountryCode s) as [cc|] eqn:Ecc.
  2: { split; [done|]. intros (_ & [?|(_ & cc & Hcc & Hp & _)]); [done|].
       by rewrite (proj2 (split_cc_iff s cc)) in Ecc. }
  apply split_cc_iff in Ecc as [Hcc Hpre].
  assert (forall cc', cc' ∈ e164CountryCodes -> HasPrefix s cc' = true -> cc' = cc) as Huniq.
  { intros cc' H1 H2. pose proof (proj2 (split_cc_iff s cc) (conj Hcc Hpre)) as E1.
    pose proof (proj2 (split_cc_iff s cc') (conj H1 H2)) as E2. congruence. }
  transitivity (length_rule (da_CountryLengthMode opts) cc (Z.of_nat (slen s))).
  - unfold length_rule. case_bool_decide as Hm; [|case_bool_decide as Hm2].
    + rewrite Hm. destruct (max_total_length cc) as [m|]; [rewrite Z.leb_le|]; naive_solver.
    + destruct (max_total_length cc) as [m|]; [rewrite Z.leb_le|]; naive_solver.
    + naive_solver.
  - split; [intros Hr; split; [done|]; right; split; [lia|]; eauto|].
    intros (_ & [?|(_ & cc' & H1 & H2 & Hr)]); [done|]. by rewrite <- (Huniq cc' H1 H2).
Qed.

(** ** Rewriting *)

Definition stripped_cc (s : string) (rule : AddrRewriteConfig) : string :=
  if bool_decide (ar_CountryCode rule = "") then
    match splitE164CountryCode s with Some parsed => parsed | None => "" end
  else ar_CountryCode rule.

Definition strip_trunk (s : string) (rule : AddrRewriteConfig) : string :=
  if ar_StripTrunkZeroAfterCC rule then
    let cc := stripped_cc s rule in
    if negb (bool_decide (cc = "")) && HasPrefix s cc
    then cc +:+ TrimLeft1 (sdrop (slen cc) s) "0"%char
    else s
  else s.

Lemma strip_trunk_idem s rule : strip_trunk (strip_trunk s rule) rule = strip_trunk s rule.
Proof.
  unfold strip_trunk at 2 3. destruct (ar_StripTrunkZeroAfterCC rule) eqn:Er; [|unfold strip_trunk; by rewrite Er].
  destruct (negb (bool_decide (stripped_cc s rule = "")) && HasPrefix s (stripped_cc s rule)) eqn:Ec.
  2: { unfold strip_trunk. by rewrite Er, Ec. }
  set (cc := stripped_cc s rule) in *. set (rest := TrimLeft1 _ _).
  assert (TrimLeft1 rest "0"%char = rest) as Hrest by apply TrimLeft1_idem. clearbody rest.
  assert (stripped_cc (cc +:+ rest) rule = cc) as Hcc.
  { subst cc. unfold stripped_cc in *. destruct (bool_decide (ar_CountryCode rule = "")); [|done].
    destruct (splitE164CountryCode s) as [p|] eqn:E; [|done].
    apply split_cc_iff in E as [Hp _].
    by rewrite (proj2 (split_cc_iff (p +:+ rest) p)) by (split; [done|]; apply HasPrefix_spec; eauto). }
  unfold strip_trunk. rewrite Er, Hcc. apply andb_true_iff in Ec as [-> _].
  rewrite (proj2 (HasPrefix_spec (cc +:+ rest) cc)) by eauto. simpl. by rewrite sdrop_app, Hrest.
Qed.

Lemma TrimPrefix_digits s : digitsOnly s = true -> TrimPrefix s "+" = s.
Proof.
  unfold TrimPrefix. destruct s as [|a s]; [done|]. intros H. destruct (HasPrefix (String a s) "+") eqn:E; [|done].
  apply HasPrefix_spec in E as [t E]. rewrite E in H. done.
Qed.

Lemma digitsOnly_app s t : digitsOnly s = true -> forallb is_digit_byte (bytes_of_string t) = true ->
  digitsOnly (s +:+ t) = true.
Proof.
  unfold digitsOnly. rewrite bytes_of_string_app, forallb_app. intros [H1 H2]%andb_true_iff ->.
  rewrite H2. destruct s; [done|]. done.
Qed.

Lemma TrimLeft1_digits s c : forallb is_digit_byte (bytes_of_string s) = true ->
  forallb is_digit_byte (bytes_of_string (TrimLeft1 s c)) = true.
Proof.
  induction s as [|a s IH]; [done|]. simpl. intros [H1 H2]%andb_true_iff.
  destruct (Ascii.eqb a c); [auto|]. simpl. by rewrite H1, H2.
Qed.

Lemma strip_trunk_digits s rule : digitsOnly s = true -> digitsOnly (strip_trunk s rule) = true.
Proof.
  intros Hs. unfold strip_trunk. destruct (ar_StripTrunkZeroAfterCC rule); [|done].
  destruct (negb _ && _) eqn:E; [|done]. apply andb_true_iff in E as [Hne [t Ht]%HasPrefix_spec].
  apply negb_true_iff, bool_decide_eq_false in Hne. set (cc := stripped_cc s rule) in *.
  rewrite Ht in *. rewrite sdrop_app. unfold digitsOnly in Hs. rewrite bytes_of_string_app, forallb_app in Hs.
  apply andb_true_iff in Hs as [_ [H1 H2]%andb_true_iff].
  apply digitsOnly_app; [|by apply TrimLeft1_digits]. unfold digitsOnly. by rewrite bool_decide_false, H1.
Qed.

Lemma rewriteDestAddr_eq addr rule :
  rewriteDestAddr addr rule =
  let s := strip_trunk (TrimPrefix addr "+") rule in
  if negb (bool_decide (ar_AddPrefix rule = "")) && negb (HasPrefix s (ar_AddPrefix rule))
  then ar_AddPrefix rule +:+ s else s.
Proof. done. Qed.

(** Rewriting a numeric address gives a numeric address, and rewriting it again
    changes nothing, when the added prefix is numeric and not combined with
    trunk zero stripping. *)
Theorem rewrite_idempotent addr rule :
  digitsOnly (TrimPrefix addr "+") = true ->
  (ar_AddPrefix rule = "" \/ digitsOnly (ar_AddPrefix rule) = true /\ ar_StripTrunkZeroAfterCC rule = false) ->
  let s := rewriteDestAddr addr rule in
  digitsOnly s = true /\ rewriteDestAddr s rule = s.
Proof.
  intros Hd Hr s. pose proof (strip_trunk_digits _ rule Hd) as Hsd.
  assert (digitsOnly s = true) as Hs.
  { subst s. rewrite rewriteDestAddr_eq. cbn zeta. case_match eqn:E; [|done].
    apply andb_true_iff in E as [E _]. apply negb_true_iff, bool_decide_eq_false in E.
    destruct Hr as [Hr|[Hr _]]; [done|]. apply digitsOnly_app; [done|]. unfold digitsOnly in Hsd.
    by apply andb_true_iff in Hsd as [_ ?]. }
  split; [done|]. rewrite rewriteDestAddr_eq. rewrite TrimPrefix_digits by done. cbn zeta.
  destruct Hr as [Hr|[_ Hr]].
  - subst s. rewrite rewriteDestAddr_eq, Hr. simpl. by rewrite strip_trunk_idem.
  - assert (forall x, strip_trunk x rule = x) as Hst by (intros x; unfold strip_trunk; by rewrite Hr).
    subst s. rewrite rewriteDestAddr_eq. cbn zeta. rewrite !Hst. set (s0 := TrimPrefix addr "+").
    destruct (bool_decide (ar_AddPrefix rule = "")) eqn:E; simpl; [done|].
    destruct (HasPrefix s0 (ar_AddPrefix rule)) eqn:E2; simpl; [by rewrite E2|].
    by rewrite (proj2 (HasPrefix_spec (ar_AddPrefix rule +:+ s0) (ar_AddPrefix rule))) by eauto.
Qed.

Lemma rewrite_idempotent_witness :
  let rule := mkAddrRewriteConfig true "" "" false in
  rewriteDestAddr "+8600138001380" rule = "86138001380"
  /\ rewriteDestAddr (rewriteDestAddr "+8600138001380" rule) rule = rewriteDestAddr "+8600138001380" rule.
Proof.
  cbn zeta. split; [vm_compute; reflexivity|].
  apply (rewrite_idempotent "+8600138001380" (mkAddrRewriteConfig true "" "" false)).
  - vm_compute. reflexivity.
  - left. reflexivity.
Defined.
