(* ===== verification/Router.v ===== *)
(** * Routing: internal/router/router.go

    Choosing a route for a message and a provider on the route. A
    [time.Time] handed to the router carries its wall clock; the model's times
    are the wall clock in the location of the value. *)

From S2P Require Import Prelude Unicode Codec Segment Num GoTime Records Store Addr.

(** ** Configuration *)

Record WeightedProvider := mkWeightedProvider {
  wp_Provider : string;
  wp_Weight : Z }.

Record TimeWindow := mkTimeWindow {
  tw_Days : list string;
  tw_Start : string;
  tw_End : string }.

Record DestAddrConfig := mkDestAddrConfig {
  dc_Validate : option bool;
  dc_AllowShortCode : bool;
  dc_MinShortLen : Z;
  dc_MaxShortLen : Z;
  dc_CountryLengthMode : string }.

Record RouteConfig := mkRouteConfig {
  rt_Name : string;
  rt_Prefix : list string;
  rt_Provider : string;
  rt_Priority : Z;
  rt_AddrRewrite : AddrRewriteConfig;
  rt_DestAddr : DestAddrConfig;
  rt_Enabled : option bool;
  rt_FromPrefix : list string;
  rt_SystemIDs : list string;
  rt_ClientIDs : list string;
  rt_ContentTags : list string;
  rt_TimeWindows : list TimeWindow;
  rt_Weighted : list WeightedProvider;
  rt_Failover : list string }.

Record Router := mkRouter {
  r_routes : list RouteConfig;
  r_enabledProviders : gmap string bool }.

Record MatchInput := mkMatchInput {
  mi_GatewayID : string;
  mi_To : string;
  mi_From : string;
  mi_SystemID : string;
  mi_ClientID : string;
  mi_Tags : gset string;
  mi_Now : time }.

Record MatchResult := mkMatchResult {
  mr_Route : RouteConfig;
  mr_Provider : string;
  mr_FailoverChain : list string }.

(** ** Construction *)

Definition longestPrefix (prefixes : list string) : nat :=
  foldl (fun longest p => if (longest <? slen p)%nat then slen p else longest) 0%nat prefixes.

Definition route_less (a b : RouteConfig) : bool :=
  if negb (rt_Priority a =? rt_Priority b) then rt_Priority b <? rt_Priority a
  else (longestPrefix (rt_Prefix b) <? longestPrefix (rt_Prefix a))%nat.

Definition sortRoutes (routes : list RouteConfig) : list RouteConfig := sort_stable route_less routes.

Definition New (routes : list RouteConfig) : Router := mkRouter (sortRoutes routes) ∅.

Definition enabled_get (enabled : gmap string bool) (name : string) : bool :=
  default false (enabled !! name).

Definition routeSelectable (route : RouteConfig) (enabled : gmap string bool) : bool :=
  match rt_Weighted route with
  | _ :: _ => existsb (fun wp => enabled_get enabled (wp_Provider wp)) (rt_Weighted route)
  | [] =>
    match rt_Failover route with
    | _ :: _ => existsb (enabled_get enabled) (rt_Failover route)
    | [] => enabled_get enabled (rt_Provider route)
    end
  end.

Definition route_enabled (route : RouteConfig) : bool := default true (rt_Enabled route).

(** [providers]: the name and the enabled flag of each. *)
Definition NewWithProviders (routes : list RouteConfig) (providers : list (string * bool)) : Router :=
  let enabled := foldl (fun m p => <[p.1 := p.2]> m) (∅ : gmap string bool) providers in
  mkRouter
    (sortRoutes (filter (fun rt => route_enabled rt && routeSelectable rt enabled = true) routes))
    enabled.

(** ** Time windows *)


(** [strings.Split(value, ":")]. *)
Fixpoint split_colon (s cur : string) : list string :=
  match s with
  | EmptyString => [cur]
  | String a s =>
    if Ascii.eqb a ":"%char then cur :: split_colon s "" else split_colon s (cur +:+ String a "")
  end.

Fixpoint atoi_loop (rs : list Z) (n : Z) : Z :=
  match rs with
  | [] => n
  | r :: rs => if (r <? 48) || (57 <? r) then 0 else atoi_loop rs (i64 (n * 10 + (r - 48)))
  end.

Definition atoi (value : string) : Z := atoi_loop (runes value) 0.

Definition clock (value : string) : duration :=
  match split_colon value "" with
  | [h; m] => i64 (i64 (atoi h * Hour) + i64 (atoi m * Minute))
  | _ => 0
  end.

(** The weekday a name stands for. *)
Definition day_of_name (value : string) : option Z :=
  if ToLowerEq value "sun" || ToLowerEq value "sunday" then Some 0
  else if ToLowerEq value "mon" || ToLowerEq value "monday" then Some 1
  else if ToLowerEq value "tue" || ToLowerEq value "tuesday" then Some 2
  else if ToLowerEq value "wed" || ToLowerEq value "wednesday" then Some 3
  else if ToLowerEq value "thu" || ToLowerEq value "thursday" then Some 4
  else if ToLowerEq value "fri" || ToLowerEq value "friday" then Some 5
  else if ToLowerEq value "sat" || ToLowerEq value "saturday" then Some 6
  else None.

Definition dayMatches (day : Z) (days : list string) : bool :=
  match days with
  | [] => true
  | _ => existsb (fun v => match day_of_name v with Some d => d =? day | None => false end) days
  end.

Definition in_window (now : time) (w : TimeWindow) : bool :=
  if negb (dayMatches (Weekday now) (tw_Days w)) then false
  else
    let start := clock (tw_Start w) in
    let end_ := clock (tw_End w) in
    let c := civil_of now in
    let cur := c_hour c * Hour + c_minute c * Minute in
    if start <=? end_ then (start <=? cur) && (cur <=? end_)
    else (start <=? cur) || (cur <=? end_).

Definition inAnyWindow (now : time) (windows : list TimeWindow) : bool := existsb (in_window now) windows.

(** ** Matching *)

Definition hasAnyPrefix (value : string) (prefixes : list string) : bool :=
  existsb (HasPrefix value) prefixes.

Definition contains (values : list string) (want : string) : bool :=
  existsb (fun v => String.eqb v want) values.

Definition nonempty {A} (l : list A) : bool := match l with [] => false | _ => true end.

Definition routeMatches (route : RouteConfig) (input : MatchInput) : bool :=
  if negb (route_enabled route) then false
  else if nonempty (rt_FromPrefix route) && negb (hasAnyPrefix (mi_From input) (rt_FromPrefix route)) then false
  else if nonempty (rt_SystemIDs route) && negb (contains (rt_SystemIDs route) (mi_SystemID input)) then false
  else if nonempty (rt_ClientIDs route) && negb (contains (rt_ClientIDs route) (mi_ClientID input)) then false
  else if negb (forallb (fun tag => bool_decide (tag ∈ mi_Tags input)) (rt_ContentTags route)) then false
  else if nonempty (rt_TimeWindows route) && negb (inAnyWindow (mi_Now input) (rt_TimeWindows route)) then false
  else true.

(** [best] starts at -1; the result is [None] when it stays there. *)
Definition matchedPrefixLen (prefixes : list string) (to : string) : option Z :=
  match prefixes with
  | [] => Some 0
  | _ =>
    let best := foldl (fun best p =>
      if HasPrefix to p && (best <? Z.of_nat (slen p)) then Z.of_nat (slen p) else best) (-1) prefixes in
    if 0 <=? best then Some best else None
  end.

(** The loop state of [MatchRoute] and [MatchPhone]: the best route so far with
    its priority and matched prefix length. *)
Definition best_state : Type := option (RouteConfig * Z * Z).

Definition take_better (best : best_state) (route : RouteConfig) (matchLen : Z) : best_state :=
  match best with
  | None => Some (route, rt_Priority route, matchLen)
  | Some (_, bestPriority, bestPrefix) =>
    if (bestPriority <? rt_Priority route)
       || ((rt_Priority route =? bestPriority) && (bestPrefix <? matchLen))
    then Some (route, rt_Priority route, matchLen) else best
  end.

Definition match_step (input : MatchInput) (best : best_state) (route : RouteConfig) : best_state :=
  if negb (routeMatches route input) then best
  else
    match matchedPrefixLen (rt_Prefix route) (mi_To input) with
    | None => best
    | Some matchLen => take_better best route matchLen
    end.

Definition with_now (now : time) (input : MatchInput) : MatchInput :=
  if IsZero (mi_Now input)
  then mkMatchInput (mi_GatewayID input) (mi_To input) (mi_From input) (mi_SystemID input)
         (mi_ClientID input) (mi_Tags input) now
  else input.

Definition MatchRoute (now : time) (r : Router) (input : MatchInput) : option RouteConfig :=
  (fun b => b.1.1) <$> foldl (match_step (with_now now input)) None (r_routes r).

(** [MatchPhone]: the routes by prefix alone. *)
Definition phone_step (to : string) (best : best_state) (route : RouteConfig) : best_state :=
  match rt_Prefix route with
  | [] =>
    match best with
    | None => Some (route, rt_Priority route, 0)
    | Some (_, bestPriority, _) =>
      if bestPriority <? rt_Priority route then Some (route, rt_Priority route, 0) else best
    end
  | prefixes =>
    foldl (fun best p => if HasPrefix to p then take_better best route (Z.of_nat (slen p)) else best)
      best prefixes
  end.

Definition MatchPhone (r : Router) (to : string) : option RouteConfig :=
  (fun b => b.1.1) <$> foldl (phone_step to) None (r_routes r).

Definition Match (r : Router) (msg : Message) : option RouteConfig := MatchPhone r (msg_To msg).

(** ** Choosing a provider *)

Definition providerEnabled (r : Router) (name : string) : bool :=
  if bool_decide (r_enabledProviders r = ∅) then true else enabled_get (r_enabledProviders r) name.

(** FNV-1a. *)
Definition stableHash (value : string) : Z :=
  foldl (fun h b => u64 (Z.lxor h b * 1099511628211)) 14695981039346656037 (bytes_of_string value).

(** The sum of the enabled weights; [None] where the code gives up. *)
Fixpoint weight_total (r : Router) (l : list WeightedProvider) (total : Z) : option Z :=
  match l with
  | [] => Some total
  | wp :: l =>
    if providerEnabled r (wp_Provider wp) then
      if wp_Weight wp <=? 0 then None
      else
        let weight := u64 (wp_Weight wp) in
        if maxUint64 - weight <? total then None else weight_total r l (total + weight)
    else weight_total r l total
  end.

Fixpoint weight_pick (r : Router) (l : list WeightedProvider) (n : Z) : string :=
  match l with
  | [] => ""
  | wp :: l =>
    if providerEnabled r (wp_Provider wp) then
      if n <? u64 (wp_Weight wp) then wp_Provider wp else weight_pick r l (n - u64 (wp_Weight wp))
    else weight_pick r l n
  end.

Definition selectProvider (r : Router) (route : RouteConfig) (key : string) : string * list string :=
  match rt_Weighted route with
  | _ :: _ =>
    match weight_total r (rt_Weighted route) 0 with
    | None => ("", [])
    | Some total =>
      if total <=? 0 then ("", []) else (weight_pick r (rt_Weighted route) (stableHash key mod total), [])
    end
  | [] =>
    match rt_Failover route with
    | _ :: _ =>
      match filter (fun p => providerEnabled r p = true) (rt_Failover route) with
      | [] => ("", [])
      | p :: chain => (p, p :: chain)
      end
    | [] =>
      if negb (providerEnabled r (rt_Provider route)) then ("", []) else (rt_Provider route, [])
    end
  end.

Definition SelectProvider (r : Router) (route : RouteConfig) (gatewayID : string) : option MatchResult :=
  if nonempty (rt_Weighted route) && bool_decide (gatewayID = "") then None
  else
    let '(provider, chain) := selectProvider r route gatewayID in
    if bool_decide (provider = "") then None
    else Some (mkMatchResult route provider chain).

Definition MatchSubmit (now : time) (r : Router) (input : MatchInput) : option MatchResult :=
  route ← MatchRoute now r input; SelectProvider r route (mi_GatewayID input).

(** ** The matched route is the best one *)

(** The rank of a route for an input: its priority and matched prefix length. *)
Definition route_key (input : MatchInput) (route : RouteConfig) : option (Z * Z) :=
  if routeMatches route input
  then (fun n => (rt_Priority route, n)) <$> matchedPrefixLen (rt_Prefix route) (mi_To input)
  else None.

Definition key_less (a b : Z * Z) : Prop := a.1 < b.1 \/ (a.1 = b.1 /\ a.2 < b.2).

(** [route] wins over [l1] before it and [l2] after it. *)
Definition wins (input : MatchInput) (l1 : list RouteConfig) (route : RouteConfig) (l2 : list RouteConfig)
    (k : Z * Z) : Prop :=
  route_key input route = Some k
  /\ Forall (fun o => forall k', route_key input o = Some k' -> key_less k' k) l1
  /\ Forall (fun o => forall k', route_key input o = Some k' -> ~ key_less k k') l2.

Lemma match_step_key input best route :
  match_step input best route =
  match route_key input route with
  | None => best
  | Some (_, n) => take_better best route n
  end.
Proof.
  unfold match_step, route_key. destruct (routeMatches route input); simpl; [|done].
  by destruct (matchedPrefixLen _ _).
Qed.

Lemma match_fold_best input l :
  match foldl (match_step input) None l with
  | None => Forall (fun o => route_key input o = None) l
  | Some (route, p, n) => exists l1 l2, l = l1 ++ route :: l2 /\ wins input l1 route l2 (p, n)
  end.
Proof.
  induction l as [|x l IH] using rev_ind; simpl; [constructor|].
  rewrite foldl_app. simpl. rewrite match_step_key.
  destruct (foldl (match_step input) None l) as [[[route p] n]|].
  - destruct IH as (l1 & l2 & -> & Hk & H1 & H2).
    destruct (route_key input x) as [[px nx]|] eqn:Ex; cbn [take_better].
    2: { exists l1, (l2 ++ [x]). rewrite <- app_assoc. split; [done|]. split_and!; [done..|].
         apply Forall_app. split; [done|]. constructor; [congruence|done]. }
    assert (px = rt_Priority x) as ->.
    { unfold route_key in Ex. destruct (routeMatches x input); [|done].
      destruct (matchedPrefixLen _ _); [|done]. by injection Ex as <- _. }
    destruct (_ || _) eqn:Eb.
    + exists (l1 ++ route :: l2), []. split; [by rewrite <- app_assoc|]. split; [done|]. split; [|constructor].
      assert (key_less (p, n) (rt_Priority x, nx)) as Hlt by (unfold key_less; simpl; lia).
      apply Forall_app. split; [|constructor].
      * eapply Forall_impl; [exact H1|]. intros o Ho k' Hk'. specialize (Ho k' Hk'). unfold key_less in *. simpl in *. lia.
      * intros k' E. rewrite Hk in E. by injection E as <-.
      * eapply Forall_impl; [exact H2|]. intros o Ho k' Hk'. specialize (Ho k' Hk'). unfold key_less in *. simpl in *. lia.
    + exists l1, (l2 ++ [x]). rewrite <- app_assoc. split; [done|]. split_and!; [done..|].
      apply Forall_app. split; [done|]. constructor; [|done]. intros k' E. rewrite Ex in E. injection E as <-.
      unfold key_less. simpl. lia.
  - destruct (route_key input x) as [[px nx]|] eqn:Ex; simpl.
    + exists l, []. split; [done|]. split_and!; [|eapply Forall_impl; [exact IH|]; naive_solver congruence|constructor].
      unfold route_key in *. destruct (routeMatches x input); [|done].
      destruct (matchedPrefixLen _ _); [|done]. by injection Ex as -> ->.
    + apply Forall_app. split; [done|]. by constructor.
Qed.

(** MatchRoute returns a matching route of the highest priority, then longest
    matched prefix, then earliest position, and none exactly when no route
    matches. *)
Theorem match_route_best now r input :
  let input' := with_now now input in
  match MatchRoute now r input with
  | Some route => exists l1 l2 k, r_routes r = l1 ++ route :: l2 /\ wins input' l1 route l2 k
  | None => Forall (fun o => route_key input' o = None) (r_routes r)
  end.
Proof.
  intros input'. unfold MatchRoute. fold input'. pose proof (match_fold_best input' (r_routes r)) as H.
  destruct (foldl (match_step input') None (r_routes r)) as [[[route p] n]|]; simpl; [|done].
  destruct H as (l1 & l2 & H1 & H2). eauto.
Qed.

(** ** Prefix-only matching *)

Lemma take_better_twice b rt n m :
  take_better (take_better b rt n) rt m = take_better b rt (Z.max n m).
Proof.
  destruct b as [[[x bp] bl]|]; simpl.
  - destruct (Z.ltb_spec bp (rt_Priority rt)), (Z.eqb_spec (rt_Priority rt) bp),
      (Z.ltb_spec bl n), (Z.ltb_spec bl (Z.max n m)); simpl; try lia;
    rewrite ?Z.ltb_irrefl, ?Z.eqb_refl; simpl;
    repeat match goal with |- context [?a <? ?b] => destruct (Z.ltb_spec a b); simpl; try lia end;
    repeat match goal with |- context [?a =? ?b] => destruct (Z.eqb_spec a b); simpl; try lia end;
    try done; repeat f_equal; lia.
  - rewrite Z.ltb_irrefl, Z.eqb_refl. simpl. destruct (Z.ltb_spec n m); do 2 f_equal; lia.
Qed.

Lemma phone_prefixes to b rt prefixes :
  let m := foldl (fun best p =>
      if HasPrefix to p && (best <? Z.of_nat (slen p)) then Z.of_nat (slen p) else best) (-1) prefixes in
  -1 <= m /\
  foldl (fun best p => if HasPrefix to p then take_better best rt (Z.of_nat (slen p)) else best) b prefixes
  = if 0 <=? m then take_better b rt m else b.
Proof.
  induction prefixes as [|p prefixes IH] using rev_ind; simpl; [done|].
  rewrite !foldl_app. simpl. destruct IH as [Hm ->]. set (m := foldl _ (-1) prefixes) in *.
  destruct (HasPrefix to p); simpl; [|done].
  destruct (Z.ltb_spec m (Z.of_nat (slen p))), (Z.leb_spec 0 m), (Z.leb_spec 0 (Z.of_nat (slen p))); try lia.
  - split; [lia|]. rewrite take_better_twice. by rewrite Z.max_r by lia.
  - split; [lia|done].
  - split; [lia|]. rewrite take_better_twice. by rewrite Z.max_l by lia.
Qed.

(** A route without conditions other than its prefixes. *)
Definition plain_route (rt : RouteConfig) : Prop :=
  route_enabled rt = true /\ rt_FromPrefix rt = [] /\ rt_SystemIDs rt = [] /\ rt_ClientIDs rt = []
  /\ rt_ContentTags rt = [] /\ rt_TimeWindows rt = [].

Lemma plain_route_matches rt input : plain_route rt -> routeMatches rt input = true.
Proof. intros (H1 & H2 & H3 & H4 & H5 & H6). unfold routeMatches. by rewrite H1, H2, H3, H4, H5, H6. Qed.

Definition best_ok (b : best_state) : Prop := match b with Some (_, _, n) => 0 <= n | None => True end.

Lemma phone_step_match input b rt :
  plain_route rt -> best_ok b ->
  phone_step (mi_To input) b rt = match_step input b rt /\ best_ok (match_step input b rt).
Proof.
  intros Hp Hb. unfold match_step, phone_step. rewrite plain_route_matches by done. cbn [negb].
  unfold matchedPrefixLen. destruct (rt_Prefix rt) as [|p0 ps].
  - destruct b as [[[x bp] bl]|]; simpl in *; [|done]. destruct (Z.ltb_spec bl 0); [lia|].
    rewrite andb_false_r, orb_false_r. split; [done|]. by case_match.
  - destruct (phone_prefixes (mi_To input) b rt (p0 :: ps)) as [Hm ->].
    set (m := foldl _ (-1) (p0 :: ps)) in *. destruct (Z.leb_spec 0 m); [|done]. split; [done|].
    destruct b as [[[x bp] bl]|]; simpl in *; [|done]. by case_match.
Qed.

(** On routes with prefixes and priorities only, MatchPhone and MatchRoute
    choose the same route. *)
Theorem match_phone_equiv now r input :
  Forall plain_route (r_routes r) -> MatchPhone r (mi_To input) = MatchRoute now r input.
Proof.
  intros Hr. unfold MatchPhone, MatchRoute. f_equal.
  assert (mi_To input = mi_To (with_now now input)) as -> by (unfold with_now; by case_match).
  assert (forall b, best_ok b -> foldl (phone_step (mi_To (with_now now input))) b (r_routes r)
    = foldl (match_step (with_now now input)) b (r_routes r)) as H; [|by apply H].
  induction Hr as [|rt l Hrt _ IH]; intros b Hb; simpl; [done|].
  destruct (phone_step_match (with_now now input) b rt Hrt Hb) as [-> Hb']. by apply IH.
Qed.

Definition demo_route (name provider : string) (prefix : list string) (prio : Z) (w : list WeightedProvider) : RouteConfig :=
  {| rt_Name := name; rt_Prefix := prefix; rt_Provider := provider; rt_Priority := prio;
     rt_AddrRewrite := mkAddrRewriteConfig false "" "" false;
     rt_DestAddr := mkDestAddrConfig None false 0 0 ""; rt_Enabled := None; rt_FromPrefix := [];
     rt_SystemIDs := []; rt_ClientIDs := []; rt_ContentTags := []; rt_TimeWindows := [];
     rt_Weighted := w; rt_Failover := [] |}.

Definition demo_router : Router :=
  New [demo_route "any" "p0" [] 1 []; demo_route "cn" "p1" ["86"; "861"] 1 []].

Lemma match_phone_equiv_witness :
  MatchRoute 5 demo_router (mkMatchInput "" "8613800000000" "" "" "" ∅ 0)
  = Some (demo_route "cn" "p1" ["86"; "861"] 1 []).
Proof.
  rewrite <- (match_phone_equiv 5 demo_router (mkMatchInput "" "8613800000000" "" "" "" ∅ 0)).
  - vm_compute. reflexivity.
  - vm_compute. repeat constructor.
Defined.

(** ** Providers *)

Lemma weight_pick_enabled r l n :
  weight_pick r l n = "" \/ providerEnabled r (weight_pick r l n) = true.
Proof.
  revert n. induction l as [|wp l IH]; intros n; simpl; [by left|].
  destruct (providerEnabled r (wp_Provider wp)) eqn:E; [|apply IH]. case_match; [by right|apply IH].
Qed.

Lemma SelectProvider_enabled r route gatewayID mr :
  SelectProvider r route gatewayID = Some mr ->
  mr_Route mr = route /\ mr_Provider mr <> "" /\ providerEnabled r (mr_Provider mr) = true
  /\ Forall (fun p => providerEnabled r p = true) (mr_FailoverChain mr).
Proof.
  unfold SelectProvider. destruct (nonempty (rt_Weighted route) && _); [done|].
  destruct (selectProvider r route gatewayID) as [p chain] eqn:E.
  destruct (bool_decide_reflect (p = "")) as [Hp|Hp]; [done|].
  intros [= <-]. simpl. split; [done|]. split; [done|]. unfold selectProvider in E.
  destruct (rt_Weighted route) as [|w ws].
  - destruct (rt_Failover route) as [|f fs].
    + destruct (providerEnabled r (rt_Provider route)) eqn:E2; simpl in E; injection E as <- <-; [by split|done].
    + destruct (filter _ _) as [|q chain'] eqn:Ef; injection E as <- <-; [done|].
      assert (Forall (fun p => providerEnabled r p = true) (q :: chain')) as Hf.
      { rewrite <- Ef. apply Forall_forall. intros x Hx. by apply list_elem_of_filter in Hx as [? _]. }
      by apply Forall_cons in Hf as Hf'; destruct Hf' as [? _].
  - destruct (weight_total r (w :: ws) 0) as [t|]; [|by injection E as <- <-].
    destruct (t <=? 0); injection E as <- <-; [done|].
    destruct (weight_pick_enabled r (w :: ws) (stableHash gatewayID mod t)) as [?|?]; [done|by split].
Qed.

(** A selected provider and every member of its failover chain is enabled. *)
Theorem select_provider_enabled r route gatewayID mr :
  SelectProvider r route gatewayID = Some mr ->
  mr_Route mr = route /\ mr_Provider mr <> "" /\ providerEnabled r (mr_Provider mr) = true
  /\ Forall (fun p => providerEnabled r p = true) (mr_FailoverChain mr).
Proof. apply SelectProvider_enabled. Qed.

(** Weights a Go [int] can hold. *)
Definition weights_ok (l : list WeightedProvider) : Prop :=
  Forall (fun wp => 0 < wp_Weight wp < 9223372036854775808) l.

(** The weight of the enabled entries that name [p], and of all of them. *)
Definition weight_of (r : Router) (l : list WeightedProvider) (sel : string -> bool) : Z :=
  foldr (fun wp t => (if providerEnabled r (wp_Provider wp) && sel (wp_Provider wp) then wp_Weight wp else 0) + t) 0 l.

Definition all_names (_ : string) : bool := true.

Lemma weight_of_nonneg r l sel : weights_ok l -> 0 <= weight_of r l sel.
Proof. induction 1; simpl; [lia|]. case_match; lia. Qed.

Lemma u64_weight w : 0 < w < 9223372036854775808 -> u64 w = w.
Proof. intros. unfold u64. rewrite Z.mod_small; lia. Qed.

Lemma weight_total_spec r l t :
  weights_ok l -> 0 <= t -> t + weight_of r l all_names <= maxUint64 ->
  weight_total r l t = Some (t + weight_of r l all_names).
Proof.
  intros Hl. revert t. induction Hl as [|wp l Hw Hl IH]; intros t Ht Hm; simpl in *; [f_equal; lia|].
  pose proof (weight_of_nonneg r l all_names Hl). unfold all_names in *. rewrite andb_true_r in *.
  destruct (providerEnabled r (wp_Provider wp)).
  - destruct (Z.leb_spec (wp_Weight wp) 0); [lia|]. rewrite u64_weight by done.
    destruct (Z.ltb_spec (maxUint64 - wp_Weight wp) t); [lia|]. rewrite IH by lia. f_equal. lia.
  - rewrite IH by lia. f_equal.
Qed.

Lemma weight_total_exceeds r l t T :
  weights_ok l -> 0 <= t <= maxUint64 -> weight_total r l t = Some T ->
  T = t + weight_of r l all_names /\ T <= maxUint64.
Proof.
  intros Hl. revert t. induction Hl as [|wp l Hw Hl IH]; intros t Ht Hm; simpl in *; [simplify_eq; lia|].
  unfold all_names in *. rewrite andb_true_r in *. destruct (providerEnabled r (wp_Provider wp)).
  - destruct (Z.leb_spec (wp_Weight wp) 0); [lia|]. rewrite u64_weight in Hm by done.
    destruct (Z.ltb_spec (maxUint64 - wp_Weight wp) t); [done|]. apply IH in Hm; lia.
  - apply IH in Hm; lia.
Qed.

Lemma seqZ_split a b : 0 <= a -> 0 <= b -> seqZ 0 (a + b) = seqZ 0 a ++ (Z.add a <$> seqZ 0 b).
Proof.
  intros. rewrite seqZ_app by lia. f_equal. rewrite fmap_add_seqZ. f_equal. lia.
Qed.

Lemma list_filter_iff_elem {A} (P Q : A -> Prop) `{forall x, Decision (P x), forall x, Decision (Q x)} (l : list A) :
  (forall x, x ∈ l -> P x <-> Q x) -> filter P l = filter Q l.
Proof.
  induction l as [|x l IH]; intros Hl; [done|]. assert (P x <-> Q x) by (apply Hl; constructor).
  rewrite !filter_cons, IH by set_solver. repeat case_decide; naive_solver.
Qed.

Lemma length_filter_fmap {A B} (f : A -> B) (P : B -> Prop) `{forall x, Decision (P x)} (l : list A) :
  length (filter P (f <$> l)) = length (filter (fun x => P (f x)) l).
Proof.
  induction l as [|x l IH]; [done|]. rewrite fmap_cons, !filter_cons.
  destruct (decide (P (f x))); simpl; by rewrite IH.
Qed.

Lemma length_filter_const {A} (P : A -> Prop) `{forall x, Decision (P x)} (c : bool) (l : list A) :
  (forall x, x ∈ l -> P x <-> c = true) -> length (filter P l) = if c then length l else 0%nat.
Proof.
  induction l as [|x l IH]; intros Hl; [by destruct c|].
  assert (P x <-> c = true) as Hx by (apply Hl; constructor).
  rewrite filter_cons. case_decide as HP; simpl; rewrite IH by set_solver; destruct c; naive_solver.
Qed.

(** The residues below the total that select [p]. *)
Definition picks (r : Router) (l : list WeightedProvider) (p : string) : Z :=
  Z.of_nat (length (filter (fun n => weight_pick r l n = p) (seqZ 0 (weight_of r l all_names)))).

Lemma picks_weight r l p : weights_ok l -> picks r l p = weight_of r l (String.eqb p).
Proof.
  unfold picks. induction 1 as [|wp l Hw Hl IH]; [done|]. simpl. pose proof (weight_of_nonneg r l all_names Hl).
  unfold all_names at 1. rewrite andb_true_r. destruct (providerEnabled r (wp_Provider wp)); simpl; [|exact IH].
  rewrite u64_weight by done. rewrite seqZ_split, filter_app, length_app, length_filter_fmap by lia.
  rewrite (length_filter_const _ (String.eqb p (wp_Provider wp))).
  - rewrite Nat2Z.inj_add. rewrite <- IH. f_equal.
    + destruct (String.eqb p (wp_Provider wp)); [|done]. rewrite length_seqZ. lia.
    + f_equal. f_equal. apply list_filter_iff_elem. intros n Hn%elem_of_seqZ.
      destruct (Z.ltb_spec (wp_Weight wp + n) (wp_Weight wp)); [lia|].
      by replace (wp_Weight wp + n - wp_Weight wp) with n by lia.
  - intros n Hn%elem_of_seqZ. destruct (Z.ltb_spec n (wp_Weight wp)); [|lia]. rewrite String.eqb_eq. naive_solver.
Qed.

(** Among the residues of the hash, each enabled provider is chosen for exactly
    as many as its weight. *)
Theorem weighted_selection_exact r route key p :
  weights_ok (rt_Weighted route) -> weight_of r (rt_Weighted route) all_names <= maxUint64 ->
  0 < weight_of r (rt_Weighted route) all_names ->
  (selectProvider r route key).1
    = weight_pick r (rt_Weighted route) (stableHash key mod weight_of r (rt_Weighted route) all_names)
  /\ picks r (rt_Weighted route) p = weight_of r (rt_Weighted route) (String.eqb p).
Proof.
  intros Hw Hm Hp. split; [|by apply picks_weight]. unfold selectProvider.
  destruct (rt_Weighted route) as [|w ws] eqn:E; [done|].
  rewrite weight_total_spec by (done || lia). rewrite Z.add_0_l.
  destruct (Z.leb_spec (weight_of r (w :: ws) all_names) 0); [lia|done].
Qed.

Lemma weighted_selection_exact_witness :
  picks (New []) [mkWeightedProvider "a" 3; mkWeightedProvider "b" 1; mkWeightedProvider "a" 2] "a" = 5.
Proof.
  refine (proj2 (weighted_selection_exact (New [])
    (demo_route "w" "" [] 1 [mkWeightedProvider "a" 3; mkWeightedProvider "b" 1; mkWeightedProvider "a" 2])
    "m0000001" "a" _ _ _)).
  - repeat constructor.
  - vm_compute. discriminate.
  - vm_compute. reflexivity.
Defined.

Lemma select_provider_enabled_witness :
  providerEnabled (NewWithProviders [] [("a", true); ("b", false)]) "a" = true.
Proof.
  apply (select_provider_enabled (NewWithProviders [] [("a", true); ("b", false)])
    (demo_route "w" "" [] 1 [mkWeightedProvider "a" 3; mkWeightedProvider "b" 1]) "m0000001"
    (mkMatchResult (demo_route "w" "" [] 1 [mkWeightedProvider "a" 3; mkWeightedProvider "b" 1]) "a" [])).
  vm_compute. reflexivity.
Defined.

(** ** A selectable route has a provider *)

Lemma weight_pick_total r l n :
  weights_ok l -> 0 <= n < weight_of r l all_names -> providerEnabled r (weight_pick r l n) = true.
Proof.
  intros Hl. revert n. induction Hl as [|wp l Hw Hl IH]; intros n Hn; simpl in *; [lia|].
  unfold all_names in *. rewrite andb_true_r in Hn. destruct (providerEnabled r (wp_Provider wp)) eqn:E; [|by apply IH].
  rewrite u64_weight by done. destruct (Z.ltb_spec n (wp_Weight wp)); [done|]. apply IH. lia.
Qed.

Lemma weight_of_pos r l wp :
  weights_ok l -> wp ∈ l -> providerEnabled r (wp_Provider wp) = true -> 0 < weight_of r l all_names.
Proof.
  induction 1 as [|x l Hx Hl IH]; intros Hin He; [by apply elem_of_nil in Hin|]. simpl.
  pose proof (weight_of_nonneg r l all_names Hl). unfold all_names in *. rewrite andb_true_r.
  apply elem_of_cons in Hin as [<-|Hin]; [rewrite He; lia|]. specialize (IH Hin He). case_match; lia.
Qed.

Lemma enabled_fold ps (m : gmap string bool) n b :
  foldl (fun m p => <[p.1 := p.2]> m) m ps !! n = Some b -> m !! n = Some b \/ n ∈ ps.*1.
Proof.
  revert m. induction ps as [|p ps IH]; intros m; simpl; [by left|]. intros [H|H]%IH; [|set_solver].
  destruct (decide (n = p.1)) as [->|]; [set_solver|]. rewrite lookup_insert_ne in H by done. by left.
Qed.

(** Every route a router built with providers keeps has a provider for every
    gateway id. *)
Theorem select_provider_total routes providers route gatewayID :
  let r := NewWithProviders routes providers in
  route ∈ r_routes r -> gatewayID <> "" -> Forall (fun p => p.1 <> "") providers ->
  weights_ok (rt_Weighted route) -> weight_of r (rt_Weighted route) all_names <= maxUint64 ->
  exists mr, SelectProvider r route gatewayID = Some mr.
Proof.
  intros r Hin Hg Hnames Hw Hm. unfold r, NewWithProviders in Hin. simpl in Hin.
  unfold sortRoutes in Hin. rewrite sort_stable_Permutation in Hin.
  set (enabled := foldl _ _ providers) in *. apply list_elem_of_filter in Hin as [Hs _].
  apply andb_true_iff in Hs as [_ Hs].
  assert (forall n, enabled_get enabled n = true -> providerEnabled r n = true /\ enabled <> ∅) as Hen.
  { intros n Hn. assert (enabled <> ∅) as Hne.
    { intros E. unfold enabled_get in Hn. by rewrite E, lookup_empty in Hn. }
    split; [|done]. unfold providerEnabled. change (r_enabledProviders r) with enabled.
    by rewrite bool_decide_false. }
  assert (enabled <> ∅ -> forall n, providerEnabled r n = true -> n <> "") as Hnz.
  { intros Hne n Hn ->. unfold providerEnabled in Hn. change (r_enabledProviders r) with enabled in Hn.
    rewrite bool_decide_false in Hn by done. unfold enabled_get in Hn. destruct (enabled !! "") eqn:E; [|done].
    apply enabled_fold in E as [E|E]; [by rewrite lookup_empty in E|].
    apply list_elem_of_fmap in E as (p & E & Hp). rewrite Forall_forall in Hnames. by apply (Hnames p). }
  unfold SelectProvider. rewrite (bool_decide_false (gatewayID = "")) by done. rewrite andb_false_r.
  assert ((selectProvider r route gatewayID).1 <> "") as Hsel.
  2: { destruct (selectProvider r route gatewayID) as [p chain]. simpl in Hsel. rewrite bool_decide_false by done. eauto. }
  unfold selectProvider. unfold routeSelectable in Hs. destruct (rt_Weighted route) as [|w ws] eqn:Ew.
  - destruct (rt_Failover route) as [|f fs] eqn:Ef.
    + destruct (Hen _ Hs) as [E1 E2]. rewrite E1. simpl. by apply Hnz.
    + apply existsb_exists in Hs as (p & Hp & Hpe). apply list_elem_of_In in Hp. destruct (Hen _ Hpe) as [E1 E2].
      destruct (filter _ (f :: fs)) as [|q qs] eqn:Efl.
      * exfalso. assert (p ∈ filter (fun p => providerEnabled r p = true) (f :: fs)) as Hf
          by (apply list_elem_of_filter; done). rewrite Efl in Hf. by apply elem_of_nil in Hf.
      * simpl. apply Hnz; [done|]. assert (q ∈ q :: qs) as Hq by constructor. rewrite <- Efl in Hq.
        by apply list_elem_of_filter in Hq as [? _].
  - apply existsb_exists in Hs as (wp & Hp & Hpe). apply list_elem_of_In in Hp. destruct (Hen _ Hpe) as [E1 E2].
    pose proof (weight_of_pos r (w :: ws) wp Hw Hp E1) as Hpos.
    rewrite weight_total_spec by (done || lia). rewrite Z.add_0_l.
    destruct (Z.leb_spec (weight_of r (w :: ws) all_names) 0); [lia|]. cbn [fst].
    apply Hnz; [done|]. apply weight_pick_total; [done|]. by apply Z.mod_pos_bound.
Qed.

Lemma select_provider_total_witness :
  let r := NewWithProviders [demo_route "w" "" [] 1 [mkWeightedProvider "a" 3; mkWeightedProvider "b" 1]]
    [("a", true); ("b", false)] in
  exists mr, SelectProvider r (demo_route "w" "" [] 1 [mkWeightedProvider "a" 3; mkWeightedProvider "b" 1]) "m1"
    = Some mr.
Proof.
  apply (select_provider_total [demo_route "w" "" [] 1 [mkWeightedProvider "a" 3; mkWeightedProvider "b" 1]]
    [("a", true); ("b", false)]).
  - vm_compute. constructor.
  - discriminate.
  - repeat constructor; discriminate.
  - repeat constructor.
  - vm_compute. discriminate.
Defined.
