(* ===== verification/DlrAggregate.v ===== *)
(** * The state of a message from the reports of its segments: internal/dispatch/dispatcher.go

    [aggregateDLR] and its helpers. The aggregate is final exactly when every
    record has a final state and every part number is present; it is the worst
    state reported. *)

From S2P Require Import Prelude Unicode Codec Segment Num GoTime Records Store.

Definition final_states : list string :=
  ["DELIVRD"; "EXPIRED"; "DELETED"; "UNDELIV"; "REJECTD"; "UNKNOWN"].

Definition isFinalDLRState (state : string) : bool := bool_decide (ToUpperTrim state ∈ final_states).

Definition dlrFailureRank (state : string) : Z :=
  if bool_decide (state = "REJECTD") then 6
  else if bool_decide (state = "UNDELIV") then 5
  else if bool_decide (state = "EXPIRED") then 4
  else if bool_decide (state = "DELETED") then 3
  else if bool_decide (state = "UNKNOWN") then 2
  else 0.

Record dlrAggregate := mkDlrAggregate {
  ag_State : string;
  ag_ErrorCode : Z;
  ag_Final : bool;
  ag_AllDelivered : bool }.

#[export] Instance dlrAggregate_eq_dec : EqDecision dlrAggregate.
Proof. solve_decision. Defined.

(** The loop's variables. *)
Record agg_state := mkAgg {
  as_result : dlrAggregate;
  as_expected : Z;
  as_seen : gset Z;
  as_rank : Z }.

Definition agg_step (a : agg_state) (segment : Pending) : agg_state :=
  let state := ToUpperTrim (p_DLRState segment) in
  let r := as_result a in
  let rank := dlrFailureRank state in
  let better := as_rank a <? rank in
  mkAgg
    (mkDlrAggregate
       (if better then state else ag_State r)
       (if better then p_DLRErrorCode segment else ag_ErrorCode r)
       (ag_Final r && isFinalDLRState state)
       (ag_AllDelivered r && p_DLRDelivered segment))
    (if as_expected a <? p_SegmentCount segment then p_SegmentCount segment else as_expected a)
    (if 0 <? p_SegmentIndex segment then {[p_SegmentIndex segment]} ∪ as_seen a else as_seen a)
    (if better then rank else as_rank a).

Definition agg_init : agg_state := mkAgg (mkDlrAggregate "PENDING" 0 true true) 1 ∅ 0.

Definition agg_finish (a : agg_state) : dlrAggregate :=
  let r := as_result a in
  let short := Z.of_nat (size (as_seen a)) <? as_expected a in
  let final := if short then false else ag_Final r in
  let all := if short then false else ag_AllDelivered r in
  if negb final then mkDlrAggregate "PENDING" 0 final all
  else if as_rank a =? 0 then mkDlrAggregate "DELIVRD" 0 final all
  else mkDlrAggregate (ag_State r) (ag_ErrorCode r) final all.

Definition aggregateDLR (segments : list Pending) : dlrAggregate :=
  match segments with
  | [] => mkDlrAggregate "PENDING" 0 false false
  | _ => agg_finish (foldl agg_step agg_init segments)
  end.

(** ** What the loop computes *)

Definition seg_state (p : Pending) : string := ToUpperTrim (p_DLRState p).
Definition seg_rank (p : Pending) : Z := dlrFailureRank (seg_state p).
Definition seg_final (p : Pending) : bool := isFinalDLRState (seg_state p).

(** Part numbers present, and how many there should be. *)
Definition parts_seen (segments : list Pending) : gset Z :=
  list_to_set (filter (fun i => 0 < i) (p_SegmentIndex <$> segments)).
Definition parts_expected (segments : list Pending) : Z := foldr (fun p m => Z.max (p_SegmentCount p) m) 1 segments.

(** The record whose state stands for the message: the first of the worst. *)
Definition worst (segments : list Pending) (rank : Z) (state : string) (err : Z) : Prop :=
  Forall (fun p => seg_rank p <= rank) segments
  /\ (rank = 0 \/ exists p, p ∈ segments /\ seg_rank p = rank /\ 0 < rank /\ state = seg_state p /\ err = p_DLRErrorCode p).

Lemma dlrFailureRank_nonneg s : 0 <= dlrFailureRank s.
Proof. unfold dlrFailureRank. repeat case_bool_decide; lia. Qed.

Lemma parts_expected_snoc l p :
  parts_expected (l ++ [p]) = Z.max (p_SegmentCount p) (parts_expected l).
Proof. induction l as [|x l IH]; simpl; [done|]. rewrite IH. lia. Qed.

Lemma agg_fold l :
  let a := foldl agg_step agg_init l in
  ag_Final (as_result a) = forallb seg_final l
  /\ ag_AllDelivered (as_result a) = forallb p_DLRDelivered l
  /\ as_expected a = parts_expected l /\ as_seen a = parts_seen l
  /\ 0 <= as_rank a /\ worst l (as_rank a) (ag_State (as_result a)) (ag_ErrorCode (as_result a)).
Proof.
  induction l as [|p l IH] using rev_ind.
  { cbn. split_and!; try done. split; [constructor|by left]. }
  cbn zeta in *. rewrite foldl_app. cbn [foldl]. set (a := foldl agg_step agg_init l) in *.
  destruct IH as (H1 & H2 & H3 & H4 & H5 & H6 & H7). unfold agg_step. cbn.
  rewrite !forallb_app, H1, H2, H3, H4, parts_expected_snoc. cbn [forallb]. rewrite !andb_true_r.
  split_and!; [done|done|case_match; lia| | |].
  - unfold parts_seen. rewrite fmap_app, filter_app, list_to_set_app_L. cbn [fmap list_fmap].
    rewrite filter_cons. destruct (Z.ltb_spec 0 (p_SegmentIndex p)); case_decide; try lia; cbn; set_solver.
  - fold (seg_state p). fold (seg_rank p). pose proof (dlrFailureRank_nonneg (seg_state p)). case_match; [done|lia].
  - fold (seg_state p). change (dlrFailureRank (seg_state p)) with (seg_rank p).
    destruct (Z.ltb_spec (as_rank a) (seg_rank p)).
    + split; [apply Forall_app; split; [eapply Forall_impl; [exact H6|]; simpl; intros; lia|by constructor]|].
      right. exists p. split_and!; try done; [set_solver|lia].
    + split; [apply Forall_app; split; [done|by constructor]|].
      destruct H7 as [H7|(q & Hq & H7)]; [by left|right]. exists q. split; [set_solver|done].
Qed.

Lemma agg_spec segments :
  let a := aggregateDLR segments in
  let complete := parts_expected segments <=? Z.of_nat (size (parts_seen segments)) in
  ag_Final a = (complete && forallb seg_final segments)
  /\ ag_AllDelivered a = (complete && forallb p_DLRDelivered segments)
  /\ (ag_Final a = false -> ag_State a = "PENDING" /\ ag_ErrorCode a = 0)
  /\ (ag_Final a = true ->
       (Forall (fun p => seg_rank p = 0) segments /\ ag_State a = "DELIVRD" /\ ag_ErrorCode a = 0)
       \/ (exists p, p ∈ segments /\ 0 < seg_rank p /\ ag_State a = seg_state p
             /\ ag_ErrorCode a = p_DLRErrorCode p /\ Forall (fun q => seg_rank q <= seg_rank p) segments)).
Proof.
  cbn zeta. destruct segments as [|s0 l0] eqn:E; [done|]. rewrite <- E.
  assert (aggregateDLR segments = agg_finish (foldl agg_step agg_init segments)) as -> by by rewrite E.
  clear E s0 l0. destruct (agg_fold segments) as (H1 & H2 & H3 & H4 & H5 & H6 & H7). cbn zeta in *.
  set (a := foldl agg_step agg_init segments) in *. unfold agg_finish. rewrite H1, H2, H3, H4.
  destruct (Z.ltb_spec (Z.of_nat (size (parts_seen segments))) (parts_expected segments)),
    (Z.leb_spec (parts_expected segments) (Z.of_nat (size (parts_seen segments)))); try lia; cbn; [done|].
  destruct (forallb seg_final segments); cbn; [|done]. destruct (Z.eqb_spec (as_rank a) 0) as [Hr|Hr]; cbn.
  - split_and!; [done..|]. intros _. left. split; [|done]. eapply Forall_impl; [exact H6|].
    intros p Hp. simpl in Hp. pose proof (dlrFailureRank_nonneg (seg_state p)). unfold seg_rank in *. lia.
  - split_and!; [done..|]. intros _. right. destruct H7 as [?|(p & Hp & Hrk & Hpos & -> & ->)]; [done|].
    exists p. rewrite Hrk. done.
Qed.

(** The aggregate of a message's records is final exactly when all announced
    parts are present with final states, and its state is then that of a
    record of the worst rank, DELIVRD when none failed. *)
Theorem aggregate_dlr_spec segments :
  let a := aggregateDLR segments in
  let complete := parts_expected segments <=? Z.of_nat (size (parts_seen segments)) in
  ag_Final a = (complete && forallb seg_final segments)
  /\ ag_AllDelivered a = (complete && forallb p_DLRDelivered segments)
  /\ (ag_Final a = false -> ag_State a = "PENDING" /\ ag_ErrorCode a = 0)
  /\ (ag_Final a = true ->
       (Forall (fun p => seg_rank p = 0) segments /\ ag_State a = "DELIVRD" /\ ag_ErrorCode a = 0)
       \/ (exists p, p ∈ segments /\ 0 < seg_rank p /\ ag_State a = seg_state p
             /\ ag_ErrorCode a = p_DLRErrorCode p /\ Forall (fun q => seg_rank q <= seg_rank p) segments)).
Proof. apply agg_spec. Qed.

Lemma rank_inj s t : 0 < dlrFailureRank s -> dlrFailureRank s = dlrFailureRank t -> s = t.
Proof. unfold dlrFailureRank. repeat case_bool_decide; subst; (done || lia). Qed.

Lemma forallb_Permutation {A} (f : A -> bool) l l' : l ≡ₚ l' -> forallb f l = forallb f l'.
Proof. induction 1; simpl; [done|congruence|by rewrite !andb_assoc, (andb_comm (f y))|congruence]. Qed.

Lemma parts_expected_Permutation l l' : l ≡ₚ l' -> parts_expected l = parts_expected l'.
Proof. induction 1; simpl; lia. Qed.

Lemma parts_seen_Permutation l l' : l ≡ₚ l' -> parts_seen l = parts_seen l'.
Proof. intros H. unfold parts_seen. apply list_to_set_perm_L. by rewrite H. Qed.

(** The aggregate does not depend on the order of the records, except for the
    error code when several share the worst state. *)
Theorem aggregate_dlr_order_free l l' :
  l ≡ₚ l' ->
  ag_Final (aggregateDLR l) = ag_Final (aggregateDLR l')
  /\ ag_AllDelivered (aggregateDLR l) = ag_AllDelivered (aggregateDLR l')
  /\ ag_State (aggregateDLR l) = ag_State (aggregateDLR l').
Proof.
  intros Hp. destruct (agg_spec l) as (F1 & A1 & P1 & W1). destruct (agg_spec l') as (F2 & A2 & P2 & W2).
  cbn zeta in *. rewrite (parts_expected_Permutation _ _ Hp), (parts_seen_Permutation _ _ Hp) in F1, A1.
  rewrite (forallb_Permutation _ _ _ Hp), <- F2 in F1. rewrite (forallb_Permutation _ _ _ Hp), <- A2 in A1.
  split; [done|]. split; [done|]. rewrite F1 in P1, W1. destruct (ag_Final (aggregateDLR l')).
  2: { destruct (P1 eq_refl) as [-> _]. by destruct (P2 eq_refl) as [-> _]. }
  destruct (W1 eq_refl) as [(H1 & -> & _)|(p & Hin & Hr & -> & _ & Hmax)],
    (W2 eq_refl) as [(H2 & -> & _)|(q & Hin' & Hr' & -> & _ & Hmax')]; [done|..];
    rewrite Forall_forall in *.
  - rewrite <- Hp in Hin'. specialize (H1 q Hin'). simpl in H1. lia.
  - rewrite Hp in Hin. specialize (H2 p Hin). simpl in H2. lia.
  - rewrite Hp in Hin. rewrite <- Hp in Hin'. specialize (Hmax q Hin'). specialize (Hmax' p Hin).
    simpl in *. apply rank_inj; unfold seg_rank in *; lia.
Qed.

Definition demo_pending (i n : Z) (state : string) (delivered : bool) : Pending :=
  {| p_ProviderID := FormatUint i 10; p_GatewayID := "m0000001"; p_TenantID := ""; p_AccountID := "";
     p_ClientMsgID := ""; p_SegmentIndex := i; p_SegmentCount := n; p_SourceKind := "smpp";
     p_SourceSession := "s1"; p_SourceSystem := "sys"; p_CallbackURL := ""; p_CallbackRule := "";
     p_From := "a"; p_To := "b"; p_Text := "hi"; p_DataCoding := 0; p_RegisteredDelivery := 1;
     p_Provider := "p1"; p_Route := "r1"; p_ReceivedAt := 5; p_ExpiresAt := 0; p_DLRReady := false;
     p_DLRDelivered := delivered; p_DLRState := state; p_DLRErrorCode := 7; p_DLRDoneAt := 0 |}.

Lemma aggregate_dlr_order_free_witness :
  ag_State (aggregateDLR [demo_pending 2 2 "DELIVRD" true; demo_pending 1 2 "undeliv" true]) = "UNDELIV".
Proof.
  destruct (aggregate_dlr_order_free
    [demo_pending 2 2 "DELIVRD" true; demo_pending 1 2 "undeliv" true]
    [demo_pending 1 2 "undeliv" true; demo_pending 2 2 "DELIVRD" true]) as (_ & _ & H).
  - apply perm_swap.
  - rewrite H. vm_compute. reflexivity.
Defined.
