(* ===== verification/Dispatch.v ===== *)
(** * The dispatcher: internal/dispatch/dispatcher.go, types.go

    Accepting submissions, sending outbox items to providers and handling
    delivery reports. The dispatcher's own interfaces (tenant resolver, rate
    limiter, content filter, providers, SMPP sessions, HTTP callbacks) are
    parameters: what they answer. The CDR sink is the list of the events it
    was given; the report channel is a list. *)

From S2P Require Import Prelude Unicode Codec Segment Num GoTime Records Store StoreInv StoreSubmit GatewayId.
From S2P Require Import Pdu Submit Addr Router DlrAggregate.

(** ** Data *)

Inductive SourceKind := SourceSMPP | SourceHTTPAPI | SourceOther.

Definition kind_String (k : SourceKind) : string :=
  match k with SourceSMPP => "smpp" | SourceHTTPAPI => "http" | SourceOther => "unknown" end.

Record SubmitSource := mkSubmitSource {
  src_Kind : SourceKind;
  src_SMPPSessionID : string;
  src_SMPPSystemID : string;
  src_CallbackURL : string;
  src_CallbackRule : string }.

Record Envelope := mkEnvelope {
  env_From : string;
  env_To : string;
  env_Text : string;
  env_ClientID : string;
  env_ClientMsgID : string;
  env_TenantID : string;
  env_AccountID : string;
  env_DataCoding : Z;
  env_Encoding : string;
  env_RegisteredDelivery : Z;
  env_Source : SubmitSource;
  env_ReceivedAt : time;
  env_Meta : option (gmap string string);
  env_UDH : list Z;
  env_RawPayload : list Z;
  env_RawPayloadSet : bool;
  env_SARRefNum : list Z;
  env_SARTotalSegments : list Z;
  env_SARSegmentSeqnum : list Z;
  env_SARSet : bool }.

Definition env_set_To (v : string) (r : Envelope) : Envelope :=
  {| env_From := env_From r; env_To := v; env_Text := env_Text r;
     env_ClientID := env_ClientID r; env_ClientMsgID := env_ClientMsgID r; env_TenantID := env_TenantID r;
     env_AccountID := env_AccountID r; env_DataCoding := env_DataCoding r; env_Encoding := env_Encoding r;
     env_RegisteredDelivery := env_RegisteredDelivery r; env_Source := env_Source r; env_ReceivedAt := env_ReceivedAt r;
     env_Meta := env_Meta r; env_UDH := env_UDH r; env_RawPayload := env_RawPayload r;
     env_RawPayloadSet := env_RawPayloadSet r; env_SARRefNum := env_SARRefNum r; env_SARTotalSegments := env_SARTotalSegments r;
     env_SARSegmentSeqnum := env_SARSegmentSeqnum r; env_SARSet := env_SARSet r |}.

Definition env_set_Text (v : string) (r : Envelope) : Envelope :=
  {| env_From := env_From r; env_To := env_To r; env_Text := v;
     env_ClientID := env_ClientID r; env_ClientMsgID := env_ClientMsgID r; env_TenantID := env_TenantID r;
     env_AccountID := env_AccountID r; env_DataCoding := env_DataCoding r; env_Encoding := env_Encoding r;
     env_RegisteredDelivery := env_RegisteredDelivery r; env_Source := env_Source r; env_ReceivedAt := env_ReceivedAt r;
     env_Meta := env_Meta r; env_UDH := env_UDH r; env_RawPayload := env_RawPayload r;
     env_RawPayloadSet := env_RawPayloadSet r; env_SARRefNum := env_SARRefNum r; env_SARTotalSegments := env_SARTotalSegments r;
     env_SARSegmentSeqnum := env_SARSegmentSeqnum r; env_SARSet := env_SARSet r |}.

Definition env_set_TenantID (v : string) (r : Envelope) : Envelope :=
  {| env_From := env_From r; env_To := env_To r; env_Text := env_Text r;
     env_ClientID := env_ClientID r; env_ClientMsgID := env_ClientMsgID r; env_TenantID := v;
     env_AccountID := env_AccountID r; env_DataCoding := env_DataCoding r; env_Encoding := env_Encoding r;
     env_RegisteredDelivery := env_RegisteredDelivery r; env_Source := env_Source r; env_ReceivedAt := env_ReceivedAt r;
     env_Meta := env_Meta r; env_UDH := env_UDH r; env_RawPayload := env_RawPayload r;
     env_RawPayloadSet := env_RawPayloadSet r; env_SARRefNum := env_SARRefNum r; env_SARTotalSegments := env_SARTotalSegments r;
     env_SARSegmentSeqnum := env_SARSegmentSeqnum r; env_SARSet := env_SARSet r |}.

Definition env_set_AccountID (v : string) (r : Envelope) : Envelope :=
  {| env_From := env_From r; env_To := env_To r; env_Text := env_Text r;
     env_ClientID := env_ClientID r; env_ClientMsgID := env_ClientMsgID r; env_TenantID := env_TenantID r;
     env_AccountID := v; env_DataCoding := env_DataCoding r; env_Encoding := env_Encoding r;
     env_RegisteredDelivery := env_RegisteredDelivery r; env_Source := env_Source r; env_ReceivedAt := env_ReceivedAt r;
     env_Meta := env_Meta r; env_UDH := env_UDH r; env_RawPayload := env_RawPayload r;
     env_RawPayloadSet := env_RawPayloadSet r; env_SARRefNum := env_SARRefNum r; env_SARTotalSegments := env_SARTotalSegments r;
     env_SARSegmentSeqnum := env_SARSegmentSeqnum r; env_SARSet := env_SARSet r |}.

Definition env_set_DataCoding (v : Z) (r : Envelope) : Envelope :=
  {| env_From := env_From r; env_To := env_To r; env_Text := env_Text r;
     env_ClientID := env_ClientID r; env_ClientMsgID := env_ClientMsgID r; env_TenantID := env_TenantID r;
     env_AccountID := env_AccountID r; env_DataCoding := v; env_Encoding := env_Encoding r;
     env_RegisteredDelivery := env_RegisteredDelivery r; env_Source := env_Source r; env_ReceivedAt := env_ReceivedAt r;
     env_Meta := env_Meta r; env_UDH := env_UDH r; env_RawPayload := env_RawPayload r;
     env_RawPayloadSet := env_RawPayloadSet r; env_SARRefNum := env_SARRefNum r; env_SARTotalSegments := env_SARTotalSegments r;
     env_SARSegmentSeqnum := env_SARSegmentSeqnum r; env_SARSet := env_SARSet r |}.

Definition env_set_Encoding (v : string) (r : Envelope) : Envelope :=
  {| env_From := env_From r; env_To := env_To r; env_Text := env_Text r;
     env_ClientID := env_ClientID r; env_ClientMsgID := env_ClientMsgID r; env_TenantID := env_TenantID r;
     env_AccountID := env_AccountID r; env_DataCoding := env_DataCoding r; env_Encoding := v;
     env_RegisteredDelivery := env_RegisteredDelivery r; env_Source := env_Source r; env_ReceivedAt := env_ReceivedAt r;
     env_Meta := env_Meta r; env_UDH := env_UDH r; env_RawPayload := env_RawPayload r;
     env_RawPayloadSet := env_RawPayloadSet r; env_SARRefNum := env_SARRefNum r; env_SARTotalSegments := env_SARTotalSegments r;
     env_SARSegmentSeqnum := env_SARSegmentSeqnum r; env_SARSet := env_SARSet r |}.

Definition env_set_ReceivedAt (v : time) (r : Envelope) : Envelope :=
  {| env_From := env_From r; env_To := env_To r; env_Text := env_Text r;
     env_ClientID := env_ClientID r; env_ClientMsgID := env_ClientMsgID r; env_TenantID := env_TenantID r;
     env_AccountID := env_AccountID r; env_DataCoding := env_DataCoding r; env_Encoding := env_Encoding r;
     env_RegisteredDelivery := env_RegisteredDelivery r; env_Source := env_Source r; env_ReceivedAt := v;
     env_Meta := env_Meta r; env_UDH := env_UDH r; env_RawPayload := env_RawPayload r;
     env_RawPayloadSet := env_RawPayloadSet r; env_SARRefNum := env_SARRefNum r; env_SARTotalSegments := env_SARTotalSegments r;
     env_SARSegmentSeqnum := env_SARSegmentSeqnum r; env_SARSet := env_SARSet r |}.

Definition env_set_RawPayload (v : list Z) (r : Envelope) : Envelope :=
  {| env_From := env_From r; env_To := env_To r; env_Text := env_Text r;
     env_ClientID := env_ClientID r; env_ClientMsgID := env_ClientMsgID r; env_TenantID := env_TenantID r;
     env_AccountID := env_AccountID r; env_DataCoding := env_DataCoding r; env_Encoding := env_Encoding r;
     env_RegisteredDelivery := env_RegisteredDelivery r; env_Source := env_Source r; env_ReceivedAt := env_ReceivedAt r;
     env_Meta := env_Meta r; env_UDH := env_UDH r; env_RawPayload := v;
     env_RawPayloadSet := env_RawPayloadSet r; env_SARRefNum := env_SARRefNum r; env_SARTotalSegments := env_SARTotalSegments r;
     env_SARSegmentSeqnum := env_SARSegmentSeqnum r; env_SARSet := env_SARSet r |}.

Definition env_set_RawPayloadSet (v : bool) (r : Envelope) : Envelope :=
  {| env_From := env_From r; env_To := env_To r; env_Text := env_Text r;
     env_ClientID := env_ClientID r; env_ClientMsgID := env_ClientMsgID r; env_TenantID := env_TenantID r;
     env_AccountID := env_AccountID r; env_DataCoding := env_DataCoding r; env_Encoding := env_Encoding r;
     env_RegisteredDelivery := env_RegisteredDelivery r; env_Source := env_Source r; env_ReceivedAt := env_ReceivedAt r;
     env_Meta := env_Meta r; env_UDH := env_UDH r; env_RawPayload := env_RawPayload r;
     env_RawPayloadSet := v; env_SARRefNum := env_SARRefNum r; env_SARTotalSegments := env_SARTotalSegments r;
     env_SARSegmentSeqnum := env_SARSegmentSeqnum r; env_SARSet := env_SARSet r |}.

Record Receipt := mkReceipt {
  rc_GatewayID : string;
  rc_ProviderID : string;
  rc_Provider : string;
  rc_Route : string;
  rc_State : string }.

(** [provider.DLR]. *)
Record DLR := mkDLR {
  dlr_Provider : string;
  dlr_ProviderID : string;
  dlr_State : string;
  dlr_ErrorCode : Z;
  dlr_DoneAt : time }.

(** [cdr.Event]. *)
Record Event := mkEvent {
  ev_Seq : Z;
  ev_Ts : string;
  ev_Kind : string;
  ev_GatewayID : string;
  ev_ProviderID : string;
  ev_From : string;
  ev_To : string;
  ev_TextLen : Z;
  ev_TextHash : string;
  ev_Text : string;
  ev_Encoding : string;
  ev_Segments : Z;
  ev_SegmentIndex : Z;
  ev_SegmentCount : Z;
  ev_MessageState : string;
  ev_Final : bool;
  ev_Route : string;
  ev_Provider : string;
  ev_ClientID : string;
  ev_TenantID : string;
  ev_AccountID : string;
  ev_ClientMsgID : string;
  ev_SystemID : string;
  ev_Source : string;
  ev_State : string;
  ev_ErrorCode : Z;
  ev_Reason : string;
  ev_FilterRule : string;
  ev_Instance : string }.

Definition ev_set_Instance (v : string) (r : Event) : Event :=
  {| ev_Seq := ev_Seq r; ev_Ts := ev_Ts r; ev_Kind := ev_Kind r;
     ev_GatewayID := ev_GatewayID r; ev_ProviderID := ev_ProviderID r; ev_From := ev_From r;
     ev_To := ev_To r; ev_TextLen := ev_TextLen r; ev_TextHash := ev_TextHash r;
     ev_Text := ev_Text r; ev_Encoding := ev_Encoding r; ev_Segments := ev_Segments r;
     ev_SegmentIndex := ev_SegmentIndex r; ev_SegmentCount := ev_SegmentCount r; ev_MessageState := ev_MessageState r;
     ev_Final := ev_Final r; ev_Route := ev_Route r; ev_Provider := ev_Provider r;
     ev_ClientID := ev_ClientID r; ev_TenantID := ev_TenantID r; ev_AccountID := ev_AccountID r;
     ev_ClientMsgID := ev_ClientMsgID r; ev_SystemID := ev_SystemID r; ev_Source := ev_Source r;
     ev_State := ev_State r; ev_ErrorCode := ev_ErrorCode r; ev_Reason := ev_Reason r;
     ev_FilterRule := ev_FilterRule r; ev_Instance := v |}.

(** [tenant.Identity]; the location is seen through the quota date only. *)
Record Identity := mkIdentity {
  id_TenantID : string;
  id_AccountID : string;
  id_Enabled : bool;
  id_TPS : Z;
  id_Burst : Z;
  id_DailySegments : Z }.

(** [filter.Decision]. *)
Inductive Action := ActionPass | ActionBlock | ActionMask.

Record Decision_ := mkDecision {
  fd_Action : Action;
  fd_Reason : string;
  fd_NewText : string;
  fd_Tags : gset string }.

(** [d_cdr] is what the sink was given, [d_dlrCh] the buffered reports, [d_dlrBg]
    the reports handed to a goroutine of their own because the buffer was full. *)
Record Dispatcher := mkDispatcher {
  d_store : MemoryStore;
  d_idAlloc : idAllocator;
  d_router : option Router;
  d_pendingTTL : duration;
  d_claimTimeout : duration;
  d_workers : Z;
  d_claimLimit : Z;
  d_maxAttempts : Z;
  d_validateDest : bool;
  d_instanceID : option string;
  d_cdrSink : bool;
  d_cdr : list Event;
  d_dlrCh : list DLR;
  d_dlrBg : list DLR;
  d_dlrPick : Z }.

Definition d_set_store (v : MemoryStore) (r : Dispatcher) : Dispatcher :=
  {| d_store := v; d_idAlloc := d_idAlloc r; d_router := d_router r;
     d_pendingTTL := d_pendingTTL r; d_claimTimeout := d_claimTimeout r; d_workers := d_workers r;
     d_claimLimit := d_claimLimit r; d_maxAttempts := d_maxAttempts r; d_validateDest := d_validateDest r;
     d_instanceID := d_instanceID r; d_cdrSink := d_cdrSink r; d_cdr := d_cdr r;
     d_dlrCh := d_dlrCh r; d_dlrBg := d_dlrBg r; d_dlrPick := d_dlrPick r |}.

Definition d_set_idAlloc (v : idAllocator) (r : Dispatcher) : Dispatcher :=
  {| d_store := d_store r; d_idAlloc := v; d_router := d_router r;
     d_pendingTTL := d_pendingTTL r; d_claimTimeout := d_claimTimeout r; d_workers := d_workers r;
     d_claimLimit := d_claimLimit r; d_maxAttempts := d_maxAttempts r; d_validateDest := d_validateDest r;
     d_instanceID := d_instanceID r; d_cdrSink := d_cdrSink r; d_cdr := d_cdr r;
     d_dlrCh := d_dlrCh r; d_dlrBg := d_dlrBg r; d_dlrPick := d_dlrPick r |}.

Definition d_set_cdr (v : list Event) (r : Dispatcher) : Dispatcher :=
  {| d_store := d_store r; d_idAlloc := d_idAlloc r; d_router := d_router r;
     d_pendingTTL := d_pendingTTL r; d_claimTimeout := d_claimTimeout r; d_workers := d_workers r;
     d_claimLimit := d_claimLimit r; d_maxAttempts := d_maxAttempts r; d_validateDest := d_validateDest r;
     d_instanceID := d_instanceID r; d_cdrSink := d_cdrSink r; d_cdr := v;
     d_dlrCh := d_dlrCh r; d_dlrBg := d_dlrBg r; d_dlrPick := d_dlrPick r |}.

Definition d_set_dlrCh (v : list DLR) (r : Dispatcher) : Dispatcher :=
  {| d_store := d_store r; d_idAlloc := d_idAlloc r; d_router := d_router r;
     d_pendingTTL := d_pendingTTL r; d_claimTimeout := d_claimTimeout r; d_workers := d_workers r;
     d_claimLimit := d_claimLimit r; d_maxAttempts := d_maxAttempts r; d_validateDest := d_validateDest r;
     d_instanceID := d_instanceID r; d_cdrSink := d_cdrSink r; d_cdr := d_cdr r;
     d_dlrCh := v; d_dlrBg := d_dlrBg r; d_dlrPick := d_dlrPick r |}.

Definition d_set_dlrBg (v : list DLR) (r : Dispatcher) : Dispatcher :=
  {| d_store := d_store r; d_idAlloc := d_idAlloc r; d_router := d_router r;
     d_pendingTTL := d_pendingTTL r; d_claimTimeout := d_claimTimeout r; d_workers := d_workers r;
     d_claimLimit := d_claimLimit r; d_maxAttempts := d_maxAttempts r; d_validateDest := d_validateDest r;
     d_instanceID := d_instanceID r; d_cdrSink := d_cdrSink r; d_cdr := d_cdr r;
     d_dlrCh := d_dlrCh r; d_dlrBg := v; d_dlrPick := d_dlrPick r |}.

Definition d_set_dlrPick (v : Z) (r : Dispatcher) : Dispatcher :=
  {| d_store := d_store r; d_idAlloc := d_idAlloc r; d_router := d_router r;
     d_pendingTTL := d_pendingTTL r; d_claimTimeout := d_claimTimeout r; d_workers := d_workers r;
     d_claimLimit := d_claimLimit r; d_maxAttempts := d_maxAttempts r; d_validateDest := d_validateDest r;
     d_instanceID := d_instanceID r; d_cdrSink := d_cdrSink r; d_cdr := d_cdr r;
     d_dlrCh := d_dlrCh r; d_dlrBg := d_dlrBg r; d_dlrPick := v |}.

Inductive dispatch_err :=
| ErrTenantDisabled
| ErrRateExceeded
| ErrBlocked (reason : string)
| ErrNoRouter
| ErrNoRoute (what : string)
| ErrInvalidDestAddr
| ErrGatewayID (msg : string)
| ErrStore (e : store_err)
| ErrCallback
| ErrPush.

(** What a submission asks of its surroundings: the clock readings it takes,
    the date of the quota, the reference of a split, and the interfaces. *)
Record SubmitEnv := mkSubmitEnv {
  se_resolve : string -> string -> option Identity;
  se_allow : string -> Z -> Z -> bool;
  se_engine : option (string -> Decision_);
  se_now_received : time;
  se_now_check : time;
  se_now_new : time;
  se_now_store : time;
  se_today : Identity -> string;
  se_ref : Z }.

Section dispatch.
(** [cdr.TextHash]: SHA-256 in hexadecimal. *)
Context (TextHash : string -> string).

(** ** Events *)

Definition emitCDR (e : Event) (d : Dispatcher) : Dispatcher :=
  if d_cdrSink d then
    let e :=
      if bool_decide (ev_Instance e = "") then
        match d_instanceID d with Some id => ev_set_Instance id e | None => e end
      else e in
    d_set_cdr (d_cdr d ++ [e]) d
  else d.

Definition text_len (text : string) : Z := Z.of_nat (length (runes text)).

(** The event literals of [Submit]; fields a literal leaves out are empty. *)
Definition env_event (env : Envelope) (kind gatewayID encoding : string) (segments : Z)
    (route provider state reason filterRule : string) : Event :=
  {| ev_Seq := 0; ev_Ts := ""; ev_Kind := kind; ev_GatewayID := gatewayID; ev_ProviderID := "";
     ev_From := env_From env; ev_To := env_To env; ev_TextLen := text_len (env_Text env);
     ev_TextHash := TextHash (env_Text env); ev_Text := ""; ev_Encoding := encoding;
     ev_Segments := segments; ev_SegmentIndex := 0; ev_SegmentCount := 0; ev_MessageState := "";
     ev_Final := false; ev_Route := route; ev_Provider := provider; ev_ClientID := env_ClientID env;
     ev_TenantID := env_TenantID env; ev_AccountID := env_AccountID env;
     ev_ClientMsgID := env_ClientMsgID env; ev_SystemID := src_SMPPSystemID (env_Source env);
     ev_Source := kind_String (src_Kind (env_Source env)); ev_State := state; ev_ErrorCode := 0;
     ev_Reason := reason; ev_FilterRule := filterRule; ev_Instance := "" |}.

Definition rejected (env : Envelope) (gatewayID route provider reason filterRule : string) : Event :=
  env_event env "rejected" gatewayID "" 0 route provider "" reason filterRule.

Definition emitSubmitRejected (env : Envelope) (reason : string) : Dispatcher -> Dispatcher :=
  emitCDR (rejected env "" "" "" reason "").

(** ** Submissions *)

Definition resolveTenant (se : SubmitEnv) (env : Envelope) : option Identity :=
  match src_Kind (env_Source env) with
  | SourceSMPP => se_resolve se "smpp" (src_SMPPSystemID (env_Source env))
  | SourceHTTPAPI => se_resolve se "http" (env_ClientID env)
  | SourceOther => None
  end.

Definition receiptForExisting (gatewayID : string) (s : MemoryStore) : Receipt :=
  match GetMessage gatewayID s with
  | Some m => mkReceipt gatewayID (msg_ProviderID m) (msg_Provider m) (msg_Route m) (msg_State m)
  | None => mkReceipt gatewayID "" "" "" "queued"
  end.

(** The tenant and rate part: the envelope to go on with, or an early answer. *)
Definition admit_tenant (se : SubmitEnv) (env : Envelope) (d : Dispatcher)
    : Dispatcher * (Envelope + res dispatch_err Receipt) :=
  match resolveTenant se env with
  | None => (d, inl env)
  | Some identity =>
    let env := env_set_AccountID (id_AccountID identity) (env_set_TenantID (id_TenantID identity) env) in
    if negb (id_Enabled identity) then
      (emitSubmitRejected env "tenant_disabled" d, inr (Err ErrTenantDisabled))
    else if negb (se_allow se (id_TenantID identity) (id_TPS identity) (id_Burst identity)) then
      let '(d, found) :=
        if negb (bool_decide (env_ClientID env = "")) && negb (bool_decide (env_ClientMsgID env = "")) then
          let '(s, found) := CheckIdempotency (se_now_check se) (env_ClientID env) (env_ClientMsgID env) (d_store d) in
          (d_set_store s d, found)
        else (d, None) in
      match found with
      | Some gatewayID => (d, inr (Ok (receiptForExisting gatewayID (d_store d))))
      | None => (emitSubmitRejected env "tenant_tps" d, inr (Err ErrRateExceeded))
      end
    else (d, inl env)
  end.

(** The content filter: a masked text drops the raw payload and its coding. *)
Definition apply_filter (se : SubmitEnv) (env : Envelope) (d : Dispatcher)
    : Dispatcher * res dispatch_err (Envelope * gset string) :=
  match se_engine se with
  | None => (d, Ok (env, ∅))
  | Some evaluate =>
    let dec := evaluate (env_Text env) in
    match fd_Action dec with
    | ActionBlock =>
      (emitCDR (rejected env "" "" "" "filter_block" (fd_Reason dec)) d, Err (ErrBlocked (fd_Reason dec)))
    | ActionMask =>
      if (0 <? length (env_UDH env))%nat || env_SARSet env then
        (emitCDR (rejected env "" "" "" "filter_mask_multipart" (fd_Reason dec)) d,
         Err (ErrBlocked "cannot mask an individual multipart segment"))
      else
        (d, Ok (env_set_DataCoding 0 (env_set_Encoding "" (env_set_RawPayloadSet false
              (env_set_RawPayload [] (env_set_Text (fd_NewText dec) env)))), fd_Tags dec))
    | ActionPass => (d, Ok (env, fd_Tags dec))
    end
  end.

Definition ValidateEnabled (c : DestAddrConfig) (global : bool) : bool := default global (dc_Validate c).

Definition zero_rewrite : AddrRewriteConfig := mkAddrRewriteConfig false "" "" false.

(** Metadata of the stored message and of the outbox payload. *)
Definition submit_meta (env : Envelope) : option (gmap string string) :=
  if bool_decide (env_ClientID env = "") then env_Meta env
  else Some (<["client_id" := env_ClientID env]> (default ∅ (env_Meta env))).

Definition submit_encoding (env : Envelope) : string :=
  if bool_decide (env_Encoding env = "") then DetectEncoding (env_Text env) else env_Encoding env.

Definition submit_message (se : SubmitEnv) (env : Envelope) (gatewayID route provider : string) : Message :=
  {| msg_ID := gatewayID; msg_ProviderID := ""; msg_TenantID := env_TenantID env;
     msg_AccountID := env_AccountID env; msg_ClientMsgID := env_ClientMsgID env;
     msg_Direction := DirectionMT; msg_From := env_From env; msg_To := env_To env;
     msg_Text := env_Text env; msg_Encoding := submit_encoding env; msg_Route := route;
     msg_Provider := provider; msg_SourceKind := kind_String (src_Kind (env_Source env));
     msg_SourceID := src_SMPPSessionID (env_Source env); msg_State := "queued"; msg_ErrorCode := 0;
     msg_Segments := Split (env_Text env) (submit_encoding env) (se_ref se);
     msg_Metadata := submit_meta env; msg_SubmittedAt := se_now_new se; msg_SentAt := 0; msg_DoneAt := 0 |}.

Definition submit_payload (env : Envelope) (gatewayID route provider : string) : OutboxPayload :=
  {| op_GatewayID := gatewayID; op_TenantID := env_TenantID env; op_AccountID := env_AccountID env;
     op_ClientMsgID := env_ClientMsgID env; op_Provider := provider; op_Route := route;
     op_From := env_From env; op_To := env_To env; op_Text := env_Text env;
     op_DataCoding := env_DataCoding env; op_RegisteredDelivery := env_RegisteredDelivery env;
     op_Encoding := submit_encoding env; op_Meta := submit_meta env;
     op_SourceKind := kind_String (src_Kind (env_Source env));
     op_SourceSession := src_SMPPSessionID (env_Source env);
     op_SourceSystem := src_SMPPSystemID (env_Source env);
     op_CallbackURL := src_CallbackURL (env_Source env);
     op_CallbackRule := src_CallbackRule (env_Source env); op_ReceivedAt := env_ReceivedAt env;
     op_UDH := env_UDH env; op_RawPayload := env_RawPayload env;
     op_RawPayloadSet := env_RawPayloadSet env; op_SARRefNum := env_SARRefNum env;
     op_SARTotalSegments := env_SARTotalSegments env; op_SARSegmentSeqnum := env_SARSegmentSeqnum env;
     op_SARSet := env_SARSet env |}.

Definition submit_item (d : Dispatcher) (payload : OutboxPayload) : OutboxItem :=
  {| ob_ID := 0; ob_GatewayID := op_GatewayID payload; ob_Provider := op_Provider payload;
     ob_Payload := payload; ob_State := ""; ob_ClaimedBy := ""; ob_ClaimedAt := 0; ob_NextRetryAt := 0;
     ob_Attempt := 0; ob_MaxAttempts := d_maxAttempts d; ob_LastError := ""; ob_CreatedAt := 0 |}.

Definition submit_options (se : SubmitEnv) (env : Envelope) (identity : option Identity) (segments : Z)
    : SubmitOptions :=
  mkSubmitOptions (mkIdempotencyOptions (env_ClientID env) (env_ClientMsgID env) (24 * Hour))
    (match identity with
     | Some i =>
       if 0 <? id_DailySegments i
       then Some (mkDailyQuotaDebit (id_TenantID i) (se_today se i) segments (id_DailySegments i))
       else None
     | None => None
     end).

(** The address part: rewriting, then validation when the route or the
    dispatcher asks for it. *)
Definition route_address (d : Dispatcher) (route : RouteConfig) (env : Envelope) : Envelope * bool :=
  let env :=
    if bool_decide (rt_AddrRewrite route = zero_rewrite) then env
    else env_set_To (rewriteDestAddr (env_To env) (rt_AddrRewrite route)) env in
  let shouldValidate :=
    ValidateEnabled (rt_DestAddr route) (d_validateDest d) || ar_EnforceE164Len (rt_AddrRewrite route) in
  let opts := mkDestAddrOptions (dc_AllowShortCode (rt_DestAddr route)) (dc_MinShortLen (rt_DestAddr route))
    (dc_MaxShortLen (rt_DestAddr route)) (dc_CountryLengthMode (rt_DestAddr route)) in
  (env, if shouldValidate then validateDestAddr (env_To env) opts else true).

(** From the chosen route on: id, provider, storage. *)
Definition submit_on_route (se : SubmitEnv) (identity : option Identity) (rt : Router) (route : RouteConfig)
    (env : Envelope) (d : Dispatcher) : Dispatcher * res dispatch_err Receipt :=
  let providerHint := match SelectProvider rt route "" with Some h => mr_Provider h | None => "" end in
  let '(env, valid) := route_address d route env in
  if negb valid then
    (emitCDR (rejected env "" (rt_Name route) providerHint "bad_dest" "") d, Err ErrInvalidDestAddr)
  else
    let '(gid, a, s) := newGatewayID (d_idAlloc d) (d_store d) in
    let d := d_set_store s (d_set_idAlloc a d) in
    match gid with
    | Err e => (d, Err (ErrGatewayID e))
    | Ok gatewayID =>
      match SelectProvider rt route gatewayID with
      | None =>
        (emitCDR (rejected env gatewayID (rt_Name route) "" "no_provider" "") d, Err (ErrNoRoute (rt_Name route)))
      | Some m =>
        let msg := submit_message se env gatewayID (rt_Name route) (mr_Provider m) in
        let item := submit_item d (submit_payload env gatewayID (rt_Name route) (mr_Provider m)) in
        let opts := submit_options se env identity (Z.of_nat (length (msg_Segments msg))) in
        let '(s, r) := SubmitAtomic (se_now_store se) msg item opts (d_store d) in
        let d := d_set_store s d in
        match r with
        | Err e =>
          (if bool_decide (e = ErrQuotaExceeded) then emitSubmitRejected env "tenant_daily_segments" d else d,
           Err (ErrStore e))
        | Ok r =>
          if sr_duplicate r then (d, Ok (receiptForExisting (sr_gatewayID r) (d_store d)))
          else
            (emitCDR (env_event env "accepted" gatewayID (submit_encoding env)
                        (Z.of_nat (length (msg_Segments msg))) (rt_Name route) (mr_Provider m) "queued" "" "") d,
             Ok (mkReceipt gatewayID "" (mr_Provider m) (rt_Name route) "queued"))
        end
      end
    end.

Definition Submit (se : SubmitEnv) (env : Envelope) (d : Dispatcher) : Dispatcher * res dispatch_err Receipt :=
  let env := if IsZero (env_ReceivedAt env) then env_set_ReceivedAt (se_now_received se) env else env in
  let identity := resolveTenant se env in
  let '(d, admitted) := admit_tenant se env d in
  match admitted with
  | inr r => (d, r)
  | inl env =>
    let env := env_set_To (TrimPrefix (env_To env) "+") env in
    let '(d, filtered) := apply_filter se env d in
    match filtered with
    | Err e => (d, Err e)
    | Ok (env, tags) =>
      match d_router d with
      | None => (d, Err ErrNoRouter)
      | Some rt =>
        let input := mkMatchInput "" (env_To env) (env_From env) (src_SMPPSystemID (env_Source env))
          (env_ClientID env) tags (env_ReceivedAt env) in
        match MatchRoute (se_now_received se) rt input with
        | None => (emitCDR (rejected env "" "" "" "no_route" "") d, Err (ErrNoRoute (env_To env)))
        | Some route => submit_on_route se identity rt route env d
        end
      end
    end
  end.
End dispatch.
