(* ===== verification/DispatchSubmit.v ===== *)
(** * What a submission to the dispatcher does: internal/dispatch/dispatcher.go, Submit

    A refused submission leaves no trace in the store, an accepted one leaves
    exactly one queued message and one outbox item for an enabled provider,
    and the CDR stream tells the two apart. *)

From S2P Require Import Prelude Unicode Codec Segment Num GoTime Records Store StoreInv StoreSubmit GatewayId.
From S2P Require Import Addr Router Dispatch.

(** ** Frames *)

(** Entries of a map that may be gone: those that [gone] names. *)
Definition swept {K A} `{Countable K} (gone : A -> bool) (m m' : gmap K A) : Prop :=
  forall k, m' !! k = m !! k \/ (m' !! k = None /\ exists x, m !! k = Some x /\ gone x = true).

Definition key_gone (now : time) (r : idempotencyRecord) : bool := Before (ir_expiresAt r) now.

(** The books of a store: all a submission must leave alone when it is not
    accepted. Keys and pending reports that were expired at [now] may be gone,
    and the time of the last sweep may be another; nothing else differs. *)
Record same_books (now : time) (s s' : MemoryStore) : Prop := mk_same_books {
  sb_messages : st_messages s' = st_messages s;
  sb_index : st_messageByID s' = st_messageByID s;
  sb_outbox : st_outbox s' = st_outbox s;
  sb_next : st_nextOutbox s' = st_nextOutbox s;
  sb_quota : st_quotaUsage s' = st_quotaUsage s;
  sb_seq : st_gatewaySeq s' = st_gatewaySeq s;
  sb_max : st_maxMessages s' = st_maxMessages s;
  sb_pending : swept (pending_expired now) (st_pending s) (st_pending s');
  sb_keys : swept (key_gone now) (st_idempotency s) (st_idempotency s') }.

Section swept.
Context {K A : Type} `{Countable K}.
Implicit Types (m : gmap K A) (gone : A -> bool).

Lemma swept_refl gone m : swept gone m m.
Proof. intros k. by left. Qed.

Lemma swept_trans gone m1 m2 m3 : swept gone m1 m2 -> swept gone m2 m3 -> swept gone m1 m3.
Proof. intros H1 H2 k. destruct (H1 k) as [E1|[E1 ?]], (H2 k) as [E2|[E2 ?]]; [left|right|right|right]; rewrite ?E2, ?E1 in *; naive_solver. Qed.

Lemma swept_weaken gone gone' m m' : (forall x, gone x = true -> gone' x = true) -> swept gone m m' -> swept gone' m m'.
Proof. intros Hg Hs k. destruct (Hs k) as [?|(? & x & ? & ?)]; [by left|right]. split; [done|]. exists x. auto. Qed.

Lemma swept_filter gone m : swept gone m (filter (fun kv => gone kv.2 = false) m).
Proof.
  intros k. rewrite map_lookup_filter. destruct (m !! k) as [x|] eqn:E; cbn; [|by left].
  destruct (gone x) eqn:G; case_guard; cbn in *; try congruence; [right|by left]. split; [done|]. by exists x.
Qed.

Lemma swept_delete gone m k x : m !! k = Some x -> gone x = true -> swept gone m (delete k m).
Proof.
  intros Hk Hx j. destruct (decide (k = j)) as [<-|Hne]; [right|left; by apply lookup_delete_ne]. rewrite lookup_delete_eq. eauto.
Qed.
End swept.

Lemma same_books_refl now s : same_books now s s.
Proof. split; try done; apply swept_refl. Qed.

Lemma same_books_trans now a b c : same_books now a b -> same_books now b c -> same_books now a c.
Proof. intros [] []. split; try (by etrans; eauto); by eapply swept_trans. Qed.

#[export] Instance same_books_po now : PreOrder (same_books now).
Proof. split; [exact (same_books_refl now) | exact (same_books_trans now)]. Qed.

Lemma Before_late a now late : now <= late -> Before a now = true -> Before a late = true.
Proof. unfold Before. rewrite !Z.ltb_lt. lia. Qed.

Lemma same_books_late now late s s' : now <= late -> same_books now s s' -> same_books late s s'.
Proof.
  intros Hl []. split; try done; (eapply swept_weaken; [|eassumption]).
  - intros p. unfold pending_expired. rewrite !andb_true_iff. intros [? ?%(Before_late _ _ _ Hl)]. done.
  - intros r. by apply Before_late.
Qed.

Lemma same_books_sweep now s : same_books now s (sweepLocked now s).
Proof.
  split; try done; [apply swept_filter|]. eapply swept_weaken; [|apply (swept_filter (idem_expired now))].
  intros r. unfold idem_expired, key_gone. by intros [_ ?]%andb_true_iff.
Qed.

Lemma same_books_check now c k s : same_books now s (CheckIdempotency now c k s).1.
Proof.
  unfold CheckIdempotency. destruct (_ || _); [done|]. cbn zeta.
  assert (same_books now s (sweepLocked now s)) as Hs by apply same_books_sweep.
  destruct (st_idempotency _ !! _) as [rec|] eqn:E; [|done]. destruct (Before _ _) eqn:B; [|done].
  etrans; [exact Hs|]. split; try done; [apply swept_refl|]. by eapply swept_delete.
Qed.

Lemma newGatewayID_frame a s gid a' s' :
  newGatewayID a s = (gid, a', s') ->
  exists q, s' = st_set_gatewaySeq q s /\ (q = st_gatewaySeq s \/ q = st_gatewaySeq (ReserveGatewayIDRange (ia_span a) s).1).
Proof.
  unfold newGatewayID, Next. destruct (_ || _).
  - unfold ReserveGatewayIDRange. intros [= _ _ <-]. eexists. split; [done|]. by right.
  - intros [= _ _ <-]. exists (st_gatewaySeq s). split; [by destruct s|by left].
Qed.

Lemma emitCDR_store e d : d_store (emitCDR e d) = d_store d.
Proof. unfold emitCDR. by case_match. Qed.

Lemma emitCDR_cdr e d :
  exists e', d_cdr (emitCDR e d) = d_cdr d ++ (if d_cdrSink d then [e'] else [])
    /\ ev_Kind e' = ev_Kind e /\ ev_GatewayID e' = ev_GatewayID e /\ ev_Reason e' = ev_Reason e.
Proof.
  unfold emitCDR. destruct (d_cdrSink d); [|exists e; by rewrite app_nil_r].
  destruct (bool_decide _); [destruct (d_instanceID d)|]; eexists; split; try reflexivity; done.
Qed.

(** ** Outcomes *)

(** One event of the kind went to the sink, when there is one. *)
Definition reports (d d' : Dispatcher) (kind gatewayID : string) : Prop :=
  exists e, d_cdr d' = d_cdr d ++ (if d_cdrSink d then [e] else [])
    /\ ev_Kind e = kind /\ ev_GatewayID e = gatewayID.

(** The errors the CDR stream sees. *)
Definition reported (e : dispatch_err) : bool :=
  match e with
  | ErrTenantDisabled | ErrRateExceeded | ErrBlocked _ | ErrNoRoute _ | ErrInvalidDestAddr
  | ErrStore ErrQuotaExceeded => true
  | _ => false
  end.

(** The counter of gateway ids is where it was, or one range further. *)
Definition ids_taken (d : Dispatcher) (q : Z) : Prop :=
  q = st_gatewaySeq (d_store d) \/ q = st_gatewaySeq (ReserveGatewayIDRange (ia_span (d_idAlloc d)) (d_store d)).1.

(** The latest clock reading that a submission gives to the store. *)
Definition last_clock (se : SubmitEnv) : time := Z.max (se_now_check se) (se_now_store se).

(** The store as it was, but for gateway ids taken and what had expired. *)
Definition untouched (se : SubmitEnv) (d d' : Dispatcher) : Prop :=
  exists q, ids_taken d q /\ same_books (last_clock se) (st_set_gatewaySeq q (d_store d)) (d_store d').

Record refused (se : SubmitEnv) (d d' : Dispatcher) (e : dispatch_err) : Prop := mk_refused {
  rf_books : untouched se d d';
  rf_cdr : if reported e then exists g, reports d d' "rejected" g else d_cdr d' = d_cdr d }.

(** The answer to a repeated submission. *)
Record repeated (se : SubmitEnv) (env : Envelope) (d d' : Dispatcher) (rc : Receipt) : Prop := mk_repeated {
  rp_books : untouched se d d';
  rp_cdr : d_cdr d' = d_cdr d;
  rp_key : exists rec, st_idempotency (d_store d) !! (env_ClientID env, env_ClientMsgID env) = Some rec
    /\ rc = receiptForExisting (ir_gatewayID rec) (d_store d') }.

Lemma set_same_seq s : st_set_gatewaySeq (st_gatewaySeq s) s = s.
Proof. by destruct s. Qed.

Lemma untouched_books se d d' : same_books (last_clock se) (d_store d) (d_store d') -> untouched se d d'.
Proof. intros H. exists (st_gatewaySeq (d_store d)). split; [by left|]. by rewrite set_same_seq. Qed.

Lemma untouched_refl se d d' : d_store d' = d_store d -> untouched se d d'.
Proof. intros E. apply untouched_books. rewrite E. done. Qed.

Lemma untouched_store se d d1 d2 : untouched se d d1 -> d_store d2 = d_store d1 -> untouched se d d2.
Proof. intros (q & Hq & H) E. exists q. by rewrite E. Qed.

(** The identifying part of an envelope no stage changes. *)
Definition same_client (a b : Envelope) : Prop :=
  env_ClientID b = env_ClientID a /\ env_ClientMsgID b = env_ClientMsgID a /\ env_From b = env_From a.

Lemma reports_emit e d : reports d (emitCDR e d) (ev_Kind e) (ev_GatewayID e).
Proof. destruct (emitCDR_cdr e d) as (e' & ? & ? & ? & _). exists e'. auto. Qed.

Lemma reports_emit_after e d d1 kind g :
  d_cdr d1 = d_cdr d -> d_cdrSink d1 = d_cdrSink d -> ev_Kind e = kind -> ev_GatewayID e = g ->
  reports d (emitCDR e d1) kind g.
Proof. intros H1 H2 <- <-. destruct (reports_emit e d1) as (e' & ?). exists e'. by rewrite <- H1, <- H2. Qed.

Lemma refused_emit_after (TextHash : string -> string) se env g route provider reason rule d d1 err :
  reported err = true -> untouched se d d1 -> d_cdr d1 = d_cdr d -> d_cdrSink d1 = d_cdrSink d ->
  refused se d (emitCDR (rejected TextHash env g route provider reason rule) d1) err.
Proof.
  intros E Hu Hc Hs. split; [by eapply untouched_store; [|apply emitCDR_store]|]. rewrite E. exists g. by apply reports_emit_after.
Qed.

Lemma refused_emit (TextHash : string -> string) se env g route provider reason rule d err :
  reported err = true -> refused se d (emitCDR (rejected TextHash env g route provider reason rule) d) err.
Proof. intros E. apply refused_emit_after; try done. by apply untouched_refl. Qed.

Section outcomes.
Context (TextHash : string -> string).

Lemma check_found now c k s s' g :
  CheckIdempotency now c k s = (s', Some g) ->
  exists rec, st_idempotency s !! (c, k) = Some rec /\ g = ir_gatewayID rec.
Proof.
  unfold CheckIdempotency. destruct (_ || _); [done|]. cbn zeta.
  destruct (st_idempotency (sweepLocked now s) !! (c, k)) as [rec|] eqn:E; [|done].
  destruct (Before _ _); [done|]. intros [= _ <-]. exists rec. split; [|done].
  cbn in E. by apply map_lookup_filter_Some in E as [? _].
Qed.

Lemma admit_outcome se env d d' a :
  admit_tenant TextHash se env d = (d', a) ->
  match a with
  | inl env' => d' = d /\ same_client env env'
  | inr (Ok rc) => repeated se env d d' rc
  | inr (Err e) => refused se d d' e
  end.
Proof.
  unfold admit_tenant. destruct (resolveTenant se env) as [i|]; [|by intros [= <- <-]].
  destruct (negb (id_Enabled i)); [intros [= <- <-]; by apply refused_emit|].
  destruct (se_allow se _ _ _); cbn [negb]; [by intros [= <- <-]|]. cbn [env_ClientID env_ClientMsgID env_set_AccountID env_set_TenantID].
  destruct (_ && _).
  - destruct (CheckIdempotency _ _ _ _) as [s found] eqn:Ec.
    assert (untouched se d (d_set_store s d)) as Hb.
    { apply untouched_books. eapply same_books_late; [|cbn; change s with (s, found).1; rewrite <- Ec; apply same_books_check].
      unfold last_clock. lia. }
    destruct found as [g|]; intros [= <- <-].
    + apply check_found in Ec as (rec & ? & ->). split; [done..|]. eauto.
    + by apply refused_emit_after.
  - intros [= <- <-]. by apply refused_emit.
Qed.

Lemma apply_filter_outcome se env d d' r :
  apply_filter TextHash se env d = (d', r) ->
  match r with
  | Ok (env', _) => d' = d /\ same_client env env'
  | Err e => refused se d d' e
  end.
Proof.
  unfold apply_filter. destruct (se_engine se) as [ev|]; [|by intros [= <- <-]]. cbn zeta.
  destruct (fd_Action _); [by intros [= <- <-]|intros [= <- <-]; by apply refused_emit|].
  destruct (_ || _); intros [= <- <-]; [by apply refused_emit|done].
Qed.
End outcomes.

(** ** Acceptance *)

(** The message a full store drops for a new one. *)
Definition oldest_of_full (k : string) (s : MemoryStore) : Prop :=
  msg_ID <$> head (st_messages s) = Some k /\ Z.of_nat (length (st_messages s)) = st_maxMessages s.

Definition keyed (env : Envelope) : bool := negb (bool_decide (env_ClientID env = "")) && negb (bool_decide (env_ClientMsgID env = "")).

(** What an accepted submission leaves behind. *)
Record accepted (se : SubmitEnv) (identity : option Identity) (env : Envelope) (d d' : Dispatcher)
    (rc : Receipt) (msg : Message) (item : OutboxItem) : Prop := mk_accepted {
  ac_receipt : rc = mkReceipt (msg_ID msg) "" (msg_Provider msg) (msg_Route msg) "queued";
  ac_message : GetMessage (msg_ID msg) (d_store d') = Some msg;
  ac_queued : msg_State msg = "queued" /\ msg_ClientMsgID msg = env_ClientMsgID env
    /\ msg_From msg = env_From env;
  ac_client : env_ClientID env <> "" -> meta_get (msg_Metadata msg) "client_id" = env_ClientID env;
  ac_fresh : st_outbox (d_store d) !! ob_ID item = None;
  ac_outbox : st_outbox (d_store d') = <[ob_ID item := item]> (st_outbox (d_store d));
  ac_item : ob_State item = "pending" /\ ob_GatewayID item = msg_ID msg /\ ob_Provider item = msg_Provider msg
    /\ ob_Attempt item = 0 /\ op_Text (ob_Payload item) = msg_Text msg
    /\ op_Encoding (ob_Payload item) = msg_Encoding msg /\ op_To (ob_Payload item) = msg_To msg;
  ac_segments : msg_Segments msg = Split (msg_Text msg) (msg_Encoding msg) (se_ref se);
  ac_provider : exists rt, d_router d = Some rt /\ providerEnabled rt (msg_Provider msg) = true;
  ac_quota : forall i, identity = Some i -> 0 < id_DailySegments i ->
    let used s := quota_used s (id_TenantID i) (se_today se i) in
    used (d_store d') = used (d_store d) + Z.of_nat (length (msg_Segments msg))
    /\ used (d_store d') <= id_DailySegments i;
  ac_quota_others : forall t day,
    (forall i, identity = Some i -> 0 < id_DailySegments i -> (t, day) <> (id_TenantID i, se_today se i)) ->
    quota_used (d_store d') t day = quota_used (d_store d) t day;
  ac_others : forall k, k <> msg_ID msg ->
    GetMessage k (d_store d') = GetMessage k (d_store d) \/ oldest_of_full k (d_store d);
  ac_pending : swept (pending_expired (se_now_store se)) (st_pending (d_store d)) (st_pending (d_store d'));
  ac_keys : exists keys, swept (key_gone (se_now_store se)) (st_idempotency (d_store d)) keys
    /\ st_idempotency (d_store d')
       = if keyed env then <[(env_ClientID env, env_ClientMsgID env) := mkIdempotencyRecord (msg_ID msg) (se_now_store se + 24 * Hour)]> keys else keys;
  ac_ids : ids_taken d (st_gatewaySeq (d_store d'));
  ac_cdr : reports d d' "accepted" (msg_ID msg) }.

Section acceptance.
Context (TextHash : string -> string).

(** The effect of [SubmitAtomic] on a quota. *)
Lemma SubmitAtomic_quota now msg item opts s s' r q :
  SubmitAtomic now msg item opts s = (s', Ok r) -> sr_duplicate r = false ->
  so_Quota opts = Some q -> 0 < qd_Limit q ->
  let used s := quota_used s (qd_TenantID q) (qd_Date q) in
  used s' = used s + qd_Segments q /\ used s' <= qd_Limit q.
Proof.
  rewrite SubmitAtomic_cases. destruct (live_key now opts s); [by intros [= <- <-]|].
  destruct (debit_quota _ _) as [s2|] eqn:Hd; [|done]. intros [= <- <-] _ Hq Hl. rewrite Hq in Hd.
  apply (debit_quota_used _ _ _ (qd_TenantID q, qd_Date q)) in Hd as [H1 H2]. cbn [fst snd] in *.
  destruct (H2 Hl eq_refl) as [H3 H4]. rewrite bool_decide_true, andb_true_r in H1 by done.
  destruct (Z.ltb_spec 0 (qd_Limit q)); [|lia].
  set (s3 := st_set_outbox _ _).
  assert (quota_used s3 (qd_TenantID q) (qd_Date q) = quota_used s2 (qd_TenantID q) (qd_Date q)) as E.
  { subst s3. unfold quota_used. cbn [st_quotaUsage st_set_outbox st_set_nextOutbox].
    rewrite put_message_quota. unfold record_key. by destruct (submit_keyed opts). }
  rewrite E. split; [|done]. exact H1.
Qed.

Lemma SubmitAtomic_repeated now msg item opts s s' r :
  SubmitAtomic now msg item opts s = (s', Ok r) -> sr_duplicate r = true ->
  same_books now s s' /\ exists rec, st_idempotency s !! submit_key opts = Some rec /\ sr_gatewayID r = ir_gatewayID rec.
Proof.
  rewrite SubmitAtomic_cases. destruct (live_key now opts s) as [g|] eqn:Hk;
    [|destruct (debit_quota _ _); [by intros [= <- <-]|done]].
  intros [= <- <-] _. split; [apply same_books_sweep|]. unfold live_key in Hk.
  destruct (submit_keyed opts); [|done].
  destruct (st_idempotency (sweepLocked now s) !! _) as [rec|] eqn:E; [|done].
  destruct (After _ _); [|done]. injection Hk as <-. exists rec. split; [|done].
  cbn in E. by apply map_lookup_filter_Some in E as [? _].
Qed.

Lemma SubmitAtomic_refused now msg item opts s s' e :
  SubmitAtomic now msg item opts s = (s', Err e) -> same_books now s s'.
Proof.
  rewrite SubmitAtomic_cases. destruct (live_key now opts s); [done|].
  destruct (debit_quota _ _); [done|]. intros [= <- <-]. apply same_books_sweep.
Qed.

Lemma put_message_frame msg s :
  st_pending (put_message msg s) = st_pending s /\ st_gatewaySeq (put_message msg s) = st_gatewaySeq s.
Proof. unfold put_message, trimMessagesLocked. by repeat case_match. Qed.

(** What an accepted submission leaves as it was. *)
Lemma SubmitAtomic_frame now msg item opts s s' r :
  wf s -> 0 < st_maxMessages s -> SubmitAtomic now msg item opts s = (s', Ok r) -> sr_duplicate r = false ->
  (forall k, k <> msg_ID msg -> GetMessage k s' = GetMessage k s \/ oldest_of_full k s)
  /\ swept (pending_expired now) (st_pending s) (st_pending s')
  /\ (exists keys, swept (key_gone now) (st_idempotency s) keys
       /\ st_idempotency s' = if submit_keyed opts
          then <[submit_key opts := mkIdempotencyRecord (msg_ID msg) (now + idem_ttl (io_TTL (so_Idempotency opts)))]> keys else keys)
  /\ st_gatewaySeq s' = st_gatewaySeq s
  /\ forall t day, quota_used s' t day = quota_used s t day +
       match so_Quota opts with
       | Some q => if (0 <? qd_Limit q) && bool_decide ((qd_TenantID q, qd_Date q) = (t, day)) then qd_Segments q else 0
       | None => 0
       end.
Proof.
  intros Hwf Hmax. rewrite SubmitAtomic_cases. destruct (live_key now opts s); [by intros [= <- <-]|].
  pose proof (wf_sweepLocked now s Hwf) as Hsw. destruct (same_books_sweep now s) as [_ _ _ _ _ _ _ Hp Hk].
  destruct (debit_quota _ _) as [s2|] eqn:Hd; [|done]. intros [= <- <-] _.
  pose proof (debit_quota_wf _ _ _ Hsw Hd) as Hw2. pose proof (record_key_wf now msg opts s2 Hw2) as Hw3.
  pose proof (fun k => proj1 (debit_quota_used _ _ _ k Hd)) as Hq.
  apply debit_quota_fields in Hd as (E1 & E2 & E3 & _ & E5 & E6 & _ & E8). set (s3 := record_key now msg opts s2) in *.
  assert (st_messages s3 = st_messages s /\ st_messageByID s3 = st_messageByID s /\ st_maxMessages s3 = st_maxMessages s
    /\ st_pending s3 = st_pending s2 /\ st_gatewaySeq s3 = st_gatewaySeq s /\ st_quotaUsage s3 = st_quotaUsage s2) as (F1 & F2 & F3 & F4 & F5 & F6)
    by (cbn in E1, E2, E6, E8; unfold s3, record_key; destruct (submit_keyed opts); cbn; by split_and!).
  destruct (put_message_frame msg s3) as [G1 G2]. cbn [put_outbox fst st_pending st_gatewaySeq st_set_outbox st_set_nextOutbox st_idempotency]. split_and!.
  - intros k Hne. destruct (get_put_other msg s3 k Hw3) as [H|[H1 H2]]; [lia|done|left|right].
    + transitivity (GetMessage k (put_message msg s3)); [done|]. rewrite H. unfold GetMessage. by rewrite F1, F2.
    + unfold oldest_of_full. by rewrite <- F1, <- F3.
  - rewrite G1, F4, E3. exact Hp.
  - exists (st_idempotency s2). split; [rewrite E5; exact Hk|]. rewrite put_message_idempotency. unfold s3, record_key. by destruct (submit_keyed opts).
  - by rewrite G2.
  - intros t day. specialize (Hq (t, day)). cbn [fst snd] in Hq. transitivity (quota_used s2 t day); [|exact Hq].
    unfold quota_used. cbn [put_outbox fst st_quotaUsage st_set_outbox st_set_nextOutbox]. by rewrite put_message_quota, F6.
Qed.

Lemma outbox_defaults_fields id n1 n2 item :
  let it := outbox_defaults id n1 n2 item in
  ob_ID it = id /\ ob_GatewayID it = ob_GatewayID item /\ ob_Provider it = ob_Provider item
  /\ (ob_Attempt it, ob_Payload it) = (ob_Attempt item, ob_Payload item)
  /\ (ob_State item = "" -> ob_State it = "pending").
Proof.
  unfold outbox_defaults. cbn zeta. split_and!; intros; repeat case_match; try done; by rewrite bool_decide_true in *.
Qed.

Lemma route_address_client d route env env' ok :
  route_address d route env = (env', ok) -> same_client env env'.
Proof. unfold route_address. intros [= <- _]. by destruct (bool_decide _). Qed.

Lemma submit_on_route_outcome se identity rt route env d d' r :
  wf (d_store d) -> 0 < st_maxMessages (d_store d) -> d_router d = Some rt ->
  submit_on_route TextHash se identity rt route env d = (d', r) ->
  match r with
  | Err e => refused se d d' e
  | Ok rc => repeated se env d d' rc \/ exists msg item, accepted se identity env d d' rc msg item
  end.
Proof.
  intros Hwf Hmax Hrt. unfold submit_on_route. cbn zeta.
  destruct (route_address d route env) as [env' valid] eqn:Hra. apply route_address_client in Hra as Hc.
  destruct valid; cbn [negb]; [|intros [= <- <-]; by apply refused_emit].
  destruct (newGatewayID _ _) as [[gid a] s] eqn:Hg. apply newGatewayID_frame in Hg as (q & -> & Hq).
  set (d1 := d_set_store _ _). assert (untouched se d d1) as Hb1 by by exists q.
  destruct gid as [gid|]; [|intros [= <- <-]; by split].
  destruct (SelectProvider rt route gid) as [m|] eqn:Hsel; [|intros [= <- <-]; by apply refused_emit_after].
  apply SelectProvider_enabled in Hsel as (_ & _ & Hen & _).
  assert (forall s2, same_books (se_now_store se) (d_store d1) s2 -> untouched se d (d_set_store s2 d1)) as Hb2.
  { intros s2 H. exists q. split; [done|]. eapply same_books_late; [|exact H]. unfold last_clock. lia. }
  destruct (SubmitAtomic _ _ _ _ _) as [s2 r2] eqn:Hs. destruct r2 as [r2|e].
  2: { apply SubmitAtomic_refused, Hb2 in Hs.
       intros [= <- <-]. destruct (bool_decide_reflect (e = ErrQuotaExceeded)) as [->|Hne].
       - by apply refused_emit_after.
       - split; [done|]. by destruct e. }
  destruct (sr_duplicate r2) eqn:Hd.
  - intros [= <- <-]. left. destruct (SubmitAtomic_repeated _ _ _ _ _ _ _ Hs Hd) as (Hb3%Hb2 & rec & E1 & ->).
    destruct Hc as (Hc1 & Hc2 & _). split; [done..|]. exists rec. split; [|done].
    unfold submit_key in E1. cbn in E1. by rewrite Hc1, Hc2 in E1.
  - intros [= <- <-]. right.
    destruct (SubmitAtomic_visible _ _ _ _ _ _ _ (wf_set_gatewaySeq _ _ Hwf) Hmax Hs Hd) as (_ & Hget & Hfresh & Hout).
    destruct (SubmitAtomic_frame _ _ _ _ _ _ _ (wf_set_gatewaySeq _ _ Hwf) Hmax Hs Hd) as (Hothers & Hpend & (keys & Hk1 & Hk2) & Hseq & Hquota).
    match type of Hget with _ = Some ?m => exists m end.
    match type of Hout with _ = <[_ := ?it]> _ => exists it end.
    destruct Hc as (Hc1 & Hc2 & Hc3). set (p := submit_payload _ _ _ _) in *.
    destruct (outbox_defaults_fields (sr_outboxID r2) (se_now_store se) (se_now_store se) (submit_item d1 p))
      as (E1 & E2 & E3 & E4 & E5). specialize (E5 eq_refl).
    split; rewrite ?emitCDR_store, ?E1; [done|done|done| |exact Hfresh|exact Hout|..].
    + rewrite <- Hc1. intros Hid. cbn. unfold submit_meta. rewrite bool_decide_false by done. cbn. by rewrite lookup_insert_eq.
    + injection E4 as E4 E6. by rewrite E2, E3, E4, E5, E6.
    + done.
    + by exists rt.
    + intros i -> Hpos.
      apply (SubmitAtomic_quota _ _ _ _ _ _ _
        (mkDailyQuotaDebit (id_TenantID i) (se_today se i) (Z.of_nat (length (Split (env_Text env') (submit_encoding env') (se_ref se)))) (id_DailySegments i)) Hs Hd);
        [|done]. cbn. by destruct (Z.ltb_spec 0 (id_DailySegments i)); [|lia].
    + intros t day Hother. transitivity (quota_used s2 t day); [done|]. rewrite (Hquota t day). cbn [submit_options so_Quota].
      destruct identity as [i|]; [|apply Z.add_0_r]. destruct (Z.ltb_spec 0 (id_DailySegments i)) as [Hpos|]; [|apply Z.add_0_r]. cbn [qd_Limit qd_TenantID qd_Date].
      rewrite bool_decide_eq_false_2, andb_false_r by (intros E; by destruct (Hother i)). apply Z.add_0_r.
    + exact Hothers.
    + exact Hpend.
    + exists keys. split; [exact Hk1|]. cbn [d_store d_set_store]. rewrite Hk2. unfold submit_keyed, submit_key, keyed. cbn. by rewrite Hc1, Hc2.
    + cbn [d_store d_set_store]. rewrite Hseq. exact Hq.
    + by apply reports_emit_after.
Qed.
End acceptance.

(** ** Submit as a whole *)

Section submit.
Context (TextHash : string -> string).

Lemma repeated_after se env env' d d' rc : same_client env env' -> repeated se env' d d' rc -> repeated se env d d' rc.
Proof. intros (H1 & H2 & _) []. split; [done..|]. by rewrite <- H1, <- H2. Qed.

Lemma accepted_after se i env env' d d' rc msg item :
  same_client env env' -> accepted se i env' d d' rc msg item -> accepted se i env d d' rc msg item.
Proof.
  intros (H1 & H2 & H3) []. assert (keyed env = keyed env') as Ek by (unfold keyed; by rewrite H1, H2).
  split; try done; rewrite ?Ek, <- ?H1, <- ?H2, <- ?H3; done.
Qed.

Lemma same_client_trans a b c : same_client a b -> same_client b c -> same_client a c.
Proof. unfold same_client. intuition congruence. Qed.

Lemma Submit_outcome se env d d' r :
  wf (d_store d) -> 0 < st_maxMessages (d_store d) ->
  Submit TextHash se env d = (d', r) ->
  match r with
  | Err e => refused se d d' e
  | Ok rc => repeated se env d d' rc
      \/ exists msg item, accepted se (resolveTenant se env) env d d' rc msg item
  end.
Proof.
  intros Hwf Hmax. unfold Submit. set (env1 := if IsZero _ then _ else _).
  assert (same_client env env1) as Hc1 by (subst env1; by destruct (IsZero _)).
  assert (resolveTenant se env1 = resolveTenant se env) as -> by (subst env1; by destruct (IsZero _)).
  destruct (admit_tenant TextHash se env1 d) as [d1 a] eqn:Ha. apply admit_outcome in Ha.
  destruct a as [env2|[rc|e]]; [|intros [= <- <-]..].
  2: left; by eapply repeated_after.
  2: done.
  destruct Ha as [-> Hc2]. destruct (apply_filter TextHash se _ d) as [d2 f] eqn:Hf.
  apply apply_filter_outcome in Hf. destruct f as [[env3 tags]|e]; [|intros [= <- <-]; done].
  destruct Hf as [-> Hc3]. assert (same_client env env3) as Hc.
  { eapply same_client_trans; [exact Hc1|]. eapply same_client_trans; [exact Hc2|]. exact Hc3. }
  destruct (d_router d) as [rt|] eqn:Hrt; [|intros [= <- <-]; split; [by apply untouched_refl|done]].
  destruct (MatchRoute _ _ _) as [route|]; [|intros [= <- <-]; by apply refused_emit].
  intros Hs. apply submit_on_route_outcome in Hs; [|done..]. destruct r as [rc|e]; [|done].
  destruct Hs as [Hs|(msg & item & Hs)]; [left; by eapply repeated_after|right].
  exists msg, item. by eapply accepted_after.
Qed.

(** C8: A refused Submit on a well-formed store with a message cap leaves
    messages, index, outbox, quota, pending records and keys as they were,
    apart from pending records and keys that were expired and from the ids it
    reserved, and reports exactly one rejected event for every error the CDR
    stream covers and none for the others. *)
Theorem submit_refused_leaves_no_trace se env d d' e :
  wf (d_store d) -> 0 < st_maxMessages (d_store d) ->
  Submit TextHash se env d = (d', Err e) ->
  untouched se d d'
  /\ (if reported e then exists g, reports d d' "rejected" g else d_cdr d' = d_cdr d).
Proof. intros Hwf Hmax H. apply Submit_outcome in H; [|done..]. by destruct H. Qed.

(** C7: A successful Submit on a well-formed store with a message cap either
    repeats the receipt of the message registered under the client's key and
    changes nothing but the ids reserved and keys and pending records that
    were expired, or leaves exactly one new message, queued, and one new
    outbox item, pending, for an enabled provider, debits the tenant's quota
    by the number of segments and no other quota, registers the key, emits one
    accepted event, and keeps every other message (but the oldest of a full
    store), outbox item, key and pending record that was not expired. *)
Theorem submit_accepted_is_queued se env d d' rc :
  wf (d_store d) -> 0 < st_maxMessages (d_store d) ->
  Submit TextHash se env d = (d', Ok rc) ->
  repeated se env d d' rc
  \/ exists msg item, accepted se (resolveTenant se env) env d d' rc msg item.
Proof. intros Hwf Hmax H. by apply Submit_outcome in H. Qed.
End submit.

(** ** Examples *)

Definition demo_identity : Identity := mkIdentity "t1" "acc" true 10 10 5.

Definition demo_se : SubmitEnv :=
  mkSubmitEnv (fun _ _ => Some demo_identity) (fun _ _ _ => true) None 100 100 100 100
    (fun _ => "2024-02-29") 7.

Definition demo_submit_router : Router :=
  NewWithProviders [demo_route "r" "up" ["86"] 1 []] [("up", true)].

Definition demo_dispatcher : Dispatcher :=
  mkDispatcher NewMemory (newIDAllocator 1000) (Some demo_submit_router) (30 * Minute) (60 * Second) 10 20 5 true
    (Some "gw-1") true [] [] [] 0.

Definition demo_env : Envelope :=
  mkEnvelope "1069" "+8613800138000" "hello" "c1" "k1" "" "" 0 "" 1
    (mkSubmitSource SourceHTTPAPI "" "" "http://cb" "") 50 None [] [] false [] [] [] false.

(** A dispatcher whose tenant is disabled refuses the same submission. *)
Definition demo_se_disabled : SubmitEnv :=
  mkSubmitEnv (fun _ _ => Some (mkIdentity "t1" "acc" false 10 10 5)) (fun _ _ _ => true) None 100 100 100 100
    (fun _ => "2024-02-29") 7.

Lemma submit_refused_leaves_no_trace_witness :
  untouched demo_se_disabled demo_dispatcher (Submit id demo_se_disabled demo_env demo_dispatcher).1.
Proof.
  apply (submit_refused_leaves_no_trace id demo_se_disabled demo_env demo_dispatcher _ ErrTenantDisabled).
  - apply wf_NewMemory.
  - reflexivity.
  - vm_compute. reflexivity.
Defined.

Lemma submit_accepted_is_queued_witness :
  exists d rc, Submit id demo_se demo_env demo_dispatcher = (d, Ok rc) /\ rc_GatewayID rc = "m0000001"
  /\ (repeated demo_se demo_env demo_dispatcher d rc
      \/ exists msg item, accepted demo_se (Some demo_identity) demo_env demo_dispatcher d rc msg item).
Proof.
  eexists _, (mkReceipt "m0000001" "" "up" "r" "queued"). split; [vm_compute; reflexivity|]. split; [reflexivity|].
  apply (submit_accepted_is_queued id demo_se demo_env demo_dispatcher).
  - apply wf_NewMemory.
  - reflexivity.
  - vm_compute. reflexivity.
Defined.
