(* ===== verification/DispatchSend.v ===== *)
(** * Sending outbox items: internal/dispatch/dispatcher.go, processOutbox and its helpers

    A worker goroutine takes a claimed item through the store and the provider.
    Each store operation is atomic; between two of them other goroutines run.
    What they do to the store is the parameter [sv_others]: any sequence of
    store calls at each point. *)

From S2P Require Import Prelude Unicode Codec Segment Num GoTime Records Store StoreInv StoreSubmit GatewayId.
From S2P Require Import Addr Router DlrAggregate Dispatch DispatchSubmit.

(** ** Providers *)

(** [provider.OutboundMessage], without its context. *)
Record OutboundMessage := mkOutboundMessage {
  om_GatewayID : string;
  om_SourceAddr : string;
  om_DestAddr : string;
  om_Text : string;
  om_DataCoding : Z;
  om_RegisteredDelivery : Z;
  om_Encoding : string;
  om_Meta : option (gmap string string);
  om_UDH : list Z;
  om_RawPayload : list Z;
  om_RawPayloadSet : bool;
  om_SARRefNum : list Z;
  om_SARTotalSegments : list Z;
  om_SARSegmentSeqnum : list Z;
  om_SARSet : bool }.

(** An error as the dispatcher sees it: its text, whether it has a true
    [Permanent] method, the status of its [SMPPStatus] method. *)
Record send_err := mkSendErr {
  er_Error : string;
  er_Permanent : bool;
  er_SMPPStatus : option Z }.

(** [provider.Provider], or [provider.MultiIDProvider]. *)
Inductive Provider :=
| SingleID (Send : OutboundMessage -> res send_err string)
| MultiID (SendAll : OutboundMessage -> res send_err (list string)).

Definition sendProvider (p : Provider) (msg : OutboundMessage) : res send_err (list string) :=
  match p with
  | MultiID SendAll => SendAll msg
  | SingleID Send =>
    id ← Send msg;
    Ok (if bool_decide (id = "") then [] else [id])
  end.

Definition isPermanent (err : send_err) : bool := er_Permanent err.

Definition terminalFailureDLR (err : send_err) : string * Z :=
  match er_SMPPStatus err with
  | Some status => ("REJECTD", if 999 <? status then 999 else status)
  | None => ("UNDELIV", 1)
  end.

(** [jitter] is the result of [rand.Intn(1000)]. *)
Definition retryDelay (attempt jitter : Z) : duration :=
  let attempt := if attempt <? 1 then 1 else attempt in
  let attempt := if 6 <? attempt then 6 else attempt in
  Z.shiftl 1 (attempt - 1) * Second + jitter * 1000000.

(** ** Retried transitions *)

(** [others k] runs before attempt [k]; [cancel k]: the context ends during the
    wait after it. *)
Section retry.
Context (others : nat -> list call) (cancel : nat -> bool)
  (fn : MemoryStore -> MemoryStore * res store_err unit).

Fixpoint retry_from (more attempt : nat) (s : MemoryStore) : MemoryStore * res store_err unit :=
  match fn (exec_all (others attempt) s) with
  | (s, Ok _) => (s, Ok tt)
  | (s, Err e) =>
    match more with
    | O => (s, Err e)
    | S more => if cancel attempt then (s, Err e) else retry_from more (S attempt) s
    end
  end.

Definition retryStoreTransition : MemoryStore -> MemoryStore * res store_err unit := retry_from 2 0.
End retry.

(** ** The goroutine's surroundings *)

(** The points at which a goroutine touches the store. *)
Inductive point :=
| PMark (attempt : nat)
| PComplete (attempt : nat)
| PUncertain (attempt : nat)
| PFailState
| PFailSave
| PFail
| PFailDelete.

Record SendEnv := mkSendEnv {
  sv_provider : option Provider;
  sv_others : point -> list call;
  sv_cancel : point -> bool;
  sv_jitter : Z;
  sv_now_next : time;
  sv_now_state : time;
  sv_now_done : time;
  sv_now_save : time;
  sv_now_expires : time;
  sv_now_complete : time;
  sv_now_uncertain : time }.

(** A store operation of the goroutine, after calls of other goroutines. *)
Definition after_calls {A} (others : list call) (op : MemoryStore -> MemoryStore * A) (d : Dispatcher)
    : Dispatcher * A :=
  let '(s, r) := op (exec_all others (d_store d)) in (d_set_store s d, r).

Definition at_point {A} (sv : SendEnv) (p : point) : (MemoryStore -> MemoryStore * A) -> Dispatcher -> Dispatcher * A :=
  after_calls (sv_others sv p).

Definition retry_at (sv : SendEnv) (p : nat -> point) (fn : MemoryStore -> MemoryStore * res store_err unit)
    (d : Dispatcher) : Dispatcher * res store_err unit :=
  let '(s, r) := retryStoreTransition (fun k => sv_others sv (p k)) (fun k => sv_cancel sv (p k)) fn (d_store d) in
  (d_set_store s d, r).

(** ** Reports for the source *)

Definition dlr_buffer : nat := 4096.

Definition OnDLR (dlr : DLR) (d : Dispatcher) : Dispatcher :=
  if (length (d_dlrCh d) <? dlr_buffer)%nat then d_set_dlrCh (d_dlrCh d ++ [dlr]) d
  else d_set_dlrBg (d_dlrBg d ++ [dlr]) d.

(** [RegisteredDelivery & 0x03 == 0]. *)
Definition no_receipt (registered : Z) : bool := Z.land registered 0x03 =? 0.

Definition failure_pending (d : Dispatcher) (now : time) (payload : OutboxPayload) (state : string) (errorCode : Z)
    : Pending :=
  {| p_ProviderID := "local-failure:" +:+ op_GatewayID payload; p_GatewayID := op_GatewayID payload;
     p_TenantID := op_TenantID payload; p_AccountID := op_AccountID payload;
     p_ClientMsgID := op_ClientMsgID payload; p_SegmentIndex := 1; p_SegmentCount := 1;
     p_SourceKind := op_SourceKind payload; p_SourceSession := op_SourceSession payload;
     p_SourceSystem := op_SourceSystem payload; p_CallbackURL := ""; p_CallbackRule := "";
     p_From := op_From payload; p_To := op_To payload; p_Text := op_Text payload;
     p_DataCoding := op_DataCoding payload; p_RegisteredDelivery := op_RegisteredDelivery payload;
     p_Provider := op_Provider payload; p_Route := op_Route payload;
     p_ReceivedAt := if IsZero (op_ReceivedAt payload) then now else op_ReceivedAt payload;
     p_ExpiresAt := now + d_pendingTTL d; p_DLRReady := true; p_DLRDelivered := false;
     p_DLRState := state; p_DLRErrorCode := errorCode; p_DLRDoneAt := now |}.

Definition queueTerminalFailureDLR (sv : SendEnv) (item : OutboxItem) (state : string) (errorCode : Z)
    (d : Dispatcher) : Dispatcher * option (Pending * DLR) :=
  let payload := ob_Payload item in
  if negb (bool_decide (op_SourceKind payload = kind_String SourceSMPP))
     || no_receipt (op_RegisteredDelivery payload)
  then (d, None)
  else
    let doneAt := sv_now_done sv in
    let rec := failure_pending d doneAt payload state errorCode in
    let '(d, r) := at_point sv PFailSave (SavePending (sv_now_save sv) rec) d in
    match r with
    | Err _ => (d, None)
    | Ok _ => (d, Some (rec, mkDLR (op_Provider payload) (p_ProviderID rec) state errorCode doneAt))
    end.

Section send.
Context (TextHash : string -> string).
(** [fmt.Errorf("provider %q not found", name)] and
    [fmt.Errorf("persist sent result: %w", err)] as text. *)
Context (not_found_text : string -> string) (persist_text : store_err -> string).

(** The events of the worker: all come from the payload. *)
Definition payload_event (payload : OutboxPayload) (kind providerID : string) (index count : Z) (state : string)
    (errorCode : Z) (reason : string) : Event :=
  {| ev_Seq := 0; ev_Ts := ""; ev_Kind := kind; ev_GatewayID := op_GatewayID payload;
     ev_ProviderID := providerID; ev_From := op_From payload; ev_To := op_To payload;
     ev_TextLen := text_len (op_Text payload); ev_TextHash := TextHash (op_Text payload); ev_Text := "";
     ev_Encoding := op_Encoding payload; ev_Segments := 0; ev_SegmentIndex := index;
     ev_SegmentCount := count; ev_MessageState := ""; ev_Final := false; ev_Route := op_Route payload;
     ev_Provider := op_Provider payload; ev_ClientID := meta_get (op_Meta payload) "client_id";
     ev_TenantID := op_TenantID payload; ev_AccountID := op_AccountID payload;
     ev_ClientMsgID := op_ClientMsgID payload; ev_SystemID := op_SourceSystem payload;
     ev_Source := op_SourceKind payload; ev_State := state; ev_ErrorCode := errorCode;
     ev_Reason := reason; ev_FilterRule := ""; ev_Instance := "" |}.

(** ** Failing an item *)

Definition terminal (item : OutboxItem) (err : send_err) : bool :=
  (ob_MaxAttempts item <=? ob_Attempt item) || isPermanent err.

Definition failOutbox (sv : SendEnv) (item : OutboxItem) (err : send_err) (d : Dispatcher) : Dispatcher :=
  let payload := ob_Payload item in
  let next := sv_now_next sv + retryDelay (ob_Attempt item) (sv_jitter sv) in
  let '(d, next, kind, errorCode, failure) :=
    if terminal item err then
      let '(state, errorCode) := terminalFailureDLR err in
      let '(d, _) := at_point sv PFailState
        (UpdateMessageState (sv_now_state sv) (ob_GatewayID item) state errorCode) d in
      let '(d, failure) := queueTerminalFailureDLR sv item state errorCode d in
      (d, 0, "failed", errorCode, failure)
    else (d, next, "retry", 1, None) in
  let d := emitCDR (payload_event payload kind "" 0 0 kind errorCode (er_Error err)) d in
  let '(d, r) := at_point sv PFail (FailOutbox (ob_ID item) (er_Error err) next) d in
  match r, failure with
  | Err _, Some (rec, _) => (at_point sv PFailDelete (DeletePending (p_Provider rec) (p_ProviderID rec)) d).1
  | Err _, None => d
  | Ok _, Some (_, dlr) => OnDLR dlr d
  | Ok _, None => d
  end.

Definition markOutboxUncertain (sv : SendEnv) (item : OutboxItem) (errText : string) (d : Dispatcher) : Dispatcher :=
  let '(d, _) := retry_at sv PUncertain
    (MarkOutboxUncertain (sv_now_uncertain sv) (ob_ID item) (ob_ClaimedBy item) errText) d in
  emitCDR (payload_event (ob_Payload item) "uncertain" "" 0 0 "UNKNOWN" 1 errText) d.

(** ** Sending an item *)

Definition outbound (payload : OutboxPayload) : OutboundMessage :=
  {| om_GatewayID := op_GatewayID payload; om_SourceAddr := op_From payload; om_DestAddr := op_To payload;
     om_Text := op_Text payload; om_DataCoding := op_DataCoding payload;
     om_RegisteredDelivery := op_RegisteredDelivery payload; om_Encoding := op_Encoding payload;
     om_Meta := op_Meta payload; om_UDH := op_UDH payload; om_RawPayload := op_RawPayload payload;
     om_RawPayloadSet := op_RawPayloadSet payload; om_SARRefNum := op_SARRefNum payload;
     om_SARTotalSegments := op_SARTotalSegments payload;
     om_SARSegmentSeqnum := op_SARSegmentSeqnum payload; om_SARSet := op_SARSet payload |}.

(** The ids the reports will come under: the gateway id where the provider gave none. *)
Definition effective_ids (gatewayID : string) (ids : list string) : list string :=
  (fun id => if bool_decide (id = "") then gatewayID else id) <$>
    match ids with [] => [gatewayID] | _ => ids end.

Definition sent_pending (payload : OutboxPayload) (expiresAt : time) (count : Z) (i : nat) (providerID : string)
    : Pending :=
  {| p_ProviderID := providerID; p_GatewayID := op_GatewayID payload; p_TenantID := op_TenantID payload;
     p_AccountID := op_AccountID payload; p_ClientMsgID := op_ClientMsgID payload;
     p_SegmentIndex := Z.of_nat i + 1; p_SegmentCount := count; p_SourceKind := op_SourceKind payload;
     p_SourceSession := op_SourceSession payload; p_SourceSystem := op_SourceSystem payload;
     p_CallbackURL := op_CallbackURL payload; p_CallbackRule := op_CallbackRule payload;
     p_From := op_From payload; p_To := op_To payload; p_Text := op_Text payload;
     p_DataCoding := op_DataCoding payload; p_RegisteredDelivery := op_RegisteredDelivery payload;
     p_Provider := op_Provider payload; p_Route := op_Route payload;
     p_ReceivedAt := op_ReceivedAt payload; p_ExpiresAt := expiresAt; p_DLRReady := false;
     p_DLRDelivered := false; p_DLRState := ""; p_DLRErrorCode := 0; p_DLRDoneAt := 0 |}.

Definition emit_all (es : list Event) (d : Dispatcher) : Dispatcher := foldl (flip emitCDR) d es.

(** The new dispatcher and what the provider was given. *)
Definition processOutbox (sv : SendEnv) (item : OutboxItem) (d : Dispatcher)
    : Dispatcher * option OutboundMessage :=
  match sv_provider sv with
  | None => (failOutbox sv item (mkSendErr (not_found_text (ob_Provider item)) false None) d, None)
  | Some p =>
    let payload := ob_Payload item in
    let msg := outbound payload in
    let '(d, r) := retry_at sv PMark (MarkOutboxSending (ob_ID item) (ob_ClaimedBy item)) d in
    match r with
    | Err _ => (d, None)
    | Ok _ =>
      let item := ob_set_State "sending" item in
      match sendProvider p msg with
      | Err err =>
        (if isPermanent err then failOutbox sv item err d
         else markOutboxUncertain sv item (er_Error err) d, Some msg)
      | Ok ids =>
        let ids := effective_ids (op_GatewayID payload) ids in
        let count := Z.of_nat (length ids) in
        let pending := imap (sent_pending payload (sv_now_expires sv + d_pendingTTL d) count) ids in
        let '(d, r) := retry_at sv PComplete
          (CompleteOutboxSend (sv_now_complete sv) (ob_ID item) (ob_ClaimedBy item) pending) d in
        match r with
        | Err e => (markOutboxUncertain sv item (persist_text e) d, Some msg)
        | Ok _ =>
          (emit_all (imap (fun i id => payload_event payload "sent" id (Z.of_nat i + 1) count "sent" 0 "") ids) d,
           Some msg)
        end
      end
    end
  end.
End send.

(** ** Runs as traces of store calls *)

(** What happens to the store between two points is a sequence of its calls. *)
Definition runs (s s' : MemoryStore) : Prop := exists cs, s' = exec_all cs s.

Lemma runs_refl s : runs s s.
Proof. by exists []. Qed.

Lemma runs_trans a b c : runs a b -> runs b c -> runs a c.
Proof. intros [cs ->] [cs' ->]. exists (cs ++ cs'). unfold exec_all. by rewrite foldl_app. Qed.

#[export] Instance runs_po : PreOrder runs.
Proof. split; [exact runs_refl | exact runs_trans]. Qed.

Lemma runs_exec c s : runs s (exec c s).
Proof. by exists [c]. Qed.

Lemma runs_exec_all cs s : runs s (exec_all cs s).
Proof. by exists cs. Qed.

Lemma runs_wf s s' : wf s -> runs s s' -> wf s'.
Proof. intros Hwf [cs ->]. by apply wf_exec_all. Qed.
#[export] Hint Resolve runs_exec runs_exec_all runs_refl : mysmpp.

(** An operation of the store seen as a call. *)
Definition is_call {A} (op : MemoryStore -> MemoryStore * A) : Prop := exists c, forall s, (op s).1 = exec c s.

Lemma call_runs {A} (op : MemoryStore -> MemoryStore * A) c s s' r :
  (forall s, (op s).1 = exec c s) -> op s = (s', r) -> runs s s'.
Proof. intros Hc E. specialize (Hc s). rewrite E in Hc. simpl in Hc. rewrite Hc. apply runs_exec. Qed.

Lemma after_calls_runs {A} others (op : MemoryStore -> MemoryStore * A) d :
  is_call op -> runs (d_store d) (d_store (after_calls others op d).1).
Proof.
  intros [c Hc]. unfold after_calls. destruct (op _) as [s r] eqn:E. simpl.
  etrans; [apply (runs_exec_all others)|]. by eapply call_runs.
Qed.

Lemma at_point_runs {A} sv p (op : MemoryStore -> MemoryStore * A) d :
  is_call op -> runs (d_store d) (d_store (at_point sv p op d).1).
Proof. apply after_calls_runs. Qed.

Lemma retry_from_runs others cancel fn more k s :
  is_call fn -> runs s (retry_from others cancel fn more k s).1.
Proof.
  intros [c Hc]. revert k s. induction more as [|more IH]; intros k s; simpl;
    (assert (runs s (fn (exec_all (others k) s)).1) as H
      by (rewrite Hc; etrans; [apply runs_exec_all|apply runs_exec]));
    destruct (fn _) as [s1 [|]]; simpl in *; try done.
  destruct (cancel k); [done|]. etrans; [exact H|apply IH].
Qed.

Lemma retry_at_runs sv p fn d : is_call fn -> runs (d_store d) (d_store (retry_at sv p fn d).1).
Proof.
  intros Hc. unfold retry_at, retryStoreTransition.
  pose proof (retry_from_runs (fun k => sv_others sv (p k)) (fun k => sv_cancel sv (p k)) fn 2 0 (d_store d) Hc).
  by destruct (retry_from _ _ _ _ _ _).
Qed.

(** A transition that succeeded, did so on a state reached by calls. *)
Lemma retry_from_ok others cancel fn more k s s' :
  is_call fn -> retry_from others cancel fn more k s = (s', Ok tt) ->
  exists s1, runs s s1 /\ fn s1 = (s', Ok tt).
Proof.
  intros Hc. revert k s. induction more as [|more IH]; intros k s; simpl;
    destruct (fn (exec_all (others k) s)) as [s1 [[]|]] eqn:E; try done.
  - intros [= <-]. exists (exec_all (others k) s). eauto with mysmpp.
  - intros [= <-]. exists (exec_all (others k) s). eauto with mysmpp.
  - destruct (cancel k); [done|]. intros (s2 & Hr & Hf)%IH. exists s2. split; [|done].
    etrans; [apply runs_exec_all|]. etrans; [|exact Hr]. destruct Hc as [c Hc]. by eapply call_runs.
Qed.

Lemma retry_at_ok sv p fn d d' :
  is_call fn -> retry_at sv p fn d = (d', Ok tt) ->
  exists s1, runs (d_store d) s1 /\ fn s1 = (d_store d', Ok tt).
Proof.
  intros Hc. unfold retry_at, retryStoreTransition. destruct (retry_from _ _ _ _ _ _) as [s r] eqn:E.
  intros [= <- ->]. by apply retry_from_ok in E.
Qed.

Ltac is_call :=
  lazymatch goal with
  | |- is_call (MarkOutboxSending ?i ?w) => by exists (CMarkOutboxSending i w)
  | |- is_call (CompleteOutboxSend ?n ?i ?w ?p) => by exists (CCompleteOutboxSend n i w p)
  | |- is_call (MarkOutboxUncertain ?n ?i ?w ?e) => by exists (CMarkOutboxUncertain n i w e)
  | |- is_call (UpdateMessageState ?n ?g ?st ?e) => by exists (CUpdateMessageState n g st e)
  | |- is_call (SavePending ?n ?p) => by exists (CSavePending n p)
  | |- is_call (FailOutbox ?i ?e ?t) => by exists (CFailOutbox i e t)
  | |- is_call (DeletePending ?p ?i) => by exists (CDeletePending p i)
  end.

(** Steps of a run: the store moves by calls only. *)
Ltac runs_step :=
  match goal with
  | |- context [at_point ?sv ?p ?op ?d] =>
    let H := fresh in assert (is_call op) as H by is_call; apply (at_point_runs sv p op d) in H;
    destruct (at_point sv p op d) as [? ?]; cbn [fst snd] in H
  | |- context [retry_at ?sv ?p ?op ?d] =>
    let H := fresh in assert (is_call op) as H by is_call; apply (retry_at_runs sv p op d) in H;
    destruct (retry_at sv p op d) as [? ?]; cbn [fst snd] in H
  end.

Lemma OnDLR_store dlr d : d_store (OnDLR dlr d) = d_store d.
Proof. unfold OnDLR. by case_match. Qed.

Lemma emit_all_store es d : d_store (emit_all es d) = d_store d.
Proof.
  revert d. induction es as [|e es IH]; intros d; [done|]. etrans; [apply (IH (emitCDR e d))|apply emitCDR_store].
Qed.

(** Sending leaves the turn of the receivers alone. *)
Lemma emitCDR_pick e d : d_dlrPick (emitCDR e d) = d_dlrPick d.
Proof. unfold emitCDR. by case_match. Qed.

Lemma emit_all_pick es d : d_dlrPick (emit_all es d) = d_dlrPick d.
Proof.
  revert d. induction es as [|e es IH]; intros d; [done|]. etrans; [apply (IH (emitCDR e d))|apply emitCDR_pick].
Qed.

Lemma at_point_pick {A} sv p (op : MemoryStore -> MemoryStore * A) d : d_dlrPick (at_point sv p op d).1 = d_dlrPick d.
Proof. unfold at_point, after_calls. by case_match. Qed.

Lemma retry_at_pick sv p fn d : d_dlrPick (retry_at sv p fn d).1 = d_dlrPick d.
Proof. unfold retry_at. by case_match. Qed.

Section send_runs.
Context (TextHash : string -> string) (not_found_text : string -> string) (persist_text : store_err -> string).

Lemma queueTerminalFailureDLR_runs sv item state code d :
  runs (d_store d) (d_store (queueTerminalFailureDLR sv item state code d).1).
Proof.
  unfold queueTerminalFailureDLR. destruct (_ || _); [apply runs_refl|]. cbn zeta. runs_step. by case_match.
Qed.

Lemma failOutbox_runs sv item err d : runs (d_store d) (d_store (failOutbox TextHash sv item err d)).
Proof.
  unfold failOutbox. set (X := if terminal item err then _ else _).
  assert (runs (d_store d) (d_store X.1.1.1.1)) as HX.
  { subst X. destruct (terminal item err); [|apply runs_refl]. destruct (terminalFailureDLR err) as [st code].
    runs_step. pose proof (queueTerminalFailureDLR_runs sv item st code d0).
    destruct (queueTerminalFailureDLR _ _ _ _ _). simpl in *. by etrans. }
  destruct X as [[[[d1 next] kind] code] failure]. cbn [fst] in HX. cbn zeta. runs_step.
  rewrite emitCDR_store in H. assert (runs (d_store d) (d_store d0)) as H1 by (by etrans).
  destruct r as [u|e], failure as [[rec dlr]|]; rewrite ?OnDLR_store; try done. runs_step. simpl. by etrans.
Qed.

Lemma markOutboxUncertain_runs sv item e d :
  runs (d_store d) (d_store (markOutboxUncertain TextHash sv item e d)).
Proof. unfold markOutboxUncertain. runs_step. by rewrite emitCDR_store. Qed.

Lemma processOutbox_runs sv item d :
  runs (d_store d) (d_store (processOutbox TextHash not_found_text persist_text sv item d).1).
Proof.
  unfold processOutbox. destruct (sv_provider sv) as [p|]; [|apply failOutbox_runs]. cbn zeta.
  runs_step. destruct r as [u|e]; [|done]. destruct (sendProvider p _) as [ids|err].
  - runs_step. destruct r as [u'|e]; cbn [fst].
    + rewrite emit_all_store. by etrans.
    + etrans; [|apply markOutboxUncertain_runs]. by etrans.
  - cbn [fst]. etrans; [exact H|]. destruct (isPermanent err); [apply failOutbox_runs|apply markOutboxUncertain_runs].
Qed.

Lemma failOutbox_pick sv item err d : d_dlrPick (failOutbox TextHash sv item err d) = d_dlrPick d.
Proof.
  unfold failOutbox, queueTerminalFailureDLR, OnDLR.
  repeat (case_match; simplify_eq); rewrite ?at_point_pick;
    repeat match goal with H : at_point _ _ _ _ = _ |- _ =>
      apply (f_equal (fun x => d_dlrPick x.1)) in H; rewrite at_point_pick in H end;
    cbn in *; rewrite ?emitCDR_pick in *; congruence.
Qed.

Lemma markOutboxUncertain_pick sv item e d : d_dlrPick (markOutboxUncertain TextHash sv item e d) = d_dlrPick d.
Proof.
  unfold markOutboxUncertain. destruct (retry_at _ _ _ _) as [d1 r] eqn:E. rewrite emitCDR_pick.
  apply (f_equal (fun x => d_dlrPick x.1)) in E. by rewrite retry_at_pick in E.
Qed.

Lemma processOutbox_pick sv item d :
  d_dlrPick (processOutbox TextHash not_found_text persist_text sv item d).1 = d_dlrPick d.
Proof.
  unfold processOutbox. destruct (sv_provider sv) as [p|]; [|apply failOutbox_pick]. cbn zeta.
  destruct (retry_at sv PMark _ d) as [d1 r] eqn:E. apply (f_equal (fun x => d_dlrPick x.1)) in E.
  rewrite retry_at_pick in E. cbn in E. destruct r as [u|e]; [|done]. destruct (sendProvider p _) as [ids|err].
  - destruct (retry_at sv PComplete _ d1) as [d2 r] eqn:E2. apply (f_equal (fun x => d_dlrPick x.1)) in E2.
    rewrite retry_at_pick in E2. cbn in E2. destruct r; cbn; rewrite ?emit_all_pick, ?markOutboxUncertain_pick; congruence.
  - cbn. destruct (isPermanent err); rewrite ?failOutbox_pick, ?markOutboxUncertain_pick; congruence.
Qed.

(** After the marking succeeded, the rest of the run moves the store by calls. *)
Lemma processOutbox_marked sv item d d' m :
  processOutbox TextHash not_found_text persist_text sv item d = (d', Some m) ->
  m = outbound (ob_Payload item)
  /\ exists s1 s2, runs (d_store d) s1 /\ MarkOutboxSending (ob_ID item) (ob_ClaimedBy item) s1 = (s2, Ok tt)
     /\ runs s2 (d_store d').
Proof.
  unfold processOutbox. destruct (sv_provider sv) as [p|]; [|done]. cbn zeta.
  destruct (retry_at sv PMark _ d) as [d1 [u|e]] eqn:Hm; [|done]. destruct u.
  apply retry_at_ok in Hm as (s1 & Hr & Hmark); [|is_call].
  intros Hp. assert (runs (d_store d1) (d_store d') /\ m = outbound (ob_Payload item)) as [H1 ->]; [|by eauto 6].
  destruct (sendProvider p _) as [ids|err].
  - pose proof (retry_at_runs sv PComplete (CompleteOutboxSend (sv_now_complete sv) (ob_ID (ob_set_State "sending" item))
      (ob_ClaimedBy (ob_set_State "sending" item)) (imap (sent_pending (ob_Payload item) (sv_now_expires sv + d_pendingTTL d1)
        (Z.of_nat (length (effective_ids (op_GatewayID (ob_Payload item)) ids))))
        (effective_ids (op_GatewayID (ob_Payload item)) ids))) d1) as H.
    destruct (retry_at sv PComplete _ d1) as [d2 [u'|e]]; injection Hp as <- <-; (split; [|done]).
    + rewrite emit_all_store. apply H. is_call.
    + etrans; [apply H; is_call|apply markOutboxUncertain_runs].
  - injection Hp as <- <-. split; [|done].
    destruct (isPermanent err); [apply failOutbox_runs|apply markOutboxUncertain_runs].
Qed.

(** Whatever other goroutines do to the store, a run of processOutbox calls the
    provider only after marking the item as sending, the item ends past
    sending, and from then on no other worker can mark it. *)
Theorem provider_called_by_owner_only sv item d d' m :
  wf (d_store d) ->
  processOutbox TextHash not_found_text persist_text sv item d = (d', Some m) ->
  m = outbound (ob_Payload item)
  /\ (exists it, st_outbox (d_store d') !! ob_ID item = Some it /\ past_send (ob_State it) = true)
  /\ exists s1 s2, runs (d_store d) s1 /\ MarkOutboxSending (ob_ID item) (ob_ClaimedBy item) s1 = (s2, Ok tt)
     /\ runs s2 (d_store d')
     /\ forall cs w, w <> ob_ClaimedBy item ->
          exists e, MarkOutboxSending (ob_ID item) w (exec_all cs s2) = (exec_all cs s2, Err e).
Proof.
  intros Hwf (-> & s1 & s2 & H1 & Hm & H2)%processOutbox_marked.
  assert (wf s2) as Hwf2.
  { change s2 with (s2, @Ok store_err unit tt).1. rewrite <- Hm. apply (wf_exec (CMarkOutboxSending _ _)). by eapply runs_wf. }
  destruct (mark_sending_ok _ _ _ _ Hm) as (it & Hit & Hs & Ho).
  assert (past_send (ob_State it) = true) as Hp by (by rewrite Hs).
  split; [done|]. split.
  - destruct H2 as [cs ->]. destruct (exec_all_past cs s2 _ it Hwf2 Hit Hp) as (it' & ? & ? & _). eauto.
  - exists s1, s2. split_and!; [done..|]. intros cs w Hw.
    destruct (exec_all_past cs s2 _ it Hwf2 Hit Hp) as (it' & Hit' & _ & Ho').
    eapply mark_sending_owner; [done|]. congruence.
Qed.
End send_runs.

(** ** One goroutine on its own *)

(** No other goroutine touches the store during the run. *)
Definition quiet (sv : SendEnv) : Prop := forall p, sv_others sv p = [].

Lemma at_point_quiet {A} sv p (op : MemoryStore -> MemoryStore * A) d s r :
  quiet sv -> op (d_store d) = (s, r) -> at_point sv p op d = (d_set_store s d, r).
Proof. intros Hq E. unfold at_point, after_calls. by rewrite Hq; simpl; rewrite E. Qed.

Lemma retry_at_quiet sv p fn d s :
  quiet sv -> fn (d_store d) = (s, Ok tt) -> retry_at sv p fn d = (d_set_store s d, Ok tt).
Proof. intros Hq E. unfold retry_at, retryStoreTransition. simpl. rewrite Hq. simpl. by rewrite E. Qed.

Lemma pendingKey_inj provider a b : pendingKey provider a = pendingKey provider b -> a = b.
Proof.
  unfold pendingKey. induction provider as [|c s IH]; simpl; [by intros [= ->]|]. intros [= H]. by apply IH.
Qed.

Lemma put_pending_notin recs m k :
  k ∉ ((fun rec => pendingKey (p_Provider rec) (p_ProviderID rec)) <$> recs) -> put_pending recs m !! k = m !! k.
Proof.
  unfold put_pending. revert m. induction recs as [|r recs IH]; intros m Hk; simpl; [done|].
  apply not_elem_of_cons in Hk as [Hne Hk]. rewrite IH by done. by apply lookup_insert_ne.
Qed.

Lemma put_pending_lookup recs m rec :
  NoDup ((fun rec => pendingKey (p_Provider rec) (p_ProviderID rec)) <$> recs) -> rec ∈ recs ->
  put_pending recs m !! pendingKey (p_Provider rec) (p_ProviderID rec) = Some rec.
Proof.
  revert m. induction recs as [|r recs IH]; intros m Hn Hin; [by apply elem_of_nil in Hin|].
  apply NoDup_cons in Hn as [Hr Hn]. change (put_pending (r :: recs) m) with (put_pending recs
    (<[pendingKey (p_Provider r) (p_ProviderID r) := r]> m)).
  apply elem_of_cons in Hin as [->|Hin]; [|by apply IH]. rewrite put_pending_notin by done. apply lookup_insert_eq.
Qed.

(** The records of a sent message pass the store's checks unchanged. *)
Lemma validate_sent item payload expires n l k :
  op_GatewayID payload = ob_GatewayID item -> op_Provider payload = ob_Provider item ->
  0 < n -> Forall (fun id => id <> "") l ->
  validate_records item (imap (fun i => sent_pending payload expires n (k + i)) l)
  = Ok (imap (fun i => sent_pending payload expires n (k + i)) l).
Proof.
  intros Hg Hp Hn Hl. revert k. induction Hl as [|id l Hid Hl IH]; intros k; [done|].
  rewrite imap_cons. cbn [validate_records].
  assert (normalizePending (sent_pending payload expires n (k + 0) id) = sent_pending payload expires n (k + 0) id) as ->.
  { unfold normalizePending. cbn [p_SegmentIndex p_SegmentCount sent_pending].
    destruct (Z.leb_spec (Z.of_nat (k + 0) + 1) 0); [lia|]. cbn [p_SegmentCount sent_pending]. by destruct (Z.leb_spec n 0); [lia|]. }
  cbn [p_ProviderID p_GatewayID p_Provider sent_pending]. rewrite bool_decide_false by done.
  rewrite !bool_decide_true by done. cbn [negb orb].
  assert (forall A (f : nat -> string -> A), imap (fun i => f (k + S i)%nat) l = imap (fun i => f (S k + i)%nat) l) as E.
  { intros A f. apply imap_ext. intros i x _. f_equal. lia. }
  change ((fun i => sent_pending payload expires n (k + i)) ∘ S) with (fun i => sent_pending payload expires n (k + S i)).
  rewrite (E _ (sent_pending payload expires n)), (IH (S k)). done.
Qed.

Lemma effective_ids_nonempty g ids : g <> "" ->
  effective_ids g ids <> [] /\ Forall (fun id => id <> "") (effective_ids g ids).
Proof.
  intros Hg. unfold effective_ids. split; [by destruct ids|].
  apply Forall_forall. intros x Hx. apply list_elem_of_fmap in Hx as (y & -> & _). by case_bool_decide.
Qed.

(** A claimed item as a worker holds it: the store's own copy. *)
Record held (s : MemoryStore) (item : OutboxItem) (msg : Message) : Prop := mk_held {
  he_stored : st_outbox s !! ob_ID item = Some item;
  he_claimed : ob_State item = "claimed";
  he_gateway : op_GatewayID (ob_Payload item) = ob_GatewayID item;
  he_provider : op_Provider (ob_Payload item) = ob_Provider item;
  he_named : ob_GatewayID item <> "";
  he_message : GetMessage (ob_GatewayID item) s = Some msg }.

Lemma held_mark s item msg :
  held s item msg ->
  MarkOutboxSending (ob_ID item) (ob_ClaimedBy item) s
  = (st_set_outbox (<[ob_ID item := ob_set_State "sending" item]> (st_outbox s)) s, Ok tt).
Proof.
  intros [Hs Hc _ _ _ _]. unfold MarkOutboxSending. rewrite Hs, Hc, (bool_decide_true (ob_ClaimedBy item = ob_ClaimedBy item)) by done.
  done.
Qed.

(** [GetMessage] after an update in place. *)
Lemma get_upd_message g f s msg idx :
  GetMessage g s = Some msg -> st_messageByID s !! g = Some idx -> GetMessage g (upd_message f idx s) = Some (f msg).
Proof.
  unfold GetMessage, upd_message. cbn. intros E Hi. rewrite Hi in E |- *. cbn in E |- *. rewrite list_lookup_alter, E.
  by rewrite decide_True.
Qed.

Lemma get_index g s msg : GetMessage g s = Some msg -> exists idx, st_messageByID s !! g = Some idx.
Proof. unfold GetMessage. destruct (st_messageByID s !! g); [eauto|done]. Qed.

(** Completing a send: the item is closed, the message sent, every record stored. *)
Lemma complete_send now item msg w s pending :
  st_outbox s !! ob_ID item = Some item -> ob_State item = "sending" -> ob_ClaimedBy item = w ->
  GetMessage (ob_GatewayID item) s = Some msg ->
  pending <> [] -> validate_records item pending = Ok pending ->
  NoDup ((fun rec => pendingKey (p_Provider rec) (p_ProviderID rec)) <$> pending) ->
  exists s', CompleteOutboxSend now (ob_ID item) w pending s = (s', Ok tt)
    /\ st_outbox s' !! ob_ID item = Some (close_item item)
    /\ GetMessage (ob_GatewayID item) s' = Some (msg_set_SentAt now (msg_set_State "sent"
         (msg_set_ProviderID (match pending with p :: _ => p_ProviderID p | [] => "" end) msg)))
    /\ Forall (fun rec => st_pending s' !! pendingKey (p_Provider rec) (p_ProviderID rec) = Some rec) pending
    /\ st_pending s' = put_pending pending (st_pending s).
Proof.
  intros Hit Hst Hw Hm Hne Hv Hn. destruct (get_index _ _ _ Hm) as [idx Hidx].
  unfold CompleteOutboxSend. rewrite Hit, Hst, Hw, (bool_decide_true (w = w)) by done.
  change (bool_decide ("sending" = "done")) with false. change (bool_decide ("sending" = "sending")) with true.
  cbn [negb orb]. unfold validateOutboxCompletion. destruct pending as [|p pending]; [done|].
  rewrite Hv, Hidx. eexists. split; [reflexivity|]. split; [apply lookup_insert_eq|]. split.
  - match goal with |- context [upd_message ?f idx s] => apply (get_upd_message _ f _ _ _ Hm Hidx) end.
  - split; [|done]. apply Forall_forall. intros rec Hrec. by apply put_pending_lookup.
Qed.

Section send_alone.
Context (TextHash : string -> string) (not_found_text : string -> string) (persist_text : store_err -> string).

Lemma process_success sv item msg d p ids :
  quiet sv -> held (d_store d) item msg -> sv_provider sv = Some p ->
  sendProvider p (outbound (ob_Payload item)) = Ok ids ->
  let ids' := effective_ids (ob_GatewayID item) ids in
  let '(d', called) := processOutbox TextHash not_found_text persist_text sv item d in
  NoDup ids' ->
  called = Some (outbound (ob_Payload item))
  /\ st_outbox (d_store d') !! ob_ID item = Some (close_item (ob_set_State "sending" item))
  /\ GetMessage (ob_GatewayID item) (d_store d')
     = Some (msg_set_SentAt (sv_now_complete sv) (msg_set_State "sent" (msg_set_ProviderID (default "" (ids' !! 0%nat)) msg)))
  /\ (forall i id, ids' !! i = Some id ->
       st_pending (d_store d') !! pendingKey (ob_Provider item) id
       = Some (sent_pending (ob_Payload item) (sv_now_expires sv + d_pendingTTL d) (Z.of_nat (length ids')) i id))
  /\ st_pending (d_store d') = put_pending (imap (sent_pending (ob_Payload item) (sv_now_expires sv + d_pendingTTL d)
       (Z.of_nat (length ids'))) ids') (st_pending (d_store d)).
Proof.
  intros Hq Hh Hp Hsend ids'. destruct (processOutbox _ _ _ sv item d) as [d' called] eqn:E. intros Hn.
  pose proof (held_mark _ _ _ Hh) as Hmark. destruct Hh.
  destruct (effective_ids_nonempty (ob_GatewayID item) ids) as [Hne Hall]; [done|]. fold ids' in Hne, Hall.
  unfold processOutbox in E. rewrite Hp in E. cbn zeta in E.
  rewrite (retry_at_quiet sv PMark _ d _ Hq Hmark), Hsend, he_gateway0 in E. fold ids' in E.
  set (recs := imap _ ids') in E. set (s1 := st_set_outbox _ _) in E.
  assert (length ids' <> 0)%nat as Hlen by (by destruct ids').
  destruct (complete_send (sv_now_complete sv) (ob_set_State "sending" item) msg (ob_ClaimedBy item) s1 recs)
    as (s2 & Hc & H1 & H2 & H3 & H4); try done.
  - apply lookup_insert_eq.
  - subst recs. by destruct ids'.
  - subst recs. apply (validate_sent _ _ _ _ _ 0); try done. lia.
  - assert (((fun rec => pendingKey (p_Provider rec) (p_ProviderID rec)) <$> recs)
      = pendingKey (op_Provider (ob_Payload item)) <$> ids') as ->.
    { subst recs. rewrite fmap_imap. erewrite imap_ext; [apply imap_const|done]. }
    apply NoDup_fmap_2; [|done]. intros a b. apply pendingKey_inj.
  - change (ob_ID (ob_set_State "sending" item)) with (ob_ID item) in *.
    change (ob_GatewayID (ob_set_State "sending" item)) with (ob_GatewayID item) in *.
    change (ob_ClaimedBy (ob_set_State "sending" item)) with (ob_ClaimedBy item) in E.
    rewrite (retry_at_quiet sv PComplete _ (d_set_store s1 d) s2 Hq Hc) in E. injection E as <- <-.
    rewrite emit_all_store. cbn [d_store d_set_store]. split_and!; [done|done| | |exact H4].
    + rewrite H2. subst recs. clear -Hlen. destruct ids' as [|i l]; [done|]. by rewrite imap_cons.
    + intros i id Hi. rewrite Forall_lookup in H3.
      specialize (H3 i (sent_pending (ob_Payload item) (sv_now_expires sv + d_pendingTTL d) (Z.of_nat (length ids')) i id)).
      cbn [p_Provider p_ProviderID sent_pending] in H3. rewrite he_provider0 in H3. apply H3.
      subst recs. by rewrite list_lookup_imap, Hi.
Qed.

(** A goroutine whose provider answers with ids closes the item, marks the
    message sent under the first id and stores one pending record per id,
    numbered in order. *)
Theorem send_success sv item msg d p ids :
  quiet sv -> held (d_store d) item msg -> sv_provider sv = Some p ->
  sendProvider p (outbound (ob_Payload item)) = Ok ids ->
  let ids' := effective_ids (ob_GatewayID item) ids in
  let '(d', called) := processOutbox TextHash not_found_text persist_text sv item d in
  NoDup ids' ->
  called = Some (outbound (ob_Payload item))
  /\ st_outbox (d_store d') !! ob_ID item = Some (close_item (ob_set_State "sending" item))
  /\ GetMessage (ob_GatewayID item) (d_store d')
     = Some (msg_set_SentAt (sv_now_complete sv) (msg_set_State "sent" (msg_set_ProviderID (default "" (ids' !! 0%nat)) msg)))
  /\ forall i id, ids' !! i = Some id ->
       st_pending (d_store d') !! pendingKey (ob_Provider item) id
       = Some (sent_pending (ob_Payload item) (sv_now_expires sv + d_pendingTTL d) (Z.of_nat (length ids')) i id).
Proof.
  intros Hq Hh Hp Hs ids'. pose proof (process_success sv item msg d p ids Hq Hh Hp Hs) as H. cbn zeta in H. fold ids' in H.
  destruct (processOutbox _ _ _ sv item d) as [d' called]. intros Hn. destruct (H Hn) as (? & ? & ? & ? & _). done.
Qed.

(** What a failed item leaves behind for a source that wants receipts. *)
Definition failure_reported (sv : SendEnv) (item : OutboxItem) (state : string) (code : Z) (d d' : Dispatcher) : Prop :=
  let payload := ob_Payload item in
  if negb (bool_decide (op_SourceKind payload = "smpp")) || no_receipt (op_RegisteredDelivery payload) then
    d_dlrCh d' = d_dlrCh d /\ d_dlrBg d' = d_dlrBg d
  else
    let rec := failure_pending d (sv_now_done sv) payload state code in
    st_pending (d_store d') !! pendingKey (p_Provider rec) (p_ProviderID rec) = Some rec
    /\ mkDLR (p_Provider rec) (p_ProviderID rec) state code (sv_now_done sv) ∈ d_dlrCh d' ++ d_dlrBg d'.

Lemma update_message_state now g state code s msg :
  GetMessage g s = Some msg ->
  exists s', UpdateMessageState now g state code s = (s', Ok tt)
    /\ GetMessage g s' = Some (msg_set_DoneAt now (msg_set_ErrorCode code (msg_set_State state msg)))
    /\ st_outbox s' = st_outbox s /\ st_pending s' = st_pending s.
Proof.
  intros Hm. destruct (get_index _ _ _ Hm) as [idx Hi]. unfold UpdateMessageState. rewrite Hi.
  eexists. split; [reflexivity|]. split; [|done].
  match goal with |- context [upd_message ?f idx s] => by apply (get_upd_message _ f) end.
Qed.

Lemma OnDLR_in dlr d : dlr ∈ d_dlrCh (OnDLR dlr d) ++ d_dlrBg (OnDLR dlr d).
Proof. unfold OnDLR. case_match; cbn; set_solver. Qed.

Lemma normalize_failure d now payload state code :
  normalizePending (failure_pending d now payload state code) = failure_pending d now payload state code.
Proof. done. Qed.

Lemma emitCDR_channels e d : (d_dlrCh (emitCDR e d), d_dlrBg (emitCDR e d)) = (d_dlrCh d, d_dlrBg d).
Proof. unfold emitCDR. by case_match. Qed.

(** Queuing the report of a failure changes the pending records only. *)
Lemma queueTerminalFailureDLR_quiet sv item state code d :
  quiet sv ->
  exists s', st_outbox s' = st_outbox (d_store d) /\ (forall g, GetMessage g s' = GetMessage g (d_store d))
    /\ let payload := ob_Payload item in
       if negb (bool_decide (op_SourceKind payload = "smpp")) || no_receipt (op_RegisteredDelivery payload) then
         queueTerminalFailureDLR sv item state code d = (d_set_store s' d, None)
       else
         let rec := failure_pending d (sv_now_done sv) payload state code in
         queueTerminalFailureDLR sv item state code d
         = (d_set_store s' d, Some (rec, mkDLR (p_Provider rec) (p_ProviderID rec) state code (sv_now_done sv)))
         /\ st_pending s' !! pendingKey (p_Provider rec) (p_ProviderID rec) = Some rec.
Proof.
  intros Hq. unfold queueTerminalFailureDLR. change (kind_String SourceSMPP) with "smpp". cbn zeta. destruct (_ || _).
  - exists (d_store d). split_and!; [done..|]. by destruct d.
  - set (rec := failure_pending _ _ _ _ _). erewrite at_point_quiet; [|done|unfold SavePending; reflexivity].
    eexists. split; [|split]; [| |split; [reflexivity|]]; [done|done|]. apply lookup_insert_eq.
Qed.

Lemma fail_outbox_terminal item it errMsg s :
  st_outbox s !! ob_ID item = Some it -> ob_State it = "claimed" \/ ob_State it = "sending" ->
  FailOutbox (ob_ID item) errMsg 0 s
  = (st_set_outbox (<[ob_ID item := ob_set_State "failed" (ob_set_LastError errMsg it)]> (st_outbox s)) s, Ok tt).
Proof.
  intros Hit Hst. unfold FailOutbox. rewrite Hit. change (IsZero 0) with true. cbn [orb].
  by destruct Hst as [Hst|Hst]; cbn [ob_State ob_set_LastError]; rewrite Hst.
Qed.

Lemma failOutbox_terminal sv item it msg err d :
  quiet sv -> terminal item err = true ->
  st_outbox (d_store d) !! ob_ID item = Some it -> ob_State it = "claimed" \/ ob_State it = "sending" ->
  GetMessage (ob_GatewayID item) (d_store d) = Some msg ->
  let '(state, code) := terminalFailureDLR err in
  let d' := failOutbox TextHash sv item err d in
  st_outbox (d_store d') !! ob_ID item = Some (ob_set_State "failed" (ob_set_LastError (er_Error err) it))
  /\ GetMessage (ob_GatewayID item) (d_store d')
     = Some (msg_set_DoneAt (sv_now_state sv) (msg_set_ErrorCode code (msg_set_State state msg)))
  /\ failure_reported sv item state code d d'.
Proof.
  intros Hq Ht Hit Hst Hm. unfold failOutbox. rewrite Ht. destruct (terminalFailureDLR err) as [state code]. cbn zeta.
  destruct (update_message_state (sv_now_state sv) _ state code _ _ Hm) as (s1 & E1 & Hm1 & Ho1 & Hp1).
  rewrite (at_point_quiet sv PFailState _ d _ _ Hq E1).
  destruct (queueTerminalFailureDLR_quiet sv item state code (d_set_store s1 d) Hq) as (s2 & Ho2 & Hm2 & E2).
  set (d1 := d_set_store s1 d) in *. unfold failure_reported. cbn zeta in *.
  destruct (queueTerminalFailureDLR sv item state code d1) as [d2 failure].
  assert (d2 = d_set_store s2 d1) as -> by (destruct (_ || _); [congruence|destruct E2; congruence]).
  set (ev := payload_event _ _ _ _ _ _ _ _ _). pose proof (emitCDR_channels ev (d_set_store s2 d1)) as Hch.
  pose proof (emitCDR_store ev (d_set_store s2 d1)) as Hsd. set (d3 := emitCDR ev (d_set_store s2 d1)) in *.
  assert (st_outbox (d_store d3) !! ob_ID item = Some it) as Hit3 by (by rewrite Hsd; cbn; rewrite Ho2; cbn; rewrite Ho1).
  assert (GetMessage (ob_GatewayID item) (d_store d3) = Some (msg_set_DoneAt (sv_now_state sv)
    (msg_set_ErrorCode code (msg_set_State state msg)))) as Hm3 by (by rewrite Hsd; cbn; rewrite Hm2).
  rewrite (at_point_quiet sv PFail _ d3 _ _ Hq (fail_outbox_terminal item it (er_Error err) _ Hit3 Hst)).
  set (d4 := d_set_store _ d3). assert (d_store (match failure with Some (_, dlr) => OnDLR dlr d4 | None => d4 end) = d_store d4) as ->
    by (destruct failure as [[]|]; rewrite ?OnDLR_store; done).
  split; [apply lookup_insert_eq|]. split; [exact Hm3|].
  destruct (_ || _).
  - injection E2 as ->. injection Hch as H1 H2. cbn. rewrite H1, H2. done.
  - destruct E2 as [[= ->] Hrec]. split; [|apply OnDLR_in]. cbn. rewrite Hsd. exact Hrec.
Qed.

Lemma retryDelay_bounds attempt jitter :
  0 <= jitter < 1000 -> Second <= retryDelay attempt jitter < 33 * Second.
Proof.
  intros Hj. unfold retryDelay. set (a := if attempt <? 1 then 1 else attempt).
  assert (1 <= a) by (subst a; destruct (Z.ltb_spec attempt 1); lia).
  set (b := if 6 <? a then 6 else a). assert (1 <= b <= 6) by (subst b; destruct (Z.ltb_spec 6 a); lia).
  rewrite Z.shiftl_1_l. assert (2 ^ 0 <= 2 ^ (b - 1) <= 2 ^ 5) by (split; apply Z.pow_le_mono_r; lia).
  unfold Second. lia.
Qed.

Lemma failOutbox_retry sv item err d :
  quiet sv -> terminal item err = false ->
  st_outbox (d_store d) !! ob_ID item = Some item -> ob_State item = "claimed" -> 0 < sv_now_next sv -> 0 <= sv_jitter sv ->
  let next := sv_now_next sv + retryDelay (ob_Attempt item) (sv_jitter sv) in
  let d' := failOutbox TextHash sv item err d in
  st_outbox (d_store d') !! ob_ID item
    = Some (ob_set_ClaimedAt 0 (ob_set_ClaimedBy "" (ob_set_NextRetryAt next (ob_set_State "pending"
        (ob_set_LastError (er_Error err) item)))))
  /\ (forall g, GetMessage g (d_store d') = GetMessage g (d_store d)) /\ d_dlrCh d' = d_dlrCh d.
Proof.
  intros Hq Ht Hit Hst Hnow Hj. cbn zeta. unfold failOutbox. rewrite Ht. cbn zeta.
  set (next := sv_now_next sv + _). set (ev := payload_event _ _ _ _ _ _ _ _ _).
  pose proof (emitCDR_channels ev d) as [= Hch _]. pose proof (emitCDR_store ev d) as Hsd. set (d1 := emitCDR ev d) in *.
  assert (IsZero next = false) as Hn.
  { unfold IsZero. apply Z.eqb_neq. subst next. unfold retryDelay. rewrite Z.shiftl_1_l.
    match goal with |- context [2 ^ ?e] => pose proof (Z.pow_nonneg 2 e) end. unfold Second. lia. }
  apply orb_false_iff in Ht as [Ha _].
  erewrite at_point_quiet; [|done|].
  2: { rewrite Hsd. unfold FailOutbox. rewrite Hit, Hn. cbn [orb ob_set_LastError ob_MaxAttempts ob_Attempt].
       rewrite Ha. cbn [ob_State ob_set_LastError]. rewrite Hst. reflexivity. }
  cbn [d_store d_set_store d_dlrCh st_outbox st_set_outbox]. rewrite lookup_insert_eq. split; [done|].
  split; [|by cbn]. intros g. rewrite <- Hsd. by destruct (d_store d1).
Qed.

Lemma markOutboxUncertain_quiet sv item it e msg d :
  quiet sv -> st_outbox (d_store d) !! ob_ID item = Some it -> ob_State it = "sending" ->
  ob_ClaimedBy it = ob_ClaimedBy item -> ob_GatewayID it = ob_GatewayID item ->
  GetMessage (ob_GatewayID item) (d_store d) = Some msg ->
  let d' := markOutboxUncertain TextHash sv item e d in
  st_outbox (d_store d') !! ob_ID item = Some (ob_set_LastError e (ob_set_State "uncertain" it))
  /\ GetMessage (ob_GatewayID item) (d_store d')
     = Some (msg_set_DoneAt (sv_now_uncertain sv) (msg_set_ErrorCode 1 (msg_set_State "UNKNOWN" msg))).
Proof.
  intros Hq Hit Hst Ho Hg Hm. cbn zeta. unfold markOutboxUncertain. destruct (get_index _ _ _ Hm) as [idx Hi].
  erewrite retry_at_quiet; [|done|].
  2: { unfold MarkOutboxUncertain. rewrite Hit, Hst, Ho, (bool_decide_true (ob_ClaimedBy item = _)) by done.
       change (bool_decide ("sending" = "sending")) with true. cbn [negb andb st_messageByID st_set_outbox].
       rewrite Hg, Hi. reflexivity. }
  rewrite emitCDR_store. cbn [d_store d_set_store]. split; [cbn; apply lookup_insert_eq|].
  match goal with |- context [upd_message ?f idx _] => by apply (get_upd_message _ f) end.
Qed.

(** The error of a run that did not send. *)
Definition send_error (sv : SendEnv) (item : OutboxItem) : option send_err :=
  match sv_provider sv with
  | None => Some (mkSendErr (not_found_text (ob_Provider item)) false None)
  | Some p => match sendProvider p (outbound (ob_Payload item)) with Ok _ => None | Err err => Some err end
  end.

(** A goroutine that does not send retries after one to thirty-three seconds
    when the provider is missing and attempts are left, fails the item and
    reports it to the source on a permanent error or the last attempt, and
    marks it uncertain otherwise. *)
Theorem send_failure sv item msg err d :
  quiet sv -> 0 <= sv_jitter sv < 1000 -> 0 < sv_now_next sv -> held (d_store d) item msg ->
  send_error sv item = Some err ->
  let d' := (processOutbox TextHash not_found_text persist_text sv item d).1 in
  exists it msg', st_outbox (d_store d') !! ob_ID item = Some it
  /\ GetMessage (ob_GatewayID item) (d_store d') = Some msg'
  /\ if bool_decide (sv_provider sv = None) && negb (ob_MaxAttempts item <=? ob_Attempt item) then
       ob_State it = "pending" /\ ob_ClaimedBy it = "" /\ msg' = msg
       /\ sv_now_next sv + Second <= ob_NextRetryAt it < sv_now_next sv + 33 * Second
     else if bool_decide (sv_provider sv = None) || isPermanent err then
       ob_State it = "failed" /\ (msg_State msg', msg_ErrorCode msg') = terminalFailureDLR err
       /\ failure_reported sv item (msg_State msg') (msg_ErrorCode msg') d d'
     else ob_State it = "uncertain" /\ (msg_State msg', msg_ErrorCode msg') = ("UNKNOWN", 1).
Proof.
  intros Hq Hj Hnow Hh Herr. pose proof (held_mark _ _ _ Hh) as Hmark. destruct Hh as [Hit Hst Hg Hp _ Hm].
  cbn zeta. unfold processOutbox, send_error in *. destruct (sv_provider sv) as [p|].
  - rewrite bool_decide_false by done. cbn [andb orb]. rewrite (retry_at_quiet sv PMark _ d _ Hq Hmark).
    destruct (sendProvider p _) as [|err']; [done|]. injection Herr as ->. cbn [fst].
    set (s1 := st_set_outbox _ _). assert (st_outbox s1 !! ob_ID item = Some (ob_set_State "sending" item)) as Hit1
      by apply lookup_insert_eq.
    destruct (isPermanent err) eqn:Hperm.
    + pose proof (failOutbox_terminal sv (ob_set_State "sending" item) (ob_set_State "sending" item) msg err (d_set_store s1 d) Hq) as H.
      unfold terminal in H. rewrite Hperm, orb_true_r in H. specialize (H eq_refl Hit1 (or_intror eq_refl) Hm).
      destruct (terminalFailureDLR err) as [state code]. destruct H as (H1 & H2 & H3).
      eexists _, _. split; [exact H1|]. split; [exact H2|]. split_and!; [done..|exact H3].
    + destruct (markOutboxUncertain_quiet sv (ob_set_State "sending" item) _ (er_Error err) msg (d_set_store s1 d) Hq Hit1)
        as [H1 H2]; [done..|]. eexists _, _. split; [exact H1|]. split; [exact H2|done].
  - rewrite bool_decide_true by done. cbn [andb orb]. injection Herr as <-. cbn [fst].
    destruct (ob_MaxAttempts item <=? ob_Attempt item) eqn:Ha; cbn [negb].
    + pose proof (failOutbox_terminal sv item item msg (mkSendErr (not_found_text (ob_Provider item)) false None) d Hq) as H.
      unfold terminal in H. rewrite Ha in H. specialize (H eq_refl Hit (or_introl Hst) Hm).
      destruct H as (H1 & H2 & H3). eexists _, _. split; [exact H1|]. split; [exact H2|]. split_and!; [done..|exact H3].
    + destruct (failOutbox_retry sv item (mkSendErr (not_found_text (ob_Provider item)) false None) d Hq) as (H1 & H2 & _);
        [by unfold terminal; rewrite Ha|done|done|lia|lia|].
      eexists _, msg. split; [exact H1|]. split; [by rewrite H2|]. cbn. split_and!; [done..| |];
        pose proof (retryDelay_bounds (ob_Attempt item) (sv_jitter sv) Hj); lia.
Qed.
End send_alone.

(** ** Examples *)

Definition demo_claim : MemoryStore * list OutboxItem := ClaimOutbox 200 "worker-1" 20 demo_store.
Definition demo_claimed : OutboxItem := default (demo_item "") (demo_claim.2 !! 0%nat).
Definition demo_at (s : MemoryStore) : Dispatcher := d_set_store s demo_dispatcher.
Definition demo_sv (p : option Provider) (others : point -> list call) : SendEnv :=
  mkSendEnv p others (fun _ => false) 250 300 300 300 300 300 300 300.
Definition demo_provider : Provider := MultiID (fun _ => Ok ["u1"; ""]).
Definition demo_quiet (p : Provider) : SendEnv := demo_sv (Some p) (fun _ => []).
Definition demo_process : SendEnv -> OutboxItem -> Dispatcher -> Dispatcher * option OutboundMessage :=
  processOutbox id id (fun _ => "persist").

Lemma demo_held : held demo_claim.1 demo_claimed (demo_msg "m0000001").
Proof. by split; vm_compute. Qed.

Lemma provider_called_by_owner_only_witness :
  exists d m, demo_process (demo_quiet demo_provider) demo_claimed (demo_at demo_claim.1) = (d, Some m)
    /\ om_GatewayID m = "m0000001"
    /\ exists it, st_outbox (d_store d) !! 1 = Some it /\ past_send (ob_State it) = true.
Proof.
  eexists _, (outbound (ob_Payload demo_claimed)). split; [vm_compute; reflexivity|]. split; [reflexivity|].
  apply (provider_called_by_owner_only id id (fun _ => "persist") (demo_quiet demo_provider) demo_claimed
    (demo_at demo_claim.1) _ (outbound (ob_Payload demo_claimed))).
  - apply (wf_exec (CClaimOutbox 200 "worker-1" 20)), wf_exec, wf_NewMemory.
  - vm_compute. reflexivity.
Defined.

Lemma send_success_witness :
  GetMessage "m0000001" (d_store (demo_process (demo_quiet demo_provider) demo_claimed (demo_at demo_claim.1)).1)
  = Some (msg_set_SentAt 300 (msg_set_State "sent" (msg_set_ProviderID "u1" (demo_msg "m0000001")))).
Proof.
  pose proof (send_success id id (fun _ => "persist") (demo_quiet demo_provider) demo_claimed (demo_msg "m0000001")
    (demo_at demo_claim.1) demo_provider ["u1"; ""] (fun _ => eq_refl) demo_held eq_refl eq_refl) as H.
  cbn zeta in H. unfold demo_process. destruct (processOutbox _ _ _ _ _ _) as [d' called].
  apply H. apply (bool_decide_unpack _). vm_compute. exact I.
Defined.

Lemma send_failure_witness :
  let sv := demo_quiet (SingleID (fun _ => Err (mkSendErr "throttled" true (Some 88)))) in
  let d' := (demo_process sv demo_claimed (demo_at demo_claim.1)).1 in
  exists it msg', st_outbox (d_store d') !! 1 = Some it
  /\ GetMessage "m0000001" (d_store d') = Some msg'
  /\ ob_State it = "failed" /\ (msg_State msg', msg_ErrorCode msg') = ("REJECTD", 88)
  /\ failure_reported sv demo_claimed (msg_State msg') (msg_ErrorCode msg') (demo_at demo_claim.1) d'.
Proof.
  intros sv. apply (send_failure id id (fun _ => "persist") sv demo_claimed (demo_msg "m0000001")
    (mkSendErr "throttled" true (Some 88)) (demo_at demo_claim.1)).
  - intros p. reflexivity.
  - vm_compute. split; congruence.
  - reflexivity.
  - exact demo_held.
  - reflexivity.
Defined.

(** ** A claim that goes stale

    Worker names are ["worker-1"], ["worker-2"], ... in every dispatcher. An item
    whose claim has gone stale is claimed again, possibly under the same
    name, while the first goroutine still holds it; [MarkOutboxSending] then
    answers both. *)

Definition stale_store : MemoryStore :=
  (RequeueStaleOutbox 500 20 (map_to_list (st_outbox demo_claim.1)) demo_claim.1).1.
Definition second_claim : MemoryStore * list OutboxItem := ClaimOutbox 600 "worker-1" 20 stale_store.
Definition second_claimed : OutboxItem := default (demo_item "") (second_claim.2 !! 0%nat).

(** An item whose claim went stale and was claimed again under the same worker
    name is handed to the provider by both goroutines. *)
Theorem stale_claim_sent_twice :
  let A := demo_claimed in
  let B := second_claimed in
  let first := demo_sv (Some demo_provider) (fun p => match p with PComplete 0 => [CMarkOutboxSending 1 "worker-1"] | _ => [] end) in
  let marked := (MarkOutboxSending 1 "worker-1" second_claim.1).1 in
  A ∈ demo_claim.2 /\ B ∈ second_claim.2 /\ ob_ID A = ob_ID B
  /\ (demo_process first A (demo_at second_claim.1)).2 = Some (outbound (ob_Payload A))
  /\ (demo_process (demo_quiet demo_provider) B (demo_at marked)).2 = Some (outbound (ob_Payload A)).
Proof. split_and!; [apply (bool_decide_unpack _); vm_compute; exact I..|done|done|done]. Qed.
