(* ===== verification/DispatchDlr.v ===== *)
(** * Delivery reports: internal/dispatch/dispatcher.go, HandleDLR, FlushDLR and their helpers

    A report finds the pending record of its provider id, updates the record
    and, when all segments have a final state, the message; then it is passed on
    to the source: over a bound SMPP session, or to a callback URL. What
    sessions and callbacks answer are parameters. *)

From S2P Require Import Prelude Unicode Codec Segment Num GoTime Records Store StoreInv StoreSubmit GatewayId.
From S2P Require Import Pdu Submit Addr Router DlrAggregate Dispatch DispatchSubmit DispatchSend.

(** ** The SMPP side *)

(** A session: [CanReceive], [NextSeq] and the answer of [SendDeliverSM]. *)
Record Session := mkSession {
  ss_ID : string;
  ss_CanReceive : bool;
  ss_NextSeq : Z;
  ss_SendDeliverSM : PDU -> option Z }.

Record SMPPServer := mkSMPPServer {
  srv_Session : string -> option Session;
  srv_ReceiversBySystemID : string -> list Session }.

Inductive push_err := NoServer | errNoReceiverOnline | errDLRNotAcked | PushPanic.

(** [errors.Is(err, errNoReceiverOnline) || errors.Is(err, errDLRNotAcked)]. *)
Definition deferred (e : push_err) : bool :=
  match e with errNoReceiverOnline | errDLRNotAcked => true | _ => false end.

Definition set_SequenceID (seq : Z) (p : PDU) : PDU :=
  mkPDU (pdu_Length p) (pdu_CommandID p) (pdu_Status p) seq (pdu_Body p).

Definition dlr_params (rec : Pending) (dlr : DLR) : DLRParams :=
  mkDLRParams (p_GatewayID rec) (p_To rec) (p_From rec) (p_ReceivedAt rec) (dlr_DoneAt dlr) (dlr_State dlr)
    (dlr_ErrorCode dlr) (p_Text rec).

(** The session of a report: the one that submitted the message if it can
    receive, else the next receiver of its system id in turn. *)
Definition pick_session (srv : SMPPServer) (rec : Pending) (d : Dispatcher) : Dispatcher * res push_err Session :=
  let own :=
    if bool_decide (p_SourceSession rec = "") then None
    else match srv_Session srv (p_SourceSession rec) with
         | Some s => if ss_CanReceive s then Some s else None
         | None => None
         end in
  match own with
  | Some s => (d, Ok s)
  | None =>
    if bool_decide (p_SourceSystem rec = "") then (d, Err errNoReceiverOnline)
    else
      let receivers := srv_ReceiversBySystemID srv (p_SourceSystem rec) in
      if (length receivers =? 0)%nat then (d, Err errNoReceiverOnline)
      else
        let n := u64 (d_dlrPick d + 1) in
        let idx := Z.rem (i64 (u64 (n - 1))) (Z.of_nat (length receivers)) in
        let d := d_set_dlrPick n d in
        match (if idx <? 0 then None else receivers !! Z.to_nat idx) with
        | Some s => (d, Ok s)
        | None => (d, Err PushPanic)
        end
  end.

Definition pushSMPPDLR (srv : option SMPPServer) (rec : Pending) (dlr : DLR) (d : Dispatcher)
    : Dispatcher * res push_err unit :=
  match srv with
  | None => (d, Err NoServer)
  | Some srv =>
    let '(d, r) := pick_session srv rec d in
    match r with
    | Err e => (d, Err e)
    | Ok session =>
      let p := set_SequenceID (ss_NextSeq session) (BuildDLR (dlr_params rec dlr)) in
      match ss_SendDeliverSM session p with
      | None => (d, Err errDLRNotAcked)
      | Some status => if status =? statusOK then (d, Ok tt) else (d, Err errDLRNotAcked)
      end
    end
  end.

(** ** HTTP callbacks *)

(** The JSON object posted to the callback URL. *)
Record CallbackPayload := mkCallbackPayload {
  cb_gateway_id : string;
  cb_client_msg_id : string;
  cb_provider_id : string;
  cb_provider : string;
  cb_route : string;
  cb_segment_index : Z;
  cb_segment_count : Z;
  cb_state : string;
  cb_message_state : string;
  cb_final : bool;
  cb_error_code : Z;
  cb_done_at : time;
  cb_callback_rule : option string }.

(** [post url body] is the status of the response, [None] when there is none. *)
Definition sendHTTPCallback (post : string -> CallbackPayload -> option Z) (rec : Pending) (dlr : DLR)
    (aggregate : dlrAggregate) : bool :=
  let payload :=
    {| cb_gateway_id := p_GatewayID rec; cb_client_msg_id := p_ClientMsgID rec;
       cb_provider_id := dlr_ProviderID dlr; cb_provider := p_Provider rec; cb_route := p_Route rec;
       cb_segment_index := p_SegmentIndex rec; cb_segment_count := p_SegmentCount rec;
       cb_state := dlr_State dlr; cb_message_state := ag_State aggregate; cb_final := ag_Final aggregate;
       cb_error_code := dlr_ErrorCode dlr; cb_done_at := dlr_DoneAt dlr;
       cb_callback_rule := if bool_decide (p_CallbackRule rec = "") then None else Some (p_CallbackRule rec) |} in
  match post (p_CallbackURL rec) payload with
  | Some status => negb ((status <? 200) || (300 <=? status))
  | None => false
  end.

(** ** Surroundings of a handler *)

Inductive dlr_point := DUpdate | DList | DState | DEvent | DReady | DDelivered | DList2 | DDelete.

(** One round of the lookup loop: what others do before it, the clock of the
    lookup and of the check after it, and whether the context ends in the wait. *)
Record poll := mkPoll {
  pl_others : list call;
  pl_now_get : time;
  pl_now_check : time;
  pl_cancel : bool }.

Record DlrEnv := mkDlrEnv {
  dv_server : option SMPPServer;
  dv_post : string -> CallbackPayload -> option Z;
  dv_others : dlr_point -> list call;
  dv_start : time;
  dv_polls : nat -> poll;
  dv_now_done : time;
  dv_now_list : time;
  dv_now_state : time;
  dv_now_list2 : time }.

Definition dlr_at {A} (dv : DlrEnv) (p : dlr_point) : (MemoryStore -> MemoryStore * A) -> Dispatcher -> Dispatcher * A :=
  after_calls (dv_others dv p).

Inductive dlr_err :=
| DlrStore (e : store_err)
| DlrCancelled
| DlrPush (e : push_err)
| DlrCallback
| DlrNoFuel.

(** ** Looking up the record *)

Definition dlrLookupWait : duration := 2 * Second.
Definition poll_interval : duration := 50 * 1000000.

(** A report may arrive before the send that it reports on is recorded. *)
Fixpoint lookup_loop (dv : DlrEnv) (provider providerID : string) (fuel k : nat) (d : Dispatcher)
    : Dispatcher * res dlr_err (option Pending) :=
  match fuel with
  | O => (d, Err DlrNoFuel)
  | S fuel =>
    let pl := dv_polls dv k in
    let '(d, found) := after_calls (pl_others pl) (GetPending (pl_now_get pl) provider providerID) d in
    if bool_decide (found <> None) || After (pl_now_check pl) (dv_start dv + dlrLookupWait) then (d, Ok found)
    else if pl_cancel pl then (d, Err DlrCancelled)
    else lookup_loop dv provider providerID fuel (S k) d
  end.

(** 42 waits of 50ms are more than 2s. *)
Definition lookup_fuel : nat := 42.

Definition getPendingForDLR (dv : DlrEnv) (provider providerID : string) (d : Dispatcher)
    : Dispatcher * res dlr_err (option Pending) :=
  lookup_loop dv provider providerID lookup_fuel 0 d.

(** ** Ending a delivery *)

Definition finishDLRDelivery (dv : DlrEnv) (rec : Pending) (d : Dispatcher) : Dispatcher * res dlr_err unit :=
  let '(d, r) := dlr_at dv DDelivered (MarkDLRDelivered (p_Provider rec) (p_ProviderID rec)) d in
  match r with
  | Err e => (d, if bool_decide (e = ErrNotFound) then Ok tt else Err (DlrStore e))
  | Ok _ =>
    let '(d, segments) := dlr_at dv DList2 (ListPendingByGatewayID (dv_now_list2 dv) (p_GatewayID rec)) d in
    let aggregate := aggregateDLR segments in
    if ag_Final aggregate && ag_AllDelivered aggregate then
      let '(d, r) := dlr_at dv DDelete (DeletePendingByGatewayID (p_GatewayID rec)) d in
      (d, match r with Ok _ => Ok tt | Err e => Err (DlrStore e) end)
    else (d, Ok tt)
  end.

Section handle.
Context (TextHash : string -> string).

Definition dlrEvent (dv : DlrEnv) (rec : Pending) (dlr : DLR) (aggregate : dlrAggregate) (s : MemoryStore) : Event :=
  let clientID := match GetMessage (p_GatewayID rec) s with
                  | Some msg => meta_get (msg_Metadata msg) "client_id" | None => "" end in
  {| ev_Seq := 0; ev_Ts := ""; ev_Kind := "dlr"; ev_GatewayID := p_GatewayID rec;
     ev_ProviderID := dlr_ProviderID dlr; ev_From := p_From rec; ev_To := p_To rec;
     ev_TextLen := text_len (p_Text rec); ev_TextHash := TextHash (p_Text rec); ev_Text := "";
     ev_Encoding := ""; ev_Segments := 0; ev_SegmentIndex := p_SegmentIndex rec;
     ev_SegmentCount := p_SegmentCount rec; ev_MessageState := ag_State aggregate;
     ev_Final := ag_Final aggregate; ev_Route := p_Route rec; ev_Provider := p_Provider rec;
     ev_ClientID := clientID; ev_TenantID := p_TenantID rec; ev_AccountID := p_AccountID rec;
     ev_ClientMsgID := p_ClientMsgID rec; ev_SystemID := p_SourceSystem rec; ev_Source := p_SourceKind rec;
     ev_State := dlr_State dlr; ev_ErrorCode := dlr_ErrorCode dlr; ev_Reason := ""; ev_FilterRule := "";
     ev_Instance := "" |}.

(** The last part of [HandleDLR]: passing the report on. *)
Definition deliver_report (dv : DlrEnv) (rec : Pending) (dlr : DLR) (aggregate : dlrAggregate) (d : Dispatcher)
    : Dispatcher * res dlr_err unit :=
  if bool_decide (p_SourceKind rec = kind_String SourceSMPP) && no_receipt (p_RegisteredDelivery rec)
  then finishDLRDelivery dv rec d
  else if bool_decide (p_SourceKind rec = kind_String SourceSMPP) then
    let '(d, r) := pushSMPPDLR (dv_server dv) rec dlr d in
    match r with
    | Err e =>
      if deferred e then
        let '(d, r) := dlr_at dv DReady
          (MarkDLRReady (p_Provider rec) (p_ProviderID rec) (dlr_State dlr) (dlr_ErrorCode dlr) (dlr_DoneAt dlr)) d in
        (d, match r with Ok _ => Ok tt | Err e => Err (DlrStore e) end)
      else (d, Err (DlrPush e))
    | Ok _ => finishDLRDelivery dv rec d
    end
  else if bool_decide (p_SourceKind rec = kind_String SourceHTTPAPI) then
    if bool_decide (p_CallbackURL rec = "") then finishDLRDelivery dv rec d
    else if sendHTTPCallback (dv_post dv) rec dlr aggregate then finishDLRDelivery dv rec d
    else (d, Err DlrCallback)
  else (d, Ok tt).

Definition HandleDLR (dv : DlrEnv) (dlr : DLR) (d : Dispatcher) : Dispatcher * res dlr_err unit :=
  let '(d, found) := getPendingForDLR dv (dlr_Provider dlr) (dlr_ProviderID dlr) d in
  match found with
  | Err e => (d, Err e)
  | Ok None => (d, Err (DlrStore ErrNotFound))
  | Ok (Some rec) =>
    let dlr := if IsZero (dlr_DoneAt dlr)
      then mkDLR (dlr_Provider dlr) (dlr_ProviderID dlr) (dlr_State dlr) (dlr_ErrorCode dlr) (dv_now_done dv) else dlr in
    let '(d, r) := dlr_at dv DUpdate
      (UpdatePendingDLR (p_Provider rec) (p_ProviderID rec) (dlr_State dlr) (dlr_ErrorCode dlr) (dlr_DoneAt dlr)) d in
    match r with
    | Err e => (d, Err (DlrStore e))
    | Ok _ =>
      let rec := set_dlr (dlr_State dlr) (dlr_ErrorCode dlr) (dlr_DoneAt dlr) (p_set_DLRReady false rec) in
      let '(d, segments) := dlr_at dv DList (ListPendingByGatewayID (dv_now_list dv) (p_GatewayID rec)) d in
      let aggregate := aggregateDLR segments in
      let d :=
        if ag_Final aggregate then
          (dlr_at dv DState (UpdateMessageState (dv_now_state dv) (p_GatewayID rec) (ag_State aggregate)
             (ag_ErrorCode aggregate)) d).1
        else d in
      let '(d, event) := dlr_at dv DEvent (fun s => (s, dlrEvent dv rec dlr aggregate s)) d in
      let d := emitCDR event d in
      deliver_report dv rec dlr aggregate d
    end
  end.
End handle.

(** ** Flushing deferred reports *)

Record FlushEnv := mkFlushEnv {
  fv_others : nat -> list call;
  fv_now : nat -> time;
  fv_order : nat -> gmap string Pending -> list (string * Pending);
  fv_item : nat -> nat -> DlrEnv }.

Definition flush_report (dv : DlrEnv) (rec : Pending) : DLR :=
  mkDLR (p_Provider rec) (p_ProviderID rec) (p_DLRState rec) (p_DLRErrorCode rec)
    (if IsZero (p_DLRDoneAt rec) then dv_now_done dv else p_DLRDoneAt rec).

(** The loop over one batch; false: return from [FlushDLR]. *)
Fixpoint flush_items (fv : FlushEnv) (systemID : string) (round i : nat) (items : list Pending) (d : Dispatcher)
    : Dispatcher * bool :=
  match items with
  | [] => (d, true)
  | rec :: rest =>
    let dv := fv_item fv round i in
    let '(d, r) := pushSMPPDLR (dv_server dv) rec (flush_report dv rec) d in
    match r with
    | Err _ =>
      if bool_decide (systemID = "") then flush_items fv systemID round (S i) rest d else (d, false)
    | Ok _ =>
      let '(d, r) := finishDLRDelivery dv rec d in
      match r with
      | Err _ => (d, false)
      | Ok _ => flush_items fv systemID round (S i) rest d
      end
    end
  end.

(** [None]: the rounds did not end within the fuel. *)
Fixpoint FlushDLR (fv : FlushEnv) (systemID : string) (fuel round : nat) (d : Dispatcher) : option Dispatcher :=
  match fuel with
  | O => None
  | S fuel =>
    let '(d, items) := after_calls (fv_others fv round)
      (fun s => ListReadyDLR (fv_now fv round) systemID 500
         (fv_order fv round (st_pending (sweepLocked (fv_now fv round) s))) s) d in
    match items with
    | [] => Some d
    | _ =>
      let '(d, go_on) := flush_items fv systemID round 0 items d in
      if go_on && negb (bool_decide (systemID = "")) then FlushDLR fv systemID fuel (S round) d else Some d
    end
  end.

(** ** The lock of a report *)

Definition fnv_offset : Z := 14695981039346656037.
Definition fnv_prime : Z := 1099511628211.

Definition fnv_string (hash : Z) (value : string) : Z :=
  let hash := foldl (fun h b => u64 (Z.lxor h b * fnv_prime)) hash (bytes_of_string value) in
  u64 (Z.lxor hash 0 * fnv_prime).

(** The index into [dlrLocks]. *)
Definition lockDLR (provider providerID : string) : Z :=
  fnv_string (fnv_string fnv_offset provider) providerID mod 256.

(** ** Handlers move the store by its calls *)

Ltac dlr_call :=
  lazymatch goal with
  | |- is_call (GetPending ?n ?p ?i) => by exists (CGetPending n p i)
  | |- is_call (UpdatePendingDLR ?p ?i ?s ?e ?t) => by exists (CUpdatePendingDLR p i s e t)
  | |- is_call (MarkDLRReady ?p ?i ?s ?e ?t) => by exists (CMarkDLRReady p i s e t)
  | |- is_call (MarkDLRDelivered ?p ?i) => by exists (CMarkDLRDelivered p i)
  | |- is_call (ListPendingByGatewayID ?n ?g) => by exists (CListPendingByGatewayID n g)
  | |- is_call (DeletePendingByGatewayID ?g) => by exists (CDeletePendingByGatewayID g)
  | |- is_call (UpdateMessageState ?n ?g ?s ?e) => by exists (CUpdateMessageState n g s e)
  | |- is_call (fun s => ListReadyDLR ?n ?sys ?l (@?e s) s) => by exists (CListReadyDLR n sys l)
  | |- is_call (fun s => (s, @?e s)) => by exists (CCheckIdempotency 0 "" "")
  end.

Ltac dlr_step :=
  match goal with
  | |- context [dlr_at ?dv ?p ?op ?d] =>
    let H := fresh "Hr" in assert (is_call op) as H by dlr_call; apply (after_calls_runs (dv_others dv p) op d) in H;
    change (after_calls (dv_others dv p) op d) with (dlr_at dv p op d) in H;
    destruct (dlr_at dv p op d) as [? ?]; cbn [fst snd] in H
  | |- context [after_calls ?o ?op ?d] =>
    let H := fresh "Hr" in assert (is_call op) as H by dlr_call; apply (after_calls_runs o op d) in H;
    destruct (after_calls o op d) as [? ?]; cbn [fst snd] in H
  end.

Lemma pushSMPPDLR_store srv rec dlr d : d_store (pushSMPPDLR srv rec dlr d).1 = d_store d.
Proof. unfold pushSMPPDLR, pick_session. repeat case_match; by simplify_eq. Qed.

Lemma lookup_loop_runs dv p i fuel k d : runs (d_store d) (d_store (lookup_loop dv p i fuel k d).1).
Proof.
  revert k d. induction fuel as [|fuel IH]; intros k d; simpl; [apply runs_refl|]. dlr_step.
  destruct (_ || _); [done|]. destruct (pl_cancel _); [done|]. etrans; [exact Hr|apply IH].
Qed.

Lemma finishDLRDelivery_runs dv rec d : runs (d_store d) (d_store (finishDLRDelivery dv rec d).1).
Proof.
  unfold finishDLRDelivery. dlr_step. destruct r as [u|e]; [|done]. dlr_step. cbn zeta.
  destruct (_ && _); [|by etrans]. dlr_step. cbn [fst]. etrans; [exact Hr|]. by etrans.
Qed.

Lemma deliver_report_runs dv rec dlr a d : runs (d_store d) (d_store (deliver_report dv rec dlr a d).1).
Proof.
  unfold deliver_report. destruct (_ && _); [apply finishDLRDelivery_runs|].
  destruct (bool_decide _).
  - pose proof (pushSMPPDLR_store (dv_server dv) rec dlr d) as Hs.
    destruct (pushSMPPDLR _ _ _ _) as [d1 [u|e]]; cbn [fst] in Hs; rewrite <- Hs.
    + apply finishDLRDelivery_runs.
    + destruct (deferred e); [|apply runs_refl]. dlr_step. done.
  - repeat case_match; try apply runs_refl; apply finishDLRDelivery_runs.
Qed.

Lemma HandleDLR_runs TextHash dv dlr d : runs (d_store d) (d_store (HandleDLR TextHash dv dlr d).1).
Proof.
  unfold HandleDLR. unfold getPendingForDLR.
  pose proof (lookup_loop_runs dv (dlr_Provider dlr) (dlr_ProviderID dlr) lookup_fuel 0 d) as H.
  destruct (lookup_loop _ _ _ _ _ _) as [d1 [[rec|]|e]]; cbn [fst] in H; [|done..]. cbn zeta.
  dlr_step. assert (runs (d_store d) (d_store d0)) as H1 by (by etrans). destruct r as [u|e]; [|done].
  dlr_step. assert (runs (d_store d) (d_store d2)) as H2 by (by etrans). set (d3 := if ag_Final _ then _ else _).
  assert (runs (d_store d) (d_store d3)) as H3.
  { subst d3. destruct (ag_Final _); [|done]. etrans; [exact H2|]. apply after_calls_runs. dlr_call. }
  dlr_step. etrans; [|apply deliver_report_runs]. rewrite emitCDR_store. by etrans.
Qed.

Lemma flush_items_runs fv sys round i items d :
  runs (d_store d) (d_store (flush_items fv sys round i items d).1).
Proof.
  revert i d. induction items as [|rec items IH]; intros i d; simpl; [apply runs_refl|].
  set (dv := fv_item fv round i). pose proof (pushSMPPDLR_store (dv_server dv) rec (flush_report dv rec) d) as Hs.
  destruct (pushSMPPDLR _ _ _ _) as [d1 [u|e]]; cbn [fst] in Hs; rewrite <- Hs.
  - pose proof (finishDLRDelivery_runs dv rec d1) as H. destruct (finishDLRDelivery dv rec d1) as [d2 [u'|e]]; [|done].
    etrans; [exact H|apply IH].
  - destruct (bool_decide _); [apply IH|apply runs_refl].
Qed.

Lemma FlushDLR_runs fv sys fuel round d d' :
  FlushDLR fv sys fuel round d = Some d' -> runs (d_store d) (d_store d').
Proof.
  revert round d. induction fuel as [|fuel IH]; intros round d; cbn [FlushDLR]; [done|]. dlr_step.
  destruct l as [|rec items]; [by intros [= <-]|].
  pose proof (flush_items_runs fv sys round 0 (rec :: items) d0) as H.
  destruct (flush_items _ _ _ _ _ _) as [d1 go_on]. cbn [fst] in H.
  destruct (_ && _).
  - intros H1%IH. etrans; [exact Hr|]. by etrans.
  - intros [= <-]. by etrans.
Qed.

(** ** The lookup loop ends *)

Lemma lookup_loop_fuel dv p i fuel k d :
  (forall k, dv_start dv + Z.of_nat k * poll_interval <= pl_now_check (dv_polls dv k)) ->
  (lookup_fuel <= k + fuel)%nat -> (0 < fuel)%nat -> (lookup_loop dv p i fuel k d).2 <> Err DlrNoFuel.
Proof.
  intros Hclock. revert k d. induction fuel as [|fuel IH]; intros k d Hk Hf; [lia|]. simpl.
  destruct (after_calls _ _ _) as [d1 found]. destruct (_ || _) eqn:E; [done|]. destruct (pl_cancel _); [done|].
  destruct fuel as [|fuel].
  - apply orb_false_iff in E as [_ E]. unfold After in E. apply Z.ltb_ge in E. specialize (Hclock k).
    unfold lookup_fuel, dlrLookupWait, poll_interval, Second in *. lia.
  - apply IH; lia.
Qed.

(** The lookup loop of a report ends within 42 rounds when each wait takes its
    50 milliseconds. *)
Theorem dlr_lookup_ends dv provider providerID d :
  (forall k, dv_start dv + Z.of_nat k * poll_interval <= pl_now_check (dv_polls dv k)) ->
  (getPendingForDLR dv provider providerID d).2 <> Err DlrNoFuel.
Proof. intros H. unfold getPendingForDLR. apply lookup_loop_fuel; unfold lookup_fuel; [done|lia..]. Qed.

(** ** The records of one message *)

Definition segs (g : string) (s : MemoryStore) : gmap string Pending :=
  filter (fun kv => p_GatewayID kv.2 = g) (st_pending s).

Definition values (m : gmap string Pending) : list Pending := (map_to_list m).*2.

(** No record of the message expires up to [T]. *)
Definition unexpired (T : time) (m : gmap string Pending) : Prop :=
  map_Forall (fun _ p => p_ExpiresAt p = 0 \/ T <= p_ExpiresAt p) m.

Lemma segs_lookup g s k p : segs g s !! k = Some p <-> st_pending s !! k = Some p /\ p_GatewayID p = g.
Proof. unfold segs. by rewrite map_lookup_filter_Some. Qed.

Lemma segs_sweep g s T now :
  unexpired T (segs g s) -> now <= T -> segs g (sweepLocked now s) = segs g s.
Proof.
  intros Hu Hle. apply map_eq. intros k. apply option_eq. intros p. rewrite !segs_lookup. cbn.
  rewrite map_lookup_filter_Some. split; [naive_solver|]. intros [H1 H2]. split_and!; [done| |done].
  assert (segs g s !! k = Some p) as H by by apply segs_lookup. apply Hu in H. cbn.
  unfold pending_expired, IsZero, Before. destruct (p_DLRReady p); [done|]. cbn.
  destruct (Z.eqb_spec (p_ExpiresAt p) 0), (Z.ltb_spec (p_ExpiresAt p) now); try done. lia.
Qed.

(** The record is found, and the sweep keeps the others of its message. *)
Lemma get_segs g s T now p :
  wf s -> unexpired T (segs g s) -> now <= T -> segs g s !! pendingKey (p_Provider p) (p_ProviderID p) = Some p ->
  GetPending now (p_Provider p) (p_ProviderID p) s = (sweepLocked now s, Some p).
Proof.
  intros Hwf Hu Hle Hp. unfold GetPending. cbn zeta.
  assert (segs g (sweepLocked now s) !! pendingKey (p_Provider p) (p_ProviderID p) = Some p) as H
    by (by rewrite (segs_sweep g s T)).
  apply segs_lookup in H as [H _]. rewrite H. destruct (pending_expired now p) eqn:E; [|done].
  cbn in H. apply map_lookup_filter_Some in H as [_ H]. cbn in H. congruence.
Qed.

Lemma upd_segs g s f p :
  wf s -> segs g s !! pendingKey (p_Provider p) (p_ProviderID p) = Some p -> p_GatewayID (f p) = g ->
  exists s', upd_pending (p_Provider p) (p_ProviderID p) f s = (s', Ok tt)
    /\ segs g s' = <[pendingKey (p_Provider p) (p_ProviderID p) := f p]> (segs g s)
    /\ (forall g', GetMessage g' s' = GetMessage g' s).
Proof.
  intros Hwf Hp Hg. apply segs_lookup in Hp as [Hp1 Hp2]. unfold upd_pending. cbn zeta. rewrite Hp1.
  eexists. split; [reflexivity|]. split; [|done]. unfold segs. cbn. rewrite map_filter_insert_True; [done|done].
Qed.

Lemma list_segs now g s :
  exists l, ListPendingByGatewayID now g s = (sweepLocked now s, l) /\ l ≡ₚ values (segs g (sweepLocked now s)).
Proof.
  eexists. split; [reflexivity|]. rewrite sort_stable_Permutation. unfold values, segs.
  rewrite map_filter_alt, map_to_list_to_map.
  - induction (map_to_list _) as [|[k p] l IH]; [done|]. rewrite !filter_cons, fmap_cons, filter_cons. cbn.
    destruct (decide (p_GatewayID p = g)); cbn; by rewrite IH.
  - eapply sublist_NoDup; [apply (NoDup_fst_map_to_list (st_pending (sweepLocked now s)))|]. apply fmap_sublist, sublist_filter.
Qed.

Lemma delete_segs g s :
  exists s', DeletePendingByGatewayID g s = (s', Ok tt) /\ segs g s' = ∅
    /\ (forall g', GetMessage g' s' = GetMessage g' s).
Proof.
  eexists. split; [reflexivity|]. split; [|done]. apply map_empty. intros k. unfold segs. cbn.
  apply map_lookup_filter_None. right. intros p. rewrite map_lookup_filter_Some. naive_solver.
Qed.

Lemma values_insert (m : gmap string Pending) k p p' :
  m !! k = Some p ->
  values m ≡ₚ p :: values (delete k m) /\ values (<[k := p']> m) ≡ₚ p' :: values (delete k m).
Proof.
  intros Hk. unfold values. split.
  - by rewrite <- (map_to_list_delete m k p Hk).
  - rewrite <- insert_delete_eq. rewrite map_to_list_insert by apply lookup_delete_eq. done.
Qed.

Lemma forallb_values (f : Pending -> bool) m : forallb f (values m) = true <-> map_Forall (fun _ p => f p = true) m.
Proof.
  rewrite forallb_forall. unfold values. split.
  - intros H k p Hp. apply H, list_elem_of_In, list_elem_of_fmap. exists (k, p). split; [done|]. by apply elem_of_map_to_list.
  - intros H p Hp%list_elem_of_In. apply list_elem_of_fmap in Hp as ([k q] & -> & Hq). apply elem_of_map_to_list in Hq. by apply (H k).
Qed.

(** The segments present are all the segments announced. *)
Definition complete (l : list Pending) : bool := parts_expected l <=? Z.of_nat (size (parts_seen l)).

Lemma complete_Permutation l l' : l ≡ₚ l' -> complete l = complete l'.
Proof. intros H. unfold complete. by rewrite (parts_expected_Permutation _ _ H), (parts_seen_Permutation _ _ H). Qed.

Lemma complete_insert m k p p' :
  m !! k = Some p -> p_SegmentIndex p' = p_SegmentIndex p -> p_SegmentCount p' = p_SegmentCount p ->
  complete (values (<[k := p']> m)) = complete (values m).
Proof.
  intros Hk Hi Hc. destruct (values_insert m k p p' Hk) as [H1 H2].
  rewrite (complete_Permutation _ _ H1), (complete_Permutation _ _ H2). unfold complete, parts_expected, parts_seen. cbn.
  by rewrite Hi, Hc.
Qed.

(** ** One report, with the source reachable *)

Record calm (T : time) (dv : DlrEnv) : Prop := mk_calm {
  ca_others : forall p, dv_others dv p = [];
  ca_poll : pl_others (dv_polls dv 0) = [];
  ca_get : pl_now_get (dv_polls dv 0) <= T;
  ca_list : dv_now_list dv <= T;
  ca_list2 : dv_now_list2 dv <= T }.

(** The counter of the receivers' turn can be advanced [n] times without
    becoming a negative index. *)
Definition budget (n : nat) (d : Dispatcher) : Prop := 0 <= d_dlrPick d /\ d_dlrPick d + Z.of_nat n < 9223372036854775808.

(** Reports for the system id are accepted, callbacks too. *)
Record reachable (sys : string) (dv : DlrEnv) : Prop := mk_reachable {
  re_push : forall rec dlr d, p_SourceSystem rec = sys -> budget 1 d -> (pushSMPPDLR (dv_server dv) rec dlr d).2 = Ok tt;
  re_post : forall url body, dv_post dv url body = Some 200 }.

Definition known_source (sys : string) (p : Pending) : Prop :=
  (p_SourceKind p = "smpp" /\ p_SourceSystem p = sys) \/ p_SourceKind p = "http".

Lemma push_budget srv rec dlr d n : budget (S n) d -> budget n (pushSMPPDLR srv rec dlr d).1.
Proof.
  intros [H1 H2]. assert (budget n d) as Hd by (split; lia).
  assert (u64 (d_dlrPick d + 1) = d_dlrPick d + 1) as Hu by (unfold u64; apply Z.mod_small; lia).
  assert (budget n (d_set_dlrPick (u64 (d_dlrPick d + 1)) d)) as Hd1 by (rewrite Hu; split; cbn; lia).
  unfold pushSMPPDLR, pick_session. destruct srv as [srv|]; [|done]. cbn zeta.
  set (own := if bool_decide (p_SourceSession rec = "") then None else _).
  destruct own; [by repeat case_match|]. destruct (bool_decide _); [done|]. destruct (_ =? _)%nat; [done|].
  destruct (if _ <? 0 then None else _); by repeat case_match.
Qed.

Lemma budget_le n m d : (n <= m)%nat -> budget m d -> budget n d.
Proof. unfold budget. lia. Qed.

Lemma dlr_at_calm {A} T dv p (op : MemoryStore -> MemoryStore * A) d s r :
  calm T dv -> op (d_store d) = (s, r) -> dlr_at dv p op d = (d_set_store s d, r).
Proof. intros Hc E. unfold dlr_at, after_calls. rewrite (ca_others _ _ Hc). simpl. by rewrite E. Qed.

Definition mark_delivered (p : Pending) : Pending := p_set_DLRDelivered true (p_set_DLRReady false p).

Lemma finish_calm T dv rec g d p :
  calm T dv -> wf (d_store d) -> unexpired T (segs g (d_store d)) ->
  p_GatewayID rec = g -> p_Provider rec = p_Provider p -> p_ProviderID rec = p_ProviderID p ->
  segs g (d_store d) !! pendingKey (p_Provider p) (p_ProviderID p) = Some p ->
  let M := <[pendingKey (p_Provider p) (p_ProviderID p) := mark_delivered p]> (segs g (d_store d)) in
  exists s l, finishDLRDelivery dv rec d = (d_set_store s d, Ok tt) /\ l ≡ₚ values M
    /\ segs g s = (if ag_Final (aggregateDLR l) && ag_AllDelivered (aggregateDLR l) then ∅ else M)
    /\ (forall g', GetMessage g' s = GetMessage g' (d_store d)).
Proof.
  intros Hc Hwf Hu Hg Hp1 Hp2 Hp M. unfold finishDLRDelivery. rewrite Hp1, Hp2, Hg.
  assert (p_GatewayID p = g) as Hgp by (by apply segs_lookup in Hp as [_ ?]).
  destruct (upd_segs g (d_store d) mark_delivered p Hwf Hp Hgp) as (s1 & E1 & Hs1 & Hm1).
  rewrite (dlr_at_calm T dv DDelivered (MarkDLRDelivered (p_Provider p) (p_ProviderID p)) d s1 (Ok tt) Hc E1). fold M in Hs1.
  assert (unexpired T M) as HuM.
  { apply map_Forall_insert_2; [|done]. by apply Hu in Hp. }
  destruct (list_segs (dv_now_list2 dv) g s1) as (l & El & Hl).
  assert (segs g (sweepLocked (dv_now_list2 dv) s1) = M) as Hsw.
  { rewrite (segs_sweep g s1 T); [done|by rewrite Hs1|by apply ca_list2]. }
  rewrite Hsw in Hl. rewrite (dlr_at_calm T dv DList2 _ (d_set_store s1 d) _ _ Hc El). cbn zeta.
  destruct (_ && _) eqn:Ef.
  - destruct (delete_segs g (sweepLocked (dv_now_list2 dv) s1)) as (s2 & E2 & Hs2 & Hm2).
    rewrite (dlr_at_calm T dv DDelete (DeletePendingByGatewayID g)
      (d_set_store (sweepLocked (dv_now_list2 dv) s1) (d_set_store s1 d)) s2 (Ok tt) Hc E2). exists s2, l. rewrite Ef. split_and!; [by destruct d|done|done|].
    intros g'. rewrite Hm2. apply Hm1.
  - eexists _, l. rewrite Ef. split_and!; [by destruct d|done|exact Hsw|]. intros g'. apply Hm1.
Qed.

Lemma get_sweep now s g : GetMessage g (sweepLocked now s) = GetMessage g s.
Proof. done. Qed.

Section handling.
Context (TextHash : string -> string).

(** A delivery that reaches its source ends in [finishDLRDelivery]. *)
Lemma deliver_reachable sys dv rec dlr a d n :
  reachable sys dv -> known_source sys rec -> budget (S n) d ->
  exists d1, d_store d1 = d_store d /\ budget n d1 /\ deliver_report dv rec dlr a d = finishDLRDelivery dv rec d1.
Proof.
  intros [Hpush Hpost] Hk Hb. assert (budget n d) as Hb0 by (eapply budget_le; [|exact Hb]; lia). unfold deliver_report. change (kind_String SourceSMPP) with "smpp".
  change (kind_String SourceHTTPAPI) with "http". destruct (bool_decide (p_SourceKind rec = "smpp")) eqn:Es; cbn [andb].
  - destruct (no_receipt _); [by exists d|]. apply bool_decide_eq_true in Es.
    assert (p_SourceSystem rec = sys) as Hsys by (destruct Hk as [[]|]; congruence).
    specialize (Hpush rec dlr d Hsys (budget_le 1 (S n) d ltac:(lia) Hb)).
    pose proof (pushSMPPDLR_store (dv_server dv) rec dlr d) as Hs. pose proof (push_budget (dv_server dv) rec dlr d n Hb) as Hb1.
    destruct (pushSMPPDLR _ _ _ _) as [d1 r]. cbn in *. subst r. by exists d1.
  - apply bool_decide_eq_false in Es. destruct Hk as [[]|Hk]; [done|]. rewrite Hk, bool_decide_true by done.
    destruct (bool_decide _); [by exists d|]. unfold sendHTTPCallback. rewrite Hpost. by exists d.
Qed.

Definition done_at (dv : DlrEnv) (dlr : DLR) : time :=
  if IsZero (dlr_DoneAt dlr) then dv_now_done dv else dlr_DoneAt dlr.

(** The record after the report and its delivery. *)
Definition reported_rec (dv : DlrEnv) (dlr : DLR) (p : Pending) : Pending :=
  set_dlr (dlr_State dlr) (dlr_ErrorCode dlr) (done_at dv dlr) p.

Lemma lookup_calm T dv g d p :
  calm T dv -> wf (d_store d) -> unexpired T (segs g (d_store d)) ->
  segs g (d_store d) !! pendingKey (p_Provider p) (p_ProviderID p) = Some p ->
  getPendingForDLR dv (p_Provider p) (p_ProviderID p) d
  = (d_set_store (sweepLocked (pl_now_get (dv_polls dv 0)) (d_store d)) d, Ok (Some p)).
Proof.
  intros Hc Hwf Hu Hp. unfold getPendingForDLR, lookup_fuel. cbn [lookup_loop]. unfold after_calls.
  rewrite (ca_poll _ _ Hc). cbn [exec_all foldl]. rewrite (get_segs g _ T) by (done || by apply ca_get). done.
Qed.

(** The report as it is passed on, and the record it is passed on with. *)
Definition stamped (dv : DlrEnv) (dlr : DLR) : DLR :=
  if IsZero (dlr_DoneAt dlr)
  then mkDLR (dlr_Provider dlr) (dlr_ProviderID dlr) (dlr_State dlr) (dlr_ErrorCode dlr) (dv_now_done dv) else dlr.

Definition message_after (dv : DlrEnv) (l : list Pending) (msg : Message) : Message :=
  if ag_Final (aggregateDLR l)
  then msg_set_DoneAt (dv_now_state dv) (msg_set_ErrorCode (ag_ErrorCode (aggregateDLR l))
         (msg_set_State (ag_State (aggregateDLR l)) msg))
  else msg.

(** The message's own update leaves the records alone. *)
Lemma state_calm T dv g l d msg :
  calm T dv -> wf (d_store d) -> GetMessage g (d_store d) = Some msg ->
  let a := aggregateDLR l in
  let d' := if ag_Final a
    then (dlr_at dv DState (UpdateMessageState (dv_now_state dv) g (ag_State a) (ag_ErrorCode a)) d).1 else d in
  wf (d_store d') /\ segs g (d_store d') = segs g (d_store d) /\ GetMessage g (d_store d') = Some (message_after dv l msg)
  /\ d_dlrPick d' = d_dlrPick d.
Proof.
  intros Hc Hwf Hm a d'. subst d'. unfold message_after. fold a. destruct (ag_Final a); [|done].
  destruct (update_message_state (dv_now_state dv) g (ag_State a) (ag_ErrorCode a) _ _ Hm) as (s3 & E3 & Hm3 & _ & Hp3).
  rewrite (dlr_at_calm T dv DState _ d _ _ Hc E3). cbn [fst d_store d_set_store]. split_and!; [|unfold segs; by rewrite Hp3|done|done].
  apply (f_equal fst) in E3. cbn in E3. rewrite <- E3. by apply (wf_exec (CUpdateMessageState _ _ _ _)).
Qed.

(** Everything up to the delivery. *)
Lemma handle_prefix T dv g d dlr p msg :
  calm T dv -> wf (d_store d) -> unexpired T (segs g (d_store d)) ->
  dlr_Provider dlr = p_Provider p -> dlr_ProviderID dlr = p_ProviderID p ->
  segs g (d_store d) !! pendingKey (p_Provider p) (p_ProviderID p) = Some p ->
  GetMessage g (d_store d) = Some msg ->
  let M := <[pendingKey (p_Provider p) (p_ProviderID p) := reported_rec dv dlr p]> (segs g (d_store d)) in
  exists d' l, HandleDLR TextHash dv dlr d
      = deliver_report dv (reported_rec dv dlr (p_set_DLRReady false p)) (stamped dv dlr) (aggregateDLR l) d'
    /\ l ≡ₚ values M /\ wf (d_store d') /\ segs g (d_store d') = M
    /\ GetMessage g (d_store d') = Some (message_after dv l msg) /\ unexpired T M /\ d_dlrPick d' = d_dlrPick d.
Proof.
  intros Hc Hwf Hu Hd1 Hd2 Hp Hm M. assert (p_GatewayID p = g) as Hg by (by apply segs_lookup in Hp as [_ ?]).
  unfold HandleDLR. rewrite Hd1, Hd2, (lookup_calm T dv g d p) by done. cbn zeta.
  set (s0 := sweepLocked (pl_now_get (dv_polls dv 0)) (d_store d)).
  assert (segs g s0 = segs g (d_store d)) as Hs0 by (by apply (segs_sweep g _ T); [|apply ca_get]).
  assert (wf s0) as Hwf0 by by apply wf_sweepLocked.
  set (dlr' := if IsZero (dlr_DoneAt dlr) then _ else dlr).
  assert (dlr' = stamped dv dlr) as -> by (unfold stamped; by rewrite Hd1, Hd2).
  assert (dlr_State (stamped dv dlr) = dlr_State dlr /\ dlr_ErrorCode (stamped dv dlr) = dlr_ErrorCode dlr
    /\ dlr_DoneAt (stamped dv dlr) = done_at dv dlr) as (-> & -> & ->) by (unfold stamped, done_at; by destruct (IsZero _)).
  destruct (upd_segs g s0 (reported_rec dv dlr) p) as (s1 & E1 & Hs1 & Hm1); [done|by rewrite Hs0|done|].
  erewrite (dlr_at_calm T); [|done|exact E1]. rewrite Hs0 in Hs1. fold M in Hs1.
  change (set_dlr _ _ _ (p_set_DLRReady false p)) with (reported_rec dv dlr (p_set_DLRReady false p)).
  change (p_GatewayID (reported_rec dv dlr (p_set_DLRReady false p))) with (p_GatewayID p). rewrite Hg.
  assert (unexpired T M) as Hu1 by (apply map_Forall_insert_2; [by apply Hu in Hp|done]).
  destruct (list_segs (dv_now_list dv) g s1) as (l1 & El1 & Hl1).
  assert (segs g (sweepLocked (dv_now_list dv) s1) = M) as Hsw.
  { rewrite <- Hs1. apply (segs_sweep g _ T); [by rewrite Hs1|by apply ca_list]. }
  rewrite Hsw in Hl1. set (d1 := d_set_store s1 _). rewrite (dlr_at_calm T dv DList _ d1 _ _ Hc El1).
  set (d2 := d_set_store (sweepLocked (dv_now_list dv) s1) d1).
  assert (wf (d_store d2)) as Hwf2.
  { apply wf_sweepLocked. apply (f_equal fst) in E1. cbn in E1. rewrite <- E1. apply (wf_exec (CUpdatePendingDLR _ _ _ _ _)), Hwf0. }
  destruct (state_calm T dv g l1 d2 msg Hc Hwf2) as (Hwf3 & Hs3 & Hm3 & Hp3); [cbn; rewrite get_sweep, Hm1; exact Hm|].
  set (d3 := if ag_Final (aggregateDLR l1) then _ else d2) in *.
  erewrite (dlr_at_calm T dv DEvent); [|done|reflexivity]. eexists _, l1. split; [reflexivity|].
  rewrite emitCDR_store, emitCDR_pick. cbn [d_store d_set_store d_dlrPick]. rewrite Hs3, Hp3. done.
Qed.

Lemma handle_step T sys n dv g d dlr p msg :
  calm T dv -> reachable sys dv -> budget (S n) d -> wf (d_store d) -> unexpired T (segs g (d_store d)) ->
  dlr_Provider dlr = p_Provider p -> dlr_ProviderID dlr = p_ProviderID p -> known_source sys p ->
  segs g (d_store d) !! pendingKey (p_Provider p) (p_ProviderID p) = Some p ->
  GetMessage g (d_store d) = Some msg ->
  let k := pendingKey (p_Provider p) (p_ProviderID p) in
  let p1 := reported_rec dv dlr p in
  let M2 := <[k := mark_delivered p1]> (segs g (d_store d)) in
  exists d' l1 l2, HandleDLR TextHash dv dlr d = (d', Ok tt)
    /\ l1 ≡ₚ values (<[k := p1]> (segs g (d_store d))) /\ l2 ≡ₚ values M2
    /\ segs g (d_store d') = (if ag_Final (aggregateDLR l2) && ag_AllDelivered (aggregateDLR l2) then ∅ else M2)
    /\ GetMessage g (d_store d') = Some (message_after dv l1 msg) /\ budget n d'.
Proof.
  intros Hc Hre Hb Hwf Hu Hd1 Hd2 Hk Hp Hm k p1 M2. assert (p_GatewayID p = g) as Hg by (by apply segs_lookup in Hp as [_ ?]).
  destruct (handle_prefix T dv g d dlr p msg) as (d4 & l1 & -> & Hl1 & Hwf4 & Hs4 & Hm4 & Hu4 & Hp4); try done.
  destruct (deliver_reachable sys dv (reported_rec dv dlr (p_set_DLRReady false p)) (stamped dv dlr) (aggregateDLR l1) d4 n Hre)
    as (d5 & Hd5 & Hb5 & ->); [done|unfold budget; by rewrite Hp4|].
  destruct (finish_calm T dv (reported_rec dv dlr (p_set_DLRReady false p)) g d5 p1) as (s6 & l2 & -> & Hl2 & Hs6 & Hm6);
    rewrite ?Hd5; try done.
  - by rewrite Hs4.
  - rewrite Hs4. apply lookup_insert_eq.
  - rewrite Hd5, Hs4, insert_insert_eq in Hl2, Hs6. exists (d_set_store s6 d5), l1, l2.
    split_and!; [done|done|done|exact Hs6| |exact Hb5]. cbn. by rewrite Hm6, Hd5.
Qed.
End handling.

(** ** All reports of a message, in any order *)

Definition rkey (dl : DLR) : string := pendingKey (dlr_Provider dl) (dlr_ProviderID dl).

Definition final_report (dl : DLR) : Prop := isFinalDLRState (ToUpperTrim (dlr_State dl)) = true.

(** The records of the message while its reports come in. *)
Record progress (T : time) (sys : string) (done todo : list DLR) (m : gmap string Pending) : Prop := mk_progress {
  pr_dom : forall k, is_Some (m !! k) <-> k ∈ rkey <$> done ++ todo;
  pr_done : forall dl, dl ∈ done -> exists p, m !! rkey dl = Some p /\ p_DLRState p = dlr_State dl
    /\ p_DLRErrorCode p = dlr_ErrorCode dl /\ p_DLRDelivered p = true;
  pr_todo : forall dl, dl ∈ todo -> exists p, m !! rkey dl = Some p /\ seg_final p = false
    /\ p_Provider p = dlr_Provider dl /\ p_ProviderID p = dlr_ProviderID dl;
  pr_known : map_Forall (fun _ p => known_source sys p) m;
  pr_unexpired : unexpired T m;
  pr_complete : complete (values m) = true }.

(** The state the reports give the message: the worst of them. *)
Definition outcome_of (dls : list DLR) (msg : Message) : Prop :=
  (Forall (fun dl => dlrFailureRank (ToUpperTrim (dlr_State dl)) = 0) dls
     /\ msg_State msg = "DELIVRD" /\ msg_ErrorCode msg = 0)
  \/ exists dl, dl ∈ dls /\ 0 < dlrFailureRank (ToUpperTrim (dlr_State dl))
       /\ msg_State msg = ToUpperTrim (dlr_State dl) /\ msg_ErrorCode msg = dlr_ErrorCode dl
       /\ Forall (fun o => dlrFailureRank (ToUpperTrim (dlr_State o)) <= dlrFailureRank (ToUpperTrim (dlr_State dl))) dls.

Lemma seg_final_mark p : seg_final (mark_delivered p) = seg_final p.
Proof. done. Qed.

Lemma progress_step T sys done dl todo m dv p :
  NoDup (rkey <$> done ++ dl :: todo) -> progress T sys done (dl :: todo) m -> m !! rkey dl = Some p ->
  progress T sys (done ++ [dl]) todo (<[rkey dl := mark_delivered (reported_rec dv dl p)]> m).
Proof.
  intros Hn [Hd Hdone Htodo Hk Hu Hc] Hp. rewrite fmap_app, fmap_cons in Hn. apply NoDup_app in Hn as (_ & Hn1 & Hn2).
  apply NoDup_cons in Hn2 as [Hn2 _]. split.
  - intros k. rewrite lookup_insert_is_Some, Hd, !fmap_app, !fmap_cons. set_unfold. destruct (decide (rkey dl = k)); naive_solver.
  - intros o [Ho|Ho%list_elem_of_singleton]%elem_of_app.
    + rewrite lookup_insert_ne; [by apply Hdone|]. intros E. apply (Hn1 (rkey o)); [by apply list_elem_of_fmap_2|].
      rewrite <- E. apply list_elem_of_here.
    + subst o. rewrite lookup_insert_eq. eauto 6.
  - intros o Ho. rewrite lookup_insert_ne; [apply Htodo; set_solver|]. intros E. apply Hn2. rewrite E. by apply list_elem_of_fmap_2.
  - apply map_Forall_insert_2; [|done]. by apply Hk in Hp.
  - apply map_Forall_insert_2; [|done]. by apply Hu in Hp.
  - by rewrite (complete_insert m (rkey dl) p).
Qed.

(** Not final while a report is missing; final and delivered when none is. *)
Lemma progress_open T sys done dl todo m l :
  progress T sys done (dl :: todo) m -> l ≡ₚ values m -> ag_Final (aggregateDLR l) = false.
Proof.
  intros Hp Hl. destruct (agg_spec l) as (-> & _). apply andb_false_iff. right.
  destruct (forallb seg_final l) eqn:E; [|done]. rewrite (forallb_Permutation _ _ _ Hl) in E.
  destruct (pr_todo _ _ _ _ _ Hp dl) as (p & H1 & H2 & _); [apply list_elem_of_here|].
  apply forallb_values in E. apply E in H1. simpl in H1. congruence.
Qed.

Lemma progress_all T sys dls m k p :
  progress T sys dls [] m -> m !! k = Some p ->
  exists dl, dl ∈ dls /\ k = rkey dl /\ p_DLRState p = dlr_State dl /\ p_DLRErrorCode p = dlr_ErrorCode dl
    /\ p_DLRDelivered p = true.
Proof.
  intros Hp Hk. assert (k ∈ rkey <$> dls ++ []) as Hin by (by apply (pr_dom _ _ _ _ _ Hp); rewrite Hk).
  rewrite app_nil_r in Hin. apply list_elem_of_fmap in Hin as (dl & -> & Hdl).
  destruct (pr_done _ _ _ _ _ Hp dl Hdl) as (q & Hq & ? & ? & ?). rewrite Hk in Hq. injection Hq as <-. eauto 6.
Qed.

Lemma progress_closed T sys dls m l :
  Forall final_report dls -> progress T sys dls [] m -> l ≡ₚ values m ->
  ag_Final (aggregateDLR l) = true /\ ag_AllDelivered (aggregateDLR l) = true.
Proof.
  intros Hf Hp Hl. destruct (agg_spec l) as (-> & -> & _). fold (complete l).
  rewrite (complete_Permutation _ _ Hl), (pr_complete _ _ _ _ _ Hp), !(forallb_Permutation _ _ _ Hl).
  split; apply andb_true_iff; (split; [done|]); apply forallb_values; intros k p Hk;
    destruct (progress_all _ _ _ _ _ _ Hp Hk) as (dl & Hdl & _ & Hs & _ & Hd); [|done].
  unfold seg_final, seg_state. rewrite Hs. by apply (proj1 (Forall_forall _ _) Hf).
Qed.

(** Records and reports agree on states and error codes. *)
Definition told (dl : DLR) (p : Pending) : Prop :=
  p_DLRState p = dlr_State dl /\ p_DLRErrorCode p = dlr_ErrorCode dl.

Definition agree (dls : list DLR) (m : gmap string Pending) : Prop :=
  (forall k p, m !! k = Some p -> exists dl, dl ∈ dls /\ told dl p)
  /\ forall dl, dl ∈ dls -> exists k p, m !! k = Some p /\ told dl p.

Lemma progress_agree T sys dls m : progress T sys dls [] m -> agree dls m.
Proof.
  intros Hp. split.
  - intros k p Hk. destruct (progress_all _ _ _ _ _ _ Hp Hk) as (dl & ? & _ & ? & ? & _). by exists dl.
  - intros dl Hdl. destruct (pr_done _ _ _ _ _ Hp dl Hdl) as (p & ? & ? & ? & _). by exists (rkey dl), p.
Qed.

(** Delivery flags do not matter for what the records say. *)
Lemma agree_unmarked dls m k p : agree dls (<[k := mark_delivered p]> m) -> agree dls (<[k := p]> m).
Proof.
  intros [H1 H2]. split.
  - intros j q Hj. destruct (decide (k = j)) as [<-|Hne].
    + rewrite lookup_insert_eq in Hj. injection Hj as <-. destruct (H1 k (mark_delivered p)) as (dl & ? & ?);
        [apply lookup_insert_eq|]. by exists dl.
    + rewrite lookup_insert_ne in Hj by done. destruct (H1 j q) as (dl & ? & ?); [by rewrite lookup_insert_ne|]. by exists dl.
  - intros dl Hdl. destruct (H2 dl Hdl) as (j & q & Hj & Ht). destruct (decide (k = j)) as [<-|Hne].
    + rewrite lookup_insert_eq in Hj. injection Hj as <-. exists k, p. by rewrite lookup_insert_eq.
    + exists j, q. rewrite lookup_insert_ne in Hj by done. by rewrite lookup_insert_ne.
Qed.

Lemma final_unmarked m k p p' l1 l2 :
  m !! k = Some p' -> p_SegmentIndex p = p_SegmentIndex p' -> p_SegmentCount p = p_SegmentCount p' ->
  l1 ≡ₚ values (<[k := p]> m) -> l2 ≡ₚ values (<[k := mark_delivered p]> m) ->
  ag_Final (aggregateDLR l1) = ag_Final (aggregateDLR l2).
Proof.
  intros Hk Hi Hc H1 H2. destruct (agg_spec l1) as (-> & _), (agg_spec l2) as (-> & _). fold (complete l1) (complete l2).
  rewrite (complete_Permutation _ _ H1), (complete_Permutation _ _ H2), !(complete_insert m k p') by done.
  rewrite (forallb_Permutation _ _ _ H1), (forallb_Permutation _ _ _ H2).
  destruct (values_insert m k p' p Hk) as [_ E1], (values_insert m k p' (mark_delivered p) Hk) as [_ E2].
  by rewrite (forallb_Permutation _ _ _ E1), (forallb_Permutation _ _ _ E2).
Qed.

Lemma agree_outcome dls m l msg now :
  agree dls m -> l ≡ₚ values m -> ag_Final (aggregateDLR l) = true ->
  outcome_of dls (msg_set_DoneAt now (msg_set_ErrorCode (ag_ErrorCode (aggregateDLR l))
    (msg_set_State (ag_State (aggregateDLR l)) msg))).
Proof.
  intros [H1 H2] Hl Hf. destruct (agg_spec l) as (_ & _ & _ & H). specialize (H Hf).
  assert (forall dl, dl ∈ dls -> exists p, p ∈ l /\ told dl p) as Hin.
  { intros dl (k & p & Hk & Ht)%H2. exists p. split; [|done]. rewrite Hl. apply list_elem_of_fmap. exists (k, p).
    split; [done|]. by apply elem_of_map_to_list. }
  destruct H as [(Hr & Hs & He)|(p & Hp & Hpos & Hs & He & Hr)]; [left|right].
  - split; [|done]. apply Forall_forall. intros dl (p & Hp & Ht & _)%Hin. rewrite Forall_forall in Hr.
    specialize (Hr p Hp). unfold seg_rank, seg_state in Hr. by rewrite Ht in Hr.
  - rewrite Hl in Hp. apply list_elem_of_fmap in Hp as ([k q] & -> & Hq). apply elem_of_map_to_list in Hq. cbn in *.
    destruct (H1 k q Hq) as (dl & Hdl & Ht1 & Ht2). exists dl. unfold seg_rank, seg_state in *. rewrite Ht1 in *.
    rewrite <- Ht2. split_and!; try done. apply Forall_forall. intros o (r & Hr1 & Hr2 & _)%Hin. rewrite Forall_forall in Hr.
    specialize (Hr r Hr1). by rewrite Hr2 in Hr.
Qed.

Section reports.
Context (TextHash : string -> string).

(** Handling reports one after the other. *)
Fixpoint handle_all (es : list (DlrEnv * DLR)) (d : Dispatcher) : Dispatcher :=
  match es with
  | [] => d
  | (dv, dlr) :: es => handle_all es (HandleDLR TextHash dv dlr d).1
  end.

Lemma handle_all_progress T sys g es past d msg :
  Forall (fun e => calm T e.1 /\ reachable sys e.1 /\ final_report e.2) es -> Forall final_report past -> es <> [] -> budget (length es) d ->
  wf (d_store d) -> NoDup (rkey <$> past ++ es.*2) -> progress T sys past es.*2 (segs g (d_store d)) ->
  GetMessage g (d_store d) = Some msg ->
  exists msg', GetMessage g (d_store (handle_all es d)) = Some msg' /\ outcome_of (past ++ es.*2) msg'
    /\ segs g (d_store (handle_all es d)) = ∅ /\ wf (d_store (handle_all es d)).
Proof.
  intros Hes. revert past d msg. induction Hes as [|[dv dl] es (Hc & Hre & Hf) Hes IH]; intros past d msg Hdone Hne Hb Hwf Hn Hp Hm;
    [done|]. cbn [fst snd fmap list_fmap] in *.
  destruct (pr_todo _ _ _ _ _ Hp dl) as (p & Hk & Hnf & Ep1 & Ep2); [apply list_elem_of_here|].
  assert (pendingKey (p_Provider p) (p_ProviderID p) = rkey dl) as Ek by (unfold rkey; by rewrite Ep1, Ep2).
  destruct (handle_step TextHash T sys (length es) dv g d dl p msg) as (d' & l1 & l2 & E & Hl1 & Hl2 & Hs' & Hm' & Hb'); try done.
  { apply (pr_unexpired _ _ _ _ _ Hp). }
  { by apply (pr_known _ _ _ _ _ Hp) in Hk. }
  { by rewrite Ek. }
  rewrite Ek in *. assert (wf (d_store d')) as Hwf'.
  { pose proof (HandleDLR_runs TextHash dv dl d) as H. rewrite E in H. by eapply runs_wf. }
  pose proof (progress_step T sys past dl es.*2 _ dv p Hn Hp Hk) as Hp'.
  assert (ag_Final (aggregateDLR l1) = ag_Final (aggregateDLR l2)) as Ef
    by (by apply (final_unmarked (segs g (d_store d)) (rkey dl) (reported_rec dv dl p) p)).
  cbn [handle_all]. rewrite E. cbn [fst]. assert (past ++ dl :: es.*2 = (past ++ [dl]) ++ es.*2) as Eapp by (by rewrite <- app_assoc).
  rewrite Eapp in *. unfold message_after in Hm'. destruct es as [|e es].
  - cbn [handle_all fmap list_fmap] in *. rewrite app_nil_r in *.
    assert (Forall final_report (past ++ [dl])) as Hfd by (apply Forall_app; split; [done|by constructor]).
    destruct (progress_closed _ _ _ _ _ Hfd Hp' Hl2) as [F1 F2]. rewrite F1, F2 in Hs'. rewrite Ef, F1 in Hm'.
    eexists. split; [exact Hm'|]. split; [|done]. eapply agree_outcome; [|exact Hl1|congruence].
    eapply agree_unmarked, progress_agree, Hp'.
  - cbn [fmap list_fmap] in Hp'. rewrite Ef in Hm'. rewrite (progress_open _ _ _ _ _ _ _ Hp' Hl2) in Hs', Hm'. cbn [andb] in Hs'.
    apply (IH (past ++ [dl]) d' msg); try done; [apply Forall_app; split; [done|by constructor]|]. by rewrite Hs'.
Qed.
End reports.

(** ** From the send to the last report *)

Definition rec_key (p : Pending) : string := pendingKey (p_Provider p) (p_ProviderID p).

Lemma segs_put g s s' recs :
  st_pending s' = put_pending recs (st_pending s) -> segs g s = ∅ ->
  NoDup (rec_key <$> recs) -> Forall (fun p => p_GatewayID p = g) recs ->
  segs g s' = list_to_map ((fun p => (rec_key p, p)) <$> recs).
Proof.
  intros Hs He Hn Hg. apply map_eq. intros k. apply option_eq. intros q. rewrite segs_lookup, Hs.
  rewrite <- elem_of_list_to_map by (by rewrite <- list_fmap_compose).
  rewrite list_elem_of_fmap. rewrite Forall_forall in Hg. split.
  - intros [Hk Hq]. destruct (decide (k ∈ rec_key <$> recs)) as [Hin|Hin].
    + apply list_elem_of_fmap in Hin as (p & -> & Hp). pose proof (put_pending_lookup recs (st_pending s) p Hn Hp) as E.
      unfold rec_key in Hk. rewrite Hk in E. injection E as <-. by exists q.
    + rewrite put_pending_notin in Hk by done. assert (segs g s !! k = Some q) as E by (by apply segs_lookup).
      rewrite He in E. done.
  - intros (p & [= -> ->] & Hp). split; [by apply put_pending_lookup|by apply Hg].
Qed.

Lemma values_list_to_map recs :
  NoDup (rec_key <$> recs) -> values (list_to_map ((fun p => (rec_key p, p)) <$> recs)) ≡ₚ recs.
Proof.
  intros Hn. unfold values. rewrite map_to_list_to_map by (by rewrite <- list_fmap_compose).
  by rewrite <- list_fmap_compose, list_fmap_id.
Qed.

Lemma sent_parts payload expires n l k :
  let recs := imap (fun i => sent_pending payload expires n (k + i)) l in
  size (parts_seen recs) = length l /\ (forall i, i ∈ parts_seen recs -> Z.of_nat k < i).
Proof.
  cbn zeta. revert k. induction l as [|id l IH]; intros k; [done|]. rewrite imap_cons.
  assert (forall A (f : nat -> string -> A), imap (fun i => f (k + S i)%nat) l = imap (fun i => f (S k + i)%nat) l) as E.
  { intros A f. apply imap_ext. intros i x _. f_equal. lia. }
  change ((fun i => sent_pending payload expires n (k + i)) ∘ S) with (fun i => sent_pending payload expires n (k + S i)).
  rewrite (E _ (sent_pending payload expires n)). destruct (IH (S k)) as [H1 H2].
  unfold parts_seen in *. cbn [fmap list_fmap p_SegmentIndex sent_pending].
  rewrite filter_cons_True by lia. cbn [list_to_set]. split.
  - rewrite size_union, size_singleton, H1; [done|]. apply disjoint_singleton_l. intros Hin%H2. lia.
  - intros i [->%elem_of_singleton|Hi%H2]%elem_of_union; lia.
Qed.

Lemma parts_expected_le n l : 1 <= n -> Forall (fun p => p_SegmentCount p <= n) l -> parts_expected l <= n.
Proof. intros Hn. induction 1 as [|p l Hp _ IH]; simpl; lia. Qed.

Lemma Forall_imap {A B} (P : B -> Prop) (f : nat -> A -> B) l : (forall i x, P (f i x)) -> Forall P (imap f l).
Proof.
  intros H. apply Forall_lookup. intros i y Hy. rewrite list_lookup_imap in Hy.
  destruct (l !! i) as [x|]; [|done]. by injection Hy as <-.
Qed.

Lemma sent_complete payload expires l :
  l <> [] -> complete (imap (sent_pending payload expires (Z.of_nat (length l))) l) = true.
Proof.
  intros Hl. pose proof (proj1 (sent_parts payload expires (Z.of_nat (length l)) l 0)) as H1.
  assert (Z.of_nat (size (parts_seen (imap (sent_pending payload expires (Z.of_nat (length l))) l))) = Z.of_nat (length l)) as E
    by (f_equal; exact H1).
  unfold complete. apply Z.leb_le. rewrite E. clear E H1.
  apply parts_expected_le; [destruct l; [done|cbn [length]; lia]|]. apply Forall_imap. intros i x. cbn. lia.
Qed.

Lemma sent_progress T sys payload expires ids dls s s' :
  let g := op_GatewayID payload in
  let recs := imap (sent_pending payload expires (Z.of_nat (length ids))) ids in
  ids <> [] -> NoDup ids -> T <= expires -> (op_SourceKind payload = "smpp" /\ op_SourceSystem payload = sys) \/ op_SourceKind payload = "http" ->
  segs g s = ∅ -> st_pending s' = put_pending recs (st_pending s) ->
  (fun dl => (dlr_Provider dl, dlr_ProviderID dl)) <$> dls ≡ₚ pair (op_Provider payload) <$> ids ->
  progress T sys [] dls (segs g s') /\ NoDup (rkey <$> dls).
Proof.
  intros g recs Hne Hn HT Hk He Hs Hperm.
  assert (rec_key <$> recs = pendingKey (op_Provider payload) <$> ids) as Hkeys.
  { subst recs. rewrite fmap_imap. erewrite imap_ext; [apply imap_const|done]. }
  assert (NoDup (rec_key <$> recs)) as Hnk.
  { rewrite Hkeys. apply NoDup_fmap_2; [|done]. intros a b. apply pendingKey_inj. }
  assert (rkey <$> dls ≡ₚ rec_key <$> recs) as Hrk.
  { rewrite Hkeys. apply (fmap_Permutation (fun x => pendingKey x.1 x.2)) in Hperm. by rewrite <- !list_fmap_compose in Hperm. }
  assert (segs g s' = list_to_map ((fun p => (rec_key p, p)) <$> recs)) as Hsegs.
  { eapply segs_put; [done..|]. apply Forall_imap. done. }
  assert (forall k q, segs g s' !! k = Some q <-> k = rec_key q /\ q ∈ recs) as Hlook.
  { intros k q. rewrite Hsegs, <- elem_of_list_to_map, list_elem_of_fmap by (by rewrite <- list_fmap_compose). naive_solver. }
  assert (forall q, q ∈ recs -> exists i id, q = sent_pending payload expires (Z.of_nat (length ids)) i id) as Hform.
  { intros q (i & Hi)%list_elem_of_lookup. subst recs. rewrite list_lookup_imap in Hi. destruct (ids !! i) as [id|]; [|done].
    injection Hi as <-. eauto. }
  split; [split|by rewrite Hrk].
  - intros k. rewrite app_nil_l, Hrk, list_elem_of_fmap. split.
    + intros [q Hq]. apply Hlook in Hq as [-> Hq]. eauto.
    + intros (q & -> & Hq). exists q. by apply Hlook.
  - intros dl Hdl. by apply elem_of_nil in Hdl.
  - intros dl Hdl. assert ((dlr_Provider dl, dlr_ProviderID dl) ∈ pair (op_Provider payload) <$> ids) as Hin.
    { rewrite <- Hperm. by apply (list_elem_of_fmap_2 (fun dl => (dlr_Provider dl, dlr_ProviderID dl))). }
    apply list_elem_of_fmap in Hin as (id & [= E1 E2] & Hid). apply list_elem_of_lookup in Hid as [i Hi].
    exists (sent_pending payload expires (Z.of_nat (length ids)) i id). unfold rkey. rewrite E1, E2. split; [|done].
    apply Hlook. split; [done|]. apply list_elem_of_lookup. exists i. subst recs. by rewrite list_lookup_imap, Hi.
  - intros k q [_ Hq]%Hlook. by apply Hform in Hq as (i & id & ->).
  - intros k q [_ Hq]%Hlook. apply Hform in Hq as (i & id & ->). by right.
  - rewrite (complete_Permutation _ recs); [by apply sent_complete|]. rewrite Hsegs. by apply values_list_to_map.
Qed.

Section end_to_end.
Context (TextHash : string -> string) (not_found_text : string -> string) (persist_text : store_err -> string).

(** C5: When a provider took an item and gave its segments ids that differ (an
    empty one stands for the gateway id, so there is at most one), and then a
    final report of each segment is handled, in any order, before the records
    expire, with the source reachable, no other goroutine changing the store
    meanwhile, no earlier records of the message and the counter of receivers
    not overflowing, then the message has the worst reported state and its
    error code and no pending record of it is left. *)
Theorem sent_and_reported T sys sv item msg d p ids es :
  let g := ob_GatewayID item in
  let ids' := effective_ids g ids in
  wf (d_store d) -> quiet sv -> held (d_store d) item msg -> sv_provider sv = Some p ->
  sendProvider p (outbound (ob_Payload item)) = Ok ids -> NoDup ids' ->
  (op_SourceKind (ob_Payload item) = "smpp" /\ op_SourceSystem (ob_Payload item) = sys)
    \/ op_SourceKind (ob_Payload item) = "http" ->
  segs g (d_store d) = ∅ -> T <= sv_now_expires sv + d_pendingTTL d ->
  budget (length es) d -> Forall (fun e => calm T e.1 /\ reachable sys e.1 /\ final_report e.2) es ->
  (fun dl => (dlr_Provider dl, dlr_ProviderID dl)) <$> es.*2 ≡ₚ pair (ob_Provider item) <$> ids' ->
  let d' := handle_all TextHash es (processOutbox TextHash not_found_text persist_text sv item d).1 in
  exists msg', GetMessage g (d_store d') = Some msg' /\ outcome_of es.*2 msg' /\ segs g (d_store d') = ∅.
Proof.
  intros g ids' Hwf Hq Hh Hp Hsend Hn Hk He HT Hb Hes Hperm d'.
  pose proof (process_success TextHash not_found_text persist_text sv item msg d p ids Hq Hh Hp Hsend) as H.
  pose proof (processOutbox_runs TextHash not_found_text persist_text sv item d) as Hr.
  assert (budget (length es) (processOutbox TextHash not_found_text persist_text sv item d).1) as Hb1
    by (unfold budget; by rewrite processOutbox_pick).
  subst d'. destruct (processOutbox _ _ _ sv item d) as [d1 called]. cbn zeta in H. cbn [fst] in *.
  destruct (H Hn) as (_ & _ & Hm & _ & Hpend).
  destruct (effective_ids_nonempty g ids (he_named _ _ _ Hh)) as [Hne _].
  pose proof (he_gateway _ _ _ Hh) as Hg. pose proof (he_provider _ _ _ Hh) as Hpr.
  destruct (sent_progress T sys (ob_Payload item) (sv_now_expires sv + d_pendingTTL d) ids' es.*2 (d_store d) (d_store d1))
    as [Hprog Hnk]; try done; [by rewrite Hg|by rewrite Hpr|]. rewrite Hg in Hprog.
  assert (es <> []) as Hes0.
  { intros ->. cbn in Hperm. symmetry in Hperm. apply Permutation_nil_r, fmap_nil_inv in Hperm. done. }
  destruct (handle_all_progress TextHash T sys g es [] d1 _ Hes (Forall_nil_2 _) Hes0 Hb1 (runs_wf _ _ Hwf Hr) Hnk Hprog Hm)
    as (msg' & ? & ? & ? & _). eauto.
Qed.
End end_to_end.

(** ** Deferred reports are flushed *)

(** The keys of the reports waiting for the system id. *)
Definition waiting (sys : string) (s : MemoryStore) : gset string :=
  dom (filter (fun kv => ready_for sys kv.2 = true) (st_pending s)).

Lemma waiting_spec sys s k : k ∈ waiting sys s <-> exists p, st_pending s !! k = Some p /\ ready_for sys p = true.
Proof.
  unfold waiting. rewrite elem_of_dom. split.
  - intros [p Hp]. apply map_lookup_filter_Some in Hp. eauto.
  - intros (p & H1 & H2). exists p. by apply map_lookup_filter_Some.
Qed.

(** A sweep keeps the reports that wait. *)
Lemma waiting_sweep now sys s : waiting sys (sweepLocked now s) = waiting sys s.
Proof.
  apply set_eq. intros k. rewrite !waiting_spec. cbn. split; intros (p & H1 & H2).
  - apply map_lookup_filter_Some in H1 as [H1 _]. eauto.
  - exists p. split; [|done]. apply map_lookup_filter_Some. split; [done|]. cbn. unfold pending_expired.
    unfold ready_for in H2. by destruct (p_DLRReady p).
Qed.

Lemma waiting_marked provider providerID sys s :
  waiting sys (MarkDLRDelivered provider providerID s).1 = waiting sys s ∖ {[pendingKey provider providerID]}.
Proof.
  unfold MarkDLRDelivered, upd_pending. cbn zeta. set (k := pendingKey provider providerID).
  apply set_eq. intros j. rewrite elem_of_difference, elem_of_singleton, !waiting_spec.
  destruct (st_pending s !! k) as [p|] eqn:E; cbn.
  - destruct (decide (j = k)) as [->|Hne]; [|rewrite lookup_insert_ne by done; naive_solver].
    rewrite lookup_insert_eq. split; [|naive_solver]. by intros (q & [= <-] & H).
  - split; [|naive_solver]. intros H. split; [done|]. intros ->. destruct H as (q & H & _). congruence.
Qed.

Lemma waiting_deleted g sys s : waiting sys (DeletePendingByGatewayID g s).1 ⊆ waiting sys s.
Proof.
  intros k. rewrite !waiting_spec. cbn. intros (p & H1 & H2). apply map_lookup_filter_Some in H1 as [H1 _]. eauto.
Qed.

(** Alone in the store. *)
Definition alone (dv : DlrEnv) : Prop := forall p, dv_others dv p = [].

Lemma finish_waiting dv rec sys d :
  alone dv ->
  (finishDLRDelivery dv rec d).2 = Ok tt
  /\ waiting sys (d_store (finishDLRDelivery dv rec d).1) ⊆ waiting sys (d_store d) ∖ {[rec_key rec]}.
Proof.
  intros Ha. unfold finishDLRDelivery, dlr_at, after_calls. rewrite !Ha. cbn [exec_all foldl].
  pose proof (waiting_marked (p_Provider rec) (p_ProviderID rec) sys (d_store d)) as Hm.
  destruct (MarkDLRDelivered _ _ _) as [s1 r] eqn:E1. cbn [fst d_store d_set_store] in *. destruct r as [u|e].
  - cbn [ListPendingByGatewayID d_store d_set_store].
    set (s2 := sweepLocked (dv_now_list2 dv) s1). assert (waiting sys s2 = waiting sys s1) as E2 by apply waiting_sweep.
    set (l := sort_stable _ _). destruct (_ && _).
    + split; [done|]. pose proof (waiting_deleted (p_GatewayID rec) sys s2) as H. rewrite E2, Hm in H. exact H.
    + split; [done|]. change (waiting sys s2 ⊆ waiting sys (d_store d) ∖ {[rec_key rec]}). rewrite E2, Hm. done.
  - assert (e = ErrNotFound) as ->.
    { unfold MarkDLRDelivered, upd_pending in E1. cbn zeta in E1. destruct (st_pending _ !! _); congruence. }
    split; [done|]. change (waiting sys s1 ⊆ waiting sys (d_store d) ∖ {[rec_key rec]}). by rewrite Hm.
Qed.

Lemma flush_items_waiting fv sys round i items d :
  (forall r j, alone (fv_item fv r j)) -> sys <> "" ->
  let '(d', go_on) := flush_items fv sys round i items d in
  go_on = true -> waiting sys (d_store d') ⊆ waiting sys (d_store d) ∖ list_to_set (rec_key <$> items).
Proof.
  intros Ha Hsys. revert i d. induction items as [|rec items IH]; intros i d; cbn [flush_items]; [set_solver|].
  pose proof (pushSMPPDLR_store (dv_server (fv_item fv round i)) rec (flush_report (fv_item fv round i) rec) d) as Hs.
  destruct (pushSMPPDLR _ _ _ _) as [d1 [u|e]]; cbn [fst] in Hs.
  - destruct (finish_waiting (fv_item fv round i) rec sys d1 (Ha _ _)) as [Hok Hw].
    destruct (finishDLRDelivery _ _ _) as [d2 r]. cbn [fst snd] in *. subst r.
    specialize (IH (S i) d2). destruct (flush_items _ _ _ _ _ _) as [d3 go_on]. intros Hgo. specialize (IH Hgo).
    rewrite Hs in Hw. cbn [fmap list_fmap list_to_set]. set_solver.
  - by rewrite bool_decide_false.
Qed.

Lemma finish_pick dv rec d : d_dlrPick (finishDLRDelivery dv rec d).1 = d_dlrPick d.
Proof.
  unfold finishDLRDelivery, dlr_at, after_calls. repeat (case_match; simplify_eq); done.
Qed.

Lemma flush_items_reachable fv sys round i items d n :
  (forall r j, alone (fv_item fv r j)) -> (forall r j, reachable sys (fv_item fv r j)) ->
  Forall (fun rec => p_SourceSystem rec = sys) items -> budget (length items + n) d ->
  let '(d', go_on) := flush_items fv sys round i items d in go_on = true /\ budget n d'.
Proof.
  intros Ha Hre Hall. revert i d. induction Hall as [|rec items Hrec Hall IH]; intros i d Hb; cbn [flush_items]; [done|].
  set (dv := fv_item fv round i).
  pose proof (re_push _ _ (Hre round i) rec (flush_report dv rec) d Hrec (budget_le 1 (length (rec :: items) + n) d ltac:(cbn [length]; lia) Hb)) as Hs.
  pose proof (push_budget (dv_server dv) rec (flush_report dv rec) d _ Hb) as Hb1. fold dv in Hs.
  destruct (pushSMPPDLR _ _ _ _) as [d1 r]. cbn [fst snd] in Hs, Hb1. subst r.
  destruct (finish_waiting dv rec sys d1 (Ha _ _)) as [Hok _]. pose proof (finish_pick dv rec d1) as Hp.
  destruct (finishDLRDelivery dv rec d1) as [d2 r]. cbn in Hok, Hp. subst r. apply IH. unfold budget. by rewrite Hp.
Qed.

(** The order of each round is an order of the records. *)
Definition fair_order (fv : FlushEnv) : Prop := forall r m, fv_order fv r m ≡ₚ map_to_list m.

Lemma ready_items fv sys r s :
  fair_order fv -> wf s -> 
  let items := (ListReadyDLR (fv_now fv r) sys 500 (fv_order fv r (st_pending (sweepLocked (fv_now fv r) s))) s).2 in
  Forall (fun p => rec_key p ∈ waiting sys s) items /\ (items = [] -> waiting sys s = ∅)
  /\ NoDup (rec_key <$> items) /\ (sys <> "" -> Forall (fun p => p_SourceSystem p = sys) items).
Proof.
  intros Hf Hwf. cbn zeta. unfold ListReadyDLR. cbn [snd]. set (s1 := sweepLocked _ s).
  pose proof (wf_pending _ (wf_sweepLocked (fv_now fv r) _ Hwf)) as Hwp. fold s1 in Hwp.
  assert (waiting sys s1 = waiting sys s) as <- by apply waiting_sweep.
  assert (forall p, p ∈ (fv_order fv r (st_pending s1)).*2 <-> exists k, st_pending s1 !! k = Some p) as Hin.
  { intros p. rewrite (Hf r (st_pending s1)), list_elem_of_fmap. split.
    - intros ([k q] & -> & H%elem_of_map_to_list). eauto.
    - intros (k & H). exists (k, p). split; [done|]. by apply elem_of_map_to_list. }
  split_and!.
  - apply Forall_forall. intros p H%elem_of_take_inv. apply list_elem_of_filter in H as [H1 H2].
    apply Hin in H2 as [k Hk]. apply waiting_spec. apply Hwp in Hk as Hkey. unfold rec_key. rewrite <- Hkey. eauto.
  - intros Hnil. apply set_eq. intros k. split; [|set_solver]. intros (p & Hp & Hr)%waiting_spec.
    assert (p ∈ filter (fun p => ready_for sys p = true) (fv_order fv r (st_pending s1)).*2) as H
      by (apply list_elem_of_filter; split; [done|]; apply Hin; eauto).
    destruct (filter _ (fv_order fv r (st_pending s1)).*2); [by apply elem_of_nil in H|done].
  - eapply sublist_NoDup; [|apply fmap_sublist; etrans; [apply sublist_take|apply sublist_filter]].
    rewrite (Hf r (st_pending s1)), <- list_fmap_compose.
    rewrite (Forall_fmap_ext_1 (rec_key ∘ snd) fst); [apply NoDup_fst_map_to_list|].
    apply Forall_forall. intros [k p] H%elem_of_map_to_list. cbn. symmetry. by apply Hwp.
  - intros Hsys. apply Forall_forall. intros p H%elem_of_take_inv. apply list_elem_of_filter in H as [H _].
    unfold ready_for in H. rewrite (bool_decide_false (sys = "")) in H by done. cbn in H.
    apply andb_true_iff in H as [_ H]. by apply bool_decide_eq_true in H.
Qed.

(** What a batch delivers is no longer waiting. *)
Lemma batch_shrinks (items : list Pending) (w w' : gset string) :
  NoDup (rec_key <$> items) -> Forall (fun p => rec_key p ∈ w) items ->
  w' ⊆ w ∖ list_to_set (rec_key <$> items) -> (length items + size w' <= size w)%nat.
Proof.
  intros Hn Hin Hsub. set (X := list_to_set (rec_key <$> items) : gset string).
  assert (size X = length items) as <- by (subst X; rewrite size_list_to_set by done; apply length_fmap).
  rewrite <- size_union by set_solver. apply subseteq_size. assert (X ⊆ w); [|set_solver].
  intros k Hk. subst X. rewrite elem_of_list_to_set, list_elem_of_fmap in Hk. destruct Hk as (p & -> & Hp).
  rewrite Forall_forall in Hin. by apply Hin.
Qed.

Lemma flush_ends fv sys fuel round d :
  (forall r, fv_others fv r = []) -> (forall r j, alone (fv_item fv r j)) -> fair_order fv -> wf (d_store d) -> sys <> "" ->
  (size (waiting sys (d_store d)) < fuel)%nat ->
  exists d', FlushDLR fv sys fuel round d = Some d'
    /\ ((forall r j, reachable sys (fv_item fv r j)) -> budget (size (waiting sys (d_store d))) d ->
        waiting sys (d_store d') = ∅).
Proof.
  intros Hq Ha Hf Hwf Hsys. revert round d Hwf. induction fuel as [|fuel IH]; intros round d Hwf Hlt; [lia|].
  cbn [FlushDLR]. unfold after_calls at 1. rewrite Hq. cbn [exec_all foldl].
  destruct (ready_items fv sys round (d_store d) Hf Hwf) as (H1 & H2 & H3 & H4). specialize (H4 Hsys).
  destruct (ListReadyDLR _ _ _ _ _) as [s1 items] eqn:E. assert (s1 = sweepLocked (fv_now fv round) (d_store d)) as ->
    by (by injection E as <- _). cbn [snd] in H1, H2, H3, H4. set (d1 := d_set_store _ d).
  assert (waiting sys (d_store d1) = waiting sys (d_store d)) as Ew by apply waiting_sweep.
  destruct items as [|rec items].
  { exists d1. split; [done|]. intros _ _. rewrite Ew. by apply H2. }
  pose proof (flush_items_waiting fv sys round 0 (rec :: items) d1 Ha Hsys) as Hw.
  pose proof (flush_items_runs fv sys round 0 (rec :: items) d1) as Hr.
  pose proof (fun n => flush_items_reachable fv sys round 0 (rec :: items) d1 n Ha) as Hre.
  destruct (flush_items _ _ _ _ _ _) as [d2 go_on]. rewrite bool_decide_false by done. cbn [negb fst snd] in *.
  destruct go_on; cbn [andb].
  - specialize (Hw eq_refl). rewrite Ew in Hw. pose proof (batch_shrinks _ _ _ H3 H1 Hw) as Hsz. cbn [length] in Hsz.
    destruct (IH (S round) d2) as (d' & -> & Hd'); [eapply runs_wf; [|exact Hr]; by apply wf_sweepLocked|lia|].
    exists d'. split; [done|]. intros Hall Hb. apply Hd'; [done|].
    apply (Hre (size (waiting sys (d_store d2))) Hall H4). by apply (budget_le _ _ d Hsz).
  - exists d2. split; [done|]. intros Hall Hb. destruct (Hre 0%nat Hall H4); [|done].
    apply (budget_le _ (size (waiting sys (d_store d))) d); [|done].
    pose proof (batch_shrinks (rec :: items) (waiting sys (d_store d)) ∅ H3 H1 ltac:(set_solver)). cbn [length] in *. lia.
Qed.

(** FlushDLR for a system id ends within one round more than the number of
    waiting reports, and when the source accepts them none is left waiting. *)
Theorem flush_delivers_waiting fv sys d :
  (forall r, fv_others fv r = []) -> (forall r j, alone (fv_item fv r j)) -> fair_order fv -> wf (d_store d) -> sys <> "" ->
  exists d', FlushDLR fv sys (S (size (waiting sys (d_store d)))) 0 d = Some d'
    /\ ((forall r j, reachable sys (fv_item fv r j)) -> budget (size (waiting sys (d_store d))) d ->
        waiting sys (d_store d') = ∅).
Proof. intros. apply flush_ends; [done..|lia]. Qed.

Section deferral.
Context (TextHash : string -> string).

(** A report whose source has no receiver online, or does not acknowledge, is
    kept: it waits under the source's system id and no later sweep removes
    it. *)
Theorem unreachable_source_keeps_report T dv g d dlr p msg e :
  calm T dv -> wf (d_store d) -> unexpired T (segs g (d_store d)) ->
  dlr_Provider dlr = p_Provider p -> dlr_ProviderID dlr = p_ProviderID p ->
  segs g (d_store d) !! pendingKey (p_Provider p) (p_ProviderID p) = Some p -> GetMessage g (d_store d) = Some msg ->
  p_SourceKind p = "smpp" -> no_receipt (p_RegisteredDelivery p) = false ->
  (forall rec dl d, (pushSMPPDLR (dv_server dv) rec dl d).2 = Err e) -> deferred e = true ->
  exists d', HandleDLR TextHash dv dlr d = (d', Ok tt)
    /\ pendingKey (p_Provider p) (p_ProviderID p) ∈ waiting (p_SourceSystem p) (d_store d')
    /\ forall now, GetPending now (p_Provider p) (p_ProviderID p) (d_store d')
         = (sweepLocked now (d_store d'), Some (p_set_DLRReady true (reported_rec dv dlr p))).
Proof.
  intros Hc Hwf Hu Hd1 Hd2 Hp Hm Hk Hr Hpush Hdef. assert (p_GatewayID p = g) as Hg by (by apply segs_lookup in Hp as [_ ?]).
  destruct (handle_prefix TextHash T dv g d dlr p msg) as (d4 & l1 & -> & _ & Hwf4 & Hs4 & _); try done.
  unfold deliver_report. cbn [p_SourceKind p_RegisteredDelivery reported_rec set_dlr p_set_DLRDoneAt p_set_DLRErrorCode
    p_set_DLRState p_set_DLRDelivered p_set_DLRReady]. rewrite Hk, Hr, bool_decide_true by done. cbn [andb].
  set (rec := reported_rec dv dlr (p_set_DLRReady false p)). specialize (Hpush rec (stamped dv dlr) d4).
  pose proof (pushSMPPDLR_store (dv_server dv) rec (stamped dv dlr) d4) as Hd5.
  destruct (pushSMPPDLR _ _ _ _) as [d5 r]. cbn in Hpush, Hd5. subst r. rewrite Hdef.
  set (f := fun q => set_dlr (dlr_State (stamped dv dlr)) (dlr_ErrorCode (stamped dv dlr)) (dlr_DoneAt (stamped dv dlr)) (p_set_DLRReady true q)).
  assert (f (reported_rec dv dlr p) = p_set_DLRReady true (reported_rec dv dlr p)) as Ef.
  { subst f. unfold reported_rec, done_at, stamped. by destruct (IsZero _). }
  destruct (upd_segs g (d_store d5) f (reported_rec dv dlr p)) as (s6 & E6 & Hs6 & _).
  { by rewrite Hd5. } { rewrite Hd5, Hs4. apply lookup_insert_eq. } { done. }
  erewrite (dlr_at_calm T); [|done|exact E6]. eexists. split; [reflexivity|]. rewrite Ef in Hs6.
  assert (st_pending s6 !! pendingKey (p_Provider p) (p_ProviderID p) = Some (p_set_DLRReady true (reported_rec dv dlr p))) as Hl.
  { apply (segs_lookup g s6). rewrite Hs6. apply lookup_insert_eq. }
  split.
  - apply waiting_spec. eexists. split; [exact Hl|]. unfold ready_for. apply andb_true_iff. split; [done|].
    apply orb_true_iff. right. by apply bool_decide_eq_true.
  - intros now. unfold GetPending. cbn [d_store d_set_store]. cbn zeta.
    assert (st_pending (sweepLocked now s6) !! pendingKey (p_Provider p) (p_ProviderID p)
      = Some (p_set_DLRReady true (reported_rec dv dlr p))) as ->; [|done].
    cbn. apply map_lookup_filter_Some. by split.
Qed.
End deferral.

(** ** Examples *)

Definition demo_session : Session := mkSession "s1" true 7 (fun _ => Some 0).
Definition demo_server : SMPPServer := mkSMPPServer (fun _ => Some demo_session) (fun _ => [demo_session]).
Definition demo_dv (srv : option SMPPServer) : DlrEnv :=
  mkDlrEnv srv (fun _ _ => Some 200) (fun _ => []) 400 (fun k => mkPoll [] 400 (400 + Z.of_nat k * poll_interval) false) 400 400 400 400.
Definition demo_report (id state : string) (code : Z) : DLR := mkDLR "p1" id state code 400.
Definition demo_reports : list (DlrEnv * DLR) :=
  [(demo_dv (Some demo_server), demo_report "m0000001" "UNDELIV" 11); (demo_dv (Some demo_server), demo_report "u1" "DELIVRD" 0)].
Definition demo_sent : Dispatcher := (demo_process (demo_quiet demo_provider) demo_claimed (demo_at demo_claim.1)).1.

Lemma demo_calm srv : calm 500 (demo_dv srv).
Proof. split; try done; cbn; lia. Qed.

Lemma demo_reachable : reachable "sys" (demo_dv (Some demo_server)).
Proof.
  split; [|done]. intros rec dlr d Hsys _. unfold pushSMPPDLR, pick_session. cbn [dv_server demo_dv]. cbn zeta. rewrite Hsys.
  destruct (bool_decide (p_SourceSession rec = "")); [|done]. change (bool_decide ("sys" = "")) with false. cbn match.
  match goal with |- context [Z.rem ?x ?y] => replace (Z.rem x y) with 0 by (symmetry; apply Z.rem_1_r) end.
  reflexivity.
Qed.

Lemma dlr_lookup_ends_witness :
  (getPendingForDLR (demo_dv None) "p1" "u1" (demo_at demo_store)).2 <> Err DlrNoFuel.
Proof. apply dlr_lookup_ends. intros k. cbn. apply Z.le_refl. Defined.

Lemma sent_and_reported_witness :
  exists msg', GetMessage "m0000001" (d_store (handle_all id demo_reports demo_sent)) = Some msg'
    /\ outcome_of demo_reports.*2 msg' /\ segs "m0000001" (d_store (handle_all id demo_reports demo_sent)) = ∅.
Proof.
  apply (sent_and_reported id id (fun _ => "persist") 500 "sys" (demo_quiet demo_provider) demo_claimed
    (demo_msg "m0000001") (demo_at demo_claim.1) demo_provider ["u1"; ""] demo_reports).
  - apply (wf_exec (CClaimOutbox 200 "worker-1" 20)), wf_exec, wf_NewMemory.
  - intros p. reflexivity.
  - exact demo_held.
  - reflexivity.
  - reflexivity.
  - apply (bool_decide_unpack _). vm_compute. exact I.
  - left. split; reflexivity.
  - vm_compute. reflexivity.
  - vm_compute. discriminate.
  - split; reflexivity || discriminate.
  - constructor; [|constructor; [|constructor]];
      (split; [exact (demo_calm _)|split; [exact demo_reachable|reflexivity]]).
  - apply (bool_decide_unpack _). vm_compute. exact I.
Defined.

(** Two deferred reports, then a receiver binds. *)
Definition demo_deferred : Dispatcher :=
  handle_all id [(demo_dv (Some (mkSMPPServer (fun _ => None) (fun _ => []))), demo_report "u1" "DELIVRD" 0);
                 (demo_dv (Some (mkSMPPServer (fun _ => None) (fun _ => []))), demo_report "m0000001" "DELIVRD" 0)] demo_sent.
Definition demo_fv : FlushEnv :=
  mkFlushEnv (fun _ => []) (fun _ => 450) (fun _ m => map_to_list m) (fun _ _ => demo_dv (Some demo_server)).

Lemma flush_delivers_waiting_witness :
  waiting "sys" (d_store demo_deferred) = {[ pendingKey "p1" "u1"; pendingKey "p1" "m0000001" ]}
  /\ exists d', FlushDLR demo_fv "sys" 3 0 demo_deferred = Some d' /\ waiting "sys" (d_store d') = ∅.
Proof.
  split; [apply (bool_decide_unpack _); vm_compute; exact I|].
  destruct (flush_delivers_waiting demo_fv "sys" demo_deferred) as (d' & H1 & H2).
  - reflexivity.
  - intros r j p. reflexivity.
  - intros r m. reflexivity.
  - unfold demo_deferred. cbn [handle_all]. repeat (eapply runs_wf; [|apply HandleDLR_runs]).
    eapply runs_wf; [|apply processOutbox_runs]. apply (wf_exec (CClaimOutbox 200 "worker-1" 20)), wf_exec, wf_NewMemory.
  - discriminate.
  - assert (size (waiting "sys" (d_store demo_deferred)) = 2%nat) as E by (vm_compute; reflexivity).
    assert (d_dlrPick demo_deferred = 0) as Ep by (vm_compute; reflexivity).
    rewrite E in H1, H2. exists d'. split; [exact H1|]. apply H2.
    + intros r j. exact demo_reachable.
    + split; rewrite Ep; reflexivity || discriminate.
Defined.

Lemma unreachable_source_keeps_report_witness :
  exists d', HandleDLR id (demo_dv (Some (mkSMPPServer (fun _ => None) (fun _ => [])))) (demo_report "u1" "DELIVRD" 0) demo_sent = (d', Ok tt)
    /\ pendingKey "p1" "u1" ∈ waiting "sys" (d_store d').
Proof.
  pose (p := sent_pending (ob_Payload demo_claimed) (300 + 30 * Minute) 2 0 "u1").
  destruct (unreachable_source_keeps_report id 500 (demo_dv (Some (mkSMPPServer (fun _ => None) (fun _ => [])))) "m0000001" demo_sent
    (demo_report "u1" "DELIVRD" 0) p (msg_set_SentAt 300 (msg_set_State "sent" (msg_set_ProviderID "u1" (demo_msg "m0000001"))))
    errNoReceiverOnline) as (d' & H1 & H2 & _).
  - exact (demo_calm _).
  - eapply runs_wf; [|apply processOutbox_runs]. apply (wf_exec (CClaimOutbox 200 "worker-1" 20)), wf_exec, wf_NewMemory.
  - apply (bool_decide_unpack _). vm_compute. exact I.
  - reflexivity.
  - reflexivity.
  - vm_compute. reflexivity.
  - vm_compute. reflexivity.
  - reflexivity.
  - reflexivity.
  - intros rec dl d. unfold pushSMPPDLR, pick_session. cbn.
    destruct (bool_decide (p_SourceSession rec = "")), (bool_decide (p_SourceSystem rec = "")); reflexivity.
  - reflexivity.
  - exists d'. split; [exact H1|exact H2].
Defined.

(** A provider that gives no identifiers to the two segments of a message: both
    are taken for the gateway id, one record remains for the two, and reports on
    both leave the message without its final state and the record where it is. *)
Definition demo_nameless : Dispatcher :=
  (demo_process (demo_quiet (MultiID (fun _ => Ok [""; ""]))) demo_claimed (demo_at demo_claim.1)).1.
Definition demo_twice : list (DlrEnv * DLR) :=
  [(demo_dv (Some demo_server), demo_report "m0000001" "DELIVRD" 0); (demo_dv (Some demo_server), demo_report "m0000001" "DELIVRD" 0)].

Example empty_ids_never_final :
  let d := handle_all id demo_twice demo_nameless in
  (msg_State <$> GetMessage "m0000001" (d_store d)) = Some "sent" /\ size (segs "m0000001" (d_store d)) = 1%nat.
Proof. vm_compute. split; reflexivity. Qed.
