(* ===== verification/Workers.v ===== *)
(** * Worker goroutines: internal/dispatch/dispatcher.go, workerLoop, requeueStale

    Workers claim batches of outbox items and run one goroutine per item; a
    requeue loop returns stale claims. The goroutines of one or several
    dispatchers share the store and interleave between its operations. The
    system below makes their steps explicit: each step is one store operation
    or one call of a provider. *)

From S2P Require Import Prelude Unicode Codec Segment Num GoTime Records Store StoreInv StoreSubmit GatewayId.
From S2P Require Import Addr Router DlrAggregate Dispatch DispatchSubmit DispatchSend.

(** ** The loops' own arithmetic *)

(** The limit of a claim: the goroutines the worker may still start. *)
Definition claim_batch (claimLimit capacity running : Z) : option Z :=
  let available := capacity - running in
  if available <=? 0 then None else if available <? claimLimit then Some available else Some claimLimit.

Definition requeue_limit (d : Dispatcher) : Z :=
  let limit := d_claimLimit d * d_workers d in
  if limit <=? 0 then d_claimLimit d else limit.

(** [entries] is the outbox in the order of the store's loop. *)
Definition requeueStale (now : time) (entries : list (Z * OutboxItem)) (d : Dispatcher) : Dispatcher :=
  d_set_store (RequeueStaleOutbox (now - d_claimTimeout d) (requeue_limit d) entries (d_store d)).1 d.

Definition sweepExpiredPending (now : time) (d : Dispatcher) : Dispatcher :=
  d_set_store (SweepExpiredPending now (d_store d)).1 d.

(** ** The system *)

Inductive phase := Holding | Marked | Over.

#[export] Instance phase_eq_dec : EqDecision phase.
Proof. solve_decision. Defined.

(** A goroutine of [processOutbox]: the item it was started with and how far
    it is. [Marked]: [MarkOutboxSending] succeeded, the provider not yet called. *)
Record task := mkTask {
  tk_item : OutboxItem;
  tk_phase : phase }.

Record system := mkSystem {
  sy_store : MemoryStore;
  sy_tasks : list task;
  sy_sent : list Z }.

Definition set_phase (ph : phase) (t : task) : task := mkTask (tk_item t) ph.

(** [EMark i last]: an attempt of [retryStoreTransition] to mark the item; after
    a failing attempt that was not the last (nor its context over) another follows. *)
Inductive event :=
| EClaim (now : time) (workerID : string) (limit : Z)
| EMark (i : nat) (last : bool)
| ESend (i : nat)
| EFail (i : nat) (errMsg : string) (next : time)
| ERequeue (before : time) (limit : Z) (order : list Z)
| EStore (c : call).

(** Calls other than those of the loops and of an item not yet sent. After the
    provider call a goroutine completes its item, marks it uncertain or
    fails it for good: calls on an item already past sending. *)
Definition other_call (c : call) : bool :=
  match c with
  | CClaimOutbox _ _ _ | CMarkOutboxSending _ _ | CRequeueStaleOutbox _ _ _ | CAckOutbox _ | CFailOutbox _ _ _ => false
  | _ => true
  end.

(** Failing an item for good, as after a permanent error of the provider. *)
Definition final_failure (s : MemoryStore) (c : call) : bool :=
  match c with
  | CFailOutbox id _ _ => match st_outbox s !! id with Some it => past_send (ob_State it) | None => false end
  | _ => false
  end.

Definition sys_step (e : event) (y : system) : system :=
  match e with
  | EClaim now w limit =>
    let '(s, items) := ClaimOutbox now w limit (sy_store y) in
    mkSystem s (sy_tasks y ++ ((fun it => mkTask it Holding) <$> items)) (sy_sent y)
  | EMark i last =>
    match sy_tasks y !! i with
    | Some (mkTask it Holding) =>
      let '(s, r) := MarkOutboxSending (ob_ID it) (ob_ClaimedBy it) (sy_store y) in
      mkSystem s (alter (set_phase (match r with Ok _ => Marked | Err _ => if last then Over else Holding end)) i (sy_tasks y)) (sy_sent y)
    | _ => y
    end
  | ESend i =>
    match sy_tasks y !! i with
    | Some (mkTask it Marked) => mkSystem (sy_store y) (alter (set_phase Over) i (sy_tasks y)) (sy_sent y ++ [ob_ID it])
    | _ => y
    end
  | EFail i errMsg next =>
    match sy_tasks y !! i with
    | Some (mkTask it Holding) =>
      mkSystem (FailOutbox (ob_ID it) errMsg next (sy_store y)).1 (alter (set_phase Over) i (sy_tasks y)) (sy_sent y)
    | _ => y
    end
  | ERequeue before limit order =>
    mkSystem (exec (CRequeueStaleOutbox before limit order) (sy_store y)) (sy_tasks y) (sy_sent y)
  | EStore c =>
    if other_call c || final_failure (sy_store y) c then mkSystem (exec c (sy_store y)) (sy_tasks y) (sy_sent y) else y
  end.

(** A requeue is timely when no goroutine still holds an item it takes back. *)
Definition timely (e : event) (y : system) : Prop :=
  match e with
  | ERequeue before _ _ =>
    forall t it, t ∈ sy_tasks y -> tk_phase t = Holding -> st_outbox (sy_store y) !! ob_ID (tk_item t) = Some it ->
      stale before it = false
  | _ => True
  end.

Fixpoint all_timely (es : list event) (y : system) : Prop :=
  match es with
  | [] => True
  | e :: es => timely e y /\ all_timely es (sys_step e y)
  end.

Definition sys_run (es : list event) (y : system) : system := foldl (flip sys_step) y es.

Definition sys_init : system := mkSystem NewMemory [] [].

(** ** The invariant *)

Definition live (t : task) : bool := negb (bool_decide (tk_phase t = Over)).
Definition live_ids (ts : list task) : list Z := (fun t => ob_ID (tk_item t)) <$> filter (fun t => live t = true) ts.

Definition item_state (s : MemoryStore) (id : Z) (P : string -> Prop) : Prop :=
  exists it, st_outbox s !! id = Some it /\ P (ob_State it).

Record sys_ok (y : system) : Prop := mk_sys_ok {
  so_wf : wf (sy_store y);
  so_live : NoDup (live_ids (sy_tasks y));
  so_holding : forall t, t ∈ sy_tasks y -> tk_phase t = Holding ->
    item_state (sy_store y) (ob_ID (tk_item t)) (fun st => st = "claimed");
  so_marked : forall t, t ∈ sy_tasks y -> tk_phase t = Marked ->
    item_state (sy_store y) (ob_ID (tk_item t)) (fun st => past_send st = true);
  so_sent : NoDup (sy_sent y);
  so_past : forall id, id ∈ sy_sent y ->
    item_state (sy_store y) id (fun st => past_send st = true) /\ id ∉ live_ids (sy_tasks y) }.

(** ** Steps of the store on one item *)

Lemma step_past c s id :
  wf s -> item_state s id (fun st => past_send st = true) -> item_state (exec c s) id (fun st => past_send st = true).
Proof.
  intros Hwf (it & Hit & Hp). destruct (exec_item_step c s id it Hwf Hit) as (it' & Hit' & He & _).
  exists it'. split; [done|]. by eapply edge_past.
Qed.

Lemma insert_other (m : gmap Z OutboxItem) id k it x :
  m !! id = Some it -> (k = id -> ob_State x = ob_State it) -> exists it', <[k := x]> m !! id = Some it' /\ ob_State it' = ob_State it.
Proof.
  intros Hit Hx. destruct (decide (k = id)) as [->|Hne].
  - rewrite lookup_insert_eq. eauto.
  - rewrite lookup_insert_ne by done. eauto.
Qed.

(** A claimed item is left alone by the other calls. *)
Lemma other_claimed c s id :
  wf s -> other_call c || final_failure s c = true -> item_state s id (fun st => st = "claimed") ->
  item_state (exec c s) id (fun st => st = "claimed").
Proof.
  intros Hwf Hc (it & Hit & Hst).
  assert (forall s', st_outbox s' = st_outbox s -> item_state s' id (fun st => st = "claimed")) as Hsame
    by (intros s' E; exists it; by rewrite E).
  assert (forall s' k x, st_outbox s' = <[k := x]> (st_outbox s) ->
    (k = id -> ob_State x = "claimed") -> item_state s' id (fun st => st = "claimed")) as Hins.
  { intros s' k x E Hx. unfold item_state. rewrite E, <- Hst in *. by apply insert_other. }
  destruct c; cbn [exec]; try discriminate Hc; try (by apply Hsame).
  - apply Hsame. unfold SaveMessage. apply put_message_outbox.
  - apply Hsame. unfold UpdateMessageSent. by case_match.
  - apply Hsame. unfold UpdateMessageState. by case_match.
  - apply Hsame. unfold UpdatePendingDLR, upd_pending. by case_match.
  - apply Hsame. unfold MarkDLRReady, upd_pending. by case_match.
  - apply Hsame. unfold MarkDLRDelivered, upd_pending. by case_match.
  - apply Hsame. unfold GetPending. by repeat case_match.
  - eapply Hins; [reflexivity|]. intros E. apply (wf_outbox _ Hwf) in Hit. lia.
  - unfold CompleteOutboxSend. repeat case_match; try (by apply Hsame); bool_states;
      (eapply Hins; [reflexivity|]; intros ->; congruence).
  - unfold MarkOutboxUncertain. destruct (st_outbox s !! id0) as [x|] eqn:E; [|by apply Hsame].
    case_match eqn:E1; [by apply Hsame|]. case_match; [by apply Hsame|]. apply andb_false_iff in E1.
    assert (id0 <> id) as Hne by (intros ->; destruct E1 as [E1|E1]; bool_states; congruence).
    case_match; (eapply Hins; [reflexivity|done]).
  - cbn in Hc. unfold FailOutbox. destruct (st_outbox s !! id0) as [x|] eqn:E; [|done].
    assert (id0 <> id) as Hne by (intros ->; rewrite Hit in E; injection E as <-; by rewrite Hst in Hc).
    repeat case_match; try (by apply Hsame); (eapply Hins; [reflexivity|done]).
  - apply Hsame. unfold CheckIdempotency. by repeat case_match.
  - apply Hsame. unfold SaveIdempotency. by repeat case_match.
  - destruct (SubmitAtomic_outbox now msg item opts s) as [E|[x E]]; [by apply Hsame|].
    eapply Hins; [exact E|]. intros Eid. apply (wf_outbox _ Hwf) in Hit. lia.
Qed.

(** ** Steps keep the invariant *)

(** A new store that keeps the claims held and what is past sending. *)
Lemma sys_ok_store y s' :
  sys_ok y -> wf s' ->
  (forall t, t ∈ sy_tasks y -> tk_phase t = Holding -> item_state s' (ob_ID (tk_item t)) (fun st => st = "claimed")) ->
  (forall id, item_state (sy_store y) id (fun st => past_send st = true) -> item_state s' id (fun st => past_send st = true)) ->
  sys_ok (mkSystem s' (sy_tasks y) (sy_sent y)).
Proof.
  intros [Hwf Hl Hh Hm Hs Hp] Hwf' Hc Hpast. split; cbn; try done.
  - intros t Ht Hph. by apply Hpast, Hm.
  - intros id Hid. destruct (Hp id Hid). auto.
Qed.

Lemma live_ids_app l1 l2 : live_ids (l1 ++ l2) = live_ids l1 ++ live_ids l2.
Proof. unfold live_ids. by rewrite filter_app, fmap_app. Qed.

Lemma live_ids_cons t l : live_ids (t :: l) = (if live t then [ob_ID (tk_item t)] else []) ++ live_ids l.
Proof. unfold live_ids. rewrite filter_cons. by destruct (live t). Qed.

Lemma live_ids_elem t l : t ∈ l -> tk_phase t <> Over -> ob_ID (tk_item t) ∈ live_ids l.
Proof.
  intros Ht Hp. apply (list_elem_of_fmap_2 (fun t => ob_ID (tk_item t))), list_elem_of_filter.
  split; [|done]. unfold live. by rewrite bool_decide_false.
Qed.

Lemma alter_middle {A} (f : A -> A) l1 x l2 : alter f (length l1) (l1 ++ x :: l2) = (l1 ++ f x :: l2).
Proof. induction l1 as [|y l1 IH]; [done|]. cbn. by f_equal. Qed.

(** The task [i] moves on: the other tasks and their ids stay. *)
Lemma task_split y i t :
  sys_ok y -> sy_tasks y !! i = Some t -> live t = true ->
  exists l1 l2, sy_tasks y = (l1 ++ t :: l2)
    /\ (forall f, alter f i (sy_tasks y) = (l1 ++ f t :: l2))
    /\ (ob_ID (tk_item t) ∉ live_ids (l1 ++ l2)) /\ NoDup (live_ids (l1 ++ l2)).
Proof.
  intros Hok Hi Hlive. apply list_elem_of_split_length in Hi as (l1 & l2 & E & ->). exists l1, l2.
  split; [done|]. split; [intros f; rewrite E; apply alter_middle|].
  pose proof (so_live _ Hok) as Hn. rewrite E, live_ids_app, live_ids_cons, Hlive in Hn. cbn in Hn.
  rewrite <- Permutation_middle in Hn. apply NoDup_cons in Hn. by rewrite live_ids_app.
Qed.

Lemma item_state_impl s id (P Q : string -> Prop) : (forall st, P st -> Q st) -> item_state s id P -> item_state s id Q.
Proof. intros H (it & ? & ?). exists it. auto. Qed.

Lemma live_state y id :
  sys_ok y -> id ∈ live_ids (sy_tasks y) -> item_state (sy_store y) id (fun st => st <> "pending").
Proof.
  intros Hok (t & -> & Ht)%list_elem_of_fmap. apply list_elem_of_filter in Ht as [Hlive Ht].
  unfold live in Hlive. destruct (tk_phase t) eqn:E.
  - eapply item_state_impl; [|by apply (so_holding _ Hok)]. by intros st ->.
  - eapply item_state_impl; [|by apply (so_marked _ Hok)]. by intros st Hp ->.
  - done.
Qed.

(** Claiming takes pending items only: the others are untouched. *)
Lemma claim_others now w limit s id P :
  wf s -> item_state s id (fun st => st <> "pending" /\ P st) ->
  (id ∉ ob_ID <$> claim_candidates now limit (st_outbox s)) /\ item_state (ClaimOutbox now w limit s).1 id P.
Proof.
  intros Hwf (it & Hit & Hst & HP). assert (id ∉ ob_ID <$> claim_candidates now limit (st_outbox s)) as Hn.
  { intros (x & -> & Hx)%list_elem_of_fmap. apply claim_taken in Hx as [Hx1 Hx2]; [|done].
    unfold claimable in Hx2. apply andb_true_iff in Hx2 as [Hx2%bool_decide_eq_true _]. congruence. }
  split; [done|]. exists it. by rewrite (claim_lookup now w limit s id it Hwf Hit), bool_decide_false.
Qed.

Lemma sys_ok_claim now w limit y : sys_ok y -> sys_ok (sys_step (EClaim now w limit) y).
Proof.
  intros Hok. pose proof (so_wf _ Hok) as Hwf. set (s := sy_store y) in *.
  set (taken := claim_candidates now limit (st_outbox s)).
  assert (sys_step (EClaim now w limit) y = mkSystem (ClaimOutbox now w limit s).1
    (sy_tasks y ++ ((fun it => mkTask (claim_item w now it) Holding) <$> taken)) (sy_sent y)) as ->.
  { cbn. f_equal. rewrite <- list_fmap_compose. done. }
  assert (live_ids ((fun it => mkTask (claim_item w now it) Holding) <$> taken) = ob_ID <$> taken) as Hnew.
  { induction taken as [|it l IH]; [done|]. rewrite fmap_cons, live_ids_cons, IH. done. }
  assert (forall t, t ∈ (fun it => mkTask (claim_item w now it) Holding) <$> taken ->
    item_state (ClaimOutbox now w limit s).1 (ob_ID (tk_item t)) (fun st => st = "claimed") /\ tk_phase t = Holding) as Ht.
  { intros t (it & -> & Hit)%list_elem_of_fmap. split; [|done]. destruct (claim_taken now limit s it Hwf Hit) as [H1 _].
    exists (claim_item w now it). cbn [tk_item claim_item ob_ID ob_set_Attempt ob_set_ClaimedAt ob_set_ClaimedBy ob_set_State].
    rewrite (claim_lookup now w limit s _ it Hwf H1), bool_decide_true; [done|]. by apply list_elem_of_fmap_2. }
  split; cbn [sy_store sy_tasks sy_sent].
  - by apply wf_claim.
  - rewrite live_ids_app, Hnew. apply NoDup_app. split_and!; [apply Hok| |by apply claim_ids_NoDup].
    intros id Hid. apply (live_state y id Hok) in Hid.
    apply (claim_others now w limit s id (fun _ => True) Hwf). eapply item_state_impl; [|exact Hid]. done.
  - intros t [Hin|Hin]%elem_of_app Hph; [|by apply Ht]. apply (claim_others now w limit s); [done|].
    eapply item_state_impl; [|by apply (so_holding _ Hok)]. by intros st ->.
  - intros t [Hin|Hin]%elem_of_app Hph; [|apply Ht in Hin as [_ ?]; congruence].
    apply (claim_others now w limit s); [done|]. eapply item_state_impl; [|by apply (so_marked _ Hok)].
    intros st Hp. split; [by intros ->|done].
  - apply Hok.
  - intros id Hid. destruct (so_past _ Hok id Hid) as [H1 H2].
    destruct (claim_others now w limit s id (fun st => past_send st = true) Hwf) as [H3 H4].
    { eapply item_state_impl; [|exact H1]. intros st Hp. split; [by intros ->|done]. }
    split; [done|]. rewrite live_ids_app, Hnew. apply not_elem_of_app. done.
Qed.

(** A goroutine moves on, the store changing at its own item only. *)
Lemma sys_ok_move y i it ph0 ph s' :
  sys_ok y -> sy_tasks y !! i = Some (mkTask it ph0) -> ph0 <> Over -> wf s' ->
  (forall id, id <> ob_ID it -> st_outbox s' !! id = st_outbox (sy_store y) !! id) ->
  (forall id, item_state (sy_store y) id (fun st => past_send st = true) -> item_state s' id (fun st => past_send st = true)) ->
  ph <> Holding -> (ph = Marked -> item_state s' (ob_ID it) (fun st => past_send st = true)) ->
  let y' := mkSystem s' (alter (set_phase ph) i (sy_tasks y)) (sy_sent y) in
  sys_ok y' /\ (ph = Over -> ob_ID it ∉ live_ids (sy_tasks y')).
Proof.
  intros Hok Hi Hph0 Hwf' Hother Hpast Hph Hm y'.
  assert (live (mkTask it ph0) = true) as Hlive by (unfold live; cbn; by rewrite bool_decide_false).
  destruct (task_split y i _ Hok Hi Hlive) as (l1 & l2 & E & Ealt & Hid & Hnd). cbn [tk_item] in Hid.
  assert (sy_tasks y' = (l1 ++ mkTask it ph :: l2)) as Ey by apply Ealt.
  assert (live_ids (sy_tasks y') ≡ₚ (if live (mkTask it ph) then [ob_ID it] else []) ++ live_ids (l1 ++ l2)) as El.
  { rewrite Ey, !live_ids_app, live_ids_cons. cbn [tk_item]. rewrite !app_assoc. f_equiv. apply Permutation_app_comm. }
  assert (forall t, t ∈ sy_tasks y' -> tk_phase t <> Over -> t = mkTask it ph \/
    (t ∈ sy_tasks y /\ ob_ID (tk_item t) <> ob_ID it)) as Hin.
  { intros t Ht Hlt. rewrite Ey, elem_of_app, elem_of_cons in Ht. rewrite E.
    assert (t ∈ l1 ++ l2 \/ t = mkTask it ph) as [Ht'| ->]; [set_solver| |by left]. right. split; [set_solver|].
    intros Eid. apply Hid. rewrite <- Eid. by apply live_ids_elem. }
  split; [split|intros ->]; rewrite ?El; cbn [sy_store sy_sent y'].
  - done.
  - destruct (live (mkTask it ph)); [by apply NoDup_cons|done].
  - intros t Ht Hh. destruct (Hin t Ht) as [->|[Ht1 Ht2]]; [by rewrite Hh|done|].
    destruct (so_holding _ Hok t Ht1 Hh) as (x & Hx & Hs). exists x. by rewrite Hother.
  - intros t Ht Hh. destruct (Hin t Ht) as [->|[Ht1 Ht2]]; [by rewrite Hh|by apply Hm|].
    apply Hpast. by apply (so_marked _ Hok).
  - apply Hok.
  - intros id Hs. destruct (so_past _ Hok id Hs) as [H1 H2]. split; [by apply Hpast|]. rewrite El.
    assert ((id ∉ live_ids (l1 ++ l2)) /\ id <> ob_ID it) as [H3 H4].
    { rewrite E, live_ids_app, live_ids_cons, Hlive in H2. cbn in H2. rewrite live_ids_app. set_solver. }
    destruct (live (mkTask it ph)); set_solver.
  - exact Hid.
Qed.

Lemma mark_frame id w s k : k <> id -> st_outbox (MarkOutboxSending id w s).1 !! k = st_outbox s !! k.
Proof. intros Hne. unfold MarkOutboxSending. repeat case_match; try done. by apply lookup_insert_ne. Qed.

Lemma fail_frame id e t s k : k <> id -> st_outbox (FailOutbox id e t s).1 !! k = st_outbox s !! k.
Proof. intros Hne. unfold FailOutbox. repeat case_match; try done; by apply lookup_insert_ne. Qed.

(** A failing attempt that is not the last leaves the system as it was. *)
Lemma mark_err id w s s' e : MarkOutboxSending id w s = (s', Err e) -> s' = s.
Proof. unfold MarkOutboxSending. intros H. repeat case_match; by simplify_eq. Qed.

Lemma set_phase_same ph i (l : list task) it : l !! i = Some (mkTask it ph) -> alter (set_phase ph) i l = l.
Proof. intros H. apply list_eq. intros k. destruct (decide (i = k)) as [<-|Hne]; [by rewrite list_lookup_alter_eq, H|by rewrite list_lookup_alter_ne]. Qed.

Lemma sys_ok_mark i last y : sys_ok y -> sys_ok (sys_step (EMark i last) y).
Proof.
  intros Hok. cbn [sys_step]. destruct (sy_tasks y !! i) as [[it ph]|] eqn:Ei; [|done]. destruct ph; try done.
  pose proof (wf_exec (CMarkOutboxSending (ob_ID it) (ob_ClaimedBy it)) _ (so_wf _ Hok)) as Hwf'.
  pose proof (fun id => step_past (CMarkOutboxSending (ob_ID it) (ob_ClaimedBy it)) _ id (so_wf _ Hok)) as Hpast.
  pose proof (mark_frame (ob_ID it) (ob_ClaimedBy it) (sy_store y)) as Hframe. cbn [exec] in *.
  destruct (MarkOutboxSending _ _ _) as [s' r] eqn:Em. cbn [fst] in *. destruct r as [[]|e].
  - eapply (sys_ok_move y i it Holding); try done. intros _. apply mark_sending_ok in Em as (x & Hx & Hs & _). exists x. split; [done|]. by rewrite Hs.
  - destruct last; [by eapply (sys_ok_move y i it Holding)|]. apply mark_err in Em as ->. rewrite (set_phase_same _ _ _ _ Ei). by destruct y.
Qed.

Lemma sys_ok_fail i e t y : sys_ok y -> sys_ok (sys_step (EFail i e t) y).
Proof.
  intros Hok. cbn [sys_step]. destruct (sy_tasks y !! i) as [[it ph]|] eqn:Ei; [|done]. destruct ph; try done.
  pose proof (wf_exec (CFailOutbox (ob_ID it) e t) _ (so_wf _ Hok)) as Hwf'.
  pose proof (fun id => step_past (CFailOutbox (ob_ID it) e t) _ id (so_wf _ Hok)) as Hpast.
  eapply (sys_ok_move y i it Holding); try done. apply fail_frame.
Qed.

Lemma sys_ok_send i y : sys_ok y -> sys_ok (sys_step (ESend i) y).
Proof.
  intros Hok. cbn [sys_step]. destruct (sy_tasks y !! i) as [[it ph]|] eqn:Ei; [|done]. destruct ph; try done.
  destruct (sys_ok_move y i it Marked Over (sy_store y)) as [Hok' Hout]; try done; [apply Hok|].
  specialize (Hout eq_refl). cbn [sy_tasks] in Hout.
  assert (item_state (sy_store y) (ob_ID it) (fun st => past_send st = true)) as Hp.
  { apply (so_marked _ Hok (mkTask it Marked)); [by eapply list_elem_of_lookup_2|done]. }
  assert (ob_ID it ∈ live_ids (sy_tasks y)) as Hl.
  { apply (live_ids_elem (mkTask it Marked)); [|done]. by eapply list_elem_of_lookup_2. }
  destruct Hok' as [H1 H2 H3 H4 H5 H6]. cbn [sy_store sy_tasks sy_sent] in *. split; cbn [sy_store sy_tasks sy_sent]; try done.
  - apply NoDup_app. split_and!; [done| |by apply NoDup_singleton]. intros id Hid Hin%list_elem_of_singleton. subst id.
    by apply (so_past _ Hok) in Hid as [_ ?].
  - intros id [Hid|Hid%list_elem_of_singleton]%elem_of_app; [by apply H6|]. by subst id.
Qed.

Lemma sys_ok_requeue b l o y : sys_ok y -> timely (ERequeue b l o) y -> sys_ok (sys_step (ERequeue b l o) y).
Proof.
  intros Hok Ht. cbn [sys_step]. apply sys_ok_store; [done|by apply wf_exec, Hok| |intros id; by apply step_past, Hok].
  intros t Hin Hh. destruct (so_holding _ Hok t Hin Hh) as (it & Hit & Hs). specialize (Ht t it Hin Hh Hit).
  exists it. split; [|done]. cbn [exec]. unfold RequeueStaleOutbox. cbn [fst st_set_outbox st_outbox].
  rewrite (fold_update_lookup _ _ _ _ it); [|..|done].
  - rewrite bool_decide_false; [done|]. intros Hk. apply list_elem_of_fmap in Hk as ([k x] & Ek & Hx%elem_of_take_inv).
    apply list_elem_of_filter in Hx as [Hst Hx%entries_in_elem]. cbn in *. subst k. congruence.
  - intros k x Hx%elem_of_take_inv. apply list_elem_of_filter in Hx as [_ Hx]. by apply entries_in_elem in Hx.
Qed.

Lemma sys_ok_step e y : sys_ok y -> timely e y -> sys_ok (sys_step e y).
Proof.
  intros Hok Ht. destruct e as [now w l|i last|i|i m t|b l o|c].
  - by apply sys_ok_claim.
  - by apply sys_ok_mark.
  - by apply sys_ok_send.
  - by apply sys_ok_fail.
  - by apply sys_ok_requeue.
  - cbn [sys_step]. destruct (_ || _) eqn:Hc; [|done].
    apply sys_ok_store; [done|by apply wf_exec, Hok| |intros id; by apply step_past, Hok].
    intros t Hin Hh. apply other_claimed; [apply Hok|done|]. by apply (so_holding _ Hok).
Qed.

Lemma sys_ok_init : sys_ok sys_init.
Proof.
  split.
  - apply wf_NewMemory.
  - constructor.
  - by intros t ?%elem_of_nil.
  - by intros t ?%elem_of_nil.
  - constructor.
  - by intros id ?%elem_of_nil.
Qed.

(** C1: In any interleaving of worker goroutines, requeues and other store calls
    in which no requeue takes back an item a goroutine still holds, the
    provider is called at most once per outbox item, however often a goroutine
    tries to mark its item. *)
Theorem provider_called_at_most_once es :
  all_timely es sys_init -> NoDup (sy_sent (sys_run es sys_init)).
Proof.
  assert (forall y, sys_ok y -> all_timely es y -> sys_ok (sys_run es y)) as H.
  { induction es as [|e es IH]; intros y Hok Ht; [done|]. destruct Ht as [He Hes]. apply IH; [by apply sys_ok_step|done]. }
  intros Ht. apply so_sent, H; [apply sys_ok_init|done].
Qed.

(** Two workers, one submission, a retry after a missing provider. *)
Definition demo_events : list event :=
  [EStore demo_submit; EClaim 200 "worker-1" 20; EClaim 210 "worker-2" 20; EFail 0 "provider not found" 300;
   EClaim 400 "worker-2" 20; ERequeue 350 20 [1]; EMark 1 false; ESend 1; EMark 0 false; EMark 0 false; EMark 0 true; ESend 0;
   EStore (CMarkOutboxUncertain 500 1 "worker-2" "timeout")].

Lemma provider_called_at_most_once_witness :
  sy_sent (sys_run demo_events sys_init) = [1] /\ NoDup (sy_sent (sys_run demo_events sys_init)).
Proof.
  split; [vm_compute; reflexivity|]. apply provider_called_at_most_once.
  cbn [demo_events all_timely timely]. repeat (split; [exact I|]). split; [|repeat (split; [exact I|]); exact I].
  intros t it Ht Hh Hit.
  assert (stale 350 <$> st_outbox (sy_store (sys_run (take 5 demo_events) sys_init)) !! 1 = Some false) as Hs by (vm_compute; reflexivity).
  assert (Forall (fun t => ob_ID (tk_item t) = 1) (sy_tasks (sys_run (take 5 demo_events) sys_init))) as Hall
    by (apply (bool_decide_unpack _); vm_compute; exact I).
  rewrite Forall_forall in Hall. specialize (Hall t Ht). rewrite Hall in Hit.
  change (st_outbox (sy_store (sys_run (take 5 demo_events) sys_init)) !! 1 = Some it) in Hit.
  rewrite Hit in Hs. cbn in Hs. injection Hs as Hs. exact Hs.
Defined.
