(* ===== verification/SmppSession.v ===== *)
(** * SMPP sessions: internal/smpp/session.go

    A connection of an ESME. Its goroutines share the session object and
    interleave between their operations: the reader runs [dispatch] on each
    PDU, the writer drains the channel [out], a ticker sends enquire_link, and
    callers of [SendDeliverSM] wait for the ESME's answer. What a goroutine has
    still to do is part of the state. *)

From S2P Require Import Prelude Unicode Codec Segment Pdu Num GoTime Submit.

Inductive BindMode := BindNone | BindRX | BindTX | BindTRX.

#[export] Instance BindMode_eq_dec : EqDecision BindMode.
Proof. solve_decision. Defined.

Definition CanSubmit (m : BindMode) : bool := match m with BindTX | BindTRX => true | _ => false end.
Definition CanReceive (m : BindMode) : bool := match m with BindRX | BindTRX => true | _ => false end.

Definition SMPPMaxSystemID : nat := 15.
Definition SMPPMaxPassword : nat := 8.
Definition SMPPMaxSystemType : nat := 12.

(** The functions of the configuration: [None] for nil. [BindAllowed] is
    given the session by the caller; [OnSubmit] is a step of its own, and only
    whether it is set matters here. *)
Record SessionConfig := mkSessionConfig {
  cfg_OwnSystemID : string;
  cfg_Auth : option (string -> string -> bool);
  cfg_OnSubmit : bool;
  cfg_OnReceiverBound : bool;
  cfg_EnquirePeriod : Z;
  cfg_WindowSize : Z }.

(** ** The session object

    [s_out] holds what waits in the channel of capacity 64; [s_deliverResp]
    maps a sequence number to the channel of a waiting call, named by the
    call's index. [s_inflight] is an int32, [s_nextSeq] a uint32, [s_lastSeen]
    a Unix time in nanoseconds. *)

Record Session := mkSession {
  s_id : string;
  s_cfg : SessionConfig;
  s_out : list PDU;
  s_closed : bool;
  s_deliverResp : gmap Z nat;
  s_bindMode : BindMode;
  s_inflight : Z;
  s_nextSeq : Z;
  s_systemID : string;
  s_lastSeen : Z }.

Definition s_set_out (v : list PDU) (r : Session) : Session :=
  {| s_id := s_id r; s_cfg := s_cfg r; s_out := v;
     s_closed := s_closed r; s_deliverResp := s_deliverResp r; s_bindMode := s_bindMode r;
     s_inflight := s_inflight r; s_nextSeq := s_nextSeq r; s_systemID := s_systemID r;
     s_lastSeen := s_lastSeen r |}.

Definition s_set_closed (v : bool) (r : Session) : Session :=
  {| s_id := s_id r; s_cfg := s_cfg r; s_out := s_out r;
     s_closed := v; s_deliverResp := s_deliverResp r; s_bindMode := s_bindMode r;
     s_inflight := s_inflight r; s_nextSeq := s_nextSeq r; s_systemID := s_systemID r;
     s_lastSeen := s_lastSeen r |}.

Definition s_set_deliverResp (v : gmap Z nat) (r : Session) : Session :=
  {| s_id := s_id r; s_cfg := s_cfg r; s_out := s_out r;
     s_closed := s_closed r; s_deliverResp := v; s_bindMode := s_bindMode r;
     s_inflight := s_inflight r; s_nextSeq := s_nextSeq r; s_systemID := s_systemID r;
     s_lastSeen := s_lastSeen r |}.

Definition s_set_bindMode (v : BindMode) (r : Session) : Session :=
  {| s_id := s_id r; s_cfg := s_cfg r; s_out := s_out r;
     s_closed := s_closed r; s_deliverResp := s_deliverResp r; s_bindMode := v;
     s_inflight := s_inflight r; s_nextSeq := s_nextSeq r; s_systemID := s_systemID r;
     s_lastSeen := s_lastSeen r |}.

Definition s_set_inflight (v : Z) (r : Session) : Session :=
  {| s_id := s_id r; s_cfg := s_cfg r; s_out := s_out r;
     s_closed := s_closed r; s_deliverResp := s_deliverResp r; s_bindMode := s_bindMode r;
     s_inflight := v; s_nextSeq := s_nextSeq r; s_systemID := s_systemID r;
     s_lastSeen := s_lastSeen r |}.

Definition s_set_nextSeq (v : Z) (r : Session) : Session :=
  {| s_id := s_id r; s_cfg := s_cfg r; s_out := s_out r;
     s_closed := s_closed r; s_deliverResp := s_deliverResp r; s_bindMode := s_bindMode r;
     s_inflight := s_inflight r; s_nextSeq := v; s_systemID := s_systemID r;
     s_lastSeen := s_lastSeen r |}.

Definition s_set_systemID (v : string) (r : Session) : Session :=
  {| s_id := s_id r; s_cfg := s_cfg r; s_out := s_out r;
     s_closed := s_closed r; s_deliverResp := s_deliverResp r; s_bindMode := s_bindMode r;
     s_inflight := s_inflight r; s_nextSeq := s_nextSeq r; s_systemID := v;
     s_lastSeen := s_lastSeen r |}.

Definition s_set_lastSeen (v : Z) (r : Session) : Session :=
  {| s_id := s_id r; s_cfg := s_cfg r; s_out := s_out r;
     s_closed := s_closed r; s_deliverResp := s_deliverResp r; s_bindMode := s_bindMode r;
     s_inflight := s_inflight r; s_nextSeq := s_nextSeq r; s_systemID := s_systemID r;
     s_lastSeen := v |}.


Definition out_capacity : nat := 64.

Definition NewSession (id remote : string) (cfg : SessionConfig) (now : Z) : Session :=
  mkSession (if bool_decide (id = "") then remote else id) cfg [] false ∅ BindNone 0 0 "" now.

(** [NextSeq]: an atomic increment of a uint32. *)
Definition NextSeq (s : Session) : Session * Z :=
  let n := u32 (s_nextSeq s + 1) in (s_set_nextSeq n s, n).

Definition add_inflight (z : Z) (s : Session) : Session := s_set_inflight (i32 (s_inflight s + z)) s.

Definition CompleteSubmit (s : Session) : Session := add_inflight (-1) s.

Definition Close (s : Session) : Session := s_set_closed true s.

(** ** What the reader does with a PDU

    [dispatch] reads the state and decides; what it then does is a list of
    actions, executed one at a time. *)

Inductive action :=
| AStoreMode (m : BindMode)
| AStoreSystemID (systemID : string)
| AAddInflight (z : Z)
| ASend (p : PDU)
| ANotify (systemID : string)
| ACompleteDeliver (seq status : Z)
| AOnSubmit (msg : SubmitSM).

#[export] Instance action_eq_dec : EqDecision action.
Proof. solve_decision. Defined.

Definition bindRespID (commandID : Z) : Z :=
  if commandID =? commandBindReceiver then commandBindReceiverResp
  else if commandID =? commandBindTransmitter then commandBindTransmitterResp
  else commandBindTransceiverResp.

Definition bind_mode_of (commandID : Z) : BindMode :=
  if commandID =? commandBindReceiver then BindRX
  else if commandID =? commandBindTransmitter then BindTX
  else BindTRX.

(** The three strings of a bind body, or the status of the refusal. *)
Definition bind_fields (body : list Z) : res Z (string * string) :=
  match readCStringMax body 0 SMPPMaxSystemID with
  | Err _ => Err statusInvalidSystemID
  | Ok (systemID, offset) =>
    match readCStringMax body offset SMPPMaxPassword with
    | Err _ => Err statusInvalidPassword
    | Ok (password, offset) =>
      match readCStringMax body offset SMPPMaxSystemType with
      | Err _ => Err statusBindFailed
      | Ok _ => Ok (systemID, password)
      end
    end
  end.

Definition bind_status (bindAllowed : option (string -> bool)) (systemID password : string) (s : Session) : Z :=
  if negb (bool_decide (s_bindMode s = BindNone)) then statusAlreadyBound
  else if match cfg_Auth (s_cfg s) with Some auth => negb (auth systemID password) | None => false end then statusBindFailed
  else if match bindAllowed with Some allowed => negb (allowed systemID) | None => false end then statusBindFailed
  else statusOK.

Definition handleBind (bindAllowed : option (string -> bool)) (p : PDU) (s : Session) : list action :=
  let resp status :=
    ASend (pdu (bindRespID (pdu_CommandID p)) status (pdu_SequenceID p) (CString (cfg_OwnSystemID (s_cfg s)))) in
  match bind_fields (pdu_Body p) with
  | Err status => [resp status]
  | Ok (systemID, password) =>
    let status := bind_status bindAllowed systemID password s in
    let mode := bind_mode_of (pdu_CommandID p) in
    if status =? statusOK then
      [AStoreMode mode; AStoreSystemID systemID; resp status]
      ++ (if CanReceive mode && cfg_OnReceiverBound (s_cfg s) then [ANotify systemID] else [])
    else [resp status]
  end.

Definition window_size (cfg : SessionConfig) : Z :=
  if cfg_WindowSize cfg <=? 0 then 16 else cfg_WindowSize cfg.

(** The submit_sm case: the slot of the window is taken before the body is
    parsed and given back on every refusal. *)
Definition handleSubmit (p : PDU) (s : Session) : Session * list action :=
  let resp status := ASend (pdu commandSubmitSMResp status (pdu_SequenceID p) []) in
  if negb (CanSubmit (s_bindMode s)) then (s, [resp statusInvalidBind])
  else
    let s := add_inflight 1 s in
    if window_size (s_cfg s) <? s_inflight s then (s, [AAddInflight (-1); resp statusThrottled])
    else
      match ParseSubmitSM p with
      | Err _ => (s, [AAddInflight (-1); resp statusInvalidCmd])
      | Ok msg => if cfg_OnSubmit (s_cfg s) then (s, [AOnSubmit msg]) else (s, [AAddInflight (-1)])
      end.

Definition is_bind (command : Z) : bool :=
  (command =? commandBindReceiver) || (command =? commandBindTransmitter) || (command =? commandBindTransceiver).

Definition dispatch (bindAllowed : option (string -> bool)) (p : PDU) (s : Session) : Session * list action :=
  let c := pdu_CommandID p in
  if is_bind c then (s, handleBind bindAllowed p s)
  else if c =? commandSubmitSM then handleSubmit p s
  else if c =? commandDeliverSMResp then (s, [ACompleteDeliver (pdu_SequenceID p) (pdu_Status p)])
  else if c =? commandEnquireLink then (s, [ASend (pdu commandEnquireLinkResp statusOK (pdu_SequenceID p) [])])
  else if c =? commandUnbind then (s, [ASend (pdu commandUnbindResp statusOK (pdu_SequenceID p) [])])
  else if (c =? commandEnquireLinkResp) || (c =? commandUnbindResp) then (s, [])
  else (s, [ASend (pdu commandGenericNack statusInvalidCmd (pdu_SequenceID p) [])]).

(** ** The goroutines of a connection *)

(** A call of [SendDeliverSM]: the PDU, what its one-place channel holds, and
    how far the call is. *)
Inductive dstage :=
| DNew
| DSend
| DWait
| DOver (r : option Z).

#[export] Instance dstage_eq_dec : EqDecision dstage.
Proof. solve_decision. Defined.

Record dcall := mkCall {
  dc_pdu : PDU;
  dc_chan : option Z;
  dc_stage : dstage }.

Definition dc_set_stage (st : dstage) (c : dcall) : dcall := mkCall (dc_pdu c) (dc_chan c) st.
(** A send that does not block: dropped when the place is taken. *)
Definition dc_offer (status : Z) (c : dcall) : dcall :=
  match dc_chan c with None => mkCall (dc_pdu c) (Some status) (dc_stage c) | Some _ => c end.

(** [cn_todo]: the reader's remaining actions; [cn_enq]: the ticker's send under
    way. The last four fields are the history: PDUs read, written, given up,
    and the system ids [OnReceiverBound] was started with. *)
Record Conn := mkConn {
  cn_s : Session;
  cn_serving : bool;
  cn_writing : bool;
  cn_enquiring : bool;
  cn_todo : list action;
  cn_enq : option PDU;
  cn_calls : list dcall;
  cn_in : list PDU;
  cn_wire : list PDU;
  cn_dropped : list PDU;
  cn_notified : list string }.

Definition cn_set_s (v : Session) (r : Conn) : Conn :=
  {| cn_s := v; cn_serving := cn_serving r; cn_writing := cn_writing r;
     cn_enquiring := cn_enquiring r; cn_todo := cn_todo r; cn_enq := cn_enq r;
     cn_calls := cn_calls r; cn_in := cn_in r; cn_wire := cn_wire r;
     cn_dropped := cn_dropped r; cn_notified := cn_notified r |}.

Definition cn_set_serving (v : bool) (r : Conn) : Conn :=
  {| cn_s := cn_s r; cn_serving := v; cn_writing := cn_writing r;
     cn_enquiring := cn_enquiring r; cn_todo := cn_todo r; cn_enq := cn_enq r;
     cn_calls := cn_calls r; cn_in := cn_in r; cn_wire := cn_wire r;
     cn_dropped := cn_dropped r; cn_notified := cn_notified r |}.

Definition cn_set_writing (v : bool) (r : Conn) : Conn :=
  {| cn_s := cn_s r; cn_serving := cn_serving r; cn_writing := v;
     cn_enquiring := cn_enquiring r; cn_todo := cn_todo r; cn_enq := cn_enq r;
     cn_calls := cn_calls r; cn_in := cn_in r; cn_wire := cn_wire r;
     cn_dropped := cn_dropped r; cn_notified := cn_notified r |}.

Definition cn_set_enquiring (v : bool) (r : Conn) : Conn :=
  {| cn_s := cn_s r; cn_serving := cn_serving r; cn_writing := cn_writing r;
     cn_enquiring := v; cn_todo := cn_todo r; cn_enq := cn_enq r;
     cn_calls := cn_calls r; cn_in := cn_in r; cn_wire := cn_wire r;
     cn_dropped := cn_dropped r; cn_notified := cn_notified r |}.

Definition cn_set_todo (v : list action) (r : Conn) : Conn :=
  {| cn_s := cn_s r; cn_serving := cn_serving r; cn_writing := cn_writing r;
     cn_enquiring := cn_enquiring r; cn_todo := v; cn_enq := cn_enq r;
     cn_calls := cn_calls r; cn_in := cn_in r; cn_wire := cn_wire r;
     cn_dropped := cn_dropped r; cn_notified := cn_notified r |}.

Definition cn_set_enq (v : option PDU) (r : Conn) : Conn :=
  {| cn_s := cn_s r; cn_serving := cn_serving r; cn_writing := cn_writing r;
     cn_enquiring := cn_enquiring r; cn_todo := cn_todo r; cn_enq := v;
     cn_calls := cn_calls r; cn_in := cn_in r; cn_wire := cn_wire r;
     cn_dropped := cn_dropped r; cn_notified := cn_notified r |}.

Definition cn_set_calls (v : list dcall) (r : Conn) : Conn :=
  {| cn_s := cn_s r; cn_serving := cn_serving r; cn_writing := cn_writing r;
     cn_enquiring := cn_enquiring r; cn_todo := cn_todo r; cn_enq := cn_enq r;
     cn_calls := v; cn_in := cn_in r; cn_wire := cn_wire r;
     cn_dropped := cn_dropped r; cn_notified := cn_notified r |}.

Definition cn_set_in (v : list PDU) (r : Conn) : Conn :=
  {| cn_s := cn_s r; cn_serving := cn_serving r; cn_writing := cn_writing r;
     cn_enquiring := cn_enquiring r; cn_todo := cn_todo r; cn_enq := cn_enq r;
     cn_calls := cn_calls r; cn_in := v; cn_wire := cn_wire r;
     cn_dropped := cn_dropped r; cn_notified := cn_notified r |}.

Definition cn_set_wire (v : list PDU) (r : Conn) : Conn :=
  {| cn_s := cn_s r; cn_serving := cn_serving r; cn_writing := cn_writing r;
     cn_enquiring := cn_enquiring r; cn_todo := cn_todo r; cn_enq := cn_enq r;
     cn_calls := cn_calls r; cn_in := cn_in r; cn_wire := v;
     cn_dropped := cn_dropped r; cn_notified := cn_notified r |}.

Definition cn_set_dropped (v : list PDU) (r : Conn) : Conn :=
  {| cn_s := cn_s r; cn_serving := cn_serving r; cn_writing := cn_writing r;
     cn_enquiring := cn_enquiring r; cn_todo := cn_todo r; cn_enq := cn_enq r;
     cn_calls := cn_calls r; cn_in := cn_in r; cn_wire := cn_wire r;
     cn_dropped := v; cn_notified := cn_notified r |}.

Definition cn_set_notified (v : list string) (r : Conn) : Conn :=
  {| cn_s := cn_s r; cn_serving := cn_serving r; cn_writing := cn_writing r;
     cn_enquiring := cn_enquiring r; cn_todo := cn_todo r; cn_enq := cn_enq r;
     cn_calls := cn_calls r; cn_in := cn_in r; cn_wire := cn_wire r;
     cn_dropped := cn_dropped r; cn_notified := v |}.


Definition NewConn (s : Session) : Conn :=
  mkConn s true true (0 <? cfg_EnquirePeriod (s_cfg s)) [] None [] [] [] [] [].

Definition upd_s (f : Session -> Session) (c : Conn) : Conn := cn_set_s (f (cn_s c)) c.

(** [Send]: it waits for room in [out], or gives up when the session is closed;
    when both are possible either may happen. *)
Definition send_out (p : PDU) (c : Conn) : option Conn :=
  if (length (s_out (cn_s c)) <? out_capacity)%nat
  then Some (upd_s (s_set_out (s_out (cn_s c) ++ [p])) c) else None.
Definition send_closed (p : PDU) (c : Conn) : option Conn :=
  if s_closed (cn_s c) then Some (cn_set_dropped (cn_dropped c ++ [p]) c) else None.
Definition Send (room : bool) (p : PDU) (c : Conn) : option Conn :=
  if room then send_out p c else send_closed p c.

Definition completeDeliverResp (seq status : Z) (c : Conn) : Conn :=
  match s_deliverResp (cn_s c) !! seq with
  | None => c
  | Some ch => cn_set_calls (alter (dc_offer status) ch (cn_calls c)) c
  end.

Definition unregisterDeliverResp (seq : Z) (c : Conn) : Conn :=
  upd_s (fun s => s_set_deliverResp (delete seq (s_deliverResp s)) s) c.

(** One iteration of [readLoop]: a PDU was read at [now]. *)
Definition conn_read (bindAllowed : option (string -> bool)) (now : Z) (p : PDU) (c : Conn) : option Conn :=
  if cn_serving c && bool_decide (cn_todo c = []) then
    let '(s, acts) := dispatch bindAllowed p (s_set_lastSeen now (cn_s c)) in
    Some (cn_set_todo acts (cn_set_in (cn_in c ++ [p]) (cn_set_s s c)))
  else None.

(** The read fails, or the context is cancelled: [Serve] returns. *)
Definition conn_read_end (c : Conn) : option Conn :=
  if cn_serving c && bool_decide (cn_todo c = []) then Some (cn_set_serving false (upd_s Close c)) else None.

(** The reader's next action; [OnSubmit] is the server's. *)
Definition reader_act (room : bool) (c : Conn) : option Conn :=
  match cn_todo c with
  | [] => None
  | a :: rest =>
    let c := cn_set_todo rest c in
    match a with
    | AStoreMode m => Some (upd_s (s_set_bindMode m) c)
    | AStoreSystemID id => Some (upd_s (s_set_systemID id) c)
    | AAddInflight z => Some (upd_s (add_inflight z) c)
    | ASend p => Send room p c
    | ANotify id => Some (cn_set_notified (cn_notified c ++ [id]) c)
    | ACompleteDeliver seq status => Some (completeDeliverResp seq status c)
    | AOnSubmit _ => None
    end
  end.

(** An iteration of [writeLoop]: [ok] tells whether [WritePDU] succeeded. *)
Definition conn_write (ok : bool) (c : Conn) : option Conn :=
  if cn_writing c then
    match s_out (cn_s c) with
    | [] => None
    | p :: out =>
      let c := upd_s (s_set_out out) c in
      if ok then Some (cn_set_wire (cn_wire c ++ [p]) c)
      else Some (cn_set_writing false (upd_s Close (cn_set_dropped (cn_dropped c ++ [p]) c)))
    end
  else None.

(** The loops' [<-s.closed]. *)
Definition conn_write_end (c : Conn) : option Conn :=
  if s_closed (cn_s c) then Some (cn_set_writing false c) else None.

Definition conn_close (c : Conn) : Conn := upd_s Close c.

Definition conn_tick_end (c : Conn) : option Conn :=
  if s_closed (cn_s c) then Some (cn_set_enquiring false c) else None.

(** A tick of [enquireLoop] at [now]. *)
Definition conn_tick (now : Z) (c : Conn) : option Conn :=
  if cn_enquiring c && bool_decide (cn_enq c = None) then
    let s := cn_s c in
    if bool_decide (s_bindMode s = BindNone) then Some c
    else if (0 <? s_lastSeen s) && (2 * cfg_EnquirePeriod (s_cfg s) <? now - s_lastSeen s)
    then Some (cn_set_enquiring false (upd_s Close c))
    else let '(s, seq) := NextSeq s in
      Some (cn_set_enq (Some (pdu commandEnquireLink statusOK seq [])) (cn_set_s s c))
  else None.

Definition conn_tick_send (room : bool) (c : Conn) : option Conn :=
  match cn_enq c with
  | None => None
  | Some p => Send room p (cn_set_enq None c)
  end.

(** A caller builds a receipt, numbers it with [NextSeq] and calls
    [SendDeliverSM]. *)
Definition deliver_new (params : DLRParams) (c : Conn) : Conn :=
  let '(s, seq) := NextSeq (cn_s c) in
  let p := BuildDLR params in
  let p := mkPDU (pdu_Length p) (pdu_CommandID p) (pdu_Status p) seq (pdu_Body p) in
  cn_set_calls (cn_calls c ++ [mkCall p None DNew]) (cn_set_s s c).

(** The call gives its answer, after [unregisterDeliverResp]. *)
Definition deliver_return (i : nat) (d : dcall) (r : option Z) (c : Conn) : Conn :=
  cn_set_calls (<[i := dc_set_stage (DOver r) d]> (cn_calls c)) (unregisterDeliverResp (pdu_SequenceID (dc_pdu d)) c).

(** The steps of call [i] of [SendDeliverSM]: it registers its channel, sends,
    and waits. [ready] picks the first case of a [select]: the send goes
    through, the status has arrived; else the session is closed or, at the
    last one, the timer fired. *)
Definition deliver_step (i : nat) (ready : bool) (c : Conn) : option Conn :=
  match cn_calls c !! i with
  | None => None
  | Some d =>
    let seq := pdu_SequenceID (dc_pdu d) in
    match dc_stage d with
    | DNew =>
      Some (cn_set_calls (<[i := dc_set_stage DSend d]> (cn_calls c))
        (upd_s (fun s => s_set_deliverResp (<[seq := i]> (s_deliverResp s)) s) c))
    | DSend =>
      if ready then send_out (dc_pdu d) (cn_set_calls (<[i := dc_set_stage DWait d]> (cn_calls c)) c)
      else deliver_return i d None <$> send_closed (dc_pdu d) c
    | DWait =>
      if ready then
        match dc_chan d with
        | Some status => Some (deliver_return i d (Some status) c)
        | None => None
        end
      else Some (deliver_return i d None c)
    | DOver _ => None
    end
  end.

(** ** The transition system of one connection

    A submission handed on is a job: its submit_sm and how far the worker is. *)

Inductive jstage := JSubmit | JSend (p : PDU) | JComplete.

#[export] Instance jstage_eq_dec : EqDecision jstage.
Proof. solve_decision. Defined.

Definition throttled (msg : SubmitSM) : PDU := pdu commandSubmitSMResp statusThrottled (sm_SequenceID msg) [].

(** [onSubmit] when the channel of jobs is full. *)
Definition on_submit_full (msg : SubmitSM) : list action := [AAddInflight (-1); ASend (throttled msg)].

(** [lstep c D c' D']: one operation of one goroutine takes the connection [c]
    with jobs [D] to [c'] with jobs [D']; jobs are listed in no order. *)
Inductive lstep (c : Conn) (D : list (SubmitSM * jstage)) : Conn -> list (SubmitSM * jstage) -> Prop :=
| ls_read allowed now p c' : conn_read allowed now p c = Some c' -> lstep c D c' D
| ls_act room c' : reader_act room c = Some c' -> lstep c D c' D
| ls_hand msg rest D' : cn_todo c = AOnSubmit msg :: rest -> D' ≡ₚ (msg, JSubmit) :: D -> lstep c D (cn_set_todo rest c) D'
| ls_full msg rest : cn_todo c = AOnSubmit msg :: rest -> lstep c D (cn_set_todo (on_submit_full msg ++ rest) c) D
| ls_read_end c' : conn_read_end c = Some c' -> lstep c D c' D
| ls_write ok c' : conn_write ok c = Some c' -> lstep c D c' D
| ls_write_end c' : conn_write_end c = Some c' -> lstep c D c' D
| ls_tick now c' : conn_tick now c = Some c' -> lstep c D c' D
| ls_tick_send room c' : conn_tick_send room c = Some c' -> lstep c D c' D
| ls_tick_end c' : conn_tick_end c = Some c' -> lstep c D c' D
| ls_close : lstep c D (conn_close c) D
| ls_deliver_new params : lstep c D (deliver_new params c) D
| ls_deliver_step i ready c' : deliver_step i ready c = Some c' -> lstep c D c' D
| ls_submit msg p D0 D' :
    D ≡ₚ (msg, JSubmit) :: D0 -> pdu_CommandID p = commandSubmitSMResp -> pdu_SequenceID p = sm_SequenceID msg ->
    D' ≡ₚ (msg, JSend p) :: D0 -> lstep c D c D'
| ls_respond msg p room D0 D' c' :
    D ≡ₚ (msg, JSend p) :: D0 -> Send room p c = Some c' -> D' ≡ₚ (msg, JComplete) :: D0 -> lstep c D c' D'
| ls_complete msg D' : D ≡ₚ (msg, JComplete) :: D' -> lstep c D (upd_s CompleteSubmit c) D'
| ls_perm D' : D ≡ₚ D' -> lstep c D c D'.

(** Opens the definition of an operation that succeeded. *)
Ltac open_op H :=
  unfold conn_read, conn_read_end, reader_act, conn_write, conn_write_end, conn_tick, conn_tick_send, conn_tick_end,
    deliver_step, Send, send_out, send_closed in H;
  repeat (case_match; simplify_eq/=).

(** ** The window *)

Definition share (a : action) : nat :=
  match a with AAddInflight _ | AOnSubmit _ => 1 | _ => 0 end.
Definition hands (a : action) : nat := match a with AOnSubmit _ => 1 | _ => 0 end.
Definition act_ok (a : action) : bool := match a with AAddInflight z => z =? -1 | _ => true end.

(** The counter is the number of jobs and of the slots the reader holds; jobs,
    with one about to be handed over, stay within the window. *)
Record window_ok (c : Conn) (D : list (SubmitSM * jstage)) : Prop := mk_window_ok {
  wo_count : s_inflight (cn_s c) = Z.of_nat (length D + sum_list_with share (cn_todo c));
  wo_bound : Z.of_nat (length D + sum_list_with hands (cn_todo c)) <= window_size (s_cfg (cn_s c));
  wo_share : (sum_list_with share (cn_todo c) <= 1)%nat;
  wo_acts : Forall (fun a => act_ok a = true) (cn_todo c) }.

Lemma window_frame c D c' D' :
  window_ok c D -> length D' = length D -> s_inflight (cn_s c') = s_inflight (cn_s c) ->
  s_cfg (cn_s c') = s_cfg (cn_s c) -> cn_todo c' = cn_todo c -> window_ok c' D'.
Proof. intros [] E1 E2 E3 E4. split; rewrite ?E1, ?E2, ?E3, ?E4; done. Qed.

Lemma window_pop c D a rest c' :
  window_ok c D -> cn_todo c = a :: rest -> share a = 0%nat -> s_inflight (cn_s c') = s_inflight (cn_s c) ->
  s_cfg (cn_s c') = s_cfg (cn_s c) -> cn_todo c' = rest -> window_ok c' D.
Proof.
  intros [Hc Hb Hs Ha] E Hsh E2 E3 E4. rewrite E in *. cbn in *. inversion Ha; subst.
  split; rewrite ?E2, ?E3; [lia|destruct a; cbn in *; lia|lia|done].
Qed.

Lemma i32_small z : -2147483648 <= z <= 2147483647 -> i32 z = z.
Proof. intros. unfold i32. rewrite Z.mod_small; lia. Qed.

Lemma handleBind_share allowed p s :
  sum_list_with share (handleBind allowed p s) = 0%nat /\ sum_list_with hands (handleBind allowed p s) = 0%nat /\
  Forall (fun a => act_ok a = true) (handleBind allowed p s).
Proof. unfold handleBind. repeat case_match; cbn; repeat split; repeat constructor. Qed.

(** What [dispatch] does to the counter and the actions it leaves. *)
Lemma dispatch_share allowed p s s' acts :
  0 <= s_inflight s <= 2147483646 -> dispatch allowed p s = (s', acts) ->
  s_cfg s' = s_cfg s /\ Forall (fun a => act_ok a = true) acts /\ (sum_list_with share acts <= 1)%nat /\
  s_inflight s' = s_inflight s + Z.of_nat (sum_list_with share acts) /\
  (sum_list_with hands acts = 0%nat \/ sum_list_with hands acts = 1%nat /\ s_inflight s < window_size (s_cfg s)).
Proof.
  intros Hr. unfold dispatch. destruct (is_bind _).
  { intros [= <- <-]. destruct (handleBind_share allowed p s) as (-> & -> & ?). split_and!; try done; lia || auto. }
  destruct (_ =? commandSubmitSM).
  - unfold handleSubmit, add_inflight. cbn [s_inflight s_set_inflight s_cfg]. rewrite i32_small by lia.
    destruct (negb _); [intros [= <- <-]; cbn; repeat split; repeat constructor; lia|].
    destruct (Z.ltb_spec (window_size (s_cfg s)) (s_inflight s + 1)) as [Hw|Hw];
      [|destruct (ParseSubmitSM p) as [msg|]; [destruct (cfg_OnSubmit _)|]];
      intros [= <- <-]; cbn; (split_and!; [done|repeat constructor|lia|lia|]); [left; lia|right; lia|left; lia|left; lia].
  - repeat case_match; intros [= <- <-]; cbn; repeat split; repeat constructor; lia.
Qed.

(** No step changes the configuration or the id; what was read stays read. *)
Lemma lstep_same c D c' D' :
  lstep c D c' D' -> s_cfg (cn_s c') = s_cfg (cn_s c) /\ s_id (cn_s c') = s_id (cn_s c) /\ cn_in c `prefix_of` cn_in c'.
Proof.
  destruct 1 as [allowed now p c' H|room c' H| | |c' H|ok c' H|c' H|now c' H|room c' H|c' H| | |i ready c' H| |msg p room D0 D' c' ? H| |];
    try done; try (by open_op H).
  - unfold conn_read in H. case_match; [|done]. destruct (dispatch _ _ _) as [s acts] eqn:E. injection H as <-. cbn.
    revert E. unfold dispatch, handleSubmit, add_inflight.
    repeat case_match; intros [= <- <-]; cbn; split_and!; try done; by apply prefix_app_r.
  - open_op H; try done. unfold completeDeliverResp. by case_match.
Qed.

Lemma window_read c D allowed now p c' :
  window_size (s_cfg (cn_s c)) <= 2147483646 -> window_ok c D -> conn_read allowed now p c = Some c' -> window_ok c' D.
Proof.
  intros Hw [Hc Hb Hs Ha] H. unfold conn_read in H. destruct (cn_serving c); [|done]. cbn in H.
  case_bool_decide as Et; [|done]. rewrite Et in *. cbn in *.
  destruct (dispatch _ _ _) as [s acts] eqn:E. injection H as <-.
  apply dispatch_share in E; [|cbn; lia]. destruct E as (Ecfg & Hok & Hle & Ein & Hh). cbn in Ein, Ecfg, Hh.
  split; cbn; rewrite ?Ecfg; [lia|lia|done|done].
Qed.

Lemma window_act c D room c' :
  window_size (s_cfg (cn_s c)) <= 2147483646 -> window_ok c D -> reader_act room c = Some c' -> window_ok c' D.
Proof.
  intros Hw Hok H. unfold reader_act in H. destruct (cn_todo c) as [|a rest] eqn:E; [done|].
  destruct a; try done; try (injection H as <-; by apply (window_pop _ _ _ _ _ Hok E)).
  - injection H as <-. destruct Hok as [Hc Hb Hs Ha]. rewrite E in *. cbn in *. inversion Ha as [|? ? Hz Hr]; subst.
    cbn in Hz. apply Z.eqb_eq in Hz as ->. split; cbn; [rewrite i32_small by lia; lia|lia|lia|done].
  - open_op H; by apply (window_pop _ _ _ _ _ Hok E).
  - injection H as <-. apply (window_pop _ _ _ _ _ Hok E); try done; unfold completeDeliverResp; by case_match.
Qed.

(** Every step keeps the window. *)
Lemma window_step c D c' D' :
  window_size (s_cfg (cn_s c)) <= 2147483646 -> window_ok c D -> lstep c D c' D' -> window_ok c' D'.
Proof.
  intros Hw Hok. destruct 1 as [allowed now p c' H|room c' H|msg rest D' Et E|msg rest Et|c' H|ok c' H|c' H|now c' H
    |room c' H|c' H| | |i ready c' H|msg p D0 D' E1 _ _ E2|msg p room D0 D' c' E1 H E2|msg D' E|D' E].
  - by eapply window_read.
  - by eapply window_act.
  - destruct Hok as [Hc Hb Hs Ha]. rewrite Et in *. apply Permutation_length in E. cbn in *. inversion Ha; subst.
    split; cbn; rewrite ?E; [lia|lia|lia|done].
  - destruct Hok as [Hc Hb Hs Ha]. rewrite Et in *. cbn in *. inversion Ha; subst.
    split; cbn; [lia|lia|lia|by repeat constructor].
  - open_op H; by apply (window_frame _ _ _ _ Hok).
  - open_op H; by apply (window_frame _ _ _ _ Hok).
  - open_op H; by apply (window_frame _ _ _ _ Hok).
  - open_op H; by apply (window_frame _ _ _ _ Hok).
  - open_op H; by apply (window_frame _ _ _ _ Hok).
  - open_op H; by apply (window_frame _ _ _ _ Hok).
  - by apply (window_frame _ _ _ _ Hok).
  - by apply (window_frame _ _ _ _ Hok).
  - open_op H; by apply (window_frame _ _ _ _ Hok).
  - apply Permutation_length in E1, E2. apply (window_frame _ _ _ _ Hok); [|done..]. cbn in *; lia.
  - apply Permutation_length in E1, E2. open_op H; (apply (window_frame _ _ _ _ Hok); [|done..]); cbn in *; lia.
  - apply Permutation_length in E. destruct Hok as [Hc Hb Hs Ha]. cbn in *.
    split; cbn; [rewrite i32_small by lia; lia|lia|lia|done].
  - apply Permutation_length in E. by apply (window_frame _ _ _ _ Hok).
Qed.

(** ** One answer to each request *)

Definition key (p : PDU) : Z * Z := (pdu_CommandID p, pdu_SequenceID p).

(** The answer a PDU of the ESME asks for. *)
Definition owed (p : PDU) : list (Z * Z) :=
  let c := pdu_CommandID p in
  let seq := pdu_SequenceID p in
  if is_bind c then [(bindRespID c, seq)]
  else if c =? commandSubmitSM then [(commandSubmitSMResp, seq)]
  else if c =? commandEnquireLink then [(commandEnquireLinkResp, seq)]
  else if c =? commandUnbind then [(commandUnbindResp, seq)]
  else if (c =? commandDeliverSMResp) || (c =? commandEnquireLinkResp) || (c =? commandUnbindResp) then []
  else [(commandGenericNack, seq)].

Definition is_response (p : PDU) : bool := 0x80000000 <=? pdu_CommandID p.
Definition answers (l : list PDU) : list (Z * Z) := key <$> filter (fun p => is_response p = true) l.
#[global] Arguments answers : simpl never.

Definition act_answer (a : action) : list (Z * Z) :=
  match a with
  | ASend p => answers [p]
  | AOnSubmit msg => [(commandSubmitSMResp, sm_SequenceID msg)]
  | _ => []
  end.

Definition job_answer (d : SubmitSM * jstage) : list (Z * Z) :=
  match d.2 with
  | JSubmit => [(commandSubmitSMResp, sm_SequenceID d.1)]
  | JSend p => answers [p]
  | JComplete => []
  end.

(** Everything asked for is written, waiting in the channel, given up, or still
    to be sent by the reader or a worker; giving up happens on closed sessions
    only. *)
Record answers_ok (c : Conn) (D : list (SubmitSM * jstage)) : Prop := mk_answers_ok {
  ao_all : cn_in c ≫= owed ≡ₚ
    answers (cn_wire c ++ s_out (cn_s c) ++ cn_dropped c) ++ (cn_todo c ≫= act_answer) ++ (D ≫= job_answer);
  ao_open : s_closed (cn_s c) = false -> cn_dropped c = [];
  ao_enq : forall p, cn_enq c = Some p -> is_response p = false;
  ao_calls : Forall (fun d => is_response (dc_pdu d) = false) (cn_calls c) }.

Lemma answers_app l k : answers (l ++ k) = answers l ++ answers k.
Proof. unfold answers. by rewrite filter_app, fmap_app. Qed.

Lemma answers_silent p : is_response p = false -> answers [p] = [].
Proof. intros E. unfold answers. by rewrite filter_cons_False by congruence. Qed.

Lemma ParseSubmitSM_seq p msg : ParseSubmitSM p = Ok msg -> sm_SequenceID msg = pdu_SequenceID p.
Proof.
  unfold ParseSubmitSM, mbind, res_bind, fail_if. cbv zeta. intros H.
  repeat (match type of H with context [match ?x with _ => _ end] => destruct x; try discriminate H end; cbn in H).
  all: by injection H as <-.
Qed.

Lemma dispatch_owed allowed p s s' acts :
  cfg_OnSubmit (s_cfg s) = true -> dispatch allowed p s = (s', acts) ->
  owed p = acts ≫= act_answer /\ s_out s' = s_out s /\ s_closed s' = s_closed s.
Proof.
  intros Hon. unfold dispatch, owed. destruct (is_bind (pdu_CommandID p)) eqn:Eb.
  { intros [= <- <-]. split; [|done]. unfold handleBind.
    assert (forall st, answers [pdu (bindRespID (pdu_CommandID p)) st (pdu_SequenceID p) (CString (cfg_OwnSystemID (s_cfg s)))]
      = [(bindRespID (pdu_CommandID p), pdu_SequenceID p)]) as Hr.
    { intros st. unfold answers, bindRespID. by repeat case_match. }
    repeat case_match; cbn -[answers]; by rewrite Hr. }
  destruct (_ =? commandSubmitSM) eqn:Es.
  - unfold handleSubmit, add_inflight. cbn [s_set_inflight s_cfg s_inflight s_bindMode]. rewrite Hon.
    destruct (negb _); [by intros [= <- <-]|]. destruct (_ <? _); [by intros [= <- <-]|].
    destruct (ParseSubmitSM p) as [msg|] eqn:Ep; intros [= <- <-]; [|done].
    apply ParseSubmitSM_seq in Ep. cbn. by rewrite Ep.
  - destruct (Z.eqb_spec (pdu_CommandID p) commandDeliverSMResp) as [->|Hd].
    { by intros [= <- <-]. }
    destruct (_ =? commandEnquireLink); [by intros [= <- <-]|]. destruct (_ =? commandUnbind); [by intros [= <- <-]|].
    rewrite orb_false_l. by destruct (_ || _); intros [= <- <-].
Qed.

Definition key_dec (x y : Z * Z) : {x = y} + {x <> y} := decide (x = y).

(** Permutations of concatenations, by counting. *)
Ltac perm_count H :=
  let x := fresh "x" in
  apply (Permutation_count_occ key_dec); intros x;
  apply (Permutation_count_occ key_dec) with (x := x) in H; revert H;
  rewrite ?answers_app, ?bind_app, ?bind_cons, ?answers_app; rewrite ?count_occ_app; lia.

Lemma answers_frame c D c' D' :
  answers_ok c D -> D ≫= job_answer ≡ₚ D' ≫= job_answer -> cn_in c' = cn_in c -> cn_todo c' = cn_todo c ->
  answers (cn_wire c' ++ s_out (cn_s c') ++ cn_dropped c') ≡ₚ answers (cn_wire c ++ s_out (cn_s c) ++ cn_dropped c) ->
  (s_closed (cn_s c') = false -> s_closed (cn_s c) = false /\ cn_dropped c' = cn_dropped c) ->
  (forall p, cn_enq c' = Some p -> is_response p = false) ->
  Forall (fun d => is_response (dc_pdu d) = false) (cn_calls c') -> answers_ok c' D'.
Proof.
  intros [Ha Ho He Hc] ED Ein Et Eout Hopen He' Hc'. split; [|intros Hf; destruct (Hopen Hf) as [H1 ->]; auto|done|done].
  by rewrite Ein, Et, Ha, Eout, ED.
Qed.

(** A send: one answer passes from what is left to do to what is sent or, on a
    closed session, given up. *)
Lemma answers_send c D room p c' T D' :
  answers_ok c D -> Send room p c = Some c' ->
  (cn_todo c ≫= act_answer) ++ (D ≫= job_answer) ≡ₚ answers [p] ++ (T ≫= act_answer) ++ (D' ≫= job_answer) ->
  answers_ok (cn_set_todo T c') D'.
Proof.
  intros [Ha Ho He Hc] H E. unfold Send, send_out, send_closed in H.
  destruct room; case_match eqn:Hcl; simplify_eq; split; cbn; try done; try congruence;
    rewrite Ha; clear Ha; perm_count E.
Qed.

Lemma answers_read c D allowed now p c' :
  cfg_OnSubmit (s_cfg (cn_s c)) = true -> answers_ok c D -> conn_read allowed now p c = Some c' -> answers_ok c' D.
Proof.
  intros Hon [Ha Ho He Hc] H. unfold conn_read in H. destruct (cn_serving c); [|done]. cbn in H.
  case_bool_decide as Et; [|done]. rewrite Et in *. destruct (dispatch _ _ _) as [s acts] eqn:E. injection H as <-.
  apply dispatch_owed in E; [|done]. destruct E as (E & Eo & Ecl). cbn in *.
  split; cbn; rewrite ?Eo, ?Ecl; try done. rewrite bind_app, bind_cons, E, app_nil_r, Ha. clear.
  apply (Permutation_count_occ key_dec). intros x. rewrite !count_occ_app. lia.
Qed.

Lemma answers_act c D room c' : answers_ok c D -> reader_act room c = Some c' -> answers_ok c' D.
Proof.
  intros Hok H. unfold reader_act in H. destruct (cn_todo c) as [|a rest] eqn:E; [done|].
  assert (act_answer a = [] -> answers_ok (cn_set_todo rest c) D) as Hpop.
  { intros Ea. destruct Hok as [Ha Ho He Hc]. split; try done. cbn. by rewrite Ha, E, bind_cons, Ea. }
  destruct a; try done; try (injection H as <-; by destruct Hpop as [Ha Ho He Hc]).
  - assert (exists c1, Send room p c = Some c1 /\ c' = cn_set_todo rest c1) as (c1 & Hs & ->).
    { revert H. unfold Send, send_out, send_closed. cbn. destruct room; case_match; intros [= <-]; eexists; split; done. }
    eapply answers_send; [exact Hok|exact Hs|]. rewrite E, bind_cons. cbn [act_answer]. by rewrite app_assoc.
  - injection H as <-. destruct Hpop as [Ha Ho He Hc]; [done|]. unfold completeDeliverResp. case_match; [|done].
    split; try done. cbn in *. apply Forall_alter; [done|]. intros d _ Hd. unfold dc_offer. by case_match.
Qed.

Lemma jobs_perm (D D' : list (SubmitSM * jstage)) : D ≡ₚ D' -> D ≫= job_answer ≡ₚ D' ≫= job_answer.
Proof. by intros ->. Qed.

Lemma answers_write c D ok c' : answers_ok c D -> conn_write ok c = Some c' -> answers_ok c' D.
Proof.
  intros Hok H. unfold conn_write in H. destruct (cn_writing c); [|done].
  destruct (s_out (cn_s c)) as [|p out] eqn:E; [done|]. destruct Hok as [Ha Ho He Hc].
  destruct ok; injection H as <-; split; cbn; try done; rewrite Ha, E; clear; change (p :: out) with ([p] ++ out); rewrite !answers_app;
    apply (Permutation_count_occ key_dec); intros x; rewrite !count_occ_app; lia.
Qed.

(** A silent PDU is sent. *)
Lemma answers_send_silent c D room p c' :
  answers_ok c D -> is_response p = false -> Send room p c = Some c' -> answers_ok c' D.
Proof.
  intros Hok Hp H. pose proof (answers_send c D room p c' (cn_todo c) D Hok H) as H1.
  rewrite (answers_silent _ Hp) in H1. assert (cn_set_todo (cn_todo c) c' = c') as E; [|rewrite E in H1; by apply H1].
  revert H. unfold Send, send_out, send_closed. by destruct room; case_match; intros [= <-].
Qed.

Lemma answers_deliver c D i ready c' : answers_ok c D -> deliver_step i ready c = Some c' -> answers_ok c' D.
Proof.
  intros Hok H. unfold deliver_step in H. destruct (cn_calls c !! i) as [d|] eqn:Ed; [|done].
  assert (forall st, answers_ok (cn_set_calls (<[i := dc_set_stage st d]> (cn_calls c)) c) D) as Hset.
  { intros st. destruct Hok as [Ha Ho He Hc]. split; try done. cbn. apply Forall_insert; [done|].
    by apply (Forall_lookup_1 _ _ _ _ Hc Ed). }
  assert (is_response (dc_pdu d) = false) as Hd
    by (destruct Hok as [_ _ _ Hc]; by apply (Forall_lookup_1 _ _ _ _ Hc Ed)).
  destruct (dc_stage d); [| |destruct ready|done].
  - injection H as <-. specialize (Hset DSend). by destruct Hset.
  - destruct ready; [by apply (answers_send_silent _ _ true _ _ (Hset DWait) Hd)|].
    destruct (send_closed _ c) as [c1|] eqn:E; [|done]. injection H as <-.
    specialize (Hset (DOver None)). unfold send_closed in E. case_match; [|done]. injection E as <-.
    apply (answers_send_silent _ _ false (dc_pdu d) (cn_set_dropped (cn_dropped c ++ [dc_pdu d])
      (cn_set_calls (<[i := dc_set_stage (DOver None) d]> (cn_calls c)) c))) in Hset; [|done|].
    + by destruct Hset.
    + unfold Send, send_closed. cbn. by case_match.
  - destruct (dc_chan d) as [st|]; [|done]. injection H as <-. specialize (Hset (DOver (Some st))). by destruct Hset.
  - injection H as <-. specialize (Hset (DOver None)). by destruct Hset.
Qed.

(** Every step keeps the account of answers. *)
Lemma answers_step c D c' D' :
  cfg_OnSubmit (s_cfg (cn_s c)) = true -> answers_ok c D -> lstep c D c' D' -> answers_ok c' D'.
Proof.
  intros Hon Hok. destruct 1 as [allowed now p c' H|room c' H|msg rest D' Et E|msg rest Et|c' H|ok c' H|c' H|now c' H
    |room c' H|c' H| |params|i ready c' H|msg p D0 D' E1 Ep Es E2|msg p room D0 D' c' E1 H E2|msg D' E|D' E].
  - by eapply answers_read.
  - by eapply answers_act.
  - destruct Hok as [Ha Ho He Hc]. split; try done. cbn. rewrite Ha, Et, E, !bind_cons. cbn. by rewrite Permutation_middle.
  - destruct Hok as [Ha Ho He Hc]. split; try done. cbn. by rewrite Ha, Et.
  - open_op H. by destruct Hok.
  - by eapply answers_write.
  - open_op H. by destruct Hok.
  - unfold conn_tick, NextSeq in H. repeat case_match; simplify_eq; destruct Hok; split; cbn; try done. by intros p [= <-].
  - unfold conn_tick_send in H. destruct (cn_enq c) as [p|] eqn:E; [|done].
    eapply (answers_send_silent (cn_set_enq None c)); [by destruct Hok|by apply (ao_enq _ _ Hok)|exact H].
  - open_op H. by destruct Hok.
  - by destruct Hok.
  - destruct Hok as [Ha Ho He Hc]. split; try done. cbn. apply Forall_app. by split; [|repeat constructor].
  - by eapply answers_deliver.
  - apply (answers_frame c D); try done; try (by destruct Hok). rewrite E1, E2, !bind_cons.
    unfold job_answer at 1 3. cbn [fst snd]. unfold answers, is_response. rewrite filter_cons_True by (by rewrite Ep).
    cbn. unfold key. by rewrite Ep, Es.
  - pose proof (answers_send c D room p c' (cn_todo c) D' Hok H) as H1.
    assert (cn_set_todo (cn_todo c) c' = c') as E
      by (revert H; unfold Send, send_out, send_closed; by destruct room; case_match; intros [= <-]).
    rewrite E in H1. apply H1. rewrite E1, E2, !bind_cons. unfold job_answer at 1 3. cbn [fst snd].
    rewrite app_nil_l, !app_assoc. apply Permutation_app_tail, Permutation_app_comm.
  - apply (answers_frame c D); try done; try (by destruct Hok). by rewrite E.
  - apply (answers_frame c D); try done; try (by destruct Hok). by rewrite E.
Qed.

(** ** Who is bound *)

Definition plain (a : action) : bool := match a with AStoreMode _ | AStoreSystemID _ => false | _ => true end.

(** The ESME sent a bind for this mode and system id that the authentication accepts. *)
Definition authentic (c : Conn) (m : BindMode) (systemID : string) : Prop :=
  exists p password, p ∈ cn_in c /\ is_bind (pdu_CommandID p) = true /\ bind_mode_of (pdu_CommandID p) = m /\
    bind_fields (pdu_Body p) = Ok (systemID, password) /\
    match cfg_Auth (s_cfg (cn_s c)) with Some auth => auth systemID password = true | None => True end.

(** The reader is between a bind's check and its stores, between the two stores,
    or past them. *)
Definition bind_phase (c : Conn) (D : list (SubmitSM * jstage)) : Prop :=
  let s := cn_s c in
  match cn_todo c with
  | AStoreMode m :: AStoreSystemID id :: rest =>
    Forall (fun a => plain a = true) rest /\ s_bindMode s = BindNone /\ authentic c m id
  | AStoreSystemID id :: rest =>
    Forall (fun a => plain a = true) rest /\ D = [] /\ authentic c (s_bindMode s) id
  | todo => Forall (fun a => plain a = true) todo /\ (s_bindMode s = BindNone \/ authentic c (s_bindMode s) (s_systemID s))
  end.

#[global] Arguments bind_phase : simpl never.

Record bound_ok (c : Conn) (D : list (SubmitSM * jstage)) : Prop := mk_bound_ok {
  bo_phase : bind_phase c D;
  bo_jobs : D <> [] -> CanSubmit (s_bindMode (cn_s c)) = true;
  bo_hand : forall msg rest, cn_todo c = AOnSubmit msg :: rest -> CanSubmit (s_bindMode (cn_s c)) = true;
  bo_tail : forall a rest, cn_todo c = a :: rest -> forall msg, AOnSubmit msg ∉ rest }.

Lemma authentic_mono c c' m id :
  authentic c m id -> s_cfg (cn_s c') = s_cfg (cn_s c) -> (forall p, p ∈ cn_in c -> p ∈ cn_in c') -> authentic c' m id.
Proof. intros (p & pw & Hp & Hb) E Hin. exists p, pw. rewrite E. auto. Qed.

Lemma bound_frame c D c' D' :
  bound_ok c D -> (D' = [] <-> D = []) -> cn_todo c' = cn_todo c -> cn_in c' = cn_in c ->
  s_bindMode (cn_s c') = s_bindMode (cn_s c) -> s_systemID (cn_s c') = s_systemID (cn_s c) ->
  s_cfg (cn_s c') = s_cfg (cn_s c) -> bound_ok c' D'.
Proof.
  intros [Hp Hj Hh Ht] ED Et Ein Em Ei Ec.
  assert (forall m id, authentic c m id -> authentic c' m id) as Hau
    by (intros; eapply authentic_mono; [done|done|by rewrite Ein]).
  split; rewrite ?Et, ?Em; auto; [|tauto]. unfold bind_phase in *. rewrite Et, Em, Ei. destruct (cn_todo c) as [|[] l];
    try (destruct Hp as [? [?|?]]; by split; auto); [|destruct Hp as (? & ? & ?); split_and!; auto; tauto].
  destruct l as [|[] ?]; try (destruct Hp as [Hp ?]; inversion Hp; done). destruct Hp as (? & ? & ?). auto.
Qed.

Lemma bind_status_ok allowed id pw s :
  bind_status allowed id pw s = statusOK ->
  s_bindMode s = BindNone /\ match cfg_Auth (s_cfg s) with Some auth => auth id pw = true | None => True end.
Proof.
  unfold bind_status. case_bool_decide as Hm; [|done]. cbn. destruct (cfg_Auth _) as [auth|]; [|by split].
  by destruct (auth id pw).
Qed.

Lemma plain_phase c D :
  Forall (fun a => plain a = true) (cn_todo c) ->
  s_bindMode (cn_s c) = BindNone \/ authentic c (s_bindMode (cn_s c)) (s_systemID (cn_s c)) -> bind_phase c D.
Proof. intros Hp Hb. unfold bind_phase. destruct (cn_todo c) as [|[] ?]; try done; inversion Hp; done. Qed.

Lemma plain_phase_inv c D :
  bind_phase c D -> Forall (fun a => plain a = true) (cn_todo c) ->
  s_bindMode (cn_s c) = BindNone \/ authentic c (s_bindMode (cn_s c)) (s_systemID (cn_s c)).
Proof. intros Hb Hp. unfold bind_phase in *. destruct (cn_todo c) as [|[] ?]; try (by apply Hb); inversion Hp; done. Qed.

Lemma handleSubmit_acts p s s' acts :
  handleSubmit p s = (s', acts) ->
  s_bindMode s' = s_bindMode s /\ s_systemID s' = s_systemID s /\ s_cfg s' = s_cfg s /\
  Forall (fun a => plain a = true) acts /\ (forall a rest, acts = a :: rest -> forall msg, AOnSubmit msg ∉ rest) /\
  (forall msg rest, acts = AOnSubmit msg :: rest -> CanSubmit (s_bindMode s) = true).
Proof.
  unfold handleSubmit. destruct (CanSubmit (s_bindMode s)) eqn:E; cbn [negb].
  all: repeat case_match; intros [= <- <-]; split_and!; try done; try (by repeat constructor).
  all: intros ? ? [= <- <-] msg; rewrite ?list_elem_of_singleton; by try apply not_elem_of_nil.
Qed.

Lemma bound_read c D allowed now p c' : bound_ok c D -> conn_read allowed now p c = Some c' -> bound_ok c' D.
Proof.
  intros [Hp Hj Hh Ht] H. unfold conn_read in H. destruct (cn_serving c); [|done]. cbn in H.
  case_bool_decide as Et; [|done]. assert (s_bindMode (cn_s c) = BindNone \/ authentic c (s_bindMode (cn_s c)) (s_systemID (cn_s c))) as Hb
    by (apply (plain_phase_inv c D Hp); by rewrite Et).
  unfold dispatch in H. destruct (is_bind (pdu_CommandID p)) eqn:Eb.
  { injection H as <-. unfold handleBind. cbn [s_set_lastSeen s_cfg].
    assert (forall r, bound_ok (cn_set_todo [ASend r] (cn_set_in (cn_in c ++ [p]) (cn_set_s (s_set_lastSeen now (cn_s c)) c))) D) as Hone.
    { intros r. split; cbn; try done.
      - apply plain_phase; [by repeat constructor|]. destruct Hb as [|Hb]; [by left|right].
        apply (authentic_mono c); [done|done|]. intros; cbn; set_solver.
      - intros a rest [= <- <-] msg. by apply not_elem_of_nil. }
    destruct (bind_fields (pdu_Body p)) as [[id pw]|] eqn:Ef; [|apply Hone].
    destruct (Z.eqb_spec (bind_status allowed id pw (s_set_lastSeen now (cn_s c))) statusOK) as [Est|]; [|apply Hone].
    apply bind_status_ok in Est as [Hn Hau]. cbn in Hn, Hau. split; cbn; try done.
    - unfold bind_phase. cbn. split_and!; [by destruct (_ && _); repeat constructor|done|]. exists p, pw. cbn. split_and!; try done. set_solver.
    - intros a rest [= <- <-] msg. destruct (_ && _); set_solver. }
  destruct (_ =? commandSubmitSM).
  { destruct (handleSubmit _ _) as [s acts] eqn:E. injection H as <-.
    apply handleSubmit_acts in E as (Em & Ei & Ec & Hpl & Htl & Hhd). cbn in Em, Ei, Ec, Hhd.
    split; cbn; rewrite ?Em; try done. apply plain_phase; [done|]. cbn. rewrite Em, Ei. destruct Hb as [|Hb]; [by left|right].
    apply (authentic_mono c); [done|done|]. intros; cbn; set_solver. }
  assert (exists acts, Some c' = Some (cn_set_todo acts (cn_set_in (cn_in c ++ [p]) (cn_set_s (s_set_lastSeen now (cn_s c)) c)))
    /\ (acts = [] \/ exists a, acts = [a] /\ plain a = true /\ forall msg, a <> AOnSubmit msg)) as (acts & E & Hacts).
  { rewrite <- H. repeat case_match; simplify_eq; eexists; (split; [reflexivity|]); eauto 10. }
  injection E as ->. split; cbn; try done.
  - apply plain_phase; [by destruct Hacts as [->|(a & -> & ? & _)]; repeat constructor|].
    destruct Hb as [|Hb]; [by left|right]. apply (authentic_mono c); [done|done|]. intros; cbn; set_solver.
  - intros msg rest ->. destruct Hacts as [|(a & [= <- ->] & _ & Hne)]; [done|]. by destruct (Hne msg).
  - intros a rest -> msg. destruct Hacts as [|(a' & [= <- ->] & _)]; [done|]. by apply not_elem_of_nil.
Qed.

Lemma bound_act c D room c' : bound_ok c D -> reader_act room c = Some c' -> bound_ok c' D.
Proof.
  intros Hok H. unfold reader_act in H. destruct (cn_todo c) as [|a rest] eqn:E; [done|].
  assert (plain a = true -> (forall msg, a <> AOnSubmit msg) -> bound_ok (cn_set_todo rest c) D) as Hpop.
  { intros Ha Hne. destruct Hok as [Hp Hj Hh Ht].
    assert (Forall (fun a => plain a = true) (cn_todo c)) as Hpl
      by (unfold bind_phase in Hp; rewrite E in Hp |- *; destruct a; try discriminate Ha; apply Hp).
    pose proof (plain_phase_inv c D Hp Hpl) as Hb. rewrite E in Hpl. inversion Hpl; subst. specialize (Ht _ _ E).
    split; cbn; try done.
    - apply plain_phase; [done|]. destruct Hb as [|Hb]; [by left|right; by apply (authentic_mono c)].
    - intros msg r ->. destruct (Ht msg). by constructor.
    - intros a' r -> msg Hm. destruct (Ht msg). by constructor. }
  destruct a; try done.
  - injection H as <-. destruct Hok as [Hp Hj Hh Ht]. unfold bind_phase in Hp. rewrite E in Hp.
    destruct rest as [|[] rest]; try (destruct Hp as [Hp ?]; inversion Hp; done). destruct Hp as (Hpl & Hn & Hau).
    assert (D = []) as -> by (destruct D; [done|]; rewrite Hn in Hj; by specialize (Hj ltac:(done))).
    specialize (Ht _ _ E). split; cbn; try done.
    intros a r [= <- <-] msg Hm. destruct (Ht msg). by constructor.
  - injection H as <-. destruct Hok as [Hp Hj Hh Ht]. unfold bind_phase in Hp. rewrite E in Hp.
    destruct Hp as (Hpl & -> & Hau). specialize (Ht _ _ E). split; cbn; try done.
    + apply plain_phase; [done|]. right. by apply (authentic_mono c).
    + intros msg r ->. destruct (Ht msg). by constructor.
    + intros a' r -> msg Hm. destruct (Ht msg). by constructor.
  - injection H as <-. by apply (bound_frame _ _ _ _ (Hpop eq_refl ltac:(done))).
  - open_op H; by apply (bound_frame _ _ _ _ (Hpop eq_refl ltac:(done))).
  - injection H as <-. by apply (bound_frame _ _ _ _ (Hpop eq_refl ltac:(done))).
  - injection H as <-. apply (bound_frame _ _ _ _ (Hpop eq_refl ltac:(done))); try done; unfold completeDeliverResp; by case_match.
Qed.

Lemma perm_nil_iff (D D' : list (SubmitSM * jstage)) : D ≡ₚ D' -> D' = [] <-> D = [].
Proof. intros E. split; intros ->; [by apply Permutation_nil_r in E|by apply Permutation_nil_l in E]. Qed.

(** Every step keeps who is bound. *)
Lemma bound_step c D c' D' : bound_ok c D -> lstep c D c' D' -> bound_ok c' D'.
Proof.
  intros Hok. destruct 1 as [allowed now p c' H|room c' H|msg rest D' Et E|msg rest Et|c' H|ok c' H|c' H|now c' H
    |room c' H|c' H| |params|i ready c' H|msg p D0 D' E1 Ep Es E2|msg p room D0 D' c' E1 H E2|msg D' E|D' E].
  - by eapply bound_read.
  - by eapply bound_act.
  - destruct Hok as [Hp Hj Hh Ht]. specialize (Hh _ _ Et). specialize (Ht _ _ Et).
    unfold bind_phase in Hp. rewrite Et in Hp. destruct Hp as [Hpl Hb]. inversion Hpl; subst. split; cbn; try done.
    + apply plain_phase; [done|]. destruct Hb as [|Hb]; [by left|right; by apply (authentic_mono c)].
    + intros a' r -> m' Hm. destruct (Ht m'). by constructor.
  - destruct Hok as [Hp Hj Hh Ht]. specialize (Hh _ _ Et). specialize (Ht _ _ Et).
    unfold bind_phase in Hp. rewrite Et in Hp. destruct Hp as [Hpl Hb]. inversion Hpl; subst. split; cbn; try done.
    + apply plain_phase; [by repeat constructor|]. destruct Hb as [|Hb]; [by left|right; by apply (authentic_mono c)].
    + intros a' r [= <- <-] m' Hm. destruct (Ht m'). by inversion Hm.
  - open_op H; by apply (bound_frame _ _ _ _ Hok).
  - open_op H; by apply (bound_frame _ _ _ _ Hok).
  - open_op H; by apply (bound_frame _ _ _ _ Hok).
  - open_op H; by apply (bound_frame _ _ _ _ Hok).
  - open_op H; by apply (bound_frame _ _ _ _ Hok).
  - open_op H; by apply (bound_frame _ _ _ _ Hok).
  - by apply (bound_frame _ _ _ _ Hok).
  - by apply (bound_frame _ _ _ _ Hok).
  - open_op H; by apply (bound_frame _ _ _ _ Hok).
  - apply (bound_frame _ _ _ _ Hok); try done. split; intros ->; [by apply Permutation_nil_l in E2|by apply Permutation_nil_l in E1].
  - assert (D' = [] <-> D = []) as ED
      by (split; intros ->; [by apply Permutation_nil_l in E2|by apply Permutation_nil_l in E1]).
    open_op H; by apply (bound_frame _ _ _ _ Hok).
  - destruct Hok as [Hp Hj Hh Ht]. assert (D <> []) as HD by (intros ->; by apply Permutation_nil_l in E).
    specialize (Hj HD). split; cbn; try done. unfold bind_phase in *. cbn. destruct (cn_todo c) as [|[] ?]; try done.
    by destruct Hp as (_ & ? & _).
  - apply (bound_frame _ _ _ _ Hok); try done. by apply perm_nil_iff.
Qed.

(** ** Answers to deliver_sm *)

Definition registered (st : dstage) : bool := match st with DSend | DWait => true | _ => false end.
Definition call_seq (d : dcall) : Z := pdu_SequenceID (dc_pdu d).

(** The ESME answered [seq] with [status]. *)
Definition acked (c : Conn) (seq status : Z) : Prop :=
  exists p, p ∈ cn_in c /\ pdu_CommandID p = commandDeliverSMResp /\ pdu_SequenceID p = seq /\ pdu_Status p = status.

(** After [n] steps: statuses come from the ESME, the numbers of the calls are
    distinct, and each registered call has its own channel in the map. *)
Record deliver_ok (n : nat) (c : Conn) : Prop := mk_deliver_ok {
  dl_todo : forall seq status, ACompleteDeliver seq status ∈ cn_todo c -> acked c seq status;
  dl_chan : forall i d status, cn_calls c !! i = Some d ->
    dc_chan d = Some status \/ dc_stage d = DOver (Some status) -> acked c (call_seq d) status;
  dl_range : 0 <= s_nextSeq (cn_s c) <= Z.of_nat n;
  dl_seq : forall i d, cn_calls c !! i = Some d -> 0 < call_seq d <= s_nextSeq (cn_s c);
  dl_distinct : forall i j d e, cn_calls c !! i = Some d -> cn_calls c !! j = Some e -> call_seq d = call_seq e -> i = j;
  dl_map : forall i d, cn_calls c !! i = Some d -> registered (dc_stage d) = true ->
    s_deliverResp (cn_s c) !! call_seq d = Some i;
  dl_entry : forall seq i, s_deliverResp (cn_s c) !! seq = Some i ->
    exists d, cn_calls c !! i = Some d /\ call_seq d = seq /\ dc_stage d <> DNew;
  dl_new : forall i d, cn_calls c !! i = Some d -> dc_stage d = DNew -> dc_chan d = None }.

Lemma acked_mono c c' seq status : acked c seq status -> (forall p, p ∈ cn_in c -> p ∈ cn_in c') -> acked c' seq status.
Proof. intros (p & Hp & H) Hin. exists p. split; auto. Qed.

(** Steps that leave the calls, their map and the numbering alone. *)
Lemma deliver_frame n c c' :
  deliver_ok n c -> cn_calls c' = cn_calls c -> s_deliverResp (cn_s c') = s_deliverResp (cn_s c) ->
  s_nextSeq (cn_s c') = s_nextSeq (cn_s c) -> (forall p, p ∈ cn_in c -> p ∈ cn_in c') ->
  (forall seq status, ACompleteDeliver seq status ∈ cn_todo c' ->
    ACompleteDeliver seq status ∈ cn_todo c \/ acked c' seq status) -> deliver_ok n c'.
Proof.
  intros [Ht Hc Hr Hs Hd Hm He Hn] Ec Em En Hin Htodo. split; rewrite ?Ec, ?Em, ?En; eauto.
  - intros seq st H. apply Htodo in H as [H|H]; [|done]. eapply acked_mono; eauto.
  - intros i d st Hi Hst. eapply acked_mono; eauto.
Qed.

(** One call moves on. *)
Lemma deliver_set n c i d d' resp c' :
  deliver_ok n c -> cn_calls c !! i = Some d -> call_seq d' = call_seq d ->
  cn_calls c' = <[i := d']> (cn_calls c) -> s_deliverResp (cn_s c') = resp ->
  s_nextSeq (cn_s c') = s_nextSeq (cn_s c) -> cn_in c' = cn_in c -> cn_todo c' = cn_todo c ->
  (forall status, dc_chan d' = Some status \/ dc_stage d' = DOver (Some status) -> acked c (call_seq d) status) ->
  (dc_stage d' = DNew -> dc_chan d' = None) ->
  (forall q, q <> call_seq d -> resp !! q = s_deliverResp (cn_s c) !! q) ->
  (registered (dc_stage d') = true -> resp !! call_seq d = Some i) ->
  (forall j, resp !! call_seq d = Some j -> j = i /\ dc_stage d' <> DNew) -> deliver_ok n c'.
Proof.
  intros [Ht Hc Hr Hs Hd Hm He Hn] Hi Eseq Ec Em En Ein Et Hst Hnew Hother Hown Hentry.
  assert (forall j e, <[i := d']> (cn_calls c) !! j = Some e -> (j = i /\ e = d') \/ (j <> i /\ cn_calls c !! j = Some e)) as Hcase.
  { intros j e H. destruct (decide (j = i)) as [->|Hne].
    - rewrite list_lookup_insert_eq in H by (by eapply lookup_lt_Some). left. by simplify_eq.
    - rewrite list_lookup_insert_ne in H by done. by right. }
  assert (forall q st, acked c q st -> acked c' q st) as Hmono by (intros; eapply acked_mono; [done|by rewrite Ein]).
  split; rewrite ?Ec, ?Em, ?En, ?Et; eauto.
  - intros j e st Hj Hv. apply Hcase in Hj as [[-> ->]|[_ Hj]]; [|eauto]. rewrite Eseq. auto.
  - intros j e Hj. apply Hcase in Hj as [[-> ->]|[_ Hj]]; [|eauto]. rewrite Eseq. eauto.
  - intros j k e f Hj Hk E. apply Hcase in Hj as [[-> ->]|[_ Hj]], Hk as [[-> ->]|[_ Hk]]; try done.
    + rewrite Eseq in E. eauto.
    + rewrite Eseq in E. eauto.
    + eauto.
  - intros j e Hj Hreg. apply Hcase in Hj as [[-> ->]|[Hne Hj]]; [rewrite Eseq; auto|].
    rewrite Hother; [eauto|]. intros E. destruct Hne. eauto.
  - intros q j Hq. destruct (decide (q = call_seq d)) as [->|Hne].
    + destruct (Hentry j Hq) as [-> Hst']. exists d'. rewrite list_lookup_insert_eq by (by eapply lookup_lt_Some). auto.
    + rewrite Hother in Hq by done. destruct (He _ _ Hq) as (e & Hj & Eq & Hst').
      destruct (decide (j = i)) as [->|Hji]; [simplify_eq|]. exists e. by rewrite list_lookup_insert_ne.
  - intros j e Hj Hst'. apply Hcase in Hj as [[-> ->]|[_ Hj]]; eauto.
Qed.

Lemma acts_complete allowed p s s' acts seq status :
  dispatch allowed p s = (s', acts) -> ACompleteDeliver seq status ∈ acts ->
  pdu_CommandID p = commandDeliverSMResp /\ pdu_SequenceID p = seq /\ pdu_Status p = status.
Proof.
  unfold dispatch. destruct (is_bind _).
  { intros [= <- <-]. unfold handleBind. repeat case_match; set_solver. }
  destruct (_ =? commandSubmitSM).
  { unfold handleSubmit. repeat case_match; intros [= <- <-]; set_solver. }
  destruct (Z.eqb_spec (pdu_CommandID p) commandDeliverSMResp).
  { intros [= <- <-] H. apply list_elem_of_singleton in H. by simplify_eq. }
  repeat case_match; intros [= <- <-]; set_solver.
Qed.

Lemma dispatch_fields allowed p s s' acts :
  dispatch allowed p s = (s', acts) -> s_deliverResp s' = s_deliverResp s /\ s_nextSeq s' = s_nextSeq s.
Proof. unfold dispatch, handleSubmit, add_inflight. by repeat case_match; intros [= <- <-]. Qed.

Lemma deliver_read n c allowed now p c' : deliver_ok n c -> conn_read allowed now p c = Some c' -> deliver_ok n c'.
Proof.
  intros Hok H. unfold conn_read in H. case_match; [|done]. destruct (dispatch _ _ _) as [s acts] eqn:E. injection H as <-.
  pose proof (dispatch_fields _ _ _ _ _ E) as [Em En]. apply (deliver_frame _ _ _ Hok); try done.
  - intros; cbn; set_solver.
  - intros seq st Hin. right. destruct (acts_complete _ _ _ _ _ _ _ E Hin) as (? & ? & ?). exists p. cbn. set_solver.
Qed.

Lemma deliver_act n c room c' : deliver_ok n c -> reader_act room c = Some c' -> deliver_ok n c'.
Proof.
  intros Hok H. unfold reader_act in H. destruct (cn_todo c) as [|a rest] eqn:E; [done|].
  assert (forall seq st, ACompleteDeliver seq st ∈ rest -> ACompleteDeliver seq st ∈ cn_todo c) as Hrest
    by (intros; rewrite E; by constructor).
  destruct a; try done; try (injection H as <-; apply (deliver_frame _ _ _ Hok); by auto).
  - open_op H; apply (deliver_frame _ _ _ Hok); by auto.
  - injection H as <-. unfold completeDeliverResp. cbn.
    destruct (s_deliverResp (cn_s c) !! seq) as [i|] eqn:Ei; [|apply (deliver_frame _ _ _ Hok); by auto].
    pose proof Hok as [Ht Hc Hr Hs Hd Hm He Hn].
    assert (acked c seq status) as Hack by (apply Ht; rewrite E; constructor).
    destruct (He _ _ Ei) as (d & Hi & <- & Hst).
    assert (alter (dc_offer status) i (cn_calls c) = <[i := dc_offer status d]> (cn_calls c)) as ->.
    { apply list_eq. intros j. destruct (decide (i = j)) as [<-|Hne].
      - rewrite list_lookup_alter_eq, list_lookup_insert_eq, Hi by (by eapply lookup_lt_Some). done.
      - by rewrite list_lookup_alter_ne, list_lookup_insert_ne. }
    assert (dc_stage (dc_offer status d) = dc_stage d) as Est by (unfold dc_offer; by case_match).
    assert (deliver_ok n (cn_set_todo rest c)) as Hok' by (apply (deliver_frame _ _ _ Hok); by auto).
    apply (deliver_set n (cn_set_todo rest c) i d (dc_offer status d) (s_deliverResp (cn_s c))); try done;
      rewrite ?Est; try done; try (unfold dc_offer; by case_match).
    + unfold dc_offer. intros st. case_match; cbn; [by apply (Hc i)|]. intros [[= <-]|Hst']; [done|]. by apply (Hc i); auto.
    + intros j Hj. rewrite Ei in Hj. by simplify_eq.
Qed.

Lemma deliver_later n c : deliver_ok n c -> deliver_ok (S n) c.
Proof. intros []. split; try done. lia. Qed.

Lemma send_deliver n room p c c' : deliver_ok n c -> Send room p c = Some c' -> deliver_ok n c'.
Proof. intros Hok H. unfold Send, send_out, send_closed in H. destruct room; case_match; simplify_eq; apply (deliver_frame _ _ _ Hok); auto. Qed.

(** [NextSeq] does not repeat before the 2^32nd step. *)
Lemma deliver_next n c s seq :
  Z.of_nat n < 4294967295 -> deliver_ok n c -> NextSeq (cn_s c) = (s, seq) ->
  seq = s_nextSeq (cn_s c) + 1 /\ s = s_set_nextSeq seq (cn_s c) /\ deliver_ok (S n) (cn_set_s s c).
Proof.
  intros Hn [Ht Hc Hr Hs Hd Hm He Hnew]. unfold NextSeq, u32. rewrite Z.mod_small by lia. intros [= <- <-].
  split_and!; [done..|]. split; cbn; try done; [lia|]. intros i d Hi. specialize (Hs i d Hi). lia.
Qed.

Lemma deliver_start n c params : Z.of_nat n < 4294967295 -> deliver_ok n c -> deliver_ok (S n) (deliver_new params c).
Proof.
  intros Hn Hok. unfold deliver_new. destruct (NextSeq (cn_s c)) as [s seq] eqn:E.
  destruct (deliver_next _ _ _ _ Hn Hok E) as (Eseq & -> & Hok'). clear E.
  pose proof Hok as [_ _ Hr0 Hs0 _ _ _ _]. destruct Hok' as [Ht Hc Hr Hs Hd Hm He Hnew]. cbn in *.
  assert (forall i d, (cn_calls c ++ [mkCall (mkPDU (pdu_Length (BuildDLR params)) (pdu_CommandID (BuildDLR params))
      (pdu_Status (BuildDLR params)) seq (pdu_Body (BuildDLR params))) None DNew]) !! i = Some d ->
    cn_calls c !! i = Some d \/ (i = length (cn_calls c) /\ call_seq d = seq /\ dc_chan d = None /\ dc_stage d = DNew)) as Hcase.
  { intros i d Hi. apply lookup_app_Some in Hi as [Hi|[Hlen Hi]]; [by left|right].
    apply list_lookup_singleton_Some in Hi as [Hi <-]. cbn. split_and!; try done. lia. }
  split; cbn; try done.
  - intros i d st Hi Hv. apply Hcase in Hi as [Hi|(_ & _ & E1 & E2)]; [by apply (Hc i)|].
    rewrite E1, E2 in Hv. by destruct Hv.
  - intros i d Hi. apply Hcase in Hi as [Hi|(_ & -> & _)]; [by apply (Hs i)|lia].
  - intros i j d e Hi Hj E. apply Hcase in Hi as [Hi|(-> & E1 & _)], Hj as [Hj|(-> & E2 & _)]; try done.
    + by apply (Hd i j d e).
    + apply Hs0 in Hi. lia.
    + apply Hs0 in Hj. lia.
  - intros i d Hi Hreg. apply Hcase in Hi as [Hi|(_ & _ & _ & E)]; [by apply Hm|]. by rewrite E in Hreg.
  - intros q i Hq. destruct (He q i Hq) as (d & Hi & Hd'). exists d. by rewrite lookup_app, Hi.
  - intros i d Hi Hst. apply Hcase in Hi as [Hi|(_ & _ & E & _)]; [by apply (Hnew i)|done].
Qed.

Lemma deliver_done n c i d r :
  deliver_ok n c -> cn_calls c !! i = Some d -> (forall status, r = Some status -> dc_chan d = Some status) ->
  deliver_ok n (deliver_return i d r c).
Proof.
  intros Hok Hi Hr. apply (deliver_set n c i d (dc_set_stage (DOver r) d) (delete (call_seq d) (s_deliverResp (cn_s c))));
    try done; cbn.
  - intros st [Hst|[= ->]]; apply (dl_chan _ _ Hok i); auto.
  - intros q Hq. by rewrite lookup_delete_ne.
  - intros j. by rewrite lookup_delete_eq.
Qed.

Lemma deliver_call n c i ready c' : deliver_ok n c -> deliver_step i ready c = Some c' -> deliver_ok n c'.
Proof.
  intros Hok H. unfold deliver_step in H. destruct (cn_calls c !! i) as [d|] eqn:Hi; [|done].
  destruct (dc_stage d) eqn:Est; [| |destruct ready|done].
  - injection H as <-. apply (deliver_set n c i d (dc_set_stage DSend d) (<[call_seq d := i]> (s_deliverResp (cn_s c))));
      try done; cbn.
    + intros st [Hst|]; [|done]. by rewrite (dl_new _ _ Hok i d Hi Est) in Hst.
    + intros q Hq. by rewrite lookup_insert_ne.
    + intros _. by rewrite lookup_insert_eq.
    + intros j. rewrite lookup_insert_eq. intros [= <-]. done.
  - pose proof (dl_map _ _ Hok i d Hi ltac:(by rewrite Est)) as Hm. destruct ready.
    + eapply (send_deliver n true); [|exact H].
      apply (deliver_set n c i d (dc_set_stage DWait d) (s_deliverResp (cn_s c))); try done; cbn.
      * intros st [Hst|]; [|done]. apply (dl_chan _ _ Hok i); auto.
      * intros j Hj. rewrite Hm in Hj. by simplify_eq.
    + destruct (send_closed (dc_pdu d) c) as [c1|] eqn:E; [|done]. injection H as <-. apply deliver_done; [| |done].
      * by apply (send_deliver n false (dc_pdu d) c).
      * unfold send_closed in E. case_match; by simplify_eq.
  - destruct (dc_chan d) as [st|] eqn:Ech; [|done]. injection H as <-. apply deliver_done; try done. by intros ? [= <-].
  - injection H as <-. by apply deliver_done.
Qed.

(** Every step keeps the calls in order. *)
Lemma deliver_lstep n c D c' D' :
  Z.of_nat n < 4294967295 -> deliver_ok n c -> lstep c D c' D' -> deliver_ok (S n) c'.
Proof.
  intros Hn Hok. destruct 1 as [allowed now p c' H|room c' H|msg rest D' Et E|msg rest Et|c' H|ok c' H|c' H|now c' H
    |room c' H|c' H| |params|i ready c' H|msg p D0 D' E1 Ep Es E2|msg p room D0 D' c' E1 H E2|msg D' E|D' E].
  all: try (by apply deliver_later; eauto using deliver_read, deliver_act, deliver_call, send_deliver).
  all: try (apply deliver_later; open_op H; apply (deliver_frame _ _ _ Hok); by auto).
  - apply deliver_later, (deliver_frame _ _ _ Hok); auto. rewrite Et. left. by constructor.
  - apply deliver_later, (deliver_frame _ _ _ Hok); auto. rewrite Et. cbn. intros seq st Hin. left. set_solver.
  - unfold conn_tick in H. destruct (NextSeq (cn_s c)) as [s seq] eqn:E.
    repeat case_match; simplify_eq; try (apply deliver_later; done);
      try (apply deliver_later, (deliver_frame _ _ _ Hok); by auto).
    destruct (deliver_next _ _ _ _ Hn Hok E) as (_ & _ & Hok'). apply (deliver_frame _ _ _ Hok'); auto.
  - apply deliver_later, (deliver_frame _ _ _ Hok); auto.
  - by apply deliver_start.
  - apply deliver_later, (deliver_frame _ _ _ Hok); auto.
Qed.

(** A status the ESME sends for a waiting call is read, stored and returned by
    that call. *)
Lemma ack_reaches n c i d p allowed now :
  deliver_ok n c -> cn_calls c !! i = Some d -> dc_stage d = DWait -> dc_chan d = None ->
  cn_serving c = true -> cn_todo c = [] -> pdu_CommandID p = commandDeliverSMResp -> pdu_SequenceID p = call_seq d ->
  exists c1 c2 c3, conn_read allowed now p c = Some c1 /\ reader_act true c1 = Some c2 /\
    deliver_step i true c2 = Some c3 /\
    cn_calls c3 = <[i := mkCall (dc_pdu d) (Some (pdu_Status p)) (DOver (Some (pdu_Status p)))]> (cn_calls c).
Proof.
  intros Hok Hi Hst Hch Hserv Htodo Hcmd Hseq. pose proof (dl_map _ _ Hok i d Hi ltac:(by rewrite Hst)) as Hm.
  pose proof (lookup_lt_Some _ _ _ Hi) as Hlt.
  unfold conn_read. rewrite Hserv, Htodo. cbn. unfold dispatch. rewrite Hcmd, Hseq. cbn.
  eexists _, _, _. split; [reflexivity|]. split; [reflexivity|]. unfold completeDeliverResp. cbn. rewrite Hm. cbn.
  unfold deliver_step. cbn. rewrite list_lookup_alter_eq, Hi. cbn. unfold dc_offer. rewrite Hch. cbn. rewrite Hst.
  split; [reflexivity|]. cbn. apply list_eq. intros j. destruct (decide (i = j)) as [<-|Hne].
  - rewrite !list_lookup_insert_eq; [done|done|by rewrite length_alter].
  - by rewrite !list_lookup_insert_ne, list_lookup_alter_ne.
Qed.

(** ** Runs of a connection *)

Inductive lreach (s0 : Session) : nat -> Conn -> list (SubmitSM * jstage) -> Prop :=
| lr_init : lreach s0 0 (NewConn s0) []
| lr_step n c D c' D' : lreach s0 n c D -> lstep c D c' D' -> lreach s0 (S n) c' D'.

(** A session as [NewSession] makes it. *)
Record fresh (s : Session) : Prop := mk_fresh {
  fr_out : s_out s = [];
  fr_resp : s_deliverResp s = ∅;
  fr_mode : s_bindMode s = BindNone;
  fr_inflight : s_inflight s = 0;
  fr_seq : s_nextSeq s = 0 }.

Section runs.
Context (s0 : Session) (Hs0 : fresh s0).

Lemma lreach_cfg n c D : lreach s0 n c D -> s_cfg (cn_s c) = s_cfg s0 /\ s_id (cn_s c) = s_id s0.
Proof.
  induction 1 as [|n c D c' D' _ [IH1 IH2] H]; [done|]. destruct (lstep_same _ _ _ _ H) as (-> & -> & _). done.
Qed.

Lemma lreach_window n c D : window_size (s_cfg s0) <= 2147483646 -> lreach s0 n c D -> window_ok c D.
Proof.
  intros Hw. induction 1 as [|n c D c' D' Hr IH H].
  - split; cbn; [by rewrite (fr_inflight _ Hs0)| |lia|done]. unfold window_size. case_match; lia.
  - eapply window_step; [|done|done]. by rewrite (proj1 (lreach_cfg _ _ _ Hr)).
Qed.

Lemma lreach_answers n c D : cfg_OnSubmit (s_cfg s0) = true -> lreach s0 n c D -> answers_ok c D.
Proof.
  intros Hw. induction 1 as [|n c D c' D' Hr IH H].
  - split; cbn; try done. by rewrite (fr_out _ Hs0).
  - eapply answers_step; [|done|done]. by rewrite (proj1 (lreach_cfg _ _ _ Hr)).
Qed.

Lemma lreach_bound n c D : lreach s0 n c D -> bound_ok c D.
Proof.
  induction 1 as [|n c D c' D' Hr IH H]; [|by eapply bound_step].
  split; cbn; try done. apply plain_phase; [done|]. left. apply (fr_mode _ Hs0).
Qed.

Lemma lreach_deliver n c D : Z.of_nat n <= 4294967295 -> lreach s0 n c D -> deliver_ok n c.
Proof.
  intros Hn Hr. revert Hn. induction Hr as [|n c D c' D' Hr IH H]; intros Hn.
  - split; cbn; try done.
    + intros ? ? Hin. by apply not_elem_of_nil in Hin.
    + rewrite (fr_seq _ Hs0). lia.
    + intros q i. rewrite (fr_resp _ Hs0). by rewrite lookup_empty.
  - eapply deliver_lstep; [|apply IH|exact H]; lia.
Qed.
End runs.
