(* ===== verification/SmppEnvelope.v ===== *)
(** * Envelopes of SMPP submissions: cmd/mysmpp/main.go

    What the gateway makes of a submit_sm: the envelope for the dispatcher,
    its idempotency key, and the status of a refusal. *)

From S2P Require Import Prelude Unicode Codec Segment Pdu Num GoTime Submit.
From S2P Require Import Records Store Router Dispatch.

Definition smppSubmitErrorStatus (e : dispatch_err) : Z :=
  match e with
  | ErrRateExceeded | ErrStore ErrQuotaExceeded => statusThrottled
  | ErrInvalidDestAddr => StatusInvalidDestAddr
  | _ => StatusSubmitFailed
  end.

Definition smppSubmitEncoding (dataCoding : Z) : string :=
  if dataCoding =? 0x00 then "gsm7"
  else if dataCoding =? 0x03 then "8bit"
  else if dataCoding =? 0x08 then "ucs2"
  else "8bit".

(** ** The idempotency key of a submission *)

Definition hex_byte (b : Z) : list Z := [digit_char (b / 16); digit_char (b mod 16)].
(** [hex.EncodeToString]. *)
Definition hex (bs : list Z) : string := string_of_bytes (bs ≫= hex_byte).

Definition idempotency_field (value : list Z) : list Z := PutUint32 (u32 (Z.of_nat (length value))) ++ value.

Definition udh_value (submit : SubmitSM) : list Z := default [] (sm_UDH submit).

(** The fields written to the hash. A SAR parameter that is missing is
    written as an empty one. *)
Definition idempotency_fields (instance : list Z) (sessionID systemID : string) (submit : SubmitSM) : list (list Z) :=
  [instance; bytes_of_string sessionID; bytes_of_string systemID; bytes_of_string (sm_From submit);
   bytes_of_string (sm_To submit); [sm_DataCoding submit]; udh_value submit; sm_Payload submit]
  ++ ((fun tag => default [] (FindTLV (sm_TLVs submit) tag)) <$> [TagSARMsgRefNum; TagSARTotalSegments; TagSARSegmentSeqnum]).

Definition sequence_bytes (seq : Z) : list Z :=
  [u8 (Z.shiftr seq 24); u8 (Z.shiftr seq 16); u8 (Z.shiftr seq 8); u8 seq].

Definition idempotency_stream (instance : list Z) (sessionID systemID : string) (submit : SubmitSM) : list Z :=
  idempotency_fields instance sessionID systemID submit ≫= idempotency_field.

Section gateway.
(** [sha256.Sum] of the bytes written, and the random instance id of this process. *)
Context (sha256 : list Z -> list Z) (smppIdempotencyInstance : list Z).

Definition smppClientMsgID (sessionID systemID : string) (submit : SubmitSM) : string :=
  "smpp:v2:" +:+ systemID +:+ ":"
  +:+ hex (take 12 (sha256 (idempotency_stream smppIdempotencyInstance sessionID systemID submit)))
  +:+ ":" +:+ hex (sequence_bytes (sm_SequenceID submit)).

Definition smppSubmitEnvelope (now : time) (sessionID systemID : string) (submit : SubmitSM) : Envelope :=
  let sar :=
    match FindTLV (sm_TLVs submit) TagSARMsgRefNum, FindTLV (sm_TLVs submit) TagSARTotalSegments,
          FindTLV (sm_TLVs submit) TagSARSegmentSeqnum with
    | Some ref, Some total, Some part => Some (ref, total, part)
    | _, _, _ => None
    end in
  {| env_From := sm_From submit; env_To := sm_To submit; env_Text := sm_Text submit;
     env_ClientID := "smpp:" +:+ systemID; env_ClientMsgID := smppClientMsgID sessionID systemID submit;
     env_TenantID := ""; env_AccountID := "";
     env_DataCoding := sm_DataCoding submit; env_Encoding := smppSubmitEncoding (sm_DataCoding submit);
     env_RegisteredDelivery := sm_RegisteredDelivery submit;
     env_Source := mkSubmitSource SourceSMPP sessionID systemID "" "";
     env_ReceivedAt := now; env_Meta := None; env_UDH := udh_value submit;
     env_RawPayload := sm_Payload submit; env_RawPayloadSet := true;
     env_SARRefNum := match sar with Some (ref, _, _) => ref | None => [] end;
     env_SARTotalSegments := match sar with Some (_, total, _) => total | None => [] end;
     env_SARSegmentSeqnum := match sar with Some (_, _, part) => part | None => [] end;
     env_SARSet := match sar with Some _ => true | None => false end |}.
End gateway.

(** ** The key identifies the submission *)

Lemma hex_byte_u8 b : is_u8 b -> Forall is_u8 (hex_byte b).
Proof. intros Hb. unfold hex_byte, is_u8 in *. repeat constructor; apply digit_char_u8; lia. Qed.

Lemma hex_bytes bs : Forall is_u8 bs -> bytes_of_string (hex bs) = bs ≫= hex_byte.
Proof.
  intros H. unfold hex. apply bytes_of_string_of_bytes. induction H; cbn; [done|].
  by apply (Forall_app _ (hex_byte _)); split; [apply hex_byte_u8|].
Qed.

Lemma hex_byte_inj a b : is_u8 a -> is_u8 b -> hex_byte a = hex_byte b -> a = b.
Proof.
  unfold is_u8. intros Ha Hb E. injection E as E1 E2. apply (f_equal digit_value) in E1, E2.
  rewrite !digit_value_char in E1, E2 by lia. injection E1 as E1. injection E2 as E2. lia.
Qed.

Lemma hex_list_inj a b : Forall is_u8 a -> Forall is_u8 b -> a ≫= hex_byte = b ≫= hex_byte -> a = b.
Proof.
  intros Ha. revert b. induction Ha as [|x a Hx Ha IH]; intros b Hb E; destruct Hb as [|y b Hy Hb]; [done..|].
  rewrite !bind_cons in E. apply app_inj_1 in E as [E1 E2]; [|done]. f_equal; [by apply hex_byte_inj|by apply IH].
Qed.

Lemma length_hex_list a : length (a ≫= hex_byte) = (2 * length a)%nat.
Proof. induction a as [|x a IH]; [done|]. rewrite bind_cons, length_app, IH. cbn. lia. Qed.

(** Fields prefixed by their lengths are read back. *)
Lemma fields_inj (xs ys : list (list Z)) :
  Forall (fun x => Z.of_nat (length x) < 4294967296) xs -> Forall (fun y => Z.of_nat (length y) < 4294967296) ys ->
  length xs = length ys -> xs ≫= idempotency_field = ys ≫= idempotency_field -> xs = ys.
Proof.
  intros Hx. revert ys. induction Hx as [|x xs Hx Hxs IH]; intros ys Hy El E; destruct Hy as [|y ys Hy Hys]; try done.
  rewrite !bind_cons in E. unfold idempotency_field in E at 1 3. rewrite <- !app_assoc in E.
  apply app_inj_1 in E as [E1 E2]; [|done].
  assert (length x = length y) as Elen.
  { apply (f_equal (fun l => Uint32 (slice (l ++ []) 0 4))) in E1. unfold u32 in E1.
    rewrite !Uint32_Put in E1 by (unfold is_u32; rewrite ?Z.mod_small; lia). rewrite !Z.mod_small in E1; lia. }
  apply app_inj_1 in E2 as [-> E2]; [|done]. f_equal. apply IH; [done| |done]. cbn in El. lia.
Qed.

Lemma sequence_bytes_inj a b : is_u32 a -> is_u32 b -> sequence_bytes a = sequence_bytes b -> a = b.
Proof.
  unfold is_u32, sequence_bytes, u8. rewrite !Z.shiftr_div_pow2 by lia.
  change (2 ^ 24) with 16777216. change (2 ^ 16) with 65536. change (2 ^ 8) with 256.
  intros Ha Hb [= E1 E2 E3 E4]. lia.
Qed.

Lemma sequence_bytes_u8 a : Forall is_u8 (sequence_bytes a).
Proof. unfold sequence_bytes, u8, is_u8. repeat constructor; lia. Qed.

(** Every field fits the 32-bit length. *)
Definition fields_ok (inst : list Z) (sessionID systemID : string) (submit : SubmitSM) : Prop :=
  Forall (fun x => Z.of_nat (length x) < 4294967296) (idempotency_fields inst sessionID systemID submit).

(** Two submissions with the same idempotency key have the same system id and
    sequence number, and agree in session, addresses, coding, header and
    payload unless SHA-256 collides on their two encodings. *)
Theorem client_msg_id_identifies (sha256 : list Z -> list Z) inst id1 sys1 sub1 id2 sys2 sub2 :
  (forall m, length (sha256 m) = 32%nat /\ Forall is_u8 (sha256 m)) ->
  fields_ok inst id1 sys1 sub1 -> fields_ok inst id2 sys2 sub2 ->
  is_u32 (sm_SequenceID sub1) -> is_u32 (sm_SequenceID sub2) ->
  smppClientMsgID sha256 inst id1 sys1 sub1 = smppClientMsgID sha256 inst id2 sys2 sub2 ->
  sm_SequenceID sub1 = sm_SequenceID sub2 /\ sys1 = sys2 /\
  ((id1 = id2 /\ sm_From sub1 = sm_From sub2 /\ sm_To sub1 = sm_To sub2 /\ sm_DataCoding sub1 = sm_DataCoding sub2 /\
    udh_value sub1 = udh_value sub2 /\ sm_Payload sub1 = sm_Payload sub2) \/
   (let m1 := idempotency_stream inst id1 sys1 sub1 in
    let m2 := idempotency_stream inst id2 sys2 sub2 in
    m1 <> m2 /\ take 12 (sha256 m1) = take 12 (sha256 m2))).
Proof.
  intros Hsha H1 H2 S1 S2 E. unfold smppClientMsgID in E. apply (f_equal bytes_of_string) in E.
  cbv zeta. set (m1 := idempotency_stream inst id1 sys1 sub1) in *.
  set (m2 := idempotency_stream inst id2 sys2 sub2) in *.
  assert (forall m, Forall is_u8 (take 12 (sha256 m))) as Hu by (intros; by apply Forall_take, Hsha).
  rewrite !bytes_of_string_app, !hex_bytes in E by (try apply sequence_bytes_u8; apply Hu).
  apply app_inv_head in E. rewrite !app_assoc in E. apply app_inj_2 in E as [E Es]; [|by rewrite !length_hex_list].
  apply hex_list_inj in Es; [|apply sequence_bytes_u8..]. apply sequence_bytes_inj in Es; [|done..].
  apply app_inv_tail in E. apply app_inj_2 in E as [E Eh].
  2:{ rewrite !length_hex_list, !length_take. by destruct (Hsha m1) as [-> _], (Hsha m2) as [-> _]. }
  apply app_inv_tail, bytes_of_string_inj in E. apply hex_list_inj in Eh; [|apply Hu..].
  split_and!; [done|done|]. destruct (decide (m1 = m2)) as [Em|Em]; [left|by right].
  apply fields_inj in Em; [|done..]. unfold idempotency_fields in Em. injection Em as E1 _ E3 E4 E5 E6 E7 _ _ _.
  by apply bytes_of_string_inj in E1, E3, E4.
Qed.

Definition key_submit (seq : Z) (to : string) : SubmitSM :=
  mkSubmitSM seq "111" to "hi" 0 1 0 0 0 0 0 0 [104; 105] None None [].

(** With a weak hash two destinations collide, and only then share a key. *)
Lemma client_msg_id_identifies_witness :
  let sha m := replicate 32 (Z.of_nat (length m) mod 256) in
  let key to := smppClientMsgID sha [1; 2] "s1" "alice" (key_submit 7 to) in
  key "222" = key "333" /\ key "222" <> key "2222" /\
  let m to := idempotency_stream [1; 2] "s1" "alice" (key_submit 7 to) in
  take 12 (sha (m "222")) = take 12 (sha (m "333")).
Proof.
  intros sha key. split; [vm_compute; reflexivity|]. split; [vm_compute; discriminate|].
  destruct (client_msg_id_identifies sha [1; 2] "s1" "alice" (key_submit 7 "222") "s1" "alice" (key_submit 7 "333"))
    as (_ & _ & [(_ & _ & E & _)|[_ H]]).
  - intros m. split; [apply length_replicate|]. apply Forall_replicate. unfold is_u8. apply Z.mod_pos_bound. reflexivity.
  - apply (bool_decide_unpack (Forall _ _)). vm_compute. exact I.
  - apply (bool_decide_unpack (Forall _ _)). vm_compute. exact I.
  - vm_compute. split; [discriminate|reflexivity].
  - vm_compute. split; [discriminate|reflexivity].
  - vm_compute. reflexivity.
  - discriminate E.
  - exact H.
Defined.
