(* ===== verification/SmppServer.v ===== *)
(** * The SMPP server and its wiring: internal/smpp/server.go, cmd/mysmpp/main.go

    The server keeps a registry of sessions; the gateway hands submissions
    over a channel to a pool of workers, which call the dispatcher and answer.
    All connections, the registry, the channel and the workers form one
    transition system; each connection in it moves by the steps of
    [lstep]. *)

From S2P Require Import Prelude Unicode Codec Segment Pdu Num GoTime Submit SmppSession.
From S2P Require Import Records Store Router Dispatch SmppEnvelope.

Record ESMECred := mkESMECred {
  esme_SystemID : string;
  esme_Password : string;
  esme_Enabled : option bool }.

Definition EnabledValue (c : ESMECred) : bool := match esme_Enabled c with None => true | Some b => b end.

(** [EnquirePeriod] as [time.ParseDuration] reads it. *)
Record SMPPConfig := mkSMPPConfig {
  smpp_SystemID : string;
  smpp_MaxSessions : Z;
  smpp_MaxSessionsPerSystemID : Z;
  smpp_WindowSize : Z;
  smpp_EnquirePeriod : option Z }.

Definition ConstantTimeEqual (a b : string) : bool :=
  if bool_decide (a = "") || bool_decide (b = "") then false else bool_decide (a = b).

(** The closure [auth] of main. *)
Definition auth (esmes : list ESMECred) (systemID password : string) : bool :=
  existsb (fun e => EnabledValue e && ConstantTimeEqual (esme_SystemID e) systemID
    && ConstantTimeEqual (esme_Password e) password) esmes.

Definition defaultEnquirePeriod : Z := 30 * 1000000000.

Definition effectiveEnquirePeriod (parsed : option Z) : Z :=
  match parsed with
  | None => defaultEnquirePeriod
  | Some period => if period <=? 0 then defaultEnquirePeriod else period
  end.

Section gateway.
(** [sha256.Sum] of the bytes written, and the random instance id of this process. *)
Context (sha256 : list Z -> list Z) (smppIdempotencyInstance : list Z).

(** ** The server *)

(** The session objects live in [sv_heap]; the registry maps an id to its
    object. [sv_jobs] is the channel [submitJobs]; [sv_submitted] the
    envelopes given to the dispatcher so far. *)
Record Server := mkServer {
  sv_cfg : SMPPConfig;
  sv_esmes : list ESMECred;
  sv_sessions : gmap string nat;
  sv_nextID : Z;
  sv_heap : list Conn;
  sv_jobs : list (nat * SubmitSM);
  sv_workers : list (option (nat * SubmitSM * jstage));
  sv_submitted : list Envelope }.

Definition sv_set_heap (h : list Conn) (sv : Server) : Server :=
  mkServer (sv_cfg sv) (sv_esmes sv) (sv_sessions sv) (sv_nextID sv) h (sv_jobs sv) (sv_workers sv) (sv_submitted sv).
Definition sv_set_sessions (m : gmap string nat) (sv : Server) : Server :=
  mkServer (sv_cfg sv) (sv_esmes sv) m (sv_nextID sv) (sv_heap sv) (sv_jobs sv) (sv_workers sv) (sv_submitted sv).
Definition sv_set_nextID (n : Z) (sv : Server) : Server :=
  mkServer (sv_cfg sv) (sv_esmes sv) (sv_sessions sv) n (sv_heap sv) (sv_jobs sv) (sv_workers sv) (sv_submitted sv).
Definition sv_set_jobs (j : list (nat * SubmitSM)) (sv : Server) : Server :=
  mkServer (sv_cfg sv) (sv_esmes sv) (sv_sessions sv) (sv_nextID sv) (sv_heap sv) j (sv_workers sv) (sv_submitted sv).
Definition sv_set_workers (w : list (option (nat * SubmitSM * jstage))) (sv : Server) : Server :=
  mkServer (sv_cfg sv) (sv_esmes sv) (sv_sessions sv) (sv_nextID sv) (sv_heap sv) (sv_jobs sv) w (sv_submitted sv).
Definition sv_set_submitted (l : list Envelope) (sv : Server) : Server :=
  mkServer (sv_cfg sv) (sv_esmes sv) (sv_sessions sv) (sv_nextID sv) (sv_heap sv) (sv_jobs sv) (sv_workers sv) l.

Definition NewServer (cfg : SMPPConfig) (esmes : list ESMECred) (workers perWorker : Z) : Server :=
  mkServer cfg esmes ∅ 0 [] [] (replicate (Z.to_nat (Z.max 1 (workers * perWorker))) None) [].

(** The capacity of the channel [submitJobs]. *)
Definition jobs_capacity (cfg : SMPPConfig) : nat :=
  Z.to_nat (Z.max 1 (smpp_MaxSessions cfg * Z.max 1 (smpp_WindowSize cfg))).

Definition session_id (n : Z) : string := "s" +:+ FormatUint n 10.

Definition nextSessionID (sv : Server) : Server * string :=
  let n := u64 (sv_nextID sv + 1) in (sv_set_nextID n sv, session_id n).

Definition session_config (sv : Server) : SessionConfig :=
  {| cfg_OwnSystemID := smpp_SystemID (sv_cfg sv); cfg_Auth := Some (auth (sv_esmes sv)); cfg_OnSubmit := true;
     cfg_OnReceiverBound := true; cfg_EnquirePeriod := effectiveEnquirePeriod (smpp_EnquirePeriod (sv_cfg sv));
     cfg_WindowSize := i32 (smpp_WindowSize (sv_cfg sv)) |}.

(** [register] of the session that will be the object [length (sv_heap sv)]. *)
Definition register (session : Session) (sv : Server) : option Server :=
  let limit := smpp_MaxSessions (sv_cfg sv) in
  if (0 <? limit) && (limit <=? Z.of_nat (size (sv_sessions sv))) then None
  else Some (sv_set_sessions (<[s_id session := length (sv_heap sv)]> (sv_sessions sv)) sv).

Definition unregister (session : Session) (sv : Server) : Server :=
  sv_set_sessions (delete (s_id session) (sv_sessions sv)) sv.

(** An accepted connection; when it cannot be registered it is closed and its
    session forgotten. *)
Definition accept (now : Z) (remote : string) (sv : Server) : Server :=
  let '(sv, id) := nextSessionID sv in
  let session := NewSession id remote (session_config sv) now in
  match register session sv with
  | None => sv
  | Some sv => sv_set_heap (sv_heap sv ++ [NewConn session]) sv
  end.

Definition has_system (sv : Server) (systemID : string) (ptr : nat) : bool :=
  match sv_heap sv !! ptr with Some cn => bool_decide (s_systemID (cn_s cn) = systemID) | None => false end.

(** [bindAllowed]: sessions of the same system id other than the candidate. *)
Definition bindAllowed (sv : Server) (candidate : nat) (systemID : string) : bool :=
  let limit := smpp_MaxSessionsPerSystemID (sv_cfg sv) in
  if limit <=? 0 then true
  else
    let count := size (filter (fun kv => kv.2 <> candidate /\ has_system sv systemID kv.2 = true) (sv_sessions sv)) in
    Z.of_nat count <? limit.

Definition LookupSession (sv : Server) (id : string) : option Conn := sv_sessions sv !! id ≫= fun ptr => sv_heap sv !! ptr.

(** [ReceiversBySystemID], in the order of the map. *)
Definition ReceiversBySystemID (sv : Server) (systemID : string) : list Conn :=
  filter (fun cn => s_systemID (cn_s cn) = systemID /\ CanReceive (s_bindMode (cn_s cn)) = true)
    (omap (fun kv : string * nat => sv_heap sv !! kv.2) (map_to_list (sv_sessions sv))).

Definition on_conn (c : nat) (f : Conn -> option Conn) (sv : Server) : option Server :=
  cn ← sv_heap sv !! c; cn' ← f cn; Some (sv_set_heap (<[c := cn']> (sv_heap sv)) sv).

(** [onSubmit]: the job goes into the channel, or the submission is throttled. *)
Definition onSubmit (c : nat) (cn : Conn) (msg : SubmitSM) (rest : list action) (sv : Server) : Server :=
  if (length (sv_jobs sv) <? jobs_capacity (sv_cfg sv))%nat
  then sv_set_jobs (sv_jobs sv ++ [(c, msg)]) (sv_set_heap (<[c := cn_set_todo rest cn]> (sv_heap sv)) sv)
  else sv_set_heap (<[c := cn_set_todo (on_submit_full msg ++ rest) cn]> (sv_heap sv)) sv.

(** The PDU a job answers with. *)
Definition submit_response (submit : SubmitSM) (r : res dispatch_err Receipt) : PDU :=
  match r with
  | Err e => pdu commandSubmitSMResp (smppSubmitErrorStatus e) (sm_SequenceID submit) []
  | Ok receipt => pdu commandSubmitSMResp statusOK (sm_SequenceID submit) (CString (rc_GatewayID receipt))
  end.

Inductive sevent :=
| EvAccept (now : Z) (remote : string)
| EvRead (c : nat) (now : Z) (p : PDU)
| EvReadEnd (c : nat)
| EvUnregister (c : nat)
| EvAct (c : nat) (room : bool)
| EvWrite (c : nat) (ok : bool)
| EvWriteEnd (c : nat)
| EvTick (c : nat) (now : Z)
| EvTickSend (c : nat) (room : bool)
| EvTickEnd (c : nat)
| EvClose (c : nat)
| EvDeliver (c : nat) (params : DLRParams)
| EvDeliverStep (c i : nat) (ready : bool)
| EvTake (w : nat)
| EvSubmit (w : nat) (now : time) (r : res dispatch_err Receipt)
| EvRespond (w : nat) (room : bool)
| EvComplete (w : nat).

(** One operation of one goroutine; [None] when it cannot happen now. *)
Definition srv_step (sv : Server) (e : sevent) : option Server :=
  match e with
  | EvAccept now remote => Some (accept now remote sv)
  | EvRead c now p => on_conn c (conn_read (Some (bindAllowed sv c)) now p) sv
  | EvReadEnd c => on_conn c conn_read_end sv
  | EvUnregister c =>
    cn ← sv_heap sv !! c; if cn_serving cn then None else Some (unregister (cn_s cn) sv)
  | EvAct c room =>
    cn ← sv_heap sv !! c;
    match cn_todo cn with
    | AOnSubmit msg :: rest => Some (onSubmit c cn msg rest sv)
    | _ => on_conn c (reader_act room) sv
    end
  | EvWrite c ok => on_conn c (conn_write ok) sv
  | EvWriteEnd c => on_conn c conn_write_end sv
  | EvTick c now => on_conn c (conn_tick now) sv
  | EvTickSend c room => on_conn c (conn_tick_send room) sv
  | EvTickEnd c => on_conn c conn_tick_end sv
  | EvClose c => on_conn c (fun cn => Some (conn_close cn)) sv
  | EvDeliver c params => on_conn c (fun cn => Some (deliver_new params cn)) sv
  | EvDeliverStep c i ready => on_conn c (deliver_step i ready) sv
  | EvTake w =>
    match sv_workers sv !! w, sv_jobs sv with
    | Some None, (c, msg) :: jobs => Some (sv_set_workers (<[w := Some (c, msg, JSubmit)]> (sv_workers sv)) (sv_set_jobs jobs sv))
    | _, _ => None
    end
  | EvSubmit w now r =>
    match sv_workers sv !! w with
    | Some (Some (c, msg, JSubmit)) =>
      cn ← sv_heap sv !! c;
      let env := smppSubmitEnvelope sha256 smppIdempotencyInstance now (s_id (cn_s cn)) (s_systemID (cn_s cn)) msg in
      Some (sv_set_submitted (sv_submitted sv ++ [env])
        (sv_set_workers (<[w := Some (c, msg, JSend (submit_response msg r))]> (sv_workers sv)) sv))
    | _ => None
    end
  | EvRespond w room =>
    match sv_workers sv !! w with
    | Some (Some (c, msg, JSend p)) =>
      on_conn c (Send room p) (sv_set_workers (<[w := Some (c, msg, JComplete)]> (sv_workers sv)) sv)
    | _ => None
    end
  | EvComplete w =>
    match sv_workers sv !! w with
    | Some (Some (c, msg, JComplete)) =>
      on_conn c (fun cn => Some (upd_s CompleteSubmit cn)) (sv_set_workers (<[w := None]> (sv_workers sv)) sv)
    | _ => None
    end
  end.

Fixpoint srv_run (es : list sevent) (sv : Server) : option Server :=
  match es with
  | [] => Some sv
  | e :: es => sv' ← srv_step sv e; srv_run es sv'
  end.
End gateway.

(** ** The jobs of a connection *)

Definition pick (c : nat) (j : nat * SubmitSM * jstage) : option (SubmitSM * jstage) :=
  if decide (j.1.1 = c) then Some (j.1.2, j.2) else None.

Definition queued (c : nat) (j : nat * SubmitSM) : option (SubmitSM * jstage) := pick c (j, JSubmit).
Definition running (c : nat) (o : option (nat * SubmitSM * jstage)) : option (SubmitSM * jstage) := o ≫= pick c.

Definition jobs_of (c : nat) (sv : Server) : list (SubmitSM * jstage) :=
  omap (queued c) (sv_jobs sv) ++ omap (running c) (sv_workers sv).

Lemma pick_same c msg st : pick c (c, msg, st) = Some (msg, st).
Proof. unfold pick. by rewrite decide_True. Qed.

Lemma pick_other c c' msg st : c' <> c -> pick c (c', msg, st) = None.
Proof. intros. unfold pick. by rewrite decide_False. Qed.

(** One worker's entry is replaced. *)
Lemma workers_insert {A B} (f : A -> option B) (l : list A) w x y :
  l !! w = Some x -> exists k, omap f l ≡ₚ option_list (f x) ++ k /\ omap f (<[w := y]> l) ≡ₚ option_list (f y) ++ k.
Proof.
  intros Hx. exists (omap f (take w l) ++ omap f (drop (S w) l)).
  assert (forall z, omap f (take w l ++ z :: drop (S w) l) ≡ₚ option_list (f z) ++ omap f (take w l) ++ omap f (drop (S w) l)) as H.
  { intros z. rewrite omap_app. cbn. destruct (f z); cbn; [by rewrite <- Permutation_middle|done]. }
  rewrite <- H, <- H, take_drop_middle by done. split; [done|].
  rewrite insert_take_drop by (by eapply lookup_lt_Some). done.
Qed.

(** A step of the server is a step of each connection, or makes a new one. *)
Record sim (sv sv' : Server) : Prop := mk_sim {
  sim_cfg : sv_cfg sv' = sv_cfg sv /\ sv_esmes sv' = sv_esmes sv;
  sim_old : forall c cn, sv_heap sv !! c = Some cn ->
    exists cn', sv_heap sv' !! c = Some cn' /\ lstep cn (jobs_of c sv) cn' (jobs_of c sv');
  sim_new : forall c, sv_heap sv !! c = None -> jobs_of c sv = [] -> jobs_of c sv' = [] /\
    forall cn', sv_heap sv' !! c = Some cn' -> exists s0, fresh s0 /\ s_cfg s0 = session_config sv /\ cn' = NewConn s0 }.

(** A step that touches the connection [c]. *)
Lemma sim_touch sv sv' c cn cn' :
  sv_cfg sv' = sv_cfg sv -> sv_esmes sv' = sv_esmes sv -> sv_heap sv !! c = Some cn ->
  sv_heap sv' = <[c := cn']> (sv_heap sv) -> lstep cn (jobs_of c sv) cn' (jobs_of c sv') ->
  (forall c', c' <> c -> jobs_of c' sv ≡ₚ jobs_of c' sv') -> sim sv sv'.
Proof.
  intros E1 E2 Hc Eh Hl Ho. split; [done| |].
  - intros c' cn1 Hc'. destruct (decide (c' = c)) as [->|Hne].
    + rewrite Hc in Hc'. simplify_eq. exists cn'. rewrite Eh, list_lookup_insert_eq by (by eapply lookup_lt_Some). done.
    + exists cn1. rewrite Eh, list_lookup_insert_ne by done. split; [done|]. by apply ls_perm, Ho.
  - intros c' Hn Hj. assert (c' <> c) as Hne by congruence. specialize (Ho c' Hne). rewrite Hj in Ho.
    apply Permutation_nil_l in Ho as <-. split; [done|]. intros cn1. by rewrite Eh, list_lookup_insert_ne, Hn.
Qed.

Lemma on_conn_inv c f sv sv' :
  on_conn c f sv = Some sv' -> exists cn cn', sv_heap sv !! c = Some cn /\ f cn = Some cn' /\
    sv' = sv_set_heap (<[c := cn']> (sv_heap sv)) sv.
Proof.
  unfold on_conn. destruct (sv_heap sv !! c) as [cn|] eqn:E; [|done]. cbn. destruct (f cn) as [cn'|] eqn:Ef; [|done].
  intros [= <-]. by exists cn, cn'.
Qed.

Lemma on_conn_Some c f sv cn cn' :
  sv_heap sv !! c = Some cn -> f cn = Some cn' -> on_conn c f sv = Some (sv_set_heap (<[c := cn']> (sv_heap sv)) sv).
Proof. intros H1 H2. unfold on_conn. rewrite H1. cbn. by rewrite H2. Qed.

Lemma sim_on_conn c f sv sv' :
  (forall cn cn', sv_heap sv !! c = Some cn -> f cn = Some cn' -> lstep cn (jobs_of c sv) cn' (jobs_of c sv)) ->
  on_conn c f sv = Some sv' -> sim sv sv'.
Proof. intros Hf H. apply on_conn_inv in H as (cn & cn' & Hc & Ef & ->). by apply (sim_touch _ _ c cn cn'); auto. Qed.

Lemma sim_same sv sv' :
  sv_cfg sv' = sv_cfg sv -> sv_esmes sv' = sv_esmes sv -> sv_heap sv' = sv_heap sv ->
  (forall c, jobs_of c sv ≡ₚ jobs_of c sv') -> sim sv sv'.
Proof.
  intros E1 E2 Eh Hj. split; [done| |].
  - intros c cn Hc. exists cn. rewrite Eh. split; [done|]. by apply ls_perm.
  - intros c Hn Hnil. specialize (Hj c). rewrite Hnil in Hj. apply Permutation_nil_l in Hj as <-. split; [done|].
    intros cn'. by rewrite Eh, Hn.
Qed.

Lemma NewSession_fresh id remote cfg now : fresh (NewSession id remote cfg now).
Proof. done. Qed.

Lemma sim_accept now remote sv : sim sv (accept now remote sv).
Proof.
  unfold accept, nextSessionID, register. destruct (_ && _); [by apply sim_same|].
  split; cbn; [done| |].
  - intros c cn Hc. exists cn. rewrite lookup_app, Hc. split; [done|]. by apply ls_perm.
  - intros c Hn Hj. split; [done|]. intros cn'. rewrite lookup_app, Hn. intros H.
    apply list_lookup_singleton_Some in H as [_ <-]. eexists. split; [apply NewSession_fresh|]. by split.
Qed.

(** A worker passes from one stage to the next. *)
Lemma sim_worker sv sv' c cn cn' w msg st o :
  sv_cfg sv' = sv_cfg sv -> sv_esmes sv' = sv_esmes sv -> sv_heap sv !! c = Some cn ->
  sv_heap sv' = <[c := cn']> (sv_heap sv) -> sv_jobs sv' = sv_jobs sv -> sv_workers sv !! w = Some (Some (c, msg, st)) ->
  sv_workers sv' = <[w := o]> (sv_workers sv) -> (forall c', c' <> c -> running c' o = None) ->
  (forall D0 D D', D ≡ₚ (msg, st) :: D0 -> D' ≡ₚ option_list (running c o) ++ D0 -> lstep cn D cn' D') -> sim sv sv'.
Proof.
  intros E1 E2 Hc Eh Ej Hw Ew Ho Hl.
  assert (forall c', exists k, jobs_of c' sv ≡ₚ option_list (running c' (Some (c, msg, st))) ++ k /\
    jobs_of c' sv' ≡ₚ option_list (running c' o) ++ k) as Hk.
  { intros c'. destruct (workers_insert (running c') (sv_workers sv) w _ o Hw) as (k & H1 & H2).
    exists (omap (queued c') (sv_jobs sv) ++ k). unfold jobs_of. rewrite Ej, Ew, H1, H2. split; apply Permutation_app_swap_app. }
  apply (sim_touch sv sv' c cn cn'); try done.
  - destruct (Hk c) as (k & H1 & H2). cbn in H1. rewrite pick_same in H1. by apply (Hl k).
  - intros c' Hne. destruct (Hk c') as (k & -> & ->). cbn. rewrite pick_other, Ho by done. done.
Qed.

Lemma sim_onSubmit c cn msg rest sv :
  sv_heap sv !! c = Some cn -> cn_todo cn = AOnSubmit msg :: rest -> sim sv (onSubmit c cn msg rest sv).
Proof.
  intros Hc Ht. unfold onSubmit. case_match.
  - eapply (sim_touch _ _ c cn); try done; unfold jobs_of; cbn.
    + eapply ls_hand; [exact Ht|]. rewrite omap_app. cbn. unfold queued at 2. rewrite pick_same. cbn.
      rewrite <- app_assoc. symmetry. apply Permutation_middle.
    + intros c' Hne. rewrite omap_app. cbn. unfold queued at 3. rewrite pick_other by done. by rewrite app_nil_r.
  - eapply (sim_touch _ _ c cn); try done. by eapply ls_full.
Qed.

(** Every step of the server simulates. *)
Lemma sim_step sha256 inst sv e sv' :
  srv_step sha256 inst sv e = Some sv' -> sim sv sv'.
Proof.
  destruct e; cbn [srv_step]; try (apply sim_on_conn; intros cn cn' Hc Hf; by econstructor).
  - intros [= <-]. apply sim_accept.
  - destruct (sv_heap sv !! c) as [cn|]; [|done]. cbn. case_match; [done|]. intros [= <-]. by apply sim_same.
  - destruct (sv_heap sv !! c) as [cn|] eqn:Hc; [|done]. cbn. destruct (cn_todo cn) as [|a rest] eqn:Ht;
      [|destruct a]; try (apply sim_on_conn; intros; by eapply ls_act).
    intros [= <-]. by apply sim_onSubmit.
  - apply sim_on_conn. intros cn cn' Hc [= <-]. apply ls_close.
  - apply sim_on_conn. intros cn cn' Hc [= <-]. apply ls_deliver_new.
  - destruct (sv_workers sv !! w) as [[|]|] eqn:Hw; try done. destruct (sv_jobs sv) as [|[c msg] jobs] eqn:Ej; [done|].
    intros [= <-]. apply sim_same; try done. intros c'. unfold jobs_of. cbn.
    destruct (workers_insert (running c') (sv_workers sv) w None (Some (c, msg, JSubmit)) Hw) as (k & H1 & H2).
    rewrite H1, H2, Ej. cbn. unfold queued at 1. destruct (pick c' (c, msg, JSubmit)); cbn; [by rewrite Permutation_middle|done].
  - destruct (sv_workers sv !! w) as [[[[c msg] [| |]]|]|] eqn:Hw; try done.
    destruct (sv_heap sv !! c) as [cn|] eqn:Hc; [|done]. cbn. intros [= <-].
    eapply (sim_worker sv _ c cn cn w msg JSubmit); try done; cbn.
    + by rewrite list_insert_id.
    + intros c' Hne. by apply pick_other.
    + intros D0 D D' H1 H2. rewrite pick_same in H2. eapply ls_submit; [exact H1| | |exact H2]; unfold submit_response; by case_match.
  - destruct (sv_workers sv !! w) as [[[[c msg] [|p|]]|]|] eqn:Hw; try done. intros H.
    apply on_conn_inv in H as (cn & cn' & Hc & Hs & ->). eapply (sim_worker sv _ c cn cn' w msg (JSend p)); try done; cbn.
    + intros c' Hne. by apply pick_other.
    + intros D0 D D' H1 H2. rewrite pick_same in H2. by eapply ls_respond.
  - destruct (sv_workers sv !! w) as [[[[c msg] [|p|]]|]|] eqn:Hw; try done. intros H.
    apply on_conn_inv in H as (cn & cn' & Hc & [= <-] & ->). eapply (sim_worker sv _ c cn _ w msg JComplete); try done; cbn.
    intros D0 D D' H1 H2. apply (ls_complete _ _ msg). by rewrite H1, H2.
Qed.
