(* ===== verification/SmppServerInv.v ===== *)
(** * What the SMPP server guarantees

    Theorems on every run of the system of SmppServer: the window, the answers,
    authentication, delivery receipts, the registry, and the limit of sessions
    per system id. *)

From S2P Require Import Prelude Unicode Codec Segment Pdu Num GoTime Submit SmppSession.
From S2P Require Import Records Store Router Dispatch SmppEnvelope SmppServer.

(** ** Runs of the server *)

(** Induction on a run, from its end. *)
Lemma srv_run_snoc sha256 inst es e sv :
  srv_run sha256 inst (es ++ [e]) sv = (sv' ← srv_run sha256 inst es sv; srv_step sha256 inst sv' e).
Proof.
  revert sv. induction es as [|x es IH]; intros sv; cbn.
  - by destruct (srv_step sha256 inst sv e).
  - destruct (srv_step sha256 inst sv x); cbn; [apply IH|done].
Qed.

Lemma srv_run_ind sha256 inst sv0 (P : nat -> Server -> Prop) :
  P 0%nat sv0 ->
  (forall n sv e sv', P n sv -> srv_step sha256 inst sv e = Some sv' -> P (S n) sv') ->
  forall es sv, srv_run sha256 inst es sv0 = Some sv -> P (length es) sv.
Proof.
  intros H0 HS es. induction es as [|e es IH] using rev_ind; intros sv.
  - by intros [= <-].
  - rewrite srv_run_snoc, length_app, Nat.add_1_r. destruct (srv_run sha256 inst es sv0) as [sv1|]; [|done]. cbn. eauto.
Qed.

(** Each connection of a server that ran [n] steps ran at most [n] steps. *)
Definition refines (cfg : SessionConfig) (n : nat) (sv : Server) : Prop :=
  session_config sv = cfg /\
  (forall c, sv_heap sv !! c = None -> jobs_of c sv = []) /\
  forall c cn, sv_heap sv !! c = Some cn ->
    exists s0 k, (k <= n)%nat /\ fresh s0 /\ s_cfg s0 = cfg /\ lreach s0 k cn (jobs_of c sv).

Lemma refines_init cfg esmes w pw : refines (session_config (NewServer cfg esmes w pw)) 0 (NewServer cfg esmes w pw).
Proof.
  split; [done|]. split; [|done]. intros c _. unfold jobs_of. cbn. by induction (Z.to_nat _).
Qed.

Lemma refines_step sha256 inst cfg n sv e sv' :
  refines cfg n sv -> srv_step sha256 inst sv e = Some sv' -> refines cfg (S n) sv'.
Proof.
  intros (Ecfg & Hnil & Hr) H. destruct (sim_step _ _ _ _ _ H) as [[E1 E2] Hold Hnew]. split_and!.
  - unfold session_config in *. by rewrite E1, E2.
  - intros c Hc. destruct (sv_heap sv !! c) as [cn|] eqn:E; [|by apply Hnew; auto].
    destruct (Hold _ _ E) as (? & ? & _). congruence.
  - intros c cn' Hc. destruct (sv_heap sv !! c) as [cn|] eqn:E.
    + destruct (Hold _ _ E) as (cn1 & Hc1 & Hl), (Hr _ _ E) as (s0 & k & Hk & Hf & Ec & Hre). simplify_eq.
      exists s0, (S k). split_and!; [lia|done|done|]. by eapply lr_step.
    + destruct (Hnew c E (Hnil c E)) as [Hj Hfr]. destruct (Hfr _ Hc) as (s0 & Hf & Ec & ->). exists s0, 0%nat. rewrite Hj.
      split_and!; [lia|done|congruence|constructor].
Qed.

Lemma run_refines sha256 inst cfg esmes w pw es sv :
  srv_run sha256 inst es (NewServer cfg esmes w pw) = Some sv ->
  refines (session_config (NewServer cfg esmes w pw)) (length es) sv.
Proof.
  apply (srv_run_ind _ _ _ (refines _)); [apply refines_init|]. intros. by eapply refines_step.
Qed.

(** C10: At any time a session has no more submissions queued or running than its
    window, its counter is the number of these plus the slots its reader
    holds, and the counter exceeds the window by at most the one request being
    refused. *)
Theorem session_window sha256 inst cfg esmes w pw es sv c cn :
  i32 (smpp_WindowSize cfg) < 2147483647 ->
  srv_run sha256 inst es (NewServer cfg esmes w pw) = Some sv -> sv_heap sv !! c = Some cn ->
  let window := window_size (session_config sv) in
  Z.of_nat (length (jobs_of c sv)) <= window /\
  s_inflight (cn_s cn) = Z.of_nat (length (jobs_of c sv) + sum_list_with share (cn_todo cn)) /\
  s_inflight (cn_s cn) <= window + 1.
Proof.
  intros Hw H Hc window. destruct (run_refines _ _ _ _ _ _ _ _ H) as (E & _ & Hr).
  destruct (Hr _ _ Hc) as (s0 & n & _ & Hf & Ec & Hre).
  assert (window = window_size (s_cfg s0)) as -> by (unfold window; by rewrite Ec, E).
  destruct (lreach_window s0 Hf n cn (jobs_of c sv)) as [Hcount Hbound Hshare _]; [|done|].
  { rewrite Ec. unfold window_size. cbn. case_match; lia. }
  rewrite (proj1 (lreach_cfg _ _ _ _ Hre)) in Hbound. split_and!; [lia|done|lia].
Qed.

(** C11: Every bind, submit_sm, enquire_link, unbind or unknown request a session
    has read is answered exactly once: the answers written, queued, dropped
    after a close, about to be sent and still owed by workers are a
    permutation of the answers owed; an open idle session has written them
    all. *)
Theorem one_answer_each sha256 inst cfg esmes w pw es sv c cn :
  srv_run sha256 inst es (NewServer cfg esmes w pw) = Some sv -> sv_heap sv !! c = Some cn ->
  (cn_in cn ≫= owed ≡ₚ answers (cn_wire cn ++ s_out (cn_s cn) ++ cn_dropped cn)
     ++ (cn_todo cn ≫= act_answer) ++ (jobs_of c sv ≫= job_answer)) /\
  (s_closed (cn_s cn) = false -> cn_dropped cn = []) /\
  (s_closed (cn_s cn) = false -> cn_todo cn = [] -> jobs_of c sv = [] -> s_out (cn_s cn) = [] ->
    cn_in cn ≫= owed ≡ₚ answers (cn_wire cn)).
Proof.
  intros H Hc. destruct (run_refines _ _ _ _ _ _ _ _ H) as (E & _ & Hr).
  destruct (Hr _ _ Hc) as (s0 & n & _ & Hf & Ec & Hre).
  destruct (lreach_answers s0 Hf n cn (jobs_of c sv)) as [Ha Ho _ _]; [by rewrite Ec|done|].
  split_and!; [done|done|]. intros Hcl Ht Hj Hout. by rewrite Ha, Ht, Hj, Hout, (Ho Hcl), !app_nil_r.
Qed.

(** *** Submissions come from authenticated ESMEs *)

Definition authenticated (esmes : list ESMECred) (cn : Conn) (systemID : string) : Prop :=
  exists p password e, p ∈ cn_in cn /\ is_bind (pdu_CommandID p) = true /\ CanSubmit (bind_mode_of (pdu_CommandID p)) = true /\
    bind_fields (pdu_Body p) = Ok (systemID, password) /\
    e ∈ esmes /\ EnabledValue e = true /\ esme_SystemID e = systemID /\ esme_Password e = password /\
    systemID <> "" /\ password <> "".

Lemma ConstantTimeEqual_true a b : ConstantTimeEqual a b = true <-> a = b /\ b <> "".
Proof. unfold ConstantTimeEqual. repeat case_bool_decide; naive_solver. Qed.

Lemma auth_true esmes id pw :
  auth esmes id pw = true <->
  exists e, e ∈ esmes /\ EnabledValue e = true /\ esme_SystemID e = id /\ esme_Password e = pw /\ id <> "" /\ pw <> "".
Proof.
  unfold auth. rewrite existsb_exists. split.
  - intros (e & Hin & H). apply andb_true_iff in H as [[He H1]%andb_true_iff H2].
    apply ConstantTimeEqual_true in H1 as [E1 Hi], H2 as [E2 Hp]. exists e. rewrite list_elem_of_In. auto 10.
  - intros (e & Hin & He & <- & <- & Hi & Hp). exists e. rewrite <- list_elem_of_In, He. split; [done|].
    apply andb_true_iff. split; by apply ConstantTimeEqual_true.
Qed.

(** A job exists only on a connection whose ESME is authenticated. *)
Lemma job_authenticated cfg n sv c cn :
  refines cfg n sv -> sv_heap sv !! c = Some cn -> jobs_of c sv <> [] ->
  authenticated (sv_esmes sv) cn (s_systemID (cn_s cn)).
Proof.
  intros (E & _ & Hr) Hc Hj. destruct (Hr _ _ Hc) as (s0 & k & _ & Hf & Ec & Hre).
  destruct (lreach_bound s0 Hf k cn (jobs_of c sv) Hre) as [Hp Hcan _ _]. specialize (Hcan Hj).
  assert (authentic cn (s_bindMode (cn_s cn)) (s_systemID (cn_s cn))) as (p & pw & Hin & Hb & Hm & Hfl & Hau).
  { unfold bind_phase in Hp. destruct (cn_todo cn) as [|[] l];
      try (destruct Hp as [_ [Hn|Hau]]; [by rewrite Hn in Hcan|done]); [|by destruct Hp as (_ & ? & _)].
    destruct l as [|[] ?]; try (destruct Hp as [Hp ?]; inversion Hp; done). destruct Hp as (_ & Hn & _). by rewrite Hn in Hcan. }
  rewrite (proj1 (lreach_cfg _ _ _ _ Hre)), Ec, <- E in Hau. cbn in Hau. apply auth_true in Hau as (e & ? & ? & ? & ? & ? & ?).
  exists p, pw, e. rewrite Hm. auto 12.
Qed.

Lemma srv_step_submitted sha256 inst sv e sv' :
  srv_step sha256 inst sv e = Some sv' ->
  sv_submitted sv' = sv_submitted sv \/
  exists w now r c msg cn, e = EvSubmit w now r /\ sv_heap sv !! c = Some cn /\ (msg, JSubmit) ∈ jobs_of c sv /\
    sv_submitted sv' = sv_submitted sv ++ [smppSubmitEnvelope sha256 inst now (s_id (cn_s cn)) (s_systemID (cn_s cn)) msg].
Proof.
  intros H. destruct e; cbn [srv_step] in H;
    try (apply on_conn_inv in H as (? & ? & _ & _ & ->); by left).
  - injection H as <-. left. unfold accept, nextSessionID, register. by destruct (_ && _).
  - destruct (sv_heap sv !! c); [|done]. cbn in H. case_match; [done|]. injection H as <-. by left.
  - left. destruct (sv_heap sv !! c) as [cn|]; [|done]. cbn in H. destruct (cn_todo cn) as [|[] ?];
      try (by apply on_conn_inv in H as (? & ? & _ & _ & ->)). injection H as <-. unfold onSubmit. by case_match.
  - destruct (sv_workers sv !! w) as [[|]|]; try done. destruct (sv_jobs sv) as [|[]]; [done|]. injection H as <-. by left.
  - destruct (sv_workers sv !! w) as [[[[c msg] [| |]]|]|] eqn:Hw; try done.
    destruct (sv_heap sv !! c) as [cn|] eqn:Hc; [|done]. cbn in H. injection H as <-. right.
    exists w, now, r, c, msg, cn. split_and!; try done. unfold jobs_of. apply elem_of_app. right.
    apply list_elem_of_omap. eexists. split; [by eapply list_elem_of_lookup_2|]. apply pick_same.
  - destruct (sv_workers sv !! w) as [[[[c msg] [|p|]]|]|]; try done. apply on_conn_inv in H as (? & ? & _ & _ & ->). by left.
  - destruct (sv_workers sv !! w) as [[[[c msg] [|p|]]|]|]; try done. apply on_conn_inv in H as (? & ? & _ & _ & ->). by left.
Qed.

Lemma heap_grows sha256 inst sv e sv' c cn :
  srv_step sha256 inst sv e = Some sv' -> sv_heap sv !! c = Some cn ->
  exists cn', sv_heap sv' !! c = Some cn' /\ s_id (cn_s cn') = s_id (cn_s cn) /\ cn_in cn `prefix_of` cn_in cn'.
Proof.
  intros H Hc. destruct (sim_old _ _ (sim_step _ _ _ _ _ H) c cn Hc) as (cn' & Hc' & Hl). exists cn'.
  by destruct (lstep_same _ _ _ _ Hl) as (_ & ? & ?).
Qed.

Definition submitted_ok (esmes : list ESMECred) (sv : Server) (env : Envelope) : Prop :=
  exists c cn, sv_heap sv !! c = Some cn /\ src_SMPPSessionID (env_Source env) = s_id (cn_s cn) /\
    authenticated esmes cn (src_SMPPSystemID (env_Source env)) /\
    src_Kind (env_Source env) = SourceSMPP /\ env_ClientID env = "smpp:" +:+ src_SMPPSystemID (env_Source env).

Lemma submitted_step sha256 inst cfg n sv e sv' :
  refines cfg n sv -> srv_step sha256 inst sv e = Some sv' ->
  Forall (submitted_ok (sv_esmes sv) sv) (sv_submitted sv) -> Forall (submitted_ok (sv_esmes sv') sv') (sv_submitted sv').
Proof.
  intros Hre H Hall. destruct (sim_cfg _ _ (sim_step _ _ _ _ _ H)) as [_ ->].
  assert (forall env, submitted_ok (sv_esmes sv) sv env -> submitted_ok (sv_esmes sv) sv' env) as Hkeep.
  { intros env (c & cn & Hc & Eid & (p & pw & e' & Hin & Hau) & Hs).
    destruct (heap_grows _ _ _ _ _ _ _ H Hc) as (cn' & Hc' & Ei & Hpre). exists c, cn'. rewrite Ei. split_and!; try done; [|apply Hs..].
    exists p, pw, e'. split; [|done]. destruct Hpre as [k ->]. apply elem_of_app. by left. }
  pose proof (Forall_impl _ _ _ Hall Hkeep) as Hall'.
  destruct (srv_step_submitted _ _ _ _ _ H) as [->|(w & now & r & c & msg & cn & -> & Hc & Hj & ->)]; [done|].
  apply Forall_app. split; [done|]. constructor; [|done]. apply Hkeep. exists c, cn. split_and!; try done.
  eapply job_authenticated; [done..|]. intros E. rewrite E in Hj. by apply not_elem_of_nil in Hj.
Qed.

(** C12: Every submission handed to the dispatcher comes from a session that bound
    with the system id it carries, in a transmitting mode, with credentials of
    an enabled account, the accounts being the same for the whole run. *)
Theorem submissions_authenticated sha256 inst cfg esmes w pw es sv env :
  srv_run sha256 inst es (NewServer cfg esmes w pw) = Some sv -> env ∈ sv_submitted sv ->
  exists c cn, sv_heap sv !! c = Some cn /\ src_SMPPSessionID (env_Source env) = s_id (cn_s cn) /\
    authenticated esmes cn (src_SMPPSystemID (env_Source env)) /\
    src_Kind (env_Source env) = SourceSMPP /\ env_ClientID env = "smpp:" +:+ src_SMPPSystemID (env_Source env).
Proof.
  intros H Henv. set (P n sv := refines (session_config (NewServer cfg esmes w pw)) n sv /\ sv_esmes sv = esmes /\
    Forall (submitted_ok (sv_esmes sv) sv) (sv_submitted sv)).
  assert (P (length es) sv) as (_ & E & Hall); [|rewrite E in Hall; by apply (proj1 (Forall_forall _ _) Hall)].
  revert H. apply srv_run_ind; [split_and!; [apply refines_init|done|constructor]|].
  intros n sv1 e sv2 (Hre & E & Hall) Hst. split_and!; [by eapply refines_step| |by eapply submitted_step].
  by rewrite (proj2 (sim_cfg _ _ (sim_step _ _ _ _ _ Hst))).
Qed.

(** *** Delivery receipts *)

(** C19: A deliver_sm call that returns a status was answered with it by the peer
    under its own sequence number, no two calls share a number, and a waiting
    call whose answer arrives returns that status within three steps. *)
Theorem deliver_answered sha256 inst cfg esmes w pw es sv c cn i d :
  Z.of_nat (length es) <= 4294967295 ->
  srv_run sha256 inst es (NewServer cfg esmes w pw) = Some sv -> sv_heap sv !! c = Some cn -> cn_calls cn !! i = Some d ->
  (forall status, dc_stage d = DOver (Some status) -> acked cn (call_seq d) status) /\
  (forall j e, cn_calls cn !! j = Some e -> call_seq e = call_seq d -> j = i) /\
  (forall p now, dc_stage d = DWait -> dc_chan d = None -> cn_serving cn = true -> cn_todo cn = [] ->
    pdu_CommandID p = commandDeliverSMResp -> pdu_SequenceID p = call_seq d ->
    exists sv' cn', srv_run sha256 inst [EvRead c now p; EvAct c true; EvDeliverStep c i true] sv = Some sv' /\
      sv_heap sv' !! c = Some cn' /\
      cn_calls cn' = <[i := mkCall (dc_pdu d) (Some (pdu_Status p)) (DOver (Some (pdu_Status p)))]> (cn_calls cn)).
Proof.
  intros Hn H Hc Hd. destruct (run_refines _ _ _ _ _ _ _ _ H) as (E & _ & Hr).
  destruct (Hr _ _ Hc) as (s0 & n & Hle & Hf & Ec & Hre).
  assert (deliver_ok n cn) as Hok by (eapply (lreach_deliver s0 Hf); [lia|done]).
  split_and!.
  - intros st Hst. apply (dl_chan _ _ Hok i d st Hd). by right.
  - intros j e He Eseq. by apply (dl_distinct _ _ Hok j i e d).
  - intros p now Hst Hch Hserv Htodo Hcmd Hseq. pose proof (lookup_lt_Some _ _ _ Hc) as Hlt.
    destruct (ack_reaches _ _ _ _ p (Some (bindAllowed sv c)) now Hok Hd Hst Hch Hserv Htodo Hcmd Hseq)
      as (c1 & c2 & c3 & H1 & H2 & H3 & H4).
    assert (exists a rest, cn_todo c1 = a :: rest /\ forall m, a <> AOnSubmit m) as (a & rest & Ha & Hno).
    { revert H1. unfold conn_read, dispatch. rewrite Hserv, Htodo, Hcmd. cbn. intros [= <-]. cbn. by eexists _, _. }
    eexists _, c3. split; [|split; [|done]].
    + cbn [srv_run srv_step]. rewrite (on_conn_Some _ _ _ _ _ Hc H1). cbn. rewrite list_lookup_insert_eq by done. cbn.
      rewrite Ha. destruct a; try (by destruct (Hno msg)).
      all: rewrite (on_conn_Some c _ _ c1 c2) by (try done; cbn; by rewrite list_lookup_insert_eq); cbn.
      all: rewrite (on_conn_Some c _ _ c2 c3) by (try done; cbn; by rewrite list_lookup_insert_eq by (by rewrite length_insert)).
      all: reflexivity.
    + cbn. by rewrite list_lookup_insert_eq by (by rewrite !length_insert).
Qed.

(** ** The registry *)

Section sizes.
Context {V : Type} (P Q : string * V -> Prop) `{!forall x, Decision (P x), !forall x, Decision (Q x)} (m m' : gmap string V).

Lemma size_filter_le_S k0 :
  (forall k v, m !! k = Some v -> P (k, v) -> k = k0 \/ m' !! k = Some v /\ Q (k, v)) ->
  (size (filter P m) <= S (size (filter Q m')))%nat.
Proof.
  intros Hpq. rewrite <- !(size_dom (D := gset string)).
  transitivity (size ({[k0]} ∪ dom (filter Q m') : gset string)).
  - apply subseteq_size. intros k Hk. apply elem_of_dom in Hk as [v Hv]. apply map_lookup_filter_Some in Hv as [Hv Hp].
    destruct (Hpq _ _ Hv Hp) as [->|[Hv' Hq]]; [set_solver|]. apply elem_of_union_r, elem_of_dom. exists v.
    by apply map_lookup_filter_Some.
  - rewrite size_union_alt, size_singleton. apply le_n_S, subseteq_size. set_solver.
Qed.

Lemma size_filter_le :
  (forall k v, m !! k = Some v -> P (k, v) -> m' !! k = Some v /\ Q (k, v)) -> (size (filter P m) <= size (filter Q m'))%nat.
Proof.
  intros Hpq. rewrite <- !(size_dom (D := gset string)).
  apply subseteq_size. intros k Hk. apply elem_of_dom in Hk as [v Hv]. apply map_lookup_filter_Some in Hv as [Hv Hp].
  destruct (Hpq _ _ Hv Hp) as [Hv' Hq]. apply elem_of_dom. exists v. by apply map_lookup_filter_Some.
Qed.
End sizes.

(** Ids are numbers handed out once; an entry of the registry is the object with
    that id; the registry is within its limit. *)
Record registry_ok (n : nat) (sv : Server) : Prop := mk_registry_ok {
  rg_cap : 0 < smpp_MaxSessions (sv_cfg sv) -> Z.of_nat (size (sv_sessions sv)) <= smpp_MaxSessions (sv_cfg sv);
  rg_next : 0 <= sv_nextID sv <= Z.of_nat n;
  rg_ids : forall c cn, sv_heap sv !! c = Some cn -> exists k, 0 < k <= sv_nextID sv /\ s_id (cn_s cn) = session_id k;
  rg_distinct : forall c c' cn cn', sv_heap sv !! c = Some cn -> sv_heap sv !! c' = Some cn' ->
    s_id (cn_s cn) = s_id (cn_s cn') -> c = c';
  rg_map : forall id c, sv_sessions sv !! id = Some c -> exists cn, sv_heap sv !! c = Some cn /\ s_id (cn_s cn) = id }.

Lemma session_id_inj k l : 0 <= k <= maxUint64 -> 0 <= l <= maxUint64 -> session_id k = session_id l -> k = l.
Proof. intros Hk Hl E. injection E as E. by apply (FormatUint_inj 10) in E. Qed.

Lemma session_id_nonempty k : session_id k <> "".
Proof. done. Qed.

Lemma registry_init cfg esmes w pw : registry_ok 0 (NewServer cfg esmes w pw).
Proof. split; cbn; try done. rewrite map_size_empty. lia. Qed.

(** Steps that leave the registry and the ids alone. *)
Lemma registry_frame n sv sv' :
  registry_ok n sv -> sv_cfg sv' = sv_cfg sv -> (sv_sessions sv' ⊆ sv_sessions sv) -> sv_nextID sv' = sv_nextID sv ->
  (forall c cn', sv_heap sv' !! c = Some cn' -> exists cn, sv_heap sv !! c = Some cn /\ s_id (cn_s cn') = s_id (cn_s cn)) ->
  (forall c cn, sv_heap sv !! c = Some cn -> exists cn', sv_heap sv' !! c = Some cn' /\ s_id (cn_s cn') = s_id (cn_s cn)) ->
  registry_ok (S n) sv'.
Proof.
  intros [Hc Hn Hi Hd Hm] E1 E2 E3 Hold Hnew. split; rewrite ?E1, ?E3.
  - intros Hp. specialize (Hc Hp). apply map_subseteq_size in E2. lia.
  - lia.
  - intros c cn' Hc'. destruct (Hold _ _ Hc') as (cn & H & ->). eauto.
  - intros c c' cn cn' H1 H2 E. destruct (Hold _ _ H1) as (a & Ha & Ea), (Hold _ _ H2) as (b & Hb & Eb).
    eapply Hd; [done|done|congruence].
  - intros id c H. eapply lookup_weaken in H; [|exact E2]. destruct (Hm _ _ H) as (cn & Hcn & <-). eauto.
Qed.

Lemma registry_accept n now remote sv :
  Z.of_nat n < maxUint64 -> registry_ok n sv -> registry_ok (S n) (accept now remote sv).
Proof.
  intros Hlt [Hc Hn Hi Hd Hm]. unfold accept, nextSessionID, register.
  assert (u64 (sv_nextID sv + 1) = sv_nextID sv + 1) as -> by (unfold u64, maxUint64 in *; rewrite Z.mod_small; lia).
  set (k := sv_nextID sv + 1). cbn.
  assert (forall c cn, sv_heap sv !! c = Some cn -> s_id (cn_s cn) <> session_id k) as Hfresh.
  { intros c cn H E. destruct (Hi _ _ H) as (l & Hl & E'). rewrite E' in E. apply session_id_inj in E; lia. }
  assert (forall c cn, sv_heap sv !! c = Some cn -> exists k', 0 < k' <= k /\ s_id (cn_s cn) = session_id k') as Hi'.
  { intros c cn H. destruct (Hi _ _ H) as (l & Hl & E'). exists l. split; [lia|done]. }
  destruct (_ && _) eqn:Ecap; [split; cbn; try done; lia|].
  split; cbn.
  - intros Hp. specialize (Hc Hp). apply andb_false_iff in Ecap as [Ecap|Ecap]; [lia|].
    rewrite map_size_insert. destruct (sv_sessions sv !! _); cbn; lia.
  - lia.
  - intros c cn H. apply lookup_app_Some in H as [H|[_ H]]; [eauto|].
    apply list_lookup_singleton_Some in H as [_ <-]. exists k. split; [lia|done].
  - intros c c' cn cn' H1 H2 E.
    apply lookup_app_Some in H1 as [H1|[L1 H1]], H2 as [H2|[L2 H2]]; [by eapply Hd| | |].
    + apply list_lookup_singleton_Some in H2 as [_ <-]. cbn in E. by apply Hfresh in H1.
    + apply list_lookup_singleton_Some in H1 as [_ <-]. cbn in E. symmetry in E. by apply Hfresh in H2.
    + apply list_lookup_singleton_Some in H1 as [E1 _], H2 as [E2 _]. lia.
  - intros id c H. apply lookup_insert_Some in H as [[<- <-]|[_ H]].
    + eexists. rewrite lookup_app_r, Nat.sub_diag by lia. by split.
    + destruct (Hm _ _ H) as (cn & Hcn & E). exists cn. by rewrite (lookup_app_l_Some _ _ _ _ Hcn).
Qed.

(** The steps other than [EvAccept]: the registry can only lose entries. *)
Lemma srv_step_registry sha256 inst sv e sv' :
  srv_step sha256 inst sv e = Some sv' -> (forall now remote, e <> EvAccept now remote) ->
  sv_nextID sv' = sv_nextID sv /\ sv_sessions sv' ⊆ sv_sessions sv /\ length (sv_heap sv') = length (sv_heap sv).
Proof.
  intros H Hne. destruct e; cbn [srv_step] in H;
    try (apply on_conn_inv in H as (? & ? & _ & _ & ->); cbn; by rewrite length_insert).
  - by destruct (Hne now remote).
  - destruct (sv_heap sv !! c) as [cn|]; [|done]. cbn in H. case_match; [done|]. injection H as <-. cbn.
    split_and!; [done|apply delete_subseteq|done].
  - destruct (sv_heap sv !! c) as [cn|]; [|done]. cbn in H. destruct (cn_todo cn) as [|[] ?];
      try (apply on_conn_inv in H as (? & ? & _ & _ & ->); cbn; by rewrite length_insert).
    injection H as <-. unfold onSubmit. case_match; cbn; by rewrite length_insert.
  - destruct (sv_workers sv !! w) as [[|]|]; try done. destruct (sv_jobs sv) as [|[]]; [done|]. by injection H as <-.
  - destruct (sv_workers sv !! w) as [[[[c msg] [| |]]|]|]; try done.
    destruct (sv_heap sv !! c) as [cn|]; [|done]. cbn in H. by injection H as <-.
  - destruct (sv_workers sv !! w) as [[[[c msg] [|p|]]|]|]; try done. apply on_conn_inv in H as (? & ? & _ & _ & ->).
    cbn. by rewrite length_insert.
  - destruct (sv_workers sv !! w) as [[[[c msg] [|p|]]|]|]; try done. apply on_conn_inv in H as (? & ? & _ & _ & ->).
    cbn. by rewrite length_insert.
Qed.

Lemma heap_back sha256 inst sv e sv' c cn' :
  srv_step sha256 inst sv e = Some sv' -> (forall now remote, e <> EvAccept now remote) -> sv_heap sv' !! c = Some cn' ->
  exists cn, sv_heap sv !! c = Some cn /\ s_id (cn_s cn') = s_id (cn_s cn) /\ lstep cn (jobs_of c sv) cn' (jobs_of c sv').
Proof.
  intros H Hne Hc. destruct (srv_step_registry _ _ _ _ _ H Hne) as (_ & _ & Hlen).
  destruct (lookup_lt_is_Some_2 (sv_heap sv) c) as [cn Hcn].
  { rewrite <- Hlen. by eapply lookup_lt_Some. }
  destruct (sim_old _ _ (sim_step _ _ _ _ _ H) c cn Hcn) as (cn1 & Hc1 & Hl). simplify_eq. exists cn.
  by destruct (lstep_same _ _ _ _ Hl) as (_ & ? & _).
Qed.

Lemma accept_or_not e : (exists now remote, e = EvAccept now remote) \/ (forall now remote, e <> EvAccept now remote).
Proof. destruct e; eauto; right; done. Qed.

Lemma registry_step sha256 inst n sv e sv' :
  Z.of_nat n < maxUint64 -> registry_ok n sv -> srv_step sha256 inst sv e = Some sv' -> registry_ok (S n) sv'.
Proof.
  intros Hn Hok H. destruct (accept_or_not e) as [(now & remote & ->)|Hne].
  - injection H as <-. by apply registry_accept.
  - destruct (srv_step_registry _ _ _ _ _ H Hne) as (E1 & E2 & _). apply (registry_frame n sv); try done.
    + apply (sim_cfg _ _ (sim_step _ _ _ _ _ H)).
    + intros c cn' Hc. destruct (heap_back _ _ _ _ _ _ _ H Hne Hc) as (cn & ? & ? & _). eauto.
    + intros c cn Hc. destruct (heap_grows _ _ _ _ _ _ _ H Hc) as (cn' & ? & ? & _). eauto.
Qed.

Lemma run_registry sha256 inst cfg esmes w pw es sv :
  Z.of_nat (length es) <= maxUint64 ->
  srv_run sha256 inst es (NewServer cfg esmes w pw) = Some sv -> registry_ok (length es) sv /\ sv_cfg sv = cfg.
Proof.
  intros Hle H. revert Hle. revert H.
  apply (srv_run_ind _ _ _ (fun n sv => Z.of_nat n <= maxUint64 -> registry_ok n sv /\ sv_cfg sv = cfg)).
  - intros _. split; [apply registry_init|done].
  - intros n sv1 e sv2 IH Hst Hn. destruct IH as [IH1 IH2]; [lia|]. split; [eapply registry_step; [|done..]; lia|].
    by rewrite (proj1 (sim_cfg _ _ (sim_step _ _ _ _ _ Hst))).
Qed.

(** The number of registered sessions stays within the limit, ids are unique, a
    lookup by id gives the session of that id, and ReceiversBySystemID gives
    exactly the registered sessions bound under the system id that can
    receive. *)
Theorem registry_sound sha256 inst cfg esmes w pw es sv :
  Z.of_nat (length es) <= maxUint64 -> srv_run sha256 inst es (NewServer cfg esmes w pw) = Some sv ->
  (0 < smpp_MaxSessions cfg -> Z.of_nat (size (sv_sessions sv)) <= smpp_MaxSessions cfg) /\
  (forall id cn, LookupSession sv id = Some cn -> s_id (cn_s cn) = id) /\
  (forall c c' cn cn', sv_heap sv !! c = Some cn -> sv_heap sv !! c' = Some cn' ->
    s_id (cn_s cn) = s_id (cn_s cn') -> c = c') /\
  (forall systemID cn, cn ∈ ReceiversBySystemID sv systemID <->
    LookupSession sv (s_id (cn_s cn)) = Some cn /\ s_systemID (cn_s cn) = systemID /\
    CanReceive (s_bindMode (cn_s cn)) = true).
Proof.
  intros Hle H. destruct (run_registry _ _ _ _ _ _ _ _ Hle H) as [[Hc Hn Hi Hd Hm] E]. rewrite E in Hc.
  split_and!; [done| |done|].
  - intros id cn Hl. unfold LookupSession in Hl. destruct (sv_sessions sv !! id) as [c|] eqn:Es; [|done]. cbn in Hl.
    destruct (Hm _ _ Es) as (cn' & Hcn & E'). congruence.
  - intros systemID cn. unfold ReceiversBySystemID, LookupSession. rewrite list_elem_of_filter, list_elem_of_omap. split.
    + intros ((Hs & Hr) & [id c] & Hin & Hcn). apply elem_of_map_to_list in Hin. cbn in Hcn.
      destruct (Hm _ _ Hin) as (cn' & Hcn' & <-). simplify_eq. rewrite Hin. auto.
    + intros (Hl & Hs & Hr). split; [done|]. destruct (sv_sessions sv !! s_id (cn_s cn)) as [c|] eqn:Es; [|done].
      exists (s_id (cn_s cn), c). split; [by apply elem_of_map_to_list|done].
Qed.

(** ** Sessions per system id *)

(** The system id a connection has, or is about to store. *)
Definition eff (cn : Conn) : string :=
  foldl (fun id a => match a with AStoreSystemID id' => id' | _ => id end) (s_systemID (cn_s cn)) (cn_todo cn).

Definition binds (sv : Server) (systemID : string) (kv : string * nat) : Prop :=
  match sv_heap sv !! kv.2 with Some cn => eff cn = systemID | None => False end.

#[export] Instance binds_dec sv systemID kv : Decision (binds sv systemID kv).
Proof. unfold binds. destruct (sv_heap sv !! kv.2); apply _. Defined.

Definition bind_count (sv : Server) (systemID : string) : nat := size (filter (binds sv systemID) (sv_sessions sv)).

(** No other connection is between the check and the store of a bind. *)
Definition serial (sv : Server) (e : sevent) : bool :=
  match e with
  | EvRead c _ p =>
    negb (is_bind (pdu_CommandID p)) ||
    forallb id (imap (fun c' cn => bool_decide (c' = c) || bool_decide (eff cn = s_systemID (cn_s cn))) (sv_heap sv))
  | _ => true
  end.

Fixpoint all_serial sha256 inst (es : list sevent) (sv : Server) : bool :=
  match es with
  | [] => true
  | e :: es => serial sv e && match srv_step sha256 inst sv e with Some sv' => all_serial sha256 inst es sv' | None => true end
  end.

Lemma serial_read sv c now p :
  serial sv (EvRead c now p) = true -> is_bind (pdu_CommandID p) = true ->
  forall c' cn, c' <> c -> sv_heap sv !! c' = Some cn -> eff cn = s_systemID (cn_s cn).
Proof.
  cbn. intros H Hb c' cn Hne Hc. rewrite Hb in H. cbn in H. rewrite forallb_forall in H.
  specialize (H (bool_decide (c' = c) || bool_decide (eff cn = s_systemID (cn_s cn)))).
  rewrite bool_decide_false in H by done. cbn in H. apply (proj1 (bool_decide_eq_true _)). apply H, list_elem_of_In.
  apply (list_elem_of_lookup_2 _ c'). rewrite list_lookup_imap, Hc. cbn. by rewrite bool_decide_false.
Qed.

Definition keeps_eff (f : Conn -> option Conn) : Prop := forall cn cn', f cn = Some cn' -> eff cn' = eff cn.

Lemma keeps_eff_same f :
  (forall cn cn', f cn = Some cn' -> cn_todo cn' = cn_todo cn /\ s_systemID (cn_s cn') = s_systemID (cn_s cn)) -> keeps_eff f.
Proof. intros H cn cn' Hf. destruct (H _ _ Hf) as [E1 E2]. unfold eff. by rewrite E1, E2. Qed.

Lemma on_conn_eff c0 f sv sv' c cn cn' :
  keeps_eff f -> on_conn c0 f sv = Some sv' -> sv_heap sv !! c = Some cn -> sv_heap sv' !! c = Some cn' -> eff cn' = eff cn.
Proof.
  intros Hf H Hc Hc'. apply on_conn_inv in H as (a & b & Ha & Hab & ->). cbn in Hc'. destruct (decide (c0 = c)) as [->|Hne].
  - rewrite list_lookup_insert_eq in Hc' by (by eapply lookup_lt_Some). simplify_eq. by apply Hf.
  - rewrite list_lookup_insert_ne in Hc' by done. by simplify_eq.
Qed.

Lemma reader_act_eff room : keeps_eff (reader_act room).
Proof.
  intros cn cn' H. unfold reader_act in H. unfold eff at 2. destruct (cn_todo cn) as [|a rest] eqn:E; [done|].
  destruct a; try (by injection H as <-); try done.
  - open_op H; done.
  - injection H as <-. unfold completeDeliverResp. by case_match.
Qed.

(** Only reading a bind changes the system id a connection has or is about to have. *)
Lemma eff_step sha256 inst sv e sv' c cn cn' :
  srv_step sha256 inst sv e = Some sv' -> (forall c now p, e <> EvRead c now p) ->
  sv_heap sv !! c = Some cn -> sv_heap sv' !! c = Some cn' -> eff cn' = eff cn.
Proof.
  intros H Hne Hc Hc'.
  assert (forall c0 f, on_conn c0 f sv = Some sv' ->
    (forall cn cn', f cn = Some cn' -> cn_todo cn' = cn_todo cn /\ s_systemID (cn_s cn') = s_systemID (cn_s cn)) -> eff cn' = eff cn) as Hon.
  { intros c0 f Hf Hs. eapply on_conn_eff; [by apply keeps_eff_same|done..]. }
  destruct e; cbn [srv_step] in H;
    try (eapply Hon; [exact H|]; intros a b Hf; cbn beta in Hf; by open_op Hf).
  - injection H as <-. revert Hc'. unfold accept, nextSessionID, register. destruct (_ && _); cbn; [congruence|].
    rewrite (lookup_app_l_Some _ _ _ _ Hc). congruence.
  - by destruct (Hne c0 now p).
  - destruct (sv_heap sv !! c0) as [x|]; [|done]. cbn in H. case_match; [done|]. injection H as <-. cbn in Hc'. congruence.
  - destruct (sv_heap sv !! c0) as [x|] eqn:Hx; [|done]. cbn in H. destruct (cn_todo x) as [|[] rest] eqn:Et;
      try (by eapply on_conn_eff; [apply reader_act_eff|done..]).
    injection H as <-. unfold onSubmit in Hc'. destruct (decide (c0 = c)) as [->|Hd]; simplify_eq.
    + assert (length (sv_heap sv) > c)%nat as Hlt by (by eapply lookup_lt_Some).
      unfold eff. rewrite Et. case_match; cbn in Hc'; rewrite list_lookup_insert_eq in Hc' by done; by injection Hc' as <-.
    + case_match; cbn in Hc'; rewrite list_lookup_insert_ne in Hc' by done; congruence.
  - eapply Hon; [exact H|]. by intros a b [= <-].
  - eapply Hon; [exact H|]. by intros a b [= <-].
  - destruct (sv_workers sv !! w) as [[|]|]; try done. destruct (sv_jobs sv) as [|[]]; [done|]. injection H as <-.
    cbn in Hc'. congruence.
  - destruct (sv_workers sv !! w) as [[[[a msg] [| |]]|]|]; try done. destruct (sv_heap sv !! a); [|done].
    cbn in H. injection H as <-. cbn in Hc'. congruence.
  - destruct (sv_workers sv !! w) as [[[[a msg] [|p|]]|]|]; try done.
    eapply (on_conn_eff _ _ _ _ c cn cn'); [|exact H|done|done]. apply keeps_eff_same. intros x y Hf. by open_op Hf.
  - destruct (sv_workers sv !! w) as [[[[a msg] [|p|]]|]|]; try done.
    eapply (on_conn_eff _ _ _ _ c cn cn'); [|exact H|done|done]. apply keeps_eff_same. by intros x y [= <-].
Qed.

(** What reading a PDU does to it: a successful bind passed [bindAllowed]. *)
Lemma eff_read allowed now p cn cn' :
  conn_read (Some allowed) now p cn = Some cn' ->
  eff cn = s_systemID (cn_s cn) /\
  (eff cn' = eff cn \/ is_bind (pdu_CommandID p) = true /\ allowed (eff cn') = true).
Proof.
  intros H. unfold conn_read in H. destruct (cn_serving cn); [|done]. cbn in H. case_bool_decide as Et; [|done].
  unfold eff at 1 3. rewrite Et. split; [done|]. unfold dispatch in H.
  destruct (is_bind (pdu_CommandID p)).
  - injection H as <-. unfold handleBind, eff. cbn. destruct (bind_fields _) as [[id pw]|]; [|by left].
    destruct (Z.eqb_spec (bind_status (Some allowed) id pw (s_set_lastSeen now (cn_s cn))) statusOK) as [Est|]; [|by left].
    right. split; [done|]. assert (allowed id = true) as Hal.
    { revert Est. unfold bind_status. case_bool_decide; [|done]. cbn. destruct (cfg_Auth _) as [au|]; [destruct (au id pw); [|done]|].
      all: by destruct (allowed id). }
    by destruct (_ && _).
  - left. revert H. unfold handleSubmit, add_inflight. repeat case_match; simplify_eq; by intros [= <-].
Qed.

Lemma binds_key n sv k c cn :
  registry_ok n sv -> sv_sessions sv !! k = Some c -> sv_heap sv !! c = Some cn -> k = s_id (cn_s cn).
Proof. intros Hok Hk Hc. destruct (rg_map _ _ Hok _ _ Hk) as (cn' & Hc' & <-). by simplify_eq. Qed.

(** A bind that was allowed leaves the system id within the limit. *)
Lemma bind_count_read n sv sv' c cn cn' systemID limit :
  registry_ok n sv -> 0 < limit -> smpp_MaxSessionsPerSystemID (sv_cfg sv) = limit ->
  sv_heap sv !! c = Some cn -> sv_sessions sv' = sv_sessions sv -> sv_heap sv' = <[c := cn']> (sv_heap sv) ->
  (forall c' x, c' <> c -> sv_heap sv !! c' = Some x -> eff x = s_systemID (cn_s x)) ->
  eff cn' = systemID -> bindAllowed sv c systemID = true -> Z.of_nat (bind_count sv' systemID) <= limit.
Proof.
  intros Hok Hpos El Hc Es Eh Hser Hid Hal. unfold bindAllowed in Hal. rewrite El in Hal.
  destruct (Z.leb_spec limit 0); [lia|]. apply Z.ltb_lt in Hal. unfold bind_count. rewrite Es.
  match type of Hal with Z.of_nat (size (filter ?Q _)) < _ =>
    enough (size (filter (binds sv' systemID) (sv_sessions sv)) <= S (size (filter Q (sv_sessions sv))))%nat by lia end.
  apply (size_filter_le_S _ _ _ _ (s_id (cn_s cn))). intros k c' Hk Hb. cbn. destruct (decide (c' = c)) as [->|Hne].
  - left. by eapply binds_key.
  - right. split; [done|]. split; [done|]. unfold binds in Hb. cbn in Hb. rewrite Eh, list_lookup_insert_ne in Hb by done.
    unfold has_system. destruct (sv_heap sv !! c') as [x|] eqn:Hx; [|done]. rewrite <- (Hser c' x) by done.
    by apply bool_decide_eq_true.
Qed.

(** Steps after which no connection has newly taken the id. *)
Lemma bind_count_mono sv sv' systemID :
  sv_sessions sv' ⊆ sv_sessions sv ->
  (forall c cn', sv_heap sv' !! c = Some cn' -> eff cn' = systemID -> exists cn, sv_heap sv !! c = Some cn /\ eff cn = systemID) ->
  (bind_count sv' systemID <= bind_count sv systemID)%nat.
Proof.
  intros Hs Hh. unfold bind_count. apply size_filter_le. intros k c Hk Hb. split; [by eapply lookup_weaken|].
  unfold binds in *. cbn in *. destruct (sv_heap sv' !! c) as [cn'|] eqn:E; [|done]. by destruct (Hh _ _ E Hb) as (cn & -> & ?).
Qed.

Lemma bind_count_accept now remote sv systemID :
  systemID <> "" -> (forall id c, sv_sessions sv !! id = Some c -> (c < length (sv_heap sv))%nat) ->
  (bind_count (accept now remote sv) systemID <= bind_count sv systemID)%nat.
Proof.
  intros Hid Hm. unfold accept, nextSessionID, register. destruct (_ && _); [done|]. unfold bind_count. cbn.
  apply size_filter_le. intros k c Hk Hb. apply lookup_insert_Some in Hk as [[_ <-]|[_ Hk]].
  - unfold binds in Hb. cbn in Hb. rewrite lookup_app_r, Nat.sub_diag in Hb by lia. cbn in Hb. congruence.
  - split; [done|]. unfold binds in *. cbn in *. by rewrite lookup_app_l in Hb by eauto.
Qed.

Lemma bind_limit_step sha256 inst n sv e sv' limit :
  registry_ok n sv -> serial sv e = true -> 0 < limit -> smpp_MaxSessionsPerSystemID (sv_cfg sv) = limit ->
  srv_step sha256 inst sv e = Some sv' ->
  (forall id, id <> "" -> Z.of_nat (bind_count sv id) <= limit) -> forall id, id <> "" -> Z.of_nat (bind_count sv' id) <= limit.
Proof.
  intros Hok Hser Hpos El H IH id Hid. specialize (IH id Hid).
  destruct (accept_or_not e) as [(now & remote & ->)|Hna].
  { injection H as <-. transitivity (Z.of_nat (bind_count sv id)); [|done]. apply inj_le, bind_count_accept; [done|].
    intros k c Hk. destruct (rg_map _ _ Hok _ _ Hk) as (cn & Hcn & _). by eapply lookup_lt_Some. }
  destruct (srv_step_registry _ _ _ _ _ H Hna) as (_ & Hsub & _).
  assert ((exists c now p, e = EvRead c now p) \/ forall c now p, e <> EvRead c now p) as [(c & now & p & ->)|Hnr]
    by (clear; destruct e; eauto 10).
  - cbn [srv_step] in H. apply on_conn_inv in H as (cn & cn' & Hc & Hr & ->). apply eff_read in Hr as [Heff Hr].
    destruct (decide (eff cn' = id)) as [Ei|Ei].
    + destruct Hr as [Er|[Hb Hal]].
      * transitivity (Z.of_nat (bind_count sv id)); [|done]. apply inj_le, bind_count_mono; [done|]. cbn. intros c' x Hx Ex.
        apply list_lookup_insert_Some in Hx as [(<- & <- & _)|[_ Hx]]; [exists cn|exists x]; split; congruence.
      * eapply (bind_count_read n sv _ c cn cn'); try done; [by eapply serial_read|congruence].
    + transitivity (Z.of_nat (bind_count sv id)); [|done]. apply inj_le, bind_count_mono; [done|]. cbn. intros c' x Hx Ex.
      apply list_lookup_insert_Some in Hx as [(<- & <- & _)|[_ Hx]]; [done|exists x]; split; congruence.
  - transitivity (Z.of_nat (bind_count sv id)); [|done]. apply inj_le, bind_count_mono; [done|]. intros c cn' Hc' Ei.
    destruct (heap_back _ _ _ _ _ _ _ H Hna Hc') as (cn & Hc & _ & _). exists cn. split; [done|].
    by rewrite <- (eff_step _ _ _ _ _ _ _ _ H Hnr Hc Hc').
Qed.

Lemma bind_limit_run sha256 inst limit es : forall n sv sv',
  Z.of_nat (n + length es) <= maxUint64 -> registry_ok n sv -> 0 < limit -> smpp_MaxSessionsPerSystemID (sv_cfg sv) = limit ->
  all_serial sha256 inst es sv = true -> srv_run sha256 inst es sv = Some sv' ->
  (forall id, id <> "" -> Z.of_nat (bind_count sv id) <= limit) -> forall id, id <> "" -> Z.of_nat (bind_count sv' id) <= limit.
Proof.
  induction es as [|e es IH]; intros n sv sv' Hn Hok Hpos El Hser H Hb; cbn in H; [by injection H as <-|].
  cbn in Hser. apply andb_true_iff in Hser as [Hs Hser]. destruct (srv_step sha256 inst sv e) as [sv1|] eqn:E; [|done]. cbn in H, Hn.
  apply (IH (S n) sv1); try done; [lia| | |].
  - eapply registry_step; [|done..]. lia.
  - by rewrite (proj1 (sim_cfg _ _ (sim_step _ _ _ _ _ E))).
  - by eapply bind_limit_step.
Qed.

(** Registered sessions bound under a system id. *)
Definition bound_sessions (sv : Server) (systemID : string) : nat :=
  size (filter (fun kv => has_system sv systemID kv.2 = true) (sv_sessions sv)).

(** When binds for one system id do not overlap, the sessions bound under it
    stay within the limit per system id. *)
Theorem bind_limit_serial sha256 inst cfg esmes w pw es sv systemID :
  Z.of_nat (length es) <= maxUint64 -> 0 < smpp_MaxSessionsPerSystemID cfg ->
  all_serial sha256 inst es (NewServer cfg esmes w pw) = true ->
  srv_run sha256 inst es (NewServer cfg esmes w pw) = Some sv -> systemID <> "" ->
  Z.of_nat (bind_count sv systemID) <= smpp_MaxSessionsPerSystemID cfg /\
  ((forall c cn, sv_heap sv !! c = Some cn -> cn_todo cn = []) ->
    Z.of_nat (bound_sessions sv systemID) <= smpp_MaxSessionsPerSystemID cfg).
Proof.
  intros Hn Hpos Hser H Hid.
  assert (Z.of_nat (bind_count sv systemID) <= smpp_MaxSessionsPerSystemID cfg) as Hb.
  { apply (bind_limit_run sha256 inst _ es 0 (NewServer cfg esmes w pw) sv); try done; [apply registry_init|].
    intros id _. unfold bind_count. cbn. rewrite map_filter_empty, map_size_empty. lia. }
  split; [done|]. intros Hidle. transitivity (Z.of_nat (bind_count sv systemID)); [|done]. apply inj_le, size_filter_le.
  intros k c Hk Hh. split; [done|]. unfold has_system in Hh. unfold binds. cbn in *.
  destruct (sv_heap sv !! c) as [cn|] eqn:Hc; [|done]. apply bool_decide_eq_true in Hh. unfold eff. by rewrite (Hidle _ _ Hc).
Qed.

(** ** Examples of runs *)

Definition ex_cfg (perSystem : Z) : SMPPConfig := mkSMPPConfig "gw" 10 perSystem 2 None.
Definition ex_esmes : list ESMECred := [mkESMECred "alice" "secret" None].
Definition ex_bind (cmd seq : Z) : PDU := pdu cmd 0 seq (CString "alice" ++ CString "secret" ++ CString "" ++ [52; 0; 0; 0]).
Definition ex_sha (bs : list Z) : list Z := replicate 32 (Z.of_nat (length bs) mod 256).
Definition ex_submit (seq : Z) : PDU :=
  pdu commandSubmitSM 0 seq (CString "" ++ [0; 0] ++ CString "111" ++ [0; 0] ++ CString "222" ++ [0; 0; 0] ++ CString ""
    ++ CString "" ++ [1; 0; 0; 0; 2; 104; 105]).
Definition ex_init (perSystem : Z) : Server := NewServer (ex_cfg perSystem) ex_esmes 1 1.

(** The actions of one reader, in a row. *)
Definition ex_acts (c n : nat) : list sevent := replicate n (EvAct c true).

(** Two overlapping binds for one system id both succeed although the limit per
    system id is one. *)
Theorem bind_limit_race : exists es sv,
  srv_run ex_sha [] es (ex_init 1) = Some sv /\ smpp_MaxSessionsPerSystemID (sv_cfg sv) = 1 /\
  bound_sessions sv "alice" = 2%nat /\ length (ReceiversBySystemID sv "alice") = 2%nat.
Proof.
  exists [EvAccept 1 "a"; EvAccept 1 "b"; EvRead 0 2 (ex_bind commandBindTransceiver 1);
    EvRead 1 2 (ex_bind commandBindTransceiver 1); EvAct 0 true; EvAct 0 true; EvAct 1 true; EvAct 1 true].
  eexists. split; [vm_compute; reflexivity|]. vm_compute. auto.
Qed.

(** A bind and one submission, answered. *)
Definition ex_run : list sevent :=
  [EvAccept 1 "a"; EvRead 0 2 (ex_bind commandBindTransceiver 1)] ++ ex_acts 0 4
  ++ [EvWrite 0 true; EvRead 0 3 (ex_submit 7); EvAct 0 true; EvTake 0;
      EvSubmit 0 0 (Ok (mkReceipt "m0000001" "" "" "" "")); EvRespond 0 true; EvWrite 0 true;
      EvDeliver 0 (mkDLRParams "m0000001" "222" "111" 0 0 "DELIVRD" 0 "hi");
      EvDeliverStep 0 0 true; EvDeliverStep 0 0 true; EvWrite 0 true; EvTick 0 4].

Definition ex_state : Server := default (ex_init 1) (srv_run ex_sha [] ex_run (ex_init 1)).
Definition ex_conn : Conn := default (NewConn (NewSession "" "" (session_config (ex_init 1)) 0)) (sv_heap ex_state !! 0%nat).

Lemma ex_run_ok : srv_run ex_sha [] ex_run (ex_init 1) = Some ex_state.
Proof. vm_compute. reflexivity. Qed.

Lemma ex_conn_ok : sv_heap ex_state !! 0%nat = Some ex_conn.
Proof. vm_compute. reflexivity. Qed.

(** ** Witnesses *)

Lemma session_window_witness :
  jobs_of 0 ex_state <> [] /\
  Z.of_nat (length (jobs_of 0 ex_state)) <= window_size (session_config ex_state) /\
  s_inflight (cn_s ex_conn) <= window_size (session_config ex_state) + 1.
Proof.
  destruct (session_window ex_sha [] (ex_cfg 1) ex_esmes 1 1 ex_run ex_state 0 ex_conn) as (H1 & _ & H2).
  - vm_compute. reflexivity.
  - vm_compute. reflexivity.
  - vm_compute. reflexivity.
  - split; [vm_compute; discriminate|]. split; assumption.
Defined.

Lemma one_answer_each_witness :
  cn_in ex_conn ≫= owed = [(commandBindTransceiverResp, 1); (commandSubmitSMResp, 7)] /\
  (s_closed (cn_s ex_conn) = false -> cn_dropped ex_conn = []).
Proof.
  split; [vm_compute; reflexivity|].
  apply (one_answer_each ex_sha [] (ex_cfg 1) ex_esmes 1 1 ex_run ex_state 0 ex_conn); vm_compute; reflexivity.
Defined.

Lemma submissions_authenticated_witness : exists env, env ∈ sv_submitted ex_state /\
  exists c cn, sv_heap ex_state !! c = Some cn /\ src_SMPPSessionID (env_Source env) = s_id (cn_s cn) /\
    authenticated ex_esmes cn (src_SMPPSystemID (env_Source env)).
Proof.
  assert (exists env, sv_submitted ex_state !! 0%nat = Some env) as [env Henv] by (vm_compute; eauto).
  exists env. split; [by apply (list_elem_of_lookup_2 _ 0)|].
  destruct (submissions_authenticated ex_sha [] (ex_cfg 1) ex_esmes 1 1 ex_run ex_state env) as (c & cn & H1 & H2 & H3 & _).
  - vm_compute. reflexivity.
  - by apply (list_elem_of_lookup_2 _ 0).
  - exists c, cn. auto.
Defined.

Definition ex_call : dcall := default (mkCall (pdu 0 0 0 []) None DNew) (cn_calls ex_conn !! 0%nat).

Lemma deliver_answered_witness : exists sv' cn',
  srv_run ex_sha [] [EvRead 0 9 (pdu commandDeliverSMResp 0 1 []); EvAct 0 true; EvDeliverStep 0 0 true] ex_state = Some sv' /\
  sv_heap sv' !! 0%nat = Some cn' /\ (dc_stage <$> cn_calls cn') = [DOver (Some 0)].
Proof.
  destruct (deliver_answered ex_sha [] (ex_cfg 1) ex_esmes 1 1 ex_run ex_state 0 ex_conn 0 ex_call) as (_ & _ & H);
    [vm_compute; discriminate|vm_compute; reflexivity..|].
  destruct (H (pdu commandDeliverSMResp 0 1 []) 9) as (sv' & cn' & H1 & H2 & H3); [vm_compute; reflexivity..|].
  exists sv', cn'. split; [exact H1|]. split; [exact H2|]. rewrite H3. vm_compute. reflexivity.
Defined.

Lemma registry_sound_witness :
  Z.of_nat (size (sv_sessions ex_state)) <= 10 /\ LookupSession ex_state "s1" = Some ex_conn /\
  ex_conn ∈ ReceiversBySystemID ex_state "alice".
Proof.
  destruct (registry_sound ex_sha [] (ex_cfg 1) ex_esmes 1 1 ex_run ex_state) as (H1 & H2 & _ & H4);
    [vm_compute; discriminate|vm_compute; reflexivity|].
  split; [apply H1; vm_compute; reflexivity|]. split; [vm_compute; reflexivity|].
  apply H4. split; [vm_compute; reflexivity|]. split; vm_compute; reflexivity.
Defined.

(** Two binds, the second after the first is stored. *)
Definition ex_serial : list sevent :=
  [EvAccept 1 "a"; EvAccept 1 "b"; EvRead 0 2 (ex_bind commandBindTransceiver 1)] ++ ex_acts 0 4
  ++ [EvRead 1 2 (ex_bind commandBindTransceiver 1)] ++ ex_acts 1 1.

Lemma bind_limit_serial_witness : exists sv,
  srv_run ex_sha [] ex_serial (ex_init 1) = Some sv /\ Z.of_nat (bound_sessions sv "alice") <= 1 /\
  bound_sessions sv "alice" = 1%nat.
Proof.
  destruct (srv_run ex_sha [] ex_serial (ex_init 1)) as [sv|] eqn:E; [|vm_compute in E; discriminate E].
  exists sv. split; [reflexivity|].
  assert (forall c cn, sv_heap sv !! c = Some cn -> cn_todo cn = []) as Hidle.
  { vm_compute in E. injection E as <-. intros [|[|c]] cn Hc; vm_compute in Hc; [injection Hc as <-; reflexivity..|discriminate Hc]. }
  assert (bound_sessions sv "alice" = 1%nat) as H1 by (vm_compute in E; injection E as <-; vm_compute; reflexivity).
  split; [|exact H1].
  apply (bind_limit_serial ex_sha [] (ex_cfg 1) ex_esmes 1 1 ex_serial sv "alice").
  - vm_compute. discriminate.
  - vm_compute. reflexivity.
  - vm_compute. reflexivity.
  - exact E.
  - discriminate.
  - exact Hidle.
Defined.
