(* ===== verification/FilterAC.v ===== *)
(** * The keyword automaton: internal/filter/ahocorasick.go

    A trie of the keywords with failure links, built breadth first, and the
    scan of a text. The order in which Go ranges over a map is a parameter. *)

From S2P Require Import Prelude Unicode.

Record pattern := mkPattern {
  pt_text : string;
  pt_rule : nat }.

#[export] Instance pattern_eq_dec : EqDecision pattern.
Proof. solve_decision. Defined.

Record acNode := mkNode {
  nd_next : gmap Z nat;
  nd_fail : nat;
  nd_out : list pattern }.

Record acMatch := mkMatch {
  am_Rule : nat;
  am_Start : nat;
  am_End : nat;
  am_Text : string }.

#[export] Instance acMatch_eq_dec : EqDecision acMatch.
Proof. solve_decision. Defined.

Definition newNode : acNode := mkNode ∅ 0 [].

Definition next_of (nodes : list acNode) (i : nat) (r : Z) : option nat := nodes !! i ≫= fun nd => nd_next nd !! r.
Definition fail_of (nodes : list acNode) (i : nat) : nat := match nodes !! i with Some nd => nd_fail nd | None => 0%nat end.
Definition out_of (nodes : list acNode) (i : nat) : list pattern := match nodes !! i with Some nd => nd_out nd | None => [] end.

Definition add_next (r : Z) (j : nat) (nd : acNode) : acNode := mkNode (<[r := j]> (nd_next nd)) (nd_fail nd) (nd_out nd).
Definition set_fail (j : nat) (nd : acNode) : acNode := mkNode (nd_next nd) j (nd_out nd).
Definition add_out (ps : list pattern) (nd : acNode) : acNode := mkNode (nd_next nd) (nd_fail nd) (nd_out nd ++ ps).

(** The trie: the loop over the runes of a keyword, and over the keywords. *)
Fixpoint ac_insert (rs : list Z) (node : nat) (nodes : list acNode) : list acNode * nat :=
  match rs with
  | [] => (nodes, node)
  | r :: rs =>
    match next_of nodes node r with
    | Some next => ac_insert rs next nodes
    | None =>
      let next := length nodes in
      ac_insert rs next (alter (add_next r next) node (nodes ++ [newNode]))
    end
  end.

Definition add_pattern (nodes : list acNode) (p : pattern) : list acNode :=
  if bool_decide (pt_text p = "") then nodes
  else let '(nodes, node) := ac_insert (runes (pt_text p)) 0 nodes in alter (add_out [p]) node nodes.

Definition build_trie (patterns : list pattern) : list acNode := foldl add_pattern [newNode] patterns.

(** The inner loop that looks for a failure target; [None] when the fuel runs out. *)
Fixpoint fail_search (fuel : nat) (nodes : list acNode) (r : Z) (f : nat) : option nat :=
  if (f =? 0)%nat then Some 0%nat
  else
    match fuel with
    | O => None
    | S fuel =>
      match next_of nodes f r with
      | Some next => Some next
      | None => fail_search fuel nodes r (fail_of nodes f)
      end
    end.

Definition relink (nodes : list acNode) (f : nat) (r : Z) (u : nat) : list acNode :=
  match next_of nodes f r with
  | Some next => if (next =? u)%nat then nodes else alter (set_fail next) u nodes
  | None => nodes
  end.

(** The body of the loop over the children [(r, u)] of [v]. *)
Definition link_child (v : nat) (nodes : list acNode) (r : Z) (u : nat) : option (list acNode) :=
  f ← fail_search (length nodes) nodes r (fail_of nodes v);
  let nodes := relink nodes f r u in
  Some (alter (add_out (out_of nodes (fail_of nodes u))) u nodes).

Fixpoint link_children (v : nat) (children : list (Z * nat)) (nodes : list acNode) : option (list acNode) :=
  match children with
  | [] => Some nodes
  | (r, u) :: children => nodes ← link_child v nodes r u; link_children v children nodes
  end.

Definition next_map (nodes : list acNode) (i : nat) : gmap Z nat := match nodes !! i with Some nd => nd_next nd | None => ∅ end.

Section automaton.
(** [range m.nodes[v].next]: each node's map is ranged over once. *)
Context (ord : nat -> gmap Z nat -> list (Z * nat)).

(** The queue: what is before [head] is dropped. *)
Fixpoint ac_bfs (fuel : nat) (queue : list nat) (nodes : list acNode) : option (list acNode) :=
  match queue with
  | [] => Some nodes
  | v :: queue =>
    match fuel with
    | O => None
    | S fuel =>
      let children := ord v (next_map nodes v) in
      nodes ← link_children v children nodes;
      ac_bfs fuel (queue ++ children.*2) nodes
    end
  end.

Definition buildAC (patterns : list pattern) : option (list acNode) :=
  let nodes := build_trie patterns in
  ac_bfs (length nodes) (ord 0%nat (next_map nodes 0%nat)).*2 nodes.
End automaton.

(** ** The scan *)

(** The runes a [range] loop yields and the bytes each takes. *)
Fixpoint range_widths (l : list Z) : list (Z * nat) :=
  match l with
  | [] => []
  | b0 :: t =>
    if b0 <? 128 then (b0, 1%nat) :: range_widths t
    else match t with
    | [] => (RuneError, 1%nat) :: range_widths t
    | b1 :: t1 =>
      if utf8_ok2 b0 b1 then ((b0 - 192) * 64 + (b1 - 128), 2%nat) :: range_widths t1
      else match t1 with
      | [] => (RuneError, 1%nat) :: range_widths t
      | b2 :: t2 =>
        if utf8_ok3 b0 b1 b2
        then ((b0 - 224) * 4096 + (b1 - 128) * 64 + (b2 - 128), 3%nat) :: range_widths t2
        else match t2 with
        | [] => (RuneError, 1%nat) :: range_widths t
        | b3 :: t3 =>
          if utf8_ok4 b0 b1 b2 b3
          then ((b0 - 240) * 262144 + (b1 - 128) * 4096 + (b2 - 128) * 64 + (b3 - 128), 4%nat) :: range_widths t3
          else (RuneError, 1%nat) :: range_widths t
        end
      end
    end
  end.

(** Running sums: where each element starts, and the end. *)
Fixpoint offsets_from (o : nat) (ws : list nat) : list nat :=
  match ws with [] => [o] | w :: ws => o :: offsets_from (o + w) ws end.

Definition byteEnds (text : string) : list nat := offsets_from 0 (range_widths (bytes_of_string text)).*2.

Definition runeLen (text : string) : nat := length (runes text).

Fixpoint find_node (fuel : nat) (nodes : list acNode) (r : Z) (node : nat) : option nat :=
  if (node =? 0)%nat then Some 0%nat
  else
    match next_of nodes node r with
    | Some _ => Some node
    | None => match fuel with O => None | S fuel => find_node fuel nodes r (fail_of nodes node) end
    end.

Definition ac_step (nodes : list acNode) (node : nat) (r : Z) : option nat :=
  node ← find_node (length nodes) nodes r node;
  Some (default node (next_of nodes node r)).

(** The matches that end at rune [runeIndex]; [offs] is [byteEnds]. *)
Definition match_at (offs : list nat) (runeIndex : nat) (p : pattern) : option acMatch :=
  if (runeIndex + 1 <? runeLen (pt_text p))%nat then None
  else
    let startRune := (runeIndex + 1 - runeLen (pt_text p))%nat in
    Some (mkMatch (pt_rule p) (nth startRune offs 0%nat) (nth (runeIndex + 1) offs 0%nat) (pt_text p)).

Fixpoint find_loop (nodes : list acNode) (offs : list nat) (rs : list Z) (runeIndex node : nat) : option (list acMatch) :=
  match rs with
  | [] => Some []
  | r :: rs =>
    node ← ac_step nodes node r;
    ms ← find_loop nodes offs rs (S runeIndex) node;
    Some (omap (match_at offs runeIndex) (out_of nodes node) ++ ms)
  end.

Definition Find (nodes : list acNode) (text : string) : option (list acMatch) :=
  if (length nodes =? 0)%nat then Some [] else find_loop nodes (byteEnds text) (runes text) 0 0.
