(* ===== verification/FilterTrie.v ===== *)
(** * The trie and its failure links

    Each node of the trie stands for a prefix of a keyword, its label. The
    failure links the code computes decrease a measure of labels, so every loop
    over them ends. *)

From S2P Require Import Prelude Unicode FilterAC.

(** ** Labels *)

Record trie_ok (nodes : list acNode) (L : list (list Z)) : Prop := mk_trie_ok {
  tr_len : length L = length nodes;
  tr_root : L !! 0%nat = Some [];
  tr_nodup : NoDup L;
  tr_next : forall i r j, next_of nodes i r = Some j -> exists l, L !! i = Some l /\ L !! j = Some (l ++ [r]);
  tr_parent : forall j l r, L !! j = Some (l ++ [r]) -> exists i, L !! i = Some l /\ next_of nodes i r = Some j }.

Lemma label_inj nodes L i j l : trie_ok nodes L -> L !! i = Some l -> L !! j = Some l -> i = j.
Proof. intros Ht Hi Hj. by eapply NoDup_lookup; [apply (tr_nodup _ _ Ht)|..]. Qed.

(** A node has an [r]-child exactly when the longer label exists. *)
Lemma next_label nodes L i j l r :
  trie_ok nodes L -> L !! i = Some l -> next_of nodes i r = Some j <-> L !! j = Some (l ++ [r]).
Proof.
  intros Ht Hi. split.
  - intros H. destruct (tr_next _ _ Ht _ _ _ H) as (l' & Hi' & Hj). by simplify_eq.
  - intros Hj. destruct (tr_parent _ _ Ht _ _ _ Hj) as (i' & Hi' & H). by rewrite (label_inj _ _ _ _ _ Ht Hi Hi').
Qed.

Lemma label_root nodes L i : trie_ok nodes L -> L !! i = Some [] <-> i = 0%nat.
Proof.
  intros Ht. split; [|intros ->; apply (tr_root _ _ Ht)]. intros Hi. eapply label_inj; [done|done|apply (tr_root _ _ Ht)].
Qed.

Lemma next_of_alter nodes f i k r :
  (forall nd, nodes !! i = Some nd -> nd_next (f nd) = nd_next nd) -> next_of (alter f i nodes) k r = next_of nodes k r.
Proof.
  intros Hf. unfold next_of. destruct (decide (i = k)) as [<-|Hne]; [|by rewrite list_lookup_alter_ne].
  rewrite list_lookup_alter_eq. destruct (nodes !! i) as [nd|] eqn:E; [|done]. cbn. by rewrite Hf.
Qed.

Lemma next_of_snoc nodes i r : (i < length nodes)%nat -> next_of (nodes ++ [newNode]) i r = next_of nodes i r.
Proof. intros. unfold next_of. by rewrite lookup_app_l. Qed.

(** Changing only failure links and outputs keeps the labels. *)
Lemma trie_ok_same nodes nodes' L :
  trie_ok nodes L -> length nodes' = length nodes -> (forall i r, next_of nodes' i r = next_of nodes i r) -> trie_ok nodes' L.
Proof.
  intros [H1 H2 H3 H4 H5] E Hn. split; try done; [congruence| |]; intros *; setoid_rewrite Hn; eauto.
Qed.

(** A new child. *)
Lemma trie_ok_new nodes L i l r :
  trie_ok nodes L -> L !! i = Some l -> next_of nodes i r = None ->
  trie_ok (alter (add_next r (length nodes)) i (nodes ++ [newNode])) (L ++ [l ++ [r]]).
Proof.
  intros Ht Hi Hnone. pose proof Ht as [H1 H2 H3 H4 H5].
  assert (i < length nodes)%nat as Hlt by (rewrite <- H1; by eapply lookup_lt_Some).
  assert (forall k s, (k < length nodes)%nat -> (k = i -> s <> r) ->
    next_of (alter (add_next r (length nodes)) i (nodes ++ [newNode])) k s = next_of nodes k s) as Hold.
  { intros k s Hk Hs. unfold next_of. destruct (decide (i = k)) as [<-|Hne].
    - rewrite list_lookup_alter_eq, lookup_app_l by done. destruct (nodes !! i) as [nd|]; [|done]. cbn.
      by rewrite lookup_insert_ne by (intros ->; by apply Hs).
    - by rewrite list_lookup_alter_ne, lookup_app_l. }
  assert (next_of (alter (add_next r (length nodes)) i (nodes ++ [newNode])) i r = Some (length nodes)) as Hnew.
  { unfold next_of. rewrite list_lookup_alter_eq, lookup_app_l by done.
    destruct (lookup_lt_is_Some_2 nodes i Hlt) as [nd ->]. cbn. by rewrite lookup_insert_eq. }
  assert (forall s, next_of (alter (add_next r (length nodes)) i (nodes ++ [newNode])) (length nodes) s = None) as Hempty.
  { intros s. unfold next_of. rewrite list_lookup_alter_ne by lia. by rewrite lookup_app_r, Nat.sub_diag by lia. }
  assert (l ++ [r] ∉ L) as Hfresh.
  { intros Hin. apply list_elem_of_lookup_1 in Hin as [j Hj]. apply (next_label _ _ i j l r Ht Hi) in Hj. congruence. }
  split.
  - rewrite length_alter, !length_app, H1. done.
  - by apply lookup_app_l_Some.
  - apply NoDup_app. split_and!; [done| |apply NoDup_singleton]. intros x Hx ->%list_elem_of_singleton. done.
  - intros k s j H. destruct (decide (k < length nodes)%nat) as [Hk|Hk].
    + destruct (decide (k = i /\ s = r)) as [[-> ->]|Hne].
      * rewrite Hnew in H. injection H as <-. exists l. rewrite <- H1.
        split; [by apply lookup_app_l_Some|]. by rewrite lookup_app_r, Nat.sub_diag by lia.
      * rewrite Hold in H by (try done; naive_solver). destruct (H4 _ _ _ H) as (lk & Hlk & Hj). exists lk.
        split; by apply lookup_app_l_Some.
    + destruct (decide (k = length nodes)) as [->|]; [by rewrite Hempty in H|].
      unfold next_of in H. rewrite lookup_ge_None_2 in H; [done|]. rewrite length_alter, length_app. cbn. lia.
  - intros j lj s Hj. apply lookup_app_Some in Hj as [Hj|[Hge Hj]].
    + destruct (H5 _ _ _ Hj) as (k & Hk & Hn). exists k. split; [by apply lookup_app_l_Some|].
      rewrite Hold; [done|rewrite <- H1; by eapply lookup_lt_Some|]. intros -> ->. congruence.
    + apply list_lookup_singleton_Some in Hj as [Ej E]. apply app_inj_tail in E as [-> ->]. exists i.
      split; [by apply lookup_app_l_Some|]. rewrite Hnew. f_equal. lia.
Qed.

(** What the nodes keep beside the trie: here, while it grows. *)
Definition plain_nodes (nodes : list acNode) : Prop := forall i, fail_of nodes i = 0%nat.

Lemma insert_spec rs : forall node nodes L l nodes' node',
  trie_ok nodes L -> L !! node = Some l -> ac_insert rs node nodes = (nodes', node') ->
  exists M, trie_ok nodes' (L ++ M) /\ (L ++ M) !! node' = Some (l ++ rs) /\
    (forall x, x ∈ M -> exists k, k <> [] /\ k `prefix_of` rs /\ x = l ++ k) /\
    (forall k, k `prefix_of` rs -> l ++ k ∈ L ++ M) /\
    (forall i, fail_of nodes' i = fail_of nodes i) /\ (forall i, out_of nodes' i = out_of nodes i).
Proof.
  induction rs as [|r rs IH]; intros node nodes L l nodes' node' Ht Hl H; cbn in H.
  { injection H as <- <-. exists []. rewrite !app_nil_r. split_and!; try done.
    - intros x Hx. by apply not_elem_of_nil in Hx.
    - intros k Hk. apply prefix_nil_inv in Hk as ->. rewrite app_nil_r. by eapply list_elem_of_lookup_2. }
  destruct (next_of nodes node r) as [n|] eqn:En.
  - apply (next_label _ _ _ _ _ _ Ht Hl) in En as Hn. destruct (IH _ _ _ _ _ _ Ht Hn H) as (M & H1 & H2 & H3 & H4 & H5 & H6).
    exists M. rewrite <- app_assoc in H2. split_and!; try done.
    + intros x Hx. destruct (H3 x Hx) as (k & Hk & Hp & ->). exists (r :: k). rewrite <- app_assoc. split_and!; try done.
      by apply prefix_cons.
    + intros k Hk. destruct k as [|s k].
      * rewrite app_nil_r. apply elem_of_app. left. by eapply list_elem_of_lookup_2.
      * apply prefix_cons_inv_1 in Hk as Es. apply prefix_cons_inv_2 in Hk as Hk'. subst s.
        specialize (H4 k Hk'). by rewrite <- app_assoc in H4.
  - pose proof (trie_ok_new _ _ _ _ r Ht Hl En) as Ht'.
    assert ((L ++ [l ++ [r]]) !! length nodes = Some (l ++ [r])) as Hn.
    { rewrite <- (tr_len _ _ Ht). by rewrite lookup_app_r, Nat.sub_diag by lia. }
    destruct (IH _ _ _ _ _ _ Ht' Hn H) as (M & H1 & H2 & H3 & H4 & H5 & H6). exists ((l ++ [r]) :: M).
    assert (forall K, (L ++ [l ++ [r]]) ++ K = L ++ (l ++ [r]) :: K) as EK by (intros; by rewrite <- app_assoc).
    rewrite EK in H1, H2. rewrite EK in H4. rewrite <- app_assoc in H2.
    assert (forall i nd, nodes !! i = Some nd -> (nodes ++ [newNode]) !! i = Some nd) as Hsn
      by (intros; by apply lookup_app_l_Some).
    split_and!; try done.
    + intros x Hx. apply elem_of_cons in Hx as [->|Hx].
      * exists [r]. split_and!; [done|by apply prefix_cons, prefix_nil|done].
      * destruct (H3 x Hx) as (k & Hk & Hp & ->). exists (r :: k). rewrite <- app_assoc. split_and!; try done. by apply prefix_cons.
    + intros k Hk. destruct k as [|s k].
      * rewrite app_nil_r. apply elem_of_app. left. by eapply list_elem_of_lookup_2.
      * apply prefix_cons_inv_1 in Hk as Es. apply prefix_cons_inv_2 in Hk as Hk'. subst s.
        specialize (H4 k Hk'). by rewrite <- (app_assoc l) in H4.
    + intros i. rewrite H5. unfold fail_of. destruct (decide (node = i)) as [<-|Hne].
      * rewrite list_lookup_alter_eq. rewrite lookup_app_l by (rewrite <- (tr_len _ _ Ht); by eapply lookup_lt_Some).
        by destruct (nodes !! node).
      * rewrite list_lookup_alter_ne by done. rewrite lookup_app. destruct (nodes !! i) eqn:Ei; [done|].
        by destruct (i - length nodes)%nat as [|[|]].
    + intros i. rewrite H6. unfold out_of. destruct (decide (node = i)) as [<-|Hne].
      * rewrite list_lookup_alter_eq. rewrite lookup_app_l by (rewrite <- (tr_len _ _ Ht); by eapply lookup_lt_Some).
        by destruct (nodes !! node).
      * rewrite list_lookup_alter_ne by done. rewrite lookup_app. destruct (nodes !! i) eqn:Ei; [done|].
        by destruct (i - length nodes)%nat as [|[|]].
Qed.

(** The keywords a node stands for itself. *)
Definition own (ps : list pattern) (l : list Z) : list pattern :=
  filter (fun p => pt_text p <> "" /\ runes (pt_text p) = l) ps.

Definition is_label (ps : list pattern) (l : list Z) : Prop :=
  l = [] \/ exists p, p ∈ ps /\ pt_text p <> "" /\ l `prefix_of` runes (pt_text p).

Record built (ps : list pattern) (nodes : list acNode) (L : list (list Z)) : Prop := mk_built {
  bt_trie : trie_ok nodes L;
  bt_labels : forall l, l ∈ L <-> is_label ps l;
  bt_own : forall i l, L !! i = Some l -> out_of nodes i = own ps l;
  bt_fail : forall i, fail_of nodes i = 0%nat }.

Lemma out_of_add nodes i k qs :
  out_of (alter (add_out qs) i nodes) k = out_of nodes k ++ (if bool_decide (i = k /\ is_Some (nodes !! i)) then qs else []).
Proof.
  unfold out_of. destruct (decide (i = k)) as [<-|Hne].
  - rewrite list_lookup_alter_eq. destruct (nodes !! i); cbn; [by rewrite bool_decide_true by eauto|].
    by rewrite bool_decide_false by (by intros [_ [? ?]]).
  - rewrite list_lookup_alter_ne, bool_decide_false by naive_solver. by rewrite app_nil_r.
Qed.

Lemma fail_of_add nodes i k qs : fail_of (alter (add_out qs) i nodes) k = fail_of nodes k.
Proof.
  unfold fail_of. destruct (decide (i = k)) as [<-|Hne]; [|by rewrite list_lookup_alter_ne].
  rewrite list_lookup_alter_eq. by destruct (nodes !! i).
Qed.

Lemma is_label_snoc ps p l :
  is_label (ps ++ [p]) l <-> is_label ps l \/ (pt_text p <> "" /\ l `prefix_of` runes (pt_text p)).
Proof.
  unfold is_label. setoid_rewrite elem_of_app. setoid_rewrite list_elem_of_singleton. split.
  - intros [->|(q & [Hq| ->] & Hne & Hp)]; [auto| |auto]. left. right. eauto.
  - intros [[->|(q & Hq & Hne & Hp)]|[Hne Hp]]; [auto|right; eauto 10|right; eauto 10].
Qed.

Lemma build_trie_built ps : exists L, built ps (build_trie ps) L.
Proof.
  induction ps as [|p ps [L [Ht Hlab Hown Hfail]]] using rev_ind.
  { exists [[]]. split; cbn.
    - split; try done; [apply NoDup_singleton| |].
      + intros i r j. unfold next_of. by destruct i as [|[|]].
      + intros [|[|]] l r; cbn; try done. intros [= E]. by destruct l.
    - intros l. rewrite list_elem_of_singleton. unfold is_label. split; [by left|]. intros [|(p & Hp & _)]; [done|].
      by apply not_elem_of_nil in Hp.
    - by intros [|[|]] l.
    - by intros [|[|]]. }
  unfold build_trie. rewrite foldl_snoc. fold (build_trie ps). unfold add_pattern. case_bool_decide as Hempty.
  { exists L. split; try done.
    - intros l. rewrite is_label_snoc, Hlab. split; [auto|]. intros [|[]]; done.
    - intros i l Hi. unfold own. rewrite filter_app, (filter_cons_False _ p) by (intros []; done). cbn. rewrite app_nil_r.
      by apply Hown. }
  destruct (ac_insert (runes (pt_text p)) 0 (build_trie ps)) as [nodes' node'] eqn:E.
  destruct (insert_spec _ _ _ _ _ _ _ Ht (tr_root _ _ Ht) E) as (M & H1 & H2 & H3 & H4 & H5 & H6). cbn in *.
  exists (L ++ M). split.
  - apply (trie_ok_same nodes'); [done|by rewrite length_alter|]. intros i r. by apply next_of_alter.
  - intros l. rewrite is_label_snoc, elem_of_app, Hlab. split.
    + intros [Hl|Hl]; [by left|right]. destruct (H3 l Hl) as (k & _ & Hp & ->). auto.
    + intros [Hl|[_ Hp]]; [by left|]. specialize (H4 l Hp). cbn in H4. apply elem_of_app in H4 as [H4|H4]; [left; by apply Hlab|auto].
  - intros i l Hi. rewrite out_of_add, H6. unfold own. rewrite filter_app.
    assert (out_of (build_trie ps) i = own ps l) as Ho.
    { apply lookup_app_Some in Hi as [Hi|[Hge Hi]]; [by apply Hown|].
      unfold out_of. rewrite lookup_ge_None_2 by (by rewrite <- (tr_len _ _ Ht)). symmetry. unfold own.
      destruct (filter _ ps) as [|q qs] eqn:Eq; [done|exfalso].
      assert (q ∈ filter (fun q => pt_text q <> "" /\ runes (pt_text q) = l) ps) as Hq by (rewrite Eq; constructor).
      apply list_elem_of_filter in Hq as [[Hne <-] Hq].
      assert (runes (pt_text q) ∈ L) as HinL by (apply Hlab; right; eauto).
      pose proof (tr_nodup _ _ H1) as Hnd. apply NoDup_app in Hnd as (_ & Hdis & _).
      apply (Hdis _ HinL). by eapply list_elem_of_lookup_2. }
    rewrite Ho. fold (own ps l). f_equal.
    assert (is_Some (nodes' !! node')) as Hsome.
    { apply lookup_lt_is_Some_2. rewrite <- (tr_len _ _ H1). by eapply lookup_lt_Some. }
    destruct (decide (node' = i)) as [->|Hne].
    + rewrite bool_decide_true by done. rewrite Hi in H2. injection H2 as ->. by rewrite filter_cons_True by done.
    + rewrite bool_decide_false by naive_solver. rewrite filter_cons_False; [done|]. intros [_ El]. destruct Hne.
      rewrite <- El in Hi. by apply (label_inj _ _ _ _ _ H1 H2).
  - intros i. by rewrite fail_of_add, H5.
Qed.

(** ** A measure of labels

    A failure target of the code need not be a suffix: on the way each rune may
    be doubled. But it has no more runs of equal runes, and as many only with a
    shorter first run. *)

Definition mu_step (m : nat * nat * option Z) (r : Z) : nat * nat * option Z :=
  let '(runs, first, last) := m in
  let runs := if bool_decide (last = Some r) then runs else S runs in
  (runs, if (runs =? 1)%nat then S first else first, Some r).

Definition mu (l : list Z) : nat * nat * option Z := foldl mu_step (0%nat, 0%nat, None) l.

Definition runs (l : list Z) : nat := (mu l).1.1.
Definition first_run (l : list Z) : nat := (mu l).1.2.

Definition below (a b : list Z) : Prop := (runs a < runs b)%nat \/ runs a = runs b /\ (first_run a < first_run b)%nat.

#[export] Instance below_dec a b : Decision (below a b).
Proof. unfold below. apply _. Defined.

Lemma below_trans a b c : below a b -> below b c -> below a c.
Proof. unfold below. lia. Qed.

Lemma below_irrefl a : ~ below a a.
Proof. unfold below. lia. Qed.

Lemma mu_last l : (mu l).2 = last l.
Proof.
  induction l as [|r l IH] using rev_ind; [done|]. unfold mu in *. rewrite foldl_snoc, last_snoc.
  by destruct (foldl mu_step _ l) as [[a b] c].
Qed.

Lemma runs_snoc l r : runs (l ++ [r]) = if bool_decide (last l = Some r) then runs l else S (runs l).
Proof. rewrite <- mu_last. unfold runs, mu. rewrite foldl_snoc. by destruct (foldl mu_step _ l) as [[a b] c]. Qed.

Lemma first_snoc l r : first_run (l ++ [r]) = if (runs (l ++ [r]) =? 1)%nat then S (first_run l) else first_run l.
Proof. unfold first_run, runs, mu. rewrite foldl_snoc. by destruct (foldl mu_step _ l) as [[a b] c]. Qed.

Lemma runs_pos l : l <> [] -> (1 <= runs l)%nat.
Proof.
  destruct l as [|r l] using rev_ind; [done|]. intros _. rewrite runs_snoc. case_bool_decide as E; [|lia].
  clear -E. revert r E. induction l as [|s l IH] using rev_ind; intros r E; [done|]. rewrite last_snoc in E. injection E as ->.
  rewrite runs_snoc. case_bool_decide as E; [by eapply IH|lia].
Qed.

(** One run: the label repeats its last rune. *)
Lemma one_run l r : runs l = 1%nat -> last l = Some r -> l = replicate (first_run l) r.
Proof.
  revert r. induction l as [|s l IH] using rev_ind; intros r Hr Hl; [done|]. rewrite last_snoc in Hl. injection Hl as ->.
  rewrite first_snoc, Hr, Nat.eqb_refl, replicate_S_end.
  rewrite runs_snoc in Hr. case_bool_decide as E.
  - by rewrite <- (IH r Hr E).
  - destruct (decide (l = [])) as [->|Hl]; [done|]. pose proof (runs_pos l Hl). lia.
Qed.

Lemma below_root l r : l <> [] -> below [r] (l ++ [r]).
Proof.
  intros Hl. pose proof (runs_pos l Hl) as Hp. unfold below. rewrite first_snoc, runs_snoc.
  assert (runs [r] = 1%nat /\ first_run [r] = 1%nat) as [-> ->] by done.
  case_bool_decide as E; [|left; lia]. destruct (decide (runs l = 1%nat)) as [E1|]; [|left; lia].
  right. rewrite E1, Nat.eqb_refl. pose proof (one_run l r E1 E) as El. destruct (first_run l); [by rewrite El in Hl|lia].
Qed.

(** The step of the construction: [f] is a failure target of [v]. *)
Lemma below_link f v r :
  f <> [] -> last f = last v -> below f v -> f ++ [r; r] <> v ++ [r] -> below (f ++ [r; r]) (v ++ [r]).
Proof.
  intros Hf Hlast Hb Hne. pose proof (runs_pos f Hf) as Hp.
  change [r; r] with ([r] ++ [r]) in *. rewrite app_assoc in *.
  assert (runs ((f ++ [r]) ++ [r]) = runs (f ++ [r])) as E1 by (rewrite runs_snoc, last_snoc; by rewrite bool_decide_true).
  unfold below in *. rewrite E1, !first_snoc, E1, !runs_snoc, <- Hlast. case_bool_decide as E.
  - destruct Hb as [Hb|[Hb1 Hb2]]; [by left|]. right. split; [done|]. rewrite <- Hb1.
    destruct (Nat.eqb_spec (runs f) 1) as [Ef|Ef]; [|done]. assert (S (first_run f) <> first_run v)%nat; [|lia]. intros Ev.
    apply Hne. rewrite (one_run f r Ef E), (one_run v r) by congruence. rewrite <- Ev.
    by rewrite <- !replicate_S_end.
  - assert (forall n, (1 <= n)%nat -> (S n =? 1)%nat = false) as En by (intros n Hn; apply Nat.eqb_neq; lia).
    rewrite !En by (destruct Hb as [Hb|[Hb _]]; lia). lia.
Qed.

(** ** Every search along the links ends *)

Definition links_ok (nodes : list acNode) (L : list (list Z)) : Prop := forall u, fail_of nodes u <> 0%nat ->
  exists lu lf, L !! u = Some lu /\ L !! fail_of nodes u = Some lf /\ lf <> [] /\ last lf = last lu /\ below lf lu.

Definition rank (L : list (list Z)) (l : list Z) : nat := length (filter (fun x => below x l) L).

Lemma length_filter_mono {A} (P Q : A -> Prop) `{!forall x, Decision (P x), !forall x, Decision (Q x)} (l : list A) x :
  (forall y, P y -> Q y) -> x ∈ l -> Q x -> ~ P x -> (length (filter P l) < length (filter Q l))%nat.
Proof.
  intros HPQ Hx HQ HP. induction l as [|y l IH]; [by apply not_elem_of_nil in Hx|].
  assert (forall k, (length (filter P k) <= length (filter Q k))%nat) as Hle.
  { induction k as [|z k IHk]; [done|]. rewrite !filter_cons. repeat case_decide; cbn; [lia|naive_solver|lia|lia]. }
  rewrite !filter_cons. apply elem_of_cons in Hx as [->|Hx].
  - rewrite decide_False, decide_True by done. cbn. specialize (Hle l). lia.
  - specialize (IH Hx). repeat case_decide; cbn; [lia|naive_solver|lia|lia].
Qed.

Lemma rank_below L a b : a ∈ L -> below a b -> (rank L a < rank L b)%nat.
Proof.
  intros Ha Hb. apply (length_filter_mono _ _ _ a); [|done|done|apply below_irrefl]. intros y Hy. by eapply below_trans.
Qed.

Lemma rank_bound L a : a ∈ L -> (rank L a < length L)%nat.
Proof. intros Ha. by apply (length_filter_lt _ _ a), below_irrefl. Qed.

Lemma fail_search_ends nodes L r : trie_ok nodes L -> links_ok nodes L -> forall fuel f lf,
  L !! f = Some lf -> (rank L lf < fuel)%nat ->
  exists g, fail_search fuel nodes r f = Some g /\
    (g = 0%nat \/ exists lk, lk <> [] /\ (lk = lf \/ below lk lf) /\ last lk = last lf /\ L !! g = Some (lk ++ [r])).
Proof.
  intros Ht Hl fuel. induction fuel as [|fuel IH]; intros f lf Hf Hr; [lia|]. cbn.
  destruct (Nat.eqb_spec f 0) as [->|Hf0]; [by exists 0%nat; auto|].
  assert (lf <> []) as Hne by (intros ->; by apply (label_root _ _ _ Ht) in Hf).
  destruct (next_of nodes f r) as [n|] eqn:En.
  - exists n. split; [done|]. right. exists lf. split_and!; auto. by apply (next_label _ _ _ _ _ _ Ht Hf).
  - destruct (decide (fail_of nodes f = 0%nat)) as [E|E].
    { rewrite E. exists 0%nat. split; [by destruct fuel|by left]. }
    destruct (Hl f E) as (lu & lg & Hu & Hg & Hgne & Hlast & Hb). rewrite Hf in Hu. injection Hu as <-.
    assert (rank L lg < rank L lf)%nat by (apply rank_below; [by eapply list_elem_of_lookup_2|done]).
    destruct (IH _ _ Hg) as (g & Hs & Hg'); [lia|]. exists g. split; [done|].
    destruct Hg' as [->|(lk & Hk & Hor & Hlk & Hgl)]; [by left|right]. exists lk. split_and!; [done| |congruence|done].
    right. destruct Hor as [->|Hor]; [done|by eapply below_trans].
Qed.

Lemma below_nil l : l <> [] -> below [] l.
Proof. intros Hl. left. pose proof (runs_pos l Hl). unfold runs in *. cbn. lia. Qed.

Lemma find_node_ends nodes L r : trie_ok nodes L -> links_ok nodes L -> forall fuel node l,
  L !! node = Some l -> (rank L l <= fuel)%nat ->
  exists g lg, find_node fuel nodes r node = Some g /\ L !! g = Some lg /\ (g = 0%nat \/ is_Some (next_of nodes g r)).
Proof.
  intros Ht Hl fuel. induction fuel as [|fuel IH]; intros node l Hn Hr; cbn.
  all: destruct (Nat.eqb_spec node 0) as [->|Hf0]; [by exists 0%nat, []; rewrite (tr_root _ _ Ht); auto|].
  all: destruct (next_of nodes node r) as [n|] eqn:En; [by exists node, l; rewrite En; eauto|].
  - assert (l <> []) as Hne by (intros ->; by apply (label_root _ _ _ Ht) in Hn).
    pose proof (rank_below L [] l ltac:(eapply list_elem_of_lookup_2, (tr_root _ _ Ht)) (below_nil l Hne)). lia.
  - destruct (decide (fail_of nodes node = 0%nat)) as [E|E].
    + rewrite E. exists 0%nat, []. rewrite (tr_root _ _ Ht). split_and!; [by destruct fuel|done|by left].
    + destruct (Hl node E) as (lu & lg & Hu & Hg & _ & _ & Hb). rewrite Hn in Hu. injection Hu as <-.
      assert (rank L lg < rank L l)%nat by (apply rank_below; [by eapply list_elem_of_lookup_2|done]).
      apply (IH _ lg); [done|lia].
Qed.

(** ** Building the links *)

Lemma link_child_next v nodes r u nodes' : link_child v nodes r u = Some nodes' ->
  length nodes' = length nodes /\ (forall i s, next_of nodes' i s = next_of nodes i s).
Proof.
  unfold link_child. destruct (fail_search _ _ _ _) as [f|]; [|done]. cbn. intros [= <-].
  assert (length (relink nodes f r u) = length nodes /\ forall i s, next_of (relink nodes f r u) i s = next_of nodes i s) as [E1 E2].
  { unfold relink. destruct (next_of nodes f r) as [n|]; [|done]. destruct (n =? u)%nat; [done|].
    rewrite length_alter. split; [done|]. intros i s. by apply next_of_alter. }
  rewrite length_alter. split; [done|]. intros i s. rewrite next_of_alter by done. apply E2.
Qed.

Lemma fail_of_set nodes u n k :
  (u < length nodes)%nat -> fail_of (alter (set_fail n) u nodes) k = if (k =? u)%nat then n else fail_of nodes k.
Proof.
  intros Hu. unfold fail_of. destruct (Nat.eqb_spec k u) as [->|Hne]; [|by rewrite list_lookup_alter_ne].
  rewrite list_lookup_alter_eq. by destruct (lookup_lt_is_Some_2 nodes u Hu) as [nd ->].
Qed.

(** One child is linked: its new failure link is smaller. *)
Lemma link_child_ok v lv nodes L r u :
  trie_ok nodes L -> links_ok nodes L -> L !! v = Some lv -> lv <> [] -> next_of nodes v r = Some u ->
  exists nodes', link_child v nodes r u = Some nodes' /\ trie_ok nodes' L /\ links_ok nodes' L.
Proof.
  intros Ht Hl Hv Hne Hu. apply (next_label _ _ _ _ _ _ Ht Hv) in Hu as Lu.
  assert (u < length nodes)%nat as Hult by (rewrite <- (tr_len _ _ Ht); by eapply lookup_lt_Some).
  assert (exists lf, L !! fail_of nodes v = Some lf /\ (lf = [] \/ lf <> [] /\ last lf = last lv /\ below lf lv)) as (lf & Hlf & Hcase).
  { destruct (decide (fail_of nodes v = 0%nat)) as [E|E]; [rewrite E; exists []; rewrite (tr_root _ _ Ht); auto|].
    destruct (Hl v E) as (lu & lf & Hv' & Hf & ? & ? & ?). rewrite Hv in Hv'. injection Hv' as <-. eauto 10. }
  destruct (fail_search_ends nodes L r Ht Hl (length nodes) _ lf Hlf) as (g & Hg & Hgc).
  { rewrite <- (tr_len _ _ Ht). apply rank_bound. by eapply list_elem_of_lookup_2. }
  assert (exists nodes', link_child v nodes r u = Some nodes') as [nodes' E] by (unfold link_child; rewrite Hg; eexists; reflexivity).
  exists nodes'. destruct (link_child_next _ _ _ _ _ E) as [E1 E2].
  assert (trie_ok nodes' L) as Ht' by (by apply (trie_ok_same nodes)). split_and!; try done.
  unfold link_child in E. rewrite Hg in E. cbn in E. injection E as <-. intros k. rewrite fail_of_add. unfold relink.
  destruct (next_of nodes g r) as [n|] eqn:En; [|apply Hl]. destruct (Nat.eqb_spec n u) as [->|Hnu]; [apply Hl|].
  rewrite fail_of_set by done. destruct (Nat.eqb_spec k u) as [->|Hku]; [|apply Hl]. intros _.
  assert (exists ln, L !! n = Some ln /\ ln <> [] /\ last ln = last (lv ++ [r]) /\ below ln (lv ++ [r])) as (ln & ? & ? & ? & ?); [|eauto 10].
  destruct Hgc as [->|(lk & Hk & Hor & Hlk & Hgl)].
  - apply (next_label _ _ _ _ _ _ Ht (tr_root _ _ Ht)) in En. exists [r]. rewrite last_snoc. split_and!; try done. by apply below_root.
  - apply (next_label _ _ _ _ _ _ Ht Hgl) in En. rewrite <- app_assoc in En. cbn in En. exists (lk ++ [r; r]).
    destruct Hcase as [->|(Hf & Hlast & Hb)].
    { apply last_None in Hlk. done. }
    split_and!; [done|by destruct lk|by rewrite last_snoc, last_app|].
    apply below_link; [done|congruence|destruct Hor as [->|Hor]; [done|by eapply below_trans]|].
    intros Eq. rewrite Eq in En. destruct Hnu. by apply (label_inj _ _ _ _ _ Ht En Lu).
Qed.

Lemma link_children_ok v lv L children : forall nodes,
  trie_ok nodes L -> links_ok nodes L -> L !! v = Some lv -> lv <> [] ->
  (forall r u, (r, u) ∈ children -> next_of nodes v r = Some u) ->
  exists nodes', link_children v children nodes = Some nodes' /\ trie_ok nodes' L /\ links_ok nodes' L /\
    forall i s, next_of nodes' i s = next_of nodes i s.
Proof.
  induction children as [|[r u] children IH]; intros nodes Ht Hl Hv Hne Hch; cbn.
  - by exists nodes.
  - destruct (link_child_ok v lv nodes L r u Ht Hl Hv Hne) as (n1 & E & Ht1 & Hl1); [apply Hch; constructor|].
    rewrite E. cbn. destruct (link_child_next _ _ _ _ _ E) as [_ E2].
    destruct (IH n1 Ht1 Hl1 Hv Hne) as (n2 & E' & Ht2 & Hl2 & E3).
    + intros s w Hin. rewrite E2. apply Hch. by constructor.
    + exists n2. split_and!; try done. intros i s. by rewrite E3.
Qed.

Lemma nodup_bound (l : list nat) n : NoDup l -> (forall x, x ∈ l -> (x < n)%nat) -> (length l <= n)%nat.
Proof.
  intros Hnd Hlt. rewrite <- (length_seq n 0). apply submseteq_length, NoDup_submseteq; [done|].
  intros x Hx. apply elem_of_seq. specialize (Hlt x Hx). lia.
Qed.

(** The order of ranging over a map lists its entries. *)
Definition ord_ok (ord : nat -> gmap Z nat -> list (Z * nat)) : Prop := forall v m, ord v m ≡ₚ map_to_list m.

Lemma next_map_lookup nodes i r : next_map nodes i !! r = next_of nodes i r.
Proof. unfold next_map, next_of. by destruct (nodes !! i). Qed.

Section order.
Context (ord : nat -> gmap Z nat -> list (Z * nat)) (Hord : ord_ok ord).

Lemma ord_elem nodes v r u : (r, u) ∈ ord v (next_map nodes v) <-> next_of nodes v r = Some u.
Proof. by rewrite (Hord _ _), elem_of_map_to_list, next_map_lookup. Qed.

Lemma children_nodup nodes L v : trie_ok nodes L -> NoDup (ord v (next_map nodes v)).*2.
Proof.
  intros Ht. rewrite (Hord _ _). apply NoDup_fmap_2_strong; [|apply NoDup_map_to_list].
  intros [r u] [s w] Hr Hs E. cbn in E. subst w. apply elem_of_map_to_list in Hr, Hs. rewrite next_map_lookup in Hr, Hs.
  destruct (tr_next _ _ Ht _ _ _ Hr) as (l & Hl & H1), (tr_next _ _ Ht _ _ _ Hs) as (l' & Hl' & H2). by simplify_eq.
Qed.

(** Nodes taken from the queue before [D], and in it [queue]: each once, the
    parents of all but the first level before them. *)
Record queue_ok (nodes : list acNode) (L : list (list Z)) (D queue : list nat) : Prop := mk_queue_ok {
  qo_nodup : NoDup (D ++ queue);
  qo_label : forall x, x ∈ D ++ queue -> exists l, L !! x = Some l /\ l <> [];
  qo_parent : forall x v r, x ∈ D ++ queue -> next_of nodes v r = Some x -> v <> 0%nat -> v ∈ D }.

Lemma queue_step nodes nodes' L D v queue :
  trie_ok nodes L -> (forall i s, next_of nodes' i s = next_of nodes i s) -> queue_ok nodes L D (v :: queue) ->
  queue_ok nodes' L (D ++ [v]) (queue ++ (ord v (next_map nodes v)).*2).
Proof.
  intros Ht Hn [Hnd Hlab Hpar].
  assert (forall x, x ∈ (ord v (next_map nodes v)).*2 <-> exists r, next_of nodes v r = Some x) as Hch.
  { intros x. rewrite list_elem_of_fmap. split.
    - intros ([r u] & -> & Hin). apply ord_elem in Hin. eauto.
    - intros [r Hr]. exists (r, x). split; [done|]. by apply ord_elem. }
  assert (v ∉ D) as HvD by (apply NoDup_app in Hnd as (_ & H & _); intros Hin; apply (H v Hin); constructor).
  destruct (Hlab v) as (lv & Hv & Hvne); [apply elem_of_app; right; constructor|].
  assert (v <> 0%nat) as Hv0 by (intros ->; rewrite (tr_root _ _ Ht) in Hv; congruence).
  split.
  - assert (forall K, (D ++ [v]) ++ queue ++ K = (D ++ v :: queue) ++ K) as -> by (intros; by rewrite <- !app_assoc).
    apply NoDup_app. split_and!; [done| |by eapply children_nodup].
    intros x Hx [r Hr]%Hch. apply HvD. by eapply Hpar.
  - intros x. rewrite !elem_of_app, list_elem_of_singleton. intros [[Hx| ->]|[Hx|Hx]].
    + apply Hlab, elem_of_app. by left.
    + eauto.
    + apply Hlab, elem_of_app. right. by constructor.
    + apply Hch in Hx as [r Hr]. apply (next_label _ _ _ _ _ _ Ht Hv) in Hr. exists (lv ++ [r]). split; [done|]. by destruct lv.
  - intros x w r. rewrite Hn. rewrite !elem_of_app, list_elem_of_singleton. intros Hx Hw Hw0.
    destruct Hx as [[Hx| ->]|[Hx|Hx]].
    + left. eapply Hpar; [|done..]. apply elem_of_app. by left.
    + left. eapply Hpar; [|done..]. apply elem_of_app. right. constructor.
    + left. eapply Hpar; [|done..]. apply elem_of_app. right. by constructor.
    + right. apply Hch in Hx as [s Hs]. apply (next_label _ _ _ _ _ _ Ht Hv) in Hs.
      destruct (tr_next _ _ Ht _ _ _ Hw) as (lw & Hlw & Hlx). rewrite Hs in Hlx. injection Hlx as Ex.
      apply app_inj_tail in Ex as [-> _]. apply list_elem_of_singleton. by apply (label_inj _ _ _ _ _ Ht Hlw Hv).
Qed.

Lemma bfs_ends L fuel : forall D queue nodes,
  trie_ok nodes L -> links_ok nodes L -> queue_ok nodes L D queue -> (length nodes <= fuel + length D)%nat ->
  exists nodes', ac_bfs ord fuel queue nodes = Some nodes' /\ trie_ok nodes' L /\ links_ok nodes' L.
Proof.
  induction fuel as [|fuel IH]; intros D queue nodes Ht Hl Hq Hf; (destruct queue as [|v queue]; [by exists nodes|]).
  - exfalso. destruct Hq as [Hnd Hlab _].
    assert (length (D ++ v :: queue) <= length nodes)%nat as Hle; [|rewrite length_app in Hle; cbn in Hle, Hf; lia].
    apply nodup_bound; [done|]. intros x Hx. destruct (Hlab x Hx) as (l & Hx' & _). rewrite <- (tr_len _ _ Ht).
    by eapply lookup_lt_Some.
  - cbn. destruct (qo_label _ _ _ _ Hq v) as (lv & Hv & Hvne); [apply elem_of_app; right; constructor|].
    destruct (link_children_ok v lv L (ord v (next_map nodes v)) nodes Ht Hl Hv Hvne) as (n1 & E & Ht1 & Hl1 & En).
    { intros r u Hin. by apply ord_elem. }
    rewrite E. cbn. apply (IH (D ++ [v])); [done|done|by apply (queue_step nodes)|].
    rewrite (eq_trans (eq_sym (tr_len _ _ Ht1)) (tr_len _ _ Ht)), length_app. cbn. lia.
Qed.

Lemma queue_start nodes L : trie_ok nodes L -> queue_ok nodes L [] (ord 0%nat (next_map nodes 0%nat)).*2.
Proof.
  intros Ht. split; cbn; [by eapply children_nodup| |].
  - intros x ([r u] & -> & Hin)%list_elem_of_fmap. apply ord_elem in Hin. cbn.
    apply (next_label _ _ _ _ _ _ Ht (tr_root _ _ Ht)) in Hin. by exists [r].
  - intros x v r ([s u] & -> & Hin)%list_elem_of_fmap Hv Hv0. apply ord_elem in Hin. cbn in *. destruct Hv0.
    apply (next_label _ _ _ _ _ _ Ht (tr_root _ _ Ht)) in Hin. destruct (tr_next _ _ Ht _ _ _ Hv) as (l & Hl & Hu).
    rewrite Hin in Hu. injection Hu as Eu. assert (l = []) as -> by (by destruct l as [|? [|]]). by apply (label_root _ _ _ Ht).
Qed.

(** The automaton of any keywords exists, and its links decrease. *)
Lemma build_total ps : exists nodes L, buildAC ord ps = Some nodes /\ trie_ok nodes L /\ links_ok nodes L.
Proof.
  destruct (build_trie_built ps) as [L [Ht Hlab Hown Hfail]]. unfold buildAC.
  destruct (bfs_ends L (length (build_trie ps)) [] (ord 0%nat (next_map (build_trie ps) 0%nat)).*2 (build_trie ps))
    as (nodes & E & Ht' & Hl'); [done| |by apply queue_start|cbn; lia|eauto].
  intros u Hu. by rewrite Hfail in Hu.
Qed.
End order.

Lemma ac_step_ends nodes L node l r :
  trie_ok nodes L -> links_ok nodes L -> L !! node = Some l -> exists n ln, ac_step nodes node r = Some n /\ L !! n = Some ln.
Proof.
  intros Ht Hl Hn. unfold ac_step.
  destruct (find_node_ends nodes L r Ht Hl (length nodes) node l Hn) as (g & lg & E & Hg & _).
  { rewrite <- (tr_len _ _ Ht). apply Nat.lt_le_incl, rank_bound. by eapply list_elem_of_lookup_2. }
  rewrite E. cbn. destruct (next_of nodes g r) as [n|] eqn:En; cbn; [|eauto].
  apply (next_label _ _ _ _ _ _ Ht Hg) in En. eauto.
Qed.

Lemma find_loop_ends nodes L offs rs : trie_ok nodes L -> links_ok nodes L -> forall k node l, L !! node = Some l ->
  exists ms, find_loop nodes offs rs k node = Some ms.
Proof.
  intros Ht Hl. induction rs as [|r rs IH]; intros k node l Hn; cbn; [eauto|].
  destruct (ac_step_ends nodes L node l r Ht Hl Hn) as (n & ln & -> & Hln). cbn.
  destruct (IH (S k) n ln Hln) as [ms ->]. cbn. eauto.
Qed.

(** C36: Building the automaton and scanning a text end for every list of keywords
    and every order of map iteration: failure links never run in a cycle. *)
Theorem filter_scan_ends (ord : nat -> gmap Z nat -> list (Z * nat)) ps text :
  ord_ok ord -> exists nodes ms, buildAC ord ps = Some nodes /\ Find nodes text = Some ms.
Proof.
  intros Hord. destruct (build_total ord Hord ps) as (nodes & L & E & Ht & Hl). exists nodes. unfold Find.
  destruct (_ =? 0)%nat; [eauto|].
  destruct (find_loop_ends nodes L (byteEnds text) (runes text) Ht Hl 0 0 [] (tr_root _ _ Ht)) as [ms Hms]. eauto.
Qed.
