(* ===== verification/FilterFind.v ===== *)
(** * What the scan finds

    The failure links of the code are those of the Aho-Corasick automaton when
    no keyword's first two runes occur inside a keyword; then the scan finds
    exactly the occurrences. In general a keyword is found at the start of a
    text and after a rune no keyword has; elsewhere it may be missed, and a
    keyword that does not occur may be reported. *)

From S2P Require Import Prelude Unicode FilterAC FilterTrie.

(** ** Keywords that keep apart *)

Definition first_pair (rs : list Z) : option (Z * Z) := match rs with a :: b :: _ => Some (a, b) | _ => None end.
Definition inner_pairs (rs : list Z) : list (Z * Z) := zip (tail rs) (tail (tail rs)).

Definition apart (ps : list pattern) : bool :=
  forallb (fun p => forallb (fun q =>
    match first_pair (runes (pt_text q)) with
    | Some ab => bool_decide (ab ∉ inner_pairs (runes (pt_text p)))
    | None => true
    end) ps) ps.

Lemma inner_pairs_elem a x r b : a <> [] -> (x, r) ∈ inner_pairs (a ++ x :: r :: b).
Proof.
  destruct a as [|z a]; [done|]. intros _. unfold inner_pairs. cbn. induction a as [|y a IH]; cbn; [constructor|].
  destruct a as [|y' a]; cbn in *; by constructor.
Qed.

Lemma runes_nonempty s : s <> "" -> runes s <> [].
Proof. destruct s as [|c s]; [done|]. intros _. unfold runes. cbn. repeat case_match; done. Qed.

Section labels.
Context (ps : list pattern).

Lemma label_prefix a b : is_label ps (a ++ b) -> is_label ps a.
Proof.
  intros [E|(p & Hp & Hne & Hpre)]; [left; by destruct a|right]. exists p. split_and!; [done|done|].
  etrans; [by apply prefix_app_r|done].
Qed.

Lemma apart_labels l x r : apart ps = true -> l <> [] -> is_label ps (l ++ [x; r]) -> ~ is_label ps [x; r].
Proof.
  intros H Hl [E|(p & Hp & _ & [b Eb])] [E'|(q & Hq & _ & [c Ec])]; try done; [by destruct l|].
  unfold apart in H. rewrite forallb_forall in H. setoid_rewrite forallb_forall in H.
  specialize (H p (proj1 (list_elem_of_In _ _) Hp) q (proj1 (list_elem_of_In _ _) Hq)).
  rewrite Ec, Eb in H. cbn in H. apply bool_decide_eq_true in H. apply H. rewrite <- app_assoc. by apply inner_pairs_elem.
Qed.

(** A proper suffix of a label that is a label has at most one rune. *)
Lemma suffix_short a s : apart ps = true -> a <> [] -> is_label ps (a ++ s) -> is_label ps s -> (length s <= 1)%nat.
Proof.
  intros H Ha Hl Hs. destruct s as [|x [|y s]]; cbn; [lia|lia|exfalso].
  apply (apart_labels a x y H Ha).
  - apply (label_prefix _ s). by rewrite <- app_assoc.
  - by apply (label_prefix [x; y] s).
Qed.

Lemma own_elem p l : p ∈ own ps l <-> p ∈ ps /\ pt_text p <> "" /\ runes (pt_text p) = l.
Proof. unfold own. rewrite list_elem_of_filter. tauto. Qed.

Lemma own_nil : own ps [] = [].
Proof.
  destruct (own ps []) as [|q qs] eqn:E; [done|]. assert (q ∈ own ps []) as Hq by (rewrite E; constructor).
  apply own_elem in Hq as (_ & Hne & Hr). by apply runes_nonempty in Hne.
Qed.

(** A node before and after it is linked, [U] being the nodes already linked. *)
Definition node_ok (nodes : list acNode) (L : list (list Z)) (U : list nat) (i : nat) (l : list Z) : Prop :=
  ((i ∉ U) /\ fail_of nodes i = 0%nat /\ out_of nodes i = own ps l) \/
  ((i ∈ U) /\ exists l' r, l = l' ++ [r] /\ l' <> [] /\ out_of nodes i = own ps l ++ own ps [r] /\
    (L !! fail_of nodes i = Some [r] \/ fail_of nodes i = 0%nat /\ ~ is_label ps [r])).

Record linking (nodes : list acNode) (L : list (list Z)) (U : list nat) : Prop := mk_linking {
  lk_trie : trie_ok nodes L;
  lk_labels : forall l, l ∈ L <-> is_label ps l;
  lk_nodes : forall i l, L !! i = Some l -> node_ok nodes L U i l;
  lk_deep : forall i l, i ∈ U -> L !! i = Some l -> (2 <= length l)%nat }.

Lemma out_of_set_fail nodes n u k : out_of (alter (set_fail n) u nodes) k = out_of nodes k.
Proof.
  unfold out_of. destruct (decide (u = k)) as [<-|Hne]; [|by rewrite list_lookup_alter_ne].
  rewrite list_lookup_alter_eq. by destruct (nodes !! u).
Qed.

Lemma short_node nodes L U i l : linking nodes L U -> L !! i = Some l -> (length l <= 1)%nat ->
  fail_of nodes i = 0%nat /\ out_of nodes i = own ps l.
Proof.
  intros Hk Hi Hlen. destruct (lk_nodes _ _ _ Hk i l Hi) as [(_ & ? & ?)|[HU _]]; [done|].
  pose proof (lk_deep _ _ _ Hk i l HU Hi). lia.
Qed.

(** With keywords that keep apart the search for a failure target gives the root. *)
Lemma search_root nodes L U v lv r :
  apart ps = true -> linking nodes L U -> L !! v = Some lv -> (v ∈ U \/ length lv = 1%nat) -> is_label ps (lv ++ [r]) ->
  fail_search (length nodes) nodes r (fail_of nodes v) = Some 0%nat.
Proof.
  intros Hap Hk Hv Hvu Hlab. pose proof (lk_trie _ _ _ Hk) as Ht.
  assert ((length nodes > 0)%nat) as Hpos by (rewrite <- (tr_len _ _ Ht); apply lookup_lt_Some in Hv; lia).
  destruct (length nodes) as [|fuel] eqn:Elen; [lia|]. cbn.
  destruct (Nat.eqb_spec (fail_of nodes v) 0) as [E|E]; [done|].
  destruct (lk_nodes _ _ _ Hk v lv Hv) as [(_ & E' & _)|(HU & l' & x & -> & Hl' & _ & Hf)]; [done|].
  destruct Hf as [Hf|[E' _]]; [|done].
  destruct (next_of nodes (fail_of nodes v) r) as [n|] eqn:En.
  - exfalso. apply (next_label _ _ _ _ _ _ Ht Hf) in En. rewrite <- app_assoc in Hlab.
    apply (apart_labels l' x r Hap Hl'); [done|]. apply (lk_labels _ _ _ Hk). by eapply list_elem_of_lookup_2.
  - destruct (short_node nodes L U _ _ Hk Hf) as [-> _]; [done|]. by destruct fuel.
Qed.

Lemma relink_root nodes L U u lv r :
  linking nodes L U -> L !! u = Some (lv ++ [r]) -> lv <> [] -> fail_of nodes u = 0%nat ->
  let nodes' := relink nodes 0 r u in
  length nodes' = length nodes /\ (forall i s, next_of nodes' i s = next_of nodes i s) /\
  (forall k, out_of nodes' k = out_of nodes k) /\ (forall k, k <> u -> fail_of nodes' k = fail_of nodes k) /\
  (L !! fail_of nodes' u = Some [r] \/ fail_of nodes' u = 0%nat /\ ~ is_label ps [r]).
Proof.
  intros Hk Hu Hlv Hf. pose proof (lk_trie _ _ _ Hk) as Ht. unfold relink. pose proof (tr_root _ _ Ht) as Hr.
  assert (u < length nodes)%nat as Hlt by (rewrite <- (tr_len _ _ Ht); by eapply lookup_lt_Some).
  destruct (next_of nodes 0 r) as [n|] eqn:En; cbv zeta.
  - apply (next_label _ _ _ _ _ _ Ht Hr) in En. cbn in En. destruct (Nat.eqb_spec n u) as [->|Hne].
    { rewrite Hu in En. injection En as E. by destruct lv as [|? [|]]. }
    split_and!; [apply length_alter|intros; by apply next_of_alter|intros; apply out_of_set_fail| |].
    + intros k Hk'. rewrite fail_of_set by done. by destruct (Nat.eqb_spec k u).
    + rewrite fail_of_set, Nat.eqb_refl by done. by left.
  - split_and!; try done. right. split; [done|]. intros Hlab. apply (lk_labels _ _ _ Hk) in Hlab.
    apply list_elem_of_lookup_1 in Hlab as [n Hn]. apply (next_label _ _ _ n _ r Ht Hr) in Hn. congruence.
Qed.

Lemma link_exact nodes L U v lv r u :
  apart ps = true -> linking nodes L U -> L !! v = Some lv -> lv <> [] -> (v ∈ U \/ length lv = 1%nat) ->
  next_of nodes v r = Some u -> u ∉ U ->
  exists nodes', link_child v nodes r u = Some nodes' /\ linking nodes' L (U ++ [u]).
Proof.
  intros Hap Hk Hv Hlv Hvu Hn HuU. pose proof (lk_trie _ _ _ Hk) as Ht.
  apply (next_label _ _ _ _ _ _ Ht Hv) in Hn as Hu.
  assert (is_label ps (lv ++ [r])) as Hlab by (apply (lk_labels _ _ _ Hk); by eapply list_elem_of_lookup_2).
  destruct (lk_nodes _ _ _ Hk u _ Hu) as [(_ & Hf & Ho)|[]]; [|done].
  destruct (relink_root nodes L U u lv r Hk Hu Hlv Hf) as (E1 & E2 & E3 & E4 & E5).
  unfold link_child. rewrite (search_root nodes L U v lv r Hap Hk Hv Hvu Hlab). cbn.
  set (n1 := relink nodes 0 r u) in *. eexists. split; [reflexivity|].
  assert (u < length n1)%nat as Hlt by (rewrite E1, <- (tr_len _ _ Ht); by eapply lookup_lt_Some).
  assert (out_of n1 (fail_of n1 u) = own ps [r]) as Eo.
  { rewrite E3. destruct E5 as [E5|[-> Hno]].
    - by apply (short_node nodes L U _ _ Hk E5).
    - destruct (short_node nodes L U _ _ Hk (tr_root _ _ Ht)) as [_ ->]; [cbn; lia|]. rewrite own_nil. symmetry.
      destruct (own ps [r]) as [|q qs] eqn:Eq; [done|]. assert (q ∈ own ps [r]) as Hq by (rewrite Eq; constructor).
      apply own_elem in Hq as (Hq & Hne & Er). destruct Hno. right. exists q. split_and!; [done|done|by rewrite Er]. }
  split.
  - apply (trie_ok_same nodes); [done|by rewrite length_alter|]. intros i s. by rewrite next_of_alter.
  - apply (lk_labels _ _ _ Hk).
  - intros i l Hi. unfold node_ok. rewrite out_of_add, fail_of_add, E3. destruct (decide (i = u)) as [->|Hne].
    + right. rewrite Hu in Hi. injection Hi as <-. split; [set_solver|]. exists lv, r.
      rewrite Ho, Eo, bool_decide_true by (split; [done|by apply lookup_lt_is_Some_2]). auto.
    + rewrite bool_decide_false by naive_solver. rewrite app_nil_r, E4 by done.
      destruct (lk_nodes _ _ _ Hk i l Hi) as [(Hi' & ? & ?)|(Hi' & ?)]; [left|right]; (split; [set_solver|done]).
  - intros i l. rewrite elem_of_app, list_elem_of_singleton. intros [Hi| ->] Hl; [by eapply lk_deep|].
    rewrite Hu in Hl. injection Hl as <-. rewrite length_app. destruct lv; cbn in *; [done|lia].
Qed.

Lemma links_exact v lv L children : forall nodes U,
  apart ps = true -> linking nodes L U -> L !! v = Some lv -> lv <> [] -> (v ∈ U \/ length lv = 1%nat) ->
  NoDup (U ++ children.*2) -> (forall r u, (r, u) ∈ children -> next_of nodes v r = Some u) ->
  exists nodes', link_children v children nodes = Some nodes' /\ linking nodes' L (U ++ children.*2) /\
    forall i s, next_of nodes' i s = next_of nodes i s.
Proof.
  induction children as [|[r u] children IH]; intros nodes U Hap Hk Hv Hlv Hvu Hnd Hch; cbn.
  { exists nodes. by rewrite app_nil_r. }
  cbn in Hnd. destruct (link_exact nodes L U v lv r u) as (n1 & E & Hk1); try done.
  - apply Hch. constructor.
  - apply NoDup_app in Hnd as (_ & Hd & _). intros Hin. apply (Hd u Hin). constructor.
  - rewrite E. cbn. destruct (link_child_next _ _ _ _ _ E) as [_ E2].
    destruct (IH n1 (U ++ [u]) Hap Hk1 Hv Hlv) as (n2 & E' & Hk2 & E3).
    + destruct Hvu; [left; set_solver|by right].
    + by rewrite <- app_assoc.
    + intros s w Hin. rewrite E2. apply Hch. by constructor.
    + exists n2. rewrite <- app_assoc in Hk2. split_and!; try done. intros i s. by rewrite E3.
Qed.
End labels.

(** ** The finished automaton *)

Section exact.
Context (ord : nat -> gmap Z nat -> list (Z * nat)) (Hord : ord_ok ord) (ps : list pattern).

(** The linked nodes are the children of those taken from the queue, and these
    children have been queued. *)
Record progress (nodes : list acNode) (D queue U : list nat) : Prop := mk_progress {
  pg_linked : forall x, x ∈ U <-> exists v r, v ∈ D /\ next_of nodes v r = Some x;
  pg_queued : forall v r x, v = 0%nat \/ v ∈ D -> next_of nodes v r = Some x -> x ∈ D ++ queue;
  pg_nodup : NoDup U }.

(** When the queue is empty everything below the first level is linked. *)
Lemma progress_end nodes L D U :
  trie_ok nodes L -> progress nodes D [] U -> forall x l, L !! x = Some l -> (2 <= length l)%nat -> x ∈ U.
Proof.
  intros Ht [Hl Hq _]. rewrite app_nil_r in Hq.
  assert (forall n l x, length l = S n -> L !! x = Some l -> x ∈ D) as Hall.
  { induction n as [|n IHn]; intros l x El Hx; destruct l as [|r l _] using rev_ind; try done.
    all: rewrite length_app in El; cbn in El; destruct (tr_parent _ _ Ht _ _ _ Hx) as (i & Hi & Hn).
    - eapply (Hq i r); [|done]. left. apply (label_root _ _ _ Ht). by destruct l; [|cbn in El; lia].
    - eapply (Hq i r); [|done]. right. eapply (IHn l); [lia|done]. }
  intros x l Hx Hlen. destruct l as [|r l _] using rev_ind; [cbn in Hlen; lia|]. rewrite length_app in Hlen. cbn in Hlen.
  destruct (tr_parent _ _ Ht _ _ _ Hx) as (i & Hi & Hn). apply Hl. exists i, r. split; [|done].
  eapply (Hall (length l - 1)%nat); [|done]. lia.
Qed.

Lemma children_elem nodes v x : x ∈ (ord v (next_map nodes v)).*2 <-> exists r, next_of nodes v r = Some x.
Proof.
  rewrite list_elem_of_fmap. split.
  - intros ([r u] & -> & Hin). apply (ord_elem ord Hord) in Hin. eauto.
  - intros [r Hr]. exists (r, x). split; [done|]. by apply (ord_elem ord Hord).
Qed.

(** The children of a node still in the queue are not yet linked. *)
Lemma progress_new nodes L D queue U v :
  trie_ok nodes L -> progress nodes D queue U -> v ∉ D -> NoDup (U ++ (ord v (next_map nodes v)).*2).
Proof.
  intros Ht Hp HvD. apply NoDup_app. split_and!; [apply Hp| |by eapply children_nodup].
  intros x Hx [r Hr]%children_elem. apply (pg_linked _ _ _ _ Hp) in Hx as (w & s & Hw & Hs). destruct HvD.
  destruct (tr_next _ _ Ht _ _ _ Hr) as (a & Ha & Hxa), (tr_next _ _ Ht _ _ _ Hs) as (b & Hb & Hxb).
  rewrite Hxa in Hxb. injection Hxb as Eab. apply app_inj_tail in Eab as [-> _]. by rewrite (label_inj _ _ _ _ _ Ht Ha Hb).
Qed.

Lemma progress_keeps nodes nodes' L D queue U v :
  trie_ok nodes L -> progress nodes D (v :: queue) U -> v ∉ D -> (forall i s, next_of nodes' i s = next_of nodes i s) ->
  progress nodes' (D ++ [v]) (queue ++ (ord v (next_map nodes v)).*2) (U ++ (ord v (next_map nodes v)).*2).
Proof.
  intros Ht Hp HvD En. split; [| |by eapply progress_new].
  - intros x. rewrite elem_of_app, (pg_linked _ _ _ _ Hp), children_elem.
    setoid_rewrite elem_of_app. setoid_rewrite list_elem_of_singleton. setoid_rewrite En. split.
    + intros [(w & r & Hw & Hr)|[r Hr]]; [exists w, r|exists v, r]; auto.
    + intros (w & r & [Hw| ->] & Hr); [left|right]; eauto.
  - intros w r x Hw. rewrite En. intros Hx. rewrite elem_of_app, list_elem_of_singleton in Hw.
    rewrite <- app_assoc, !elem_of_app, list_elem_of_singleton.
    destruct (decide (w = v)) as [->|Hne]; [right; right; right; apply children_elem; eauto|].
    assert (x ∈ D ++ v :: queue) as Hin by (apply (pg_queued _ _ _ _ Hp w r); [tauto|done]).
    apply elem_of_app in Hin as [Hin|Hin]; [auto|]. apply elem_of_cons in Hin as [->|Hin]; auto.
Qed.

Lemma bfs_exact L fuel : forall D queue nodes U nodes',
  apart ps = true -> linking ps nodes L U -> queue_ok nodes L D queue -> progress nodes D queue U ->
  ac_bfs ord fuel queue nodes = Some nodes' ->
  exists U', linking ps nodes' L U' /\ forall x l, L !! x = Some l -> (2 <= length l)%nat -> x ∈ U'.
Proof.
  induction fuel as [|fuel IH]; intros D queue nodes U nodes' Hap Hk Hq Hp H; pose proof (lk_trie _ _ _ _ Hk) as Ht;
    (destruct queue as [|v queue]; cbn in H; [injection H as <-; exists U; split; [done|by eapply progress_end]|]); [done|].
  destruct (qo_label _ _ _ _ Hq v) as (lv & Hv & Hvne); [apply elem_of_app; right; constructor|].
  assert (v ∉ D) as HvD by (destruct Hq as [Hnd _ _]; apply NoDup_app in Hnd as (_ & Hd & _); intros Hin; apply (Hd v Hin); constructor).
  destruct (links_exact ps v lv L (ord v (next_map nodes v)) nodes U Hap Hk Hv Hvne) as (n1 & E & Hk1 & En).
  - destruct lv as [|x lv _] using rev_ind; [done|]. destruct lv as [|y lv]; [by right|left].
    destruct (tr_parent _ _ Ht _ _ _ Hv) as (i & Hi & Hn). apply (pg_linked _ _ _ _ Hp). exists i, x. split; [|done].
    eapply (qo_parent _ _ _ _ Hq v i x); [apply elem_of_app; right; constructor|done|].
    intros ->. rewrite (tr_root _ _ Ht) in Hi. done.
  - by eapply progress_new.
  - intros r u Hin. by apply (ord_elem ord Hord).
  - rewrite E in H. cbn in H. eapply (IH (D ++ [v])) in H; [done|done|done|by apply (queue_step ord Hord nodes)|].
    by eapply progress_keeps.
Qed.

(** The automaton of keywords that keep apart: each node fails to the node of
    its last rune, or to the root, and lists the keywords that are suffixes of its label. *)
Record exact (nodes : list acNode) (L : list (list Z)) : Prop := mk_exact {
  ex_trie : trie_ok nodes L;
  ex_labels : forall l, l ∈ L <-> is_label ps l;
  ex_short : forall i l, L !! i = Some l -> (length l <= 1)%nat -> fail_of nodes i = 0%nat /\ out_of nodes i = own ps l;
  ex_long : forall i l r, L !! i = Some (l ++ [r]) -> l <> [] -> out_of nodes i = own ps (l ++ [r]) ++ own ps [r] /\
    (L !! fail_of nodes i = Some [r] \/ fail_of nodes i = 0%nat /\ ~ is_label ps [r]) }.

Lemma build_exact : apart ps = true -> exists nodes L, buildAC ord ps = Some nodes /\ exact nodes L /\ links_ok nodes L.
Proof.
  intros Hap. destruct (build_trie_built ps) as [L [Ht Hlab Hown Hfail]].
  destruct (bfs_ends ord Hord L (length (build_trie ps)) [] (ord 0%nat (next_map (build_trie ps) 0%nat)).*2 (build_trie ps))
    as (nodes & E & _ & Hl'); [done| |by apply queue_start|cbn; lia|].
  { intros u Hu. by rewrite Hfail in Hu. }
  exists nodes, L. split; [done|]. split; [|done].
  apply (bfs_exact L _ [] _ _ []) in E as (U & Hk & HU); [|done| |by apply queue_start|].
  - split; [apply Hk|apply Hk| |].
    + intros i l Hi Hlen. by eapply short_node.
    + intros i l r Hi Hne. assert (i ∈ U) as HiU.
      { eapply HU; [done|]. rewrite length_app. destruct l; [done|cbn; lia]. }
      destruct (lk_nodes _ _ _ _ Hk i _ Hi) as [(? & _)|(_ & l' & r' & El & _ & Ho & Hf)]; [done|].
      apply app_inj_tail in El as [<- <-]. done.
  - split; [done|done| |by intros i l Hin%not_elem_of_nil].
    intros i l Hi. left. split_and!; [apply not_elem_of_nil|done|by apply Hown].
  - split.
    + intros x. split; [by intros Hin%not_elem_of_nil|]. intros (v & r & Hin & _). by apply not_elem_of_nil in Hin.
    + intros v r x [->|Hin] Hx; [|by apply not_elem_of_nil in Hin]. cbn. apply children_elem. eauto.
    + apply NoDup_nil_2.
Qed.
End exact.

(** ** The scan of the exact automaton *)

Section scan.
Context (ps : list pattern) (Hap : apart ps = true) (nodes : list acNode) (L : list (list Z)).
Context (Hex : exact ps nodes L) (Hlinks : links_ok nodes L).

(** Every label that ends the text read so far and can go on with [r] ends [l]. *)
Definition covers (t : list Z) (r : Z) (l : list Z) : Prop :=
  l `suffix_of` t /\ forall s, s ∈ L -> s `suffix_of` t -> s ++ [r] ∈ L -> s `suffix_of` l.

Definition longest (t l : list Z) : Prop := l `suffix_of` t /\ forall s, s ∈ L -> s `suffix_of` t -> s `suffix_of` l.

Lemma covers_fail t r node l :
  L !! node = Some l -> node <> 0%nat -> next_of nodes node r = None -> covers t r l ->
  exists l', L !! fail_of nodes node = Some l' /\ covers t r l'.
Proof.
  intros Hn H0 Hnone [Hsuf Hc]. pose proof (ex_trie _ _ _ Hex) as Ht.
  assert (forall s, s ∈ L -> s `suffix_of` t -> s ++ [r] ∈ L -> exists a, a <> [] /\ l = a ++ s) as Hproper.
  { intros s Hs Hst Hsr. destruct (Hc s Hs Hst Hsr) as [a Ea]. exists a. split; [|done]. intros ->. cbn in Ea. subst s.
    apply list_elem_of_lookup_1 in Hsr as [j Hj]. apply (next_label _ _ _ _ _ _ Ht Hn) in Hj. congruence. }
  assert (l <> []) as Hne by (intros ->; by apply (label_root _ _ _ Ht) in Hn).
  destruct l as [|x l _] using rev_ind; [done|]. destruct l as [|y l].
  - destruct (ex_short _ _ _ Hex node [x] Hn) as [-> _]; [done|]. exists []. split; [apply (tr_root _ _ Ht)|].
    split; [apply suffix_nil|]. intros s Hs Hst Hsr. destruct (Hproper s Hs Hst Hsr) as (a & Ha & E).
    destruct a as [|? [|]]; try done. cbn in E. by destruct s.
  - destruct (ex_long _ _ _ Hex node (y :: l) x Hn) as [_ Hf]; [done|].
    assert (forall s, s ∈ L -> s `suffix_of` t -> s ++ [r] ∈ L -> s = [] \/ s = [x]) as Hs1.
    { intros s Hs Hst Hsr. destruct (Hproper s Hs Hst Hsr) as (a & Ha & E).
      assert (length s <= 1)%nat as Hlen.
      { apply (suffix_short ps a s Hap Ha); [|by apply (ex_labels _ _ _ Hex)]. rewrite <- E. apply (ex_labels _ _ _ Hex).
        by eapply list_elem_of_lookup_2. }
      destruct s as [|z [|]]; [by left|right|cbn in Hlen; lia]. apply app_inj_tail in E as [_ ->]. done. }
    assert ([x] `suffix_of` t) as Hxt by (etrans; [apply (suffix_app_r [x] [x] (y :: l))|done]; done).
    destruct Hf as [Hf|[-> Hno]].
    + exists [x]. split; [done|]. split; [done|]. intros s Hs Hst Hsr.
      destruct (Hs1 s Hs Hst Hsr) as [->| ->]; [apply suffix_nil|done].
    + exists []. split; [apply (tr_root _ _ Ht)|]. split; [apply suffix_nil|]. intros s Hs Hst Hsr.
      destruct (Hs1 s Hs Hst Hsr) as [->| ->]; [done|]. destruct Hno. by apply (ex_labels _ _ _ Hex).
Qed.

Lemma find_node_covers t r fuel : forall node l g,
  L !! node = Some l -> covers t r l -> find_node fuel nodes r node = Some g ->
  exists lg, L !! g = Some lg /\ covers t r lg /\ (g = 0%nat \/ is_Some (next_of nodes g r)).
Proof.
  induction fuel as [|fuel IH]; intros node l g Hn Hc H; cbn in H.
  all: destruct (Nat.eqb_spec node 0) as [->|H0]; [injection H as <-; eauto|].
  all: destruct (next_of nodes node r) as [n|] eqn:En; [injection H as <-; exists l; rewrite En; eauto|].
  1: done.
  destruct (covers_fail t r node l Hn H0 En Hc) as (l' & Hl' & Hc'). by eapply IH.
Qed.

Lemma step_longest t l node r n :
  L !! node = Some l -> longest t l -> ac_step nodes node r = Some n -> exists ln, L !! n = Some ln /\ longest (t ++ [r]) ln.
Proof.
  intros Hn [Hsuf Hlong] H. pose proof (ex_trie _ _ _ Hex) as Ht. unfold ac_step in H.
  destruct (find_node _ _ _ _) as [g|] eqn:Eg; [|done]. cbn in H. injection H as <-.
  destruct (find_node_covers t r (length nodes) node l g Hn) as (lg & Hg & [Hgs Hgc] & Hor); [by split; auto|done|].
  assert (forall s, s ∈ L -> s `suffix_of` t ++ [r] -> s = [] \/ exists s', s = s' ++ [r] /\ s' ∈ L /\ s' `suffix_of` t /\ s' `suffix_of` lg) as Hs.
  { intros s Hs [a Ea]. destruct s as [|z s _] using rev_ind; [by left|right]. rewrite app_assoc in Ea.
    apply app_inj_tail in Ea as [-> ->]. exists s.
    assert (s ∈ L) as HsL by (apply (ex_labels _ _ _ Hex); apply (label_prefix ps s [z]); by apply (ex_labels _ _ _ Hex)).
    assert (s `suffix_of` a ++ s) as Hsa by (by exists a). split_and!; auto. }
  destruct (next_of nodes g r) as [m|] eqn:Em; cbn.
  - apply (next_label _ _ _ _ _ _ Ht Hg) in Em. exists (lg ++ [r]). split; [done|]. split; [by apply suffix_app|].
    intros s HsL Hst. destruct (Hs s HsL Hst) as [->|(s' & -> & _ & _ & Hs')]; [apply suffix_nil|by apply suffix_app].
  - destruct Hor as [->|[? ?]]; [|done]. rewrite (tr_root _ _ Ht) in Hg. injection Hg as <-.
    exists []. split; [apply (tr_root _ _ Ht)|]. split; [apply suffix_nil|]. intros s HsL Hst.
    destruct (Hs s HsL Hst) as [->|(s' & -> & Hs'L & _ & Hs')]; [done|]. apply suffix_nil_inv in Hs' as ->. cbn in *.
    apply list_elem_of_lookup_1 in HsL as [j Hj]. apply (next_label _ _ _ j [] r Ht (tr_root _ _ Ht)) in Hj. congruence.
Qed.

(** A node lists the keywords that end the text read. *)
Lemma out_longest t l node p :
  L !! node = Some l -> longest t l ->
  p ∈ out_of nodes node <-> p ∈ ps /\ pt_text p <> "" /\ runes (pt_text p) `suffix_of` t.
Proof.
  intros Hn [Hsuf Hlong].
  assert (forall q, q ∈ ps -> pt_text q <> "" -> is_label ps (runes (pt_text q))) as Hkw by (intros q Hq Hne; right; eauto).
  assert (is_label ps l) as Hl by (apply (ex_labels _ _ _ Hex); by eapply list_elem_of_lookup_2).
  destruct (decide (length l <= 1)%nat) as [Hs|Hs].
  - destruct (ex_short _ _ _ Hex node l Hn Hs) as [_ ->]. rewrite own_elem. split.
    + intros (Hp & Hne & ->). done.
    + intros (Hp & Hne & Hpt). split_and!; [done|done|]. specialize (Hkw p Hp Hne).
      destruct (Hlong _ (proj2 (ex_labels _ _ _ Hex _) Hkw) Hpt) as [a Ea]. pose proof (runes_nonempty _ Hne).
      rewrite Ea in Hs. destruct a as [|z a]; [done|]. rewrite length_app in Hs. destruct (runes (pt_text p)); [done|cbn in Hs; lia].
  - destruct l as [|x l _] using rev_ind; [cbn in Hs; lia|]. assert (l <> []) as Hne by (intros ->; cbn in Hs; lia).
    destruct (ex_long _ _ _ Hex node l x Hn Hne) as [-> _]. rewrite elem_of_app, !own_elem. split.
    + intros [(Hp & Hpn & ->)|(Hp & Hpn & ->)]; split_and!; try done. etrans; [|done]. by exists l.
    + intros (Hp & Hpn & Hpt). specialize (Hkw p Hp Hpn). pose proof (runes_nonempty _ Hpn) as Hrn.
      destruct (Hlong _ (proj2 (ex_labels _ _ _ Hex _) Hkw) Hpt) as [a Ea]. destruct a as [|z a].
      * left. by rewrite Ea.
      * right. split_and!; [done|done|]. rewrite Ea in Hl.
        assert (length (runes (pt_text p)) <= 1)%nat as Hlen by (by apply (suffix_short ps (z :: a))).
        destruct (runes (pt_text p)) as [|w [|]]; [done| |cbn in Hlen; lia]. apply app_inj_tail in Ea as [_ ->]. done.
Qed.

Lemma find_loop_exact offs rs : forall t node l ms,
  L !! node = Some l -> longest t l -> find_loop nodes offs rs (length t) node = Some ms ->
  forall m, m ∈ ms <-> exists p a b, p ∈ ps /\ pt_text p <> "" /\ b <> rs /\
    t ++ rs = a ++ runes (pt_text p) ++ b /\ b `suffix_of` rs /\
    m = mkMatch (pt_rule p) (nth (length a) offs 0%nat) (nth (length a + runeLen (pt_text p)) offs 0%nat) (pt_text p).
Proof.
  induction rs as [|r rs IH]; intros t node l ms Hn Hl H m; cbn in H.
  { injection H as <-. split; [by intros Hin%not_elem_of_nil|]. intros (p & a & b & _ & _ & Hb & _ & Hsuf & _).
    by apply suffix_nil_inv in Hsuf. }
  destruct (ac_step nodes node r) as [n|] eqn:En; [|done]. cbn in H.
  destruct (find_loop nodes offs rs (S (length t)) n) as [ms'|] eqn:Em; [|done]. cbn in H. injection H as <-.
  destruct (step_longest t l node r n Hn Hl En) as (ln & Hln & Hlong).
  assert (length (t ++ [r]) = S (length t)) as Elen by (rewrite length_app; cbn; lia). rewrite <- Elen in Em.
  specialize (IH (t ++ [r]) n ln ms' Hln Hlong Em). rewrite elem_of_app, IH. clear IH Em. rewrite list_elem_of_omap. split.
  - intros [(p & Hp & Hm)|(p & a & b & Hp & Hne & Hb & E & Hsuf & ->)].
    + apply (out_longest (t ++ [r]) ln n p Hln Hlong) in Hp as (Hp & Hne & [a Ea]). exists p, a, rs.
      unfold match_at in Hm. assert (length a + runeLen (pt_text p) = length t + 1)%nat as El.
      { apply (f_equal length) in Ea. rewrite !length_app in Ea. unfold runeLen. cbn in Ea. lia. }
      destruct (Nat.ltb_spec (length t + 1) (runeLen (pt_text p))); [lia|]. injection Hm as <-. split_and!; try done.
      * intros E. apply (f_equal length) in E. cbn in E. lia.
      * rewrite app_assoc, <- Ea, <- app_assoc. done.
      * by exists [r].
      * rewrite El. repeat f_equal; lia.
    + exists p, a, b. rewrite <- app_assoc in E. split_and!; try done.
      * intros ->. destruct Hsuf as [k Ek]. apply (f_equal length) in Ek. rewrite length_app in Ek. cbn in Ek. lia.
      * destruct Hsuf as [k ->]. by exists (r :: k).
  - intros (p & a & b & Hp & Hne & Hb & E & Hsuf & ->). destruct (decide (b = rs)) as [->|Hbrs].
    + left. exists p. change (r :: rs) with ([r] ++ rs) in E. rewrite !app_assoc in E. apply app_inv_tail in E.
      split.
      * apply (out_longest (t ++ [r]) ln n p Hln Hlong). split_and!; [done|done|]. by exists a.
      * assert (length a + runeLen (pt_text p) = length t + 1)%nat as El.
        { apply (f_equal length) in E. rewrite !length_app in E. unfold runeLen. cbn in E. lia. }
        unfold match_at. destruct (Nat.ltb_spec (length t + 1) (runeLen (pt_text p))); [lia|]. rewrite El. repeat f_equal. lia.
    + right. exists p, a, b. split_and!; try done; [by rewrite <- app_assoc|].
      destruct Hsuf as [[|z k] Ek]; [done|]. injection Ek as _ ->. by exists k.
Qed.
End scan.

(** C20: When no keyword starts with two runes that occur inside a keyword, the
    automaton reports exactly the occurrences of the keywords, each with its
    byte offsets. *)
Theorem filter_find_exact (ord : nat -> gmap Z nat -> list (Z * nat)) ps text :
  ord_ok ord -> apart ps = true ->
  exists nodes ms, buildAC ord ps = Some nodes /\ Find nodes text = Some ms /\
    forall m, m ∈ ms <-> exists p a b, p ∈ ps /\ pt_text p <> "" /\ runes text = a ++ runes (pt_text p) ++ b /\
      m = mkMatch (pt_rule p) (nth (length a) (byteEnds text) 0%nat)
        (nth (length a + runeLen (pt_text p)) (byteEnds text) 0%nat) (pt_text p).
Proof.
  intros Hord Hap. destruct (build_exact ord Hord ps Hap) as (nodes & L & E & Hex & Hlinks).
  pose proof (ex_trie _ _ _ Hex) as Ht. exists nodes.
  destruct (find_loop_ends nodes L (byteEnds text) (runes text) Ht Hlinks 0 0 [] (tr_root _ _ Ht)) as [ms Hms].
  exists ms. split; [done|]. split.
  { unfold Find. destruct (Nat.eqb_spec (length nodes) 0) as [E0|]; [|done].
    rewrite <- (tr_len _ _ Ht) in E0. pose proof (lookup_lt_Some _ _ _ (tr_root _ _ Ht)). lia. }
  intros m. rewrite (find_loop_exact ps Hap nodes L Hex (byteEnds text) (runes text) [] 0 [] ms (tr_root _ _ Ht)); [|split|done].
  - split; intros (p & a & b & Hp & Hne & H).
    + destruct H as (_ & H1 & _ & H2). exists p, a, b. auto.
    + destruct H as (H1 & H2). exists p, a, b. cbn. split_and!; try done.
      * intros ->. apply (f_equal length) in H1. rewrite !length_app in H1. apply runes_nonempty in Hne.
        destruct (runes (pt_text p)); [done|cbn in H1; lia].
      * exists (a ++ runes (pt_text p)). by rewrite <- app_assoc.
  - apply suffix_nil.
  - intros s _ Hs. done.
Qed.

(** ** What any automaton of the code finds *)

(** [buildAC] only adds to what a node lists. *)
Lemma link_child_out v nodes r u nodes' i q :
  link_child v nodes r u = Some nodes' -> q ∈ out_of nodes i -> q ∈ out_of nodes' i.
Proof.
  unfold link_child. destruct (fail_search _ _ _ _) as [f|]; [|done]. cbn. intros [= <-] Hq.
  rewrite out_of_add. apply elem_of_app. left. unfold relink. destruct (next_of nodes f r) as [n|]; [|done].
  destruct (n =? u)%nat; [done|]. by rewrite out_of_set_fail.
Qed.

Lemma link_children_out v children nodes' i q : forall nodes,
  link_children v children nodes = Some nodes' -> q ∈ out_of nodes i -> q ∈ out_of nodes' i.
Proof.
  induction children as [|[r u] children IH]; intros nodes H Hq; cbn in H; [by injection H as <-|].
  destruct (link_child v nodes r u) as [n1|] eqn:E; [|done]. cbn in H. eapply IH; [exact H|]. by eapply link_child_out.
Qed.

Lemma bfs_out ord nodes' i q fuel : forall queue nodes,
  ac_bfs ord fuel queue nodes = Some nodes' -> q ∈ out_of nodes i -> q ∈ out_of nodes' i.
Proof.
  induction fuel as [|fuel IH]; intros [|v queue] nodes H Hq; cbn in H; try done; try (by injection H as <-).
  destruct (link_children _ _ _) as [n1|] eqn:E; [|done]. cbn in H. eapply IH; [exact H|]. by eapply link_children_out.
Qed.

Lemma link_children_trie v L children nodes' : forall nodes,
  trie_ok nodes L -> link_children v children nodes = Some nodes' -> trie_ok nodes' L.
Proof.
  induction children as [|[r u] children IH]; intros nodes Ht H; cbn in H; [by injection H as <-|].
  destruct (link_child v nodes r u) as [n1|] eqn:E; [|done]. cbn in H. eapply IH; [|exact H].
  destruct (link_child_next _ _ _ _ _ E) as [E1 E2]. by apply (trie_ok_same nodes).
Qed.

Lemma bfs_trie ord L nodes' fuel : forall queue nodes,
  trie_ok nodes L -> ac_bfs ord fuel queue nodes = Some nodes' -> trie_ok nodes' L.
Proof.
  induction fuel as [|fuel IH]; intros [|v queue] nodes Ht H; cbn in H; try done; try (by injection H as <-).
  destruct (link_children _ _ _) as [n1|] eqn:E; [|done]. cbn in H. eapply IH; [|exact H]. by eapply link_children_trie.
Qed.

(** From a node, runes of the trie are followed without failing. *)
Lemma step_down nodes L node l r n :
  trie_ok nodes L -> L !! node = Some l -> L !! n = Some (l ++ [r]) -> ac_step nodes node r = Some n.
Proof.
  intros Ht Hl Hn. apply (next_label _ _ _ _ _ _ Ht Hl) in Hn as Hnx. unfold ac_step.
  assert (find_node (length nodes) nodes r node = Some node) as ->; [|by cbn; rewrite Hnx].
  destruct (length nodes); cbn; (destruct (Nat.eqb_spec node 0) as [->|]; [done|by rewrite Hnx]).
Qed.

Lemma find_loop_down nodes L offs rs rest : forall k node l ms n q,
  trie_ok nodes L -> (forall a b, rs = a ++ b -> exists i, L !! i = Some (l ++ a)) -> rs <> [] ->
  L !! node = Some l -> L !! n = Some (l ++ rs) -> q ∈ out_of nodes n ->
  find_loop nodes offs (rs ++ rest) k node = Some ms -> forall m, match_at offs (k + length rs - 1) q = Some m -> m ∈ ms.
Proof.
  induction rs as [|r rs IH]; intros k node l ms n q Ht Hpre Hne Hl Hn Hq H m Hm; [done|]. cbn in H.
  destruct (Hpre [r] rs eq_refl) as [n1 Hn1]. rewrite (step_down nodes L node l r n1 Ht Hl Hn1) in H. cbn in H.
  destruct (find_loop nodes offs (rs ++ rest) (S k) n1) as [ms'|] eqn:E; [|done]. cbn in H. injection H as <-.
  apply elem_of_app. destruct rs as [|r' rs].
  - left. apply list_elem_of_omap. exists q. rewrite (label_inj _ _ _ _ _ Ht Hn1 Hn). split; [done|].
    replace (k + length [r] - 1)%nat with k in Hm by (cbn; lia). done.
  - right. eapply (IH (S k) n1 (l ++ [r]) ms' n q); try done.
    + intros a b Eab. rewrite <- app_assoc. apply (Hpre (r :: a) b). cbn. by rewrite Eab.
    + by rewrite <- app_assoc.
    + rewrite <- Hm. f_equal. cbn. lia.
Qed.

(** A rune outside all keywords takes the scan back to the root. *)
Lemma step_foreign nodes L ps node l x :
  trie_ok nodes L -> links_ok nodes L -> (forall s, s ∈ L -> is_label ps s) ->
  (forall p, p ∈ ps -> x ∉ runes (pt_text p)) -> L !! node = Some l -> ac_step nodes node x = Some 0%nat.
Proof.
  intros Ht Hl Hlab Hx Hn.
  assert (forall i, next_of nodes i x = None) as Hnone.
  { intros i. destruct (next_of nodes i x) as [j|] eqn:E; [|done]. exfalso.
    destruct (tr_next _ _ Ht _ _ _ E) as (k & _ & Hj).
    destruct (Hlab (k ++ [x])) as [E'|(p & Hp & _ & [b Eb])]; [by eapply list_elem_of_lookup_2|by destruct k|].
    apply (Hx p Hp). rewrite Eb. set_solver. }
  unfold ac_step. destruct (find_node_ends nodes L x Ht Hl (length nodes) node l Hn) as (g & lg & -> & _ & Hor).
  { rewrite <- (tr_len _ _ Ht). apply Nat.lt_le_incl, rank_bound. by eapply list_elem_of_lookup_2. }
  cbn. rewrite Hnone in Hor |- *. destruct Hor as [->|[? ?]]; done.
Qed.

Lemma find_loop_skip nodes L ps offs a x rest : forall k node l ms,
  trie_ok nodes L -> links_ok nodes L -> (forall s, s ∈ L -> is_label ps s) ->
  (forall p, p ∈ ps -> x ∉ runes (pt_text p)) -> L !! node = Some l ->
  find_loop nodes offs (a ++ x :: rest) k node = Some ms ->
  exists ms', find_loop nodes offs rest (k + S (length a)) 0 = Some ms' /\ forall m, m ∈ ms' -> m ∈ ms.
Proof.
  induction a as [|r a IH]; intros k node l ms Ht Hl Hlab Hx Hn H; cbn in H.
  - rewrite (step_foreign nodes L ps node l x Ht Hl Hlab Hx Hn) in H. cbn in H.
    destruct (find_loop nodes offs rest (S k) 0) as [ms'|] eqn:E; [|done]. cbn in H. injection H as <-.
    exists ms'. cbn. replace (k + 1)%nat with (S k) by lia. split; [done|]. intros m Hm. set_solver.
  - destruct (ac_step_ends nodes L node l r Ht Hl Hn) as (n & ln & En & Hln). rewrite En in H. cbn in H.
    destruct (find_loop nodes offs (a ++ x :: rest) (S k) n) as [ms1|] eqn:E; [|done]. cbn in H. injection H as <-.
    destruct (IH (S k) n ln ms1 Ht Hl Hlab Hx Hln E) as (ms' & E' & Hin). exists ms'. cbn.
    replace (k + S (S (length a)))%nat with (S k + S (length a))%nat by lia. split; [done|]. intros m Hm. set_solver.
Qed.

(** A keyword at the start of the text, or after a rune that occurs in no
    keyword, is always found. *)
Theorem keyword_found_after_break (ord : nat -> gmap Z nat -> list (Z * nat)) ps text p a b :
  ord_ok ord -> p ∈ ps -> pt_text p <> "" -> runes text = a ++ runes (pt_text p) ++ b ->
  (a = [] \/ exists a' x, a = a' ++ [x] /\ forall q, q ∈ ps -> x ∉ runes (pt_text q)) ->
  exists nodes ms, buildAC ord ps = Some nodes /\ Find nodes text = Some ms /\
    mkMatch (pt_rule p) (nth (length a) (byteEnds text) 0%nat)
      (nth (length a + runeLen (pt_text p)) (byteEnds text) 0%nat) (pt_text p) ∈ ms.
Proof.
  intros Hord Hp Hne Etext Ha. destruct (build_trie_built ps) as [L [Ht0 Hlab Hown Hfail]].
  destruct (bfs_ends ord Hord L (length (build_trie ps)) [] (ord 0%nat (next_map (build_trie ps) 0%nat)).*2 (build_trie ps))
    as (nodes & E & Ht & Hl); [done| |by apply queue_start|cbn; lia|].
  { intros u Hu. by rewrite Hfail in Hu. }
  assert (runes (pt_text p) ∈ L) as HpL by (apply Hlab; right; eauto).
  apply list_elem_of_lookup_1 in HpL as [n Hn].
  assert (p ∈ out_of nodes n) as Hout.
  { eapply bfs_out; [exact E|]. rewrite (Hown _ _ Hn). apply own_elem. auto. }
  destruct (find_loop_ends nodes L (byteEnds text) (runes text) Ht Hl 0 0 [] (tr_root _ _ Ht)) as [ms Hms].
  exists nodes, ms. split; [done|]. split.
  { unfold Find. destruct (Nat.eqb_spec (length nodes) 0) as [E0|]; [|done].
    rewrite <- (tr_len _ _ Ht) in E0. pose proof (lookup_lt_Some _ _ _ (tr_root _ _ Ht)). lia. }
  assert (forall k ms', find_loop nodes (byteEnds text) (runes (pt_text p) ++ b) k 0 = Some ms' -> k = length a ->
    mkMatch (pt_rule p) (nth (length a) (byteEnds text) 0%nat)
      (nth (length a + runeLen (pt_text p)) (byteEnds text) 0%nat) (pt_text p) ∈ ms') as Hgo.
  { intros k ms' H ->. pose proof (runes_nonempty _ Hne) as Hrn.
    assert (1 <= length (runes (pt_text p)))%nat as Hlen by (destruct (runes (pt_text p)); [done|cbn; lia]).
    eapply (find_loop_down nodes L (byteEnds text) (runes (pt_text p)) b (length a) 0 []); try done.
    - intros c d Ecd. apply list_elem_of_lookup_1, Hlab. right. exists p. split_and!; try done. by exists d.
    - apply (tr_root _ _ Ht).
    - unfold match_at, runeLen. destruct (Nat.ltb_spec (length a + length (runes (pt_text p)) - 1 + 1) (length (runes (pt_text p)))); [lia|].
      do 2 f_equal; f_equal; lia. }
  rewrite Etext in Hms. destruct Ha as [->|(a' & x & -> & Hx)]; [by apply (Hgo 0%nat)|].
  rewrite <- app_assoc in Hms. cbn in Hms.
  destruct (find_loop_skip nodes L ps (byteEnds text) a' x (runes (pt_text p) ++ b) 0 0 [] ms Ht Hl) as (ms' & E' & Hin); try done.
  { intros s Hs. by apply Hlab. }
  { apply (tr_root _ _ Ht). }
  apply Hin, (Hgo (0 + S (length a'))%nat); [done|]. rewrite length_app. cbn. lia.
Qed.

(** ** Offsets *)

Lemma range_widths_runes l : (range_widths l).*1 = runes_of_bytes l.
Proof.
  remember (length l) as n eqn:E. assert (length l <= n)%nat as H by lia. clear E. revert l H.
  induction n as [|n IH]; intros [|b0 t] H; try done; [cbn in H; lia|]. cbn in H. cbn [range_widths runes_of_bytes].
  destruct (b0 <? 128); [cbn; f_equal; apply IH; lia|].
  destruct t as [|b1 t1]; [done|]. cbn in H. destruct (utf8_ok2 b0 b1); [cbn; f_equal; apply IH; cbn; lia|].
  destruct t1 as [|b2 t2]; [cbn -[range_widths runes_of_bytes]; f_equal; apply IH; cbn; lia|].
  cbn in H. destruct (utf8_ok3 b0 b1 b2); [cbn; f_equal; apply IH; cbn; lia|].
  destruct t2 as [|b3 t3]; [cbn -[range_widths runes_of_bytes]; f_equal; apply IH; cbn; lia|].
  cbn in H. destruct (utf8_ok4 b0 b1 b2 b3); cbn -[range_widths runes_of_bytes]; f_equal; apply IH; cbn; lia.
Qed.

Lemma range_widths_sum l : sum_list (range_widths l).*2 = length l.
Proof.
  remember (length l) as n eqn:E. assert (length l <= n)%nat as H by lia. rewrite E. clear E. revert l H.
  induction n as [|n IH]; intros [|b0 t] H; try done; [cbn in H; lia|]. cbn in H. cbn [range_widths].
  destruct (b0 <? 128); [cbn; rewrite IH; lia|].
  destruct t as [|b1 t1]; [done|]. cbn in H. destruct (utf8_ok2 b0 b1); [cbn; rewrite IH; lia|].
  destruct t1 as [|b2 t2]; [cbn -[range_widths]; rewrite IH; cbn; lia|].
  cbn in H. destruct (utf8_ok3 b0 b1 b2); [cbn; rewrite IH; lia|].
  destruct t2 as [|b3 t3]; [cbn -[range_widths]; rewrite IH; cbn; lia|].
  cbn in H. destruct (utf8_ok4 b0 b1 b2 b3); cbn -[range_widths]; rewrite IH; cbn; lia.
Qed.

Lemma offsets_nth ws : forall o i, (i <= length ws)%nat -> nth i (offsets_from o ws) 0%nat = (o + sum_list (take i ws))%nat.
Proof.
  induction ws as [|w ws IH]; intros o [|i] Hi; cbn in *; try lia. rewrite IH by lia. lia.
Qed.

Lemma byteEnds_nth text i : (i <= length (runes text))%nat ->
  nth i (byteEnds text) 0%nat = sum_list (take i (range_widths (bytes_of_string text)).*2).
Proof.
  intros Hi. unfold byteEnds. rewrite offsets_nth; [done|]. rewrite length_fmap.
  unfold runes in Hi. by rewrite <- range_widths_runes, length_fmap in Hi.
Qed.

Lemma sum_list_take_le ws : forall i j, (i <= j)%nat -> (sum_list (take i ws) <= sum_list (take j ws))%nat.
Proof. induction ws as [|w ws IH]; intros [|i] [|j] H; cbn; try lia. specialize (IH i j). lia. Qed.

Lemma match_at_bounds text k p m :
  (k < length (runes text))%nat -> match_at (byteEnds text) k p = Some m -> (am_Start m <= am_End m <= slen text)%nat.
Proof.
  intros Hk. unfold match_at. destruct (Nat.ltb_spec (k + 1) (runeLen (pt_text p))); [done|]. intros [= <-]. cbn.
  rewrite !byteEnds_nth by lia. split; [apply sum_list_take_le; lia|].
  rewrite <- length_bytes_of_string, <- range_widths_sum.
  set (ws := (range_widths (bytes_of_string text)).*2).
  pose proof (sum_list_take_le ws (k + 1) (length ws + k + 1)) as Hle. rewrite (take_ge ws (length ws + k + 1)) in Hle by lia. lia.
Qed.

Lemma find_loop_bounds nodes text rs : forall k node ms,
  (k + length rs <= length (runes text))%nat -> find_loop nodes (byteEnds text) rs k node = Some ms ->
  Forall (fun m => (am_Start m <= am_End m <= slen text)%nat) ms.
Proof.
  induction rs as [|r rs IH]; intros k node ms Hk H; cbn in H, Hk; [by injection H as <-|].
  destruct (ac_step nodes node r) as [n|]; [|done]. cbn in H.
  destruct (find_loop nodes (byteEnds text) rs (S k) n) as [ms'|] eqn:E; [|done]. cbn in H. injection H as <-.
  apply Forall_app. split; [|eapply IH; [|exact E]; lia]. apply Forall_forall. intros m Hm.
  apply list_elem_of_omap in Hm as (p & _ & Hm). eapply match_at_bounds; [|exact Hm]. lia.
Qed.

(** Every reported match lies within the text. *)
Theorem filter_match_bounds nodes text ms :
  Find nodes text = Some ms -> Forall (fun m => (am_Start m <= am_End m <= slen text)%nat) ms.
Proof.
  unfold Find. destruct (_ =? 0)%nat; [by intros [= <-]|]. intros H. eapply find_loop_bounds; [|exact H]. lia.
Qed.

(** ** Where it fails *)

(** Go may range in this order. *)
Definition list_order (v : nat) (m : gmap Z nat) : list (Z * nat) := map_to_list m.

Lemma list_order_ok : ord_ok list_order.
Proof. intros v m. reflexivity. Qed.

Definition keywords (ws : list string) : list pattern := imap (fun i w => mkPattern w i) ws.

(** With the keywords he, she and hers the automaton finds only she in ushers:
    the failure link of a node is computed from the wrong node. *)
Theorem filter_misses_keyword :
  (nodes ← buildAC list_order (keywords ["he"; "she"; "hers"]); Find nodes "ushers") = Some [mkMatch 1 1 4 "she"].
Proof. vm_compute. reflexivity. Qed.

(** With the keyword abbab the automaton reports a second occurrence in abbabab
    that is not there. *)
Theorem filter_reports_absent_keyword :
  (nodes ← buildAC list_order (keywords ["abbab"]); Find nodes "abbabab") =
  Some [mkMatch 0 0 5 "abbab"; mkMatch 0 2 7 "abbab"].
Proof. vm_compute. reflexivity. Qed.

(** ** Witnesses *)

Lemma filter_scan_ends_witness : exists nodes ms,
  buildAC list_order (keywords ["he"; "she"; "hers"]) = Some nodes /\ Find nodes "ushers" = Some ms.
Proof. exact (filter_scan_ends list_order (keywords ["he"; "she"; "hers"]) "ushers" list_order_ok). Defined.

Lemma filter_find_exact_witness :
  apart (keywords ["spam"; "free"; "e"]) = true /\
  exists nodes ms, buildAC list_order (keywords ["spam"; "free"; "e"]) = Some nodes /\
    Find nodes "free spam" = Some ms /\ mkMatch 0 5 9 "spam" ∈ ms /\ mkMatch 2 3 4 "e" ∈ ms.
Proof.
  split; [vm_compute; reflexivity|].
  destruct (filter_find_exact list_order (keywords ["spam"; "free"; "e"]) "free spam" list_order_ok) as (nodes & ms & H1 & H2 & H3).
  - vm_compute. reflexivity.
  - exists nodes, ms. split; [exact H1|]. split; [exact H2|]. split; apply H3.
    + exists (mkPattern "spam" 0), (runes "free "), []. split; [|vm_compute; split; [discriminate|split; reflexivity]].
      apply (list_elem_of_lookup_2 _ 0). reflexivity.
    + exists (mkPattern "e" 2), (runes "fre"), (runes " spam"). split; [|vm_compute; split; [discriminate|split; reflexivity]].
      apply (list_elem_of_lookup_2 _ 2). reflexivity.
Defined.

Lemma keyword_found_after_break_witness : exists nodes ms,
  buildAC list_order (keywords ["he"; "she"; "hers"]) = Some nodes /\ Find nodes "us hers" = Some ms /\
  mkMatch 2 3 7 "hers" ∈ ms.
Proof.
  apply (keyword_found_after_break list_order (keywords ["he"; "she"; "hers"]) "us hers" (mkPattern "hers" 2)
    (runes "us ") []).
  - exact list_order_ok.
  - apply (list_elem_of_lookup_2 _ 2). reflexivity.
  - discriminate.
  - vm_compute. reflexivity.
  - right. exists (runes "us"), 32. split; [vm_compute; reflexivity|]. intros q Hq.
    assert (Forall (fun q => 32 ∉ runes (pt_text q)) (keywords ["he"; "she"; "hers"])) as Hall
      by (apply (bool_decide_unpack (Forall _ _)); vm_compute; exact I).
    exact (proj1 (Forall_forall _ _) Hall q Hq).
Defined.

Lemma filter_match_bounds_witness : exists nodes ms,
  Find nodes "ushers" = Some ms /\ ms <> [] /\ Forall (fun m => (am_Start m <= am_End m <= slen "ushers")%nat) ms.
Proof.
  destruct (buildAC list_order (keywords ["he"; "she"; "hers"])) as [nodes|] eqn:E; [|vm_compute in E; discriminate E].
  exists nodes, [mkMatch 1 1 4 "she"].
  assert (Find nodes "ushers" = Some [mkMatch 1 1 4 "she"]) as H by (vm_compute in E; injection E as <-; vm_compute; reflexivity).
  split; [exact H|]. split; [discriminate|]. exact (filter_match_bounds nodes "ushers" _ H).
Defined.
