(* ===== verification/Filter.v ===== *)
(** * Content filter: internal/filter/normalize.go, engine.go

    A text is normalized, scanned for keywords and regular expressions, and the
    strongest rule that was hit decides: block, mask or pass. The Unicode
    lower-case table, the regexp package and the order of an unstable sort are
    parameters. *)

From S2P Require Import Prelude Unicode Codec Segment Num GoTime Records Store Addr Router Dispatch.
From S2P Require Import FilterAC FilterTrie FilterFind.

(** ** Normalization *)

Record NormalizeConfig := mkNormalize {
  nc_Lowercase : bool;
  nc_FullToHalf : bool;
  nc_StripZeroWidth : bool }.

Definition isZeroWidth (r : Z) : bool := (r =? 0x200b) || (r =? 0x200c) || (r =? 0x200d) || (r =? 0xfeff).

Definition fullToHalf (r : Z) : Z :=
  if r =? 0x3000 then 32
  else if (0xff01 <=? r) && (r <=? 0xff5e) then r - 0xfee0
  else r.

Record FilterRule := mkFilterRule {
  fr_Name : string;
  fr_Enabled : option bool;
  fr_Keywords : list string;
  fr_Regex : string;
  fr_Action : string;
  fr_Tag : string;
  fr_MaskWith : string;
  fr_Priority : Z }.

Record FilterConfig := mkFilterConfig {
  fc_Enabled : bool;
  fc_Normalize : NormalizeConfig;
  fc_Rules : list FilterRule }.

Record compiledRule := mkCompiled {
  cr_name : string;
  cr_action : string;
  cr_tag : string;
  cr_maskWith : string;
  cr_priority : Z }.

(** [re.FindAllStringIndex(text, -1)]. *)
Definition regex := string -> list (nat * nat).

Record Engine := mkEngine {
  en_normalize : NormalizeConfig;
  en_rules : list compiledRule;
  en_ac : list acNode;
  en_regexps : list (nat * regex) }.

Record ruleHit := mkHit {
  rh_rule : nat;
  rh_start : nat;
  rh_end : nat }.

Record maskInterval := mkInterval {
  mi_start : nat;
  mi_end : nat;
  mi_with : string }.

#[export] Instance maskInterval_eq_dec : EqDecision maskInterval.
Proof. solve_decision. Defined.

(** [strings.ToLower(strings.TrimSpace(s))], compared with ASCII words only. *)
Definition ToLowerTrim (s : string) : string := string_of_runes (lower_rune <$> trim_runes (runes s)).

Definition actionRank (action : string) : Z :=
  if bool_decide (action = "block") then 4
  else if bool_decide (action = "mask") then 3
  else if bool_decide (action = "tag") then 2
  else 1.

(** The loop of [maskText], over sorted intervals; [pos] is where the text
    still to be copied begins. *)
Fixpoint mask_loop (text : list Z) (intervals : list maskInterval) (pos : nat) : list Z :=
  match intervals with
  | [] => drop pos text
  | i :: intervals =>
    if (mi_start i <? pos)%nat then mask_loop text intervals pos
    else if (length text <? mi_start i)%nat || (length text <? mi_end i)%nat then mask_loop text intervals pos
    else slice text pos (mi_start i) ++ bytes_of_string (mi_with i) ++ mask_loop text intervals (mi_end i)
  end.

Section filter.
Context (ToLower : Z -> Z).
Context (regexp_Compile : string -> option regex).
(** [sort.Slice] by start: an order of the intervals. *)
Context (sortSlice : list maskInterval -> list maskInterval).
Context (ord : nat -> gmap Z nat -> list (Z * nat)).

Definition norm_rune (cfg : NormalizeConfig) (r : Z) : Z :=
  let r := if nc_FullToHalf cfg then fullToHalf r else r in
  if nc_Lowercase cfg then ToLower r else r.

(** The loop of [normalizeTextWithMap] from byte [origStart]: what it writes and
    what it appends to [normToOrig]. *)
Fixpoint norm_loop (cfg : NormalizeConfig) (origStart : nat) (rws : list (Z * nat)) : list Z * list nat :=
  match rws with
  | [] => ([], [])
  | (r, w) :: rws =>
    let origEnd := (origStart + length (encode_rune r))%nat in
    let '(bs, ms) := norm_loop cfg (origStart + w) rws in
    if nc_StripZeroWidth cfg && isZeroWidth r then (bs, ms)
    else
      let written := encode_rune (norm_rune cfg r) in
      (written ++ bs, replicate (length written - 1) origStart ++ [origEnd] ++ ms)
  end.

Definition normalizeTextWithMap (text : string) (cfg : NormalizeConfig) : string * list nat :=
  let '(bs, ms) := norm_loop cfg 0 (range_widths (bytes_of_string text)) in
  (string_of_bytes bs, 0%nat :: ms).

Definition normalizeText (text : string) (cfg : NormalizeConfig) : string := (normalizeTextWithMap text cfg).1.

(** ** Compilation *)

Definition compile_rule (rule : FilterRule) : compiledRule :=
  let action := ToLowerTrim (fr_Action rule) in
  mkCompiled (fr_Name rule) (if bool_decide (action = "") then "pass" else action) (fr_Tag rule)
    (if bool_decide (fr_MaskWith rule = "") then "*" else fr_MaskWith rule) (fr_Priority rule).

Definition rule_patterns (cfg : NormalizeConfig) (idx : nat) (rule : FilterRule) : list pattern :=
  fr_Keywords rule ≫= fun kw =>
    let kw := normalizeText kw cfg in if bool_decide (kw = "") then [] else [mkPattern kw idx].

(** The loop over the rules: rules, patterns and expressions so far. *)
Fixpoint compile_loop (cfg : NormalizeConfig) (rules : list FilterRule) (crs : list compiledRule)
    (patterns : list pattern) (regexps : list (nat * regex)) : option (list compiledRule * list pattern * list (nat * regex)) :=
  match rules with
  | [] => Some (crs, patterns, regexps)
  | rule :: rules =>
    if bool_decide (fr_Enabled rule = Some false) then compile_loop cfg rules crs patterns regexps
    else
      let idx := length crs in
      let crs := crs ++ [compile_rule rule] in
      let patterns := patterns ++ rule_patterns cfg idx rule in
      if bool_decide (fr_Regex rule = "") then compile_loop cfg rules crs patterns regexps
      else
        match regexp_Compile (fr_Regex rule) with
        | None => None
        | Some re => compile_loop cfg rules crs patterns (regexps ++ [(idx, re)])
        end
  end.

(** [Compile]: [Err] for an expression that does not compile; [Ok None] when the
    filter is off. The automaton always exists ([filter_scan_ends]). *)
Definition Compile (cfg : FilterConfig) : res string (option Engine) :=
  if negb (fc_Enabled cfg) then Ok None
  else
    match compile_loop (fc_Normalize cfg) (fc_Rules cfg) [] [] [] with
    | None => Err "regexp"
    | Some (crs, patterns, regexps) =>
      Ok (Some (mkEngine (fc_Normalize cfg) crs (default [] (buildAC ord patterns)) regexps))
    end.

(** ** Evaluation *)

Definition no_rule : compiledRule := mkCompiled "" "pass" "" "*" 0.
Definition rule_of (e : Engine) (h : ruleHit) : compiledRule := default no_rule (en_rules e !! rh_rule h).

Definition hit_less (e : Engine) (a b : ruleHit) : bool :=
  let ri := rule_of e a in
  let rj := rule_of e b in
  if negb (actionRank (cr_action ri) =? actionRank (cr_action rj))
  then actionRank (cr_action rj) <? actionRank (cr_action ri)
  else cr_priority rj <? cr_priority ri.

Definition all_hits (e : Engine) (normalized : string) : list ruleHit :=
  ((fun m => mkHit (am_Rule m) (am_Start m) (am_End m)) <$> default [] (Find (en_ac e) normalized))
  ++ (en_regexps e ≫= fun cr => (fun loc => mkHit cr.1 loc.1 loc.2) <$> cr.2 normalized).

Definition collectMaskHits (e : Engine) (hits : list ruleHit) (ruleName : string) (normToOrig : list nat) : list maskInterval :=
  omap (fun h =>
    let rule := rule_of e h in
    if bool_decide (cr_action rule = "mask") && bool_decide (cr_name rule = ruleName) && (rh_start h <=? rh_end h)%nat then
      if (rh_start h <? length normToOrig)%nat && (rh_end h <? length normToOrig)%nat
      then Some (mkInterval (nth (rh_start h) normToOrig 0%nat) (nth (rh_end h) normToOrig 0%nat) (cr_maskWith rule))
      else Some (mkInterval (rh_start h) (rh_end h) (cr_maskWith rule))
    else None) hits.

Definition maskText (text : string) (intervals : list maskInterval) : string :=
  match intervals with
  | [] => text
  | _ => string_of_bytes (mask_loop (bytes_of_string text) (sortSlice intervals) 0)
  end.

Definition hit_tags (e : Engine) (hits : list ruleHit) : gset string :=
  list_to_set (omap (fun h =>
    let rule := rule_of e h in
    if bool_decide (cr_action rule = "tag") && negb (bool_decide (cr_tag rule = "")) then Some (cr_tag rule) else None) hits).

(** The last loop of [Evaluate]: the first hit that blocks or masks. *)
Fixpoint decide_loop (e : Engine) (text : string) (normToOrig : list nat) (hits rest : list ruleHit) (tags : gset string) : Decision_ :=
  match rest with
  | [] => mkDecision ActionPass "" text tags
  | h :: rest =>
    let rule := rule_of e h in
    if bool_decide (cr_action rule = "block") then mkDecision ActionBlock (cr_name rule) text tags
    else if bool_decide (cr_action rule = "mask")
    then mkDecision ActionMask (cr_name rule) (maskText text (collectMaskHits e hits (cr_name rule) normToOrig)) tags
    else decide_loop e text normToOrig hits rest tags
  end.

Definition Evaluate (e : option Engine) (text : string) : Decision_ :=
  match e with
  | None => mkDecision ActionPass "" text ∅
  | Some e =>
    let '(normalized, normToOrig) := normalizeTextWithMap text (en_normalize e) in
    let hits := sort_stable (hit_less e) (all_hits e normalized) in
    match hits with
    | [] => mkDecision ActionPass "" text ∅
    | _ => decide_loop e text normToOrig hits hits (hit_tags e hits)
    end
  end.
End filter.

(** ** The decision *)

Definition hit_action (e : Engine) (h : ruleHit) : string := cr_action (rule_of e h).

(** [a] is at least as strong as [b]. *)
Definition outranks (e : Engine) (a b : ruleHit) : Prop :=
  actionRank (hit_action e b) < actionRank (hit_action e a) \/
  actionRank (hit_action e b) = actionRank (hit_action e a) /\ cr_priority (rule_of e b) <= cr_priority (rule_of e a).

Lemma hit_less_outranks e a b : hit_less e b a = false <-> outranks e a b.
Proof.
  unfold hit_less, outranks, hit_action. destruct (Z.eqb_spec (actionRank (cr_action (rule_of e b))) (actionRank (cr_action (rule_of e a)))); cbn.
  - destruct (Z.ltb_spec (cr_priority (rule_of e a)) (cr_priority (rule_of e b))); split; intros; try done; lia.
  - destruct (Z.ltb_spec (actionRank (cr_action (rule_of e a))) (actionRank (cr_action (rule_of e b)))); split; intros; try done; lia.
Qed.

Lemma hits_sorted e hits : StronglySorted (outranks e) (sort_stable (hit_less e) hits).
Proof.
  assert (StronglySorted (fun a b => hit_less e b a = false) (sort_stable (hit_less e) hits)) as H.
  { apply sort_stable_sorted.
    - intros a b H. apply hit_less_outranks. unfold hit_less in H. unfold outranks, hit_action. destruct (_ =? _) eqn:E in H; cbn in H; lia.
    - intros a b c H1 H2. apply hit_less_outranks in H1, H2. apply hit_less_outranks. unfold outranks in *. lia. }
  induction H as [|a l _ IH Ha]; constructor; [done|]. eapply Forall_impl; [exact Ha|]. intros b Hb. by apply hit_less_outranks.
Qed.

Lemma actionRank_block a : actionRank a = 4 <-> a = "block".
Proof. unfold actionRank. repeat case_bool_decide; split; intros; try done; subst; done. Qed.

Lemma actionRank_mask a : actionRank a = 3 <-> a = "mask".
Proof. unfold actionRank. repeat case_bool_decide; split; intros; try done; subst; done. Qed.

Lemma actionRank_bounds a : 1 <= actionRank a <= 4.
Proof. unfold actionRank. repeat case_bool_decide; lia. Qed.

Lemma decide_loop_pass sortSlice e text n2o hits rest tags :
  Forall (fun h => actionRank (hit_action e h) <= 2) rest ->
  decide_loop sortSlice e text n2o hits rest tags = mkDecision ActionPass "" text tags.
Proof.
  induction 1 as [|h rest Hh _ IH]; [done|]. cbn. unfold hit_action in Hh.
  rewrite !bool_decide_false; [done|intros E|intros E]; rewrite E in Hh; by destruct Hh.
Qed.

(** C21: Evaluate blocks exactly when some hit is of a block rule, masks exactly
    when one is of a mask rule and none of a block rule, names as reason a
    rule no other hit outranks, collects the tags of all tag rules hit, and
    changes the text only when it masks. *)
Theorem filter_strongest_rule ToLower sortSlice e text :
  let hits := all_hits e (normalizeText ToLower text (en_normalize e)) in
  let d := Evaluate ToLower sortSlice (Some e) text in
  (fd_Action d = ActionBlock <-> exists h, h ∈ hits /\ hit_action e h = "block") /\
  (fd_Action d = ActionMask <-> (exists h, h ∈ hits /\ hit_action e h = "mask") /\ forall h, h ∈ hits -> hit_action e h <> "block") /\
  (fd_Action d <> ActionPass -> exists h, h ∈ hits /\ fd_Reason d = cr_name (rule_of e h) /\ forall h', h' ∈ hits -> outranks e h h') /\
  (fd_Action d <> ActionMask -> fd_NewText d = text) /\
  (forall tag, tag ∈ fd_Tags d <-> tag <> "" /\ exists h, h ∈ hits /\ hit_action e h = "tag" /\ cr_tag (rule_of e h) = tag).
Proof.
  cbv zeta. unfold Evaluate, normalizeText. destruct (normalizeTextWithMap ToLower text (en_normalize e)) as [normalized n2o]. cbn [fst].
  set (all := all_hits e normalized). pose proof (sort_stable_Permutation (hit_less e) all) as Hperm.
  pose proof (hits_sorted e all) as Hsort. set (hits := sort_stable (hit_less e) all) in *.
  assert (forall h, h ∈ all <-> h ∈ hits) as Hin by (intros h; by rewrite Hperm). setoid_rewrite Hin. clear Hin Hperm.
  assert (forall tag, tag ∈ hit_tags e hits <-> tag <> "" /\ exists h, h ∈ hits /\ hit_action e h = "tag" /\ cr_tag (rule_of e h) = tag) as Htags.
  { intros tag. unfold hit_tags, hit_action. rewrite elem_of_list_to_set, list_elem_of_omap. split.
    - intros (h & Hh & E). case_match eqn:Eb; [|done]. injection E as <-. apply andb_true_iff in Eb as [E1 E2].
      apply bool_decide_eq_true in E1. apply negb_true_iff, bool_decide_eq_false in E2. eauto.
    - intros (Hne & h & Hh & E1 & <-). exists h. split; [done|]. rewrite bool_decide_true, bool_decide_false by done. done. }
  destruct hits as [|h rest] eqn:Eh.
  { cbn. split_and!; try done.
    - split; [done|]. intros (h & Hh & _). by apply not_elem_of_nil in Hh.
    - split; [done|]. intros [(h & Hh & _) _]. by apply not_elem_of_nil in Hh. }
  inversion_clear Hsort as [|? ? _ Htop]. rewrite Forall_forall in Htop.
  assert (forall h', h' ∈ h :: rest -> outranks e h h') as Hbest.
  { intros h' [->|H']%elem_of_cons; [right; lia|auto]. }
  assert (forall h', h' ∈ h :: rest -> actionRank (hit_action e h') <= actionRank (hit_action e h)) as Hrank.
  { intros h' H'. destruct (Hbest h' H') as [|[]]; lia. }
  assert (h ∈ h :: rest) as Hh by constructor.
  cbn [decide_loop]. fold (hit_action e h).
  destruct (bool_decide_reflect (hit_action e h = "block")) as [Eb|Eb].
  { cbn. split_and!; try done; [by split; eauto|split; [done|]|eauto]. intros [_ Hno]. by apply (Hno h) in Eb. }
  assert (forall h', h' ∈ h :: rest -> hit_action e h' <> "block") as Hnob.
  { intros h' H' E. specialize (Hrank h' H'). rewrite E in Hrank. cbn in Hrank. pose proof (actionRank_bounds (hit_action e h)).
    apply Eb, actionRank_block. change (actionRank "block") with 4 in Hrank. lia. }
  destruct (bool_decide_reflect (hit_action e h = "mask")) as [Em|Em].
  { cbn. split_and!; try done; [|by split; eauto|eauto]. split; [done|]. intros (h' & H' & E). by apply Hnob in E. }
  assert (forall h', h' ∈ h :: rest -> actionRank (hit_action e h') <= 2) as Hlow.
  { intros h' H'. specialize (Hrank h' H'). pose proof (actionRank_bounds (hit_action e h)).
    assert (actionRank (hit_action e h) <> 4 /\ actionRank (hit_action e h) <> 3) as [? ?]
      by (split; [by intros ?%actionRank_block|by intros ?%actionRank_mask]). lia. }
  rewrite decide_loop_pass by (apply Forall_forall; intros h' H'; apply Hlow; by constructor). cbn.
  split_and!; try done.
  - split; [done|]. intros (h' & H' & E). by apply Hnob in E.
  - split; [done|]. intros [(h' & H' & E) _]. specialize (Hlow h' H'). rewrite E in Hlow. done.
Qed.
