(* ===== verification/FilterMask.v ===== *)
(** * Masking: what the filter replaces

    Positions in the normalized text are taken back to the original, and the
    intervals found there are replaced. *)

From S2P Require Import Prelude Unicode Codec Segment Num GoTime Records Store Addr Router Dispatch.
From S2P Require Import FilterAC FilterTrie FilterFind Filter.

(** ** The map from normalized to original positions *)

Lemma range_widths_encode r t : scalar r -> range_widths (encode_rune r ++ t) = (r, length (encode_rune r)) :: range_widths t.
Proof.
  intros Hr. unfold encode_rune. rewrite (proj2 (scalarb_spec r) Hr). cbn [negb].
  destruct (Z.ltb_spec r 128); [cbn; by rewrite (proj2 (Z.ltb_lt r 128))|].
  unfold scalar in Hr.
  destruct (Z.ltb_spec r 2048); [|destruct (Z.ltb_spec r 65536)]; cbn [app length range_widths].
  - rewrite (proj2 (Z.ltb_ge (192 + r / 64) 128)) by lia.
    assert (utf8_ok2 (192 + r / 64) (128 + r mod 64) = true) as -> by ubool. do 3 f_equal. lia.
  - rewrite (proj2 (Z.ltb_ge (224 + r / 4096) 128)) by lia.
    assert (utf8_ok2 (224 + r / 4096) (128 + (r / 64) mod 64) = false) as -> by ubool.
    assert (utf8_ok3 (224 + r / 4096) (128 + (r / 64) mod 64) (128 + r mod 64) = true) as -> by ubool. do 3 f_equal. lia.
  - rewrite (proj2 (Z.ltb_ge (240 + r / 262144) 128)) by lia.
    assert (utf8_ok2 (240 + r / 262144) (128 + (r / 4096) mod 64) = false) as -> by ubool.
    assert (utf8_ok3 (240 + r / 262144) (128 + (r / 4096) mod 64) (128 + (r / 64) mod 64) = false) as -> by ubool.
    assert (utf8_ok4 (240 + r / 262144) (128 + (r / 4096) mod 64) (128 + (r / 64) mod 64) (128 + r mod 64) = true) as -> by ubool.
    do 3 f_equal. lia.
Qed.

Definition with_width (r : Z) : Z * nat := (r, length (encode_rune r)).

Lemma range_widths_valid rs : Forall scalar rs -> range_widths (rs ≫= encode_rune) = with_width <$> rs.
Proof. induction 1 as [|r rs Hr _ IH]; [done|]. rewrite bind_cons, range_widths_encode by done. cbn. by rewrite IH. Qed.

Section mask.
Context (ToLower : Z -> Z) (cfg : NormalizeConfig).

Definition stripped (r : Z) : bool := nc_StripZeroWidth cfg && isZeroWidth r.

(** The bytes written for a list of runes. *)
Definition norm_bytes (rs : list Z) : list Z :=
  rs ≫= fun r => if stripped r then [] else encode_rune (norm_rune ToLower cfg r).

(** Where the last rune that was kept ends, starting at [o]; [prev] when none was. *)
Fixpoint kept_end (prev o : nat) (rs : list Z) : nat :=
  match rs with
  | [] => prev
  | r :: rs =>
    let o' := (o + length (encode_rune r))%nat in
    if stripped r then kept_end prev o' rs else kept_end o' o' rs
  end.

Lemma encode_rune_length r : (1 <= length (encode_rune r))%nat.
Proof. unfold encode_rune. repeat case_match; cbn; lia. Qed.

Lemma norm_loop_bytes rs o : (norm_loop ToLower cfg o (with_width <$> rs)).1 = norm_bytes rs.
Proof.
  revert o. induction rs as [|r rs IH]; intros o; [done|]. cbn. specialize (IH (o + length (encode_rune r))%nat).
  destruct (norm_loop ToLower cfg (o + length (encode_rune r)) (with_width <$> rs)) as [bs ms]. cbn in IH. subst bs.
  unfold stripped. by destruct (_ && _).
Qed.

(** The map at a boundary between runes of the normalized text. *)
Lemma norm_loop_map a b : forall o prev,
  nth (length (norm_bytes a)) (prev :: (norm_loop ToLower cfg o (with_width <$> a ++ b)).2) 0%nat = kept_end prev o a.
Proof.
  induction a as [|r a IH]; intros o prev; [done|]. cbn [app fmap list_fmap norm_loop with_width].
  specialize (IH (o + length (encode_rune r))%nat).
  destruct (norm_loop ToLower cfg (o + length (encode_rune r)) (with_width <$> a ++ b)) as [bs ms] eqn:E. cbn [snd] in IH.
  cbn [kept_end]. unfold norm_bytes. rewrite bind_cons. unfold stripped at 1 3. destruct (nc_StripZeroWidth cfg && isZeroWidth r); cbn [snd].
  - by rewrite app_nil_l, IH.
  - pose proof (encode_rune_length (norm_rune ToLower cfg r)) as Hlen. rewrite <- (IH (o + length (encode_rune r))%nat prev) || rewrite <- IH.
    rewrite length_app. set (w := length (encode_rune (norm_rune ToLower cfg r))) in *.
    replace (w + length (a ≫= fun r => if stripped r then [] else encode_rune (norm_rune ToLower cfg r)))%nat
      with (S (w - 1 + length (norm_bytes a)))%nat by (unfold norm_bytes; lia).
    cbn [nth]. rewrite app_nth2 by (rewrite length_replicate; lia). rewrite length_replicate.
    by replace (w - 1 + length (norm_bytes a) - (w - 1))%nat with (length (norm_bytes a)) by lia.
Qed.

Lemma kept_end_bounds rs : forall prev o, (prev <= o)%nat -> (prev <= kept_end prev o rs <= o + length (rs ≫= encode_rune))%nat.
Proof.
  induction rs as [|r rs IH]; intros prev o H; cbn [kept_end]; [cbn; lia|].
  rewrite bind_cons, length_app. pose proof (encode_rune_length r).
  destruct (stripped r); [specialize (IH prev (o + length (encode_rune r))%nat)|specialize (IH (o + length (encode_rune r)) (o + length (encode_rune r)))%nat]; lia.
Qed.

Lemma kept_end_app a k : forall prev o,
  kept_end prev o (a ++ k) = kept_end (kept_end prev o a) (o + length (a ≫= encode_rune)) k.
Proof.
  induction a as [|r a IH]; intros prev o; cbn [app kept_end]; [cbn; by rewrite Nat.add_0_r|].
  rewrite bind_cons, length_app, Nat.add_assoc. by destruct (stripped r); rewrite IH.
Qed.

(** The last rune kept ends where it ends. *)
Lemma kept_end_last a r prev o : stripped r = false ->
  kept_end prev o (a ++ [r]) = (o + length ((a ++ [r]) ≫= encode_rune))%nat.
Proof.
  intros Hr. rewrite kept_end_app. cbn. rewrite Hr. rewrite bind_app, length_app. cbn. rewrite app_nil_r. lia.
Qed.

(** The position map of the normalized text sends the end of a normalized
    stretch to the end of the runes it came from, and its start to the end
    of the last rune kept before it. *)
Theorem normalize_positions a k r b :
  Forall scalar (a ++ k ++ [r] ++ b) -> stripped r = false ->
  let text := string_of_runes (a ++ k ++ [r] ++ b) in
  let '(normalized, normToOrig) := normalizeTextWithMap ToLower text cfg in
  let start := length (norm_bytes a) in
  let stop := length (norm_bytes (a ++ k ++ [r])) in
  slice (bytes_of_string normalized) start stop = norm_bytes (k ++ [r]) /\
  nth stop normToOrig 0%nat = length ((a ++ k ++ [r]) ≫= encode_rune) /\
  nth start normToOrig 0%nat = kept_end 0 0 a /\
  (nth start normToOrig 0%nat <= length (a ≫= encode_rune))%nat /\
  (forall a' x, a = a' ++ [x] -> stripped x = false -> nth start normToOrig 0%nat = length (a ≫= encode_rune)).
Proof.
  intros Hs Hr. cbv zeta. unfold normalizeTextWithMap. unfold string_of_runes at 1.
  rewrite bytes_of_string_of_bytes by apply encode_runes_u8. rewrite range_widths_valid by done.
  pose proof (norm_loop_bytes (a ++ k ++ [r] ++ b) 0) as Hb.
  pose proof (norm_loop_map a (k ++ [r] ++ b) 0 0) as Hm1.
  pose proof (norm_loop_map (a ++ k ++ [r]) b 0 0) as Hm2. rewrite <- !app_assoc in Hm2.
  destruct (norm_loop ToLower cfg 0 (with_width <$> a ++ k ++ [r] ++ b)) as [bs ms]. cbn [fst snd] in *. subst bs.
  rewrite Hm1, Hm2. split_and!.
  - rewrite bytes_of_string_of_bytes.
    + unfold norm_bytes, slice. rewrite !bind_app, !length_app. rewrite drop_app_length.
      rewrite (app_assoc (k ≫= _)). rewrite take_app_le by (rewrite !length_app; lia). rewrite take_ge; [done|]. rewrite !length_app. lia.
    + unfold norm_bytes. clear. induction (a ++ k ++ [r] ++ b) as [|x l IH]; [done|]. rewrite bind_cons.
      apply (Forall_app _ (if stripped x then _ else _)). split; [|done]. case_match; [done|apply encode_rune_u8].
  - rewrite app_assoc, kept_end_last by done. lia.
  - done.
  - pose proof (kept_end_bounds a 0 0). lia.
  - intros a' x -> Hx. rewrite kept_end_last by done. lia.
Qed.
End mask.

(** ** Replacing intervals *)

(** A text cut into kept parts, masked parts and a rest. *)
Record piece := mkPiece {
  pc_keep : list Z;
  pc_hide : list Z;
  pc_with : string }.

Definition cut_text (ps : list piece) (rest : list Z) : list Z := (ps ≫= fun p => pc_keep p ++ pc_hide p) ++ rest.
Definition masked_text (ps : list piece) (rest : list Z) : list Z :=
  (ps ≫= fun p => pc_keep p ++ bytes_of_string (pc_with p)) ++ rest.

Fixpoint cut_intervals (o : nat) (ps : list piece) : list maskInterval :=
  match ps with
  | [] => []
  | p :: ps =>
    let s := (o + length (pc_keep p))%nat in
    mkInterval s (s + length (pc_hide p)) (pc_with p) :: cut_intervals (s + length (pc_hide p)) ps
  end.

Lemma mask_loop_pieces ps rest : forall done_,
  mask_loop (done_ ++ cut_text ps rest) (cut_intervals (length done_) ps) (length done_) = masked_text ps rest.
Proof.
  induction ps as [|p ps IH]; intros d; cbn [cut_intervals mask_loop]; [apply drop_app_length|].
  cbn [mi_start mi_end mi_with]. unfold cut_text, masked_text in *. rewrite !bind_cons, <- !app_assoc.
  destruct (Nat.ltb_spec (length d + length (pc_keep p)) (length d)); [lia|].
  rewrite !length_app. destruct (_ || _) eqn:E; [apply orb_true_iff in E as [E%Nat.ltb_lt|E%Nat.ltb_lt]; lia|].
  f_equal; [|f_equal].
  - unfold slice. rewrite drop_app_length. rewrite take_app_le by lia. rewrite take_ge; [done|lia].
  - specialize (IH (d ++ pc_keep p ++ pc_hide p)). rewrite !length_app, <- !app_assoc in IH.
    by rewrite Nat.add_assoc in IH.
Qed.

Lemma cut_intervals_sorted ps : forall o, Forall (fun p => pc_hide p <> []) ps ->
  StronglySorted (fun i j => (mi_start i < mi_start j)%nat) (cut_intervals o ps) /\
  Forall (fun i => (o <= mi_start i)%nat) (cut_intervals o ps).
Proof.
  induction ps as [|p ps IH]; intros o H; [by split; constructor|]. inversion_clear H as [|? ? Hp Hps]. cbn.
  destruct (IH (o + length (pc_keep p) + length (pc_hide p))%nat Hps) as [H1 H2].
  assert (1 <= length (pc_hide p))%nat by (destruct (pc_hide p); [done|cbn; lia]).
  split; constructor; try done; cbn; [|lia|]; (eapply Forall_impl; [exact H2|]); cbn; intros; lia.
Qed.

(** A sorted arrangement of intervals with distinct starts is unique. *)
Lemma sorted_unique l1 l2 : l1 ≡ₚ l2 ->
  StronglySorted (fun i j => (mi_start i <= mi_start j)%nat) l1 ->
  StronglySorted (fun i j => (mi_start i < mi_start j)%nat) l2 -> l1 = l2.
Proof.
  revert l2. induction l1 as [|x l1 IH]; intros l2 Hp H1 H2; [by apply Permutation_nil_l in Hp as ->|].
  destruct l2 as [|y l2]; [by apply Permutation_nil_r in Hp|].
  inversion_clear H1 as [|? ? Hs1 Hx]. inversion_clear H2 as [|? ? Hs2 Hy]. rewrite Forall_forall in Hx, Hy.
  assert (x = y) as <-.
  { assert (x ∈ y :: l2) as Hx2 by (rewrite <- Hp; constructor). assert (y ∈ x :: l1) as Hy1 by (rewrite Hp; constructor).
    apply elem_of_cons in Hx2 as [|Hx2]; [done|]. apply elem_of_cons in Hy1 as [|Hy1]; [done|].
    specialize (Hx y Hy1). specialize (Hy x Hx2). lia. }
  f_equal. apply IH; [by apply Permutation_cons_inv in Hp|done|done].
Qed.

(** [sort.Slice] returns the intervals in an order by their starts. *)
Definition sorts (sortSlice : list maskInterval -> list maskInterval) : Prop := forall l,
  sortSlice l ≡ₚ l /\ StronglySorted (fun i j => (mi_start i <= mi_start j)%nat) (sortSlice l).

(** On intervals that do not overlap, given in any order, maskText replaces each
    by its mask and keeps the rest of the text. *)
Theorem mask_replaces sortSlice ps rest intervals :
  sorts sortSlice -> Forall (fun p => pc_hide p <> []) ps -> Forall is_u8 (cut_text ps rest) ->
  intervals ≡ₚ cut_intervals 0 ps ->
  bytes_of_string (maskText sortSlice (string_of_bytes (cut_text ps rest)) intervals) = masked_text ps rest.
Proof.
  intros Hsort Hps Hu Hperm. destruct (Hsort intervals) as [Hp Hs].
  assert (sortSlice intervals = cut_intervals 0 ps) as E.
  { apply sorted_unique; [by rewrite Hp|done|]. by apply cut_intervals_sorted. }
  assert (Forall is_u8 (masked_text ps rest)) as Hm.
  { unfold cut_text, masked_text in *. apply Forall_app in Hu as [Hu Hr]. apply Forall_app. split; [|done].
    clear -Hu. induction ps as [|p ps IH]; [done|]. rewrite bind_cons in *. apply Forall_app in Hu as [Hu1 Hu2].
    apply Forall_app in Hu1 as [Hu1 _]. rewrite !Forall_app. split; [split; [done|apply bytes_of_string_u8]|by apply IH]. }
  unfold maskText. destruct intervals as [|i ivs].
  - apply Permutation_nil_l in Hperm. rewrite bytes_of_string_of_bytes by done. destruct ps; [done|discriminate Hperm].
  - pose proof (mask_loop_pieces ps rest []) as Hl. cbn in Hl. rewrite E, (bytes_of_string_of_bytes (cut_text ps rest)), Hl by done.
    by apply bytes_of_string_of_bytes.
Qed.

(** ** Where it falls short *)

Definition by_start (a b : maskInterval) : bool := (mi_start a <? mi_start b)%nat.

Lemma by_start_sorts : sorts (sort_stable by_start).
Proof.
  intros l. split; [apply sort_stable_Permutation|].
  assert (StronglySorted (fun a b => by_start b a = false) (sort_stable by_start l)) as H.
  { apply sort_stable_sorted; unfold by_start.
    - intros x y E%Nat.ltb_lt. apply Nat.ltb_ge. lia.
    - intros x y z E1%Nat.ltb_ge E2%Nat.ltb_ge. apply Nat.ltb_ge. lia. }
  induction H as [|a k _ IH Ha]; constructor; [done|]. eapply Forall_impl; [exact Ha|]. intros b Hb. by apply Nat.ltb_ge in Hb.
Qed.

Definition no_regexp (_ : string) : option regex := None.
Definition ascii_ToLower (r : Z) : Z := ascii_lower r.

Definition demo_rule (name action : string) (kws : list string) : FilterRule :=
  mkFilterRule name None kws "" action name "*" 0.
Definition demo (rules : list FilterRule) (text : string) : res string Decision_ :=
  e ← Compile ascii_ToLower no_regexp list_order (mkFilterConfig true (mkNormalize true true true) rules);
  Ok (Evaluate ascii_ToLower (sort_stable by_start) e text).

(** A text that contains a blocked keyword inside a tagged one passes. *)
Theorem blocked_keyword_passes :
  fd_Action <$> demo [demo_rule "b" "block" ["he"]; demo_rule "t" "tag" ["she"]] "HE" = Ok ActionBlock /\
  fd_Action <$> demo [demo_rule "b" "block" ["he"]; demo_rule "t" "tag" ["she"]] "she" = Ok ActionPass.
Proof. split; vm_compute; reflexivity. Qed.

(** Of two overlapping masked keywords the second stays visible after the
    overlap. *)
Theorem overlap_stays_visible :
  fd_NewText <$> demo [demo_rule "m" "mask" ["abc"; "cde"]] "xabcdex" = Ok "x*dex".
Proof. vm_compute. reflexivity. Qed.

(** An invalid byte before a masked keyword shifts the mask by two bytes. *)
Theorem invalid_byte_shifts_mask :
  (fun d => bytes_of_string (fd_NewText d)) <$> demo [demo_rule "m" "mask" ["bad"]] (string_of_bytes [255; 98; 97; 100])
  = Ok [255; 98; 97; 42].
Proof. vm_compute. reflexivity. Qed.

(** ** Witnesses *)

Lemma normalize_positions_witness :
  let '(normalized, normToOrig) := normalizeTextWithMap ascii_ToLower (string_of_runes ([88] ++ [0x200b; 66] ++ [65] ++ [33]))
    (mkNormalize true true true) in
  slice (bytes_of_string normalized) 1 3 = [98; 97] /\ nth 3 normToOrig 0%nat = 6%nat /\ nth 1 normToOrig 0%nat = 1%nat.
Proof.
  destruct (normalize_positions ascii_ToLower (mkNormalize true true true) [88] [0x200b; 66] 65 [33]) as (H1 & H2 & H3 & _).
  - apply (bool_decide_unpack (Forall _ _)). vm_compute. exact I.
  - vm_compute. reflexivity.
  - split; [exact H1|]. split; [exact H2|exact H3].
Defined.

Lemma mask_replaces_witness :
  let ps := [mkPiece [120] [97; 98] "*"; mkPiece [] [99] "--"] in
  bytes_of_string (maskText (sort_stable by_start) (string_of_bytes (cut_text ps [33])) (rev (cut_intervals 0 ps)))
  = [120; 42; 45; 45; 33].
Proof.
  intros ps. apply (mask_replaces (sort_stable by_start) ps [33] (rev (cut_intervals 0 ps))).
  - exact by_start_sorts.
  - apply (bool_decide_unpack (Forall _ _)). vm_compute. exact I.
  - apply (bool_decide_unpack (Forall _ _)). vm_compute. exact I.
  - rewrite <- Permutation_rev. reflexivity.
Defined.
