(* ===== verification/ClientReceipt.v ===== *)
(** * Receipts from upstream: internal/smppclient/receipt.go, id.go

    A deliver_sm body is taken apart; the id, the state, the error code and the
    date of a delivery receipt come from its optional parameters or its text.
    The four regular expressions are matchers on runes. *)

From S2P Require Import Prelude Unicode Codec Segment Pdu Num GoTime Submit FilterAC.

(** ** Text as runes, each with its bytes *)

Fixpoint with_bytes (l : list Z) (rws : list (Z * nat)) : list (Z * list Z) :=
  match rws with [] => [] | (r, w) :: rws => (r, take w l) :: with_bytes (drop w l) rws end.
Definition rune_bytes (text : string) : list (Z * list Z) :=
  let bs := bytes_of_string text in with_bytes bs (range_widths bs).

Fixpoint trim_left_pairs (t : list (Z * list Z)) : list (Z * list Z) :=
  match t with (r, b) :: t' => if is_space r then trim_left_pairs t' else t | [] => [] end.

(** [strings.TrimSpace], on the runes of the text. *)
Definition trim_pairs (t : list (Z * list Z)) : string :=
  string_of_bytes (reverse (trim_left_pairs (reverse (trim_left_pairs t))) ≫= snd).

(** ** Message ids *)

Definition TrimRight0 (bs : list Z) : list Z :=
  reverse ((fix go l := match l with 0 :: l' => go l' | _ => l end) (reverse bs)).

(** [strings.TrimSpace(strings.TrimRight(raw, "\x00"))]. *)
Definition trim_id (raw : string) : string :=
  trim_pairs (rune_bytes (string_of_bytes (TrimRight0 (bytes_of_string raw)))).

Fixpoint TrimLeft0 (bs : list Z) : list Z := match bs with 48 :: bs => TrimLeft0 bs | _ => bs end.

Definition is_hex_letter (r : Z) : bool := in_range 97 102 r || in_range 65 70 r.

Definition looksHexID (value : string) : bool :=
  forallb (fun r => in_range 48 57 r || is_hex_letter r) (runes value) && existsb is_hex_letter (runes value).

Definition hex_to_dec (raw : string) : string :=
  match ParseUint raw 16 with Ok v => FormatUint v 10 | Err _ => raw end.

Definition NormalizeID (raw format : string) : string :=
  let raw := trim_id raw in
  if bool_decide (raw = "") then ""
  else if ToLowerEq format "dec" then
    let trimmed := TrimLeft0 (bytes_of_string raw) in
    if bool_decide (trimmed = []) then "0" else string_of_bytes trimmed
  else if ToLowerEq format "hex" then hex_to_dec raw
  else if looksHexID raw then hex_to_dec raw
  else raw.

(** ** The body *)

(** [skipCString]: the offset after the terminator. *)
Fixpoint skip_scan (rest : list Z) (offset : nat) : option nat :=
  match rest with
  | [] => None
  | b :: rest => if b =? 0 then Some (S offset) else skip_scan rest (S offset)
  end.
Definition skipCString (body : list Z) (offset : nat) : option nat := skip_scan (drop offset body) offset.

Definition need (n : nat) (body : list Z) (offset : nat) : option unit :=
  if (length body <? offset + n)%nat then None else Some tt.

Record deliverBody := mkDeliverBody {
  db_esmClass : Z;
  db_dataCoding : Z;
  db_text : string }.

Definition parseDeliverBody (body : list Z) : option (deliverBody * list TLV) :=
  offset ← skipCString body 0;
  _ ← need 2 body offset;
  let offset := (offset + 2)%nat in
  offset ← skipCString body offset;
  _ ← need 2 body offset;
  let offset := (offset + 2)%nat in
  offset ← skipCString body offset;
  _ ← need 3 body offset;
  let esmClass := body.[offset] in
  let offset := (offset + 3)%nat in
  offset ← skipCString body offset;
  offset ← skipCString body offset;
  _ ← need 5 body offset;
  let offset := (offset + 2)%nat in
  let dataCoding := body.[offset] in
  let offset := (offset + 2)%nat in
  _ ← need 1 body offset;
  let smLen := Z.to_nat (body.[offset]) in
  let offset := (offset + 1)%nat in
  _ ← need smLen body offset;
  let raw := slice body offset (offset + smLen) in
  let offset := (offset + smLen)%nat in
  Some (mkDeliverBody esmClass dataCoding (DecodeSubmitText raw dataCoding), ParseTLVs (drop offset body)).

(** ** The expressions *)

(** [\w], [\s] and [\d] of the regexp package are ASCII. *)
Definition is_word (r : Z) : bool := in_range 48 57 r || in_range 65 90 r || in_range 97 122 r || (r =? 95).
Definition is_re_space (r : Z) : bool := (r =? 9) || (r =? 10) || (r =? 12) || (r =? 13) || (r =? 32).
Definition is_re_digit (r : Z) : bool := in_range 48 57 r.
(** [[A-Za-z]] under [(?i)]: also the long s and the Kelvin sign. *)
Definition is_re_alpha (r : Z) : bool := in_range 97 122 (fold_rune r).

(** [\b] between the rune before and the rune after. *)
Definition boundary (prev next : option Z) : bool :=
  xorb (from_option is_word false prev) (from_option is_word false next).

(** A literal under [(?i)]: what follows it. *)
Fixpoint re_lit (lit : list Z) (t : list (Z * list Z)) : option (list (Z * list Z)) :=
  match lit, t with
  | [], _ => Some t
  | c :: lit, (r, _) :: t => if fold_rune r =? c then re_lit lit t else None
  | _ :: _, [] => None
  end.

Fixpoint re_skip (P : Z -> bool) (t : list (Z * list Z)) : list (Z * list Z) :=
  match t with (r, b) :: t' => if P r then re_skip P t' else t | [] => [] end.
Fixpoint re_span (P : Z -> bool) (t : list (Z * list Z)) : list (Z * list Z) :=
  match t with (r, b) :: t' => if P r then (r, b) :: re_span P t' else [] | [] => [] end.

Definition nonempty {A} (l : list A) : option (list A) := match l with [] => None | _ => Some l end.

Definition id_here (t : list (Z * list Z)) : option (list (Z * list Z)) :=
  t ← re_lit [105; 100; 58] t; nonempty (re_span (fun r => negb (is_re_space r)) (re_skip is_re_space t)).
Definition stat_here (t : list (Z * list Z)) : option (list (Z * list Z)) :=
  t ← re_lit [115; 116; 97; 116; 58] t; nonempty (re_span is_re_alpha (re_skip is_re_space t)).
Definition err_here (t : list (Z * list Z)) : option (list (Z * list Z)) :=
  t ← re_lit [101; 114; 114; 58] t; nonempty (re_span is_re_digit (re_skip is_re_space t)).
Definition done_here (t : list (Z * list Z)) : option (list (Z * list Z)) :=
  t ← re_lit [100; 111; 110; 101] t;
  let t' := re_skip is_re_space t in
  if (length t' =? length t)%nat then None
  else
    t ← re_lit [100; 97; 116; 101; 58] t';
    let digits := re_span is_re_digit (re_skip is_re_space t) in
    if (length digits <? 10)%nat then None else Some (take 12 digits).

(** The leftmost place, after a [\b], where the rest of the expression matches. *)
Fixpoint re_find (here : list (Z * list Z) -> option (list (Z * list Z))) (prev : option Z) (t : list (Z * list Z))
    : option (list (Z * list Z)) :=
  match t with
  | [] => None
  | (r, b) :: t' =>
    match (if boundary prev (Some r) then here t else None) with
    | Some m => Some m
    | None => re_find here (Some r) t'
    end
  end.

(** [firstSubmatch]: the captured bytes, trimmed. *)
Definition firstSubmatch (here : list (Z * list Z) -> option (list (Z * list Z))) (text : string) : string :=
  match re_find here None (rune_bytes text) with
  | None => ""
  | Some m => trim_pairs m
  end.

(** ** Dates *)

Definition days_in_month (y : Z) (m : nat) : Z :=
  if (m =? 11)%nat then 31 else before_month (is_leap y) (S m) - before_month (is_leap y) m.

(** The day number of a date; [m] from 0. *)
Definition day_number (y : Z) (m : nat) (d : Z) : Z :=
  365 * (y - 1) + (y - 1) / 4 - (y - 1) / 100 + (y - 1) / 400 + before_month (is_leap y) m + (d - 1).

Definition two_digits (bs : list Z) (i : nat) : Z := (bs.[i] - 48) * 10 + (bs.[i + 1] - 48).

(** [time.ParseInLocation] of "0601021504", or of "060102150405" with seconds,
    on digits: two-digit years from 69 on are in the 1900s. *)
Definition parse_stamp (bs : list Z) (sec : Z) : option time :=
  let yy := two_digits bs 0 in
  let y := if 69 <=? yy then 1900 + yy else 2000 + yy in
  let m := two_digits bs 2 in
  let d := two_digits bs 4 in
  let h := two_digits bs 6 in
  let mi := two_digits bs 8 in
  if (m <? 1) || (12 <? m) then None
  else
    let mn := Z.to_nat (m - 1) in
    if (d <? 1) || (days_in_month y mn <? d) || (23 <? h) || (59 <? mi) || (59 <? sec) then None
    else Some (day_number y mn d * Day + h * Hour + mi * Minute + sec * Second).

Definition parseDoneAt (value : string) : time :=
  let bs := bytes_of_string value in
  if (length bs =? 10)%nat then default 0 (parse_stamp bs 0)
  else if (length bs =? 12)%nat then default 0 (parse_stamp bs (two_digits bs 10))
  else 0.

(** ** Receipts *)

Record ReceiptDLR := mkReceiptDLR {
  rd_ProviderID : string;
  rd_State : string;
  rd_ErrorCode : Z;
  rd_DoneAt : time }.

Definition stateByTLVValue (b : Z) : string :=
  if b =? 1 then "ENROUTE" else if b =? 2 then "DELIVRD" else if b =? 3 then "EXPIRED" else if b =? 4 then "DELETED"
  else if b =? 5 then "UNDELIV" else if b =? 6 then "ACCEPTD" else if b =? 7 then "UNKNOWN" else if b =? 8 then "REJECTD"
  else "".

Definition pick_id (idSource textID tlvID : string) : string :=
  if ToLowerEq idSource "tlv" then tlvID
  else if ToLowerEq idSource "text" then textID
  else if bool_decide (tlvID = "") then textID else tlvID.

(** [ParseDeliverSM], at the clock reading [now]: the receipt if there is one, and
    whether the message is a receipt at all. *)
Definition ParseDeliverSM (now : time) (body : list Z) (idSource idFormat : string) : option ReceiptDLR * bool :=
  match parseDeliverBody body with
  | None => (None, false)
  | Some (parsed, tlvs) =>
    if Z.land (db_esmClass parsed) 0x04 =? 0 then (None, false)
    else
      let text := db_text parsed in
      let tlvID := match FindTLV tlvs TagReceiptedMessageID with Some v => string_of_bytes (TrimRight0 v) | None => "" end in
      let id := pick_id idSource (firstSubmatch id_here text) tlvID in
      if bool_decide (id = "") then (None, true)
      else
        let state := string_of_runes (upper_rune <$> runes (firstSubmatch stat_here text)) in
        let state :=
          match FindTLV tlvs TagMessageState with
          | Some (b :: _) => if bool_decide (stateByTLVValue b = "") then state else stateByTLVValue b
          | _ => state
          end in
        let state := if bool_decide (state = "") then "UNKNOWN" else state in
        let doneAt := parseDoneAt (firstSubmatch done_here text) in
        (Some (mkReceiptDLR (NormalizeID id idFormat) state (Atoi_value (firstSubmatch err_here text))
          (if IsZero doneAt then now else doneAt)), true)
  end.
