(* ===== verification/ReceiptRoundtrip.v ===== *)
(** * Receipts read back: smpp/dlr.go against smppclient/receipt.go

    The deliver_sm body the server builds for a report, taken apart by the
    client's parser. *)

From S2P Require Import Prelude Unicode Codec Segment Pdu Num GoTime Submit FilterAC ClientReceipt.

(** ** ASCII text *)

Definition asc (l : list Z) : list (Z * list Z) := (fun b => (b, [b])) <$> l.

Lemma rune_bytes_asc s t :
  Forall (fun b => b < 128) (bytes_of_string s) -> rune_bytes (s +:+ t) = asc (bytes_of_string s) ++ rune_bytes t.
Proof.
  unfold rune_bytes. rewrite bytes_of_string_app. generalize (bytes_of_string s) as l. intros l Hl.
  induction Hl as [|b l Hb _ IH]; [done|]. cbn [app range_widths].
  rewrite (proj2 (Z.ltb_lt _ _) Hb). cbn [with_bytes].
  change (drop 1 (b :: l ++ bytes_of_string t)) with (l ++ bytes_of_string t).
  rewrite IH. done.
Qed.

Lemma asc_snd l : asc l ≫= snd = l.
Proof. induction l as [|b l IH]; [done|]. unfold asc in *. rewrite fmap_cons, bind_cons, IH. done. Qed.

Lemma trim_left_asc l : Forall (fun b => is_space b = false) l -> trim_left_pairs (asc l) = asc l.
Proof. intros [|b l' Hb _]; [done|]. cbn. by rewrite Hb. Qed.

Lemma trim_asc l : Forall (fun b => is_space b = false) l -> trim_pairs (asc l) = string_of_bytes l.
Proof.
  intros H. unfold trim_pairs, asc. rewrite trim_left_asc by done. unfold asc. rewrite <- fmap_reverse.
  rewrite trim_left_asc by by apply Forall_reverse. unfold asc.
  rewrite <- fmap_reverse, reverse_involutive. by rewrite asc_snd.
Qed.

(** ** Searching *)

Section Find.
Context (here : list (Z * list Z) -> option (list (Z * list Z))).

Lemma re_find_prev p q t :
  from_option is_word false p = from_option is_word false q -> re_find here p t = re_find here q t.
Proof. intros E. destruct t as [|[r b] t]; [done|]. simpl. unfold boundary. by rewrite E. Qed.

Lemma re_find_skip p r b t :
  here ((r, b) :: t) = None -> re_find here p ((r, b) :: t) = re_find here (Some r) t.
Proof. intros E. simpl. rewrite E. by destruct (boundary _ _). Qed.

(** Inside a word the expressions, which begin with [\b], do not match. *)
Lemma re_find_inside p w t :
  is_word p = true -> Forall (fun b => is_word b = true) w ->
  re_find here (Some p) (asc w ++ t) = re_find here (Some p) t.
Proof.
  intros Hp Hw. induction Hw as [|b w Hb Hw IH]; [done|]. cbn -[boundary]. unfold boundary at 1.
  cbn [from_option]. rewrite Hp, Hb. cbn. rewrite <- IH. apply re_find_prev. cbn. congruence.
Qed.

Lemma re_find_word p b w t :
  Forall (fun b => is_word b = true) (b :: w) -> here (asc (b :: w) ++ t) = None ->
  re_find here p (asc (b :: w) ++ t) = re_find here (Some b) t.
Proof.
  intros [Hb Hw]%Forall_cons E. cbn [asc fmap list_fmap app] in *. rewrite re_find_skip by done.
  by apply re_find_inside.
Qed.

(** A literal text that nothing can match in, whatever follows. *)
Lemma re_find_text l p t :
  (forall i, (i < length l)%nat -> here (asc (drop i l) ++ t) = None) ->
  re_find here p (asc l ++ t) = re_find here (default p (Some <$> last l)) t.
Proof.
  revert p. induction l as [|b l IH]; intros p H; [done|].
  cbn [asc fmap list_fmap app]. rewrite re_find_skip by (apply (H 0%nat); simpl; lia).
  rewrite IH by (intros i Hi; apply (H (S i)); simpl; lia).
  rewrite last_cons. by destruct (last l).
Qed.

End Find.

(** A literal that cannot match at the start of [w], whatever follows. *)
Fixpoint mismatch (lit w : list Z) : bool :=
  match lit, w with
  | c :: lit, r :: w => if fold_rune r =? c then mismatch lit w else true
  | _, _ => false
  end.

Lemma re_lit_mismatch lit w t : mismatch lit w = true -> re_lit lit (asc w ++ t) = None.
Proof.
  revert w. induction lit as [|c lit IH]; intros [|r w]; try done. cbn.
  destruct (fold_rune r =? c); [apply IH|done].
Qed.

Definition mismatch_all (lit w : list Z) : bool := forallb (fun i => mismatch lit (drop i w)) (seq 0 (length w)).

Lemma mismatch_all_spec lit w i : mismatch_all lit w = true -> (i < length w)%nat -> mismatch lit (drop i w) = true.
Proof. unfold mismatch_all. rewrite forallb_forall. intros H Hi. apply H, in_seq. lia. Qed.

Lemma re_find_literal here lit w p t :
  (forall t, re_lit lit t = None -> here t = None) -> mismatch_all lit w = true ->
  re_find here p (asc w ++ t) = re_find here (default p (Some <$> last w)) t.
Proof. intros Hh Hm. apply re_find_text. intros i Hi. by apply Hh, re_lit_mismatch, mismatch_all_spec. Qed.

Lemma re_span_stop P w x b t :
  Forall (fun r => P r = true) w -> P x = false -> re_span P (asc w ++ (x, b) :: t) = asc w.
Proof. intros Hw Hx. induction Hw as [|r w Hr _ IH]; cbn; [by rewrite Hx|]. rewrite Hr. f_equal. exact IH. Qed.

Lemma re_skip_none P r b t : P r = false -> re_skip P ((r, b) :: t) = (r, b) :: t.
Proof. intros H. cbn. by rewrite H. Qed.

(** A field: the literal, then a word of the expression's class, then a space. *)
Definition is_alnum (b : Z) : bool := in_range 48 57 b || in_range 65 90 b || in_range 97 122 b.

Lemma is_alnum_word b : is_alnum b = true -> is_word b = true.
Proof. unfold is_alnum, is_word. intros ->. done. Qed.

Ltac in_ranges := unfold is_alnum, is_word, is_space, is_re_space, is_re_alpha, is_re_digit, fold_rune, ascii_lower, in_range in *.

Lemma is_alnum_plain b : is_alnum b = true ->
  is_space b = false /\ is_re_space b = false /\ b < 128 /\ fold_rune b <> 58 /\ fold_rune b <> 32 /\ b <> 0.
Proof. in_ranges. intros H. repeat case_match; lia. Qed.

(** No literal with a colon at its end starts in a word that a space follows. *)
Lemma word_no_label lit w t :
  Forall (fun c => c <> 32) lit -> Forall (fun b => is_alnum b = true) w ->
  re_lit (lit ++ [58]) (asc w ++ (32, [32]) :: t) = None.
Proof.
  intros Hl. revert w. induction Hl as [|c lit Hc _ IH]; intros w Hw.
  - destruct Hw as [|b w Hb _]; [done|]. cbn -[Z.eqb]. apply is_alnum_plain in Hb.
    by rewrite (proj2 (Z.eqb_neq _ _)) by tauto.
  - destruct Hw as [|b w Hb Hw]; cbn -[Z.eqb].
    + change (fold_rune 32) with 32. by rewrite (proj2 (Z.eqb_neq 32 c)) by auto.
    + case_match; [by apply IH|done].
Qed.

(** ** The fields of the text *)

Lemma re_lit_hit lit w t : fold_rune <$> w = lit -> re_lit lit (asc w ++ t) = Some t.
Proof. intros <-. induction w as [|r w IH]; [done|]. cbn -[Z.eqb]. by rewrite Z.eqb_refl. Qed.

Lemma span_field P w t :
  w <> [] -> Forall (fun r => P r = true) w -> Forall (fun r => is_re_space r = false) w -> P 32 = false ->
  nonempty (re_span P (re_skip is_re_space (asc w ++ (32, [32]) :: t))) = Some (asc w).
Proof.
  intros Hne Hp Hs H32. destruct w as [|r w]; [done|].
  assert (re_skip is_re_space (asc (r :: w) ++ (32, [32]) :: t) = asc (r :: w) ++ (32, [32]) :: t) as ->.
  { apply re_skip_none. by inv Hs. }
  by rewrite re_span_stop.
Qed.

Lemma nonempty_Some {A} (l m : list A) : nonempty l = Some m -> l = m.
Proof. destruct l; [done|]. cbn. congruence. Qed.

(** A literal without spaces stops inside the word. *)
Lemma re_lit_in_word lit w t r :
  Forall (fun c => c <> 32) lit -> Forall (fun b => is_alnum b = true) w ->
  re_lit lit (asc w ++ (32, [32]) :: t) = Some r ->
  exists w', r = asc w' ++ (32, [32]) :: t /\ Forall (fun b => is_alnum b = true) w'.
Proof.
  intros Hl. revert w. induction Hl as [|c lit Hc _ IH]; intros w Hw E.
  { exists w. cbn in E. destruct (asc w ++ (32, [32]) :: t); naive_solver. }
  destruct Hw as [|b w Hb Hw]; cbn -[Z.eqb] in E.
  - change (fold_rune 32) with 32 in E. rewrite (proj2 (Z.eqb_neq 32 c)) in E by auto. done.
  - case_match; [by eapply IH|done].
Qed.

Lemma re_find_here here p w t m :
  boundary p (head w) = true -> w <> [] -> here (asc w ++ t) = Some m -> re_find here p (asc w ++ t) = Some m.
Proof. intros H Hw E. destruct w as [|r w]; [done|]. cbn -[boundary] in *. by rewrite H, E. Qed.

Lemma digit_plain b : is_re_digit b = true ->
  is_alnum b = true /\ is_word b = true /\ is_re_space b = false /\ forall c, 97 <= c -> fold_rune b <> c.
Proof. in_ranges. intros H. split_and!; intros; repeat case_match; lia. Qed.

Lemma re_find_digits here lit c p ds t :
  (forall t, re_lit (c :: lit) t = None -> here t = None) -> 97 <= c ->
  Forall (fun b => is_re_digit b = true) ds -> ds <> [] ->
  re_find here p (asc ds ++ t) = re_find here (Some 48) t.
Proof.
  intros Hh Hc Hd Hne. destruct ds as [|d ds]; [done|]. inv Hd as [|? ? Hd1 Hd2].
  destruct (digit_plain d Hd1) as (_ & Hw & _ & Hf).
  rewrite re_find_word.
  - apply re_find_prev. cbn -[is_word]. rewrite Hw. done.
  - constructor; [done|]. eapply Forall_impl; [exact Hd2|]. intros x Hx. by apply digit_plain.
  - apply Hh. cbn -[Z.eqb]. by rewrite (proj2 (Z.eqb_neq _ _) (Hf c Hc)).
Qed.

Section Text.
Context (gw dlvrd state err sub fin : list Z) (tail : list (Z * list Z)).
Context (Hgw : Forall (fun b => is_alnum b = true) gw) (Hgw0 : gw <> []).
Context (Hdlvrd : dlvrd = [48; 48; 48] \/ dlvrd = [48; 48; 49]).
Context (Hstate : state ∈ bytes_of_string <$> receipt_states).
Context (Hsub : Forall (fun b => is_re_digit b = true) sub) (Hsub0 : sub <> []).
Context (Hfin : Forall (fun b => is_re_digit b = true) fin) (Hfin0 : length fin = 10%nat).
Context (Herr : Forall (fun b => is_re_digit b = true) err) (Herr0 : err <> []).

Let sp := (32, [32]).
Let t6 := sp :: tail.
Let t5 := sp :: asc (bytes_of_string "err:") ++ asc err ++ t6.
Let t4 := sp :: asc (bytes_of_string "stat:") ++ asc state ++ t5.
Let t3 := sp :: asc (bytes_of_string "done date:") ++ asc fin ++ t4.
Let t2 := sp :: asc (bytes_of_string "sub:001 dlvrd:") ++ asc dlvrd ++ sp :: asc (bytes_of_string "submit date:")
  ++ asc sub ++ t3.
Let t1 := asc (bytes_of_string "id:") ++ asc gw ++ t2.

Lemma text_id : re_find id_here None t1 = Some (asc gw).
Proof.
  apply re_find_here; [done..|]. unfold id_here.
  erewrite (re_lit_hit _ (bytes_of_string "id:")) by done. cbn [mbind option_bind].
  apply span_field; [done| |eapply Forall_impl; [exact Hgw|]; intros b Hb; by apply is_alnum_plain|done].
  eapply Forall_impl; [exact Hgw|]. intros b Hb. apply negb_true_iff. by apply is_alnum_plain.
Qed.

(** What the searches for the other fields skip. *)
Section Skip.
Context (here : list (Z * list Z) -> option (list (Z * list Z))) (c : Z) (lit : list Z).
Context (Hh : forall t, re_lit (c :: lit) t = None -> here t = None) (Hc : 97 <= c).
Context (Hword : here (asc gw ++ t2) = None).
Context (Hm : forallb (mismatch_all (c :: lit))
  [bytes_of_string "id:"; bytes_of_string " sub:001 dlvrd:"; bytes_of_string " submit date:"] = true).

Lemma skip_to_done : re_find here None t1 = re_find here (Some 48) t3.
Proof.
  cbn [forallb] in Hm. rewrite !andb_true_iff in Hm. destruct Hm as (H1 & H2 & H3 & _).
  unfold t1. rewrite (re_find_literal _ _ _ _ _ Hh H1). cbn [last default fmap].
  destruct gw as [|b w] eqn:E; [done|]. rewrite re_find_word; [|eapply Forall_impl; [exact Hgw|]; apply is_alnum_word|done].
  change t2 with (asc (bytes_of_string " sub:001 dlvrd:") ++ asc dlvrd ++ asc (bytes_of_string " submit date:")
    ++ asc sub ++ t3).
  rewrite (re_find_literal _ _ _ _ _ Hh H2).
  rewrite (re_find_digits _ _ _ _ dlvrd _ Hh Hc); [|by destruct Hdlvrd as [-> | ->]; repeat constructor..].
  rewrite (re_find_literal _ _ _ _ _ Hh H3). by rewrite (re_find_digits _ _ _ _ _ _ Hh Hc).
Qed.

Lemma skip_to_stat : mismatch_all (c :: lit) (bytes_of_string " done date:") = true ->
  re_find here None t1 = re_find here (Some 48) t4.
Proof.
  intros H4. rewrite skip_to_done.
  change t3 with (asc (bytes_of_string " done date:") ++ asc fin ++ t4).
  rewrite (re_find_literal _ _ _ _ _ Hh H4). rewrite (re_find_digits _ _ _ _ _ _ Hh Hc); [done..|].
  intros ->. done.
Qed.

End Skip.

Lemma gw_no_label lit : Forall (fun c => c <> 32) lit -> re_lit (lit ++ [58]) (asc gw ++ t2) = None.
Proof. intros H. by apply word_no_label. Qed.

Lemma state_all (P : list Z -> Prop) : Forall P (bytes_of_string <$> receipt_states) -> P state.
Proof. rewrite Forall_forall. auto. Qed.

Lemma text_stat : re_find stat_here None t1 = Some (asc state).
Proof.
  assert (forall t, re_lit [115; 116; 97; 116; 58] t = None -> stat_here t = None) as Hh
    by (intros t E; unfold stat_here; by rewrite E).
  rewrite (skip_to_stat _ _ _ Hh); [|done|by apply Hh, (gw_no_label [115; 116; 97; 116]); repeat constructor|done..].
  unfold t4, sp. rewrite re_find_skip by done. apply re_find_here; [done..|]. unfold stat_here.
  erewrite (re_lit_hit _ (bytes_of_string "stat:")) by done. cbn [mbind option_bind].
  apply span_field; [| | |done]; apply state_all; repeat constructor; done.
Qed.

Lemma text_err : re_find err_here None t1 = Some (asc err).
Proof.
  assert (forall t, re_lit [101; 114; 114; 58] t = None -> err_here t = None) as Hh
    by (intros t E; unfold err_here; by rewrite E).
  rewrite (skip_to_stat _ _ _ Hh); [|done|by apply Hh, (gw_no_label [101; 114; 114]); repeat constructor|done..].
  assert (mismatch_all [101; 114; 114; 58] (bytes_of_string " stat:" ++ state) = true
    /\ from_option is_word false (last (bytes_of_string " stat:" ++ state)) = true) as [H5 H6].
  { apply state_all. repeat constructor. }
  assert (t4 = asc (bytes_of_string " stat:" ++ state) ++ t5) as -> by (unfold asc; by rewrite fmap_app, <- app_assoc).
  rewrite (re_find_literal _ _ _ _ _ Hh H5).
  unfold t5, sp. rewrite re_find_skip by done. apply re_find_here; [done..|]. unfold err_here.
  erewrite (re_lit_hit _ (bytes_of_string "err:")) by done. cbn [mbind option_bind].
  apply span_field; [done|done|eapply Forall_impl; [exact Herr|]; intros b Hb; by apply digit_plain|done].
Qed.

Lemma gw_not_done : done_here (asc gw ++ t2) = None.
Proof.
  unfold done_here. destruct (re_lit [100; 111; 110; 101] (asc gw ++ t2)) as [r|] eqn:E; [|done].
  apply re_lit_in_word in E as (w & -> & Hw); [|repeat constructor; done|done]. cbn [mbind option_bind].
  destruct Hw as [|b w Hb Hw].
  - case_match; [done|]. match goal with |- ?m ≫= _ = None => assert (m = None) as ->; [|done] end.
    by apply (re_lit_mismatch _ (bytes_of_string "sub:001 dlvrd:")).
  - match goal with |- context [re_skip is_re_space ?l] => assert (re_skip is_re_space l = l) as -> end.
    { apply re_skip_none. by apply is_alnum_plain. }
    by rewrite Nat.eqb_refl.
Qed.

Lemma text_done : re_find done_here None t1 = Some (asc fin).
Proof.
  assert (forall t, re_lit [100; 111; 110; 101] t = None -> done_here t = None) as Hh
    by (intros t E; unfold done_here; by rewrite E).
  rewrite (skip_to_done _ _ _ Hh); [|done| |done].
  - unfold t3, sp. rewrite re_find_skip by done. apply re_find_here; [done..|]. unfold done_here.
    change (asc (bytes_of_string "done date:")) with (asc (bytes_of_string "done") ++ sp :: asc (bytes_of_string "date:")).
    rewrite <- app_assoc. erewrite (re_lit_hit _ (bytes_of_string "done")) by done. cbn [mbind option_bind].
    match goal with |- context [re_skip is_re_space ?l] =>
      change (re_skip is_re_space l) with (asc (bytes_of_string "date:") ++ asc fin ++ t4) end.
    rewrite (proj2 (Nat.eqb_neq _ _)) by (rewrite !length_app; cbn; lia).
    erewrite (re_lit_hit _ (bytes_of_string "date:")) by done. cbn [mbind option_bind].
    assert (re_span is_re_digit (re_skip is_re_space (asc fin ++ t4)) = asc fin) as ->.
    { apply nonempty_Some, span_field; [by intros -> | done | | done].
      eapply Forall_impl; [exact Hfin|]. intros b Hb. by apply digit_plain. }
    unfold asc. rewrite length_fmap, Hfin0, take_ge by (rewrite length_fmap; lia). done.
  - apply gw_not_done.
Qed.

Lemma text_all text :
  text = asc (bytes_of_string "id:") ++ asc gw ++ asc (bytes_of_string " sub:001 dlvrd:") ++ asc dlvrd
    ++ asc (bytes_of_string " submit date:") ++ asc sub ++ asc (bytes_of_string " done date:") ++ asc fin
    ++ asc (bytes_of_string " stat:") ++ asc state ++ asc (bytes_of_string " err:") ++ asc err ++ (32, [32]) :: tail ->
  re_find id_here None text = Some (asc gw) /\ re_find stat_here None text = Some (asc state)
  /\ re_find err_here None text = Some (asc err) /\ re_find done_here None text = Some (asc fin).
Proof.
  intros E. assert (text = t1) as -> by (rewrite E; reflexivity).
  split_and!; [apply text_id|apply text_stat|apply text_err|apply text_done].
Qed.

End Text.

(** ** Numbers and dates *)

Lemma fmt_2_check :
  forallb (fun x => bool_decide (bytes_of_string (fmt_0d 2 x) = [48 + x / 10; 48 + x mod 10])) (seqZ 0 100) = true.
Proof. vm_compute. reflexivity. Qed.

Lemma bytes_fmt_2 x : 0 <= x < 100 -> bytes_of_string (fmt_0d 2 x) = [48 + x / 10; 48 + x mod 10].
Proof.
  intros H. pose proof fmt_2_check as C. rewrite forallb_forall in C.
  specialize (C x). rewrite bool_decide_eq_true in C. apply C, list_elem_of_In, elem_of_seqZ. lia.
Qed.

(** Every day of the years a two-digit year can mean. *)
Definition day_1969 : Z := 718797.
Definition day_2069 : Z := 755322.

Definition year_start (y : Z) : Z := 365 * (y - 1) + (y - 1) / 4 - (y - 1) / 100 + (y - 1) / 400.

Lemma year_day_split d y yd :
  year_day d = (y, yd) -> year_start y + yd = d /\ 0 <= yd <= 365 /\ (yd = 365 -> is_leap y = true).
Proof.
  intros [= Hy Hyd].
  set (a := d / 146097) in *. set (r := d mod 146097) in *. set (b := Z.min (r / 36524) 3) in *.
  set (r1 := r - 36524 * b) in *. set (c := r1 / 1461) in *. set (r2 := r1 mod 1461) in *.
  set (e := Z.min (r2 / 365) 3) in *.
  assert (d = 146097 * a + r /\ 0 <= r < 146097) as [Hd Hr] by (subst a r; zlia).
  assert (0 <= b <= 3 /\ 0 <= r1 <= 36524 /\ (r1 = 36524 -> b = 3)) as (Hb & Hr1 & Hr1b) by (subst r1 b; zlia).
  assert (r1 = 1461 * c + r2 /\ 0 <= r2 < 1461) as [Hc Hr2] by (subst c r2; zlia).
  assert (0 <= e <= 3 /\ 0 <= r2 - 365 * e <= 365 /\ (r2 - 365 * e = 365 -> e = 3)) as (He & Hrest & He3)
    by (subst e; zlia).
  assert (0 <= c <= 24) as Hc24 by lia.
  assert ((y - 1) / 4 = 100 * a + 25 * b + c) as E4 by (clear - Hy He; zlia).
  assert ((y - 1) / 100 = 4 * a + b) as E100 by (clear - Hy He Hc24; zlia).
  assert ((y - 1) / 400 = a) as E400 by (clear - Hy He Hc24 Hb; zlia).
  split; [|split; [lia|]].
  - unfold year_start. rewrite E4, E100, E400. lia.
  - intros E. assert (e = 3) by lia. unfold is_leap.
    assert (y mod 4 = 0) as -> by (clear - Hy H; zlia). cbn [Z.eqb andb].
    destruct (decide (c = 24)) as [C|C].
    + assert (b = 3) by lia. assert (y mod 400 = 0) as -> by (clear - Hy H H0 C; zlia). by rewrite orb_true_r.
    + assert (y mod 100 <> 0) by (clear - Hy H C Hc24; zlia). by rewrite (proj2 (Z.eqb_neq _ _)).
Qed.

Lemma month_fits_check :
  forallb (fun yd => forallb (fun leap : bool =>
    let m := month_loop leap yd 11 in let y := if leap then 4 else 1 in
    (1 <=? yd - before_month leap m + 1) && ((yd =? 365) && negb leap || (yd - before_month leap m + 1 <=? days_in_month y m)))
    [true; false]) (seqZ 0 366) = true.
Proof. vm_compute. reflexivity. Qed.

Lemma days_in_month_leap y y' m : is_leap y = is_leap y' -> days_in_month y m = days_in_month y' m.
Proof. unfold days_in_month. by intros ->. Qed.

Lemma month_fits y yd :
  0 <= yd <= 365 -> (yd = 365 -> is_leap y = true) ->
  let m := month_loop (is_leap y) yd 11 in 1 <= yd - before_month (is_leap y) m + 1 <= days_in_month y m.
Proof.
  intros H Hl m. pose proof month_fits_check as C. rewrite forallb_forall in C.
  specialize (C yd ltac:(apply list_elem_of_In, elem_of_seqZ; lia)). rewrite forallb_forall in C.
  specialize (C (is_leap y) ltac:(destruct (is_leap y); simpl; tauto)). cbv beta zeta in C.
  rewrite (days_in_month_leap _ y) in C by (by destruct (is_leap y)).
  fold m in C. rewrite andb_true_iff, orb_true_iff, andb_true_iff, !Z.leb_le, Z.eqb_eq, negb_true_iff in C.
  destruct C as [C1 [[C2 C3]|C2]]; [|lia]. rewrite (Hl C2) in C3. done.
Qed.

Lemma year_readable d y yd :
  day_1969 <= d < day_2069 -> year_day d = (y, yd) ->
  (if 69 <=? y mod 100 then 1900 + y mod 100 else 2000 + y mod 100) = y.
Proof.
  intros Hd E. apply year_day_split in E as (Es & Hyd & _). unfold year_start, day_1969, day_2069 in *.
  assert (1969 <= y <= 2068) by zlia. destruct (Z.leb_spec 69 (y mod 100)); zlia.
Qed.

(** Reading a printed date gives the minute it names. *)
Definition readable_time (t : time) : Prop := day_1969 * Day <= t < day_2069 * Day.

Lemma minutes_of_time t :
  t / Day * Day + t mod Day / Second / 3600 * Hour + (t mod Day / Second / 60) mod 60 * Minute = t - t mod Minute.
Proof.
  rewrite (Z.mod_eq t Minute) by done.
  replace (t mod Day / Second / 3600) with (t mod Day / Minute / 60) by (rewrite !Z.div_div by done; done).
  replace (t mod Day / Second / 60) with (t mod Day / Minute) by (rewrite !Z.div_div by done; done).
  assert (t / Minute = 1440 * (t / Day) + t mod Day / Minute) as ->.
  { symmetry. apply (Z.div_unique _ _ _ (t mod Day mod Minute)); [left; by apply Z.mod_pos_bound|].
    rewrite (Z.div_mod t Day) at 1 by done. rewrite (Z.div_mod (t mod Day) Minute) at 1 by done.
    change Day with (Minute * 1440). ring. }
  rewrite (Z.div_mod (t mod Day / Minute) 60) at 3 by done. change Day with (Minute * 1440).
  change Hour with (Minute * 60). ring.
Qed.

Lemma parse_printed_date t : readable_time t -> parseDoneAt (Format_0601021504 t) = t - t mod Minute.
Proof.
  intros Ht. unfold readable_time in Ht. assert (day_1969 <= t / Day < day_2069) as Hd
    by (unfold Day, Hour, Minute, Second in *; zlia).
  unfold parseDoneAt. rewrite length_bytes_of_string, slen_Format. cbn [Nat.eqb].
  unfold Format_0601021504, civil_of. destruct (year_day (t / Day)) as [y yd] eqn:Ey.
  pose proof (year_readable _ _ _ Hd Ey) as R1. apply year_day_split in Ey as (Ey & Hy & Hleap).
  pose proof (month_loop_le (is_leap y) yd 11). pose proof (month_day_bounds (is_leap y) yd Hy).
  pose proof (month_fits y yd Hy Hleap) as R2.
  cbn [c_year c_month c_day c_hour c_minute].
  set (m := month_loop (is_leap y) yd 11) in *. set (day := yd - before_month (is_leap y) m + 1) in *.
  assert (day_number y m day = t / Day) as R4 by (unfold day_number, year_start in *; lia).
  cbv zeta in R2. fold m day in R2.
  remember (t mod Day / Second) as s eqn:Es.
  assert (0 <= s < 86400) as Hs by (subst s; unfold Day, Hour, Minute, Second; zlia).
  rewrite !bytes_of_string_app, !bytes_fmt_2 by zlia. cbn [app].
  assert (forall x, 0 <= x -> (48 + x / 10 - 48) * 10 + (48 + x mod 10 - 48) = x) as Hx by (intros; zlia).
  unfold parse_stamp, two_digits, at0. cbn [lookup list_lookup default plus Nat.eqb id].
  clearbody day. assert (0 <= y mod 100) by zlia. assert (0 <= s / 3600 <= 23) by zlia.
  assert (0 <= (s / 60) mod 60 <= 59) by zlia.
  rewrite !Hx by lia. rewrite R1, Z.add_simpl_r, Nat2Z.id, R4.
  rewrite !(proj2 (Z.ltb_ge _ _)) by lia. cbn [orb default].
  rewrite Z.add_0_r. subst s. apply minutes_of_time.
Qed.

Lemma FormatUint_digits n : 0 <= n <= maxUint64 -> Forall (fun b => is_re_digit b = true) (bytes_of_string (FormatUint n 10)).
Proof.
  intros Hn. rewrite bytes_of_FormatUint by lia. apply Forall_fmap.
  destruct (digits_spec 10 n ltac:(lia) Hn) as (_ & Hd & _). eapply Forall_impl; [exact Hd|].
  intros d Hb. cbv beta in Hb. unfold compose, is_re_digit, digit_char, in_range.
  destruct (Z.ltb_spec d 10); lia.
Qed.

Lemma fmt_0d_digits w n : 0 <= n <= maxUint64 -> Forall (fun b => is_re_digit b = true) (bytes_of_string (fmt_0d w n)).
Proof.
  intros Hn. unfold fmt_0d, pad0. rewrite (proj2 (Z.ltb_ge n 0)) by lia. rewrite bytes_of_string_app.
  apply Forall_app. split; [|by apply FormatUint_digits]. induction (w - _)%nat; by constructor.
Qed.

Lemma Atoi_unsigned s : Forall (fun b => is_re_digit b = true) (bytes_of_string s) ->
  Atoi s = n ← ParseUint s 10; if 9223372036854775808 <=? n then Err ErrRange else Ok n.
Proof.
  destruct s as [|c s]; [done|]. cbn [bytes_of_string]. intros [Hc _]%Forall_cons. unfold Atoi.
  destruct c as [[] [] [] [] [] [] [] []]; done || (vm_compute in Hc; done).
Qed.

Lemma Atoi_fmt_0d w n : 0 <= n < 9223372036854775808 -> Atoi_value (fmt_0d w n) = n.
Proof.
  intros Hn. unfold Atoi_value. rewrite Atoi_unsigned by (apply fmt_0d_digits; unfold maxUint64; lia).
  unfold fmt_0d. rewrite (proj2 (Z.ltb_ge n 0)), ParseUint_pad0 by (unfold maxUint64; lia).
  cbn [mbind res_bind]. by rewrite (proj2 (Z.leb_gt _ _)) by lia.
Qed.

(** ** The whole receipt *)

Definition gateway_text (s : string) : Prop := s <> "" /\ Forall (fun b => is_alnum b = true) (bytes_of_string s).

#[export] Instance gateway_text_dec s : Decision (gateway_text s).
Proof. unfold gateway_text. apply _. Defined.

Lemma alnum_ascii l : Forall (fun b => is_alnum b = true) l -> Forall (fun b => b < 128) l.
Proof. intros H. eapply Forall_impl; [exact H|]. intros b Hb. by apply is_alnum_plain. Qed.

Lemma digits_alnum l : Forall (fun b => is_re_digit b = true) l -> Forall (fun b => is_alnum b = true) l.
Proof. intros H. eapply Forall_impl; [exact H|]. intros b Hb. by apply digit_plain. Qed.

Lemma Format_digits t : Forall (fun b => is_re_digit b = true) (bytes_of_string (Format_0601021504 t)).
Proof.
  unfold Format_0601021504, civil_of. pose proof (year_day_bounds (t / Day)) as Hy.
  destruct (year_day (t / Day)) as [y yd]. simpl in Hy.
  pose proof (month_loop_le (is_leap y) yd 11). pose proof (month_day_bounds (is_leap y) yd Hy).
  unfold Second, Day, Hour, Minute, Second in *. cbn [c_year c_month c_day c_hour c_minute].
  rewrite !bytes_of_string_app. rewrite !Forall_app.
  split_and!; apply fmt_0d_digits; unfold maxUint64; zlia.
Qed.

Lemma firstSubmatch_word here text w :
  re_find here None (rune_bytes text) = Some (asc (bytes_of_string w)) ->
  Forall (fun b => is_alnum b = true) (bytes_of_string w) -> firstSubmatch here text = w.
Proof.
  intros E Hw. unfold firstSubmatch. rewrite E, trim_asc; [apply string_of_bytes_of_string|].
  eapply Forall_impl; [exact Hw|]. intros b Hb. by apply is_alnum_plain.
Qed.

Lemma normalizeState_in state : normalizeState state ∈ receipt_states.
Proof. unfold normalizeState. case_bool_decide; [done|]. vm_compute. set_solver. Qed.

Lemma state_alnum state : state ∈ receipt_states -> Forall (fun b => is_alnum b = true) (bytes_of_string state).
Proof. revert state. apply Forall_forall. repeat constructor. Qed.

Lemma receipt_fields p :
  gateway_text (dp_GatewayID p) -> 0 <= dp_ErrorCode p < 9223372036854775808 -> readable_time (dp_DoneAt p) ->
  let text := FormatReceiptText p in
  firstSubmatch id_here text = dp_GatewayID p /\ firstSubmatch stat_here text = normalizeState (dp_State p)
  /\ Atoi_value (firstSubmatch err_here text) = dp_ErrorCode p
  /\ parseDoneAt (firstSubmatch done_here text) = dp_DoneAt p - dp_DoneAt p mod Minute.
Proof.
  intros [Hne Hgw] He Ht text.
  set (dl := if bool_decide (normalizeState (dp_State p) = "DELIVRD") then 1 else 0).
  pose proof (normalizeState_in (dp_State p)) as Hst. pose proof (state_alnum _ Hst) as Hsta.
  pose proof (Format_digits (dp_SubmittedAt p)) as Hsub. pose proof (Format_digits (dp_DoneAt p)) as Hfin.
  pose proof (fmt_0d_digits 3 (dp_ErrorCode p) ltac:(unfold maxUint64; lia)) as Herr.
  assert (bytes_of_string (fmt_0d 3 dl) = [48; 48; 48] \/ bytes_of_string (fmt_0d 3 dl) = [48; 48; 49]) as Hdl
    by (subst dl; case_bool_decide; auto).
  assert (Forall (fun b => b < 128) (bytes_of_string (fmt_0d 3 dl))) as Hdl128
    by (destruct Hdl as [-> | ->]; repeat constructor).
  assert (bytes_of_string (dp_GatewayID p) <> []) as Hgw0 by (by destruct (dp_GatewayID p)).
  assert (length (bytes_of_string (Format_0601021504 (dp_DoneAt p))) = 10%nat) as Hlen
    by (by rewrite length_bytes_of_string, slen_Format).
  assert (bytes_of_string (Format_0601021504 (dp_SubmittedAt p)) <> []) as Hsub0.
  { intros E. apply (f_equal length) in E. by rewrite length_bytes_of_string, slen_Format in E. }
  assert (bytes_of_string (fmt_0d 3 (dp_ErrorCode p)) <> []) as Herr0.
  { intros E. apply (f_equal length) in E. unfold fmt_0d in E.
    rewrite (proj2 (Z.ltb_ge _ 0)), length_bytes_of_string, slen_pad0 in E by lia. simpl in E. lia. }
  assert (bytes_of_string (normalizeState (dp_State p)) ∈ bytes_of_string <$> receipt_states) as Hst'
    by by apply list_elem_of_fmap_2.
  subst text. set (tail := asc (bytes_of_string "text:") ++ rune_bytes (truncateRunes (dp_OriginalText p) 20)).
  assert (rune_bytes (FormatReceiptText p) = asc (bytes_of_string "id:") ++ asc (bytes_of_string (dp_GatewayID p))
    ++ asc (bytes_of_string " sub:001 dlvrd:") ++ asc (bytes_of_string (fmt_0d 3 dl))
    ++ asc (bytes_of_string " submit date:") ++ asc (bytes_of_string (Format_0601021504 (dp_SubmittedAt p)))
    ++ asc (bytes_of_string " done date:") ++ asc (bytes_of_string (Format_0601021504 (dp_DoneAt p)))
    ++ asc (bytes_of_string " stat:") ++ asc (bytes_of_string (normalizeState (dp_State p)))
    ++ asc (bytes_of_string " err:") ++ asc (bytes_of_string (fmt_0d 3 (dp_ErrorCode p))) ++ (32, [32]) :: tail) as Et.
  { unfold FormatReceiptText. fold dl.
    pose proof (alnum_ascii _ Hgw). pose proof (alnum_ascii _ Hsta). pose proof (alnum_ascii _ (digits_alnum _ Hsub)).
    pose proof (alnum_ascii _ (digits_alnum _ Hfin)). pose proof (alnum_ascii _ (digits_alnum _ Herr)).
    do 13 (rewrite rune_bytes_asc by (assumption || by repeat constructor)). reflexivity. }
  destruct (text_all _ _ _ _ _ _ _ Hgw Hgw0 Hdl Hst' Hsub Hsub0 Hfin Hlen Herr Herr0 _ Et) as (T1 & T2 & T3 & T4).
  split_and!.
  - by apply firstSubmatch_word.
  - by apply firstSubmatch_word.
  - rewrite (firstSubmatch_word _ _ _ T3) by by apply digits_alnum. by apply Atoi_fmt_0d.
  - rewrite (firstSubmatch_word _ _ _ T4) by by apply digits_alnum. by apply parse_printed_date.
Qed.

(** ** The body *)

Lemma skip_at body offset s rest :
  drop offset body = CString s ++ rest -> Forall (fun b => b <> 0) (bytes_of_string s) ->
  skipCString body offset = Some (offset + slen s + 1)%nat.
Proof.
  intros Hd Hs. unfold skipCString, CString in *. rewrite Hd, <- length_bytes_of_string, <- app_assoc. clear Hd.
  revert offset. induction Hs as [|b l Hb _ IH]; intros o; cbn -[Z.eqb Nat.add].
  - f_equal. lia.
  - rewrite (proj2 (Z.eqb_neq _ _) Hb), IH. f_equal. lia.
Qed.

Lemma need_at (body : list Z) offset n a rest :
  drop offset body = a ++ rest -> n = length a -> a <> [] -> need n body offset = Some tt.
Proof. intros. unfold need. by erewrite room. Qed.

Ltac wire_skip_string H Hs :=
  rewrite (skip_at _ _ _ _ H Hs); cbn [mbind option_bind];
  match type of H with
  | drop ?o _ = CString ?s ++ _ =>
    apply (drop_next _ _ (slen s + 1)) in H; [|by rewrite ?length_CString];
    rewrite Nat.add_assoc in H; revert H; generalize (o + slen s + 1)%nat; try clear o; let o' := fresh "o" in intros o' H
  end.

Lemma parse_deliver_wire from to (a b c d esm pid prio reg repl dc smd : Z) sm tlvs :
  Forall (fun b => b <> 0) (bytes_of_string from) -> Forall (fun b => b <> 0) (bytes_of_string to) ->
  Forall tlv_ok tlvs ->
  parseDeliverBody (submit_wire "" a b from c d to esm pid prio "" "" reg repl dc smd sm tlvs)
  = Some (mkDeliverBody esm dc (DecodeSubmitText sm dc), tlvs).
Proof.
  intros Hfrom Hto Htlv. set (body := submit_wire _ _ _ _ _ _ _ _ _ _ _ _ _ _ _ _ _ _).
  assert (Forall (fun b => b <> 0) (bytes_of_string "")) as He by constructor.
  assert (drop 0 body = body) as H by done. unfold body at 2, submit_wire in H.
  unfold parseDeliverBody. generalize dependent body. intros body H.
  wire_skip_string H He. rewrite (need_at _ _ 2 _ _ H) by done. cbn [mbind option_bind]. wire_skip H 2%nat.
  wire_skip_string H Hfrom. rewrite (need_at _ _ 2 _ _ H) by done. cbn [mbind option_bind]. wire_skip H 2%nat.
  wire_skip_string H Hto. rewrite (need_at _ _ 3 _ _ H) by done. cbn [mbind option_bind].
  rewrite (at_drop0 body), H, at_app_l by (simpl; lia). change ([esm; pid; prio].[0]) with esm.
  wire_skip H 3%nat. wire_skip_string H He. wire_skip_string H He.
  assert (drop o body = [reg; repl; dc; smd; Z.of_nat (length sm)] ++ sm ++ (tlvs ≫= tlv_bytes)) as H'
    by by rewrite H. clear H. rename H' into H.
  set (hd := [reg; repl; dc; smd; Z.of_nat (length sm)]) in *.
  rewrite (need_at _ _ 5 _ _ H) by done. cbn [mbind option_bind].
  assert (body.[o + 2] = dc) as -> by (by rewrite at_drop, H, at_app_l by (simpl; lia)).
  replace (o + 2 + 2)%nat with (o + 4)%nat by lia.
  assert (body.[o + 4] = Z.of_nat (length sm)) as -> by (by rewrite at_drop, H, at_app_l by (simpl; lia)).
  pose proof (f_equal length H) as Hlen. rewrite length_drop, !length_app in Hlen. simpl in Hlen.
  unfold need. rewrite !(proj2 (Nat.ltb_ge _ _)) by lia. cbn [mbind option_bind].
  rewrite Nat2Z.id. replace (o + 4 + 1)%nat with (o + 5)%nat by lia.
  apply (drop_next _ _ 5) in H; [|done].
  rewrite (drop_next body (o + 5) (length sm) sm (tlvs ≫= tlv_bytes)) by done.
  assert (slice body (o + 5) (o + 5 + length sm) = sm) as ->.
  { unfold slice. rewrite H. replace (o + 5 + length sm - (o + 5))%nat with (length sm) by lia.
    apply take_app_length. }
  unfold ParseTLVs, ParseTLVsStrict. by rewrite tlv_loop_complete.
Qed.

Definition receipt_tlvs (p : DLRParams) : list TLV :=
  [mkTLV TagReceiptedMessageID (CString (dp_GatewayID p)); mkTLV TagMessageState [stateToCode (dp_State p)]].

Lemma built_body p :
  (slen (FormatReceiptText p) < 256)%nat ->
  pdu_Body (BuildDLR p)
  = submit_wire "" 0 0 (dp_SourceAddr p) 0 0 (dp_DestAddr p) 4 0 0 "" "" 0 0 0 0
      (bytes_of_string (FormatReceiptText p)) (receipt_tlvs p).
Proof.
  intros Hl. unfold BuildDLR, buildDeliverSMBody, appendTLVCString, appendTLVBytes, submit_wire, receipt_tlvs.
  cbn [pdu pdu_Body]. rewrite length_bytes_of_string. unfold u8. rewrite Z.mod_small by lia.
  rewrite !bind_cons. change ([] ≫= tlv_bytes) with (@nil Z). rewrite app_nil_r, <- !app_assoc. done.
Qed.

Lemma receipt_tlvs_ok p : (slen (dp_GatewayID p) < 256)%nat -> Forall tlv_ok (receipt_tlvs p).
Proof.
  intros Hl. repeat constructor; cbn [tlv_Value tlv_Tag]; try (unfold is_u16, TagReceiptedMessageID, TagMessageState; lia).
  - unfold CString. apply Forall_app. split; [apply bytes_of_string_u8|repeat constructor; lia].
  - rewrite length_CString. lia.
  - unfold stateToCode. repeat case_bool_decide; lia.
  - unfold stateToCode. repeat case_bool_decide; lia.
Qed.

Lemma TrimRight0_CString l : Forall (fun b => b <> 0) l -> TrimRight0 (l ++ [0]) = l.
Proof.
  intros Hl. unfold TrimRight0. rewrite reverse_app. cbn [reverse rev_append app]. simpl.
  assert (Forall (fun b => b <> 0) (reverse l)) as Hr by by apply Forall_reverse.
  destruct (reverse l) as [|b l'] eqn:E.
  - apply (f_equal reverse) in E. by rewrite reverse_involutive in E.
  - inv Hr. replace (b :: l') with (reverse l). destruct b; try done. all: apply reverse_involutive.
Qed.

Lemma gateway_id_length p : (slen (dp_GatewayID p) <= slen (FormatReceiptText p))%nat.
Proof. unfold FormatReceiptText. rewrite !slen_app. lia. Qed.

(** What the client is told about a state the server reports. *)
Definition reported_state (state : string) : string :=
  if bool_decide (state ∈ "ENROUTE" :: receipt_states) then state else "UNKNOWN".

Lemma state_code_read state : stateByTLVValue (stateToCode state) = reported_state state.
Proof.
  unfold reported_state. case_bool_decide as H.
  - revert state H. apply Forall_forall. repeat constructor.
  - unfold receipt_states in H. rewrite !not_elem_of_cons in H. unfold stateToCode.
    by rewrite !bool_decide_eq_false_2 by tauto.
Qed.

Lemma read_built now p idSource idFormat :
  Forall (fun b => b <> 0) (bytes_of_string (dp_SourceAddr p)) ->
  Forall (fun b => b <> 0) (bytes_of_string (dp_DestAddr p)) ->
  Forall (fun b => b <> 0) (bytes_of_string (dp_GatewayID p)) ->
  (slen (FormatReceiptText p) < 256)%nat ->
  let text := DecodeSubmitText (bytes_of_string (FormatReceiptText p)) 0 in
  let id := pick_id idSource (firstSubmatch id_here text) (dp_GatewayID p) in
  let doneAt := parseDoneAt (firstSubmatch done_here text) in
  ParseDeliverSM now (pdu_Body (BuildDLR p)) idSource idFormat
  = if bool_decide (id = "") then (None, true)
    else (Some (mkReceiptDLR (NormalizeID id idFormat) (reported_state (dp_State p))
           (Atoi_value (firstSubmatch err_here text)) (if IsZero doneAt then now else doneAt)), true).
Proof.
  intros Hs Hd Hg Hl text id doneAt. pose proof (gateway_id_length p).
  unfold ParseDeliverSM. rewrite built_body, parse_deliver_wire by (try apply receipt_tlvs_ok; done || lia).
  cbn [db_esmClass db_text]. change (Z.land 4 4 =? 0) with false. cbv match. fold text.
  change (FindTLV (receipt_tlvs p) TagReceiptedMessageID) with (Some (CString (dp_GatewayID p))).
  change (FindTLV (receipt_tlvs p) TagMessageState) with (Some [stateToCode (dp_State p)]). cbv match.
  unfold CString. rewrite TrimRight0_CString, string_of_bytes_of_string by done. fold id.
  rewrite state_code_read. case_bool_decide; [done|].
  assert (reported_state (dp_State p) <> "") as Hne.
  { unfold reported_state. case_bool_decide as Hin; [|done]. intros E. rewrite E in Hin. revert Hin. vm_compute. set_solver. }
  by rewrite !(bool_decide_eq_false_2 (reported_state (dp_State p) = "")).
Qed.

(** C22: The client's parser reads from a receipt the server built the normalized
    gateway id and the state, from the optional parameters; when the text is
    recognised as unpacked it reads the same id from the text, the error code
    and the minute of the final state as well. *)
Theorem receipt_roundtrip now p idSource idFormat :
  Forall (fun b => b <> 0) (bytes_of_string (dp_SourceAddr p)) ->
  Forall (fun b => b <> 0) (bytes_of_string (dp_DestAddr p)) ->
  gateway_text (dp_GatewayID p) -> (slen (FormatReceiptText p) < 256)%nat ->
  (ToLowerEq idSource "text" = false ->
   exists dlr, ParseDeliverSM now (pdu_Body (BuildDLR p)) idSource idFormat = (Some dlr, true)
     /\ rd_ProviderID dlr = NormalizeID (dp_GatewayID p) idFormat /\ rd_State dlr = reported_state (dp_State p))
  /\ (DecodeSubmitText (bytes_of_string (FormatReceiptText p)) 0 = FormatReceiptText p ->
      0 <= dp_ErrorCode p < 9223372036854775808 -> readable_time (dp_DoneAt p) ->
      ParseDeliverSM now (pdu_Body (BuildDLR p)) idSource idFormat
      = (Some (mkReceiptDLR (NormalizeID (dp_GatewayID p) idFormat) (reported_state (dp_State p)) (dp_ErrorCode p)
          (dp_DoneAt p - dp_DoneAt p mod Minute)), true)).
Proof.
  intros Hs Hd Hg Hl. destruct (Hg) as [Hne Hal].
  assert (Forall (fun b => b <> 0) (bytes_of_string (dp_GatewayID p))) as Hz
    by (eapply Forall_impl; [exact Hal|]; intros b Hb; by apply is_alnum_plain).
  rewrite !read_built by done. unfold pick_id. split.
  - intros ->. rewrite (bool_decide_eq_false_2 (dp_GatewayID p = "")) by done.
    destruct (ToLowerEq idSource "tlv"); rewrite bool_decide_eq_false_2 by done; eexists; done.
  - intros Ht He Hr. destruct (receipt_fields p Hg He Hr) as (F1 & _ & F3 & F4). rewrite Ht, F1, F3, F4.
    assert (IsZero (dp_DoneAt p - dp_DoneAt p mod Minute) = false) as ->.
    { apply Z.eqb_neq. pose proof (Z.mod_pos_bound (dp_DoneAt p) Minute ltac:(done)).
      unfold readable_time, day_1969, Day, Hour, Minute, Second in *. lia. }
    assert (bool_decide (dp_GatewayID p = "") = false) as E by by apply bool_decide_eq_false_2.
    destruct (ToLowerEq idSource "tlv"), (ToLowerEq idSource "text"); cbv match; rewrite ?E; cbv match; by rewrite ?E.
Qed.

Definition sample_dlr : DLRParams :=
  mkDLRParams "msg0000042" "10086" "8613800138000" (Unix 1700000000) (Unix 1700000060) "UNDELIV" 34 "hello".

Lemma receipt_roundtrip_witness :
  ParseDeliverSM 7 (pdu_Body (BuildDLR sample_dlr)) "text" ""
  = (Some (mkReceiptDLR "msg0000042" "UNDELIV" 34 (Unix 1700000040)), true).
Proof.
  destruct (receipt_roundtrip 7 sample_dlr "text" "") as [_ H].
  1-3: apply (bool_decide_unpack _); vm_compute; exact I.
  - apply Nat.ltb_lt. vm_compute. reflexivity.
  - rewrite H; [vm_compute; reflexivity|vm_compute; reflexivity|cbn; lia|].
    unfold readable_time. split; [apply Z.leb_le|apply Z.ltb_lt]; vm_compute; reflexivity.
Defined.

(** A receipt whose original text is not ASCII is taken for packed text: its
    error code and date are lost, and with ids taken from the text the whole
    receipt. *)
Theorem receipt_text_lost :
  let p := mkDLRParams "msg0000042" "10086" "8613800138000" (Unix 1700000000) (Unix 1700000060) "UNDELIV" 34
    (string_of_runes [20320; 22909]) in
  ParseDeliverSM 7 (pdu_Body (BuildDLR p)) "text" "" = (None, true)
  /\ ParseDeliverSM 7 (pdu_Body (BuildDLR p)) "tlv" "" = (Some (mkReceiptDLR "msg0000042" "UNDELIV" 0 7), true).
Proof. vm_compute. split; reflexivity. Qed.
