(* ===== verification/ClientConn.v ===== *)
(** * Client connections: internal/smppclient/connection.go, window.go, errors.go

    A connection to an upstream SMSC. One goroutine connects, binds and serves,
    again and again; each attempt has a writer, a reader and a ticker; callers
    of [submit] take a slot of the window, register a channel under their
    sequence number, send, and wait. All of them interleave between their
    operations; what a goroutine has still to do is part of the state. *)

From S2P Require Import Prelude Unicode Codec Segment Pdu Num GoTime Submit ClientReceipt.

(** The fields of [smppclient.Config] a connection reads. Durations are parsed;
    0 stands for one that does not parse. *)
Record ClientConfig := mkClientConfig {
  uc_SystemID : string;
  uc_Password : string;
  uc_SystemType : string;
  uc_WindowSize : Z;
  uc_EnquirePeriod : duration;
  uc_ResponseTimeoutMS : Z;
  uc_ReconnectMin : duration;
  uc_ReconnectMax : duration;
  uc_MessageIDDLRFormat : string;
  uc_DLRIDSource : string;
  uc_RetryOnTimeout : bool }.

(** ** Errors *)

Inductive cerr :=
| ENotBound
| EWindowFull
| ENotReady
| EConnectionClosed
| ETimeout (d : duration)
| EContext
| EStatus (status : Z)
| EBindCommand (command : Z)
| EBindStatus (status : Z)
| EUnbind
| EIdle
| EMOIgnored
| EIO.

#[export] Instance cerr_eq_dec : EqDecision cerr.
Proof. solve_decision. Defined.

(** What [submit] returns: an id, an error, or an error wrapped as permanent. *)
Inductive outcome := OID (id : string) | OErr (e : cerr) | OPermanent (e : cerr).

#[export] Instance outcome_eq_dec : EqDecision outcome.
Proof. solve_decision. Defined.

Definition permanentStatus (status : Z) : bool :=
  (status =? StatusInvalidSrcAddr) || (status =? StatusInvalidDestAddr) || (status =? statusInvalidCmd)
  || (status =? statusInvalidBind).

Definition Millisecond : duration := 1000000.

Definition responseTimeout (cfg : ClientConfig) : duration :=
  let timeout := i64 (uc_ResponseTimeoutMS cfg * Millisecond) in
  if timeout <=? 0 then 5 * Second else timeout.

Fixpoint readCString (body : list Z) : string :=
  match body with
  | [] => ""
  | b :: body => if b =? 0 then "" else String (ascii_of_byte b) (readCString body)
  end.

Definition bindBody (systemID password systemType : string) : list Z :=
  CString systemID ++ CString password ++ CString systemType ++ [0x34; 0; 0] ++ CString "".

(** The answer to a bind. *)
Definition bind_check (resp : PDU) : option cerr :=
  if negb (pdu_CommandID resp =? commandBindTransceiverResp) then Some (EBindCommand (pdu_CommandID resp))
  else if negb (pdu_Status resp =? statusOK) then Some (EBindStatus (pdu_Status resp))
  else None.

(** ** The window

    [w_slots] counts what is in the channel [slots] of capacity [w_size]. A
    channel in [pending] is named by the call that waits on it. *)

Record window := mkWindow {
  w_pending : gmap Z nat;
  w_slots : nat;
  w_size : nat }.

Inductive result := RPdu (p : PDU) | RErr (e : cerr).

#[export] Instance result_eq_dec : EqDecision result.
Proof. solve_decision. Defined.

Definition newWindow (size : Z) : window := mkWindow ∅ 0 (if size <=? 0 then 1 else Z.to_nat size).

Definition acquire (w : window) : option window :=
  if (w_slots w <? w_size w)%nat then Some (mkWindow (w_pending w) (S (w_slots w)) (w_size w)) else None.

Definition register_ (seq : Z) (ch : nat) (w : window) : window :=
  mkWindow (<[seq := ch]> (w_pending w)) (w_slots w) (w_size w).

(** The locked part of [complete] and [fail]: the channel leaves the map. *)
Definition take_pending (seq : Z) (w : window) : window * option nat :=
  (mkWindow (delete seq (w_pending w)) (w_slots w) (w_size w), w_pending w !! seq).

(** The locked part of [failAll]; [order] is the order the map is ranged over
    afterwards. *)
Definition take_all (order : list (Z * nat)) (w : window) : option window :=
  if bool_decide (order ≡ₚ map_to_list (w_pending w)) then Some (mkWindow ∅ (w_slots w) (w_size w)) else None.

(** What [complete], [fail] and [failAll] do after the lock: send the result to
    the channel, take a slot out. *)
Inductive settle := SGive (ch : nat) (r : result) | SRelease.

Definition settling (r : result) (ch : nat) : list settle := [SGive ch r; SRelease].

(** ** Goroutines *)

Inductive gid := GCall (i : nat) | GReader (k : nat) | GLoop.

#[export] Instance gid_eq_dec : EqDecision gid.
Proof. solve_decision. Defined.

(** A call of [submit]. *)
Inductive ustage :=
| UStart
| UAcquire
| USeq
| URegister
| USend
| USending (j : nat)
| UWait
| UFail (e : cerr)
| UReturn (e : cerr)
| UOver (o : outcome).

#[export] Instance ustage_eq_dec : EqDecision ustage.
Proof. solve_decision. Defined.

Record ucall := mkUcall {
  u_body : list Z;
  u_seq : Z;
  u_stage : ustage;
  u_chan : option result;
  u_ctx : bool }.

Definition u_set_stage (st : ustage) (u : ucall) : ucall := mkUcall (u_body u) (u_seq u) st (u_chan u) (u_ctx u).
Definition u_set_chan (ch : option result) (u : ucall) : ucall := mkUcall (u_body u) (u_seq u) (u_stage u) ch (u_ctx u).
Definition u_set_ctx (v : bool) (u : ucall) : ucall := mkUcall (u_body u) (u_seq u) (u_stage u) (u_chan u) v.

(** The reader of an attempt; [rafter]: what follows a send. *)
Inductive rafter := AfterParse (p : PDU) | AfterCheck | AfterUnbind.

Inductive rstage :=
| RRead
| RComplete (p : PDU)
| RSend (p : PDU) (a : rafter)
| RSending (j : nat) (p : PDU) (a : rafter)
| RParse (p : PDU)
| RCheck
| RStop.

(** The ticker of an attempt. *)
Inductive estage := EWait | ESend (p : PDU) | ESending (j : nat) (p : PDU) | EStop.

(** The goroutine [loop]. *)
Inductive loopstage :=
| LTop
| LBind (k : nat)
| LBindWait (k : nat)
| LBound (k : nat)
| LServe (k : nat)
| LClear (k : nat) (e : option cerr)
| LAfter (e : option cerr)
| LClose
| LFailAll
| LBackoff
| LStop.

(** ** The state

    An attempt: the channel [out] of capacity 128 made for it, whether its
    network connection is open, whether [attemptDone] is closed, its
    goroutines, and the errors that wait in [errCh]. [at_in] and [at_wire] are
    the history: PDUs read and written. *)

Record Attempt := mkAttempt {
  at_out : list PDU;
  at_open : bool;
  at_over : bool;
  at_writing : bool;
  at_reader : rstage;
  at_enq : estage;
  at_errs : list cerr;
  at_in : list PDU;
  at_wire : list PDU }.

Definition at_set_out (v : list PDU) (r : Attempt) : Attempt :=
  {| at_out := v; at_open := at_open r; at_over := at_over r;
     at_writing := at_writing r; at_reader := at_reader r; at_enq := at_enq r;
     at_errs := at_errs r; at_in := at_in r; at_wire := at_wire r |}.

Definition at_set_open (v : bool) (r : Attempt) : Attempt :=
  {| at_out := at_out r; at_open := v; at_over := at_over r;
     at_writing := at_writing r; at_reader := at_reader r; at_enq := at_enq r;
     at_errs := at_errs r; at_in := at_in r; at_wire := at_wire r |}.

Definition at_set_over (v : bool) (r : Attempt) : Attempt :=
  {| at_out := at_out r; at_open := at_open r; at_over := v;
     at_writing := at_writing r; at_reader := at_reader r; at_enq := at_enq r;
     at_errs := at_errs r; at_in := at_in r; at_wire := at_wire r |}.

Definition at_set_writing (v : bool) (r : Attempt) : Attempt :=
  {| at_out := at_out r; at_open := at_open r; at_over := at_over r;
     at_writing := v; at_reader := at_reader r; at_enq := at_enq r;
     at_errs := at_errs r; at_in := at_in r; at_wire := at_wire r |}.

Definition at_set_reader (v : rstage) (r : Attempt) : Attempt :=
  {| at_out := at_out r; at_open := at_open r; at_over := at_over r;
     at_writing := at_writing r; at_reader := v; at_enq := at_enq r;
     at_errs := at_errs r; at_in := at_in r; at_wire := at_wire r |}.

Definition at_set_enq (v : estage) (r : Attempt) : Attempt :=
  {| at_out := at_out r; at_open := at_open r; at_over := at_over r;
     at_writing := at_writing r; at_reader := at_reader r; at_enq := v;
     at_errs := at_errs r; at_in := at_in r; at_wire := at_wire r |}.

Definition at_set_errs (v : list cerr) (r : Attempt) : Attempt :=
  {| at_out := at_out r; at_open := at_open r; at_over := at_over r;
     at_writing := at_writing r; at_reader := at_reader r; at_enq := at_enq r;
     at_errs := v; at_in := at_in r; at_wire := at_wire r |}.

Definition at_set_in (v : list PDU) (r : Attempt) : Attempt :=
  {| at_out := at_out r; at_open := at_open r; at_over := at_over r;
     at_writing := at_writing r; at_reader := at_reader r; at_enq := at_enq r;
     at_errs := at_errs r; at_in := v; at_wire := at_wire r |}.

Definition at_set_wire (v : list PDU) (r : Attempt) : Attempt :=
  {| at_out := at_out r; at_open := at_open r; at_over := at_over r;
     at_writing := at_writing r; at_reader := at_reader r; at_enq := at_enq r;
     at_errs := at_errs r; at_in := at_in r; at_wire := v |}.

(** The fields of [connection] that only [status] shows. *)
Record cstats := mkStats {
  x_state : string;
  x_lastErr : option cerr;
  x_okCount : Z;
  x_errCount : Z;
  x_dlrCount : Z }.

Definition x_set_state (v : string) (x : cstats) : cstats := mkStats v (x_lastErr x) (x_okCount x) (x_errCount x) (x_dlrCount x).
Definition x_set_lastErr (v : option cerr) (x : cstats) : cstats := mkStats (x_state x) v (x_okCount x) (x_errCount x) (x_dlrCount x).
Definition x_ok (x : cstats) : cstats := mkStats (x_state x) (x_lastErr x) (u64 (x_okCount x + 1)) (x_errCount x) (x_dlrCount x).
Definition x_err (x : cstats) : cstats := mkStats (x_state x) (x_lastErr x) (x_okCount x) (u64 (x_errCount x + 1)) (x_dlrCount x).
Definition x_dlr (x : cstats) : cstats := mkStats (x_state x) (x_lastErr x) (x_okCount x) (x_errCount x) (u64 (x_dlrCount x + 1)).

(** The connection. [cl_todo] holds what goroutines have still to do after a
    locked part of the window's methods, in each one's order; [cl_out] and
    [cl_conn] name an attempt; [cl_cancelled] is the context; [cl_dlrs] the
    receipts handed to [onDLR]. *)
Record Client := mkClient {
  cl_cfg : ClientConfig;
  cl_win : window;
  cl_calls : list ucall;
  cl_todo : list (gid * settle);
  cl_loop : loopstage;
  cl_backoff : Z;
  cl_attempts : list Attempt;
  cl_out : option nat;
  cl_conn : option nat;
  cl_seq : Z;
  cl_bound : bool;
  cl_closed : bool;
  cl_cancelled : bool;
  cl_lastIn : Z;
  cl_stats : cstats;
  cl_dlrs : list ReceiptDLR }.

Definition cl_set_win (v : window) (r : Client) : Client :=
  {| cl_cfg := cl_cfg r; cl_win := v; cl_calls := cl_calls r;
     cl_todo := cl_todo r; cl_loop := cl_loop r; cl_backoff := cl_backoff r;
     cl_attempts := cl_attempts r; cl_out := cl_out r; cl_conn := cl_conn r;
     cl_seq := cl_seq r; cl_bound := cl_bound r; cl_closed := cl_closed r;
     cl_cancelled := cl_cancelled r; cl_lastIn := cl_lastIn r; cl_stats := cl_stats r;
     cl_dlrs := cl_dlrs r |}.

Definition cl_set_calls (v : list ucall) (r : Client) : Client :=
  {| cl_cfg := cl_cfg r; cl_win := cl_win r; cl_calls := v;
     cl_todo := cl_todo r; cl_loop := cl_loop r; cl_backoff := cl_backoff r;
     cl_attempts := cl_attempts r; cl_out := cl_out r; cl_conn := cl_conn r;
     cl_seq := cl_seq r; cl_bound := cl_bound r; cl_closed := cl_closed r;
     cl_cancelled := cl_cancelled r; cl_lastIn := cl_lastIn r; cl_stats := cl_stats r;
     cl_dlrs := cl_dlrs r |}.

Definition cl_set_todo (v : list (gid * settle)) (r : Client) : Client :=
  {| cl_cfg := cl_cfg r; cl_win := cl_win r; cl_calls := cl_calls r;
     cl_todo := v; cl_loop := cl_loop r; cl_backoff := cl_backoff r;
     cl_attempts := cl_attempts r; cl_out := cl_out r; cl_conn := cl_conn r;
     cl_seq := cl_seq r; cl_bound := cl_bound r; cl_closed := cl_closed r;
     cl_cancelled := cl_cancelled r; cl_lastIn := cl_lastIn r; cl_stats := cl_stats r;
     cl_dlrs := cl_dlrs r |}.

Definition cl_set_loop (v : loopstage) (r : Client) : Client :=
  {| cl_cfg := cl_cfg r; cl_win := cl_win r; cl_calls := cl_calls r;
     cl_todo := cl_todo r; cl_loop := v; cl_backoff := cl_backoff r;
     cl_attempts := cl_attempts r; cl_out := cl_out r; cl_conn := cl_conn r;
     cl_seq := cl_seq r; cl_bound := cl_bound r; cl_closed := cl_closed r;
     cl_cancelled := cl_cancelled r; cl_lastIn := cl_lastIn r; cl_stats := cl_stats r;
     cl_dlrs := cl_dlrs r |}.

Definition cl_set_backoff (v : Z) (r : Client) : Client :=
  {| cl_cfg := cl_cfg r; cl_win := cl_win r; cl_calls := cl_calls r;
     cl_todo := cl_todo r; cl_loop := cl_loop r; cl_backoff := v;
     cl_attempts := cl_attempts r; cl_out := cl_out r; cl_conn := cl_conn r;
     cl_seq := cl_seq r; cl_bound := cl_bound r; cl_closed := cl_closed r;
     cl_cancelled := cl_cancelled r; cl_lastIn := cl_lastIn r; cl_stats := cl_stats r;
     cl_dlrs := cl_dlrs r |}.

Definition cl_set_attempts (v : list Attempt) (r : Client) : Client :=
  {| cl_cfg := cl_cfg r; cl_win := cl_win r; cl_calls := cl_calls r;
     cl_todo := cl_todo r; cl_loop := cl_loop r; cl_backoff := cl_backoff r;
     cl_attempts := v; cl_out := cl_out r; cl_conn := cl_conn r;
     cl_seq := cl_seq r; cl_bound := cl_bound r; cl_closed := cl_closed r;
     cl_cancelled := cl_cancelled r; cl_lastIn := cl_lastIn r; cl_stats := cl_stats r;
     cl_dlrs := cl_dlrs r |}.

Definition cl_set_out (v : option nat) (r : Client) : Client :=
  {| cl_cfg := cl_cfg r; cl_win := cl_win r; cl_calls := cl_calls r;
     cl_todo := cl_todo r; cl_loop := cl_loop r; cl_backoff := cl_backoff r;
     cl_attempts := cl_attempts r; cl_out := v; cl_conn := cl_conn r;
     cl_seq := cl_seq r; cl_bound := cl_bound r; cl_closed := cl_closed r;
     cl_cancelled := cl_cancelled r; cl_lastIn := cl_lastIn r; cl_stats := cl_stats r;
     cl_dlrs := cl_dlrs r |}.

Definition cl_set_conn (v : option nat) (r : Client) : Client :=
  {| cl_cfg := cl_cfg r; cl_win := cl_win r; cl_calls := cl_calls r;
     cl_todo := cl_todo r; cl_loop := cl_loop r; cl_backoff := cl_backoff r;
     cl_attempts := cl_attempts r; cl_out := cl_out r; cl_conn := v;
     cl_seq := cl_seq r; cl_bound := cl_bound r; cl_closed := cl_closed r;
     cl_cancelled := cl_cancelled r; cl_lastIn := cl_lastIn r; cl_stats := cl_stats r;
     cl_dlrs := cl_dlrs r |}.

Definition cl_set_seq (v : Z) (r : Client) : Client :=
  {| cl_cfg := cl_cfg r; cl_win := cl_win r; cl_calls := cl_calls r;
     cl_todo := cl_todo r; cl_loop := cl_loop r; cl_backoff := cl_backoff r;
     cl_attempts := cl_attempts r; cl_out := cl_out r; cl_conn := cl_conn r;
     cl_seq := v; cl_bound := cl_bound r; cl_closed := cl_closed r;
     cl_cancelled := cl_cancelled r; cl_lastIn := cl_lastIn r; cl_stats := cl_stats r;
     cl_dlrs := cl_dlrs r |}.

Definition cl_set_bound (v : bool) (r : Client) : Client :=
  {| cl_cfg := cl_cfg r; cl_win := cl_win r; cl_calls := cl_calls r;
     cl_todo := cl_todo r; cl_loop := cl_loop r; cl_backoff := cl_backoff r;
     cl_attempts := cl_attempts r; cl_out := cl_out r; cl_conn := cl_conn r;
     cl_seq := cl_seq r; cl_bound := v; cl_closed := cl_closed r;
     cl_cancelled := cl_cancelled r; cl_lastIn := cl_lastIn r; cl_stats := cl_stats r;
     cl_dlrs := cl_dlrs r |}.

Definition cl_set_closed (v : bool) (r : Client) : Client :=
  {| cl_cfg := cl_cfg r; cl_win := cl_win r; cl_calls := cl_calls r;
     cl_todo := cl_todo r; cl_loop := cl_loop r; cl_backoff := cl_backoff r;
     cl_attempts := cl_attempts r; cl_out := cl_out r; cl_conn := cl_conn r;
     cl_seq := cl_seq r; cl_bound := cl_bound r; cl_closed := v;
     cl_cancelled := cl_cancelled r; cl_lastIn := cl_lastIn r; cl_stats := cl_stats r;
     cl_dlrs := cl_dlrs r |}.

Definition cl_set_cancelled (v : bool) (r : Client) : Client :=
  {| cl_cfg := cl_cfg r; cl_win := cl_win r; cl_calls := cl_calls r;
     cl_todo := cl_todo r; cl_loop := cl_loop r; cl_backoff := cl_backoff r;
     cl_attempts := cl_attempts r; cl_out := cl_out r; cl_conn := cl_conn r;
     cl_seq := cl_seq r; cl_bound := cl_bound r; cl_closed := cl_closed r;
     cl_cancelled := v; cl_lastIn := cl_lastIn r; cl_stats := cl_stats r;
     cl_dlrs := cl_dlrs r |}.

Definition cl_set_lastIn (v : Z) (r : Client) : Client :=
  {| cl_cfg := cl_cfg r; cl_win := cl_win r; cl_calls := cl_calls r;
     cl_todo := cl_todo r; cl_loop := cl_loop r; cl_backoff := cl_backoff r;
     cl_attempts := cl_attempts r; cl_out := cl_out r; cl_conn := cl_conn r;
     cl_seq := cl_seq r; cl_bound := cl_bound r; cl_closed := cl_closed r;
     cl_cancelled := cl_cancelled r; cl_lastIn := v; cl_stats := cl_stats r;
     cl_dlrs := cl_dlrs r |}.

Definition cl_set_stats (v : cstats) (r : Client) : Client :=
  {| cl_cfg := cl_cfg r; cl_win := cl_win r; cl_calls := cl_calls r;
     cl_todo := cl_todo r; cl_loop := cl_loop r; cl_backoff := cl_backoff r;
     cl_attempts := cl_attempts r; cl_out := cl_out r; cl_conn := cl_conn r;
     cl_seq := cl_seq r; cl_bound := cl_bound r; cl_closed := cl_closed r;
     cl_cancelled := cl_cancelled r; cl_lastIn := cl_lastIn r; cl_stats := v;
     cl_dlrs := cl_dlrs r |}.

Definition cl_set_dlrs (v : list ReceiptDLR) (r : Client) : Client :=
  {| cl_cfg := cl_cfg r; cl_win := cl_win r; cl_calls := cl_calls r;
     cl_todo := cl_todo r; cl_loop := cl_loop r; cl_backoff := cl_backoff r;
     cl_attempts := cl_attempts r; cl_out := cl_out r; cl_conn := cl_conn r;
     cl_seq := cl_seq r; cl_bound := cl_bound r; cl_closed := cl_closed r;
     cl_cancelled := cl_cancelled r; cl_lastIn := cl_lastIn r; cl_stats := cl_stats r;
     cl_dlrs := v |}.

Definition client_out_capacity : nat := 128.

Definition newConnection (cfg : ClientConfig) : Client :=
  mkClient cfg (newWindow (uc_WindowSize cfg)) [] [] LTop
    (if uc_ReconnectMin cfg <=? 0 then Second else uc_ReconnectMin cfg)
    [] None None 0 false false false 0 (mkStats "idle" None 0 0 0) [].

Definition upd_call (i : nat) (f : ucall -> ucall) (c : Client) : Client := cl_set_calls (alter f i (cl_calls c)) c.
Definition upd_at (k : nat) (f : Attempt -> Attempt) (c : Client) : Client := cl_set_attempts (alter f k (cl_attempts c)) c.
Definition upd_stats (f : cstats -> cstats) (c : Client) : Client := cl_set_stats (f (cl_stats c)) c.
Definition add_todo (g : gid) (l : list settle) (c : Client) : Client := cl_set_todo (cl_todo c ++ ((fun s => (g, s)) <$> l)) c.

Definition setError (e : option cerr) (c : Client) : Client :=
  match e with None => c | Some e => upd_stats (x_set_lastErr (Some e)) c end.

(** [nextSeq] skips 0; the two additions of a wrap are taken together. *)
Definition nextSeq (c : Client) : Client * Z :=
  let next := u32 (cl_seq c + 1) in
  let next := if next =? 0 then u32 (next + 1) else next in
  (cl_set_seq next c, next).

Definition closeConn (c : Client) : Client :=
  match cl_conn c with None => c | Some k => cl_set_conn None (upd_at k (at_set_open false) c) end.

(** [close]; a second call finds nothing to do. *)
Definition close (c : Client) : Client := if cl_closed c then c else closeConn (cl_set_closed true c).

(** The [select] of [send] on the channel of attempt [j]: the channel has
    [room], or the connection is closed; the result tells whether it was sent. *)
Definition send_put (j : nat) (p : PDU) (c : Client) : option Client :=
  match cl_attempts c !! j with
  | Some a => if (length (at_out a) <? client_out_capacity)%nat then Some (upd_at j (at_set_out (at_out a ++ [p])) c) else None
  | None => None
  end.
Definition send_select (room : bool) (j : nat) (p : PDU) (c : Client) : option (Client * bool) :=
  if room then (fun c => (c, true)) <$> send_put j p c else if cl_closed c then Some (c, false) else None.

Definition idle (g : gid) (c : Client) : bool := forallb (fun t => bool_decide (t.1 <> g)) (cl_todo c).

(** *** The window's work

    The [n]th entry of [cl_todo], once its goroutine has nothing before it: a
    send to a channel of capacity 1, or a receive from [slots]. *)
Definition run_settle (s : settle) (c : Client) : option Client :=
  match s with
  | SGive ch r =>
    match cl_calls c !! ch with
    | Some u => match u_chan u with None => Some (upd_call ch (u_set_chan (Some r)) c) | Some _ => None end
    | None => None
    end
  | SRelease =>
    match w_slots (cl_win c) with
    | O => None
    | S n => Some (cl_set_win (mkWindow (w_pending (cl_win c)) n (w_size (cl_win c))) c)
    end
  end.

Definition cl_settle (n : nat) (c : Client) : option Client :=
  '(g, s) ← cl_todo c !! n;
  if forallb (fun t => bool_decide (t.1 <> g)) (take n (cl_todo c))
  then run_settle s (cl_set_todo (delete n (cl_todo c)) c) else None.

(** [complete] and [fail], up to the unlock. *)
Definition win_take (g : gid) (seq : Z) (r : result) (c : Client) : Client :=
  let '(w, ch) := take_pending seq (cl_win c) in
  match ch with
  | None => cl_set_win w c
  | Some ch => add_todo g (settling r ch) (cl_set_win w c)
  end.

(** *** [submit] *)

Definition submit_new (body : list Z) (c : Client) : Client := cl_set_calls (cl_calls c ++ [mkUcall body 0 UStart None false]) c.

Definition submit_pdu (u : ucall) : PDU := pdu commandSubmitSM statusOK (u_seq u) (u_body u).

(** The result read from the channel. *)
Definition result_outcome (r : result) : outcome :=
  match r with
  | RErr e => OErr e
  | RPdu p =>
    if negb (pdu_Status p =? statusOK)
    then if permanentStatus (pdu_Status p) then OPermanent (EStatus (pdu_Status p)) else OErr (EStatus (pdu_Status p))
    else OID (readCString (pdu_Body p))
  end.

(** What an abandoned call returns. *)
Definition error_outcome (cfg : ClientConfig) (e : cerr) : outcome :=
  match e with
  | ETimeout _ => if uc_RetryOnTimeout cfg then OErr e else OPermanent e
  | _ => OErr e
  end.

Definition count_outcome (o : outcome) (c : Client) : Client :=
  upd_stats (match o with OID _ => x_ok | _ => x_err end) c.

(** The cases of a [select]: the first one, the timer or [closed], the caller's
    context. *)
Inductive pick := PFirst | PSecond | PContext.

Definition submit_step (i : nat) (which : pick) (c : Client) : option Client :=
  u ← cl_calls c !! i;
  if negb (idle (GCall i) c) then None else
  let go st c := upd_call i (u_set_stage st) c in
  match u_stage u with
  | UStart => Some (if cl_bound c then go UAcquire c else go (UOver (OErr ENotBound)) c)
  | UAcquire =>
    Some (match acquire (cl_win c) with
    | Some w => go USeq (cl_set_win w c)
    | None => go (UOver (OErr EWindowFull)) c
    end)
  | USeq =>
    let '(c, seq) := nextSeq c in
    Some (upd_call i (fun u => mkUcall (u_body u) seq URegister (u_chan u) (u_ctx u)) c)
  | URegister => Some (go USend (cl_set_win (register_ (u_seq u) i (cl_win c)) c))
  | USend => Some (match cl_out c with Some j => go (USending j) c | None => go (UFail ENotReady) c end)
  | USending j =>
    '(c, sent) ← send_select (match which with PFirst => true | _ => false end) j (submit_pdu u) c;
    Some (go (if sent : bool then UWait else UFail ENotReady) c)
  | UWait =>
    match which with
    | PFirst =>
      r ← u_chan u;
      let o := result_outcome r in
      Some (count_outcome o (upd_call i (fun u => u_set_chan None (u_set_stage (UOver o) u)) c))
    | PSecond => Some (go (UFail (ETimeout (responseTimeout (cl_cfg c)))) c)
    | PContext => if u_ctx u then Some (go (UFail EContext) c) else None
    end
  | UFail e => Some (go (UReturn e) (win_take (GCall i) (u_seq u) (RErr e) c))
  | UReturn e =>
    let o := error_outcome (cl_cfg c) e in
    Some (count_outcome o (go (UOver o) c))
  | UOver _ => None
  end.

(** *** The goroutines of an attempt *)

(** [writeLoop]: a write, which fails once the connection is closed; its end. *)
Definition cl_write (k : nat) (ok : bool) (c : Client) : option Client :=
  a ← cl_attempts c !! k;
  if at_writing a then
    match at_out a with
    | [] => None
    | p :: out =>
      if ok then
        if at_open a then Some (upd_at k (fun a => at_set_wire (at_wire a ++ [p]) (at_set_out out a)) c) else None
      else Some (upd_at k (fun a => at_set_errs (at_errs a ++ [EIO]) (at_set_writing false (at_set_out out a))) c)
    end
  else None.

Definition cl_write_end (k : nat) (c : Client) : option Client :=
  a ← cl_attempts c !! k;
  if at_over a || cl_closed c then Some (upd_at k (at_set_writing false) c) else None.

Definition reader_fail (e : cerr) (a : Attempt) : Attempt := at_set_errs (at_errs a ++ [e]) (at_set_reader RStop a).

(** What the reader does with a PDU. *)
Definition read_stage (p : PDU) : rstage :=
  let cmd := pdu_CommandID p in
  let reply command status body := pdu command status (pdu_SequenceID p) body in
  if cmd =? commandSubmitSMResp then RComplete p
  else if cmd =? commandDeliverSM then RSend (reply commandDeliverSMResp statusOK (CString "")) (AfterParse p)
  else if cmd =? commandEnquireLink then RSend (reply commandEnquireLinkResp statusOK []) AfterCheck
  else if cmd =? commandEnquireLinkResp then RCheck
  else if cmd =? commandUnbind then RSend (reply commandUnbindResp statusOK []) AfterUnbind
  else RSend (reply commandGenericNack statusInvalidCmd []) AfterCheck.

(** [readLoop]: a PDU was read at [now], or the read failed. *)
Definition cl_read (k : nat) (now : Z) (p : PDU) (c : Client) : option Client :=
  a ← cl_attempts c !! k;
  match at_reader a with
  | RRead =>
    if at_open a then
      let c := upd_at k (fun a => at_set_reader (read_stage p) (at_set_in (at_in a ++ [p]) a)) (cl_set_lastIn now c) in
      Some (if pdu_CommandID p =? commandDeliverSM then upd_stats x_dlr c else c)
    else None
  | _ => None
  end.

Definition cl_read_fail (k : nat) (c : Client) : option Client :=
  a ← cl_attempts c !! k;
  match at_reader a with RRead => Some (upd_at k (reader_fail EIO) c) | _ => None end.

Definition after_send (k : nat) (a : rafter) (c : Client) : Client :=
  match a with
  | AfterParse p => upd_at k (at_set_reader (RParse p)) c
  | AfterCheck => upd_at k (at_set_reader RCheck) c
  | AfterUnbind => upd_at k (reader_fail EUnbind) c
  end.

(** The reader's other steps; [now] is read when a receipt has no date. *)
Definition reader_step (k : nat) (room : bool) (now : time) (c : Client) : option Client :=
  a ← cl_attempts c !! k;
  if negb (idle (GReader k) c) then None else
  match at_reader a with
  | RRead | RStop => None
  | RComplete p =>
    Some (upd_at k (at_set_reader RCheck) (win_take (GReader k) (pdu_SequenceID p) (RPdu p) c))
  | RSend p after =>
    Some (match cl_out c with
    | Some j => upd_at k (at_set_reader (RSending j p after)) c
    | None => after_send k after c
    end)
  | RSending j p after => (fun r => after_send k after r.1) <$> send_select room j p c
  | RParse p =>
    let cfg := cl_cfg c in
    match ParseDeliverSM now (pdu_Body p) (uc_DLRIDSource cfg) (uc_MessageIDDLRFormat cfg) with
    | (_, false) => Some (upd_at k (at_set_reader RRead) (setError (Some EMOIgnored) c))
    | (Some dlr, true) => Some (upd_at k (at_set_reader RCheck) (cl_set_dlrs (cl_dlrs c ++ [dlr]) c))
    | (None, true) => Some (upd_at k (at_set_reader RCheck) c)
    end
  | RCheck => Some (upd_at k (at_set_reader (if at_over a then RStop else RRead)) c)
  end.

(** [enquireLoop]: a tick at [now], the steps of its send, its end. *)
Definition cl_tick (k : nat) (now : Z) (c : Client) : option Client :=
  a ← cl_attempts c !! k;
  match at_enq a with
  | EWait =>
    if negb (cl_bound c) then Some c
    else if (0 <? cl_lastIn c) && (i64 (2 * uc_EnquirePeriod (cl_cfg c)) <? now - cl_lastIn c)
    then Some (closeConn (upd_at k (at_set_enq EStop) (setError (Some EIdle) c)))
    else let '(c, seq) := nextSeq c in Some (upd_at k (at_set_enq (ESend (pdu commandEnquireLink statusOK seq []))) c)
  | _ => None
  end.

Definition tick_step (k : nat) (room : bool) (c : Client) : option Client :=
  a ← cl_attempts c !! k;
  match at_enq a with
  | ESend p =>
    Some (match cl_out c with
    | Some j => upd_at k (at_set_enq (ESending j p)) c
    | None => upd_at k (at_set_enq EWait) c
    end)
  | ESending j p => (fun r => upd_at k (at_set_enq EWait) r.1) <$> send_select room j p c
  | _ => None
  end.

Definition cl_tick_end (k : nat) (c : Client) : option Client :=
  a ← cl_attempts c !! k;
  match at_enq a with
  | EWait => if cl_cancelled c || at_over a || cl_closed c then Some (upd_at k (at_set_enq EStop) c) else None
  | _ => None
  end.

(** *** [loop] and [connectAndServe] *)

Definition newAttempt : Attempt := mkAttempt [] true false false RStop EStop [] [] [].

(** The goroutines start; the ticker returns at once without a period. *)
Definition start_attempt (cfg : ClientConfig) (a : Attempt) : Attempt :=
  at_set_writing true (at_set_reader RRead (at_set_enq (if uc_EnquirePeriod cfg <=? 0 then EStop else EWait) a)).

Definition next_backoff (cfg : ClientConfig) (backoff : duration) : duration :=
  let minBackoff := if uc_ReconnectMin cfg <=? 0 then Second else uc_ReconnectMin cfg in
  let maxBackoff := if uc_ReconnectMax cfg <? minBackoff then minBackoff else uc_ReconnectMax cfg in
  let backoff := i64 (backoff * 2) in
  if maxBackoff <? backoff then maxBackoff else backoff.

(** What the network, the timers and the other goroutines offer [loop]. *)
Inductive lchoice :=
| CDial (ok : bool)
| CBindWrite (ok : bool)
| CBindRead (resp : option PDU) (now : Z)
| CServe
| CError
| CContext
| CClosed
| COrder (order : list (Z * nat))
| CNext.

Definition loop_step (ch : lchoice) (c : Client) : option Client :=
  let to st c := cl_set_loop st c in
  match cl_loop c, ch with
  | LTop, CContext => if cl_cancelled c then Some (to LStop (close c)) else None
  | LTop, CClosed => if cl_closed c then Some (to LStop c) else None
  | LTop, CDial ok =>
    if cl_cancelled c || cl_closed c then None
    else
      let c := upd_stats (x_set_state "connecting") c in
      if ok then
        let k := length (cl_attempts c) in
        Some (to (LBind k) (upd_stats (x_set_state "open") (cl_set_conn (Some k)
          (cl_set_attempts (cl_attempts c ++ [newAttempt]) c))))
      else Some (to (LAfter (Some EIO)) c)
  | LBind k, CBindWrite ok =>
    a ← cl_attempts c !! k;
    if ok && negb (at_open a) then None else
    let '(c, seq) := nextSeq c in
    let cfg := cl_cfg c in
    let p := pdu commandBindTransceiver statusOK seq (bindBody (uc_SystemID cfg) (uc_Password cfg) (uc_SystemType cfg)) in
    if ok then Some (to (LBindWait k) (upd_at k (fun a => at_set_wire (at_wire a ++ [p]) a) c))
    else Some (to (LAfter (Some EIO)) c)
  | LBindWait k, CBindRead resp now =>
    a ← cl_attempts c !! k;
    if bool_decide (is_Some resp) && negb (at_open a) then None else
    match resp with
    | None => Some (to (LAfter (Some EIO)) c)
    | Some p =>
      let c := upd_at k (fun a => at_set_in (at_in a ++ [p]) a) c in
      match bind_check p with
      | Some e => Some (to (LAfter (Some e)) c)
      | None => Some (to (LBound k) (cl_set_lastIn now (upd_stats (x_set_state "bound") (cl_set_bound true c))))
      end
    end
  | LBound k, CServe => Some (to (LServe k) (upd_at k (start_attempt (cl_cfg c)) (cl_set_out (Some k) c)))
  | LServe k, CError =>
    a ← cl_attempts c !! k;
    match at_errs a with
    | [] => None
    | e :: errs => Some (to (LClear k (Some e)) (upd_at k (fun a => at_set_over true (at_set_errs errs a)) c))
    end
  | LServe k, CContext =>
    if cl_cancelled c then Some (to (LClear k (Some EContext)) (upd_at k (at_set_over true) c)) else None
  | LServe k, CClosed => if cl_closed c then Some (to (LClear k None) (upd_at k (at_set_over true) c)) else None
  | LClear k e, CNext =>
    Some (to (LAfter e) (if bool_decide (cl_out c = Some k) then cl_set_out None c else c))
  | LAfter e, CNext => Some (to LClose (cl_set_bound false (setError e c)))
  | LClose, CNext => Some (to LFailAll (closeConn c))
  | LFailAll, COrder order =>
    w ← take_all order (cl_win c);
    Some (to LBackoff (add_todo GLoop (order ≫= fun p => settling (RErr EConnectionClosed) p.2) (cl_set_win w c)))
  | LBackoff, CNext =>
    if idle GLoop c then Some (to LTop (cl_set_backoff (next_backoff (cl_cfg c) (cl_backoff c)) c)) else None
  | LBackoff, CContext => if idle GLoop c && cl_cancelled c then Some (to LStop (close c)) else None
  | LBackoff, CClosed => if idle GLoop c && cl_closed c then Some (to LStop c) else None
  | _, _ => None
  end.

(** *** Events *)

Inductive cevent :=
| CvSubmit (body : list Z)
| CvCall (i : nat) (which : pick)
| CvCallDone (i : nat)
| CvSettle (n : nat)
| CvWrite (k : nat) (ok : bool)
| CvWriteEnd (k : nat)
| CvRead (k : nat) (now : Z) (p : PDU)
| CvReadFail (k : nat)
| CvReader (k : nat) (room : bool) (now : time)
| CvTick (k : nat) (now : Z)
| CvTicker (k : nat) (room : bool)
| CvTickEnd (k : nat)
| CvLoop (ch : lchoice)
| CvCancel
| CvClose.

Definition cl_step (e : cevent) (c : Client) : option Client :=
  match e with
  | CvSubmit body => Some (submit_new body c)
  | CvCall i which => submit_step i which c
  | CvCallDone i => Some (upd_call i (u_set_ctx true) c)
  | CvSettle n => cl_settle n c
  | CvWrite k ok => cl_write k ok c
  | CvWriteEnd k => cl_write_end k c
  | CvRead k now p => cl_read k now p c
  | CvReadFail k => cl_read_fail k c
  | CvReader k room now => reader_step k room now c
  | CvTick k now => cl_tick k now c
  | CvTicker k room => tick_step k room c
  | CvTickEnd k => cl_tick_end k c
  | CvLoop ch => loop_step ch c
  | CvCancel => Some (cl_set_cancelled true c)
  | CvClose => Some (close c)
  end.

Fixpoint cl_run (es : list cevent) (c : Client) : option Client :=
  match es with [] => Some c | e :: es => c ← cl_step e c; cl_run es c end.
