(* ===== verification/ClientWindow.v ===== *)
(** * The client's window: invariants of internal/smppclient/connection.go

    Every slot taken is accounted for by a call on its way to the map, an entry
    of the map, or a release under way; a call's channel is given at most one
    result, which is an answer the peer gave to the call's own number. *)

From S2P Require Import Prelude Unicode Codec Segment Pdu Num GoTime Submit ClientReceipt ClientConn.

(** ** Counting *)

Definition gives (j : nat) (T : list (gid * settle)) : nat :=
  sum_list_with (fun t => match t.2 with SGive ch _ => if decide (ch = j) then 1%nat else 0%nat | SRelease => 0%nat end) T.
Definition releases (T : list (gid * settle)) : nat :=
  sum_list_with (fun t => match t.2 with SRelease => 1%nat | SGive _ _ => 0%nat end) T.
Definition holds (u : ucall) : nat := match u_stage u with USeq | URegister => 1%nat | _ => 0%nat end.

#[local] Arguments gives : simpl never.
#[local] Arguments releases : simpl never.
#[local] Arguments holds : simpl never.

(** Before the call is in the map; while it may be there. *)
Definition early (st : ustage) : bool := match st with UStart | UAcquire | USeq | URegister => true | _ => false end.
Definition live (st : ustage) : bool := match st with USend | USending _ | UWait | UFail _ => true | _ => false end.
Definition numbered (st : ustage) : bool := match st with UStart | UAcquire | USeq => false | _ => true end.

Lemma sum_list_alter {A} (f : A -> nat) (g : A -> A) i (l : list A) x :
  l !! i = Some x -> (sum_list_with f (alter g i l) + f x = sum_list_with f l + f (g x))%nat.
Proof.
  revert i. induction l as [|y l IH]; intros [|i] H; simplify_eq/=; [lia|].
  specialize (IH i H). change (list_alter g i l) with (alter g i l). lia.
Qed.

Lemma sum_list_delete {A} (f : A -> nat) i (l : list A) x :
  l !! i = Some x -> (sum_list_with f (delete i l) + f x = sum_list_with f l)%nat.
Proof. intros H. rewrite (delete_Permutation l i x H) at 2. simpl. rewrite Nat.add_comm. done. Qed.

Lemma gives_app j T T' : gives j (T ++ T') = (gives j T + gives j T')%nat.
Proof. apply sum_list_with_app. Qed.
Lemma releases_app T T' : releases (T ++ T') = (releases T + releases T')%nat.
Proof. apply sum_list_with_app. Qed.

Lemma gives_elem j T g r : (g, SGive j r) ∈ T -> (0 < gives j T)%nat.
Proof.
  unfold gives. induction T as [|t T IH]; [by intros ?%not_elem_of_nil|]. rewrite elem_of_cons. cbn. intros [<-|H].
  - cbn. rewrite decide_True by done. lia.
  - specialize (IH H). lia.
Qed.

Lemma gives_settling g j r ch : gives j ((fun s => (g, s)) <$> settling r ch) = if decide (ch = j) then 1%nat else 0%nat.
Proof. unfold gives. cbn. lia. Qed.
Lemma releases_settling g r ch : releases ((fun s => (g, s)) <$> settling r ch) = 1%nat.
Proof. done. Qed.

Lemma gives_settling_all g j r (l : list (Z * nat)) :
  gives j ((fun s => (g, s)) <$> (l ≫= fun p => settling r p.2)) = length (filter (fun p => p.2 = j) l).
Proof.
  induction l as [|[s ch] l IH]; [done|]. rewrite bind_cons, fmap_app, gives_app, IH, gives_settling, filter_cons.
  cbn. destruct (decide (ch = j)); done.
Qed.
Lemma releases_settling_all g r (l : list (Z * nat)) :
  releases ((fun s => (g, s)) <$> (l ≫= fun p => settling r p.2)) = length l.
Proof. induction l as [|[s ch] l IH]; [done|]. rewrite bind_cons, fmap_app, releases_app, IH. done. Qed.

(** ** The invariant *)

Record winv (n : Z) (c : Client) : Prop := {
  wi_bound : (w_slots (cl_win c) <= w_size (cl_win c))%nat;
  wi_slots : w_slots (cl_win c) = (sum_list_with holds (cl_calls c) + size (w_pending (cl_win c)) + releases (cl_todo c))%nat;
  wi_pending : forall seq j, w_pending (cl_win c) !! seq = Some j ->
    exists u, cl_calls c !! j = Some u /\ u_seq u = seq /\ live (u_stage u) = true /\ u_chan u = None /\
      gives j (cl_todo c) = 0%nat;
  wi_gives : forall j, (0 < gives j (cl_todo c))%nat -> gives j (cl_todo c) = 1%nat /\
    exists u, cl_calls c !! j = Some u /\ early (u_stage u) = false /\ u_chan u = None;
  wi_early : forall j u, cl_calls c !! j = Some u -> early (u_stage u) = true -> u_chan u = None;
  wi_seq : forall j u, cl_calls c !! j = Some u -> 0 <= u_seq u <= cl_seq c;
  wi_numbered : forall j u, cl_calls c !! j = Some u -> early (u_stage u) || live (u_stage u) = true ->
    u_seq u = 0 <-> numbered (u_stage u) = false;
  wi_distinct : forall i j u v, cl_calls c !! i = Some u -> cl_calls c !! j = Some v -> u_seq u = u_seq v -> u_seq u <> 0 -> i = j;
  wi_next : 0 <= cl_seq c <= n }.

Lemma winv_frame n n' c c' :
  cl_win c' = cl_win c -> cl_calls c' = cl_calls c -> cl_todo c' = cl_todo c -> cl_seq c <= cl_seq c' <= n' ->
  winv n c -> winv n' c'.
Proof.
  intros Hw Hc Ht Hs [H1 H2 H3 H4 H5 H6 H7 H8 H9].
  split; rewrite ?Hw, ?Hc, ?Ht; try done.
  - intros j u Hu. specialize (H6 j u Hu). lia.
  - lia.
Qed.

Lemma winv_new cfg : winv 0 (newConnection cfg).
Proof.
  split; cbn; try done; try lia.
  unfold gives. cbn. lia.
Qed.

Lemma alter_insert {A} (f : A -> A) i (l : list A) x : l !! i = Some x -> alter f i l = <[i := f x]> l.
Proof. revert i. induction l as [|y l IH]; intros [|i] H; simplify_eq/=; f_equal. by apply IH. Qed.

Lemma holds_insert i u u' c : cl_calls c !! i = Some u ->
  (sum_list_with holds (<[i := u']> (cl_calls c)) + holds u = sum_list_with holds (cl_calls c) + holds u')%nat.
Proof. intros H. rewrite <- (alter_insert (fun _ => u') i _ u H). by apply (sum_list_alter holds). Qed.

Lemma lookup_insert_cases {A} (l : list A) i x y j v :
  l !! i = Some x -> <[i := y]> l !! j = Some v -> j = i /\ v = y \/ j <> i /\ l !! j = Some v.
Proof.
  intros Hx. destruct (decide (j = i)) as [-> |Hne].
  - rewrite list_lookup_insert_eq by (by eapply lookup_lt_Some). intros [= <-]. auto.
  - rewrite list_lookup_insert_ne by done. auto.
Qed.

(** A call moves on, with its share of the window. *)
Lemma winv_move n n' i u u' c c' :
  winv n c -> cl_calls c !! i = Some u -> cl_calls c' = <[i := u']> (cl_calls c) -> cl_todo c' = cl_todo c ->
  (w_slots (cl_win c') <= w_size (cl_win c'))%nat ->
  (w_slots (cl_win c') + holds u + size (w_pending (cl_win c))
    = w_slots (cl_win c) + holds u' + size (w_pending (cl_win c')))%nat ->
  (forall seq j, w_pending (cl_win c') !! seq = Some j -> w_pending (cl_win c) !! seq = Some j \/
    j = i /\ seq = u_seq u' /\ live (u_stage u') = true /\ u_chan u' = None /\ early (u_stage u) = true) ->
  cl_seq c <= cl_seq c' <= n' ->
  (u_seq u' = u_seq u \/ u_seq u = 0 /\ cl_seq c < u_seq u' <= cl_seq c') ->
  ((exists seq, w_pending (cl_win c') !! seq = Some i) -> live (u_stage u) = true -> u_chan u = None ->
    live (u_stage u') = true /\ u_chan u' = None /\ u_seq u' = u_seq u) ->
  (early (u_stage u) = false -> u_chan u = None -> early (u_stage u') = false /\ u_chan u' = None) ->
  (early (u_stage u') = true -> u_chan u' = None) ->
  (early (u_stage u') || live (u_stage u') = true -> u_seq u' = 0 <-> numbered (u_stage u') = false) ->
  winv n' c'.
Proof.
  intros [H1 H2 H3 H4 H5 H6 H7 H8 H9] Hu Ec Et Hb Hsl Hp Hs Hsq R1 R2 R3 R4.
  pose proof (holds_insert i u u' c Hu) as Hsum. pose proof (H6 i u Hu) as Hui.
  pose proof (lookup_insert_cases (cl_calls c) i u u') as Hlk.
  assert (<[i := u']> (cl_calls c) !! i = Some u') as Hi
    by (by rewrite list_lookup_insert_eq by (by eapply lookup_lt_Some)).
  split; rewrite ?Ec, ?Et.
  - done.
  - lia.
  - intros seq j Hw. destruct (Hp seq j Hw) as [Hj|(-> & -> & Hl & Hc & He)].
    + destruct (H3 seq j Hj) as (v & Hv & Hq & Hl & Hc & Hg). destruct (decide (j = i)) as [-> |Hne].
      * simplify_eq. destruct (R1 (ex_intro _ _ Hw) Hl Hc) as (? & ? & ?). exists u'. by split_and!.
      * exists v. by rewrite list_lookup_insert_ne.
    + exists u'. split_and!; try done. destruct (Nat.eq_0_gt_0_cases (gives i (cl_todo c))) as [|Hg]; [done|].
      destruct (H4 i Hg) as (_ & v & Hv & Hev & _). simplify_eq. congruence.
  - intros j Hj. destruct (H4 j Hj) as (Hg & v & Hv & He & Hc). split; [done|]. destruct (decide (j = i)) as [-> |Hne].
    + simplify_eq. exists u'. by destruct (R2 He Hc).
    + exists v. by rewrite list_lookup_insert_ne.
  - intros j v [[-> ->]|[Hne Hv]]%Hlk; [done|by eapply H5|done].
  - intros j v [[-> ->]|[Hne Hv]]%Hlk; [lia| |done]. specialize (H6 j v Hv). lia.
  - intros j v [[-> ->]|[Hne Hv]]%Hlk; [done|by eapply H7|done].
  - intros j k v w [[-> ->]|[Hne Hv]]%Hlk [[-> ->]|[Hne' Hw]]%Hlk E E0; try done.
    + pose proof (H6 k w Hw). destruct Hsq as [Hsq|]; [|lia]. apply (H8 i k u w); congruence.
    + pose proof (H6 j v Hv). destruct Hsq as [Hsq|]; [|lia]. apply (H8 j i v u); congruence.
    + by eapply H8.
  - lia.
Qed.

(** ** Steps on the window *)

Lemma winv_submit_new n body c : winv n c -> winv n (submit_new body c).
Proof.
  intros [H1 H2 H3 H4 H5 H6 H7 H8 H9].
  assert (forall j v, (cl_calls c ++ [mkUcall body 0 UStart None false]) !! j = Some v ->
    cl_calls c !! j = Some v \/ v = mkUcall body 0 UStart None false) as Hlk.
  { intros j v [Hv|[_ Hv]]%lookup_app_Some; [auto|]. apply list_lookup_singleton_Some in Hv as [_ <-]. auto. }
  split; cbn.
  - done.
  - rewrite sum_list_with_app. change (sum_list_with holds [_]) with 0%nat. lia.
  - intros seq j Hj. destruct (H3 seq j Hj) as (u & Hu & ?). exists u. split; [by apply lookup_app_l_Some|done].
  - intros j Hj. destruct (H4 j Hj) as (Hg & u & Hu & ?). split; [done|]. exists u. split; [by apply lookup_app_l_Some|done].
  - intros j v [Hv| ->]%Hlk; [by eapply H5|done].
  - intros j v [Hv| ->]%Hlk; [by eapply H6|cbn; lia].
  - intros j v [Hv| ->]%Hlk; [by eapply H7|done].
  - intros j k v w [Hv| ->]%Hlk Hw E E0; [|done]. apply Hlk in Hw as [Hw| ->]; [by eapply H8|]. cbn in *. congruence.
  - done.
Qed.


Lemma winv_acquire n i u c w :
  winv n c -> cl_calls c !! i = Some u -> u_stage u = UAcquire -> acquire (cl_win c) = Some w ->
  winv n (upd_call i (u_set_stage USeq) (cl_set_win w c)).
Proof.
  intros Hinv Hu Hst Hw. unfold acquire in Hw. destruct (Nat.ltb_spec (w_slots (cl_win c)) (w_size (cl_win c))); [|done].
  injection Hw as <-. pose proof (wi_early _ _ Hinv i u Hu) as H5. pose proof (wi_numbered _ _ Hinv i u Hu) as H7.
  pose proof (wi_next _ _ Hinv). unfold early, live, numbered in *. rewrite Hst in *.
  apply (winv_move n n i u (u_set_stage USeq u) c); cbn; try done; auto; try lia.
  - by rewrite (alter_insert _ _ _ _ Hu).
  - unfold holds. rewrite Hst. cbn. lia.
  - by rewrite Hst.
  - by rewrite Hst.
Qed.

Lemma winv_register n i u c :
  winv n c -> cl_calls c !! i = Some u -> u_stage u = URegister ->
  winv n (upd_call i (u_set_stage USend) (cl_set_win (register_ (u_seq u) i (cl_win c)) c)).
Proof.
  intros Hinv Hu Hst. pose proof (wi_early _ _ Hinv i u Hu) as H5. pose proof (wi_numbered _ _ Hinv i u Hu) as H7.
  pose proof (wi_next _ _ Hinv). pose proof (wi_bound _ _ Hinv).
  assert (w_pending (cl_win c) !! u_seq u = None) as Hfresh.
  { destruct (w_pending (cl_win c) !! u_seq u) as [j|] eqn:E; [|done].
    destruct (wi_pending _ _ Hinv _ _ E) as (v & Hv & Hq & Hl & _). rewrite Hst in H7.
    assert (j = i) as ->. { apply (wi_distinct _ _ Hinv j i v u Hv Hu Hq). rewrite Hq. cbn in H7. naive_solver. }
    simplify_eq. by rewrite Hst in Hl. }
  apply (winv_move n n i u (u_set_stage USend u) c); cbn; try done; auto; try lia.
  1: by apply alter_insert.
  1: unfold holds; rewrite Hst; cbn; rewrite map_size_insert_None by done; lia.
  1: intros seq j [[<- <-]|[Hne Hj]]%lookup_insert_Some; [|auto]; right; rewrite Hst in *; split_and!; auto.
  all: rewrite ?Hst in *; cbn in *; naive_solver.
Qed.

(** The locked part of [complete] and [fail]. *)
Lemma winv_take n g seq r c : winv n c -> winv n (win_take g seq r c).
Proof.
  intros Hinv. unfold win_take, take_pending. destruct (w_pending (cl_win c) !! seq) as [j|] eqn:E.
  - pose proof Hinv as [H1 H2 H3 H4 H5 H6 H7 H8 H9]. destruct (H3 seq j E) as (u & Hu & Hq & Hl & Hc & Hg).
    assert (forall k, gives k (cl_todo c ++ ((fun s => (g, s)) <$> settling r j))
      = (gives k (cl_todo c) + if decide (j = k) then 1 else 0)%nat) as HG by (intros k; by rewrite gives_app, gives_settling).
    split; cbn -[fmap settling mbind]; try done.
    + rewrite releases_app, releases_settling, map_size_delete_Some by (by eexists). rewrite H2.
      enough (size (w_pending (cl_win c)) <> 0)%nat by lia. intros Hz%map_size_empty_inv. by rewrite Hz in E.
    + intros seq' j' [Hne Hj]%lookup_delete_Some. destruct (H3 seq' j' Hj) as (v & Hv & Hq' & Hl' & Hc' & Hg').
      exists v. rewrite HG. destruct (decide (j = j')) as [-> |]; [|split_and!; done || lia]. simplify_eq.
    + intros k. rewrite HG. destruct (decide (j = k)) as [<-|]; intros Hk.
      * split; [lia|]. exists u. split_and!; [done| |done]. by destruct (u_stage u).
      * rewrite Nat.add_0_r in *. by apply H4.
  - eapply winv_frame; [| | | |exact Hinv]; try done; cbn.
    + rewrite delete_id by done. by destruct (cl_win c).
    + pose proof (wi_next _ _ Hinv). lia.
Qed.

Lemma length_filter_le1 {A} (P : A -> Prop) `{!forall x, Decision (P x)} l x :
  NoDup l -> (forall y, y ∈ l -> P y -> y = x) -> (length (filter P l) <= 1)%nat.
Proof.
  intros Hnd Hx. pose proof (NoDup_filter P l Hnd) as Hf.
  assert (forall y, y ∈ filter P l -> y = x) as Ha by (intros y [Hp Hy]%list_elem_of_filter; auto).
  destruct (filter P l) as [|a [|b k]]; cbn; try lia.
  assert (a = b) as -> by (rewrite (Ha a), (Ha b); set_solver). inv Hf. set_solver.
Qed.

Lemma filter_none {A} (P : A -> Prop) `{!forall x, Decision (P x)} l : (forall y, y ∈ l -> ~ P y) -> filter P l = [].
Proof.
  intros Hn. destruct (filter P l) as [|a k] eqn:E; [done|].
  assert (a ∈ filter P l) as [? ?]%list_elem_of_filter by (rewrite E; set_solver). by destruct (Hn a).
Qed.

Lemma winv_fail_all n order e c w :
  winv n c -> take_all order (cl_win c) = Some w ->
  winv n (add_todo GLoop (order ≫= fun p => settling (RErr e) p.2) (cl_set_win w c)).
Proof.
  intros [H1 H2 H3 H4 H5 H6 H7 H8 H9] Hw. unfold take_all in Hw. case_bool_decide as Hp; [|done]. injection Hw as <-.
  assert (forall k, gives k (cl_todo c ++ ((fun s => (GLoop, s)) <$> (order ≫= fun p => settling (RErr e) p.2)))
    = (gives k (cl_todo c) + length (filter (fun p => p.2 = k) order))%nat) as HG
    by (intros k; by rewrite gives_app, gives_settling_all).
  assert (forall s j, (s, j) ∈ order <-> w_pending (cl_win c) !! s = Some j) as Hin
    by (intros; by rewrite Hp, elem_of_map_to_list).
  split; cbn -[fmap settling mbind]; try done.
  - rewrite releases_app, releases_settling_all, Hp, map_size_empty, H2.
    rewrite length_map_to_list. lia.
  - intros k. rewrite HG. intros Hk. destruct (decide (0 < gives k (cl_todo c))%nat) as [Hg|Hg].
    + destruct (H4 k Hg) as (E & u & Hu & He & Hc).
      assert (filter (fun p => p.2 = k) order = []) as ->.
      { apply filter_none. intros [s j] Hj%Hin. cbn. intros ->. destruct (H3 s k Hj) as (v & _ & _ & _ & _ & Hz). lia. }
      rewrite E. split; [done|]. by exists u.
    + assert (0 < length (filter (fun p => p.2 = k) order))%nat as Hf by lia.
      destruct (filter (fun p => p.2 = k) order) as [|[s j] l] eqn:Ef; [cbn in Hf; lia|].
      assert ((s, j) ∈ filter (fun p => p.2 = k) order) as [Hjk Hsj]%list_elem_of_filter by (rewrite Ef; set_solver).
      cbn in Hjk. subst j. destruct (H3 s k) as (u & Hu & Hq & Hl & Hc & Hg0); [by apply Hin|].
      assert (length (filter (fun p => p.2 = k) order) <= 1)%nat as Hle.
      { apply (length_filter_le1 _ _ (s, k)); [rewrite Hp; apply NoDup_map_to_list|].
        intros [s' j'] Hj' E. cbn in E. subst j'. destruct (H3 s' k) as (v & Hv & Hq' & _); [by apply Hin|]. congruence. }
      rewrite Ef in Hle. cbn in *. split; [lia|]. exists u. split_and!; [done| |done]. by destruct (u_stage u).
Qed.

Lemma gives_delete j k T g s :
  T !! k = Some (g, s) ->
  (gives j (delete k T) + match s with SGive ch _ => if decide (ch = j) then 1 else 0 | SRelease => 0 end = gives j T)%nat.
Proof. intros H. by apply (sum_list_delete (fun t : gid * settle => _) k T (g, s)). Qed.

Lemma releases_delete k T g s :
  T !! k = Some (g, s) ->
  (releases (delete k T) + match s with SRelease => 1 | SGive _ _ => 0 end = releases T)%nat.
Proof. intros H. by apply (sum_list_delete (fun t : gid * settle => _) k T (g, s)). Qed.

Lemma winv_settle n k c c' : winv n c -> cl_settle k c = Some c' -> winv n c'.
Proof.
  intros [H1 H2 H3 H4 H5 H6 H7 H8 H9] Hs. unfold cl_settle in Hs.
  destruct (cl_todo c !! k) as [[g s]|] eqn:Ek; [|done]. cbn [mbind option_bind] in Hs. case_match; [|done].
  pose proof (releases_delete _ _ _ _ Ek) as HR. destruct s as [ch r|]; cbn in Hs.
  - destruct (cl_calls c !! ch) as [u|] eqn:Eu; [|done]. destruct (u_chan u) eqn:Ec; [done|]. injection Hs as <-.
    assert (forall j, (gives j (delete k (cl_todo c)) + (if decide (ch = j) then 1 else 0) = gives j (cl_todo c))%nat) as HG
      by (intros j; apply (gives_delete j _ _ _ _ Ek)).
    destruct (H4 ch) as (Hg1 & v & Hv & He & _).
    { specialize (HG ch). rewrite decide_True in HG by done. lia. }
    simplify_eq. pose proof (holds_insert ch u (u_set_chan (Some r) u) c Eu) as Hh.
    assert (holds (u_set_chan (Some r) u) = holds u) as Hh' by done.
    pose proof (lookup_insert_cases (cl_calls c) ch u (u_set_chan (Some r) u)) as Hlk.
    split; cbn; rewrite ?(alter_insert _ _ _ _ Eu); try done.
    + lia.
    + intros seq j Hj. destruct (H3 seq j Hj) as (w & Hw & Hq & Hl & Hc & Hg). exists w. specialize (HG j).
      rewrite list_lookup_insert_ne by (intros ->; lia). split_and!; try done. lia.
    + intros j Hj. pose proof (HG j) as HGj. destruct (decide (ch = j)) as [<-|Hne]; [lia|].
      rewrite Nat.add_0_r in HGj. rewrite HGj in *. rewrite list_lookup_insert_ne by done. by apply H4.
    + intros j w [[-> ->]|[Hne Hw]]%Hlk; [|by eapply H5|done]. cbn. congruence.
    + intros j w [[-> ->]|[Hne Hw]]%Hlk; [by apply (H6 ch u)|by eapply H6|done].
    + intros j w [[-> ->]|[Hne Hw]]%Hlk; [by apply (H7 ch u)|by eapply H7|done].
    + intros i j w x [[-> ->]|[Hne Hw]]%Hlk [[-> ->]|[Hne' Hx]]%Hlk; try done.
      * by apply (H8 ch j u x).
      * intros E. by apply (H8 i ch w u).
      * by apply H8.
  - destruct (w_slots (cl_win c)) as [|m] eqn:Em; [done|]. injection Hs as <-.
    assert (forall j, gives j (delete k (cl_todo c)) = gives j (cl_todo c)) as HG.
    { intros j. pose proof (gives_delete j _ _ _ _ Ek) as Hj. cbn in Hj. lia. }
    split; cbn; try done; try lia; setoid_rewrite HG; done.
Qed.

(** ** Every step *)

Lemma nextSeq_spec n c c' seq :
  0 <= cl_seq c <= n -> n < 4294967295 -> nextSeq c = (c', seq) -> seq = cl_seq c + 1 /\ c' = cl_set_seq (cl_seq c + 1) c.
Proof.
  intros Hn Hm H. unfold nextSeq in H.
  assert (u32 (cl_seq c + 1) = cl_seq c + 1) as E by (unfold u32; rewrite Z.mod_small; lia).
  rewrite E, (proj2 (Z.eqb_neq _ _)) in H by lia. naive_solver.
Qed.

Ltac frame := eapply winv_frame; [| | | |eassumption]; cbn; try done.

Lemma winv_mono n n' c : n <= n' -> winv n c -> winv n' c.
Proof. intros Hn Hinv. pose proof (wi_next _ _ Hinv). frame. lia. Qed.

(** A call goes to another stage. *)
Lemma winv_go n i u st c :
  winv n c -> cl_calls c !! i = Some u -> holds (u_set_stage st u) = holds u ->
  (live (u_stage u) = true -> live st = true \/ forall seq, w_pending (cl_win c) !! seq <> Some i) ->
  (early (u_stage u) = false -> early st = false) ->
  (early st || live st = true -> early (u_stage u) || live (u_stage u) = true /\ numbered st = numbered (u_stage u)) ->
  winv n (upd_call i (u_set_stage st) c).
Proof.
  intros Hinv Hu Hh Hl He Hnum. pose proof (wi_next _ _ Hinv). pose proof (wi_bound _ _ Hinv).
  apply (winv_move n n i u (u_set_stage st u) c); cbn; auto; try lia.
  - by rewrite (alter_insert _ _ _ _ Hu).
  - intros [seq Hs] Hlu Hc. split_and!; [|done..]. destruct (Hl Hlu) as [|Hno]; [done|]. by destruct (Hno seq).
  - intros Hst. apply (wi_early _ _ Hinv i u Hu). destruct (early (u_stage u)); [done|]. rewrite He in Hst; done.
  - intros Hst. destruct (Hnum Hst) as [Hs ->]. by apply (wi_numbered _ _ Hinv i u Hu).
Qed.

Lemma winv_received n i u o c :
  winv n c -> cl_calls c !! i = Some u -> u_stage u = UWait -> u_chan u <> None ->
  winv n (upd_call i (fun u => u_set_chan None (u_set_stage (UOver o) u)) c).
Proof.
  intros Hinv Hu Hst Hc. pose proof (wi_next _ _ Hinv). pose proof (wi_bound _ _ Hinv).
  apply (winv_move n n i u (u_set_chan None (u_set_stage (UOver o) u)) c); cbn; auto; try done; try lia.
  - by rewrite (alter_insert _ _ _ _ Hu).
  - unfold holds. rewrite Hst. cbn. lia.
Qed.

Lemma winv_numbered n i u c :
  n < 4294967295 -> winv n c -> cl_calls c !! i = Some u -> u_stage u = USeq ->
  winv (n + 1) (upd_call i (fun u => mkUcall (u_body u) (cl_seq c + 1) URegister (u_chan u) (u_ctx u)) (cl_set_seq (cl_seq c + 1) c)).
Proof.
  intros Hn Hinv Hu Hst. pose proof (wi_next _ _ Hinv). pose proof (wi_bound _ _ Hinv).
  pose proof (wi_early _ _ Hinv i u Hu) as H5. pose proof (wi_numbered _ _ Hinv i u Hu) as H7. rewrite Hst in *. cbn in *.
  apply (winv_move n (n + 1) i u (mkUcall (u_body u) (cl_seq c + 1) URegister (u_chan u) (u_ctx u)) c); cbn; auto; try lia.
  - by rewrite (alter_insert _ _ _ _ Hu).
  - unfold holds. rewrite Hst. cbn. lia.
  - by rewrite Hst.
  - by rewrite Hst.
Qed.

Lemma take_removes n g i u r c seq :
  winv n c -> cl_calls c !! i = Some u -> w_pending (cl_win (win_take g (u_seq u) r c)) !! seq <> Some i.
Proof.
  intros Hinv Hu H. assert (w_pending (cl_win (win_take g (u_seq u) r c)) = delete (u_seq u) (w_pending (cl_win c))) as E
    by (unfold win_take, take_pending; cbn; by case_match).
  rewrite E in H. apply lookup_delete_Some in H as [Hne H].
  destruct (wi_pending _ _ Hinv _ _ H) as (v & Hv & Hq & _). congruence.
Qed.

Lemma send_select_frame room j p c c' sent :
  send_select room j p c = Some (c', sent) ->
  cl_win c' = cl_win c /\ cl_calls c' = cl_calls c /\ cl_todo c' = cl_todo c /\ cl_seq c' = cl_seq c /\ cl_cfg c' = cl_cfg c.
Proof. unfold send_select, send_put. intros H. repeat case_match; naive_solver. Qed.

Lemma winv_submit n i which c c' :
  n < 4294967295 -> winv n c -> submit_step i which c = Some c' -> winv (n + 1) c'.
Proof.
  intros Hn Hinv H. unfold submit_step in H. destruct (cl_calls c !! i) as [u|] eqn:Hu; [|done].
  cbn [mbind option_bind] in H. destruct (idle (GCall i) c); [|done]. cbn [negb] in H.
  assert (forall st, holds (u_set_stage st u) = holds u -> (live (u_stage u) = true -> live st = true) ->
    (early (u_stage u) = false -> early st = false) ->
    (early st || live st = true -> early (u_stage u) || live (u_stage u) = true /\ numbered st = numbered (u_stage u)) ->
    winv (n + 1) (upd_call i (u_set_stage st) c)) as Hgo.
  { intros st ? Hl ? ?. apply (winv_mono n); [lia|]. apply (winv_go n i u); auto. }
  pose proof (wi_next _ _ Hinv) as H9. unfold holds in Hgo. destruct (u_stage u) as [| | | | |j| |e|e|o] eqn:Hst.
  - injection H as <-. case_match; apply Hgo; done.
  - injection H as <-. destruct (acquire (cl_win c)) as [w|] eqn:Ew; [|apply Hgo; done].
    apply (winv_mono n); [lia|]. by eapply winv_acquire.
  - destruct (nextSeq c) as [c1 seq] eqn:Es. destruct (nextSeq_spec n _ _ _ H9 Hn Es) as [-> ->]. injection H as <-.
    by apply (winv_numbered n i u).
  - injection H as <-. apply (winv_mono n); [lia|]. by apply (winv_register n i u).
  - injection H as <-. case_match; apply Hgo; done.
  - destruct (send_select _ j _ c) as [[c1 sent]|] eqn:Es; [|done]. cbn in H. injection H as <-.
    apply send_select_frame in Es as (Ew & Ec & Et & Eq & _).
    eapply (winv_frame (n + 1) (n + 1) (upd_call i (u_set_stage (if sent then UWait else UFail ENotReady)) c)); cbn; try done.
    + by rewrite Ec.
    + lia.
    + apply Hgo; by destruct sent.
  - destruct which.
    + destruct (u_chan u) as [r|] eqn:Ech; [|done]. cbn [mbind option_bind] in H. injection H as <-.
      eapply (winv_frame n (n + 1)); [..|apply (winv_received n i u (result_outcome r) c)]; cbn; try done; try lia. by rewrite Ech.
    + injection H as <-. apply Hgo; done.
    + destruct (u_ctx u); [|done]. injection H as <-. apply Hgo; done.
  - injection H as <-. apply (winv_mono n); [lia|].
    apply (winv_go n i u); cbn; try done.
    + by apply winv_take.
    + unfold win_take, take_pending. by case_match.
    + unfold holds. by rewrite Hst.
    + intros _. right. intros seq. by eapply take_removes.
  - injection H as <-. eapply (winv_frame (n + 1)); [..|apply (Hgo (UOver (error_outcome (cl_cfg c) e)))]; cbn; try done. lia.
  - done.
Qed.

Lemma upd_call_None i f c : cl_calls c !! i = None -> upd_call i f c = c.
Proof.
  intros H. assert (alter f i (cl_calls c) = cl_calls c) as E.
  { apply list_eq. intros j. destruct (decide (i = j)) as [<-|]; [rewrite list_lookup_alter_eq, H; done|by rewrite list_lookup_alter_ne]. }
  unfold upd_call. rewrite E. by destruct c.
Qed.

(** The context of a call is done. *)
Lemma winv_ctx n i v c : winv n c -> winv (n + 1) (upd_call i (u_set_ctx v) c).
Proof.
  intros Hinv. apply (winv_mono n); [lia|]. destruct (cl_calls c !! i) as [u|] eqn:Hu; [|by rewrite upd_call_None].
  pose proof (wi_next _ _ Hinv). pose proof (wi_bound _ _ Hinv).
  apply (winv_move n n i u (u_set_ctx v u) c); cbn; auto; try lia.
  - by rewrite (alter_insert _ _ _ _ Hu).
  - apply (wi_early _ _ Hinv i u Hu).
  - apply (wi_numbered _ _ Hinv i u Hu).
Qed.

Lemma closeConn_frame c :
  cl_win (closeConn c) = cl_win c /\ cl_calls (closeConn c) = cl_calls c /\ cl_todo (closeConn c) = cl_todo c /\
  cl_seq (closeConn c) = cl_seq c.
Proof. unfold closeConn. by case_match. Qed.

Lemma close_frame c :
  cl_win (close c) = cl_win c /\ cl_calls (close c) = cl_calls c /\ cl_todo (close c) = cl_todo c /\ cl_seq (close c) = cl_seq c.
Proof. unfold close. case_match; [done|]. apply (closeConn_frame (cl_set_closed true c)). Qed.

Lemma after_send_frame k a c :
  cl_win (after_send k a c) = cl_win c /\ cl_calls (after_send k a c) = cl_calls c /\
  cl_todo (after_send k a c) = cl_todo c /\ cl_seq (after_send k a c) = cl_seq c.
Proof. by destruct a. Qed.

Lemma setError_frame e c :
  cl_win (setError e c) = cl_win c /\ cl_calls (setError e c) = cl_calls c /\
  cl_todo (setError e c) = cl_todo c /\ cl_seq (setError e c) = cl_seq c.
Proof. by destruct e. Qed.

(** The four fields of a state that the window depends on, after a step that
    does not touch them. *)
Definition same (c c' : Client) : Prop :=
  cl_win c' = cl_win c /\ cl_calls c' = cl_calls c /\ cl_todo c' = cl_todo c /\ cl_seq c' = cl_seq c.

Lemma winv_same n c c' : winv n c -> same c c' -> winv (n + 1) c'.
Proof. intros Hinv (Hw & Hc & Ht & Hs). pose proof (wi_next _ _ Hinv). eapply (winv_frame n); try done. lia. Qed.

Lemma same_trans c c1 c2 : same c c1 -> same c1 c2 -> same c c2.
Proof. unfold same. intros (? & ? & ? & ?) (? & ? & ? & ?). split_and!; congruence. Qed.

Lemma winv_reader n k room now c c' : winv n c -> reader_step k room now c = Some c' -> winv (n + 1) c'.
Proof.
  intros Hinv H. unfold reader_step in H. destruct (cl_attempts c !! k) as [a|]; [|done]. cbn [mbind option_bind] in H.
  destruct (idle (GReader k) c); [|done]. cbn [negb] in H. destruct (at_reader a) as [|p|p af|j p af|p| |]; try done.
  - injection H as <-. eapply winv_same; [by apply (winv_take n (GReader k) (pdu_SequenceID p) (RPdu p))|done].
  - injection H as <-. eapply winv_same; [done|]. case_match; [done|apply after_send_frame].
  - destruct (send_select room j p c) as [[c1 sent]|] eqn:Es; [|done]. injection H as <-.
    apply send_select_frame in Es as (Ew & Ec & Et & Eq & _). eapply winv_same; [done|].
    eapply same_trans; [|apply after_send_frame]. done.
  - eapply winv_same; [done|]. repeat case_match; simplify_eq; done.
  - injection H as <-. by eapply winv_same.
Qed.

Ltac same_step Hinv :=
  eapply winv_same; [exact Hinv|];
  first [done
  | eapply same_trans; [|first [apply closeConn_frame | apply close_frame | apply setError_frame]]; done
  | by case_match].

Lemma winv_loop n ch c c' : n < 4294967295 -> winv n c -> loop_step ch c = Some c' -> winv (n + 1) c'.
Proof.
  intros Hn Hinv H. pose proof (wi_next _ _ Hinv) as H9. unfold loop_step in H.
  destruct (cl_loop c) as [|k|k|k|k|k e|e| | | |], ch as [ok|ok|resp now| | | | |order|]; try done.
  - destruct (cl_cancelled c || cl_closed c); [done|]. destruct ok; injection H as <-; same_step Hinv.
  - destruct (cl_cancelled c); [|done]. injection H as <-. same_step Hinv.
  - destruct (cl_closed c); [|done]. injection H as <-. same_step Hinv.
  - destruct (cl_attempts c !! k) as [a|]; [|done]. cbn [mbind option_bind] in H. destruct (ok && negb (at_open a)); [done|].
    destruct (nextSeq c) as [c1 seq] eqn:Es. destruct (nextSeq_spec n _ _ _ H9 Hn Es) as [-> ->].
    destruct ok; injection H as <-; frame; cbn; lia.
  - destruct (cl_attempts c !! k) as [a|]; [|done]. cbn [mbind option_bind] in H. case_match; [done|].
    destruct resp as [p|]; [destruct (bind_check p)|]; injection H as <-; same_step Hinv.
  - injection H as <-. same_step Hinv.
  - destruct (cl_attempts c !! k) as [a|]; [|done]. cbn [mbind option_bind] in H.
    destruct (at_errs a); [done|]. injection H as <-. same_step Hinv.
  - destruct (cl_cancelled c); [|done]. injection H as <-. same_step Hinv.
  - destruct (cl_closed c); [|done]. injection H as <-. same_step Hinv.
  - injection H as <-. same_step Hinv.
  - injection H as <-. same_step Hinv.
  - injection H as <-. same_step Hinv.
  - destruct (take_all order (cl_win c)) as [w|] eqn:Ew; [|done]. cbn [mbind option_bind] in H. injection H as <-.
    eapply winv_same; [by apply (winv_fail_all n order EConnectionClosed c w)|done].
  - destruct (idle GLoop c && cl_cancelled c); [|done]. injection H as <-. same_step Hinv.
  - destruct (idle GLoop c && cl_closed c); [|done]. injection H as <-. same_step Hinv.
  - destruct (idle GLoop c); [|done]. injection H as <-. same_step Hinv.
Qed.

Lemma winv_tick n k now c c' : n < 4294967295 -> winv n c -> cl_tick k now c = Some c' -> winv (n + 1) c'.
Proof.
  intros Hn Hinv H. pose proof (wi_next _ _ Hinv) as H9. unfold cl_tick in H.
  destruct (cl_attempts c !! k) as [a|]; [|done]. cbn [mbind option_bind] in H. destruct (at_enq a); try done.
  destruct (negb (cl_bound c)); [injection H as <-; same_step Hinv|].
  case_match; [injection H as <-; same_step Hinv|].
  destruct (nextSeq c) as [c1 seq] eqn:Es. destruct (nextSeq_spec n _ _ _ H9 Hn Es) as [-> ->]. injection H as <-.
  frame. cbn. lia.
Qed.

Lemma winv_step n e c c' : n < 4294967295 -> winv n c -> cl_step e c = Some c' -> winv (n + 1) c'.
Proof.
  intros Hn Hinv H. destruct e; cbn in H.
  - injection H as <-. apply (winv_mono n); [lia|]. by apply winv_submit_new.
  - by eapply winv_submit.
  - injection H as <-. by apply winv_ctx.
  - apply (winv_mono n); [lia|]. by eapply winv_settle.
  - unfold cl_write in H. destruct (cl_attempts c !! k); [|done]. cbn [mbind option_bind] in H.
    repeat case_match; simplify_eq; same_step Hinv.
  - unfold cl_write_end in H. destruct (cl_attempts c !! k); [|done]. cbn [mbind option_bind] in H.
    case_match; simplify_eq; same_step Hinv.
  - unfold cl_read in H. destruct (cl_attempts c !! k); [|done]. cbn [mbind option_bind] in H.
    repeat case_match; simplify_eq; same_step Hinv.
  - unfold cl_read_fail in H. destruct (cl_attempts c !! k); [|done]. cbn [mbind option_bind] in H.
    case_match; simplify_eq; same_step Hinv.
  - by eapply winv_reader.
  - by eapply winv_tick.
  - unfold tick_step in H. destruct (cl_attempts c !! k) as [a|]; [|done]. cbn [mbind option_bind] in H.
    destruct (at_enq a) as [|p|j p|]; try done; [injection H as <-; same_step Hinv|].
    destruct (send_select room j p c) as [[c1 sent]|] eqn:Es; [|done]. injection H as <-.
    apply send_select_frame in Es as (Ew & Ec & Et & Eq & _). by eapply winv_same.
  - unfold cl_tick_end in H. destruct (cl_attempts c !! k); [|done]. cbn [mbind option_bind] in H.
    repeat case_match; simplify_eq; same_step Hinv.
  - by eapply winv_loop.
  - injection H as <-. same_step Hinv.
  - injection H as <-. same_step Hinv.
Qed.

(** The capacity of the window and the configuration never change; a closed
    connection stays closed. *)
Definition keeps (c c' : Client) : Prop :=
  w_size (cl_win c') = w_size (cl_win c) /\ cl_cfg c' = cl_cfg c /\ (cl_closed c = true -> cl_closed c' = true).

Lemma keeps_trans c c1 c2 : keeps c c1 -> keeps c1 c2 -> keeps c c2.
Proof. unfold keeps. intuition congruence. Qed.

Lemma keeps_closeConn c : keeps c (closeConn c).
Proof. unfold closeConn. by case_match. Qed.
Lemma keeps_close c : keeps c (close c).
Proof. unfold close. destruct (cl_closed c) eqn:E; [by split_and!|]. eapply keeps_trans; [|apply keeps_closeConn]. done. Qed.
Lemma keeps_send room j p c c' sent : send_select room j p c = Some (c', sent) -> keeps c c'.
Proof. unfold send_select, send_put. intros H. repeat case_match; simplify_eq/=; simplify_eq/=; by split_and!. Qed.

Lemma keeps_take g seq r c : keeps c (win_take g seq r c).
Proof. unfold win_take, take_pending. by case_match. Qed.

Lemma keeps_submit i which c c' : submit_step i which c = Some c' -> keeps c c'.
Proof.
  intros H. unfold submit_step in H. destruct (cl_calls c !! i) as [u|]; [|done]. cbn [mbind option_bind] in H.
  destruct (idle (GCall i) c); [|done]. cbn [negb] in H. destruct (u_stage u) as [| | | | |j| |e|e|o].
  - injection H as <-. by case_match.
  - injection H as <-. unfold acquire. by destruct (_ <? _)%nat.
  - unfold nextSeq in H. by injection H as <-.
  - by injection H as <-.
  - injection H as <-. by case_match.
  - destruct (send_select _ j _ c) as [[c1 sent]|] eqn:Es; [|done]. cbn in H. injection H as <-.
    eapply keeps_trans; [by eapply keeps_send|done].
  - destruct which; [destruct (u_chan u); [|done]| |destruct (u_ctx u); [|done]]; by injection H as <-.
  - injection H as <-. apply keeps_take.
  - by injection H as <-.
  - done.
Qed.

Lemma keeps_loop ch c c' : loop_step ch c = Some c' -> keeps c c'.
Proof.
  intros H. unfold loop_step in H. pose proof (keeps_close c) as Hc. pose proof (keeps_closeConn c) as Hcc.
  destruct (cl_loop c) as [|k|k|k|k|k e|e| | | |], ch as [ok|ok|resp now| | | | |order|]; try done;
    unfold nextSeq, take_all in H; try (destruct (cl_attempts c !! k) as [a|]; [|done]); cbn [mbind option_bind] in H.
  all: repeat (case_match; simplify_eq/=); simplify_eq/=; try done.
  match goal with |- context [setError ?e c] => by destruct e end.
Qed.

Lemma keeps_step e c c' : cl_step e c = Some c' -> keeps c c'.
Proof.
  intros H. destruct e; cbn in H.
  - by injection H as <-.
  - by eapply keeps_submit.
  - by injection H as <-.
  - unfold cl_settle in H. destruct (cl_todo c !! n) as [[g s]|]; [|done]. cbn [mbind option_bind] in H.
    destruct (forallb _ _); [|done]. destruct s as [ch r|]; cbn in H.
    + destruct (cl_calls c !! ch) as [u|]; [|done]. destruct (u_chan u); [done|]. by injection H as <-.
    + destruct (w_slots (cl_win c)); [done|]. by injection H as <-.
  - unfold cl_write in H. destruct (cl_attempts c !! k) as [a|]; [|done]. cbn [mbind option_bind] in H.
    destruct (at_writing a), (at_out a), ok, (at_open a); try done; by injection H as <-.
  - unfold cl_write_end in H. destruct (cl_attempts c !! k) as [a|]; [|done]. cbn [mbind option_bind] in H.
    destruct (_ || _); [|done]. by injection H as <-.
  - unfold cl_read in H. destruct (cl_attempts c !! k) as [a|]; [|done]. cbn [mbind option_bind] in H.
    destruct (at_reader a), (at_open a); try done. destruct (_ =? _); by injection H as <-.
  - unfold cl_read_fail in H. destruct (cl_attempts c !! k) as [a|]; [|done]. cbn [mbind option_bind] in H.
    destruct (at_reader a); try done. by injection H as <-.
  - unfold reader_step in H. destruct (cl_attempts c !! k) as [a|]; [|done]. cbn [mbind option_bind] in H.
    destruct (idle (GReader k) c); [|done]. cbn [negb] in H. destruct (at_reader a) as [|p|p af|j p af|p| |]; try done.
    + injection H as <-. apply keeps_take.
    + injection H as <-. destruct (cl_out c); [done|]. by destruct af.
    + destruct (send_select room j p c) as [[c1 sent]|] eqn:Es; [|done]. injection H as <-.
      eapply keeps_trans; [by eapply keeps_send|by destruct af].
    + destruct (ParseDeliverSM _ _ _ _) as [[dlr|] []]; by injection H as <-.
    + by injection H as <-.
  - unfold cl_tick in H. destruct (cl_attempts c !! k) as [a|]; [|done]. cbn [mbind option_bind] in H.
    destruct (at_enq a); try done. destruct (negb (cl_bound c)); [by injection H as <-|]. destruct (_ && _).
    + injection H as <-. eapply keeps_trans; [|apply keeps_closeConn]. done.
    + unfold nextSeq in H. by injection H as <-.
  - unfold tick_step in H. destruct (cl_attempts c !! k) as [a|]; [|done]. cbn [mbind option_bind] in H.
    destruct (at_enq a) as [|p|j p|]; try done; [injection H as <-; by destruct (cl_out c)|].
    destruct (send_select room j p c) as [[c1 sent]|] eqn:Es; [|done]. injection H as <-.
    eapply keeps_trans; [by eapply keeps_send|done].
  - unfold cl_tick_end in H. destruct (cl_attempts c !! k) as [a|]; [|done]. cbn [mbind option_bind] in H.
    destruct (at_enq a); try done. destruct (_ || _ || _); [|done]. by injection H as <-.
  - by eapply keeps_loop.
  - by injection H as <-.
  - injection H as <-. apply keeps_close.
Qed.

Lemma keeps_run es c c' : cl_run es c = Some c' -> keeps c c'.
Proof.
  revert c. induction es as [|e es IH]; intros c H; cbn in H; [by injection H as <-|].
  destruct (cl_step e c) as [c1|] eqn:E; [|done]. cbn in H. eapply keeps_trans; [by eapply keeps_step|by apply IH].
Qed.
