(* ===== verification/ClientAnswer.v ===== *)
(** * What a client's call returns: internal/smppclient/connection.go

    A call that returns an id or a status was given it by the peer under the
    call's own number; its submit_sm leaves for the network at most once, over
    all reconnections; the window's work never blocks, and when everything has
    settled the window is empty. *)

From S2P Require Import Prelude Unicode Codec Segment Pdu Num GoTime Submit ClientReceipt ClientConn ClientWindow.

(** ** The invariant *)

Definition heard (c : Client) (seq : Z) (p : PDU) : Prop :=
  exists k a, cl_attempts c !! k = Some a /\ p ∈ at_in a /\ pdu_CommandID p = commandSubmitSMResp /\ pdu_SequenceID p = seq.

Definition is_status (e : cerr) : bool := match e with EStatus _ => true | _ => false end.

Definition good_result (c : Client) (seq : Z) (r : result) : Prop :=
  match r with RPdu p => heard c seq p | RErr e => is_status e = false end.

Definition answered (c : Client) (u : ucall) : Prop :=
  match u_stage u with
  | UOver (OID id) => exists p, heard c (u_seq u) p /\ pdu_Status p = statusOK /\ id = readCString (pdu_Body p)
  | UOver (OErr (EStatus s)) => exists p, heard c (u_seq u) p /\ pdu_Status p = s /\ s <> statusOK /\ permanentStatus s = false
  | UOver (OPermanent (EStatus s)) => exists p, heard c (u_seq u) p /\ pdu_Status p = s /\ s <> statusOK /\ permanentStatus s = true
  | UFail e | UReturn e => is_status e = false
  | _ => True
  end.

(** The numbers of the submit_sm that reached an attempt's channel or wire. *)
Definition submit_seq (p : PDU) : option Z := if pdu_CommandID p =? commandSubmitSM then Some (pdu_SequenceID p) else None.
Definition sent_of (a : Attempt) : list Z := omap submit_seq (at_wire a ++ at_out a).
Definition sent_seqs (c : Client) : list Z := cl_attempts c ≫= sent_of.

Definition past (st : ustage) : bool := match st with UWait | UFail _ | UReturn _ | UOver _ => true | _ => false end.

Definition stage_ok (a : Attempt) : Prop :=
  match at_reader a with
  | RComplete p => p ∈ at_in a /\ pdu_CommandID p = commandSubmitSMResp
  | RSend p _ | RSending _ p _ => submit_seq p = None
  | _ => True
  end /\
  match at_enq a with ESend p | ESending _ p => submit_seq p = None | _ => True end.

Record ainv (c : Client) : Prop := {
  ai_stage : forall k a, cl_attempts c !! k = Some a -> stage_ok a;
  ai_todo : forall g j r, (g, SGive j r) ∈ cl_todo c -> exists u, cl_calls c !! j = Some u /\ good_result c (u_seq u) r;
  ai_chan : forall j u r, cl_calls c !! j = Some u -> u_chan u = Some r -> good_result c (u_seq u) r;
  ai_over : forall j u, cl_calls c !! j = Some u -> answered c u;
  ai_nodup : NoDup (sent_seqs c);
  ai_sent : forall s, s ∈ sent_seqs c -> exists j u, cl_calls c !! j = Some u /\ u_seq u = s /\ s <> 0 /\ past (u_stage u) = true }.

Definition hears (c c' : Client) : Prop := forall seq p, heard c seq p -> heard c' seq p.

Lemma good_mono c c' seq r : hears c c' -> good_result c seq r -> good_result c' seq r.
Proof. intros H. destruct r; cbn; auto. Qed.

Lemma answered_mono c c' u : hears c c' -> answered c u -> answered c' u.
Proof. intros H. unfold answered. repeat case_match; naive_solver. Qed.

(** Calls and the window's work stay; numbers sent may only disappear. *)
Lemma ainv_frame c c' :
  ainv c -> cl_calls c' = cl_calls c -> cl_todo c' = cl_todo c -> hears c c' ->
  (forall k a, cl_attempts c' !! k = Some a -> stage_ok a) -> sublist (sent_seqs c') (sent_seqs c) -> ainv c'.
Proof.
  intros [H1 H2 H3 H4 H5 H6] Hc Ht Hh Hs Hn. split; rewrite ?Hc, ?Ht.
  - done.
  - intros g j r Hj. destruct (H2 g j r Hj) as (u & Hu & Hg). exists u. split; [done|]. by eapply good_mono.
  - intros j u r Hu Hr. eapply good_mono; eauto.
  - intros j u Hu. eapply answered_mono; eauto.
  - by eapply sublist_NoDup.
  - intros s Hs'. apply H6. by eapply elem_of_sublist.
Qed.

Lemma heard_alter k f c seq p :
  (forall a, cl_attempts c !! k = Some a -> forall q, q ∈ at_in a -> q ∈ at_in (f a)) ->
  heard c seq p -> heard (upd_at k f c) seq p.
Proof.
  intros Hf (k' & a & Ha & Hp & Hc & Hs). destruct (decide (k = k')) as [<-|Hne].
  - exists k, (f a). cbn. rewrite list_lookup_alter_eq, Ha. split_and!; auto.
  - exists k', a. cbn. rewrite list_lookup_alter_ne by done. done.
Qed.

Lemma bind_alter_sublist {A B} (g : A -> list B) f k (l : list A) :
  (forall a, l !! k = Some a -> sublist (g (f a)) (g a)) -> sublist (alter f k l ≫= g) (l ≫= g).
Proof.
  revert k. induction l as [|x l IH]; intros [|k] H; [done..| |]; cbn; change (list_bind _ _ g) with (l ≫= g).
  - apply sublist_app; [by apply H|done].
  - change (list_alter f k l) with (alter f k l). apply sublist_app; [done|]. apply (IH k). intros a Ha. by apply H.
Qed.

(** A step of one attempt's goroutines. *)
Lemma ainv_at k f c c' :
  ainv c -> cl_calls c' = cl_calls c -> cl_todo c' = cl_todo c -> cl_attempts c' = alter f k (cl_attempts c) ->
  (forall a, cl_attempts c !! k = Some a ->
    (forall q, q ∈ at_in a -> q ∈ at_in (f a)) /\ (stage_ok a -> stage_ok (f a)) /\ sublist (sent_of (f a)) (sent_of a)) ->
  ainv c'.
Proof.
  intros Hinv Hc Ht Ha Hf. eapply ainv_frame; [exact Hinv|done|done|..].
  - intros seq p Hp. assert (heard (upd_at k f c) seq p) as (k' & a & Hk & ?)
      by (apply heard_alter; [intros a Hk; by apply Hf|done]).
    exists k', a. by rewrite Ha.
  - intros k' a. rewrite Ha. destruct (decide (k = k')) as [<-|Hne].
    + rewrite list_lookup_alter_eq. destruct (cl_attempts c !! k) as [a0|] eqn:E; [|done]. intros [= <-].
      apply (Hf a0); [done|]. by eapply ai_stage.
    + rewrite list_lookup_alter_ne by done. by eapply ai_stage.
  - unfold sent_seqs. rewrite Ha. apply bind_alter_sublist. intros a Hk. by apply Hf.
Qed.

Lemma ainv_same c c' :
  ainv c -> cl_calls c' = cl_calls c -> cl_todo c' = cl_todo c -> cl_attempts c' = cl_attempts c -> ainv c'.
Proof.
  intros Hinv Hc Ht Ha. eapply ainv_frame; [exact Hinv|done|done|..].
  - intros seq p (k & a & ?). exists k, a. by rewrite Ha.
  - rewrite Ha. apply Hinv.
  - unfold sent_seqs. by rewrite Ha.
Qed.

(** ** Steps of calls *)

Lemma ainv_call n i u u' c c' :
  winv n c -> ainv c -> cl_calls c !! i = Some u -> cl_calls c' = <[i := u']> (cl_calls c) -> cl_todo c' = cl_todo c ->
  cl_attempts c' = cl_attempts c -> (u_seq u' = u_seq u \/ early (u_stage u) = true) ->
  (u_chan u' = u_chan u \/ u_chan u' = None) -> (past (u_stage u) = true -> past (u_stage u') = true) ->
  (answered c u -> answered c u') -> ainv c'.
Proof.
  intros Hw [H1 H2 H3 H4 H5 H6] Hu Hc Ht Ha Hq Hch Hp Han.
  assert (hears c c') as Hh by (intros seq p (k & a & ?); exists k, a; by rewrite Ha).
  assert (sent_seqs c' = sent_seqs c) as Es by (unfold sent_seqs; by rewrite Ha).
  pose proof (lookup_insert_cases (cl_calls c) i u u') as Hlk.
  assert (<[i := u']> (cl_calls c) !! i = Some u') as Hi by (by rewrite list_lookup_insert_eq by (by eapply lookup_lt_Some)).
  assert (early (u_stage u) = true -> u_chan u = None /\ gives i (cl_todo c) = 0%nat /\ past (u_stage u) = false) as Hearly.
  { intros He. split; [by apply (wi_early _ _ Hw i u Hu)|]. split; [|by destruct (u_stage u)].
    destruct (Nat.eq_0_gt_0_cases (gives i (cl_todo c))) as [|Hg]; [done|].
    destruct (wi_gives _ _ Hw i Hg) as (_ & v & Hv & Hev & _). simplify_eq. congruence. }
  split; rewrite ?Hc, ?Ht, ?Ha, ?Es.
  - done.
  - intros g j r Hj. destruct (H2 g j r Hj) as (v & Hv & Hg). destruct (decide (j = i)) as [-> |Hne].
    + exists u'. split; [done|]. simplify_eq. destruct Hq as [-> |He]; [by eapply good_mono|].
      apply gives_elem in Hj. destruct (Hearly He) as (_ & ? & _). lia.
    + exists v. rewrite list_lookup_insert_ne by done. split; [done|by eapply good_mono].
  - intros j v r [[-> ->]|[Hne Hv]]%Hlk Hr; [|by eapply good_mono; eauto|done].
    destruct Hch as [Hch|Hch]; [|congruence]. destruct Hq as [-> |He].
    + eapply good_mono; [done|]. apply (H3 i u r Hu). congruence.
    + destruct (Hearly He) as (? & _). congruence.
  - intros j v [[-> ->]|[Hne Hv]]%Hlk; [|by eapply answered_mono; eauto|done]. eapply answered_mono; eauto.
  - done.
  - intros s Hs. destruct (H6 s Hs) as (j & v & Hv & Hsq & Hs0 & Hpv). destruct (decide (j = i)) as [-> |Hne].
    + simplify_eq. exists i, u'. split_and!; auto. destruct Hq as [? |He]; [done|]. destruct (Hearly He) as (_ & _ & ?). congruence.
    + exists j, v. by rewrite list_lookup_insert_ne.
Qed.

Lemma ainv_take n g seq r c :
  winv n c -> ainv c -> (is_Some (w_pending (cl_win c) !! seq) -> good_result c seq r) -> ainv (win_take g seq r c).
Proof.
  intros Hw Hinv Hr. unfold win_take, take_pending. destruct (w_pending (cl_win c) !! seq) as [j|] eqn:E.
  - destruct (wi_pending _ _ Hw seq j E) as (u & Hu & Hq & _). pose proof Hinv as [H1 H2 H3 H4 H5 H6].
    split; cbn -[fmap settling]; try done. intros g' j' r' [Hj|Hj]%elem_of_app; [by eapply H2|].
    apply list_elem_of_fmap in Hj as (s & [= -> <-] & Hs). unfold settling in Hs.
    rewrite !elem_of_cons in Hs. destruct Hs as [[= -> ->]|[[=]|[]%not_elem_of_nil]].
    exists u. rewrite Hq. split; [done|]. by apply Hr.
  - by eapply ainv_same.
Qed.

Lemma send_put_sent j p c c' :
  send_put j p c = Some c' ->
  exists a, cl_attempts c !! j = Some a /\ c' = upd_at j (at_set_out (at_out a ++ [p])) c.
Proof. unfold send_put. intros H. repeat case_match; naive_solver. Qed.

Lemma sent_of_push p a :
  sent_of (at_set_out (at_out a ++ [p]) a) = sent_of a ++ match submit_seq p with Some s => [s] | None => [] end.
Proof. unfold sent_of. cbn. rewrite app_assoc, omap_app. cbn. by destruct (submit_seq p). Qed.

Lemma ainv_send room j p c c' sent :
  ainv c -> submit_seq p = None -> send_select room j p c = Some (c', sent) -> ainv c'.
Proof.
  intros Hinv Hp H. unfold send_select in H. destruct room.
  - destruct (send_put j p c) as [c1|] eqn:E; [|done]. injection H as <- <-. apply send_put_sent in E as (a & Ha & ->).
    eapply ainv_at; [exact Hinv|done|done|done|]. intros a0 Ha0. simplify_eq. split_and!; [done|done|].
    by rewrite sent_of_push, Hp, app_nil_r.
  - case_match; [|done]. by injection H as <- <-.
Qed.

Lemma sent_seqs_push j p a s c :
  cl_attempts c !! j = Some a -> submit_seq p = Some s ->
  sent_seqs (upd_at j (at_set_out (at_out a ++ [p])) c) ≡ₚ s :: sent_seqs c.
Proof.
  intros Ha Hp. unfold sent_seqs. cbn. revert j Ha. generalize (cl_attempts c) as l.
  induction l as [|x l IH]; intros [|j] Ha; simplify_eq/=.
  - change (list_bind _ _ sent_of l) with (l ≫= sent_of). rewrite sent_of_push, Hp, <- app_assoc. cbn.
    symmetry. apply Permutation_middle.
  - specialize (IH j Ha). change (list_bind _ _ sent_of ?l) with (l ≫= sent_of).
    change (list_alter ?f j l) with (alter f j l). rewrite IH. symmetry. apply Permutation_middle.
Qed.

(** The call's own send. *)
Lemma ainv_submitted n i u j which c c' sent :
  winv n c -> ainv c -> cl_calls c !! i = Some u -> u_stage u = USending j ->
  send_select which j (submit_pdu u) c = Some (c', sent) ->
  ainv (upd_call i (u_set_stage (if sent then UWait else UFail ENotReady)) c').
Proof.
  intros Hw Hinv Hu Hst H. unfold send_select in H. destruct which.
  - destruct (send_put j (submit_pdu u) c) as [c1|] eqn:E; [|done]. injection H as <- <-.
    apply send_put_sent in E as (a & Ha & ->).
    assert (u_seq u <> 0) as Hq by (intros Hz; apply (wi_numbered _ _ Hw i u Hu) in Hz; by rewrite Hst in *).
    pose proof (sent_seqs_push j (submit_pdu u) a (u_seq u) c Ha eq_refl) as Hs.
    assert (u_seq u ∉ sent_seqs c) as Hfresh.
    { intros Hin. destruct (ai_sent _ Hinv _ Hin) as (k & v & Hv & Hvq & _ & Hpv).
      assert (k = i) as -> by (apply (wi_distinct _ _ Hw k i v u); congruence). simplify_eq. by rewrite Hst in Hpv. }
    set (c1 := upd_at j _ c) in *.
    assert (ainv (upd_call i (u_set_stage UWait) c)) as [H1 H2 H3 H4 H5 H6].
    { eapply (ainv_call n i u (u_set_stage UWait u)); eauto; cbn; try done; auto.
      by rewrite (alter_insert _ _ _ _ Hu). }
    assert (hears (upd_call i (u_set_stage UWait) c) (upd_call i (u_set_stage UWait) c1)) as Hh.
    { intros seq p Hp. apply (heard_alter j (at_set_out (at_out a ++ [submit_pdu u])) c seq p); [done|]. exact Hp. }
    change (sent_seqs (upd_call i (u_set_stage UWait) c)) with (sent_seqs c) in *.
    split; cbn.
    + intros k b. destruct (decide (j = k)) as [<-|Hne].
      * rewrite list_lookup_alter_eq, Ha. intros [= <-]. by apply (H1 j a).
      * rewrite list_lookup_alter_ne by done. apply (H1 k b).
    + intros g k r Hk. destruct (H2 g k r Hk) as (v & Hv & Hg). exists v. split; [done|]. by eapply good_mono.
    + intros k v r Hv Hr. eapply good_mono; [exact Hh|]. by eapply H3.
    + intros k v Hv. eapply answered_mono; [exact Hh|]. by eapply H4.
    + change (NoDup (sent_seqs c1)). rewrite Hs. by constructor.
    + change (forall s, s ∈ sent_seqs c1 -> exists j0 u0, alter (u_set_stage UWait) i (cl_calls c) !! j0 = Some u0 /\
        u_seq u0 = s /\ s <> 0 /\ past (u_stage u0) = true).
      intros s. rewrite Hs, elem_of_cons. intros [-> |Hin]; [|by apply H6].
      exists i, (u_set_stage UWait u). rewrite list_lookup_alter_eq, Hu. done.
  - case_match; [|done]. injection H as <- <-.
    eapply (ainv_call n i u (u_set_stage (UFail ENotReady) u)); eauto; cbn; try done; auto.
    by rewrite (alter_insert _ _ _ _ Hu).
Qed.

Lemma ainv_settle n k c c' : winv n c -> ainv c -> cl_settle k c = Some c' -> ainv c'.
Proof.
  intros Hw Hinv H. pose proof Hinv as [H1 H2 H3 H4 H5 H6]. unfold cl_settle in H.
  destruct (cl_todo c !! k) as [[g s]|] eqn:Ek; [|done]. cbn [mbind option_bind] in H. case_match; [|done].
  assert (forall x, x ∈ delete k (cl_todo c) -> x ∈ cl_todo c) as Hdel
    by (intros x Hx; rewrite (delete_Permutation _ _ _ Ek); by apply list_elem_of_further).
  destruct s as [ch r|]; cbn in H.
  - destruct (cl_calls c !! ch) as [u|] eqn:Eu; [|done]. destruct (u_chan u) eqn:Ec; [done|]. injection H as <-.
    destruct (H2 g ch r) as (v & Hv & Hg); [by eapply list_elem_of_lookup_2|]. simplify_eq.
    pose proof (lookup_insert_cases (cl_calls c) ch u (u_set_chan (Some r) u)) as Hlk.
    split; cbn; rewrite ?(alter_insert _ _ _ _ Eu); try done.
    + intros g' j r' Hj. destruct (H2 g' j r' (Hdel _ Hj)) as (v & Hv & Hg'). destruct (decide (j = ch)) as [-> |Hne].
      * simplify_eq. exists (u_set_chan (Some r) u). by rewrite list_lookup_insert_eq by (by eapply lookup_lt_Some).
      * exists v. by rewrite list_lookup_insert_ne.
    + intros j v r' [[-> ->]|[Hne Hv]]%Hlk; [|by apply (H3 j v)|done]. cbn. intros [= <-]. done.
    + intros j v [[-> ->]|[Hne Hv]]%Hlk; [|by eapply H4|done]. apply (H4 ch u Eu).
    + intros s Hs. destruct (H6 s Hs) as (j & v & Hv & Hsq & Hs0 & Hp). destruct (decide (j = ch)) as [-> |Hne].
      * simplify_eq. exists ch, (u_set_chan (Some r) u). by rewrite list_lookup_insert_eq by (by eapply lookup_lt_Some).
      * exists j, v. by rewrite list_lookup_insert_ne.
  - destruct (w_slots (cl_win c)) as [|m]; [done|]. injection H as <-.
    split; cbn; try done. intros g' j r' Hj. apply (H2 g' j r'). auto.
Qed.

Lemma answered_result c u r :
  good_result c (u_seq u) r -> answered c (u_set_chan None (u_set_stage (UOver (result_outcome r)) u)).
Proof.
  destruct r as [p|e]; cbn.
  - intros Hp. destruct (Z.eqb_spec (pdu_Status p) statusOK) as [E|E]; cbn.
    + by exists p.
    + destruct (permanentStatus (pdu_Status p)) eqn:Ep; by exists p.
  - by destruct e.
Qed.

Lemma answered_error c u e : is_status e = false -> answered c (u_set_stage (UOver (error_outcome (cl_cfg c) e)) u).
Proof. intros H. unfold answered. cbn. destruct e; cbn in *; try done. by destruct (uc_RetryOnTimeout (cl_cfg c)). Qed.

Lemma ainv_submit n i which c c' :
  n < 4294967295 -> winv n c -> ainv c -> submit_step i which c = Some c' -> ainv c'.
Proof.
  intros Hn Hw Hinv H. unfold submit_step in H. destruct (cl_calls c !! i) as [u|] eqn:Hu; [|done].
  cbn [mbind option_bind] in H. destruct (idle (GCall i) c); [|done]. cbn [negb] in H.
  pose proof (ai_over _ Hinv i u Hu) as Han.
  assert (forall st c1, cl_calls c1 = cl_calls c -> cl_todo c1 = cl_todo c -> cl_attempts c1 = cl_attempts c ->
    (past (u_stage u) = true -> past st = true) -> answered c (u_set_stage st u) -> ainv (upd_call i (u_set_stage st) c1)) as Hgo.
  { intros st c1 E1 E2 E3 Hp Ha. eapply (ainv_call n i u (u_set_stage st u)); eauto; cbn; auto.
    by rewrite E1, (alter_insert _ _ _ _ Hu). }
  destruct (u_stage u) as [| | | | |j| |e|e|o] eqn:Hst.
  - injection H as <-. case_match; by apply Hgo.
  - injection H as <-. destruct (acquire (cl_win c)) as [w|] eqn:Ew; by apply Hgo.
  - destruct (nextSeq c) as [c1 seq] eqn:Es. destruct (nextSeq_spec n _ _ _ (wi_next _ _ Hw) Hn Es) as [-> ->].
    injection H as <-. apply (ainv_call n i u (mkUcall (u_body u) (cl_seq c + 1) URegister (u_chan u) (u_ctx u)) c); cbn;
      rewrite ?(alter_insert _ _ _ _ Hu), ?Hst; try done; auto.
  - injection H as <-. by apply Hgo.
  - injection H as <-. case_match; by apply Hgo.
  - destruct (send_select _ j _ c) as [[c1 sent]|] eqn:Es; [|done]. cbn in H. injection H as <-. by eapply ainv_submitted.
  - destruct which.
    + destruct (u_chan u) as [r|] eqn:Ech; [|done]. cbn [mbind option_bind] in H. injection H as <-.
      apply (ainv_call n i u (u_set_chan None (u_set_stage (UOver (result_outcome r)) u)) c); cbn;
        rewrite ?(alter_insert _ _ _ _ Hu), ?Hst; try done; auto.
      intros _. apply answered_result. by apply (ai_chan _ Hinv i u r Hu).
    + injection H as <-. by apply Hgo.
    + destruct (u_ctx u); [|done]. injection H as <-. by apply Hgo.
  - injection H as <-. assert (is_status e = false) as He by (unfold answered in Han; by rewrite Hst in Han).
    assert (cl_calls (win_take (GCall i) (u_seq u) (RErr e) c) = cl_calls c) as Ec
      by (unfold win_take, take_pending; by case_match).
    apply (ainv_call n i u (u_set_stage (UReturn e) u) (win_take (GCall i) (u_seq u) (RErr e) c)).
    + by apply winv_take.
    + by eapply ainv_take.
    + by rewrite Ec.
    + unfold upd_call. cbn [cl_calls cl_set_calls]. by rewrite Ec, (alter_insert _ _ _ _ Hu).
    + done.
    + done.
    + by left.
    + by left.
    + by rewrite Hst.
    + by unfold answered.
  - injection H as <-. assert (is_status e = false) as He by (unfold answered in Han; by rewrite Hst in Han).
    eapply ainv_same; [apply (Hgo (UOver (error_outcome (cl_cfg c) e)) c); try done; by apply answered_error|done..].
  - done.
Qed.

(** ** Steps of the other goroutines *)

(** One attempt's record changes; what it read stays, nothing new is sent. *)
Lemma ainv_upd k f c :
  ainv c -> (forall a, cl_attempts c !! k = Some a ->
    (forall q, q ∈ at_in a -> q ∈ at_in (f a)) /\ (stage_ok a -> stage_ok (f a)) /\ sublist (sent_of (f a)) (sent_of a)) ->
  ainv (upd_at k f c).
Proof. intros Hinv Hf. by eapply ainv_at. Qed.

Ltac at_step := intros; split_and!; [done| |done]; unfold stage_ok; cbn; tauto.

Lemma ainv_closeConn c : ainv c -> ainv (closeConn c).
Proof.
  intros Hinv. unfold closeConn. destruct (cl_conn c) as [k|]; [|done].
  eapply ainv_same; [apply (ainv_upd k (at_set_open false) c Hinv); at_step|done..].
Qed.

Lemma ainv_close c : ainv c -> ainv (close c).
Proof. intros Hinv. unfold close. case_match; [done|]. apply ainv_closeConn. by eapply ainv_same. Qed.

Lemma ainv_setError e c : ainv c -> ainv (setError e c).
Proof. intros Hinv. destruct e; [by eapply ainv_same|done]. Qed.

Lemma ainv_after_send k af c : ainv c -> ainv (after_send k af c).
Proof. intros Hinv. destruct af; apply ainv_upd; try done; at_step. Qed.

Lemma read_stage_ok p a : p ∈ at_in a -> stage_ok a -> stage_ok (at_set_reader (read_stage p) a).
Proof.
  intros Hp [_ He]. split; [|done]. cbn. unfold read_stage.
  destruct (Z.eqb_spec (pdu_CommandID p) commandSubmitSMResp); [done|].
  destruct (_ =? commandDeliverSM); [done|]. destruct (_ =? commandEnquireLink); [done|].
  destruct (_ =? commandEnquireLinkResp); [done|]. by destruct (_ =? commandUnbind).
Qed.

Lemma ainv_read k now p c c' : ainv c -> cl_read k now p c = Some c' -> ainv c'.
Proof.
  intros Hinv H. unfold cl_read in H. destruct (cl_attempts c !! k) as [a|]; [|done]. cbn [mbind option_bind] in H.
  destruct (at_reader a); try done. destruct (at_open a); [|done].
  assert (ainv (upd_at k (fun a => at_set_reader (read_stage p) (at_set_in (at_in a ++ [p]) a)) (cl_set_lastIn now c))) as Hr.
  { apply ainv_upd; [by eapply ainv_same|]. intros b Hb. split_and!; [set_solver| |done].
    intros Hs. apply (read_stage_ok p (at_set_in (at_in b ++ [p]) b)); [set_solver|]. destruct Hs as [Hs He].
    split; [|done]. cbn. destruct (at_reader b); try done. set_solver. }
  case_match; injection H as <-; [by eapply ainv_same|done].
Qed.

Lemma ainv_reader n k room now c c' : winv n c -> ainv c -> reader_step k room now c = Some c' -> ainv c'.
Proof.
  intros Hw Hinv H. unfold reader_step in H. destruct (cl_attempts c !! k) as [a|] eqn:Ha; [|done].
  cbn [mbind option_bind] in H. destruct (idle (GReader k) c); [|done]. cbn [negb] in H.
  pose proof (ai_stage _ Hinv k a Ha) as [Hs _].
  destruct (at_reader a) as [|p|p af|j p af|p| |] eqn:Er; try done.
  - injection H as <-. apply ainv_upd; [|at_step]. apply (ainv_take n); [done|done|]. intros _. exists k, a. naive_solver.
  - injection H as <-. destruct (cl_out c) as [j|]; [|by apply ainv_after_send].
    apply ainv_upd; [done|]. intros b Hb. simplify_eq. split_and!; [done| |done]. intros [_ He]. split; [done|]. exact He.
  - destruct (send_select room j p c) as [[c1 sent]|] eqn:Es; [|done]. injection H as <-.
    apply ainv_after_send. by eapply ainv_send.
  - destruct (ParseDeliverSM _ _ _ _) as [[dlr|] []]; injection H as <-; apply ainv_upd; try at_step;
      by eapply ainv_same.
  - injection H as <-. apply ainv_upd; [done|]. intros b Hb. split_and!; [done| |done]. intros [_ He].
    split; [|exact He]. cbn. by destruct (at_over a).
Qed.

Lemma ainv_new_attempt c : ainv c -> ainv (cl_set_attempts (cl_attempts c ++ [newAttempt]) c).
Proof.
  intros Hinv. eapply ainv_frame; [exact Hinv|done|done|..]; cbn.
  - intros seq p (k & a & Ha & ?). exists k, a. split; [by apply lookup_app_l_Some|done].
  - intros k a [Ha|[_ Ha]]%lookup_app_Some; [by eapply ai_stage|].
    apply list_lookup_singleton_Some in Ha as [_ <-]. done.
  - unfold sent_seqs. cbn. rewrite bind_app. cbn. by rewrite app_nil_r.
Qed.

Lemma ainv_fail_all n order c w :
  winv n c -> ainv c -> take_all order (cl_win c) = Some w ->
  ainv (add_todo GLoop (order ≫= fun p => settling (RErr EConnectionClosed) p.2) (cl_set_win w c)).
Proof.
  intros Hw [H1 H2 H3 H4 H5 H6] Ht. unfold take_all in Ht. case_bool_decide as Hp; [|done]. injection Ht as <-.
  split; cbn -[fmap mbind settling]; try done. intros g j r [Hj|Hj]%elem_of_app; [by eapply H2|].
  apply list_elem_of_fmap in Hj as (s & [= -> <-] & Hs).
  apply list_elem_of_bind in Hs as ([q ch] & Hs & Hq). unfold settling in Hs. cbn in Hs.
  rewrite !elem_of_cons in Hs. destruct Hs as [[= -> ->]|[[=]|[]%not_elem_of_nil]].
  rewrite Hp, elem_of_map_to_list in Hq. destruct (wi_pending _ _ Hw q ch Hq) as (u & Hu & _). by exists u.
Qed.

Lemma ainv_loop n ch c c' : n < 4294967295 -> winv n c -> ainv c -> loop_step ch c = Some c' -> ainv c'.
Proof.
  intros Hn Hw Hinv H. unfold loop_step in H.
  destruct (cl_loop c) as [|k|k|k|k|k e|e| | | |], ch as [ok|ok|resp now| | | | |order|]; try done.
  - destruct (cl_cancelled c || cl_closed c); [done|]. destruct ok; injection H as <-; [|by eapply ainv_same].
    eapply ainv_same; [apply (ainv_new_attempt c Hinv)|done..].
  - destruct (cl_cancelled c); [|done]. injection H as <-. eapply ainv_same; [by apply (ainv_close c)|done..].
  - destruct (cl_closed c); [|done]. injection H as <-. by eapply ainv_same.
  - destruct (cl_attempts c !! k) as [a|] eqn:Ha; [|done]. cbn [mbind option_bind] in H.
    destruct (ok && negb (at_open a)); [done|].
    destruct (nextSeq c) as [c1 seq] eqn:Es. destruct (nextSeq_spec n _ _ _ (wi_next _ _ Hw) Hn Es) as [-> ->].
    destruct ok; injection H as <-; [|by eapply ainv_same].
    eapply (ainv_at k); [exact Hinv|done|done|done|]. intros b Hb. split_and!; [done| |].
    + unfold stage_ok. cbn. tauto.
    + unfold sent_of. cbn. rewrite <- app_assoc, !omap_app. cbn. done.
  - destruct (cl_attempts c !! k) as [a|] eqn:Ha; [|done]. cbn [mbind option_bind] in H. case_match; [done|].
    destruct resp as [p|]; [|injection H as <-; by eapply ainv_same].
    assert (ainv (upd_at k (fun a => at_set_in (at_in a ++ [p]) a) c)) as Hr.
    { apply ainv_upd; [done|]. intros b Hb. split_and!; [set_solver| |done]. intros [Hs He]. split; [|done]. cbn.
      destruct (at_reader b); try done. set_solver. }
    destruct (bind_check p); injection H as <-; by eapply ainv_same.
  - injection H as <-. eapply ainv_same; [apply (ainv_upd k (start_attempt (cl_cfg c)) (cl_set_out (Some k) c))|done..].
    + by eapply ainv_same.
    + intros b Hb. split_and!; [done| |done]. intros _. split; cbn; [done|]. by destruct (uc_EnquirePeriod (cl_cfg c) <=? 0).
  - destruct (cl_attempts c !! k) as [a|] eqn:Ha; [|done]. cbn [mbind option_bind] in H.
    destruct (at_errs a) as [|e errs]; [done|]. injection H as <-.
    eapply ainv_same; [apply (ainv_upd k (fun a => at_set_over true (at_set_errs errs a)) c Hinv); at_step|done..].
  - destruct (cl_cancelled c); [|done]. injection H as <-.
    eapply ainv_same; [apply (ainv_upd k (at_set_over true) c Hinv); at_step|done..].
  - destruct (cl_closed c); [|done]. injection H as <-.
    eapply ainv_same; [apply (ainv_upd k (at_set_over true) c Hinv); at_step|done..].
  - injection H as <-. case_match; by eapply ainv_same.
  - injection H as <-. eapply ainv_same; [by apply (ainv_setError e c)|done..].
  - injection H as <-. eapply ainv_same; [by apply (ainv_closeConn c)|done..].
  - destruct (take_all order (cl_win c)) as [w|] eqn:Ew; [|done]. cbn [mbind option_bind] in H. injection H as <-.
    eapply ainv_same; [by eapply ainv_fail_all|done..].
  - destruct (idle GLoop c && cl_cancelled c); [|done]. injection H as <-. eapply ainv_same; [by apply (ainv_close c)|done..].
  - destruct (idle GLoop c && cl_closed c); [|done]. injection H as <-. by eapply ainv_same.
  - destruct (idle GLoop c); [|done]. injection H as <-. by eapply ainv_same.
Qed.

Lemma ainv_new cfg : ainv (newConnection cfg).
Proof. split; cbn; try done; try (by intros ? ?%not_elem_of_nil); try (by intros ? ? ? ?%not_elem_of_nil). constructor. Qed.

Lemma ainv_write k ok c c' : ainv c -> cl_write k ok c = Some c' -> ainv c'.
Proof.
  intros Hinv H. unfold cl_write in H. destruct (cl_attempts c !! k) as [a|] eqn:Ha; [|done]. cbn [mbind option_bind] in H.
  destruct (at_writing a); [|done]. destruct (at_out a) as [|p out] eqn:Eo; [done|].
  destruct ok; [destruct (at_open a); [|done]|]; injection H as <-; apply ainv_upd; try done;
    intros b Hb; simplify_eq; (split_and!; [done|unfold stage_ok; cbn; tauto|]); unfold sent_of; cbn; rewrite Eo.
  - by rewrite <- app_assoc.
  - rewrite !omap_app. apply sublist_app; [done|]. cbn. destruct (submit_seq p); [by constructor|done].
Qed.

Lemma ainv_tick n k now c c' : n < 4294967295 -> winv n c -> ainv c -> cl_tick k now c = Some c' -> ainv c'.
Proof.
  intros Hn Hw Hinv H. unfold cl_tick in H. destruct (cl_attempts c !! k) as [a|] eqn:Ha; [|done].
  cbn [mbind option_bind] in H. destruct (at_enq a); try done.
  destruct (negb (cl_bound c)); [by injection H as <-|]. case_match.
  - injection H as <-. apply ainv_closeConn, ainv_upd; [by eapply ainv_same|]. intros b Hb.
    split_and!; [done| |done]. intros [Hs _]. split; [exact Hs|done].
  - destruct (nextSeq c) as [c1 seq] eqn:Es. destruct (nextSeq_spec n _ _ _ (wi_next _ _ Hw) Hn Es) as [-> ->].
    injection H as <-. apply ainv_upd; [by eapply ainv_same|]. intros b Hb. split_and!; [done| |done].
    intros [Hs _]. split; [exact Hs|done].
Qed.

Lemma ainv_ticker k room c c' : ainv c -> tick_step k room c = Some c' -> ainv c'.
Proof.
  intros Hinv H. unfold tick_step in H. destruct (cl_attempts c !! k) as [a|] eqn:Ha; [|done].
  cbn [mbind option_bind] in H. pose proof (ai_stage _ Hinv k a Ha) as [_ He].
  destruct (at_enq a) as [|p|j p|] eqn:Ee; try done.
  - injection H as <-. case_match; apply ainv_upd; try done; intros b Hb; simplify_eq;
      (split_and!; [done| |done]); intros [Hs _]; (split; [exact Hs|done]).
  - destruct (send_select room j p c) as [[c1 sent]|] eqn:Es; [|done]. injection H as <-.
    apply ainv_upd; [by eapply ainv_send|]. intros b Hb. split_and!; [done| |done]. intros [Hs _]. split; [exact Hs|done].
Qed.

Lemma ainv_step n e c c' : n < 4294967295 -> winv n c -> ainv c -> cl_step e c = Some c' -> ainv c'.
Proof.
  intros Hn Hw Hinv H. destruct e; cbn in H.
  - injection H as <-. pose proof Hinv as [H1 H2 H3 H4 H5 H6]. set (u0 := mkUcall body 0 UStart None false).
    assert (forall j v, (cl_calls c ++ [u0]) !! j = Some v -> cl_calls c !! j = Some v \/ v = u0) as Hlk.
    { intros j v [Hv|[_ Hv]]%lookup_app_Some; [auto|]. apply list_lookup_singleton_Some in Hv as [_ <-]. auto. }
    split; cbn; try done.
    + intros g j r Hj. destruct (H2 g j r Hj) as (u & Hu & ?). exists u. split; [by apply lookup_app_l_Some|done].
    + intros j v r [Hv| ->]%Hlk; [by eapply H3|done].
    + intros j v [Hv| ->]%Hlk; [by eapply H4|done].
    + intros s Hs. destruct (H6 s Hs) as (j & u & Hu & ?). exists j, u. split; [by apply lookup_app_l_Some|done].
  - by eapply ainv_submit.
  - injection H as <-. destruct (cl_calls c !! i) as [u|] eqn:Hu; [|by rewrite upd_call_None].
    apply (ainv_call n i u (u_set_ctx true u) c); cbn; auto. by rewrite (alter_insert _ _ _ _ Hu).
  - by eapply ainv_settle.
  - by eapply ainv_write.
  - unfold cl_write_end in H. destruct (cl_attempts c !! k); [|done]. cbn [mbind option_bind] in H.
    case_match; simplify_eq. apply ainv_upd; [done|at_step].
  - by eapply ainv_read.
  - unfold cl_read_fail in H. destruct (cl_attempts c !! k); [|done]. cbn [mbind option_bind] in H.
    case_match; simplify_eq. apply ainv_upd; [done|at_step].
  - by eapply ainv_reader.
  - by eapply ainv_tick.
  - by eapply ainv_ticker.
  - unfold cl_tick_end in H. destruct (cl_attempts c !! k); [|done]. cbn [mbind option_bind] in H.
    repeat case_match; simplify_eq. apply ainv_upd; [done|at_step].
  - by eapply ainv_loop.
  - injection H as <-. by eapply ainv_same.
  - injection H as <-. by apply ainv_close.
Qed.

Lemma inv_run es n c c' :
  n + Z.of_nat (length es) <= 4294967295 -> winv n c -> ainv c -> cl_run es c = Some c' ->
  winv (n + Z.of_nat (length es)) c' /\ ainv c'.
Proof.
  revert n c. induction es as [|e es IH]; intros n c Hn Hw Ha H; cbn in H.
  - injection H as <-. cbn. by rewrite Z.add_0_r.
  - destruct (cl_step e c) as [c1|] eqn:E; [|done]. cbn in H. cbn [length] in *.
    rewrite Nat2Z.inj_succ in *. replace (n + Z.succ (Z.of_nat (length es))) with (n + 1 + Z.of_nat (length es)) by lia.
    apply (IH _ c1); [lia|eapply winv_step; [lia|done..]|eapply ainv_step; [|exact Hw|done..]; lia|done].
Qed.

(** ** What holds in every reachable state *)

Lemma inv_reach cfg es c :
  Z.of_nat (length es) <= 4294967295 -> cl_run es (newConnection cfg) = Some c -> winv (Z.of_nat (length es)) c /\ ainv c.
Proof. intros Hl H. by apply (inv_run es 0 (newConnection cfg) c Hl (winv_new cfg) (ainv_new cfg)). Qed.

Definition over (u : ucall) : bool := match u_stage u with UOver _ => true | _ => false end.

Lemma settle_enabled N c n g s :
  winv N c -> cl_todo c !! n = Some (g, s) -> (forall m t, (m < n)%nat -> cl_todo c !! m = Some t -> t.1 <> g) ->
  is_Some (cl_settle n c).
Proof.
  intros Hw Hn Hf. unfold cl_settle. rewrite Hn. cbn [mbind option_bind].
  assert (forallb (fun t => bool_decide (t.1 <> g)) (take n (cl_todo c)) = true) as ->.
  { apply forallb_forall. intros t Ht%list_elem_of_In. apply list_elem_of_lookup in Ht as [m Hm].
    apply lookup_take_Some in Hm as [Hm Hlt]. apply bool_decide_eq_true. by eapply Hf. }
  destruct s as [ch r|]; cbn.
  - pose proof (gives_delete ch _ _ _ _ Hn) as Hg. cbn in Hg. rewrite decide_True in Hg by done.
    destruct (wi_gives _ _ Hw ch) as (_ & u & -> & _ & ->); [lia|]. done.
  - pose proof (releases_delete _ _ _ _ Hn) as Hr. cbn in Hr. pose proof (wi_slots _ _ Hw).
    destruct (w_slots (cl_win c)); [lia|done].
Qed.

(** C16: In every interleaving of an upstream connection's goroutines the slots
    taken never exceed the window and equal the calls holding one plus the
    waiting entries plus the releases under way; every waiting entry belongs
    to a live call with an empty channel, so settling never blocks; when all
    calls are over and nothing is left to settle, every slot is free. *)
Theorem client_window cfg es c :
  Z.of_nat (length es) <= 4294967295 -> cl_run es (newConnection cfg) = Some c ->
  let w := cl_win c in
  w_size w = (if uc_WindowSize cfg <=? 0 then 1%nat else Z.to_nat (uc_WindowSize cfg)) /\
  (w_slots w <= w_size w)%nat /\
  w_slots w = (sum_list_with holds (cl_calls c) + size (w_pending w) + releases (cl_todo c))%nat /\
  (forall seq i, w_pending w !! seq = Some i ->
    exists u, cl_calls c !! i = Some u /\ u_seq u = seq /\ live (u_stage u) = true /\ u_chan u = None) /\
  (forall n g s, cl_todo c !! n = Some (g, s) -> (forall m t, (m < n)%nat -> cl_todo c !! m = Some t -> t.1 <> g) ->
    is_Some (cl_settle n c)) /\
  (Forall (fun u => over u = true) (cl_calls c) -> cl_todo c = [] -> w_slots w = 0%nat /\ w_pending w = ∅).
Proof.
  intros Hl H. destruct (inv_reach cfg es c Hl H) as [Hw Ha]. cbn zeta. split_and!.
  - by destruct (keeps_run _ _ _ H) as (-> & _).
  - apply Hw.
  - apply Hw.
  - intros seq i Hi. destruct (wi_pending _ _ Hw seq i Hi) as (u & ? & ? & ? & ? & _). by exists u.
  - intros n g s Hn Hf. by eapply settle_enabled.
  - intros Ho Ht. assert (w_pending (cl_win c) = ∅) as Hp.
    { apply map_eq. intros seq. rewrite lookup_empty. destruct (w_pending (cl_win c) !! seq) as [i|] eqn:E; [|done].
      destruct (wi_pending _ _ Hw seq i E) as (u & Hu & _ & Hlv & _).
      rewrite Forall_lookup in Ho. specialize (Ho i u Hu). unfold over in Ho. by destruct (u_stage u). }
    split; [|done]. rewrite (wi_slots _ _ Hw), Ht, Hp, map_size_empty.
    assert (forall l, Forall (fun u => over u = true) l -> sum_list_with holds l = 0%nat) as Hz.
    { intros l Hl'. induction Hl' as [|u l Hu _ IH]; [done|]. cbn. rewrite IH. unfold over, holds in *. by destruct (u_stage u). }
    by rewrite (Hz _ Ho).
Qed.

(** C17: A submit that returns an id returns the one of a submit_sm_resp heard
    under its own sequence number, one that returns a status returns that of
    such a response and calls it permanent exactly when the code lists it; no
    two calls share a sequence number and no number is sent twice. *)
Theorem submit_answered cfg es c i u :
  Z.of_nat (length es) <= 4294967295 -> cl_run es (newConnection cfg) = Some c -> cl_calls c !! i = Some u ->
  (forall id, u_stage u = UOver (OID id) -> exists p, heard c (u_seq u) p /\ pdu_Status p = statusOK /\ id = readCString (pdu_Body p)) /\
  (forall s, u_stage u = UOver (OErr (EStatus s)) \/ u_stage u = UOver (OPermanent (EStatus s)) ->
    exists p, heard c (u_seq u) p /\ pdu_Status p = s /\ s <> statusOK /\
      (permanentStatus s = true <-> u_stage u = UOver (OPermanent (EStatus s)))) /\
  (forall j v, cl_calls c !! j = Some v -> u_seq v = u_seq u -> u_seq u <> 0 -> j = i) /\
  NoDup (sent_seqs c).
Proof.
  intros Hl H Hu. destruct (inv_reach cfg es c Hl H) as [Hw Ha]. pose proof (ai_over _ Ha i u Hu) as Hov.
  unfold answered in Hov. split_and!.
  - intros id E. by rewrite E in Hov.
  - intros s [E|E]; rewrite E in *; destruct Hov as (p & ? & ? & ? & Hp); exists p; split_and!; try done; by rewrite Hp.
  - intros j v Hv Eq Hz. by apply (wi_distinct _ _ Hw j i v u Hv Hu Eq); rewrite Eq.
  - apply Ha.
Qed.

(** A connection binds, sends one message, and its answer arrives. *)
Definition demo_cfg : ClientConfig := mkClientConfig "alice" "secret" "" 2 0 5000 Second (60 * Second) "auto" "auto" false.
Definition demo_bind : list cevent :=
  [CvLoop (CDial true); CvLoop (CBindWrite true); CvLoop (CBindRead (Some (pdu commandBindTransceiverResp statusOK 1 [])) 5);
   CvLoop CServe].
Definition demo_submit : list cevent :=
  CvSubmit [7] :: replicate 6 (CvCall 0 PFirst) ++
  [CvWrite 0 true; CvRead 0 6 (pdu commandSubmitSMResp statusOK 2 (CString "ab")); CvReader 0 true 0; CvSettle 0; CvSettle 0;
   CvCall 0 PFirst].
#[local] Abbreviation demo_end := (cl_run (demo_bind ++ demo_submit) (newConnection demo_cfg)).

Lemma client_window_witness : (w_slots ∘ cl_win) <$> demo_end = Some 0%nat.
Proof.
  destruct demo_end as [c|] eqn:E; [|vm_compute in E; discriminate E]. cbn. f_equal.
  destruct (client_window demo_cfg (demo_bind ++ demo_submit) c) as (_ & _ & _ & _ & _ & H).
  - vm_compute. discriminate.
  - exact E.
  - apply H.
    + assert (forallb over <$> (cl_calls <$> demo_end) = Some true) as Hc by (vm_compute; reflexivity).
      rewrite E in Hc. injection Hc as Hc. rewrite forallb_forall in Hc. apply Forall_forall.
      intros u Hu. by apply Hc, list_elem_of_In.
    + assert (bool_decide (length <$> (cl_todo <$> demo_end) = Some 0%nat) = true) as Hc by (vm_compute; reflexivity).
      rewrite E in Hc. apply bool_decide_eq_true in Hc. injection Hc as Hc. by apply nil_length_inv.
Defined.

Lemma submit_answered_witness :
  (fun c => u_stage <$> cl_calls c !! 0%nat) <$> demo_end = Some (Some (UOver (OID "ab"))) /\
  (fun c => sent_seqs c) <$> demo_end = Some [2] /\
  exists c p, demo_end = Some c /\ heard c 2 p /\ "ab" = readCString (pdu_Body p).
Proof.
  split; [vm_compute; reflexivity|]. split; [vm_compute; reflexivity|].
  destruct demo_end as [c|] eqn:E; [|vm_compute in E; discriminate E].
  assert ((fun c => cl_calls c !! 0%nat) <$> demo_end = Some (Some (mkUcall [7] 2 (UOver (OID "ab")) None false))) as Hc
    by (vm_compute; reflexivity).
  rewrite E in Hc. injection Hc as Hc.
  destruct (submit_answered demo_cfg (demo_bind ++ demo_submit) c 0 _ ltac:(vm_compute; discriminate) E Hc) as (H & _).
  destruct (H "ab" eq_refl) as (p & Hp & _ & Hb).
  exists c, p. split; [reflexivity|]. split; [exact Hp|exact Hb].
Defined.
