(* ===== verification/ClientLive.v ===== *)
(** * Calls of a client return, unless the channel they send to is full

    From any reachable state a call of [submit] can be brought to its end by
    its own steps and the window's, its timer included, when the channel it
    sends to has room or the connection is closed. A call that waits for room
    in the channel of an attempt that is over waits for ever. *)

From S2P Require Import Prelude Unicode Codec Segment Pdu Num GoTime Submit ClientReceipt ClientConn ClientWindow ClientAnswer.

Definition stage_rank (st : ustage) : nat :=
  match st with
  | UStart => 9 | UAcquire => 8 | USeq => 7 | URegister => 6 | USend => 5 | USending _ => 4 | UWait => 3 | UFail _ => 2
  | UReturn _ => 1 | UOver _ => 0
  end.

Definition mine (g : gid) (T : list (gid * settle)) : nat := length (filter (fun t => t.1 = g) T).
#[local] Arguments mine : simpl never.
Definition rank (i : nat) (u : ucall) (c : Client) : nat := (3 * stage_rank (u_stage u) + mine (GCall i) (cl_todo c))%nat.

Definition room_for (c : Client) (u : ucall) : Prop :=
  cl_closed c = true \/
  forall j, cl_out c = Some j \/ u_stage u = USending j ->
    exists a, cl_attempts c !! j = Some a /\ (length (at_out a) < client_out_capacity)%nat.

(** Steps of the call, the end of its context apart, and of the window. *)
Definition own (i : nat) (e : cevent) : Prop :=
  match e with CvCall j which => j = i /\ which <> PContext | CvSettle _ => True | _ => False end.

Lemma idle_spec g c : idle g c = true <-> mine g (cl_todo c) = 0%nat.
Proof.
  unfold idle, mine. induction (cl_todo c) as [|[g' s] T IH]; [done|]. cbn [forallb]. rewrite filter_cons. cbn.
  destruct (decide (g' = g)) as [-> |Hne]; cbn.
  - rewrite bool_decide_eq_false_2 by tauto. done.
  - rewrite bool_decide_eq_true_2 by done. done.
Qed.

(** The first entry of a goroutine. *)
Lemma first_of g (T : list (gid * settle)) :
  (0 < mine g T)%nat -> exists n s, T !! n = Some (g, s) /\ forall m t, (m < n)%nat -> T !! m = Some t -> t.1 <> g.
Proof.
  unfold mine. induction T as [|[g' s] T IH]; [cbn; lia|]. rewrite filter_cons. cbn [fst].
  destruct (decide (g' = g)) as [-> |Hne]; intros H.
  - exists 0%nat, s. split; [done|]. lia.
  - destruct (IH H) as (n & s' & Hn & Hf). exists (S n), s'. split; [done|].
    intros [|m] t Hm Ht; [by injection Ht as <-|]. apply (Hf m t); [lia|done].
Qed.

Lemma mine_delete g n s T : T !! n = Some (g, s) -> S (mine g (delete n T)) = mine g T.
Proof.
  intros H. unfold mine. rewrite (delete_Permutation T n (g, s) H) at 2. rewrite filter_cons. cbn.
  by rewrite decide_True.
Qed.

Lemma settle_mine n c c' g s :
  cl_todo c !! n = Some (g, s) -> cl_settle n c = Some c' ->
  cl_todo c' = delete n (cl_todo c) /\ cl_out c' = cl_out c /\ cl_closed c' = cl_closed c /\ cl_attempts c' = cl_attempts c /\
  forall i u, cl_calls c !! i = Some u -> exists u', cl_calls c' !! i = Some u' /\ u_stage u' = u_stage u.
Proof.
  intros Hn H. unfold cl_settle in H. rewrite Hn in H. cbn [mbind option_bind] in H. destruct (forallb _ _); [|done].
  destruct s as [ch r|]; cbn in H.
  - destruct (cl_calls c !! ch) as [u|] eqn:Eu; [|done]. destruct (u_chan u); [done|]. injection H as <-. cbn.
    split_and!; try done. intros i v Hv. destruct (decide (ch = i)) as [<-|Hne].
    + rewrite list_lookup_alter_eq, Hv. cbn. by eexists.
    + rewrite list_lookup_alter_ne by done. by exists v.
  - destruct (w_slots (cl_win c)); [done|]. injection H as <-. cbn. split_and!; try done. intros i u Hu. by exists u.
Qed.

Lemma upd_call_at i st u c c1 :
  cl_calls c !! i = Some u -> cl_calls c1 = cl_calls c ->
  cl_calls (upd_call i (u_set_stage st) c1) !! i = Some (u_set_stage st u).
Proof. intros Hu E. cbn. by rewrite E, list_lookup_alter_eq, Hu. Qed.

(** A call that still has something to settle settles the first of it. *)
Lemma progress_settle N i u c :
  winv N c -> cl_calls c !! i = Some u -> idle (GCall i) c = false -> ((3 < stage_rank (u_stage u))%nat -> room_for c u) ->
  exists e c' u', own i e /\ cl_step e c = Some c' /\ cl_calls c' !! i = Some u' /\ (rank i u' c' < rank i u c)%nat /\
    ((3 < stage_rank (u_stage u'))%nat -> room_for c' u').
Proof.
  intros Hw Hu Hid Hroom. destruct (first_of (GCall i) (cl_todo c)) as (n & s & Hn & Hf).
  { destruct (Nat.eq_0_gt_0_cases (mine (GCall i) (cl_todo c))) as [E|]; [|done]. apply idle_spec in E. congruence. }
  destruct (settle_enabled N c n _ s Hw Hn Hf) as [c' Hc']. destruct (settle_mine _ _ _ _ _ Hn Hc') as (Et & Eo & Ecl & Ea & Hcalls).
  destruct (Hcalls i u Hu) as (u' & Hu' & Est). exists (CvSettle n), c', u'. split_and!; [done|done|done| |].
  - unfold rank. rewrite Est, Et. pose proof (mine_delete _ _ _ _ Hn). lia.
  - rewrite Est. intros Hr. destruct (Hroom Hr) as [?|Hj]; [left; congruence|]. right. intros j. rewrite Eo, Est, Ea. apply Hj.
Qed.

(** What the window holds of a call that gives up its entry. *)
Lemma mine_win_take i seq r c :
  mine (GCall i) (cl_todo c) = 0%nat -> (mine (GCall i) (cl_todo (win_take (GCall i) seq r c)) <= 2)%nat.
Proof.
  intros Hm. unfold win_take, take_pending. destruct (w_pending (cl_win c) !! seq) as [ch|]; cbn -[settling fmap]; [|lia].
  unfold mine in *. rewrite filter_app, length_app, Hm. cbn. rewrite !decide_True by done. cbn. lia.
Qed.

Lemma progress_call N i u c :
  winv N c -> cl_calls c !! i = Some u -> over u = false -> ((3 < stage_rank (u_stage u))%nat -> room_for c u) ->
  exists e c' u', own i e /\ cl_step e c = Some c' /\ cl_calls c' !! i = Some u' /\ (rank i u' c' < rank i u c)%nat /\
    ((3 < stage_rank (u_stage u'))%nat -> room_for c' u').
Proof.
  intros Hw Hu Hov Hroom. destruct (idle (GCall i) c) eqn:Hid.
  2: by eapply progress_settle.
  assert (forall c', cl_todo c' = cl_todo c -> mine (GCall i) (cl_todo c') = 0%nat) as Hm
    by (intros c' ->; by apply idle_spec).
  pose proof (Hm c eq_refl) as Hm0. unfold rank. rewrite Hm0.
  assert (forall st c1, cl_calls c1 = cl_calls c -> cl_todo c1 = cl_todo c -> cl_out c1 = cl_out c -> cl_closed c1 = cl_closed c ->
    cl_attempts c1 = cl_attempts c -> (stage_rank st < stage_rank (u_stage u))%nat ->
    ((3 < stage_rank st)%nat -> forall j, st = USending j -> cl_out c = Some j) ->
    forall e c2, own i e -> cl_step e c = Some c2 -> c2 = upd_call i (u_set_stage st) c1 ->
    exists e c' u', own i e /\ cl_step e c = Some c' /\ cl_calls c' !! i = Some u' /\
      (3 * stage_rank (u_stage u') + mine (GCall i) (cl_todo c') < 3 * stage_rank (u_stage u) + 0)%nat /\
      ((3 < stage_rank (u_stage u'))%nat -> room_for c' u')) as Hgo.
  { intros st c1 E1 E2 E3 E4 E5 Hr Hj e c2 Ho Hs ->. exists e, (upd_call i (u_set_stage st) c1), (u_set_stage st u).
    split_and!; [done|done|by eapply upd_call_at| |]; cbn.
    - rewrite (Hm _ E2). lia.
    - intros H3. destruct Hroom as [Hcl|Hrm]; [lia|left; cbn; congruence|]. right. cbn. rewrite E3, E5.
      intros j [Hj1|Hj1]; apply Hrm; left; [done|]. by apply Hj. }
  assert (forall w, cl_step (CvCall i w) c = submit_step i w c) as Hstep by done. unfold submit_step in Hstep.
  rewrite Hu, Hid in Hstep. cbn [mbind option_bind negb] in Hstep. unfold over in Hov.
  destruct (u_stage u) as [| | | | |j| |e|e|o] eqn:Hst; try done.
  - specialize (Hstep PFirst). destruct (cl_bound c); (eapply Hgo; [..|exact Hstep|reflexivity]); cbn; try done; try lia.
  - specialize (Hstep PFirst). destruct (acquire (cl_win c)) as [w|];
      (eapply Hgo; [..|exact Hstep|reflexivity]); cbn; try done; try lia.
  - specialize (Hstep PFirst). destruct (nextSeq c) as [c1 seq] eqn:Es.
    assert (cl_calls c1 = cl_calls c /\ cl_todo c1 = cl_todo c /\ cl_out c1 = cl_out c /\ cl_closed c1 = cl_closed c /\
      cl_attempts c1 = cl_attempts c) as (E1 & E2 & E3 & E4 & E5) by (unfold nextSeq in Es; by injection Es as <- <-).
    eexists _, _, (mkUcall (u_body u) seq URegister (u_chan u) (u_ctx u)). split_and!; [|exact Hstep|..]; cbn; try done.
    + by rewrite E1, list_lookup_alter_eq, Hu.
    + rewrite (Hm _ E2). lia.
    + intros _. destruct Hroom as [Hcl|Hrm]; [cbn; lia|left; cbn; congruence|]. right. cbn. rewrite E3, E5.
      intros j [Hj|Hj]; [|done]. apply Hrm. by left.
  - specialize (Hstep PFirst). eapply Hgo; [..|exact Hstep|reflexivity]; cbn; try done; try lia.
  - specialize (Hstep PFirst). destruct (cl_out c) as [j|] eqn:Eo;
      (eapply Hgo; [..|exact Hstep|reflexivity]); cbn; try done; try lia. intros _ j' [= ->]. done.
  - destruct Hroom as [Hcl|Hrm]; [cbn; lia| |].
    + specialize (Hstep PSecond). unfold send_select in Hstep. rewrite Hcl in Hstep. cbn [fmap option_fmap option_map mbind option_bind] in Hstep.
      eapply Hgo; [..|exact Hstep|reflexivity]; cbn; try done; try lia.
    + specialize (Hstep PFirst). destruct (Hrm j) as (a & Ha & Hlen); [by right|].
      unfold send_select, send_put in Hstep. rewrite Ha, (proj2 (Nat.ltb_lt _ _) Hlen) in Hstep. cbn [fmap option_fmap option_map mbind option_bind] in Hstep.
      eexists _, _, (u_set_stage UWait u). split_and!; [|exact Hstep|..]; cbn; try done; try lia.
      by rewrite list_lookup_alter_eq, Hu.
  - specialize (Hstep PSecond). eapply Hgo; [..|exact Hstep|reflexivity]; cbn; try done; try lia.
  - specialize (Hstep PFirst). eexists _, _, (u_set_stage (UReturn e) u).
    split_and!; [|exact Hstep| | |intros ?; cbn in *; lia]; [done|..].
    + apply (upd_call_at i _ u c); [done|]. unfold win_take, take_pending. by case_match.
    + pose proof (mine_win_take i (u_seq u) (RErr e) c Hm0). cbn -[win_take]. lia.
  - specialize (Hstep PFirst). eexists _, _, (u_set_stage (UOver (error_outcome (cl_cfg c) e)) u).
    split_and!; [|exact Hstep|..]; cbn; try done; try lia.
    by rewrite list_lookup_alter_eq, Hu.
Qed.

Lemma finish_call k : forall N i u c,
  (rank i u c <= k)%nat -> N + Z.of_nat k <= 4294967295 -> winv N c -> cl_calls c !! i = Some u ->
  ((3 < stage_rank (u_stage u))%nat -> room_for c u) ->
  exists es c' u', Forall (own i) es /\ (length es <= k)%nat /\ cl_run es c = Some c' /\ cl_calls c' !! i = Some u' /\ over u' = true.
Proof.
  induction k as [|k IH]; intros N i u c Hk HN Hw Hu Hroom; destruct (over u) eqn:Hov.
  1,3: exists [], c, u; split_and!; [constructor|cbn; lia|done..].
  - unfold rank in Hk. unfold over in Hov. destruct (u_stage u); cbn in Hk; lia || done.
  - destruct (progress_call N i u c Hw Hu Hov Hroom) as (e & c1 & u1 & Ho & He & Hu1 & Hr & Hroom1).
    destruct (IH (N + 1) i u1 c1) as (es & c' & u' & Hes & Hl & Hrun & Hu' & Hov'); [lia|lia| |done|done|].
    { eapply winv_step; [|exact Hw|exact He]. lia. }
    exists (e :: es), c', u'. split_and!; [by constructor|cbn; lia| |done|done]. cbn. by rewrite He.
Qed.

(** C18: From every reachable state a submit that is not blocked in a full channel
    can finish by its own steps and those of what it settles, within 27 steps
    plus what is left to settle: the timer of the call ends it though the
    upstream stays silent, the connection stays up and its context never ends. *)
Theorem submit_finishes cfg es c i u :
  Z.of_nat (length es + 27 + length (cl_todo c)) <= 4294967295 ->
  cl_run es (newConnection cfg) = Some c -> cl_calls c !! i = Some u -> room_for c u ->
  exists es' c' u', Forall (own i) es' /\ (length es' <= 27 + length (cl_todo c))%nat /\ cl_run es' c = Some c' /\
    cl_calls c' !! i = Some u' /\ over u' = true.
Proof.
  intros Hl H Hu Hroom. destruct (inv_reach cfg es c) as [Hw _]; [lia|done|].
  apply (finish_call _ (Z.of_nat (length es)) i u c); [|lia|done|done|done].
  unfold rank, mine. pose proof (length_filter (fun t : gid * settle => t.1 = GCall i) (cl_todo c)).
  assert (stage_rank (u_stage u) <= 9)%nat by (destruct (u_stage u); cbn; lia). lia.
Qed.

#[local] Abbreviation waiting := (cl_run (demo_bind ++ CvSubmit [7] :: replicate 6 (CvCall 0 PFirst)) (newConnection demo_cfg)).

Lemma submit_finishes_witness :
  exists c es' c' u', waiting = Some c /\ cl_run es' c = Some c' /\ cl_calls c' !! 0%nat = Some u' /\ over u' = true.
Proof.
  destruct waiting as [c|] eqn:E; [|vm_compute in E; discriminate E].
  assert ((fun c => cl_calls c !! 0%nat) <$> waiting = Some (Some (mkUcall [7] 2 UWait None false))) as Hc by (vm_compute; reflexivity).
  assert (cl_out <$> waiting = Some (Some 0%nat)) as Ho by (vm_compute; reflexivity).
  assert ((fun c => length (cl_todo c)) <$> waiting = Some 0%nat) as Ht by (vm_compute; reflexivity).
  assert ((fun c => (fun a => length (at_out a)) <$> cl_attempts c !! 0%nat) <$> waiting = Some (Some 1%nat)) as Ha
    by (vm_compute; reflexivity).
  rewrite E in Hc, Ho, Ht, Ha. injection Hc as Hc. injection Ho as Ho. injection Ht as Ht. injection Ha as Ha.
  destruct (submit_finishes demo_cfg (demo_bind ++ CvSubmit [7] :: replicate 6 (CvCall 0 PFirst)) c 0 (mkUcall [7] 2 UWait None false)) as (es' & c' & u' & _ & _ & Hr & Hu & Hov).
  - rewrite Ht. vm_compute. discriminate.
  - exact E.
  - exact Hc.
  - right. intros j [Hj|Hj]; [|discriminate Hj]. rewrite Ho in Hj. injection Hj as <-.
    destruct (cl_attempts c !! 0%nat) as [a|]; [|discriminate Ha]. injection Ha as Ha. exists a.
    split; [reflexivity|]. rewrite Ha. unfold client_out_capacity. lia.
  - exists c, es', c', u'. split; [reflexivity|]. split; [exact Hr|]. split; [exact Hu|exact Hov].
Defined.

(** ** A call that waits for room in the channel of an attempt that is over *)

Definition full (a : Attempt) : Prop := at_writing a = false /\ (client_out_capacity <= length (at_out a))%nat.

Definition binding (j : nat) (c : Client) : Prop :=
  match cl_loop c with LBind k | LBindWait k | LBound k => k = j | _ => False end.

Record stuck (i j : nat) (c : Client) : Prop := {
  sk_call : exists u, cl_calls c !! i = Some u /\ u_stage u = USending j;
  sk_full : exists a, cl_attempts c !! j = Some a /\ full a;
  sk_loop : ~ binding j c }.

(** The fields [stuck] reads are kept, or changed harmlessly. *)
Lemma stuck_at i j k f c c' :
  stuck i j c -> cl_calls c' = cl_calls c -> cl_attempts c' = alter f k (cl_attempts c) ->
  (k = j -> forall a, full a -> full (f a)) -> cl_loop c' = cl_loop c -> stuck i j c'.
Proof.
  intros [(u & Hu & Hst) (a & Ha & Hf) Hl] Ec Ea Hff El. split.
  - exists u. by rewrite Ec.
  - rewrite Ea. destruct (decide (k = j)) as [-> |Hne].
    + exists (f a). rewrite list_lookup_alter_eq, Ha. split; [done|]. by apply Hff.
    + exists a. by rewrite list_lookup_alter_ne.
  - unfold binding in *. by rewrite El.
Qed.

Lemma stuck_same i j c c' :
  stuck i j c -> cl_calls c' = cl_calls c -> cl_attempts c' = cl_attempts c -> ~ binding j c' -> stuck i j c'.
Proof. intros [Hu Ha Hl] Ec Ea El. split; rewrite ?Ec, ?Ea; done. Qed.

Lemma stuck_closeConn i j c : stuck i j c -> stuck i j (closeConn c).
Proof.
  intros Hs. unfold closeConn. destruct (cl_conn c) as [k|]; [|done].
  by apply (stuck_at i j k (at_set_open false) c).
Qed.

Lemma stuck_send room i j j' p c c' sent :
  stuck i j c -> send_select room j' p c = Some (c', sent) -> stuck i j c' /\ (j' = j -> sent = true -> False).
Proof.
  intros Hs H. unfold send_select in H. destruct room.
  - destruct (send_put j' p c) as [c1|] eqn:E; [|done]. injection H as <- <-. unfold send_put in E.
    destruct (cl_attempts c !! j') as [a|] eqn:Ha; [|done]. destruct (Nat.ltb_spec (length (at_out a)) client_out_capacity); [|done].
    injection E as <-. assert (j' <> j) as Hne.
    { intros ->. destruct (sk_full _ _ _ Hs) as (b & Hb & _ & Hlen). simplify_eq. lia. }
    split; [|done]. by apply (stuck_at i j j' (at_set_out (at_out a ++ [p])) c).
  - destruct (cl_closed c); [|done]. by injection H as <- <-.
Qed.

Lemma stuck_call_other i i' j f c :
  stuck i j c -> (i' = i -> forall u, u_stage (f u) = u_stage u) -> stuck i j (upd_call i' f c).
Proof.
  intros [(u & Hu & Hst) Ha Hl] Hf. split; cbn; [|done|done]. destruct (decide (i' = i)) as [-> |Hne].
  - exists (f u). rewrite list_lookup_alter_eq, Hu. split; [done|]. by rewrite Hf.
  - exists u. by rewrite list_lookup_alter_ne.
Qed.

Lemma stuck_take i j g seq r c : stuck i j c -> stuck i j (win_take g seq r c).
Proof. intros Hs. unfold win_take, take_pending. case_match; by eapply stuck_same; try apply Hs. Qed.

Lemma stuck_submit i j i' which c c' :
  stuck i j c -> cl_closed c = false -> submit_step i' which c = Some c' -> stuck i j c'.
Proof.
  intros Hs Hcl H. unfold submit_step in H. destruct (cl_calls c !! i') as [u|] eqn:Hu; [|done].
  cbn [mbind option_bind] in H. destruct (idle (GCall i') c); [|done]. cbn [negb] in H.
  destruct (decide (i' = i)) as [-> |Hne].
  - destruct (sk_call _ _ _ Hs) as (v & Hv & Hst). simplify_eq. rewrite Hst in H.
    destruct (send_select _ j _ c) as [[c1 sent]|] eqn:Es; [|done].
    destruct (stuck_send _ i j j _ _ _ _ Hs Es) as [_ Hno]. unfold send_select in Es.
    rewrite Hcl in Es. destruct which; try done. destruct (send_put j _ c); [|done]. injection Es as <- <-. by destruct Hno.
  - assert (forall f c1, stuck i j c1 -> stuck i j (upd_call i' f c1)) as Hgo by (intros; by apply stuck_call_other).
    assert (forall c1, cl_calls c1 = cl_calls c -> cl_attempts c1 = cl_attempts c -> cl_loop c1 = cl_loop c -> stuck i j c1) as Hsame.
    { intros c1 E1 E2 E3. eapply stuck_same; [exact Hs|done|done|]. unfold binding. rewrite E3. apply Hs. }
    destruct (u_stage u) as [| | | | |j'| |e|e|o].
    + injection H as <-. case_match; by apply Hgo.
    + injection H as <-. case_match; apply Hgo; by apply Hsame.
    + unfold nextSeq in H. injection H as <-. apply Hgo. by apply Hsame.
    + injection H as <-. apply Hgo. by apply Hsame.
    + injection H as <-. case_match; by apply Hgo.
    + destruct (send_select _ j' _ c) as [[c1 sent]|] eqn:Es; [|done]. cbn in H. injection H as <-. apply Hgo.
      by eapply stuck_send.
    + destruct which; [destruct (u_chan u); [|done]| |destruct (u_ctx u); [|done]]; injection H as <-; try by apply Hgo.
      eapply stuck_same; [by apply Hgo; exact Hs|done|done|]. apply Hs.
    + injection H as <-. apply Hgo. by apply stuck_take.
    + injection H as <-. eapply stuck_same; [by apply Hgo; exact Hs|done|done|]. apply Hs.
    + done.
Qed.

Ltac stuck_upd Hs f := eapply (stuck_at _ _ _ f _ _ Hs); [done|done| |done]; intros _ ? [? ?]; split; done.

Lemma stuck_after_send i j k af c : stuck i j c -> stuck i j (after_send k af c).
Proof.
  intros Hs. destruct af as [p| |]; [stuck_upd Hs (at_set_reader (RParse p))|stuck_upd Hs (at_set_reader RCheck)|].
  stuck_upd Hs (reader_fail EUnbind).
Qed.

Lemma stuck_reader i j k room now c c' : stuck i j c -> reader_step k room now c = Some c' -> stuck i j c'.
Proof.
  intros Hs H. unfold reader_step in H. destruct (cl_attempts c !! k) as [a|]; [|done]. cbn [mbind option_bind] in H.
  destruct (idle (GReader k) c); [|done]. cbn [negb] in H.
  assert (forall st c1, stuck i j c1 -> stuck i j (upd_at k (at_set_reader st) c1)) as Hgo
    by (intros st c1 Hs1; stuck_upd Hs1 (at_set_reader st)).
  destruct (at_reader a) as [|p|p af|j' p af|p| |]; try done.
  - injection H as <-. apply Hgo. by apply stuck_take.
  - injection H as <-. destruct (cl_out c); [by apply Hgo|by apply stuck_after_send].
  - destruct (send_select room j' p c) as [[c1 sent]|] eqn:Es; [|done]. injection H as <-.
    apply stuck_after_send. by eapply stuck_send.
  - destruct (ParseDeliverSM _ _ _ _) as [[dlr|] []]; injection H as <-; apply Hgo; try done;
      (eapply stuck_same; [exact Hs|done|done|apply Hs]).
  - injection H as <-. by apply Hgo.
Qed.

Lemma close_closed c : cl_closed (close c) = true.
Proof. unfold close. destruct (cl_closed c) eqn:E; [done|]. unfold closeConn. by case_match. Qed.

Lemma stuck_loop_step i j ch c c' : stuck i j c -> loop_step ch c = Some c' -> cl_closed c' = false -> stuck i j c'.
Proof.
  intros Hs H Hcl. pose proof (sk_loop _ _ _ Hs) as Hl. unfold loop_step in H. unfold binding in Hl.
  assert (forall st c1, cl_calls c1 = cl_calls c -> cl_attempts c1 = cl_attempts c -> ~ binding j (cl_set_loop st c1) ->
    stuck i j (cl_set_loop st c1)) as Hsame by (intros st c1 E1 E2 E3; apply (stuck_same i j c); [done|exact E1|exact E2|exact E3]).
  assert (forall k f st, (k = j -> forall a, full a -> full (f a)) -> ~ binding j (cl_set_loop st c) ->
    stuck i j (cl_set_loop st (upd_at k f c))) as Hat.
  { intros k f st Hf Hb. apply (stuck_same i j (upd_at k f c)); [|done|done|exact Hb]. by apply (stuck_at i j k f c). }
  destruct (cl_loop c) as [|k|k|k|k|k e|e| | | |] eqn:El, ch as [ok|ok|resp now| | | | |order|]; try done.
  - destruct (cl_cancelled c || cl_closed c); [done|]. destruct ok; injection H as <-; [|apply Hsame; [done|done|by intros []]].
    destruct Hs as [Hu (a & Ha & Hf) _]. pose proof (lookup_lt_Some _ _ _ Ha).
    split; cbn; [done| |unfold binding; cbn; lia]. exists a. split; [|done]. by rewrite lookup_app_l.
  - destruct (cl_cancelled c); [|done]. injection H as <-. pose proof (close_closed c). cbn in Hcl. congruence.
  - destruct (cl_closed c); [|done]. injection H as <-. apply Hsame; [done|done|by intros []].
  - destruct (cl_attempts c !! k) as [a|]; [|done]. cbn [mbind option_bind] in H. destruct (ok && negb (at_open a)); [done|].
    destruct (nextSeq c) as [c1 seq] eqn:Es.
    assert (cl_calls c1 = cl_calls c /\ cl_attempts c1 = cl_attempts c) as [E1 E2] by (unfold nextSeq in Es; by injection Es as <- <-).
    destruct ok; injection H as <-; [|apply Hsame; [exact E1|exact E2|by intros []]].
    match goal with |- context [upd_at k ?f c1] => apply (stuck_same i j (cl_set_loop (LBindWait k) (upd_at k f c))) end.
    + apply Hat; [intros ->; done|exact Hl].
    + exact E1.
    + cbn. by rewrite E2.
    + exact Hl.
  - destruct (cl_attempts c !! k) as [a|]; [|done]. cbn [mbind option_bind] in H. case_match; [done|].
    destruct resp as [p|]; [|injection H as <-; apply Hsame; [done|done|by intros []]]. destruct (bind_check p); injection H as <-.
    + apply Hat; [intros ->; done|by intros []].
    + eapply stuck_same; [apply (Hat k (fun a => at_set_in (at_in a ++ [p]) a) (LBound k)); [intros ->; done|exact Hl]|done|done|exact Hl].
  - injection H as <-. eapply stuck_same; [apply (Hat k (start_attempt (cl_cfg c)) (LServe k)); [intros ->; done|by intros []]|done|done|by intros []].
  - destruct (cl_attempts c !! k) as [a|]; [|done]. cbn [mbind option_bind] in H. destruct (at_errs a) as [|e errs]; [done|].
    injection H as <-. apply Hat; [|by intros []]. by intros _ b [? ?].
  - destruct (cl_cancelled c); [|done]. injection H as <-. apply Hat; [|by intros []]. by intros _ b [? ?].
  - destruct (cl_closed c); [|done]. injection H as <-. apply Hat; [|by intros []]. by intros _ b [? ?].
  - injection H as <-. case_match; (apply Hsame; [done|done|by intros []]).
  - injection H as <-. destruct e; (apply Hsame; [done|done|by intros []]).
  - injection H as <-. eapply stuck_same; [apply (stuck_closeConn i j c Hs)|done|done|by intros []].
  - destruct (take_all order (cl_win c)) as [w|]; [|done]. injection H as <-. apply Hsame; [done|done|by intros []].
  - destruct (idle GLoop c && cl_cancelled c); [|done]. injection H as <-. pose proof (close_closed c). cbn in Hcl. congruence.
  - destruct (idle GLoop c && cl_closed c); [|done]. injection H as <-. apply Hsame; [done|done|by intros []].
  - destruct (idle GLoop c); [|done]. injection H as <-. apply Hsame; [done|done|by intros []].
Qed.

Lemma stuck_step i j e c c' : stuck i j c -> cl_step e c = Some c' -> cl_closed c' = false -> stuck i j c'.
Proof.
  intros Hs H Hcl. assert (cl_closed c = false) as Hc.
  { destruct (cl_closed c) eqn:E; [|done]. destruct (keeps_step _ _ _ H) as (_ & _ & Hk). rewrite (Hk E) in Hcl. done. }
  destruct e; cbn in H.
  - injection H as <-. destruct Hs as [(u & Hu & Hst) Ha Hl]. split; [|done|done]. exists u. split; [by apply lookup_app_l_Some|done].
  - by eapply stuck_submit.
  - injection H as <-. by apply stuck_call_other.
  - unfold cl_settle in H. destruct (cl_todo c !! n) as [[g s]|]; [|done]. cbn [mbind option_bind] in H.
    destruct (forallb _ _); [|done]. destruct s as [ch r|]; cbn in H.
    + destruct (cl_calls c !! ch) as [u|]; [|done]. destruct (u_chan u); [done|]. injection H as <-.
      apply stuck_call_other; [|done]. eapply stuck_same; [exact Hs|done|done|apply Hs].
    + destruct (w_slots (cl_win c)); [done|]. injection H as <-. eapply stuck_same; [exact Hs|done|done|apply Hs].
  - unfold cl_write in H. destruct (cl_attempts c !! k) as [a|] eqn:Ha; [|done]. cbn [mbind option_bind] in H.
    destruct (at_writing a) eqn:Ew; [|done]. assert (k <> j) as Hne.
    { intros ->. destruct (sk_full _ _ _ Hs) as (b & Hb & Hf & _). congruence. }
    destruct (at_out a), ok, (at_open a); try done; injection H as <-;
      (eapply stuck_at; [exact Hs|done|done| |done]; by intros ->).
  - unfold cl_write_end in H. destruct (cl_attempts c !! k) as [a|]; [|done]. cbn [mbind option_bind] in H.
    destruct (_ || _); [|done]. injection H as <-. stuck_upd Hs (at_set_writing false).
  - unfold cl_read in H. destruct (cl_attempts c !! k) as [a|]; [|done]. cbn [mbind option_bind] in H.
    destruct (at_reader a), (at_open a); try done.
    destruct (_ =? _); injection H as <-;
      stuck_upd Hs (fun a => at_set_reader (read_stage p) (at_set_in (at_in a ++ [p]) a)).
  - unfold cl_read_fail in H. destruct (cl_attempts c !! k) as [a|]; [|done]. cbn [mbind option_bind] in H.
    destruct (at_reader a); try done. injection H as <-. stuck_upd Hs (reader_fail EIO).
  - by eapply stuck_reader.
  - unfold cl_tick in H. destruct (cl_attempts c !! k) as [a|]; [|done]. cbn [mbind option_bind] in H.
    destruct (at_enq a); try done. destruct (negb (cl_bound c)); [by injection H as <-|]. destruct (_ && _).
    + injection H as <-. apply stuck_closeConn. stuck_upd Hs (at_set_enq EStop).
    + unfold nextSeq in H. injection H as <-.
      match goal with |- stuck i j (upd_at k ?f _) => stuck_upd Hs f end.
  - unfold tick_step in H. destruct (cl_attempts c !! k) as [a|]; [|done]. cbn [mbind option_bind] in H.
    destruct (at_enq a) as [|p|j' p|]; try done.
    + injection H as <-. destruct (cl_out c) as [j'|]; [stuck_upd Hs (at_set_enq (ESending j' p))|stuck_upd Hs (at_set_enq EWait)].
    + destruct (send_select room j' p c) as [[c1 sent]|] eqn:Es; [|done]. injection H as <-.
      destruct (stuck_send _ i j j' _ _ _ _ Hs Es) as [Hs1 _]. stuck_upd Hs1 (at_set_enq EWait).
  - unfold cl_tick_end in H. destruct (cl_attempts c !! k) as [a|]; [|done]. cbn [mbind option_bind] in H.
    destruct (at_enq a); try done. destruct (_ || _ || _); [|done]. injection H as <-. stuck_upd Hs (at_set_enq EStop).
  - by eapply stuck_loop_step.
  - injection H as <-. eapply stuck_same; [exact Hs|done|done|apply Hs].
  - injection H as <-. by rewrite close_closed in Hcl.
Qed.

Lemma stuck_run i j es c c' : stuck i j c -> cl_run es c = Some c' -> cl_closed c' = false -> stuck i j c'.
Proof.
  revert c. induction es as [|e es IH]; intros c Hs H Hcl; cbn in H; [by injection H as <-|].
  destruct (cl_step e c) as [c1|] eqn:E; [|done]. cbn in H. apply (IH c1); [|done|done]. eapply stuck_step; [exact Hs|done|].
  destruct (cl_closed c1) eqn:Ec; [|done]. destruct (keeps_run _ _ _ H) as (_ & _ & Hk). rewrite (Hk Ec) in Hcl. done.
Qed.

(** The peer asks for enquire_link answers it does not take, until the channel
    is full; the write fails; one more answer fills the place; a call starts to
    send; then the attempt ends. *)
Definition enquire : list cevent :=
  [CvRead 0 6 (pdu commandEnquireLink statusOK 9 []); CvReader 0 true 0; CvReader 0 true 0; CvReader 0 true 0].
Definition hang_events : list cevent :=
  demo_bind ++ mjoin (replicate 128 enquire) ++ [CvWrite 0 false] ++ enquire
  ++ [CvSubmit [7]] ++ replicate 5 (CvCall 0 PFirst)
  ++ [CvLoop CError; CvLoop CNext; CvLoop CNext; CvLoop CNext].

#[local] Abbreviation hanging := (cl_run hang_events (newConnection demo_cfg)).

(** A submit can block for ever: from a reachable state in which its attempt is
    over and the channel of that attempt is full, no step of the connection
    that does not close it ends the call, although its context may end and
    the connection may be bound again. *)
Theorem submit_can_hang :
  exists c, hanging = Some c /\ cl_closed c = false /\
    forall es c', cl_run es c = Some c' -> cl_closed c' = false ->
      exists u, cl_calls c' !! 0%nat = Some u /\ over u = false.
Proof.
  destruct hanging as [c|] eqn:E; [|vm_compute in E; discriminate E].
  assert (cl_closed <$> hanging = Some false) as Hc by (vm_compute; reflexivity).
  assert ((fun c => u_stage <$> cl_calls c !! 0%nat) <$> hanging = Some (Some (USending 0))) as Hu by (vm_compute; reflexivity).
  assert ((fun c => (fun a => (at_writing a, length (at_out a))) <$> cl_attempts c !! 0%nat) <$> hanging = Some (Some (false, 128%nat))) as Ha
    by (vm_compute; reflexivity).
  assert (cl_loop <$> hanging = Some LFailAll) as Hl by (vm_compute; reflexivity).
  rewrite E in Hc, Hu, Ha, Hl. injection Hc as Hc. injection Hu as Hu. injection Ha as Ha. injection Hl as Hl.
  exists c. split; [reflexivity|]. split; [exact Hc|]. clear E. intros es c' Hr Hcl.
  assert (stuck 0 0 c) as Hs.
  { split.
    - destruct (cl_calls c !! 0%nat) as [u|]; [|done]. exists u. by injection Hu as Hu.
    - destruct (cl_attempts c !! 0%nat) as [a|]; [|done]. exists a. injection Ha as Hw Hlen. split; [done|].
      split; [done|]. rewrite Hlen. unfold client_out_capacity. lia.
    - unfold binding. rewrite Hl. by intros []. }
  destruct (sk_call _ _ _ (stuck_run _ _ _ _ _ Hs Hr Hcl)) as (u & Hu' & Hst). exists u. split; [done|].
  unfold over. by rewrite Hst.
Qed.
