(* ===== verification/ClientPool.v ===== *)
(** * The pool of upstream connections: internal/smppclient/pool.go, provider/smpp.go

    The connections of a provider are used in turn; the parts of a message are
    submitted one after the other, and the first failure ends the message. *)

From S2P Require Import Prelude Unicode Codec Segment Num Pdu GoTime Submit ClientEncode ClientReceipt ClientConn.
From S2P Require Import Records Store StoreInv StoreSubmit GatewayId Addr Router DlrAggregate Dispatch DispatchSubmit DispatchSend.

(** ** Picking a connection *)

(** The number of connections [NewPool] makes. *)
Definition pool_size (binds : Z) : nat := if binds <=? 0 then 1%nat else Z.to_nat binds.

(** The loop of [pick] over [n] connections from iteration [i] on; [load i k] is
    what the [i]th read of a [bound] flag, of connection [k], gives. *)
Fixpoint pick_loop (n start : nat) (load : nat -> nat -> bool) (todo i : nat) : option nat :=
  match todo with
  | O => None
  | S todo =>
    let k := ((start + i) mod n)%nat in
    if load i k then Some k else pick_loop n start load todo (S i)
  end.

Definition pick_conn (n : nat) (load : nat -> nat -> bool) (next : Z) : Z * option nat :=
  if (n =? 0)%nat then (next, None)
  else
    let next := u64 (next + 1) in
    (next, pick_loop n (Z.to_nat (next mod Z.of_nat n)) load n 0).

Definition NewPool (cfg : ClientConfig) (binds : Z) : list Client := replicate (pool_size binds) (newConnection cfg).

(** [Close]: the context is cancelled and every connection closed. *)
Definition pool_close (conns : list Client) : list Client := (fun c => close (cl_set_cancelled true c)) <$> conns.

(** ** Status *)

Record ConnectionStatus := mkConnectionStatus {
  cs_ID : Z;
  cs_State : string;
  cs_Bound : bool;
  cs_InFlight : nat;
  cs_WindowSize : nat;
  cs_LastInbound : time;
  cs_LastError : string;
  cs_SubmitOK : Z;
  cs_SubmitFailed : Z;
  cs_DeliverSMCount : Z }.

(** [text] is the text of an error. *)
Definition status (text : cerr -> string) (id : Z) (c : Client) : ConnectionStatus :=
  let x := cl_stats c in
  {| cs_ID := id; cs_State := x_state x; cs_Bound := cl_bound c; cs_InFlight := w_slots (cl_win c);
     cs_WindowSize := w_size (cl_win c); cs_LastInbound := if cl_lastIn c =? 0 then 0 else cl_lastIn c;
     cs_LastError := default "" (text <$> x_lastErr x); cs_SubmitOK := x_okCount x; cs_SubmitFailed := x_errCount x;
     cs_DeliverSMCount := x_dlrCount x |}.

Definition pool_status (text : cerr -> string) (conns : list Client) : list ConnectionStatus :=
  imap (fun i c => status text (Z.of_nat i + 1) c) conns.

(** ** Sending a message *)

Inductive pool_err := EEmptySubmit | ENoConnection | ESubmit (o : outcome).

(** What the world answers to the [k]th part: the reads of [pick], and what
    [submit] returns on the connection. *)
Record turn := mkTurn {
  t_load : nat -> nat -> bool;
  t_submit : nat -> list Z -> outcome }.

(** The loop of [SendAll]; the last component lists the calls of [submit]. *)
Fixpoint send_parts (respFormat : string) (n : nat) (turns : nat -> turn) (parts : list (list Z)) (k : nat) (next : Z)
    (ids : list string) (calls : list (nat * list Z)) : Z * list string * option pool_err * list (nat * list Z) :=
  match parts with
  | [] => (next, ids, None, calls)
  | body :: parts =>
    let '(next, conn) := pick_conn n (t_load (turns k)) next in
    match conn with
    | None => (next, ids, Some ENoConnection, calls)
    | Some j =>
      let calls := calls ++ [(j, body)] in
      match t_submit (turns k) j body with
      | OID id => send_parts respFormat n turns parts (S k) next (ids ++ [NormalizeID id respFormat]) calls
      | o => (next, ids, Some (ESubmit o), calls)
      end
    end
  end.

Definition PoolSendAll (IsLetter : Z -> bool) (cfg : SMPPClientConfig) (respFormat : string) (n : nat) (turns : nat -> turn) (ref : Z)
    (msg : ClientMessage) (next : Z) : Z * list string * option pool_err * list (nat * list Z) :=
  match BuildSubmitSM IsLetter ref msg cfg with
  | [] => (next, [], Some EEmptySubmit, [])
  | parts => send_parts respFormat n turns parts 0 next [] []
  end.

(** [Pool.Send]. *)
Definition PoolSend (IsLetter : Z -> bool) (cfg : SMPPClientConfig) (respFormat : string) (n : nat) (turns : nat -> turn) (ref : Z)
    (msg : ClientMessage) (next : Z) : string * option pool_err :=
  match PoolSendAll IsLetter cfg respFormat n turns ref msg next with
  | (_, _, Some e, _) => ("", Some e)
  | (_, ids, None, _) => (default "" (head ids), None)
  end.

(** ** The provider *)

Definition smpp_message (msg : OutboundMessage) : ClientMessage :=
  {| cm_GatewayID := om_GatewayID msg; cm_SourceAddr := om_SourceAddr msg; cm_DestAddr := om_DestAddr msg;
     cm_Text := om_Text msg; cm_DataCoding := om_DataCoding msg; cm_RegisteredDelivery := om_RegisteredDelivery msg;
     cm_Encoding := om_Encoding msg; cm_UDH := om_UDH msg; cm_RawPayload := om_RawPayload msg;
     cm_RawPayloadSet := om_RawPayloadSet msg; cm_SARRefNum := om_SARRefNum msg;
     cm_SARTotalSegments := om_SARTotalSegments msg; cm_SARSegmentSeqnum := om_SARSegmentSeqnum msg; cm_SARSet := om_SARSet msg |}.

(** What the dispatcher sees of an error: its text, and the answers of its
    methods [Permanent] and [SMPPStatus], found through [errors.As]. *)
Definition err_status (e : cerr) : option Z := match e with EStatus s => Some s | _ => None end.
Definition provider_err (text : pool_err -> string) (e : pool_err) : send_err :=
  match e with
  | ESubmit (OPermanent c) => mkSendErr (text e) true (err_status c)
  | ESubmit (OErr c) => mkSendErr (text e) false (err_status c)
  | _ => mkSendErr (text e) false None
  end.

Definition SMPPProvider (IsLetter : Z -> bool) (text : pool_err -> string) (cfg : SMPPClientConfig) (respFormat : string) (n : nat)
    (turns : nat -> turn) (ref : Z) (next : Z) : Provider :=
  MultiID (fun msg =>
    match PoolSendAll IsLetter cfg respFormat n turns ref (smpp_message msg) next with
    | (_, ids, None, _) => Ok ids
    | (_, _, Some e, _) => Err (provider_err text e)
    end).

(** [OnDLR]: the report passed on under the provider's name. *)
Definition smpp_dlr (name : string) (dlr : ReceiptDLR) : DLR :=
  mkDLR name (rd_ProviderID dlr) (rd_State dlr) (rd_ErrorCode dlr) (rd_DoneAt dlr).

(** ** Turns *)

Lemma pick_loop_spec n start load todo i :
  match pick_loop n start load todo i with
  | Some k => exists m, (i <= m < i + todo)%nat /\ k = ((start + m) mod n)%nat /\ load m k = true /\
      forall m', (i <= m' < m)%nat -> load m' ((start + m') mod n)%nat = false
  | None => forall m, (i <= m < i + todo)%nat -> load m ((start + m) mod n)%nat = false
  end.
Proof.
  revert i. induction todo as [|todo IH]; intros i; cbn [pick_loop]; [lia|].
  destruct (load i ((start + i) mod n)%nat) eqn:E.
  - exists i. split_and!; [lia|lia|done|done|]. lia.
  - specialize (IH (S i)). destruct (pick_loop n start load todo (S i)) as [k|].
    + destruct IH as (m & Hm & -> & Hl & Hb). exists m. split_and!; try done; try lia. intros m' Hm'.
      destruct (decide (m' = i)) as [-> |]; [done|]. apply Hb. lia.
    + intros m Hm. destruct (decide (m = i)) as [-> |]; [done|]. apply IH. lia.
Qed.

(** Every connection is looked at. *)
Lemma rotation_covers n start k : (k < n)%nat -> exists m, (m < n)%nat /\ ((start + m) mod n)%nat = k.
Proof.
  intros Hk. assert (n <> 0)%nat as Hn by lia. pose proof (Nat.mod_upper_bound start n Hn) as Hs.
  assert (start mod n <= k \/ k < start mod n)%nat as [H|H] by lia.
  - exists (k - start mod n)%nat. split; [lia|]. rewrite <- Nat.Div0.add_mod_idemp_l.
    rewrite Nat.mod_small; lia.
  - exists (n + k - start mod n)%nat. split; [lia|]. rewrite <- Nat.Div0.add_mod_idemp_l.
    replace (start mod n + (n + k - start mod n))%nat with (k + 1 * n)%nat by lia.
    rewrite Nat.Div0.mod_add, Nat.mod_small; lia.
Qed.

(** pick gives the first bound connection from the turn on, and none exactly
    when none is bound. *)
Theorem pick_conn_spec n bound next :
  let '(next', r) := pick_conn n (fun _ k => bound k) next in
  (forall k, r = Some k -> (k < n)%nat /\ bound k = true) /\
  (r = None <-> forall k, (k < n)%nat -> bound k = false) /\
  (n <> 0%nat -> forall k, r = Some k -> exists m, (m < n)%nat /\ k = ((Z.to_nat (next' mod Z.of_nat n) + m) mod n)%nat /\
    forall m', (m' < m)%nat -> bound ((Z.to_nat (next' mod Z.of_nat n) + m') mod n)%nat = false).
Proof.
  unfold pick_conn. destruct (Nat.eqb_spec n 0) as [-> |Hn].
  - split_and!; [done| |done]. split; [lia|done].
  - pose proof (pick_loop_spec n (Z.to_nat (u64 (next + 1) mod Z.of_nat n)) (fun _ k => bound k) n 0) as H.
    destruct (pick_loop _ _ _ n 0) as [k|].
    + destruct H as (m & Hm & -> & Hl & Hb). split_and!.
      * intros k [= <-]. split; [by apply Nat.mod_upper_bound|done].
      * split; [done|]. intros Hall. rewrite Hall in Hl; [done|by apply Nat.mod_upper_bound].
      * intros _ k [= <-]. exists m. split_and!; [lia|done|]. intros m' Hm'. apply Hb. lia.
    + split_and!; [done| |done]. split; [|done]. intros _ k Hk.
      destruct (rotation_covers n (Z.to_nat (u64 (next + 1) mod Z.of_nat n)) k Hk) as (m & Hm & <-). apply H. lia.
Qed.

(** ** The parts of a message *)

Section parts.
Context (respFormat : string) (n : nat) (turns : nat -> turn).

(** The [i]th call of [submit] was made on a connection seen bound, and gave the
    [i]th identifier. *)
Definition accepted (i : nat) (call : nat * list Z) (id : string) : Prop :=
  exists raw, t_submit (turns i) call.1 call.2 = OID raw /\ id = NormalizeID raw respFormat.

(** What the loop has done when [rest] is left of [parts]. *)
Record progress (parts rest : list (list Z)) (ids : list string) (calls : list (nat * list Z)) : Prop := {
  pg_parts : parts = calls.*2 ++ rest;
  pg_ids : length ids = length calls;
  pg_ok : forall i call id, calls !! i = Some call -> ids !! i = Some id -> accepted i call id;
  pg_bound : forall i call, calls !! i = Some call -> (call.1 < n)%nat /\ exists m, t_load (turns i) m call.1 = true }.

(** What a finished loop has done: the error says where it stopped. *)
Definition finished (parts : list (list Z)) (ids : list string) (e : option pool_err) (calls : list (nat * list Z)) : Prop :=
  match e with
  | None => progress parts [] ids calls
  | Some ENoConnection => exists body rest, progress parts (body :: rest) ids calls
  | Some (ESubmit o) => exists j body rest prev, calls = prev ++ [(j, body)] /\ progress parts (body :: rest) ids prev
      /\ t_submit (turns (length prev)) j body = o /\ (forall id, o <> OID id) /\ (j < n)%nat
  | Some EEmptySubmit => parts = []
  end.

Lemma pick_conn_bound load next next' j :
  pick_conn n load next = (next', Some j) -> (j < n)%nat /\ exists m, load m j = true.
Proof.
  unfold pick_conn. destruct (Nat.eqb_spec n 0) as [|Hn]; [done|]. intros [= _ Hp].
  pose proof (pick_loop_spec n (Z.to_nat (u64 (next + 1) mod Z.of_nat n)) load n 0) as H. rewrite Hp in H.
  destruct H as (m & _ & -> & Hl & _). split; [by apply Nat.mod_upper_bound|by exists m].
Qed.

Lemma progress_snoc parts body rest ids calls j m raw :
  progress parts (body :: rest) ids calls -> (j < n)%nat -> t_load (turns (length calls)) m j = true ->
  t_submit (turns (length calls)) j body = OID raw ->
  progress parts rest (ids ++ [NormalizeID raw respFormat]) (calls ++ [(j, body)]).
Proof.
  intros [Hp Hi Ho Hb] Hj Hm Hs. split.
  - by rewrite fmap_app, <- app_assoc.
  - rewrite !length_app. by rewrite Hi.
  - intros i call id [Hc|[Hl Hc]]%lookup_app_Some Hid.
    + apply (Ho i call id); [done|]. rewrite lookup_app_l in Hid; [done|]. rewrite Hi. by eapply lookup_lt_Some.
    + rewrite lookup_app_r in Hid by lia. rewrite Hi in Hid.
      destruct (i - length calls)%nat as [|k] eqn:Ek; [|done]. injection Hc as <-. injection Hid as <-.
      exists raw. split; [|done]. by replace i with (length calls) by lia.
  - intros i call [Hc|[Hl Hc]]%lookup_app_Some; [by apply (Hb i)|].
    destruct (i - length calls)%nat as [|k] eqn:Ek; [|done]. injection Hc as <-. split; [done|]. exists m.
    by replace i with (length calls) by lia.
Qed.

Lemma send_parts_finished parts rest next ids calls :
  progress parts rest ids calls ->
  let '(_, ids', e, calls') := send_parts respFormat n turns rest (length calls) next ids calls in
  finished parts ids' e calls'.
Proof.
  revert next ids calls. induction rest as [|body rest IH]; intros next ids calls H; cbn [send_parts]; [done|].
  destruct (pick_conn n _ next) as [next' [j|]] eqn:Hp; [|by exists body, rest].
  apply pick_conn_bound in Hp as (Hj & m & Hm). destruct (t_submit _ j body) as [raw|e|e] eqn:Hs.
  - pose proof (progress_snoc _ _ _ _ _ _ _ _ H Hj Hm Hs) as Hn. specialize (IH next' _ _ Hn).
    rewrite length_app in IH. by rewrite Nat.add_1_r in IH.
  - exists j, body, rest, calls. by split_and!.
  - exists j, body, rest, calls. by split_and!.
Qed.
End parts.

(** The parts of a message are submitted in order up to the first failure; each
    identifier returned is the normalized answer to the part at its
    position; success means one identifier per part, a submit error one call
    more than identifiers, a missing connection as many. *)
Theorem pool_send_all IsLetter cfg respFormat n turns ref msg next :
  let parts := BuildSubmitSM IsLetter ref msg cfg in
  let '(_, ids, e, calls) := PoolSendAll IsLetter cfg respFormat n turns ref msg next in
  calls.*2 = take (length calls) parts /\
  (forall i call id, calls !! i = Some call -> ids !! i = Some id -> accepted respFormat turns i call id) /\
  match e with
  | None => parts <> [] /\ length ids = length parts /\ calls.*2 = parts
  | Some EEmptySubmit => parts = [] /\ ids = [] /\ calls = []
  | Some ENoConnection => length calls = length ids /\ (length ids < length parts)%nat
  | Some (ESubmit o) => length calls = S (length ids) /\ (forall id, o <> OID id) /\
      exists j body, last calls = Some (j, body) /\ t_submit (turns (length ids)) j body = o
  end.
Proof.
  unfold PoolSendAll. cbn zeta. destruct (BuildSubmitSM IsLetter ref msg cfg) as [|p ps] eqn:E; [done|].
  assert (progress respFormat n turns (p :: ps) (p :: ps) [] []) as H0 by (split; [done|done|done|done]).
  pose proof (send_parts_finished respFormat n turns (p :: ps) (p :: ps) next [] [] H0) as H. cbn [length] in H.
  destruct (send_parts _ _ _ _ _ _ _ _) as [[[next' ids] e] calls]. clear H0 E. destruct e as [[| |o]|]; cbn in H; [done| | |].
  - destruct H as (body & rest & [Hp Hi Ho _]). split_and!; [|exact Ho|done|].
    + by rewrite Hp, <- (length_fmap snd calls), take_app_length.
    + rewrite Hp, Hi, length_app, length_fmap. cbn. lia.
  - destruct H as (j & body & rest & prev & -> & [Hp Hi Ho _] & Hs & Hne & _). split_and!.
    + rewrite Hp, fmap_app. rewrite <- (length_fmap snd (prev ++ [(j, body)])), fmap_app. cbn [fmap list_fmap].
      change (body :: rest) with ([body] ++ rest). by rewrite app_assoc, take_app_length.
    + intros i call id Hc Hid. apply (Ho i call id); [|done]. rewrite lookup_app_l in Hc; [done|].
      rewrite <- Hi. by eapply lookup_lt_Some.
    + rewrite length_app, Hi. cbn. lia.
    + done.
    + exists j, body. rewrite last_snoc, Hi. by split.
  - destruct H as [Hp Hi Ho _]. rewrite app_nil_r in Hp. split_and!; [|exact Ho|done| |done].
    + by rewrite Hp, <- (length_fmap snd calls), firstn_all.
    + by rewrite Hp, length_fmap.
Qed.

(** ** Round robin *)

(** The connection of the [i]th pick after [next] picks. *)
Definition nth_turn (n : nat) (next : Z) (i : nat) : nat := Z.to_nat ((next + 1 + Z.of_nat i) mod Z.of_nat n).

Lemma pick_conn_all n load next :
  (0 < n)%nat -> 0 <= next < maxUint64 -> (forall k, (k < n)%nat -> load 0%nat k = true) ->
  pick_conn n load next = (next + 1, Some (nth_turn n next 0)).
Proof.
  intros Hn Hx Hl. unfold pick_conn, nth_turn, maxUint64 in *. rewrite (proj2 (Nat.eqb_neq n 0)) by lia.
  unfold u64. rewrite (Z.mod_small (next + 1)) by lia. destruct n as [|n]; [lia|]. cbn [pick_loop].
  rewrite Nat.add_0_r, Z.add_0_r. pose proof (Z.mod_pos_bound (next + 1) (Z.of_nat (S n))).
  rewrite Nat.mod_small by lia. rewrite Hl by lia. done.
Qed.

Lemma send_parts_turns respFormat n turns parts k next ids calls :
  (0 < n)%nat -> 0 <= next -> next + Z.of_nat (length parts) <= maxUint64 ->
  (forall i j, (j < n)%nat -> t_load (turns i) 0%nat j = true) ->
  (forall i j body, exists id, t_submit (turns i) j body = OID id) ->
  let '(next', _, e, calls') := send_parts respFormat n turns parts k next ids calls in
  e = None /\ next' = next + Z.of_nat (length parts) /\ calls'.*1 = calls.*1 ++ (nth_turn n next <$> seq 0 (length parts)).
Proof.
  intros Hn Hx Hm Hl Hs. revert k next ids calls Hx Hm. induction parts as [|body parts IH]; intros k next ids calls Hx Hm.
  - cbn. rewrite app_nil_r. split_and!; [done|lia|done].
  - cbn [send_parts length] in *. rewrite pick_conn_all; [|lia|unfold maxUint64 in *; lia|by intros; apply Hl]. destruct (Hs k (nth_turn n next 0) body) as [id ->].
    specialize (IH (S k) (next + 1) (ids ++ [NormalizeID id respFormat]) (calls ++ [(nth_turn n next 0, body)])).
    destruct (send_parts _ _ _ _ _ _ _ _) as [[[next' ids'] e] calls']. destruct IH as (He & Hnext & Hc); [lia|lia|].
    split_and!; [done|lia|]. rewrite Hc, fmap_app, <- app_assoc. cbn [seq fmap list_fmap]. cbn [app fst]. do 2 f_equal.
    rewrite <- (fmap_S_seq 0), <- list_fmap_compose. apply list_fmap_ext. intros i x Hi. cbn. unfold nth_turn.
    do 2 f_equal. lia.
Qed.

Lemma nth_turn_inj n next i j :
  (0 < n)%nat -> (i < n)%nat -> (j < n)%nat -> 0 <= next -> nth_turn n next i = nth_turn n next j -> i = j.
Proof.
  unfold nth_turn. intros Hn Hi Hj Hx E.
  pose proof (Z.mod_pos_bound (next + 1 + Z.of_nat i) (Z.of_nat n)).
  pose proof (Z.mod_pos_bound (next + 1 + Z.of_nat j) (Z.of_nat n)).
  assert ((next + 1 + Z.of_nat i) mod Z.of_nat n = (next + 1 + Z.of_nat j) mod Z.of_nat n) as E' by lia.
  pose proof (Z.div_mod (next + 1 + Z.of_nat i) (Z.of_nat n)). pose proof (Z.div_mod (next + 1 + Z.of_nat j) (Z.of_nat n)).
  assert ((next + 1 + Z.of_nat i) / Z.of_nat n = (next + 1 + Z.of_nat j) / Z.of_nat n) by nia. nia.
Qed.

(** Any [n] turns in a row are those of [n] different connections. *)
Lemma turns_nodup n next a len :
  (0 < n)%nat -> 0 <= next -> (len <= n)%nat -> NoDup (nth_turn n next <$> seq a len).
Proof.
  intros Hn Hx Hl. assert ((nth_turn n next <$> seq a len) = (nth_turn n (next + Z.of_nat a) <$> seq 0 len)) as ->.
  { rewrite <- (Nat.add_0_r a) at 1. rewrite <- fmap_add_seq, <- list_fmap_compose. apply list_fmap_ext.
    intros i x Hi. cbn. unfold nth_turn. do 2 f_equal. lia. }
  apply NoDup_fmap_2_strong; [|apply NoDup_seq]. intros i j Hi%elem_of_seq Hj%elem_of_seq.
  apply nth_turn_inj; lia.
Qed.

(** While all connections are bound and answer, the i-th part goes to connection
    (next + 1 + i) mod n, so any n parts in a row use n different
    connections. *)
Theorem round_robin IsLetter cfg respFormat n turns ref msg next :
  let parts := BuildSubmitSM IsLetter ref msg cfg in
  (0 < n)%nat -> 0 <= next -> next + Z.of_nat (length parts) <= maxUint64 -> parts <> [] ->
  (forall i j, (j < n)%nat -> t_load (turns i) 0%nat j = true) ->
  (forall i j body, exists id, t_submit (turns i) j body = OID id) ->
  let '(next', ids, e, calls) := PoolSendAll IsLetter cfg respFormat n turns ref msg next in
  e = None /\ length ids = length parts /\ next' = next + Z.of_nat (length parts) /\
  calls.*1 = nth_turn n next <$> seq 0 (length parts) /\
  forall a len, (len <= n)%nat -> (a + len <= length parts)%nat -> NoDup (take len (drop a calls.*1)).
Proof.
  cbn zeta. intros Hn Hx Hm Hne Hl Hs. unfold PoolSendAll.
  destruct (BuildSubmitSM IsLetter ref msg cfg) as [|p ps]; [done|]. clear Hne.
  pose proof (send_parts_turns respFormat n turns (p :: ps) 0 next [] [] Hn Hx Hm Hl Hs) as H.
  pose proof (send_parts_finished respFormat n turns (p :: ps) (p :: ps) next [] []) as Hf. cbn [length] in Hf.
  destruct (send_parts _ _ _ _ _ _ _ _) as [[[next' ids] e] calls]. destruct H as (-> & -> & Hc). cbn in Hf.
  destruct Hf as [Hp Hi _ _]; [by split|]. rewrite app_nil_r in Hp. cbn [app fmap list_fmap] in Hc.
  split_and!; [done|by rewrite Hp, length_fmap|done|done|]. intros a len Hlen Ha. rewrite Hc.
  rewrite <- fmap_drop, <- fmap_take, drop_seq, take_seq. apply turns_nodup; [done|done|lia].
Qed.

(** ** Examples *)

Definition demo_turns : nat -> turn := fun i => mkTurn (fun _ _ => true)
  (fun j _ => OID (if (i =? 0)%nat then "u1" else "u2")).

Lemma round_robin_witness :
  exists next' ids e calls,
    PoolSendAll (fun _ => false) (ClientEncode.demo_cfg "sar") "" 3 demo_turns 258 (ClientEncode.demo_msg long_text) 1
      = (next', ids, e, calls)
    /\ e = None /\ calls.*1 = [2%nat; 0%nat].
Proof.
  pose proof (round_robin (fun _ => false) (ClientEncode.demo_cfg "sar") "" 3 demo_turns 258 (ClientEncode.demo_msg long_text) 1) as H.
  assert (length (BuildSubmitSM (fun _ => false) 258 (ClientEncode.demo_msg long_text) (ClientEncode.demo_cfg "sar")) = 2%nat) as El
    by (vm_compute; reflexivity).
  cbn zeta in H. rewrite El in H.
  destruct (PoolSendAll _ _ _ _ _ _ _ _) as [[[next' ids] e] calls]. exists next', ids, e, calls. split; [reflexivity|].
  destruct H as (He & _ & _ & Hc & _).
  - lia.
  - lia.
  - unfold maxUint64. lia.
  - intros E. rewrite E in El. discriminate El.
  - intros i j _. reflexivity.
  - intros i j body. eexists. reflexivity.
  - split; [exact He|]. rewrite Hc. reflexivity.
Defined.

(** The second part of the message is rejected. *)
Definition demo_reject : nat -> turn := fun i => mkTurn (fun _ _ => true)
  (fun j _ => if (i =? 0)%nat then OID "u1" else OPermanent (EStatus StatusInvalidDestAddr)).

Definition demo_smpp : Provider :=
  SMPPProvider (fun _ => false) (fun _ => "rejected") (ClientEncode.demo_cfg "sar") "" 3 demo_reject 258 1.
Definition demo_long_payload : OutboxPayload :=
  {| op_GatewayID := "m0000001"; op_TenantID := ""; op_AccountID := ""; op_ClientMsgID := ""; op_Provider := "p1";
     op_Route := "r1"; op_From := "a"; op_To := "b"; op_Text := long_text; op_DataCoding := 0;
     op_RegisteredDelivery := 1; op_Encoding := "gsm7"; op_Meta := None; op_SourceKind := "smpp";
     op_SourceSession := "s1"; op_SourceSystem := "sys"; op_CallbackURL := ""; op_CallbackRule := "";
     op_ReceivedAt := 5; op_UDH := []; op_RawPayload := []; op_RawPayloadSet := false; op_SARRefNum := [];
     op_SARTotalSegments := []; op_SARSegmentSeqnum := []; op_SARSet := false |}.
Definition demo_long_store : MemoryStore :=
  exec (CSubmitAtomic 100 (StoreInv.demo_msg "m0000001") (ob_set_Payload demo_long_payload (demo_item "m0000001")) demo_opts) NewMemory.
Definition demo_long_claim : MemoryStore * list OutboxItem := ClaimOutbox 200 "worker-1" 20 demo_long_store.
Definition demo_long_item : OutboxItem := default (demo_item "") (demo_long_claim.2 !! 0%nat).

(** When the upstream accepts the first part of a message and rejects the
    second, the message is reported rejected and the identifier of the
    accepted part is dropped: no record waits for its receipt. *)
Theorem partial_ids_lost :
  let '(_, ids, _, calls) := PoolSendAll (fun _ => false) (ClientEncode.demo_cfg "sar") "" 3 demo_reject 258
    (smpp_message (outbound demo_long_payload)) 1 in
  let d := (demo_process (demo_quiet demo_smpp) demo_long_item (demo_at demo_long_claim.1)).1 in
  ids = ["u1"] /\ length calls = 2%nat /\
  (ob_State <$> st_outbox (d_store d) !! 1) = Some "failed" /\
  ((fun m => (msg_State m, msg_ErrorCode m)) <$> GetMessage "m0000001" (d_store d)) = Some ("REJECTD", StatusInvalidDestAddr) /\
  (GetPending 400 "p1" "u1" (d_store d)).2 = None.
Proof. vm_compute. split_and!; reflexivity. Qed.
