(* ===== verification/GoParse.v ===== *)
(** * Parsers of the standard library: durations, host and port, addresses

    [time.ParseDuration], [net.SplitHostPort], [strings.Split] at one byte and
    the part of [net/netip] the repository uses, on the bytes of a string. The
    fraction of a duration goes through float64 arithmetic, which is
    [SpecFloat] at 53 bits of precision. *)

From Stdlib Require Import SpecFloat.
From S2P Require Import Prelude Unicode Num GoTime.

(** ** Bytes *)

Definition is_byte (c : Z) (b : Z) : bool := b =? c.

(** [strings.IndexByte(s, c)]. *)
Fixpoint index_byte (c : Z) (s : list Z) : option nat :=
  match s with
  | [] => None
  | b :: s => if b =? c then Some 0%nat else S <$> index_byte c s
  end.

Fixpoint last_index_byte (c : Z) (s : list Z) : option nat :=
  match s with
  | [] => None
  | b :: s =>
    match last_index_byte c s with
    | Some i => Some (S i)
    | None => if b =? c then Some 0%nat else None
    end
  end.

(** [strings.Split(s, sep)] for a separator of one byte. *)
Fixpoint split_byte (c : Z) (s cur : list Z) : list (list Z) :=
  match s with
  | [] => [cur]
  | b :: s => if b =? c then cur :: split_byte c s [] else split_byte c s (cur ++ [b])
  end.

Definition Split1 (s : string) (c : Z) : list string := string_of_bytes <$> split_byte c (bytes_of_string s) [].

(** ** Floating point *)

Definition f64 := spec_float.
Definition f64_of (n : Z) : f64 := binary_normalize 53 1024 n 0 false.
Definition f64_mul : f64 -> f64 -> f64 := SFmul 53 1024.
Definition f64_div : f64 -> f64 -> f64 := SFdiv 53 1024.

(** [uint64(x)] for a non-negative [x] below [2^64]. *)
Definition f64_trunc (x : f64) : Z :=
  match x with
  | S754_finite _ m e => if 0 <=? e then Zpos m * 2 ^ e else Zpos m / 2 ^ (- e)
  | _ => 0
  end.

(** ** Durations *)

Definition two63 : Z := 9223372036854775808.

(** [leadingInt]: the digits at the front; [None] on overflow. *)
Fixpoint leadingInt (s : list Z) (x : Z) : option (Z * list Z) :=
  match s with
  | c :: s' =>
    if negb (is_digit_byte c) then Some (x, s)
    else if two63 / 10 <? x then None
    else
      let x := x * 10 + (c - 48) in
      if two63 <? x then None else leadingInt s' x
  | [] => Some (x, s)
  end.

(** [leadingFraction]. *)
Fixpoint leadingFraction (s : list Z) (x : Z) (scale : f64) (overflow : bool) : Z * f64 * list Z :=
  match s with
  | c :: s' =>
    if negb (is_digit_byte c) then (x, scale, s)
    else if overflow then leadingFraction s' x scale true
    else if (two63 - 1) / 10 <? x then leadingFraction s' x scale true
    else
      let y := x * 10 + (c - 48) in
      if two63 <? y then leadingFraction s' x scale true
      else leadingFraction s' y (f64_mul scale (f64_of 10)) false
  | [] => (x, scale, s)
  end.

Definition unit_of (u : list Z) : option Z :=
  if bool_decide (u = [110; 115]) then Some 1                              (* ns *)
  else if bool_decide (u = [117; 115]) then Some 1000                      (* us *)
  else if bool_decide (u = [194; 181; 115]) then Some 1000                 (* U+00B5 s *)
  else if bool_decide (u = [206; 188; 115]) then Some 1000                 (* U+03BC s *)
  else if bool_decide (u = [109; 115]) then Some 1000000                   (* ms *)
  else if bool_decide (u = [115]) then Some Second
  else if bool_decide (u = [109]) then Some Minute
  else if bool_decide (u = [104]) then Some Hour
  else None.

Fixpoint span_unit (s : list Z) : list Z * list Z :=
  match s with
  | c :: s' =>
    if (c =? 46) || is_digit_byte c then ([], s)
    else let '(u, r) := span_unit s' in (c :: u, r)
  | [] => ([], [])
  end.

(** One round of the loop: a number with its unit, and the rest. *)
Definition duration_term (s : list Z) : option (Z * list Z) :=
  match s with
  | [] => None
  | c :: _ =>
    if negb ((c =? 46) || is_digit_byte c) then None
    else
      '(v, s1) ← leadingInt s 0;
      let pre := negb (length s1 =? length s)%nat in
      let '(f, scale, s2, post) :=
        match s1 with
        | 46 :: s1' =>
          let '(f, scale, s2) := leadingFraction s1' 0 (f64_of 1) false in
          (f, scale, s2, negb (length s2 =? length s1')%nat)
        | _ => (0, f64_of 1, s1, false)
        end in
      if negb pre && negb post then None
      else
        let '(u, s3) := span_unit s2 in
        match u with
        | [] => None
        | _ =>
          unit ← unit_of u;
          if two63 / unit <? v then None
          else
            let v := v * unit in
            let v := if 0 <? f then v + f64_trunc (f64_mul (f64_of f) (f64_div (f64_of unit) scale)) else v in
            if (0 <? f) && (two63 <? v) then None else Some (v, s3)
        end
  end.

(** The loop; every round takes a byte at least. *)
Fixpoint duration_loop (fuel : nat) (s : list Z) (d : Z) : option Z :=
  match s, fuel with
  | [], _ => Some d
  | _, O => None
  | _, S fuel =>
    '(v, s) ← duration_term s;
    let d := d + v in
    if two63 <? d then None else duration_loop fuel s d
  end.

Definition ParseDuration (str : string) : option duration :=
  let s := bytes_of_string str in
  let '(neg, s) := match s with 45 :: s' => (true, s') | 43 :: s' => (false, s') | _ => (false, s) end in
  match s with
  | [48] => Some 0
  | [] => None
  | _ =>
    d ← duration_loop (length s) s 0;
    if neg then Some (- d) else if two63 - 1 <? d then None else Some d
  end.

(** ** Host and port *)

Definition SplitHostPort (hostport : string) : option (string * string) :=
  let s := bytes_of_string hostport in
  i ← last_index_byte 58 s;
  '(host, j, k) ←
    match s with
    | 91 :: _ =>
      fin ← index_byte 93 s;
      if (fin + 1 =? i)%nat then Some (slice s 1 fin, 1%nat, (fin + 1)%nat) else None
    | _ => if bool_decide (index_byte 58 (take i s) = None) then Some (take i s, 0%nat, 0%nat) else None
    end;
  if bool_decide (index_byte 91 (drop j s) = None) && bool_decide (index_byte 93 (drop k s) = None)
  then Some (string_of_bytes host, string_of_bytes (drop (i + 1) s)) else None.

(** ** Addresses

    An IPv4 address as four bytes in one number, an IPv6 address as sixteen, with
    its zone. *)

Inductive Addr := Addr4 (ip : Z) | Addr6 (ip : Z) (zone : string).

#[export] Instance Addr_eq_dec : EqDecision Addr.
Proof. solve_decision. Defined.

(** The loop of [parseIPv4Fields]: [fields] so far, the current field and its
    length; [prev] is the byte before. *)
Fixpoint ipv4_fields (s : list Z) (first : bool) (prevdot : bool) (fields : list Z) (val : Z) (digLen : nat) : option (list Z) :=
  match s with
  | [] => if (length fields <? 3)%nat then None else Some (fields ++ [val])
  | c :: s =>
    if is_digit_byte c then
      if (digLen =? 1)%nat && (val =? 0) then None
      else
        let val := val * 10 + (c - 48) in
        if 255 <? val then None else ipv4_fields s false false fields val (S digLen)
    else if c =? 46 then
      if first || bool_decide (s = []) || prevdot then None
      else if (length fields =? 3)%nat then None
      else ipv4_fields s false true (fields ++ [val]) 0 0
    else None
  end.

Definition of_bytes (l : list Z) : Z := foldl (fun n b => n * 256 + b) 0 l.

Definition parseIPv4 (s : list Z) : option Addr := Addr4 ∘ of_bytes <$> ipv4_fields s true false [] 0 0.

Definition hex_value (c : Z) : option Z :=
  if is_digit_byte c then Some (c - 48)
  else if (97 <=? c) && (c <=? 102) then Some (c - 97 + 10)
  else if (65 <=? c) && (c <=? 70) then Some (c - 65 + 10)
  else None.

(** The hexadecimal digits of a field: their value, their number, the rest. *)
Fixpoint ipv6_field (s : list Z) (off : nat) (acc : Z) : option (nat * Z * list Z) :=
  match s with
  | [] => Some (off, acc, [])
  | c :: s' =>
    match hex_value c with
    | None => Some (off, acc, s)
    | Some d =>
      if (3 <? off)%nat then None
      else
        let acc := acc * 16 + d in
        if 65535 <? acc then None else ipv6_field s' (S off) acc
    end
  end.

(** The loop of [parseIPv6] over [s], with the bytes written so far and the
    place of the ellipsis; 8 rounds fill the address. *)
Fixpoint ipv6_loop (rounds : nat) (s : list Z) (ip : list Z) (ellipsis : option nat) : option (list Z * list Z * option nat) :=
  match rounds with
  | O => Some (s, ip, ellipsis)
  | S rounds =>
    if (16 <=? length ip)%nat then Some (s, ip, ellipsis)
    else
      '(off, acc, rest) ← ipv6_field s 0 0;
      if (off =? 0)%nat then None
      else
        match rest with
        | 46 :: _ =>
          if bool_decide (ellipsis = None) && negb (length ip =? 12)%nat then None
          else if (16 <? length ip + 4)%nat then None
          else
            fields ← ipv4_fields s true false [] 0 0;
            Some ([], ip ++ fields, ellipsis)
        | _ =>
          let ip := ip ++ [acc / 256; acc mod 256] in
          match rest with
          | [] => Some ([], ip, ellipsis)
          | 58 :: [] => None
          | 58 :: 58 :: rest =>
            if bool_decide (ellipsis = None) then
              match rest with
              | [] => Some ([], ip, Some (length ip))
              | _ => ipv6_loop rounds rest ip (Some (length ip))
              end
            else None
          | 58 :: rest => ipv6_loop rounds rest ip ellipsis
          | _ => None
          end
        end
  end.

Definition parseIPv6 (s : list Z) : option Addr :=
  '(s, zone) ←
    match index_byte 37 s with
    | Some i => if (i + 1 =? length s)%nat then None else Some (take i s, string_of_bytes (drop (i + 1) s))
    | None => Some (s, "")
    end;
  match s with
  | [58; 58] => Some (Addr6 0 zone)
  | _ =>
    let '(s, ellipsis) := match s with 58 :: 58 :: s' => (s', Some 0%nat) | _ => (s, None) end in
    '(s, ip, ellipsis) ← ipv6_loop 8 s [] ellipsis;
    match s with
    | _ :: _ => None
    | [] =>
      if (length ip <? 16)%nat then
        e ← ellipsis;
        Some (Addr6 (of_bytes (take e ip ++ replicate (16 - length ip) 0 ++ drop e ip)) zone)
      else if bool_decide (ellipsis = None) then Some (Addr6 (of_bytes ip) zone) else None
    end
  end.

(** The first of [.], [:] and [%] decides. *)
Fixpoint addr_kind (s : list Z) : option Z :=
  match s with
  | [] => None
  | c :: s => if (c =? 46) || (c =? 58) || (c =? 37) then Some c else addr_kind s
  end.

Definition parse_addr (s : list Z) : option Addr :=
  match addr_kind s with
  | Some 46 => parseIPv4 s
  | Some 58 => parseIPv6 s
  | _ => None
  end.

Definition ParseAddr (s : string) : option Addr := parse_addr (bytes_of_string s).

(** ** Prefixes *)

Record Prefix := mkPrefix {
  pf_addr : Addr;
  pf_bits : Z }.

#[export] Instance Prefix_eq_dec : EqDecision Prefix.
Proof. solve_decision. Defined.

Definition Is4 (a : Addr) : bool := match a with Addr4 _ => true | Addr6 _ _ => false end.
Definition has_zone (a : Addr) : bool := match a with Addr6 _ z => negb (bool_decide (z = "")) | Addr4 _ => false end.

(** [netip.PrefixFrom]: the zone is dropped. *)
Definition PrefixFrom (a : Addr) (bits : Z) : Prefix :=
  mkPrefix (match a with Addr6 ip _ => Addr6 ip "" | _ => a end) bits.

Definition ParsePrefix (str : string) : option Prefix :=
  let s := bytes_of_string str in
  i ← last_index_byte 47 s;
  ip ← parse_addr (take i s);
  if has_zone ip then None
  else
    let bitsStr := drop (i + 1) s in
    if (1 <? length bitsStr)%nat && negb ((49 <=? at0 bitsStr 0) && (at0 bitsStr 0 <=? 57)) then None
    else
      match Atoi (string_of_bytes bitsStr) with
      | Err _ => None
      | Ok bits =>
        let maxBits := if Is4 ip then 32 else 128 in
        if (bits <? 0) || (maxBits <? bits) then None else Some (PrefixFrom ip bits)
      end.

(** [Prefix.Contains] for a prefix whose length fits its address. *)
Definition prefix_contains (p : Prefix) (ip : Addr) : bool :=
  match pf_addr p, ip with
  | Addr4 a, Addr4 b => Z.shiftr (Z.lxor a b) (32 - pf_bits p) =? 0
  | Addr6 a _, Addr6 b z => bool_decide (z = "") && (Z.shiftr (Z.lxor a b) (128 - pf_bits p) =? 0)
  | _, _ => false
  end.

(** ** Examples *)

Example durations :
  ParseDuration "1h30m" = Some (90 * Minute) /\ ParseDuration "1.5s" = Some 1500000000 /\ ParseDuration "-2ms" = Some (-2000000)
  /\ ParseDuration "30" = None /\ ParseDuration "" = None /\ ParseDuration "0" = Some 0 /\ ParseDuration ".s" = None.
Proof. vm_compute. repeat split. Qed.

Example addresses :
  ParseAddr "10.0.0.1" = Some (Addr4 167772161) /\ ParseAddr "10.0.0.01" = None /\ ParseAddr "::1" = Some (Addr6 1 "")
  /\ ParseAddr "fe80::1%eth0" = Some (Addr6 338288524927261089654018896841347694593 "eth0")
  /\ ParseAddr "::ffff:1.2.3.4" = Some (Addr6 281470698652420 "") /\ ParseAddr "1:2:3:4:5:6:7::" = Some (Addr6 5192455318486707404433266433261568 "")
  /\ ParseAddr "1:2:3:4:5:6:7:8::" = None /\ ParseAddr "1.2.3" = None
  /\ ParsePrefix "10.0.0.0/8" = Some (mkPrefix (Addr4 167772160) 8) /\ ParsePrefix "10.0.0.0/08" = None
  /\ SplitHostPort "[::1]:80" = Some ("::1", "80") /\ SplitHostPort "a:b:c" = None /\ SplitHostPort "host:2775" = Some ("host", "2775").
Proof. vm_compute. repeat split. Qed.
