(* ===== verification/NetIP.v ===== *)
(** * Client addresses: internal/netutil/ip.go

    Which address a request comes from when it passed through proxies, and
    whether a list of addresses and prefixes admits it. *)

From S2P Require Import Prelude Unicode Num GoParse.

(** What the code reads of a request: the peer and two headers, empty when absent. *)
Record ip_request := mkIPRequest {
  ir_RemoteAddr : string;
  ir_ForwardedFor : string;
  ir_RealIP : string }.

(** [strings.TrimSpace]. *)
Definition TrimSpace (s : string) : string := string_of_runes (trim_runes (runes s)).

Definition AddrPrefix (addr : Addr) : Prefix := PrefixFrom addr (if Is4 addr then 32 else 128).

Definition ParseTrustedProxyPrefixes (values : list string) : list Prefix :=
  values ≫= fun value =>
    match ParsePrefix value with
    | Some prefix => [prefix]
    | None => match ParseAddr value with Some addr => [AddrPrefix addr] | None => [] end
    end.

Definition AddrInPrefixes (addr : Addr) (prefixes : list Prefix) : bool :=
  existsb (fun prefix => prefix_contains prefix addr) prefixes.

(** The loop over the parts of X-Forwarded-For, last part first. *)
Fixpoint forwarded_loop (prefixes : list Prefix) (parts_rev : list string) : option string :=
  match parts_rev with
  | [] => None
  | part :: rest =>
    let candidate := TrimSpace part in
    match ParseAddr candidate with
    | None => forwarded_loop prefixes rest
    | Some addr => if negb (AddrInPrefixes addr prefixes) then Some candidate else forwarded_loop prefixes rest
    end
  end.

Definition remote_host (r : ip_request) : string :=
  match SplitHostPort (ir_RemoteAddr r) with Some (host, _) => host | None => ir_RemoteAddr r end.

Definition ClientIP (r : ip_request) (trustedProxies : list string) : string :=
  let host := remote_host r in
  match ParseAddr host with
  | None => host
  | Some direct =>
    let prefixes := ParseTrustedProxyPrefixes trustedProxies in
    if bool_decide (prefixes = []) || negb (AddrInPrefixes direct prefixes) then host
    else
      let xff := ir_ForwardedFor r in
      if negb (bool_decide (xff = "")) then
        let parts := Split1 xff 44 in
        match forwarded_loop prefixes (reverse parts) with
        | Some candidate => candidate
        | None => TrimSpace (default "" (head parts))
        end
      else
        let realIP := TrimSpace (ir_RealIP r) in
        if negb (bool_decide (realIP = "")) then realIP else host
  end.

(** The loop of [RequestIPAllowed]. *)
Definition allowed_item (ip : Addr) (item : string) : bool :=
  match ParsePrefix item with
  | Some prefix => prefix_contains prefix ip
  | None => match ParseAddr item with Some allowedIP => bool_decide (allowedIP = ip) | None => false end
  end.

Definition RequestIPAllowed (r : ip_request) (allowed trustedProxies : list string) : bool :=
  match ParseAddr (ClientIP r trustedProxies) with
  | None => false
  | Some ip => existsb (allowed_item ip) allowed
  end.

(** ** Prefixes *)

(** A prefix holds the addresses of its family that agree in the first bits. *)
Lemma shiftr_lxor_zero a b k :
  0 <= k -> (Z.shiftr (Z.lxor a b) k =? 0) = true <-> Z.shiftr a k = Z.shiftr b k.
Proof.
  intros Hk. rewrite Z.eqb_eq, Z.shiftr_lxor. apply Z.lxor_eq_0_iff.
Qed.

Lemma AddrPrefix_contains a b : has_zone a = false -> prefix_contains (AddrPrefix a) b = true <-> a = b.
Proof.
  unfold AddrPrefix, PrefixFrom, prefix_contains. destruct a as [x|x z], b as [y|y w]; cbn [pf_addr pf_bits Is4 has_zone]; intros Hz.
  - rewrite shiftr_lxor_zero by lia. rewrite !Z.shiftr_0_r. split; [by intros ->|by intros [= ->]].
  - done.
  - done.
  - apply negb_false_iff, bool_decide_eq_true in Hz as ->. rewrite andb_true_iff, bool_decide_eq_true.
    rewrite shiftr_lxor_zero by lia. rewrite !Z.shiftr_0_r. split; [by intros [-> ->]|by intros [= -> ->]].
Qed.

Lemma AddrInPrefixes_spec a ps : AddrInPrefixes a ps = true <-> exists p, p ∈ ps /\ prefix_contains p a = true.
Proof.
  unfold AddrInPrefixes. rewrite existsb_exists. by setoid_rewrite <- list_elem_of_In.
Qed.

(** ** The address of a request *)

(** Parts that can only come from the proxies themselves. *)
Definition vouched (prefixes : list Prefix) (part : string) : Prop :=
  match ParseAddr (TrimSpace part) with None => True | Some a => AddrInPrefixes a prefixes = true end.

Lemma forwarded_loop_spec prefixes parts :
  match forwarded_loop prefixes parts with
  | Some c => exists later part earlier a, parts = later ++ part :: earlier /\ Forall (vouched prefixes) later
      /\ c = TrimSpace part /\ ParseAddr c = Some a /\ AddrInPrefixes a prefixes = false
  | None => Forall (vouched prefixes) parts
  end.
Proof.
  induction parts as [|part parts IH]; cbn [forwarded_loop]; [constructor|].
  assert (vouched prefixes part -> match forwarded_loop prefixes parts with
    | Some c => exists later p earlier a, part :: parts = later ++ p :: earlier /\ Forall (vouched prefixes) later
        /\ c = TrimSpace p /\ ParseAddr c = Some a /\ AddrInPrefixes a prefixes = false
    | None => Forall (vouched prefixes) (part :: parts) end) as Hskip.
  { intros Hv. destruct (forwarded_loop prefixes parts) as [c|]; [|by constructor].
    destruct IH as (later & p & earlier & a & -> & Hl & H). exists (part :: later), p, earlier, a. split; [done|].
    split; [by constructor|done]. }
  unfold vouched in Hskip at 1. destruct (ParseAddr (TrimSpace part)) as [a|] eqn:E; [|by apply Hskip].
  destruct (AddrInPrefixes a prefixes) eqn:Ep; cbn [negb]; [by apply Hskip|].
  exists [], part, parts, a. by split_and!; try constructor.
Qed.

(** The address of a client is the one of the connection unless that belongs to
    a trusted proxy; behind one it is the last forwarded address that is not
    itself a trusted proxy, and the first entry only when all later ones
    are. *)
Theorem client_ip_trust r trustedProxies :
  let prefixes := ParseTrustedProxyPrefixes trustedProxies in
  let trusted := exists a, ParseAddr (remote_host r) = Some a /\ AddrInPrefixes a prefixes = true in
  (~ trusted -> ClientIP r trustedProxies = remote_host r) /\
  (trusted -> ir_ForwardedFor r <> "" ->
    let parts := Split1 (ir_ForwardedFor r) 44 in
    (exists earlier part later a, parts = earlier ++ part :: later /\ Forall (vouched prefixes) later
       /\ ClientIP r trustedProxies = TrimSpace part /\ ParseAddr (TrimSpace part) = Some a /\ AddrInPrefixes a prefixes = false)
    \/ Forall (vouched prefixes) parts /\ ClientIP r trustedProxies = TrimSpace (default "" (head parts))).
Proof.
  cbn zeta. unfold ClientIP. destruct (ParseAddr (remote_host r)) as [a|] eqn:Ea.
  2:{ split; [done|]. by intros (b & ? & _). }
  destruct (AddrInPrefixes a (ParseTrustedProxyPrefixes trustedProxies)) eqn:Ein; cbn [negb].
  2:{ rewrite orb_true_r. split; [done|]. intros (b & [= <-] & Hb). congruence. }
  split; [intros Hn; destruct Hn; by exists a|]. intros _ Hx.
  rewrite (bool_decide_eq_false_2 (_ = [])), (bool_decide_eq_false_2 (_ = "")); cbn [orb negb].
  2:{ done. }
  2:{ intros E. by rewrite E in Ein. }
  pose proof (forwarded_loop_spec (ParseTrustedProxyPrefixes trustedProxies) (reverse (Split1 (ir_ForwardedFor r) 44))) as H.
  destruct (forwarded_loop _ _) as [c|].
  - left. destruct H as (later & part & earlier & b & Hs & Hf & -> & Hp & Hb). exists (reverse earlier), part, (reverse later), b.
    split_and!; try done; [|by apply Forall_reverse].
    apply (f_equal reverse) in Hs. rewrite reverse_involutive, reverse_app, reverse_cons, <- app_assoc in Hs. done.
  - right. split; [|done]. by apply Forall_reverse in H; rewrite reverse_involutive in H.
Qed.

(** What an entry of an allow list stands for. *)
Definition admits (item : string) (ip : Addr) : Prop :=
  match ParsePrefix item with
  | Some p =>
    match pf_addr p, ip with
    | Addr4 a, Addr4 b => Z.shiftr a (32 - pf_bits p) = Z.shiftr b (32 - pf_bits p)
    | Addr6 a _, Addr6 b z => z = "" /\ Z.shiftr a (128 - pf_bits p) = Z.shiftr b (128 - pf_bits p)
    | _, _ => False
    end
  | None => ParseAddr item = Some ip
  end.

Lemma ParsePrefix_bits s p : ParsePrefix s = Some p -> 0 <= pf_bits p <= if Is4 (pf_addr p) then 32 else 128.
Proof.
  unfold ParsePrefix. destruct (last_index_byte 47 _) as [i|]; [cbn|done]. destruct (parse_addr _) as [a|]; [cbn|done].
  destruct (has_zone a); [done|]. destruct (_ && _); [done|]. destruct (Atoi _) as [bits|]; [|done].
  destruct ((bits <? 0) || ((if Is4 a then 32 else 128) <? bits)) eqn:E; [done|]. intros [= <-].
  apply orb_false_iff in E as [E1 E2]. unfold PrefixFrom. destruct a; cbn in *; lia.
Qed.

Lemma allowed_item_spec ip item : allowed_item ip item = true <-> admits item ip.
Proof.
  unfold allowed_item, admits. destruct (ParsePrefix item) as [p|] eqn:E.
  - apply ParsePrefix_bits in E. unfold prefix_contains. destruct (pf_addr p) as [x|x z], ip as [y|y w]; cbn [Is4] in E; try done.
    + apply shiftr_lxor_zero. lia.
    + rewrite andb_true_iff, bool_decide_eq_true. rewrite shiftr_lxor_zero by lia. done.
  - destruct (ParseAddr item); rewrite ?bool_decide_eq_true; split; congruence.
Qed.

(** An address list admits a request exactly when one of its items is the
    address of the client or a network that holds it. *)
Theorem ip_allowed_iff r allowed trustedProxies :
  RequestIPAllowed r allowed trustedProxies = true <->
  exists ip item, ParseAddr (ClientIP r trustedProxies) = Some ip /\ item ∈ allowed /\ admits item ip.
Proof.
  unfold RequestIPAllowed. destruct (ParseAddr (ClientIP r trustedProxies)) as [ip|].
  - rewrite existsb_exists. split.
    + intros (item & Hi & Ha). exists ip, item. split_and!; [done|by apply list_elem_of_In|by apply allowed_item_spec].
    + intros (ip' & item & [= <-] & Hi & Ha). exists item. split; [by apply list_elem_of_In|by apply allowed_item_spec].
  - split; [done|]. by intros (? & ? & ? & _).
Qed.

(** ** Examples *)

Definition demo_request : ip_request :=
  mkIPRequest "10.0.0.7:5000" "203.0.113.9, 198.51.100.4, garbage, 10.1.2.3" "1.1.1.1".

Lemma client_ip_trust_witness :
  ClientIP demo_request ["10.0.0.0/8"] = "198.51.100.4" /\ ClientIP demo_request [] = "10.0.0.7"
  /\ RequestIPAllowed demo_request ["198.51.100.0/24"] ["10.0.0.0/8"] = true.
Proof.
  split; [vm_compute; reflexivity|]. split; [|vm_compute; reflexivity].
  destruct (client_ip_trust demo_request []) as [H _]. apply H. intros (a & _ & Ha). discriminate.
Defined.
