(* ===== verification/Config.v ===== *)
(** * Configuration: internal/config/config.go

    The records of the configuration file, its defaults and its validation. An
    error is kept as the format and the arguments of [fmt.Errorf]. The time
    zone database, the regular expression compiler and the order of a range
    over a map are parameters. *)

From S2P Require Import Prelude Unicode Num GoTime GoParse Addr Router FilterAC Filter.

(** ** Records *)

Record ServerConfig := mkServerConfig {
  se_HTTPAddr : string;
  se_ShutdownTimeout : string }.

Record SMPPConfig := mkSMPPServer {
  sp_Addr : string;
  sp_SystemID : string;
  sp_Password : string;
  sp_SystemType : string;
  sp_MaxSessions : Z;
  sp_MaxSessionsPerSystemID : Z;
  sp_WindowSize : Z;
  sp_EnquirePeriod : string }.

Record DispatcherConfig := mkDispatcherConfig {
  di_Workers : Z;
  di_PerWorkerConcurrency : Z;
  di_ClaimLimit : Z;
  di_PollIntervalMS : Z;
  di_PendingTTL : string;
  di_MaxAttempts : Z;
  di_ClaimTimeout : string;
  di_PendingSweepInterval : string;
  di_ValidateDestAddr : option bool }.

Record ESMECred := mkESME {
  em_SystemID : string;
  em_Password : string;
  em_TenantID : string;
  em_Enabled : option bool }.

Record ClientAuth := mkClientAuth {
  ca_ClientID : string;
  ca_Token : string;
  ca_Enabled : bool;
  ca_TenantID : string;
  ca_AllowedIPs : list string }.

Record TenantLimits := mkTenantLimits {
  tl_TPS : Z;
  tl_Burst : Z;
  tl_DailySegments : Z;
  tl_Timezone : string }.

Record TenantConfig := mkTenantConfig {
  tn_TenantID : string;
  tn_Enabled : option bool;
  tn_Limits : TenantLimits }.

Record RiskConfig := mkRiskConfig {
  rk_BlockedToPrefix : list string;
  rk_BlockedKeywords : list string;
  rk_PerNumberPerMinute : Z;
  rk_PerNumberPerDay : Z;
  rk_PerClientPerSecond : Z }.

Record CDRConfig := mkCDRConfig {
  cd_Enabled : bool;
  cd_Dir : string;
  cd_Mode : string;
  cd_MaxRecords : Z;
  cd_MaxAge : string;
  cd_Buffer : Z;
  cd_OnFull : string;
  cd_FsyncEvery : Z;
  cd_FsyncInterval : string;
  cd_Instance : string;
  cd_MaskTo : bool;
  cd_StoreText : bool }.

Record ProviderRateLimit := mkRateLimit {
  pr_TPS : Z;
  pr_Burst : Z;
  pr_TimeoutMS : Z }.

Record SMPPClientConfig := mkSMPPClient {
  sc_BindMode : string;
  sc_SystemType : string;
  sc_Binds : Z;
  sc_WindowSize : Z;
  sc_EnquirePeriod : string;
  sc_ResponseTimeoutMS : Z;
  sc_ReconnectMin : string;
  sc_ReconnectMax : string;
  sc_SourceTON : Z;
  sc_SourceNPI : Z;
  sc_DestTON : Z;
  sc_DestNPI : Z;
  sc_ServiceType : string;
  sc_ValidityPeriod : string;
  sc_RegisteredDelivery : Z;
  sc_GSM7Packing : string;
  sc_LongMessage : string;
  sc_MessageIDRespFormat : string;
  sc_MessageIDDLRFormat : string;
  sc_DLRIDSource : string;
  sc_RetryOnTimeout : bool;
  sc_TLS : bool }.

Record ProviderConfig := mkProviderConfig {
  pv_Name : string;
  pv_Protocol : string;
  pv_Endpoint : string;
  pv_Rule : string;
  pv_SystemID : string;
  pv_Password : string;
  pv_Enabled : bool;
  pv_HTTPTimeoutMS : Z;
  pv_RateLimit : ProviderRateLimit;
  pv_SMPP : option SMPPClientConfig }.

Record ResponseParseConfig := mkResponseParse {
  rp_IDPath : string;
  rp_IDRegex : string }.

(** A nil map of fields or headers reads as the empty one. *)
Record HTTPRuleConfig := mkHTTPRule {
  hr_Name : string;
  hr_Method : string;
  hr_Path : string;
  hr_Provider : string;
  hr_ContentType : string;
  hr_AuthHeader : string;
  hr_AuthToken : string;
  hr_Fields : gmap string string;
  hr_Headers : gmap string string;
  hr_SuccessStatus : Z;
  hr_SuccessBody : string;
  hr_Response : ResponseParseConfig }.

Record StorageConfig := mkStorage {
  sg_Driver : string;
  sg_DSN : string }.

Record AdminConfig := mkAdmin {
  ad_Username : string;
  ad_Password : string }.

Record Config := mkConfig {
  c_Server : ServerConfig;
  c_SMPP : SMPPConfig;
  c_Dispatcher : DispatcherConfig;
  c_Tenants : list TenantConfig;
  c_ESMEs : list ESMECred;
  c_Routes : list RouteConfig;
  c_Providers : list ProviderConfig;
  c_Inbound : list HTTPRuleConfig;
  c_Outbound : list HTTPRuleConfig;
  c_Clients : list ClientAuth;
  c_TrustedProxies : list string;
  c_Risk : RiskConfig;
  c_Filter : FilterConfig;
  c_CDR : CDRConfig;
  c_Storage : StorageConfig;
  c_Admin : AdminConfig }.

(** A field of a rule's map: the empty string when absent. *)
Definition field (m : gmap string string) (k : string) : string := default "" (m !! k).

(** ** Defaults *)

Definition PlaceholderSecret : string := "CHANGE_ME_BEFORE_DEPLOY".
Definition AutoGenerateSecret : string := "AUTO_GENERATE_ON_FIRST_RUN".
Definition DefaultHTTPAddr : string := "127.0.0.1:19087".
Definition DefaultSMPPAddr : string := "127.0.0.1:29175".
Definition SMPPMaxSystemID : nat := 15.
Definition SMPPMaxPassword : nat := 8.
Definition SMPPMaxSystemType : nat := 12.

Definition or_str (s d : string) : string := if bool_decide (s = "") then d else s.
Definition or_Z (n d : Z) : Z := if n =? 0 then d else n.

Definition DefaultSMPPClientConfig : SMPPClientConfig :=
  {| sc_BindMode := "transceiver"; sc_SystemType := ""; sc_Binds := 1; sc_WindowSize := 16; sc_EnquirePeriod := "30s";
     sc_ResponseTimeoutMS := 5000; sc_ReconnectMin := "1s"; sc_ReconnectMax := "60s"; sc_SourceTON := -1;
     sc_SourceNPI := -1; sc_DestTON := 1; sc_DestNPI := 1; sc_ServiceType := ""; sc_ValidityPeriod := "";
     sc_RegisteredDelivery := -1; sc_GSM7Packing := "unpacked"; sc_LongMessage := "udh";
     sc_MessageIDRespFormat := "auto"; sc_MessageIDDLRFormat := "auto"; sc_DLRIDSource := "auto";
     sc_RetryOnTimeout := false; sc_TLS := false |}.

Definition Default : Config :=
  {| c_Server := mkServerConfig DefaultHTTPAddr "10s";
     c_SMPP := mkSMPPServer DefaultSMPPAddr "mysmpp" "" "gateway" 128 4 16 "30s";
     c_Dispatcher := mkDispatcherConfig 10 10 20 20 "30m" 5 "60s" "1m" (Some true);
     c_Tenants := []; c_ESMEs := []; c_Routes := []; c_Providers := []; c_Inbound := []; c_Outbound := [];
     c_Clients := []; c_TrustedProxies := []; c_Risk := mkRiskConfig [] [] 0 0 0;
     c_Filter := mkFilterConfig false (mkNormalize false false false) [];
     c_CDR := mkCDRConfig false "" "" 0 "" 0 "" 0 "" "" false false;
     c_Storage := mkStorage "memory" ""; c_Admin := mkAdmin "" "" |}.

Definition NormalizeSMPPClient (c : SMPPClientConfig) : SMPPClientConfig :=
  {| sc_BindMode := or_str (sc_BindMode c) "transceiver"; sc_SystemType := sc_SystemType c; sc_Binds := or_Z (sc_Binds c) 1;
     sc_WindowSize := or_Z (sc_WindowSize c) 16; sc_EnquirePeriod := or_str (sc_EnquirePeriod c) "30s";
     sc_ResponseTimeoutMS := or_Z (sc_ResponseTimeoutMS c) 5000; sc_ReconnectMin := or_str (sc_ReconnectMin c) "1s";
     sc_ReconnectMax := or_str (sc_ReconnectMax c) "60s"; sc_SourceTON := sc_SourceTON c; sc_SourceNPI := sc_SourceNPI c;
     sc_DestTON := sc_DestTON c; sc_DestNPI := sc_DestNPI c; sc_ServiceType := sc_ServiceType c;
     sc_ValidityPeriod := sc_ValidityPeriod c; sc_RegisteredDelivery := sc_RegisteredDelivery c;
     sc_GSM7Packing := or_str (sc_GSM7Packing c) "unpacked"; sc_LongMessage := or_str (sc_LongMessage c) "udh";
     sc_MessageIDRespFormat := or_str (sc_MessageIDRespFormat c) "auto";
     sc_MessageIDDLRFormat := or_str (sc_MessageIDDLRFormat c) "auto"; sc_DLRIDSource := or_str (sc_DLRIDSource c) "auto";
     sc_RetryOnTimeout := sc_RetryOnTimeout c; sc_TLS := sc_TLS c |}.

Definition normalize_cdr (c : CDRConfig) : CDRConfig :=
  if cd_Enabled c then
    {| cd_Enabled := true; cd_Dir := or_str (cd_Dir c) "data/cdr"; cd_Mode := or_str (cd_Mode c) "events";
       cd_MaxRecords := or_Z (cd_MaxRecords c) 10000; cd_MaxAge := or_str (cd_MaxAge c) "1h";
       cd_Buffer := or_Z (cd_Buffer c) 65536; cd_OnFull := or_str (cd_OnFull c) "block"; cd_FsyncEvery := cd_FsyncEvery c;
       cd_FsyncInterval := or_str (cd_FsyncInterval c) "2s"; cd_Instance := cd_Instance c; cd_MaskTo := cd_MaskTo c;
       cd_StoreText := cd_StoreText c |}
  else c.

Definition normalize_inbound (r : HTTPRuleConfig) : HTTPRuleConfig :=
  {| hr_Name := hr_Name r; hr_Method := or_str (hr_Method r) "POST"; hr_Path := hr_Path r; hr_Provider := hr_Provider r;
     hr_ContentType := hr_ContentType r; hr_AuthHeader := hr_AuthHeader r; hr_AuthToken := hr_AuthToken r;
     hr_Fields := hr_Fields r; hr_Headers := hr_Headers r; hr_SuccessStatus := or_Z (hr_SuccessStatus r) 200;
     hr_SuccessBody := hr_SuccessBody r; hr_Response := hr_Response r |}.

Definition normalize_outbound (r : HTTPRuleConfig) : HTTPRuleConfig :=
  {| hr_Name := hr_Name r; hr_Method := or_str (hr_Method r) "POST"; hr_Path := hr_Path r; hr_Provider := hr_Provider r;
     hr_ContentType := or_str (hr_ContentType r) "application/x-www-form-urlencoded"; hr_AuthHeader := hr_AuthHeader r;
     hr_AuthToken := hr_AuthToken r; hr_Fields := hr_Fields r; hr_Headers := hr_Headers r;
     hr_SuccessStatus := hr_SuccessStatus r; hr_SuccessBody := hr_SuccessBody r; hr_Response := hr_Response r |}.

Definition normalize_provider (p : ProviderConfig) : ProviderConfig :=
  {| pv_Name := pv_Name p; pv_Protocol := pv_Protocol p; pv_Endpoint := pv_Endpoint p; pv_Rule := pv_Rule p;
     pv_SystemID := pv_SystemID p; pv_Password := pv_Password p; pv_Enabled := pv_Enabled p;
     pv_HTTPTimeoutMS := pv_HTTPTimeoutMS p; pv_RateLimit := pv_RateLimit p; pv_SMPP := NormalizeSMPPClient <$> pv_SMPP p |}.

Definition normalize_weight (wp : WeightedProvider) : WeightedProvider :=
  mkWeightedProvider (wp_Provider wp) (if wp_Weight wp <=? 0 then 1 else wp_Weight wp).

Definition normalize_route (r : RouteConfig) : RouteConfig :=
  {| rt_Name := rt_Name r; rt_Prefix := rt_Prefix r; rt_Provider := rt_Provider r; rt_Priority := rt_Priority r;
     rt_AddrRewrite := rt_AddrRewrite r; rt_DestAddr := rt_DestAddr r; rt_Enabled := Some (default true (rt_Enabled r));
     rt_FromPrefix := rt_FromPrefix r; rt_SystemIDs := rt_SystemIDs r; rt_ClientIDs := rt_ClientIDs r;
     rt_ContentTags := rt_ContentTags r; rt_TimeWindows := rt_TimeWindows r;
     rt_Weighted := normalize_weight <$> rt_Weighted r; rt_Failover := rt_Failover r |}.

Definition Normalize (c : Config) : Config :=
  {| c_Server := mkServerConfig (or_str (se_HTTPAddr (c_Server c)) DefaultHTTPAddr)
       (or_str (se_ShutdownTimeout (c_Server c)) "10s");
     c_SMPP := let s := c_SMPP c in
       mkSMPPServer (or_str (sp_Addr s) DefaultSMPPAddr) (sp_SystemID s) (sp_Password s) (sp_SystemType s) (sp_MaxSessions s)
         (or_Z (sp_MaxSessionsPerSystemID s) 4) (or_Z (sp_WindowSize s) 16) (or_str (sp_EnquirePeriod s) "30s");
     c_Dispatcher := let d := c_Dispatcher c in
       mkDispatcherConfig (or_Z (di_Workers d) 10) (or_Z (di_PerWorkerConcurrency d) 10) (or_Z (di_ClaimLimit d) 20)
         (or_Z (di_PollIntervalMS d) 20) (or_str (di_PendingTTL d) "30m") (or_Z (di_MaxAttempts d) 5)
         (or_str (di_ClaimTimeout d) "60s") (or_str (di_PendingSweepInterval d) "1m")
         (Some (default true (di_ValidateDestAddr d)));
     c_Tenants := c_Tenants c; c_ESMEs := c_ESMEs c; c_Routes := normalize_route <$> c_Routes c;
     c_Providers := normalize_provider <$> c_Providers c; c_Inbound := normalize_inbound <$> c_Inbound c;
     c_Outbound := normalize_outbound <$> c_Outbound c; c_Clients := c_Clients c; c_TrustedProxies := c_TrustedProxies c;
     c_Risk := let r := c_Risk c in
       mkRiskConfig (rk_BlockedToPrefix r) (rk_BlockedKeywords r) (or_Z (rk_PerNumberPerMinute r) 5)
         (or_Z (rk_PerNumberPerDay r) 20) (or_Z (rk_PerClientPerSecond r) 100);
     c_Filter := c_Filter c; c_CDR := normalize_cdr (c_CDR c);
     c_Storage := mkStorage (or_str (sg_Driver (c_Storage c)) "memory") (sg_DSN (c_Storage c)); c_Admin := c_Admin c |}.
