(* ===== verification/ConfigValid.v ===== *)
(** * Validation of the configuration: [validate] of internal/config/config.go

    The checks in the order of the code; [Ok] is a nil error. *)

From S2P Require Import Prelude Unicode Num GoTime GoParse Addr Router FilterAC Filter Config.

Record cfg_err := Errorf {
  ef_format : string;
  ef_args : list string }.

#[export] Instance cfg_err_eq_dec : EqDecision cfg_err.
Proof. solve_decision. Defined.

Abbreviation check := (res cfg_err unit).

(** The first failure of a loop of checks. *)
Fixpoint for_each {A} (f : A -> check) (l : list A) : check :=
  match l with
  | [] => Ok tt
  | x :: l => _ ← f x; for_each f l
  end.

(** ** Small predicates *)

Definition isPlaceholder (value : string) : bool := bool_decide (value = PlaceholderSecret).
Definition IsAutoGenerate (value : string) : bool := bool_decide (value = AutoGenerateSecret).

Definition validTONNPI (value : Z) (allowAuto : bool) : bool :=
  if allowAuto && (value =? -1) then true else (0 <=? value) && (value <=? 6).

Definition validIDFormat (value : string) : bool :=
  bool_decide (value = "auto") || bool_decide (value = "dec") || bool_decide (value = "hex").

(** The expressions [^[0-9+*#]*$] and [^[A-Za-z0-9][A-Za-z0-9_.-]*$]. *)
Definition prefix_rune (b : Z) : bool := is_digit_byte b || (b =? 43) || (b =? 42) || (b =? 35).
Definition name_head (b : Z) : bool := in_range 65 90 b || in_range 97 122 b || is_digit_byte b.
Definition name_rune (b : Z) : bool := name_head b || (b =? 95) || (b =? 46) || (b =? 45).

Definition validPrefix (prefix : string) : bool := forallb prefix_rune (bytes_of_string prefix).
Definition validName (name : string) : bool :=
  match bytes_of_string name with
  | [] => false
  | b :: bs => name_head b && forallb name_rune bs
  end.

Definition cfg_allDigits (value : string) : bool :=
  negb (bool_decide (value = "")) && forallb (fun r => negb ((r <? 48) || (57 <? r))) (runes value).

Fixpoint two_digit_loop (rs : list Z) (n : Z) : option Z :=
  match rs with
  | [] => Some n
  | r :: rs => if (r <? 48) || (57 <? r) then None else two_digit_loop rs (i64 (n * 10 + (r - 48)))
  end.

Definition parseTwoDigit (value : string) : option Z :=
  if bool_decide (value = "") then None else two_digit_loop (runes value) 0.

Definition parseClock (value : string) : option duration :=
  match Split1 value 58 with
  | [hs; ms] =>
    h ← parseTwoDigit hs;
    if (h <? 0) || (23 <? h) then None
    else
      m ← parseTwoDigit ms;
      if (m <? 0) || (59 <? m) then None else Some (h * Hour + m * Minute)
  | _ => None
  end.

Definition isReservedHTTPPath (path : string) : bool :=
  bool_decide (path = "/healthz") || bool_decide (path = "/v1/messages") || bool_decide (path = "/v1/config")
  || bool_decide (path = "/ui/config") || bool_decide (path = "/admin") || HasPrefix path "/admin/".

Definition mapsTo (fields : gmap string string) (internal : string) : bool :=
  existsb (fun kv => bool_decide (kv.2 = internal)) (map_to_list fields).

Definition dur_err (value : string) : bool := bool_decide (ParseDuration value = None).

(** ** Parts *)

Definition validateSMPPString (name value : string) (max : nat) (allowAutoGenerate : bool) : check :=
  if bool_decide (value = "") || (allowAutoGenerate && IsAutoGenerate value) then Ok tt
  else fail_if (max <? slen value)%nat (Errorf "%s must be at most %d bytes" [name; Itoa (Z.of_nat max)]).

Definition validateTimeWindow (route : string) (window : TimeWindow) : check :=
  _ ← fail_if (bool_decide (parseClock (tw_Start window) = None)) (Errorf "route %q time_window.start is invalid: %w" [route]);
  _ ← fail_if (bool_decide (parseClock (tw_End window) = None)) (Errorf "route %q time_window.end is invalid: %w" [route]);
  for_each (fun day => fail_if (bool_decide (day_of_name day = None)) (Errorf "route %q time_window day %q is invalid" [route; day]))
    (tw_Days window).

Definition validateCDR (cfg : CDRConfig) : check :=
  if negb (cd_Enabled cfg) then Ok tt
  else
    _ ← fail_if (bool_decide (cd_Dir cfg = "")) (Errorf "cdr.dir is required" []);
    _ ← fail_if (negb (bool_decide (cd_Mode cfg = "")) && negb (bool_decide (cd_Mode cfg = "events"))
          && negb (bool_decide (cd_Mode cfg = "settled"))) (Errorf "cdr.mode must be events or settled" []);
    _ ← fail_if (cd_MaxRecords cfg <=? 0) (Errorf "cdr.max_records must be > 0" []);
    _ ← fail_if (negb (bool_decide (cd_MaxAge cfg = ""))
          && match ParseDuration (cd_MaxAge cfg) with None => true | Some d => d <=? 0 end) (Errorf "cdr.max_age is invalid" []);
    _ ← fail_if (cd_Buffer cfg <? 0) (Errorf "cdr.buffer must be non-negative" []);
    _ ← fail_if (negb (bool_decide (cd_OnFull cfg = "")) && negb (bool_decide (cd_OnFull cfg = "block"))
          && negb (bool_decide (cd_OnFull cfg = "drop"))) (Errorf "cdr.on_full must be block or drop" []);
    _ ← fail_if (cd_FsyncEvery cfg <? 0) (Errorf "cdr.fsync_every must be non-negative" []);
    fail_if (negb (bool_decide (cd_FsyncInterval cfg = ""))
      && match ParseDuration (cd_FsyncInterval cfg) with None => true | Some d => d <? 0 end)
      (Errorf "cdr.fsync_interval is invalid" []).

(** [validateRoutePrefixes]: the prefixes seen so far with their route, provider
    and priority. *)
Record owner := mkOwner {
  ow_route : string;
  ow_prefix : string;
  ow_provider : string;
  ow_priority : Z }.

Fixpoint prefix_loop (route : RouteConfig) (prefixes : list string) (seen : list owner) : res cfg_err (list owner) :=
  match prefixes with
  | [] => Ok seen
  | prefix :: prefixes =>
    match list_find (fun prior => prefix = ow_prefix prior /\ rt_Provider route = ow_provider prior
        /\ rt_Priority route = ow_priority prior) seen with
    | Some (_, prior) =>
      Err (Errorf "route %q prefix %q conflicts with route %q prefix %q" [rt_Name route; prefix; ow_route prior; ow_prefix prior])
    | None => prefix_loop route prefixes (seen ++ [mkOwner (rt_Name route) prefix (rt_Provider route) (rt_Priority route)])
    end
  end.

Fixpoint prefixes_loop (routes : list RouteConfig) (seen : list owner) : check :=
  match routes with
  | [] => Ok tt
  | route :: routes => seen ← prefix_loop route (rt_Prefix route) seen; prefixes_loop routes seen
  end.

Definition validateRoutePrefixes (routes : list RouteConfig) : check := prefixes_loop routes [].

Section validate.
Context (LoadLocation : string -> bool) (regexp_Compile : string -> option regex).
(** The order of a range over the three durations of an SMPP client. *)
Context (range : list (string * string) -> list (string * string)).

Definition validateFilterRule (rule : FilterRule) : check :=
  if bool_decide (fr_Enabled rule = Some false) then Ok tt
  else
    _ ← fail_if (bool_decide (fr_Name rule = "")) (Errorf "filter rule name is required" []);
    _ ← fail_if (negb (validName (fr_Name rule))) (Errorf "filter rule %q has invalid name" [fr_Name rule]);
    let action := ToLowerTrim (fr_Action rule) in
    _ ← fail_if (negb (bool_decide (action ∈ ["block"; "mask"; "tag"; "pass"])))
          (Errorf "filter rule %q has invalid action %q" [fr_Name rule; fr_Action rule]);
    _ ← fail_if (bool_decide (fr_Keywords rule = []) && bool_decide (fr_Regex rule = ""))
          (Errorf "filter rule %q must define keywords or regex" [fr_Name rule]);
    _ ← fail_if (bool_decide (action = "tag") && bool_decide (fr_Tag rule = ""))
          (Errorf "filter rule %q tag is required for tag action" [fr_Name rule]);
    fail_if (negb (bool_decide (fr_Regex rule = "")) && match regexp_Compile (fr_Regex rule) with None => true | Some _ => false end)
      (Errorf "filter rule %q regex is invalid: %w" [fr_Name rule]).

Definition validateFilter (cfg : FilterConfig) : check :=
  if negb (fc_Enabled cfg) then Ok tt else for_each validateFilterRule (fc_Rules cfg).

Definition validateSMPPClientConfig (providerName : string) (cfg : SMPPClientConfig) : check :=
  let e s := Errorf s [providerName] in
  _ ← fail_if (negb (bool_decide (sc_BindMode cfg = "transceiver")) && negb (bool_decide (sc_BindMode cfg = "tx_rx")))
        (e "provider %q smpp.bind_mode must be transceiver or tx_rx");
  _ ← fail_if (bool_decide (sc_BindMode cfg = "tx_rx")) (e "provider %q smpp.bind_mode tx_rx is not implemented yet");
  _ ← fail_if (sc_Binds cfg <? 1) (e "provider %q smpp.binds must be >= 1");
  _ ← fail_if (sc_WindowSize cfg <? 1) (e "provider %q smpp.window_size must be >= 1");
  _ ← fail_if (sc_ResponseTimeoutMS cfg <? 1) (e "provider %q smpp.response_timeout_ms must be >= 1");
  _ ← for_each (fun fv => fail_if (dur_err fv.2) (Errorf "provider %q smpp.%s is invalid: %w" [providerName; fv.1]))
        (range [("enquire_period", sc_EnquirePeriod cfg); ("reconnect_min", sc_ReconnectMin cfg); ("reconnect_max", sc_ReconnectMax cfg)]);
  _ ← fail_if (negb (validTONNPI (sc_SourceTON cfg) true)) (e "provider %q smpp.source_ton must be -1 or 0..6");
  _ ← fail_if (negb (validTONNPI (sc_SourceNPI cfg) true)) (e "provider %q smpp.source_npi must be -1 or 0..6");
  _ ← fail_if (negb (validTONNPI (sc_DestTON cfg) false)) (e "provider %q smpp.dest_ton must be 0..6");
  _ ← fail_if (negb (validTONNPI (sc_DestNPI cfg) false)) (e "provider %q smpp.dest_npi must be 0..6");
  _ ← fail_if ((sc_RegisteredDelivery cfg <? -1) || (1 <? sc_RegisteredDelivery cfg))
        (e "provider %q smpp.registered_delivery must be -1, 0, or 1");
  _ ← fail_if (negb (bool_decide (sc_GSM7Packing cfg = "unpacked")) && negb (bool_decide (sc_GSM7Packing cfg = "packed")))
        (e "provider %q smpp.gsm7_packing must be unpacked or packed");
  _ ← fail_if (negb (bool_decide (sc_LongMessage cfg = "udh")) && negb (bool_decide (sc_LongMessage cfg = "payload"))
        && negb (bool_decide (sc_LongMessage cfg = "sar"))) (e "provider %q smpp.long_message must be udh, payload, or sar");
  _ ← fail_if (negb (validIDFormat (sc_MessageIDRespFormat cfg))) (e "provider %q smpp.message_id_resp_format must be auto, dec, or hex");
  _ ← fail_if (negb (validIDFormat (sc_MessageIDDLRFormat cfg))) (e "provider %q smpp.message_id_dlr_format must be auto, dec, or hex");
  _ ← fail_if (negb (bool_decide (sc_DLRIDSource cfg = "auto")) && negb (bool_decide (sc_DLRIDSource cfg = "text"))
        && negb (bool_decide (sc_DLRIDSource cfg = "tlv"))) (e "provider %q smpp.dlr_id_source must be auto, text, or tlv");
  fail_if (sc_TLS cfg) (e "provider %q smpp.tls is not implemented yet").

(** [fmt.Errorf("provider %q %w", name, err)]. *)
Definition wrap (prefix : string) (args : list string) (c : check) : check :=
  match c with Ok _ => Ok tt | Err e => Err (Errorf (prefix +:+ " " +:+ ef_format e) (args ++ ef_args e)) end.

Definition protocol_is (p : ProviderConfig) (name : string) : bool := ToLowerEq (pv_Protocol p) name.

Definition validateProviderProtocol (provider : ProviderConfig) (allowAutoGenerate : bool) : check :=
  let e s := Errorf s [pv_Name provider] in
  if protocol_is provider "" || protocol_is provider "mock" then
    fail_if (bool_decide (is_Some (pv_SMPP provider))) (e "provider %q smpp config is only valid when protocol is smpp")
  else if protocol_is provider "http" || protocol_is provider "https" then
    _ ← fail_if (bool_decide (is_Some (pv_SMPP provider))) (e "provider %q smpp config is only valid when protocol is smpp");
    fail_if (bool_decide (pv_Rule provider = "")) (e "provider %q rule is required for http provider")
  else if protocol_is provider "smpp" then
    match pv_SMPP provider with
    | None => Err (e "provider %q smpp config is required")
    | Some smpp =>
      _ ← fail_if (bool_decide (pv_Endpoint provider = "")) (e "provider %q endpoint is required for smpp provider");
      _ ← fail_if (match SplitHostPort (pv_Endpoint provider) with
                   | None => true
                   | Some (host, port) => bool_decide (host = "") || bool_decide (port = "")
                   end) (e "provider %q endpoint must be host:port");
      _ ← fail_if (negb (bool_decide (pv_Rule provider = ""))) (e "provider %q rule must be empty for smpp provider");
      _ ← fail_if (bool_decide (pv_SystemID provider = "")) (e "provider %q system_id is required for smpp provider");
      _ ← fail_if (bool_decide (pv_Password provider = "")) (e "provider %q password is required for smpp provider");
      _ ← fail_if (isPlaceholder (pv_Password provider)) (e "provider %q password must be changed before deploy");
      _ ← wrap "provider %q" [pv_Name provider] (validateSMPPString "provider.system_id" (pv_SystemID provider) SMPPMaxSystemID allowAutoGenerate);
      _ ← wrap "provider %q" [pv_Name provider] (validateSMPPString "provider.password" (pv_Password provider) SMPPMaxPassword allowAutoGenerate);
      _ ← wrap "provider %q" [pv_Name provider]
            (validateSMPPString "provider.smpp.system_type" (sc_SystemType smpp) SMPPMaxSystemType allowAutoGenerate);
      validateSMPPClientConfig (pv_Name provider) smpp
    end
  else Err (Errorf "provider %q unsupported protocol %q" [pv_Name provider; pv_Protocol provider]).

Definition provider_key (name : string) : string := "provider:" +:+ name.

(** The loop over the providers: the keys seen, and the enabled names. *)
Fixpoint providers_loop (auto : bool) (ps : list ProviderConfig) (names enabled : gset string)
    : res cfg_err (gset string * gset string) :=
  match ps with
  | [] => Ok (names, enabled)
  | p :: ps =>
    let e s := Errorf s [pv_Name p] in
    _ ← fail_if (bool_decide (pv_Name p = "")) (Errorf "provider name is required" []);
    _ ← fail_if (bool_decide (provider_key (pv_Name p) ∈ names)) (e "duplicate provider %q");
    let names := {[provider_key (pv_Name p)]} ∪ names in
    let enabled := if pv_Enabled p then {[pv_Name p]} ∪ enabled else enabled in
    _ ← fail_if (pv_HTTPTimeoutMS p <? 0) (e "provider %q http_timeout_ms must be non-negative");
    _ ← fail_if ((pr_TPS (pv_RateLimit p) <? 0) || (pr_Burst (pv_RateLimit p) <? 0) || (pr_TimeoutMS (pv_RateLimit p) <? 0))
          (e "provider %q rate_limit values must be non-negative");
    _ ← fail_if (negb auto && IsAutoGenerate (pv_Password p)) (Errorf "auto-generate placeholders are only allowed during startup bootstrap" []);
    _ ← validateProviderProtocol p auto;
    providers_loop auto ps names enabled
  end.

Definition validate_route (names : gset string) (route : RouteConfig) : check :=
  let e s := Errorf s [rt_Name route] in
  let known name := bool_decide (provider_key name ∈ names) in
  _ ← fail_if (bool_decide (rt_Name route = "")) (Errorf "route name is required" []);
  _ ← fail_if (negb (validName (rt_Name route))) (e "route %q has invalid name");
  _ ← fail_if (bool_decide (rt_Provider route = "") && bool_decide (rt_Weighted route = []) && bool_decide (rt_Failover route = []))
        (e "route %q provider is required");
  _ ← fail_if (negb (bool_decide (rt_Weighted route = [])) && negb (bool_decide (rt_Failover route = [])))
        (e "route %q cannot define both weighted and failover");
  _ ← for_each (fun wp =>
          _ ← fail_if (bool_decide (wp_Provider wp = "")) (e "route %q weighted provider is required");
          _ ← fail_if (wp_Weight wp <=? 0) (Errorf "route %q weighted provider %q weight must be > 0" [rt_Name route; wp_Provider wp]);
          fail_if (negb (known (wp_Provider wp))) (Errorf "route %q references unknown weighted provider %q" [rt_Name route; wp_Provider wp]))
        (rt_Weighted route);
  _ ← for_each (fun name => fail_if (negb (known name)) (Errorf "route %q references unknown failover provider %q" [rt_Name route; name]))
        (rt_Failover route);
  _ ← fail_if (negb (bool_decide (rt_Provider route = "")) && negb (known (rt_Provider route)))
        (Errorf "route %q references unknown provider %q" [rt_Name route; rt_Provider route]);
  _ ← for_each (fun prefix => fail_if (negb (validPrefix prefix)) (Errorf "route %q has invalid prefix %q" [rt_Name route; prefix])) (rt_Prefix route);
  _ ← for_each (fun prefix => fail_if (negb (validPrefix prefix)) (Errorf "route %q has invalid from_prefix %q" [rt_Name route; prefix])) (rt_FromPrefix route);
  _ ← for_each (validateTimeWindow (rt_Name route)) (rt_TimeWindows route);
  let ar := rt_AddrRewrite route in
  _ ← fail_if (negb (bool_decide (ar_CountryCode ar = "")) && negb (cfg_allDigits (ar_CountryCode ar)))
        (e "route %q addr_rewrite.country_code must contain only digits");
  _ ← fail_if (negb (bool_decide (ar_AddPrefix ar = "")) && negb (cfg_allDigits (ar_AddPrefix ar)))
        (e "route %q addr_rewrite.add_prefix must contain only digits");
  let da := rt_DestAddr route in
  _ ← fail_if ((dc_MinShortLen da <? 0) || (dc_MaxShortLen da <? 0)) (e "route %q dest_addr short code lengths must be non-negative");
  _ ← fail_if ((0 <? dc_MinShortLen da) && (0 <? dc_MaxShortLen da) && (dc_MaxShortLen da <? dc_MinShortLen da))
        (e "route %q dest_addr min_short_len must be <= max_short_len");
  fail_if (negb (bool_decide (dc_CountryLengthMode da ∈ [""; "off"; "compat"; "strict"])))
    (e "route %q dest_addr.country_length_mode must be off, compat, or strict").

Fixpoint tenants_loop (ts : list TenantConfig) (names : gset string) : res cfg_err (gset string) :=
  match ts with
  | [] => Ok names
  | t :: ts =>
    let e s := Errorf s [tn_TenantID t] in
    let l := tn_Limits t in
    _ ← fail_if (bool_decide (tn_TenantID t = "")) (Errorf "tenant tenant_id is required" []);
    _ ← fail_if (negb (validName (tn_TenantID t)) || (64 <? slen (tn_TenantID t))%nat) (e "tenant %q has invalid tenant_id");
    _ ← fail_if (bool_decide (tn_TenantID t ∈ names)) (e "duplicate tenant %q");
    _ ← fail_if ((tl_TPS l <? 0) || (tl_Burst l <? 0) || (tl_DailySegments l <? 0)) (e "tenant %q limits must be non-negative");
    _ ← fail_if ((tl_TPS l =? 0) && (0 <? tl_Burst l)) (e "tenant %q limits.burst requires limits.tps");
    _ ← fail_if (negb (bool_decide (tl_Timezone l = "")) && negb (LoadLocation (tl_Timezone l))) (e "tenant %q limits.timezone is invalid: %w");
    tenants_loop ts ({[tn_TenantID t]} ∪ names)
  end.

Fixpoint esmes_loop (auto : bool) (tenants : gset string) (es : list ESMECred) (names : gset string) : check :=
  match es with
  | [] => Ok tt
  | m :: es =>
    let e s := Errorf s [em_SystemID m] in
    _ ← fail_if (bool_decide (em_SystemID m = "")) (Errorf "esme system_id is required" []);
    _ ← fail_if (bool_decide (em_Password m = "")) (e "esme %q password is required");
    _ ← fail_if (isPlaceholder (em_Password m)) (e "esme %q password must be changed before deploy");
    _ ← fail_if (negb auto && IsAutoGenerate (em_Password m)) (Errorf "auto-generate placeholders are only allowed during startup bootstrap" []);
    _ ← validateSMPPString "esme.system_id" (em_SystemID m) SMPPMaxSystemID auto;
    _ ← wrap "esme %q" [em_SystemID m] (validateSMPPString "esme.password" (em_Password m) SMPPMaxPassword auto);
    _ ← fail_if (bool_decide (em_SystemID m ∈ names)) (e "duplicate esme %q");
    _ ← fail_if (negb (bool_decide (em_TenantID m = "")) && negb (bool_decide (em_TenantID m ∈ tenants)))
          (Errorf "esme %q references unknown tenant %q" [em_SystemID m; em_TenantID m]);
    esmes_loop auto tenants es ({[em_SystemID m]} ∪ names)
  end.

Fixpoint clients_loop (auto : bool) (tenants : gset string) (cs : list ClientAuth) (names : gset string) : check :=
  match cs with
  | [] => Ok tt
  | c :: cs =>
    let e s := Errorf s [ca_ClientID c] in
    _ ← fail_if (bool_decide (ca_ClientID c = "")) (Errorf "client client_id is required" []);
    _ ← fail_if (ca_Enabled c && bool_decide (ca_Token c = "")) (e "client %q token is required");
    _ ← fail_if (isPlaceholder (ca_Token c)) (e "client %q token must be changed before deploy");
    _ ← fail_if (negb auto && IsAutoGenerate (ca_Token c)) (Errorf "auto-generate placeholders are only allowed during startup bootstrap" []);
    _ ← fail_if (bool_decide (ca_ClientID c ∈ names)) (e "duplicate client %q");
    _ ← fail_if (negb (bool_decide (ca_TenantID c = "")) && negb (bool_decide (ca_TenantID c ∈ tenants)))
          (Errorf "client %q references unknown tenant %q" [ca_ClientID c; ca_TenantID c]);
    clients_loop auto tenants cs ({[ca_ClientID c]} ∪ names)
  end.

Definition validate_inbound (auto : bool) (names : gset string) (rule : HTTPRuleConfig) : check :=
  let e s := Errorf s [hr_Name rule] in
  let empty k := bool_decide (field (hr_Fields rule) k = "") in
  _ ← fail_if (bool_decide (hr_Name rule = "")) (Errorf "inbound rule name is required" []);
  _ ← fail_if (negb (validName (hr_Name rule))) (e "inbound rule %q has invalid name");
  _ ← fail_if (bool_decide (hr_Path rule = "") || negb (HasPrefix (hr_Path rule) "/")) (e "inbound rule %q path must start with /");
  _ ← fail_if (isReservedHTTPPath (hr_Path rule)) (Errorf "inbound rule %q path %q conflicts with built-in route" [hr_Name rule; hr_Path rule]);
  _ ← fail_if (bool_decide (hr_AuthHeader rule = "") || bool_decide (hr_AuthToken rule = "")) (e "inbound rule %q auth_header and auth_token are required");
  _ ← fail_if (negb auto && IsAutoGenerate (hr_AuthToken rule)) (Errorf "auto-generate placeholders are only allowed during startup bootstrap" []);
  _ ← fail_if ((empty "from" || empty "to" || empty "text") && (empty "provider_id" || empty "status"))
        (e "inbound rule %q must map from, to, and text");
  if negb (empty "provider_id") || negb (empty "status") then
    _ ← fail_if (empty "provider_id" || empty "status") (e "inbound rule %q must map provider_id and status together");
    _ ← fail_if (bool_decide (hr_Provider rule = "")) (e "inbound dlr rule %q provider is required");
    fail_if (negb (bool_decide (provider_key (hr_Provider rule) ∈ names)))
      (Errorf "inbound dlr rule %q references unknown provider %q" [hr_Name rule; hr_Provider rule])
  else Ok tt.

Definition validate_outbound (rule : HTTPRuleConfig) : check :=
  _ ← fail_if (bool_decide (hr_Name rule = "")) (Errorf "outbound rule name is required" []);
  fail_if (negb (mapsTo (hr_Fields rule) "to") || negb (mapsTo (hr_Fields rule) "text"))
    (Errorf "outbound rule %q must map to and text" [hr_Name rule]).

(** ** The whole *)

Definition validate_storage (s : StorageConfig) : check :=
  let is_driver := ToLowerEq (sg_Driver s) in
  if is_driver "" || is_driver "memory" || is_driver "file" || is_driver "json" then Ok tt
  else if is_driver "postgres" || is_driver "pg" then
    fail_if (bool_decide (sg_DSN s = "")) (Errorf "storage.dsn is required for postgres" [])
  else Err (Errorf "unsupported storage.driver %q" [sg_Driver s]).

Definition validate_secrets (auto : bool) (a : AdminConfig) (s : SMPPConfig) : check :=
  _ ← fail_if (bool_decide (ad_Username a = "") || bool_decide (ad_Password a = "")) (Errorf "admin username and password are required" []);
  _ ← fail_if (isPlaceholder (ad_Username a) || isPlaceholder (ad_Password a)) (Errorf "admin credentials must be changed before deploy" []);
  _ ← fail_if (negb auto && (IsAutoGenerate (ad_Password a) || IsAutoGenerate (sp_Password s)))
        (Errorf "auto-generate placeholders are only allowed during startup bootstrap" []);
  _ ← fail_if (isPlaceholder (sp_Password s)) (Errorf "smpp password must be changed before deploy" []);
  _ ← validateSMPPString "smpp.system_id" (sp_SystemID s) SMPPMaxSystemID auto;
  _ ← validateSMPPString "smpp.password" (sp_Password s) SMPPMaxPassword auto;
  validateSMPPString "smpp.system_type" (sp_SystemType s) SMPPMaxSystemType auto.

Definition validate_dispatcher (d : DispatcherConfig) : check :=
  let bad s := dur_err s && negb (bool_decide (s = "")) in
  _ ← fail_if ((di_Workers d <? 0) || (di_PerWorkerConcurrency d <? 0) || (di_ClaimLimit d <? 0) || (di_PollIntervalMS d <? 0)
        || (di_MaxAttempts d <? 0)) (Errorf "dispatcher values must be non-negative" []);
  _ ← fail_if (bad (di_PendingTTL d)) (Errorf "dispatcher.pending_ttl is invalid: %w" []);
  _ ← fail_if (bad (di_ClaimTimeout d)) (Errorf "dispatcher.claim_timeout is invalid: %w" []);
  fail_if (bad (di_PendingSweepInterval d)) (Errorf "dispatcher.pending_sweep_interval is invalid: %w" []).

Definition validate_proxy (proxy : string) : check :=
  match ParsePrefix proxy with
  | Some _ => Ok tt
  | None => fail_if (bool_decide (ParseAddr proxy = None)) (Errorf "trusted_proxies contains invalid ip or cidr %q" [proxy])
  end.

Definition validate (c : Config) (auto : bool) : check :=
  _ ← validate_storage (c_Storage c);
  _ ← validate_secrets auto (c_Admin c) (c_SMPP c);
  _ ← fail_if (negb (bool_decide (se_HTTPAddr (c_Server c) = "")) && negb (bool_decide (sp_Addr (c_SMPP c) = ""))
        && bool_decide (se_HTTPAddr (c_Server c) = sp_Addr (c_SMPP c))) (Errorf "server.http_addr and smpp.addr must not be the same" []);
  _ ← validate_dispatcher (c_Dispatcher c);
  _ ← for_each validate_proxy (c_TrustedProxies c);
  '(names, enabledProviders) ← providers_loop auto (c_Providers c) ∅ ∅;
  _ ← fail_if (negb (bool_decide (c_Providers c = [])) && bool_decide (enabledProviders = ∅)) (Errorf "at least one provider must be enabled" []);
  _ ← for_each (validate_route names) (c_Routes c);
  _ ← validateRoutePrefixes (c_Routes c);
  _ ← validateFilter (c_Filter c);
  _ ← validateCDR (c_CDR c);
  tenantNames ← tenants_loop (c_Tenants c) ∅;
  _ ← esmes_loop auto tenantNames (c_ESMEs c) ∅;
  _ ← clients_loop auto tenantNames (c_Clients c) ∅;
  _ ← for_each (validate_inbound auto names) (c_Inbound c);
  for_each validate_outbound (c_Outbound c).

Definition Validate (c : Config) : check := validate c false.
End validate.
