(* ===== verification/ConfigOk.v ===== *)
(** * What a valid configuration is

    The checks of [validate] as predicates on the configuration, and the theorem
    that [validate] returns no error exactly when they hold: the loops with
    their maps of names amount to names without duplicates and references
    that resolve. *)

From S2P Require Import Prelude Unicode Num GoTime GoParse Addr Router FilterAC Filter Config ConfigValid.

(** ** Checks *)

Lemma bind_ok (m k : check) : (m ≫= fun _ => k) = Ok tt <-> m = Ok tt /\ k = Ok tt.
Proof. destruct m as [[]|]; cbn; split; try done; by intros []. Qed.

Lemma bind_val_ok {A} (m : res cfg_err A) (k : A -> check) : (m ≫= k) = Ok tt <-> exists a, m = Ok a /\ k a = Ok tt.
Proof. destruct m as [a|]; cbn; split; [by exists a|by intros (? & [= <-] & ?)|done|by intros (? & ? & _)]. Qed.

Lemma fail_if_ok b (e : cfg_err) : fail_if b e = Ok tt <-> b = false.
Proof. by destruct b. Qed.

Lemma for_each_ok {A} (f : A -> check) l : for_each f l = Ok tt <-> Forall (fun x => f x = Ok tt) l.
Proof.
  induction l as [|x l IH]; cbn [for_each]; [by split; [constructor|]|]. by rewrite bind_ok, Forall_cons, IH.
Qed.

Lemma wrap_ok prefix args (c : check) : wrap prefix args c = Ok tt <-> c = Ok tt.
Proof. by destruct c as [[]|]. Qed.

(** Boolean tests as propositions. *)
Lemma bd_true P `{Decision P} : bool_decide P = true <-> P.
Proof. apply bool_decide_eq_true. Qed.
Lemma bd_false P `{Decision P} : bool_decide P = false <-> ~ P.
Proof. apply bool_decide_eq_false. Qed.

Create Rewrite HintDb checks.
#[export] Hint Rewrite bind_ok fail_if_ok @for_each_ok wrap_ok negb_true_iff negb_false_iff andb_true_iff andb_false_iff
  orb_true_iff orb_false_iff Z.ltb_ge Z.ltb_lt Z.leb_gt Z.leb_le Z.eqb_eq Z.eqb_neq Nat.ltb_ge Nat.ltb_lt : checks.
Ltac checks := autorewrite with checks; rewrite ?bd_true, ?bd_false.

(** ** Predicates *)

(** A secret is not the placeholder of the sample file, and not the request to
    generate one unless the configuration is being set up. *)
Definition secret_ok (auto : bool) (s : string) : Prop := s <> PlaceholderSecret /\ (auto = false -> s <> AutoGenerateSecret).

Definition fits (auto : bool) (max : nat) (s : string) : Prop := (slen s <= max)%nat \/ auto = true /\ s = AutoGenerateSecret.

Definition storage_ok (s : StorageConfig) : Prop :=
  Exists (fun d => ToLowerEq (sg_Driver s) d = true) [""; "memory"; "file"; "json"]
  \/ Exists (fun d => ToLowerEq (sg_Driver s) d = true) ["postgres"; "pg"] /\ sg_DSN s <> "".

Record secrets_ok (auto : bool) (a : AdminConfig) (s : SMPPConfig) : Prop := {
  so_user : ad_Username a <> "" /\ ad_Username a <> PlaceholderSecret;
  so_password : ad_Password a <> "" /\ secret_ok auto (ad_Password a);
  so_smpp : secret_ok auto (sp_Password s);
  so_fits : fits auto SMPPMaxSystemID (sp_SystemID s) /\ fits auto SMPPMaxPassword (sp_Password s)
    /\ fits auto SMPPMaxSystemType (sp_SystemType s) }.

Definition duration_ok (s : string) : Prop := ParseDuration s <> None.

Record dispatcher_ok (d : DispatcherConfig) : Prop := {
  do_counts : 0 <= di_Workers d /\ 0 <= di_PerWorkerConcurrency d /\ 0 <= di_ClaimLimit d /\ 0 <= di_PollIntervalMS d
    /\ 0 <= di_MaxAttempts d;
  do_times : Forall (fun s => s = "" \/ duration_ok s) [di_PendingTTL d; di_ClaimTimeout d; di_PendingSweepInterval d] }.

Definition proxy_ok (s : string) : Prop := ParsePrefix s <> None \/ ParseAddr s <> None.

Record smpp_client_ok (c : SMPPClientConfig) : Prop := {
  sk_mode : sc_BindMode c = "transceiver" /\ sc_TLS c = false;
  sk_counts : 1 <= sc_Binds c /\ 1 <= sc_WindowSize c /\ 1 <= sc_ResponseTimeoutMS c;
  sk_times : duration_ok (sc_EnquirePeriod c) /\ duration_ok (sc_ReconnectMin c) /\ duration_ok (sc_ReconnectMax c);
  sk_source : -1 <= sc_SourceTON c <= 6 /\ -1 <= sc_SourceNPI c <= 6;
  sk_dest : 0 <= sc_DestTON c <= 6 /\ 0 <= sc_DestNPI c <= 6;
  sk_delivery : -1 <= sc_RegisteredDelivery c <= 1;
  sk_packing : sc_GSM7Packing c ∈ ["unpacked"; "packed"];
  sk_long : sc_LongMessage c ∈ ["udh"; "payload"; "sar"];
  sk_ids : sc_MessageIDRespFormat c ∈ ["auto"; "dec"; "hex"] /\ sc_MessageIDDLRFormat c ∈ ["auto"; "dec"; "hex"]
    /\ sc_DLRIDSource c ∈ ["auto"; "text"; "tlv"] }.

Record smpp_provider_ok (auto : bool) (p : ProviderConfig) (c : SMPPClientConfig) : Prop := {
  pk_endpoint : exists host port, SplitHostPort (pv_Endpoint p) = Some (host, port) /\ host <> "" /\ port <> "";
  pk_norule : pv_Rule p = "";
  pk_creds : pv_SystemID p <> "" /\ pv_Password p <> "" /\ pv_Password p <> PlaceholderSecret;
  pk_fits : fits auto SMPPMaxSystemID (pv_SystemID p) /\ fits auto SMPPMaxPassword (pv_Password p)
    /\ fits auto SMPPMaxSystemType (sc_SystemType c);
  pk_client : smpp_client_ok c }.

(** The protocols, and what each asks for. *)
Definition protocol_ok (auto : bool) (p : ProviderConfig) : Prop :=
  if protocol_is p "" || protocol_is p "mock" then pv_SMPP p = None
  else if protocol_is p "http" || protocol_is p "https" then pv_SMPP p = None /\ pv_Rule p <> ""
  else protocol_is p "smpp" = true /\ exists c, pv_SMPP p = Some c /\ smpp_provider_ok auto p c.

Record provider_ok (auto : bool) (p : ProviderConfig) : Prop := {
  vk_name : pv_Name p <> "";
  vk_timeout : 0 <= pv_HTTPTimeoutMS p;
  vk_rate : 0 <= pr_TPS (pv_RateLimit p) /\ 0 <= pr_Burst (pv_RateLimit p) /\ 0 <= pr_TimeoutMS (pv_RateLimit p);
  vk_secret : auto = false -> pv_Password p <> AutoGenerateSecret;
  vk_protocol : protocol_ok auto p }.

Definition window_ok (w : TimeWindow) : Prop :=
  parseClock (tw_Start w) <> None /\ parseClock (tw_End w) <> None /\ Forall (fun day => day_of_name day <> None) (tw_Days w).

(** The providers a route may send to. *)
Definition route_providers (r : RouteConfig) : list string :=
  (if bool_decide (rt_Provider r = "") then [] else [rt_Provider r]) ++ (wp_Provider <$> rt_Weighted r) ++ rt_Failover r.

Record route_ok (providers : list string) (r : RouteConfig) : Prop := {
  rk_name : validName (rt_Name r) = true;
  rk_some : route_providers r <> [] /\ (rt_Weighted r = [] \/ rt_Failover r = []);
  rk_known : Forall (fun name => name ∈ providers) (route_providers r);
  rk_weights : Forall (fun wp => wp_Provider wp <> "" /\ 0 < wp_Weight wp) (rt_Weighted r);
  rk_prefixes : Forall (fun p => validPrefix p = true) (rt_Prefix r ++ rt_FromPrefix r);
  rk_windows : Forall window_ok (rt_TimeWindows r);
  rk_rewrite : Forall (fun s => s = "" \/ cfg_allDigits s = true) [ar_CountryCode (rt_AddrRewrite r); ar_AddPrefix (rt_AddrRewrite r)];
  rk_short : 0 <= dc_MinShortLen (rt_DestAddr r) /\ 0 <= dc_MaxShortLen (rt_DestAddr r)
    /\ (dc_MinShortLen (rt_DestAddr r) = 0 \/ dc_MaxShortLen (rt_DestAddr r) = 0
        \/ dc_MinShortLen (rt_DestAddr r) <= dc_MaxShortLen (rt_DestAddr r));
  rk_mode : dc_CountryLengthMode (rt_DestAddr r) ∈ [""; "off"; "compat"; "strict"] }.

(** The prefixes of the routes with their provider and priority. *)
Definition route_keys (routes : list RouteConfig) : list (string * string * Z) :=
  routes ≫= fun r => (fun p => (p, rt_Provider r, rt_Priority r)) <$> rt_Prefix r.

Record filter_rule_ok (compiles : string -> Prop) (rule : FilterRule) : Prop := {
  fk_name : validName (fr_Name rule) = true;
  fk_action : ToLowerTrim (fr_Action rule) ∈ ["block"; "mask"; "tag"; "pass"];
  fk_some : fr_Keywords rule <> [] \/ fr_Regex rule <> "";
  fk_tag : ToLowerTrim (fr_Action rule) = "tag" -> fr_Tag rule <> "";
  fk_regex : fr_Regex rule = "" \/ compiles (fr_Regex rule) }.

Definition filter_ok (compiles : string -> Prop) (cfg : FilterConfig) : Prop :=
  fc_Enabled cfg = true -> Forall (fun rule => fr_Enabled rule = Some false \/ filter_rule_ok compiles rule) (fc_Rules cfg).

Record cdr_ok (cfg : CDRConfig) : Prop := {
  co_dir : cd_Dir cfg <> "";
  co_mode : cd_Mode cfg ∈ [""; "events"; "settled"] /\ cd_OnFull cfg ∈ [""; "block"; "drop"];
  co_counts : 0 < cd_MaxRecords cfg /\ 0 <= cd_Buffer cfg /\ 0 <= cd_FsyncEvery cfg;
  co_age : cd_MaxAge cfg = "" \/ exists d, ParseDuration (cd_MaxAge cfg) = Some d /\ 0 < d;
  co_interval : cd_FsyncInterval cfg = "" \/ exists d, ParseDuration (cd_FsyncInterval cfg) = Some d /\ 0 <= d }.

Record tenant_ok (zone : string -> bool) (t : TenantConfig) : Prop := {
  to_name : validName (tn_TenantID t) = true /\ (slen (tn_TenantID t) <= 64)%nat;
  to_limits : 0 <= tl_TPS (tn_Limits t) /\ 0 <= tl_Burst (tn_Limits t) /\ 0 <= tl_DailySegments (tn_Limits t);
  to_burst : 0 < tl_TPS (tn_Limits t) \/ tl_Burst (tn_Limits t) = 0;
  to_zone : tl_Timezone (tn_Limits t) = "" \/ zone (tl_Timezone (tn_Limits t)) = true }.

Record esme_ok (auto : bool) (tenants : list string) (m : ESMECred) : Prop := {
  eo_id : em_SystemID m <> "" /\ fits auto SMPPMaxSystemID (em_SystemID m);
  eo_password : em_Password m <> "" /\ secret_ok auto (em_Password m) /\ fits auto SMPPMaxPassword (em_Password m);
  eo_tenant : em_TenantID m = "" \/ em_TenantID m ∈ tenants }.

Record client_ok (auto : bool) (tenants : list string) (c : ClientAuth) : Prop := {
  ko_id : ca_ClientID c <> "";
  ko_token : (ca_Enabled c = true -> ca_Token c <> "") /\ secret_ok auto (ca_Token c);
  ko_tenant : ca_TenantID c = "" \/ ca_TenantID c ∈ tenants }.

(** Whether a rule receives delivery reports. *)
Definition report_rule (rule : HTTPRuleConfig) : Prop := field (hr_Fields rule) "provider_id" <> "" /\ field (hr_Fields rule) "status" <> "".

Record inbound_ok (auto : bool) (providers : list string) (rule : HTTPRuleConfig) : Prop := {
  io_name : validName (hr_Name rule) = true;
  io_path : HasPrefix (hr_Path rule) "/" = true /\ isReservedHTTPPath (hr_Path rule) = false;
  io_auth : hr_AuthHeader rule <> "" /\ hr_AuthToken rule <> "" /\ (auto = false -> hr_AuthToken rule <> AutoGenerateSecret);
  io_fields : report_rule rule /\ hr_Provider rule ∈ providers /\ hr_Provider rule <> ""
    \/ Forall (fun k => field (hr_Fields rule) k <> "") ["from"; "to"; "text"]
       /\ field (hr_Fields rule) "provider_id" = "" /\ field (hr_Fields rule) "status" = "" }.

Definition outbound_ok (rule : HTTPRuleConfig) : Prop :=
  hr_Name rule <> "" /\ (exists k, hr_Fields rule !! k = Some "to") /\ (exists k, hr_Fields rule !! k = Some "text").

Record config_ok (auto : bool) (zone : string -> bool) (compiles : string -> Prop) (c : Config) : Prop := {
  k_storage : storage_ok (c_Storage c);
  k_secrets : secrets_ok auto (c_Admin c) (c_SMPP c);
  k_addrs : se_HTTPAddr (c_Server c) = "" \/ sp_Addr (c_SMPP c) = "" \/ se_HTTPAddr (c_Server c) <> sp_Addr (c_SMPP c);
  k_dispatcher : dispatcher_ok (c_Dispatcher c);
  k_proxies : Forall proxy_ok (c_TrustedProxies c);
  k_provider_names : NoDup (pv_Name <$> c_Providers c);
  k_providers : Forall (provider_ok auto) (c_Providers c);
  k_enabled : c_Providers c = [] \/ Exists (fun p => pv_Enabled p = true) (c_Providers c);
  k_routes : Forall (route_ok (pv_Name <$> c_Providers c)) (c_Routes c);
  k_route_keys : NoDup (route_keys (c_Routes c));
  k_filter : filter_ok compiles (c_Filter c);
  k_cdr : cd_Enabled (c_CDR c) = true -> cdr_ok (c_CDR c);
  k_tenant_names : NoDup (tn_TenantID <$> c_Tenants c);
  k_tenants : Forall (tenant_ok zone) (c_Tenants c);
  k_esme_ids : NoDup (em_SystemID <$> c_ESMEs c);
  k_esmes : Forall (esme_ok auto (tn_TenantID <$> c_Tenants c)) (c_ESMEs c);
  k_client_ids : NoDup (ca_ClientID <$> c_Clients c);
  k_clients : Forall (client_ok auto (tn_TenantID <$> c_Tenants c)) (c_Clients c);
  k_inbound : Forall (inbound_ok auto (pv_Name <$> c_Providers c)) (c_Inbound c);
  k_outbound : Forall outbound_ok (c_Outbound c) }.

(** ** Parts *)

Lemma fits_ok auto name max s : validateSMPPString name s max auto = Ok tt <-> fits auto max s.
Proof.
  unfold validateSMPPString, fits, IsAutoGenerate. destruct (decide (s = "")) as [-> |Hs].
  { rewrite bool_decide_eq_true_2 by done. cbn. split; [intros _; left; lia|done]. }
  rewrite bool_decide_eq_false_2 by done. cbn [orb]. destruct auto; cbn [andb].
  - case_bool_decide as E; [by split; [right|]|]. checks. split; [by left|]. by intros [?|[_ ?]].
  - checks. split; [by left|]. by intros [?|[? _]].
Qed.

Lemma secret_ok_iff auto s :
  secret_ok auto s <-> isPlaceholder s = false /\ (negb auto && IsAutoGenerate s) = false.
Proof. unfold secret_ok, isPlaceholder, IsAutoGenerate. destruct auto; cbn; rewrite ?bd_false; naive_solver. Qed.

Lemma storage_ok_iff s : validate_storage s = Ok tt <-> storage_ok s.
Proof.
  unfold validate_storage, storage_ok. rewrite !Exists_cons, !Exists_nil.
  destruct (_ || _ || _ || _) eqn:E.
  { split; [|done]. intros _. left. autorewrite with checks in E. tauto. }
  autorewrite with checks in E. destruct (_ || _) eqn:E2; autorewrite with checks in E2; checks.
  - split; [intros; right; tauto|]. intros [Hl|[_ Hd]]; [|done]. exfalso. destruct E as [[[E0 E1] E3] E4].
    rewrite E0, E1, E3, E4 in Hl. by destruct Hl as [?|[?|[?|[?|[]]]]].
  - split; [done|]. destruct E as [[[E0 E1] E3] E4], E2 as [E5 E6]. rewrite E0, E1, E3, E4, E5, E6. intros [Hl|[Hl _]]; exfalso.
    + by destruct Hl as [?|[?|[?|[?|[]]]]].
    + by destruct Hl as [?|[?|[]]].
Qed.

Lemma secrets_ok_iff auto a s : validate_secrets auto a s = Ok tt <-> secrets_ok auto a s.
Proof.
  unfold validate_secrets. rewrite !bind_ok, !fits_ok. checks.
  assert (forall p q : bool, negb auto && (p || q) = negb auto && p || negb auto && q) as Hd by (intros [] []; by destruct auto).
  split.
  - intros ([Hu Hp] & [Hu' Hp'] & Ha & Hs & Hf1 & Hf2 & Hf3).
    assert ((negb auto && IsAutoGenerate (ad_Password a)) = false /\ (negb auto && IsAutoGenerate (sp_Password s)) = false) as [H1 H2].
    { destruct auto; [done|]. cbn. destruct Ha as [|[]]; [done|by split]. }
    split; [|split|apply secret_ok_iff; by split|by split_and!].
    + split; [done|]. by apply bd_false in Hu'.
    + done.
    + apply secret_ok_iff; by split.
  - intros [[H1 H2] [H3 H4] H5 (H6 & H7 & H8)]. apply secret_ok_iff in H4 as [H4 H4'], H5 as [H5 H5'].
    split_and!; try done; [by apply bd_false|]. destruct auto; [by left|]. right. by split.
Qed.

Lemma dur_err_false s : dur_err s = false <-> duration_ok s.
Proof. apply bd_false. Qed.

Lemma dispatcher_ok_iff d : validate_dispatcher d = Ok tt <-> dispatcher_ok d.
Proof.
  unfold validate_dispatcher. checks. rewrite !dur_err_false. split.
  - intros (? & ? & ? & ?). split; [lia|]. rewrite !Forall_cons, Forall_nil. tauto.
  - intros [Hc Ht]. rewrite !Forall_cons in Ht. destruct Ht as (? & ? & ? & _). split; [lia|tauto].
Qed.

Lemma proxy_ok_iff s : validate_proxy s = Ok tt <-> proxy_ok s.
Proof. unfold validate_proxy, proxy_ok. destruct (ParsePrefix s); checks; naive_solver. Qed.

Lemma window_ok_iff route w : validateTimeWindow route w = Ok tt <-> window_ok w.
Proof.
  unfold validateTimeWindow, window_ok. checks. do 2 f_equiv. apply Forall_proper; [|done]. intros day. by checks.
Qed.

Lemma cdr_ok_iff c : validateCDR c = Ok tt <-> (cd_Enabled c = true -> cdr_ok c).
Proof.
  unfold validateCDR. destruct (cd_Enabled c); cbn [negb]; [|by split]. checks. split.
  - intros (Hd & Hm & Hr & Ha & Hb & Hf & He & Hi) _. split; [done| |lia| |].
    + rewrite !list_elem_of_In. cbn. split; [destruct Hm as [[|]|]|destruct Hf as [[|]|]]; auto.
    + destruct Ha as [|Ha]; [by left|right]. destruct (ParseDuration (cd_MaxAge c)); [|done]. eexists. split; [done|lia].
    + destruct Hi as [|Hi]; [by left|right]. destruct (ParseDuration (cd_FsyncInterval c)); [|done]. eexists. split; [done|lia].
  - intros H. destruct H as [Hd [Hm Hf] Hr Ha Hi]; [done|]. rewrite list_elem_of_In in Hm, Hf. cbn in Hm, Hf. split_and!; try lia; try done.
    + naive_solver.
    + destruct Ha as [|(d & -> & ?)]; [by left|right]. lia.
    + naive_solver.
    + destruct Hi as [|(d & -> & ?)]; [by left|right]. lia.
Qed.

Lemma validTONNPI_iff v auto : validTONNPI v auto = true <-> (if auto then -1 <= v <= 6 else 0 <= v <= 6).
Proof. unfold validTONNPI. destruct auto; cbn [andb]; [destruct (Z.eqb_spec v (-1))|]; split; intros; try done; lia. Qed.

Lemma validIDFormat_iff s : validIDFormat s = true <-> s ∈ ["auto"; "dec"; "hex"].
Proof. unfold validIDFormat. checks. rewrite list_elem_of_In. cbn. split; [intros [[|]|]|intros [|[|[|[]]]]]; auto. Qed.

(** Three words, tested one after the other. *)
Lemma one_of_three (s a b c : string) :
  (negb (bool_decide (s = a)) && negb (bool_decide (s = b)) && negb (bool_decide (s = c))) = false <-> s ∈ [a; b; c].
Proof. checks. rewrite list_elem_of_In. cbn. split; [intros [[|]|]|intros [|[|[|[]]]]]; auto. Qed.

Lemma one_of_two (s a b : string) :
  (negb (bool_decide (s = a)) && negb (bool_decide (s = b))) = false <-> s ∈ [a; b].
Proof. checks. rewrite list_elem_of_In. cbn. split; [intros [|]|intros [|[|[]]]]; auto. Qed.

Section parts.
Context (range : list (string * string) -> list (string * string)) (Hrange : forall l, range l ≡ₚ l).

Lemma smpp_client_ok_iff name c : validateSMPPClientConfig range name c = Ok tt <-> smpp_client_ok c.
Proof.
  unfold validateSMPPClientConfig. rewrite !bind_ok, !fail_if_ok, for_each_ok, Hrange, !Forall_cons, Forall_nil. cbn [fst snd].
  rewrite !fail_if_ok, !dur_err_false, one_of_three, one_of_three, !one_of_two, !negb_false_iff, !validTONNPI_iff, !validIDFormat_iff.
  rewrite !bd_false. split.
  - intros (Hm & Hx & Hb & Hw & Ht & (H1 & H2 & H3 & _) & Hs & Hn & Hd & He & Hr & Hg & Hl & Hi & Hj & Hk & Htls).
    split; try done; try lia; try (by split_and!).
    rewrite list_elem_of_In in Hm. destruct Hm as [? |[?|[]]]; [by split|congruence].
  - intros [[Hm Ht] ? (? & ? & ?) [? ?] [? ?] ? ? ? (? & ? & ?)]. rewrite Hm, Ht. split_and!; try done; try lia. by left.
Qed.

Lemma provider_protocol_ok_iff auto p : validateProviderProtocol range p auto = Ok tt <-> protocol_ok auto p.
Proof.
  unfold validateProviderProtocol, protocol_ok. destruct (protocol_is p "" || protocol_is p "mock").
  { rewrite fail_if_ok, bd_false. symmetry. apply eq_None_not_Some. }
  destruct (protocol_is p "http" || protocol_is p "https").
  { rewrite bind_ok, !fail_if_ok, !bd_false. by rewrite <- eq_None_not_Some. }
  destruct (protocol_is p "smpp"); [|split; [done|by intros []]]. destruct (pv_SMPP p) as [c|]; [|split; [done|by intros (_ & ? & ? & _)]].
  rewrite !bind_ok, !wrap_ok, !fits_ok, smpp_client_ok_iff, !fail_if_ok, negb_false_iff, bd_true, !bd_false. unfold isPlaceholder.
  rewrite bd_false. split.
  - intros (He & Hh & Hr & Hs & Hp & Hpl & Hf1 & Hf2 & Hf3 & Hc). split; [done|]. exists c. split; [done|]. split; try done.
    destruct (SplitHostPort (pv_Endpoint p)) as [[host port]|]; [|done]. exists host, port.
    apply orb_false_iff in Hh as [H1%bd_false H2%bd_false]. done.
  - intros (_ & c' & [= <-] & [(host & port & Hh & H1 & H2) Hr (Hs & Hp & Hpl) (Hf1 & Hf2 & Hf3) Hc]). split_and!; try done.
    + intros E. by rewrite E in Hh.
    + rewrite Hh. by rewrite orb_false_iff, !bd_false.
Qed.
End parts.

Section filter_rules.
Context (regexp_Compile : string -> option regex).

Lemma filter_rule_ok_iff rule :
  validateFilterRule regexp_Compile rule = Ok tt
  <-> fr_Enabled rule = Some false \/ filter_rule_ok (fun s => regexp_Compile s <> None) rule.
Proof.
  unfold validateFilterRule. case_bool_decide as E; [by split; [left|]|]. rewrite !bind_ok, !fail_if_ok, !negb_false_iff, bd_true, !bd_false.
  split.
  - intros (Hn & Hv & Ha & Hs & Ht & Hr). right. split; [done|done| | |].
    + apply andb_false_iff in Hs as [Hs|Hs]; apply bd_false in Hs; auto.
    + intros Htag. by apply andb_false_iff in Ht as [Ht|Ht]; apply bd_false in Ht.
    + apply andb_false_iff in Hr as [Hr|Hr]; [left; by apply negb_false_iff, bd_true in Hr|right]. by destruct (regexp_Compile _).
  - intros [?|[Hv Ha Hs Ht Hr]]; [done|]. split_and!; try done.
    + intros En. by rewrite En in Hv.
    + apply andb_false_iff. rewrite !bd_false. tauto.
    + apply andb_false_iff. rewrite !bd_false. destruct (decide (ToLowerTrim (fr_Action rule) = "tag")); auto.
    + apply andb_false_iff. rewrite negb_false_iff, bd_true. destruct Hr as [?|Hr]; [by left|right]. by destruct (regexp_Compile _).
Qed.

Lemma filter_ok_iff cfg : validateFilter regexp_Compile cfg = Ok tt <-> filter_ok (fun s => regexp_Compile s <> None) cfg.
Proof.
  unfold validateFilter, filter_ok. destruct (fc_Enabled cfg); cbn [negb]; [|by split]. rewrite for_each_ok.
  setoid_rewrite filter_rule_ok_iff. tauto.
Qed.
End filter_rules.

Lemma outbound_ok_iff rule : validate_outbound rule = Ok tt <-> outbound_ok rule.
Proof.
  assert (forall m v, mapsTo m v = true <-> exists k, m !! k = Some v) as Hm.
  { intros m v. unfold mapsTo. rewrite existsb_exists. split.
    - intros ([k x] & Hin & Hv). apply bd_true in Hv. cbn in Hv. subst x. exists k.
      by apply list_elem_of_In, elem_of_map_to_list in Hin.
    - intros [k Hk]. exists (k, v). split; [by apply list_elem_of_In, elem_of_map_to_list|by apply bd_true]. }
  unfold validate_outbound, outbound_ok. rewrite bind_ok, !fail_if_ok, bd_false, orb_false_iff, !negb_false_iff, !Hm. done.
Qed.

(** ** Loops with the names seen *)

Lemma bind_check_val {A} (m : check) (k : res cfg_err A) a : (m ≫= fun _ => k) = Ok a <-> m = Ok tt /\ k = Ok a.
Proof. destruct m as [[]|]; cbn; split; try done; by intros []. Qed.

(** Adding a name to the set seen, in a list without duplicates. *)
Lemma nodup_seen {A} (f : A -> string) (key : string -> string) x l (seen : gset string) :
  (forall a b, key a = key b -> a = b) ->
  (NoDup (f <$> l) /\ Forall (fun y => key (f y) ∉ ({[key (f x)]} ∪ seen : gset string)) l) /\ key (f x) ∉ seen
  <-> NoDup (f <$> x :: l) /\ Forall (fun y => key (f y) ∉ seen) (x :: l).
Proof.
  intros Hinj. cbn. rewrite NoDup_cons, Forall_cons, list_elem_of_fmap, !Forall_forall. split.
  - intros [[Hd Hl] Hx]. split_and!; try done.
    + intros (y & E & Hy). apply (Hl y Hy). rewrite E. set_solver.
    + intros y Hy. specialize (Hl y Hy). set_solver.
  - intros [[Hx Hd] [Hk Hl]]. split_and!; try done. intros y Hy [E%elem_of_singleton|Hs]%elem_of_union.
    + apply Hinj in E. apply Hx. by exists y.
    + by apply (Hl y Hy).
Qed.

Lemma provider_key_inj a b : provider_key a = provider_key b -> a = b.
Proof. unfold provider_key. apply (inj (String.append "provider:")). Qed.

(** A reference that is empty or names something seen. *)
Lemma reference_ok (t : string) (seen : gset string) (names : list string) :
  (forall n, n ∈ seen <-> n ∈ names) ->
  (negb (bool_decide (t = "")) && negb (bool_decide (t ∈ seen))) = false <-> t = "" \/ t ∈ names.
Proof. intros Hs. by rewrite andb_false_iff, !negb_false_iff, !bd_true, Hs. Qed.

Section provider_loop.
Context (range : list (string * string) -> list (string * string)) (Hrange : forall l, range l ≡ₚ l).

Definition enabled_names (ps : list ProviderConfig) : gset string := list_to_set (pv_Name <$> filter (fun p => pv_Enabled p = true) ps).

Lemma providers_loop_ok auto ps names enabled names' enabled' :
  providers_loop range auto ps names enabled = Ok (names', enabled') <->
  (NoDup (pv_Name <$> ps) /\ Forall (fun p => provider_key (pv_Name p) ∉ names) ps) /\ Forall (provider_ok auto) ps
  /\ names' = list_to_set (provider_key ∘ pv_Name <$> ps) ∪ names /\ enabled' = enabled_names ps ∪ enabled.
Proof.
  unfold enabled_names. revert names enabled. induction ps as [|p ps IH]; intros names enabled; cbn [providers_loop].
  { cbn. rewrite !union_empty_l_L. split; [intros [= <- <-]; by repeat constructor|by intros (_ & _ & -> & ->)]. }
  rewrite !bind_check_val, IH, !fail_if_ok, (provider_protocol_ok_iff range Hrange), !bd_false.
  rewrite <- (nodup_seen pv_Name provider_key p ps names provider_key_inj). rewrite Forall_cons.
  assert ((list_to_set (provider_key ∘ pv_Name <$> p :: ps) : gset string) ∪ names
    = list_to_set (provider_key ∘ pv_Name <$> ps) ∪ ({[provider_key (pv_Name p)]} ∪ names)) as -> by (cbn; set_solver).
  assert ((list_to_set (pv_Name <$> filter (fun p => pv_Enabled p = true) (p :: ps)) : gset string) ∪ enabled
    = list_to_set (pv_Name <$> filter (fun p => pv_Enabled p = true) ps) ∪ (if pv_Enabled p then {[pv_Name p]} ∪ enabled else enabled)) as ->.
  { rewrite filter_cons. destruct (pv_Enabled p); [rewrite decide_True by done; cbn|rewrite decide_False by done]; set_solver. }
  assert (provider_ok auto p <-> pv_Name p <> "" /\ (pv_HTTPTimeoutMS p <? 0) = false
    /\ ((pr_TPS (pv_RateLimit p) <? 0) || (pr_Burst (pv_RateLimit p) <? 0) || (pr_TimeoutMS (pv_RateLimit p) <? 0)) = false
    /\ (negb auto && IsAutoGenerate (pv_Password p)) = false /\ protocol_ok auto p) as ->; [|tauto].
  assert ((negb auto && IsAutoGenerate (pv_Password p)) = false <-> (auto = false -> pv_Password p <> AutoGenerateSecret)) as ->.
  { unfold IsAutoGenerate. destruct auto; cbn; rewrite ?bd_false; naive_solver. }
  rewrite !orb_false_iff, !Z.ltb_ge. split; [intros []; tauto|]. intros (? & ? & ? & ? & ?). split; try done. tauto.
Qed.
End provider_loop.

Section loops.
Context (LoadLocation : string -> bool).

Lemma tenants_loop_ok ts names names' :
  tenants_loop LoadLocation ts names = Ok names' <->
  (NoDup (tn_TenantID <$> ts) /\ Forall (fun t => tn_TenantID t ∉ names) ts) /\ Forall (tenant_ok LoadLocation) ts
  /\ names' = list_to_set (tn_TenantID <$> ts) ∪ names.
Proof.
  revert names. induction ts as [|t ts IH]; intros names; cbn [tenants_loop].
  { cbn. rewrite !union_empty_l_L. split; [intros [= <-]; by repeat constructor|by intros (_ & _ & ->)]. }
  rewrite !bind_check_val, IH, !fail_if_ok, !bd_false.
  rewrite <- (nodup_seen tn_TenantID id t ts names (fun _ _ => id)). rewrite Forall_cons. unfold id.
  assert ((list_to_set (tn_TenantID <$> t :: ts) : gset string) ∪ names
    = list_to_set (tn_TenantID <$> ts) ∪ ({[tn_TenantID t]} ∪ names)) as -> by (cbn; set_solver).
  assert (tenant_ok LoadLocation t <-> tn_TenantID t <> ""
    /\ (negb (validName (tn_TenantID t)) || (64 <? slen (tn_TenantID t))%nat) = false
    /\ ((tl_TPS (tn_Limits t) <? 0) || (tl_Burst (tn_Limits t) <? 0) || (tl_DailySegments (tn_Limits t) <? 0)) = false
    /\ ((tl_TPS (tn_Limits t) =? 0) && (0 <? tl_Burst (tn_Limits t))) = false
    /\ (negb (bool_decide (tl_Timezone (tn_Limits t) = "")) && negb (LoadLocation (tl_Timezone (tn_Limits t)))) = false) as ->; [|tauto].
  rewrite !orb_false_iff, !andb_false_iff, !negb_false_iff, !Z.ltb_ge, Z.eqb_neq, Nat.ltb_ge, bd_true. split.
  - intros [[] ? ? ?]. split_and!; try done; try lia. intros E. by rewrite E in *.
  - intros (? & ? & ? & ? & ?). split; try done; lia.
Qed.

Lemma esmes_loop_ok auto (tenants : list string) (tset : gset string) es names :
  (forall t, t ∈ tset <-> t ∈ tenants) ->
  esmes_loop auto tset es names = Ok tt <->
  (NoDup (em_SystemID <$> es) /\ Forall (fun m => em_SystemID m ∉ names) es) /\ Forall (esme_ok auto tenants) es.
Proof.
  intros Ht. revert names. induction es as [|m es IH]; intros names; cbn [esmes_loop].
  { split; [intros _; by repeat constructor|done]. }
  rewrite !bind_ok, wrap_ok, !fits_ok, IH, !fail_if_ok, !bd_false.
  rewrite <- (nodup_seen em_SystemID id m es names (fun _ _ => id)). rewrite Forall_cons. unfold id.
  assert (esme_ok auto tenants m <-> em_SystemID m <> "" /\ em_Password m <> "" /\ isPlaceholder (em_Password m) = false
    /\ (negb auto && IsAutoGenerate (em_Password m)) = false /\ fits auto SMPPMaxSystemID (em_SystemID m)
    /\ fits auto SMPPMaxPassword (em_Password m)
    /\ (negb (bool_decide (em_TenantID m = "")) && negb (bool_decide (em_TenantID m ∈ tset))) = false) as ->; [|tauto].
  rewrite (reference_ok _ _ _ Ht). split.
  - intros [[? ?] (? & [? ?]%secret_ok_iff & ?) ?]. tauto.
  - intros (? & ? & ? & ? & ? & ? & ?). split; [done| |done]. split_and!; try done. by apply secret_ok_iff.
Qed.

Lemma clients_loop_ok auto (tenants : list string) (tset : gset string) cs names :
  (forall t, t ∈ tset <-> t ∈ tenants) ->
  clients_loop auto tset cs names = Ok tt <->
  (NoDup (ca_ClientID <$> cs) /\ Forall (fun c => ca_ClientID c ∉ names) cs) /\ Forall (client_ok auto tenants) cs.
Proof.
  intros Ht. revert names. induction cs as [|c cs IH]; intros names; cbn [clients_loop].
  { split; [intros _; by repeat constructor|done]. }
  rewrite !bind_ok, IH, !fail_if_ok, !bd_false.
  rewrite <- (nodup_seen ca_ClientID id c cs names (fun _ _ => id)). rewrite Forall_cons. unfold id.
  assert (client_ok auto tenants c <-> ca_ClientID c <> "" /\ (ca_Enabled c && bool_decide (ca_Token c = "")) = false
    /\ isPlaceholder (ca_Token c) = false /\ (negb auto && IsAutoGenerate (ca_Token c)) = false
    /\ (negb (bool_decide (ca_TenantID c = "")) && negb (bool_decide (ca_TenantID c ∈ tset))) = false) as ->; [|tauto].
  rewrite (reference_ok _ _ _ Ht). split.
  - intros [? [Htok [? ?]%secret_ok_iff] ?]. split_and!; try done. destruct (ca_Enabled c); [|done]. apply bd_false, Htok. done.
  - intros (? & Htok & ? & ? & ?). split; [done| |done]. split; [|by apply secret_ok_iff]. intros E. rewrite E in Htok. by apply bd_false in Htok.
Qed.
End loops.
