(* ===== verification/ConfigWhole.v ===== *)
(** * Validation as a whole

    [validate] returns no error exactly on the configurations of [config_ok], and
    what follows for the components that read a configuration. *)

From S2P Require Import Prelude Unicode Num GoTime GoParse Addr Router FilterAC Filter Config ConfigValid ConfigOk.

(** ** Routes *)

Lemma prefix_loop_ok r prefixes seen seen' :
  prefix_loop r prefixes seen = Ok seen' <->
  let key o := (ow_prefix o, ow_provider o, ow_priority o) in
  let keys := (fun p => (p, rt_Provider r, rt_Priority r)) <$> prefixes in
  seen' = seen ++ ((fun p => mkOwner (rt_Name r) p (rt_Provider r) (rt_Priority r)) <$> prefixes)
  /\ NoDup keys /\ Forall (fun k => k ∉ key <$> seen) keys.
Proof.
  cbn zeta. revert seen. induction prefixes as [|p prefixes IH]; intros seen; cbn [prefix_loop].
  { cbn. rewrite app_nil_r. split; [intros [= <-]; by repeat constructor|by intros (-> & _)]. }
  destruct (list_find _ seen) as [[i o]|] eqn:Ef.
  - split; [done|]. apply list_find_Some in Ef as (Hi & (Hp & Hv & Hq) & _).
    intros (_ & _ & Hk). apply Forall_cons in Hk as [Hk _]. destruct Hk. apply list_elem_of_fmap. exists o.
    split; [by rewrite Hp, Hv, Hq|by apply list_elem_of_lookup_2 in Hi].
  - rewrite IH, !fmap_cons, NoDup_cons, Forall_cons, fmap_app. cbn [fmap list_fmap]. cbn [ow_prefix ow_provider ow_priority].
    rewrite <- app_assoc. cbn [app]. rewrite !Forall_forall. apply list_find_None in Ef. rewrite Forall_forall in Ef.
    setoid_rewrite elem_of_app. setoid_rewrite list_elem_of_singleton. split.
    + intros (-> & Hd & Hk). split_and!; try done.
      * intros Hin. apply (Hk _ Hin). by right.
      * intros (o & E & Ho)%list_elem_of_fmap. injection E as E1 E2 E3. by apply (Ef o Ho).
      * intros k Hin Hs. apply (Hk k Hin). by left.
    + intros (-> & [Hn Hd] & Hx & Hk). split_and!; try done. intros k Hin [Hs|Hs]; [by apply (Hk k Hin)|by subst k].
Qed.

Lemma prefixes_loop_ok routes seen :
  prefixes_loop routes seen = Ok tt <->
  let key o := (ow_prefix o, ow_provider o, ow_priority o) in
  NoDup (route_keys routes) /\ Forall (fun k => k ∉ key <$> seen) (route_keys routes).
Proof.
  cbn zeta. revert seen. induction routes as [|r routes IH]; intros seen; cbn [prefixes_loop route_keys mbind list_bind].
  { split; [intros _; by repeat constructor|done]. }
  rewrite bind_val_ok. fold (route_keys routes). rewrite NoDup_app, Forall_app. split.
  - intros (seen' & (-> & Hd & Hk)%prefix_loop_ok & [Hd' Hk']%IH). rewrite fmap_app, <- list_fmap_compose in Hk'.
    rewrite Forall_forall in Hk'. split; [split_and!; try done|split; [done|]].
    + intros k Hk1 Hk2. apply (Hk' k Hk2), elem_of_app. by right.
    + apply Forall_forall. intros k Hk1 Hs. apply (Hk' k Hk1), elem_of_app. by left.
  - intros [(Hd & Hx & Hd') [Hk Hk']]. eexists. split; [by apply prefix_loop_ok|]. apply IH. split; [done|].
    rewrite fmap_app, <- list_fmap_compose. rewrite Forall_forall in *. intros k Hk1 [Hs|Hs]%elem_of_app; [by apply (Hk' k Hk1)|].
    by apply (Hx k Hs).
Qed.

Lemma route_prefixes_ok routes : validateRoutePrefixes routes = Ok tt <-> NoDup (route_keys routes).
Proof.
  unfold validateRoutePrefixes. rewrite prefixes_loop_ok. cbn zeta. split; [by intros []|]. intros H. split; [done|].
  apply Forall_forall. intros k _. apply not_elem_of_nil.
Qed.

Lemma Forall_opt_name P (n : string) : Forall P (if bool_decide (n = "") then [] else [n]) <-> n = "" \/ P n.
Proof.
  destruct (decide (n = "")) as [-> |E]; [rewrite bool_decide_eq_true_2 by done; by split; [left|]|].
  rewrite bool_decide_eq_false_2 by done. rewrite Forall_cons, Forall_nil. naive_solver.
Qed.

Lemma unless_empty_ok (s : string) (b : bool) : (negb (bool_decide (s = "")) && negb b) = false <-> s = "" \/ b = true.
Proof. by rewrite andb_false_iff, !negb_false_iff, bd_true. Qed.

Section names.
Context (names : gset string) (providers : list string).
Hypothesis Hnames : forall n, provider_key n ∈ names <-> n ∈ providers.

Lemma validate_route_ok r : validate_route names r = Ok tt <-> route_ok providers r.
Proof using Hnames.
  unfold validate_route. rewrite !bind_ok, !for_each_ok, !fail_if_ok, !bd_false, !negb_false_iff, bd_true.
  assert (Forall (fun wp => (_ ← fail_if (bool_decide (wp_Provider wp = "")) (Errorf "route %q weighted provider is required" [rt_Name r]);
          _ ← fail_if (wp_Weight wp <=? 0) (Errorf "route %q weighted provider %q weight must be > 0" [rt_Name r; wp_Provider wp]);
          fail_if (negb (bool_decide (provider_key (wp_Provider wp) ∈ names)))
            (Errorf "route %q references unknown weighted provider %q" [rt_Name r; wp_Provider wp])) = Ok tt) (rt_Weighted r)
    <-> Forall (fun wp => wp_Provider wp <> "" /\ 0 < wp_Weight wp) (rt_Weighted r) /\ Forall (fun n => n ∈ providers) (wp_Provider <$> rt_Weighted r)) as ->.
  { rewrite Forall_fmap, <- Forall_and. apply Forall_proper; [|done]. intros wp. unfold compose.
    rewrite !bind_ok, !fail_if_ok, negb_false_iff, bd_true, bd_false, Hnames, Z.leb_gt. tauto. }
  assert (Forall (fun n => fail_if (negb (bool_decide (provider_key n ∈ names)))
      (Errorf "route %q references unknown failover provider %q" [rt_Name r; n]) = Ok tt) (rt_Failover r)
    <-> Forall (fun n => n ∈ providers) (rt_Failover r)) as ->.
  { apply Forall_proper; [|done]. intros n. by rewrite fail_if_ok, negb_false_iff, bd_true, Hnames. }
  assert (forall f l, Forall (fun p => fail_if (negb (validPrefix p)) (Errorf f [rt_Name r; p]) = Ok tt) l
    <-> Forall (fun p => validPrefix p = true) l) as Hpre.
  { intros f l. apply Forall_proper; [|done]. intros p. by rewrite fail_if_ok, negb_false_iff. }
  rewrite !Hpre, !unless_empty_ok, bd_true, Hnames. assert (Forall (fun w => validateTimeWindow (rt_Name r) w = Ok tt) (rt_TimeWindows r)
    <-> Forall window_ok (rt_TimeWindows r)) as ->.
  { apply Forall_proper; [|done]. intros w. apply window_ok_iff. }
  split.
  - intros (Hn & Hv & Hp & Hx & [Hw Hwk] & Hfk & Hpk & H1 & H2 & Ht & Hc & Ha & Hs & Hm & Hl).
    split; try done.
    + unfold route_providers. split.
      * intros E. apply app_eq_nil in E as [E1 [E2 E3]%app_eq_nil]. apply fmap_nil_inv in E2. rewrite E2, E3 in Hp.
        destruct (decide (rt_Provider r = "")) as [E|E]; [|by rewrite (bool_decide_eq_false_2 _ E) in E1].
        by rewrite !bool_decide_eq_true_2 in Hp by done.
      * apply andb_false_iff in Hx as [Hx|Hx]; apply negb_false_iff, bd_true in Hx; auto.
    + unfold route_providers. rewrite !Forall_app, Forall_opt_name. by split_and!.
    + by apply Forall_app.
    + rewrite !Forall_cons, Forall_nil. by split_and!.
    + lia.
  - intros [Hv [Hp Hx] Hk Hw Hpre' Ht Hr Hs Hm]. unfold route_providers in *. rewrite !Forall_app, ?Forall_opt_name in *. destruct Hk as (Hk1 & Hk2 & Hk3), Hpre'.
    rewrite !Forall_cons in Hr. destruct Hr as (Hc & Ha & _). split_and!; try done.
    + intros E. by rewrite E in Hv.
    + destruct (decide (rt_Provider r = "")) as [E|E]; [|by rewrite bool_decide_eq_false_2 by done].
      rewrite (bool_decide_eq_true_2 _ E) in *. cbn [andb app] in *. destruct (rt_Weighted r), (rt_Failover r); done.
    + apply andb_false_iff. rewrite !negb_false_iff, !bd_true. done.
    + lia.
    + lia.
Qed.

Lemma validate_inbound_ok auto rule : validate_inbound auto names rule = Ok tt <-> inbound_ok auto providers rule.
Proof using Hnames.
  unfold validate_inbound. set (fld := field (hr_Fields rule)).
  rewrite !bind_ok, !fail_if_ok, !negb_false_iff, !orb_false_iff, !negb_false_iff, !bd_false.
  assert ((negb auto && IsAutoGenerate (hr_AuthToken rule)) = false <-> (auto = false -> hr_AuthToken rule <> AutoGenerateSecret)) as ->.
  { unfold IsAutoGenerate. destruct auto; cbn; rewrite ?bd_false; naive_solver. }
  assert (HasPrefix (hr_Path rule) "/" = true -> hr_Path rule <> "") as Hpath by (intros H E; by rewrite E in H).
  assert (forall k, bool_decide (fld k = "") = false <-> fld k <> "") as Hf by (intros; apply bd_false).
  assert (forall k, bool_decide (fld k = "") = true <-> fld k = "") as Ht by (intros; apply bd_true).
  assert (hr_Name rule = "" -> validName (hr_Name rule) = false) as Hname by (by intros ->).
  split.
  - intros (Hn & Hv & [_ Hp] & Hres & [Ha1 Ha2] & Hauto & Hmap & Hrep). split; try done.
    unfold report_rule. fold fld.
    destruct (bool_decide (fld "provider_id" = "")) eqn:E1, (bool_decide (fld "status" = "")) eqn:E2; cbn [negb orb] in *.
    + right. rewrite andb_true_r, !orb_false_iff in Hmap. destruct Hmap as [[M1 M2] M3]. rewrite !Forall_cons, Forall_nil.
      split_and!; try done; first [by apply Hf|by apply Ht].
    + by rewrite bind_ok, fail_if_ok in Hrep; destruct Hrep.
    + by rewrite bind_ok, fail_if_ok in Hrep; destruct Hrep.
    + left. rewrite !bind_ok, !fail_if_ok, bd_false, negb_false_iff, bd_true, Hnames in Hrep. destruct Hrep as (_ & Hr1 & Hr2).
      split_and!; try done; by apply Hf.
  - intros [Hv [Hp Hres] (Ha1 & Ha2 & Hauto) Hfields]. unfold report_rule in Hfields. fold fld in Hfields. split_and!; try done.
    + intros E. by rewrite (Hname E) in Hv.
    + by apply Hpath.
    + destruct Hfields as [([H1 H2] & _)|(H & H1 & H2)].
      * rewrite (proj2 (Hf _) H1), (proj2 (Hf _) H2). apply andb_false_r.
      * rewrite !Forall_cons in H. destruct H as (M1 & M2 & M3 & _). by rewrite (proj2 (Hf _) M1), (proj2 (Hf _) M2), (proj2 (Hf _) M3).
    + destruct Hfields as [([H1 H2] & H3 & H4)|(_ & H1 & H2)].
      * rewrite (proj2 (Hf _) H1), (proj2 (Hf _) H2). cbn [negb orb]. rewrite !bind_ok, !fail_if_ok, bd_false, negb_false_iff, bd_true, Hnames.
        by split_and!.
      * by rewrite (proj2 (Ht _) H1), (proj2 (Ht _) H2).
Qed.
End names.

(** ** The theorem *)

Lemma provider_keys_names (ps : list ProviderConfig) n :
  provider_key n ∈ (list_to_set (provider_key ∘ pv_Name <$> ps) ∪ ∅ : gset string) <-> n ∈ pv_Name <$> ps.
Proof.
  rewrite union_empty_r_L, elem_of_list_to_set, !list_elem_of_fmap. split.
  - intros (p & E & Hp). apply provider_key_inj in E as ->. by exists p.
  - intros (p & -> & Hp). by exists p.
Qed.

Lemma enabled_names_empty ps : enabled_names ps ∪ ∅ = ∅ <-> Forall (fun p => pv_Enabled p <> true) ps.
Proof.
  rewrite union_empty_r_L. unfold enabled_names. split.
  - intros E. apply Forall_forall. intros p Hp He. apply (not_elem_of_empty (C := gset string) (pv_Name p)).
    rewrite <- E. apply elem_of_list_to_set, list_elem_of_fmap. exists p. split; [done|]. by apply list_elem_of_filter.
  - intros H. assert (filter (fun p => pv_Enabled p = true) ps = []) as ->; [|done].
    induction H as [|p ps Hp _ IH]; [done|]. by rewrite filter_cons_False.
Qed.

Ltac nothing_seen := apply Forall_forall; intros ? _; apply not_elem_of_empty.

Section whole.
Context (LoadLocation : string -> bool) (regexp_Compile : string -> option regex).
Context (range : list (string * string) -> list (string * string)).

(** The checks after the providers. *)
Lemma validate_rest_ok c auto names enabledProviders :
  (_ ← fail_if (negb (bool_decide (c_Providers c = [])) && bool_decide (enabledProviders = ∅)) (Errorf "at least one provider must be enabled" []);
      _ ← for_each (validate_route names) (c_Routes c);
      _ ← validateRoutePrefixes (c_Routes c);
      _ ← validateFilter regexp_Compile (c_Filter c);
      _ ← validateCDR (c_CDR c);
      tenantNames ← tenants_loop LoadLocation (c_Tenants c) ∅;
      _ ← esmes_loop auto tenantNames (c_ESMEs c) ∅;
      _ ← clients_loop auto tenantNames (c_Clients c) ∅;
      _ ← for_each (validate_inbound auto names) (c_Inbound c);
      for_each validate_outbound (c_Outbound c)) = Ok tt <->
    (negb (bool_decide (c_Providers c = [])) && bool_decide (enabledProviders = (∅ : gset string))) = false
    /\ Forall (fun x => validate_route names x = Ok tt) (c_Routes c) /\ NoDup (route_keys (c_Routes c))
    /\ filter_ok (fun s => regexp_Compile s <> None) (c_Filter c) /\ (cd_Enabled (c_CDR c) = true -> cdr_ok (c_CDR c))
    /\ exists tn, tenants_loop LoadLocation (c_Tenants c) ∅ = Ok tn
       /\ esmes_loop auto tn (c_ESMEs c) ∅ = Ok tt /\ clients_loop auto tn (c_Clients c) ∅ = Ok tt
       /\ Forall (fun x => validate_inbound auto names x = Ok tt) (c_Inbound c) /\ Forall (fun x => validate_outbound x = Ok tt) (c_Outbound c).
Proof.
  rewrite 5!bind_ok, fail_if_ok, for_each_ok, route_prefixes_ok, filter_ok_iff, cdr_ok_iff, bind_val_ok.
    do 5 f_equiv. apply exist_proper. intros tn. f_equiv. rewrite 3!bind_ok, !for_each_ok. done.
Qed.

Lemma validate_correct c auto :
  (forall l, range l ≡ₚ l) ->
  validate LoadLocation regexp_Compile range c auto = Ok tt
  <-> config_ok auto LoadLocation (fun s => regexp_Compile s <> None) c.
Proof.
  intros Hrange. unfold validate.
  rewrite 5!bind_ok, storage_ok_iff, secrets_ok_iff, dispatcher_ok_iff, for_each_ok, fail_if_ok, bind_val_ok.
  assert (Hrest := validate_rest_ok c auto).
  split.
  - intros (Hst & Hse & Ha & Hd & Hp & [names en] & (Hnd & Hpk & -> & ->)%(providers_loop_ok range Hrange) & Hr).
    apply Hrest in Hr as (He & Hrt & Hrk & Hf & Hc & tn & (Ht & Htk & ->)%tenants_loop_ok & Hes & Hcl & Hin & Hout).
    assert (forall t, t ∈ (list_to_set (tn_TenantID <$> c_Tenants c) ∪ ∅ : gset string) <-> t ∈ tn_TenantID <$> c_Tenants c) as Hts.
    { intros t. by rewrite union_empty_r_L, elem_of_list_to_set. }
    apply (esmes_loop_ok _ _ _ _ _ Hts) in Hes as [[Hes _] Hes']. apply (clients_loop_ok _ _ _ _ _ Hts) in Hcl as [[Hcl _] Hcl'].
    split; try done; try tauto.
    + apply andb_false_iff in Ha as [Ha|Ha]; [|right; right; by apply bd_false in Ha].
      apply andb_false_iff in Ha as [Ha|Ha]; apply negb_false_iff, bd_true in Ha; auto.
    + eapply Forall_impl; [exact Hp|]. intros s. apply proxy_ok_iff.
    + apply andb_false_iff in He as [He|He]; [left; by apply negb_false_iff, bd_true in He|right].
      apply bd_false in He. rewrite enabled_names_empty in He. apply not_Forall_Exists in He; [|intros p; apply _].
      eapply Exists_impl; [exact He|]. intros p Hn. cbn in Hn. destruct (pv_Enabled p); [done|]. by destruct Hn.
    + eapply Forall_impl; [exact Hrt|]. intros r. apply validate_route_ok. intros n. apply provider_keys_names.
    + eapply Forall_impl; [exact Hin|]. intros r. apply validate_inbound_ok. intros n. apply provider_keys_names.
    + eapply Forall_impl; [exact Hout|]. intros r. apply outbound_ok_iff.
  - intros [? ? ? ? ? ? ? Hen]. assert (forall t, t ∈ (list_to_set (tn_TenantID <$> c_Tenants c) ∪ ∅ : gset string) <-> t ∈ tn_TenantID <$> c_Tenants c) as Hts.
    { intros t. by rewrite union_empty_r_L, elem_of_list_to_set. }
    split_and!; try done.
    + apply andb_false_iff. rewrite andb_false_iff, !negb_false_iff, !bd_true, bd_false. tauto.
    + eapply Forall_impl; [eassumption|]. intros s. apply proxy_ok_iff.
    + eexists (_, _). split; [apply (providers_loop_ok range Hrange); split_and!; try done; nothing_seen|].
      apply Hrest. split_and!; try done.
      * apply andb_false_iff. rewrite negb_false_iff, bd_true, bd_false, enabled_names_empty.
        destruct Hen as [|He]; [by left|right]. intros Hn. rewrite Forall_forall in Hn. apply Exists_exists in He as (p & Hp & He).
        by apply (Hn p Hp).
      * eapply Forall_impl; [eassumption|]. intros r. apply validate_route_ok. intros n. apply provider_keys_names.
      * eexists. split; [apply tenants_loop_ok; split_and!; try done; nothing_seen|].
        split_and!.
        -- apply (esmes_loop_ok _ _ _ _ _ Hts). split_and!; try done. nothing_seen.
        -- apply (clients_loop_ok _ _ _ _ _ Hts). split_and!; try done. nothing_seen.
        -- eapply Forall_impl; [eassumption|]. intros r. apply validate_inbound_ok. intros n. apply provider_keys_names.
        -- eapply Forall_impl; [eassumption|]. intros r. apply outbound_ok_iff.
Qed.

(** C23: The validation of a configuration succeeds exactly on the configurations
    of config_ok: names of providers, tenants, accounts and clients and the
    prefixes of routes unique, the providers of routes and callback rules and
    the tenants of accounts declared, secrets set, values within their bounds,
    durations, patterns, addresses and windows readable. That an HTTP provider
    names a rule that exists is not part of it. *)
Theorem validate_iff c auto :
  (forall l, range l ≡ₚ l) ->
  validate LoadLocation regexp_Compile range c auto = Ok tt
  <-> config_ok auto LoadLocation (fun s => regexp_Compile s <> None) c.
Proof. apply validate_correct. Qed.
End whole.

(** ** What the components can rely on *)

(** Normalizing twice is normalizing once. *)
Theorem normalize_idempotent c : Normalize (Normalize c) = Normalize c.
Proof.
  assert (forall s d, or_str (or_str s d) d = or_str s d) as Hs.
  { intros s d. unfold or_str. destruct (decide (s = "")) as [-> |E]; [rewrite (bool_decide_eq_true_2 ("" = "")) by done|rewrite !(bool_decide_eq_false_2 _ E); done].
    by case_bool_decide. }
  assert (forall n d, or_Z (or_Z n d) d = or_Z n d) as Hz.
  { intros n d. unfold or_Z. destruct (Z.eqb_spec n 0) as [-> |E]; [by destruct (Z.eqb_spec d 0)|by rewrite (proj2 (Z.eqb_neq n 0) E)]. }
  assert (forall o, NormalizeSMPPClient (NormalizeSMPPClient o) = NormalizeSMPPClient o) as Hcl.
  { intros o. unfold NormalizeSMPPClient. cbn. by rewrite !Hs, !Hz. }
  unfold Normalize. cbn. rewrite !Hs, !Hz, <- !list_fmap_compose. f_equal.
  - apply list_fmap_ext. intros i r _. unfold normalize_route. cbn. f_equal. rewrite <- list_fmap_compose. apply list_fmap_ext.
    intros j wp _. unfold normalize_weight. cbn. destruct (Z.leb_spec (wp_Weight wp) 0); [done|]. by rewrite (proj2 (Z.leb_gt _ _)).
  - apply list_fmap_ext. intros i p _. unfold normalize_provider. cbn. f_equal. destruct (pv_SMPP p) as [o|]; [|done]. cbn. by rewrite Hcl.
  - apply list_fmap_ext. intros i r _. unfold normalize_inbound. cbn. by rewrite Hs, Hz.
  - apply list_fmap_ext. intros i r _. unfold normalize_outbound. cbn. by rewrite !Hs.
  - unfold normalize_cdr. destruct (cd_Enabled (c_CDR c)) eqn:E; cbn; [by rewrite !Hs, !Hz|by rewrite E].
Qed.

Lemma split_colon_bytes s cur : bytes_of_string <$> split_colon s cur = split_byte 58 (bytes_of_string s) (bytes_of_string cur).
Proof.
  revert cur. induction s as [|a s IH]; intros cur; cbn [split_colon bytes_of_string split_byte]; [done|].
  assert (Ascii.eqb a ":" = (byte_of_ascii a =? 58)) as ->.
  { destruct (Ascii.eqb_spec a ":") as [-> |Hn]; [done|]. symmetry. apply Z.eqb_neq. intros E. apply Hn.
    rewrite <- (ascii_of_byte_of_ascii a), E. done. }
  destruct (byte_of_ascii a =? 58); cbn [fmap list_fmap]; rewrite IH; [done|]. by rewrite bytes_of_string_app.
Qed.

Lemma Split1_colon s : Split1 s 58 = split_colon s "".
Proof.
  unfold Split1. change [] with (bytes_of_string ""). rewrite <- split_colon_bytes, <- list_fmap_compose.
  rewrite <- (list_fmap_id (split_colon s "")) at 2. apply list_fmap_ext. intros i x _. apply string_of_bytes_of_string.
Qed.

Lemma two_digit_atoi rs n d : two_digit_loop rs n = Some d -> atoi_loop rs n = d.
Proof.
  revert n. induction rs as [|r rs IH]; intros n; cbn; [by intros [= ->]|]. destruct (_ || _); [done|]. apply IH.
Qed.

Lemma i64_small z : -9223372036854775808 <= z < 9223372036854775808 -> i64 z = z.
Proof. intros H. unfold i64. rewrite Z.mod_small; lia. Qed.

Lemma parse_clock_clock s d : parseClock s = Some d -> clock s = d /\ 0 <= d < Day.
Proof.
  unfold parseClock, clock. rewrite Split1_colon. destruct (split_colon s "") as [|h [|m [|]]]; try done. cbn.
  unfold parseTwoDigit. destruct (bool_decide (h = "")); [done|]. cbn. destruct (two_digit_loop (runes h) 0) as [hv|] eqn:Eh; [cbn|done].
  destruct ((hv <? 0) || (23 <? hv)) eqn:Rh; [done|]. destruct (bool_decide (m = "")); [done|]. cbn.
  destruct (two_digit_loop (runes m) 0) as [mv|] eqn:Em; [cbn|done]. destruct ((mv <? 0) || (59 <? mv)) eqn:Rm; [done|].
  intros [= <-]. unfold atoi. rewrite (two_digit_atoi _ _ _ Eh), (two_digit_atoi _ _ _ Em).
  assert (0 <= hv <= 23 /\ 0 <= mv <= 59) as [Hh Hm] by lia. unfold Day, Hour, Minute, Second in *.
  rewrite (i64_small (hv * (60 * (60 * 1000000000)))) by lia. rewrite (i64_small (mv * (60 * 1000000000))) by lia.
  rewrite i64_small by lia. lia.
Qed.

Lemma compile_loop_some rc ToLower cfg rules crs patterns regexps :
  Forall (fun rule => fr_Enabled rule = Some false \/ fr_Regex rule = "" \/ rc (fr_Regex rule) <> None) rules ->
  compile_loop ToLower rc cfg rules crs patterns regexps <> None.
Proof.
  revert crs patterns regexps. induction rules as [|rule rules IH]; intros crs patterns regexps H; cbn [compile_loop]; [done|].
  apply Forall_cons in H as [Hr H]. case_bool_decide as E1; [by apply IH|]. case_bool_decide as E2; [by apply IH|].
  destruct Hr as [?|[?|Hr]]; [done|done|]. destruct (rc (fr_Regex rule)); [by apply IH|done].
Qed.

(** A valid configuration never fails its consumers: the filter compiles, time
    windows read back as times of a day, every route has a known provider,
    account names and passwords fit the SMPP fields, and callback rules have
    credentials and paths of their own. *)
Theorem valid_config_usable zone rc c ToLower ord :
  config_ok false zone (fun s => rc s <> None) c ->
  (exists e, Compile ToLower rc ord (c_Filter c) = Ok e)
  /\ Forall (fun r => Forall (fun w => 0 <= clock (tw_Start w) < Day /\ 0 <= clock (tw_End w) < Day
       /\ Forall (fun day => exists d, day_of_name day = Some d) (tw_Days w)) (rt_TimeWindows r)
     /\ exists p, p ∈ route_providers r /\ p ∈ pv_Name <$> c_Providers c) (c_Routes c)
  /\ Forall (fun m => em_SystemID m <> "" /\ em_Password m <> "" /\ (slen (em_SystemID m) <= 15)%nat /\ (slen (em_Password m) <= 8)%nat) (c_ESMEs c)
  /\ Forall (fun r => hr_AuthHeader r <> "" /\ hr_AuthToken r <> "" /\ isReservedHTTPPath (hr_Path r) = false) (c_Inbound c).
Proof.
  intros Hc. split_and!.
  - pose proof (k_filter _ _ _ _ Hc) as Hf. unfold Compile, filter_ok in *. destruct (fc_Enabled (c_Filter c)); cbn [negb]; [|by eexists].
    pose proof (compile_loop_some rc ToLower (fc_Normalize (c_Filter c)) (fc_Rules (c_Filter c)) [] [] []) as H.
    destruct (compile_loop _ _ _ _ _ _ _) as [[[? ?] ?]|]; [by eexists|]. destruct H; [|done].
    eapply Forall_impl; [by apply Hf|]. intros rule [?|[]]; auto.
  - eapply Forall_impl; [apply (k_routes _ _ _ _ Hc)|]. intros r Hr. split.
    + eapply Forall_impl; [apply (rk_windows _ _ Hr)|]. intros w (Hs & He & Hd).
      destruct (parseClock (tw_Start w)) as [s|] eqn:Es; [|done]. destruct (parseClock (tw_End w)) as [e|] eqn:Ee; [|done].
      apply parse_clock_clock in Es as [-> ?], Ee as [-> ?]. split_and!; try lia. eapply Forall_impl; [exact Hd|].
      intros day Hday. cbn in Hday. destruct (day_of_name day); [by eexists|done].
    + destruct (rk_some _ _ Hr) as [Hn _]. pose proof (rk_known _ _ Hr) as Hk. destruct (route_providers r) as [|p ps]; [done|].
      apply Forall_cons in Hk as [Hk _]. exists p. split; [left|done].
  - eapply Forall_impl; [apply (k_esmes _ _ _ _ Hc)|]. intros m [[? Hf] (? & _ & Hf') _]. split_and!; try done.
    + by destruct Hf as [|[]].
    + by destruct Hf' as [|[]].
  - eapply Forall_impl; [apply (k_inbound _ _ _ _ Hc)|]. intros r [_ [_ ?] (? & ? & _) _]. by split_and!.
Qed.

(** ** Examples *)

Definition demo_rate : ProviderRateLimit := mkRateLimit 0 0 0.
Definition demo_http (name rule : string) : ProviderConfig :=
  mkProviderConfig name "http" "http://up.example" rule "" "" true 0 demo_rate None.
Definition demo_route (name provider : string) : RouteConfig :=
  mkRouteConfig name ["86"] provider 1 (mkAddrRewriteConfig false "" "" false) (mkDestAddrConfig None false 0 0 "") None [] [] [] []
    [mkTimeWindow ["Mon"] "08:00" "20:30"] [] [].
Definition demo_outbound (name : string) : HTTPRuleConfig :=
  mkHTTPRule name "" "" "" "" "" "" {["to" := "to"; "msg" := "text"]} ∅ 0 "" (mkResponseParse "" "").

Definition demo_config (outbound : list HTTPRuleConfig) : Config :=
  Normalize
  {| c_Server := c_Server Default; c_SMPP := c_SMPP Default; c_Dispatcher := c_Dispatcher Default;
     c_Tenants := [mkTenantConfig "t1" None (mkTenantLimits 10 0 100 "")]; c_ESMEs := [mkESME "esme1" "secret" "t1" None];
     c_Routes := [demo_route "r1" "up1"]; c_Providers := [demo_http "up1" "rule1"]; c_Inbound := []; c_Outbound := outbound;
     c_Clients := [mkClientAuth "c1" "tok" true "t1" []]; c_TrustedProxies := ["10.0.0.0/8"]; c_Risk := c_Risk Default;
     c_Filter := mkFilterConfig true (mkNormalize true false false) [mkFilterRule "f1" None ["spam"] "" "Block" "" "" 1];
     c_CDR := c_CDR Default; c_Storage := c_Storage Default; c_Admin := mkAdmin "root" "pw" |}.

Lemma validate_iff_witness :
  config_ok false (fun _ => true) (fun s => (fun _ => None : option regex) s <> None) (demo_config [demo_outbound "rule1"]).
Proof.
  apply (validate_iff (fun _ => true) (fun _ => None) id (demo_config [demo_outbound "rule1"]) false).
  - intros l. reflexivity.
  - vm_compute. reflexivity.
Defined.

Lemma valid_config_usable_witness :
  exists e, Compile (fun r => r) (fun _ => None) (fun _ => map_to_list) (c_Filter (demo_config [demo_outbound "rule1"])) = Ok e.
Proof.
  destruct (valid_config_usable (fun _ => true) (fun _ => None) (demo_config [demo_outbound "rule1"]) (fun r => r) (fun _ => map_to_list)) as [H _].
  - apply (validate_correct (fun _ => true) (fun _ => None) id (demo_config [demo_outbound "rule1"]) false).
    + intros l. reflexivity.
    + vm_compute. reflexivity.
  - exact H.
Defined.

(** Hours and minutes are read with overflow. *)
Example clock_wraps : parseClock "18446744073709551616:00" = Some 0.
Proof. vm_compute. reflexivity. Qed.
