(* ===== verification/Float64.v ===== *)
(** * Floating point on whole numbers

    float64 as [SpecFloat] at 53 bits: on whole numbers below [2^53] addition,
    subtraction, multiplication and comparison are exact. *)

From Stdlib Require Import SpecFloat.
From S2P Require Import Prelude GoTime GoParse.

Definition f64_add : f64 -> f64 -> f64 := SFadd 53 1024.
Definition f64_sub : f64 -> f64 -> f64 := SFsub 53 1024.
Definition f64_leb : f64 -> f64 -> bool := SFleb.
Definition f64_ltb : f64 -> f64 -> bool := SFltb.

(** [d.Seconds()]. *)
Definition Seconds (d : duration) : f64 :=
  f64_add (f64_of (Z.quot d Second)) (f64_div (f64_of (Z.rem d Second)) (f64_of Second)).

(** ** Digits and shifts *)

Lemma digits2_log2 p : Zpos (digits2_pos p) = Z.log2 (Zpos p) + 1.
Proof.
  induction p as [p IH|p IH|]; cbn [digits2_pos]; [| |done].
  - rewrite Pos2Z.inj_succ, IH. rewrite (Pos2Z.inj_xI p), Z.log2_succ_double by done. lia.
  - rewrite Pos2Z.inj_succ, IH. rewrite (Pos2Z.inj_xO p), Z.log2_double by done. lia.
Qed.

Lemma iter_xO p d : Zpos (Pos.iter xO p d) = Zpos p * 2 ^ Zpos d.
Proof.
  revert p. induction d as [|d IH] using Pos.peano_ind; intros p; [cbn; lia|].
  rewrite Pos.iter_succ, Pos2Z.inj_xO, IH, Pos2Z.inj_succ, Z.pow_succ_r by lia. lia.
Qed.

Lemma shr_1_double m : 0 < m -> shr_1 (Build_shr_record (2 * m) false false) = Build_shr_record m false false.
Proof. by destruct m. Qed.

Lemma iter_shr n m : 0 < m -> SpecFloat.iter_pos shr_1 n (Build_shr_record (m * 2 ^ Zpos n) false false) = Build_shr_record m false false.
Proof.
  revert m. induction n as [n IH|n IH|]; intros m Hm; cbn [SpecFloat.iter_pos].
  - assert (m * 2 ^ Zpos n~1 = 2 * (m * 2 ^ Zpos n * 2 ^ Zpos n)) as ->.
    { replace (Zpos n~1) with (Zpos n + Zpos n + 1) by lia. rewrite !Z.pow_add_r, Z.pow_1_r by lia. ring. }
    rewrite shr_1_double by nia. rewrite !IH by nia. done.
  - assert (m * 2 ^ Zpos n~0 = m * 2 ^ Zpos n * 2 ^ Zpos n) as ->.
    { replace (Zpos n~0) with (Zpos n + Zpos n) by lia. rewrite Z.pow_add_r by lia. ring. }
    rewrite !IH by nia. done.
  - rewrite Z.pow_1_r, Z.mul_comm. by apply shr_1_double.
Qed.

(** ** Canonical values *)

(** [v] as a float: 53 bits of mantissa. *)
Definition canon (v : Z) : f64 :=
  match v with
  | Zpos _ => S754_finite false (Z.to_pos (v * 2 ^ (52 - Z.log2 v))) (Z.log2 v - 52)
  | _ => S754_zero false
  end.

Lemma fexp_normal e : -1021 <= e -> fexp 53 1024 e = e - 53.
Proof. unfold fexp, emin. lia. Qed.

(** A mantissa of 53 bits stays as it is. *)
Lemma round_aux_53 m e :
  Z.log2 (Zpos m) = 52 -> -1000 <= e <= 900 -> binary_round_aux 53 1024 false (Zpos m) e loc_Exact = S754_finite false m e.
Proof.
  intros Hm He. unfold binary_round_aux, shr_fexp. cbn [Zdigits2]. rewrite digits2_log2, Hm, fexp_normal by lia.
  replace (52 + 1 + e - 53 - e) with 0 by lia. cbn [shr shr_record_of_loc loc_of_shr_record round_nearest_even shr_m Zdigits2].
  rewrite digits2_log2, Hm, fexp_normal by lia. replace (52 + 1 + e - 53 - e) with 0 by lia. cbn [shr shr_m].
  by rewrite (proj2 (Z.leb_le e (1024 - 53))) by lia.
Qed.

(** A longer one loses zeros only. *)
Lemma round_aux_exact m k e :
  Z.log2 (Zpos m) = 52 -> -900 <= e -> e + Zpos k <= 900 ->
  binary_round_aux 53 1024 false (Zpos m * 2 ^ Zpos k) e loc_Exact = S754_finite false m (e + Zpos k).
Proof.
  intros Hm He Hk. rewrite <- (round_aux_53 m (e + Zpos k)) by (done || lia).
  unfold binary_round_aux at 1. unfold shr_fexp at 1.
  assert (Z.log2 (Zpos m * 2 ^ Zpos k) = 52 + Zpos k) as Hl by (rewrite Z.log2_mul_pow2 by lia; lia).
  assert (Zdigits2 (Zpos m * 2 ^ Zpos k) = 53 + Zpos k) as ->.
  { destruct (Zpos m * 2 ^ Zpos k) as [|q|q] eqn:E; [lia| |lia]. cbn [Zdigits2]. rewrite digits2_log2, Hl. lia. }
  rewrite fexp_normal by lia. replace (53 + Zpos k + e - 53 - e) with (Zpos k) by lia. cbn [shr shr_record_of_loc].
  rewrite iter_shr by lia. cbn [loc_of_shr_record round_nearest_even shr_m].
  unfold binary_round_aux, shr_fexp. cbn [Zdigits2]. rewrite digits2_log2, Hm, fexp_normal by lia.
  replace (52 + 1 + (e + Zpos k) - 53 - (e + Zpos k)) with 0 by lia.
  cbn [shr shr_record_of_loc loc_of_shr_record round_nearest_even shr_m Zdigits2].
  rewrite digits2_log2, Hm, fexp_normal by lia. replace (52 + 1 + (e + Zpos k) - 53 - (e + Zpos k)) with 0 by lia. done.
Qed.

(** The mantissa of a whole number. *)
Lemma canon_mantissa v : 0 < v < 2 ^ 53 ->
  let m := Z.to_pos (v * 2 ^ (52 - Z.log2 v)) in
  Zpos m = v * 2 ^ (52 - Z.log2 v) /\ Z.log2 (Zpos m) = 52 /\ 0 <= Z.log2 v <= 52.
Proof.
  intros Hv. cbn zeta. assert (0 <= Z.log2 v <= 52) as Hl.
  { split; [apply Z.log2_nonneg|]. assert (Z.log2 v < 53) by (apply Z.log2_lt_pow2; lia). lia. }
  assert (0 < 2 ^ (52 - Z.log2 v)) by (apply Z.pow_pos_nonneg; lia).
  rewrite Z2Pos.id by nia. split; [done|]. rewrite Z.log2_mul_pow2 by lia. lia.
Qed.

(** Rounding a whole number written with [k] zeros more. *)
Lemma round_whole v k : 0 < v < 2 ^ 53 -> 0 <= k <= 800 ->
  binary_normalize 53 1024 (v * 2 ^ k) (- k) false = canon v.
Proof.
  intros Hv Hk. destruct (canon_mantissa v Hv) as (Em & Hm & Hl). set (m := Z.to_pos _) in *.
  assert (0 < 2 ^ k) by (apply Z.pow_pos_nonneg; lia).
  assert (0 < 2 ^ (52 - Z.log2 v)) as H2 by (apply Z.pow_pos_nonneg; lia).
  assert (canon v = S754_finite false m (Z.log2 v - 52)) as -> by (unfold canon; destruct v; done || lia).
  destruct (v * 2 ^ k) as [|p|p] eqn:Ep; [nia| |nia]. cbn [binary_normalize]. unfold binary_round.
  assert (Z.log2 (Zpos p) = Z.log2 v + k) as Hp by (rewrite <- Ep, Z.log2_mul_pow2 by lia; lia).
  rewrite digits2_log2, Hp, fexp_normal by lia. unfold shl_align.
  replace (Z.log2 v + k + 1 + - k - 53 - - k) with (k - (52 - Z.log2 v)) by lia.
  destruct (k - (52 - Z.log2 v)) as [|d|d] eqn:Ed.
  - assert (p = m) as -> by (assert (Zpos p = Zpos m); [rewrite Em, <- Ep; do 2 f_equal; lia|congruence]).
    rewrite round_aux_53 by (done || lia). f_equal. lia.
  - assert (Zpos p = Zpos m * 2 ^ Zpos d) as ->.
    { rewrite Em, <- Ep, <- Z.mul_assoc, <- Z.pow_add_r by lia. do 2 f_equal. lia. }
    rewrite round_aux_exact by (done || lia). f_equal. lia.
  - assert (Pos.iter xO p d = m) as ->.
    { assert (Zpos (Pos.iter xO p d) = Zpos m); [|congruence]. rewrite iter_xO, Em, <- Ep, <- Z.mul_assoc, <- Z.pow_add_r by lia. do 2 f_equal. lia. }
    rewrite round_aux_53 by (done || lia). f_equal. lia.
Qed.

Lemma f64_of_canon v : 0 <= v < 2 ^ 53 -> f64_of v = canon v.
Proof.
  intros Hv. destruct (decide (v = 0)) as [-> |]; [done|]. rewrite <- (round_whole v 0) by lia. unfold f64_of. do 2 f_equal. lia.
Qed.

(** ** Exact operations *)

Lemma shl_align_whole v ez : 0 < v < 2 ^ 53 -> ez <= Z.log2 v - 52 ->
  Zpos (fst (shl_align (Z.to_pos (v * 2 ^ (52 - Z.log2 v))) (Z.log2 v - 52) ez)) = v * 2 ^ (- ez).
Proof.
  intros Hv Hz. destruct (canon_mantissa v Hv) as (Em & _ & Hl). unfold shl_align.
  destruct (ez - (Z.log2 v - 52)) as [|d|d] eqn:Ed; cbn [fst]; [|lia|].
  - rewrite Em. do 2 f_equal. lia.
  - rewrite iter_xO, Em, <- Z.mul_assoc, <- Z.pow_add_r by lia. do 2 f_equal. lia.
Qed.

Lemma canon_pos v : 0 < v -> canon v = S754_finite false (Z.to_pos (v * 2 ^ (52 - Z.log2 v))) (Z.log2 v - 52).
Proof. by destruct v. Qed.

Lemma f64_sub_whole a b : 0 <= b <= a -> a < 2 ^ 53 -> f64_sub (f64_of a) (f64_of b) = f64_of (a - b).
Proof.
  intros Hb Ha. rewrite !f64_of_canon by lia. destruct (decide (b = 0)) as [-> |Hb0].
  { rewrite Z.sub_0_r. destruct (decide (a = 0)) as [-> |]; [done|]. rewrite (canon_pos a) by lia; reflexivity. }
  rewrite (canon_pos a), (canon_pos b) by lia. unfold f64_sub, SFsub. cbn [cond_Zopp].
  destruct (canon_mantissa a) as (_ & _ & Hla); [lia|]. destruct (canon_mantissa b) as (_ & _ & Hlb); [lia|].
  set (ez := Z.min _ _). rewrite !shl_align_whole by lia. rewrite <- Z.mul_sub_distr_r.
  destruct (decide (a = b)) as [-> |]; [by rewrite Z.sub_diag|].
  rewrite <- (round_whole (a - b) (- ez)) by lia. f_equal. lia.
Qed.

Lemma f64_add_whole a b : 0 <= a -> 0 <= b -> a + b < 2 ^ 53 -> f64_add (f64_of a) (f64_of b) = f64_of (a + b).
Proof.
  intros Ha Hb Hs. rewrite !f64_of_canon by lia. destruct (decide (b = 0)) as [-> |Hb0].
  { rewrite Z.add_0_r. destruct (decide (a = 0)) as [-> |]; [done|]. rewrite (canon_pos a) by lia; reflexivity. }
  destruct (decide (a = 0)) as [-> |Ha0]; [rewrite ?Z.add_0_l, ?Z.mul_0_l, (canon_pos b) by lia; reflexivity|].
  rewrite (canon_pos a), (canon_pos b) by lia. unfold f64_add, SFadd. cbn [cond_Zopp].
  destruct (canon_mantissa a) as (_ & _ & Hla); [lia|]. destruct (canon_mantissa b) as (_ & _ & Hlb); [lia|].
  set (ez := Z.min _ _). rewrite !shl_align_whole by lia. rewrite <- Z.mul_add_distr_r.
  rewrite <- (round_whole (a + b) (- ez)) by lia. f_equal. lia.
Qed.

Lemma f64_mul_whole a b : 0 <= a < 2 ^ 53 -> 0 <= b < 2 ^ 53 -> a * b < 2 ^ 53 -> f64_mul (f64_of a) (f64_of b) = f64_of (a * b).
Proof.
  intros Ha Hb Hs. rewrite !f64_of_canon by nia. destruct (decide (b = 0)) as [-> |Hb0].
  { rewrite Z.mul_0_r. destruct (decide (a = 0)) as [-> |]; [done|]. rewrite (canon_pos a) by lia; reflexivity. }
  destruct (decide (a = 0)) as [-> |Ha0]; [rewrite ?Z.add_0_l, ?Z.mul_0_l, (canon_pos b) by lia; reflexivity|].
  rewrite (canon_pos a), (canon_pos b), (canon_pos (a * b)) by nia. unfold f64_mul, SFmul. cbn [xorb].
  destruct (canon_mantissa a) as (Ea & _ & Hla); [lia|]. destruct (canon_mantissa b) as (Eb & _ & Hlb); [lia|].
  destruct (canon_mantissa (a * b)) as (Eab & Hm & Hlab); [nia|]. set (m := Z.to_pos (a * b * _)) in *.
  assert (Z.log2 a + Z.log2 b <= Z.log2 (a * b)) as Hlow by (apply Z.log2_mul_below; lia).
  assert (Z.log2 (a * b) <= Z.log2 a + Z.log2 b + 1) as Hup by (apply Z.log2_mul_above; lia).
  rewrite Pos2Z.inj_mul, Ea, Eb.
  assert (0 < 52 + Z.log2 (a * b) - Z.log2 a - Z.log2 b) as Hk by lia.
  destruct (52 + Z.log2 (a * b) - Z.log2 a - Z.log2 b) as [|k|k] eqn:Ek; [lia| |lia].
  replace (a * 2 ^ (52 - Z.log2 a) * (b * 2 ^ (52 - Z.log2 b))) with (Zpos m * 2 ^ Zpos k).
  2:{ rewrite Eab, <- Z.mul_assoc, <- Z.pow_add_r by lia.
      replace (a * 2 ^ (52 - Z.log2 a) * (b * 2 ^ (52 - Z.log2 b))) with (a * b * (2 ^ (52 - Z.log2 a) * 2 ^ (52 - Z.log2 b))) by ring.
      rewrite <- Z.pow_add_r by lia. do 2 f_equal. lia. }
  rewrite round_aux_exact by (done || lia). f_equal. lia.
Qed.

Lemma f64_compare_whole a b : 0 <= a < 2 ^ 53 -> 0 <= b < 2 ^ 53 -> SFcompare (f64_of a) (f64_of b) = Some (a ?= b).
Proof.
  intros Ha Hb. rewrite !f64_of_canon by lia.
  destruct (decide (a = 0)) as [-> |Ha0], (decide (b = 0)) as [-> |Hb0]; [done| | |].
  - rewrite (canon_pos b) by lia. cbn [canon SFcompare]. f_equal. symmetry. apply Z.compare_lt_iff. lia.
  - rewrite (canon_pos a) by lia. cbn [canon SFcompare]. f_equal. symmetry. apply Z.compare_gt_iff. lia.
  - rewrite (canon_pos a), (canon_pos b) by lia. cbn [SFcompare]. f_equal.
    destruct (canon_mantissa a) as (Ea & _ & Hla); [lia|]. destruct (canon_mantissa b) as (Eb & _ & Hlb); [lia|].
    destruct (Z.compare_spec (Z.log2 a - 52) (Z.log2 b - 52)) as [E|E|E].
    + change (Pos.compare_cont Eq ?x ?y) with (Pos.compare x y). rewrite Pos2Z.inj_compare, Ea, Eb.
      replace (Z.log2 b) with (Z.log2 a) by lia. symmetry. rewrite (Z.mul_comm a), (Z.mul_comm b).
      apply Zmult_compare_compat_l. apply Z.lt_gt, Z.pow_pos_nonneg; lia.
    + symmetry. apply Z.compare_lt_iff, Z.log2_lt_cancel. lia.
    + symmetry. apply Z.compare_gt_iff, Z.log2_lt_cancel. lia.
Qed.

Lemma f64_leb_whole a b : 0 <= a < 2 ^ 53 -> 0 <= b < 2 ^ 53 -> f64_leb (f64_of a) (f64_of b) = (a <=? b).
Proof. intros Ha Hb. unfold f64_leb, SFleb, Z.leb. rewrite f64_compare_whole by done. done. Qed.

Lemma f64_ltb_whole a b : 0 <= a < 2 ^ 53 -> 0 <= b < 2 ^ 53 -> f64_ltb (f64_of a) (f64_of b) = (a <? b).
Proof. intros Ha Hb. unfold f64_ltb, SFltb, Z.ltb. rewrite f64_compare_whole by done. done. Qed.

Lemma Seconds_whole s : 0 <= s < 2 ^ 53 -> Seconds (s * Second) = f64_of s.
Proof.
  intros Hs. unfold Seconds. rewrite Z.quot_mul, Z.rem_mul by done. rewrite !f64_of_canon by (unfold Second; lia).
  destruct (decide (s = 0)) as [-> |]; [done|]. rewrite (canon_pos s) by lia; reflexivity.
Qed.

(** A negative number is not above zero. *)
Lemma round_aux_neg m e l : f64_ltb (f64_of 0) (binary_round_aux 53 1024 true m e l) = false.
Proof.
  unfold binary_round_aux. destruct (shr_fexp 53 1024 m e l) as [r e1]. destruct (shr_fexp 53 1024 _ e1 loc_Exact) as [r' e2].
  destruct (shr_m r'); [done| |done]. by destruct (e2 <=? 1024 - 53).
Qed.

Lemma Seconds_negative s : s <= 0 -> f64_ltb (f64_of 0) (Seconds (s * Second)) = false.
Proof.
  intros Hs. unfold Seconds. rewrite Z.quot_mul, Z.rem_mul by done. change (f64_div (f64_of 0) (f64_of Second)) with (S754_zero false).
  destruct s as [|s|s]; [done|lia|]. unfold f64_of at 2. cbn [binary_normalize]. unfold binary_round. destruct (shl_align _ _ _) as [mz ez].
  pose proof (round_aux_neg (Zpos mz) ez loc_Exact) as H. by destruct (binary_round_aux _ _ _ _ _ _) as [[]|[]| |[]].
Qed.
