(* ===== verification/Tenant.v ===== *)
(** * Tenants: internal/tenant/tenant.go

    Which tenant an account belongs to, and the token bucket that limits its
    rate, in float64 as the code has it. The time zone database is a
    parameter. *)

From S2P Require Import Prelude Unicode Num GoTime GoParse Float64 Addr Router FilterAC Filter Config ConfigValid ConfigOk ConfigWhole.
From S2P Require Import Codec Segment Records Store StoreInv StoreSubmit GatewayId DlrAggregate Dispatch.

(** ** Accounts *)

Section resolver.
Context {Location : Type} (UTC : Location) (LoadLocation : string -> option Location).

(** An identity with its location. *)
Record located := mkLocated {
  lo_identity : Identity;
  lo_Location : Location }.

Record StaticResolver := mkResolver {
  rs_http : gmap string located;
  rs_smpp : gmap string located }.

Definition fallbackIdentity (protocol accountID : string) : located :=
  mkLocated (mkIdentity (protocol +:+ ":" +:+ accountID) accountID true 0 0 0) UTC.

Definition tenant_enabled (t : TenantConfig) : bool := default true (tn_Enabled t).

Definition identityFor (protocol accountID tenantID : string) (tenants : gmap string TenantConfig) : located :=
  if bool_decide (tenantID = "") then fallbackIdentity protocol accountID
  else
    match tenants !! tenantID with
    | None => mkLocated (mkIdentity tenantID accountID false 0 0 0) UTC
    | Some cfg =>
      let l := tn_Limits cfg in
      let location := if bool_decide (tl_Timezone l = "") then UTC else default UTC (LoadLocation (tl_Timezone l)) in
      let burst := if (0 <? tl_TPS l) && (tl_Burst l =? 0) then tl_TPS l else tl_Burst l in
      mkLocated (mkIdentity tenantID accountID (tenant_enabled cfg) (tl_TPS l) burst (tl_DailySegments l)) location
    end.

Definition tenant_map (ts : list TenantConfig) : gmap string TenantConfig := foldl (fun m t => <[tn_TenantID t := t]> m) ∅ ts.

Definition NewResolver (c : Config) : StaticResolver :=
  let tenants := tenant_map (c_Tenants c) in
  mkResolver
    (foldl (fun m a => <[ca_ClientID a := identityFor "http" (ca_ClientID a) (ca_TenantID a) tenants]> m) ∅ (c_Clients c))
    (foldl (fun m e => <[em_SystemID e := identityFor "smpp" (em_SystemID e) (em_TenantID e) tenants]> m) ∅ (c_ESMEs c)).

Definition Resolve (r : StaticResolver) (protocol accountID : string) : option located :=
  if bool_decide (accountID = "") then None
  else if bool_decide (protocol = "http") then Some (default (fallbackIdentity protocol accountID) (rs_http r !! accountID))
  else if bool_decide (protocol = "smpp") then Some (default (fallbackIdentity protocol accountID) (rs_smpp r !! accountID))
  else None.

(** ** The resolver of a valid configuration *)

(** The accounts of a configuration with the tenant each names. *)
Definition accounts (c : Config) (protocol : string) : list (string * string) :=
  if bool_decide (protocol = "http") then (fun a => (ca_ClientID a, ca_TenantID a)) <$> c_Clients c
  else if bool_decide (protocol = "smpp") then (fun e => (em_SystemID e, em_TenantID e)) <$> c_ESMEs c
  else [].

Lemma resolve_account c protocol acc ten :
  NoDup (ca_ClientID <$> c_Clients c) -> NoDup (em_SystemID <$> c_ESMEs c) -> acc <> "" ->
  (acc, ten) ∈ accounts c protocol ->
  Resolve (NewResolver c) protocol acc = Some (identityFor protocol acc ten (tenant_map (c_Tenants c))).
Proof.
  intros Hc He Hacc Hin. unfold accounts, Resolve in *. rewrite bool_decide_eq_false_2 by done. cbn [rs_http rs_smpp NewResolver].
  case_bool_decide as E; [subst protocol|].
  - apply list_elem_of_fmap in Hin as (a & [= -> ->] & Ha).
    rewrite (foldl_insert_lookup ca_ClientID (fun a => identityFor "http" (ca_ClientID a) (ca_TenantID a) (tenant_map (c_Tenants c))) _ ∅ a) by done. done.
  - case_bool_decide as E2; [subst protocol|by apply not_elem_of_nil in Hin].
    apply list_elem_of_fmap in Hin as (a & [= -> ->] & Ha).
    rewrite (foldl_insert_lookup em_SystemID (fun a => identityFor "smpp" (em_SystemID a) (em_TenantID a) (tenant_map (c_Tenants c))) _ ∅ a) by done. done.
Qed.

Lemma resolve_unknown c protocol acc :
  acc <> "" -> protocol = "http" \/ protocol = "smpp" -> acc ∉ (accounts c protocol).*1 ->
  Resolve (NewResolver c) protocol acc = Some (fallbackIdentity protocol acc).
Proof.
  intros Hacc Hp Hn. unfold accounts, Resolve in *. rewrite bool_decide_eq_false_2 by done. cbn [rs_http rs_smpp NewResolver].
  case_bool_decide as E; [subst protocol|].
  - rewrite (foldl_insert_None ca_ClientID); [by rewrite lookup_empty|]. by rewrite <- list_fmap_compose in Hn.
  - destruct Hp as [|Hp]; [done|]. rewrite bool_decide_eq_true_2 in * by done.
    rewrite (foldl_insert_None em_SystemID); [by rewrite lookup_empty|]. by rewrite <- list_fmap_compose in Hn.
Qed.

(** A valid name has no colon. *)
Lemma validName_no_colon p s : validName (p +:+ ":" +:+ s) = false.
Proof.
  unfold validName. rewrite !bytes_of_string_app. destruct (bytes_of_string p) as [|b bs]; [done|]. cbn [app].
  apply andb_false_iff. right. rewrite forallb_app. apply andb_false_iff. right. done.
Qed.

(** The tenant an account names, empty when it names none or is unknown. *)
Definition named_tenant (c : Config) (protocol acc : string) : string :=
  match list_find (fun at_ => at_.1 = acc) (accounts c protocol) with
  | Some (_, (_, ten)) => ten
  | None => ""
  end.

(** The tenant an account counts against: the one it names, or one of its own. *)
Definition tenant_of (c : Config) (protocol acc : string) : string :=
  let ten := named_tenant c protocol acc in
  if bool_decide (ten = "") then protocol +:+ ":" +:+ acc else ten.

Definition protocol_known (protocol : string) : Prop := protocol = "http" \/ protocol = "smpp".

Section valid.
Context (c : Config) (zone : string -> bool) (compiles : string -> Prop) (Hc : config_ok false zone compiles c).

Lemma resolve_named protocol acc :
  protocol_known protocol -> acc <> "" ->
  Resolve (NewResolver c) protocol acc
  = Some (identityFor protocol acc (named_tenant c protocol acc) (tenant_map (c_Tenants c))).
Proof using Hc.
  intros Hp Hacc. unfold named_tenant. destruct (list_find _ _) as [[i [a ten]]|] eqn:E.
  - apply list_find_Some in E as (Hi & E & _). cbn in E. subst a. apply resolve_account; try done.
    + apply (k_client_ids _ _ _ _ Hc).
    + apply (k_esme_ids _ _ _ _ Hc).
    + by eapply list_elem_of_lookup_2.
  - apply list_find_None in E. unfold identityFor. rewrite bool_decide_eq_true_2 by done. apply resolve_unknown; [done|done|].
    intros Hin. apply list_elem_of_fmap in Hin as (at_ & -> & Hin). rewrite Forall_forall in E. by apply (E at_ Hin).
Qed.

Lemma named_tenant_configured protocol acc :
  named_tenant c protocol acc <> "" -> named_tenant c protocol acc ∈ tn_TenantID <$> c_Tenants c.
Proof using Hc.
  unfold named_tenant. destruct (list_find _ _) as [[i [a ten]]|] eqn:E; [|done]. intros Ht.
  apply list_find_Some in E as (Hi & _ & _). apply list_elem_of_lookup_2 in Hi. unfold accounts in Hi.
  case_bool_decide as E1; [|case_bool_decide as E2; [|by apply not_elem_of_nil in Hi]].
  - apply list_elem_of_fmap in Hi as (x & [= _ ->] & Hx). pose proof (k_clients _ _ _ _ Hc) as H. rewrite Forall_forall in H.
    by destruct (ko_tenant _ _ _ (H x Hx)).
  - apply list_elem_of_fmap in Hi as (x & [= _ ->] & Hx). pose proof (k_esmes _ _ _ _ Hc) as H. rewrite Forall_forall in H.
    by destruct (eo_tenant _ _ _ (H x Hx)).
Qed.

Lemma tenant_map_lookup t : t ∈ c_Tenants c -> tenant_map (c_Tenants c) !! tn_TenantID t = Some t.
Proof using Hc. intros Ht. apply (foldl_insert_lookup tn_TenantID (fun t => t)); [apply (k_tenant_names _ _ _ _ Hc)|done]. Qed.

Lemma tenant_name_valid n : n ∈ tn_TenantID <$> c_Tenants c -> validName n = true.
Proof using Hc.
  intros (t & -> & Ht)%list_elem_of_fmap. pose proof (k_tenants _ _ _ _ Hc) as H. rewrite Forall_forall in H. apply (to_name _ _ (H t Ht)).
Qed.

(** What an identity has of its tenant. *)
Definition carries (i : Identity) (t : TenantConfig) : Prop :=
  let l := tn_Limits t in
  id_Enabled i = tenant_enabled t /\ id_TPS i = tl_TPS l /\ id_DailySegments i = tl_DailySegments l
  /\ id_Burst i = (if tl_Burst l =? 0 then tl_TPS l else tl_Burst l).

Lemma account_resolves protocol acc :
  protocol_known protocol -> acc <> "" ->
  exists l, Resolve (NewResolver c) protocol acc = Some l
  /\ id_AccountID (lo_identity l) = acc /\ id_TenantID (lo_identity l) = tenant_of c protocol acc
  /\ (named_tenant c protocol acc = "" -> lo_identity l = mkIdentity (protocol +:+ ":" +:+ acc) acc true 0 0 0)
  /\ (named_tenant c protocol acc <> "" -> exists t, t ∈ c_Tenants c /\ tn_TenantID t = named_tenant c protocol acc /\ carries (lo_identity l) t).
Proof using Hc.
  intros Hp Hacc. eexists. split; [by apply resolve_named|]. unfold identityFor, tenant_of.
  destruct (decide (named_tenant c protocol acc = "")) as [E|E].
  - rewrite E, !bool_decide_eq_true_2 by done. by split_and!.
  - rewrite !bool_decide_eq_false_2 by done.
    pose proof (named_tenant_configured protocol acc E) as (t & Et & Ht)%list_elem_of_fmap.
    rewrite Et, (tenant_map_lookup t Ht). split_and!; [done|done|by rewrite <- Et|]. intros _. exists t. split_and!; [done|done|].
    pose proof (k_tenants _ _ _ _ Hc) as H. rewrite Forall_forall in H. destruct (to_burst _ _ (H t Ht)) as [Hb|Hb].
    + unfold carries. cbn. rewrite (proj2 (Z.ltb_lt 0 (tl_TPS (tn_Limits t)))) by done. by split_and!.
    + pose proof (to_limits _ _ (H t Ht)). unfold carries. cbn. rewrite Hb. cbn.
      destruct (Z.ltb_spec 0 (tl_TPS (tn_Limits t))); split_and!; cbn; try done; lia.
Qed.

Lemma tenants_apart p a p' a' :
  protocol_known p -> protocol_known p' ->
  tenant_of c p a = tenant_of c p' a' <->
  (named_tenant c p a = "" /\ named_tenant c p' a' = "" /\ p = p' /\ a = a')
  \/ (named_tenant c p a <> "" /\ named_tenant c p a = named_tenant c p' a').
Proof using Hc.
  intros Hp Hp'. unfold tenant_of.
  assert (forall q b r s, named_tenant c q b <> "" -> named_tenant c q b <> r +:+ ":" +:+ s) as Hno.
  { intros q b r s Hn E. pose proof (tenant_name_valid _ (named_tenant_configured _ _ Hn)) as Hv.
    by rewrite E, validName_no_colon in Hv. }
  destruct (decide (named_tenant c p a = "")) as [E|E], (decide (named_tenant c p' a' = "")) as [E'|E'].
  - rewrite E, E', !bool_decide_eq_true_2 by done. split; [|by intros [(_ & _ & -> & ->)|[]]]. intros H. left.
    destruct Hp as [-> | ->], Hp' as [-> | ->]; [|discriminate H|discriminate H|].
    + apply (inj (String.append "http:") a a') in H. by split_and!.
    + apply (inj (String.append "smpp:") a a') in H. by split_and!.
  - rewrite (bool_decide_eq_true_2 _ E), (bool_decide_eq_false_2 _ E'). split.
    + intros H. symmetry in H. by apply Hno in H.
    + intros [(_ & ? & _)|[? _]]; done.
  - rewrite (bool_decide_eq_false_2 _ E), (bool_decide_eq_true_2 _ E'). split.
    + intros H. by apply Hno in H.
    + intros [(? & _)|[_ H]]; congruence.
  - rewrite !bool_decide_eq_false_2 by done. split; [intros H; right; by split|]. intros [(? & _)|[_ H]]; [done|done].
Qed.
End valid.

(** Under a valid configuration every account resolves to an identity of its own
    name with the limits of its tenant, and two accounts share an identity
    for limits exactly when they name the same tenant. *)
Theorem accounts_resolve c zone compiles p a :
  config_ok false zone compiles c -> protocol_known p -> a <> "" ->
  (exists l, Resolve (NewResolver c) p a = Some l
   /\ id_AccountID (lo_identity l) = a /\ id_TenantID (lo_identity l) = tenant_of c p a
   /\ (named_tenant c p a = "" -> lo_identity l = mkIdentity (p +:+ ":" +:+ a) a true 0 0 0)
   /\ (named_tenant c p a <> "" -> exists t, t ∈ c_Tenants c /\ tn_TenantID t = named_tenant c p a /\ carries (lo_identity l) t))
  /\ (forall p' a', protocol_known p' -> tenant_of c p a = tenant_of c p' a' <->
      (named_tenant c p a = "" /\ named_tenant c p' a' = "" /\ p = p' /\ a = a')
      \/ (named_tenant c p a <> "" /\ named_tenant c p a = named_tenant c p' a')).
Proof.
  intros Hc Hp Ha. split; [by apply (account_resolves c zone compiles Hc)|]. intros p' a' Hp'.
  by apply (tenants_apart c zone compiles Hc).
Qed.
End resolver.

Arguments located : clear implicits.
Arguments StaticResolver : clear implicits.

(** ** The token bucket *)

(** [now.Sub(last)]: saturates at the bounds of an int64. *)
Definition time_Sub (t u : time) : duration := Z.max (-9223372036854775808) (Z.min 9223372036854775807 (t - u)).

Record bucket := mkBucket {
  bk_tokens : f64;
  bk_last : time;
  bk_tps : Z;
  bk_burst : Z }.

Definition refill_bucket (now : time) (b : bucket) : bucket :=
  let elapsed := Seconds (time_Sub now (bk_last b)) in
  if f64_ltb (f64_of 0) elapsed then
    let tokens := f64_add (bk_tokens b) (f64_mul elapsed (f64_of (bk_tps b))) in
    let tokens := if f64_ltb (f64_of (bk_burst b)) tokens then f64_of (bk_burst b) else tokens in
    mkBucket tokens now (bk_tps b) (bk_burst b)
  else b.

Definition Allow (now : time) (tenantID : string) (tps burst : Z) (m : gmap string bucket) : gmap string bucket * bool :=
  if bool_decide (tenantID = "") || (tps <=? 0) then (m, true)
  else
    let burst := if burst <=? 0 then tps else burst in
    let fresh := mkBucket (f64_of burst) now tps burst in
    let b :=
      match m !! tenantID with
      | None => fresh
      | Some b =>
        if negb (bk_tps b =? tps) || negb (bk_burst b =? burst) then fresh else refill_bucket now b
      end in
    let allowed := f64_leb (f64_of 1) (bk_tokens b) in
    let b := if allowed then mkBucket (f64_sub (bk_tokens b) (f64_of 1)) (bk_last b) (bk_tps b) (bk_burst b) else b in
    (<[tenantID := b]> m, allowed).

(** A run of calls at the times given, and their answers. *)
Record attempt := mkAttempt_ {
  al_now : time;
  al_tenant : string;
  al_tps : Z;
  al_burst : Z }.

Fixpoint allow_run (calls : list attempt) (m : gmap string bucket) : gmap string bucket * list bool :=
  match calls with
  | [] => (m, [])
  | c :: calls =>
    let '(m, ok) := Allow (al_now c) (al_tenant c) (al_tps c) (al_burst c) m in
    let '(m, oks) := allow_run calls m in
    (m, ok :: oks)
  end.

(** ** Examples *)

Lemma accounts_resolve_witness :
  exists l, Resolve tt (NewResolver tt (fun _ => None) (demo_config [demo_outbound "rule1"])) "http" "c1" = Some l
  /\ id_TenantID (lo_identity l) = "t1" /\ id_TPS (lo_identity l) = 10.
Proof.
  destruct (accounts_resolve tt (fun _ => None) (demo_config [demo_outbound "rule1"]) (fun _ => true) (fun s => (fun _ => None : option regex) s <> None) "http" "c1")
    as [(l & H1 & H2 & H3 & H4 & H5) _].
  - apply (validate_correct (fun _ => true) (fun _ => None) id (demo_config [demo_outbound "rule1"]) false).
    + intros k. reflexivity.
    + vm_compute. reflexivity.
  - left. reflexivity.
  - discriminate.
  - exists l. split; [exact H1|]. split; [rewrite H3; vm_compute; reflexivity|].
    destruct H5 as (t & Ht & Ht1 & Ht2); [vm_compute; discriminate|]. apply list_elem_of_In in Ht. destruct Ht as [<-|[]].
    destruct Ht2 as (_ & -> & _). reflexivity.
Defined.
