(* ===== verification/TenantRate.v ===== *)
(** * The token bucket in whole numbers

    At whole seconds the float64 bucket of [Allow] holds the whole number of
    tokens of a bucket in integers; what that bucket admits is bounded. *)

From S2P Require Import Prelude GoTime GoParse Float64 Tenant.

(** ** The reference *)

Record ibucket := mkIBucket {
  ib_tokens : Z;
  ib_last : time;
  ib_tps : Z;
  ib_burst : Z }.

Definition ref_refill (now : time) (b : ibucket) : ibucket :=
  let secs := (now - ib_last b) / Second in
  if 0 <? secs then mkIBucket (Z.min (ib_burst b) (ib_tokens b + secs * ib_tps b)) now (ib_tps b) (ib_burst b) else b.

Definition ref_allow (c : attempt) (m : gmap string ibucket) : gmap string ibucket * bool :=
  if bool_decide (al_tenant c = "") || (al_tps c <=? 0) then (m, true)
  else
    let burst := if al_burst c <=? 0 then al_tps c else al_burst c in
    let fresh := mkIBucket burst (al_now c) (al_tps c) burst in
    let b :=
      match m !! al_tenant c with
      | None => fresh
      | Some b => if (ib_tps b =? al_tps c) && (ib_burst b =? burst) then ref_refill (al_now c) b else fresh
      end in
    if 1 <=? ib_tokens b then (<[al_tenant c := mkIBucket (ib_tokens b - 1) (ib_last b) (ib_tps b) (ib_burst b)]> m, true)
    else (<[al_tenant c := b]> m, false).

Fixpoint ref_run (calls : list attempt) (m : gmap string ibucket) : gmap string ibucket * list bool :=
  match calls with
  | [] => (m, [])
  | c :: calls =>
    let '(m, ok) := ref_allow c m in
    let '(m, oks) := ref_run calls m in
    (m, ok :: oks)
  end.

(** The float bucket of a whole one. *)
Definition lift (b : ibucket) : bucket := mkBucket (f64_of (ib_tokens b)) (ib_last b) (ib_tps b) (ib_burst b).

(** The burst a call asks for. *)
Definition eff_burst (c : attempt) : Z := if al_burst c <=? 0 then al_tps c else al_burst c.

Section exact.
Context (t0 H T B : Z).
Context (HH : 0 <= H <= 9000000000) (HT : 0 < T) (HB : 0 < B) (Hfit : B + H * T < 2 ^ 53).

(** A time a whole number of seconds after [t0]. *)
Definition whole (t : time) : Prop := exists k, t = t0 + k * Second /\ 0 <= k <= H.

Definition call_ok (c : attempt) : Prop := whole (al_now c) /\ (0 < al_tps c -> al_tps c <= T /\ eff_burst c <= B).

Record bucket_ok (b : ibucket) : Prop := {
  bo_tokens : 0 <= ib_tokens b <= ib_burst b;
  bo_limits : 0 < ib_tps b <= T /\ 0 < ib_burst b <= B;
  bo_last : whole (ib_last b) }.

Lemma refill_exact now b : whole now -> bucket_ok b -> refill_bucket now (lift b) = lift (ref_refill now b) /\ bucket_ok (ref_refill now b).
Proof using All.
  intros (k & -> & Hk) [Ht [Htps Hb] (l & El & Hl)]. unfold refill_bucket, ref_refill, lift. cbn [bk_tokens bk_last bk_tps bk_burst]. rewrite El.
  replace (t0 + k * Second - (t0 + l * Second)) with ((k - l) * Second) by lia. rewrite Z.div_mul by done.
  assert (time_Sub (t0 + k * Second) (t0 + l * Second) = (k - l) * Second) as Es.
  { unfold time_Sub, Second. lia. }
  rewrite Es. destruct (Z.ltb_spec 0 (k - l)) as [Hs|Hs].
  - assert ((k - l) * ib_tps b <= H * T) by (apply Z.mul_le_mono_nonneg; lia). assert (0 <= (k - l) * ib_tps b) by nia.
    assert (H <= H * T) by nia. assert (T <= H * T) by nia.
    rewrite Seconds_whole by lia. rewrite f64_ltb_whole by lia. rewrite (proj2 (Z.ltb_lt 0 (k - l))) by done.
    rewrite f64_mul_whole by lia. rewrite f64_add_whole by lia. rewrite f64_ltb_whole by lia. split.
    + destruct (Z.ltb_spec (ib_burst b) (ib_tokens b + (k - l) * ib_tps b)); cbn; f_equal; f_equal; lia.
    + split; cbn; [lia|done|]. by exists k.
  - rewrite Seconds_negative by lia. split.
    + by rewrite El.
    + split; [done|done|by exists l].
Qed.

Lemma allow_exact c im :
  call_ok c -> map_Forall (fun _ => bucket_ok) im ->
  Allow (al_now c) (al_tenant c) (al_tps c) (al_burst c) (lift <$> im) = ((lift <$> (ref_allow c im).1), (ref_allow c im).2)
  /\ map_Forall (fun _ => bucket_ok) (ref_allow c im).1.
Proof using All.
  intros [Hw Hl] Him. unfold Allow, ref_allow. destruct (bool_decide (al_tenant c = "") || (al_tps c <=? 0)) eqn:Eg; [done|].
  apply orb_false_iff in Eg as [_ Htps%Z.leb_gt]. specialize (Hl Htps) as [HcT HcB]. fold (eff_burst c). cbn zeta.
  assert (0 < eff_burst c) as Hb by (unfold eff_burst; destruct (Z.leb_spec (al_burst c) 0); lia).
  set (ib := match im !! al_tenant c with None => _ | Some b => _ end).
  assert (bucket_ok ib /\ match (lift <$> im) !! al_tenant c with
      | None => mkBucket (f64_of (eff_burst c)) (al_now c) (al_tps c) (eff_burst c)
      | Some b => if negb (bk_tps b =? al_tps c) || negb (bk_burst b =? eff_burst c)
                  then mkBucket (f64_of (eff_burst c)) (al_now c) (al_tps c) (eff_burst c) else refill_bucket (al_now c) b
      end = lift ib) as [Hib ->].
  { assert (bucket_ok (mkIBucket (eff_burst c) (al_now c) (al_tps c) (eff_burst c))) as Hf by (split; cbn; [lia|lia|done]).
    unfold ib. rewrite lookup_fmap. destruct (im !! al_tenant c) as [b|] eqn:E; cbn [fmap option_fmap option_map]; [|done].
    cbn [bk_tps bk_burst lift]. rewrite <- negb_andb. destruct ((ib_tps b =? al_tps c) && (ib_burst b =? eff_burst c)); cbn [negb]; [|done].
    destruct (refill_exact (al_now c) b Hw (Him _ _ E)) as [-> ?]. done. }
  clearbody ib. destruct Hib as [Ht Hlim Hlast]. cbn [bk_tokens bk_last bk_tps bk_burst lift].
  assert (ib_burst ib < 2 ^ 53) by nia. rewrite f64_leb_whole by lia. destruct (Z.leb_spec 1 (ib_tokens ib)); cbn [fst snd].
  - rewrite f64_sub_whole by lia. rewrite fmap_insert. split; [done|]. apply map_Forall_insert_2; [|done]. split; cbn; [lia|done|done].
  - rewrite fmap_insert. split; [done|]. apply map_Forall_insert_2; [|done]. done.
Qed.

Lemma run_exact calls im :
  Forall call_ok calls -> map_Forall (fun _ => bucket_ok) im ->
  allow_run calls (lift <$> im) = ((lift <$> (ref_run calls im).1), (ref_run calls im).2).
Proof using All.
  revert im. induction calls as [|c calls IH]; intros im Hc Him; cbn [allow_run ref_run]; [done|].
  apply Forall_cons in Hc as [Hc Hcs]. destruct (allow_exact c im Hc Him) as [-> Hn].
  destruct (ref_allow c im) as [im' ok]. cbn [fst snd] in *. rewrite (IH im' Hcs Hn). by destruct (ref_run calls im').
Qed.
End exact.

(** ** What the reference admits *)

Definition answers (oks : list bool) : Z := Z.of_nat (length (filter (fun ok => ok = true) oks)).

Section rate.
Context (tenant : string) (tps burst : Z) (t0 H : Z).
Context (Ht : tenant <> "") (Htps : 0 < tps) (Hb : 0 < burst) (HH : 0 <= H).

(** A call of the tenant under its limits, within the window. *)
Definition tenant_call (c : attempt) : Prop :=
  al_tenant c = tenant /\ al_tps c = tps /\ eff_burst c = burst /\ whole t0 H (al_now c).

(** What may still be admitted up to the end of the window. *)
Definition potential (im : gmap string ibucket) : Z :=
  match im !! tenant with
  | None => burst + tps * H
  | Some b => ib_tokens b + tps * (H - (ib_last b - t0) / Second)
  end.

Definition tenant_bucket (im : gmap string ibucket) : Prop :=
  forall b, im !! tenant = Some b -> ib_tps b = tps /\ ib_burst b = burst /\ 0 <= ib_tokens b <= burst /\ whole t0 H (ib_last b).

Lemma whole_div t : whole t0 H t -> 0 <= (t - t0) / Second <= H /\ t = t0 + (t - t0) / Second * Second.
Proof using HH.
  intros (k & -> & Hk). replace (t0 + k * Second - t0) with (k * Second) by lia. rewrite Z.div_mul by done. lia.
Qed.

Lemma ref_allow_potential c im :
  tenant_call c -> tenant_bucket im ->
  let '(im', ok) := ref_allow c im in
  tenant_bucket im' /\ potential im' + (if ok then 1 else 0) <= potential im
  /\ (ok = false -> exists b, im' !! tenant = Some b /\ ib_tokens b = 0)
  /\ match im !! tenant, im' !! tenant with
     | None, Some b' => burst - (if ok then 1 else 0) <= ib_tokens b'
     | Some b, Some b' => ib_tokens b - (if ok then 1 else 0) <= ib_tokens b'
     | _, None => False
     end.
Proof using All.
  intros (Et & Ec1 & Ec2 & Hw) Him. unfold ref_allow. fold (eff_burst c). rewrite Et, bool_decide_eq_false_2 by done. rewrite Ec1, (proj2 (Z.leb_gt tps 0)) by done.
  cbn [orb]. rewrite Ec2. pose proof (whole_div _ Hw) as [Hn En]. set (n := (al_now c - t0) / Second) in *.
  set (ib := match im !! tenant with None => _ | Some b => _ end).
  assert (ib_tps ib = tps /\ ib_burst ib = burst /\ 0 <= ib_tokens ib <= burst /\ whole t0 H (ib_last ib)
    /\ ib_tokens ib + tps * (H - (ib_last ib - t0) / Second) <= potential im
    /\ match im !! tenant with None => ib_tokens ib = burst | Some b => ib_tokens b <= ib_tokens ib end) as (E1 & E2 & E3 & E4 & E5 & E6).
  { unfold ib, potential. destruct (im !! tenant) as [b|] eqn:E; cbn.
    - destruct (Him b E) as (B1 & B2 & B3 & B4). rewrite B1, B2, !Z.eqb_refl. cbn [andb]. unfold ref_refill.
      pose proof (whole_div _ B4) as [Hl El]. set (l := (ib_last b - t0) / Second) in *.
      replace ((al_now c - ib_last b) / Second) with (n - l).
      2:{ rewrite En, El. replace (t0 + n * Second - (t0 + l * Second)) with ((n - l) * Second) by lia. by rewrite Z.div_mul. }
      destruct (Z.ltb_spec 0 (n - l)); cbn; [|by split_and!; try done; lia]. rewrite B1, B2. fold n. split_and!; try done; first [lia|nia].
    - fold n. split_and!; try done; nia. }
  clearbody ib. destruct (Z.leb_spec 1 (ib_tokens ib)); cbn [fst snd].
  - rewrite lookup_insert_eq. unfold potential at 1. rewrite lookup_insert_eq. cbn. split_and!.
    + intros b. rewrite lookup_insert_eq. intros [= <-]. cbn. split_and!; try done; lia.
    + lia.
    + done.
    + destruct (im !! tenant); lia.
  - rewrite lookup_insert_eq. unfold potential at 1. rewrite lookup_insert_eq. split_and!.
    + intros b. rewrite lookup_insert_eq. intros [= <-]. split_and!; try done; lia.
    + lia.
    + intros _. exists ib. split; [done|lia].
    + destruct (im !! tenant); lia.
Qed.

(** A run admits no more than the potential; as long as the bucket holds more
    tokens than calls were made, all are admitted. *)
Lemma ref_run_bound calls im :
  Forall tenant_call calls -> tenant_bucket im ->
  let oks := (ref_run calls im).2 in
  answers oks <= potential im
  /\ (Z.of_nat (length calls) <= match im !! tenant with Some b => ib_tokens b | None => burst end -> Forall (fun ok => ok = true) oks).
Proof using All.
  cbn zeta. revert im. induction calls as [|c calls IH]; intros im Hc Him; cbn [ref_run].
  { split; [|constructor]. unfold answers, potential. cbn. destruct (im !! tenant) as [b|] eqn:E; [|nia].
    destruct (Him b E) as (_ & _ & ? & Hw). apply whole_div in Hw as [? _]. nia. }
  apply Forall_cons in Hc as [Hc Hcs]. pose proof (ref_allow_potential c im Hc Him) as H1.
  destruct (ref_allow c im) as [im' ok]. destruct H1 as (Hb' & Hp & Hno & Hm). specialize (IH im' Hcs Hb') as [IH1 IH2].
  destruct (ref_run calls im') as [im2 oks]. cbn [snd] in *. split.
  - unfold answers in *. rewrite filter_cons. destruct ok; [rewrite decide_True by done|rewrite decide_False by done]; cbn [length]; lia.
  - cbn [length]. intros Hlen. destruct ok.
    + constructor; [done|]. apply IH2. destruct (im !! tenant), (im' !! tenant); done || lia.
    + exfalso. destruct (Hno eq_refl) as (b & Eb & Hz). rewrite Eb in Hm. destruct (im !! tenant); lia.
Qed.
End rate.

(** ** The theorems *)

(** C24: At whole seconds and while the numbers fit binary64, the token bucket
    computed in floating point gives the answers and the states of the bucket
    over integers. *)
Theorem tenant_bucket_exact t0 H T B calls :
  0 <= H <= 9000000000 -> 0 < T -> 0 < B -> B + H * T < 2 ^ 53 -> Forall (call_ok t0 H T B) calls ->
  allow_run calls ∅ = (lift <$> (ref_run calls ∅).1, (ref_run calls ∅).2).
Proof.
  intros HH HT HB Hfit Hc. rewrite <- (fmap_empty (M := gmap string) lift) at 1.
  apply (run_exact t0 H T B HH HT HB Hfit); [done|]. apply map_Forall_empty.
Qed.

(** Over a time of H seconds a tenant passes at most its burst and H times its
    rate. *)
Theorem tenant_rate_limited tenant tps burst t0 H calls :
  tenant <> "" -> 0 < tps -> 0 < burst -> 0 <= H <= 9000000000 -> burst + H * tps < 2 ^ 53 ->
  Forall (tenant_call tenant tps burst t0 H) calls ->
  let oks := (allow_run calls ∅).2 in
  answers oks <= burst + tps * H
  /\ (Z.of_nat (length calls) <= burst -> Forall (fun ok => ok = true) oks).
Proof.
  intros Ht Htps Hb HH Hfit Hc. cbn zeta. rewrite <- (fmap_empty (M := gmap string) lift) at 1 2.
  rewrite (run_exact t0 H tps burst HH Htps Hb Hfit).
  - destruct (ref_run_bound tenant tps burst t0 H Ht Htps Hb (proj1 HH) calls ∅ Hc) as [H1 H2]; [intros b; by rewrite lookup_empty|].
    unfold potential in H1. by rewrite lookup_empty in H1, H2.
  - eapply Forall_impl; [exact Hc|]. intros c (_ & E1 & E2 & Hw). split; [done|]. lia.
  - apply map_Forall_empty.
Qed.

(** ** Examples *)

Definition demo_call (k : Z) : attempt := mkAttempt_ (1000 + k * Second) "t1" 2 3.

Lemma tenant_bucket_exact_witness :
  allow_run (demo_call <$> [0; 0; 0; 0; 1]) ∅ = (lift <$> (ref_run (demo_call <$> [0; 0; 0; 0; 1]) ∅).1, [true; true; true; false; true]).
Proof.
  apply (tenant_bucket_exact 1000 10 2 3).
  - lia.
  - lia.
  - lia.
  - lia.
  - assert (forall k, 0 <= k <= 10 -> call_ok 1000 10 2 3 (demo_call k)) as Hd.
    { intros k Hk. split; [exists k; split; [reflexivity|exact Hk]|unfold eff_burst; cbn; lia]. }
    repeat apply Forall_cons_2; try apply Forall_nil_2; apply Hd; lia.
Defined.

Lemma tenant_rate_limited_witness :
  answers (allow_run (demo_call <$> [0; 0; 0; 0; 1]) ∅).2 <= 23.
Proof.
  destruct (tenant_rate_limited "t1" 2 3 1000 10 (demo_call <$> [0; 0; 0; 0; 1])) as [H _].
  - discriminate.
  - lia.
  - lia.
  - lia.
  - lia.
  - assert (forall k, 0 <= k <= 10 -> tenant_call "t1" 2 3 1000 10 (demo_call k)) as Hd.
    { intros k Hk. split; [reflexivity|]. split; [reflexivity|]. split; [reflexivity|]. exists k. split; [reflexivity|exact Hk]. }
    repeat apply Forall_cons_2; try apply Forall_nil_2; apply Hd; lia.
  - exact H.
Defined.
