(* ===== verification/Json.v ===== *)
(** * JSON as the standard library reads and writes it

    [encoding/json] decodes a text into an [any] (maps, slices, strings,
    [float64]s, booleans and nil) and encodes maps of strings; [fmt.Sprint]
    prints what was decoded. Also the decimal reading and the shortest printing
    of a [float64]. *)

From Stdlib Require Import SpecFloat.
From S2P Require Import Prelude Unicode Codec Segment Num GoParse FilterAC FilterTrie FilterFind.

(** ** Numbers *)

#[export] Instance f64_eq_dec : EqDecision f64.
Proof. unfold f64. solve_decision. Defined.

Definition f64_zero (neg : bool) : f64 := S754_zero neg.

(** The [float64] nearest to [n/d], ties to even; [None] when it overflows. *)
Definition f64_of_ratio (neg : bool) (n d : Z) : option f64 :=
  if n =? 0 then Some (f64_zero neg)
  else
    let k := Z.log2 n - Z.log2 d in
    let k := if (if 0 <=? k then d * 2 ^ k <=? n else d <=? n * 2 ^ (- k)) then k else k - 1 in
    let e := Z.max (-1074) (k - 52) in
    let '(n, d) := if 0 <=? e then (n, d * 2 ^ e) else (n * 2 ^ (- e), d) in
    let q := n / d in
    let r := n mod d in
    let q := if d <? 2 * r then q + 1 else if (2 * r =? d) && Z.odd q then q + 1 else q in
    match binary_normalize 53 1024 (if neg then - q else q) e neg with
    | S754_infinity _ | S754_nan => None
    | x => Some x
    end.

(** The decimal [m * 10^e]; exponents far out of range are not expanded. *)
Definition f64_of_decimal (neg : bool) (m e : Z) : option f64 :=
  if m =? 0 then Some (f64_zero neg)
  else
    let size := Z.of_nat (length (digits 10 m)) + e in
    if 310 <? size then None
    else if size <? -330 then Some (f64_zero neg)
    else if 0 <=? e then f64_of_ratio neg (m * 10 ^ e) 1
    else f64_of_ratio neg m (10 ^ (- e)).

(** [|x|] as a ratio. *)
Definition f64_ratio (x : f64) : Z * Z :=
  match x with
  | S754_finite _ m e => if 0 <=? e then (Zpos m * 2 ^ e, 1) else (Zpos m, 2 ^ (- e))
  | _ => (0, 1)
  end.

(** The [x] with [10^(x-1) <= n/d < 10^x]. *)
Fixpoint dec_point_below (fuel : nat) (n d : Z) (x : Z) : Z :=
  match fuel with
  | O => x
  | S fuel => if d <=? n * 10 then x else dec_point_below fuel (n * 10) d (x - 1)
  end.

Definition dec_point (n d : Z) : Z :=
  if d <=? n then Z.of_nat (length (digits 10 (n / d))) else dec_point_below 400 n d 0.

(** The decimal of [p] digits nearest to [n/d] that reads back as [x]. *)
Definition digits_at (x : f64) (n d dp : Z) (p : Z) : option Z :=
  let '(n, d) := if 0 <=? p - dp then (n * 10 ^ (p - dp), d) else (n, d * 10 ^ (dp - p)) in
  let lo := n / d in
  let r := n mod d in
  let back v := bool_decide (f64_of_decimal false v (dp - p) = Some x) in
  let up := (d <? 2 * r) || ((2 * r =? d) && Z.odd lo) in
  let '(first, second) := if up then (lo + 1, lo) else (lo, lo + 1) in
  if back first then Some first else if back second then Some second else None.

Fixpoint shortest_loop (fuel : nat) (x : f64) (n d dp p : Z) : Z * Z :=
  match fuel with
  | O => (0, p)
  | S fuel =>
    match digits_at x n d dp p with
    | Some v => (v, p)
    | None => shortest_loop fuel x n d dp (p + 1)
    end
  end.

(** Digits without the zeros at the end. *)
Fixpoint strip_zeros (rev_digits : list Z) : list Z :=
  match rev_digits with 48 :: ds => strip_zeros ds | ds => ds end.

(** The digits and the decimal point of the shortest decimal. *)
Definition shortest (x : f64) : list Z * Z :=
  let '(n, d) := f64_ratio x in
  let dp := dec_point n d in
  let '(v, p) := shortest_loop 17 x n d dp 1 in
  let ds := bytes_of_string (FormatUint v 10) in
  let dp := dp + (Z.of_nat (length ds) - p) in
  (reverse (strip_zeros (reverse ds)), dp).

Definition zeros (n : Z) : list Z := replicate (Z.to_nat n) 48.

(** [%e] and [%f] of the digits. *)
Definition format_e (ds : list Z) (dp : Z) : list Z :=
  let exp := dp - 1 in
  take 1 ds ++ (if (1 <? length ds)%nat then 46 :: drop 1 ds else []) ++ [101] ++ [if exp <? 0 then 45 else 43]
  ++ (let s := bytes_of_string (FormatUint (Z.abs exp) 10) in if (length s <? 2)%nat then 48 :: s else s).

Definition format_f (ds : list Z) (dp : Z) : list Z :=
  let nd := Z.of_nat (length ds) in
  if 0 <? dp then
    take (Z.to_nat dp) ds ++ zeros (dp - nd) ++ (if dp <? nd then 46 :: drop (Z.to_nat dp) ds else [])
  else 48 :: 46 :: zeros (- dp) ++ ds.

(** [%v] of a [float64]. *)
Definition format_v (x : f64) : string :=
  match x with
  | S754_zero neg => if neg then "-0" else "0"
  | S754_infinity neg => if neg then "-Inf" else "+Inf"
  | S754_nan => "NaN"
  | S754_finite neg m e =>
    let '(ds, dp) := shortest (S754_finite false m e) in
    let exp := dp - 1 in
    string_of_bytes ((if neg then [45] else []) ++ (if (exp <? -4) || (6 <=? exp) then format_e ds dp else format_f ds dp))
  end.

(** ** Values *)

(** What [any] holds after decoding; the members of an object as in the text. *)
#[warnings="-register-all"]
Inductive json :=
| JNull
| JBool (b : bool)
| JNumber (x : f64)
| JString (s : string)
| JArray (l : list json)
| JObject (kvs : list (string * json)).

(** The map the members make: the last one of a name. *)
Definition members {A} (kvs : list (string * A)) : gmap string A := foldl (fun m kv => <[kv.1 := kv.2]> m) ∅ kvs.

Definition by_key {A} (a b : string * A) : bool := String.ltb a.1 b.1.

(** [strings.Join]. *)
Fixpoint join_with (sep : string) (l : list string) : string :=
  match l with
  | [] => ""
  | [s] => s
  | s :: l => s +:+ sep +:+ join_with sep l
  end.

(** [fmt.Sprint] of one value. *)
Fixpoint Sprint (v : json) : string :=
  match v with
  | JNull => "<nil>"
  | JBool b => if b then "true" else "false"
  | JNumber x => format_v x
  | JString s => s
  | JArray l => "[" +:+ join_with " " (Sprint <$> l) +:+ "]"
  | JObject kvs =>
    let texts := (fun kv => (kv.1, Sprint kv.2)) <$> kvs in
    "map[" +:+ join_with " " ((fun kv => kv.1 +:+ ":" +:+ kv.2) <$> sort_stable by_key (map_to_list (members texts))) +:+ "]"
  end.

(** ** Decoding

    Over the runes of the text: outside a string a byte that is not UTF-8 is an
    error like any other rune, inside one it reads as U+FFFD. *)

Definition is_ws (r : Z) : bool := (r =? 32) || (r =? 9) || (r =? 10) || (r =? 13).

Fixpoint skip_ws (s : list Z) : list Z :=
  match s with r :: s' => if is_ws r then skip_ws s' else s | [] => [] end.

Definition hex4_value (a b c d : Z) : option Z :=
  a ← hex_value a; b ← hex_value b; c ← hex_value c; d ← hex_value d; Some (((a * 16 + b) * 16 + c) * 16 + d).

(** What the characters after a backslash stand for. *)
Definition simple_escape (r : Z) : option Z :=
  if (r =? 34) || (r =? 92) || (r =? 47) then Some r
  else if r =? 98 then Some 8 else if r =? 102 then Some 12 else if r =? 110 then Some 10
  else if r =? 114 then Some 13 else if r =? 116 then Some 9 else None.

(** A second [\u] escape: its value. *)
Definition next_u4 (s : list Z) : option Z :=
  match s with
  | 92 :: 117 :: a :: b :: c :: d :: _ => hex4_value a b c d
  | _ => None
  end.

(** The rest of a string, after the quote; [skip] runes are part of an escape
    already read. *)
Fixpoint parse_string (s : list Z) (skip : nat) : option (list Z * list Z) :=
  match s with
  | [] => None
  | r :: s =>
    match skip with
    | S skip => parse_string s skip
    | O =>
      if r =? 34 then Some ([], s)
      else if r <? 32 then None
      else if r =? 92 then
        match s with
        | [] => None
        | e :: s =>
          if e =? 117 then
            match s with
            | a :: b :: c :: d :: s =>
              match hex4_value a b c d with
              | None => None
              | Some u =>
                let '(u, skip) :=
                  if in_range 55296 57343 u then
                    match next_u4 s with
                    | Some v => if in_range 55296 56319 u && in_range 56320 57343 v
                                then ((u - 55296) * 1024 + (v - 56320) + 65536, 6%nat) else (RuneError, 0%nat)
                    | None => (RuneError, 0%nat)
                    end
                  else (u, 0%nat) in
                '(rs, s) ← parse_string s skip;
                Some (u :: rs, s)
              end
            | _ => None
            end
          else
            match simple_escape e with
            | None => None
            | Some x =>
              '(rs, s) ← parse_string s 0;
              Some (x :: rs, s)
            end
        end
      else
        '(rs, s) ← parse_string s 0;
        Some (r :: rs, s)
    end
  end.

(** The digits at the front, their value and their number. *)
Fixpoint span_digits (s : list Z) (acc : Z) (n : Z) : Z * Z * list Z :=
  match s with
  | r :: s' => if is_digit_byte r then span_digits s' (acc * 10 + (r - 48)) (n + 1) else (acc, n, s)
  | [] => (acc, n, [])
  end.

(** A number: digits without a leading zero, a fraction, an exponent; infinite
    when it is out of range. *)
Definition parse_number (s : list Z) : option (f64 * list Z) :=
  let '(neg, s) := match s with 45 :: s => (true, s) | _ => (false, s) end in
  let '(m, n, s') := match s with 48 :: t => (0, 1, t) | _ => span_digits s 0 0 end in
  if n =? 0 then None
  else
    '(m, frac, s') ← match s' with
                     | 46 :: t => let '(m, k, t) := span_digits t m 0 in if k =? 0 then None else Some (m, k, t)
                     | _ => Some (m, 0, s')
                     end;
    '(e, s') ← match s' with
               | c :: t =>
                 if (c =? 101) || (c =? 69) then
                   let '(eneg, t) := match t with 45 :: t => (true, t) | 43 :: t => (false, t) | _ => (false, t) end in
                   let '(e, k, t) := span_digits t 0 0 in
                   if k =? 0 then None else Some (if eneg then - e else e, t)
                 else Some (0, s')
               | [] => Some (0, s')
               end;
    Some (default (S754_infinity neg) (f64_of_decimal neg m (e - frac)), s').

Fixpoint strip_lit (lit s : list Z) : option (list Z) :=
  match lit, s with
  | [], _ => Some s
  | c :: lit, r :: s => if r =? c then strip_lit lit s else None
  | _, [] => None
  end.

(** The deepest nesting read. *)
Definition max_depth : Z := 10000.

Fixpoint parse_value (fuel : nat) (depth : Z) (s : list Z) : option (json * list Z) :=
  match fuel with
  | O => None
  | S fuel =>
    match skip_ws s with
    | [] => None
    | (r :: s') as s =>
      if r =? 34 then '(rs, s) ← parse_string s' 0; Some (JString (string_of_runes rs), s)
      else if r =? 123 then
        if max_depth <=? depth then None
        else '(kvs, s) ← parse_members fuel (depth + 1) true s'; Some (JObject kvs, s)
      else if r =? 91 then
        if max_depth <=? depth then None
        else '(l, s) ← parse_elements fuel (depth + 1) true s'; Some (JArray l, s)
      else if r =? 110 then s ← strip_lit [117; 108; 108] s'; Some (JNull, s)
      else if r =? 116 then s ← strip_lit [114; 117; 101] s'; Some (JBool true, s)
      else if r =? 102 then s ← strip_lit [97; 108; 115; 101] s'; Some (JBool false, s)
      else '(x, s) ← parse_number s; Some (JNumber x, s)
    end
  end
with parse_members (fuel : nat) (depth : Z) (first : bool) (s : list Z) : option (list (string * json) * list Z) :=
  match fuel with
  | O => None
  | S fuel =>
    match skip_ws s with
    | [] => None
    | r :: s =>
      if (r =? 125) && first then Some ([], s)
      else if r =? 34 then
        '(k, s) ← parse_string s 0;
        match skip_ws s with
        | 58 :: s =>
          '(v, s) ← parse_value fuel depth s;
          match skip_ws s with
          | 44 :: s =>
            '(kvs, s) ← parse_members fuel depth false s;
            Some ((string_of_runes k, v) :: kvs, s)
          | 125 :: s => Some ([(string_of_runes k, v)], s)
          | _ => None
          end
        | _ => None
        end
      else None
    end
  end
with parse_elements (fuel : nat) (depth : Z) (first : bool) (s : list Z) : option (list json * list Z) :=
  match fuel with
  | O => None
  | S fuel =>
    if match skip_ws s with r :: _ => (r =? 93) && first | [] => false end then Some ([], tail (skip_ws s))
    else
      '(v, s) ← parse_value fuel depth s;
      match skip_ws s with
      | 44 :: s =>
        '(l, s) ← parse_elements fuel depth false s;
        Some (v :: l, s)
      | 93 :: s => Some ([v], s)
      | _ => None
      end
  end.

(** [json.Decoder.Decode]: the first value of the text. *)
Definition Decode (text : string) : option json :=
  let rs := runes text in fst <$> parse_value (2 * length rs + 2) 0 rs.

(** [json.Unmarshal]: nothing but blanks after the value. *)
Definition Unmarshal (text : string) : option json :=
  let rs := runes text in
  '(v, rest) ← parse_value (2 * length rs + 2) 0 rs;
  match skip_ws rest with [] => Some v | _ => None end.

(** No number is out of range. *)
Fixpoint json_finite (v : json) : bool :=
  match v with
  | JNumber (S754_infinity _) => false
  | JArray l => forallb json_finite l
  | JObject kvs => forallb (fun kv => json_finite kv.2) kvs
  | _ => true
  end.

(** Into a [map[string]any]; null leaves the map nil. *)
Definition as_object (v : json) : option (gmap string json) :=
  if negb (json_finite v) then None
  else match v with
  | JObject kvs => Some (members kvs)
  | JNull => Some ∅
  | _ => None
  end.

(** ** Encoding *)

Definition hex4 (r : Z) : list Z := digit_char <$> [r / 4096; r / 256 mod 16; r / 16 mod 16; r mod 16].

(** A rune of a JSON string; a byte that is not UTF-8 has width 1 and the rune
    U+FFFD. *)
Definition json_rune (rw : Z * nat) : list Z :=
  let '(r, w) := rw in
  if (r =? 34) || (r =? 92) then [92; r]
  else if r =? 8 then [92; 98] else if r =? 12 then [92; 102] else if r =? 10 then [92; 110]
  else if r =? 13 then [92; 114] else if r =? 9 then [92; 116]
  else if (r <? 32) || (r =? 60) || (r =? 62) || (r =? 38) || (r =? 0x2028) || (r =? 0x2029) then [92; 117] ++ hex4 r
  else if (r =? RuneError) && (w =? 1)%nat then [92; 117] ++ hex4 RuneError
  else encode_rune r.

Definition json_string (s : string) : list Z := [34] ++ (range_widths (bytes_of_string s) ≫= json_rune) ++ [34].

Fixpoint json_members (kvs : list (string * string)) : list Z :=
  match kvs with
  | [] => []
  | [(k, v)] => json_string k ++ 58 :: json_string v
  | (k, v) :: kvs => json_string k ++ 58 :: json_string v ++ 44 :: json_members kvs
  end.

(** [json.Marshal] of a map of strings. *)
Definition json_map (m : gmap string string) : string :=
  string_of_bytes ([123] ++ json_members (sort_stable by_key (map_to_list m)) ++ [125]).

(** ** What is written is read back *)

(** A text with its bytes that are not UTF-8 replaced. *)
Definition fix_utf8 (s : string) : string := string_of_runes (runes s).

Lemma fix_utf8_valid s : valid_utf8 s -> fix_utf8 s = s.
Proof. apply string_of_runes_runes. Qed.

(** The runes written for a rune of the text. *)
Definition escape_rune (rw : Z * nat) : list Z :=
  let '(r, w) := rw in
  if (r =? 34) || (r =? 92) then [92; r]
  else if r =? 8 then [92; 98] else if r =? 12 then [92; 102] else if r =? 10 then [92; 110]
  else if r =? 13 then [92; 114] else if r =? 9 then [92; 116]
  else if (r <? 32) || (r =? 60) || (r =? 62) || (r =? 38) || (r =? 0x2028) || (r =? 0x2029) then [92; 117] ++ hex4 r
  else if (r =? RuneError) && (w =? 1)%nat then [92; 117] ++ hex4 RuneError
  else [r].

Lemma ascii_encode l : Forall (fun b => 0 <= b < 128) l -> l ≫= encode_rune = l.
Proof.
  induction 1 as [|b l Hb _ IH]; [done|]. rewrite bind_cons, IH. unfold encode_rune.
  assert (scalarb b = true) as -> by ubool. rewrite (proj2 (Z.ltb_lt b 128)) by lia. done.
Qed.

Lemma hex4_ascii r : 0 <= r < 65536 -> Forall (fun b => 0 <= b < 128) (hex4 r).
Proof.
  intros Hr. unfold hex4. apply Forall_fmap, Forall_forall. intros d Hd. cbn. unfold digit_char.
  assert (0 <= d < 16) by (rewrite !elem_of_cons, elem_of_nil in Hd; destruct Hd as [->|[->|[->|[->|[]]]]]; zlia).
  destruct (Z.ltb_spec d 10); lia.
Qed.

Lemma hex_value_digit d : 0 <= d < 16 -> hex_value (digit_char d) = Some d.
Proof.
  intros Hd. assert (Forall (fun d => hex_value (digit_char d) = Some d) (seqZ 0 16)) as H by (vm_compute; repeat constructor).
  rewrite Forall_forall in H. apply H, elem_of_seqZ. lia.
Qed.

Lemma hex4_value_digits r : 0 <= r < 65536 ->
  hex4_value (digit_char (r / 4096)) (digit_char (r / 256 mod 16)) (digit_char (r / 16 mod 16)) (digit_char (r mod 16)) = Some r.
Proof. intros Hr. unfold hex4_value. rewrite !hex_value_digit by zlia. cbn. f_equal. zlia. Qed.

Lemma json_rune_escape rw : scalar rw.1 -> json_rune rw = escape_rune rw ≫= encode_rune /\ Forall scalar (escape_rune rw).
Proof.
  destruct rw as [r w]. cbn [fst]. intros Hr. pose proof (proj2 (scalarb_spec r) Hr) as Hs.
  assert (forall l, Forall (fun b => 0 <= b < 128) l -> l = l ≫= encode_rune /\ Forall scalar l) as Hascii.
  { intros l Hl. split; [by rewrite ascii_encode|]. eapply Forall_impl; [exact Hl|]. intros b Hb. cbn in Hb. unfold scalar. lia. }
  unfold json_rune, escape_rune.
  repeat match goal with |- context [if ?b then _ else _] => destruct b eqn:? end;
    try (apply Hascii; repeat (apply Forall_cons; split; [lia|]); try done; apply hex4_ascii; unfold RuneError; unfold scalarb, in_range in Hs; lia).
  split; [|by constructor]. cbn. by rewrite app_nil_r.
Qed.

Lemma parse_escaped rws t :
  Forall scalar rws.*1 ->
  parse_string ((rws ≫= escape_rune) ++ 34 :: t) 0 = Some (rws.*1, t).
Proof.
  induction rws as [|[r w] rws IH]; intros Hs; [done|]. apply Forall_cons in Hs as [Hr Hs]. cbn [fst] in Hr. specialize (IH Hs).
  assert (forall u, 0 <= u < 65536 -> in_range 55296 57343 u = false ->
    parse_string ([92; 117] ++ hex4 u ++ (rws ≫= escape_rune) ++ 34 :: t) 0 = Some (u :: rws.*1, t)) as Hu.
  { intros u Hu Hsur. cbn [app hex4 fmap list_fmap parse_string]. cbn [Z.eqb Pos.eqb Z.ltb Z.compare Pos.compare Pos.compare_cont].
    rewrite hex4_value_digits by done. rewrite Hsur, IH. done. }
  rewrite bind_cons, <- app_assoc.
  pose proof (proj2 (scalarb_spec r) Hr) as Hsb. unfold scalarb, in_range in Hsb.
  unfold escape_rune at 1. cbn [fmap list_fmap fst].
  destruct ((r =? 34) || (r =? 92)) eqn:E1.
  { cbn [app parse_string]. change (92 =? 34) with false. change (92 <? 32) with false. change (92 =? 92) with true.
    cbn match. rewrite (proj2 (Z.eqb_neq r 117)) by lia. unfold simple_escape. rewrite orb_true_intro by (left; lia). by rewrite IH. }
  destruct (Z.eqb_spec r 8) as [->|]; [cbn [app]; cbn; by rewrite IH|].
  destruct (Z.eqb_spec r 12) as [->|]; [cbn [app]; cbn; by rewrite IH|].
  destruct (Z.eqb_spec r 10) as [->|]; [cbn [app]; cbn; by rewrite IH|].
  destruct (Z.eqb_spec r 13) as [->|]; [cbn [app]; cbn; by rewrite IH|].
  destruct (Z.eqb_spec r 9) as [->|]; [cbn [app]; cbn; by rewrite IH|].
  destruct (_ || (r =? 0x2029)) eqn:E2.
  { apply (Hu r); unfold in_range; lia. }
  destruct ((r =? RuneError) && (w =? 1)%nat) eqn:E3.
  { assert (r = RuneError) as -> by lia. apply (Hu RuneError); [unfold RuneError; lia|done]. }
  cbn [app parse_string]. rewrite (proj2 (Z.eqb_neq r 34)), (proj2 (Z.ltb_ge r 32)), (proj2 (Z.eqb_neq r 92)) by lia. by rewrite IH.
Qed.

Lemma escape_runes_of rws t :
  Forall scalar rws.*1 ->
  runes_of_bytes ((rws ≫= json_rune) ++ t) = (rws ≫= escape_rune) ++ runes_of_bytes t.
Proof.
  induction rws as [|rw rws IH]; intros Hs; [done|]. apply Forall_cons in Hs as [Hr Hs].
  destruct (json_rune_escape rw Hr) as [E Hsc]. rewrite !bind_cons, <- !app_assoc, E, runes_of_encode by done. by rewrite IH.
Qed.

(** The runes of a written string. *)
Definition string_runes (s : string) : list Z := 34 :: (range_widths (bytes_of_string s) ≫= escape_rune) ++ [34].

Lemma widths_scalar s : Forall scalar (range_widths (bytes_of_string s)).*1.
Proof. rewrite range_widths_runes. apply runes_scalar. Qed.

Lemma runes_of_ascii b t : 0 <= b < 128 -> runes_of_bytes (b :: t) = b :: runes_of_bytes t.
Proof. intros Hb. cbn. by rewrite (proj2 (Z.ltb_lt b 128)) by lia. Qed.

Lemma runes_json_string s t : runes_of_bytes (json_string s ++ t) = string_runes s ++ runes_of_bytes t.
Proof.
  unfold json_string, string_runes. cbn [app]. rewrite runes_of_ascii, <- app_assoc by lia.
  rewrite escape_runes_of by apply widths_scalar. cbn [app]. rewrite runes_of_ascii by lia. by rewrite <- app_assoc.
Qed.

Lemma parse_json_string s t : parse_string (tail (string_runes s ++ t)) 0 = Some (runes s, t).
Proof.
  unfold string_runes. cbn [app tail]. rewrite <- app_assoc. cbn [app]. rewrite parse_escaped by apply widths_scalar.
  by rewrite range_widths_runes.
Qed.

Fixpoint members_runes (kvs : list (string * string)) : list Z :=
  match kvs with
  | [] => []
  | [(k, v)] => string_runes k ++ 58 :: string_runes v
  | (k, v) :: kvs => string_runes k ++ 58 :: string_runes v ++ 44 :: members_runes kvs
  end.

Lemma runes_json_members kvs t : runes_of_bytes (json_members kvs ++ t) = members_runes kvs ++ runes_of_bytes t.
Proof.
  induction kvs as [|[k v] [|kv kvs] IH]; [done| |].
  - cbn [json_members members_runes]. rewrite <- !app_assoc. cbn [app]. rewrite runes_json_string, runes_of_ascii by lia.
    by rewrite runes_json_string.
  - change (json_members ((k, v) :: kv :: kvs)) with (json_string k ++ 58 :: json_string v ++ 44 :: json_members (kv :: kvs)).
    change (members_runes ((k, v) :: kv :: kvs)) with (string_runes k ++ 58 :: string_runes v ++ 44 :: members_runes (kv :: kvs)).
    rewrite <- !app_assoc. cbn [app]. rewrite <- !app_assoc. cbn [app].
    rewrite runes_json_string, runes_of_ascii, runes_json_string, runes_of_ascii by lia. by rewrite IH.
Qed.

(** A pair as it is read back. *)
Definition read_pair (kv : string * string) : string * json := (fix_utf8 kv.1, JString (fix_utf8 kv.2)).

Lemma parse_value_string fuel d s t : parse_value (S fuel) d (string_runes s ++ t) = Some (JString (fix_utf8 s), t).
Proof.
  pose proof (parse_json_string s t) as H. unfold string_runes in *. cbn [app tail] in H. cbn [app parse_value skip_ws].
  change (is_ws 34) with false. cbn match. change (34 =? 34) with true. cbn match. by rewrite H.
Qed.

Lemma parse_member fuel d first k s :
  parse_members (S fuel) d first (string_runes k ++ s)
  = match skip_ws s with
    | 58 :: s =>
      '(v, s) ← parse_value fuel d s;
      match skip_ws s with
      | 44 :: s => '(kvs, s) ← parse_members fuel d false s; Some ((fix_utf8 k, v) :: kvs, s)
      | 125 :: s => Some ([(fix_utf8 k, v)], s)
      | _ => None
      end
    | _ => None
    end.
Proof.
  pose proof (parse_json_string k s) as H. unfold string_runes in *. cbn [app tail] in H. cbn [app parse_members skip_ws].
  change (is_ws 34) with false. cbn match. change (34 =? 125) with false. change (34 =? 34) with true. cbn [andb]. by rewrite H.
Qed.

Lemma parse_pairs fuel d first kv kvs t :
  (length kvs + 1 < fuel)%nat ->
  parse_members fuel d first (members_runes (kv :: kvs) ++ 125 :: t) = Some (read_pair <$> kv :: kvs, t).
Proof.
  revert fuel first kv. induction kvs as [|kv' kvs IH]; intros [|[|fuel]] first [k v] Hf; cbn [length] in Hf; try lia.
  - cbn [members_runes]. rewrite <- app_assoc. cbn [app]. rewrite parse_member. cbn [skip_ws]. change (is_ws 58) with false. cbn match.
    rewrite parse_value_string. reflexivity.
  - change (members_runes ((k, v) :: kv' :: kvs)) with (string_runes k ++ 58 :: string_runes v ++ 44 :: members_runes (kv' :: kvs)).
    rewrite <- !app_assoc. cbn [app]. rewrite <- !app_assoc. cbn [app].
    rewrite parse_member. cbn [skip_ws]. change (is_ws 58) with false. cbn match. rewrite parse_value_string. cbn [mbind option_bind].
    cbn [skip_ws]. change (is_ws 44) with false. cbn match. rewrite IH by lia. reflexivity.
Qed.

Lemma string_runes_length s : (2 <= length (string_runes s))%nat.
Proof. unfold string_runes. cbn [length]. rewrite length_app. cbn [length]. lia. Qed.

Lemma members_runes_length kvs : (length kvs <= length (members_runes kvs))%nat.
Proof.
  induction kvs as [|[k v] [|kv kvs] IH]; [done| |].
  - cbn [members_runes length]. rewrite length_app. pose proof (string_runes_length k). lia.
  - change (members_runes ((k, v) :: kv :: kvs)) with (string_runes k ++ 58 :: string_runes v ++ 44 :: members_runes (kv :: kvs)).
    rewrite length_app. cbn [length] in *. rewrite length_app. cbn [length]. pose proof (string_runes_length k). lia.
Qed.

Lemma json_string_u8 s : Forall is_u8 (json_string s).
Proof.
  unfold json_string. apply Forall_cons. split; [unfold is_u8; lia|]. apply Forall_app. split; [|repeat constructor; unfold is_u8; lia].
  pose proof (widths_scalar s) as H. revert H. generalize (range_widths (bytes_of_string s)). intros rws H.
  induction rws as [|rw rws IH]; [constructor|]. apply Forall_cons in H as [Hr H]. rewrite bind_cons. apply Forall_app. split; [|by apply IH].
  destruct (json_rune_escape rw Hr) as [-> _]. apply encode_runes_u8.
Qed.

Lemma json_members_u8 kvs : Forall is_u8 (json_members kvs).
Proof.
  assert (forall c l, 0 <= c < 128 -> Forall is_u8 l -> Forall is_u8 (c :: l)) as Hc by (intros; constructor; [unfold is_u8; lia|done]).
  induction kvs as [|[k v] [|kv kvs] IH]; [constructor| |].
  - apply Forall_app. split; [apply json_string_u8|]. apply Hc; [lia|apply json_string_u8].
  - change (json_members ((k, v) :: kv :: kvs)) with (json_string k ++ 58 :: json_string v ++ 44 :: json_members (kv :: kvs)).
    apply Forall_app. split; [apply json_string_u8|]. apply Hc; [lia|]. apply Forall_app. split; [apply json_string_u8|]. by apply Hc; [lia|].
Qed.

(** The JSON text of a map is read back as its pairs. *)
Lemma Unmarshal_json_map m : exists kvs, Unmarshal (json_map m) = Some (JObject (read_pair <$> kvs)) /\ kvs ≡ₚ map_to_list m.
Proof.
  exists (sort_stable by_key (map_to_list m)). split; [|apply sort_stable_Permutation].
  unfold json_map. set (kvs := sort_stable _ _). unfold Unmarshal, runes. rewrite bytes_of_string_of_bytes.
  2: { cbn [app]. apply Forall_cons. split; [unfold is_u8; lia|]. apply Forall_app. split; [apply json_members_u8|repeat constructor; unfold is_u8; lia]. }
  cbn [app]. rewrite runes_of_ascii, runes_json_members, runes_of_ascii by lia. change (runes_of_bytes []) with (@nil Z).
  set (n := length (123 :: members_runes kvs ++ [125])).
  assert (length kvs + 2 <= n)%nat as Hn.
  { subst n. cbn [length]. rewrite length_app. pose proof (members_runes_length kvs). cbn [length]. lia. }
  replace (2 * n + 2)%nat with (S (2 * n + 1)) by lia.
  assert (forall d, parse_members (2 * n + 1) d true (members_runes kvs ++ [125]) = Some (read_pair <$> kvs, [])) as H.
  { intros d. destruct kvs as [|kv kvs']; [by replace (2 * n + 1)%nat with (S (2 * n)) by lia|]. apply parse_pairs. cbn [length] in Hn. lia. }
  cbn [parse_value skip_ws]. change (is_ws 123) with false. cbn match. change (123 =? 34) with false. change (123 =? 123) with true. cbn match.
  change (max_depth <=? 0) with false. cbn match. by rewrite H.
Qed.

(** ** Examples *)

Example sprint_numbers :
  (fun s => Sprint <$> Decode s) <$> ["0"; "7"; "-0"; "123456"; "1234567"; "12345678"; "9007199254740993"; "0.1"; "1e-7"; "1E400"; "2.50"; "01"; "-12.75e2"; "5e-324"]
  = [Some "0"; Some "7"; Some "-0"; Some "123456"; Some "1.234567e+06"; Some "1.2345678e+07"; Some "9.007199254740992e+15"; Some "0.1"; Some "1e-07"; Some "+Inf";
     Some "2.5"; Some "0"; Some "-1275"; Some "5e-324"].
Proof. vm_compute. reflexivity. Qed.
