(* ===== verification/HttpRule.v ===== *)
(** * Requests to HTTP upstreams: internal/httprule/request.go

    The request a rule makes of a message. From the standard library: the
    escaping of [net/url] and its inverse, [strings.NewReplacer] on the keys
    used and canonical header names. *)

From S2P Require Import Prelude Unicode Codec Segment Num GoParse Addr Router FilterAC Filter Config Json.

(** ** URL encoding *)

Definition url_unreserved (c : Z) : bool :=
  in_range 65 90 c || in_range 97 122 c || is_digit_byte c || (c =? 45) || (c =? 95) || (c =? 46) || (c =? 126).

Definition upper_hex (d : Z) : Z := if d <? 10 then 48 + d else 55 + d.

Definition escape_byte (c : Z) : list Z :=
  if url_unreserved c then [c]
  else if c =? 32 then [43]
  else [37; upper_hex (c / 16); upper_hex (c mod 16)].

(** [url.QueryEscape], on bytes. *)
Definition query_escape (s : list Z) : list Z := s ≫= escape_byte.

(** [url.QueryUnescape]. *)
Fixpoint query_unescape (s : list Z) : option (list Z) :=
  match s with
  | [] => Some []
  | c :: s =>
    if c =? 37 then
      match s with
      | h :: l :: s =>
        h ← hex_value h;
        l ← hex_value l;
        cons (h * 16 + l) <$> query_unescape s
      | _ => None
      end
    else cons (if c =? 43 then 32 else c) <$> query_unescape s
  end.

(** [strings.Join(parts, "&")]. *)
Fixpoint join_amp (parts : list (list Z)) : list Z :=
  match parts with
  | [] => []
  | [p] => p
  | p :: parts => p ++ 38 :: join_amp parts
  end.

Definition encode_pair (kv : string * string) : list Z :=
  query_escape (bytes_of_string kv.1) ++ 61 :: query_escape (bytes_of_string kv.2).

(** [values.Encode()] for one value per key: the keys in order. *)
Definition Encode (values : gmap string string) : string :=
  string_of_bytes (join_amp (encode_pair <$> sort_stable by_key (map_to_list values))).

(** One segment of [url.parseQuery]: a pair, nothing, or an error. *)
Definition parse_segment (seg : list Z) : option (option (string * string)) :=
  if bool_decide (59 ∈ seg) then None
  else
    match seg with
    | [] => Some None
    | _ =>
      let '(k, v) := match index_byte 61 seg with Some i => (take i seg, drop (i + 1) seg) | None => (seg, []) end in
      k ← query_unescape k;
      v ← query_unescape v;
      Some (Some (string_of_bytes k, string_of_bytes v))
    end.

(** [url.ParseQuery]: the pairs read and whether something could not be. *)
Fixpoint parse_segments (segs : list (list Z)) : list (string * string) * bool :=
  match segs with
  | [] => ([], false)
  | seg :: segs =>
    let '(kvs, err) := parse_segments segs in
    match parse_segment seg with
    | None => (kvs, true)
    | Some None => (kvs, err)
    | Some (Some kv) => (kv :: kvs, err)
    end
  end.

Definition ParseQuery (query : string) : list (string * string) * bool := parse_segments (split_byte 38 (bytes_of_string query) []).

(** ** Fields of a message *)

(** [strings.NewReplacer(...).Replace]: no key is a prefix of another. *)
Fixpoint replace_at (pairs : list (string * string)) (s : string) : option (nat * string) :=
  match pairs with
  | [] => None
  | (old, new) :: pairs => if HasPrefix s old then Some (slen old, new) else replace_at pairs s
  end.

Fixpoint replace_loop (pairs : list (string * string)) (skip : nat) (s : string) : string :=
  match s with
  | EmptyString => EmptyString
  | String a rest =>
    match skip with
    | S skip => replace_loop pairs skip rest
    | O =>
      match replace_at pairs s with
      | Some (n, new) => new +:+ replace_loop pairs (n - 1) rest
      | None => String a (replace_loop pairs 0 rest)
      end
    end
  end.

(** What the code reads of a message. *)
Record rule_message := mkRuleMessage {
  rm_ID : string;
  rm_From : string;
  rm_To : string;
  rm_Text : string;
  rm_Encoding : string;
  rm_Metadata : option (gmap string string) }.

Definition MessageField (msg : rule_message) (fld : string) : string :=
  if bool_decide (fld = "id") then rm_ID msg
  else if bool_decide (fld = "from") then rm_From msg
  else if bool_decide (fld = "to") then rm_To msg
  else if bool_decide (fld = "text") then rm_Text msg
  else if bool_decide (fld = "encoding") then rm_Encoding msg
  else default "" (rm_Metadata msg ≫= fun m => m !! fld).

Definition ExpandMessage (template : string) (msg : rule_message) : string :=
  replace_loop [("{{id}}", rm_ID msg); ("{{from}}", rm_From msg); ("{{to}}", rm_To msg); ("{{text}}", rm_Text msg);
                ("{{encoding}}", rm_Encoding msg)] 0 template.

(** ** The request *)

Record outbound_request := mkOutboundRequest {
  or_Method : string;
  or_URL : string;
  or_Body : option string;
  or_Header : gmap string string }.

(** [textproto.CanonicalMIMEHeaderKey]: a name with a byte that is not a token
    character stays as it is. *)
Definition token_byte (c : Z) : bool :=
  in_range 65 90 c || in_range 97 122 c || is_digit_byte c || bool_decide (c ∈ [33; 35; 36; 37; 38; 39; 42; 43; 45; 46; 94; 95; 96; 124; 126]).

Fixpoint canonical_loop (upper : bool) (s : list Z) : list Z :=
  match s with
  | [] => []
  | c :: s =>
    (if upper then (if in_range 97 122 c then c - 32 else c) else (if in_range 65 90 c then c + 32 else c)) :: canonical_loop (c =? 45) s
  end.

Definition canonical_key (k : string) : string :=
  let s := bytes_of_string k in
  if forallb token_byte s then string_of_bytes (canonical_loop true s) else k.

(** [strings.ToUpper], compared with ASCII methods only. *)
Definition ToUpper (s : string) : string := string_of_runes (upper_rune <$> runes s).

Definition contains_byte (c : Z) (s : string) : bool := bool_decide (c ∈ bytes_of_string s).

Definition rule_values (fields : gmap string string) (msg : rule_message) : gmap string string :=
  MessageField msg <$> filter (fun kv => HasPrefix kv.1 "__" = false) fields.

Section request.
(** [http.NewRequest] refuses a method or a URL; the order of a range over the
    headers. *)
Context (valid_request : string -> string -> bool) (range : gmap string string -> list (string * string)).

Definition BuildOutboundRequest (endpoint : string) (rule : HTTPRuleConfig) (msg : rule_message) : option outbound_request :=
  let values := rule_values (hr_Fields rule) msg in
  let method := ToUpper (hr_Method rule) in
  let method := if bool_decide (method = "") then "POST" else method in
  let contentType := if bool_decide (hr_ContentType rule = "") then "application/x-www-form-urlencoded" else hr_ContentType rule in
  let '(requestURL, body) :=
    if bool_decide (method = "GET") then
      (endpoint +:+ (if contains_byte 63 endpoint then "&" else "?") +:+ Encode values, None)
    else if bool_decide (contentType = "application/json") then (endpoint, Some (json_map values))
    else (endpoint, Some (Encode values)) in
  if negb (valid_request method requestURL) then None
  else
    let header := <[canonical_key "Content-Type" := contentType]> ∅ in
    let header := foldl (fun h kv => <[canonical_key kv.1 := ExpandMessage kv.2 msg]> h) header (range (hr_Headers rule)) in
    Some (mkOutboundRequest method requestURL body header).
End request.

(** ** Round trip *)

Lemma hex_value_upper d : 0 <= d < 16 -> hex_value (upper_hex d) = Some d.
Proof.
  intros Hd. assert (Forall (fun d => hex_value (upper_hex d) = Some d) (seqZ 0 16)) as H by (vm_compute; repeat constructor).
  rewrite Forall_forall in H. apply H, elem_of_seqZ. lia.
Qed.

Lemma query_escape_cons c s : query_escape (c :: s) = escape_byte c ++ query_escape s.
Proof. reflexivity. Qed.

(** What the escaping of one byte is made of. *)
Lemma escape_byte_ok c : is_u8 c -> Forall (fun b => is_u8 b /\ b <> 38 /\ b <> 59 /\ b <> 61) (escape_byte c).
Proof.
  intros Hc. assert (forallb (fun c => forallb (fun b => (0 <=? b) && (b <? 256) && negb (b =? 38) && negb (b =? 59) && negb (b =? 61)) (escape_byte c)) (seqZ 0 256) = true) as H by (vm_compute; reflexivity).
  rewrite forallb_forall in H. specialize (H c). rewrite <- list_elem_of_In, elem_of_seqZ in H. unfold is_u8 in *.
  specialize (H ltac:(lia)). apply Forall_forall. intros b Hb. rewrite forallb_forall in H.
  specialize (H b ltac:(by apply list_elem_of_In)). lia.
Qed.

Lemma query_escape_ok s : Forall is_u8 s -> Forall (fun b => is_u8 b /\ b <> 38 /\ b <> 59 /\ b <> 61) (query_escape s).
Proof. intros H. unfold query_escape. induction H; cbn; [constructor|]. apply Forall_app. split; [by apply escape_byte_ok|done]. Qed.

Lemma query_unescape_escape s : Forall is_u8 s -> query_unescape (query_escape s) = Some s.
Proof.
  induction 1 as [|c s Hc _ IH]; [done|]. rewrite query_escape_cons. unfold escape_byte. destruct (url_unreserved c) eqn:Eu.
  - cbn [app]. assert (c <> 37 /\ c <> 43) as [H1 H2] by (split; intros ->; discriminate Eu).
    cbn [query_unescape]. rewrite (proj2 (Z.eqb_neq c 37) H1), (proj2 (Z.eqb_neq c 43) H2). by rewrite IH.
  - destruct (Z.eqb_spec c 32) as [-> |Hn].
    + cbn. by rewrite IH.
    + unfold is_u8 in Hc. cbn [app query_unescape]. rewrite Z.eqb_refl, !hex_value_upper by zlia.
      cbn. rewrite IH. cbn. do 2 f_equal. zlia.
Qed.

Lemma index_byte_app c s t : Forall (fun b => b <> c) s -> index_byte c (s ++ c :: t) = Some (length s).
Proof.
  induction 1 as [|b s Hb _ IH]; cbn.
  - unfold is_byte. by rewrite Z.eqb_refl.
  - unfold is_byte. rewrite (proj2 (Z.eqb_neq b c) Hb). by rewrite IH.
Qed.

Lemma split_byte_app c s t cur : Forall (fun b => b <> c) s -> split_byte c (s ++ c :: t) cur = (cur ++ s) :: split_byte c t [].
Proof.
  intros H. revert cur. induction H as [|b s Hb _ IH]; intros cur; cbn.
  - by rewrite Z.eqb_refl, app_nil_r.
  - rewrite (proj2 (Z.eqb_neq b c) Hb), IH, <- app_assoc. done.
Qed.

Lemma split_byte_none c s cur : Forall (fun b => b <> c) s -> split_byte c s cur = [cur ++ s].
Proof.
  intros H. revert cur. induction H as [|b s Hb _ IH]; intros cur; cbn; [by rewrite app_nil_r|].
  rewrite (proj2 (Z.eqb_neq b c) Hb), IH, <- app_assoc. done.
Qed.

Lemma split_join p parts : Forall (Forall (fun b => b <> 38)) (p :: parts) -> split_byte 38 (join_amp (p :: parts)) [] = p :: parts.
Proof.
  revert p. induction parts as [|q parts IH]; intros p H; apply Forall_cons in H as [Hp H].
  - cbn [join_amp]. by rewrite split_byte_none.
  - change (join_amp (p :: q :: parts)) with (p ++ 38 :: join_amp (q :: parts)). rewrite split_byte_app by done.
    by rewrite IH.
Qed.

Lemma encode_pair_ok kv : Forall (fun b => is_u8 b /\ b <> 38 /\ b <> 59) (encode_pair kv).
Proof.
  unfold encode_pair. apply Forall_app. split; [|apply Forall_cons; split; [unfold is_u8; lia|]];
    (eapply Forall_impl; [apply query_escape_ok, bytes_of_string_u8|]); cbn; tauto.
Qed.

Lemma parse_encode_pair kv : parse_segment (encode_pair kv) = Some (Some kv).
Proof.
  unfold parse_segment. rewrite bool_decide_eq_false_2.
  2: { intros H. pose proof (encode_pair_ok kv) as Hok. rewrite Forall_forall in Hok. destruct (Hok _ H) as (_ & _ & Hn). done. }
  assert (exists b s, encode_pair kv = b :: s) as (b & s & E).
  { unfold encode_pair. destruct (query_escape _); cbn; eauto. }
  rewrite E. rewrite <- E. unfold encode_pair.
  rewrite index_byte_app by (eapply Forall_impl; [apply query_escape_ok, bytes_of_string_u8|]; cbn; tauto).
  rewrite take_app_length, drop_app_ge by lia. rewrite Nat.add_comm, Nat.add_sub. cbn [drop]. rewrite drop_0.
  rewrite !query_unescape_escape by apply bytes_of_string_u8.
  cbn [mbind option_bind].
  rewrite !string_of_bytes_of_string. by destruct kv.
Qed.

Lemma parse_encode_pairs kvs : parse_segments (encode_pair <$> kvs) = (kvs, false).
Proof. induction kvs as [|kv kvs IH]; [done|]. rewrite fmap_cons. cbn [parse_segments]. by rewrite IH, parse_encode_pair. Qed.

Lemma join_amp_u8 parts : Forall (Forall is_u8) parts -> Forall is_u8 (join_amp parts).
Proof.
  induction 1 as [|p [|q parts] Hp H IH]; [constructor|done|].
  change (join_amp (p :: q :: parts)) with (p ++ 38 :: join_amp (q :: parts)). apply Forall_app. split; [done|].
  apply Forall_cons. split; [unfold is_u8; lia|done].
Qed.

Lemma ParseQuery_pairs kvs : ParseQuery (string_of_bytes (join_amp (encode_pair <$> kvs))) = (kvs, false).
Proof.
  unfold ParseQuery. destruct kvs as [|kv kvs]; [done|].
  assert (Forall (fun p => Forall (fun b => is_u8 b /\ b <> 38 /\ b <> 59) p) (encode_pair <$> kv :: kvs)) as Hok.
  { apply Forall_fmap, Forall_true. intros kv'. apply encode_pair_ok. }
  rewrite bytes_of_string_of_bytes.
  - rewrite fmap_cons, split_join, <- fmap_cons; [apply parse_encode_pairs|].
    rewrite <- fmap_cons. eapply Forall_impl; [exact Hok|]. intros p Hp. eapply Forall_impl; [exact Hp|]. cbn; tauto.
  - apply join_amp_u8. eapply Forall_impl; [exact Hok|]. intros p Hp. eapply Forall_impl; [exact Hp|]. cbn; tauto.
Qed.

Lemma ParseQuery_Encode m : exists kvs, ParseQuery (Encode m) = (kvs, false) /\ kvs ≡ₚ map_to_list m.
Proof. eexists. split; [apply ParseQuery_pairs|apply sort_stable_Permutation]. Qed.

(** A query appended to one that was there. *)
Lemma parse_segments_app l l' :
  parse_segments (l ++ l') = ((parse_segments l).1 ++ (parse_segments l').1, (parse_segments l).2 || (parse_segments l').2).
Proof.
  induction l as [|seg l IH]; [cbn [app parse_segments fst snd]; by destruct (parse_segments l')|]. cbn [app parse_segments]. rewrite IH.
  destruct (parse_segments l) as [kvs err]. cbn [fst snd]. by destruct (parse_segment seg) as [[kv|]|]; rewrite ?orb_true_l.
Qed.

Lemma split_byte_amp c s t cur : split_byte c (s ++ c :: t) cur = split_byte c s cur ++ split_byte c t [].
Proof.
  revert cur. induction s as [|b s IH]; intros cur; cbn; [by rewrite Z.eqb_refl|]. destruct (b =? c); [|apply IH]. cbn. by rewrite IH.
Qed.

Lemma ParseQuery_append q q' :
  ParseQuery (q +:+ "&" +:+ q') = ((ParseQuery q).1 ++ (ParseQuery q').1, (ParseQuery q).2 || (ParseQuery q').2).
Proof. unfold ParseQuery. rewrite !bytes_of_string_app. change (bytes_of_string "&") with [38]. cbn [app]. by rewrite split_byte_amp, parse_segments_app. Qed.

(** [url.Parse]: the query of a URL is what follows the first question mark of
    the part before the fragment. *)
Definition before_byte (c : Z) (s : list Z) : list Z := match index_byte c s with Some i => take i s | None => s end.
Definition after_byte (c : Z) (s : list Z) : list Z := match index_byte c s with Some i => drop (i + 1) s | None => [] end.
Definition RawQuery (u : string) : string := string_of_bytes (after_byte 63 (before_byte 35 (bytes_of_string u))).

Lemma index_byte_None c s : c ∉ s -> index_byte c s = None.
Proof.
  induction s as [|b s IH]; intros H; [done|]. apply not_elem_of_cons in H as [Hb H]. cbn. unfold is_byte.
  rewrite (proj2 (Z.eqb_neq b c)) by congruence. by rewrite IH.
Qed.

Lemma index_byte_split c (s : list Z) : c ∈ s -> exists s1 s2, s = (s1 ++ c :: s2)%list /\ Forall (fun b => b <> c) s1.
Proof.
  induction s as [|b s IH]; intros H; [by apply not_elem_of_nil in H|]. destruct (decide (b = c)) as [->|Hne]; [by exists [], s|].
  apply elem_of_cons in H as [->|H]; [done|]. destruct (IH H) as (s1 & s2 & -> & H1). exists (b :: s1), s2. split; [done|]. by constructor.
Qed.

Lemma before_byte_id c s : c ∉ s -> before_byte c s = s.
Proof. intros H. unfold before_byte. by rewrite index_byte_None. Qed.

Lemma after_byte_app c s t : Forall (fun b => b <> c) s -> after_byte c (s ++ c :: t) = t.
Proof. intros H. unfold after_byte. rewrite index_byte_app by done. rewrite drop_app_ge by lia. by replace (length s + 1 - length s)%nat with 1%nat by lia. Qed.

(** No byte of an encoded query begins a fragment. *)
Lemma escape_no_hash s : Forall is_u8 s -> 35 ∉ query_escape s.
Proof.
  assert (forallb (fun c => negb (bool_decide (35 ∈ escape_byte c))) (seqZ 0 256) = true) as H by (vm_compute; reflexivity). rewrite forallb_forall in H.
  induction 1 as [|c s Hc _ IH]; [apply not_elem_of_nil|]. rewrite query_escape_cons. apply not_elem_of_app. split; [|done].
  specialize (H c). rewrite <- list_elem_of_In, elem_of_seqZ in H. unfold is_u8 in Hc. specialize (H ltac:(lia)). by apply negb_true_iff, bool_decide_eq_false in H.
Qed.

Lemma join_no_hash parts : Forall (fun p => 35 ∉ p) parts -> 35 ∉ join_amp parts.
Proof.
  induction 1 as [|p [|q parts] Hp H IH]; [apply not_elem_of_nil|done|].
  change (join_amp (p :: q :: parts)) with (p ++ 38 :: join_amp (q :: parts)). rewrite not_elem_of_app, not_elem_of_cons. done.
Qed.

Lemma Encode_bytes values : bytes_of_string (Encode values) = join_amp (encode_pair <$> sort_stable by_key (map_to_list values)).
Proof.
  apply bytes_of_string_of_bytes, join_amp_u8, Forall_fmap, Forall_true. intros kv. eapply Forall_impl; [apply encode_pair_ok|]. cbn; tauto.
Qed.

Lemma Encode_no_hash values : 35 ∉ bytes_of_string (Encode values).
Proof.
  rewrite Encode_bytes. apply join_no_hash, Forall_fmap, Forall_true. intros kv. cbn. unfold encode_pair.
  rewrite not_elem_of_app, not_elem_of_cons. split_and!; [apply escape_no_hash, bytes_of_string_u8|done|apply escape_no_hash, bytes_of_string_u8].
Qed.

(** The query of the URL built: what the endpoint had, and the pairs. *)
Lemma RawQuery_appended endpoint values :
  contains_byte 35 endpoint = false ->
  let old := ParseQuery (RawQuery endpoint) in
  ParseQuery (RawQuery (endpoint +:+ (if contains_byte 63 endpoint then "&" else "?") +:+ Encode values))
  = (old.1 ++ (ParseQuery (Encode values)).1, old.2 || (ParseQuery (Encode values)).2).
Proof.
  intros H%bool_decide_eq_false. cbn zeta. set (sep := if contains_byte 63 endpoint then "&" else "?").
  assert (RawQuery (endpoint +:+ sep +:+ Encode values) = string_of_bytes (after_byte 63 (bytes_of_string endpoint ++ bytes_of_string sep ++ bytes_of_string (Encode values)))) as ->.
  { unfold RawQuery. rewrite !bytes_of_string_app, before_byte_id; [done|]. rewrite !not_elem_of_app. split_and!; [done| |apply Encode_no_hash].
    unfold sep. by destruct (contains_byte _ _); intros [E|E%not_elem_of_nil]%elem_of_cons. }
  unfold RawQuery at 1 2. rewrite before_byte_id by done. unfold sep, contains_byte. case_bool_decide as Hq.
  - apply index_byte_split in Hq as (s1 & s2 & E & H1). rewrite E, <- app_assoc. cbn [app]. rewrite !after_byte_app by done.
    assert (Forall is_u8 s2) as Hs2 by (pose proof (bytes_of_string_u8 endpoint) as Hu; rewrite E in Hu; apply Forall_app in Hu as [_ Hu]; by apply Forall_cons in Hu as [_ Hu]).
    rewrite <- ParseQuery_append. f_equal. rewrite <- (string_of_bytes_of_string (string_of_bytes s2 +:+ "&" +:+ Encode values)).
    by rewrite !bytes_of_string_app, bytes_of_string_of_bytes.
  - cbn [app bytes_of_string]. change (bytes_of_string "?") with [63]. cbn [app]. rewrite after_byte_app by (apply Forall_forall; by intros b Hb ->).
    unfold after_byte. rewrite index_byte_None by done. change (ParseQuery (string_of_bytes [])) with (@nil (string * string), false).
    rewrite string_of_bytes_of_string. by destruct (ParseQuery _).
Qed.

(** The values of the fields, without the entries for the response. *)
Definition fields_of (rule : HTTPRuleConfig) (msg : rule_message) (kvs : list (string * string)) : Prop :=
  NoDup kvs.*1 /\
  forall target value, (target, value) ∈ kvs <->
    HasPrefix target "__" = false /\ exists source, hr_Fields rule !! target = Some source /\ value = MessageField msg source.

Lemma fields_of_values rule msg kvs : kvs ≡ₚ map_to_list (rule_values (hr_Fields rule) msg) -> fields_of rule msg kvs.
Proof.
  intros Hkvs. split; [rewrite Hkvs; apply NoDup_fst_map_to_list|]. intros target value.
  rewrite Hkvs, elem_of_map_to_list. unfold rule_values. rewrite lookup_fmap, fmap_Some. setoid_rewrite map_lookup_filter_Some. naive_solver.
Qed.

(** C30: The request built for a provider carries exactly the fields of the rule
    with the values of the message: a form body decodes to them whatever bytes
    they have, a JSON body when they are valid UTF-8 and otherwise with the
    replacement character for what is not, and the query of a GET, for an
    endpoint without a fragment, to the pairs the endpoint had followed by
    them. *)
Theorem request_roundtrip (valid_request : string -> string -> bool) range endpoint rule msg req
  (Hreq : BuildOutboundRequest valid_request range endpoint rule msg = Some req) :
  exists kvs,
    fields_of rule msg kvs /\
    if bool_decide (or_Method req = "GET") then
      or_Body req = None /\
      (contains_byte 35 endpoint = false ->
       let old := ParseQuery (RawQuery endpoint) in ParseQuery (RawQuery (or_URL req)) = (old.1 ++ kvs, old.2))
    else
      or_URL req = endpoint /\
      exists body, or_Body req = Some body /\
        if bool_decide (hr_ContentType rule = "application/json") then
          Unmarshal body = Some (JObject (read_pair <$> kvs))
          /\ (Forall (fun kv => valid_utf8 kv.1 /\ valid_utf8 kv.2) kvs -> Unmarshal body = Some (JObject (prod_map id JString <$> kvs)))
        else ParseQuery body = (kvs, false).
Proof.
  unfold BuildOutboundRequest in Hreq. set (values := rule_values (hr_Fields rule) msg) in Hreq.
  assert (bool_decide ((if bool_decide (hr_ContentType rule = "") then "application/x-www-form-urlencoded" else hr_ContentType rule) = "application/json")
    = bool_decide (hr_ContentType rule = "application/json")) as Ect.
  { destruct (decide (hr_ContentType rule = "")) as [E|E]; [rewrite E; reflexivity|by rewrite (bool_decide_eq_false_2 _ E)]. }
  rewrite Ect in Hreq. set (method := if bool_decide (ToUpper _ = "") then _ else _) in Hreq.
  destruct (ParseQuery_Encode values) as (kvs & Hparse & Hkvs), (Unmarshal_json_map values) as (kvs' & Hparse' & Hkvs').
  destruct (decide (method = "GET")) as [Em|Em].
  - rewrite (bool_decide_eq_true_2 _ Em) in Hreq. destruct (valid_request _ _); [|discriminate Hreq]. injection Hreq as <-.
    exists kvs. split; [by apply fields_of_values|]. cbn [or_Method or_URL or_Body]. rewrite (bool_decide_eq_true_2 _ Em). split; [done|]. intros Hh.
    cbn zeta. rewrite RawQuery_appended by done. rewrite Hparse. cbn [fst snd]. by rewrite orb_false_r.
  - rewrite (bool_decide_eq_false_2 _ Em) in Hreq. destruct (bool_decide (hr_ContentType rule = "application/json")) eqn:Ej;
      (destruct (valid_request _ _); [|discriminate Hreq]); injection Hreq as <-; cbn [or_Method or_URL or_Body]; rewrite (bool_decide_eq_false_2 _ Em).
    + exists kvs'. split; [by apply fields_of_values|]. split; [done|]. eexists. split; [done|]. split; [done|]. intros Hv. rewrite Hparse'. do 2 f_equal.
      clear - Hv. induction Hv as [|[k v] l [H1 H2] _ IH]; [done|]. rewrite !fmap_cons, IH. f_equal. unfold read_pair. cbn [fst snd prod_map id] in *. by rewrite (fix_utf8_valid k H1), (fix_utf8_valid v H2).
    + exists kvs. split; [by apply fields_of_values|]. split; [done|]. by eexists.
Qed.

Definition demo_fields : gmap string string := {[ "to" := "to"; "msg" := "text"; "ref" := "order"; "__response_id" := "id" ]}.
Definition demo_rule (ct : string) : HTTPRuleConfig :=
  mkHTTPRule "send" "post" "" "" ct "" "" demo_fields {[ "x-ref" := "{{id}}-{{to}}" ]} 0 "" (mkResponseParse "" "").

Definition demo_message : rule_message := mkRuleMessage "m1" "Shop & Co" "+447700900123" "50% off = now" "gsm7" (Some {[ "order" := "A/7" ]}).

Example demo_form :
  BuildOutboundRequest (fun _ _ => true) map_to_list "http://up/send" (demo_rule "") demo_message =
  Some (mkOutboundRequest "POST" "http://up/send" (Some "msg=50%25+off+%3D+now&ref=A%2F7&to=%2B447700900123")
    {[ "Content-Type" := "application/x-www-form-urlencoded"; "X-Ref" := "m1-+447700900123" ]}).
Proof. vm_compute. reflexivity. Qed.

Example demo_json :
  or_Body <$> BuildOutboundRequest (fun _ _ => true) map_to_list "http://up/send" (demo_rule "application/json") demo_message =
  Some (Some (string_of_bytes ([123] ++ json_members [("msg", "50% off = now"); ("ref", "A/7"); ("to", "+447700900123")] ++ [125]))).
Proof. vm_compute. reflexivity. Qed.

Definition demo_get_rule : HTTPRuleConfig :=
  mkHTTPRule "send" "get" "" "" "" "" "" demo_fields ∅ 0 "" (mkResponseParse "" "").

Example demo_get :
  or_URL <$> BuildOutboundRequest (fun _ _ => true) map_to_list "http://up/send?key=s%26t" demo_get_rule demo_message =
  Some "http://up/send?key=s%26t&msg=50%25+off+%3D+now&ref=A%2F7&to=%2B447700900123".
Proof. vm_compute. reflexivity. Qed.

(** The query of the endpoint is kept, and the fields are read back after it. *)
Lemma request_roundtrip_witness :
  exists req kvs,
    BuildOutboundRequest (fun _ _ => true) map_to_list "http://up/send?key=s%26t" demo_get_rule demo_message = Some req
    /\ ParseQuery (RawQuery (or_URL req)) = (("key", "s&t") :: kvs, false)
    /\ ("msg", "50% off = now") ∈ kvs /\ ("to", "+447700900123") ∈ kvs /\ ~ (exists v, ("__response_id", v) ∈ kvs).
Proof.
  destruct (BuildOutboundRequest (fun _ _ => true) map_to_list "http://up/send?key=s%26t" demo_get_rule demo_message) as [req|] eqn:E; [|discriminate E].
  destruct (request_roundtrip (fun _ _ => true) map_to_list _ _ _ _ E) as (kvs & [_ Hkvs] & H). exists req, kvs. split; [reflexivity|].
  assert (or_Method req = "GET") as Em by (injection E as <-; reflexivity). rewrite Em in H. destruct H as [_ H].
  split; [exact (H eq_refl)|]. split; [|split].
  - apply Hkvs. split; [reflexivity|]. exists "text". split; reflexivity.
  - apply Hkvs. split; [reflexivity|]. exists "to". split; reflexivity.
  - intros [v Hv]. apply Hkvs in Hv as [Hv _]. discriminate Hv.
Defined.

(** In JSON a byte that is not UTF-8 is read back as the replacement character;
    a form keeps it. *)
Example json_replaces_bytes :
  let m : gmap string string := {[ "msg" := string_of_bytes [255] ]} in
  Unmarshal (json_map m) = Some (JObject [("msg", JString (string_of_bytes [239; 191; 189]))])
  /\ ParseQuery (Encode m) = ([("msg", string_of_bytes [255])], false).
Proof. vm_compute. split; reflexivity. Qed.
