(* ===== verification/HttpProvider.v ===== *)
(** * HTTP upstreams: internal/provider/http.go

    The request made of a message, and the identifier found in the reply. The
    HTTP client and regular expressions are parameters. *)

From S2P Require Import Prelude Unicode Codec Segment Num GoTime GoParse FilterAC Records Store StoreInv StoreSubmit GatewayId.
From S2P Require Import Addr Router DlrAggregate Dispatch DispatchSubmit DispatchSend ClientReceipt Config Json HttpRule.

Record HTTPProvider := mkHTTPProvider {
  hp_name : string;
  hp_endpoint : string;
  hp_rule : HTTPRuleConfig;
  hp_timeout : duration;
  hp_providerIDField : string;
  hp_providerIDRegex : string }.

Definition firstNonEmpty (a b : string) : string := if bool_decide (a <> "") then a else b.

Definition NewHTTPProvider (p : ProviderConfig) (rule : HTTPRuleConfig) : HTTPProvider :=
  let timeout := pv_HTTPTimeoutMS p * 1000000 in
  let fld := field (hr_Fields rule) in
  {| hp_name := pv_Name p; hp_endpoint := pv_Endpoint p; hp_rule := rule;
     hp_timeout := if timeout <=? 0 then 3 * Second else timeout;
     hp_providerIDField := firstNonEmpty (rp_IDPath (hr_Response rule)) (firstNonEmpty (fld "__response_id_path") (fld "__response_id"));
     hp_providerIDRegex := firstNonEmpty (rp_IDRegex (hr_Response rule)) (fld "__response_id_regex") |}.

Definition encodingName (dataCoding : Z) : string := if dataCoding =? 0x08 then "ucs2" else "gsm7".

(** [strings.TrimSpace], on bytes. *)
Definition trim_space (s : string) : string := trim_pairs (rune_bytes s).

(** The value at a path of names and indices. *)
Fixpoint value_at (current : json) (parts : list string) : option json :=
  match parts with
  | [] => Some current
  | part :: parts =>
    match current with
    | JObject kvs => next ← members kvs !! part; value_at next parts
    | JArray l =>
      match Atoi part with
      | Ok idx => if (idx <? 0) || (Z.of_nat (length l) <=? idx) then None else next ← l !! Z.to_nat idx; value_at next parts
      | Err _ => None
      end
    | _ => None
    end
  end.

(** A nil map reads as an empty object. *)
Definition valueAtPath (payload : json) (path : string) : option json :=
  if bool_decide (path = "") then None
  else value_at (match payload with JNull => JObject [] | _ => payload end) (Split1 path 46).

(** [strings.Contains]. *)
Fixpoint Contains (s t : string) : bool :=
  HasPrefix s t || match s with EmptyString => false | String _ s => Contains s t end.

Record http_reply := mkReply {
  re_status : Z;
  re_contentType : string;
  re_body : string }.

Section http.
(** [http.NewRequest] refuses a method or a URL; the order of a range over the
    headers; [regexp.Compile] with [FindStringSubmatch]; the client. *)
Context (valid_request : string -> string -> bool) (range : gmap string string -> list (string * string)).
Context (regexp : string -> option (string -> list string)).
Context (request_text : string) (Do : outbound_request -> res string http_reply).

Definition extractProviderID (body contentType fld pattern : string) : string :=
  let value := trim_space body in
  if bool_decide (value = "") then ""
  else
    let by_path :=
      if (Contains contentType "application/json" || HasPrefix value "{") && bool_decide (fld <> "") then
        payload ← Unmarshal body;
        _ ← as_object payload;
        valueAtPath payload fld
      else None in
    match by_path with
    | Some raw => trim_space (Sprint raw)
    | None =>
      if bool_decide (pattern <> "") then
        match regexp pattern with
        | None => ""
        | Some find =>
          match find value with
          | _ :: m :: _ => trim_space m
          | [m] => trim_space m
          | [] => ""
          end
        end
      else ""
    end.

(** [io.LimitReader(body, 1<<20)]. *)
Definition limit_body (s : string) : string :=
  if Z.of_nat (slen s) <=? 1048576 then s else string_of_bytes (take (Pos.to_nat 1048576) (bytes_of_string s)).

Definition http_message (msg : OutboundMessage) : rule_message :=
  mkRuleMessage (om_GatewayID msg) (om_SourceAddr msg) (om_DestAddr msg) (om_Text msg)
    (firstNonEmpty (om_Encoding msg) (encodingName (om_DataCoding msg))) (om_Meta msg).

Definition status_text (name : string) (reply : http_reply) : string :=
  "provider " +:+ name +:+ " status " +:+ Itoa (re_status reply) +:+ ": " +:+ trim_space (re_body reply).

Definition with_auth (rule : HTTPRuleConfig) (req : outbound_request) : outbound_request :=
  if bool_decide (hr_AuthHeader rule <> "") && bool_decide (hr_AuthToken rule <> "")
  then mkOutboundRequest (or_Method req) (or_URL req) (or_Body req) (<[canonical_key (hr_AuthHeader rule) := hr_AuthToken rule]> (or_Header req))
  else req.

Definition http_Send (p : HTTPProvider) (msg : OutboundMessage) : res send_err string :=
  match BuildOutboundRequest valid_request range (hp_endpoint p) (hp_rule p) (http_message msg) with
  | None => Err (mkSendErr request_text false None)
  | Some req =>
    match Do (with_auth (hp_rule p) req) with
    | Err text => Err (mkSendErr text false None)
    | Ok resp =>
      let resp := mkReply (re_status resp) (re_contentType resp) (limit_body (re_body resp)) in
      if 400 <=? re_status resp then Err (mkSendErr (status_text (hp_name p) resp) false None)
      else
        let id := extractProviderID (re_body resp) (re_contentType resp) (hp_providerIDField p) (hp_providerIDRegex p) in
        Ok (if bool_decide (id = "") then om_GatewayID msg else id)
    end
  end.
End http.

(** ** Identifiers *)

Lemma trim_left_keeps l p : is_space p.1 = false -> exists l', trim_left_pairs (l ++ [p]) = l' ++ [p].
Proof.
  intros Hp. induction l as [|[r b] l IH]; cbn.
  - destruct p as [r b]. cbn in Hp. rewrite Hp. by exists [].
  - destruct (is_space r); [done|]. by exists ((r, b) :: l).
Qed.

Lemma trim_pairs_head p l : is_space p.1 = false -> exists l', trim_pairs (p :: l) = string_of_bytes p.2 +:+ l'.
Proof.
  intros Hp. unfold trim_pairs. assert (trim_left_pairs (p :: l) = p :: l) as -> by (destruct p as [r b]; cbn in *; by rewrite Hp).
  rewrite reverse_cons. destruct (trim_left_keeps (reverse l) p Hp) as [l' ->]. rewrite reverse_app. cbn.
  rewrite string_of_bytes_app. by eexists.
Qed.

(** A JSON object is not trimmed away. *)
Lemma trim_space_object s : exists t, trim_space (String "{" s) = String "{" t.
Proof.
  unfold trim_space, rune_bytes. cbn [bytes_of_string]. change (byte_of_ascii "{") with 123. cbn [range_widths with_bytes].
  destruct (trim_pairs_head (123, [123]) (with_bytes (drop 1 (123 :: bytes_of_string s)) (range_widths (bytes_of_string s)))) as [t E]; [done|].
  exists t. exact E.
Qed.

Lemma members_lookup {A} (kvs : list (string * A)) k v : NoDup kvs.*1 -> (k, v) ∈ kvs -> members kvs !! k = Some v.
Proof. intros Hnd Hin. by apply (foldl_insert_lookup fst snd kvs ∅ (k, v)). Qed.

Lemma members_read_pair (m : gmap string string) kvs k v :
  kvs ≡ₚ map_to_list m -> map_Forall (fun k v => valid_utf8 k /\ valid_utf8 v) m -> m !! k = Some v ->
  members (read_pair <$> kvs) !! k = Some (JString v).
Proof.
  intros Hkvs Hm Hk. assert (forall kv, kv ∈ kvs -> read_pair kv = (kv.1, JString kv.2)) as Hread.
  { intros [k' v'] Hin. rewrite Hkvs, elem_of_map_to_list in Hin. destruct (Hm _ _ Hin) as [H1 H2].
    unfold read_pair. cbn [fst snd]. by rewrite !fix_utf8_valid. }
  assert (read_pair <$> kvs = (fun kv => (kv.1, JString kv.2)) <$> kvs) as ->.
  { apply list_fmap_ext. intros i kv Hi. apply Hread. by eapply list_elem_of_lookup_2. }
  apply members_lookup.
  - rewrite <- list_fmap_compose. cbn. rewrite (list_fmap_ext _ fst) by done. rewrite Hkvs. apply NoDup_fst_map_to_list.
  - apply list_elem_of_fmap. exists (k, v). split; [done|]. by rewrite Hkvs, elem_of_map_to_list.
Qed.

Lemma read_pairs_finite kvs : json_finite (JObject (read_pair <$> kvs)) = true.
Proof. cbn. apply forallb_forall. intros kv Hkv. apply list_elem_of_In, list_elem_of_fmap in Hkv as (kv' & -> & _). done. Qed.

Lemma Split1_none s c : c ∉ bytes_of_string s -> Split1 s c = [s].
Proof.
  intros H. unfold Split1. rewrite split_byte_none; [cbn; by rewrite string_of_bytes_of_string|].
  apply Forall_forall. intros b Hb ->. done.
Qed.

Section recovered.
Context (valid_request : string -> string -> bool) (range : gmap string string -> list (string * string)).
Context (regexp : string -> option (string -> list string)) (request_text : string).

Lemma extract_from_object m ct fld pattern id :
  map_Forall (fun k v => valid_utf8 k /\ valid_utf8 v) m -> m !! fld = Some id -> 46 ∉ bytes_of_string fld -> fld <> "" ->
  extractProviderID regexp (json_map m) ct fld pattern = trim_space id.
Proof.
  intros Hm Hid Hdot Hf. destruct (Unmarshal_json_map m) as (kvs & Hu & Hkvs). unfold extractProviderID.
  assert (exists t, trim_space (json_map m) = String "{" t) as [t Et] by (unfold json_map; apply (trim_space_object _)).
  rewrite Et, (bool_decide_eq_false_2 (String "{" t = "")), (bool_decide_eq_true_2 (fld <> "")) by done.
  assert (HasPrefix (String "{" t) "{" = true) as -> by (apply HasPrefix_spec; by exists t). rewrite orb_true_r. cbn [andb].
  rewrite Hu. cbn [mbind option_bind]. unfold as_object. rewrite read_pairs_finite. cbn [negb mbind option_bind]. unfold valueAtPath. rewrite (bool_decide_eq_false_2 _ Hf), Split1_none by done.
  cbn [value_at]. rewrite (members_read_pair m kvs fld id Hkvs Hm Hid). done.
Qed.

(** When the provider answers with a JSON object of texts the identifier the
    message gets is the one under the configured field. *)
Theorem http_id_recovered (Do : outbound_request -> res string http_reply) p msg req m status ct id :
  BuildOutboundRequest valid_request range (hp_endpoint p) (hp_rule p) (http_message msg) = Some req ->
  Do (with_auth (hp_rule p) req) = Ok (mkReply status ct (json_map m)) -> status < 400 ->
  Z.of_nat (slen (json_map m)) <= 1048576 ->
  map_Forall (fun k v => valid_utf8 k /\ valid_utf8 v) m -> m !! hp_providerIDField p = Some id ->
  46 ∉ bytes_of_string (hp_providerIDField p) -> hp_providerIDField p <> "" ->
  id <> "" -> trim_space id = id ->
  http_Send valid_request range regexp request_text Do p msg = Ok id.
Proof.
  intros Hreq Hdo Hst Hlen Hm Hid Hdot Hf Hne Htrim. unfold http_Send. rewrite Hreq, Hdo. cbn [re_status re_contentType re_body].
  unfold limit_body. rewrite (proj2 (Z.leb_gt 400 status)), (proj2 (Z.leb_le _ 1048576)) by done.
  rewrite (extract_from_object m ct _ _ id), Htrim, (bool_decide_eq_false_2 (id = "")) by done. done.
Qed.
End recovered.

(** ** Numbers as identifiers *)

Definition demo_upstream : HTTPProvider :=
  NewHTTPProvider (mkProviderConfig "up" "http" "http://up/send" "send" "" "" true 0 (mkRateLimit 0 0 0) None)
    (mkHTTPRule "send" "" "" "" "" "" "" {[ "to" := "to" ]} ∅ 0 "" (mkResponseParse "data.message_id" "")).

Definition demo_outbound_message : OutboundMessage :=
  mkOutboundMessage "m0000001" "Shop" "+447700900123" "hi" 0 1 "" None [] [] false [] [] [] false.

Definition answer (body : string) : res send_err string :=
  http_Send (fun _ _ => true) map_to_list (fun _ => None) "" (fun _ => Ok (mkReply 200 "application/json" body)) demo_upstream demo_outbound_message.

Definition quote : string := String (Ascii.ascii_of_nat 34) "".
Definition id_reply (value : string) : string :=
  "{" +:+ quote +:+ "data" +:+ quote +:+ ":{" +:+ quote +:+ "message_id" +:+ quote +:+ ":" +:+ value +:+ "}}".

(** An identifier the provider gives as a JSON number goes through binary64:
    from 21 digits shown, or seven of magnitude, it becomes another text,
    large ones collide, and null becomes a text. *)
Theorem numeric_ids :
  answer (id_reply (quote +:+ "12345678" +:+ quote)) = Ok "12345678"
  /\ answer (id_reply "123456") = Ok "123456"
  /\ answer (id_reply "12345678") = Ok "1.2345678e+07"
  /\ answer (id_reply "9007199254740993") = answer (id_reply "9007199254740992")
  /\ answer (id_reply "null") = Ok "<nil>"
  /\ answer "{}" = Ok "m0000001".
Proof. vm_compute. repeat split. Qed.

Definition demo_ids : HTTPProvider :=
  NewHTTPProvider (mkProviderConfig "up" "http" "http://up/send" "send" "" "" true 0 (mkRateLimit 0 0 0) None)
    (mkHTTPRule "send" "" "" "" "" "" "" {[ "to" := "to" ]} ∅ 0 "" (mkResponseParse "message_id" "")).
Definition demo_reply : gmap string string := {[ "message_id" := "12345678"; "status" := "ok" ]}.

Lemma http_id_recovered_witness :
  http_Send (fun _ _ => true) map_to_list (fun _ => None) "" (fun _ => Ok (mkReply 202 "" (json_map demo_reply))) demo_ids demo_outbound_message
  = Ok "12345678".
Proof.
  eapply (http_id_recovered (fun _ _ => true) map_to_list (fun _ => None) "" (fun _ => Ok (mkReply 202 "" (json_map demo_reply)))
    demo_ids demo_outbound_message _ demo_reply 202 "" "12345678").
  - vm_compute. reflexivity.
  - reflexivity.
  - reflexivity.
  - apply (bool_decide_unpack _). vm_compute. exact I.
  - apply map_Forall_insert_2; [|apply map_Forall_singleton].
    + split; apply valid_utf8_no_error; vm_compute; set_solver.
    + split; apply valid_utf8_no_error; vm_compute; set_solver.
  - reflexivity.
  - apply (bool_decide_unpack _). vm_compute. exact I.
  - discriminate.
  - discriminate.
  - vm_compute. reflexivity.
Defined.
