(* ===== verification/RateLimit.v ===== *)
(** * The rate limit of a provider: internal/provider/ratelimit.go

    A channel of tokens, filled at the start and refilled by a goroutine at each
    tick of a ticker. The limiter is a transition system: its steps are the
    firings of the ticker's timer, the turns of the goroutine, the waits of the
    senders and the call of [Close], each at an instant. *)

From S2P Require Import Prelude Unicode Codec Segment Num GoTime Records Store StoreInv StoreSubmit GatewayId.
From S2P Require Import Addr Router DlrAggregate Dispatch DispatchSubmit DispatchSend Config.

(** ** The limiter *)

(** The ticker's timer is set to [li_origin + li_next * li_interval], and
    [li_tick] says that its channel, of capacity one, holds a tick. *)
Record Limiter := mkLimiter {
  li_burst : Z;
  li_tokens : Z;
  li_timeout : duration;
  li_interval : duration;
  li_origin : time;
  li_next : Z;
  li_tick : bool;
  li_stop : bool;
  li_running : bool }.

Definition li_set_tokens v (l : Limiter) := mkLimiter (li_burst l) v (li_timeout l) (li_interval l) (li_origin l) (li_next l) (li_tick l) (li_stop l) (li_running l).
Definition li_set_tick n b (l : Limiter) := mkLimiter (li_burst l) (li_tokens l) (li_timeout l) (li_interval l) (li_origin l) n b (li_stop l) (li_running l).
Definition li_set_stop (l : Limiter) := mkLimiter (li_burst l) (li_tokens l) (li_timeout l) (li_interval l) (li_origin l) (li_next l) (li_tick l) true (li_running l).
Definition li_set_running b (l : Limiter) := mkLimiter (li_burst l) (li_tokens l) (li_timeout l) (li_interval l) (li_origin l) (li_next l) (li_tick l) (li_stop l) b.

Definition refill_interval (tps : Z) : duration :=
  let interval := Z.quot Second tps in
  if interval <=? 0 then 1 else interval.

(** [None]: the provider is not wrapped. *)
Definition NewLimiter (cfg : ProviderRateLimit) (now : time) : option Limiter :=
  if pr_TPS cfg <=? 0 then None
  else
    let burst := if pr_Burst cfg <=? 0 then pr_TPS cfg else pr_Burst cfg in
    let timeout := i64 (pr_TimeoutMS cfg * 1000000) in
    let timeout := if timeout <=? 0 then 2 * Second else timeout in
    Some (mkLimiter burst burst timeout (refill_interval (pr_TPS cfg)) now 1 false false true).

(** ** Steps *)

Inductive rl_event :=
| Fire                               (* the timer of the ticker *)
| Refill                             (* refill receives a tick *)
| Return                             (* refill sees stop closed *)
| CloseLimiter
| Wait (r : option string).          (* a sender's select: a token, or the end of its context *)

Definition rl_step (now : time) (e : rl_event) (l : Limiter) : option Limiter :=
  match e with
  | Fire =>
    if li_running l && (li_origin l + li_next l * li_interval l <=? now)
    then Some (li_set_tick ((now - li_origin l) / li_interval l + 1) true l) else None
  | Refill =>
    if li_running l && li_tick l
    then Some (li_set_tokens (if li_tokens l <? li_burst l then li_tokens l + 1 else li_tokens l) (li_set_tick (li_next l) false l)) else None
  | Return => if li_running l && li_stop l then Some (li_set_running false l) else None
  | CloseLimiter => Some (li_set_stop l)
  | Wait None => if 0 <? li_tokens l then Some (li_set_tokens (li_tokens l - 1) l) else None
  | Wait (Some _) => Some l
  end.

(** A run: steps at instants that do not go back. *)
Fixpoint rl_run (now : time) (es : list (time * rl_event)) (l : Limiter) : option Limiter :=
  match es with
  | [] => Some l
  | (t, e) :: es => if t <? now then None else rl_step t e l ≫= rl_run t es
  end.

Definition granted (te : time * rl_event) : bool := match te.2 with Wait None => true | _ => false end.
Definition grants (es : list (time * rl_event)) : nat := length (filter (fun te => granted te = true) es).

(** ** The wrapped provider *)

Definition wait_err (cause : string) : send_err := mkSendErr ("rate limited: " +:+ cause) false None.

(** [SendAll]; [wait] is what the sender's turn at the limiter gives. *)
Definition rl_SendAll (wait : option string) (inner : Provider) (msg : OutboundMessage) : res send_err (list string) :=
  match wait with
  | Some cause => Err (wait_err cause)
  | None =>
    match inner with
    | MultiID SendAll => SendAll msg
    | SingleID Send =>
      id ← Send msg;
      Ok (if bool_decide (id = "") then [] else [id])
    end
  end.

Definition rl_Send (wait : option string) (inner : Provider) (msg : OutboundMessage) : res send_err string :=
  match inner with
  | MultiID _ =>
    ids ← rl_SendAll wait inner msg;
    Ok (match ids with [] => "" | id :: _ => id end)
  | SingleID Send =>
    match wait with
    | Some cause => Err (wait_err cause)
    | None => Send msg
    end
  end.

Definition RateLimitedProvider (wait : option string) (inner : Provider) : Provider := MultiID (rl_SendAll wait inner).

(** ** Tokens *)

Record li_ok (l : Limiter) : Prop := {
  lo_burst : 0 < li_burst l;
  lo_tokens : 0 <= li_tokens l <= li_burst l;
  lo_interval : 0 < li_interval l;
  lo_return : li_running l = false -> li_stop l = true }.

Lemma NewLimiter_ok cfg now l : NewLimiter cfg now = Some l -> li_ok l.
Proof.
  unfold NewLimiter, refill_interval. destruct (Z.leb_spec (pr_TPS cfg) 0); [discriminate|]. intros [= <-]. constructor; cbn.
  - destruct (Z.leb_spec (pr_Burst cfg) 0); lia.
  - destruct (Z.leb_spec (pr_Burst cfg) 0); lia.
  - destruct (Z.leb_spec (Z.quot Second (pr_TPS cfg)) 0); lia.
  - discriminate.
Qed.

Ltac rl_cases H :=
  unfold rl_step in H;
  repeat match type of H with
  | context [match ?x with _ => _ end] => destruct x eqn:?
  | context [if ?b then _ else _] => destruct b eqn:?
  end;
  first [discriminate H | injection H as <-].

Lemma rl_step_ok now e l l' : li_ok l -> rl_step now e l = Some l' -> li_ok l'.
Proof.
  intros [H0 [H1 H2] H3 H4] H. rl_cases H; constructor; cbn; try done; try lia.
Qed.

Lemma rl_step_const now e l l' : rl_step now e l = Some l' ->
  li_burst l' = li_burst l /\ li_interval l' = li_interval l /\ li_origin l' = li_origin l.
Proof. intros H. rl_cases H; done. Qed.

Lemma rl_run_ok now es l l' : li_ok l -> rl_run now es l = Some l' -> li_ok l' /\ li_burst l' = li_burst l /\ li_interval l' = li_interval l.
Proof.
  revert now l. induction es as [|[t e] es IH]; intros now l Hok H; cbn in H; [by injection H as <-|].
  destruct (t <? now); [discriminate H|]. destruct (rl_step t e l) as [l1|] eqn:E; [|discriminate H].
  destruct (rl_step_const _ _ _ _ E) as (<- & <- & _). eapply IH; [|exact H]. by eapply rl_step_ok.
Qed.

(** ** How often *)

(** What a sender may still take until [b], from a state at [now]: the tokens, a
    tick on its way, and the firings left. *)
Definition cell (l : Limiter) (t : time) : Z := (t - li_origin l) / li_interval l.

Definition fires_left (l : Limiter) (now b : time) : Z :=
  if li_next l <=? cell l now then cell l b - cell l now + 1 else Z.max 0 (cell l b - li_next l + 1).

Definition credit (l : Limiter) (now b : time) : Z :=
  li_tokens l + (if li_tick l then 1 else 0) + fires_left l now b.

Lemma cell_mono l t t' : 0 < li_interval l -> t <= t' -> cell l t <= cell l t'.
Proof. intros. unfold cell. apply Z.div_le_mono; lia. Qed.

Lemma fires_left_later l now t b : 0 < li_interval l -> now <= t <= b -> 0 <= fires_left l t b <= fires_left l now b.
Proof.
  intros Hi Ht. unfold fires_left. pose proof (cell_mono l now t Hi ltac:(lia)). pose proof (cell_mono l t b Hi ltac:(lia)).
  destruct (Z.leb_spec (li_next l) (cell l t)), (Z.leb_spec (li_next l) (cell l now)); lia.
Qed.

Lemma fire_due l now : 0 < li_interval l -> (li_origin l + li_next l * li_interval l <=? now) = (li_next l <=? cell l now).
Proof.
  intros Hi. unfold cell. apply eq_bool_prop_intro. rewrite !Is_true_true, !Z.leb_le. split; intros H.
  - apply Z.div_le_lower_bound; lia.
  - pose proof (Z.mul_div_le (now - li_origin l) (li_interval l) Hi). nia.
Qed.

Lemma credit_step now b e l l' :
  li_ok l -> now <= b -> rl_step now e l = Some l' ->
  credit l' now b + (if granted (now, e) then 1 else 0) <= credit l now b.
Proof.
  intros Hok Hb H. pose proof (lo_interval _ Hok) as Hi. pose proof (lo_tokens _ Hok). unfold credit, granted; cbn [snd].
  rl_cases H; cbn [li_tokens li_tick li_set_tokens li_set_tick li_set_stop li_set_running]; unfold fires_left, cell;
    cbn [li_tokens li_tick li_next li_origin li_interval li_set_tokens li_set_tick li_set_stop li_set_running];
    fold (cell l b) (cell l now); try lia.
  - apply andb_prop in Heqb0 as [_ Hd]. rewrite fire_due in Hd by done. rewrite Hd.
    pose proof (cell_mono l now b Hi Hb). rewrite (proj2 (Z.leb_gt _ _)) by lia. destruct (li_tick l); lia.
Qed.

Lemma credit_run now b es l l' :
  li_ok l -> now <= b -> Forall (fun te => te.1 <= b) es -> rl_run now es l = Some l' ->
  Z.of_nat (grants es) <= credit l now b.
Proof.
  revert now l. induction es as [|[t e] es IH]; intros now l Hok Hb Hes H.
  - cbn. unfold credit. pose proof (lo_tokens _ Hok). pose proof (fires_left_later l now now b (lo_interval _ Hok) ltac:(lia)).
    destruct (li_tick l); lia.
  - apply Forall_cons in Hes as [Ht Hes]. cbn in Ht, H. destruct (Z.ltb_spec t now); [discriminate H|].
    destruct (rl_step t e l) as [l1|] eqn:E; [|discriminate H].
    pose proof (credit_step t b e l l1 Hok Ht E) as Hc.
    specialize (IH t l1 (rl_step_ok _ _ _ _ Hok E) Ht Hes H). unfold grants in *. rewrite filter_cons.
    pose proof (fires_left_later l now t b (lo_interval _ Hok) ltac:(lia)). unfold credit in Hc at 2. unfold credit at 1.
    destruct (decide (granted (t, e) = true)) as [G|G]; [rewrite G in Hc|apply not_true_is_false in G; rewrite G in Hc]; cbn [length]; lia.
Qed.

(** A run begins with the state of [NewLimiter]. *)
Definition reaches (cfg : ProviderRateLimit) (t0 : time) (pre : list (time * rl_event)) (l : Limiter) : Prop :=
  NewLimiter cfg t0 ≫= rl_run t0 pre = Some l.

Lemma reaches_ok cfg t0 pre l : reaches cfg t0 pre l ->
  li_ok l /\ li_burst l = (if pr_Burst cfg <=? 0 then pr_TPS cfg else pr_Burst cfg) /\ li_interval l = refill_interval (pr_TPS cfg).
Proof.
  unfold reaches. destruct (NewLimiter cfg t0) as [l0|] eqn:E; [|discriminate]. cbn. intros H.
  destruct (rl_run_ok _ _ _ _ (NewLimiter_ok _ _ _ E) H) as (Hok & -> & ->). split; [done|].
  unfold NewLimiter in E. destruct (_ <=? 0); [discriminate E|]. by injection E as <-.
Qed.

(** C25: In any interleaving of senders and the refilling goroutine, no more sends
    pass in a stretch of time than the burst, one per full interval of it and
    three; the tokens stay within the burst. The refilling goroutine may
    return from Close on and not before, and once it has returned only the
    tokens left pass. *)
Theorem provider_rate_bounded cfg t0 pre l a b win l' :
  reaches cfg t0 pre l ->
  a <= b -> Forall (fun te => te.1 <= b) win -> rl_run a win l = Some l' ->
  let burst := if pr_Burst cfg <=? 0 then pr_TPS cfg else pr_Burst cfg in
  Z.of_nat (grants win) <= burst + (b - a) / refill_interval (pr_TPS cfg) + 3
  /\ 0 <= li_tokens l' <= burst
  /\ (li_running l = false -> Z.of_nat (grants win) <= li_tokens l)
  /\ (li_running l = true -> if li_stop l then rl_step a Return l = Some (li_set_running false l) else rl_step a Return l = None).
Proof.
  intros Hr Hab Hwin H. destruct (reaches_ok _ _ _ _ Hr) as (Hok & Hb & Hi). cbn zeta. rewrite <- Hb, <- Hi.
  pose proof (lo_tokens _ Hok). pose proof (lo_interval _ Hok) as Hpos. split; [|split; [|split]].
  4: { intros Hrun. cbn. rewrite Hrun. by destruct (li_stop l). }
  - pose proof (credit_run a b win l l' Hok Hab Hwin H) as Hc. unfold credit in Hc.
    assert (fires_left l a b <= (b - a) / li_interval l + 2); [|destruct (li_tick l); lia].
    assert (cell l b <= cell l a + (b - a) / li_interval l + 1).
    { unfold cell. replace (b - li_origin l) with ((a - li_origin l) + (b - a)) by lia.
      generalize (a - li_origin l) (b - a) (li_interval l) Hpos. intros x y P HP.
      apply Z.lt_succ_r, Z.div_lt_upper_bound; [done|]. pose proof (Z.mul_succ_div_gt x P HP). pose proof (Z.mul_succ_div_gt y P HP). nia. }
    pose proof (cell_mono l a b Hpos Hab). unfold fires_left. destruct (Z.leb_spec (li_next l) (cell l a)); lia.
  - destruct (rl_run_ok _ _ _ _ Hok H) as (Hok' & E & _). rewrite <- E. apply Hok'.
  - clear -H Hok. intros Hrun. revert a l Hok Hrun H. induction win as [|[t e] win IH]; intros a l Hok Hrun H.
    + cbn. pose proof (lo_tokens _ Hok). lia.
    + cbn in H. destruct (t <? a); [discriminate H|]. destruct (rl_step t e l) as [l1|] eqn:E; [|discriminate H].
      specialize (IH t l1 (rl_step_ok _ _ _ _ Hok E)). unfold grants in *. rewrite filter_cons.
      assert (li_running l1 = false) as Hrun1 by (rl_cases E; cbn; first [done|lia]). specialize (IH Hrun1 H).
      rl_cases E; cbn in *; destruct (decide _) as [G|G]; cbn in *; lia.
Qed.

(** ** A sender is served *)

Lemma next_due cfg t0 pre l : reaches cfg t0 pre l -> li_next l <= cell l (default t0 (fst <$> last pre)) + 1.
Proof.
  unfold reaches. destruct (NewLimiter cfg t0) as [l0|] eqn:E; [|discriminate]. cbn.
  pose proof (NewLimiter_ok _ _ _ E) as Hok. assert (li_next l0 <= cell l0 t0 + 1) as H0.
  { unfold NewLimiter in E. destruct (_ <=? 0); [discriminate E|]. injection E as <-. unfold cell. cbn. rewrite Z.sub_diag. done. }
  clear E. revert t0 l0 Hok H0. induction pre as [|[t e] pre IH]; intros t0 l0 Hok H0 H; cbn in H; [by injection H as <-|].
  destruct (Z.ltb_spec t t0) as [|Ht]; [discriminate H|]. destruct (rl_step t e l0) as [l1|] eqn:E; [|discriminate H].
  assert (default t0 (fst <$> last ((t, e) :: pre)) = default t (fst <$> last pre)) as -> by (rewrite last_cons; by destruct (last pre)).
  eapply IH; [by eapply rl_step_ok| |exact H]. pose proof (cell_mono l0 t0 t (lo_interval _ Hok) Ht) as Hc.
  rl_cases E; unfold cell in *; cbn; lia.
Qed.

(** From every reachable state of a limiter that is not closed a waiting send
    gets a token within one refill interval when no other send takes it. *)
Theorem limiter_serves cfg t0 pre l now :
  reaches cfg t0 pre l -> default t0 (fst <$> last pre) <= now -> li_running l = true ->
  exists t l', now <= t <= now + refill_interval (pr_TPS cfg)
  /\ rl_run now [(t, Fire); (t, Refill); (t, Wait None)] l = Some l'
  /\ li_running l' = true.
Proof.
  intros Hr Hnow Hrun. pose proof (next_due _ _ _ _ Hr) as Hd. destruct (reaches_ok _ _ _ _ Hr) as (Hok & _ & Hi).
  pose proof (lo_interval _ Hok) as Hpos. pose proof (cell_mono l _ now Hpos Hnow) as Hc. rewrite <- Hi.
  pose proof (lo_tokens _ Hok). pose proof (lo_burst _ Hok).
  set (t := Z.max now (li_origin l + li_next l * li_interval l)). exists t.
  assert (now <= t <= now + li_interval l) as Ht.
  { subst t. split; [lia|]. apply Z.max_lub; [lia|]. assert (li_next l <= cell l now + 1) as Hn by lia.
    unfold cell in Hn. pose proof (Z.mul_div_le (now - li_origin l) (li_interval l) Hpos). nia. }
  eexists. split; [done|]. cbn [rl_run]. rewrite (proj2 (Z.ltb_ge t now)), Z.ltb_irrefl by lia. cbn [rl_step].
  rewrite Hrun, (proj2 (Z.leb_le _ t)) by lia. cbn [andb mbind option_bind rl_step li_set_tick li_set_tokens li_running li_tick li_tokens li_burst].
  rewrite Hrun. cbn [andb mbind option_bind].
  rewrite (proj2 (Z.ltb_lt 0 _)) by (cbn; destruct (Z.ltb_spec (li_tokens l) (li_burst l)); lia).
  split; [reflexivity|]. done.
Qed.

(** ** The dispatcher and a limited provider *)

Lemma rl_transparent inner msg : sendProvider (RateLimitedProvider None inner) msg = sendProvider inner msg.
Proof. by destruct inner. Qed.

(** [Send] gives the first identifier of [SendAll]. *)
Lemma rl_Send_head wait inner msg :
  rl_Send wait inner msg = ids ← rl_SendAll wait inner msg; Ok (default "" (head ids)).
Proof.
  unfold rl_Send, rl_SendAll. destruct inner as [Send|SendAll], wait as [cause|]; cbn; try done.
  - destruct (Send msg) as [id|]; cbn; [|done]. by case_bool_decide as E; [rewrite E|].
  - destruct (SendAll msg) as [[|id ids]|]; done.
Qed.

Definition sv_set_provider (p : Provider) (sv : SendEnv) : SendEnv :=
  {| sv_provider := Some p; sv_others := sv_others sv; sv_cancel := sv_cancel sv; sv_jitter := sv_jitter sv;
     sv_now_next := sv_now_next sv; sv_now_state := sv_now_state sv; sv_now_done := sv_now_done sv;
     sv_now_save := sv_now_save sv; sv_now_expires := sv_now_expires sv; sv_now_complete := sv_now_complete sv;
     sv_now_uncertain := sv_now_uncertain sv |}.

Section limited.
Context (TextHash : string -> string) (not_found_text : string -> string) (persist_text : store_err -> string).

(** A rate limit whose wait is over makes the worker close the item as
    uncertain, although nothing was sent. *)
Theorem limited_send sv item msg d inner :
  quiet sv -> held (d_store d) item msg ->
  let run p := processOutbox TextHash not_found_text persist_text (sv_set_provider p sv) item d in
  run (RateLimitedProvider None inner) = run inner
  /\ forall cause, exists it msg',
     st_outbox (d_store (run (RateLimitedProvider (Some cause) inner)).1) !! ob_ID item = Some it
     /\ GetMessage (ob_GatewayID item) (d_store (run (RateLimitedProvider (Some cause) inner)).1) = Some msg'
     /\ ob_State it = "uncertain" /\ ob_LastError it = "rate limited: " +:+ cause
     /\ (msg_State msg', msg_ErrorCode msg') = ("UNKNOWN", 1).
Proof.
  intros Hq Hh run. split.
  - unfold run, processOutbox, sv_set_provider. cbn [sv_provider]. by rewrite rl_transparent.
  - intros cause. unfold run. pose proof (held_mark _ _ _ Hh) as Hmark. destruct Hh as [Hit Hst Hg Hp _ Hm].
    set (sv' := sv_set_provider _ sv). assert (quiet sv') as Hq' by exact Hq.
    unfold processOutbox. cbn [sv_provider sv' sv_set_provider]. rewrite (retry_at_quiet sv' PMark _ d _ Hq' Hmark).
    cbn [sendProvider RateLimitedProvider rl_SendAll isPermanent wait_err er_Permanent er_Error fst].
    set (s1 := st_set_outbox _ _). assert (st_outbox s1 !! ob_ID item = Some (ob_set_State "sending" item)) as Hit1
      by apply lookup_insert_eq.
    destruct (markOutboxUncertain_quiet TextHash sv' (ob_set_State "sending" item) _ ("rate limited: " +:+ cause) msg (d_set_store s1 d) Hq' Hit1)
      as [H1 H2]; [done..|]. eexists _, _. split; [exact H1|]. split; [exact H2|]. done.
Qed.
End limited.

(** ** Examples *)

Definition demo_limit : ProviderRateLimit := mkRateLimit 10 2 0.
Definition demo_start : list (time * rl_event) :=
  [(0, Wait None); (0, Wait None); (5, Wait (Some "context deadline exceeded")); (100000000, Fire); (100000000, Refill); (100000001, Wait None)].
Definition demo_limiter : Limiter := default (mkLimiter 0 0 0 0 0 0 false false false) (NewLimiter demo_limit 0 ≫= rl_run 0 demo_start).

Lemma provider_rate_bounded_witness : Z.of_nat (grants demo_start) <= 2 + 100000001 / 100000000 + 3.
Proof.
  refine (proj1 (provider_rate_bounded demo_limit 0 [] (mkLimiter 2 2 2000000000 100000000 0 1 false false true) 0 100000001
    demo_start demo_limiter _ _ _ _)); [reflexivity|lia| |reflexivity].
  unfold demo_start. rewrite !Forall_cons, Forall_nil. cbn. lia.
Defined.

Lemma limiter_serves_witness : exists t l', 100000001 <= t <= 200000001
  /\ rl_run 100000001 [(t, Fire); (t, Refill); (t, Wait None)] demo_limiter = Some l' /\ li_running l' = true.
Proof. apply (limiter_serves demo_limit 0 demo_start demo_limiter 100000001); [reflexivity|cbn; lia|reflexivity]. Defined.

Lemma limited_send_witness :
  exists it, st_outbox (d_store (demo_process (demo_quiet (RateLimitedProvider (Some "context deadline exceeded") demo_provider))
    demo_claimed (demo_at demo_claim.1)).1) !! 1 = Some it /\ ob_State it = "uncertain".
Proof.
  destruct (limited_send id id (fun _ => "persist") (demo_quiet demo_provider) demo_claimed (demo_msg "m0000001") (demo_at demo_claim.1)
    demo_provider (fun _ => eq_refl) demo_held) as [_ H].
  destruct (H "context deadline exceeded") as (it & _ & Hit & _ & Hs & _). exists it. split; [exact Hit|exact Hs].
Defined.
