(* ===== verification/Providers.v ===== *)
(** * Building and registering providers: internal/provider/factory.go, registry.go, mock.go

    Providers are objects of a heap, named by handles: the registry maps names
    to handles, and a reload replaces the whole map and closes what it dropped. *)

From S2P Require Import Prelude Unicode Codec Segment Num GoTime GoParse Records Store StoreInv StoreSubmit GatewayId.
From S2P Require Import Addr Router DlrAggregate Dispatch DispatchSubmit DispatchSend ClientReceipt ClientConn ClientPool.
From S2P Require Import FilterAC Filter Config ConfigValid ConfigOk ConfigWhole Json HttpRule HttpProvider RateLimit.

(** ** Building *)

Inductive PKind :=
| KHTTP (p : HTTPProvider)
| KMock (name : string) (delayMin delayMax : duration)
| KSMPP (name endpoint systemID password : string) (smpp : SMPPClientConfig).

(** A provider, its rate limit when it has one, whether it is open and the
    handler of its reports. *)
Record PObj := mkPObj {
  po_kind : PKind;
  po_limit : option Limiter;
  po_open : bool;
  po_handler : option nat }.

Definition NewNamedMock (name : string) (delayMin delayMax : duration) : PKind :=
  KMock (if bool_decide (name = "") then "mock" else name) delayMin delayMax.

Definition NewSMPPProvider (p : ProviderConfig) : PKind :=
  KSMPP (pv_Name p) (pv_Endpoint p) (pv_SystemID p) (pv_Password p) (default DefaultSMPPClientConfig (pv_SMPP p)).

Definition rule_by_name (rules : list HTTPRuleConfig) : gmap string HTTPRuleConfig := foldl (fun m r => <[hr_Name r := r]> m) ∅ rules.

Definition provider_kind (rules : gmap string HTTPRuleConfig) (p : ProviderConfig) : option PKind :=
  if protocol_is p "http" || protocol_is p "https" then KHTTP ∘ NewHTTPProvider p <$> rules !! pv_Rule p
  else if protocol_is p "" || protocol_is p "mock" then Some (NewNamedMock (pv_Name p) (2 * Second) (4 * Second))
  else if protocol_is p "smpp" then Some (NewSMPPProvider p)
  else None.

Definition new_object (now : time) (limit : ProviderRateLimit) (k : PKind) : PObj := mkPObj k (NewLimiter limit now) true None.

(** The object of an entry, when it is enabled and can be built. *)
Definition build (now : time) (rules : gmap string HTTPRuleConfig) (p : ProviderConfig) : option (string * PObj) :=
  if pv_Enabled p then k ← provider_kind rules p; Some (pv_Name p, new_object now (pv_RateLimit p) k) else None.

Definition fallback : string * PObj := ("mock", mkPObj (NewNamedMock "mock" (2 * Second) (4 * Second)) None true None).

(** The objects built, each with the name it is put under, in order: of two with
    the same name the map has the last, the other stays open. *)
Definition BuildProviders (now : time) (c : Config) : list (string * PObj) :=
  let objs := omap (build now (rule_by_name (c_Outbound c))) (c_Providers c) in
  if bool_decide (objs.*1 = []) then [fallback] else objs.

(** ** The registry *)

Record World := mkWorld {
  w_heap : gmap nat PObj;
  w_next : nat;
  w_providers : gmap string nat;
  w_onDLR : option nat }.

Definition NewRegistry : World := mkWorld ∅ 0 ∅ None.

Definition Get (name : string) (w : World) : option PObj := w_providers w !! name ≫= fun h => w_heap w !! h.

(** [OnDLR] of an object; HTTP upstreams report through callbacks instead. *)
Definition on_dlr (cb : option nat) (o : PObj) : PObj :=
  match po_kind o with
  | KHTTP _ => o
  | _ => mkPObj (po_kind o) (po_limit o) (po_open o) cb
  end.

Definition close_limit (l : Limiter) : Limiter := li_set_stop l.
Definition close_object (o : PObj) : PObj := mkPObj (po_kind o) (close_limit <$> po_limit o) false (po_handler o).

Definition each (f : PObj -> PObj) (hs : list nat) (heap : gmap nat PObj) : gmap nat PObj := foldl (fun heap h => alter f h heap) heap hs.

Definition handles (m : gmap string nat) : list nat := snd <$> map_to_list m.

(** What [Replace] closes: the old providers that are not kept under their name. *)
Definition dropped (old next : gmap string nat) : list nat := snd <$> filter (fun kh => next !! kh.1 <> Some kh.2) (map_to_list old).

Definition Replace (next : gmap string nat) (w : World) : World :=
  let old := w_providers w in
  let heap := match w_onDLR w with Some cb => each (on_dlr (Some cb)) (handles next) (w_heap w) | None => w_heap w end in
  mkWorld (each close_object (dropped old next) heap) (w_next w) next (w_onDLR w).

Definition SetDLRHandler (cb : option nat) (w : World) : World :=
  mkWorld (each (on_dlr cb) (handles (w_providers w)) (w_heap w)) (w_next w) (w_providers w) cb.

Definition CloseAll (w : World) : World :=
  mkWorld (each close_object (handles (w_providers w)) (w_heap w)) (w_next w) ∅ (w_onDLR w).

(** New objects on the heap, and the map of their names: a later one replaces an
    earlier one of the same name. *)
Definition install (objs : list (string * PObj)) (w : World) : gmap string nat * World :=
  (list_to_map (reverse (imap (fun i kv => (kv.1, w_next w + i)%nat) objs)),
   mkWorld (list_to_map (imap (fun i kv => ((w_next w + i)%nat, kv.2)) objs) ∪ w_heap w) (w_next w + length objs) (w_providers w) (w_onDLR w)).

(** [registry.Replace(provider.BuildProviders(ctx, cfg))]. *)
Definition Reload (now : time) (c : Config) (w : World) : World :=
  let '(next, w) := install (BuildProviders now c) w in Replace next w.

(** The statuses of the SMPP providers, by name; [conns] are the connections of
    each pool. *)
Definition SMPPStatuses (text : cerr -> string) (conns : nat -> list Client) (w : World) : list (string * list ConnectionStatus) :=
  sort_stable by_key
    (omap (fun kh =>
       match po_kind <$> w_heap w !! kh.2 with
       | Some (KSMPP name _ _ _ _) => Some (name, pool_status text (conns kh.2))
       | _ => None
       end) (map_to_list (w_providers w))).

Inductive reg_op :=
| ROReload (now : time) (c : Config)
| ROSetHandler (cb : option nat)
| ROCloseAll.

Definition reg_exec (op : reg_op) (w : World) : World :=
  match op with
  | ROReload now c => Reload now c w
  | ROSetHandler cb => SetDLRHandler cb w
  | ROCloseAll => CloseAll w
  end.
Definition reg_exec_all (ops : list reg_op) (w : World) : World := foldl (flip reg_exec) w ops.

(** ** Mock providers *)

Definition mock_id (n : Z) : string := "p" +:+ pad0 16 (FormatUint n 16).

(** [Send]: the identifier, and whether a report is scheduled. *)
Definition mock_Send (seq : Z) (msg : OutboundMessage) : Z * string * bool :=
  let n := u64 (seq + 1) in (n, mock_id n, negb (no_receipt (om_RegisteredDelivery msg))).

(** [scheduleDLR]; [fail] is the draw against [FailRate]. *)
Definition mock_report (name providerID : string) (cancelled fail : bool) (now : time) (handler : option nat) : option (nat * DLR) :=
  if cancelled then None
  else cb ← handler; Some (cb, if fail then mkDLR name providerID "UNDELIV" 1 now else mkDLR name providerID "DELIVRD" 0 now).

(** ** Objects *)

Lemma each_lookup f hs heap h :
  (forall o, f (f o) = f o) -> each f hs heap !! h = if decide (h ∈ hs) then f <$> heap !! h else heap !! h.
Proof.
  intros Hf. revert heap. induction hs as [|h' hs IH]; intros heap; cbn [each foldl].
  - by rewrite decide_False by apply not_elem_of_nil.
  - change (foldl _ ?a hs) with (each f hs a). rewrite IH. destruct (decide (h = h')) as [<-|Hne].
    + rewrite lookup_alter_eq, (decide_True (P := h ∈ h :: hs)) by by left.
      destruct (decide (h ∈ hs)); [|done]. destruct (heap !! h); [|done]. cbn. by rewrite Hf.
    + rewrite lookup_alter_ne by done. destruct (decide (h ∈ hs)) as [Hin|Hin].
      * by rewrite decide_True by by right.
      * rewrite decide_False; [done|]. by intros [|]%elem_of_cons.
Qed.

Lemma on_dlr_idem cb o : on_dlr cb (on_dlr cb o) = on_dlr cb o.
Proof. unfold on_dlr. destruct (po_kind o) eqn:E; rewrite ?E; done. Qed.

Lemma close_object_idem o : close_object (close_object o) = close_object o.
Proof. unfold close_object. cbn. f_equal. by destruct (po_limit o). Qed.

Lemma elem_of_handles m h : h ∈ handles m <-> exists n, m !! n = Some h.
Proof.
  unfold handles. rewrite list_elem_of_fmap. split.
  - intros ([n h'] & -> & H). exists n. by apply elem_of_map_to_list.
  - intros [n H]. exists (n, h). split; [done|]. by apply elem_of_map_to_list.
Qed.

Lemma elem_of_dropped old next h : h ∈ dropped old next <-> exists n, old !! n = Some h /\ next !! n <> Some h.
Proof.
  unfold dropped. rewrite list_elem_of_fmap. split.
  - intros ([n h'] & -> & H). apply list_elem_of_filter in H as [Hn H]. exists n. split; [by apply elem_of_map_to_list|done].
  - intros (n & H & Hn). exists (n, h). split; [done|]. apply list_elem_of_filter. split; [done|]. by apply elem_of_map_to_list.
Qed.

(** An object carries the handler of the registry, if it reports at all. *)
Definition carries_handler (w : World) (o : PObj) : Prop :=
  match po_kind o with KHTTP _ => True | _ => forall cb, w_onDLR w = Some cb -> po_handler o = Some cb end.

(** What is registered is open, under one name, and carries the handler. *)
Record reg_live (w : World) : Prop := {
  ro_fresh : forall h o, w_heap w !! h = Some o -> (h < w_next w)%nat;
  ro_live : forall n h, w_providers w !! n = Some h -> exists o, w_heap w !! h = Some o /\ po_open o = true /\ carries_handler w o;
  ro_inj : forall n n' h, w_providers w !! n = Some h -> w_providers w !! n' = Some h -> n = n' }.

(** Nothing else is open. *)
Definition no_stray (w : World) : Prop := forall h o, w_heap w !! h = Some o -> po_open o = true -> exists n, w_providers w !! n = Some h.

Definition reg_ok (w : World) : Prop := reg_live w /\ no_stray w.

Lemma on_dlr_open cb o : po_open (on_dlr cb o) = po_open o.
Proof. unfold on_dlr. by destruct (po_kind o). Qed.
Lemma on_dlr_kind cb o : po_kind (on_dlr cb o) = po_kind o.
Proof. unfold on_dlr. by destruct (po_kind o) eqn:E; rewrite ?E. Qed.

Lemma on_dlr_carries w cb o : w_onDLR w = cb -> carries_handler w (on_dlr cb o).
Proof. intros <-. unfold carries_handler, on_dlr. destruct (po_kind o) eqn:E; cbn; rewrite ?E; done. Qed.

Lemma NewRegistry_ok : reg_ok NewRegistry.
Proof. split; [split|]; cbn; intros *; rewrite ?lookup_empty; done. Qed.

Lemma CloseAll_live w : reg_live w -> reg_live (CloseAll w).
Proof.
  intros [Hf Hl Hi]. split; cbn; intros *; rewrite ?lookup_empty; try done. rewrite each_lookup by apply close_object_idem.
  case_decide as E; [|apply Hf]. intros (o' & Ho' & ->)%fmap_Some. by eapply Hf.
Qed.

Lemma CloseAll_no_stray w : no_stray w -> no_stray (CloseAll w).
Proof.
  intros Ho h o. cbn. rewrite each_lookup by apply close_object_idem. case_decide as E; [by intros (o' & Ho' & ->)%fmap_Some|].
  intros H Hopen. destruct (Ho _ _ H Hopen) as [n Hn]. destruct E. apply elem_of_handles. by exists n.
Qed.

Lemma SetDLRHandler_live cb w : reg_live w -> reg_live (SetDLRHandler cb w).
Proof.
  intros [Hf Hl Hi]. split; cbn.
  - intros h o. rewrite each_lookup by apply on_dlr_idem. case_decide; [intros (o' & Ho' & ->)%fmap_Some; by eapply Hf|apply Hf].
  - intros n h H. destruct (Hl n h H) as (o & E & Hopen & _). exists (on_dlr cb o). rewrite each_lookup by apply on_dlr_idem.
    rewrite decide_True by (apply elem_of_handles; by exists n). rewrite E. split; [done|]. rewrite on_dlr_open.
    split; [done|]. by apply on_dlr_carries.
  - exact Hi.
Qed.

Lemma SetDLRHandler_no_stray cb w : no_stray w -> no_stray (SetDLRHandler cb w).
Proof.
  intros Ho h o. cbn. rewrite each_lookup by apply on_dlr_idem. case_decide; [|apply Ho].
  intros (o' & Ho' & ->)%fmap_Some. rewrite on_dlr_open. by apply Ho.
Qed.

Lemma SetDLRHandler_ok cb w : reg_ok w -> reg_ok (SetDLRHandler cb w).
Proof. intros [H1 H2]. split; [by apply SetDLRHandler_live|by apply SetDLRHandler_no_stray]. Qed.

(** The heap of [Replace] before it closes what it dropped. *)
Definition handed (next : gmap string nat) (w : World) : gmap nat PObj :=
  match w_onDLR w with Some cb => each (on_dlr (Some cb)) (handles next) (w_heap w) | None => w_heap w end.

Lemma handed_lookup next w h :
  exists f, handed next w !! h = f <$> w_heap w !! h /\ (forall o, po_open (f o) = po_open o) /\ (h ∈ handles next -> forall o, carries_handler w (f o)).
Proof.
  unfold handed. destruct (w_onDLR w) as [cb|] eqn:E.
  - rewrite each_lookup by apply on_dlr_idem. case_decide as Ed.
    + exists (on_dlr (Some cb)). split; [done|]. split; [apply on_dlr_open|]. intros _ o. by apply on_dlr_carries.
    + exists id. split; [by rewrite option_fmap_id|]. done.
  - exists id. split; [by rewrite option_fmap_id|]. split; [done|]. intros _ o. unfold carries_handler. rewrite E. by destruct (po_kind _).
Qed.

Lemma Replace_live next w :
  (forall h o, w_heap w !! h = Some o -> (h < w_next w)%nat) ->
  (forall n h, next !! n = Some h -> exists o, w_heap w !! h = Some o /\ po_open o = true) ->
  (forall n n' h, next !! n = Some h -> next !! n' = Some h \/ w_providers w !! n' = Some h -> n = n') ->
  reg_live (Replace next w).
Proof.
  intros Hf Hl Hi. split; cbn [Replace w_heap w_next w_providers w_onDLR]; fold (handed next w).
  - intros h o. rewrite each_lookup by apply close_object_idem. destruct (handed_lookup next w h) as (f & -> & _).
    case_decide; intros E; apply fmap_Some in E as (o1 & E & ->); [apply fmap_Some in E as (o2 & E & ->)|]; by eapply Hf.
  - intros n h H. destruct (Hl n h H) as (o & E & Hopen). rewrite each_lookup by apply close_object_idem.
    destruct (handed_lookup next w h) as (f & Ef & Hfo & Hc). rewrite decide_False.
    + exists (f o). rewrite Ef, E, Hfo. split; [done|]. split; [done|]. apply Hc, elem_of_handles. by exists n.
    + intros (n' & Hn' & Hd)%elem_of_dropped. apply Hd. by rewrite <- (Hi n n' h H (or_intror Hn')).
  - intros n n' h H H'. by apply (Hi n n' h H (or_introl H')).
Qed.

Lemma Replace_no_stray next w :
  (forall h o, w_heap w !! h = Some o -> po_open o = true -> exists n, next !! n = Some h \/ w_providers w !! n = Some h) ->
  no_stray (Replace next w).
Proof.
  intros Ho h o. cbn [Replace w_heap w_providers]. fold (handed next w). rewrite each_lookup by apply close_object_idem.
  destruct (handed_lookup next w h) as (f & -> & Hfo & _). case_decide as Ed; intros H; apply fmap_Some in H as (o1 & H & ->); [done|]. rewrite Hfo. intros Hopen.
  destruct (Ho h o1 H Hopen) as [n [Hn|Hn]]; [by exists n|]. exists n.
  destruct (decide (next !! n = Some h)) as [E|E]; [done|]. destruct Ed. apply elem_of_dropped. by exists n.
Qed.

(** ** Reloading *)

Section install.
Context (objs : list (string * PObj)) (w : World).

(** The names stand for new objects; without repeated names every new object has one. *)
Lemma install_names n h : (install objs w).1 !! n = Some h -> exists i o, objs !! i = Some (n, o) /\ h = (w_next w + i)%nat.
Proof using.
  unfold install. cbn [fst]. intros H%elem_of_list_to_map_2. rewrite elem_of_reverse in H. apply list_elem_of_lookup in H as [i H].
  apply list_lookup_imap_Some in H as ([n' o] & Hi & [= -> ->]). by exists i, o.
Qed.

Lemma install_named n i o : NoDup objs.*1 -> objs !! i = Some (n, o) -> (install objs w).1 !! n = Some (w_next w + i)%nat.
Proof using.
  intros Hnd Hi. unfold install. cbn [fst]. apply elem_of_list_to_map_1.
  - rewrite fmap_reverse, reverse_Permutation. assert ((imap (fun i kv => (kv.1, (w_next w + i)%nat)) objs).*1 = objs.*1) as ->; [|done].
    apply list_eq. intros j. rewrite !list_lookup_fmap, list_lookup_imap. by destruct (objs !! j).
  - rewrite elem_of_reverse, list_elem_of_lookup. exists i. rewrite list_lookup_imap, Hi. done.
Qed.

Lemma install_heap h o :
  w_heap (install objs w).2 !! h = Some o <->
  (exists i n, objs !! i = Some (n, o) /\ h = (w_next w + i)%nat)
  \/ (forall i, h = (w_next w + i)%nat -> objs !! i = None) /\ w_heap w !! h = Some o.
Proof using.
  unfold install. cbn [snd w_heap]. set (l := imap _ objs).
  assert (NoDup l.*1) as Hl.
  { apply NoDup_alt. intros i j x. rewrite !list_lookup_fmap. unfold l. rewrite !list_lookup_imap.
    destruct (objs !! i), (objs !! j); cbn; try done. intros [= <-] [= ?]. lia. }
  assert (forall o, (list_to_map l : gmap nat PObj) !! h = Some o <-> exists i n, objs !! i = Some (n, o) /\ h = (w_next w + i)%nat) as H1.
  { intros o'. rewrite <- elem_of_list_to_map by done. rewrite list_elem_of_lookup. unfold l. setoid_rewrite list_lookup_imap_Some. split.
    - intros (i & [n o''] & Hi & [= -> ->]). by exists i, n.
    - intros (i & n & Hi & ->). by exists i, (n, o'). }
  rewrite lookup_union_Some_raw, H1. f_equiv. apply and_iff_compat_r. split.
  - intros Hn i ->. destruct (objs !! i) as [[n o']|] eqn:E; [|done].
    assert ((list_to_map l : gmap nat PObj) !! (w_next w + i)%nat = Some o') as E' by (apply H1; eauto). congruence.
  - intros Hn. destruct (list_to_map l !! h) as [o'|] eqn:E; [|done].
    destruct (proj1 (H1 o') eq_refl) as (i & n & Hi & Eh). by rewrite (Hn i Eh) in Hi.
Qed.
End install.

Lemma build_spec now rules p n o :
  build now rules p = Some (n, o) <->
  pv_Enabled p = true /\ n = pv_Name p /\ exists k, provider_kind rules p = Some k /\ o = new_object now (pv_RateLimit p) k.
Proof. unfold build. destruct (pv_Enabled p), (provider_kind rules p) as [k|]; cbn; naive_solver. Qed.

Lemma built_open now c i n o : BuildProviders now c !! i = Some (n, o) -> po_open o = true.
Proof.
  unfold BuildProviders. cbn zeta. case_bool_decide.
  - destruct i; [|done]. by intros [= _ <-].
  - intros Hi%list_elem_of_lookup_2. apply list_elem_of_omap in Hi as (p & _ & (_ & _ & k & _ & ->)%build_spec). done.
Qed.

(** Distinct names of the entries give distinct names of the objects. *)
Definition unique_names (c : Config) : Prop := NoDup (pv_Name <$> c_Providers c).

Lemma built_names now c : unique_names c -> NoDup (BuildProviders now c).*1.
Proof.
  intros Hnd. unfold BuildProviders. cbn zeta. destruct (bool_decide _); [by apply NoDup_singleton|]. unfold unique_names in Hnd.
  assert (forall ps, (omap (build now (rule_by_name (c_Outbound c))) ps).*1 `sublist_of` (pv_Name <$> ps)) as H; [|by eapply sublist_NoDup].
  intros ps. induction ps as [|p ps IH]; [done|]. cbn [omap list_omap fmap list_fmap]. destruct (build _ _ p) as [[n o]|] eqn:E; [|by constructor].
  apply build_spec in E as (_ & -> & _). by constructor.
Qed.

Lemma Reload_live now c w : reg_live w -> reg_live (Reload now c w).
Proof.
  intros [Hf Hl Hi]. unfold Reload. set (objs := BuildProviders now c). pose proof (install_names objs w) as Hn. pose proof (install_heap objs w) as Hh.
  destruct (install objs w) as [next w'] eqn:E. assert (w_providers w' = w_providers w /\ w_next w' = (w_next w + length objs)%nat) as [Ep En]
    by (unfold install in E; by injection E as <- <-). cbn [fst snd] in *.
  apply Replace_live; rewrite ?Ep, ?En.
  - intros h o H. apply Hh in H as [(i & n & H & ->)|[_ H]].
    + apply lookup_lt_Some in H. lia.
    + pose proof (Hf _ _ H). lia.
  - intros n h H. apply Hn in H as (i & o & H & ->). exists o. split; [|by eapply built_open]. apply Hh. left. eauto.
  - intros n n' h H H'. apply Hn in H as (i & o & H & ->). destruct H' as [H'|H'].
    + apply Hn in H' as (i' & o' & H' & Ei). assert (i = i') as <- by lia. congruence.
    + exfalso. destruct (Hl _ _ H') as (o' & Ho' & _). pose proof (Hf _ _ Ho'). lia.
Qed.

Lemma Reload_no_stray now c w : unique_names c -> no_stray w -> no_stray (Reload now c w).
Proof.
  intros Hu Ho. unfold Reload. set (objs := BuildProviders now c).
  pose proof (fun n i o => install_named objs w n i o (built_names now c Hu)) as Hn. pose proof (install_heap objs w) as Hh.
  destruct (install objs w) as [next w'] eqn:E. assert (w_providers w' = w_providers w) as Ep by (unfold install in E; by injection E as <- <-). cbn [fst snd] in *.
  apply Replace_no_stray. rewrite Ep. intros h o H Hop. apply Hh in H as [(i & n & H & ->)|[_ H]]; [exists n; left; eauto|].
  destruct (Ho _ _ H Hop) as [n Hn']. exists n. by right.
Qed.

Lemma Reload_ok now c w : unique_names c -> reg_ok w -> reg_ok (Reload now c w).
Proof. intros Hu [H1 H2]. split; [by apply Reload_live|by apply Reload_no_stray]. Qed.

Lemma reg_exec_all_live ops : reg_live (reg_exec_all ops NewRegistry).
Proof.
  unfold reg_exec_all. assert (reg_live NewRegistry) as H by apply NewRegistry_ok. revert H. generalize NewRegistry.
  induction ops as [|op ops IH]; intros w Hw; [done|]. cbn [foldl]. apply IH.
  destruct op; [by apply Reload_live|by apply SetDLRHandler_live|by apply CloseAll_live].
Qed.

(** The configurations reloaded have no two providers of the same name. *)
Definition names_unique (op : reg_op) : Prop := match op with ROReload _ c => unique_names c | _ => True end.

Lemma reg_exec_all_no_stray ops : Forall names_unique ops -> no_stray (reg_exec_all ops NewRegistry).
Proof.
  unfold reg_exec_all. assert (no_stray NewRegistry) as H by apply NewRegistry_ok. revert H. generalize NewRegistry.
  induction ops as [|op ops IH]; intros w Hw Hu; [done|]. apply Forall_cons in Hu as [Ho Hu]. cbn [foldl]. apply IH; [|done].
  destruct op; [by apply Reload_no_stray|by apply SetDLRHandler_no_stray|by apply CloseAll_no_stray].
Qed.

(** C26: Along any sequence of reloads, handler changes and closings, each name of
    the registry stands for an open object of its own that carries the current
    report handler; and when no configuration reloaded has two providers of
    one name, every object without a name is closed. *)
Theorem registry_invariant ops :
  let w := reg_exec_all ops NewRegistry in
  (forall n h, w_providers w !! n = Some h -> exists o, w_heap w !! h = Some o /\ po_open o = true /\ carries_handler w o)
  /\ (forall n n' h, w_providers w !! n = Some h -> w_providers w !! n' = Some h -> n = n')
  /\ (Forall names_unique ops -> forall h o, w_heap w !! h = Some o -> (forall n, w_providers w !! n <> Some h) -> po_open o = false).
Proof.
  pose proof (reg_exec_all_live ops) as [Hf Hl Hi]. cbn zeta. split; [done|]. split; [done|]. intros Hu h o H Hn.
  destruct (po_open o) eqn:E; [|done]. destruct (reg_exec_all_no_stray ops Hu _ _ H E) as [n Hn']. by destruct (Hn n).
Qed.

(** After a reload the registry has the providers that were built. *)
Lemma Reload_Get now c w n o :
  reg_live w -> unique_names c -> (n, o) ∈ BuildProviders now c ->
  exists o', Get n (Reload now c w) = Some o' /\ po_kind o' = po_kind o /\ po_limit o' = po_limit o /\ po_open o' = true
    /\ carries_handler (Reload now c w) o'.
Proof.
  intros Hw Hu [i Hi]%list_elem_of_lookup. pose proof (Reload_live now c w Hw) as [Hf Hl _]. destruct Hw as [Hf0 Hl0 _].
  unfold Reload in *. set (objs := BuildProviders now c) in *.
  pose proof (install_named objs w n i o (built_names now c Hu) Hi) as Hnext. pose proof (proj2 (install_heap objs w (w_next w + i)%nat o)) as Hh.
  destruct (install objs w) as [next w'] eqn:E. cbn [fst snd] in *. specialize (Hh ltac:(left; eauto)).
  assert (w_providers w' = w_providers w) as Ep by (unfold install in E; by injection E as <- <-).
  destruct (Hl n (w_next w + i)%nat Hnext) as (o' & Ho' & Hopen & Hc). exists o'.
  unfold Get. cbn [Replace w_providers]. rewrite Hnext. split; [exact Ho'|].
  cbn [Replace w_heap] in Ho'. rewrite each_lookup in Ho' by apply close_object_idem. rewrite decide_False in Ho'.
  - assert (po_kind o' = po_kind o /\ po_limit o' = po_limit o) as [? ?]; [|done].
    destruct (w_onDLR w') as [cb|]; [|by rewrite Hh in Ho'; injection Ho' as <-].
    rewrite each_lookup in Ho' by apply on_dlr_idem. rewrite Hh in Ho'. destruct (decide _); injection Ho' as <-; [|done].
    unfold on_dlr. by destruct (po_kind o) eqn:Ek; rewrite ?Ek.
  - intros (n' & H' & _)%elem_of_dropped. rewrite Ep in H'. destruct (Hl0 _ _ H') as (o2 & H2 & _). pose proof (Hf0 _ _ H2). lia.
Qed.

Lemma Reload_Get_None now c w n : n ∉ (BuildProviders now c).*1 -> Get n (Reload now c w) = None.
Proof.
  intros Hn. unfold Reload, Get. pose proof (install_names (BuildProviders now c) w n) as H. destruct (install _ w) as [next w']. cbn [Replace w_providers fst] in *.
  destruct (next !! n) as [h|]; [|done]. destruct (H h eq_refl) as (i & o & Hi & _). destruct Hn. apply list_elem_of_fmap. exists (n, o). split; [done|]. by eapply list_elem_of_lookup_2.
Qed.

(** ** The providers of a valid configuration *)

(** An HTTP provider whose rule no outbound rule has. *)
Definition missing_rule (c : Config) (p : ProviderConfig) : Prop :=
  (protocol_is p "http" || protocol_is p "https") = true /\ pv_Rule p ∉ hr_Name <$> c_Outbound c.

Lemma rule_by_name_None rules n : n ∉ hr_Name <$> rules -> rule_by_name rules !! n = None.
Proof. intros H. unfold rule_by_name. rewrite (foldl_insert_None hr_Name); [by rewrite lookup_empty|done]. Qed.

Lemma rule_by_name_Some rules n : n ∈ hr_Name <$> rules -> exists r, rule_by_name rules !! n = Some r /\ r ∈ rules /\ hr_Name r = n.
Proof.
  unfold rule_by_name. intros H. induction rules as [|r rules IH] using rev_ind; [by apply not_elem_of_nil in H|].
  rewrite foldl_app. cbn. destruct (decide (hr_Name r = n)) as [E|E].
  - rewrite E, lookup_insert_eq. exists r. split; [done|]. split; [|done]. apply elem_of_app. right. by left.
  - rewrite lookup_insert_ne by done. rewrite fmap_app in H. apply elem_of_app in H as [H|H].
    + destruct (IH H) as (r' & ? & ? & ?). exists r'. split; [done|]. split; [|done]. apply elem_of_app. by left.
    + cbn in H. apply elem_of_cons in H as [->|H]; [done|by apply not_elem_of_nil in H].
Qed.

Lemma kind_of_valid c p : protocol_ok false p -> ~ missing_rule c p -> exists k, provider_kind (rule_by_name (c_Outbound c)) p = Some k.
Proof.
  unfold protocol_ok, provider_kind, missing_rule. intros Hp Hm.
  destruct (protocol_is p "http" || protocol_is p "https") eqn:Eh.
  - destruct (decide (pv_Rule p ∈ hr_Name <$> c_Outbound c)) as [H|H]; [|by destruct Hm].
    destruct (rule_by_name_Some _ _ H) as (r & -> & _). by eexists.
  - destruct (protocol_is p "" || protocol_is p "mock"); [by eexists|]. destruct Hp as [-> _]. by eexists.
Qed.

(** After the reload of a valid configuration every enabled provider is found
    under its name as an open object of its protocol with its rate limit and
    the current report handler, unless it is an HTTP provider that names a
    rule the configuration does not have. *)
Theorem reload_serves_valid_config zone compiles c now ops p :
  config_ok false zone compiles c ->
  p ∈ c_Providers c -> pv_Enabled p = true ->
  let w := reg_exec_all (ops ++ [ROReload now c]) NewRegistry in
  if bool_decide (provider_kind (rule_by_name (c_Outbound c)) p = None) then missing_rule c p
  else exists o, Get (pv_Name p) w = Some o /\ provider_kind (rule_by_name (c_Outbound c)) p = Some (po_kind o)
    /\ po_limit o = NewLimiter (pv_RateLimit p) now /\ po_open o = true /\ carries_handler w o.
Proof.
  intros Hc Hp He. cbn zeta. pose proof (k_provider_names _ _ _ _ Hc) as Hnd.
  pose proof (k_providers _ _ _ _ Hc) as Hv. rewrite Forall_forall in Hv. pose proof (vk_protocol _ _ (Hv p Hp)) as Hproto.
  case_bool_decide as Ek.
  - destruct (decide (missing_rule c p)) as [H|H]; [done|]. destruct (kind_of_valid c p Hproto H) as [k Hk]. congruence.
  - destruct (provider_kind _ p) as [k|] eqn:E; [clear Ek|done].
    set (w0 := reg_exec_all ops NewRegistry).
    assert (reg_exec_all (ops ++ [ROReload now c]) NewRegistry = Reload now c w0) as -> by (unfold w0, reg_exec_all; by rewrite foldl_app).
    assert (build now (rule_by_name (c_Outbound c)) p = Some (pv_Name p, new_object now (pv_RateLimit p) k)) as Hb by (apply build_spec; eauto).
    assert ((pv_Name p, new_object now (pv_RateLimit p) k) ∈ BuildProviders now c) as Hin.
    { unfold BuildProviders. cbn zeta. assert ((pv_Name p, new_object now (pv_RateLimit p) k) ∈ omap (build now (rule_by_name (c_Outbound c))) (c_Providers c)) as H
        by (apply list_elem_of_omap; by exists p).
      rewrite bool_decide_eq_false_2; [done|]. intros E0%fmap_nil_inv. rewrite E0 in H. by apply not_elem_of_nil in H. }
    destruct (Reload_Get now c w0 _ _ (reg_exec_all_live ops) Hnd Hin) as (o & H1 & H2 & H3 & H4 & H5). exists o. rewrite H2, H3. by split_and!.
Qed.

(** ** Examples *)

Lemma demo_config_ok outbound :
  validate (fun _ => true) (fun _ => None) id (demo_config outbound) false = Ok tt ->
  config_ok false (fun _ => true) (fun s => (fun _ => None : option regex) s <> None) (demo_config outbound).
Proof. apply (validate_correct (fun _ => true) (fun _ => None) id (demo_config outbound) false). intros l. reflexivity. Qed.

Lemma registry_invariant_witness :
  let w := reg_exec_all [ROReload 5 (demo_config [demo_outbound "rule1"]); ROSetHandler (Some 1%nat); ROReload 9 (demo_config [demo_outbound "rule1"])] NewRegistry in
  w_providers w = {[ "up1" := 1%nat ]} /\ forall o, w_heap w !! 0%nat = Some o -> po_open o = false.
Proof.
  cbn zeta. split; [vm_compute; reflexivity|]. intros o Ho. refine (proj2 (proj2 (registry_invariant _)) _ 0%nat o Ho _).
  - repeat constructor; apply (bool_decide_unpack _); vm_compute; exact I.
  - intros n. match goal with |- w_providers ?w !! n <> _ => change (w_providers w) with ({[ "up1" := 1%nat ]} : gmap string nat) end.
    intros [_ H]%lookup_singleton_Some. discriminate H.
Defined.

Lemma reload_serves_valid_config_witness :
  exists o, Get "up1" (reg_exec_all ([ROSetHandler (Some 1%nat)] ++ [ROReload 5 (demo_config [demo_outbound "rule1"])]) NewRegistry) = Some o /\ po_open o = true.
Proof.
  pose proof (reload_serves_valid_config (fun _ => true) (fun s => (fun _ => None : option regex) s <> None) (demo_config [demo_outbound "rule1"]) 5
    [ROSetHandler (Some 1%nat)] (demo_http "up1" "rule1") (demo_config_ok [demo_outbound "rule1"] ltac:(vm_compute; reflexivity))) as H.
  cbn zeta in H. rewrite bool_decide_eq_false_2 in H by (vm_compute; discriminate).
  destruct H as (o & H & _ & _ & Ho & _); [left|reflexivity|]. exists o. split; [exact H|exact Ho].
Defined.

(** There is a valid configuration with a route to an enabled HTTP provider that
    is never built. *)
Theorem missing_rule_not_served :
  exists c p r, config_ok false (fun _ => true) (fun s => (fun _ => None : option regex) s <> None) c
  /\ p ∈ c_Providers c /\ pv_Enabled p = true /\ r ∈ c_Routes c /\ route_providers r = [pv_Name p]
  /\ forall now ops, Get (pv_Name p) (reg_exec_all (ops ++ [ROReload now c]) NewRegistry) = None.
Proof.
  exists (demo_config []), (demo_http "up1" "rule1"), (normalize_route (demo_route "r1" "up1")).
  split; [apply demo_config_ok; vm_compute; reflexivity|]. split; [left|]. split; [reflexivity|]. split; [left|]. split; [reflexivity|].
  intros now ops. unfold reg_exec_all. rewrite foldl_app. cbn [foldl flip reg_exec].
  apply Reload_Get_None. vm_compute. intros H. by repeat (apply elem_of_cons in H as [H|H]; [done|]); apply not_elem_of_nil in H.
Qed.

(** Two enabled providers of the same name, which validation refuses: the first
    is left open and nothing refers to it. *)
Definition twice_named : Config :=
  let c := demo_config [demo_outbound "rule1"] in
  {| c_Server := c_Server c; c_SMPP := c_SMPP c; c_Dispatcher := c_Dispatcher c; c_Tenants := c_Tenants c; c_ESMEs := c_ESMEs c;
     c_Routes := c_Routes c; c_Providers := [demo_http "up1" "rule1"; demo_http "up1" "rule1"]; c_Inbound := c_Inbound c; c_Outbound := c_Outbound c;
     c_Clients := c_Clients c; c_TrustedProxies := c_TrustedProxies c; c_Risk := c_Risk c; c_Filter := c_Filter c; c_CDR := c_CDR c;
     c_Storage := c_Storage c; c_Admin := c_Admin c |}.

Example duplicate_name_leaks :
  let w := Reload 5 twice_named NewRegistry in
  w_providers w = {[ "up1" := 1%nat ]} /\ po_open <$> w_heap w !! 0%nat = Some true.
Proof. split; vm_compute; reflexivity. Qed.
