(* ===== verification/RiskLimit.v ===== *)
(** * The HTTP rate limits: internal/httpgw/rules.go, allowRate

    Fixed windows, one per key, in a map swept once a minute. The sweep is shown
    to change no answer; the windows are shown to bound what is allowed. *)

From S2P Require Import Prelude Unicode Codec Segment Num GoTime GoParse Records Store StoreInv StoreSubmit GatewayId.
From S2P Require Import Addr Router DlrAggregate Dispatch Config Float64 Tenant.

Record rateWindow := mkRateWindow {
  rw_start : time;
  rw_expiresAt : time;
  rw_count : Z }.

Record Risk := mkRisk {
  ra_counts : gmap string rateWindow;
  ra_sweep : time }.

Definition NewRisk : Risk := mkRisk ∅ 0.

Definition expired (now : time) (rec : rateWindow) : bool := negb (IsZero (rw_expiresAt rec)) && After now (rw_expiresAt rec).

Definition risk_sweep (now : time) (g : Risk) : Risk :=
  if IsZero (ra_sweep g) || (Minute <=? time_Sub now (ra_sweep g))
  then mkRisk (filter (fun kv => expired now kv.2 = false) (ra_counts g)) now
  else g.

Definition allowRate (now : time) (key : string) (window : duration) (limit : Z) (g : Risk) : Risk * bool :=
  let g := risk_sweep now g in
  let rec := default (mkRateWindow 0 0 0) (ra_counts g !! key) in
  if IsZero (rw_start rec) || (window <=? time_Sub now (rw_start rec)) then
    (mkRisk (<[key := mkRateWindow now (now + window) 1]> (ra_counts g)) (ra_sweep g), true)
  else if limit <=? rw_count rec then (g, false)
  else (mkRisk (<[key := mkRateWindow (rw_start rec) (rw_expiresAt rec) (rw_count rec + 1)]> (ra_counts g)) (ra_sweep g), true).

(** ** Sequences of calls *)

Record rate_call := mkRateCall {
  ac_now : time;
  ac_key : string;
  ac_limit : Z }.

Section windows.
(** The window of each key: [applyRisk] gives a key one window only. *)
Context (win : string -> duration).

Fixpoint rate_run (g : Risk) (calls : list rate_call) : list (rate_call * bool) :=
  match calls with
  | [] => []
  | c :: calls =>
    let '(g, ok) := allowRate (ac_now c) (ac_key c) (win (ac_key c)) (ac_limit c) g in
    (c, ok) :: rate_run g calls
  end.

(** The specification: a window and a count per key, nothing forgotten. *)
Definition ref_rate (now : time) (window : duration) (limit : Z) (rec : option (time * Z)) : option (time * Z) * bool :=
  match rec with
  | Some (start, count) =>
    if window <=? now - start then (Some (now, 1), true)
    else if limit <=? count then (rec, false)
    else (Some (start, count + 1), true)
  | None => (Some (now, 1), true)
  end.

Fixpoint ref_rate_run (m : gmap string (time * Z)) (calls : list rate_call) : list (rate_call * bool) :=
  match calls with
  | [] => []
  | c :: calls =>
    let '(rec, ok) := ref_rate (ac_now c) (win (ac_key c)) (ac_limit c) (m !! ac_key c) in
    (c, ok) :: ref_rate_run (partial_alter (fun _ => rec) (ac_key c) m) calls
  end.

(** Clock readings that do not go back, after [now]. *)
Fixpoint ordered (now : time) (calls : list rate_call) : Prop :=
  match calls with
  | [] => True
  | c :: calls => now <= ac_now c /\ ordered (ac_now c) calls
  end.

Context (Hwin : forall key, 0 < win key <= Day).

Definition tracks (now : time) (key : string) (rec : option rateWindow) (ref : option (time * Z)) : Prop :=
  match rec, ref with
  | Some r, Some (s, c) => rw_start r = s /\ rw_count r = c /\ rw_expiresAt r = s + win key /\ 0 < s <= now
  | Some _, None => False
  | None, Some (s, _) => 0 < s /\ s + win key < now
  | None, None => True
  end.

Lemma time_Sub_le w a b : 0 < w <= Day -> (w <=? time_Sub a b) = (w <=? a - b).
Proof using. unfold time_Sub, Day, Hour, Minute, Second. intros H. apply eq_bool_prop_intro. rewrite !Is_true_true, !Z.leb_le. lia. Qed.

Lemma sweep_tracks now key g ref :
  0 < now -> tracks now key (ra_counts g !! key) ref -> tracks now key (ra_counts (risk_sweep now g) !! key) ref.
Proof using Hwin.
  intros Hn H. unfold risk_sweep. destruct (_ || _); [|done]. cbn [ra_counts].
  destruct (ra_counts g !! key) as [r|] eqn:E.
  - destruct ref as [[s c]|]; [|done]. destruct H as (H1 & H2 & H3 & H4). pose proof (Hwin key).
    destruct (expired now r) eqn:Ex.
    + rewrite (map_lookup_filter_None_2 _ _ key); [|right; intros r' Hr'; cbn; congruence].
      unfold expired, After, IsZero in Ex. cbn. lia.
    + assert (filter (fun kv => expired now kv.2 = false) (ra_counts g) !! key = Some r) as -> by by apply map_lookup_filter_Some_2.
      by cbn.
  - rewrite (map_lookup_filter_None_2 _ _ key); [done|by left].
Qed.

Lemma tracks_later now now' key rec ref : now <= now' -> tracks now key rec ref -> tracks now' key rec ref.
Proof using. unfold tracks. intros Hn. destruct rec, ref as [[s c]|]; try done; intuition lia. Qed.

Lemma allowRate_ref now key limit g (m : gmap string (time * Z)) :
  0 < now -> (forall k, tracks now k (ra_counts g !! k) (m !! k)) ->
  let '(g', ok) := allowRate now key (win key) limit g in
  let '(rec, ok') := ref_rate now (win key) limit (m !! key) in
  ok = ok' /\ forall k, tracks now k (ra_counts g' !! k) (partial_alter (fun _ => rec) key m !! k).
Proof using Hwin.
  intros Hn H. unfold allowRate. assert (forall k, tracks now k (ra_counts (risk_sweep now g) !! k) (m !! k)) as H1
    by (intros k; by apply sweep_tracks).
  set (g1 := risk_sweep now g) in *. pose proof (H1 key) as Hk. pose proof (Hwin key) as Hw. cbn zeta.
  rewrite time_Sub_le by done.
  assert (forall (x : option rateWindow) r (f : gmap string rateWindow), tracks now key x r -> (forall k, k <> key -> f !! k = ra_counts g1 !! k) -> f !! key = x ->
    forall k, tracks now k (f !! k) (partial_alter (fun _ => r) key m !! k)) as Hupd.
  { intros x r f Ht Hne Hf k. destruct (decide (k = key)) as [->|Hd].
    - by rewrite lookup_partial_alter_eq, Hf.
    - rewrite lookup_partial_alter_ne, Hne by done. apply H1. }
  unfold ref_rate. destruct (ra_counts g1 !! key) as [r|] eqn:E1, (m !! key) as [[s c]|] eqn:E2; cbn in Hk; cbn [default from_option id].
  - destruct Hk as (<- & <- & Hexp & Hs). unfold IsZero. rewrite (proj2 (Z.eqb_neq _ 0)) by lia. cbn [orb].
    destruct (Z.leb_spec (win key) (now - rw_start r)).
    + split; [done|]. apply (Hupd (Some (mkRateWindow now (now + win key) 1))); [cbn; lia| |]; cbn.
      * intros k Hd. by rewrite lookup_insert_ne.
      * apply lookup_insert_eq.
    + destruct (limit <=? rw_count r).
      * split; [done|]. apply (Hupd (Some r)); [cbn; lia|done|done].
      * split; [done|]. apply (Hupd (Some (mkRateWindow (rw_start r) (rw_expiresAt r) (rw_count r + 1)))); [cbn; lia| |]; cbn.
        -- intros k Hd. by rewrite lookup_insert_ne.
        -- apply lookup_insert_eq.
  - done.
  - cbn. rewrite (proj2 (Z.leb_le (win key) (now - s))) by lia. split; [done|].
    apply (Hupd (Some (mkRateWindow now (now + win key) 1))); [cbn; lia| |]; cbn.
    + intros k Hd. by rewrite lookup_insert_ne.
    + apply lookup_insert_eq.
  - cbn. split; [done|]. apply (Hupd (Some (mkRateWindow now (now + win key) 1))); [cbn; lia| |]; cbn.
    + intros k Hd. by rewrite lookup_insert_ne.
    + apply lookup_insert_eq.
Qed.

Lemma rate_run_ref_from now calls g m :
  0 < now -> ordered now calls -> (forall k, tracks now k (ra_counts g !! k) (m !! k)) -> rate_run g calls = ref_rate_run m calls.
Proof using Hwin.
  revert now g m. induction calls as [|c calls IH]; intros now g m Hn Ho H; [done|]. destruct Ho as [Hc Ho]. cbn [rate_run ref_rate_run].
  pose proof (allowRate_ref (ac_now c) (ac_key c) (ac_limit c) g m ltac:(lia) (fun k => tracks_later _ _ _ _ _ Hc (H k))) as Hs.
  destruct (allowRate _ _ _ _ _) as [g' ok], (ref_rate _ _ _ _) as [rec ok']. destruct Hs as [-> Hs]. f_equal.
  apply (IH (ac_now c)); [lia|done|done].
Qed.

Lemma rate_run_ref calls : ordered 1 calls -> rate_run NewRisk calls = ref_rate_run ∅ calls.
Proof using Hwin. intros Ho. apply (rate_run_ref_from 1); [lia|done|]. intros k. cbn. by rewrite !lookup_empty. Qed.

(** ** Bounds *)

(** What is allowed of a key in an interval. *)
Definition allowed_in (key : string) (lo hi : time) (tr : list (rate_call * bool)) : nat :=
  length (filter (fun cb => cb.2 = true /\ ac_key cb.1 = key /\ lo <= ac_now cb.1 < hi) tr).

(** What a state still allows in the interval of one window from [t]. *)
Definition room (key : string) (limit : Z) (t : time) (rec : option (time * Z)) : Z :=
  match rec with
  | Some (s, c) =>
    if t <=? s then Z.max 0 (limit - c)
    else if t <? s + win key then Z.max 0 (limit - c) + limit
    else 2 * limit
  | None => 2 * limit
  end.

Definition plausible (now : time) (rec : option (time * Z)) : Prop :=
  match rec with Some (s, c) => s <= now /\ 0 <= c | None => True end.

Lemma room_step key limit t now lim rec :
  1 <= limit -> lim <= limit -> plausible now rec ->
  let '(rec', ok) := ref_rate now (win key) lim rec in
  plausible now rec' /\ (now < t + win key -> (if ok && (t <=? now) then 1 else 0) + room key limit t rec' <= room key limit t rec).
Proof using Hwin.
  intros Hl Hlim Hp. pose proof (Hwin key) as Hw. unfold ref_rate, room.
  destruct rec as [[s c]|]; cbn in Hp.
  - destruct (Z.leb_spec (win key) (now - s)) as [H1|H1]; [|destruct (Z.leb_spec lim c) as [H2|H2]].
    + split; [cbn; lia|]. intros Hn. cbn [andb]. bdestr; lia.
    + split; [done|]. intros Hn. cbn [andb]. bdestr; lia.
    + split; [cbn; lia|]. intros Hn. cbn [andb]. bdestr; lia.
  - split; [cbn; lia|]. intros Hn. cbn [andb]. bdestr; lia.
Qed.

Lemma allowed_late key lo hi now calls m : hi <= now -> ordered now calls -> allowed_in key lo hi (ref_rate_run m calls) = 0%nat.
Proof using.
  revert now m. induction calls as [|c calls IH]; intros now m Hn Ho; [done|]. destruct Ho as [Hc Ho]. cbn [ref_rate_run].
  destruct (ref_rate _ _ _ _) as [rec ok]. unfold allowed_in. rewrite filter_cons. cbn [fst snd].
  rewrite decide_False by lia. by apply (IH (ac_now c)); [lia|].
Qed.

Lemma room_bound key limit t now calls (m : gmap string (time * Z)) :
  1 <= limit -> ordered now calls -> Forall (fun c => ac_key c = key -> ac_limit c <= limit) calls ->
  plausible now (m !! key) ->
  Z.of_nat (allowed_in key t (t + win key) (ref_rate_run m calls)) <= room key limit t (m !! key).
Proof using Hwin.
  intros Hl. pose proof (Hwin key) as Hw. revert now m. induction calls as [|c calls IH]; intros now m Ho Hlim Hm.
  - cbn. unfold room. destruct (m !! key) as [[s cnt]|]; [|lia]. bdestr; lia.
  - destruct (Z.le_gt_cases (t + win key) (ac_now c)) as [Hlate|Hearly].
    { rewrite (allowed_late key _ _ (ac_now c)); [|done|split; [reflexivity|apply Ho]].
      unfold room. destruct (m !! key) as [[s cnt]|]; [|lia]. bdestr; lia. }
    destruct Ho as [Hc Ho]. apply Forall_cons in Hlim as [Hcl Hlim]. cbn [ref_rate_run].
    assert (plausible (ac_now c) (m !! key)) as Hm1 by (destruct (m !! key) as [[]|]; cbn in *; [lia|done]).
    destruct (ref_rate _ _ _ _) as [rec ok] eqn:E. unfold allowed_in. rewrite filter_cons. cbn [fst snd].
    set (m' := partial_alter _ _ m).
    destruct (decide (ac_key c = key)) as [Ek|Ek].
    + assert (m' !! key = rec) as Em by (unfold m'; rewrite Ek; apply lookup_partial_alter_eq).
      rewrite Ek in E. pose proof (room_step key limit t (ac_now c) (ac_limit c) (m !! key) Hl (Hcl Ek) Hm1) as Hs. rewrite E in Hs.
      destruct Hs as [Hp Hs]. specialize (Hs Hearly). rewrite <- Em in Hp, Hs. specialize (IH (ac_now c) m' Ho Hlim Hp).
      unfold allowed_in in IH. case_decide as D; cbn [length]; [|destruct (_ && _); lia].
      destruct D as (-> & _ & D1 & _). rewrite (proj2 (Z.leb_le _ _) D1) in Hs. cbn [andb] in Hs. lia.
    + rewrite decide_False by tauto. assert (m' !! key = m !! key) as Em by (by apply lookup_partial_alter_ne). rewrite <- Em in Hm1 |- *.
      by apply (IH (ac_now c)).
Qed.

(** A refusal finds its limit used up within the last window. *)
Lemma refused_full key calls now (m : gmap string (time * Z)) hist i c :
  ordered now calls -> plausible now (m !! key) ->
  match m !! key with Some (s, n) => n <= Z.of_nat (allowed_in key s (now + 1) hist) | None => True end ->
  Forall (fun cb => ac_now cb.1 <= now) hist ->
  ref_rate_run m calls !! i = Some (c, false) -> ac_key c = key ->
  ac_limit c <= Z.of_nat (allowed_in key (ac_now c - win key + 1) (ac_now c + 1) (hist ++ take i (ref_rate_run m calls))).
Proof using Hwin.
  pose proof (Hwin key) as Hw.
  assert (forall lo lo' hi hi' l, lo' <= lo -> hi <= hi' -> (allowed_in key lo hi l <= allowed_in key lo' hi' l)%nat) as Hmono.
  { intros lo lo' hi hi' l Hlo Hhi. unfold allowed_in. induction l as [|cb l IH]; [done|]. rewrite !filter_cons.
    destruct (decide _) as [D|D], (decide _) as [D'|D']; cbn [length]; try lia. exfalso. apply D'. intuition lia. }
  assert (forall lo hi l l', allowed_in key lo hi (l ++ l') = (allowed_in key lo hi l + allowed_in key lo hi l')%nat) as Happ.
  { intros. unfold allowed_in. by rewrite filter_app, length_app. }
  revert now m hist i. induction calls as [|c0 calls IH]; intros now m hist i Ho Hp Hn Hh Hi Hk; [done|].
  destruct Ho as [Hc Ho]. cbn [ref_rate_run] in *. destruct (ref_rate _ _ _ _) as [rec ok] eqn:E.
  destruct i as [|i]; cbn [lookup list_lookup take] in Hi |- *.
  - injection Hi as -> ->. rewrite app_nil_r. rewrite Hk in E. unfold ref_rate in E. destruct (m !! key) as [[s n]|]; [|done].
    destruct (Z.leb_spec (win key) (ac_now c - s)); [done|]. destruct (Z.leb_spec (ac_limit c) n); [|done].
    pose proof (Hmono s (ac_now c - win key + 1) (now + 1) (ac_now c + 1) hist ltac:(lia) ltac:(lia)). lia.
  - rewrite (cons_middle (c0, ok)), app_assoc. set (m' := partial_alter _ _ m) in *. apply (IH (ac_now c0)); try done.
    + destruct (decide (ac_key c0 = key)) as [Ek|Ek].
      * assert (m' !! key = rec) as -> by (unfold m'; rewrite Ek; apply lookup_partial_alter_eq). rewrite Ek in E. unfold ref_rate in E. destruct (m !! key) as [[s n]|]; cbn in Hp.
        -- destruct (_ <=? _); [injection E as <- _; cbn; lia|]. destruct (_ <=? _); injection E as <- _; cbn; lia.
        -- injection E as <- _. cbn. lia.
      * unfold m'. rewrite lookup_partial_alter_ne by done. destruct (m !! key) as [[]|]; cbn in *; [lia|done].
    + destruct (decide (ac_key c0 = key)) as [Ek|Ek].
      * assert (m' !! key = rec) as -> by (unfold m'; rewrite Ek; apply lookup_partial_alter_eq). rewrite Ek in E.
        assert (forall lo, lo <= ac_now c0 -> ok = true -> allowed_in key lo (ac_now c0 + 1) [(c0, ok)] = 1%nat) as H1.
        { intros lo Hlo ->. unfold allowed_in. rewrite filter_cons. cbn [fst snd]. rewrite decide_True by (split_and!; [done|done|lia..]). done. }
        unfold ref_rate in E. destruct (m !! key) as [[s n]|]; cbn in Hp.
        -- pose proof (Hmono s s (now + 1) (ac_now c0 + 1) hist ltac:(lia) ltac:(lia)).
           destruct (_ <=? _); [injection E as <- <-; rewrite Happ, H1 by (done || lia); lia|].
           destruct (_ <=? _); injection E as <- <-; rewrite Happ; [lia|]. rewrite H1 by (done || lia). lia.
        -- injection E as <- <-. rewrite Happ, H1 by (done || lia). lia.
      * unfold m'. rewrite lookup_partial_alter_ne by done. destruct (m !! key) as [[s n]|]; [|done].
        pose proof (Hmono s s (now + 1) (ac_now c0 + 1) hist ltac:(lia) ltac:(lia)). rewrite Happ. lia.
    + apply Forall_app. split; [|by constructor]. eapply Forall_impl; [exact Hh|]. cbn. lia.
Qed.
End windows.

(** ** The keys of [applyRisk] *)

Definition risk_window (key : string) : duration :=
  if HasPrefix key "num:min:" then Minute else if HasPrefix key "num:day:" then Day else Second.

Lemma risk_window_ok key : 0 < risk_window key <= Day.
Proof. unfold risk_window, Day, Hour, Minute, Second. destruct (HasPrefix _ _); [lia|]. destruct (HasPrefix _ _); lia. Qed.

(** The rate limits of the HTTP gateway, with their sweep of expired counters,
    answer any sequence of calls as counters that are never removed. *)
Theorem rate_sweep_invisible calls : ordered 1 calls -> rate_run risk_window NewRisk calls = ref_rate_run risk_window ∅ calls.
Proof. apply rate_run_ref, risk_window_ok. Qed.

(** In any stretch as long as the window at most twice the limit passes, and a
    refusal means that the window before it holds as many as the limit. *)
Theorem rate_limit_windows calls key limit :
  ordered 1 calls -> 1 <= limit -> Forall (fun c => ac_key c = key -> ac_limit c <= limit) calls ->
  let tr := rate_run risk_window NewRisk calls in
  (forall t, Z.of_nat (allowed_in key t (t + risk_window key) tr) <= 2 * limit)
  /\ (forall i c, tr !! i = Some (c, false) -> ac_key c = key ->
      ac_limit c <= Z.of_nat (allowed_in key (ac_now c - risk_window key + 1) (ac_now c + 1) (take i tr))).
Proof.
  intros Ho Hl Hlim. cbn zeta. rewrite rate_run_ref by (apply risk_window_ok || done). split.
  - intros t. pose proof (room_bound risk_window risk_window_ok key limit t 1 calls ∅ Hl Ho Hlim) as H. rewrite lookup_empty in H. by apply H.
  - intros i c Hi Hk. apply (refused_full risk_window risk_window_ok key calls 1 ∅ [] i c Ho); try done; by rewrite lookup_empty.
Qed.

Definition demo_calls : list rate_call :=
  [mkRateCall 100 "client:sec:c1" 2; mkRateCall 200 "client:sec:c1" 2; mkRateCall 300 "client:sec:c1" 2;
   mkRateCall 1000000100 "client:sec:c1" 2].

Lemma demo_ordered : ordered 1 demo_calls.
Proof. cbn. lia. Qed.

Lemma rate_sweep_invisible_witness : (rate_run risk_window NewRisk demo_calls).*2 = [true; true; false; true].
Proof. rewrite (rate_sweep_invisible demo_calls demo_ordered). reflexivity. Defined.

Lemma rate_limit_windows_witness :
  Z.of_nat (allowed_in "client:sec:c1" 100 (100 + risk_window "client:sec:c1") (rate_run risk_window NewRisk demo_calls)) <= 4.
Proof.
  refine (proj1 (rate_limit_windows demo_calls "client:sec:c1" 2 demo_ordered _ _) 100); [lia|].
  unfold demo_calls. rewrite !Forall_cons, Forall_nil. cbn. lia.
Defined.
