(* ===== verification/CdrWriter.v ===== *)
(** * The CDR stream on disk: internal/cdr/event.go, writer.go

    Emitters put events on a channel; one goroutine takes them off, writes them
    as lines of the current file, and closes and renames the file when it is
    full or old. The writer is a transition system; what the operating system
    answers is part of each step. *)

From S2P Require Import Prelude Unicode Codec Segment Num GoTime GoParse Records Store StoreInv StoreSubmit GatewayId.
From S2P Require Import Addr Router DlrAggregate Dispatch Config.

(** ** Events *)

Definition maskMSISDN (value : string) : string :=
  if (slen value <=? 4)%nat then string_of_bytes (replicate (slen value) 42)
  else string_of_bytes (replicate (slen value - 4) 42) +:+ sdrop (slen value - 4) value.

(** [now] is the text of the clock reading. *)
Definition normalize_event (now instance : string) (maskTo storeText : bool) (e : Event) : Event :=
  {| ev_Seq := ev_Seq e; ev_Ts := if bool_decide (ev_Ts e = "") then now else ev_Ts e; ev_Kind := ev_Kind e;
     ev_GatewayID := ev_GatewayID e; ev_ProviderID := ev_ProviderID e; ev_From := ev_From e;
     ev_To := if maskTo then maskMSISDN (ev_To e) else ev_To e; ev_TextLen := ev_TextLen e; ev_TextHash := ev_TextHash e;
     ev_Text := if storeText then ev_Text e else ""; ev_Encoding := ev_Encoding e;
     ev_Segments := ev_Segments e; ev_SegmentIndex := ev_SegmentIndex e; ev_SegmentCount := ev_SegmentCount e;
     ev_MessageState := ev_MessageState e; ev_Final := ev_Final e; ev_Route := ev_Route e; ev_Provider := ev_Provider e;
     ev_ClientID := ev_ClientID e; ev_TenantID := ev_TenantID e; ev_AccountID := ev_AccountID e;
     ev_ClientMsgID := ev_ClientMsgID e; ev_SystemID := ev_SystemID e; ev_Source := ev_Source e;
     ev_State := ev_State e; ev_ErrorCode := ev_ErrorCode e; ev_Reason := ev_Reason e;
     ev_FilterRule := ev_FilterRule e;
     ev_Instance := if bool_decide (instance <> "") && bool_decide (ev_Instance e = "") then instance else ev_Instance e |}.

Definition ev_set_Seq (v : Z) (r : Event) : Event :=
  {| ev_Seq := v; ev_Ts := ev_Ts r; ev_Kind := ev_Kind r;
     ev_GatewayID := ev_GatewayID r; ev_ProviderID := ev_ProviderID r; ev_From := ev_From r;
     ev_To := ev_To r; ev_TextLen := ev_TextLen r; ev_TextHash := ev_TextHash r;
     ev_Text := ev_Text r; ev_Encoding := ev_Encoding r;
     ev_Segments := ev_Segments r; ev_SegmentIndex := ev_SegmentIndex r; ev_SegmentCount := ev_SegmentCount r;
     ev_MessageState := ev_MessageState r; ev_Final := ev_Final r; ev_Route := ev_Route r; ev_Provider := ev_Provider r;
     ev_ClientID := ev_ClientID r; ev_TenantID := ev_TenantID r; ev_AccountID := ev_AccountID r;
     ev_ClientMsgID := ev_ClientMsgID r; ev_SystemID := ev_SystemID r; ev_Source := ev_Source r;
     ev_State := ev_State r; ev_ErrorCode := ev_ErrorCode r; ev_Reason := ev_Reason r;
     ev_FilterRule := ev_FilterRule r; ev_Instance := ev_Instance r |}.

(** ** Files *)

(** The file being written: what reached the disk and what is in the buffer.
    After a failed write the buffer refuses every later one. *)
Record cdrFile := mkCdrFile {
  cf_base : string;
  cf_disk : list Event;
  cf_buffer : list Event;
  cf_count : Z;
  cf_broken : bool }.

(** What the operating system answers. *)
Inductive open_answer := OpenNew | OpenExists (again : bool) | OpenError.
Record os_answers := mkOs {
  os_open : open_answer;
  os_write : bool;
  os_flush : bool;
  os_sync : bool;
  os_close : bool;
  os_rename : bool }.

Definition os_fine (o : os_answers) : Prop :=
  (os_open o = OpenNew \/ os_open o = OpenExists true)
  /\ os_write o = true /\ os_flush o = true /\ os_sync o = true /\ os_close o = true /\ os_rename o = true.

Definition safe_rune (r : Z) : bool := in_range 97 122 r || in_range 65 90 r || in_range 48 57 r || (r =? 45) || (r =? 95).

Definition safeInstance (value : string) : string :=
  if bool_decide (value = "") then "default"
  else string_of_runes ((fun r => if safe_rune r then r else 95) <$> runes value).

(** [t.Format("20060102150405")]. *)
Definition Format_long (t : time) : string :=
  let c := civil_of t in
  fmt_0d 4 (c_year c) +:+ fmt_0d 2 (c_month c) +:+ fmt_0d 2 (c_day c) +:+ fmt_0d 2 (c_hour c) +:+ fmt_0d 2 (c_minute c) +:+ fmt_0d 2 (c_second c).

Definition UnixNano (t : time) : Z := t - Unix 0.

Definition cdr_base (now : time) (instance : string) : string :=
  "cdr-" +:+ Format_long now +:+ "-" +:+ Itoa (UnixNano now) +:+ "-" +:+ safeInstance instance.

(** The name without ".jsonl.writing". *)
Definition openCDRFile (o : os_answers) (now : time) (instance : string) : option cdrFile :=
  let base := cdr_base now instance in
  match os_open o with
  | OpenNew => Some (mkCdrFile base [] [] 0 false)
  | OpenExists true => Some (mkCdrFile (base +:+ "-" +:+ Itoa (UnixNano now)) [] [] 0 false)
  | OpenExists false | OpenError => None
  end.

(** A failed write leaves the buffer broken. What reaches the disk before a flush,
    or in a flush that fails, is not counted. *)
Definition cf_write (o : os_answers) (e : Event) (f : cdrFile) : cdrFile * bool :=
  if cf_broken f || negb (os_write o) then (mkCdrFile (cf_base f) (cf_disk f) (cf_buffer f) (cf_count f) true, false)
  else (mkCdrFile (cf_base f) (cf_disk f) (cf_buffer f ++ [e]) (cf_count f + 1) false, true).

Definition flushSync (o : os_answers) (f : cdrFile) : cdrFile * bool :=
  if cf_broken f || negb (os_flush o) then (mkCdrFile (cf_base f) (cf_disk f) (cf_buffer f) (cf_count f) true, false)
  else (mkCdrFile (cf_base f) (cf_disk f ++ cf_buffer f) [] (cf_count f) false, os_sync o).

Definition final_name (f : cdrFile) : string := cf_base f +:+ "-" +:+ Itoa (cf_count f) +:+ ".jsonl".

(** [close(true)]: what is left on the disk, and whether all went well. *)
Inductive disk_file :=
| Finished (name : string) (lines : list Event)
| Unfinished (name : string) (lines : list Event).

Definition cf_close (o : os_answers) (f : cdrFile) : list disk_file * bool :=
  let '(f, ok) := flushSync o f in
  let ok := ok && os_close o in
  if cf_count f =? 0 then ([], ok)
  else if os_rename o then ([Finished (final_name f) (cf_disk f)], ok)
  else ([Unfinished (cf_base f +:+ ".jsonl.writing") (cf_disk f)], false).

(** ** The writer *)

Record Writer := mkWriter {
  wr_cfg : CDRConfig;
  wr_closed : bool;
  wr_dropped : Z;
  wr_seq : Z;
  wr_sending : list Event;        (* emitters between the sequence number and the send *)
  wr_in : list Event;
  wr_inClosed : bool;
  wr_current : option cdrFile;
  wr_timer : bool;                (* the age timer exists *)
  wr_lastSync : time;
  wr_files : list disk_file;
  wr_closeErr : bool;
  wr_done : bool;
  wr_sent : list Event }.         (* what was put on the channel, in order *)

Definition NewWriter (hostname : string) (mkdir : bool) (cfg : CDRConfig) : res string (option Writer) :=
  if negb (cd_Enabled cfg) then Ok None
  else
    let cfg :=
      {| cd_Enabled := true; cd_Dir := cd_Dir cfg; cd_Mode := or_str (cd_Mode cfg) "events";
         cd_MaxRecords := if cd_MaxRecords cfg <=? 0 then 10000 else cd_MaxRecords cfg;
         cd_MaxAge := or_str (cd_MaxAge cfg) "1h"; cd_Buffer := if cd_Buffer cfg <=? 0 then 1 else cd_Buffer cfg;
         cd_OnFull := or_str (cd_OnFull cfg) "block"; cd_FsyncEvery := cd_FsyncEvery cfg;
         cd_FsyncInterval := or_str (cd_FsyncInterval cfg) "2s"; cd_Instance := or_str (cd_Instance cfg) hostname;
         cd_MaskTo := cd_MaskTo cfg; cd_StoreText := cd_StoreText cfg |} in
    if negb (bool_decide (cd_Mode cfg = "events")) then Err "cdr mode is not implemented"
    else if negb mkdir then Err "mkdir"
    else Ok (Some (mkWriter cfg false 0 0 [] [] false None false 0 [] false false [])).

Definition max_age (w : Writer) : duration := default 0 (ParseDuration (cd_MaxAge (wr_cfg w))).
Definition fsync_interval (w : Writer) : duration := default 0 (ParseDuration (cd_FsyncInterval (wr_cfg w))).

Definition wr_put (cur : option cdrFile) (timer : bool) (lastSync : time) (files : list disk_file) (err : bool) (w : Writer) : Writer :=
  mkWriter (wr_cfg w) (wr_closed w) (wr_dropped w) (wr_seq w) (wr_sending w) (wr_in w) (wr_inClosed w) cur timer lastSync
    (wr_files w ++ files) (wr_closeErr w || err) (wr_done w) (wr_sent w).
Definition wr_take (rest : list Event) (w : Writer) : Writer :=
  mkWriter (wr_cfg w) (wr_closed w) (wr_dropped w) (wr_seq w) (wr_sending w) rest (wr_inClosed w) (wr_current w) (wr_timer w)
    (wr_lastSync w) (wr_files w) (wr_closeErr w) (wr_done w) (wr_sent w).
Definition wr_return (w : Writer) : Writer :=
  mkWriter (wr_cfg w) (wr_closed w) (wr_dropped w) (wr_seq w) (wr_sending w) (wr_in w) (wr_inClosed w) (wr_current w) (wr_timer w)
    (wr_lastSync w) (wr_files w) (wr_closeErr w) true (wr_sent w).

(** Emit up to the channel operation, under the read lock. *)
Definition emit_start (e : Event) (now : string) (w : Writer) : Writer :=
  if wr_closed w then w
  else
    let seq := u64 (wr_seq w + 1) in
    let e := normalize_event now (cd_Instance (wr_cfg w)) (cd_MaskTo (wr_cfg w)) (cd_StoreText (wr_cfg w)) (ev_set_Seq seq e) in
    mkWriter (wr_cfg w) (wr_closed w) (wr_dropped w) seq (wr_sending w ++ [e]) (wr_in w) (wr_inClosed w) (wr_current w) (wr_timer w)
      (wr_lastSync w) (wr_files w) (wr_closeErr w) (wr_done w) (wr_sent w).

(** The channel operation of the [i]th emitter; [None] while it blocks. *)
Definition emit_send (i : nat) (w : Writer) : option Writer :=
  e ← wr_sending w !! i;
  let rest := delete i (wr_sending w) in
  let room := Z.of_nat (length (wr_in w)) <? cd_Buffer (wr_cfg w) in
  if room then
    Some (mkWriter (wr_cfg w) (wr_closed w) (wr_dropped w) (wr_seq w) rest (wr_in w ++ [e]) (wr_inClosed w) (wr_current w) (wr_timer w)
      (wr_lastSync w) (wr_files w) (wr_closeErr w) (wr_done w) (wr_sent w ++ [e]))
  else if bool_decide (cd_OnFull (wr_cfg w) = "drop") then
    Some (mkWriter (wr_cfg w) (wr_closed w) (u64 (wr_dropped w + 1)) (wr_seq w) rest (wr_in w) (wr_inClosed w) (wr_current w) (wr_timer w)
      (wr_lastSync w) (wr_files w) (wr_closeErr w) (wr_done w) (wr_sent w))
  else None.

(** Close up to the wait for the goroutine: the write lock waits for emitters. *)
Definition wr_close (w : Writer) : option Writer :=
  if wr_closed w then Some w
  else match wr_sending w with
  | [] => Some (mkWriter (wr_cfg w) true (wr_dropped w) (wr_seq w) [] (wr_in w) true (wr_current w) (wr_timer w)
      (wr_lastSync w) (wr_files w) (wr_closeErr w) (wr_done w) (wr_sent w))
  | _ => None
  end.

(** Closing the current file, if any. *)
Definition close_current (o : os_answers) (w : Writer) : Writer :=
  match wr_current w with
  | Some f => let '(files, ok) := cf_close o f in wr_put None (wr_timer w) (wr_lastSync w) files (negb ok) w
  | None => w
  end.

Definition reset_age (w : Writer) : Writer :=
  if max_age w <=? 0 then w else wr_put (wr_current w) true (wr_lastSync w) [] false w.

(** The current file, opened if there is none. *)
Definition ensure_open (o : os_answers) (now : time) (w : Writer) : Writer :=
  match wr_current w with
  | Some _ => w
  | None =>
    match openCDRFile o now (cd_Instance (wr_cfg w)) with
    | Some f =>
      let w := reset_age (wr_put (Some f) (wr_timer w) (wr_lastSync w) [] false w) in
      wr_put (wr_current w) (wr_timer w) now [] false w
    | None => wr_put None (wr_timer w) (wr_lastSync w) [] true w
    end
  end.

(** An event taken off the channel. *)
Definition loop_event (o : os_answers) (now : time) (e : Event) (w : Writer) : Writer :=
  let w := ensure_open o now w in
  match wr_current w with
  | None => w
  | Some f =>
    let '(f, ok) := cf_write o e f in
    if negb ok then wr_put (Some f) (wr_timer w) (wr_lastSync w) [] true w
    else
      let sync := (0 <? cd_FsyncEvery (wr_cfg w)) && (Z.rem (cf_count f) (cd_FsyncEvery (wr_cfg w)) =? 0) in
      let f := if sync then (flushSync o f).1 else f in
      let w := wr_put (Some f) (wr_timer w) (if sync then now else wr_lastSync w) [] false w in
      if cd_MaxRecords (wr_cfg w) <=? cf_count f then reset_age (close_current o w) else w
  end.

Inductive wr_event :=
| WStart (e : Event) (now : string)
| WSend (i : nat)
| WClose
| WRecv (o : os_answers) (now : time)
| WAge (o : os_answers)
| WSync (o : os_answers) (now : time).

Definition wr_step (ev : wr_event) (w : Writer) : option Writer :=
  match ev with
  | WStart e now => Some (emit_start e now w)
  | WSend i => emit_send i w
  | WClose => wr_close w
  | WRecv o now =>
    if wr_done w then None
    else match wr_in w with
    | e :: rest => Some (loop_event o now e (wr_take rest w))
    | [] => if wr_inClosed w then Some (wr_return (close_current o w)) else None
    end
  | WAge o => if wr_done w || negb (wr_timer w) then None else Some (reset_age (close_current o w))
  | WSync o now =>
    if wr_done w || (fsync_interval w <=? 0) then None
    else match wr_current w with
    | Some f =>
      if fsync_interval w <=? now - wr_lastSync w
      then Some (wr_put (Some (flushSync o f).1) (wr_timer w) now [] false w) else Some w
    | None => Some w
    end
  end.

Fixpoint wr_run (evs : list wr_event) (w : Writer) : option Writer :=
  match evs with
  | [] => Some w
  | ev :: evs => wr_step ev w ≫= wr_run evs
  end.

(** ** What is on the disk *)

Definition lines (f : disk_file) : list Event := match f with Finished _ l | Unfinished _ l => l end.
Definition in_file (cur : option cdrFile) : list Event := match cur with Some f => cf_disk f ++ cf_buffer f | None => [] end.
Definition recorded (w : Writer) : list Event := (wr_files w ≫= lines) ++ in_file (wr_current w) ++ wr_in w.

(** A finished file: not empty, not over the limit, and named by its count. *)
Definition file_ok (max : Z) (f : disk_file) : Prop :=
  match f with
  | Finished name l => 1 <= Z.of_nat (length l) <= max /\ exists base, name = base +:+ "-" +:+ Itoa (Z.of_nat (length l)) +:+ ".jsonl"
  | Unfinished _ _ => False
  end.

Definition cur_ok (max : Z) (cur : option cdrFile) : Prop :=
  match cur with
  | Some f => cf_broken f = false /\ cf_count f = Z.of_nat (length (in_file cur)) /\ 1 <= cf_count f < max
  | None => True
  end.

Lemma NewWriter_cfg h m cfg w : NewWriter h m cfg = Ok (Some w) ->
  1 <= cd_MaxRecords (wr_cfg w) /\ 1 <= cd_Buffer (wr_cfg w) /\ cd_MaxRecords (wr_cfg w) = (if cd_MaxRecords cfg <=? 0 then 10000 else cd_MaxRecords cfg)
  /\ wr_files w = [] /\ wr_current w = None /\ wr_in w = [] /\ wr_sent w = [] /\ wr_sending w = [] /\ wr_closed w = false
  /\ wr_inClosed w = false /\ wr_done w = false /\ wr_seq w = 0 /\ wr_dropped w = 0 /\ wr_closeErr w = false
  /\ cd_OnFull (wr_cfg w) = or_str (cd_OnFull cfg) "block".
Proof.
  unfold NewWriter. destruct (cd_Enabled cfg); [|discriminate]. cbn [negb]. set (c := mkCDRConfig _ _ _ _ _ _ _ _ _ _ _ _).
  destruct (negb (bool_decide _)); [discriminate|]. destruct m; [|discriminate]. intros [= <-]. cbn.
  destruct (Z.leb_spec (cd_MaxRecords cfg) 0), (Z.leb_spec (cd_Buffer cfg) 0); split_and!; try done; lia.
Qed.

Lemma flushSync_file o f : in_file (Some (flushSync o f).1) = in_file (Some f) /\ cf_count (flushSync o f).1 = cf_count f.
Proof. unfold flushSync. destruct (_ || _); cbn; [done|]. by rewrite app_nil_r. Qed.

Lemma cf_close_lines o f : ((cf_close o f).1 ≫= lines) `sublist_of` in_file (Some f).
Proof.
  unfold cf_close, flushSync. destruct (cf_broken f || _); cbn [cf_count cf_disk].
  - destruct (cf_count f =? 0); [apply sublist_nil_l|]. destruct (os_rename o); cbn; rewrite app_nil_r; by apply sublist_inserts_r.
  - destruct (cf_count f =? 0); [apply sublist_nil_l|]. destruct (os_rename o); cbn; by rewrite app_nil_r.
Qed.

(** *** Any answers *)

(** Steps of the goroutine only move or lose events. *)
Lemma put_recorded cur timer ls files err w l :
  (files ≫= lines) ++ in_file cur `sublist_of` in_file (wr_current w) ++ l ->
  recorded (wr_put cur timer ls files err w) `sublist_of` (wr_files w ≫= lines) ++ in_file (wr_current w) ++ l ++ wr_in w.
Proof.
  intros H. unfold recorded. cbn [wr_put wr_files wr_current wr_in]. rewrite bind_app, <- !app_assoc.
  apply sublist_app; [done|]. rewrite (app_assoc (files ≫= lines)), (app_assoc (in_file (wr_current w))). by apply sublist_app.
Qed.

Lemma put_same timer ls err w : recorded (wr_put (wr_current w) timer ls [] err w) = recorded w.
Proof. unfold recorded. cbn. by rewrite app_nil_r. Qed.

Lemma reset_age_recorded w : recorded (reset_age w) = recorded w.
Proof. unfold reset_age. destruct (_ <=? 0); [done|]. apply put_same. Qed.

Lemma close_current_recorded o w : recorded (close_current o w) `sublist_of` recorded w.
Proof.
  unfold close_current. destruct (wr_current w) as [f|] eqn:E; [|done]. pose proof (cf_close_lines o f) as H.
  destruct (cf_close o f) as [files ok]. cbn [fst] in H. etrans; [apply (put_recorded _ _ _ _ _ _ [])|].
  - cbn [in_file]. rewrite app_nil_r, E. rewrite app_nil_r. exact H.
  - done.
Qed.

Lemma ensure_open_recorded o now w : recorded (ensure_open o now w) = recorded w.
Proof.
  unfold ensure_open. destruct (wr_current w) as [f|] eqn:E; [done|]. unfold openCDRFile, reset_age, recorded.
  destruct (os_open o) as [|[]|]; cbn; rewrite ?E, ?app_nil_r; try done; destruct (_ <=? 0); cbn; by rewrite ?app_nil_r.
Qed.

Lemma ensure_open_in o now w : wr_in (ensure_open o now w) = wr_in w /\ wr_cfg (ensure_open o now w) = wr_cfg w.
Proof. unfold ensure_open, openCDRFile, reset_age. destruct (wr_current w); [done|]. destruct (os_open o) as [|[]|]; try destruct (_ <=? 0); done. Qed.

Lemma loop_event_recorded o now e rest w :
  wr_in w = rest -> recorded (loop_event o now e w) `sublist_of` (wr_files w ≫= lines) ++ in_file (wr_current w) ++ e :: rest.
Proof.
  intros <-. assert (recorded w = (wr_files w ≫= lines) ++ in_file (wr_current w) ++ wr_in w) as Hr by done.
  unfold loop_event. pose proof (ensure_open_recorded o now w) as Hw. pose proof (ensure_open_in o now w) as [Hin Hcfg].
  set (w1 := ensure_open o now w) in *.
  assert ((wr_files w1 ≫= lines) ++ in_file (wr_current w1) ++ e :: wr_in w1 = (wr_files w ≫= lines) ++ in_file (wr_current w) ++ e :: wr_in w) as <-.
  { rewrite Hr in Hw. unfold recorded in Hw. rewrite Hin in Hw |- *. rewrite !app_assoc in *.
    apply app_inj_2 in Hw as [Hw _]; [|done]. by rewrite Hw. }
  destruct (wr_current w1) as [f|] eqn:E.
  2: { unfold recorded. rewrite E. apply sublist_app; [done|]. cbn. by apply sublist_cons. }
  destruct (cf_write o e f) as [f' ok] eqn:Ew.
  assert (in_file (Some f') = if ok then in_file (Some f) ++ [e] else in_file (Some f)) as Hf'.
  { unfold cf_write in Ew. destruct (_ || _); injection Ew as <- <-; cbn; [done|]. by rewrite app_assoc. }
  destruct ok; cbn [negb].
  - set (sync := _ && _). set (f2 := if sync then _ else _).
    assert (in_file (Some f2) = in_file (Some f) ++ [e]) as Hf2.
    { rewrite <- Hf'. subst f2. destruct sync; [|done]. apply flushSync_file. }
    set (w2 := wr_put (Some f2) _ _ _ _ w1).
    assert (recorded w2 `sublist_of` (wr_files w1 ≫= lines) ++ in_file (Some f) ++ e :: wr_in w1) as H2.
    { rewrite <- E. apply (put_recorded _ _ _ _ _ _ [e]). rewrite E. cbn [mbind list_bind app]. by rewrite Hf2. }
    destruct (_ <=? _); [|done]. rewrite reset_age_recorded. etrans; [apply close_current_recorded|done].
  - rewrite <- E. apply (put_recorded _ _ _ _ _ _ [e]). rewrite E. cbn [mbind list_bind app]. rewrite Hf'. by apply sublist_inserts_r.
Qed.

(** The part of the state the goroutine does not touch. *)
Record emitters_same (w w' : Writer) : Prop := {
  es_cfg : wr_cfg w' = wr_cfg w;
  es_closed : wr_closed w' = wr_closed w /\ wr_inClosed w' = wr_inClosed w;
  es_counts : wr_dropped w' = wr_dropped w /\ wr_seq w' = wr_seq w;
  es_events : wr_sending w' = wr_sending w /\ wr_sent w' = wr_sent w }.

Lemma put_emitters cur timer ls files err w : emitters_same w (wr_put cur timer ls files err w).
Proof. by split. Qed.
Lemma es_trans a b c : emitters_same a b -> emitters_same b c -> emitters_same a c.
Proof. intros [H1 [H2 H2'] [H3 H3'] [H4 H4']] [G1 [G2 G2'] [G3 G3'] [G4 G4']]. split; [|split|split|split]; congruence. Qed.
#[export] Instance es_po : PreOrder emitters_same.
Proof. split; [by intros w|exact es_trans]. Qed.

Lemma reset_age_emitters w : emitters_same w (reset_age w) /\ wr_done (reset_age w) = wr_done w /\ wr_in (reset_age w) = wr_in w
  /\ wr_current (reset_age w) = wr_current w /\ wr_files (reset_age w) = wr_files w /\ wr_closeErr (reset_age w) = wr_closeErr w.
Proof. unfold reset_age. destruct (_ <=? 0); cbn; rewrite ?app_nil_r, ?orb_false_r; done. Qed.

Lemma close_current_emitters o w : emitters_same w (close_current o w) /\ wr_done (close_current o w) = wr_done w
  /\ wr_in (close_current o w) = wr_in w /\ wr_current (close_current o w) = None.
Proof. unfold close_current. destruct (wr_current w) eqn:E; [destruct (cf_close o c)|]; done. Qed.

Lemma ensure_open_emitters o now w : emitters_same w (ensure_open o now w) /\ wr_done (ensure_open o now w) = wr_done w.
Proof. unfold ensure_open, openCDRFile, reset_age. destruct (wr_current w); [done|]. destruct (os_open o) as [|[]|]; try destruct (_ <=? 0); done. Qed.

Lemma loop_event_emitters o now e w : emitters_same w (loop_event o now e w) /\ wr_done (loop_event o now e w) = wr_done w
  /\ wr_in (loop_event o now e w) = wr_in w.
Proof.
  unfold loop_event. destruct (ensure_open_emitters o now w) as [H1 H2], (ensure_open_in o now w) as [H3 _]. set (w1 := ensure_open o now w) in *.
  destruct (wr_current w1) as [f|]; [|done]. destruct (cf_write o e f) as [f' ok]. destruct ok; cbn [negb].
  - set (w2 := wr_put _ _ _ _ _ w1). assert (emitters_same w w2) as H4 by (etrans; [exact H1|apply put_emitters]).
    destruct (_ <=? _); [|done]. destruct (close_current_emitters o w2) as (H5 & H6 & H7 & _), (reset_age_emitters (close_current o w2)) as (H8 & H9 & H10 & _).
    split; [by etrans; [exact H4|etrans]|]. rewrite H9, H6, H10, H7. done.
  - split; [etrans; [exact H1|apply put_emitters]|done].
Qed.

(** Whatever the system answers: what is recorded was sent, in order; the channel
    is closed only once no emitter is at it; and the books of the emitters add up. *)
Record wr_inv (w : Writer) : Prop := {
  wi_sublist : recorded w `sublist_of` wr_sent w;
  wi_closed : wr_inClosed w = wr_closed w /\ (wr_closed w = true -> wr_sending w = []);
  wi_done : wr_done w = true -> wr_closed w = true /\ wr_in w = [] /\ wr_current w = None;
  wi_count : wr_seq w = u64 (wr_dropped w + Z.of_nat (length (wr_sent w)) + Z.of_nat (length (wr_sending w)));
  wi_block : cd_OnFull (wr_cfg w) <> "drop" -> wr_dropped w = 0 }.

Lemma emitters_inv w w' :
  wr_inv w -> emitters_same w w' -> recorded w' `sublist_of` wr_sent w -> wr_done w' = wr_done w ->
  (wr_done w' = true -> wr_in w' = [] /\ wr_current w' = None) -> wr_inv w'.
Proof.
  intros [H1 [H2 H2'] H3 H4 H5] [E1 [E2 E2'] [E3 E3'] [E4 E4']] Hr Hd Hdone. split.
  - by rewrite E4'.
  - rewrite E2, E2', E4. done.
  - intros Hw. rewrite E2. rewrite Hd in Hw. destruct (H3 Hw) as [? _]. split; [done|]. apply Hdone. by rewrite Hd.
  - by rewrite E3, E3', E4, E4'.
  - by rewrite E1, E3.
Qed.

Lemma u64_succ_l a b : u64 (u64 a + b) = u64 (a + b).
Proof. unfold u64. apply Z.add_mod_idemp_l. done. Qed.

Lemma length_delete {A} (l : list A) i x : l !! i = Some x -> Z.of_nat (length l) = Z.of_nat (length (delete i l)) + 1.
Proof. intros H. pose proof (length_delete l i) as E. rewrite H in E. specialize (E ltac:(by eexists)). apply lookup_lt_Some in H. lia. Qed.

Lemma wr_step_inv ev w w' : wr_inv w -> wr_step ev w = Some w' -> wr_inv w'.
Proof.
  intros Hw H. pose proof Hw as [H1 [H2 H2'] H3 H4 H5]. destruct ev as [e now|i| |o now|o|o now]; cbn in H.
  - injection H as <-. unfold emit_start. destruct (wr_closed w) eqn:Ec; [done|]. split; cbn; try done.
    + rewrite H4, u64_succ_l, length_app. cbn [length]. f_equal. lia.
  - unfold emit_send in H. destruct (wr_sending w !! i) as [e|] eqn:Ei; [|discriminate H]. cbn [mbind option_bind] in H.
    assert (wr_closed w = false) as Ec.
    { destruct (wr_closed w); [|done]. rewrite H2' in Ei by done. by rewrite lookup_nil in Ei. }
    assert (wr_done w = true -> False) as Hnd by (intros Hd; destruct (H3 Hd); congruence).
    pose proof (length_delete _ _ _ Ei) as Hl. destruct (_ <? _).
    + injection H as <-. split; cbn; try done.
      * unfold recorded in *. cbn. rewrite !app_assoc in *. by apply sublist_app.
      * rewrite Ec in *. done.
      * rewrite H4, length_app. cbn [length]. f_equal. lia.
    + case_bool_decide as Ed; [|discriminate H]. injection H as <-. split; cbn; try done.
      * rewrite Ec in *. done.
      * rewrite H4, <- !Z.add_assoc, u64_succ_l. f_equal. lia.
  - unfold wr_close in H. destruct (wr_closed w) eqn:Ec; [by injection H as <-|]. destruct (wr_sending w) eqn:Es; [|discriminate H].
    injection H as <-. split; cbn; try done. intros Hd. destruct (H3 Hd). congruence.
  - destruct (wr_done w) eqn:Ed; [discriminate H|]. destruct (wr_in w) as [|e rest] eqn:Ein.
    + destruct (wr_inClosed w) eqn:Ec; [|discriminate H]. injection H as <-.
      destruct (close_current_emitters o w) as ([E1 [E2 E2'] [E3 E3'] [E4 E4']] & E5 & E6 & E7). split; cbn [wr_return wr_sent wr_closed wr_inClosed wr_sending wr_done wr_in wr_current wr_seq wr_dropped wr_cfg].
      * rewrite E4'. etrans; [|exact H1]. apply close_current_recorded.
      * rewrite E2, E2', E4. by rewrite Ec.
      * intros _. rewrite E2, E6, E7. split; [congruence|done].
      * by rewrite E3, E3', E4, E4'.
      * by rewrite E1, E3.
    + injection H as <-. destruct (loop_event_emitters o now e (wr_take rest w)) as (E1 & E2 & E3).
      apply (emitters_inv w); [done| | | |].
      * etrans; [|exact E1]. by split.
      * etrans; [apply (loop_event_recorded o now e rest (wr_take rest w)); done|]. cbn. unfold recorded in H1. by rewrite Ein in H1.
      * by rewrite E2.
      * rewrite E2. cbn. by rewrite Ed.
  - destruct (wr_done w) eqn:Ed; [discriminate H|]. destruct (wr_timer w); [|discriminate H]. injection H as <-.
    destruct (close_current_emitters o w) as (E1 & E2 & E3 & _), (reset_age_emitters (close_current o w)) as (G1 & G2 & G3 & _).
    apply (emitters_inv w); [done| | | |].
    + by etrans.
    + rewrite reset_age_recorded. etrans; [apply close_current_recorded|done].
    + by rewrite G2, E2.
    + rewrite G2, E2, Ed. done.
  - destruct (wr_done w) eqn:Ed; [discriminate H|]. cbn [orb] in H. destruct (_ <=? 0); [discriminate H|].
    destruct (wr_current w) as [f|] eqn:Ef; [|by injection H as <-]. destruct (_ <=? _); [|by injection H as <-]. injection H as <-.
    apply (emitters_inv w); [done|apply put_emitters| | |].
    + etrans; [apply (put_recorded _ _ _ _ _ _ [])|]; [|by rewrite <- H1; unfold recorded; cbn; rewrite ?Ef].
      rewrite Ef. cbn [mbind list_bind app]. rewrite app_nil_r. destruct (flushSync_file o f) as [-> _]. done.
    + by cbn.
    + cbn. rewrite Ed. done.
Qed.

(** *** Answers that are all fine *)

Definition event_fine (ev : wr_event) : Prop :=
  match ev with WRecv o _ | WAge o | WSync o _ => os_fine o | _ => True end.

Record wr_good (w : Writer) : Prop := {
  wg_all : recorded w = wr_sent w;
  wg_files : Forall (file_ok (cd_MaxRecords (wr_cfg w))) (wr_files w);
  wg_current : cur_ok (cd_MaxRecords (wr_cfg w)) (wr_current w);
  wg_err : wr_closeErr w = false }.

(** A file the loop may hold: [lo] is 1 between events. *)
Definition held_file (lo hi : Z) (f : cdrFile) : Prop :=
  cf_broken f = false /\ cf_count f = Z.of_nat (length (in_file (Some f))) /\ lo <= cf_count f <= hi.

Lemma flush_fine o lo hi f : os_fine o -> held_file lo hi f ->
  held_file lo hi (flushSync o f).1 /\ in_file (Some (flushSync o f).1) = in_file (Some f) /\ (flushSync o f).2 = true.
Proof.
  intros (_ & _ & Hf & Hs & _) (Hb & Hc & Hr). unfold flushSync. rewrite Hb, Hf. cbn. unfold held_file. cbn in *.
  rewrite !app_nil_r. split_and!; try done; lia.
Qed.

Lemma close_fine o hi f : os_fine o -> held_file 1 hi f ->
  exists name, cf_close o f = ([Finished name (in_file (Some f))], true) /\ file_ok hi (Finished name (in_file (Some f))).
Proof.
  intros Ho Hf. destruct (flush_fine o 1 hi f Ho Hf) as ((Hb & Hc & Hr) & Hi & Hs). destruct Hf as (_ & Hc0 & Hr0).
  pose proof (flushSync_file o f) as [_ Hcnt]. exists (final_name (flushSync o f).1).
  unfold cf_close. destruct (flushSync o f) as [f' ok] eqn:E. cbn [fst snd] in *. subst ok.
  rewrite (proj2 (Z.eqb_neq (cf_count f') 0)) by lia. destruct Ho as (_ & _ & Hfl & _ & Hcl & Hrn). rewrite Hrn, Hcl.
  assert (cf_disk f' = in_file (Some f)) as ->.
  { rewrite <- Hi. unfold flushSync in E. destruct (cf_broken f || negb (os_flush o)) eqn:Eb; injection E as <-; cbn.
    - destruct (cf_broken f) eqn:Ebf; [by cbn in Hb|]. rewrite Hfl in Eb. done.
    - by rewrite app_nil_r. }
  split; [done|]. cbn [file_ok]. rewrite <- Hc0. split; [lia|]. exists (cf_base f'). unfold final_name. by rewrite Hcnt.
Qed.

Lemma close_current_good o hi w :
  os_fine o -> match wr_current w with Some f => held_file 1 hi f | None => True end -> hi <= cd_MaxRecords (wr_cfg w) ->
  recorded w = wr_sent w -> Forall (file_ok (cd_MaxRecords (wr_cfg w))) (wr_files w) -> wr_closeErr w = false ->
  wr_good (close_current o w).
Proof.
  intros Ho Hc Hhi Hr Hf He. unfold close_current. destruct (wr_current w) as [f|] eqn:E.
  - destruct (close_fine o hi f Ho Hc) as (name & -> & Hok). split; cbn; try done.
    + rewrite <- Hr. unfold recorded. rewrite E. cbn. rewrite bind_app. cbn. by rewrite app_nil_r, <- app_assoc.
    + apply Forall_app. split; [done|]. constructor; [|done]. cbn in Hok. destruct Hok as [? ?]. split; [lia|done].
    + by rewrite He.
  - split; [done|done|by rewrite E|done].
Qed.

Lemma reset_age_good w : wr_good w -> wr_good (reset_age w).
Proof.
  intros [H1 H2 H3 H4]. destruct (reset_age_emitters w) as ([E1 _ _ [_ E2]] & _ & _ & E3 & E4 & E5).
  split; rewrite ?E1, ?E2, ?E3, ?E4, ?E5; try done. by rewrite reset_age_recorded.
Qed.

Lemma wr_step_good ev w w' :
  1 <= cd_MaxRecords (wr_cfg w) -> event_fine ev -> wr_good w -> wr_step ev w = Some w' -> wr_good w' /\ wr_cfg w' = wr_cfg w.
Proof.
  intros Hmax Hev [H1 H2 H3 H4] H.
  assert (match wr_current w with Some f => held_file 1 (cd_MaxRecords (wr_cfg w)) f | None => True end) as Hheld.
  { destruct (wr_current w) as [f|]; [|done]. destruct H3 as (? & ? & ?). split_and!; [done|done|lia|lia]. }
  destruct ev as [e now|i| |o now|o|o now]; cbn in H, Hev.
  - injection H as <-. unfold emit_start. destruct (wr_closed w); by split.
  - unfold emit_send in H. destruct (wr_sending w !! i) as [e|]; [|discriminate H]. cbn [mbind option_bind] in H.
    destruct (_ <? _); [|case_bool_decide; [|discriminate H]]; injection H as <-; split; try done.
    split; cbn; try done. unfold recorded in *. cbn. by rewrite !app_assoc, <- H1, !app_assoc.
  - unfold wr_close in H. destruct (wr_closed w); [by injection H as <-|]. destruct (wr_sending w); [|discriminate H]. by injection H as <-.
  - destruct (wr_done w); [discriminate H|]. destruct (wr_in w) as [|e rest] eqn:Ein.
    + destruct (wr_inClosed w); [|discriminate H]. injection H as <-.
      destruct (close_current_good o _ w Hev Hheld ltac:(done) H1 H2 H4) as [G1 G2 G3 G4].
      destruct (close_current_emitters o w) as ([E1 _ _ _] & _). by split.
    + injection H as <-. destruct (loop_event_emitters o now e (wr_take rest w)) as ([E1 _ _ _] & _). split; [|exact E1]. clear E1.
      unfold loop_event. set (w0 := wr_take rest w). set (w1 := ensure_open o now w0).
      assert (exists f, wr_current w1 = Some f /\ held_file 0 (cd_MaxRecords (wr_cfg w) - 1) f /\ in_file (wr_current w) = in_file (Some f)
        /\ wr_cfg w1 = wr_cfg w /\ wr_files w1 = wr_files w /\ wr_in w1 = rest /\ wr_sent w1 = wr_sent w /\ wr_closeErr w1 = false)
        as (f & Ef & (Hb & Hc & Hr) & Hin & Hcfg & Hfiles & Hrest & Hsent & Herr).
      { subst w1 w0. unfold ensure_open, openCDRFile, reset_age. cbn [wr_take wr_current wr_cfg]. destruct (wr_current w) as [f|] eqn:Ec.
        - exists f. cbn. rewrite Ec. destruct H3 as (? & ? & ?). split_and!; try done. unfold held_file. split_and!; try done; lia.
        - destruct Hev as ([Ho|Ho] & _); rewrite Ho; destruct (_ <=? 0); eexists; (split; [reflexivity|]); cbn; unfold held_file; cbn;
            rewrite ?app_nil_r, ?orb_false_r; split_and!; try done; lia. }
      rewrite Ef. unfold cf_write. pose proof Hev as (_ & Hwrite & _). rewrite Hb, Hwrite. cbn [orb negb].
      set (f1 := mkCdrFile _ _ _ _ _). assert (held_file 1 (cd_MaxRecords (wr_cfg w)) f1 /\ in_file (Some f1) = in_file (wr_current w) ++ [e]) as [Hf1 Hi1].
      { unfold held_file. subst f1. cbn. rewrite Hin. cbn in Hc |- *. rewrite app_assoc, (length_app (cf_disk f ++ _)), Hc. cbn [length].
        split_and!; try done; lia. }
      set (sync := _ && _). set (f2 := if sync then _ else _).
      assert (held_file 1 (cd_MaxRecords (wr_cfg w)) f2 /\ in_file (Some f2) = in_file (wr_current w) ++ [e]) as [Hf2 Hi2].
      { rewrite <- Hi1. subst f2. destruct sync; [|by split]. destruct (flush_fine o _ _ _ Hev Hf1) as (? & ? & _). by split. }
      set (w2 := wr_put (Some f2) _ _ _ _ w1).
      assert (recorded w2 = wr_sent w2 /\ wr_files w2 = wr_files w /\ wr_closeErr w2 = false /\ wr_cfg w2 = wr_cfg w) as (G1 & G2 & G3 & G4).
      { subst w2. unfold recorded. cbn [wr_put wr_files wr_closeErr wr_sent wr_cfg wr_current wr_in].
        rewrite Hfiles, Herr, Hsent, Hcfg, Hrest, app_nil_r, Hi2, <- H1. split; [|done]. unfold recorded. rewrite Ein.
        by rewrite <- !app_assoc. }
      destruct (Z.leb_spec (cd_MaxRecords (wr_cfg w2)) (cf_count f2)) as [Hle|Hlt].
      * apply reset_age_good. apply (close_current_good o (cd_MaxRecords (wr_cfg w))); try done; [by rewrite G4|by rewrite G4, G2].
      * split; [done|by rewrite G2, G4| |done]. rewrite G4 in *. cbn. destruct Hf2 as (? & ? & ?). split_and!; try done; lia.
  - destruct (wr_done w); [discriminate H|]. destruct (wr_timer w); [|discriminate H]. injection H as <-.
    split; [|destruct (reset_age_emitters (close_current o w)) as ([E1 _ _ _] & _), (close_current_emitters o w) as ([E2 _ _ _] & _); congruence].
    apply reset_age_good. by apply (close_current_good o (cd_MaxRecords (wr_cfg w))).
  - destruct (wr_done w); [discriminate H|]. cbn [orb] in H. destruct (_ <=? 0); [discriminate H|].
    destruct (wr_current w) as [f|] eqn:Ef; [|by injection H as <-; split; [split; rewrite ?Ef|]].
    destruct (_ <=? _); [|injection H as <-; split; [split; try done; by rewrite Ef|done]]. injection H as <-. split; [|done].
    destruct (flush_fine o _ _ f Hev Hheld) as ((? & ? & ?) & Hi & _). destruct H3 as (? & ? & ?).
    pose proof (flushSync_file o f) as [_ Hcnt]. split; cbn; try done.
    + rewrite <- H1. unfold recorded. cbn. rewrite Ef, app_nil_r. change (cf_disk (flushSync o f).1 ++ cf_buffer (flushSync o f).1) with (in_file (Some (flushSync o f).1)).
      by rewrite Hi.
    + by rewrite app_nil_r.
    + split_and!; try done; lia.
    + by rewrite H4.
Qed.

(** ** Runs *)

Lemma new_inv h m cfg w : NewWriter h m cfg = Ok (Some w) -> wr_inv w /\ wr_good w.
Proof.
  intros H. destruct (NewWriter_cfg _ _ _ _ H) as (_ & _ & _ & F1 & F2 & F3 & F4 & F5 & F6 & F7 & F8 & F9 & F10 & F11 & _).
  split; split; unfold recorded; rewrite ?F1, ?F2, ?F3, ?F4, ?F5, ?F6, ?F7, ?F8, ?F9, ?F10; done.
Qed.

Lemma wr_run_inv evs w w' : wr_inv w -> wr_run evs w = Some w' -> wr_inv w'.
Proof.
  revert w. induction evs as [|ev evs IH]; intros w Hw H; cbn in H; [by injection H as <-|].
  destruct (wr_step ev w) as [w1|] eqn:E; [|discriminate H]. apply (IH w1); [by eapply wr_step_inv|done].
Qed.

Lemma wr_run_good evs w w' :
  1 <= cd_MaxRecords (wr_cfg w) -> Forall event_fine evs -> wr_good w -> wr_run evs w = Some w' -> wr_good w' /\ wr_cfg w' = wr_cfg w.
Proof.
  revert w. induction evs as [|ev evs IH]; intros w Hmax Hev Hw H; cbn in H; [by injection H as <-|].
  apply Forall_cons in Hev as [He Hev]. destruct (wr_step ev w) as [w1|] eqn:E; [|discriminate H].
  destruct (wr_step_good ev w w1 Hmax He Hw E) as [Hg Ec]. rewrite <- Ec in *. by apply IH.
Qed.

(** After Close the goroutine ends, having taken all there is. *)
Lemma drain o now w :
  wr_closed w = true -> wr_inClosed w = true -> wr_done w = false ->
  exists w', wr_run (replicate (S (length (wr_in w))) (WRecv o now)) w = Some w' /\ wr_done w' = true /\ wr_in w' = [] /\ wr_sent w' = wr_sent w.
Proof.
  remember (wr_in w) as l eqn:El. revert w El. induction l as [|e l IH]; intros w El Hc Hi Hd; cbn [length replicate wr_run wr_step].
  - rewrite Hd, <- El, Hi. cbn. destruct (close_current_emitters o w) as ([_ _ _ [_ E1]] & _ & E2 & _). eexists. split; [reflexivity|].
    cbn. by rewrite E2, E1, <- El.
  - rewrite Hd, <- El. cbn [mbind option_bind]. destruct (loop_event_emitters o now e (wr_take l w)) as ([_ [E1 E2] _ [_ E3]] & E4 & E5).
    destruct (IH (loop_event o now e (wr_take l w))) as (w' & H1 & H2 & H3 & H4).
    + by rewrite E5.
    + by rewrite E1.
    + by rewrite E2.
    + by rewrite E4.
    + exists w'. split_and!; try done. by rewrite H4, E3.
Qed.

(** Whatever emitters, timers and the disk do, the lines written to CDR files
    are a subsequence of the events accepted into the channel in their
    order; after Close no emitter is left in the middle of a send; sequence
    numbers count what was sent, dropped or is being sent, and a writer that
    blocks drops nothing. *)
Theorem cdr_stream_safe hostname mkdir cfg evs w0 w :
  NewWriter hostname mkdir cfg = Ok (Some w0) -> wr_run evs w0 = Some w ->
  recorded w `sublist_of` wr_sent w
  /\ (wr_closed w = true -> wr_sending w = [])
  /\ wr_seq w = u64 (wr_dropped w + Z.of_nat (length (wr_sent w)) + Z.of_nat (length (wr_sending w)))
  /\ (or_str (cd_OnFull cfg) "block" <> "drop" -> wr_dropped w = 0).
Proof.
  intros Hn Hr. destruct (new_inv _ _ _ _ Hn) as [Hi _]. destruct (wr_run_inv _ _ _ Hi Hr) as [H1 [_ H2] _ H4 H5].
  split_and!; try done. intros Hb. apply H5.
  assert (wr_cfg w = wr_cfg w0) as ->.
  { clear -Hr. revert w0 Hr. induction evs as [|ev evs IH]; intros w0 H; cbn in H; [by injection H as <-|].
    destruct (wr_step ev w0) as [w1|] eqn:E; [|discriminate H]. rewrite (IH w1 H). destruct ev as [e now|i| |o now|o|o now]; cbn in E.
    - injection E as <-. unfold emit_start. by destruct (wr_closed w0).
    - unfold emit_send in E. destruct (wr_sending w0 !! i); [|discriminate E]. cbn in E. destruct (_ <? _); [by injection E as <-|].
      case_bool_decide; [by injection E as <-|discriminate E].
    - unfold wr_close in E. destruct (wr_closed w0); [by injection E as <-|]. destruct (wr_sending w0); [by injection E as <-|discriminate E].
    - destruct (wr_done w0); [discriminate E|]. destruct (wr_in w0) as [|e rest].
      + destruct (wr_inClosed w0); [|discriminate E]. injection E as <-. by destruct (close_current_emitters o w0) as ([? _ _ _] & _).
      + injection E as <-. by destruct (loop_event_emitters o now e (wr_take rest w0)) as ([? _ _ _] & _).
    - destruct (wr_done w0); [discriminate E|]. destruct (wr_timer w0); [|discriminate E]. injection E as <-.
      destruct (reset_age_emitters (close_current o w0)) as ([-> _ _ _] & _). by destruct (close_current_emitters o w0) as ([? _ _ _] & _).
    - destruct (wr_done w0); [discriminate E|]. cbn [orb] in E. destruct (_ <=? 0); [discriminate E|].
      destruct (wr_current w0); [|by injection E as <-]. destruct (_ <=? _); by injection E as <-. }
  by destruct (NewWriter_cfg _ _ _ _ Hn) as (_ & _ & _ & _ & _ & _ & _ & _ & _ & _ & _ & _ & _ & _ & ->).
Qed.

(** C29: While file operations succeed the finished files, the open file and the
    channel hold exactly the events accepted, in order; finished files have
    between one line and the maximum; and after Close the goroutine ends with
    every event in a finished file. *)
Theorem cdr_lossless hostname mkdir cfg evs w0 w :
  NewWriter hostname mkdir cfg = Ok (Some w0) -> wr_run evs w0 = Some w -> Forall event_fine evs ->
  (wr_files w ≫= lines) ++ in_file (wr_current w) ++ wr_in w = wr_sent w
  /\ Forall (file_ok (if cd_MaxRecords cfg <=? 0 then 10000 else cd_MaxRecords cfg)) (wr_files w)
  /\ (wr_closed w = true -> wr_done w = false -> forall o now, os_fine o ->
      exists w', wr_run (replicate (S (length (wr_in w))) (WRecv o now)) w = Some w' /\ wr_done w' = true
      /\ (wr_files w' ≫= lines) = wr_sent w /\ wr_closeErr w' = false).
Proof.
  intros Hn Hr Hev. destruct (new_inv _ _ _ _ Hn) as [Hi Hg]. destruct (NewWriter_cfg _ _ _ _ Hn) as (Hmax & _ & Emax & _).
  destruct (wr_run_good evs w0 w Hmax Hev Hg Hr) as [Hgw Ec]. pose proof (wr_run_inv _ _ _ Hi Hr) as Hiw. split_and!.
  - apply Hgw.
  - rewrite <- Emax, <- Ec. apply Hgw.
  - intros Hc Hd o now Ho. destruct (wi_closed _ Hiw) as [Hic _].
    destruct (drain o now w Hc ltac:(congruence) Hd) as (w' & H1 & H2 & H3 & H4). exists w'. split_and!; try done.
    + assert (wr_good w') as G by (eapply (wr_run_good _ w w'); [by rewrite Ec| |done|exact H1]; by apply Forall_replicate).
      pose proof (wg_all _ G) as Hall. destruct (wi_done _ (wr_run_inv _ _ _ Hiw H1) H2) as (_ & _ & Hcur).
      unfold recorded in Hall. rewrite H3, Hcur, !app_nil_r in Hall. congruence.
    + eapply (wr_run_good _ w w'); [by rewrite Ec| |done|exact H1]; by apply Forall_replicate.
Qed.

(** ** Examples *)

Definition demo_cdr : CDRConfig := mkCDRConfig true "cdr" "" 2 "" 2 "drop" 0 "" "gw 1" true false.
Definition demo_event (kind to : string) : Event :=
  mkEvent 0 "" kind "m1" "" "" to 0 "" "secret" "" 0 0 0 "" false "" "" "" "" "" "" "" "" "" 0 "" "" "".
Definition fine_os : os_answers := mkOs OpenNew true true true true true.
Definition demo_cdr_events : list wr_event :=
  [WStart (demo_event "accepted" "447700900123") "t1"; WStart (demo_event "sent" "12") "t2"; WStart (demo_event "dlr" "") "t3";
   WSend 1; WSend 0; WSend 0; WRecv fine_os (Unix 1700000000); WStart (demo_event "dlr" "5") "t4"; WSend 0; WRecv fine_os (Unix 1700000001);
   WClose].

Lemma fine_os_fine : os_fine fine_os.
Proof. split_and!; try done. by left. Qed.

Lemma demo_events_fine : Forall event_fine demo_cdr_events.
Proof. unfold demo_cdr_events. rewrite !Forall_cons, Forall_nil. cbn. pose proof fine_os_fine. by split_and!. Qed.

Definition demo_writer : Writer := match NewWriter "host" true demo_cdr with Ok (Some w) => w | _ => mkWriter demo_cdr false 0 0 [] [] false None false 0 [] false false [] end.
Definition demo_writer_end : Writer := default demo_writer (wr_run demo_cdr_events demo_writer).

(** One event was dropped: the channel held two. *)
Example demo_writer_files :
  (wr_dropped demo_writer_end, wr_seq demo_writer_end, (fun f => match f with Finished n l => (n, (fun e => (ev_Seq e, ev_To e, ev_Text e)) <$> l) | Unfinished n l => (n, []) end) <$> wr_files demo_writer_end)
  = (1, 4, [("cdr-20231114221320-1700000000000000000-gw_1-2.jsonl", [(2, "**", ""); (1, "********0123", "")])]).
Proof. vm_compute. reflexivity. Qed.

Lemma cdr_stream_safe_witness : recorded demo_writer_end `sublist_of` wr_sent demo_writer_end.
Proof. apply (cdr_stream_safe "host" true demo_cdr demo_cdr_events demo_writer demo_writer_end); vm_compute; reflexivity. Defined.

Lemma cdr_lossless_witness :
  exists w', wr_run (replicate (S (length (wr_in demo_writer_end))) (WRecv fine_os (Unix 1700000002))) demo_writer_end = Some w'
  /\ (wr_files w' ≫= lines) = wr_sent demo_writer_end.
Proof.
  assert (wr_closed demo_writer_end = true) as Hc by (vm_compute; reflexivity).
  assert (wr_done demo_writer_end = false) as Hd by (vm_compute; reflexivity).
  destruct (cdr_lossless "host" true demo_cdr demo_cdr_events demo_writer demo_writer_end) as (_ & _ & H).
  - vm_compute. reflexivity.
  - vm_compute. reflexivity.
  - exact demo_events_fine.
  - destruct (H Hc Hd fine_os (Unix 1700000002) fine_os_fine) as (w' & H1 & _ & H2 & _). exists w'. split; [exact H1|exact H2].
Defined.
