(* ===== verification/HttpGw.v ===== *)
(** * The HTTP gateway: internal/httpgw/rules.go

    The handlers as functions of a request and the state of the gateway: its
    configuration, the dispatcher with the store, the provider registry, the
    CDR writer and the rate limits. The decoding of a whole configuration, URL
    parsing and media types are parameters. *)

From S2P Require Import Prelude Unicode Codec Segment Num GoTime GoParse NetIP FilterAC Filter Records Store StoreInv StoreSubmit GatewayId.
From S2P Require Import Addr Router DlrAggregate Dispatch DispatchSubmit DispatchSend DispatchDlr ClientReceipt ClientConn ClientPool.
From S2P Require Import Config ConfigValid Float64 Tenant Json HttpRule HttpProvider RateLimit Providers CdrWriter RiskLimit.

(** ** Requests and answers *)

(** Header names are canonical, with one value each. *)
Record http_request := mkRequest {
  rq_Method : string;
  rq_Path : string;
  rq_RawQuery : string;
  rq_Header : gmap string string;
  rq_RemoteAddr : string;
  rq_Body : string }.

Inductive http_body :=
| BText (text : string)
| BMessages (l : list Message)
| BMessage (m : Message)
| BReceipt (r : Receipt)
| BConfig (c : Config)
| BHealth (status storage : string) (pending outbox : Z)
| BPage
| BNone.

Record http_response := mkResponse {
  rp_Status : Z;
  rp_Challenge : bool;      (* a WWW-Authenticate header *)
  rp_Body : http_body }.

Definition http_Error (text : string) (status : Z) : http_response := mkResponse status false (BText text).
Definition writeJSON (status : Z) (value : http_body) : http_response := mkResponse status false value.

Definition header (r : http_request) (name : string) : string := default "" (rq_Header r !! canonical_key name).

(** ** Credentials *)

Definition ConstantTimeEqual (a b : string) : bool :=
  if bool_decide (a = "") || bool_decide (b = "") then false else bool_decide (a = b).

(** [base64.StdEncoding]: the six bits of a character. *)
Definition base64_value (c : Z) : option Z :=
  if in_range 65 90 c then Some (c - 65) else if in_range 97 122 c then Some (c - 71)
  else if is_digit_byte c then Some (c + 4) else if c =? 43 then Some 62 else if c =? 47 then Some 63 else None.

Fixpoint base64_quads (s : list Z) : option (list Z) :=
  match s with
  | [] => Some []
  | a :: b :: 61 :: 61 :: [] => a ← base64_value a; b ← base64_value b; Some [a * 4 + b / 16]
  | a :: b :: c :: 61 :: [] =>
    a ← base64_value a; b ← base64_value b; c ← base64_value c;
    Some [a * 4 + b / 16; (b mod 16) * 16 + c / 4]
  | a :: b :: c :: d :: s =>
    a ← base64_value a; b ← base64_value b; c ← base64_value c; d ← base64_value d;
    rest ← base64_quads s;
    Some (a * 4 + b / 16 :: (b mod 16) * 16 + c / 4 :: (c mod 4) * 64 + d :: rest)
  | _ => None
  end.

(** [base64.StdEncoding.DecodeString]: line breaks are skipped. *)
Definition base64_decode (s : list Z) : option (list Z) := base64_quads (filter (fun c => c <> 10 /\ c <> 13) s).

(** [r.BasicAuth()]. *)
Definition BasicAuth (r : http_request) : option (string * string) :=
  let auth := bytes_of_string (header r "Authorization") in
  if (length auth <? 6)%nat || negb (EqualFold (string_of_bytes (take 6 auth)) "Basic ") then None
  else
    c ← base64_decode (drop 6 auth);
    i ← index_byte 58 c;
    Some (string_of_bytes (take i c), string_of_bytes (drop (i + 1) c)).

(** ** What a submission may be *)

Definition maxHTTPSubmitSegments : Z := 20.

Definition allDigits (value : string) : bool :=
  forallb (fun r => in_range 48 57 r) (runes value) && bool_decide (value <> "").

Definition validPhone (value : string) : bool :=
  ((slen value =? 11)%nat && allDigits value)
  || (HasPrefix value "+" && (8 <=? slen value)%nat && (slen value <=? 16)%nat && allDigits (sdrop 1 value)).

Definition rune_count (s : string) : Z := Z.of_nat (length (runes s)).

Inductive submit_error :=
| EFrom | ETo | EText | ESegments (encoding : string) | EClientMsgID | ECallback | EMetaKeys | EMetaValues.

Definition submit_error_text (e : submit_error) : string :=
  match e with
  | EFrom => "from must be 1-32 characters"
  | ETo => "to must be E.164 or 11 digits"
  | EText => "text must not be empty"
  | ESegments enc => "text exceeds 20 SMS segments for " +:+ enc +:+ " encoding"
  | EClientMsgID => "client_msg_id must be 1-64 non-space characters"
  | ECallback => "callback_url must be https"
  | EMetaKeys => "meta can contain at most 10 keys"
  | EMetaValues => "meta values must be at most 200 characters"
  end.

Definition is_blank (c : Z) : bool := (c =? 32) || (c =? 9) || (c =? 13) || (c =? 10).

Section submit_request.
(** [url.Parse]: the scheme and the host. *)
Context (url_Parse : string -> option (string * string)).

Definition https_url (s : string) : bool :=
  match url_Parse s with
  | Some (scheme, host) => bool_decide (scheme = "https") && bool_decide (host <> "")
  | None => false
  end.

Definition validateSubmitRequest (from to text clientMsgID callbackURL : string) (meta : option (gmap string string)) (ref : Z) : res submit_error unit :=
  if (rune_count from <? 1) || (32 <? rune_count from) then Err EFrom
  else if negb (validPhone to) then Err ETo
  else if rune_count text <? 1 then Err EText
  else
    let encoding := DetectEncoding text in
    if maxHTTPSubmitSegments <? Z.of_nat (length (Split text encoding ref)) then Err (ESegments encoding)
    else if bool_decide (clientMsgID <> "")
      && ((rune_count clientMsgID <? 1) || (64 <? rune_count clientMsgID) || existsb is_blank (bytes_of_string clientMsgID)) then Err EClientMsgID
    else if bool_decide (callbackURL <> "") && negb (https_url callbackURL) then Err ECallback
    else
      let meta := default ∅ meta in
      if 10 <? Z.of_nat (size meta) then Err EMetaKeys
      else if existsb (fun kv => bool_decide (kv.1 = "") || (200 <? rune_count kv.2)) (map_to_list meta) then Err EMetaValues
      else Ok tt.
End submit_request.

(** The body of a submission. *)
Record submit_body := mkSubmitBody {
  q_From : string;
  q_To : string;
  q_Text : string;
  q_ClientMsgID : string;
  q_CallbackURL : string;
  q_CallbackRule : string;
  q_Meta : option (gmap string string) }.

(** A member of the object into a field; names match up to case, null leaves the
    field as it is, and null as [meta] clears the map. *)
Definition text_field (v : json) (old : string) : option string :=
  match v with JString s => Some s | JNull => Some old | _ => None end.

Fixpoint meta_members (kvs : list (string * json)) (m : gmap string string) : option (gmap string string) :=
  match kvs with
  | [] => Some m
  | (k, v) :: kvs => s ← text_field v ""; meta_members kvs (<[k := s]> m)
  end.

Definition meta_field (v : json) (old : option (gmap string string)) : option (option (gmap string string)) :=
  match v with
  | JObject kvs => Some <$> meta_members kvs (default ∅ old)
  | JNull => Some None
  | _ => None
  end.

Definition body_member (kv : string * json) (q : submit_body) : option submit_body :=
  let '(k, v) := kv in
  let name := EqualFold k in
  if name "from" then s ← text_field v (q_From q); Some (mkSubmitBody s (q_To q) (q_Text q) (q_ClientMsgID q) (q_CallbackURL q) (q_CallbackRule q) (q_Meta q))
  else if name "to" then s ← text_field v (q_To q); Some (mkSubmitBody (q_From q) s (q_Text q) (q_ClientMsgID q) (q_CallbackURL q) (q_CallbackRule q) (q_Meta q))
  else if name "text" then s ← text_field v (q_Text q); Some (mkSubmitBody (q_From q) (q_To q) s (q_ClientMsgID q) (q_CallbackURL q) (q_CallbackRule q) (q_Meta q))
  else if name "client_msg_id" then s ← text_field v (q_ClientMsgID q); Some (mkSubmitBody (q_From q) (q_To q) (q_Text q) s (q_CallbackURL q) (q_CallbackRule q) (q_Meta q))
  else if name "callback_url" then s ← text_field v (q_CallbackURL q); Some (mkSubmitBody (q_From q) (q_To q) (q_Text q) (q_ClientMsgID q) s (q_CallbackRule q) (q_Meta q))
  else if name "callback_rule" then s ← text_field v (q_CallbackRule q); Some (mkSubmitBody (q_From q) (q_To q) (q_Text q) (q_ClientMsgID q) (q_CallbackURL q) s (q_Meta q))
  else if name "meta" then m ← meta_field v (q_Meta q); Some (mkSubmitBody (q_From q) (q_To q) (q_Text q) (q_ClientMsgID q) (q_CallbackURL q) (q_CallbackRule q) m)
  else Some q.

Definition empty_body : submit_body := mkSubmitBody "" "" "" "" "" "" None.

Fixpoint body_members (kvs : list (string * json)) (q : submit_body) : option submit_body :=
  match kvs with [] => Some q | kv :: kvs => q ← body_member kv q; body_members kvs q end.

(** [http.MaxBytesReader]: a longer body is cut. *)
Definition decode_submit (body : string) : option submit_body :=
  v ← Decode (limit_body body);
  match v with
  | JObject kvs => body_members kvs empty_body
  | JNull => Some empty_body
  | _ => None
  end.

(** ** The values of a callback *)

Definition first_values (kvs : list (string * string)) (m : gmap string string) : gmap string string :=
  (foldr (fun kv m => <[kv.1 := kv.2]> m) ∅ kvs) ∪ m.

Definition valueOf (values : gmap string string) (key fallback : string) : string :=
  if bool_decide (key = "") then fallback
  else let v := field values key in if bool_decide (v <> "") then v else fallback.

Definition query_value (r : http_request) (name : string) : string := field (first_values (ParseQuery (rq_RawQuery r)).1 ∅) name.

Definition intQuery (r : http_request) (name : string) (fallback : Z) : Z :=
  let value := query_value r name in
  if bool_decide (value = "") then fallback
  else match Atoi value with Ok n => n | Err _ => fallback end.

Section request_values.
(** [mime.ParseMediaType]: the media type, and whether there was an error. *)
Context (ParseMediaType : string -> string * bool).

(** [r.ParseForm()] on a body of at most [limit] bytes: the form of the body, and
    whether there was an error. *)
Definition parse_post_form (limit : Z) (r : http_request) : list (string * string) * bool :=
  if negb (bool_decide (rq_Method r ∈ ["POST"; "PUT"; "PATCH"])) then ([], false)
  else
    let ct := header r "Content-Type" in
    let '(ct, err) := ParseMediaType (if bool_decide (ct = "") then "application/octet-stream" else ct) in
    if bool_decide (ct = "application/x-www-form-urlencoded") then
      if limit <? Z.of_nat (slen (rq_Body r)) then ([], true)
      else let '(kvs, e) := ParseQuery (rq_Body r) in (kvs, err || e)
    else ([], err).

Definition requestValues (r : http_request) : option (gmap string string) :=
  let '(query, queryErr) := ParseQuery (rq_RawQuery r) in
  let values := first_values query ∅ in
  if Contains (header r "Content-Type") "application/json" then
    v ← Decode (limit_body (rq_Body r));
    payload ← as_object v;
    Some ((Sprint <$> payload) ∪ values)
  else
    let '(form, err) := parse_post_form 1048576 r in
    if err || queryErr then None else Some (first_values form values).
End request_values.

(** ** The gateway *)

(** Assignments to fields of a new message. *)
Definition msg_fill (state route provider : string) (segments : list Segment) (meta : option (gmap string string)) (m : Message) : Message :=
  {| msg_ID := msg_ID m; msg_ProviderID := msg_ProviderID m; msg_TenantID := msg_TenantID m;
     msg_AccountID := msg_AccountID m; msg_ClientMsgID := msg_ClientMsgID m;
     msg_Direction := msg_Direction m; msg_From := msg_From m; msg_To := msg_To m;
     msg_Text := msg_Text m; msg_Encoding := msg_Encoding m; msg_Route := route;
     msg_Provider := provider; msg_SourceKind := msg_SourceKind m;
     msg_SourceID := msg_SourceID m; msg_State := state; msg_ErrorCode := msg_ErrorCode m;
     msg_Segments := segments; msg_Metadata := meta;
     msg_SubmittedAt := msg_SubmittedAt m; msg_SentAt := msg_SentAt m; msg_DoneAt := msg_DoneAt m |}.

Section gateway.
Context (TextHash : string -> string).
Context {Location : Type} (UTC : Location) (LoadLocation : string -> option Location).
Context (regexp_Compile : string -> option regex) (ToLower : Z -> Z).
Context (range : list (string * string) -> list (string * string)).
Context (sortSlice : list maskInterval -> list maskInterval) (ord : nat -> gmap Z nat -> list (Z * nat)).
Context (url_Parse : string -> option (string * string)) (ParseMediaType : string -> string * bool).
(** [json.NewDecoder(body).Decode(&cfg)], and the texts of errors. *)
Context (decode_config : string -> option Config).
Context (submit_text : dispatch_err -> string) (dlr_text : dlr_err -> string) (config_text : cfg_err -> string).

(** [g_d] holds the store; [g_dispatching] says whether there is a dispatcher.
    CDR writers are named by handles, [g_closed] lists the closed ones. *)
Record Gateway := mkGateway {
  g_cfg : Config;
  g_d : Dispatcher;
  g_dispatching : bool;
  g_engine : option Engine;
  g_resolver : @StaticResolver Location;
  g_registry : option World;
  g_cdrWriter : option nat;
  g_nextWriter : nat;
  g_closed : list nat;
  g_risk : Risk }.

Definition g_set_d (v : Dispatcher) (g : Gateway) : Gateway :=
  mkGateway (g_cfg g) v (g_dispatching g) (g_engine g) (g_resolver g) (g_registry g) (g_cdrWriter g) (g_nextWriter g) (g_closed g) (g_risk g).
Definition g_set_risk (v : Risk) (g : Gateway) : Gateway :=
  mkGateway (g_cfg g) (g_d g) (g_dispatching g) (g_engine g) (g_resolver g) (g_registry g) (g_cdrWriter g) (g_nextWriter g) (g_closed g) v.

(** What a request asks of its surroundings: identifiers, clock readings, the
    parts of a submission's and a report's, and the outcomes of I/O. *)
Record HttpEnv := mkHttpEnv {
  he_id : string;
  he_now_minute : time;
  he_now_day : time;
  he_now_second : time;
  he_now_new : time;
  he_now_received : time;
  he_now_done : time;
  he_ref : Z;
  he_submit : SubmitEnv;
  he_dlr : DlrEnv;
  he_ping : option string;
  he_now_size : time;
  he_hostname : string;
  he_mkdir : bool;
  he_now_build : time;
  he_persist : option string }.

(** The surroundings of a submission, with the gateway's own filter and tenants. *)
Definition submit_env (e : HttpEnv) (g : Gateway) : SubmitEnv :=
  let se := he_submit e in
  {| se_resolve := fun protocol account => lo_identity <$> Resolve UTC (g_resolver g) protocol account;
     se_allow := se_allow se;
     se_engine := (fun engine => Evaluate ToLower sortSlice (Some engine)) <$> g_engine g;
     se_now_received := se_now_received se; se_now_check := se_now_check se; se_now_new := se_now_new se;
     se_now_store := se_now_store se; se_today := se_today se; se_ref := se_ref se |}.

(** ** Access *)

Definition admin_denied (text : string) : http_response := mkResponse 401 true (BText text).

(** The answer to a request that is not the administrator's. *)
Definition requireAdmin (r : http_request) (g : Gateway) : option http_response :=
  let admin := c_Admin (g_cfg g) in
  if bool_decide (ad_Username admin = "") || bool_decide (ad_Password admin = "") then Some (admin_denied "admin credentials are required")
  else
    match BasicAuth r with
    | Some (username, password) =>
      if ConstantTimeEqual username (ad_Username admin) && ConstantTimeEqual password (ad_Password admin) then None
      else Some (admin_denied "unauthorized")
    | None => Some (admin_denied "unauthorized")
    end.

Definition ip_of (r : http_request) : ip_request := mkIPRequest (rq_RemoteAddr r) (header r "X-Forwarded-For") (header r "X-Real-IP").

Fixpoint client_loop (r : http_request) (proxies : list string) (clientID token : string) (clients : list ClientAuth) : http_response + string :=
  match clients with
  | [] => inl (http_Error "unauthorized" 401)
  | client :: clients =>
    if negb (ca_Enabled client) || negb (ConstantTimeEqual (ca_ClientID client) clientID) then client_loop r proxies clientID token clients
    else if negb (ConstantTimeEqual (ca_Token client) token) then inl (http_Error "unauthorized" 401)
    else if negb (bool_decide (ca_AllowedIPs client = [])) && negb (RequestIPAllowed (ip_of r) (ca_AllowedIPs client) proxies)
    then inl (http_Error "client ip is not allowed" 403)
    else inr clientID
  end.

Definition authorizeClient (r : http_request) (g : Gateway) : http_response + string :=
  let cfg := g_cfg g in
  if bool_decide (c_Clients cfg = []) then inl (http_Error "client credentials are required" 401)
  else
    let clientID := header r "X-Client-ID" in
    let token := header r "X-Token" in
    if bool_decide (clientID = "") || bool_decide (token = "") then inl (http_Error "client credentials are required" 401)
    else client_loop r (c_TrustedProxies cfg) clientID token (c_Clients cfg).

(** ** Risk *)

Definition blocked_message (e : HttpEnv) (clientID from to text reason : string) (meta : option (gmap string string)) : Message :=
  let m : gmap string string := {[ "reason" := reason ]} in
  let m := if bool_decide (clientID <> "") then <["client_id" := clientID]> m else m in
  msg_fill "blocked" "" "" [] (Some (default ∅ meta ∪ m)) (Segment.New (he_now_new e) (he_id e) DirectionMT from to text).

Definition saveBlocked (e : HttpEnv) (clientID from to text reason : string) (meta : option (gmap string string)) (g : Gateway) : Gateway :=
  g_set_d (d_set_store (SaveMessage (blocked_message e clientID from to text reason meta) (d_store (g_d g))).1 (g_d g)) g.

Definition allow_rate (now : time) (key : string) (window : duration) (limit : Z) (g : Gateway) : Gateway * bool :=
  let '(risk, ok) := allowRate now key window limit (g_risk g) in (g_set_risk risk g, ok).

(** One limit: skipped when it is not set. *)
Definition risk_check (set : bool) (now : time) (key : string) (window : duration) (limit : Z) (g : Gateway) : Gateway * bool :=
  if set then allow_rate now key window limit g else (g, true).

Definition applyRisk (e : HttpEnv) (clientID from to text : string) (meta : option (gmap string string)) (g : Gateway) : Gateway * option string :=
  let cfg := c_Risk (g_cfg g) in
  let '(g, ok) := risk_check (0 <? rk_PerNumberPerMinute cfg) (he_now_minute e) ("num:min:" +:+ to) Minute (rk_PerNumberPerMinute cfg) g in
  if negb ok then (saveBlocked e clientID from to text "number_rate_minute" meta g, Some "number rate limit exceeded")
  else
    let '(g, ok) := risk_check (0 <? rk_PerNumberPerDay cfg) (he_now_day e) ("num:day:" +:+ to) Day (rk_PerNumberPerDay cfg) g in
    if negb ok then (saveBlocked e clientID from to text "number_rate_day" meta g, Some "number daily limit exceeded")
    else
      let '(g, ok) := risk_check (bool_decide (clientID <> "") && (0 <? rk_PerClientPerSecond cfg)) (he_now_second e)
        ("client:sec:" +:+ clientID) Second (rk_PerClientPerSecond cfg) g in
      if negb ok then (saveBlocked e clientID from to text "client_rate_second" meta g, Some "client rate limit exceeded")
      else (g, None).

(** ** Messages *)

Definition http_envelope (e : HttpEnv) (clientID : string) (q : submit_body) : Envelope :=
  mkEnvelope (q_From q) (q_To q) (q_Text q) clientID (q_ClientMsgID q) "" "" 0 (DetectEncoding (q_Text q)) 1
    (mkSubmitSource SourceHTTPAPI "" "" (q_CallbackURL q) (q_CallbackRule q)) (he_now_received e) (q_Meta q) [] [] false [] [] [] false.

Definition submit_status (err : dispatch_err) : Z :=
  match err with
  | ErrRateExceeded | ErrStore ErrQuotaExceeded => 429
  | ErrTenantDisabled | ErrBlocked _ => 403
  | ErrInvalidDestAddr => 400
  | _ => 502
  end.

(** The message of a gateway without a dispatcher. *)
Definition direct_message (e : HttpEnv) (clientID : string) (q : submit_body) (cfg : Config) : Message :=
  let msg := Segment.New (he_now_new e) (he_id e) DirectionMT (q_From q) (q_To q) (q_Text q) in
  let meta := if bool_decide (clientID <> "") then Some (<["client_id" := clientID]> (default ∅ (q_Meta q))) else q_Meta q in
  let segments := Split (q_Text q) (msg_Encoding msg) (he_ref e) in
  let msg := msg_fill (msg_State msg) "" "" segments meta msg in
  match Match (Router.New (c_Routes cfg)) msg with
  | Some route => msg_fill (msg_State msg) (rt_Name route) (rt_Provider route) segments meta msg
  | None => msg
  end.

Definition post_message (e : HttpEnv) (clientID : string) (r : http_request) (g : Gateway) : Gateway * http_response :=
  match decode_submit (rq_Body r) with
  | None => (g, http_Error "invalid json" 400)
  | Some q =>
    match validateSubmitRequest url_Parse (q_From q) (q_To q) (q_Text q) (q_ClientMsgID q) (q_CallbackURL q) (q_Meta q) (he_ref e) with
    | Err err => (g, http_Error (submit_error_text err) 400)
    | Ok _ =>
      let '(g, blocked) := applyRisk e clientID (q_From q) (q_To q) (q_Text q) (q_Meta q) g in
      match blocked with
      | Some reason => (g, http_Error reason 429)
      | None =>
        if g_dispatching g then
          let '(d, res) := Submit TextHash (submit_env e g) (http_envelope e clientID q) (g_d g) in
          let g := g_set_d d g in
          match res with
          | Err err => (g, http_Error (submit_text err) (submit_status err))
          | Ok receipt => (g, writeJSON 202 (BReceipt receipt))
          end
        else
          let msg := direct_message e clientID q (g_cfg g) in
          (g_set_d (d_set_store (SaveMessage msg (d_store (g_d g))).1 (g_d g)) g, writeJSON 202 (BMessage msg))
      end
    end
  end.

Definition get_messages (clientID : string) (r : http_request) (g : Gateway) : http_response :=
  writeJSON 200 (BMessages (ListMessagesPage (mkListOptions (intQuery r "limit" 100) (intQuery r "offset" 0) clientID) (d_store (g_d g)))).

Definition messages (e : HttpEnv) (clientID : string) (r : http_request) (g : Gateway) : Gateway * http_response :=
  if bool_decide (rq_Method r = "GET") then (g, get_messages clientID r g)
  else if bool_decide (rq_Method r = "POST") then post_message e clientID r g
  else (g, http_Error "method not allowed" 405).

(** [requireAPIAuth(g.messages)]: the administrator when there are no clients. *)
Definition messages_api (e : HttpEnv) (r : http_request) (g : Gateway) : Gateway * http_response :=
  if bool_decide (c_Clients (g_cfg g) = []) then
    match requireAdmin r g with
    | Some denied => (g, denied)
    | None => messages e "" r g
    end
  else
    match authorizeClient r g with
    | inl denied => (g, denied)
    | inr clientID => messages e clientID r g
    end.

Definition SubmitTestMessage (e : HttpEnv) (from to text : string) (g : Gateway) : Gateway * res string Receipt :=
  if negb (g_dispatching g) then (g, Err "dispatcher is not configured")
  else
    match validateSubmitRequest url_Parse from to text "" "" None (he_ref e) with
    | Err err => (g, Err (submit_error_text err))
    | Ok _ =>
      let env := mkEnvelope from to text "admin" "" "" "" 0 (DetectEncoding text) 1 (mkSubmitSource SourceHTTPAPI "" "" "" "")
        (he_now_received e) (Some {[ "admin_test" := "1" ]}) [] [] false [] [] [] false in
      let '(d, res) := Submit TextHash (submit_env e g) env (g_d g) in
      (g_set_d d g, match res with Err err => Err (submit_text err) | Ok receipt => Ok receipt end)
    end.

(** ** Callbacks *)

Definition accepted_text : string :=
  "{" +:+ quote +:+ "status" +:+ quote +:+ ":" +:+ quote +:+ "accepted" +:+ quote +:+ "}".

Definition writeInboundSuccess (rule : HTTPRuleConfig) : http_response :=
  let status := if hr_SuccessStatus rule =? 0 then 200 else hr_SuccessStatus rule in
  let body := if bool_decide (hr_SuccessBody rule = "") then accepted_text else hr_SuccessBody rule in
  mkResponse status false (BText body).

Definition inbound_message (e : HttpEnv) (rule : HTTPRuleConfig) (values : gmap string string) : Message :=
  let of_field k fallback := valueOf values (field (hr_Fields rule) k) fallback in
  let msg := Segment.New (he_now_new e) (of_field "id" (he_id e)) DirectionMO (of_field "from" "") (of_field "to" "") (of_field "text" "") in
  msg_fill (msg_State msg) "" (hr_Name rule) (Split (msg_Text msg) (msg_Encoding msg) (he_ref e)) (msg_Metadata msg) msg.

Definition inbound_report (e : HttpEnv) (rule : HTTPRuleConfig) (values : gmap string string) : DLR :=
  let of_field k fallback := valueOf values (field (hr_Fields rule) k) fallback in
  mkDLR (hr_Provider rule) (of_field "provider_id" "") (of_field "status" "") (Atoi_value (of_field "error_code" "0")) (he_now_done e).

Definition handleInboundRule (e : HttpEnv) (rule : HTTPRuleConfig) (r : http_request) (g : Gateway) : Gateway * http_response :=
  if bool_decide (hr_Method rule <> "") && negb (EqualFold (hr_Method rule) (rq_Method r)) then (g, http_Error "method not allowed" 405)
  else if bool_decide (hr_AuthHeader rule = "") || bool_decide (hr_AuthToken rule = "") then (g, http_Error "inbound rule auth is required" 401)
  else if negb (ConstantTimeEqual (header r (hr_AuthHeader rule)) (hr_AuthToken rule)) then (g, http_Error "unauthorized" 401)
  else
    match requestValues ParseMediaType r with
    | None => (g, http_Error "invalid request" 400)
    | Some values =>
      if g_dispatching g && bool_decide (field (hr_Fields rule) "provider_id" <> "") && bool_decide (field (hr_Fields rule) "status" <> "") then
        let '(d, res) := HandleDLR TextHash (he_dlr e) (inbound_report e rule values) (g_d g) in
        let g := g_set_d d g in
        match res with
        | Err err => (g, http_Error (dlr_text err) (match err with DlrStore ErrNotFound => 404 | _ => 403 end))
        | Ok _ => (g, writeInboundSuccess rule)
        end
      else
        (g_set_d (d_set_store (SaveMessage (inbound_message e rule values) (d_store (g_d g))).1 (g_d g)) g, writeInboundSuccess rule)
    end.

Definition dynamicInbound (e : HttpEnv) (r : http_request) (g : Gateway) : Gateway * http_response :=
  match list_find (fun rule => hr_Path rule = rq_Path r) (c_Inbound (g_cfg g)) with
  | Some (_, rule) => handleInboundRule e rule r g
  | None => (g, http_Error "404 page not found" 404)
  end.

(** ** Configuration *)

(** [ReloadRoutes] and [SetCDRSink] on the dispatcher. A writer that is nil takes
    events and does nothing with them. *)
Definition ReloadRoutes (routes : list RouteConfig) (providers : list ProviderConfig) (sink : bool) (d : Dispatcher) : Dispatcher :=
  {| d_store := d_store d; d_idAlloc := d_idAlloc d;
     d_router := Some (NewWithProviders routes ((fun p => (pv_Name p, pv_Enabled p)) <$> providers));
     d_pendingTTL := d_pendingTTL d; d_claimTimeout := d_claimTimeout d; d_workers := d_workers d;
     d_claimLimit := d_claimLimit d; d_maxAttempts := d_maxAttempts d; d_validateDest := d_validateDest d;
     d_instanceID := d_instanceID d; d_cdrSink := sink; d_cdr := d_cdr d;
     d_dlrCh := d_dlrCh d; d_dlrBg := d_dlrBg d; d_dlrPick := d_dlrPick d |}.

Definition UpdateConfig (e : HttpEnv) (cfg : Config) (g : Gateway) : Gateway * res string unit :=
  let cfg := Normalize cfg in
  match Validate (fun z => bool_decide (is_Some (LoadLocation z))) regexp_Compile range cfg with
  | Err err => (g, Err (config_text err))
  | Ok _ =>
    match Compile ToLower regexp_Compile ord (c_Filter cfg) with
    | Err err => (g, Err err)
    | Ok engine =>
      let opened := if cd_Enabled (c_CDR cfg) then NewWriter (he_hostname e) (he_mkdir e) (c_CDR cfg) else Ok None in
      match opened with
      | Err err => (g, Err err)
      | Ok writer =>
        let newCDR : option nat := (fun _ => g_nextWriter g) <$> writer in
        let registry := Reload (he_now_build e) cfg <$> g_registry g in
        let d := if g_dispatching g then ReloadRoutes (c_Routes cfg) (c_Providers cfg) (bool_decide (is_Some newCDR)) (g_d g) else g_d g in
        let closed := match g_cdrWriter g with Some old => [old] | None => [] end in
        (mkGateway cfg d (g_dispatching g)
           (if g_dispatching g then engine else g_engine g)
           (if g_dispatching g then NewResolver UTC LoadLocation cfg else g_resolver g)
           registry newCDR (match newCDR with Some n => S n | None => g_nextWriter g end) (g_closed g ++ closed) (g_risk g), Ok tt)
      end
    end
  end.

Definition configAPI (e : HttpEnv) (r : http_request) (g : Gateway) : Gateway * http_response :=
  if bool_decide (rq_Method r = "GET") then (g, writeJSON 200 (BConfig (g_cfg g)))
  else if bool_decide (rq_Method r ∈ ["PUT"; "POST"]) then
    match decode_config (rq_Body r) with
    | None => (g, http_Error "invalid json" 400)
    | Some cfg =>
      let '(g, res) := UpdateConfig e cfg g in
      match res with
      | Err err => (g, http_Error err 400)
      | Ok _ =>
        match he_persist e with
        | Some err => (g, http_Error ("runtime config updated but persist failed: " +:+ err) 500)
        | None => (g, writeJSON 200 (BConfig (g_cfg g)))
        end
      end
    end
  else (g, http_Error "method not allowed" 405).

Definition health (e : HttpEnv) (g : Gateway) : Gateway * http_response :=
  let storage := default "ok" (he_ping e) in
  let '(s, pending) := PendingSize (he_now_size e) (d_store (g_d g)) in
  let outbox := OutboxDepth "pending" s in
  let status := if bool_decide (storage <> "ok") then "unhealthy" else if 10000 <? outbox then "degraded" else "ok" in
  (g_set_d (d_set_store s (g_d g)) g, writeJSON 200 (BHealth status storage pending outbox)).

(** ** Routing: [routes], for a path the multiplexer takes as it is *)

Definition serve (e : HttpEnv) (r : http_request) (g : Gateway) : Gateway * http_response :=
  if bool_decide (rq_Path r = "/healthz") then health e g
  else if bool_decide (rq_Path r = "/v1/messages") then messages_api e r g
  else if bool_decide (rq_Path r = "/v1/config") then
    match requireAdmin r g with Some denied => (g, denied) | None => configAPI e r g end
  else if bool_decide (rq_Path r = "/ui/config") then
    match requireAdmin r g with Some denied => (g, denied) | None => (g, mkResponse 200 false BPage) end
  else dynamicInbound e r g.

Definition NewGateway (cfg : Config) (d : Dispatcher) (dispatching : bool) (engine : option Engine) (registry : option World) (writer : option nat) : Gateway :=
  mkGateway cfg d dispatching engine (NewResolver UTC LoadLocation cfg) registry writer 1 [] NewRisk.
End gateway.
