(* ===== verification/HttpFlow.v ===== *)
(** * The HTTP gateway: what a submission and a configuration leave behind

    A submission is answered 202 exactly when it is in the store, a client finds
    in its list what it submitted, and a configuration is taken whole or not at
    all, with the CDR writer it replaces closed once. *)

From S2P Require Import Prelude Unicode Codec Segment Num GoTime GoParse NetIP FilterAC Filter Records Store StoreInv StoreSubmit GatewayId.
From S2P Require Import Addr Router DlrAggregate Dispatch DispatchSubmit DispatchSend DispatchDlr ClientReceipt ClientConn ClientPool.
From S2P Require Import Config ConfigValid ConfigOk ConfigWhole Float64 Tenant Json HttpRule HttpProvider RateLimit Providers CdrWriter RiskLimit HttpGw HttpGwOk.

Section flow.
Context (TextHash : string -> string).
Context {Location : Type} (UTC : Location) (ToLower : Z -> Z).
Context (sortSlice : list maskInterval -> list maskInterval).
Context (url_Parse : string -> option (string * string)) (submit_text : dispatch_err -> string).

Abbreviation Gateway := (@Gateway Location).
Abbreviation post := (post_message TextHash UTC ToLower sortSlice url_Parse submit_text).
Abbreviation se_of e g := (submit_env UTC ToLower sortSlice e g).
Implicit Types (g : Gateway) (r : http_request).

(** ** Submissions *)

Lemma risk_check_frame set now key window limit g g' ok :
  risk_check set now key window limit g = (g', ok) -> exists risk, g' = g_set_risk risk g.
Proof.
  unfold risk_check, allow_rate. destruct set; [|intros [= <- _]; exists (g_risk g); by destruct g].
  destruct (allowRate _ _ _ _ _) as [risk ok']. intros [= <- _]. by exists risk.
Qed.

(** What a blocked message is stored under, by the text of the answer. *)
Definition limit_reason (text : string) : string :=
  if bool_decide (text = "number rate limit exceeded") then "number_rate_minute"
  else if bool_decide (text = "number daily limit exceeded") then "number_rate_day"
  else "client_rate_second".

(** The limits touch only their own counters, and a refusal stores one message. *)
Lemma applyRisk_cases e id from to text meta g g' out :
  applyRisk e id from to text meta g = (g', out) ->
  exists risk, match out with
  | None => g' = g_set_risk risk g
  | Some why => g' = saveBlocked e id from to text (limit_reason why) meta (g_set_risk risk g)
  end.
Proof.
  unfold applyRisk. cbn zeta.
  destruct (risk_check (0 <? rk_PerNumberPerMinute _) _ _ _ _ g) as [g1 ok1] eqn:E1. apply risk_check_frame in E1 as [r1 ->].
  destruct ok1; cbn [negb]; [|intros [= <- <-]; eauto].
  destruct (risk_check (0 <? rk_PerNumberPerDay _) _ _ _ _ _) as [g2 ok2] eqn:E2. apply risk_check_frame in E2 as [r2 ->].
  destruct ok2; cbn [negb]; [|intros [= <- <-]; eauto].
  destruct (risk_check (_ && _) _ _ _ _ _) as [g3 ok3] eqn:E3. apply risk_check_frame in E3 as [r3 ->].
  destruct ok3; cbn [negb]; intros [= <- <-]; eauto.
Qed.

(** The limit a request runs into, if any. *)
Definition limited (e : HttpEnv) (id : string) (q : submit_body) (g : Gateway) : option string :=
  (applyRisk e id (q_From q) (q_To q) (q_Text q) (q_Meta q) g).2.

(** The checks of a request before the limits. *)
Definition acceptable (e : HttpEnv) (q : submit_body) : Prop :=
  validateSubmitRequest url_Parse (q_From q) (q_To q) (q_Text q) (q_ClientMsgID q) (q_CallbackURL q) (q_Meta q) (he_ref e) = Ok tt.

#[local] Instance acceptable_dec e q : Decision (acceptable e q).
Proof. unfold acceptable. destruct (validateSubmitRequest _ _ _ _ _ _ _ _) as [[]|]; [by left|by right]. Defined.

(** A refusal by a limit: the message is kept as blocked, and nothing else. *)
Definition kept_blocked (e : HttpEnv) (id : string) (q : submit_body) (reason : string) (d d' : Dispatcher) : Prop :=
  d' = d_set_store (SaveMessage (blocked_message e id (q_From q) (q_To q) (q_Text q) reason (q_Meta q)) (d_store d)).1 d.

Lemma submit_status_not_202 err : submit_status err <> 202.
Proof. unfold submit_status. repeat case_match; lia. Qed.

(** What an answer says of what was done. *)
Definition post_outcome (e : HttpEnv) (id : string) (r : http_request) (g g' : Gateway) (rp : http_response) : Prop :=
  match decode_submit (rq_Body r) with
  | None => rp_Status rp = 400 /\ g' = g
  | Some q =>
    if decide (acceptable e q) then
      match limited e id q g with
      | Some text => rp = http_Error text 429 /\ kept_blocked e id q (limit_reason text) (g_d g) (g_d g')
      | None =>
        match (Submit TextHash (se_of e g) (http_envelope e id q) (g_d g)).2 with
        | Err err => rp_Status rp = submit_status err /\ refused (se_of e g) (g_d g) (g_d g') err
        | Ok rc => rp = writeJSON 202 (BReceipt rc)
          /\ (repeated (se_of e g) (http_envelope e id q) (g_d g) (g_d g') rc
              \/ exists msg item, DispatchSubmit.accepted (se_of e g) (resolveTenant (se_of e g) (http_envelope e id q)) (http_envelope e id q) (g_d g) (g_d g') rc msg item)
        end
      end
    else rp_Status rp = 400 /\ g' = g
  end.

Lemma post_cases e id r g g' rp :
  wf (d_store (g_d g)) -> 0 < st_maxMessages (d_store (g_d g)) -> g_dispatching g = true ->
  post e id r g = (g', rp) -> post_outcome e id r g g' rp /\ g' = g_set_d (g_d g') (g_set_risk (g_risk g') g).
Proof.
  intros Hwf Hmax Hd. unfold HttpGw.post_message, post_outcome, limited. assert (g = g_set_d (g_d g) (g_set_risk (g_risk g) g)) as Hg by by destruct g.
  destruct (decode_submit (rq_Body r)) as [q|] eqn:Hq; [|by intros [= <- <-]]. case_decide as Ha; unfold acceptable in Ha.
  2: { destruct (validateSubmitRequest _ _ _ _ _ _ _ _) as [[]|err]; [done|by intros [= <- <-]]. }
  rewrite Ha. destruct (applyRisk _ _ _ _ _ _ _) as [g1 out] eqn:Hr. apply applyRisk_cases in Hr as [risk Hr]. cbn [snd]. destruct out as [reason|].
  { intros [= <- <-]. subst g1. done. }
  subst g1. cbn [g_dispatching g_set_risk g_d]. rewrite Hd. change (se_of e (g_set_risk risk g)) with (se_of e g).
  destruct (Submit _ _ _ _) as [d res] eqn:Hs. apply Submit_outcome in Hs; [|done..]. cbn [snd]. by destruct res as [rc|err]; intros [= <- <-].
Qed.

(** C13: An authorised POST to a gateway with a dispatcher is answered 202 exactly
    when the body decodes to an acceptable request, no limit is exceeded and
    the dispatcher takes it; the answer is then its receipt, of an earlier
    submission under the same key or of the one queued message and outbox
    item. A body that is not acceptable is answered 400 and changes nothing; a
    limit is answered 429 and keeps one message, blocked for that limit; an
    error of the dispatcher is answered with its status and leaves no trace.
    Besides the dispatcher only the counters of the limits change. *)
Theorem http_submit_outcome e id r g g' rp :
  wf (d_store (g_d g)) -> 0 < st_maxMessages (d_store (g_d g)) -> g_dispatching g = true ->
  post e id r g = (g', rp) ->
  (rp_Status rp = 202 <-> exists q rc, decode_submit (rq_Body r) = Some q /\ acceptable e q /\ limited e id q g = None
     /\ (Submit TextHash (se_of e g) (http_envelope e id q) (g_d g)).2 = Ok rc)
  /\ post_outcome e id r g g' rp /\ g' = g_set_d (g_d g') (g_set_risk (g_risk g') g).
Proof.
  intros Hwf Hmax Hd H. destruct (post_cases _ _ _ _ _ _ Hwf Hmax Hd H) as [Ho Hg]. split; [|done]. unfold post_outcome in Ho.
  destruct (decode_submit (rq_Body r)) as [q|]; [|destruct Ho as [-> _]; by split; [|intros (? & ? & ? & _)]].
  case_decide as Ha; [|destruct Ho as [-> _]; split; [done|by intros (? & ? & [= <-] & ? & _)]].
  destruct (limited e id q g) as [text|] eqn:Hl; [destruct Ho as [-> _]; split; [done|by intros (? & ? & [= <-] & _ & ? & _); congruence]|].
  destruct (Submit _ _ _ _).2 as [rc|err] eqn:Hs; destruct Ho as [Hst _].
  - rewrite Hst. split; [intros _; by exists q, rc|done].
  - rewrite Hst. split; [by intros ?%submit_status_not_202|by intros (? & ? & [= <-] & _ & _ & ?); congruence].
Qed.

(** ** Lists *)

(** A client's own messages. *)
Definition own (id : string) (s : MemoryStore) : list Message :=
  filter (fun m => meta_get (msg_Metadata m) "client_id" = id) (st_messages s).

Lemma page_all id s : id <> "" -> (length (own id s) <= 100)%nat -> ListMessagesPage (mkListOptions 100 0 id) s = own id s.
Proof.
  intros Hid Hl. unfold ListMessagesPage. cbn [lo_ClientID lo_Offset lo_Limit]. rewrite bool_decide_eq_false_2 by done. fold (own id s).
  cbn. rewrite Z.min_l, (Z.min_r 100) by lia. unfold slice. rewrite Nat2Z.id. cbn. rewrite Nat.sub_0_r. by apply firstn_all2.
Qed.

(** A message that was accepted anew for a client is in the list the client gets
    next, under the id of its receipt, and the list has messages of that
    client only. *)
Theorem submitted_then_listed e e2 id r r2 g g' rp rc :
  wf (d_store (g_d g)) -> 0 < st_maxMessages (d_store (g_d g)) -> g_dispatching g = true -> id <> "" ->
  post e id r g = (g', rp) -> rp_Status rp = 202 -> rp_Body rp = BReceipt rc ->
  (forall q, decode_submit (rq_Body r) = Some q -> ~ repeated (se_of e g) (http_envelope e id q) (g_d g) (g_d g') rc) ->
  rq_Method r2 = "GET" -> rq_RawQuery r2 = "" -> (length (own id (d_store (g_d g'))) <= 100)%nat ->
  exists l, messages TextHash UTC ToLower sortSlice url_Parse submit_text e2 id r2 g' = (g', writeJSON 200 (BMessages l))
    /\ Forall (fun m => meta_get (msg_Metadata m) "client_id" = id) l
    /\ exists m, m ∈ l /\ msg_ID m = rc_GatewayID rc /\ msg_State m = "queued".
Proof.
  intros Hwf Hmax Hd Hid Hpost Hst Hrc Hnew Hm Hq Hl. unfold messages, get_messages, intQuery, query_value. rewrite Hm, Hq. cbn [bool_decide].
  rewrite bool_decide_eq_true_2 by done. exists (own id (d_store (g_d g'))).
  split; [|split].
  - by rewrite <- (page_all id _ Hid Hl).
  - apply Forall_forall. intros m H. by apply list_elem_of_filter in H as [? _].
  - destruct (post_cases _ _ _ _ _ _ Hwf Hmax Hd Hpost) as [H _]. unfold post_outcome in H.
    destruct (decode_submit (rq_Body r)) as [q|] eqn:Hq'; [|destruct H; congruence]. case_decide; [|destruct H; congruence].
    destruct (limited e id q g); [by destruct H as [-> _]|].
    destruct (Submit _ _ _ _).2 as [rc'|err]; [|destruct H as [E _]; rewrite Hst in E; by destruct (submit_status_not_202 err)].
    destruct H as [-> H]. injection Hrc as ->. destruct H as [H|(msg & item & H)]; [by destruct (Hnew q eq_refl)|].
    exists msg. split; [|split].
    + apply list_elem_of_filter. split; [by apply (ac_client _ _ _ _ _ _ _ _ H)|].
      pose proof (ac_message _ _ _ _ _ _ _ _ H) as Hg. unfold GetMessage in Hg. apply bind_Some in Hg as (i & _ & Hi). by apply list_elem_of_lookup_2 in Hi.
    + by rewrite (ac_receipt _ _ _ _ _ _ _ _ H).
    + by destruct (ac_queued _ _ _ _ _ _ _ _ H) as [? _].
Qed.
End flow.

(** ** Blocked messages *)

(** A message blocked by a rate limit is stored under the client and the reason
    its sender wrote into the metadata. *)
Theorem blocked_client_spoofed e id from to text reason meta v :
  meta_get (msg_Metadata (blocked_message e id from to text reason (Some (<["client_id" := v]> meta)))) "client_id" = v
  /\ (meta !! "client_id" = None -> meta !! "reason" = None ->
      meta_get (msg_Metadata (blocked_message e id from to text reason (Some meta))) "client_id" = id
      /\ meta_get (msg_Metadata (blocked_message e id from to text reason (Some meta))) "reason" = reason).
Proof.
  unfold blocked_message, meta_get. cbn. split.
  - by rewrite (lookup_union_Some_l _ _ _ v) by apply lookup_insert_eq.
  - intros H1 H2. rewrite !lookup_union_r by done. destruct (decide (id = "")) as [->|Hid].
    + by rewrite bool_decide_eq_false_2 by naive_solver.
    + rewrite bool_decide_eq_true_2 by done. by rewrite lookup_insert_eq, lookup_insert_ne, lookup_singleton_eq.
Qed.

(** ** Configuration *)

Section update.
Context {Location : Type} (UTC : Location) (LoadLocation : string -> option Location).
Context (regexp_Compile : string -> option regex) (ToLower : Z -> Z).
Context (range : list (string * string) -> list (string * string)) (ord : nat -> gmap Z nat -> list (Z * nat)).
Context (config_text : cfg_err -> string).

Abbreviation Gateway := (@Gateway Location).
Abbreviation update := (UpdateConfig UTC LoadLocation regexp_Compile ToLower range ord config_text).
Implicit Types (g : Gateway).

(** Every CDR writer is open once or closed once. *)
Definition writers_ok g : Prop :=
  NoDup (g_closed g ++ option_list (g_cdrWriter g)) /\ Forall (fun n => n < g_nextWriter g)%nat (g_closed g ++ option_list (g_cdrWriter g)).

Lemma writers_ok_swap g w :
  writers_ok g -> w = None \/ w = Some (g_nextWriter g) ->
  let closed := match g_cdrWriter g with Some old => [old] | None => [] end in
  let next := match w with Some n => S n | None => g_nextWriter g end in
  NoDup ((g_closed g ++ closed) ++ option_list w) /\ Forall (fun n => n < next)%nat ((g_closed g ++ closed) ++ option_list w).
Proof.
  intros [Hn Hf] Hw. cbn zeta. assert (match g_cdrWriter g with Some old => [old] | None => [] end = option_list (g_cdrWriter g)) as -> by by destruct (g_cdrWriter g).
  destruct Hw as [-> | ->]; cbn [option_list]; [by rewrite app_nil_r|]. split.
  - apply NoDup_app. split_and!; [done| |apply NoDup_singleton]. intros n Hin ->%list_elem_of_singleton. rewrite Forall_forall in Hf. specialize (Hf _ Hin). cbn in Hf. lia.
  - apply Forall_app. split; [|by constructor; [lia|]]. eapply Forall_impl; [exact Hf|]. cbn. lia.
Qed.

(** C15: UpdateConfig, taken as one step, refuses a configuration and changes
    nothing, or the configuration is valid and the gateway has it as a whole:
    routes, filter, tenants and provider registry are those of the new one,
    messages and rate counters are kept, and the CDR writer it had is closed,
    with every writer opened closed at most once. *)
Theorem update_config_atomic e cfg g g' res :
  (forall l, range l ≡ₚ l) -> writers_ok g -> update e cfg g = (g', res) ->
  match res with
  | Err _ => g' = g
  | Ok _ =>
    config_ok false (fun z => bool_decide (is_Some (LoadLocation z))) (fun s => regexp_Compile s <> None) (Normalize cfg)
    /\ g_cfg g' = Normalize cfg
    /\ d_store (g_d g') = d_store (g_d g) /\ g_risk g' = g_risk g
    /\ (g_dispatching g = true -> g_resolver g' = NewResolver UTC LoadLocation (Normalize cfg))
    /\ (g_dispatching g = true ->
         d_router (g_d g') = Some (NewWithProviders (c_Routes (Normalize cfg)) ((fun p => (pv_Name p, pv_Enabled p)) <$> c_Providers (Normalize cfg)))
         /\ Compile ToLower regexp_Compile ord (c_Filter (Normalize cfg)) = Ok (g_engine g'))
    /\ g_registry g' = Reload (he_now_build e) (Normalize cfg) <$> g_registry g
    /\ (forall w, g_registry g = Some w -> reg_ok w -> exists w', g_registry g' = Some w' /\ reg_ok w')
    /\ writers_ok g' /\ (forall n, g_cdrWriter g = Some n -> n ∈ g_closed g')
  end.
Proof.
  intros Hrange Hw. unfold HttpGw.UpdateConfig. cbn zeta.
  destruct (Validate _ _ _ _) as [[]|err] eqn:Hv; [|by intros [= <- <-]]. unfold Validate in Hv. apply validate_correct in Hv; [|done].
  destruct (Compile _ _ _ _) as [engine|err] eqn:Hc; [|by intros [= <- <-]].
  set (opened := if cd_Enabled _ then _ else _). clearbody opened. destruct opened as [writer|err]; [|by intros [= <- <-]].
  intros [= <- <-]. cbn [g_cfg g_d g_risk g_registry g_engine g_cdrWriter g_closed]. split_and!; try done.
  - by destruct (g_dispatching g).
  - cbn. by intros ->.
  - intros ->. cbn. done.
  - intros w -> Hr. eexists. split; [done|]. apply Reload_ok; [apply (k_provider_names _ _ _ _ Hv)|done].
  - apply (writers_ok_swap g ((fun _ => g_nextWriter g) <$> writer)); [done|]. destruct writer; [by right|by left].
  - intros n ->. apply elem_of_app. right. left.
Qed.
End update.

(** ** Examples *)

Definition quoted (s : string) : string := quote +:+ s +:+ quote.

Definition demo_body : string :=
  "{" +:+ quoted "from" +:+ ":" +:+ quoted "1069" +:+ "," +:+ quoted "to" +:+ ":" +:+ quoted "+8613800138000" +:+ ","
  +:+ quoted "text" +:+ ":" +:+ quoted "hello" +:+ "}".

Definition demo_submission : http_request := demo_post "c1" "tok" demo_body.

Definition demo_post_message : @Gateway unit * http_response :=
  post_message id tt (fun z => z) id (fun _ => Some ("https", "host")) (fun _ => "") demo_http_env "c1" demo_submission demo_gateway.

Lemma demo_posted :
  rp_Status demo_post_message.2 = 202 /\ rp_Body demo_post_message.2 = BReceipt (mkReceipt "m0000001" "" "up" "r" "queued").
Proof. vm_compute. split; reflexivity. Qed.

Lemma demo_gateway_ready :
  wf (d_store (g_d demo_gateway)) /\ 0 < st_maxMessages (d_store (g_d demo_gateway)) /\ g_dispatching demo_gateway = true.
Proof. split_and!; [exact wf_NewMemory|reflexivity..]. Qed.

Lemma http_submit_outcome_witness :
  rp_Status demo_post_message.2 = 202
  /\ exists q rc, decode_submit demo_body = Some q /\ q_To q = "+8613800138000"
     /\ (Submit id (submit_env tt (fun z => z) id demo_http_env demo_gateway) (http_envelope demo_http_env "c1" q) (g_d demo_gateway)).2 = Ok rc.
Proof.
  destruct demo_gateway_ready as (Hwf & Hmax & Hd). split; [exact (proj1 demo_posted)|].
  pose proof (http_submit_outcome id tt (fun z => z) id (fun _ => Some ("https", "host")) (fun _ => "") demo_http_env "c1" demo_submission
    demo_gateway demo_post_message.1 demo_post_message.2 Hwf Hmax Hd (surjective_pairing _)) as [H _].
  destruct (proj1 H (proj1 demo_posted)) as (q & rc & Hq & _ & _ & Hs). exists q, rc. split; [exact Hq|]. split; [|exact Hs].
  assert (q_To <$> decode_submit demo_body = Some "+8613800138000") as E by (vm_compute; reflexivity).
  change (rq_Body demo_submission) with demo_body in Hq. rewrite Hq in E. injection E as E. exact E.
Defined.

Definition demo_list : http_request := mkRequest "GET" "/v1/messages" "" {["X-Client-Id" := "c1"; "X-Token" := "tok"]} "10.0.0.1:5000" "".

Lemma submitted_then_listed_witness :
  exists l m, messages id tt (fun z => z) id (fun _ => Some ("https", "host")) (fun _ => "") demo_http_env "c1" demo_list demo_post_message.1
    = (demo_post_message.1, writeJSON 200 (BMessages l)) /\ m ∈ l /\ msg_ID m = "m0000001".
Proof.
  destruct demo_gateway_ready as (Hwf & Hmax & Hd). destruct demo_posted as [Hs Hb].
  destruct (submitted_then_listed id tt (fun z => z) id (fun _ => Some ("https", "host")) (fun _ => "") demo_http_env demo_http_env "c1"
    demo_submission demo_list demo_gateway demo_post_message.1 demo_post_message.2 (mkReceipt "m0000001" "" "up" "r" "queued")
    Hwf Hmax Hd) as (l & Hl & _ & m & Hm & Hid & _).
  - discriminate.
  - exact (surjective_pairing _).
  - exact Hs.
  - exact Hb.
  - intros q _ [_ _ (rec & Hk & _)].
    assert (st_idempotency (d_store (g_d demo_gateway)) = ∅) as E by reflexivity. rewrite E, lookup_empty in Hk. discriminate.
  - reflexivity.
  - reflexivity.
  - apply (bool_decide_unpack _). vm_compute. exact I.
  - exists l, m. split; [exact Hl|]. split; [exact Hm|exact Hid].
Defined.

Lemma blocked_client_spoofed_witness :
  meta_get (msg_Metadata (blocked_message demo_http_env "c1" "1069" "+8613800138000" "hi" "number_rate_day" (Some ∅))) "client_id" = "c1".
Proof.
  destruct (blocked_client_spoofed demo_http_env "c1" "1069" "+8613800138000" "hi" "number_rate_day" ∅ "c2") as [_ H].
  apply H; reflexivity.
Defined.

Definition demo_update : @Gateway unit * res string unit :=
  UpdateConfig tt (fun _ => Some tt) (fun _ => None) (fun z => z) id (fun _ => map_to_list) (fun _ => "") demo_http_env
    (demo_config [demo_outbound "rule2"]) demo_gateway.

Lemma update_config_atomic_witness :
  demo_update.2 = Ok tt /\ g_cfg demo_update.1 = Normalize (demo_config [demo_outbound "rule2"]) /\ writers_ok demo_update.1.
Proof.
  assert (demo_update.2 = Ok tt) as E by (vm_compute; reflexivity). split; [exact E|].
  pose proof (update_config_atomic tt (fun _ => Some tt) (fun _ => None) (fun z => z) id (fun _ => map_to_list) (fun _ => "") demo_http_env
    (demo_config [demo_outbound "rule2"]) demo_gateway demo_update.1 demo_update.2) as H.
  rewrite E in H. destruct H as (_ & H1 & _ & _ & _ & _ & _ & _ & H2 & _).
  - intros l. reflexivity.
  - split; [apply NoDup_nil_2|apply Forall_nil_2; exact I].
  - unfold demo_update. rewrite <- E. exact (surjective_pairing _).
  - split; [exact H1|exact H2].
Defined.
