(* ===== verification/Bootstrap.v ===== *)
(** * Loading and setting up the configuration: internal/config/config.go (load), bootstrap.go

    Reading the file, the path of a file store, generating the secrets asked for
    on the first start, and writing the file back, over a disk of three names.
    JSON is a parameter, as are the draws of crypto/rand and the failures of file
    operations. *)

From S2P Require Import Prelude Unicode Codec Num GoTime GoParse FilterAC Filter Records Store FileStore Config ConfigValid.

(** ** Standard library: base64.RawURLEncoding and path/filepath *)

Definition base64url_char (v : Z) : Z :=
  if v <? 26 then 65 + v else if v <? 52 then 71 + v else if v <? 62 then v - 4 else if v =? 62 then 45 else 95.

Fixpoint base64url (l : list Z) : list Z :=
  match l with
  | a :: b :: c :: l =>
    base64url_char (a / 4) :: base64url_char ((a mod 4) * 16 + b / 16) :: base64url_char ((b mod 16) * 4 + c / 64)
      :: base64url_char (c mod 64) :: base64url l
  | [a; b] => [base64url_char (a / 4); base64url_char ((a mod 4) * 16 + b / 16); base64url_char ((b mod 16) * 4)]
  | [a] => [base64url_char (a / 4); base64url_char ((a mod 4) * 16)]
  | [] => []
  end.

Definition IsAbs (path : string) : bool := HasPrefix path "/".

(** The elements of a path, last first, after [elems]. *)
Fixpoint clean_elems (rooted : bool) (elems out : list string) : list string :=
  match elems with
  | [] => out
  | e :: elems =>
    if bool_decide (e = "") || bool_decide (e = ".") then clean_elems rooted elems out
    else if bool_decide (e = "..") then
      match out with
      | top :: rest => if bool_decide (top = "..") then clean_elems rooted elems (e :: out) else clean_elems rooted elems rest
      | [] => clean_elems rooted elems (if rooted then [] else [e])
      end
    else clean_elems rooted elems (e :: out)
  end.

Fixpoint join_slash (l : list string) : string :=
  match l with
  | [] => ""
  | [s] => s
  | s :: l => s +:+ "/" +:+ join_slash l
  end.

Definition Clean (path : string) : string :=
  let rooted := IsAbs path in
  let body := join_slash (rev (clean_elems rooted (Split1 path 47) [])) in
  if rooted then "/" +:+ body else if bool_decide (body = "") then "." else body.

(** [filepath.Dir]: what precedes the last slash, with it. *)
Definition Dir (path : string) : string :=
  let name := last (Split1 path 47) in
  Clean (stake (slen path - slen (default "" name)) path).

(** [filepath.Join(dir, name)] of two texts that are not empty. *)
Definition Join2 (dir name : string) : string := Clean (dir +:+ "/" +:+ name).

(** ** Secrets *)

(** A draw of [rand.Read], and the clock for when it fails. *)
Record rand_draw := mkDraw {
  dr_bytes : option (list Z);
  dr_now : time }.

Definition draw_nano (d : rand_draw) : Z := dr_now d - Unix 0.

Definition randomSecret (d : rand_draw) : string :=
  match dr_bytes d with
  | Some b => string_of_bytes (base64url b)
  | None => "mysmpp-" +:+ Itoa (draw_nano d)
  end.

Definition randomSMPPSecret (d : rand_draw) : string :=
  match dr_bytes d with
  | Some b => string_of_bytes (base64url b)
  | None => stake SMPPMaxPassword (pad0 8 (FormatUint (draw_nano d) 16))
  end.

Record Draws := mkDraws {
  dw_admin : rand_draw;
  dw_smpp : rand_draw;
  dw_esme : nat -> rand_draw;
  dw_client : nat -> rand_draw;
  dw_inbound : nat -> rand_draw;
  dw_provider : nat -> rand_draw }.

Definition fill (s new : string) : string := if IsAutoGenerate s then new else s.

Definition fill_esme (w : Draws) (i : nat) (m : ESMECred) : ESMECred :=
  mkESME (em_SystemID m) (fill (em_Password m) (randomSMPPSecret (dw_esme w i))) (em_TenantID m) (em_Enabled m).

Definition fill_client (w : Draws) (i : nat) (c : ClientAuth) : ClientAuth :=
  mkClientAuth (ca_ClientID c) (fill (ca_Token c) (randomSecret (dw_client w i))) (ca_Enabled c) (ca_TenantID c) (ca_AllowedIPs c).

Definition fill_inbound (w : Draws) (i : nat) (r : HTTPRuleConfig) : HTTPRuleConfig :=
  {| hr_Name := hr_Name r; hr_Method := hr_Method r; hr_Path := hr_Path r; hr_Provider := hr_Provider r;
     hr_ContentType := hr_ContentType r; hr_AuthHeader := hr_AuthHeader r;
     hr_AuthToken := fill (hr_AuthToken r) (randomSecret (dw_inbound w i));
     hr_Fields := hr_Fields r; hr_Headers := hr_Headers r; hr_SuccessStatus := hr_SuccessStatus r;
     hr_SuccessBody := hr_SuccessBody r; hr_Response := hr_Response r |}.

Definition fill_provider (w : Draws) (i : nat) (p : ProviderConfig) : ProviderConfig :=
  {| pv_Name := pv_Name p; pv_Protocol := pv_Protocol p; pv_Endpoint := pv_Endpoint p; pv_Rule := pv_Rule p;
     pv_SystemID := pv_SystemID p; pv_Password := fill (pv_Password p) (randomSecret (dw_provider w i));
     pv_Enabled := pv_Enabled p; pv_HTTPTimeoutMS := pv_HTTPTimeoutMS p; pv_RateLimit := pv_RateLimit p; pv_SMPP := pv_SMPP p |}.

Definition fill_secrets (w : Draws) (c : Config) : Config :=
  {| c_Server := c_Server c;
     c_SMPP := let s := c_SMPP c in
       mkSMPPServer (sp_Addr s) (sp_SystemID s) (fill (sp_Password s) (randomSMPPSecret (dw_smpp w))) (sp_SystemType s)
         (sp_MaxSessions s) (sp_MaxSessionsPerSystemID s) (sp_WindowSize s) (sp_EnquirePeriod s);
     c_Dispatcher := c_Dispatcher c; c_Tenants := c_Tenants c; c_ESMEs := imap (fill_esme w) (c_ESMEs c);
     c_Routes := c_Routes c; c_Providers := imap (fill_provider w) (c_Providers c); c_Inbound := imap (fill_inbound w) (c_Inbound c);
     c_Outbound := c_Outbound c; c_Clients := imap (fill_client w) (c_Clients c); c_TrustedProxies := c_TrustedProxies c;
     c_Risk := c_Risk c; c_Filter := c_Filter c; c_CDR := c_CDR c; c_Storage := c_Storage c;
     c_Admin := mkAdmin (ad_Username (c_Admin c)) (fill (ad_Password (c_Admin c)) (randomSecret (dw_admin w))) |}.

(** What credentials.txt lists, in the order it is generated. *)
Definition listed (key old new : string) : list (string * string) := if IsAutoGenerate old then [(key, new)] else [].

Definition generated_list (w : Draws) (c : Config) : list (string * string) :=
  (if IsAutoGenerate (ad_Password (c_Admin c))
   then [("admin.username", ad_Username (c_Admin c)); ("admin.password", randomSecret (dw_admin w))] else [])
  ++ (if IsAutoGenerate (sp_Password (c_SMPP c))
      then [("smpp.system_id", sp_SystemID (c_SMPP c)); ("smpp.password", randomSMPPSecret (dw_smpp w))] else [])
  ++ mjoin (imap (fun i m => listed ("esmes." +:+ em_SystemID m +:+ ".password") (em_Password m) (randomSMPPSecret (dw_esme w i))) (c_ESMEs c))
  ++ mjoin (imap (fun i k => listed ("clients." +:+ ca_ClientID k +:+ ".token") (ca_Token k) (randomSecret (dw_client w i))) (c_Clients c))
  ++ mjoin (imap (fun i r => listed ("inbound." +:+ hr_Name r +:+ ".auth_token") (hr_AuthToken r) (randomSecret (dw_inbound w i))) (c_Inbound c))
  ++ mjoin (imap (fun i p => listed ("providers." +:+ pv_Name p +:+ ".password") (pv_Password p) (randomSecret (dw_provider w i))) (c_Providers c)).

Definition generateStartupSecrets (w : Draws) (c : Config) : Config * gmap string string :=
  (fill_secrets w c, foldl (fun m kv => <[kv.1 := kv.2]> m) ∅ (generated_list w c)).

(** ** Files *)

Definition file_driver (c : Config) : bool := EqualFold (sg_Driver (c_Storage c)) "file" || EqualFold (sg_Driver (c_Storage c)) "json".

Definition set_DSN (dsn : string) (c : Config) : Config :=
  {| c_Server := c_Server c; c_SMPP := c_SMPP c; c_Dispatcher := c_Dispatcher c; c_Tenants := c_Tenants c; c_ESMEs := c_ESMEs c;
     c_Routes := c_Routes c; c_Providers := c_Providers c; c_Inbound := c_Inbound c; c_Outbound := c_Outbound c;
     c_Clients := c_Clients c; c_TrustedProxies := c_TrustedProxies c; c_Risk := c_Risk c; c_Filter := c_Filter c; c_CDR := c_CDR c;
     c_Storage := mkStorage (sg_Driver (c_Storage c)) dsn; c_Admin := c_Admin c |}.

Definition resolveStoragePath (configPath : string) (c : Config) : Config :=
  if negb (file_driver c) then c
  else if bool_decide (sg_DSN (c_Storage c) = "") then set_DSN (Join2 (Dir configPath) "store.json") c
  else if IsAbs (sg_DSN (c_Storage c)) then c
  else set_DSN (Join2 (Dir configPath) (sg_DSN (c_Storage c))) c.

Inductive load_err :=
| LoadRead
| LoadParse
| LoadValidate (e : cfg_err).

Inductive boot_err :=
| BootRead
| BootSeed
| BootLoad (e : load_err)
| BootValidate (e : cfg_err)
| BootWrite
| BootCredentials.

Record BootstrapResult := mkBoot {
  br_Seeded : bool;
  br_Generated : bool;
  br_Credentials : gmap string string }.

Section files.
Context {content : Type} (empty : content).
(** [json.MarshalIndent] with its newline, and [json.Unmarshal] over a value. *)
Context (marshal : Config -> content) (unmarshal : Config -> content -> option Config).
(** The validation of a configuration, under [allowAutoGenerate]. *)
Context (valid : Config -> bool -> check).

Definition write_ops (data : content) (d : disk content) : list disk_op :=
  [MkdirAll; CreateTemp; WriteTemp data; ChmodTemp; SyncTemp; CloseTemp]
  ++ (match d_path d with Some _ => [RemoveBak; RenamePathToBak] | None => [] end)
  ++ [RenameTmpToPath].

Definition write_after (k : nat) (data : content) (d : disk content) : disk content :=
  foldl (fun d o => disk_step empty o d) d (take k (write_ops data d)).

(** [AtomicWriteFile] on the file; [fails] are the file operations that fail. *)
Definition AtomicWriteFile (path : string) (data : content) (fails : list nat) (d : disk content) : disk content * bool :=
  if bool_decide (path = "") then (d, true) else run_ops empty fails 0 (write_ops data d) d.

Definition AtomicWrite (path : string) (c : Config) (fails : list nat) (d : disk content) : disk content * bool :=
  AtomicWriteFile path (marshal c) fails d.

Definition checked (c : Config) (auto : bool) : res load_err Config :=
  match valid c auto with Ok _ => Ok c | Err e => Err (LoadValidate e) end.

Definition config_load (path : string) (auto : bool) (d : disk content) : res load_err Config :=
  if bool_decide (path = "") then checked (Normalize Default) auto
  else
    match d_path d with
    | None => Err LoadRead
    | Some data =>
      match unmarshal Default data with
      | None => Err LoadParse
      | Some c => checked (resolveStoragePath path (Normalize c)) auto
      end
    end.

(** The zero configuration a seed is tried on. *)
Context (zero : Config).

(** What a start meets: an error of [os.Stat] other than a missing file, the seed
    file, failures of file operations, and the draws. *)
Record BootEnv := mkBootEnv {
  be_stat_fails : bool;
  be_seed : option content;
  be_seed_mkdir : bool;
  be_seed_write : bool;
  be_draws : Draws;
  be_write_fail : list nat;
  be_credentials : bool }.

Definition copySeedConfig (e : BootEnv) (d : disk content) : disk content * bool :=
  match be_seed e with
  | None => (d, false)
  | Some data =>
    match unmarshal zero data with
    | None => (d, false)
    | Some _ =>
      if be_seed_mkdir e then
        if be_seed_write e then (mkDisk (Some data) (d_bak d) (d_tmp d), true) else (d, false)
      else (d, false)
    end
  end.

(** The file is there, or is made from the seed. *)
Definition boot_seed (path seedPath : string) (e : BootEnv) (d : disk content) : disk content * res boot_err bool :=
  if bool_decide (path = "") then (d, Ok false)
  else if be_stat_fails e then (d, Err BootRead)
  else
    match d_path d with
    | Some _ => (d, Ok false)
    | None =>
      if bool_decide (seedPath = "") then (d, Err BootRead)
      else let '(d, ok) := copySeedConfig e d in (d, if ok then Ok true else Err BootSeed)
    end.

Definition boot_generate (path : string) (e : BootEnv) (seeded : bool) (c : Config) (d : disk content) : disk content * res boot_err (Config * BootstrapResult) :=
  let '(c, generated) := generateStartupSecrets (be_draws e) c in
  if bool_decide (generated = ∅) then (d, Ok (c, mkBoot seeded false ∅))
  else
    let c := Normalize c in
    match valid c false with
    | Err err => (d, Err (BootValidate err))
    | Ok _ =>
      let '(d, written) := AtomicWrite path c (be_write_fail e) d in
      if written then
        if be_credentials e then (d, Ok (c, mkBoot seeded true generated)) else (d, Err BootCredentials)
      else (d, Err BootWrite)
    end.

Definition LoadStartup (path seedPath : string) (e : BootEnv) (d : disk content) : disk content * res boot_err (Config * BootstrapResult) :=
  match boot_seed path seedPath e d with
  | (d, Err err) => (d, Err err)
  | (d, Ok seeded) =>
    match config_load path true d with
    | Err err => (d, Err (BootLoad err))
    | Ok c => boot_generate path e seeded c d
    end
  end.
End files.
