(* ===== verification/BootstrapOk.v ===== *)
(** * Starting up: what the configuration is after the first start, and after the next

    Which configurations the generation of secrets completes to valid ones, what
    the first start writes and the second reads, and where the path of a file
    store and a crash while writing go wrong. *)

From S2P Require Import Prelude Unicode Codec Num GoTime GoParse FilterAC Filter Records Store FileStore.
From S2P Require Import Config ConfigValid ConfigOk ConfigWhole Bootstrap.

(** ** Secrets *)

Definition draw_ok (n : nat) (d : rand_draw) : Prop := forall b, dr_bytes d = Some b -> length b = n.

Record draws_ok (w : Draws) : Prop := {
  wo_admin : draw_ok 24 (dw_admin w);
  wo_smpp : draw_ok 6 (dw_smpp w);
  wo_esme : forall i, draw_ok 6 (dw_esme w i);
  wo_client : forall i, draw_ok 24 (dw_client w i);
  wo_inbound : forall i, draw_ok 24 (dw_inbound w i);
  wo_provider : forall i, draw_ok 24 (dw_provider w i) /\ dr_bytes (dw_provider w i) <> None }.

Lemma base64url_length n l : length l = (3 * n)%nat -> length (base64url l) = (4 * n)%nat.
Proof.
  revert l. induction n as [|n IH]; intros l Hl; [by destruct l|].
  destruct l as [|a [|b [|c l]]]; cbn [length] in Hl; try lia. cbn [base64url length]. rewrite IH; lia.
Qed.

(** A text no configuration file can hold as a request or a placeholder. *)
Definition real_secret (s : string) : Prop := s <> AutoGenerateSecret /\ s <> PlaceholderSecret /\ s <> "".

Lemma long_secret s : slen s = 32%nat \/ slen s = 8%nat -> real_secret s.
Proof. intros H. split_and!; intros ->; cbn in H; lia. Qed.

Lemma randomSecret_ok d : draw_ok 24 d -> real_secret (randomSecret d) /\ (dr_bytes d <> None -> slen (randomSecret d) = 32%nat).
Proof.
  intros Hd. unfold randomSecret, draw_ok in *. destruct (dr_bytes d) as [b|]; [|by split].
  assert (slen (string_of_bytes (base64url b)) = 32%nat) as E.
  { rewrite slen_string_of_bytes. apply (base64url_length 8). rewrite (Hd b eq_refl). done. }
  split; [|done]. apply long_secret. by left.
Qed.

Lemma randomSMPPSecret_ok d : draw_ok 6 d -> real_secret (randomSMPPSecret d) /\ slen (randomSMPPSecret d) = 8%nat.
Proof.
  intros Hd. assert (slen (randomSMPPSecret d) = 8%nat) as E; [|split; [apply long_secret; by right|done]].
  unfold randomSMPPSecret, draw_ok in *. destruct (dr_bytes d) as [b|].
  - rewrite slen_string_of_bytes. apply (base64url_length 2). by rewrite (Hd b eq_refl).
  - apply slen_stake. rewrite slen_pad0. unfold SMPPMaxPassword. lia.
Qed.

Lemma fill_real s new : real_secret new -> s <> PlaceholderSecret -> fill s new <> AutoGenerateSecret /\ fill s new <> PlaceholderSecret.
Proof. intros (H1 & H2 & _) Hs. unfold fill, IsAutoGenerate. by case_bool_decide. Qed.

Lemma fill_nonempty s new : real_secret new -> s <> "" -> fill s new <> "".
Proof. intros (_ & _ & H) Hs. unfold fill. by destruct (IsAutoGenerate s). Qed.

Lemma fill_secret_ok s new : real_secret new -> secret_ok true s -> secret_ok false (fill s new).
Proof. intros Hn [Hs _]. destruct (fill_real s new Hn Hs). by split. Qed.

Lemma fill_fits s new : slen new = 8%nat -> fits true SMPPMaxPassword s -> fits false SMPPMaxPassword (fill s new).
Proof.
  intros Hn Hs. left. unfold fill, IsAutoGenerate. case_bool_decide as E; [by rewrite Hn|]. by destruct Hs as [Hs|[_ Hs]].
Qed.

Lemma fits_given max s : (max < 26)%nat -> fits true max s -> fits false max s <-> s <> AutoGenerateSecret.
Proof.
  intros Hm [H|[_ ->]].
  - split; [intros _ ->; cbn in H; lia|by left].
  - split; [|done]. intros [H'|[H' _]]; [cbn in H'; lia|done].
Qed.

(** ** Which configurations the secrets complete *)

(** Nothing is to be generated where nothing is: identifiers, and the passwords
    of SMPP providers, which are too short for a generated one. *)
Record ids_given (c : Config) : Prop := {
  ig_smpp : sp_SystemID (c_SMPP c) <> AutoGenerateSecret /\ sp_SystemType (c_SMPP c) <> AutoGenerateSecret;
  ig_esmes : Forall (fun m => em_SystemID m <> AutoGenerateSecret) (c_ESMEs c);
  ig_providers : Forall (fun p => forall o, pv_SMPP p = Some o ->
    pv_SystemID p <> AutoGenerateSecret /\ pv_Password p <> AutoGenerateSecret /\ sc_SystemType o <> AutoGenerateSecret) (c_Providers c) }.

Lemma secrets_filled w c :
  draws_ok w -> secrets_ok true (c_Admin c) (c_SMPP c) ->
  secrets_ok false (c_Admin (fill_secrets w c)) (c_SMPP (fill_secrets w c))
  <-> sp_SystemID (c_SMPP c) <> AutoGenerateSecret /\ sp_SystemType (c_SMPP c) <> AutoGenerateSecret.
Proof.
  intros Hw [Hu [Hp Hp'] Hs (Hf1 & Hf2 & Hf3)]. pose proof (randomSecret_ok _ (wo_admin _ Hw)) as [Ha _].
  pose proof (randomSMPPSecret_ok _ (wo_smpp _ Hw)) as [Hr Hl].
  pose proof (fits_given SMPPMaxSystemID _ ltac:(unfold SMPPMaxSystemID; lia) Hf1) as E1.
  pose proof (fits_given SMPPMaxSystemType _ ltac:(unfold SMPPMaxSystemType; lia) Hf3) as E3. rewrite <- E1, <- E3. split.
  - intros [_ _ _ (H1 & _ & H3)]. done.
  - intros [H1 H3]. split; cbn; [done| | |split_and!; [done|by apply fill_fits|done]].
    + split; [by apply fill_nonempty|by apply fill_secret_ok].
    + by apply fill_secret_ok.
Qed.

Lemma esme_filled w i tenants m :
  draws_ok w -> esme_ok true tenants m -> esme_ok false tenants (fill_esme w i m) <-> em_SystemID m <> AutoGenerateSecret.
Proof.
  intros Hw [[Hi Hf] (Hp & Hs & Hf') Ht]. pose proof (randomSMPPSecret_ok _ (wo_esme _ Hw i)) as [Hr Hl].
  rewrite <- (fits_given SMPPMaxSystemID _ ltac:(unfold SMPPMaxSystemID; lia) Hf). split.
  - by intros [[_ H] _ _].
  - intros H. split; cbn; [done| |done]. split_and!; [by apply fill_nonempty|by apply fill_secret_ok|by apply fill_fits].
Qed.

Lemma client_filled w i tenants k : draws_ok w -> client_ok true tenants k -> client_ok false tenants (fill_client w i k).
Proof.
  intros Hw [Hi [He Hs] Ht]. pose proof (randomSecret_ok _ (wo_client _ Hw i)) as [Hr _].
  split; cbn; [done| |done]. split; [intros H; apply fill_nonempty; auto|by apply fill_secret_ok].
Qed.

Lemma inbound_filled w i providers r : draws_ok w -> inbound_ok true providers r -> inbound_ok false providers (fill_inbound w i r).
Proof.
  intros Hw [H1 H2 (H3 & H4 & _) H5]. pose proof (randomSecret_ok _ (wo_inbound _ Hw i)) as [Hr _].
  split; cbn; [done|done| |done]. split_and!; [done|by apply fill_nonempty|]. intros _. unfold fill, IsAutoGenerate. case_bool_decide; [apply Hr|done].
Qed.

Lemma provider_filled w i p :
  draws_ok w -> provider_ok true p ->
  provider_ok false (fill_provider w i p) <-> forall o, pv_SMPP p = Some o ->
    pv_SystemID p <> AutoGenerateSecret /\ pv_Password p <> AutoGenerateSecret /\ sc_SystemType o <> AutoGenerateSecret.
Proof.
  intros Hw [H1 H2 H3 _ H5]. destruct (wo_provider _ Hw i) as [Hd Hb]. destruct (randomSecret_ok _ Hd) as [Hr Hl]. specialize (Hl Hb).
  assert (fill (pv_Password p) (randomSecret (dw_provider w i)) <> AutoGenerateSecret) as Hfill.
  { unfold fill, IsAutoGenerate. case_bool_decide; [apply Hr|done]. }
  assert (provider_ok false (fill_provider w i p) <-> protocol_ok false (fill_provider w i p)) as ->.
  { split; [by intros []|]. intros H. by split. }
  unfold protocol_ok in *. cbn [fill_provider pv_SMPP pv_Rule]. change (protocol_is (fill_provider w i p)) with (protocol_is p).
  destruct (protocol_is p "" || protocol_is p "mock"); [rewrite H5; by split|].
  destruct (protocol_is p "http" || protocol_is p "https"); [rewrite (proj1 H5); split; [done|]; intros _; split; [done|apply H5]|].
  destruct H5 as (Hp & o & Ho & [Q1 Q2 (Q3 & Q4 & Q5) (Q6 & Q7 & Q8) Q9]). rewrite Ho.
  pose proof (fits_given SMPPMaxSystemID _ ltac:(unfold SMPPMaxSystemID; lia) Q6) as E6.
  pose proof (fits_given SMPPMaxSystemType _ ltac:(unfold SMPPMaxSystemType; lia) Q8) as E8. split.
  - intros (_ & o' & [= <-] & [_ _ _ (F1 & F2 & F3) _]) o2 [= <-]. cbn in F1, F2. split_and!; [by apply E6| |by apply E8].
    intros E. unfold fill, IsAutoGenerate in F2. rewrite (bool_decide_eq_true_2 _ E) in F2.
    destruct F2 as [F2|[F2 _]]; [rewrite Hl in F2; unfold SMPPMaxPassword in F2; lia|done].
  - intros H. destruct (H o eq_refl) as (G1 & G2 & G3). split; [done|]. exists o. split; [done|].
    assert (fill (pv_Password p) (randomSecret (dw_provider w i)) = pv_Password p) as Ef.
    { unfold fill, IsAutoGenerate. by rewrite bool_decide_eq_false_2. }
    split; cbn; rewrite ?Ef; try done. split_and!; [by apply E6| |by apply E8]. destruct Q7 as [Q7|[_ Q7]]; [by left|done].
Qed.

Lemma imap_fmap_id {A B} (f : nat -> A -> A) (g : A -> B) l : (forall i x, g (f i x) = g x) -> g <$> imap f l = g <$> l.
Proof. intros H. rewrite fmap_imap, <- (imap_const g l). apply imap_ext. intros i x _. apply H. Qed.

Lemma Forall_imap_each {A} (P Q : A -> Prop) (f : nat -> A -> A) l :
  Forall P l -> (forall i x, P x -> Q (f i x)) -> Forall Q (imap f l).
Proof. intros Hl Hf. apply Forall_lookup. intros i y. rewrite list_lookup_imap_Some. intros (x & Hx & ->). apply Hf. by eapply Forall_lookup in Hl. Qed.

Lemma Forall_imap_iff {A} (P Q R : A -> Prop) (f : nat -> A -> A) l :
  Forall P l -> (forall i x, P x -> Q (f i x) <-> R x) -> Forall Q (imap f l) <-> Forall R l.
Proof.
  intros Hl Hf. split; intros H; apply Forall_lookup; intros i y.
  - intros Hy. apply (Hf i); [by eapply Forall_lookup in Hl|]. eapply Forall_lookup_1; [exact H|]. by rewrite list_lookup_imap, Hy.
  - rewrite list_lookup_imap_Some. intros (x & Hx & ->). apply Hf; [by eapply Forall_lookup in Hl|]. by eapply Forall_lookup_1 in Hx.
Qed.

(** The generation completes a configuration exactly when it asks only for
    secrets that are generated at a fitting length. *)
Lemma secrets_complete zone compiles w c :
  draws_ok w -> config_ok true zone compiles c -> config_ok false zone compiles (fill_secrets w c) <-> ids_given c.
Proof.
  intros Hw Hc.
  assert (pv_Name <$> imap (fill_provider w) (c_Providers c) = pv_Name <$> c_Providers c) as En by by apply imap_fmap_id.
  assert (em_SystemID <$> imap (fill_esme w) (c_ESMEs c) = em_SystemID <$> c_ESMEs c) as Ee by by apply imap_fmap_id.
  assert (ca_ClientID <$> imap (fill_client w) (c_Clients c) = ca_ClientID <$> c_Clients c) as Ec by by apply imap_fmap_id.
  pose proof (secrets_filled w c Hw (k_secrets _ _ _ _ Hc)) as Is.
  pose proof (Forall_imap_iff _ _ _ (fill_esme w) _ (k_esmes _ _ _ _ Hc) (fun i m => esme_filled w i _ m Hw)) as Ie.
  pose proof (Forall_imap_iff _ _ _ (fill_provider w) _ (k_providers _ _ _ _ Hc) (fun i p => provider_filled w i p Hw)) as Ip. split.
  - intros H. split; [apply Is, H|apply Ie, H|apply Ip, H].
  - intros [H1 H2 H3]. destruct Hc. apply Is in H1. apply Ie in H2. apply Ip in H3.
    split; cbn [fill_secrets c_Storage c_Admin c_SMPP c_Server c_Dispatcher c_TrustedProxies c_Providers c_Routes c_Filter c_CDR c_Tenants c_ESMEs c_Clients c_Inbound c_Outbound] in *;
      rewrite ?En, ?Ee, ?Ec; try done.
    + destruct k_enabled as [->|k_enabled]; [by left|right]. apply Exists_exists in k_enabled as (p & Hp & Hen).
      apply list_elem_of_lookup in Hp as [i Hp]. apply Exists_exists. exists (fill_provider w i p). split; [|done].
      apply list_elem_of_lookup. exists i. by rewrite list_lookup_imap, Hp.
    + eapply Forall_imap_each; [exact k_clients|]. intros i k Hk. by apply client_filled.
    + eapply Forall_imap_each; [exact k_inbound|]. intros i r Hr. by apply inbound_filled.
Qed.

(** ** Normal configurations *)

Lemma imap_fmap_comm {A} (f : nat -> A -> A) (g : A -> A) l : (forall i x, g (f i x) = f i (g x)) -> g <$> imap f l = imap f (g <$> l).
Proof. intros H. rewrite fmap_imap, imap_fmap. apply imap_ext. intros i x _. apply H. Qed.

Lemma Normalize_fill w c : Normalize (fill_secrets w c) = fill_secrets w (Normalize c).
Proof.
  unfold Normalize, fill_secrets. cbn. f_equal; by apply imap_fmap_comm.
Qed.

Lemma Normalize_DSN dsn c : Normalize (set_DSN dsn c) = set_DSN dsn (Normalize c).
Proof. done. Qed.

Lemma Normalize_resolve path c : Normalize c = c -> Normalize (resolveStoragePath path c) = resolveStoragePath path c.
Proof.
  intros H. unfold resolveStoragePath. destruct (negb (file_driver c)); [done|].
  destruct (bool_decide _); [by rewrite Normalize_DSN, H|]. destruct (IsAbs _); [done|]. by rewrite Normalize_DSN, H.
Qed.

(** The path of a store that is absolute, or of no file store. *)
Definition settled (c : Config) : Prop := file_driver c = false \/ sg_DSN (c_Storage c) <> "" /\ IsAbs (sg_DSN (c_Storage c)) = true.

Lemma resolve_settled path c : settled c -> resolveStoragePath path c = c.
Proof.
  unfold resolveStoragePath. intros [->|[H ->]]; [done|]. destruct (negb (file_driver c)); [done|]. by rewrite bool_decide_eq_false_2.
Qed.

Lemma Clean_abs p : IsAbs p = true -> IsAbs (Clean p) = true.
Proof. unfold Clean. intros ->. by apply HasPrefix_spec; eauto. Qed.

Lemma IsAbs_spec p : IsAbs p = true <-> exists s, p = "/" +:+ s.
Proof. apply HasPrefix_spec. Qed.

Lemma resolve_absolute path c : IsAbs (Dir path) = true -> settled (resolveStoragePath path c).
Proof.
  intros Hp. apply IsAbs_spec in Hp as [s Hs].
  assert (forall name, IsAbs (Join2 (Dir path) name) = true) as Hj.
  { intros name. unfold Join2. apply Clean_abs, IsAbs_spec. rewrite Hs. by eexists. }
  assert (forall s, IsAbs s = true -> s <> "") as Hne by (intros ? H ->; done).
  unfold resolveStoragePath. destruct (file_driver c) eqn:E; cbn [negb]; [|by left].
  destruct (bool_decide (sg_DSN (c_Storage c) = "")).
  { right. split; [apply Hne, Hj|apply Hj]. }
  destruct (IsAbs (sg_DSN (c_Storage c))) eqn:Ea; right; (split; [apply Hne|]); first [exact Ea|apply Hj].
Qed.

(** ** Configurations with all their secrets *)

Lemma fits_weaken max s : fits false max s -> fits true max s.
Proof. intros [H|[? _]]; [by left|done]. Qed.

Lemma secret_weaken s : secret_ok false s -> secret_ok true s.
Proof. intros [H _]. by split. Qed.

Lemma protocol_weaken p : protocol_ok false p -> protocol_ok true p.
Proof.
  unfold protocol_ok. destruct (_ || _); [done|]. destruct (_ || _); [done|].
  intros (Hp & o & Ho & [Q1 Q2 Q3 (Q4 & Q5 & Q6) Q7]). split; [done|]. exists o. split; [done|].
  split; try done. split_and!; by apply fits_weaken.
Qed.

Lemma config_weaken zone compiles c : config_ok false zone compiles c -> config_ok true zone compiles c.
Proof.
  intros []. split; try done.
  - destruct k_secrets as [H1 [H2 H3] H4 (H5 & H6 & H7)]. split; [done| |by apply secret_weaken|split_and!; by apply fits_weaken].
    split; [done|by apply secret_weaken].
  - eapply Forall_impl; [exact k_providers|]. intros p [H1 H2 H3 H4 H5]. split; try done. by apply protocol_weaken.
  - eapply Forall_impl; [exact k_esmes|]. intros m [[H1 H2] (H3 & H4 & H5) H6]. split; try done; split_and!; try done; by first [apply fits_weaken|apply secret_weaken].
  - eapply Forall_impl; [exact k_clients|]. intros k [H1 [H2 H3] H4]. split; try done. split; [done|by apply secret_weaken].
  - eapply Forall_impl; [exact k_inbound|]. intros r [H1 H2 (H3 & H4 & H5) H6]. by split.
Qed.

Lemma fill_none s new : s <> AutoGenerateSecret -> fill s new = s.
Proof. intros H. unfold fill, IsAutoGenerate. by rewrite bool_decide_eq_false_2. Qed.

Lemma listed_none key s new : s <> AutoGenerateSecret -> listed key s new = [].
Proof. intros H. unfold listed, IsAutoGenerate. by rewrite bool_decide_eq_false_2. Qed.

Lemma imap_id {A} (f : nat -> A -> A) l : Forall (fun x => forall i, f i x = x) l -> imap f l = l.
Proof.
  intros H. rewrite <- (imap_const id l) at 2 || rewrite <- (list_fmap_id l) at 2. rewrite <- imap_const. apply imap_ext.
  intros i x Hx. by eapply Forall_lookup in H.
Qed.

Lemma mjoin_imap_nil {A B} (f : nat -> A -> list B) l : Forall (fun x => forall i, f i x = []) l -> mjoin (imap f l) = [].
Proof.
  intros H. revert f H. induction l as [|x l IH]; intros f H; [done|]. apply Forall_cons in H as [Hx H]. cbn. rewrite Hx. cbn.
  apply IH. eapply Forall_impl; [exact H|]. intros y Hy i. apply Hy.
Qed.

(** A valid configuration has nothing left to generate. *)
Lemma nothing_generated zone compiles w c : config_ok false zone compiles c -> generated_list w c = [] /\ fill_secrets w c = c.
Proof.
  intros [].
  assert (ad_Password (c_Admin c) <> AutoGenerateSecret) as Ha by by destruct k_secrets as [_ [_ [_ H]] _ _]; apply H.
  assert (sp_Password (c_SMPP c) <> AutoGenerateSecret) as Hs by by destruct k_secrets as [_ _ [_ H] _]; apply H.
  assert (Forall (fun m => em_Password m <> AutoGenerateSecret) (c_ESMEs c)) as He
    by (eapply Forall_impl; [exact k_esmes|]; intros m [_ (_ & [_ H] & _) _]; by apply H).
  assert (Forall (fun k => ca_Token k <> AutoGenerateSecret) (c_Clients c)) as Hk
    by (eapply Forall_impl; [exact k_clients|]; intros m [_ [_ [_ H]] _]; by apply H).
  assert (Forall (fun r => hr_AuthToken r <> AutoGenerateSecret) (c_Inbound c)) as Hi
    by (eapply Forall_impl; [exact k_inbound|]; intros m [_ _ (_ & _ & H) _]; by apply H).
  assert (Forall (fun p => pv_Password p <> AutoGenerateSecret) (c_Providers c)) as Hp
    by (eapply Forall_impl; [exact k_providers|]; intros m [_ _ _ H _]; by apply H).
  split.
  - unfold generated_list, IsAutoGenerate. rewrite (bool_decide_eq_false_2 _ Ha), (bool_decide_eq_false_2 _ Hs).
    rewrite !mjoin_imap_nil; [done|..]; (eapply Forall_impl; [eassumption|]); intros x Hx i; by apply listed_none.
  - unfold fill_secrets. rewrite (fill_none _ _ Ha), (fill_none _ _ Hs). rewrite !imap_id.
    + destruct c as [? [] ? ? ? ? ? ? ? ? ? ? ? ? ? []]. done.
    + eapply Forall_impl; [exact Hk|]. intros x Hx i. unfold fill_client. rewrite fill_none by done. by destruct x.
    + eapply Forall_impl; [exact Hi|]. intros x Hx i. unfold fill_inbound. rewrite fill_none by done. by destruct x.
    + eapply Forall_impl; [exact Hp|]. intros x Hx i. unfold fill_provider. rewrite fill_none by done. by destruct x.
    + eapply Forall_impl; [exact He|]. intros x Hx i. unfold fill_esme. rewrite fill_none by done. by destruct x.
Qed.

(** ** Starting *)

Lemma foldl_insert_empty (l : list (string * string)) : foldl (fun m kv => <[kv.1 := kv.2]> m) (∅ : gmap string string) l = ∅ <-> l = [].
Proof.
  split; [|by intros ->]. destruct l as [|kv l] using rev_ind; [done|]. rewrite foldl_app. cbn. intros H. by apply insert_non_empty in H.
Qed.

Section startup.
Context {content : Type} (empty : content).
Context (marshal : Config -> content) (unmarshal : Config -> content -> option Config) (zero : Config).
Context (LoadLocation : string -> bool) (regexp_Compile : string -> option regex).
Context (range : list (string * string) -> list (string * string)).

Abbreviation valid := (validate LoadLocation regexp_Compile range).
Abbreviation start := (LoadStartup empty marshal unmarshal valid zero).
Abbreviation okay auto := (config_ok auto LoadLocation (fun s => regexp_Compile s <> None)).

Lemma write_ops_fold data d :
  foldl (fun d o => disk_step empty o d) d (write_ops data d) = mkDisk (Some data) (match d_path d with Some old => Some old | None => d_bak d end) None.
Proof. unfold write_ops. by destruct d as [[p|] b t]. Qed.

(** Every file operation succeeds. *)
Definition files_fine (e : @BootEnv content) : Prop := be_stat_fails e = false /\ be_write_fail e = [] /\ be_credentials e = true.

Lemma start_generate path e c d :
  (forall l, range l ≡ₚ l) -> path <> "" -> files_fine e -> draws_ok (be_draws e) -> Normalize c = c -> okay true c ->
  let c' := fill_secrets (be_draws e) c in
  let '(d', r) := boot_generate empty marshal valid path e false c d in
  if bool_decide (generated_list (be_draws e) c = []) then d' = d /\ r = Ok (c', mkBoot false false ∅)
  else if bool_decide (valid c' false = Ok tt)
  then d_path d' = Some (marshal c') /\ d_bak d' = (match d_path d with Some old => Some old | None => d_bak d end)
    /\ exists creds, r = Ok (c', mkBoot false true creds)
  else d' = d /\ exists err, r = Err (BootValidate err).
Proof.
  intros Hrange Hp (_ & Hwf & Hcr) Hw Hn Hok. cbn zeta. unfold boot_generate, generateStartupSecrets.
  assert (bool_decide (foldl (fun m kv => <[kv.1 := kv.2]> m) (∅ : gmap string string) (generated_list (be_draws e) c) = ∅) = bool_decide (generated_list (be_draws e) c = [])) as ->
    by apply bool_decide_ext, foldl_insert_empty.
  destruct (bool_decide (generated_list (be_draws e) c = [])); [done|]. rewrite Normalize_fill, Hn.
  destruct (valid (fill_secrets (be_draws e) c) false) as [[]|err]; cbn; [|split; [done|by exists err]].
  unfold AtomicWrite, AtomicWriteFile. rewrite bool_decide_eq_false_2, Hwf, run_ops_fine, write_ops_fold, Hcr by done. cbn. by split_and!; [..|eexists].
Qed.
Lemma boot_seed_found path seedPath e d data :
  path <> "" -> be_stat_fails e = false -> d_path d = Some data -> boot_seed unmarshal zero path seedPath e d = (d, Ok false).
Proof. intros Hp Hs Hd. unfold boot_seed. by rewrite bool_decide_eq_false_2, Hs, Hd. Qed.

Lemma load_found path auto d data c0 :
  (forall l, range l ≡ₚ l) -> path <> "" -> d_path d = Some data -> unmarshal Default data = Some c0 ->
  okay auto (resolveStoragePath path (Normalize c0)) ->
  config_load unmarshal valid path auto d = Ok (resolveStoragePath path (Normalize c0)).
Proof.
  intros Hr Hp Hd Hu Hok. unfold config_load, checked. rewrite bool_decide_eq_false_2, Hd, Hu by done.
  apply (validate_correct LoadLocation regexp_Compile range _ auto Hr) in Hok. by rewrite Hok.
Qed.

(** C38: Starting on a configuration that asks for secrets: every secret asked for
    is generated; when the identifiers are given and no SMPP provider asks for
    its password the result is valid and is written, with the old file kept as
    the backup; otherwise the start fails and the disk is as before. When
    nothing is asked for nothing is written. *)
Theorem first_start path seedPath e d data c0 :
  (forall l, range l ≡ₚ l) -> path <> "" -> files_fine e -> draws_ok (be_draws e) ->
  d_path d = Some data -> unmarshal Default data = Some c0 ->
  let c := resolveStoragePath path (Normalize c0) in
  okay true c ->
  let c' := fill_secrets (be_draws e) c in
  let '(d', r) := start path seedPath e d in
  (okay false c' <-> ids_given c)
  /\ if bool_decide (generated_list (be_draws e) c = []) then d' = d /\ r = Ok (c', mkBoot false false ∅)
     else (ids_given c -> d_path d' = Some (marshal c') /\ d_bak d' = Some data /\ exists creds, r = Ok (c', mkBoot false true creds))
       /\ (~ ids_given c -> d' = d /\ exists err, r = Err (BootValidate err)).
Proof.
  intros Hr Hp Hf Hw Hd Hu c Hok c'. unfold LoadStartup. rewrite (boot_seed_found _ _ _ _ data) by (done || apply Hf).
  rewrite (load_found path true d data c0) by done. fold c.
  pose proof (start_generate path e c d Hr Hp Hf Hw (Normalize_resolve _ _ (normalize_idempotent c0)) Hok) as H. cbn zeta in H. fold c' in H.
  destruct (boot_generate empty marshal valid path e false c d) as [d' r]. pose proof (secrets_complete _ _ _ c Hw Hok) as Hc. fold c' in Hc.
  split; [done|]. destruct (bool_decide (generated_list _ c = [])); [done|].
  pose proof (validate_correct LoadLocation regexp_Compile range c' false Hr) as Hv. rewrite Hd in H. split; intros Hi.
  - rewrite (bool_decide_eq_true_2 (valid c' false = Ok tt)) in H by by apply Hv, Hc. done.
  - rewrite (bool_decide_eq_false_2 (valid c' false = Ok tt)) in H by by intros E; apply Hi, Hc, Hv. done.
Qed.

(** The start after one that generated secrets gives the same configuration,
    generates nothing and writes nothing, when the path is absolute and the
    written text reads back. *)
Theorem second_start_same path seedPath e d data c0 d1 c1 creds :
  (forall l, range l ≡ₚ l) -> path <> "" -> files_fine e -> draws_ok (be_draws e) ->
  d_path d = Some data -> unmarshal Default data = Some c0 ->
  okay true (resolveStoragePath path (Normalize c0)) ->
  start path seedPath e d = (d1, Ok (c1, mkBoot false true creds)) ->
  unmarshal Default (marshal c1) = Some c1 -> IsAbs (Dir path) = true ->
  forall seedPath2 e2, files_fine e2 ->
  start path seedPath2 e2 d1 = (d1, Ok (c1, mkBoot false false ∅)) /\ okay false c1.
Proof.
  intros Hr Hp Hf Hw Hd Hu Hok Hs1 Hrt Habs seedPath2 e2 Hf2. set (c := resolveStoragePath path (Normalize c0)) in *.
  pose proof (Normalize_resolve path _ (normalize_idempotent c0)) as Hn. fold c in Hn.
  unfold LoadStartup in Hs1. rewrite (boot_seed_found _ _ _ _ data) in Hs1 by (done || apply Hf).
  rewrite (load_found path true d data c0) in Hs1 by done. fold c in Hs1.
  pose proof (start_generate path e c d Hr Hp Hf Hw Hn Hok) as H. cbn zeta in H. rewrite Hs1 in H.
  destruct (bool_decide (generated_list _ c = [])); [by destruct H as [_ H]|].
  destruct (bool_decide_reflect (valid (fill_secrets (be_draws e) c) false = Ok tt)) as [Hv|]; [|by destruct H as [_ [? ?]]].
  destruct H as (Hd1 & _ & creds' & [= -> ->]).
  apply (validate_correct LoadLocation regexp_Compile range _ false Hr) in Hv as Hok1. set (c1 := fill_secrets (be_draws e) c) in *.
  assert (Normalize c1 = c1) as Hn1 by (subst c1; by rewrite Normalize_fill, Hn).
  assert (resolveStoragePath path c1 = c1) as Hres1 by by apply resolve_settled, (resolve_absolute path (Normalize c0) Habs).
  split; [|done]. unfold LoadStartup. rewrite (boot_seed_found _ _ _ _ (marshal c1)) by (done || apply Hf2).
  rewrite (load_found path true d1 (marshal c1) c1); [|done..|rewrite Hn1, Hres1; by apply config_weaken]. rewrite Hn1, Hres1.
  unfold boot_generate, generateStartupSecrets. destruct (nothing_generated _ _ (be_draws e2) c1 Hok1) as [-> ->]. done.
Qed.
End startup.

(** ** Where starting goes wrong *)

(** After a crash between the two renames of a write the configuration is under
    its backup name only, and the next start puts the seed in its place. *)
Theorem config_reset_after_crash {content} (empty : content) unmarshal zero path seedPath (e : @BootEnv content) d old new seed :
  d_path d = Some old -> path <> "" -> seedPath <> "" -> be_stat_fails e = false ->
  be_seed e = Some seed -> unmarshal zero seed <> None -> be_seed_mkdir e = true -> be_seed_write e = true ->
  let d1 := write_after empty 8 new d in
  d_bak d1 = Some old
  /\ boot_seed unmarshal zero path seedPath e d1 = (mkDisk (Some seed) (d_bak d1) (d_tmp d1), Ok true).
Proof.
  intros Hd Hp Hs He Hseed Hu Hm Hw. cbn zeta. unfold write_after, write_ops. rewrite Hd. cbn. split; [done|].
  unfold boot_seed, copySeedConfig. rewrite !bool_decide_eq_false_2, He, Hseed, Hm, Hw by done. cbn. by destruct (unmarshal zero seed).
Qed.

(** With a relative configuration path the path of a file store moves each time
    the written configuration is read. *)
Theorem storage_path_drifts :
  exists c, let start c := resolveStoragePath "configs/example.json" c in
  sg_DSN (c_Storage (start c)) = "configs/store.json"
  /\ sg_DSN (c_Storage (start (start c))) = "configs/configs/store.json".
Proof. exists {| c_Server := c_Server Default; c_SMPP := c_SMPP Default; c_Dispatcher := c_Dispatcher Default; c_Tenants := []; c_ESMEs := [];
     c_Routes := []; c_Providers := []; c_Inbound := []; c_Outbound := []; c_Clients := []; c_TrustedProxies := []; c_Risk := c_Risk Default;
     c_Filter := c_Filter Default; c_CDR := c_CDR Default; c_Storage := mkStorage "file" ""; c_Admin := c_Admin Default |}.
  vm_compute. split; reflexivity.
Qed.

(** A configuration with the providers and the administrator's password given. *)
Definition demo_setup (password : string) (providers : list ProviderConfig) : Config :=
  let c := demo_config [demo_outbound "rule1"] in
  {| c_Server := c_Server c; c_SMPP := c_SMPP c; c_Dispatcher := c_Dispatcher c; c_Tenants := c_Tenants c; c_ESMEs := c_ESMEs c;
     c_Routes := []; c_Providers := providers; c_Inbound := []; c_Outbound := c_Outbound c; c_Clients := c_Clients c;
     c_TrustedProxies := c_TrustedProxies c; c_Risk := c_Risk c; c_Filter := c_Filter c; c_CDR := c_CDR c; c_Storage := c_Storage c;
     c_Admin := mkAdmin "root" password |}.

Definition demo_upstream : ProviderConfig :=
  mkProviderConfig "up1" "smpp" "10.0.0.1:2775" "" "esme" AutoGenerateSecret true 0 demo_rate (Some (DefaultSMPPClientConfig)).

Lemma demo_setup_ok password providers :
  validate (fun _ => true) (fun _ => None) id (demo_setup password providers) true = Ok tt ->
  config_ok true (fun _ => true) (fun s => (fun _ => None : option regex) s <> None) (demo_setup password providers).
Proof. intros H. apply (validate_correct (fun _ => true) (fun _ => None) id); [intros l; reflexivity|exact H]. Qed.

(** A valid configuration whose SMPP provider asks for a generated password is
    refused after generation, whatever is drawn: the secret is longer than
    SMPP allows. *)
Theorem generated_smpp_password_refused :
  exists c p, config_ok true (fun _ => true) (fun s => (fun _ => None : option regex) s <> None) c
  /\ c_Providers c = [p] /\ pv_Password p = AutoGenerateSecret
  /\ forall w, draws_ok w -> ~ config_ok false (fun _ => true) (fun s => (fun _ => None : option regex) s <> None) (fill_secrets w c).
Proof.
  exists (demo_setup "pw" [demo_upstream]), demo_upstream.
  assert (config_ok true (fun _ => true) (fun s => (fun _ => None : option regex) s <> None) (demo_setup "pw" [demo_upstream])) as Hok
    by (apply demo_setup_ok; vm_compute; reflexivity).
  split; [exact Hok|]. split; [reflexivity|]. split; [reflexivity|]. intros w Hw H.
  apply (secrets_complete _ _ w _ Hw Hok) in H. destruct H as [_ _ H]. apply Forall_inv in H.
  destruct (H _ eq_refl) as (_ & H' & _). by apply H'.
Qed.

(** ** Examples *)

Definition demo_draw (n : nat) : rand_draw := mkDraw (Some (replicate n 7)) 0.
Definition demo_draws : Draws := mkDraws (demo_draw 24) (demo_draw 6) (fun _ => demo_draw 6) (fun _ => demo_draw 24) (fun _ => demo_draw 24) (fun _ => demo_draw 24).

Lemma demo_draws_ok : draws_ok demo_draws.
Proof. split; try (intros b [= <-]; reflexivity); try (intros i b [= <-]; reflexivity). intros i. split; [intros b [= <-]; reflexivity|discriminate]. Qed.

Definition demo_boot (e_seed : option Config) : BootEnv := mkBootEnv false e_seed true true demo_draws [] true.

(** Files that hold the configuration itself. *)
Definition demo_start (d : disk Config) : disk Config * res boot_err (Config * BootstrapResult) :=
  LoadStartup Default id (fun _ c => Some c) (validate (fun _ => true) (fun _ => None) id) Default "/etc/mysmpp.json" "" (demo_boot None) d.

Definition demo_disk : disk Config := mkDisk (Some (demo_setup AutoGenerateSecret [])) None None.

Lemma config_reset_after_crash_witness :
  (boot_seed (fun _ c => Some c) Default "/etc/mysmpp.json" "/seed.json" (demo_boot (Some Default))
     (write_after Default 8 (demo_setup "new" []) demo_disk)).2 = Ok true.
Proof.
  rewrite (proj2 (config_reset_after_crash Default (fun _ c => Some c) Default "/etc/mysmpp.json" "/seed.json" (demo_boot (Some Default)) demo_disk
    (demo_setup AutoGenerateSecret []) (demo_setup "new" []) Default ltac:(reflexivity) ltac:(discriminate) ltac:(discriminate) ltac:(reflexivity)
    ltac:(reflexivity) ltac:(discriminate) ltac:(reflexivity) ltac:(reflexivity))).
  reflexivity.
Defined.

Definition demo_first : Config := resolveStoragePath "/etc/mysmpp.json" (Normalize (demo_setup AutoGenerateSecret [])).

Lemma demo_first_ok : config_ok true (fun _ => true) (fun s => (fun _ => None : option regex) s <> None) demo_first.
Proof. apply (validate_correct (fun _ => true) (fun _ => None) id); [intros l; reflexivity|vm_compute; reflexivity]. Qed.

Lemma demo_fine seed : files_fine (demo_boot seed).
Proof. by split_and!. Qed.

Lemma first_start_witness :
  exists c d' r, demo_start demo_disk = (d', r)
  /\ (config_ok false (fun _ => true) (fun s => (fun _ => None : option regex) s <> None) c <-> ids_given demo_first).
Proof.
  pose proof (first_start Default id (fun _ c => Some c) Default (fun _ => true) (fun _ => None) id "/etc/mysmpp.json" "" (demo_boot None) demo_disk
    (demo_setup AutoGenerateSecret []) (demo_setup AutoGenerateSecret []) (fun l => Permutation_refl l) ltac:(discriminate) (demo_fine None) demo_draws_ok eq_refl eq_refl demo_first_ok) as H.
  cbn zeta in H. change (LoadStartup _ _ _ _ _ _ _ _ _) with (demo_start demo_disk) in H. destruct (demo_start demo_disk) as [d' r].
  exists (fill_secrets demo_draws demo_first), d', r. split; [reflexivity|]. exact (proj1 H).
Defined.

Lemma second_start_same_witness :
  exists d1 c1, d_path d1 = Some c1 /\ demo_start d1 = (d1, Ok (c1, mkBoot false false ∅)).
Proof.
  pose (c1 := fill_secrets demo_draws demo_first). pose (d1 := mkDisk (Some c1) (Some (demo_setup AutoGenerateSecret [])) None).
  exists d1, c1. split; [reflexivity|].
  refine (proj1 (second_start_same Default id (fun _ c => Some c) Default (fun _ => true) (fun _ => None) id "/etc/mysmpp.json" "" (demo_boot None) demo_disk
    (demo_setup AutoGenerateSecret []) (demo_setup AutoGenerateSecret []) d1 c1
    {["admin.username" := "root"; "admin.password" := randomSecret (demo_draw 24)]} (fun l => Permutation_refl l) ltac:(discriminate) (demo_fine None) demo_draws_ok
    eq_refl eq_refl demo_first_ok _ eq_refl eq_refl "" (demo_boot None) (demo_fine None))).
  vm_compute. reflexivity.
Defined.
