(* ===== verification/AdminSession.v ===== *)
(** * Sessions and login attempts of the console: internal/admin/session.go, ratelimit.go

    The store of sessions with its expiry, the cookies that carry them, and the
    limiter of failed logins, with the bound it gives on guesses. *)

From S2P Require Import Prelude Unicode Codec Segment Num GoTime GoParse FilterAC Filter Records Store StoreInv StoreSubmit FileStore GatewayId.
From S2P Require Import Addr Router DlrAggregate Dispatch Config ConfigValid Float64 Tenant Json HttpRule Bootstrap RiskLimit.

(** ** Cookies of a request *)

Definition sessionCookieName : string := "mysmpp_admin_session".
Definition flashCookieName : string := "mysmpp_admin_flash".

(** White space of a header: blanks and tabs. *)
Fixpoint drop_blank (l : list Z) : list Z :=
  match l with
  | b :: l' => if (b =? 32) || (b =? 9) then drop_blank l' else l
  | [] => []
  end.
Definition trim_blank (l : list Z) : list Z := rev (drop_blank (rev (drop_blank l))).

Definition cut_at (c : Z) (l : list Z) : list Z * list Z :=
  match list_find (fun b => b = c) l with
  | Some (i, _) => (take i l, drop (S i) l)
  | None => (l, [])
  end.

Definition cookie_byte (b : Z) : bool := (32 <=? b) && (b <? 127) && negb (b =? 34) && negb (b =? 59) && negb (b =? 92).

Definition unquote (l : list Z) : list Z :=
  match l with
  | 34 :: l' => match rev l' with 34 :: m => rev m | _ => l end
  | _ => l
  end.

Definition cookie_part (part : list Z) : option (string * string) :=
  let '(name, val) := cut_at 61 (trim_blank part) in
  let name := trim_blank name in
  let val := unquote val in
  if bool_decide (name = []) || negb (forallb token_byte name) || negb (forallb cookie_byte val) then None
  else Some (string_of_bytes name, string_of_bytes val).

(** [r.Cookie(name)], for the value of the Cookie header. *)
Definition cookie (header name : string) : option string :=
  snd <$> head (filter (fun kv => kv.1 = name) (omap cookie_part (split_byte 59 (bytes_of_string header) []))).

(** ** Sessions *)

Record Session := mkAdminSession {
  as_Token : string;
  as_CSRFToken : string;
  as_Username : string;
  as_CreatedAt : time;
  as_ExpiresAt : time }.

Record SessionStore := mkSessionStore {
  ss_sessions : gmap string Session;
  ss_ttl : duration }.

Definition NewSessionStore (ttl : duration) : SessionStore := mkSessionStore ∅ (if ttl <=? 0 then 8 * Hour else ttl).

(** [randomToken]: 32 bytes of [rand.Read]. *)
Definition randomToken (bytes : option (list Z)) : option string := string_of_bytes ∘ base64url <$> bytes.

(** [New]; the tokens are drawn before the clock is read. *)
Definition ss_New (token csrf : option (list Z)) (now : time) (username : string) (s : SessionStore) : SessionStore * option Session :=
  match randomToken token, randomToken csrf with
  | Some token, Some csrf =>
    let session := mkAdminSession token csrf username now (now + ss_ttl s) in
    (mkSessionStore (<[token := session]> (ss_sessions s)) (ss_ttl s), Some session)
  | _, _ => (s, None)
  end.

Definition ss_Get (now : time) (token : string) (s : SessionStore) : SessionStore * option Session :=
  if bool_decide (token = "") then (s, None)
  else
    match ss_sessions s !! token with
    | None => (s, None)
    | Some session =>
      if Before (as_ExpiresAt session) now then (mkSessionStore (delete token (ss_sessions s)) (ss_ttl s), None)
      else (s, Some session)
    end.

Definition ss_Delete (token : string) (s : SessionStore) : SessionStore := mkSessionStore (delete token (ss_sessions s)) (ss_ttl s).

Definition ss_sweep (now : time) (s : SessionStore) : SessionStore :=
  mkSessionStore (filter (fun kv => Before (as_ExpiresAt kv.2) now = false) (ss_sessions s)) (ss_ttl s).

(** ** Failed logins *)

Record loginFailure := mkLoginFailure {
  lf_start : time;
  lf_count : Z }.

Record loginLimiter := mkLoginLimiter {
  ll_failures : gmap string loginFailure;
  ll_limit : Z;
  ll_window : duration }.

Definition newLoginLimiter (limit : Z) (window : duration) : loginLimiter :=
  mkLoginLimiter ∅ (if limit <=? 0 then 5 else limit) (if window <=? 0 then 15 * Minute else window).

Definition ll_set (failures : gmap string loginFailure) (l : loginLimiter) : loginLimiter := mkLoginLimiter failures (ll_limit l) (ll_window l).

(** The window of a key is over, or there is none. *)
Definition ll_over (now : time) (rec : loginFailure) (l : loginLimiter) : bool :=
  IsZero (lf_start rec) || (ll_window l <=? time_Sub now (lf_start rec)).

Definition ll_rec (key : string) (l : loginLimiter) : loginFailure := default (mkLoginFailure 0 0) (ll_failures l !! key).

Definition ll_Allow (now : time) (key : string) (l : loginLimiter) : loginLimiter * bool :=
  let rec := ll_rec key l in
  if ll_over now rec l then (ll_set (delete key (ll_failures l)) l, true) else (l, lf_count rec <? ll_limit l).

Definition ll_Fail (now : time) (key : string) (l : loginLimiter) : loginLimiter :=
  let rec := ll_rec key l in
  if ll_over now rec l then ll_set (<[key := mkLoginFailure now 1]> (ll_failures l)) l
  else ll_set (<[key := mkLoginFailure (lf_start rec) (lf_count rec + 1)]> (ll_failures l)) l.

Definition ll_Reset (key : string) (l : loginLimiter) : loginLimiter := ll_set (delete key (ll_failures l)) l.

(** ** Guesses *)

(** A login with wrong credentials: whether they were compared at all. [login]
    reads the clock for the check and again for the record; here the two
    readings are the same. *)
Definition guess (now : time) (key : string) (l : loginLimiter) : loginLimiter * bool :=
  let '(l, ok) := ll_Allow now key l in if ok then (ll_Fail now key l, true) else (l, false).

Fixpoint guess_run (l : loginLimiter) (calls : list rate_call) : list (rate_call * bool) :=
  match calls with
  | [] => []
  | c :: calls => let '(l, ok) := guess (ac_now c) (ac_key c) l in (c, ok) :: guess_run l calls
  end.

Definition failures_of (m : gmap string (time * Z)) : gmap string loginFailure := (fun sc => mkLoginFailure sc.1 sc.2) <$> m.

Definition starts_ok (m : gmap string (time * Z)) : Prop := map_Forall (fun _ sc => 0 < sc.1) m.

Lemma guess_ref now key l (m : gmap string (time * Z)) :
  0 < now -> 0 < ll_window l <= Day -> 1 <= ll_limit l -> starts_ok m -> ll_failures l = failures_of m ->
  let '(l', ok) := guess now key l in
  let '(rec, ok') := ref_rate now (ll_window l) (ll_limit l) (m !! key) in
  ok = ok' /\ ll_limit l' = ll_limit l /\ ll_window l' = ll_window l
  /\ ll_failures l' = failures_of (partial_alter (fun _ => rec) key m) /\ starts_ok (partial_alter (fun _ => rec) key m).
Proof.
  intros Hn Hw Hl Hs Hf.
  assert (forall s c, partial_alter (fun _ => Some (s, c)) key m = <[key := (s, c)]> m) as Hpa by done.
  assert (forall s c, 0 < s -> starts_ok (<[key := (s, c)]> m)) as Hst by (intros s c H; by apply map_Forall_insert_2).
  assert (forall s c, <[key := mkLoginFailure s c]> (failures_of m) = failures_of (<[key := (s, c)]> m)) as Hins by (intros; unfold failures_of; by rewrite fmap_insert).
  assert (ll_rec key l = match m !! key with Some (s, c) => mkLoginFailure s c | None => mkLoginFailure 0 0 end) as Hrec.
  { unfold ll_rec. rewrite Hf. unfold failures_of. rewrite lookup_fmap. by destruct (m !! key) as [[s c]|]. }
  assert (ll_over now (ll_rec key l) l = match m !! key with Some (s, c) => ll_window l <=? now - s | None => true end) as Hover.
  { rewrite Hrec. destruct (m !! key) as [[s c]|] eqn:E; [|done]. pose proof (Hs key (s, c) E) as Hpos. unfold ll_over, IsZero. cbn in *.
    by rewrite (proj2 (Z.eqb_neq s 0)), time_Sub_le by lia. }
  assert (forall f, f = delete key (ll_failures l) -> ll_Fail now key (ll_set f l) = ll_set (<[key := mkLoginFailure now 1]> (ll_failures l)) l) as Hfail.
  { intros f ->. unfold ll_Fail, ll_rec, ll_over. cbn [ll_failures ll_set ll_window]. rewrite lookup_delete_eq. cbn. by rewrite insert_delete_eq. }
  unfold guess, ll_Allow. rewrite Hover, Hrec. unfold ref_rate. destruct (m !! key) as [[s c]|] eqn:E.
  - destruct (ll_window l <=? now - s) eqn:Ho.
    + rewrite Hfail by done. cbn. rewrite Hf, Hins. split_and!; try done. by apply Hst.
    + cbn [lf_count]. destruct (Z.leb_spec (ll_limit l) c) as [Hc|Hc].
      * rewrite (proj2 (Z.ltb_ge c (ll_limit l))) by lia. assert (partial_alter (fun _ => Some (s, c)) key m = m) as -> by (rewrite Hpa; by apply insert_id). done.
      * rewrite (proj2 (Z.ltb_lt c (ll_limit l))) by lia. unfold ll_Fail. rewrite Hover, Hrec. cbn. rewrite Hf, Hins.
        pose proof (Hs key (s, c) E). split_and!; try done. by apply Hst.
  - rewrite Hfail by done. cbn. rewrite Hf, Hins. split_and!; try done. by apply Hst.
Qed.

Lemma guess_run_ref calls now l (m : gmap string (time * Z)) :
  0 < now -> ordered now calls -> 0 < ll_window l <= Day -> 1 <= ll_limit l -> starts_ok m -> ll_failures l = failures_of m ->
  Forall (fun c => ac_limit c = ll_limit l) calls ->
  guess_run l calls = ref_rate_run (fun _ => ll_window l) m calls.
Proof.
  revert now l m. induction calls as [|c calls IH]; intros now l m Hn Ho Hw Hl Hs Hf Hc; [done|]. destruct Ho as [Hn' Ho].
  apply Forall_cons in Hc as [Hcl Hc]. cbn [guess_run ref_rate_run]. pose proof (guess_ref (ac_now c) (ac_key c) l m ltac:(lia) Hw Hl Hs Hf) as H.
  rewrite Hcl. destruct (guess _ _ l) as [l' ok], (ref_rate _ _ _ _) as [rec ok']. destruct H as (-> & E1 & E2 & E3 & E4). f_equal.
  rewrite <- E2. apply (IH (ac_now c)); try done; rewrite ?E1, ?E2; try done. lia.
Qed.

(** C40: While no login succeeds, logins do not overlap and the two clock readings
    of a login are the same, an address gets at most twice the limit of
    passwords compared in any window, and one that is turned away has had as
    many as the limit in the window before. *)
Theorem login_guesses_bounded limit window calls key :
  window <= Day -> ordered 1 calls ->
  let l := newLoginLimiter limit window in
  Forall (fun c => ac_limit c = ll_limit l) calls ->
  let tr := guess_run l calls in
  (forall t, Z.of_nat (allowed_in key t (t + ll_window l) tr) <= 2 * ll_limit l)
  /\ (forall i c, tr !! i = Some (c, false) -> ac_key c = key ->
      ll_limit l <= Z.of_nat (allowed_in key (ac_now c - ll_window l + 1) (ac_now c + 1) (take i tr))).
Proof.
  intros Hw Ho l Hc tr. assert (0 < ll_window l <= Day) as Hwin.
  { subst l. unfold newLoginLimiter, Day, Hour, Minute, Second in *. cbn. destruct (Z.leb_spec window 0); lia. }
  assert (1 <= ll_limit l) as Hl by (subst l; unfold newLoginLimiter; cbn; destruct (Z.leb_spec limit 0); lia).
  subst tr. rewrite (guess_run_ref calls 1 l ∅); [|lia|done..|apply map_Forall_empty|unfold failures_of; by rewrite fmap_empty|done]. split.
  - intros t. pose proof (room_bound (fun _ => ll_window l) (fun _ => Hwin) key (ll_limit l) t 1 calls ∅ Hl Ho) as H. rewrite lookup_empty in H.
    apply H; [|done]. eapply Forall_impl; [exact Hc|]. intros c -> _. lia.
  - intros i c Hi Hk. assert (ac_limit c = ll_limit l) as <-.
    { apply list_elem_of_lookup_2 in Hi. clear -Hi Hc. revert Hi. generalize (∅ : gmap string (time * Z)). induction calls as [|c' calls IH]; intros m Hi.
      - cbn in Hi. by apply not_elem_of_nil in Hi.
      - apply Forall_cons in Hc as [Hc' Hc]. cbn [ref_rate_run] in Hi. destruct (ref_rate _ _ _ _) as [rec ok]. apply elem_of_cons in Hi as [[= -> _]|Hi]; [done|].
        by eapply IH. }
    apply (refused_full (fun _ => ll_window l) (fun _ => Hwin) key calls 1 ∅ [] i c Ho); try done; by rewrite lookup_empty.
Qed.

Definition demo_guesses : list rate_call :=
  [mkRateCall 100 "10.0.0.9" 2; mkRateCall 200 "10.0.0.9" 2; mkRateCall 300 "10.0.0.9" 2; mkRateCall 1000 "10.0.0.8" 2].

Lemma login_guesses_bounded_witness :
  Z.of_nat (allowed_in "10.0.0.9" 100 (100 + 1000) (guess_run (newLoginLimiter 2 1000) demo_guesses)) <= 4.
Proof.
  refine (proj1 (login_guesses_bounded 2 1000 demo_guesses "10.0.0.9" _ _ _) 100).
  - unfold Day, Hour, Minute, Second. lia.
  - cbn. lia.
  - unfold demo_guesses. rewrite !Forall_cons, Forall_nil. cbn. done.
Defined.
