(* ===== verification/Admin.v ===== *)
(** * The console: internal/admin/server.go

    The server as functions of a request and its state, against the interface it
    has to the gateway: a type class with what the console uses of it. Pages are
    kept as the data of their templates; JSON is a parameter. *)

From S2P Require Import Prelude Unicode Codec Segment Num GoTime GoParse NetIP FilterAC Filter Records Store StoreInv StoreSubmit FileStore GatewayId.
From S2P Require Import Addr Router DlrAggregate Dispatch DispatchSubmit DispatchSend DispatchDlr ClientReceipt ClientConn ClientPool.
From S2P Require Import Config ConfigValid Float64 Tenant Json HttpRule HttpProvider RateLimit Providers CdrWriter RiskLimit HttpGw Bootstrap AdminSession.

(** ** The gateway, as the console sees it *)

(** [Gateway], with the optional interfaces [testSubmitGateway] and
    [smppStatusGateway]. [E] is what a call of the gateway asks of its surroundings. *)
Class GatewayAPI (G E : Type) := {
  gw_Config : G -> Config;
  gw_UpdateConfig : E -> Config -> G -> G * res string unit;
  gw_SubmitTestMessage : option (E -> string -> string -> string -> G -> G * res string Receipt);
  gw_SMPPUpstreamStatuses : G -> list (string * list ConnectionStatus) }.

(** What the console relies on. *)
Class GatewayLaws (G E : Type) `{GatewayAPI G E} (valid : Config -> Prop) := {
  gw_update_ok : forall e c g g', gw_UpdateConfig e c g = (g', Ok tt) -> gw_Config g' = Normalize c /\ valid (Normalize c);
  gw_update_err : forall e c g g' err, gw_UpdateConfig e c g = (g', Err err) -> g' = g;
  gw_submit_config : forall f e from to text g, gw_SubmitTestMessage = Some f -> gw_Config (f e from to text g).1 = gw_Config g }.

(** ** Pages and answers *)

Inductive page :=
| PgLogin (err : string)
| PgDashboard (counts : list Z) (configPath : string)
| PgConnections (statuses : list (string * list ConnectionStatus)) (total bound : Z) (canSubmit : bool) (err : string)
| PgRaw (config err : string)
| PgRoutes (routes : list RouteConfig)
| PgRoute (route : RouteConfig) (isEdit : bool) (providers : list ProviderConfig) (prefix err : string)
| PgSection (section title body err : string) (statuses : list (string * list ConnectionStatus)).

Inductive cookie_op :=
| SetSession (token : string) (expires : time)
| ClearSession
| SetFlash (msg : string)
| ClearFlash.

(** A page of the layout carries the token against forged requests, the user and
    the message of the last action. *)
Inductive admin_body :=
| AText (text : string)
| AStyle
| APage (csrf username flash : string) (p : page)
| ALogin (p : page)
| ARedirect (to : string).

Record answer := mkAnswer {
  an_Status : Z;
  an_Cookies : list cookie_op;
  an_Body : admin_body }.

Definition admin_Error (text : string) (status : Z) : answer := mkAnswer status [] (AText text).
Definition NotFound : answer := admin_Error "404 page not found" 404.
Definition Redirect (cookies : list cookie_op) (to : string) : answer := mkAnswer 303 cookies (ARedirect to).
Definition flashAndRedirect (msg to : string) : answer := Redirect [SetFlash msg] to.
Definition renderLogin (err : string) : answer := mkAnswer 200 [] (ALogin (PgLogin err)).

(** [readFlash]: the message of the cookie, and the cookie cleared. *)
Definition readFlash (r : http_request) : list cookie_op * string :=
  match cookie (header r "Cookie") flashCookieName with
  | None => ([], "")
  | Some v => ([ClearFlash], match query_unescape (bytes_of_string v) with Some m => string_of_bytes m | None => v end)
  end.

Definition render (session : Session) (r : http_request) (p : page) : answer :=
  let '(cookies, flash) := readFlash r in mkAnswer 200 cookies (APage (as_CSRFToken session) (as_Username session) flash p).

(** ** Forms *)

Definition HasSuffix (s suffix : string) : bool :=
  (slen suffix <=? slen s)%nat && bool_decide (sdrop (slen s - slen suffix) s = suffix).
Definition TrimSuffix (s suffix : string) : string :=
  if HasSuffix s suffix then stake (slen s - slen suffix) s else s.

Definition admin_atoi (value : string) (fallback : Z) : Z :=
  match Atoi (TrimSpace value) with Ok n => n | Err _ => fallback end.

Definition parseLines (value : string) : list string := filter (fun item => item <> "") (TrimSpace <$> Split1 value 10).

Definition findRoute (routes : list RouteConfig) (name : string) : option RouteConfig :=
  snd <$> list_find (fun route => rt_Name route = name) routes.

Definition removeRoute (routes : list RouteConfig) (name : string) : list RouteConfig :=
  filter (fun route => rt_Name route <> name) routes.

Definition set_Routes (routes : list RouteConfig) (c : Config) : Config :=
  {| c_Server := c_Server c; c_SMPP := c_SMPP c; c_Dispatcher := c_Dispatcher c; c_Tenants := c_Tenants c; c_ESMEs := c_ESMEs c;
     c_Routes := routes; c_Providers := c_Providers c; c_Inbound := c_Inbound c; c_Outbound := c_Outbound c;
     c_Clients := c_Clients c; c_TrustedProxies := c_TrustedProxies c; c_Risk := c_Risk c; c_Filter := c_Filter c; c_CDR := c_CDR c;
     c_Storage := c_Storage c; c_Admin := c_Admin c |}.

(** A route with the fields of a form. *)
Definition form_route (name provider : string) (priority : Z) (prefix : list string) : RouteConfig :=
  mkRouteConfig name prefix provider priority (mkAddrRewriteConfig false "" "" false) (mkDestAddrConfig None false 0 0 "") None [] [] [] [] [] [] [].

Definition routeFromForm (fv : string -> string) : RouteConfig :=
  form_route (TrimSpace (fv "name")) (TrimSpace (fv "provider")) (admin_atoi (fv "priority") 0) (parseLines (fv "prefix")).

(** A route with provider, priority and prefixes of another. *)
Definition edit_route (route form : RouteConfig) : RouteConfig :=
  {| rt_Name := rt_Name route; rt_Prefix := rt_Prefix form; rt_Provider := rt_Provider form; rt_Priority := rt_Priority form;
     rt_AddrRewrite := rt_AddrRewrite route; rt_DestAddr := rt_DestAddr route; rt_Enabled := rt_Enabled route;
     rt_FromPrefix := rt_FromPrefix route; rt_SystemIDs := rt_SystemIDs route; rt_ClientIDs := rt_ClientIDs route;
     rt_ContentTags := rt_ContentTags route; rt_TimeWindows := rt_TimeWindows route; rt_Weighted := rt_Weighted route;
     rt_Failover := rt_Failover route |}.

(** The first route of the name is replaced. *)
Fixpoint replace_route (name : string) (route : RouteConfig) (routes : list RouteConfig) : list RouteConfig :=
  match routes with
  | [] => []
  | r :: routes => if bool_decide (rt_Name r = name) then route :: routes else r :: replace_route name route routes
  end.

(** What each form makes of the configuration it was given. *)
Definition created (route : RouteConfig) (c : Config) : option Config :=
  match findRoute (c_Routes c) (rt_Name route) with
  | Some _ => None
  | None => Some (set_Routes (c_Routes c ++ [route]) c)
  end.

Definition updated (name : string) (form : RouteConfig) (c : Config) : option (RouteConfig * Config) :=
  route ← findRoute (c_Routes c) name;
  let route := edit_route route form in Some (route, set_Routes (replace_route name route (c_Routes c)) c).

Definition deleted (name : string) (c : Config) : option Config :=
  match findRoute (c_Routes c) name with
  | None => None
  | Some _ => Some (set_Routes (removeRoute (c_Routes c) name) c)
  end.

(** ** Sections *)

Definition isSectionPage (path : string) : bool :=
  bool_decide (path ∈ ["/providers"; "/tenants"; "/esmes"; "/clients"; "/inbound"; "/outbound"; "/risk"; "/smpp"]).

Definition sectionTitle (name : string) : string :=
  if bool_decide (name = "providers") then "上游供应商"
  else if bool_decide (name = "tenants") then "租户与额度"
  else if bool_decide (name = "esmes") then "下游 ESME"
  else if bool_decide (name = "clients") then "HTTP 客户端"
  else if bool_decide (name = "inbound") then "入站规则"
  else if bool_decide (name = "outbound") then "出站规则"
  else if bool_decide (name = "risk") then "风控"
  else if bool_decide (name = "smpp") then "SMPP"
  else name.

Inductive section_value :=
| SecProviders (l : list ProviderConfig)
| SecTenants (l : list TenantConfig)
| SecESMEs (l : list ESMECred)
| SecClients (l : list ClientAuth)
| SecInbound (l : list HTTPRuleConfig)
| SecOutbound (l : list HTTPRuleConfig)
| SecRisk (v : RiskConfig)
| SecSMPP (v : SMPPConfig).

Definition section_of (c : Config) (section : string) : option section_value :=
  if bool_decide (section = "providers") then Some (SecProviders (c_Providers c))
  else if bool_decide (section = "tenants") then Some (SecTenants (c_Tenants c))
  else if bool_decide (section = "esmes") then Some (SecESMEs (c_ESMEs c))
  else if bool_decide (section = "clients") then Some (SecClients (c_Clients c))
  else if bool_decide (section = "inbound") then Some (SecInbound (c_Inbound c))
  else if bool_decide (section = "outbound") then Some (SecOutbound (c_Outbound c))
  else if bool_decide (section = "risk") then Some (SecRisk (c_Risk c))
  else if bool_decide (section = "smpp") then Some (SecSMPP (c_SMPP c))
  else None.

Definition set_section (v : section_value) (c : Config) : Config :=
  {| c_Server := c_Server c; c_SMPP := match v with SecSMPP s => s | _ => c_SMPP c end; c_Dispatcher := c_Dispatcher c;
     c_Tenants := match v with SecTenants l => l | _ => c_Tenants c end; c_ESMEs := match v with SecESMEs l => l | _ => c_ESMEs c end;
     c_Routes := c_Routes c; c_Providers := match v with SecProviders l => l | _ => c_Providers c end;
     c_Inbound := match v with SecInbound l => l | _ => c_Inbound c end; c_Outbound := match v with SecOutbound l => l | _ => c_Outbound c end;
     c_Clients := match v with SecClients l => l | _ => c_Clients c end; c_TrustedProxies := c_TrustedProxies c;
     c_Risk := match v with SecRisk k => k | _ => c_Risk c end; c_Filter := c_Filter c; c_CDR := c_CDR c; c_Storage := c_Storage c;
     c_Admin := c_Admin c |}.

(** [json.Unmarshal] for each section; errors are texts. *)
Record section_decoders := mkDecoders {
  de_providers : string -> res string (list ProviderConfig);
  de_tenants : string -> res string (list TenantConfig);
  de_esmes : string -> res string (list ESMECred);
  de_clients : string -> res string (list ClientAuth);
  de_rules : string -> res string (list HTTPRuleConfig);
  de_risk : string -> res string RiskConfig;
  de_smpp : string -> res string SMPPConfig }.

Definition json_invalid {A} (r : res string A) : res string A :=
  match r with Ok a => Ok a | Err e => Err ("JSON 无效: " +:+ e) end.

Definition decode_section (de : section_decoders) (section body : string) : res string section_value :=
  if bool_decide (section = "providers") then SecProviders <$> json_invalid (de_providers de body)
  else if bool_decide (section = "tenants") then SecTenants <$> json_invalid (de_tenants de body)
  else if bool_decide (section = "esmes") then SecESMEs <$> json_invalid (de_esmes de body)
  else if bool_decide (section = "clients") then SecClients <$> json_invalid (de_clients de body)
  else if bool_decide (section = "inbound") then SecInbound <$> json_invalid (de_rules de body)
  else if bool_decide (section = "outbound") then SecOutbound <$> json_invalid (de_rules de body)
  else if bool_decide (section = "risk") then SecRisk <$> json_invalid (de_risk de body)
  else if bool_decide (section = "smpp") then SecSMPP <$> json_invalid (de_smpp de body)
  else Err ("unknown section " +:+ quote +:+ section +:+ quote).

Definition applySectionJSON (de : section_decoders) (section body : string) (c : Config) : res string Config :=
  v ← decode_section de section body; Ok (set_section v c).

(** Connections of the upstreams, and those that are bound. *)
Definition smppStatusSummary (statuses : list (string * list ConnectionStatus)) : Z * Z :=
  let conns := statuses ≫= snd in
  (Z.of_nat (length conns), Z.of_nat (length (filter (fun c => cs_Bound c = true) conns))).

(** ** The server *)

Section server.
Context {G E : Type} `{GatewayAPI G E}.
Context (ParseMediaType : string -> string * bool) (configPath : string).
(** [cloneConfig]: a copy by way of JSON; the texts of a configuration and of a
    section, and their decoders. *)
Context (cloneConfig : Config -> Config) (config_text : Config -> string) (section_text : section_value -> string).
Context (decode_config : string -> res string Config) (decoders : section_decoders).

(** [sv_file] is what was last written to the configuration file. *)
Record Server := mkAdminServer {
  av_gateway : G;
  av_sessions : SessionStore;
  av_limiter : loginLimiter;
  av_file : option Config }.

Definition av_set_gateway (v : G) (s : Server) : Server := mkAdminServer v (av_sessions s) (av_limiter s) (av_file s).
Definition av_set_sessions (v : SessionStore) (s : Server) : Server := mkAdminServer (av_gateway s) v (av_limiter s) (av_file s).
Definition av_set_limiter (v : loginLimiter) (s : Server) : Server := mkAdminServer (av_gateway s) (av_sessions s) v (av_file s).
Definition av_set_file (v : option Config) (s : Server) : Server := mkAdminServer (av_gateway s) (av_sessions s) (av_limiter s) v.

Definition New (g : G) : Server := mkAdminServer g (NewSessionStore (8 * Hour)) (newLoginLimiter 5 (15 * Minute)) None.

(** What a request asks of its surroundings: clock readings, draws of
    crypto/rand, the calls of the gateway and the outcome of writing the file. *)
Record AdminEnv := mkAdminEnv {
  ae_now_get : time;
  ae_now_allow : time;
  ae_now_fail : time;
  ae_now_session : time;
  ae_token : option (list Z);
  ae_csrf : option (list Z);
  ae_gateway : E;
  ae_write : option string }.

(** [applyConfig]. *)
Definition applyConfig (e : AdminEnv) (c : Config) (s : Server) : Server * res string unit :=
  let '(g, res) := gw_UpdateConfig (ae_gateway e) c (av_gateway s) in
  let s := av_set_gateway g s in
  match res with
  | Err err => (s, Err err)
  | Ok _ =>
    if bool_decide (configPath = "") then (s, Ok tt)
    else
      match ae_write e with
      | Some err => (s, Err ("运行时已更新，但写入配置文件失败: " +:+ err))
      | None => (av_set_file (Some (gw_Config g)) s, Ok tt)
      end
  end.

Definition current (s : Server) : Config := gw_Config (av_gateway s).
Definition statuses (s : Server) : list (string * list ConnectionStatus) := gw_SMPPUpstreamStatuses (av_gateway s).

(** *** Pages *)

Definition dashboard (session : Session) (r : http_request) (s : Server) : answer :=
  let c := current s in
  let '(total, bound) := smppStatusSummary (statuses s) in
  let counts := [length (c_Routes c); length (c_Providers c); length (c_ESMEs c); length (c_Inbound c); length (c_Outbound c);
    length (c_Clients c); length (statuses s)] in
  render session r (PgDashboard ((Z.of_nat <$> counts) ++ [bound; total]) configPath).

Definition connections (session : Session) (r : http_request) (err : string) (s : Server) : answer :=
  let '(total, bound) := smppStatusSummary (statuses s) in
  render session r (PgConnections (statuses s) total bound (bool_decide (is_Some gw_SubmitTestMessage)) err).

Definition rawForm (session : Session) (r : http_request) (err : string) (s : Server) : answer :=
  render session r (PgRaw (config_text (current s)) err).

Definition routesList (session : Session) (r : http_request) (s : Server) : answer := render session r (PgRoutes (c_Routes (current s))).

Definition route_page (session : Session) (r : http_request) (route : RouteConfig) (isEdit : bool) (err : string) (s : Server) : answer :=
  render session r (PgRoute route isEdit (c_Providers (current s)) (join_with (string_of_bytes [10]) (rt_Prefix route)) err).

Definition zero_route : RouteConfig := form_route "" "" 0 [].

Definition routeForm (session : Session) (r : http_request) (name err : string) (s : Server) : answer :=
  if bool_decide (name = "") then route_page session r zero_route false err s
  else
    match findRoute (c_Routes (current s)) name with
    | None => NotFound
    | Some route => route_page session r route true err s
    end.

Definition sectionForm (session : Session) (r : http_request) (section err : string) (s : Server) : answer :=
  match section_of (current s) section with
  | None => NotFound
  | Some v => render session r (PgSection section (sectionTitle section) (section_text v) err (statuses s))
  end.

(** *** Actions *)

Definition connectionTestSend (e : AdminEnv) (session : Session) (r : http_request) (fv : string -> string) (s : Server) : Server * answer :=
  match gw_SubmitTestMessage with
  | None => (s, connections session r "test send is not available without dispatcher" s)
  | Some submit =>
    let from := TrimSpace (fv "from") in
    let to := TrimSpace (fv "to") in
    let text := TrimSpace (fv "text") in
    if bool_decide (from = "") || bool_decide (to = "") || bool_decide (text = "")
    then (s, connections session r "from, to, and text are required" s)
    else
      let '(g, res) := submit (ae_gateway e) from to text (av_gateway s) in
      let s := av_set_gateway g s in
      match res with
      | Err err => (s, connections session r err s)
      | Ok receipt => (s, flashAndRedirect ("test message submitted: " +:+ rc_GatewayID receipt) "/admin/connections")
      end
  end.

(** An applied configuration, or the page for its error. *)
Definition apply_or (e : AdminEnv) (c : Config) (ok : answer) (failed : string -> Server -> answer) (s : Server) : Server * answer :=
  let '(s, res) := applyConfig e c s in
  match res with Ok _ => (s, ok) | Err err => (s, failed err s) end.

Definition rawSave (e : AdminEnv) (session : Session) (r : http_request) (fv : string -> string) (s : Server) : Server * answer :=
  match decode_config (fv "config") with
  | Err err => (s, rawForm session r ("JSON 无效: " +:+ err) s)
  | Ok c => apply_or e c (flashAndRedirect "配置已保存" "/admin/raw") (rawForm session r) s
  end.

Definition routeCreate (e : AdminEnv) (session : Session) (r : http_request) (fv : string -> string) (s : Server) : Server * answer :=
  let route := routeFromForm fv in
  match created route (cloneConfig (current s)) with
  | None => (s, route_page session r route false "线路名已存在" s)
  | Some c => apply_or e c (flashAndRedirect "线路已创建" "/admin/routes") (route_page session r route false) s
  end.

Definition routeUpdate (e : AdminEnv) (session : Session) (r : http_request) (fv : string -> string) (s : Server) : Server * answer :=
  let oldName := TrimPrefix (rq_Path r) "/admin/routes/" in
  match updated oldName (routeFromForm fv) (cloneConfig (current s)) with
  | None => (s, NotFound)
  | Some (route, c) => apply_or e c (flashAndRedirect "线路已保存" "/admin/routes") (route_page session r route true) s
  end.

Definition routeDelete (e : AdminEnv) (session : Session) (r : http_request) (fv : string -> string) (s : Server) : Server * answer :=
  let name := TrimSuffix (TrimPrefix (rq_Path r) "/admin/routes/") "/delete" in
  match deleted name (cloneConfig (current s)) with
  | None => (s, NotFound)
  | Some c => apply_or e c (flashAndRedirect "线路已删除" "/admin/routes") (fun err _ => flashAndRedirect err "/admin/routes") s
  end.

Definition sectionSave (e : AdminEnv) (session : Session) (r : http_request) (fv : string -> string) (s : Server) : Server * answer :=
  let section := TrimPrefix (rq_Path r) "/admin/" in
  match applySectionJSON decoders section (fv "config") (cloneConfig (current s)) with
  | Err err => (s, sectionForm session r section err s)
  | Ok c => apply_or e c (flashAndRedirect (sectionTitle section +:+ "已保存") ("/admin/" +:+ section)) (sectionForm session r section) s
  end.
(** *** Access *)

(** [r.ParseForm()] on a body of at most [limit] bytes, then [r.FormValue]. *)
Definition parse_form (limit : Z) (r : http_request) : option (string -> string) :=
  let '(query, queryErr) := ParseQuery (rq_RawQuery r) in
  let '(form, err) := parse_post_form ParseMediaType limit r in
  if err || queryErr then None else Some (field (first_values form (first_values query ∅))).

Definition login (e : AdminEnv) (r : http_request) (s : Server) : Server * answer :=
  if bool_decide (rq_Method r = "GET") then (s, renderLogin "")
  else if bool_decide (rq_Method r = "POST") then
    match parse_form 16384 r with
    | None => (s, renderLogin "表单无效")
    | Some fv =>
      let ip := ClientIP (ip_of r) (c_TrustedProxies (current s)) in
      let '(l, ok) := ll_Allow (ae_now_allow e) ip (av_limiter s) in
      let s := av_set_limiter l s in
      if negb ok then (s, renderLogin "登录失败次数过多，请稍后再试")
      else
        let admin := c_Admin (current s) in
        let username := TrimSpace (fv "username") in
        if negb (ConstantTimeEqual username (ad_Username admin)) || negb (ConstantTimeEqual (fv "password") (ad_Password admin)) then
          (av_set_limiter (ll_Fail (ae_now_fail e) ip (av_limiter s)) s, renderLogin "用户名或密码错误")
        else
          let '(ss, session) := ss_New (ae_token e) (ae_csrf e) (ae_now_session e) username (av_sessions s) in
          match session with
          | None => (s, admin_Error "create session failed" 500)
          | Some session =>
            let s := av_set_limiter (ll_Reset ip (av_limiter s)) (av_set_sessions ss s) in
            (s, Redirect [SetSession (as_Token session) (as_ExpiresAt session)] "/admin/")
          end
    end
  else (s, admin_Error "method not allowed" 405).

Definition requireSession (e : AdminEnv) (r : http_request) (next : Session -> Server -> Server * answer) (s : Server) : Server * answer :=
  match cookie (header r "Cookie") sessionCookieName with
  | None => (s, Redirect [] "/admin/login")
  | Some token =>
    let '(ss, session) := ss_Get (ae_now_get e) token (av_sessions s) in
    let s := av_set_sessions ss s in
    match session with
    | None => (s, Redirect [ClearSession] "/admin/login")
    | Some session => next session s
    end
  end.

Definition requireCSRF (r : http_request) (session : Session) (next : (string -> string) -> Server -> Server * answer) (s : Server) : Server * answer :=
  if bool_decide (rq_Method r ∈ ["GET"; "HEAD"; "OPTIONS"]) then next (field ∅) s
  else
    match parse_form 2097152 r with
    | None => (s, admin_Error "invalid form" 400)
    | Some fv =>
      if bool_decide (as_CSRFToken session = "") || negb (ConstantTimeEqual (fv "_csrf") (as_CSRFToken session))
      then (s, admin_Error "csrf token invalid" 403)
      else next fv s
    end.

Definition logout (r : http_request) (session : Session) (fv : string -> string) (s : Server) : Server * answer :=
  if negb (bool_decide (rq_Method r = "POST")) then (s, admin_Error "method not allowed" 405)
  else (av_set_sessions (ss_Delete (as_Token session) (av_sessions s)) s, Redirect [ClearSession] "/admin/login").

Definition admin (e : AdminEnv) (r : http_request) (session : Session) (s : Server) : Server * answer :=
  let path := TrimPrefix (rq_Path r) "/admin" in
  let path := if bool_decide (path = "") then "/" else path in
  let get := bool_decide (rq_Method r = "GET") in
  let post := bool_decide (rq_Method r = "POST") in
  let act handler := requireCSRF r session (handler e session r) s in
  if get && bool_decide (path = "/") then (s, dashboard session r s)
  else if get && bool_decide (path = "/raw") then (s, rawForm session r "" s)
  else if post && bool_decide (path = "/raw") then act rawSave
  else if get && bool_decide (path = "/routes") then (s, routesList session r s)
  else if get && bool_decide (path = "/routes/new") then (s, routeForm session r "" "" s)
  else if post && bool_decide (path = "/routes") then act routeCreate
  else if get && bool_decide (path = "/connections") then (s, connections session r "" s)
  else if post && bool_decide (path = "/connections/testsend") then act connectionTestSend
  else if get && HasPrefix path "/routes/" then
    let name := TrimPrefix path "/routes/" in
    if bool_decide (name = "") || Contains name "/" then (s, NotFound) else (s, routeForm session r name "" s)
  else if post && HasPrefix path "/routes/" then
    let rest := TrimPrefix path "/routes/" in
    if HasSuffix rest "/delete" then act routeDelete
    else if bool_decide (rest = "") || Contains rest "/" then (s, NotFound)
    else act routeUpdate
  else if get && isSectionPage path then (s, sectionForm session r (TrimPrefix path "/") "" s)
  else if post && isSectionPage path then act sectionSave
  else (s, NotFound).

Definition style (r : http_request) : answer :=
  if bool_decide (rq_Method r = "GET") then mkAnswer 200 [] AStyle else admin_Error "method not allowed" 405.

(** [ServeHTTP]: the patterns of [routes], on a path the multiplexer takes as it is. *)
Definition ServeHTTP (e : AdminEnv) (r : http_request) (s : Server) : Server * answer :=
  let path := rq_Path r in
  if bool_decide (path = "/admin/static/style.css") then (s, style r)
  else if bool_decide (path = "/admin/login") then login e r s
  else if bool_decide (path = "/admin/logout") then requireSession e r (fun session s => requireCSRF r session (logout r session) s) s
  else if HasPrefix path "/admin/" then requireSession e r (admin e r) s
  else (s, NotFound).

(** ** Runs *)

(** A request, a round of the sweeping goroutine, or a change of the gateway that
    does not come from the console. *)
Inductive console_event :=
| CRequest (e : AdminEnv) (r : http_request)
| CSweep (now : time)
| CGateway (g : G).

Definition console_step (ev : console_event) (s : Server) : Server :=
  match ev with
  | CRequest e r => (ServeHTTP e r s).1
  | CSweep now => av_set_sessions (ss_sweep now (av_sessions s)) s
  | CGateway g => av_set_gateway g s
  end.

Definition console_run (evs : list console_event) (s : Server) : Server := foldl (flip console_step) s evs.
End server.
