(* ===== verification/AdminGateway.v ===== *)
(** * The HTTP gateway as the console's gateway

    internal/httpgw implements the interface of internal/admin/server.go: the
    operations of [Gateway] as an instance of [GatewayAPI], and the laws of the
    interface for them. *)

From S2P Require Import Prelude Unicode Codec Segment Num GoTime GoParse NetIP FilterAC Filter Records Store StoreInv StoreSubmit FileStore GatewayId.
From S2P Require Import Addr Router DlrAggregate Dispatch DispatchSubmit DispatchSend DispatchDlr ClientReceipt ClientConn ClientPool.
From S2P Require Import Config ConfigValid ConfigOk ConfigWhole Float64 Tenant Json HttpRule HttpProvider RateLimit Providers CdrWriter RiskLimit.
From S2P Require Import HttpGw HttpGwOk HttpFlow Bootstrap AdminSession Admin.

Section gateway.
Context (TextHash : string -> string).
Context {Location : Type} (UTC : Location) (LoadLocation : string -> option Location).
Context (regexp_Compile : string -> option regex) (ToLower : Z -> Z).
Context (range : list (string * string) -> list (string * string)) (ord : nat -> gmap Z nat -> list (Z * nat)).
Context (sortSlice : list maskInterval -> list maskInterval) (url_Parse : string -> option (string * string)).
Context (submit_text : dispatch_err -> string) (config_text : cfg_err -> string) (conn_text : cerr -> string).

Abbreviation Gateway := (@Gateway Location).

(** [SMPPUpstreamStatuses]; what the connections of a pool are at the moment is
    not part of the gateway's own state. *)
Definition SMPPUpstreamStatuses (conns : nat -> list Client) (g : Gateway) : list (string * list ConnectionStatus) :=
  match g_registry g with None => [] | Some w => SMPPStatuses conn_text conns w end.

#[export] Instance gateway_api (conns : nat -> list Client) : GatewayAPI Gateway HttpEnv := {|
  gw_Config := g_cfg;
  gw_UpdateConfig := UpdateConfig UTC LoadLocation regexp_Compile ToLower range ord config_text;
  gw_SubmitTestMessage := Some (SubmitTestMessage TextHash UTC ToLower sortSlice url_Parse submit_text);
  gw_SMPPUpstreamStatuses := SMPPUpstreamStatuses conns |}.

(** The configurations the gateway takes. *)
Definition taken (c : Config) : Prop :=
  config_ok false (fun z => bool_decide (is_Some (LoadLocation z))) (fun s => regexp_Compile s <> None) c.

Lemma gateway_laws (conns : nat -> list Client) :
  (forall l, range l ≡ₚ l) -> @GatewayLaws Gateway HttpEnv (gateway_api conns) taken.
Proof.
  intros Hrange. split; cbn [gw_Config gw_UpdateConfig gw_SubmitTestMessage gateway_api].
  - intros e c g g'. unfold UpdateConfig. cbn zeta. destruct (Validate _ _ _ _) as [[]|err] eqn:Hv; [|done]. unfold Validate in Hv.
    apply validate_correct in Hv; [|done]. destruct (Compile _ _ _ _); [|done]. destruct (if cd_Enabled _ then _ else _); [|done]. by intros [= <-].
  - intros e c g g' err. unfold UpdateConfig. cbn zeta. destruct (Validate _ _ _ _) as [[]|]; [|by intros [= <- _]].
    destruct (Compile _ _ _ _); [|by intros [= <- _]]. destruct (if cd_Enabled _ then _ else _); [done|by intros [= <- _]].
  - intros f e from to text g [= <-]. unfold SubmitTestMessage. destruct (negb _); [done|]. destruct (validateSubmitRequest _ _ _ _ _ _ _ _); [|done].
    by destruct (Submit _ _ _ _) as [d [rc|err]].
Qed.
End gateway.
