(* ===== verification/AdminOk.v ===== *)
(** * The console: who changes the configuration, and what a change does

    Every change made through the console goes back to a login with the
    administrator's credentials; the forms change what they show and nothing
    else; the HTTP gateway implements the interface the console relies on. *)

From S2P Require Import Prelude Unicode Codec Segment Num GoTime GoParse NetIP FilterAC Filter Records Store StoreInv StoreSubmit FileStore GatewayId.
From S2P Require Import Addr Router DlrAggregate Dispatch DispatchSubmit DispatchSend DispatchDlr ClientReceipt ClientConn ClientPool.
From S2P Require Import Config ConfigValid ConfigOk ConfigWhole Float64 Tenant Json HttpRule HttpProvider RateLimit Providers CdrWriter RiskLimit.
From S2P Require Import HttpGw HttpGwOk HttpFlow Bootstrap AdminSession Admin AdminGateway.

(** ** Editing a route *)

Lemma replace_route_spec name route routes new :
  findRoute routes name = Some route ->
  exists l1 l2, routes = l1 ++ route :: l2 /\ rt_Name route = name /\ Forall (fun x => rt_Name x <> name) l1
    /\ replace_route name new routes = l1 ++ new :: l2.
Proof.
  unfold findRoute. intros ([ix x] & Hf & ->)%fmap_Some_1. cbn [snd]. apply list_find_Some in Hf as (Hi & Hn & Hb).
  exists (take ix routes), (drop (S ix) routes). split; [by rewrite (take_drop_middle _ _ _ Hi)|]. split; [done|].
  revert ix Hi Hb. induction routes as [|r routes IH]; intros ix Hi Hb; [done|]. destruct ix as [|ix]; cbn in Hi.
  - injection Hi as ->. cbn. rewrite bool_decide_eq_true_2 by done. rewrite drop_0. by split; [apply Forall_nil_2|].
  - pose proof (Hb 0%nat r eq_refl ltac:(lia)) as Hr. destruct (IH ix Hi) as [IH1 IH2].
    + intros j y Hj Hlt. apply (Hb (S j) y Hj). lia.
    + cbn. rewrite bool_decide_eq_false_2 by done. split; [by constructor|by rewrite IH2].
Qed.

Section console.
Context {G E : Type} `{GatewayAPI G E}.
Context (ParseMediaType : string -> string * bool) (configPath : string).
Context (cloneConfig : Config -> Config) (config_text : Config -> string) (section_text : section_value -> string).
Context (decode_config : string -> res string Config) (decoders : section_decoders).

Abbreviation Server := (@Server G).
Abbreviation AdminEnv := (@AdminEnv E).
Abbreviation serve := (ServeHTTP ParseMediaType configPath cloneConfig config_text section_text decode_config decoders).
Abbreviation run := (console_run ParseMediaType configPath cloneConfig config_text section_text decode_config decoders).
Implicit Types (s : Server) (e : AdminEnv) (r : http_request).

(** ** Failing logins *)

(** With one reading of the clock, a login with wrong credentials is a guess of
    the limiter, and nothing else changes. *)
Lemma login_guess e r s fv :
  rq_Method r = "POST" -> parse_form ParseMediaType 16384 r = Some fv -> ae_now_fail e = ae_now_allow e ->
  negb (ConstantTimeEqual (TrimSpace (fv "username")) (ad_Username (c_Admin (current s))))
    || negb (ConstantTimeEqual (fv "password") (ad_Password (c_Admin (current s)))) = true ->
  let '(l, compared) := guess (ae_now_allow e) (ClientIP (ip_of r) (c_TrustedProxies (current s))) (av_limiter s) in
  login ParseMediaType e r s
  = (av_set_limiter l s, renderLogin (if compared then "用户名或密码错误" else "登录失败次数过多，请稍后再试")).
Proof.
  intros Hm Hf Ht Hc. unfold login, guess. rewrite Hm, Hf, Ht. cbn [bool_decide]. rewrite bool_decide_eq_false_2, bool_decide_eq_true_2 by done.
  destruct (ll_Allow _ _ _) as [l []]; cbn [negb]; [|done].
  change (current (av_set_limiter l s)) with (current s). by rewrite Hc.
Qed.

(** ** Frames *)

(** Actions leave the sessions alone. *)
Definition keeps_sessions (s : Server) (sa : Server * answer) : Prop := av_sessions sa.1 = av_sessions s.

Lemma applyConfig_sessions e c s : av_sessions (applyConfig configPath e c s).1 = av_sessions s.
Proof. unfold applyConfig. destruct (gw_UpdateConfig _ _ _) as [g [[]|err]]; [|done]. destruct (bool_decide _); [done|]. by destruct (ae_write e). Qed.

Lemma apply_or_sessions e c ok failed s : keeps_sessions s (apply_or configPath e c ok failed s).
Proof.
  unfold keeps_sessions, apply_or. pose proof (applyConfig_sessions e c s) as Hs. destruct (applyConfig _ _ _ _) as [s' [[]|err]]; exact Hs.
Qed.

(** The six actions a form can start. *)
Inductive acts e r (session : Session) (fv : string -> string) s : Server * answer -> Prop :=
| act_raw : acts e r session fv s (rawSave configPath config_text decode_config e session r fv s)
| act_create : acts e r session fv s (routeCreate configPath cloneConfig e session r fv s)
| act_update : acts e r session fv s (routeUpdate configPath cloneConfig e session r fv s)
| act_delete : acts e r session fv s (routeDelete configPath cloneConfig e session r fv s)
| act_section : acts e r session fv s (sectionSave configPath cloneConfig section_text decoders e session r fv s)
| act_test : acts e r session fv s (connectionTestSend e session r fv s).

(** An action applies a configuration, sends a test message, or changes nothing. *)
Lemma acts_cases e r session fv s sa :
  acts e r session fv s sa ->
  sa.1 = s \/ (exists c ok failed, sa = apply_or configPath e c ok failed s)
  \/ exists f from to text, gw_SubmitTestMessage = Some f /\ sa.1 = av_set_gateway (f (ae_gateway e) from to text (av_gateway s)).1 s.
Proof.
  destruct 1; cbn zeta.
  - unfold rawSave. destruct (decode_config _); [right; left; do 3 eexists; reflexivity|by left].
  - unfold routeCreate. destruct (created _ _); [right; left; do 3 eexists; reflexivity|by left].
  - unfold routeUpdate. destruct (updated _ _ _) as [[]|]; [right; left; do 3 eexists; reflexivity|by left].
  - unfold routeDelete. destruct (deleted _ _); [right; left; do 3 eexists; reflexivity|by left].
  - unfold sectionSave. destruct (applySectionJSON _ _ _ _); [right; left; do 3 eexists; reflexivity|by left].
  - unfold connectionTestSend. destruct gw_SubmitTestMessage as [f|] eqn:Hf; [|by left]. destruct (_ || _); [by left|].
    right; right. exists f, (TrimSpace (fv "from")), (TrimSpace (fv "to")), (TrimSpace (fv "text")). split; [done|].
    by destruct (f _ _ _ _ _) as [g [rc|err]].
Qed.

Lemma acts_sessions e r session fv s sa : acts e r session fv s sa -> keeps_sessions s sa.
Proof.
  unfold keeps_sessions. intros [->|[(c & ok & failed & ->)|(f & from & to & text & _ & ->)]]%acts_cases; try done. apply apply_or_sessions.
Qed.

(** Behind [requireCSRF] something changes only for a form with the session's token. *)
Definition has_csrf r (session : Session) : Prop :=
  exists fv, parse_form ParseMediaType 2097152 r = Some fv /\ fv "_csrf" = as_CSRFToken session /\ as_CSRFToken session <> "".

Lemma requireCSRF_cases r session next s :
  (rq_Method r = "POST" /\ has_csrf r session /\ exists fv, requireCSRF ParseMediaType r session next s = next fv s)
  \/ (requireCSRF ParseMediaType r session next s).1 = s
  \/ rq_Method r <> "POST" /\ exists fv, requireCSRF ParseMediaType r session next s = next fv s.
Proof.
  unfold requireCSRF. case_bool_decide as Hm.
  - right; right. split; [intros E1; rewrite E1 in Hm; set_solver|by eexists].
  - destruct (parse_form _ _ r) as [fv|] eqn:Hf; [|by right; left]. destruct (_ || _) eqn:Hc; [by right; left|].
    rewrite orb_false_iff, negb_false_iff, bool_decide_eq_false, ConstantTimeEqual_spec in Hc. destruct Hc as (Hc1 & Hc2 & _).
    destruct (decide (rq_Method r = "POST")) as [Hp|Hp].
    + left. split; [done|]. split; [|by exists fv]. exists fv. done.
    + right; right. split; [done|]. by exists fv.
Qed.

(** The console behind a session: nothing changes, or the request is a POST with
    the token, and one of the actions is done. *)
Lemma admin_cases e r session s :
  let sa := admin ParseMediaType configPath cloneConfig config_text section_text decode_config decoders e r session s in
  sa.1 = s \/ rq_Method r = "POST" /\ has_csrf r session /\ exists fv, acts e r session fv s sa.
Proof.
  assert (forall next : (string -> string) -> Server -> Server * answer, (forall fv, acts e r session fv s (next fv s)) -> bool_decide (rq_Method r = "POST") = true ->
    let sa := requireCSRF ParseMediaType r session next s in sa.1 = s \/ rq_Method r = "POST" /\ has_csrf r session /\ exists fv, acts e r session fv s sa) as Hact.
  { intros next Hk Hp. apply bool_decide_eq_true in Hp. destruct (requireCSRF_cases r session next s) as [(_ & Hf & fv & ->)|[Heq|[Hn _]]]; [eauto|by left|done]. }
  unfold admin. cbn zeta. set (post := bool_decide (rq_Method r = "POST")) in *. set (get := bool_decide (rq_Method r = "GET")).
  clearbody post get.
  repeat match goal with
  | |- context [if ?b then _ else _] => destruct b eqn:?; try (by left)
  end; repeat match goal with Hb : _ && _ = true |- _ => apply andb_true_iff in Hb as [? ?] end; apply Hact; try done; intros fv; constructor.
Qed.

(** ** Where sessions come from *)

(** A login with the credentials the configuration has then, and its session. *)
Definition logs_in e r s (session : Session) : Prop :=
  rq_Path r = "/admin/login" /\ rq_Method r = "POST"
  /\ (exists fv, parse_form ParseMediaType 16384 r = Some fv
      /\ TrimSpace (fv "username") = ad_Username (c_Admin (current s)) /\ ad_Username (c_Admin (current s)) <> ""
      /\ fv "password" = ad_Password (c_Admin (current s)) /\ ad_Password (c_Admin (current s)) <> "")
  /\ (ll_Allow (ae_now_allow e) (ClientIP (ip_of r) (c_TrustedProxies (current s))) (av_limiter s)).2 = true
  /\ randomToken (ae_token e) = Some (as_Token session) /\ randomToken (ae_csrf e) = Some (as_CSRFToken session)
  /\ as_CreatedAt session = ae_now_session e /\ as_ExpiresAt session = ae_now_session e + ss_ttl (av_sessions s).

Definition lookup_session (s : Server) (token : string) : option Session := ss_sessions (av_sessions s) !! token.

(** The store after a login: as it was, or with the session of the login. *)
Lemma login_sessions e r s :
  rq_Path r = "/admin/login" ->
  let s' := (login ParseMediaType e r s).1 in
  av_gateway s' = av_gateway s /\ av_file s' = av_file s
  /\ (av_sessions s' = av_sessions s
      \/ exists session, logs_in e r s session
         /\ av_sessions s' = mkSessionStore (<[as_Token session := session]> (ss_sessions (av_sessions s))) (ss_ttl (av_sessions s))).
Proof.
  intros Hp. unfold login. destruct (bool_decide (rq_Method r = "GET")); [auto|].
  case_bool_decide as Hm; [|by split_and!; [..|left]]. destruct (parse_form _ _ r) as [fv|] eqn:Hf; [|by split_and!; [..|left]]. cbn zeta.
  destruct (ll_Allow _ _ _) as [l ok] eqn:Hl. destruct ok; [|by split_and!; [..|left]]. cbn [negb].
  change (current (av_set_limiter l s)) with (current s). destruct (_ || _) eqn:Hc; [auto|].
  rewrite orb_false_iff, !negb_false_iff, !ConstantTimeEqual_spec in Hc. destruct Hc as [[Hu Hu'] [Hw Hw']].
  change (av_sessions (av_set_limiter l s)) with (av_sessions s). unfold ss_New.
  destruct (randomToken (ae_token e)) as [tok|] eqn:Ht; [|by split_and!; [..|left]].
  destruct (randomToken (ae_csrf e)) as [csrf|] eqn:Hx; [|by split_and!; [..|left]]. split_and!; [done|done|]. right.
  exists (mkAdminSession tok csrf (TrimSpace (fv "username")) (ae_now_session e) (ae_now_session e + ss_ttl (av_sessions s))).
  split; [|done]. split_and!; try done; [|by rewrite Hl]. exists fv. rewrite <- Hu, <- Hw. done.
Qed.

(** Fetching a session removes at most an expired one. *)
Lemma ss_Get_spec now token ss :
  let '(ss', session) := ss_Get now token ss in
  ss_ttl ss' = ss_ttl ss /\ ss_sessions ss' ⊆ ss_sessions ss
  /\ match session with Some v => ss' = ss /\ ss_sessions ss !! token = Some v /\ now <= as_ExpiresAt v | None => True end.
Proof.
  unfold ss_Get. case_bool_decide; [done|]. destruct (ss_sessions ss !! token) as [v|] eqn:Hv; [|done].
  unfold Before. destruct (Z.ltb_spec (as_ExpiresAt v) now); [|done]. split_and!; [done|apply delete_subseteq|done].
Qed.

(** Behind a session: what [next] does to the state, or no change but for expiry. *)
Lemma requireSession_cases e r next s :
  (exists v, cookie (header r "Cookie") sessionCookieName <> None
     /\ (forall t, cookie (header r "Cookie") sessionCookieName = Some t -> lookup_session s t = Some v)
     /\ ae_now_get e <= as_ExpiresAt v /\ requireSession e r next s = next v s)
  \/ let s' := (requireSession e r next s).1 in
     av_gateway s' = av_gateway s /\ av_file s' = av_file s
     /\ ss_ttl (av_sessions s') = ss_ttl (av_sessions s) /\ ss_sessions (av_sessions s') ⊆ ss_sessions (av_sessions s).
Proof.
  unfold requireSession. destruct (cookie _ _) as [t|] eqn:Hc; [|by right].
  pose proof (ss_Get_spec (ae_now_get e) t (av_sessions s)) as Hg. destruct (ss_Get _ _ _) as [ss v]. destruct Hg as (Ht & Hs & Hv).
  destruct v as [v|]; [|by right]. destruct Hv as (-> & Hv & Hx). left. exists v. split_and!; try done; [by intros t' [= <-]|]. by destruct s.
Qed.

Lemma logout_changes r session fv s :
  let s' := (logout r session fv s).1 in
  av_gateway s' = av_gateway s /\ av_file s' = av_file s
  /\ ss_ttl (av_sessions s') = ss_ttl (av_sessions s) /\ ss_sessions (av_sessions s') ⊆ ss_sessions (av_sessions s).
Proof. unfold logout. destruct (negb _); [done|]. split_and!; try done. apply delete_subseteq. Qed.

(** Sessions are kept, or fewer. *)
Definition fewer_sessions s s' : Prop :=
  ss_ttl (av_sessions s') = ss_ttl (av_sessions s) /\ ss_sessions (av_sessions s') ⊆ ss_sessions (av_sessions s).

(** What a request does: nothing to the gateway and the file, or it comes with a
    live session and its token. *)
Definition permitted e r s : Prop :=
  rq_Method r = "POST" /\ exists token v, cookie (header r "Cookie") sessionCookieName = Some token /\ lookup_session s token = Some v
    /\ has_csrf r v /\ ae_now_get e <= as_ExpiresAt v.

Lemma serve_cases e r s :
  let s' := (serve e r s).1 in
  (av_gateway s' = av_gateway s /\ av_file s' = av_file s \/ permitted e r s)
  /\ (fewer_sessions s s'
      \/ exists v, logs_in e r s v
         /\ av_sessions s' = mkSessionStore (<[as_Token v := v]> (ss_sessions (av_sessions s))) (ss_ttl (av_sessions s))).
Proof.
  assert (fewer_sessions s s) as Hrefl by done. unfold ServeHTTP. cbn zeta.
  case_bool_decide; [by split; left|]. case_bool_decide as Hl.
  { destruct (login_sessions e r s Hl) as (G1 & G2 & G3). split; [by left|]. destruct G3 as [G3|G3]; [left; unfold fewer_sessions; by rewrite G3|by right]. }
  clear Hl. case_bool_decide.
  { destruct (requireSession_cases e r (fun session s => requireCSRF ParseMediaType r session (logout r session) s) s)
      as [(v & Hc & Hv & Hx & ->)|(G1 & G2 & G3)]; [|by split; left].
    destruct (requireCSRF_cases r v (logout r v) s) as [(_ & _ & fv & ->)|[->|(_ & fv & ->)]]; [|by split; left|];
      destruct (logout_changes r v fv s) as (G1 & G2 & G3); by split; left. }
  destruct (HasPrefix _ _); [|by split; left].
  destruct (requireSession_cases e r (admin ParseMediaType configPath cloneConfig config_text section_text decode_config decoders e r) s)
    as [(v & Hc & Hv & Hx & ->)|(G1 & G2 & G3)]; [|by split; left].
  destruct (admin_cases e r v s) as [->|(Hp & Hf & fv & Hs%acts_sessions)]; [by split; left|]. split; [|left; unfold fewer_sessions; by rewrite Hs]. right. split; [done|].
  destruct (cookie _ _) as [t|] eqn:Hk; [|done]. exists t, v. eauto.
Qed.

(** ** Runs *)

Lemma run_app evs evs' s : run (evs ++ evs') s = run evs' (run evs s).
Proof. apply foldl_app. Qed.

(** Since a login, the session has been in the store. *)
Definition made_by_login (g0 : G) (evs : list (@console_event G E)) (v : Session) : Prop :=
  exists evs1 e1 r1 evs2, evs = evs1 ++ CRequest e1 r1 :: evs2
    /\ logs_in e1 r1 (run evs1 (New g0)) v /\ as_ExpiresAt v = ae_now_session e1 + 8 * Hour
    /\ forall k, lookup_session (run (evs1 ++ CRequest e1 r1 :: take k evs2) (New g0)) (as_Token v) = Some v.

Lemma made_by_login_later g0 evs ev v :
  made_by_login g0 evs v -> lookup_session (run (evs ++ [ev]) (New g0)) (as_Token v) = Some v -> made_by_login g0 (evs ++ [ev]) v.
Proof.
  intros (evs1 & e1 & r1 & evs2 & -> & Hl & Hx & Hk) Hv. exists evs1, e1, r1, (evs2 ++ [ev]). rewrite <- app_assoc. split_and!; try done.
  intros k. destruct (decide (k <= length evs2)%nat) as [Hle|Hgt].
  - rewrite take_app_le by done. apply Hk.
  - rewrite (take_ge (evs2 ++ [ev])) by (rewrite length_app; cbn; lia). by rewrite <- app_assoc in Hv.
Qed.

Lemma sessions_made g0 evs :
  ss_ttl (av_sessions (run evs (New g0))) = 8 * Hour
  /\ forall t v, lookup_session (run evs (New g0)) t = Some v -> as_Token v = t /\ made_by_login g0 evs v.
Proof.
  induction evs as [|ev evs [IHt IHs]] using rev_ind.
  { split; [done|]. intros t v Hv. unfold lookup_session in Hv. cbn in Hv. by rewrite lookup_empty in Hv. }
  assert (fewer_sessions (run evs (New g0)) (run (evs ++ [ev]) (New g0))
    \/ exists e r v, ev = CRequest e r /\ logs_in e r (run evs (New g0)) v
       /\ av_sessions (run (evs ++ [ev]) (New g0))
          = mkSessionStore (<[as_Token v := v]> (ss_sessions (av_sessions (run evs (New g0))))) (ss_ttl (av_sessions (run evs (New g0))))) as Hstep.
  { rewrite run_app. destruct ev as [e r|now|g].
    - destruct (serve_cases e r (run evs (New g0))) as [_ [Hf|(v & Hv)]]; [by left|]. right. by exists e, r, v.
    - left. split; [done|]. apply map_filter_subseteq.
    - by left. }
  destruct Hstep as [[Ht Hs]|(e & r & v & -> & Hl & Hs)].
  - split; [by rewrite Ht|]. intros t v Hv. pose proof (lookup_weaken _ _ _ _ Hv Hs) as Hv0. destruct (IHs t v Hv0) as [<- Hm]. split; [done|].
    by apply made_by_login_later.
  - split; [by rewrite Hs|]. intros t v' Hv'. unfold lookup_session in Hv'. rewrite Hs in Hv'. cbn [ss_sessions] in Hv'.
    apply lookup_insert_Some in Hv' as [[<- <-]|[Hn Hv']].
    + split; [done|]. exists evs, e, r, []. split_and!; [done..| |].
      * destruct Hl as (_ & _ & _ & _ & _ & _ & _ & ->). by rewrite IHt.
      * intros k. rewrite take_nil. unfold lookup_session. rewrite Hs. cbn [ss_sessions]. apply lookup_insert_eq.
    + destruct (IHs t v' Hv') as [<- Hm]. split; [done|]. apply made_by_login_later; [done|]. unfold lookup_session. rewrite Hs. cbn [ss_sessions].
      by rewrite lookup_insert_ne.
Qed.

(** C37: A request to the console that changes the gateway or the configuration
    file is a POST that carries the cookie and the token of a session made by
    an earlier login with the user name and password of the administrator at
    that time, at most eight hours old and in the store ever since. *)
Theorem console_changes_need_login g0 evs e r :
  let s := run evs (New g0) in
  let s' := (serve e r s).1 in
  av_gateway s' <> av_gateway s \/ av_file s' <> av_file s ->
  rq_Method r = "POST" /\ exists v, cookie (header r "Cookie") sessionCookieName = Some (as_Token v) /\ has_csrf r v
    /\ exists evs1 e1 r1 evs2, evs = evs1 ++ CRequest e1 r1 :: evs2
       /\ logs_in e1 r1 (run evs1 (New g0)) v /\ ae_now_get e <= ae_now_session e1 + 8 * Hour
       /\ forall k, lookup_session (run (evs1 ++ CRequest e1 r1 :: take k evs2) (New g0)) (as_Token v) = Some v.
Proof.
  intros s s' Hch. destruct (serve_cases e r s) as [[[H1 H2]|(Hp & t & v & Hc & Hv & Hf & Hx)] _]; [by destruct Hch|].
  destruct (sessions_made g0 evs) as [_ Hm]. destruct (Hm t v Hv) as [<- (evs1 & e1 & r1 & evs2 & He & Hl & Hexp & Hk)].
  split; [done|]. exists v. split_and!; [done..|]. exists evs1, e1, r1, evs2. by rewrite <- Hexp.
Qed.

(** ** Against the laws of the gateway *)

Context (valid : Config -> Prop) `{!GatewayLaws G E valid}.

(** A valid configuration was taken over and perhaps written, or nothing. *)
Definition applied s s' : Prop :=
  current s' = current s /\ av_file s' = av_file s
  \/ valid (current s') /\ (av_file s' = av_file s \/ av_file s' = Some (current s')).

Lemma applyConfig_spec e c s :
  let '(s', res) := applyConfig configPath e c s in
  match res with
  | Ok _ => current s' = Normalize c /\ valid (Normalize c) /\ (configPath <> "" -> av_file s' = Some (Normalize c))
  | Err _ => s' = s \/ current s' = Normalize c /\ valid (Normalize c) /\ av_file s' = av_file s
  end /\ applied s s'.
Proof.
  unfold applyConfig. destruct (gw_UpdateConfig _ _ _) as [g [[]|err]] eqn:Hu.
  - destruct (gw_update_ok _ _ _ _ Hu) as [Hc Hv].
    assert (valid (gw_Config g)) as Hv' by by rewrite Hc. case_bool_decide; [by split; [|right; split; [|left]]|].
    destruct (ae_write e); unfold applied, current; cbn.
    + split; [by right|]. right. eauto.
    + rewrite Hc. split; [done|]. right. eauto.
  - pose proof (gw_update_err _ _ _ _ _ Hu) as ->. assert (av_set_gateway (av_gateway s) s = s) as -> by by destruct s. split; [by left|by left].
Qed.

Lemma apply_or_applied e c ok failed s : applied s (apply_or configPath e c ok failed s).1.
Proof. unfold apply_or. pose proof (applyConfig_spec e c s) as Hs. destruct (applyConfig _ _ _ _) as [s' [[]|err]]; by destruct Hs. Qed.

Lemma acts_applied e r session fv s sa : acts e r session fv s sa -> applied s sa.1.
Proof.
  intros [->|[(c & ok & failed & ->)|(f & from & to & text & Hf & ->)]]%acts_cases; [by left|apply apply_or_applied|].
  left. split; [|done]. by apply gw_submit_config.
Qed.

Lemma serve_applied e r s : applied s (serve e r s).1.
Proof.
  unfold ServeHTTP. cbn zeta.
  case_bool_decide; [by left|]. case_bool_decide as Hl.
  { destruct (login_sessions e r s Hl) as (K1 & K2 & _). left. unfold current. by rewrite K1. }
  assert (forall next, (forall v, applied s (next v s).1) -> applied s (requireSession e r next s).1) as Hs.
  { intros next Hn. destruct (requireSession_cases e r next s) as [(v & _ & _ & _ & ->)|(K1 & K2 & _)]; [apply Hn|left; unfold current; by rewrite K1]. }
  case_bool_decide.
  { apply Hs. intros v. assert (forall fv, applied s (logout r v fv s).1) as Ho.
    { intros fv. destruct (logout_changes r v fv s) as (K1 & K2 & _). left. unfold current. by rewrite K1. }
    destruct (requireCSRF_cases r v (logout r v) s) as [(_ & _ & fv & ->)|[->|(_ & fv & ->)]]; [done|by left|done]. }
  destruct (HasPrefix _ _); [|by left]. apply Hs. intros v.
  destruct (admin_cases e r v s) as [->|(_ & _ & fv & Ha)]; [by left|by eapply acts_applied].
Qed.

(** C39: Against the laws of the gateway interface, whatever requests the console
    serves, the configuration in use and the one written to the file stay
    valid. *)
Theorem console_keeps_valid g0 evs :
  valid (gw_Config g0) -> Forall (fun ev => forall g, ev = CGateway g -> valid (gw_Config g)) evs ->
  valid (current (run evs (New g0))) /\ forall c, av_file (run evs (New g0)) = Some c -> valid c.
Proof.
  intros Hv. induction evs as [|ev evs IH] using rev_ind; [done|]. intros [Hevs Hev]%Forall_app. apply Forall_inv in Hev.
  destruct (IH Hevs) as [K1 K2]. clear IH. rewrite run_app. destruct ev as [e r|now|g].
  - change (run [CRequest e r] (run evs (New g0))) with (serve e r (run evs (New g0))).1.
    destruct (serve_applied e r (run evs (New g0))) as [[-> ->]|[Hc Hf]]; [done|]. split; [done|]. intros c.
    destruct Hf as [-> | ->]; [apply K2|by intros [= <-]].
  - done.
  - split; [by apply (Hev g)|done].
Qed.

(** ** What the route forms do *)

(** A route form that is saved replaces the provider, the priority and the
    prefixes of the first route of its name and changes nothing else before
    normalization; the result is valid and written to the file. *)
Theorem route_update_effect e session r fv s s' :
  cloneConfig (current s) = current s ->
  routeUpdate configPath cloneConfig e session r fv s = (s', flashAndRedirect "线路已保存" "/admin/routes") ->
  exists l1 route l2, c_Routes (current s) = l1 ++ route :: l2
    /\ rt_Name route = TrimPrefix (rq_Path r) "/admin/routes/" /\ Forall (fun x => rt_Name x <> rt_Name route) l1
    /\ current s' = Normalize (set_Routes (l1 ++ edit_route route (routeFromForm fv) :: l2) (current s))
    /\ valid (current s') /\ (configPath <> "" -> av_file s' = Some (current s')).
Proof.
  intros Hclone. unfold routeUpdate. rewrite Hclone. cbn zeta. unfold updated. set (name := TrimPrefix _ _).
  destruct (findRoute _ name) as [route|] eqn:Hf; cbn [mbind option_bind]; [|done]. unfold apply_or.
  pose proof (applyConfig_spec e (set_Routes (replace_route name (edit_route route (routeFromForm fv)) (c_Routes (current s))) (current s)) s) as Hs.
  destruct (applyConfig _ _ _ _) as [s1 [u|err]]; [|by unfold route_page, render; destruct (readFlash r)]. destruct Hs as [Hs _]. intros [= <-].
  destruct (replace_route_spec name route _ (edit_route route (routeFromForm fv)) Hf) as (l1 & l2 & Hl & Hn & Hb & Hr).
  exists l1, route, l2. rewrite Hn. rewrite Hr in Hs. destruct Hs as (Hs & Hv & Hw). rewrite Hs. done.
Qed.

(** Two forms served at the same time: both read the configuration, then both
    apply what they made of it. The first route is gone, though both answers
    say that a route was created. *)
Theorem console_lost_update e1 e2 s s1 s2 ra rb ca cb :
  rt_Name ra <> rt_Name rb ->
  created ra (current s) = Some ca -> created rb (current s) = Some cb ->
  applyConfig configPath e1 ca s = (s1, Ok tt) -> applyConfig configPath e2 cb s1 = (s2, Ok tt) ->
  is_Some (findRoute (c_Routes (current s1)) (rt_Name ra)) /\ findRoute (c_Routes (current s2)) (rt_Name ra) = None.
Proof.
  intros Hne Ha Hb U1 U2. pose proof (applyConfig_spec e1 ca s) as Hs1. rewrite U1 in Hs1. destruct Hs1 as [[Hs1 _] _].
  pose proof (applyConfig_spec e2 cb s1) as Hs2. rewrite U2 in Hs2. destruct Hs2 as [[Hs2 _] _].
  unfold created in Ha, Hb. destruct (findRoute _ (rt_Name ra)) eqn:Hfa; [done|]. destruct (findRoute _ (rt_Name rb)); [done|].
  injection Ha as <-. injection Hb as <-. rewrite Hs1, Hs2. cbn [c_Routes Normalize set_Routes].
  unfold findRoute in *. apply fmap_None, list_find_None in Hfa. split.
  - apply fmap_is_Some. destruct (list_find _ _) eqn:Hn; [done|]. apply list_find_None, Forall_fmap, Forall_app in Hn as [_ Hn%Forall_inv].
    by destruct Hn.
  - apply fmap_None, list_find_None. apply Forall_fmap, Forall_app. split; [exact Hfa|]. by apply Forall_singleton.
Qed.
End console.

(** ** Examples *)

Definition demo_api : GatewayAPI (@Gateway unit) HttpEnv :=
  gateway_api id tt (fun _ => Some tt) (fun _ => None) (fun z => z) id (fun _ => map_to_list) id (fun _ => Some ("https", "host"))
    (fun _ => "") (fun _ => "") (fun _ => "") (fun _ => []).

Definition demo_decoders : section_decoders :=
  mkDecoders (fun _ => Err "") (fun _ => Err "") (fun _ => Err "") (fun _ => Err "") (fun _ => Err "") (fun _ => Err "") (fun _ => Err "").

Definition demo_form (path cookies body : string) : http_request :=
  mkRequest "POST" path "" {["Content-Type" := "application/x-www-form-urlencoded"; "Cookie" := cookies]} "10.0.0.1:5000" body.

Definition demo_admin_env (token csrf : Z) (now : time) : @AdminEnv HttpEnv :=
  mkAdminEnv now now now now (Some (repeat token 32)) (Some (repeat csrf 32)) demo_http_env None.

Definition demo_console (evs : list (@console_event (@Gateway unit) HttpEnv)) : Server :=
  @console_run _ _ demo_api (fun ct => (ct, false)) "config.json" id (fun _ => "") (fun _ => "") (fun _ => Err "") demo_decoders evs (New demo_gateway).

Definition demo_login : @console_event (@Gateway unit) HttpEnv :=
  CRequest (demo_admin_env 0 4 100) (demo_form "/admin/login" "" "username=root&password=pw").

Definition zeros : string := "AAAAAAAAAAAAAAAAAAAAAAAAAAAAAAAAAAAAAAAAAAA".
Definition fours : string := "BAQEBAQEBAQEBAQEBAQEBAQEBAQEBAQEBAQEBAQEBAQ".

(** A form that changes the route r1, from a browser that is logged in. *)
Definition demo_edit : http_request :=
  demo_form "/admin/routes/r1" ("mysmpp_admin_session=" +:+ zeros) ("_csrf=" +:+ fours +:+ "&provider=up1&priority=9&prefix=86").

Definition demo_answer (evs : list (@console_event (@Gateway unit) HttpEnv)) : Server * answer :=
  @ServeHTTP _ _ demo_api (fun ct => (ct, false)) "config.json" id (fun _ => "") (fun _ => "") (fun _ => Err "") demo_decoders
    (demo_admin_env 0 4 200) demo_edit (demo_console evs).

(** Without the login the form does nothing; with it, the priority is set. *)
Lemma demo_edits :
  (rt_Priority <$> c_Routes (g_cfg (av_gateway (demo_answer []).1))) = [1]
  /\ (rt_Priority <$> c_Routes (g_cfg (av_gateway (demo_answer [demo_login]).1))) = [9].
Proof. vm_compute. split; reflexivity. Qed.

Lemma console_changes_need_login_witness :
  rq_Method demo_edit = "POST" /\ exists v, as_Token v = zeros /\ has_csrf (fun ct => (ct, false)) demo_edit v
    /\ exists evs1 e1 r1 evs2, [demo_login] = evs1 ++ CRequest e1 r1 :: evs2 /\ ae_now_get (demo_admin_env 0 4 200) <= ae_now_session e1 + 8 * Hour.
Proof.
  destruct (@console_changes_need_login _ _ demo_api (fun ct => (ct, false)) "config.json" id (fun _ => "") (fun _ => "") (fun _ => Err "") demo_decoders
    demo_gateway [demo_login] (demo_admin_env 0 4 200) demo_edit) as (Hm & v & Hc & Hf & evs1 & e1 & r1 & evs2 & He & _ & Hx & _).
  - apply or_introl. intros Heq. pose proof (f_equal (fun g => rt_Priority <$> c_Routes (g_cfg g)) Heq) as Hp. cbn beta in Hp.
    pose proof (proj2 demo_edits) as H9. unfold demo_answer, demo_console in H9. rewrite H9 in Hp. clear -Hp. revert Hp. vm_compute. discriminate.
  - split; [exact Hm|]. exists v. split; [|split; [exact Hf|]].
    + assert (cookie (header demo_edit "Cookie") sessionCookieName = Some zeros) as Hk by (vm_compute; reflexivity). rewrite Hk in Hc.
      injection Hc as <-. reflexivity.
    + exists evs1, e1, r1, evs2. split; [exact He|exact Hx].
Defined.

Lemma demo_laws : @GatewayLaws (@Gateway unit) HttpEnv demo_api (taken (fun _ : string => Some tt) (fun _ => None)).
Proof. apply gateway_laws. intros l. reflexivity. Qed.

Lemma demo_taken : taken (fun _ : string => Some tt) (fun _ => None) (g_cfg demo_gateway).
Proof.
  unfold taken. apply (validate_correct (fun z => bool_decide (is_Some ((fun _ => Some tt) z))) (fun _ => None) id (g_cfg demo_gateway) false).
  - intros l. reflexivity.
  - vm_compute. reflexivity.
Qed.

Definition demo_edited : list (@console_event (@Gateway unit) HttpEnv) := [demo_login; CRequest (demo_admin_env 0 4 200) demo_edit].

Lemma console_keeps_valid_witness :
  (rt_Priority <$> c_Routes (current (H := demo_api) (demo_console demo_edited))) = [9]
  /\ taken (fun _ : string => Some tt) (fun _ => None) (current (H := demo_api) (demo_console demo_edited)).
Proof.
  split; [vm_compute; reflexivity|].
  refine (proj1 (@console_keeps_valid _ _ demo_api (fun ct => (ct, false)) "config.json" id (fun _ => "") (fun _ => "") (fun _ => Err "") demo_decoders
    (taken (fun _ : string => Some tt) (fun _ => None)) demo_laws demo_gateway demo_edited demo_taken _)).
  unfold demo_edited, demo_login. rewrite !Forall_cons, Forall_nil. split; [|split; [|exact I]]; intros g Hg; discriminate.
Defined.

Definition demo_fields (key : string) : string :=
  field {["name" := "r2"; "provider" := "up1"; "priority" := "7"; "prefix" := "86"]} key.

Definition demo_session : Session := mkAdminSession zeros fours "root" 100 200.

Definition demo_saved : Server * answer :=
  @routeUpdate _ _ demo_api "config.json" id (demo_admin_env 0 4 200) demo_session demo_edit demo_fields (New demo_gateway).

Lemma route_update_effect_witness :
  exists l1 route l2, c_Routes (current (H := demo_api) (New demo_gateway)) = l1 ++ route :: l2 /\ rt_Name route = "r1"
    /\ current (H := demo_api) demo_saved.1
       = Normalize (set_Routes (l1 ++ edit_route route (routeFromForm demo_fields) :: l2) (current (H := demo_api) (New demo_gateway))).
Proof.
  destruct (@route_update_effect _ _ demo_api "config.json" id (taken (fun _ : string => Some tt) (fun _ => None)) demo_laws
    (demo_admin_env 0 4 200) demo_session demo_edit demo_fields (New demo_gateway) demo_saved.1) as (l1 & route & l2 & Hl & Hn & _ & Hs & _).
  - reflexivity.
  - vm_compute. reflexivity.
  - exists l1, route, l2. split; [exact Hl|]. split; [|exact Hs]. rewrite Hn. vm_compute. reflexivity.
Defined.

Definition demo_route_form (name : string) : RouteConfig := form_route name "up1" 0 ["86"].
Definition demo_created (name : string) : Config :=
  default Default (created (demo_route_form name) (current (H := demo_api) (New demo_gateway))).
Definition demo_apply (name : string) (s : Server) : Server * res string unit :=
  @applyConfig _ _ demo_api "config.json" (demo_admin_env 0 4 200) (demo_created name) s.

Lemma console_lost_update_witness :
  findRoute (c_Routes (current (H := demo_api) (demo_apply "r3" (demo_apply "r2" (New demo_gateway)).1).1)) "r2" = None.
Proof.
  refine (proj2 (@console_lost_update _ _ demo_api "config.json" (taken (fun _ : string => Some tt) (fun _ => None)) demo_laws
    (demo_admin_env 0 4 200) (demo_admin_env 0 4 200) (New demo_gateway) (demo_apply "r2" (New demo_gateway)).1
    (demo_apply "r3" (demo_apply "r2" (New demo_gateway)).1).1 (demo_route_form "r2") (demo_route_form "r3")
    (demo_created "r2") (demo_created "r3") _ _ _ _ _)).
  - discriminate.
  - vm_compute. reflexivity.
  - vm_compute. reflexivity.
  - vm_compute. reflexivity.
  - vm_compute. reflexivity.
Defined.
