(* ===== verification/Postgres.v ===== *)
(** * The Postgres store: internal/store/postgres.go over the schema of migrations/

    The tables as maps by primary key, each SQL statement as a function of them
    with its parameters bound and its values cast to their columns, transactions
    all or nothing. JSON documents, the rounding of times, the collation and the
    order of RETURNING are parameters, as are rows locked by other transactions.
    Statements that fail for want of a connection change nothing and are left out. *)

From S2P Require Import Prelude Unicode Codec Segment Num GoTime GoParse Records Store StoreInv.

(** ** Values and columns *)

(** Text the server takes: UTF-8 without the code point zero. *)
Definition text_ok (s : string) : bool :=
  bool_decide (string_of_runes (runes s) = s) && bool_decide (0 ∉ bytes_of_string s).

(** A statement with these text parameters is executed. *)
Definition bind_ok (params : list string) : bool := forallb text_ok params.

(** VARCHAR(n): what exceeds the length must be blanks, and is cut off. *)
Definition varchar (n : nat) (s : string) : option string :=
  if negb (text_ok s) then None
  else if (length (runes s) <=? n)%nat then Some s
  else if forallb (fun r => r =? 32) (drop n (runes s)) then Some (string_of_runes (take n (runes s)))
  else None.

Definition text (s : string) : option string := if text_ok s then Some s else None.

Definition int_within (lo hi v : Z) : option Z := if (lo <=? v) && (v <=? hi) then Some v else None.
Definition smallint : Z -> option Z := int_within (-32768) 32767.
Definition int4 : Z -> option Z := int_within (-2147483648) 2147483647.
Definition bigint : Z -> option Z := int_within (-9223372036854775808) 9223372036854775807.

(** [nullString], [nullTime]: the value or NULL; [COALESCE(column, '')]. *)
Definition nullString (column : string -> option string) (value : string) : option (option string) :=
  if bool_decide (value = "") then Some None else Some <$> column value.
Definition coalesce (v : option string) : string := default "" v.

Definition nullTime (value : time) : option time := if IsZero value then None else Some value.
Definition zeroAsNow (now value : time) : time := if IsZero value then now else value.

Definition dataCodingFromEncoding (encoding : string) : Z := if bool_decide (encoding = "ucs2") then 8 else 0.

(** ** Tables *)

Section tables.
Context {J : Type}.

Record message_row := mkMessageRow {
  mr_gateway_id : string;
  mr_provider_id : option string;
  mr_direction : Direction;
  mr_from_addr : string;
  mr_to_addr : string;
  mr_text : string;
  mr_encoding : option string;
  mr_data_coding : Z;
  mr_segments : Z;
  mr_route : option string;
  mr_provider : option string;
  mr_source_kind : option string;
  mr_source_session : option string;
  mr_client_id : option string;
  mr_tenant_id : option string;
  mr_account_id : option string;
  mr_client_msg_id : option string;
  mr_state : string;
  mr_error_code : Z;
  mr_received_at : time;
  mr_sent_at : option time;
  mr_done_at : option time;
  mr_meta : J }.

Record pending_row := mkPendingRow {
  pr_provider : string;
  pr_provider_id : string;
  pr_gateway_id : string;
  pr_tenant_id : option string;
  pr_account_id : option string;
  pr_client_msg_id : option string;
  pr_segment_index : Z;
  pr_segment_count : Z;
  pr_source_kind : string;
  pr_source_session : option string;
  pr_source_system : option string;
  pr_callback_url : option string;
  pr_callback_rule : option string;
  pr_from_addr : option string;
  pr_to_addr : option string;
  pr_text : option string;
  pr_data_coding : Z;
  pr_registered_delivery : Z;
  pr_route : option string;
  pr_received_at : time;
  pr_expires_at : time;
  pr_dlr_ready : bool;
  pr_dlr_delivered : bool;
  pr_dlr_state : option string;
  pr_dlr_err : Z;
  pr_dlr_done_at : option time }.

Record outbox_row := mkOutboxRow {
  or_id : Z;
  or_gateway_id : string;
  or_provider : string;
  or_payload : J;
  or_state : string;
  or_claimed_by : option string;
  or_claimed_at : option time;
  or_next_retry_at : time;
  or_attempt : Z;
  or_max_attempts : Z;
  or_last_error : option string;
  or_created_at : time }.

(** The outbox has a sequence for its ids; the others have the keys of their maps. *)
Record DB := mkDB {
  db_messages : gmap string message_row;
  db_pending : gmap (string * string) pending_row;
  db_outbox : gmap Z outbox_row;
  db_outbox_seq : Z;
  db_idempotency : gmap (string * string) (string * time);
  db_quota : gmap (string * string) Z;
  db_id_alloc : option Z }.

Definition db_set_messages (v : gmap string message_row) (d : DB) : DB :=
  mkDB v (db_pending d) (db_outbox d) (db_outbox_seq d) (db_idempotency d) (db_quota d) (db_id_alloc d).
Definition db_set_pending (v : gmap (string * string) pending_row) (d : DB) : DB :=
  mkDB (db_messages d) v (db_outbox d) (db_outbox_seq d) (db_idempotency d) (db_quota d) (db_id_alloc d).
Definition db_set_outbox (v : gmap Z outbox_row) (d : DB) : DB :=
  mkDB (db_messages d) (db_pending d) v (db_outbox_seq d) (db_idempotency d) (db_quota d) (db_id_alloc d).
Definition db_set_outbox_seq (v : Z) (d : DB) : DB :=
  mkDB (db_messages d) (db_pending d) (db_outbox d) v (db_idempotency d) (db_quota d) (db_id_alloc d).
Definition db_set_idempotency (v : gmap (string * string) (string * time)) (d : DB) : DB :=
  mkDB (db_messages d) (db_pending d) (db_outbox d) (db_outbox_seq d) v (db_quota d) (db_id_alloc d).
Definition db_set_quota (v : gmap (string * string) Z) (d : DB) : DB :=
  mkDB (db_messages d) (db_pending d) (db_outbox d) (db_outbox_seq d) (db_idempotency d) v (db_id_alloc d).
Definition db_set_id_alloc (v : option Z) (d : DB) : DB :=
  mkDB (db_messages d) (db_pending d) (db_outbox d) (db_outbox_seq d) (db_idempotency d) (db_quota d) v.

(** ** Assignments of UPDATE statements *)

Definition mr_set_sent (provider_id : string) (now : time) (r : message_row) : message_row :=
  {| mr_gateway_id := mr_gateway_id r; mr_provider_id := Some provider_id; mr_direction := mr_direction r;
     mr_from_addr := mr_from_addr r; mr_to_addr := mr_to_addr r; mr_text := mr_text r; mr_encoding := mr_encoding r;
     mr_data_coding := mr_data_coding r; mr_segments := mr_segments r; mr_route := mr_route r; mr_provider := mr_provider r;
     mr_source_kind := mr_source_kind r; mr_source_session := mr_source_session r; mr_client_id := mr_client_id r;
     mr_tenant_id := mr_tenant_id r; mr_account_id := mr_account_id r; mr_client_msg_id := mr_client_msg_id r;
     mr_state := "sent"; mr_error_code := mr_error_code r; mr_received_at := mr_received_at r; mr_sent_at := Some now;
     mr_done_at := mr_done_at r; mr_meta := mr_meta r |}.

Definition mr_set_state (state : string) (errCode : Z) (now : time) (r : message_row) : message_row :=
  {| mr_gateway_id := mr_gateway_id r; mr_provider_id := mr_provider_id r; mr_direction := mr_direction r;
     mr_from_addr := mr_from_addr r; mr_to_addr := mr_to_addr r; mr_text := mr_text r; mr_encoding := mr_encoding r;
     mr_data_coding := mr_data_coding r; mr_segments := mr_segments r; mr_route := mr_route r; mr_provider := mr_provider r;
     mr_source_kind := mr_source_kind r; mr_source_session := mr_source_session r; mr_client_id := mr_client_id r;
     mr_tenant_id := mr_tenant_id r; mr_account_id := mr_account_id r; mr_client_msg_id := mr_client_msg_id r;
     mr_state := state; mr_error_code := errCode; mr_received_at := mr_received_at r; mr_sent_at := mr_sent_at r;
     mr_done_at := Some now; mr_meta := mr_meta r |}.

(** The report columns of a pending row. *)
Definition pr_set_dlr (ready delivered : bool) (state : option string) (errCode : Z) (doneAt : option time) (r : pending_row) : pending_row :=
  {| pr_provider := pr_provider r; pr_provider_id := pr_provider_id r; pr_gateway_id := pr_gateway_id r;
     pr_tenant_id := pr_tenant_id r; pr_account_id := pr_account_id r; pr_client_msg_id := pr_client_msg_id r;
     pr_segment_index := pr_segment_index r; pr_segment_count := pr_segment_count r; pr_source_kind := pr_source_kind r;
     pr_source_session := pr_source_session r; pr_source_system := pr_source_system r; pr_callback_url := pr_callback_url r;
     pr_callback_rule := pr_callback_rule r; pr_from_addr := pr_from_addr r; pr_to_addr := pr_to_addr r; pr_text := pr_text r;
     pr_data_coding := pr_data_coding r; pr_registered_delivery := pr_registered_delivery r; pr_route := pr_route r;
     pr_received_at := pr_received_at r; pr_expires_at := pr_expires_at r; pr_dlr_ready := ready; pr_dlr_delivered := delivered;
     pr_dlr_state := state; pr_dlr_err := errCode; pr_dlr_done_at := doneAt |}.

(** State, owner, retry time, attempts and last error of an outbox row. *)
Definition or_set (state : string) (claimed_by : option string) (claimed_at : option time) (next : time) (attempt : Z)
    (last_error : option string) (r : outbox_row) : outbox_row :=
  mkOutboxRow (or_id r) (or_gateway_id r) (or_provider r) (or_payload r) state claimed_by claimed_at next attempt
    (or_max_attempts r) last_error (or_created_at r).

Definition or_set_state (state : string) (r : outbox_row) : outbox_row :=
  or_set state (or_claimed_by r) (or_claimed_at r) (or_next_retry_at r) (or_attempt r) (or_last_error r) r.

Definition or_set_payload (p : J) (r : outbox_row) : outbox_row :=
  mkOutboxRow (or_id r) (or_gateway_id r) (or_provider r) p (or_state r) (or_claimed_by r) (or_claimed_at r) (or_next_retry_at r)
    (or_attempt r) (or_max_attempts r) (or_last_error r) (or_created_at r).
End tables.
Arguments DB : clear implicits.
Arguments message_row : clear implicits.
Arguments outbox_row : clear implicits.

Definition value_err : store_err := StoreError "value not accepted".
Definition no_rows : store_err := StoreError "no rows".

(** [checkRows], for a statement by primary key. *)
Definition checkRows {A} (affected : bool) (ok : A) : res store_err A := if affected then Ok ok else Err ErrNotFound.

Section postgres.
Context {J : Type}.
(** JSONB columns: a document the server does not take is [None]; reading one
    may fail; [json_delete] is the operator that removes keys. *)
Context (meta_json : option (gmap string string) -> option J) (json_meta : J -> option (option (gmap string string))).
Context (payload_json : OutboxPayload -> option J) (json_payload : J -> option OutboxPayload) (json_delete : list string -> J -> J).
(** TIMESTAMPTZ keeps microseconds; text is ordered by a collation. *)
Context (pg_time : time -> time) (text_lt : string -> string -> bool).

Abbreviation DB := (DB J).
Abbreviation message_row := (message_row J).
Abbreviation outbox_row := (outbox_row J).
Implicit Types (d : DB).

(** ** Messages *)

Definition new_message_row (now : time) (msg : Message) : option message_row :=
  meta ← meta_json (msg_Metadata msg);
  gateway_id ← varchar 64 (msg_ID msg);
  provider_id ← nullString (varchar 128) (msg_ProviderID msg);
  from_addr ← varchar 32 (msg_From msg);
  to_addr ← varchar 32 (msg_To msg);
  txt ← text (msg_Text msg);
  encoding ← nullString (varchar 8) (msg_Encoding msg);
  segments ← smallint (if bool_decide (msg_Segments msg = []) then 1 else Z.of_nat (length (msg_Segments msg)));
  route ← nullString (varchar 64) (msg_Route msg);
  provider ← nullString (varchar 64) (msg_Provider msg);
  source_kind ← nullString (varchar 16) (msg_SourceKind msg);
  source_session ← nullString (varchar 64) (msg_SourceID msg);
  client_id ← nullString (varchar 64) (meta_get (msg_Metadata msg) "client_id");
  tenant_id ← nullString (varchar 64) (msg_TenantID msg);
  account_id ← nullString (varchar 64) (msg_AccountID msg);
  client_msg_id ← nullString (varchar 128) (msg_ClientMsgID msg);
  state ← varchar 16 (msg_State msg);
  error_code ← int4 (msg_ErrorCode msg);
  Some {| mr_gateway_id := gateway_id; mr_provider_id := provider_id; mr_direction := msg_Direction msg; mr_from_addr := from_addr;
          mr_to_addr := to_addr; mr_text := txt; mr_encoding := encoding; mr_data_coding := dataCodingFromEncoding (msg_Encoding msg);
          mr_segments := segments; mr_route := route; mr_provider := provider; mr_source_kind := source_kind;
          mr_source_session := source_session; mr_client_id := client_id; mr_tenant_id := tenant_id; mr_account_id := account_id;
          mr_client_msg_id := client_msg_id; mr_state := state; mr_error_code := error_code;
          mr_received_at := pg_time (zeroAsNow now (msg_SubmittedAt msg)); mr_sent_at := pg_time <$> nullTime (msg_SentAt msg);
          mr_done_at := pg_time <$> nullTime (msg_DoneAt msg); mr_meta := meta |}.

(** [saveMessageSQL]: a row under the same id is overwritten. *)
Definition saveMessageSQL (now : time) (msg : Message) d : res store_err DB :=
  match new_message_row now msg with
  | None => Err value_err
  | Some r => Ok (db_set_messages (<[mr_gateway_id r := r]> (db_messages d)) d)
  end.

(** [scanMessage]; [ref] is what [randomReference] drew. *)
Definition scanMessage (ref : Z) (r : message_row) : Message :=
  {| msg_ID := mr_gateway_id r; msg_ProviderID := coalesce (mr_provider_id r); msg_TenantID := coalesce (mr_tenant_id r);
     msg_AccountID := coalesce (mr_account_id r); msg_ClientMsgID := coalesce (mr_client_msg_id r); msg_Direction := mr_direction r;
     msg_From := mr_from_addr r; msg_To := mr_to_addr r; msg_Text := mr_text r; msg_Encoding := coalesce (mr_encoding r);
     msg_Route := coalesce (mr_route r); msg_Provider := coalesce (mr_provider r); msg_SourceKind := coalesce (mr_source_kind r);
     msg_SourceID := coalesce (mr_source_session r); msg_State := mr_state r; msg_ErrorCode := mr_error_code r;
     msg_Segments := Split (mr_text r) (coalesce (mr_encoding r)) ref; msg_Metadata := default (Some ∅) (json_meta (mr_meta r));
     msg_SubmittedAt := mr_received_at r; msg_SentAt := default 0 (mr_sent_at r); msg_DoneAt := default 0 (mr_done_at r) |}.

Definition pg_GetMessage (ref : Z) (gatewayID : string) d : res store_err (option Message) :=
  if bind_ok [gatewayID] then Ok (scanMessage ref <$> db_messages d !! gatewayID) else Err value_err.

(** An UPDATE of the row of a primary key; the new row may not fit its columns. *)
Definition update_message (gatewayID : string) (f : message_row -> option message_row) d : res store_err (DB * bool) :=
  match db_messages d !! gatewayID with
  | None => Ok (d, false)
  | Some r => match f r with None => Err value_err | Some r => Ok (db_set_messages (<[gatewayID := r]> (db_messages d)) d, true) end
  end.

(** A statement of its own: what it did, or nothing. *)
Definition statement {A} (r : res store_err (DB * A)) d : DB * res store_err A :=
  match r with Ok (d', a) => (d', Ok a) | Err e => (d, Err e) end.

Definition checked_rows (r : res store_err (DB * bool)) : res store_err (DB * unit) :=
  match r with Ok (d, affected) => if affected then Ok (d, tt) else Err ErrNotFound | Err e => Err e end.

Definition sent_message (db_now : time) (gatewayID providerID : string) d : res store_err (DB * bool) :=
  if bind_ok [gatewayID; providerID]
  then update_message gatewayID (fun r => providerID ← varchar 128 providerID; Some (mr_set_sent providerID db_now r)) d
  else Err value_err.

Definition pg_UpdateMessageSent (db_now : time) (gatewayID providerID : string) d : DB * res store_err unit :=
  statement (checked_rows (sent_message db_now gatewayID providerID d)) d.

Definition pg_UpdateMessageState (db_now : time) (gatewayID state : string) (errCode : Z) d : DB * res store_err unit :=
  statement
    (checked_rows
       (if bind_ok [gatewayID; state] && bool_decide (is_Some (int4 errCode))
        then update_message gatewayID (fun r => state ← varchar 16 state; Some (mr_set_state state errCode db_now r)) d
        else Err value_err)) d.

Definition pg_SaveMessage (now : time) (msg : Message) d : DB * res store_err unit :=
  statement (d' ← saveMessageSQL now msg d; Ok (d', tt)) d.

Definition page_less (a b : message_row) : bool :=
  if mr_received_at a =? mr_received_at b then text_lt (mr_gateway_id a) (mr_gateway_id b) else mr_received_at a <? mr_received_at b.

(** [refs] are the references drawn, one for each message. *)
Definition pg_ListMessagesPage (refs : string -> Z) (opts : ListOptions) d : res store_err (list Message) :=
  let limit := if (lo_Limit opts <=? 0) || (1000 <? lo_Limit opts) then 100 else lo_Limit opts in
  let offset := Z.max (lo_Offset opts) 0 in
  if bind_ok [lo_ClientID opts] then
    let rows := (map_to_list (db_messages d)).*2 in
    let rows := if bool_decide (lo_ClientID opts = "") then rows else filter (fun r => mr_client_id r = Some (lo_ClientID opts)) rows in
    Ok ((fun r => scanMessage (refs (mr_gateway_id r)) r) <$> take (Z.to_nat limit) (drop (Z.to_nat offset) (sort_stable page_less rows)))
  else Err value_err.

Definition pg_ListMessages (refs : string -> Z) d : res store_err (list Message) := pg_ListMessagesPage refs (mkListOptions 100 0 "") d.

(** ** Pending reports *)

Definition new_pending_row (now : time) (p : Pending) : option pending_row :=
  let p := normalizePending p in
  provider ← varchar 64 (p_Provider p);
  provider_id ← varchar 128 (p_ProviderID p);
  gateway_id ← varchar 64 (p_GatewayID p);
  tenant_id ← nullString (varchar 64) (p_TenantID p);
  account_id ← nullString (varchar 64) (p_AccountID p);
  client_msg_id ← nullString (varchar 128) (p_ClientMsgID p);
  segment_index ← smallint (p_SegmentIndex p);
  segment_count ← smallint (p_SegmentCount p);
  source_kind ← varchar 16 (p_SourceKind p);
  source_session ← nullString (varchar 64) (p_SourceSession p);
  source_system ← nullString (varchar 64) (p_SourceSystem p);
  callback_url ← nullString text (p_CallbackURL p);
  callback_rule ← nullString text (p_CallbackRule p);
  from_addr ← nullString (varchar 32) (p_From p);
  to_addr ← nullString (varchar 32) (p_To p);
  txt ← nullString text (p_Text p);
  route ← nullString (varchar 64) (p_Route p);
  dlr_state ← nullString (varchar 16) (p_DLRState p);
  dlr_err ← int4 (p_DLRErrorCode p);
  Some {| pr_provider := provider; pr_provider_id := provider_id; pr_gateway_id := gateway_id; pr_tenant_id := tenant_id;
          pr_account_id := account_id; pr_client_msg_id := client_msg_id; pr_segment_index := segment_index;
          pr_segment_count := segment_count; pr_source_kind := source_kind; pr_source_session := source_session;
          pr_source_system := source_system; pr_callback_url := callback_url; pr_callback_rule := callback_rule;
          pr_from_addr := from_addr; pr_to_addr := to_addr; pr_text := txt; pr_data_coding := p_DataCoding p;
          pr_registered_delivery := p_RegisteredDelivery p; pr_route := route;
          pr_received_at := pg_time (zeroAsNow now (p_ReceivedAt p)); pr_expires_at := pg_time (p_ExpiresAt p);
          pr_dlr_ready := p_DLRReady p; pr_dlr_delivered := p_DLRDelivered p; pr_dlr_state := dlr_state; pr_dlr_err := dlr_err;
          pr_dlr_done_at := pg_time <$> nullTime (p_DLRDoneAt p) |}.

Definition savePendingSQL (now : time) (p : Pending) d : res store_err DB :=
  match new_pending_row now p with
  | None => Err value_err
  | Some r => Ok (db_set_pending (<[(pr_provider r, pr_provider_id r) := r]> (db_pending d)) d)
  end.

Definition scanPending (r : pending_row) : Pending :=
  {| p_ProviderID := pr_provider_id r; p_GatewayID := pr_gateway_id r; p_TenantID := coalesce (pr_tenant_id r);
     p_AccountID := coalesce (pr_account_id r); p_ClientMsgID := coalesce (pr_client_msg_id r);
     p_SegmentIndex := pr_segment_index r; p_SegmentCount := pr_segment_count r; p_SourceKind := pr_source_kind r;
     p_SourceSession := coalesce (pr_source_session r); p_SourceSystem := coalesce (pr_source_system r);
     p_CallbackURL := coalesce (pr_callback_url r); p_CallbackRule := coalesce (pr_callback_rule r);
     p_From := coalesce (pr_from_addr r); p_To := coalesce (pr_to_addr r); p_Text := coalesce (pr_text r);
     p_DataCoding := u8 (pr_data_coding r); p_RegisteredDelivery := u8 (pr_registered_delivery r); p_Provider := pr_provider r;
     p_Route := coalesce (pr_route r); p_ReceivedAt := pr_received_at r; p_ExpiresAt := pr_expires_at r;
     p_DLRReady := pr_dlr_ready r; p_DLRDelivered := pr_dlr_delivered r; p_DLRState := coalesce (pr_dlr_state r);
     p_DLRErrorCode := pr_dlr_err r; p_DLRDoneAt := default 0 (pr_dlr_done_at r) |}.

Definition pg_SavePending (now : time) (p : Pending) d : DB * res store_err unit := statement (d' ← savePendingSQL now p d; Ok (d', tt)) d.

Definition pg_GetPending (provider providerID : string) d : res store_err (option Pending) :=
  if bind_ok [provider; providerID] then Ok (scanPending <$> db_pending d !! (provider, providerID)) else Err value_err.

Definition pending_order (a b : pending_row) : bool :=
  if pr_segment_index a =? pr_segment_index b then
    if bool_decide (pr_provider a = pr_provider b) then text_lt (pr_provider_id a) (pr_provider_id b)
    else text_lt (pr_provider a) (pr_provider b)
  else pr_segment_index a <? pr_segment_index b.

Definition pg_ListPendingByGatewayID (gatewayID : string) d : res store_err (list Pending) :=
  if bind_ok [gatewayID] then
    Ok (scanPending <$> sort_stable pending_order (filter (fun r => pr_gateway_id r = gatewayID) (map_to_list (db_pending d)).*2))
  else Err value_err.

Definition update_pending (provider providerID : string) (f : pending_row -> option pending_row) d : res store_err (DB * bool) :=
  match db_pending d !! (provider, providerID) with
  | None => Ok (d, false)
  | Some r =>
    match f r with
    | None => Err value_err
    | Some r => Ok (db_set_pending (<[(provider, providerID) := r]> (db_pending d)) d, true)
    end
  end.

(** The two statements that record a report, with the new value of the ready column. *)
Definition record_dlr (now : time) (ready : pending_row -> bool) (provider providerID state : string) (errCode : Z) (doneAt : time) d
    : DB * res store_err unit :=
  statement
    (checked_rows
       (if bind_ok [provider; providerID; state] && bool_decide (is_Some (int4 errCode))
        then update_pending provider providerID
               (fun r => state ← varchar 16 state;
                         Some (pr_set_dlr (ready r) false (Some state) errCode (Some (pg_time (zeroAsNow now doneAt))) r)) d
        else Err value_err)) d.

Definition pg_UpdatePendingDLR (now : time) (provider providerID state : string) (errCode : Z) (doneAt : time) d : DB * res store_err unit :=
  record_dlr now pr_dlr_ready provider providerID state errCode doneAt d.
Definition pg_MarkDLRReady (now : time) (provider providerID state : string) (errCode : Z) (doneAt : time) d : DB * res store_err unit :=
  record_dlr now (fun _ => true) provider providerID state errCode doneAt d.

Definition pg_MarkDLRDelivered (provider providerID : string) d : DB * res store_err unit :=
  statement
    (checked_rows
       (if bind_ok [provider; providerID]
        then update_pending provider providerID
               (fun r => Some (pr_set_dlr false true (pr_dlr_state r) (pr_dlr_err r) (pr_dlr_done_at r) r)) d
        else Err value_err)) d.

Definition ready_order (a b : pending_row) : bool :=
  if pr_received_at a =? pr_received_at b then
    if bool_decide (pr_provider a = pr_provider b) then text_lt (pr_provider_id a) (pr_provider_id b)
    else text_lt (pr_provider a) (pr_provider b)
  else pr_received_at a <? pr_received_at b.

Definition pg_ListReadyDLR (systemID : string) (limit : Z) d : res store_err (list Pending) :=
  let limit := if limit <=? 0 then 100 else limit in
  if bind_ok [systemID] then
    let rows := filter (fun r => pr_dlr_ready r = true /\ (systemID = "" \/ pr_source_system r = Some systemID)) (map_to_list (db_pending d)).*2 in
    Ok (scanPending <$> take (Z.to_nat limit) (sort_stable ready_order rows))
  else Err value_err.

Definition pg_DeletePending (provider providerID : string) d : DB * res store_err unit :=
  if bind_ok [provider; providerID] then (db_set_pending (delete (provider, providerID) (db_pending d)) d, Ok tt) else (d, Err value_err).

Definition pg_DeletePendingByGatewayID (gatewayID : string) d : DB * res store_err unit :=
  if bind_ok [gatewayID] then (db_set_pending (filter (fun kr => pr_gateway_id kr.2 <> gatewayID) (db_pending d)) d, Ok tt)
  else (d, Err value_err).

(** At most ten thousand rows, those that expired first. *)
Definition pg_SweepExpiredPending (before : time) d : DB * Z :=
  let due := filter (fun kr => pr_dlr_ready kr.2 = false /\ pr_expires_at kr.2 < pg_time before) (map_to_list (db_pending d)) in
  let due := take (Z.to_nat 10000) (sort_stable (fun a b => pr_expires_at a.2 <? pr_expires_at b.2) due) in
  (db_set_pending (foldl (fun m kr => delete kr.1 m) (db_pending d) due) d, Z.of_nat (length due)).

Definition pg_PendingSize (db_now : time) d : Z :=
  Z.of_nat (size (filter (fun kr : (string * string) * pending_row => pr_dlr_ready kr.2 = true \/ db_now <= pr_expires_at kr.2) (db_pending d))).

(** ** Gateway ids *)

Definition pg_ReserveGatewayIDRange (span : Z) d : DB * res store_err (Z * Z) :=
  let span := if span =? 0 then 1 else span in
  if 2 ^ 63 - 1 <? span then (d, Err (StoreError "id allocation span too large"))
  else
    match bigint (default 0 (db_id_alloc d) + span) with
    | None => (d, Err value_err)
    | Some last =>
      let d := db_set_id_alloc (Some last) d in
      if last <? 0 then (d, Err (StoreError "id allocation high water is negative")) else (d, Ok (u64 (last - span + 1), last))
    end.

(** ** The outbox *)

(** The defaults filled in before the INSERT. *)
Definition outbox_new (now : time) (item : OutboxItem) : OutboxItem :=
  let item := if bool_decide (ob_State item = "") then ob_set_State "pending" item else item in
  let item := if IsZero (ob_NextRetryAt item) then ob_set_NextRetryAt now item else item in
  if ob_MaxAttempts item <=? 0 then ob_set_MaxAttempts 5 item else item.

(** [INSERT INTO outbox ... RETURNING id]; the other columns have their defaults.
    A number drawn by an insertion that fails is not counted. *)
Definition insert_outbox (now db_now : time) (item : OutboxItem) d : res store_err (DB * Z) :=
  let item := outbox_new now item in
  let id := db_outbox_seq d + 1 in
  let row :=
    payload ← payload_json (ob_Payload item);
    gateway_id ← varchar 64 (ob_GatewayID item);
    provider ← varchar 64 (ob_Provider item);
    state ← varchar 16 (ob_State item);
    max_attempts ← int4 (ob_MaxAttempts item);
    Some (mkOutboxRow id gateway_id provider payload state None None (pg_time (ob_NextRetryAt item)) 0 max_attempts None db_now) in
  match row with
  | None => Err value_err
  | Some r => Ok (db_set_outbox_seq id (db_set_outbox (<[id := r]> (db_outbox d)) d), id)
  end.

Definition pg_EnqueueOutbox (now db_now : time) (item : OutboxItem) d : DB * res store_err Z := statement (insert_outbox now db_now item d) d.

Definition scanOutbox (r : outbox_row) : option OutboxItem :=
  payload ← json_payload (or_payload r);
  claimed_at ← or_claimed_at r;
  Some (mkOutboxItem (or_id r) (or_gateway_id r) (or_provider r) payload (or_state r) (coalesce (or_claimed_by r)) claimed_at
    (or_next_retry_at r) (or_attempt r) (or_max_attempts r) (coalesce (or_last_error r)) (or_created_at r)).

Definition claimable_row (db_now : time) (locked : Z -> bool) (r : outbox_row) : bool :=
  bool_decide (or_state r = "pending") && (or_next_retry_at r <=? db_now) && negb (locked (or_id r)).

Definition claim_order (a b : outbox_row) : bool :=
  if or_next_retry_at a =? or_next_retry_at b then or_id a <? or_id b else or_next_retry_at a <? or_next_retry_at b.

Definition claim_row (workerID : string) (db_now : time) (r : outbox_row) : outbox_row :=
  or_set "claimed" (Some workerID) (Some db_now) (or_next_retry_at r) (or_attempt r + 1) (or_last_error r) r.

Definition claim_rows (db_now : time) (locked : Z -> bool) (limit : Z) d : list outbox_row :=
  let limit := if limit <=? 0 then 1 else limit in
  take (Z.to_nat limit) (sort_stable claim_order (filter (fun r => claimable_row db_now locked r = true) (map_to_list (db_outbox d)).*2)).

Definition write_rows (rows : list outbox_row) d : DB :=
  db_set_outbox (foldl (fun m r => <[or_id r := r]> m) (db_outbox d) rows) d.

(** [locked] are rows of other transactions, which are skipped; [returning] is
    the order of the rows returned. *)
Definition pg_ClaimOutbox (db_now : time) (locked : Z -> bool) (returning : list outbox_row -> list outbox_row) (workerID : string) (limit : Z) d
    : DB * res store_err (list OutboxItem) :=
  let rows := claim_rows db_now locked limit d in
  if negb (bind_ok [workerID]) then (d, Err value_err)
  else
    match varchar 64 workerID with
    | None => (d, if bool_decide (rows = []) then Ok [] else Err value_err)
    | Some worker =>
      let rows := claim_row worker db_now <$> rows in
      if existsb (fun r => bool_decide (int4 (or_attempt r) = None)) rows then (d, Err value_err)
      else (write_rows rows d, match mapM scanOutbox (returning rows) with Some items => Ok items | None => Err value_err end)
    end.

Definition sending_already (id : Z) (workerID : string) d : DB * res store_err unit :=
  match db_outbox d !! id with
  | None => (d, Err ErrNotFound)
  | Some r =>
    if bool_decide (or_state r = "sending") && bool_decide (coalesce (or_claimed_by r) = workerID) then (d, Ok tt)
    else (d, Err (StoreError "outbox is not claimed by worker"))
  end.

Definition claimed_by (workerID : string) (r : outbox_row) : bool :=
  bool_decide (or_state r = "claimed") && bool_decide (or_claimed_by r = Some workerID).

(** Two statements; [other] is what happens to the tables in between. *)
Definition pg_MarkOutboxSending (other : DB -> DB) (id : Z) (workerID : string) d : DB * res store_err unit :=
  if negb (bind_ok [workerID]) then (d, Err value_err)
  else
    match db_outbox d !! id with
    | Some r =>
      if claimed_by workerID r then (db_set_outbox (<[id := or_set_state "sending" r]> (db_outbox d)) d, Ok tt)
      else sending_already id workerID (other d)
    | None => sending_already id workerID (other d)
    end.

(** The keys of the payload that a closed item loses. *)
Definition scrubbed : list string :=
  ["udh"; "raw_payload"; "raw_payload_set"; "sar_ref_num"; "sar_total_segments"; "sar_segment_seqnum"; "sar_set"].

Definition close_row (r : outbox_row) : outbox_row := or_set_payload (json_delete scrubbed (or_payload r)) (or_set_state "done" r).

Definition row_item (gatewayID provider : string) (id : Z) : OutboxItem :=
  mkOutboxItem id gatewayID provider
    {| op_GatewayID := ""; op_TenantID := ""; op_AccountID := ""; op_ClientMsgID := ""; op_Provider := ""; op_Route := ""; op_From := "";
       op_To := ""; op_Text := ""; op_DataCoding := 0; op_RegisteredDelivery := 0; op_Encoding := ""; op_Meta := None; op_SourceKind := "";
       op_SourceSession := ""; op_SourceSystem := ""; op_CallbackURL := ""; op_CallbackRule := ""; op_ReceivedAt := 0; op_UDH := [];
       op_RawPayload := []; op_RawPayloadSet := false; op_SARRefNum := []; op_SARTotalSegments := []; op_SARSegmentSeqnum := []; op_SARSet := false |}
    "" "" 0 0 0 0 "" 0.

Fixpoint save_records (now : time) (recs : list Pending) d : res store_err DB :=
  match recs with
  | [] => Ok d
  | rec :: recs => d ← savePendingSQL now rec d; save_records now recs d
  end.

(** One transaction; the row of the item is locked from the first statement on. *)
Definition pg_CompleteOutboxSend (now db_now : time) (id : Z) (workerID : string) (pending : list Pending) d : DB * res store_err unit :=
  match db_outbox d !! id with
  | None => (d, Err ErrNotFound)
  | Some r =>
    if bool_decide (or_state r = "done") then (d, Ok tt)
    else if negb (bool_decide (or_state r = "sending")) || negb (bool_decide (coalesce (or_claimed_by r) = workerID))
    then (d, Err (StoreError "outbox is not sending for worker"))
    else
      statement
        (pending ← validateOutboxCompletion (row_item (or_gateway_id r) (or_provider r) id) pending;
         let providerID := match pending with p :: _ => p_ProviderID p | [] => "" end in
         d1 ← checked_rows (sent_message db_now (or_gateway_id r) providerID d);
         d2 ← save_records now pending d1.1;
         Ok (db_set_outbox (<[id := close_row r]> (db_outbox d2)) d2, tt)) d
  end.

Definition pg_MarkOutboxUncertain (db_now : time) (id : Z) (workerID errMsg : string) d : DB * res store_err unit :=
  match db_outbox d !! id with
  | None => (d, Err ErrNotFound)
  | Some r =>
    if (negb (bool_decide (or_state r = "sending")) && negb (bool_decide (or_state r = "uncertain")))
       || negb (bool_decide (coalesce (or_claimed_by r) = workerID))
    then (d, Err (StoreError "outbox is not sending for worker"))
    else
      statement
        (errMsg ← (match text errMsg with Some e => Ok e | None => Err value_err end);
         let r' := or_set "uncertain" (or_claimed_by r) (or_claimed_at r) (or_next_retry_at r) (or_attempt r) (Some errMsg) r in
         checked_rows
           (update_message (or_gateway_id r) (fun m => Some (mr_set_state "UNKNOWN" 1 db_now m))
              (db_set_outbox (<[id := r']> (db_outbox d)) d))) d
  end.

Definition stale_row (before : time) (locked : Z -> bool) (r : outbox_row) : bool :=
  bool_decide (or_state r = "claimed") && (match or_claimed_at r with Some t => t <? pg_time before | None => false end)
  && negb (locked (or_id r)).

Definition stale_order (a b : outbox_row) : bool :=
  let t := default 0 (or_claimed_at a) in
  let u := default 0 (or_claimed_at b) in
  if t =? u then or_id a <? or_id b else t <? u.

Definition requeue_row (db_now : time) (r : outbox_row) : outbox_row :=
  or_set "pending" None None (Z.min (or_next_retry_at r) db_now) (or_attempt r) (or_last_error r) r.

Definition pg_RequeueStaleOutbox (db_now : time) (locked : Z -> bool) (before : time) (limit : Z) d : DB * Z :=
  let limit := if limit <=? 0 then 1000 else limit in
  let due := take (Z.to_nat limit)
    (sort_stable stale_order (filter (fun r => stale_row before locked r = true) (map_to_list (db_outbox d)).*2)) in
  (write_rows (requeue_row db_now <$> due) d, Z.of_nat (length due)).

(** An UPDATE of the row of an id under a condition. *)
Definition update_outbox (id : Z) (cond : outbox_row -> bool) (f : outbox_row -> outbox_row) d : res store_err (DB * bool) :=
  match db_outbox d !! id with
  | Some r => if cond r then Ok (db_set_outbox (<[id := f r]> (db_outbox d)) d, true) else Ok (d, false)
  | None => Ok (d, false)
  end.

Definition pg_AckOutbox (id : Z) d : DB * res store_err unit :=
  statement (checked_rows (update_outbox id (fun r => bool_decide (or_state r = "claimed")) close_row d)) d.

Definition pg_FailOutbox (id : Z) (errMsg : string) (nextRetryAt : time) d : DB * res store_err unit :=
  let state := if IsZero nextRetryAt then "failed" else "pending" in
  let allowed := if bool_decide (state = "failed") then "sending" else "claimed" in
  statement
    (checked_rows
       (if bind_ok [errMsg] then
          update_outbox id (fun r => bool_decide (or_state r = "claimed") || bool_decide (or_state r = allowed))
            (fun r => or_set state None None (default (or_next_retry_at r) (pg_time <$> nullTime nextRetryAt)) (or_attempt r) (Some errMsg) r) d
        else Err value_err)) d.

Definition pg_OutboxDepth (state : string) d : res store_err Z :=
  if bind_ok [state] then
    Ok (Z.of_nat (size (filter (fun kr : Z * outbox_row => state = "" \/ or_state kr.2 = state) (db_outbox d))))
  else Err value_err.

(** ** Idempotency and submission *)

Definition pg_CheckIdempotency (db_now : time) (clientID key : string) d : DB * res store_err (option string) :=
  if bool_decide (clientID = "") || bool_decide (key = "") then (d, Ok None)
  else
    let d := db_set_idempotency (filter (fun kr => db_now <= kr.2.2) (db_idempotency d)) d in
    if bind_ok [clientID; key] then
      (d, Ok (r ← db_idempotency d !! (clientID, key); if db_now <=? r.2 then Some r.1 else None))
    else (d, Err value_err).

Definition idempotency_row (clientID key gatewayID : string) (expires : time) : option ((string * string) * (string * time)) :=
  clientID ← varchar 64 clientID; key ← varchar 128 key; gatewayID ← varchar 64 gatewayID;
  Some ((clientID, key), (gatewayID, pg_time expires)).

Definition pg_SaveIdempotency (now : time) (clientID key gatewayID : string) (ttl : duration) d : DB * res store_err unit :=
  if bool_decide (clientID = "") || bool_decide (key = "") then (d, Ok tt)
  else
    match idempotency_row clientID key gatewayID (now + idem_ttl ttl) with
    | None => (d, Err value_err)
    | Some (k, r) => (db_set_idempotency (<[k := r]> (db_idempotency d)) d, Ok tt)
    end.

(** The key of a submission: written, or the id it has already. *)
Definition claim_key (now db_now : time) (msg : Message) (opts : IdempotencyOptions) d : res store_err (DB * option string) :=
  let clientID := io_ClientID opts in
  let key := io_Key opts in
  if bool_decide (clientID = "") || bool_decide (key = "") then Ok (d, None)
  else
    match idempotency_row clientID key (msg_ID msg) (now + idem_ttl (io_TTL opts)) with
    | None => Err value_err
    | Some (k, r) =>
      let expired := match db_idempotency d !! (clientID, key) with Some old => old.2 <? db_now | None => false end in
      let d := if expired then db_set_idempotency (delete (clientID, key) (db_idempotency d)) d else d in
      match db_idempotency d !! k with
      | None => Ok (db_set_idempotency (<[k := r]> (db_idempotency d)) d, None)
      | Some _ =>
        match db_idempotency d !! (clientID, key) with
        | Some old => if db_now <=? old.2 then Ok (d, Some old.1) else Err no_rows
        | None => Err no_rows
        end
      end
    end.

Definition debit (quota : option DailyQuotaDebit) d : res store_err DB :=
  match quota with
  | None => Ok d
  | Some q =>
    if qd_Limit q <=? 0 then Ok d
    else
      _ ← validateDailyQuotaDebit q;
      if qd_Limit q <? qd_Segments q then Err ErrQuotaExceeded
      else
        match varchar 64 (qd_TenantID q) with
        | None => Err value_err
        | Some tenant =>
          match db_quota d !! (tenant, qd_Date q) with
          | None => Ok (db_set_quota (<[(tenant, qd_Date q) := qd_Segments q]> (db_quota d)) d)
          | Some used =>
            if used <=? qd_Limit q - qd_Segments q
            then Ok (db_set_quota (<[(tenant, qd_Date q) := used + qd_Segments q]> (db_quota d)) d)
            else Err ErrQuotaExceeded
          end
        end
  end.

(** One transaction; rows of the same key wait for each other at the first INSERT. *)
Definition pg_SubmitAtomic (now db_now : time) (msg : Message) (item : OutboxItem) (opts : SubmitOptions) d : DB * res store_err SubmitResult :=
  statement
    (r ← claim_key now db_now msg (so_Idempotency opts) d;
     match r with
     | (_, Some existing) => Ok (d, mkSubmitResult 0 existing true)
     | (d, None) =>
       d ← debit (so_Quota opts) d;
       d ← saveMessageSQL now msg d;
       r ← insert_outbox now db_now item d;
       Ok (r.1, mkSubmitResult r.2 (msg_ID msg) false)
     end) d.
End postgres.
