(* ===== verification/PostgresSim.v ===== *)
(** * The two stores: when Postgres and the memory store hold the same

    The interface [Store] as requests and replies, served by the memory store of
    memory.go and by the tables of postgres.go; the relation between the two
    states, and how messages and pending reports keep it. *)

From S2P Require Import Prelude Unicode Codec Segment Num GoTime GoParse Records Store StoreInv Postgres.

(** ** The interface *)

(** [Store], without the lists of messages, which each store has in an order of its own. *)
Inductive request :=
| RqSaveMessage (msg : Message)
| RqGetMessage (gatewayID : string)
| RqUpdateMessageSent (gatewayID providerID : string)
| RqUpdateMessageState (gatewayID state : string) (errCode : Z)
| RqSavePending (p : Pending)
| RqGetPending (provider providerID : string)
| RqListPendingByGatewayID (gatewayID : string)
| RqUpdatePendingDLR (provider providerID state : string) (errCode : Z) (doneAt : time)
| RqMarkDLRReady (provider providerID state : string) (errCode : Z) (doneAt : time)
| RqMarkDLRDelivered (provider providerID : string)
| RqListReadyDLR (systemID : string) (limit : Z)
| RqDeletePending (provider providerID : string)
| RqDeletePendingByGatewayID (gatewayID : string)
| RqPendingSize
| RqSweepExpiredPending (before : time)
| RqReserveGatewayIDRange (span : Z)
| RqEnqueueOutbox (item : OutboxItem)
| RqClaimOutbox (workerID : string) (limit : Z)
| RqMarkOutboxSending (id : Z) (workerID : string)
| RqCompleteOutboxSend (id : Z) (workerID : string) (pending : list Pending)
| RqMarkOutboxUncertain (id : Z) (workerID errMsg : string)
| RqRequeueStaleOutbox (before : time) (limit : Z)
| RqAckOutbox (id : Z)
| RqFailOutbox (id : Z) (errMsg : string) (nextRetryAt : time)
| RqOutboxDepth (state : string)
| RqCheckIdempotency (clientID key : string)
| RqSaveIdempotency (clientID key gatewayID : string) (ttl : duration)
| RqSubmitAtomic (msg : Message) (item : OutboxItem) (opts : SubmitOptions).

Inductive reply :=
| AUnit (r : res store_err unit)
| AMessage (r : res store_err (option Message))
| APending (r : res store_err (option Pending))
| APendings (r : res store_err (list Pending))
| ACount (r : res store_err Z)
| ARange (r : res store_err (Z * Z))
| AItems (r : res store_err (list OutboxItem))
| AKey (r : res store_err (option string))
| ASubmit (r : res store_err SubmitResult).

(** What a call gave: its state and its reply. *)
Definition gives {S A} (wrap : A -> reply) (result : S * A) (s' : S) (a : reply) : Prop := s' = result.1 /\ a = wrap result.2.

(** The memory store at a clock reading; a map is ranged over in any order. *)
Definition mem_serve (now : time) (r : request) (s s' : MemoryStore) (a : reply) : Prop :=
  match r with
  | RqSaveMessage msg => gives AUnit (SaveMessage msg s) s' a
  | RqGetMessage g => gives AMessage (s, Ok (GetMessage g s)) s' a
  | RqUpdateMessageSent g p => gives AUnit (UpdateMessageSent now g p s) s' a
  | RqUpdateMessageState g st e => gives AUnit (UpdateMessageState now g st e s) s' a
  | RqSavePending p => gives AUnit (SavePending now p s) s' a
  | RqGetPending p i => gives (APending ∘ Ok) (GetPending now p i s) s' a
  | RqListPendingByGatewayID g => gives (APendings ∘ Ok) (ListPendingByGatewayID now g s) s' a
  | RqUpdatePendingDLR p i st e t => gives AUnit (UpdatePendingDLR p i st e t s) s' a
  | RqMarkDLRReady p i st e t => gives AUnit (MarkDLRReady p i st e t s) s' a
  | RqMarkDLRDelivered p i => gives AUnit (MarkDLRDelivered p i s) s' a
  | RqListReadyDLR sys limit =>
    exists entries, entries ≡ₚ map_to_list (st_pending (sweepLocked now s)) /\ gives (APendings ∘ Ok) (ListReadyDLR now sys limit entries s) s' a
  | RqDeletePending p i => gives AUnit (DeletePending p i s) s' a
  | RqDeletePendingByGatewayID g => gives AUnit (DeletePendingByGatewayID g s) s' a
  | RqPendingSize => gives (ACount ∘ Ok) (PendingSize now s) s' a
  | RqSweepExpiredPending before => gives (ACount ∘ Ok) (SweepExpiredPending before s) s' a
  | RqReserveGatewayIDRange n => gives (ARange ∘ Ok) (ReserveGatewayIDRange n s) s' a
  | RqEnqueueOutbox item => gives ACount (EnqueueOutbox now now item s) s' a
  | RqClaimOutbox w limit => gives (AItems ∘ Ok) (ClaimOutbox now w limit s) s' a
  | RqMarkOutboxSending id w => gives AUnit (MarkOutboxSending id w s) s' a
  | RqCompleteOutboxSend id w ps => gives AUnit (CompleteOutboxSend now id w ps s) s' a
  | RqMarkOutboxUncertain id w e => gives AUnit (MarkOutboxUncertain now id w e s) s' a
  | RqRequeueStaleOutbox before limit =>
    exists entries, entries ≡ₚ map_to_list (st_outbox s) /\ gives (ACount ∘ Ok) (RequeueStaleOutbox before limit entries s) s' a
  | RqAckOutbox id => gives AUnit (AckOutbox id s) s' a
  | RqFailOutbox id e t => gives AUnit (FailOutbox id e t s) s' a
  | RqOutboxDepth st => gives (ACount ∘ Ok) (s, OutboxDepth st s) s' a
  | RqCheckIdempotency c k => gives (AKey ∘ Ok) (CheckIdempotency now c k s) s' a
  | RqSaveIdempotency c k g ttl => gives AUnit (SaveIdempotency now now c k g ttl s) s' a
  | RqSubmitAtomic msg item opts => gives ASubmit (SubmitAtomic now msg item opts s) s' a
  end.

(** Replies that a caller cannot tell apart: lists up to order, messages up to
    their parts, errors of single statements up to their kind. *)
Definition same_res {A} (same : A -> A -> Prop) (x y : res store_err A) : Prop :=
  match x, y with Ok a, Ok b => same a b | Err _, Err _ => True | _, _ => False end.

Definition no_parts (m : Message) : Message :=
  {| msg_ID := msg_ID m; msg_ProviderID := msg_ProviderID m; msg_TenantID := msg_TenantID m; msg_AccountID := msg_AccountID m;
     msg_ClientMsgID := msg_ClientMsgID m; msg_Direction := msg_Direction m; msg_From := msg_From m; msg_To := msg_To m;
     msg_Text := msg_Text m; msg_Encoding := msg_Encoding m; msg_Route := msg_Route m; msg_Provider := msg_Provider m;
     msg_SourceKind := msg_SourceKind m; msg_SourceID := msg_SourceID m; msg_State := msg_State m; msg_ErrorCode := msg_ErrorCode m;
     msg_Segments := []; msg_Metadata := msg_Metadata m; msg_SubmittedAt := msg_SubmittedAt m; msg_SentAt := msg_SentAt m;
     msg_DoneAt := msg_DoneAt m |}.

Definition same_reply (x y : reply) : Prop :=
  match x, y with
  | AUnit x, AUnit y => same_res eq x y
  | AMessage x, AMessage y => same_res (fun a b => no_parts <$> a = no_parts <$> b) x y
  | APending x, APending y => same_res eq x y
  | APendings x, APendings y => same_res Permutation x y
  | ACount x, ACount y => same_res eq x y
  | ARange x, ARange y => same_res eq x y
  | AItems x, AItems y => same_res Permutation x y
  | AKey x, AKey y => same_res eq x y
  | ASubmit x, ASubmit y => x = y
  | _, _ => False
  end.

(** ** Messages of the memory store *)

(** Saving drops no message: it replaces one, or the store is not full. *)
Definition room (id : string) s : Prop := is_Some (st_messageByID s !! id) \/ Z.of_nat (length (st_messages s)) < st_maxMessages s.

Lemma get_put id msg s :
  wf s -> room (msg_ID msg) s -> GetMessage id (put_message msg s) = if decide (id = msg_ID msg) then Some msg else GetMessage id s.
Proof.
  intros Hwf Hm. pose proof (wf_index s Hwf) as Hi. unfold put_message, GetMessage. destruct (st_messageByID s !! msg_ID msg) as [idx|] eqn:E.
  - cbn [st_messageByID st_messages st_set_messages]. pose proof (proj1 (Hi _ _) E) as Hl. apply fmap_Some in Hl as (m & Hl & Hid).
    destruct (decide (id = msg_ID msg)) as [->|Hne].
    + rewrite E. cbn [mbind option_bind]. apply list_lookup_insert_eq. by apply lookup_lt_Some in Hl.
    + destruct (st_messageByID s !! id) as [j|] eqn:Ej; [|done]. cbn [mbind option_bind]. apply list_lookup_insert_ne. intros ->. apply Hne.
      apply Hi in Ej. rewrite Hl in Ej. cbn in Ej. congruence.
  - unfold trimMessagesLocked. cbn [st_maxMessages st_set_messages st_set_messageByID]. destruct Hm as [Hm|Hm]; [rewrite E in Hm; by destruct Hm|].
    cbn [st_messages]. rewrite (proj2 (Z.leb_le (Z.of_nat (length (st_messages s ++ [msg]))) _)) by (rewrite length_app; cbn [length]; lia).
    rewrite orb_true_r. cbn [st_messageByID st_messages st_set_messages st_set_messageByID].
    destruct (decide (id = msg_ID msg)) as [->|Hne].
    + rewrite lookup_insert_eq. cbn. by rewrite lookup_app_r, Nat.sub_diag by lia.
    + rewrite lookup_insert_ne by done. destruct (st_messageByID s !! id) as [j|] eqn:Ej; [|done]. cbn. apply Hi in Ej.
      destruct (st_messages s !! j) eqn:El; [|done]. by rewrite (lookup_app_l_Some _ _ _ _ El).
Qed.

Lemma put_frame msg s :
  let s' := put_message msg s in
  st_pending s' = st_pending s /\ st_outbox s' = st_outbox s /\ st_nextOutbox s' = st_nextOutbox s /\ st_idempotency s' = st_idempotency s
  /\ st_quotaUsage s' = st_quotaUsage s /\ st_gatewaySeq s' = st_gatewaySeq s /\ st_maxMessages s' = st_maxMessages s.
Proof. unfold put_message, trimMessagesLocked. by repeat case_match. Qed.

Lemma get_upd f g idx id s :
  wf s -> st_messageByID s !! g = Some idx ->
  GetMessage id (upd_message f idx s) = if decide (id = g) then f <$> GetMessage id s else GetMessage id s.
Proof.
  intros Hwf E. pose proof (wf_index s Hwf) as Hi. unfold GetMessage, upd_message. cbn [st_messageByID st_messages st_set_messages].
  destruct (decide (id = g)) as [->|Hne].
  - rewrite E. cbn [mbind option_bind]. apply list_lookup_alter_eq.
  - destruct (st_messageByID s !! id) as [j|] eqn:Ej; [|done]. cbn [mbind option_bind]. apply list_lookup_alter_ne. intros ->.
    apply Hne. apply Hi in E, Ej. congruence.
Qed.

Lemma get_none g s : wf s -> st_messageByID s !! g = None -> GetMessage g s = None.
Proof. intros _ E. unfold GetMessage. by rewrite E. Qed.

Lemma get_some g idx s : wf s -> st_messageByID s !! g = Some idx -> is_Some (GetMessage g s).
Proof. intros Hwf E. unfold GetMessage. rewrite E. apply (wf_index s Hwf) in E. cbn. destruct (st_messages s !! idx); [done|discriminate]. Qed.

(** ** Filters *)

Lemma filter_all {A} (P : A -> Prop) `{!forall x, Decision (P x)} (l : list A) : Forall P l -> filter P l = l.
Proof. induction 1; [done|]. rewrite filter_cons_True by done. by f_equal. Qed.

Lemma filter_nothing {A} (P : A -> Prop) `{!forall x, Decision (P x)} (l : list A) : Forall (fun x => ~ P x) l -> filter P l = [].
Proof. induction 1; [done|]. by rewrite filter_cons_False. Qed.

Lemma filter_split {A} (P : A -> Prop) `{!forall x, Decision (P x)} (l : list A) : l ≡ₚ filter P l ++ filter (fun x => ~ P x) l.
Proof.
  induction l as [|x l IH]; [done|]. rewrite !filter_cons. destruct (decide (P x)), (decide (~ P x)); try done; cbn.
  - by rewrite <- IH.
  - by rewrite <- Permutation_middle, <- IH.
Qed.

Lemma filter_fmap {A B} (f : A -> B) (P : B -> Prop) `{!forall x, Decision (P x)} (l : list A) : filter P (f <$> l) = f <$> filter (fun x => P (f x)) l.
Proof. induction l as [|x l IH]; [done|]. cbn [fmap list_fmap]. rewrite !filter_cons. destruct (decide _); cbn; by rewrite IH. Qed.

(** ** Keys of pending reports *)

Lemma text_no_zero s : text_ok s = true -> 0 ∉ bytes_of_string s.
Proof. unfold text_ok. intros H. apply andb_true_iff in H as [_ H]. by apply bool_decide_eq_true in H. Qed.

Lemma split_at_zero (l1 l2 l1' l2' : list Z) : 0 ∉ l1 -> 0 ∉ l1' -> l1 ++ 0 :: l2 = l1' ++ 0 :: l2' -> l1 = l1' /\ l2 = l2'.
Proof.
  revert l1'. induction l1 as [|b l1 IH]; intros l1' H1 H2 E; destruct l1' as [|b' l1']; cbn in E.
  - by simplify_eq.
  - injection E as Eb E. subst b'. destruct H2. apply list_elem_of_here.
  - injection E as Eb E. subst b. destruct H1. apply list_elem_of_here.
  - injection E as Eb E. subst b'. apply not_elem_of_cons in H1 as [_ H1], H2 as [_ H2]. by destruct (IH l1' H1 H2 E) as [-> ->].
Qed.

Lemma pending_key_injective p i p' i' : text_ok p = true -> text_ok p' = true -> pendingKey p i = pendingKey p' i' -> p = p' /\ i = i'.
Proof.
  intros H H' E. apply (f_equal bytes_of_string) in E. unfold pendingKey in E. rewrite !bytes_of_string_app in E.
  apply split_at_zero in E as [E1 E2]; [|by apply text_no_zero..]. split; by apply bytes_of_string_inj.
Qed.

(** ** Values that fit their columns *)

Definition fits (n : nat) (s : string) : Prop := text_ok s = true /\ (length (runes s) <= n)%nat.
Definition meta_text (m : option (gmap string string)) : Prop :=
  match m with Some m => map_Forall (fun k v => text_ok k = true /\ text_ok v = true) m | None => True end.

Lemma varchar_fits n s : fits n s -> varchar n s = Some s.
Proof. intros [Ht Hl]. unfold varchar. rewrite Ht. cbn [negb]. by rewrite (proj2 (Nat.leb_le _ _) Hl). Qed.

Lemma text_fits s : text_ok s = true -> text s = Some s.
Proof. intros H. unfold text. by rewrite H. Qed.

Definition null_of (s : string) : option string := if bool_decide (s = "") then None else Some s.

Lemma nullString_fits column s : column s = Some s -> nullString column s = Some (null_of s).
Proof. intros H. unfold nullString, null_of. case_bool_decide; [done|]. by rewrite H. Qed.

Lemma coalesce_null s : coalesce (null_of s) = s.
Proof. unfold null_of. case_bool_decide; [by subst|done]. Qed.

Lemma nullTime_default t : default 0 (nullTime t) = t.
Proof. unfold nullTime, IsZero. destruct (Z.eqb_spec t 0); [by subst|done]. Qed.

Lemma int_within_fits lo hi v : lo <= v <= hi -> int_within lo hi v = Some v.
Proof. intros [H1 H2]. unfold int_within. by rewrite (proj2 (Z.leb_le _ _) H1), (proj2 (Z.leb_le _ _) H2). Qed.

Lemma smallint_fits v : -32768 <= v <= 32767 -> smallint v = Some v.
Proof. apply int_within_fits. Qed.

Lemma int4_fits v : -2147483648 <= v <= 2147483647 -> int4 v = Some v.
Proof. apply int_within_fits. Qed.

Lemma fits_text n s : fits n s -> text_ok s = true.
Proof. by intros [? _]. Qed.

Lemma bind_ok_fits l : Forall (fun s => text_ok s = true) l -> bind_ok l = true.
Proof. intros H. unfold bind_ok. apply forallb_forall. intros x Hx. rewrite Forall_forall in H. by apply H, list_elem_of_In. Qed.

#[export] Hint Resolve varchar_fits text_fits fits_text : mysmpp.

(** ** The tables *)

Section sim.
Context {J : Type}.
Context (meta_json : option (gmap string string) -> option J) (json_meta : J -> option (option (gmap string string))).
Context (payload_json : OutboxPayload -> option J) (json_payload : J -> option OutboxPayload) (json_delete : list string -> J -> J).
Context (pg_time : time -> time) (text_lt : string -> string -> bool).

Abbreviation DB := (DB J).
Abbreviation message_row := (message_row J).
Abbreviation outbox_row := (outbox_row J).
Implicit Types (d : DB) (s : MemoryStore).

(** A byte, and a time of the years 1 to 9999, which have a form in JSON. *)
Definition byte_ok (b : Z) : Prop := 0 <= b < 256.
Definition json_time (t : time) : Prop := 0 <= t < 315537897600 * Second.

(** The texts of a payload are UTF-8 without a zero, its bytes are bytes. *)
Definition payload_text (p : OutboxPayload) : Prop :=
  Forall (fun t => text_ok t = true)
    [op_GatewayID p; op_TenantID p; op_AccountID p; op_ClientMsgID p; op_Provider p; op_Route p; op_From p; op_To p; op_Text p;
     op_Encoding p; op_SourceKind p; op_SourceSession p; op_SourceSystem p; op_CallbackURL p; op_CallbackRule p]
  /\ meta_text (op_Meta p) /\ json_time (op_ReceivedAt p)
  /\ Forall byte_ok (op_DataCoding p :: op_RegisteredDelivery p :: op_UDH p ++ op_RawPayload p ++ op_SARRefNum p ++ op_SARTotalSegments p ++ op_SARSegmentSeqnum p).

(** What is relied on of JSON: documents read back, and a payload without the
    removed keys reads as the payload without these fields ([json_payload] reads
    documents with the keys of the structure, in their case). *)
Record jsonb_laws : Prop := {
  jl_meta : forall m, meta_text m -> exists j, meta_json m = Some j /\ json_meta j = Some m;
  jl_payload : forall p, payload_text p -> exists j, payload_json p = Some j /\ json_payload j = Some p;
  jl_delete : forall p j, json_payload j = Some p -> json_payload (json_delete scrubbed j) = Some (scrubOutboxPayload p) }.

(** The tables at a clock reading, when no other client is in between. *)
Definition pg_serve (now : time) (r : request) (d d' : DB) (a : reply) : Prop :=
  match r with
  | RqSaveMessage msg => gives AUnit (pg_SaveMessage meta_json pg_time now msg d) d' a
  | RqGetMessage g => exists ref, gives AMessage (d, pg_GetMessage json_meta ref g d) d' a
  | RqUpdateMessageSent g p => gives AUnit (pg_UpdateMessageSent now g p d) d' a
  | RqUpdateMessageState g st e => gives AUnit (pg_UpdateMessageState now g st e d) d' a
  | RqSavePending p => gives AUnit (pg_SavePending pg_time now p d) d' a
  | RqGetPending p i => gives APending (d, pg_GetPending p i d) d' a
  | RqListPendingByGatewayID g => gives APendings (d, pg_ListPendingByGatewayID text_lt g d) d' a
  | RqUpdatePendingDLR p i st e t => gives AUnit (pg_UpdatePendingDLR pg_time now p i st e t d) d' a
  | RqMarkDLRReady p i st e t => gives AUnit (pg_MarkDLRReady pg_time now p i st e t d) d' a
  | RqMarkDLRDelivered p i => gives AUnit (pg_MarkDLRDelivered p i d) d' a
  | RqListReadyDLR sys limit => gives APendings (d, pg_ListReadyDLR text_lt sys limit d) d' a
  | RqDeletePending p i => gives AUnit (pg_DeletePending p i d) d' a
  | RqDeletePendingByGatewayID g => gives AUnit (pg_DeletePendingByGatewayID g d) d' a
  | RqPendingSize => gives (ACount ∘ Ok) (d, pg_PendingSize now d) d' a
  | RqSweepExpiredPending before => gives (ACount ∘ Ok) (pg_SweepExpiredPending pg_time before d) d' a
  | RqReserveGatewayIDRange n => gives ARange (pg_ReserveGatewayIDRange n d) d' a
  | RqEnqueueOutbox item => gives ACount (pg_EnqueueOutbox payload_json pg_time now now item d) d' a
  | RqClaimOutbox w limit =>
    exists returning, (forall l : list outbox_row, returning l ≡ₚ l)
      /\ gives AItems (pg_ClaimOutbox json_payload now (fun _ => false) returning w limit d) d' a
  | RqMarkOutboxSending id w => gives AUnit (pg_MarkOutboxSending (fun d => d) id w d) d' a
  | RqCompleteOutboxSend id w ps => gives AUnit (pg_CompleteOutboxSend json_delete pg_time now now id w ps d) d' a
  | RqMarkOutboxUncertain id w e => gives AUnit (pg_MarkOutboxUncertain now id w e d) d' a
  | RqRequeueStaleOutbox before limit => gives (ACount ∘ Ok) (pg_RequeueStaleOutbox pg_time now (fun _ => false) before limit d) d' a
  | RqAckOutbox id => gives AUnit (pg_AckOutbox json_delete id d) d' a
  | RqFailOutbox id e t => gives AUnit (pg_FailOutbox pg_time id e t d) d' a
  | RqOutboxDepth st => gives ACount (d, pg_OutboxDepth st d) d' a
  | RqCheckIdempotency c k => gives AKey (pg_CheckIdempotency now c k d) d' a
  | RqSaveIdempotency c k g ttl => gives AUnit (pg_SaveIdempotency pg_time now c k g ttl d) d' a
  | RqSubmitAtomic msg item opts => gives ASubmit (pg_SubmitAtomic meta_json payload_json pg_time now now msg item opts d) d' a
  end.

(** A time the tables keep as it is. *)
Definition micro (t : time) : Prop := pg_time t = t.

Record message_fits (m : Message) : Prop := {
  mf_id : fits 64 (msg_ID m);
  mf_provider_id : fits 128 (msg_ProviderID m);
  mf_from : fits 32 (msg_From m);
  mf_to : fits 32 (msg_To m);
  mf_text : text_ok (msg_Text m) = true;
  mf_encoding : fits 8 (msg_Encoding m);
  mf_segments : Z.of_nat (length (msg_Segments m)) <= 32767;
  mf_route : fits 64 (msg_Route m);
  mf_provider : fits 64 (msg_Provider m);
  mf_source_kind : fits 16 (msg_SourceKind m);
  mf_source_id : fits 64 (msg_SourceID m);
  mf_client : fits 64 (meta_get (msg_Metadata m) "client_id");
  mf_tenant : fits 64 (msg_TenantID m);
  mf_account : fits 64 (msg_AccountID m);
  mf_client_msg : fits 128 (msg_ClientMsgID m);
  mf_state : fits 16 (msg_State m);
  mf_error : -2147483648 <= msg_ErrorCode m <= 2147483647;
  mf_meta : meta_text (msg_Metadata m);
  mf_times : micro (msg_SubmittedAt m) /\ micro (msg_SentAt m) /\ micro (msg_DoneAt m) /\ msg_SubmittedAt m <> 0 }.

Lemma micro_null t : micro t -> default 0 (pg_time <$> nullTime t) = t.
Proof. unfold micro, nullTime, IsZero. intros H. destruct (Z.eqb_spec t 0); [by subst|exact H]. Qed.

Lemma zeroAsNow_set now t : t <> 0 -> zeroAsNow now t = t.
Proof. intros H. unfold zeroAsNow, IsZero. by rewrite (proj2 (Z.eqb_neq _ _) H). Qed.

(** The columns of a row, one after the other. *)
Ltac next_column :=
  match goal with
  | |- context [varchar ?n ?s ≫= _] => rewrite (varchar_fits n s) by (first [assumption | eauto with mysmpp])
  | |- context [text ?s ≫= _] => rewrite (text_fits s) by assumption
  | |- context [nullString (varchar ?n) ?s ≫= _] => rewrite (nullString_fits (varchar n) s) by (apply varchar_fits; assumption)
  | |- context [nullString text ?s ≫= _] => rewrite (nullString_fits text s) by (apply text_fits; assumption)
  | |- context [smallint ?v ≫= _] => rewrite (smallint_fits v) by assumption
  | |- context [int4 ?v ≫= _] => rewrite (int4_fits v) by assumption
  end; cbn [mbind option_bind].

Record pending_fits (horizon : time) (p : Pending) : Prop := {
  pf_provider : fits 64 (p_Provider p);
  pf_provider_id : fits 128 (p_ProviderID p);
  pf_gateway : fits 64 (p_GatewayID p);
  pf_tenant : fits 64 (p_TenantID p);
  pf_account : fits 64 (p_AccountID p);
  pf_client_msg : fits 128 (p_ClientMsgID p);
  pf_index : p_SegmentIndex p <= 32767;
  pf_count : p_SegmentCount p <= 32767;
  pf_kind : fits 16 (p_SourceKind p);
  pf_session : fits 64 (p_SourceSession p);
  pf_system : fits 64 (p_SourceSystem p);
  pf_url : text_ok (p_CallbackURL p) = true;
  pf_rule : text_ok (p_CallbackRule p) = true;
  pf_from : fits 32 (p_From p);
  pf_to : fits 32 (p_To p);
  pf_text : text_ok (p_Text p) = true;
  pf_bytes : 0 <= p_DataCoding p < 256 /\ 0 <= p_RegisteredDelivery p < 256;
  pf_route : fits 64 (p_Route p);
  pf_state : fits 16 (p_DLRState p);
  pf_error : -2147483648 <= p_DLRErrorCode p <= 2147483647;
  pf_times : micro (p_ReceivedAt p) /\ micro (p_ExpiresAt p) /\ micro (p_DLRDoneAt p) /\ p_ReceivedAt p <> 0;
  pf_expires : horizon < p_ExpiresAt p }.

Lemma normalize_fits horizon p : pending_fits horizon p ->
  pending_fits horizon (normalizePending p) /\ 1 <= p_SegmentIndex (normalizePending p) /\ 1 <= p_SegmentCount (normalizePending p).
Proof.
  intros []. unfold normalizePending.
  destruct (Z.leb_spec (p_SegmentIndex p) 0); cbn [p_SegmentCount p_set_SegmentIndex];
    destruct (Z.leb_spec (p_SegmentCount p) 0); (split; [by split|]); cbn; lia.
Qed.

Lemma new_pending_row_fits horizon now p :
  pending_fits horizon p ->
  exists r, new_pending_row pg_time now p = Some r /\ scanPending r = normalizePending p
    /\ pr_provider r = p_Provider p /\ pr_provider_id r = p_ProviderID p.
Proof.
  intros Hf. destruct (normalize_fits _ _ Hf) as (Hf' & Hi & Hc).
  assert (p_Provider (normalizePending p) = p_Provider p /\ p_ProviderID (normalizePending p) = p_ProviderID p) as [E1 E2]
    by (unfold normalizePending; by repeat case_match).
  unfold new_pending_row. cbn zeta. rewrite <- E1, <- E2. set (q := normalizePending p) in *. clearbody q. clear Hf E1 E2 p.
  destruct Hf'. destruct pf_times0 as (T1 & T2 & T3 & T4). destruct pf_bytes0 as [B1 B2].
  assert (-32768 <= p_SegmentIndex q <= 32767 /\ -32768 <= p_SegmentCount q <= 32767) as [I1 I2] by lia.
  do 19 next_column. eexists. split; [reflexivity|]. split; [|done]. unfold scanPending.
  cbn [pr_provider pr_provider_id pr_gateway_id pr_tenant_id pr_account_id pr_client_msg_id pr_segment_index pr_segment_count pr_source_kind
    pr_source_session pr_source_system pr_callback_url pr_callback_rule pr_from_addr pr_to_addr pr_text pr_data_coding pr_registered_delivery
    pr_route pr_received_at pr_expires_at pr_dlr_ready pr_dlr_delivered pr_dlr_state pr_dlr_err pr_dlr_done_at].
  unfold u8. rewrite !coalesce_null, micro_null, zeroAsNow_set, !Z.mod_small, T1, T2 by done. by destruct q.
Qed.

Lemma new_message_row_fits now m :
  jsonb_laws -> message_fits m ->
  exists r, new_message_row meta_json pg_time now m = Some r /\ mr_gateway_id r = msg_ID m /\ no_parts (scanMessage json_meta 0 r) = no_parts m.
Proof.
  intros Hl []. destruct mf_times0 as (T1 & T2 & T3 & T4). destruct (jl_meta Hl _ mf_meta0) as (j & Hj & Hm). unfold new_message_row. rewrite Hj. cbn [mbind option_bind].
  set (n := if bool_decide (msg_Segments m = []) then 1 else Z.of_nat (length (msg_Segments m))).
  assert (-32768 <= n <= 32767) as Hn by (subst n; case_bool_decide; lia). do 17 next_column.
  eexists. split; [reflexivity|]. split; [done|]. unfold scanMessage, no_parts.
  cbn [mr_gateway_id mr_provider_id mr_direction mr_from_addr mr_to_addr mr_text mr_encoding mr_route mr_provider mr_source_kind mr_source_session
    mr_tenant_id mr_account_id mr_client_msg_id mr_state mr_error_code mr_meta mr_received_at mr_sent_at mr_done_at msg_ID msg_ProviderID
    msg_TenantID msg_AccountID msg_ClientMsgID msg_Direction msg_From msg_To msg_Text msg_Encoding msg_Route msg_Provider msg_SourceKind
    msg_SourceID msg_State msg_ErrorCode msg_Segments msg_Metadata msg_SubmittedAt msg_SentAt msg_DoneAt].
  rewrite !coalesce_null, !micro_null, zeroAsNow_set, Hm by done. cbn [default]. by rewrite T1.
Qed.

(** ** The relation *)

Definition rel_messages (rows : gmap string message_row) s : Prop :=
  forall g, no_parts <$> GetMessage g s = no_parts <$> (scanMessage json_meta 0 <$> rows !! g).

(** Keys of pending reports are texts with a zero between their parts, so the
    names of providers have none. Nothing expires up to the horizon. *)
Record rel_pending (horizon : time) (rows : gmap (string * string) pending_row) (m : gmap string Pending) : Prop := {
  rp_lookup : forall p i, text_ok p = true -> m !! pendingKey p i = scanPending <$> rows !! (p, i);
  rp_keys : map_Forall (fun k r => k = (pr_provider r, pr_provider_id r) /\ text_ok k.1 = true) rows;
  rp_dom : map_Forall (fun k p => k = pendingKey (p_Provider p) (p_ProviderID p) /\ text_ok (p_Provider p) = true) m;
  rp_live : map_Forall (fun _ p => horizon < p_ExpiresAt p) m }.

(** An item and its row; who had claimed a failed item is forgotten. *)
Record rel_item (it : OutboxItem) (r : outbox_row) : Prop := {
  ri_payload : json_payload (or_payload r) = Some (ob_Payload it);
  ri_fields : ob_ID it = or_id r /\ ob_GatewayID it = or_gateway_id r /\ ob_Provider it = or_provider r /\ ob_State it = or_state r
    /\ ob_NextRetryAt it = or_next_retry_at r /\ ob_Attempt it = or_attempt r /\ ob_MaxAttempts it = or_max_attempts r
    /\ ob_LastError it = coalesce (or_last_error r) /\ ob_CreatedAt it = or_created_at r;
  ri_claim : ob_State it <> "failed" -> ob_ClaimedBy it = coalesce (or_claimed_by r) /\ ob_ClaimedAt it = default 0 (or_claimed_at r);
  ri_claimed : ob_State it = "claimed" -> exists t, or_claimed_at r = Some t /\ or_claimed_by r = Some (ob_ClaimedBy it) /\ ob_NextRetryAt it <= t;
  ri_next : 0 < ob_NextRetryAt it }.

Definition rel_outbox (rows : gmap Z outbox_row) (m : gmap Z OutboxItem) : Prop := forall id, option_Forall2 rel_item (m !! id) (rows !! id).

Definition rel_keys (horizon : time) (rows : gmap (string * string) (string * time)) (m : gmap (string * string) idempotencyRecord) : Prop :=
  m = (fun r => mkIdempotencyRecord r.1 r.2) <$> rows /\ map_Forall (fun _ r => horizon < r.2) rows.

Record related (horizon : time) d s : Prop := mkRelated {
  rl_wf : wf s;
  rl_cap : st_maxMessages s = 10000;
  rl_messages : rel_messages (db_messages d) s;
  rl_pending : rel_pending horizon (db_pending d) (st_pending s);
  rl_outbox : rel_outbox (db_outbox d) (st_outbox s);
  rl_kept : map_Forall (fun _ it => text_ok (ob_GatewayID it) = true /\ is_Some (GetMessage (ob_GatewayID it) s)) (st_outbox s);
  rl_seq : st_nextOutbox s = db_outbox_seq d;
  rl_keys : rel_keys horizon (db_idempotency d) (st_idempotency s);
  rl_quota : st_quotaUsage s = db_quota d;
  rl_ids : st_gatewaySeq s = default 0 (db_id_alloc d) /\ 0 <= st_gatewaySeq s }.

(** The sweep finds nothing. *)
Lemma sweep_nothing horizon now d s :
  related horizon d s -> now <= horizon -> sweepLocked now s = st_set_lastSweep now s.
Proof.
   clear. intros R Hn. unfold sweepLocked.
  assert (filter (fun kv => idem_expired now kv.2 = false) (st_idempotency s) = st_idempotency s) as ->.
  { apply map_filter_id. intros k r Hr. destruct (rl_keys _ _ _ R) as [E Hl]. rewrite E in Hr. apply lookup_fmap_Some in Hr as (x & <- & Hx).
    specialize (Hl _ _ Hx). unfold idem_expired, Before. cbn in *. rewrite (proj2 (Z.ltb_ge _ _)) by lia. by rewrite andb_false_r. }
  assert (filter (fun kv => pending_expired now kv.2 = false) (st_pending s) = st_pending s) as ->.
  { apply map_filter_id. intros k p Hp. pose proof (rp_live _ _ _ (rl_pending _ _ _ R) _ _ Hp) as Hl. cbn in Hl.
    unfold pending_expired, Before. cbn. rewrite (proj2 (Z.ltb_ge _ _)) by lia. by rewrite andb_false_r. }
  by destruct s.
Qed.

Lemma related_lastSweep horizon now d s : related horizon d s -> related horizon d (st_set_lastSweep now s).
Proof. intros [[]]. by split. Qed.

(** Changes of one part of the states. *)
Lemma related_messages horizon rows d s s' :
  related horizon d s -> wf s' -> rel_messages rows s' ->
  (forall g, is_Some (GetMessage g s) -> is_Some (GetMessage g s')) ->
  st_pending s' = st_pending s -> st_outbox s' = st_outbox s -> st_nextOutbox s' = st_nextOutbox s -> st_idempotency s' = st_idempotency s ->
  st_quotaUsage s' = st_quotaUsage s -> st_gatewaySeq s' = st_gatewaySeq s -> st_maxMessages s' = st_maxMessages s ->
  related horizon (db_set_messages rows d) s'.
Proof.
  intros [] Hwf Hm Hk E1 E2 E3 E4 E5 E6 E7. split; cbn [db_messages db_pending db_outbox db_outbox_seq db_idempotency db_quota db_id_alloc db_set_messages];
    rewrite ?E1, ?E2, ?E3, ?E4, ?E5, ?E6, ?E7; try done.
  intros id it Hit. destruct (rl_kept0 id it Hit). split; [done|by apply Hk].
Qed.

Lemma related_pending horizon rows m d s :
  related horizon d s -> wf (st_set_pending m s) -> rel_pending horizon rows m -> related horizon (db_set_pending rows d) (st_set_pending m s).
Proof. intros [] Hwf Hm. by split. Qed.

(** A message and its row change together. *)
Lemma related_update horizon f fr g row idx d s :
  related horizon d s -> st_messageByID s !! g = Some idx -> db_messages d !! g = Some row ->
  (forall m, msg_ID (f m) = msg_ID m) ->
  (forall m, no_parts m = no_parts (scanMessage json_meta 0 row) -> no_parts (f m) = no_parts (scanMessage json_meta 0 fr)) ->
  related horizon (db_set_messages (<[g := fr]> (db_messages d)) d) (upd_message f idx s).
Proof.
  intros R Hi Hr Hid Hf. pose proof (rl_wf _ _ _ R) as Hwf. eapply related_messages; try done; [by apply wf_upd_message| |].
  - intros g'. rewrite (get_upd f g idx g' s Hwf Hi). pose proof (rl_messages _ _ _ R g') as Hm. destruct (decide (g' = g)) as [->|Hne].
    + rewrite lookup_insert_eq. rewrite Hr in Hm. cbn [fmap option_fmap option_map] in *. destruct (GetMessage g s) as [m|]; [|done].
      apply (inj Some) in Hm. cbn [fmap option_fmap option_map]. f_equal. by apply Hf.
    + by rewrite lookup_insert_ne.
  - intros g' [m Hm]. rewrite (get_upd f g idx g' s Hwf Hi), Hm. case_decide; cbn; eauto.
Qed.

Lemma row_absent horizon g d s : related horizon d s -> st_messageByID s !! g = None <-> db_messages d !! g = None.
Proof.
  intros R. pose proof (rl_messages _ _ _ R g) as Hm. pose proof (rl_wf _ _ _ R) as Hwf. split; intros E.
  - rewrite (get_none g s Hwf E) in Hm. by destruct (db_messages d !! g).
  - rewrite E in Hm. destruct (st_messageByID s !! g) as [idx|] eqn:Ei; [|done]. destruct (get_some g idx s Hwf Ei) as [m Em]. by rewrite Em in Hm.
Qed.

(** As many rows as messages. *)
Lemma index_size s : wf s -> size (st_messageByID s) = length (st_messages s).
Proof.
  intros Hwf. pose proof (index_ok_NoDup _ _ (wf_index s Hwf)) as Hnd.
  assert (dom (st_messageByID s) = (list_to_set (msg_ID <$> st_messages s) : gset string)) as E.
  { apply set_eq. intros id. rewrite elem_of_dom, elem_of_list_to_set, list_elem_of_lookup. split.
    - intros [i Hi]. exists i. rewrite list_lookup_fmap. by apply (wf_index s Hwf).
    - intros [i Hi]. exists i. rewrite list_lookup_fmap in Hi. by apply (wf_index s Hwf). }
  rewrite <- (size_dom (D := gset string)), E, size_list_to_set by done. apply length_fmap.
Qed.

Lemma rows_size horizon d s : related horizon d s -> size (db_messages d) = length (st_messages s).
Proof.
  intros R. rewrite <- (index_size s (rl_wf _ _ _ R)), <- !(size_dom (D := gset string)). f_equal. apply set_eq. intros g.
  rewrite !elem_of_dom. pose proof (row_absent _ g _ _ R) as [H1 H2].
  destruct (db_messages d !! g), (st_messageByID s !! g); split; intros [? ?]; eauto; try done; by first [specialize (H1 eq_refl)|specialize (H2 eq_refl)].
Qed.

(** There is room for a message in the memory store. *)
Definition has_room (id : string) d : Prop := is_Some (db_messages d !! id) \/ Z.of_nat (size (db_messages d)) < 10000.

Lemma related_room horizon id d s : related horizon d s -> has_room id d -> room id s.
Proof.
  intros R [H|H]; [left|right; by rewrite (rl_cap _ _ _ R), <- (rows_size _ _ _ R)].
  destruct (st_messageByID s !! id) eqn:E; [by eexists|]. apply (row_absent _ _ _ _ R) in E. rewrite E in H. by destruct H.
Qed.

(** ** Messages *)

(** Both sides of a call: replies alike and states related again. *)
Definition alike {A B} (horizon : time) (same : res store_err A -> res store_err B -> Prop) (pg : DB * res store_err A) (mem : MemoryStore * res store_err B) : Prop :=
  same pg.2 mem.2 /\ related horizon pg.1 mem.1.

Lemma sim_save_message horizon now m d s :
  jsonb_laws -> related horizon d s -> message_fits m -> has_room (msg_ID m) d ->
  exists r, saveMessageSQL meta_json pg_time now m d = Ok (db_set_messages (<[msg_ID m := r]> (db_messages d)) d)
    /\ related horizon (db_set_messages (<[msg_ID m := r]> (db_messages d)) d) (put_message m s)
    /\ is_Some (GetMessage (msg_ID m) (put_message m s)).
Proof.
  intros Hl R Hf Hroom. destruct (new_message_row_fits now m Hl Hf) as (r & Hr & Hid & Hs). exists r.
  unfold saveMessageSQL. rewrite Hr, Hid. split; [done|]. pose proof (rl_wf _ _ _ R) as Hwf. pose proof (related_room _ _ _ _ R Hroom) as Hc.
  pose proof (put_frame m s) as (E1 & E2 & E3 & E4 & E5 & E6 & E7).
  assert (forall g, GetMessage g (put_message m s) = if decide (g = msg_ID m) then Some m else GetMessage g s) as Hg by (intros g; by apply get_put).
  split; [|rewrite Hg; by case_decide]. eapply related_messages; try done; [by apply wf_put_message| |].
  - intros g. rewrite Hg. destruct (decide (g = msg_ID m)) as [->|Hne].
    + rewrite lookup_insert_eq. cbn [fmap option_fmap option_map]. by rewrite Hs.
    + rewrite lookup_insert_ne by done. apply (rl_messages _ _ _ R).
  - intros g [x Hx]. rewrite Hg, Hx. case_decide; eauto.
Qed.

Lemma sim_get_message horizon g ref d s :
  related horizon d s -> text_ok g = true ->
  same_res (fun a b => no_parts <$> a = no_parts <$> b) (pg_GetMessage json_meta ref g d) (Ok (GetMessage g s)).
Proof.
  intros R Hg. unfold pg_GetMessage. rewrite bind_ok_fits by by repeat constructor. cbn [same_res].
  rewrite (rl_messages _ _ _ R g). by destruct (db_messages d !! g).
Qed.

Lemma sim_message_sent horizon now g p d s :
  related horizon d s -> text_ok g = true -> fits 128 p ->
  match sent_message now g p d with
  | Ok (d', affected) =>
    related horizon d' (UpdateMessageSent now g p s).1 /\ (UpdateMessageSent now g p s).2 = checkRows affected tt
    /\ (affected = true -> exists idx, st_messageByID s !! g = Some idx)
  | Err _ => False
  end.
Proof.
  intros R Hg Hp. unfold sent_message. rewrite bind_ok_fits by (repeat constructor; eauto with mysmpp).
  unfold update_message, UpdateMessageSent. destruct (db_messages d !! g) as [row|] eqn:Er.
  - rewrite varchar_fits by done. cbn [mbind option_bind]. destruct (st_messageByID s !! g) as [idx|] eqn:Ei; [|apply (row_absent horizon _ d s R) in Ei; congruence].
    split; [|split; [done|eauto]]. cbn [fst]. eapply related_update; try done. intros m Hm.
    change (msg_set_SentAt now (msg_set_State "sent" (msg_set_ProviderID p (no_parts m))) = no_parts (scanMessage json_meta 0 (mr_set_sent p now row))).
    by rewrite Hm.
  - pose proof (proj2 (row_absent horizon g d s R) Er) as ->. by split.
Qed.

Lemma sim_UpdateMessageSent horizon now g p d s :
  related horizon d s -> text_ok g = true -> fits 128 p ->
  alike horizon (same_res eq) (pg_UpdateMessageSent now g p d) (UpdateMessageSent now g p s).
Proof.
  intros R Hg Hp. pose proof (sim_message_sent horizon now g p d s R Hg Hp) as H. unfold pg_UpdateMessageSent, alike.
  destruct (sent_message _ _ _ _) as [[d' [|]]|e] eqn:E; [| |done]; destruct H as (H1 & H2 & H3); rewrite H2; cbn; [done|].
  split; [done|]. unfold sent_message in E. rewrite bind_ok_fits in E by (repeat constructor; eauto with mysmpp). unfold update_message in E.
  destruct (db_messages d !! g) as [row|]; [by rewrite varchar_fits in E|]. by injection E as ->.
Qed.

Lemma sim_UpdateMessageState horizon now g st e d s :
  related horizon d s -> text_ok g = true -> fits 16 st -> -2147483648 <= e <= 2147483647 ->
  alike horizon (same_res eq) (pg_UpdateMessageState now g st e d) (UpdateMessageState now g st e s).
Proof.
  intros R Hg Hs He. unfold pg_UpdateMessageState. rewrite bind_ok_fits by (repeat constructor; eauto with mysmpp).
  rewrite int4_fits by done. unfold update_message, UpdateMessageState, alike. cbn [andb]. rewrite bool_decide_eq_true_2 by done.
  destruct (db_messages d !! g) as [row|] eqn:Er.
  - rewrite varchar_fits by done. cbn. destruct (st_messageByID s !! g) as [idx|] eqn:Ei; [|apply (row_absent horizon _ d s R) in Ei; congruence].
    split; [done|]. cbn [fst]. eapply related_update; try done. intros m Hm.
    change (msg_set_DoneAt now (msg_set_ErrorCode e (msg_set_State st (no_parts m))) = no_parts (scanMessage json_meta 0 (mr_set_state st e now row))).
    by rewrite Hm.
  - by pose proof (proj2 (row_absent horizon g d s R) Er) as ->.
Qed.

(** ** Pending reports *)

Lemma rel_pending_insert horizon rows m r :
  rel_pending horizon rows m -> text_ok (pr_provider r) = true -> horizon < pr_expires_at r ->
  rel_pending horizon (<[(pr_provider r, pr_provider_id r) := r]> rows) (<[pendingKey (pr_provider r) (pr_provider_id r) := scanPending r]> m).
Proof.
  intros [Hl Hk Hd Hx] Ht He. split.
  - intros p i Hp. destruct (decide ((pr_provider r, pr_provider_id r) = (p, i))) as [E|Hne].
    + injection E as -> ->. by rewrite !lookup_insert_eq.
    + rewrite (lookup_insert_ne rows) by done. rewrite lookup_insert_ne; [by apply Hl|].
      intros E. apply Hne. apply pending_key_injective in E as [-> ->]; done.
  - by apply map_Forall_insert_2.
  - by apply map_Forall_insert_2.
  - by apply map_Forall_insert_2.
Qed.

Lemma rel_pending_delete horizon rows m p i :
  rel_pending horizon rows m -> text_ok p = true -> rel_pending horizon (delete (p, i) rows) (delete (pendingKey p i) m).
Proof.
  intros [Hl Hk Hd Hx] Ht. split.
  - intros p' i' Hp. destruct (decide ((p, i) = (p', i'))) as [E|Hne].
    + injection E as -> ->. by rewrite !lookup_delete_eq.
    + rewrite (lookup_delete_ne rows) by done. rewrite lookup_delete_ne; [by apply Hl|].
      intros E. apply Hne. apply pending_key_injective in E as [-> ->]; done.
  - by apply map_Forall_delete.
  - by apply map_Forall_delete.
  - by apply map_Forall_delete.
Qed.

Lemma rel_pending_filter horizon rows m g :
  rel_pending horizon rows m ->
  rel_pending horizon (filter (fun kr => pr_gateway_id kr.2 <> g) rows) (filter (fun kv => p_GatewayID kv.2 <> g) m).
Proof.
  intros [Hl Hk Hd Hx]. split.
  - intros p i Hp. apply option_eq. intros x. rewrite map_lookup_filter_Some, (Hl p i Hp), !fmap_Some. split.
    + intros [(r & Hr & ->) Hg]. exists r. by rewrite map_lookup_filter_Some.
    + intros (r & Hr & ->). apply map_lookup_filter_Some in Hr as [Hr Hg]. split; [by exists r|done].
  - by apply map_Forall_filter.
  - by apply map_Forall_filter.
  - by apply map_Forall_filter.
Qed.

(** The two maps list the same records. *)
Definition entry (kr : (string * string) * pending_row) : string * Pending := (pendingKey kr.1.1 kr.1.2, scanPending kr.2).

Lemma rel_pending_list horizon rows m : rel_pending horizon rows m -> map_to_list m ≡ₚ entry <$> map_to_list rows.
Proof.
  intros [Hl Hk Hd Hx]. apply NoDup_Permutation; [apply NoDup_map_to_list| |].
  - apply NoDup_fmap_2_strong; [|apply NoDup_map_to_list]. intros [[p i] r] [[p' i'] r'] H H' E. apply elem_of_map_to_list in H, H'.
    apply (f_equal fst) in E. unfold entry in E. cbn [fst snd] in E.
    apply pending_key_injective in E as [-> ->]; [|by apply (Hk _ _ H)|by apply (Hk _ _ H')]. congruence.
  - intros [k x]. rewrite elem_of_map_to_list, list_elem_of_fmap. split.
    + intros Hkx. destruct (Hd _ _ Hkx) as [-> Ht]. rewrite (Hl _ _ Ht) in Hkx. apply fmap_Some in Hkx as (r & Hr & ->).
      eexists (_, r). split; [|by apply elem_of_map_to_list]. done.
    + intros ([[p i] r] & [= -> ->] & H). apply elem_of_map_to_list in H. destruct (Hk _ _ H) as [_ Ht]. cbn [fst] in Ht.
      by rewrite (Hl _ _ Ht), H.
Qed.

Lemma related_set_pending horizon rows m d s :
  related horizon d s -> rel_pending horizon rows m -> related horizon (db_set_pending rows d) (st_set_pending m s).
Proof.
  intros R Hp. apply related_pending; [done| |done]. apply wf_set_pending; [apply (rl_wf _ _ _ R)|].
  eapply map_Forall_impl; [apply (rp_dom _ _ _ Hp)|]. by intros k p [-> _].
Qed.

Lemma sim_save_pending horizon now p d s :
  related horizon d s -> pending_fits horizon p ->
  exists r, savePendingSQL pg_time now p d = Ok (db_set_pending (<[(p_Provider p, p_ProviderID p) := r]> (db_pending d)) d)
    /\ related horizon (db_set_pending (<[(p_Provider p, p_ProviderID p) := r]> (db_pending d)) d)
         (st_set_pending (<[pendingKey (p_Provider (normalizePending p)) (p_ProviderID (normalizePending p)) := normalizePending p]> (st_pending s)) s).
Proof.
  intros R Hf. destruct (new_pending_row_fits horizon now p Hf) as (r & Hr & Hs & E1 & E2). exists r. unfold savePendingSQL. rewrite Hr, E1, E2.
  split; [done|]. apply related_set_pending; [done|]. rewrite <- Hs. change (p_Provider (scanPending r)) with (pr_provider r).
  change (p_ProviderID (scanPending r)) with (pr_provider_id r). rewrite <- E1, <- E2. destruct (normalize_fits _ _ Hf) as ([] & _ & _).
  apply rel_pending_insert; [apply (rl_pending _ _ _ R)| |].
  - rewrite E1. destruct Hf. by eapply fits_text.
  - rewrite <- Hs in pf_expires0. exact pf_expires0.
Qed.

Lemma sim_SavePending horizon now p d s :
  related horizon d s -> now <= horizon -> pending_fits horizon p ->
  alike horizon (same_res eq) (pg_SavePending pg_time now p d) (SavePending now p s).
Proof.
  intros R Hn Hf. unfold pg_SavePending, SavePending. rewrite (sweep_nothing _ _ _ _ R Hn). cbn zeta.
  destruct (sim_save_pending horizon now p d _ (related_lastSweep _ now _ _ R) Hf) as (r & -> & HR). by split.
Qed.

Lemma sim_GetPending horizon now p i d s :
  related horizon d s -> now <= horizon -> text_ok p = true -> text_ok i = true ->
  let '(s', x) := GetPending now p i s in same_res eq (pg_GetPending p i d) (Ok x) /\ related horizon d s'.
Proof.
  intros R Hn Hp Hi. unfold GetPending, pg_GetPending. rewrite (sweep_nothing _ _ _ _ R Hn), bind_ok_fits by by repeat constructor. cbn zeta.
  cbn [st_pending st_set_lastSweep]. pose proof (rp_lookup _ _ _ (rl_pending _ _ _ R) p i Hp) as E. rewrite E.
  destruct (db_pending d !! (p, i)) as [r|]; cbn; [|by split; [|apply related_lastSweep]].
  pose proof (rp_live _ _ _ (rl_pending _ _ _ R) _ _ E) as Hl. cbn in Hl. unfold pending_expired, Before. cbn [p_ExpiresAt scanPending].
  rewrite (proj2 (Z.ltb_ge _ _)) by lia. rewrite andb_false_r. by split; [|apply related_lastSweep].
Qed.

Lemma sim_ListPending horizon now g d s :
  related horizon d s -> now <= horizon -> text_ok g = true ->
  let '(s', x) := ListPendingByGatewayID now g s in same_res Permutation (pg_ListPendingByGatewayID text_lt g d) (Ok x) /\ related horizon d s'.
Proof.
  intros R Hn Hg. unfold ListPendingByGatewayID, pg_ListPendingByGatewayID. rewrite (sweep_nothing _ _ _ _ R Hn), bind_ok_fits by by repeat constructor.
  split; [|by apply related_lastSweep]. cbn [same_res st_pending st_set_lastSweep]. rewrite !sort_stable_Permutation.
  rewrite (rel_pending_list _ _ _ (rl_pending _ _ _ R)). rewrite <- list_fmap_compose.
  induction (map_to_list (db_pending d)) as [|[k r] l IH]; [done|]. cbn [fmap list_fmap]. rewrite !filter_cons. cbn.
  destruct (decide (pr_gateway_id r = g)); cbn; by rewrite IH.
Qed.

(** A record and its row change together. *)
Lemma sim_upd_pending horizon p i f fr d s :
  related horizon d s -> text_ok p = true ->
  (forall r, scanPending (fr r) = f (scanPending r) /\ pr_provider (fr r) = pr_provider r /\ pr_provider_id (fr r) = pr_provider_id r
     /\ pr_expires_at (fr r) = pr_expires_at r) ->
  alike horizon (same_res eq) (statement (checked_rows (update_pending p i (fun r => Some (fr r)) d)) d) (upd_pending p i f s).
Proof.
  intros R Hp Hf. unfold update_pending, upd_pending, alike. pose proof (rl_pending _ _ _ R) as Hr. pose proof (rp_lookup _ _ _ Hr p i Hp) as E. rewrite E.
  destruct (db_pending d !! (p, i)) as [r|] eqn:Er; [|done]. cbn. split; [done|]. destruct (rp_keys _ _ _ Hr _ _ Er) as [Ek _]. injection Ek as E1 E2.
  destruct (Hf r) as (<- & F1 & F2 & F3). apply related_set_pending; [done|]. rewrite E1, E2, <- F1, <- F2. apply rel_pending_insert; [done| |].
  - by rewrite F1, <- E1.
  - rewrite F3. apply (rp_live _ _ _ Hr _ _ E).
Qed.

Lemma sim_record_dlr horizon now p i st e t ready f d s :
  related horizon d s -> text_ok p = true -> text_ok i = true -> fits 16 st -> -2147483648 <= e <= 2147483647 -> micro t -> t <> 0 ->
  (forall r, f (scanPending r) = scanPending (pr_set_dlr (ready r) false (Some st) e (Some t) r)) ->
  alike horizon (same_res eq) (record_dlr pg_time now ready p i st e t d) (upd_pending p i f s).
Proof.
  intros R Hp Hi Hs He Ht Ht0 Hf. unfold record_dlr. rewrite bind_ok_fits by (repeat constructor; eauto with mysmpp). rewrite int4_fits by done.
  rewrite bool_decide_eq_true_2 by done. cbn [andb].
  assert (update_pending p i (fun r => st ← varchar 16 st; Some (pr_set_dlr (ready r) false (Some st) e (Some (pg_time (zeroAsNow now t))) r)) d
    = update_pending p i (fun r => Some (pr_set_dlr (ready r) false (Some st) e (Some t) r)) d) as ->.
  { unfold update_pending. destruct (db_pending d !! (p, i)); [|done]. by rewrite varchar_fits, zeroAsNow_set, Ht by done. }
  apply sim_upd_pending; [done..|]. intros r. by rewrite Hf.
Qed.

(** Rows and records are ready for the same accounts. *)
Lemma ready_same sys r :
  ready_for sys (scanPending r) = true <-> pr_dlr_ready r = true /\ (sys = "" \/ pr_source_system r = Some sys).
Proof.
  unfold ready_for. rewrite andb_true_iff, orb_true_iff, !bool_decide_eq_true. cbn [p_DLRReady p_SourceSystem scanPending].
  destruct (pr_source_system r) as [x|]; cbn; naive_solver.
Qed.

Lemma sim_ListReady horizon now sys limit d s :
  related horizon d s -> now <= horizon -> text_ok sys = true ->
  exists entries, entries ≡ₚ map_to_list (st_pending (sweepLocked now s))
    /\ same_res Permutation (pg_ListReadyDLR text_lt sys limit d) (Ok (ListReadyDLR now sys limit entries s).2)
    /\ related horizon d (ListReadyDLR now sys limit entries s).1.
Proof.
  clear pg_time. intros R Hn Hsys. pose proof (rel_pending_list _ _ _ (rl_pending _ _ _ R)) as Hl. unfold pg_ListReadyDLR, ListReadyDLR.
  rewrite (sweep_nothing _ _ _ _ R Hn), bind_ok_fits by by repeat constructor. cbn zeta. cbn [st_pending st_set_lastSweep fst snd same_res].
  set (rows := sort_stable _ _). set (put r := entry ((pr_provider r, pr_provider_id r), r)). set (Q := fun kv : string * Pending => ready_for sys kv.2 = true).
  assert (Forall (fun p => ready_for sys p = true) (scanPending <$> rows)) as Hrows.
  { apply Forall_fmap, Forall_forall. intros r Hr. subst rows. rewrite sort_stable_Permutation in Hr. apply list_elem_of_filter in Hr as [Hr _]. by apply ready_same. }
  exists ((put <$> rows) ++ filter (fun kv => ~ Q kv) (map_to_list (st_pending s))). split_and!; [| |by apply related_lastSweep].
  - rewrite (filter_split Q (map_to_list (st_pending s))) at 2. f_equiv. subst rows. rewrite sort_stable_Permutation, Hl, filter_fmap.
    clear Hrows Hl.
    assert (Forall (fun kr => kr.1 = (pr_provider kr.2, pr_provider_id kr.2)) (map_to_list (db_pending d))) as HF.
    { apply Forall_forall. intros [k r] H%elem_of_map_to_list. by apply (rp_keys _ _ _ (rl_pending _ _ _ R)) in H as [? _]. }
    induction HF as [|[k r] l E _ IH]; [done|]. cbn [fmap list_fmap]. rewrite !filter_cons. cbn [fst snd] in *.
    assert (Q (entry (k, r)) <-> pr_dlr_ready r = true /\ (sys = "" \/ pr_source_system r = Some sys)) as HQ by apply ready_same.
    destruct (decide (Q (entry (k, r)))) as [H1|H1], (decide (pr_dlr_ready r = true /\ (sys = "" \/ pr_source_system r = Some sys))) as [H2|H2]; try tauto.
    cbn [fmap list_fmap]. by rewrite IH, E.
  - rewrite fmap_app, filter_app, <- list_fmap_compose.
    assert (filter (fun p => ready_for sys p = true) (snd ∘ put <$> rows) = scanPending <$> rows) as -> by exact (filter_all _ _ Hrows).
    rewrite (filter_nothing (fun p => ready_for sys p = true) (filter (fun kv => ~ Q kv) (map_to_list (st_pending s))).*2); [by rewrite app_nil_r, fmap_take|].
    apply Forall_fmap, Forall_forall. intros kv H%list_elem_of_filter. apply H.
Qed.
End sim.
