(* ===== verification/PostgresRefine.v ===== *)
(** * Postgres does what the memory store does

    The remaining operations along the relation of the two stores, and the
    theorem: up to the first expiry and for values that fit their columns, every
    behaviour of the Postgres store is one of the memory store. *)

From S2P Require Import Prelude Unicode Codec Segment Num GoTime GoParse Records Store StoreInv StoreSubmit Postgres PostgresSim.

Lemma sort_stable_fmap {A B} (f : A -> B) (lt : B -> B -> bool) (lt' : A -> A -> bool) (l : list A) :
  (forall a b, lt (f a) (f b) = lt' a b) -> sort_stable lt (f <$> l) = f <$> sort_stable lt' l.
Proof.
  intros H. induction l as [|x l IH]; [done|]. cbn [fmap list_fmap sort_stable foldr]. fold (sort_stable lt (f <$> l)) (sort_stable lt' l). rewrite IH.
  generalize (sort_stable lt' l). intros k. induction k as [|y k IHk]; [done|]. cbn [fmap list_fmap sort_insert]. rewrite H.
  destruct (lt' y x); [|done]. cbn. by rewrite IHk.
Qed.

(** Sorting does not depend on the order it starts from when no two elements are equal in order. *)
Lemma sort_stable_unique {A} (lt : A -> A -> bool) (l l' : list A) :
  (forall x y, lt x y = true -> lt y x = false) -> (forall x y z, lt x y = false -> lt y z = false -> lt x z = false) ->
  (forall x y, x ∈ l -> y ∈ l -> lt x y = false -> lt y x = false -> x = y) -> l ≡ₚ l' -> sort_stable lt l = sort_stable lt l'.
Proof.
  intros Ha Hn Ht Hp. apply (StronglySorted_unique_strong (fun a b => lt b a = false)).
  - intros x y Hx Hy H1 H2. rewrite sort_stable_Permutation in Hx. rewrite sort_stable_Permutation, <- Hp in Hy. by apply Ht.
  - by apply sort_stable_sorted.
  - by apply sort_stable_sorted.
  - by rewrite !sort_stable_Permutation.
Qed.

Section refine.
Context {J : Type}.
Context (meta_json : option (gmap string string) -> option J) (json_meta : J -> option (option (gmap string string))).
Context (payload_json : OutboxPayload -> option J) (json_payload : J -> option OutboxPayload) (json_delete : list string -> J -> J).
Context (pg_time : time -> time) (text_lt : string -> string -> bool).

Abbreviation DB := (DB J).
Abbreviation outbox_row := (outbox_row J).
Abbreviation related := (related json_meta json_payload).
Abbreviation rel_item := (rel_item json_payload).
Abbreviation rel_outbox := (rel_outbox json_payload).
Abbreviation micro := (micro pg_time).
Abbreviation pending_fits := (pending_fits pg_time).
Abbreviation alike := (alike json_meta json_payload).
Implicit Types (d : DB) (s : MemoryStore).

(** ** Items and rows *)

Definition to_item (r : outbox_row) : OutboxItem :=
  mkOutboxItem (or_id r) (or_gateway_id r) (or_provider r) (default (ob_Payload (row_item "" "" 0)) (json_payload (or_payload r))) (or_state r)
    (coalesce (or_claimed_by r)) (default 0 (or_claimed_at r)) (or_next_retry_at r) (or_attempt r) (or_max_attempts r)
    (coalesce (or_last_error r)) (or_created_at r).

Lemma rel_item_eq it r : rel_item it r -> ob_State it <> "failed" -> it = to_item r.
Proof.
  intros [Hp (F1 & F2 & F3 & F4 & F5 & F6 & F7 & F8 & F9) Hc _ _] Hs. destruct (Hc Hs) as [F10 F11]. unfold to_item. rewrite Hp. destruct it. cbn in *. congruence.
Qed.

Lemma rel_outbox_row rows m id r : rel_outbox rows m -> rows !! id = Some r -> exists it, m !! id = Some it /\ rel_item it r.
Proof. intros H E. specialize (H id). rewrite E in H. inversion H. eauto. Qed.

Lemma rel_outbox_item rows m id it : rel_outbox rows m -> m !! id = Some it -> exists r, rows !! id = Some r /\ rel_item it r.
Proof. intros H E. specialize (H id). rewrite E in H. inversion H. eauto. Qed.

Lemma rel_outbox_none rows m id : rel_outbox rows m -> m !! id = None <-> rows !! id = None.
Proof. intros H. specialize (H id). inversion H; naive_solver. Qed.

Lemma rel_outbox_insert rows m id it r : rel_outbox rows m -> rel_item it r -> rel_outbox (<[id := r]> rows) (<[id := it]> m).
Proof. intros H Hi k. destruct (decide (id = k)) as [->|Hne]; [rewrite !lookup_insert_eq; by constructor|by rewrite !lookup_insert_ne by done]. Qed.

(** The items under a condition that failed items do not meet. *)
Lemma rel_outbox_list (C : OutboxItem -> bool) (C' : outbox_row -> bool) rows m :
  rel_outbox rows m -> (forall it r, rel_item it r -> C it = true <-> C' r = true) -> (forall it, C it = true -> ob_State it <> "failed") ->
  filter (fun kv => C kv.2 = true) (map_to_list m) ≡ₚ (fun kr => (kr.1, to_item kr.2)) <$> filter (fun kr => C' kr.2 = true) (map_to_list rows).
Proof.
  intros HR HC Hs. apply NoDup_Permutation.
  - apply NoDup_filter, NoDup_map_to_list.
  - apply NoDup_fmap_2_strong; [|apply NoDup_filter, NoDup_map_to_list]. intros [k r] [k' r'] H1 H2 E.
    apply list_elem_of_filter in H1 as [_ H1%elem_of_map_to_list], H2 as [_ H2%elem_of_map_to_list]. apply (f_equal fst) in E. cbn in E. subst k'. congruence.
  - intros [k it]. rewrite list_elem_of_filter, list_elem_of_fmap, elem_of_map_to_list. split.
    + intros [Hc Hk]. destruct (rel_outbox_item _ _ _ _ HR Hk) as (r & Hr & Hi). exists (k, r). cbn [fst snd] in *.
      rewrite (rel_item_eq _ _ Hi) by by apply Hs. split; [done|]. apply list_elem_of_filter. split; [by apply (HC it r Hi)|by apply elem_of_map_to_list].
    + intros ([k' r] & [= -> ->] & [Hc Hk%elem_of_map_to_list]%list_elem_of_filter). cbn [fst snd] in *.
      destruct (rel_outbox_row _ _ _ _ HR Hk) as (it' & Hit & Hi). pose proof (proj2 (HC _ _ Hi) Hc) as Hc'. rewrite <- (rel_item_eq _ _ Hi) by by apply Hs. done.
Qed.

(** One item and its row change. *)
Lemma related_item horizon id it r it' r' d s :
  related horizon d s -> st_outbox s !! id = Some it -> db_outbox d !! id = Some r -> rel_item it' r' ->
  ob_ID it' = ob_ID it -> ob_GatewayID it' = ob_GatewayID it ->
  related horizon (db_set_outbox (<[id := r']> (db_outbox d)) d) (st_set_outbox (<[id := it']> (st_outbox s)) s).
Proof.
  intros R Hi Hr Hrel E1 E2. pose proof (rl_wf _ _ _ _ _ R) as Hwf. pose proof (wf_outbox_insert id it it' s Hwf Hi E1) as Hwf'.
  pose proof (rl_kept _ _ _ _ _ R) as Hk. destruct R. split; try done; cbn [st_outbox db_outbox st_set_outbox db_set_outbox].
  - by apply rel_outbox_insert.
  - apply map_Forall_insert_2; [|done]. rewrite E2. by apply (Hk _ _ Hi).
Qed.

Lemma related_row horizon id r d s :
  related horizon d s -> db_outbox d !! id = Some r ->
  exists it, st_outbox s !! id = Some it /\ rel_item it r /\ is_Some (GetMessage (ob_GatewayID it) s) /\ ob_ID it = id.
Proof.
  intros R Hr. destruct (rel_outbox_row _ _ _ _ (rl_outbox _ _ _ _ _ R) Hr) as (it & Hit & Hi). exists it. split_and!; [done|done| |].
  - apply (rl_kept _ _ _ _ _ R _ _ Hit).
  - by apply (wf_outbox _ (rl_wf _ _ _ _ _ R)) in Hit as [? _].
Qed.

Lemma related_no_row horizon id d s : related horizon d s -> db_outbox d !! id = None -> st_outbox s !! id = None.
Proof. intros R H. by apply (rel_outbox_none _ _ id (rl_outbox _ _ _ _ _ R)). Qed.

(** Goals of [rel_item] for a row that an operation changed. *)
Ltac rel_item_tac :=
  match goal with
  | H : rel_item ?it ?r |- rel_item _ _ =>
    destruct H as [?Hp (?F1 & ?F2 & ?F3 & ?F4 & ?F5 & ?F6 & ?F7 & ?F8 & ?F9) ?Hc ?Hcl ?Hnx]; split; cbn; try done
  end.

(** ** The life of an item *)

Lemma claimed_by_item it r w : rel_item it r -> claimed_by w r = bool_decide (ob_State it = "claimed") && bool_decide (ob_ClaimedBy it = w).
Proof.
  intros [_ (_ & _ & _ & F4 & _) _ Hcl _]. unfold claimed_by. rewrite <- F4. case_bool_decide as Hs; [|done]. cbn [andb].
  destruct (Hcl Hs) as (t & _ & -> & _). apply bool_decide_ext. naive_solver.
Qed.

Lemma owner_item it r w : rel_item it r -> ob_State it <> "failed" -> bool_decide (coalesce (or_claimed_by r) = w) = bool_decide (ob_ClaimedBy it = w).
Proof. intros [_ _ Hc _ _] Hs. by destruct (Hc Hs) as [<- _]. Qed.

Lemma sim_MarkSending horizon id w d s :
  related horizon d s -> text_ok w = true ->
  alike horizon (same_res eq) (pg_MarkOutboxSending (fun d => d) id w d) (MarkOutboxSending id w s).
Proof.
  intros R Hw. unfold pg_MarkOutboxSending, MarkOutboxSending, sending_already. rewrite bind_ok_fits by by repeat constructor. cbn [negb].
  destruct (db_outbox d !! id) as [r|] eqn:Er; [|by rewrite (related_no_row _ _ _ _ R Er)].
  destruct (related_row _ _ _ _ _ R Er) as (it & Hit & Hi & _ & Hid). rewrite Hit, (claimed_by_item _ _ _ Hi).
  pose proof Hi as [_ (_ & _ & _ & F4 & _) Hc _ _].
  destruct (decide (ob_State it = "claimed")) as [Hs|Hs].
  - rewrite (bool_decide_eq_true_2 _ Hs), (bool_decide_eq_false_2 (ob_State it = "sending")) by congruence. cbn [andb negb orb].
    destruct (bool_decide_reflect (ob_ClaimedBy it = w)) as [Hb|Hb]; cbn.
    + split; [done|]. eapply related_item; try done. rel_item_tac. intros _. apply Hc0. congruence.
    + rewrite <- F4, (bool_decide_eq_false_2 (ob_State it = "sending")) by congruence. by split.
  - rewrite (bool_decide_eq_false_2 _ Hs). cbn [andb negb orb]. rewrite <- F4. case_bool_decide as Hsd; cbn [andb]; [|done].
    rewrite (owner_item _ _ w Hi) by congruence. by destruct (bool_decide _).
Qed.

Lemma sim_Ack horizon id d s :
  jsonb_laws meta_json json_meta payload_json json_payload json_delete -> related horizon d s ->
  alike horizon (same_res eq) (pg_AckOutbox json_delete id d) (AckOutbox id s).
Proof.
  intros Hl R. unfold pg_AckOutbox, AckOutbox, update_outbox. destruct (db_outbox d !! id) as [r|] eqn:Er; [|by rewrite (related_no_row _ _ _ _ R Er)].
  destruct (related_row _ _ _ _ _ R Er) as (it & Hit & Hi & _ & _). rewrite Hit. pose proof Hi as [_ (_ & _ & _ & F4 & _) _ _ _]. rewrite <- F4.
  case_bool_decide as Hs; cbn; [|done]. split; [done|]. eapply related_item; try done. rel_item_tac; [by apply (jl_delete _ _ _ _ _ Hl)|].
  intros _. apply Hc. congruence.
Qed.

Lemma sim_Fail horizon id e t d s :
  related horizon d s -> text_ok e = true -> micro t -> 0 <= t ->
  (t <> 0 -> forall it, st_outbox s !! id = Some it -> ob_Attempt it < ob_MaxAttempts it) ->
  alike horizon (same_res eq) (pg_FailOutbox pg_time id e t d) (FailOutbox id e t s).
Proof.
  clear text_lt. intros R He Ht Ht0 Ha. unfold pg_FailOutbox, FailOutbox, update_outbox. rewrite bind_ok_fits by by repeat constructor.
  destruct (db_outbox d !! id) as [r|] eqn:Er; [|by rewrite (related_no_row _ _ _ _ R Er)].
  destruct (related_row _ _ _ _ _ R Er) as (it & Hit & Hi & _ & _). rewrite Hit. pose proof Hi as [_ (_ & _ & _ & F4 & _) _ _ _]. rewrite <- F4.
  cbn [ob_MaxAttempts ob_Attempt ob_State ob_set_LastError]. unfold nullTime, IsZero. destruct (Z.eqb_spec t 0) as [->|Hne]; cbn [orb fmap option_fmap option_map default].
  - rewrite (bool_decide_eq_true_2 ("failed" = "failed")) by done.
    destruct (bool_decide_reflect (ob_State it = "claimed")), (bool_decide_reflect (ob_State it = "sending")); cbn; try done;
      (split; [done|]; eapply related_item; try done; rel_item_tac).
  - rewrite (bool_decide_eq_false_2 ("pending" = "failed")) by done. specialize (Ha Hne it Hit). rewrite (proj2 (Z.leb_gt _ _) Ha), orb_diag.
    destruct (bool_decide_reflect (ob_State it = "claimed")); cbn; [|done]. split; [done|]. eapply related_item; try done. rel_item_tac. lia.
Qed.

Lemma sim_Uncertain horizon now id w e d s :
  related horizon d s -> text_ok e = true ->
  alike horizon (same_res eq) (pg_MarkOutboxUncertain now id w e d) (MarkOutboxUncertain now id w e s).
Proof.
  intros R He. unfold pg_MarkOutboxUncertain, MarkOutboxUncertain. destruct (db_outbox d !! id) as [r|] eqn:Er; [|by rewrite (related_no_row _ _ _ _ R Er)].
  destruct (related_row _ _ _ _ _ R Er) as (it & Hit & Hi & [m Hm] & _). rewrite Hit. pose proof Hi as [_ (_ & F2 & _ & F4 & _) _ _ _]. rewrite <- F4.
  destruct (negb _ && negb _) eqn:Hs; cbn [orb]; [by split|].
  assert (ob_State it <> "failed") as Hnf by (intros E; by rewrite E in Hs). rewrite (owner_item _ _ w Hi Hnf).
  destruct (bool_decide_reflect (ob_ClaimedBy it = w)) as [Hw|Hw]; cbn [negb]; [|by split]. rewrite text_fits by done. cbn [mbind res_bind].
  set (it' := ob_set_LastError e (ob_set_State "uncertain" it)). set (r' := or_set "uncertain" _ _ _ _ _ r).
  assert (rel_item it' r') as Hi' by (subst it' r'; clear Hs; rel_item_tac; intros _; apply Hc; congruence).
  pose proof (related_item horizon id it r it' r' d s R Hit Er Hi' eq_refl eq_refl) as R'.
  set (d1 := db_set_outbox _ d) in *. set (s1 := st_set_outbox _ s) in *. rewrite <- F2. unfold update_message.
  assert (exists row, db_messages d1 !! ob_GatewayID it = Some row) as [row Hrow].
  { pose proof (rl_messages _ _ _ _ _ R (ob_GatewayID it)) as Hg. rewrite Hm in Hg. subst d1. cbn [db_messages db_set_outbox].
    destruct (db_messages d !! ob_GatewayID it); [eauto|done]. }
  rewrite Hrow. cbn [checked_rows statement]. destruct (st_messageByID s1 !! ob_GatewayID it) as [idx|] eqn:Ei.
  - split; [done|]. cbn [fst]. eapply related_update; try done. intros x Hx.
    change (msg_set_DoneAt now (msg_set_ErrorCode 1 (msg_set_State "UNKNOWN" (no_parts x))) = no_parts (scanMessage json_meta 0 (mr_set_state "UNKNOWN" 1 now row))).
    by rewrite Hx.
  - apply (row_absent _ _ _ _ _ _ R') in Ei. congruence.
Qed.

(** ** Completing a send *)

Lemma normalize_idem p : normalizePending (normalizePending p) = normalizePending p.
Proof.
  destruct p. unfold normalizePending. cbn.
  repeat (match goal with |- context [?a <=? 0] => is_var a; destruct (Z.leb_spec a 0) end; cbn); try lia; try done;
    rewrite ?(proj2 (Z.leb_gt _ _)) by lia; cbn; rewrite ?(proj2 (Z.leb_gt _ _)) by lia; done.
Qed.

Lemma validate_same it it' ps :
  ob_GatewayID it = ob_GatewayID it' -> ob_Provider it = ob_Provider it' -> validateOutboxCompletion it ps = validateOutboxCompletion it' ps.
Proof.
  intros E1 E2. assert (validate_records it ps = validate_records it' ps) as E.
  { induction ps as [|p ps IH]; [done|]. cbn [validate_records]. by rewrite E1, E2, IH. }
  by destruct ps.
Qed.

Lemma validate_normal it ps ps' : validateOutboxCompletion it ps = Ok ps' -> ps' = normalizePending <$> ps /\ ps' <> [].
Proof.
  assert (forall ps ps', validate_records it ps = Ok ps' -> ps' = normalizePending <$> ps) as H.
  { clear. intros ps. induction ps as [|p ps IH]; intros ps'; cbn [validate_records]; [by intros [= <-]|].
    destruct (bool_decide _); [done|]. destruct (_ || _); [done|]. destruct (validate_records it ps) as [l|]; [|done]. intros [= <-]. by rewrite (IH l). }
  destruct ps as [|p ps]; [done|]. intros E. apply H in E. by subst.
Qed.

Lemma save_records_sim horizon now recs d s :
  related horizon d s -> Forall (pending_fits horizon) recs ->
  exists d', save_records pg_time now (normalizePending <$> recs) d = Ok d' /\ db_outbox d' = db_outbox d
    /\ related horizon d' (st_set_pending (put_pending (normalizePending <$> recs) (st_pending s)) s).
Proof.
  intros R Hf. revert d s R. induction Hf as [|p recs Hp _ IH]; intros d s R.
  - exists d. split_and!; [done|done|]. by destruct s.
  - destruct (normalize_fits _ _ _ Hp) as [Hp' _]. destruct (sim_save_pending _ _ _ horizon now _ d s R Hp') as (r & Hr & R').
    rewrite normalize_idem in R'. destruct (IH _ _ R') as (d' & Hd & Ho & R''). exists d'. cbn [fmap list_fmap save_records]. rewrite Hr. cbn [mbind res_bind].
    split_and!; [exact Hd|by rewrite Ho|]. exact R''.
Qed.

Lemma sim_Complete horizon now id w ps d s :
  jsonb_laws meta_json json_meta payload_json json_payload json_delete -> related horizon d s -> Forall (pending_fits horizon) ps ->
  alike horizon (same_res eq) (pg_CompleteOutboxSend json_delete pg_time now now id w ps d) (CompleteOutboxSend now id w ps s).
Proof.
  intros Hl R Hf. unfold pg_CompleteOutboxSend, CompleteOutboxSend. destruct (db_outbox d !! id) as [r|] eqn:Er; [|by rewrite (related_no_row _ _ _ _ R Er)].
  destruct (related_row _ _ _ _ _ R Er) as (it & Hit & Hi & Hm & _). rewrite Hit. pose proof Hi as [_ (_ & F2 & F3 & F4 & _) _ _ _]. rewrite <- F4.
  destruct (bool_decide_reflect (ob_State it = "done")) as [|Hnd]; [by split|].
  destruct (bool_decide_reflect (ob_State it = "sending")) as [Hs|Hs]; cbn [negb orb]; [|by split].
  rewrite (owner_item _ _ w Hi) by congruence. destruct (bool_decide_reflect (ob_ClaimedBy it = w)) as [Hw|]; cbn [negb]; [|by split].
  rewrite (validate_same it (row_item (or_gateway_id r) (or_provider r) id) ps) by done.
  destruct (validateOutboxCompletion _ ps) as [ps'|err] eqn:Hv; cbn [mbind res_bind statement]; [|by split].
  destruct (validate_normal _ _ _ Hv) as [-> Hne]. set (pid := match normalizePending <$> ps with p :: _ => _ | [] => _ end).
  assert (fits 128 pid) as Hpid.
  { subst pid. destruct ps as [|p ps]; [done|]. cbn. apply Forall_inv in Hf. by apply (normalize_fits _ _ _ Hf). }
  pose proof (sim_message_sent json_meta json_payload horizon now (ob_GatewayID it) pid d s R (proj1 (rl_kept _ _ _ _ _ R _ _ Hit)) Hpid) as H.
  rewrite <- F2. destruct (sent_message _ _ _ _) as [[d1 affected]|] eqn:Hsent; [|done]. destruct H as (R1 & H1 & H2).
  destruct (st_messageByID s !! ob_GatewayID it) as [idx|] eqn:Hidx.
  2: { destruct Hm as [m Hm]. unfold GetMessage in Hm. by rewrite Hidx in Hm. }
  unfold UpdateMessageSent in R1, H1. rewrite Hidx in R1, H1. cbn [fst snd] in R1, H1. destruct affected; [|done]. cbn [checked_rows mbind res_bind fst].
  set (s1 := upd_message _ idx s) in *. destruct (save_records_sim horizon now ps d1 s1 R1 Hf) as (d2 & -> & Ho & R2). cbn [mbind res_bind statement].
  split; [done|]. cbn [fst]. set (s2 := st_set_pending _ s1) in *.
  assert (db_outbox d1 = db_outbox d) as Hd1.
  { unfold sent_message, update_message in Hsent. by repeat case_match; simplify_eq. }
  assert (st_outbox s2 !! id = Some it) as Hit2 by done.
  assert (db_outbox d2 !! id = Some r) as Er2 by by rewrite Ho, Hd1.
  eapply (related_item horizon id it r); try done. rel_item_tac; [by apply (jl_delete _ _ _ _ _ Hl)|]. intros _. apply Hc. congruence.
Qed.

(** ** Several rows at once *)

Lemma related_fold horizon its rows d s :
  related horizon d s -> Forall2 rel_item its rows ->
  Forall (fun it => exists it0, st_outbox s !! ob_ID it = Some it0 /\ ob_ID it = ob_ID it0 /\ ob_GatewayID it = ob_GatewayID it0) its ->
  related horizon (write_rows rows d) (st_set_outbox (foldl (fun m it => <[ob_ID it := it]> m) (st_outbox s) its) s).
Proof.
  intros R HF. revert d s R. induction HF as [|it r its rows Hi _ IH]; intros d s R Hs; [by destruct d, s|].
  apply Forall_cons in Hs as [(it0 & Hit0 & Hid & Hg) Hs]. destruct (rel_outbox_item _ _ _ _ (rl_outbox _ _ _ _ _ R) Hit0) as (r0 & Hr0 & _).
  assert (or_id r = ob_ID it) as Er by (by destruct Hi as [_ (-> & _) _ _ _]).
  pose proof (related_item horizon (ob_ID it) it0 r0 it r d s R Hit0 Hr0 Hi Hid Hg) as R1. specialize (IH _ _ R1). unfold write_rows in *. cbn [foldl]. rewrite Er.
  apply IH. eapply Forall_impl; [exact Hs|]. intros x (x0 & Hx & H1 & H2). cbn [st_outbox st_set_outbox].
  destruct (decide (ob_ID it = ob_ID x)) as [E|Hne]; [|rewrite lookup_insert_ne by done; eauto].
  rewrite E, lookup_insert_eq. exists it. split_and!; [done|done|]. rewrite <- E, Hit0 in Hx. congruence.
Qed.

(** The rows of a list of items that are not failed. *)
Definition at_key (s : MemoryStore) (it : OutboxItem) : Prop := st_outbox s !! ob_ID it = Some it.

Lemma rows_at_key horizon (C : outbox_row -> bool) d s :
  related horizon d s -> (forall r, C r = true -> or_state r <> "failed") ->
  Forall (fun r => C r = true /\ at_key s (to_item r) /\ rel_item (to_item r) r) (filter (fun r => C r = true) (map_to_list (db_outbox d)).*2).
Proof.
  intros R HC. apply Forall_forall. intros r [Hc Hr]%list_elem_of_filter. apply list_elem_of_fmap in Hr as ([k r'] & -> & Hk%elem_of_map_to_list).
  cbn [snd] in *. split; [done|]. destruct (related_row _ _ _ _ _ R Hk) as (it & Hit & Hi & _ & Hid).
  pose proof Hi as [_ (E1 & _ & _ & E4 & _) _ _ _]. assert (it = to_item r') as <- by (apply rel_item_eq; [done|rewrite E4; by apply HC]).
  unfold at_key. by rewrite Hid.
Qed.

Lemma items_of_rows horizon (C : OutboxItem -> bool) (C' : outbox_row -> bool) d s :
  related horizon d s -> (forall it r, rel_item it r -> C it = true <-> C' r = true) -> (forall it, C it = true -> ob_State it <> "failed") ->
  filter (fun it => C it = true) (map_to_list (st_outbox s)).*2 ≡ₚ to_item <$> filter (fun r => C' r = true) (map_to_list (db_outbox d)).*2.
Proof.
  intros R HC Hs. rewrite !filter_fmap. rewrite (rel_outbox_list C C' _ _ (rl_outbox _ _ _ _ _ R) HC Hs).
  by rewrite <- !list_fmap_compose.
Qed.

(** ** Claiming *)

Lemma claimable_same now it r : rel_item it r -> claimable now it = true <-> claimable_row now (fun _ => false) r = true.
Proof.
  intros [_ (_ & _ & _ & F4 & F5 & _) _ _ _]. unfold claimable, claimable_row, After. rewrite <- F4, <- F5, Z.leb_antisym. by rewrite andb_true_r.
Qed.

Lemma claim_rows_items horizon now limit d s :
  related horizon d s -> claim_candidates now limit (st_outbox s) = to_item <$> claim_rows now (fun _ => false) limit d.
Proof.
  clear pg_time text_lt. intros R. unfold claim_candidates, claim_rows. cbn zeta. rewrite fmap_take. f_equal.
  rewrite <- (sort_stable_fmap to_item claim_less claim_order) by done. apply sort_stable_unique.
  - apply claim_less_asym.
  - apply claim_less_negtrans.
  - intros x y [_ Hx]%list_elem_of_filter [_ Hy]%list_elem_of_filter H1 H2. apply list_elem_of_fmap in Hx as ([k x'] & -> & Hx%elem_of_map_to_list), Hy as ([k' y'] & -> & Hy%elem_of_map_to_list).
    cbn [snd] in *. pose proof (wf_outbox _ (rl_wf _ _ _ _ _ R) _ _ Hx) as [Ex _]. pose proof (wf_outbox _ (rl_wf _ _ _ _ _ R) _ _ Hy) as [Ey _].
    assert (ob_ID x' = ob_ID y') as E; [|rewrite Ex, Ey in E; subst k'; congruence]. revert H1 H2. unfold claim_less, Before. clear. bdestr; lia.
  - apply (items_of_rows horizon); [done|apply claimable_same|]. intros it Hc E. unfold claimable in Hc. by rewrite E in Hc.
Qed.

Lemma claimed_item now w r : rel_item (to_item r) r -> or_next_retry_at r <= now -> rel_item (claim_item w now (to_item r)) (claim_row w now r).
Proof. intros H Hn. rel_item_tac. intros _. eauto. Qed.

Lemma scan_claimed now w r : rel_item (to_item r) r -> scanOutbox json_payload (claim_row w now r) = Some (claim_item w now (to_item r)).
Proof. intros [Hp _ _ _ _]. unfold scanOutbox. cbn [or_payload claim_row or_set]. rewrite Hp. done. Qed.

Lemma sim_Claim horizon now returning w limit d s :
  related horizon d s -> fits 64 w -> (forall l : list outbox_row, returning l ≡ₚ l) ->
  map_Forall (fun _ r => -2147483648 <= or_attempt r < 2147483647) (db_outbox d) ->
  alike horizon (same_res Permutation) (pg_ClaimOutbox json_payload now (fun _ => false) returning w limit d)
    (let '(s', l) := ClaimOutbox now w limit s in (s', Ok l)).
Proof.
  clear pg_time text_lt. intros R Hw Hret Hat. unfold pg_ClaimOutbox, ClaimOutbox. rewrite bind_ok_fits by (repeat constructor; eauto with mysmpp). cbn [negb].
  rewrite varchar_fits, (claim_rows_items horizon now limit d s R) by done. set (rows := claim_rows _ _ _ _).
  assert (Forall (fun r => or_next_retry_at r <= now /\ at_key s (to_item r) /\ rel_item (to_item r) r) rows) as Hrows.
  { subst rows. unfold claim_rows. apply Forall_take. rewrite sort_stable_Permutation.
    eapply Forall_impl; [apply (rows_at_key horizon (claimable_row now (fun _ => false)) d s R)|].
    - intros r Hc E. unfold claimable_row in Hc. by rewrite E in Hc.
    - intros r (Hc & H1 & H2). split_and!; [|done..]. unfold claimable_row in Hc. apply andb_true_iff in Hc as [[_ Hc]%andb_true_iff _]. by apply Z.leb_le. }
  assert (existsb (fun r => bool_decide (int4 (or_attempt r) = None)) (claim_row w now <$> rows) = false) as ->.
  { apply not_true_is_false. intros (r' & Hr' & Hv)%existsb_exists. apply list_elem_of_In, list_elem_of_fmap in Hr' as (r & -> & Hr).
    assert (exists k, db_outbox d !! k = Some r) as [k Hk].
    { subst rows. unfold claim_rows in Hr. apply elem_of_take in Hr as (i & Hi & _). apply list_elem_of_lookup_2 in Hi. rewrite sort_stable_Permutation in Hi.
      apply list_elem_of_filter in Hi as [_ ([k r'] & -> & Hk%elem_of_map_to_list)%list_elem_of_fmap]. by exists k. }
    specialize (Hat _ _ Hk). cbn in Hat, Hv. rewrite int4_fits in Hv by lia. done. }
  clearbody rows. split.
  - cbn [snd]. assert (forall l : list outbox_row, Forall (fun r => exists r0, r = claim_row w now r0 /\ rel_item (to_item r0) r0) l ->
      exists items, mapM (scanOutbox json_payload) l = Some items /\ Forall2 (fun r it => scanOutbox json_payload r = Some it) l items) as Hscan.
    { intros l Hl. induction Hl as [|r l (r0 & -> & Hr0) _ (items & E & HF)]; [by exists []|]. exists (claim_item w now (to_item r0) :: items).
      cbn [mapM]. rewrite (scan_claimed now w r0 Hr0), E. cbn. split; [done|]. constructor; [by apply scan_claimed|done]. }
    destruct (Hscan (returning (claim_row w now <$> rows))) as (items & E & HF).
    { rewrite Hret. apply Forall_fmap. eapply Forall_impl; [exact Hrows|]. intros r (_ & _ & H). by exists r. }
    rewrite E. cbn [same_res]. clear Hscan E. pose proof (Hret (claim_row w now <$> rows)) as Hp.
    assert (forall l items items', Forall2 (fun r it => scanOutbox json_payload r = Some it) l items -> Forall2 (fun r it => scanOutbox json_payload r = Some it) l items' -> items = items') as Hfun.
    { clear. intros l items items' H. revert items'. induction H as [|r it l items H1 _ IH]; intros items' H'; inversion H'; simplify_eq; [done|]. f_equal. by apply IH. }
    destruct (Permutation_Forall2 Hp HF) as (items' & Hp' & HF'). rewrite Hp'.
    rewrite (Hfun _ items' (claim_item w now <$> (to_item <$> rows)) HF'); [done|].
    rewrite <- list_fmap_compose. apply Forall2_fmap, Forall_Forall2_diag. eapply Forall_impl; [exact Hrows|]. intros r (_ & _ & H). by apply scan_claimed.
  - cbn [fst]. apply related_fold; [done| |].
    + rewrite <- list_fmap_compose. apply Forall2_fmap, Forall_Forall2_diag. eapply Forall_impl; [exact Hrows|]. intros r (H1 & _ & H2). by apply claimed_item.
    + rewrite <- list_fmap_compose. apply Forall_fmap. eapply Forall_impl; [exact Hrows|]. intros r (_ & H & _). by exists (to_item r).
Qed.

(** ** Requeueing *)

Lemma stale_same before it r : micro before -> rel_item it r -> stale before it = true <-> stale_row pg_time before (fun _ => false) r = true.
Proof.
  clear text_lt. intros Hb [_ (_ & _ & _ & F4 & _) Hc Hcl Hnx]. unfold stale, stale_row, IsZero, Before. rewrite <- F4, Hb, andb_true_r.
  case_bool_decide as Hs; [|done]. cbn [andb]. destruct (Hcl Hs) as (t & Et & _ & Ht). destruct (Hc ltac:(congruence)) as [_ ->]. rewrite Et. change (default 0 (Some t)) with t.
  rewrite (proj2 (Z.eqb_neq t 0)) by lia. done.
Qed.

Lemma requeued_item before now r :
  rel_item (to_item r) r -> stale_row pg_time before (fun _ => false) r = true -> micro before -> before <= now ->
  rel_item (requeue_item before (to_item r)) (requeue_row now r).
Proof.
  clear text_lt. intros H Hst Hb Hn. unfold stale_row in Hst. rewrite Hb, andb_true_r in Hst. apply andb_true_iff in Hst as [Hs Ht]. apply bool_decide_eq_true in Hs.
  pose proof H as [_ (_ & _ & _ & _ & F5 & _) _ Hcl Hnx]. cbn in Hcl, Hnx, F5. destruct (Hcl Hs) as (t & Et & _ & Hle). rewrite Et in Ht. apply Z.ltb_lt in Ht.
  unfold requeue_item, IsZero, After. cbn [ob_NextRetryAt ob_set_ClaimedAt ob_set_ClaimedBy ob_set_State to_item].
  rewrite (proj2 (Z.eqb_neq (or_next_retry_at r) 0)), (proj2 (Z.ltb_ge before (or_next_retry_at r))) by lia. cbn [orb]. unfold requeue_row. rewrite Z.min_l by lia. rel_item_tac.
Qed.

Lemma foldl_fmap {A B C} (f : C -> B -> C) (g : A -> B) (l : list A) c : foldl f c (g <$> l) = foldl (fun c a => f c (g a)) c l.
Proof. revert c. induction l as [|a l IH]; intros c; [done|]. cbn. apply IH. Qed.

Lemma sim_Requeue horizon now before limit d s :
  related horizon d s -> micro before -> before <= now ->
  exists entries, entries ≡ₚ map_to_list (st_outbox s)
    /\ same_res eq (Ok (pg_RequeueStaleOutbox pg_time now (fun _ => false) before limit d).2) (Ok (RequeueStaleOutbox before limit entries s).2)
    /\ related horizon (pg_RequeueStaleOutbox pg_time now (fun _ => false) before limit d).1 (RequeueStaleOutbox before limit entries s).1.
Proof.
  intros R Hb Hn. unfold pg_RequeueStaleOutbox, RequeueStaleOutbox. cbn zeta.
  set (C := stale before). set (C' := stale_row pg_time before (fun _ => false)).
  assert (forall r, C' r = true -> or_state r <> "failed") as Hnf by (intros r Hr E; unfold C', stale_row in Hr; by rewrite E in Hr).
  set (due := sort_stable stale_order _). set (n := Z.to_nat _). set (put r := (or_id r, to_item r)).
  assert (Forall (fun r => C' r = true /\ at_key s (to_item r) /\ rel_item (to_item r) r) due) as Hdue
    by (subst due; rewrite sort_stable_Permutation; by apply (rows_at_key horizon)).
  set (rest := filter (fun kv : Z * OutboxItem => ~ C kv.2 = true) (map_to_list (st_outbox s))). exists ((put <$> due) ++ rest).
  assert (filter (fun kv : Z * OutboxItem => C kv.2 = true) ((put <$> due) ++ rest) = put <$> due) as Hfil.
  { rewrite filter_app, (filter_all _ (put <$> due)), (filter_nothing _ rest); [by rewrite app_nil_r| |].
    - apply Forall_forall. intros kv H%list_elem_of_filter. apply H.
    - apply Forall_fmap. eapply Forall_impl; [exact Hdue|]. intros r (Hr & _ & Hi). by apply (stale_same before _ r Hb Hi). }
  rewrite Hfil, <- !fmap_take. split_and!.
  - etrans; [|symmetry; apply (filter_split (fun kv : Z * OutboxItem => C kv.2 = true))]. apply Permutation_app_tail.
    etrans; [|symmetry; apply (rel_outbox_list C C' _ _ (rl_outbox _ _ _ _ _ R)); [intros it r; by apply stale_same|]].
    2: { intros it Hc E. unfold C, stale in Hc. by rewrite E in Hc. }
    subst due. rewrite sort_stable_Permutation. rewrite filter_fmap, <- list_fmap_compose. apply Permutation_refl'.
    apply list_fmap_ext. intros i [k r] Hi. apply list_elem_of_lookup_2, list_elem_of_filter in Hi as [_ Hk%elem_of_map_to_list].
    destruct (related_row _ _ _ _ _ R Hk) as (it & Hit & Hi & _ & Hid). destruct Hi as [_ (E1 & _) _ _ _]. subst put. cbn. congruence.
  - cbn [snd same_res]. by rewrite length_fmap.
  - cbn [fst]. rewrite foldl_fmap. change (fun (m : gmap Z OutboxItem) (r : outbox_row) => <[(put r).1 := requeue_item before (put r).2]> m)
      with (fun (m : gmap Z OutboxItem) (r : outbox_row) => <[or_id r := requeue_item before (to_item r)]> m).
    assert (Forall (fun r => C' r = true /\ at_key s (to_item r) /\ rel_item (to_item r) r) (take n due)) as Htk by by apply Forall_take.
    assert (forall r, ob_ID (requeue_item before (to_item r)) = or_id r /\ ob_GatewayID (requeue_item before (to_item r)) = or_gateway_id r) as Hkey
      by (intros r; unfold requeue_item; by case_match).
    assert (foldl (fun (m : gmap Z OutboxItem) (r : outbox_row) => <[or_id r := requeue_item before (to_item r)]> m) (st_outbox s) (take n due)
      = foldl (fun (m : gmap Z OutboxItem) it => <[ob_ID it := it]> m) (st_outbox s) ((requeue_item before ∘ to_item) <$> take n due)) as ->.
    { clear - Hkey. rewrite foldl_fmap. generalize (st_outbox s). induction (take n due) as [|r l IH]; intros m; [done|]. cbn [foldl].
      rewrite IH. unfold compose. by rewrite (proj1 (Hkey r)). }
    apply related_fold; [done| |].
    + apply Forall2_fmap, Forall_Forall2_diag. eapply Forall_impl; [exact Htk|]. intros r (H1 & _ & H2). by apply requeued_item.
    + apply Forall_fmap. eapply Forall_impl; [exact Htk|]. intros r (_ & H & _). exists (to_item r). cbn. destruct (Hkey r) as [-> ->]. done.
Qed.

(** ** New items *)

(** An item as the gateway hands it over. *)
Record item_fits (it : OutboxItem) : Prop := {
  if_payload : payload_text (ob_Payload it);
  if_gateway : fits 64 (ob_GatewayID it);
  if_provider : fits 64 (ob_Provider it);
  if_state : ob_State it = "" \/ ob_State it = "pending";
  if_max : ob_MaxAttempts it <= 2147483647;
  if_next : micro (ob_NextRetryAt it) /\ 0 <= ob_NextRetryAt it;
  if_new : ob_Attempt it = 0 /\ ob_ClaimedBy it = "" /\ ob_ClaimedAt it = 0 /\ ob_LastError it = "" /\ ob_CreatedAt it = 0 }.

Lemma fits_ascii n v : bool_decide (text_ok v = true /\ (length (runes v) <= n)%nat) = true -> fits n v.
Proof. apply bool_decide_eq_true. Qed.

Lemma sim_put_outbox horizon now it d s :
  jsonb_laws meta_json json_meta payload_json json_payload json_delete -> related horizon d s -> item_fits it -> micro now -> 0 < now ->
  is_Some (GetMessage (ob_GatewayID it) s) ->
  exists d', insert_outbox payload_json pg_time now now it d = Ok (d', (put_outbox now now it s).2) /\ related horizon d' (put_outbox now now it s).1.
Proof.
  clear text_lt. intros Hl R [Hp Hg Hpv Hst Hmx [Hnx Hnx'] (N1 & N2 & N3 & N4 & N5)] Hnow Hnow' Hm. unfold insert_outbox, put_outbox. cbn zeta. rewrite <- (rl_seq _ _ _ _ _ R).
  set (id := st_nextOutbox s + 1). set (it1 := outbox_new now it). set (it2 := outbox_defaults id now now it).
  assert (ob_Payload it1 = ob_Payload it /\ ob_GatewayID it1 = ob_GatewayID it /\ ob_Provider it1 = ob_Provider it /\ ob_State it1 = "pending"
    /\ ob_MaxAttempts it1 <= 2147483647 /\ 0 < ob_MaxAttempts it1 /\ micro (ob_NextRetryAt it1) /\ 0 < ob_NextRetryAt it1) as (E1 & E2 & E3 & E4 & E5 & E6 & E7 & E8).
  { subst it1. unfold outbox_new, IsZero. destruct it. cbn in *. destruct Hst as [-> | ->];
      [rewrite (bool_decide_eq_true_2 ("" = "")) by done|rewrite (bool_decide_eq_false_2 ("pending" = "")) by done]; cbn;
      (destruct (Z.eqb_spec ob_NextRetryAt 0); cbn; destruct (Z.leb_spec ob_MaxAttempts 0); cbn; split_and!; try done; lia). }
  assert (it2 = mkOutboxItem id (ob_GatewayID it1) (ob_Provider it1) (ob_Payload it1) "pending" "" 0 (ob_NextRetryAt it1) 0 (ob_MaxAttempts it1) "" now) as Eit.
  { subst it1 it2. unfold outbox_new, outbox_defaults, IsZero. destruct it. cbn in *. subst. destruct Hst as [-> | ->];
      [rewrite (bool_decide_eq_true_2 ("" = "")) by done|rewrite (bool_decide_eq_false_2 ("pending" = "")) by done]; cbn;
      (destruct (Z.eqb_spec ob_NextRetryAt 0); cbn; destruct (Z.leb_spec ob_MaxAttempts 0); done). }
  assert (payload_text (ob_Payload it1)) as Hp1 by by rewrite E1. destruct (jl_payload _ _ _ _ _ Hl _ Hp1) as (j & Hj & Hj').
  rewrite Hj, E4. cbn [mbind option_bind]. rewrite (varchar_fits 64 (ob_GatewayID it1)), (varchar_fits 64 (ob_Provider it1)) by by rewrite ?E2, ?E3.
  cbn [mbind option_bind]. rewrite varchar_fits by (apply fits_ascii; vm_compute; reflexivity). cbn [mbind option_bind].
  rewrite int4_fits by lia. cbn [mbind option_bind fst snd]. rewrite E7. eexists. split; [reflexivity|]. rewrite Eit.
  assert (wf (st_set_outbox (<[id := it2]> (st_outbox s)) (st_set_nextOutbox id s))) as Hwf by apply (wf_put_outbox now now it s (rl_wf _ _ _ _ _ R)).
  rewrite Eit in Hwf. pose proof (rl_kept _ _ _ _ _ R) as Hk. destruct R. split; try done; cbn [st_outbox db_outbox st_set_outbox db_set_outbox db_set_outbox_seq st_set_nextOutbox].
  - apply rel_outbox_insert; [done|]. split; cbn; done.
  - apply map_Forall_insert_2; [|done]. cbn. rewrite E2. split; [by eapply fits_text|done].
Qed.

(** ** Idempotency and quotas *)

Lemma rel_keys_insert horizon rows m k g t : rel_keys horizon rows m -> horizon < t -> rel_keys horizon (<[k := (g, t)]> rows) (<[k := mkIdempotencyRecord g t]> m).
Proof. intros [-> Hl] Ht. split; [by rewrite fmap_insert|by apply map_Forall_insert_2]. Qed.

Lemma related_keys horizon rows m d s :
  related horizon d s -> rel_keys horizon rows m -> related horizon (db_set_idempotency rows d) (st_set_idempotency m s).
Proof. intros [] Hk. split; try done. by apply wf_set_idempotency. Qed.

Lemma idempotency_row_fits c k g t : fits 64 c -> fits 128 k -> fits 64 g -> micro t -> idempotency_row pg_time c k g t = Some ((c, k), (g, t)).
Proof. intros Hc Hk Hg Ht. unfold idempotency_row. rewrite !varchar_fits by done. cbn. by rewrite Ht. Qed.

Lemma no_expired horizon now d s : related horizon d s -> now <= horizon -> filter (fun kr => now <= kr.2.2) (db_idempotency d) = db_idempotency d.
Proof. clear. intros R Hn. apply map_filter_id. intros k r Hr. pose proof (proj2 (rl_keys _ _ _ _ _ R) _ _ Hr) as Hl. cbn in *. lia. Qed.

Lemma sim_CheckIdempotency horizon now c k d s :
  related horizon d s -> now <= horizon -> text_ok c = true -> text_ok k = true ->
  alike horizon (same_res eq) (pg_CheckIdempotency now c k d) (let '(s', x) := CheckIdempotency now c k s in (s', Ok x)).
Proof.
  clear pg_time text_lt. intros R Hn Hc Hk. unfold pg_CheckIdempotency, CheckIdempotency. destruct (_ || _); [by split|]. rewrite (sweep_nothing _ _ _ _ _ _ R Hn).
  rewrite (no_expired _ _ _ _ R Hn), bind_ok_fits by by repeat constructor. cbn zeta. cbn [db_idempotency db_set_idempotency st_idempotency st_set_lastSweep].
  assert (db_set_idempotency (db_idempotency d) d = d) as -> by by destruct d. destruct (rl_keys _ _ _ _ _ R) as [Hm Hl]. rewrite Hm, lookup_fmap.
  pose proof (related_lastSweep _ _ horizon now d s R) as R'.
  destruct (db_idempotency d !! (c, k)) as [r|] eqn:Er; cbn; [|done]. specialize (Hl _ _ Er). cbn in Hl. unfold Before.
  rewrite (proj2 (Z.ltb_ge _ _)), (proj2 (Z.leb_le _ _)) by lia. done.
Qed.

Lemma sim_SaveIdempotency horizon now c k g ttl d s :
  related horizon d s -> now <= horizon -> fits 64 c -> fits 128 k -> fits 64 g -> micro (now + idem_ttl ttl) -> horizon < now + idem_ttl ttl ->
  alike horizon (same_res eq) (pg_SaveIdempotency pg_time now c k g ttl d) (SaveIdempotency now now c k g ttl s).
Proof.
  clear text_lt. intros R Hn Hc Hk Hg Ht Hh. unfold pg_SaveIdempotency, SaveIdempotency. destruct (_ || _); [by split|]. rewrite (sweep_nothing _ _ _ _ _ _ R Hn).
  rewrite idempotency_row_fits by done. split; [done|]. cbn [fst]. apply related_keys; [by apply related_lastSweep|]. apply rel_keys_insert; [|done]. apply (rl_keys _ _ _ _ _ R).
Qed.

Definition quota_fits (q : option DailyQuotaDebit) : Prop := match q with Some q => fits 64 (qd_TenantID q) | None => True end.

Lemma sim_debit horizon q d s :
  related horizon d s -> quota_fits q ->
  match debit q d, debit_quota q s with
  | Ok d', Ok s' => related horizon d' s' /\ forall g, GetMessage g s' = GetMessage g s
  | Err e, Err e' => e = e'
  | _, _ => False
  end.
Proof.
  clear pg_time text_lt. intros R Hq. unfold debit, debit_quota. destruct q as [q|]; [|done]. destruct (qd_Limit q <=? 0); [done|].
  destruct (validateDailyQuotaDebit q) as [[]|e] eqn:Hv; cbn [mbind res_bind]; [|done]. destruct (qd_Limit q <? qd_Segments q) eqn:Hls; [done|].
  rewrite varchar_fits by done. cbn [orb]. unfold quota_used. rewrite (rl_quota _ _ _ _ _ R).
  assert (0 < qd_Segments q) as Hpos.
  { unfold validateDailyQuotaDebit in Hv. destruct (Z.leb_spec (qd_Segments q) 0); [|done]. by rewrite orb_true_r in Hv. }
  assert (forall used, 0 <= used -> related horizon (db_set_quota (<[(qd_TenantID q, qd_Date q) := used + qd_Segments q]> (db_quota d)) d)
    (st_set_quotaUsage (<[(qd_TenantID q, qd_Date q) := used + qd_Segments q]> (db_quota d)) s)) as Hset.
  { intros used Hu. pose proof (wf_quota _ (rl_wf _ _ _ _ _ R)) as Hw. rewrite (rl_quota _ _ _ _ _ R) in Hw. destruct R as [[]]. split; try done.
    split; try done. cbn. apply map_Forall_insert_2; [cbn; lia|done]. }
  pose proof (wf_quota _ (rl_wf _ _ _ _ _ R)) as Hw. rewrite (rl_quota _ _ _ _ _ R) in Hw.
  destruct (db_quota d !! (qd_TenantID q, qd_Date q)) as [used|] eqn:Eu; cbn [default id].
  - rewrite Z.leb_antisym. destruct (qd_Limit q - qd_Segments q <? used); cbn [negb]; [done|]. split; [|done]. apply Hset. specialize (Hw _ _ Eu). cbn in Hw. lia.
  - apply Z.ltb_ge in Hls. rewrite (proj2 (Z.ltb_ge _ _)) by lia. split; [|done]. apply (Hset 0). lia.
Qed.
(** ** Pending reports and gateway ids *)

Lemma sim_Delivered horizon p i d s :
  related horizon d s -> text_ok p = true -> text_ok i = true ->
  alike horizon (same_res eq) (pg_MarkDLRDelivered p i d) (MarkDLRDelivered p i s).
Proof.
  intros R Hp Hi. unfold pg_MarkDLRDelivered, MarkDLRDelivered. rewrite bind_ok_fits by by repeat constructor.
  by apply (sim_upd_pending _ _ _ _ _ _ (fun r => pr_set_dlr false true (pr_dlr_state r) (pr_dlr_err r) (pr_dlr_done_at r) r)).
Qed.

Lemma sim_DeletePending horizon p i d s :
  related horizon d s -> text_ok p = true -> text_ok i = true ->
  alike horizon (same_res eq) (pg_DeletePending p i d) (DeletePending p i s).
Proof.
  intros R Hp Hi. unfold pg_DeletePending, DeletePending. rewrite bind_ok_fits by by repeat constructor. split; [done|].
  apply related_set_pending; [done|]. by apply rel_pending_delete; [apply (rl_pending _ _ _ _ _ R)|].
Qed.

Lemma sim_DeleteByGateway horizon g d s :
  related horizon d s -> text_ok g = true ->
  alike horizon (same_res eq) (pg_DeletePendingByGatewayID g d) (DeletePendingByGatewayID g s).
Proof.
  intros R Hg. unfold pg_DeletePendingByGatewayID, DeletePendingByGatewayID. rewrite bind_ok_fits by by repeat constructor. split; [done|].
  apply related_set_pending; [done|]. apply rel_pending_filter, (rl_pending _ _ _ _ _ R).
Qed.

Lemma sim_PendingSize horizon now d s :
  related horizon d s -> now <= horizon ->
  pg_PendingSize now d = (PendingSize now s).2 /\ related horizon d (PendingSize now s).1.
Proof.
  clear pg_time text_lt. intros R Hn. unfold PendingSize, pg_PendingSize. rewrite (sweep_nothing _ _ _ _ _ _ R Hn). cbn [fst snd st_pending st_set_lastSweep].
  split; [|by apply related_lastSweep]. pose proof (rl_pending _ _ _ _ _ R) as Hp. rewrite map_filter_id.
  - rewrite <- !length_map_to_list, (rel_pending_list _ _ _ Hp). by rewrite length_fmap.
  - intros [p i] r Hr. right. destruct (rp_keys _ _ _ Hp _ _ Hr) as [[= E1 E2] Ht]. pose proof (rp_lookup _ _ _ Hp p i Ht) as E. rewrite Hr in E.
    pose proof (rp_live _ _ _ Hp _ _ E) as Hl. cbn in Hl. cbn. lia.
Qed.

(** Up to the horizon nothing is swept. *)
Lemma sim_Sweep horizon before d s :
  related horizon d s -> micro before -> before <= horizon ->
  pg_SweepExpiredPending pg_time before d = (d, 0) /\ SweepExpiredPending before s = (s, 0).
Proof.
  clear text_lt. intros R Hb Hh. pose proof (rl_pending _ _ _ _ _ R) as Hp. unfold pg_SweepExpiredPending, SweepExpiredPending. rewrite Hb. split.
  - rewrite (filter_nothing _ (map_to_list (db_pending d))); [by destruct d|]. apply Forall_forall. intros [[p i] r] H%elem_of_map_to_list. cbn [snd].
    destruct (rp_keys _ _ _ Hp _ _ H) as [_ Ht]. pose proof (rp_lookup _ _ _ Hp p i Ht) as E. rewrite H in E.
    pose proof (rp_live _ _ _ Hp _ _ E) as Hl. cbn in Hl. lia.
  - assert (forall k p, st_pending s !! k = Some p -> sweep_due before p = false) as Hd.
    { intros k p H. pose proof (rp_live _ _ _ Hp _ _ H) as Hl. cbn in Hl. unfold sweep_due, Before. rewrite (proj2 (Z.ltb_ge _ _)) by lia. apply andb_false_r. }
    rewrite map_filter_id by (intros k p H; by apply (Hd k)). rewrite map_empty_filter_2; [by destruct s|]. intros k p H. cbn. by rewrite (Hd k p H).
Qed.

Lemma sim_Depth horizon st d s :
  related horizon d s -> text_ok st = true -> same_res eq (pg_OutboxDepth st d) (Ok (OutboxDepth st s)).
Proof.
  clear pg_time text_lt. intros R Hst. unfold pg_OutboxDepth, OutboxDepth. rewrite bind_ok_fits by by repeat constructor. cbn [same_res]. f_equal.
  rewrite <- !(size_dom (D := gset Z)). f_equal. apply set_eq. intros id. rewrite !elem_of_dom. unfold is_Some. setoid_rewrite map_lookup_filter_Some. cbn [fst snd]. split.
  - intros (r & Hr & Hc). destruct (rel_outbox_row _ _ _ _ (rl_outbox _ _ _ _ _ R) Hr) as (it & Hit & [_ (_ & _ & _ & E & _) _ _ _]).
    exists it. split; [done|]. rewrite orb_true_iff, !bool_decide_eq_true. by rewrite E.
  - intros (it & Hit & Hc). destruct (rel_outbox_item _ _ _ _ (rl_outbox _ _ _ _ _ R) Hit) as (r & Hr & [_ (_ & _ & _ & E & _) _ _ _]).
    exists r. split; [done|]. rewrite orb_true_iff, !bool_decide_eq_true in Hc. by rewrite <- E.
Qed.

Lemma sim_Reserve horizon span d s :
  related horizon d s -> 0 <= span -> st_gatewaySeq s + Z.max 1 span < 2 ^ 63 ->
  alike horizon (same_res eq) (pg_ReserveGatewayIDRange span d) (let '(s', x) := ReserveGatewayIDRange span s in (s', Ok x)).
Proof.
  clear pg_time text_lt. intros R Hs Hb. destruct (rl_ids _ _ _ _ _ R) as [E H0]. unfold pg_ReserveGatewayIDRange, ReserveGatewayIDRange. cbn zeta.
  set (n := if span =? 0 then 1 else span). assert (0 < n <= Z.max 1 span) as Hn by (subst n; destruct (Z.eqb_spec span 0); lia).
  rewrite (proj2 (Z.ltb_ge _ _)) by lia. rewrite <- E. unfold bigint. rewrite int_within_fits by lia. rewrite (proj2 (Z.ltb_ge _ 0)) by lia.
  assert (u64 (st_gatewaySeq s + n) = st_gatewaySeq s + n) as -> by (unfold u64; apply Z.mod_small; lia).
  split; [cbn; do 2 f_equal; lia|]. cbn [fst]. pose proof (rl_wf _ _ _ _ _ R) as Hwf. destruct R. split; try done; [by apply wf_set_gatewaySeq|].
  cbn. split; [done|lia].
Qed.

(** ** Submitting *)

Lemma debit_quota_keys m q s :
  debit_quota q (st_set_idempotency m s) = match debit_quota q s with Ok s' => Ok (st_set_idempotency m s') | Err e => Err e end.
Proof.
  unfold debit_quota, quota_used. destruct q as [q|]; [|done]. destruct (qd_Limit q <=? 0); [done|].
  destruct (validateDailyQuotaDebit q); [|done]. cbn [mbind res_bind st_quotaUsage st_set_idempotency]. by destruct (_ || _).
Qed.

Lemma debit_quota_idempotency q s s' : debit_quota q s = Ok s' -> st_idempotency s' = st_idempotency s.
Proof.
  unfold debit_quota. destruct q as [q|]; [|by intros [= ->]]. destruct (qd_Limit q <=? 0); [by intros [= ->]|].
  destruct (validateDailyQuotaDebit q); [|done]. cbn [mbind res_bind]. destruct (_ || _); [done|]. by intros [= <-].
Qed.

(** What a submission needs to be the same in both. *)
Record submit_fits (horizon now : time) (msg : Message) (item : OutboxItem) (opts : SubmitOptions) : Prop := {
  sf_message : message_fits pg_time msg;
  sf_item : item_fits item;
  sf_id : ob_GatewayID item = msg_ID msg;
  sf_quota : quota_fits (so_Quota opts);
  sf_client : fits 64 (io_ClientID (so_Idempotency opts));
  sf_key : fits 128 (io_Key (so_Idempotency opts));
  sf_expires : let t := now + idem_ttl (io_TTL (so_Idempotency opts)) in micro t /\ horizon < t }.

Lemma sim_key horizon now msg opts d s :
  related horizon d s -> now <= horizon -> fits 64 (msg_ID msg) -> fits 64 (io_ClientID opts) -> fits 128 (io_Key opts) ->
  micro (now + idem_ttl (io_TTL opts)) -> horizon < now + idem_ttl (io_TTL opts) ->
  let keyed := negb (bool_decide (io_ClientID opts = "")) && negb (bool_decide (io_Key opts = "")) in
  let k := (io_ClientID opts, io_Key opts) in
  match (if keyed then st_idempotency s !! k else None) with
  | Some r => claim_key pg_time now now msg opts d = Ok (d, Some (ir_gatewayID r)) /\ After (ir_expiresAt r) now = true
  | None =>
    exists d', claim_key pg_time now now msg opts d = Ok (d', None)
      /\ related horizon d' (if keyed then st_set_idempotency (<[k := mkIdempotencyRecord (msg_ID msg) (now + idem_ttl (io_TTL opts))]> (st_idempotency s)) s else s)
  end.
Proof.
  clear text_lt. intros R Hn Hid Hc Hk Ht Hh. cbn zeta. unfold claim_key. destruct (bool_decide (io_ClientID opts = "")); cbn [negb andb orb]; [by eauto|].
  destruct (bool_decide (io_Key opts = "")); cbn [negb]; [by eauto|]. rewrite idempotency_row_fits by done.
  destruct (rl_keys _ _ _ _ _ R) as [Em Hl]. rewrite Em, lookup_fmap.
  destruct (db_idempotency d !! _) as [old|] eqn:Eo; cbn [fmap option_fmap option_map].
  - specialize (Hl _ _ Eo). cbn in Hl. rewrite (proj2 (Z.ltb_ge _ _)), Eo, (proj2 (Z.leb_le _ _)) by lia. split; [done|]. apply Z.ltb_lt. cbn. lia.
  - rewrite Eo. eexists. split; [done|]. apply related_keys; [done|]. rewrite <- Em. by apply rel_keys_insert; [apply (rl_keys _ _ _ _ _ R)|].
Qed.

(** The key and the debit leave the messages alone. *)
Lemma claim_key_messages now msg opts d d' r : claim_key pg_time now now msg opts d = Ok (d', r) -> db_messages d' = db_messages d.
Proof. clear text_lt. unfold claim_key. intros H. repeat case_match; by simplify_eq. Qed.

Lemma debit_messages q d d' : debit q d = Ok d' -> db_messages d' = db_messages d.
Proof.
  clear. unfold debit. destruct q as [q|]; [|by intros [= ->]]. destruct (qd_Limit q <=? 0); [by intros [= ->]|].
  destruct (validateDailyQuotaDebit q); [|done]. cbn [mbind res_bind]. intros H. repeat case_match; by simplify_eq.
Qed.

Lemma sim_Submit horizon now msg item opts d s :
  jsonb_laws meta_json json_meta payload_json json_payload json_delete -> related horizon d s -> micro now -> 0 < now <= horizon ->
  submit_fits horizon now msg item opts -> has_room (msg_ID msg) d ->
  alike horizon eq (pg_SubmitAtomic meta_json payload_json pg_time now now msg item opts d) (SubmitAtomic now msg item opts s).
Proof.
  clear text_lt. intros Hl R Hm [Hn0 Hn] [Hmsg Hit Hid Hq Hc Hk [Ht Hh]] Hroom. unfold pg_SubmitAtomic, SubmitAtomic. rewrite (sweep_nothing _ _ _ _ _ _ R Hn).
  pose proof (related_lastSweep json_meta json_payload horizon now d s R) as R0. set (s0 := st_set_lastSweep now s) in *. clearbody s0.
  pose proof (sim_key horizon now msg (so_Idempotency opts) d s0 R0 Hn (mf_id _ _ Hmsg) Hc Hk Ht Hh) as H. cbn zeta in *.
  set (keyed := negb _ && negb _) in *. set (k := (io_ClientID _, io_Key _)) in *.
  destruct (if keyed then st_idempotency s0 !! k else None) as [r|] eqn:Elive.
  - destruct H as [-> Ha]. destruct keyed; [|done]. rewrite Elive, Ha. by split.
  - destruct H as (d1 & Hd1 & R1). rewrite Hd1. apply claim_key_messages in Hd1. cbn [mbind res_bind].
    assert ((if keyed then match st_idempotency s0 !! k with Some rec => if After (ir_expiresAt rec) now then Some (ir_gatewayID rec) else None | None => None end else None) = None) as ->
      by (destruct keyed; [by rewrite Elive|done]).
    set (m := <[k := _]> (st_idempotency s0)) in *.
    pose proof (sim_debit horizon (so_Quota opts) d1 _ R1 Hq) as Hd.
    assert (debit_quota (so_Quota opts) (if keyed then st_set_idempotency m s0 else s0)
      = match debit_quota (so_Quota opts) s0 with Ok s' => Ok (if keyed then st_set_idempotency m s' else s') | Err e => Err e end) as E.
    { destruct keyed; [apply debit_quota_keys|by destruct (debit_quota _ s0)]. }
    rewrite E in Hd. destruct (debit (so_Quota opts) d1) as [d2|e] eqn:Hd2, (debit_quota (so_Quota opts) s0) as [s1|e'] eqn:E1; try done;
      [|subst e'; cbn [mbind res_bind statement]; by split].
    destruct Hd as [R2 _]. apply debit_messages in Hd2. cbn [mbind res_bind].
    assert ((if keyed then st_set_idempotency (<[k := mkIdempotencyRecord (msg_ID msg) (now + idem_ttl (io_TTL (so_Idempotency opts)))]> (st_idempotency s1)) s1 else s1)
      = (if keyed then st_set_idempotency m s1 else s1)) as ->.
    { subst m. destruct keyed; [|done]. do 2 f_equal. by apply debit_quota_idempotency in E1 as ->. }
    set (s2 := if keyed then _ else s1) in *. clearbody s2.
    destruct (sim_save_message meta_json json_meta payload_json json_payload json_delete pg_time horizon now msg d2 s2 Hl R2 Hmsg) as (r & -> & R3 & Hget);
      [unfold has_room; by rewrite Hd2, Hd1|].
    cbn [mbind res_bind]. rewrite <- Hid in Hget.
    destruct (sim_put_outbox horizon now item _ _ Hl R3 Hit Hm Hn0 Hget) as (d4 & -> & R4). cbn [mbind res_bind statement fst snd].
    destruct (put_outbox now now item (put_message msg s2)) as [s4 id]. by split.
Qed.
End refine.
