(* ===== verification/PostgresOk.v ===== *)
(** * What the Postgres store promises

    Every call that the tables serve is one that the memory store serves with the
    same reply, from any two states that hold the same, and so for every run from
    empty tables; and where the two part. *)

From S2P Require Import Prelude Unicode Codec Segment Num GoTime GoParse Records Store StoreInv StoreSubmit Postgres PostgresSim PostgresRefine.

Section ok.
Context {J : Type}.
Context (meta_json : option (gmap string string) -> option J) (json_meta : J -> option (option (gmap string string))).
Context (payload_json : OutboxPayload -> option J) (json_payload : J -> option OutboxPayload) (json_delete : list string -> J -> J).
Context (pg_time : time -> time) (text_lt : string -> string -> bool).

Abbreviation DB := (DB J).
Abbreviation related := (related json_meta json_payload).
Abbreviation micro := (micro pg_time).
Abbreviation pg_serve := (pg_serve meta_json json_meta payload_json json_payload json_delete pg_time text_lt).
Abbreviation laws := (jsonb_laws meta_json json_meta payload_json json_payload json_delete).
Implicit Types (d : DB) (s : MemoryStore).

(** The calls that mean the same to both: values that fit their columns, times
    of whole microseconds, expiries past the horizon, messages before their
    items, retries before the last attempt, ids within the column, and no more
    messages than the memory store keeps. *)
Definition admissible (horizon now : time) (r : request) d : Prop :=
  match r with
  | RqSaveMessage msg => message_fits pg_time msg /\ has_room (msg_ID msg) d
  | RqGetMessage g => text_ok g = true
  | RqUpdateMessageSent g p => text_ok g = true /\ fits 128 p
  | RqUpdateMessageState g st e => text_ok g = true /\ fits 16 st /\ -2147483648 <= e <= 2147483647
  | RqSavePending p => pending_fits pg_time horizon p
  | RqGetPending p i => text_ok p = true /\ text_ok i = true
  | RqListPendingByGatewayID g => text_ok g = true
  | RqUpdatePendingDLR p i st e t | RqMarkDLRReady p i st e t =>
    text_ok p = true /\ text_ok i = true /\ fits 16 st /\ -2147483648 <= e <= 2147483647 /\ micro t /\ t <> 0
  | RqMarkDLRDelivered p i | RqDeletePending p i => text_ok p = true /\ text_ok i = true
  | RqListReadyDLR sys _ => text_ok sys = true
  | RqDeletePendingByGatewayID g => text_ok g = true
  | RqPendingSize => True
  | RqSweepExpiredPending before => micro before /\ before <= horizon
  | RqReserveGatewayIDRange span => 0 <= span /\ default 0 (db_id_alloc d) + Z.max 1 span < 2 ^ 63
  | RqEnqueueOutbox item => item_fits pg_time item /\ is_Some (db_messages d !! ob_GatewayID item)
  | RqClaimOutbox w _ => fits 64 w /\ map_Forall (fun _ r => -2147483648 <= or_attempt r < 2147483647) (db_outbox d)
  | RqMarkOutboxSending _ w => text_ok w = true
  | RqCompleteOutboxSend _ _ ps => Forall (pending_fits pg_time horizon) ps
  | RqMarkOutboxUncertain _ _ e => text_ok e = true
  | RqRequeueStaleOutbox before _ => micro before /\ before <= now
  | RqAckOutbox _ => True
  | RqOutboxDepth st => text_ok st = true
  | RqFailOutbox id e t =>
    text_ok e = true /\ micro t /\ 0 <= t /\ (t <> 0 -> forall r, db_outbox d !! id = Some r -> or_attempt r < or_max_attempts r)
  | RqCheckIdempotency c k => text_ok c = true /\ text_ok k = true
  | RqSaveIdempotency c k g ttl =>
    fits 64 c /\ fits 128 k /\ fits 64 g /\ micro (now + idem_ttl ttl) /\ horizon < now + idem_ttl ttl
  | RqSubmitAtomic msg item opts => submit_fits pg_time horizon now msg item opts /\ has_room (msg_ID msg) d
  end.

(** Both sides of a call, brought together. *)
Lemma alike_reply {A B C} horizon (same : res store_err A -> res store_err B -> Prop) wrap (wrap' : C -> reply) (x : DB * res store_err A)
    (y : MemoryStore * res store_err B) (z : MemoryStore * C) d' a :
  alike json_meta json_payload horizon same x y -> gives wrap x d' a -> z.1 = y.1 -> (forall r, same r y.2 -> same_reply (wrap r) (wrap' z.2)) ->
  exists s' b, gives wrap' z s' b /\ same_reply a b /\ related horizon d' s'.
Proof. intros [H R] [-> ->] E Hw. exists z.1, (wrap' z.2). split_and!; [done|by apply Hw|by rewrite E]. Qed.

Lemma alike_unit horizon (x : DB * res store_err unit) (y : MemoryStore * res store_err unit) d' a :
  alike json_meta json_payload horizon (same_res eq) x y -> gives AUnit x d' a ->
  exists s' b, gives AUnit y s' b /\ same_reply a b /\ related horizon d' s'.
Proof. intros H Hs. by apply (alike_reply _ _ _ AUnit x y y _ _ H Hs). Qed.

(** A reply and the states of a call that reads. *)
Lemma read_reply {A} horizon wrap (wrap' : A -> reply) (x : res store_err A) (z : MemoryStore * A) (same : A -> A -> Prop) d d' a :
  same_res same x (Ok z.2) /\ related horizon d z.1 -> gives wrap (d, x) d' a -> (forall r, same_res same r (Ok z.2) -> same_reply (wrap r) (wrap' z.2)) ->
  exists s' b, gives wrap' z s' b /\ same_reply a b /\ related horizon d' s'.
Proof. intros [H R] [-> ->] Hw. exists z.1, (wrap' z.2). split_and!; [done|by apply Hw|done]. Qed.

Lemma pair_case {A B} (x : A * B) (P : A -> B -> Prop) : (let '(s, a) := x in P s a) -> P x.1 x.2.
Proof. by destruct x. Qed.

(** Calls on messages and pending reports. *)
Lemma refine_messages horizon now r d d' s a :
  laws -> related horizon d s -> micro now -> 0 < now <= horizon -> admissible horizon now r d -> pg_serve now r d d' a ->
  match r with RqSaveMessage _ | RqGetMessage _ | RqUpdateMessageSent _ _ | RqUpdateMessageState _ _ _ => True | _ => False end ->
  exists s' b, mem_serve now r s s' b /\ same_reply a b /\ related horizon d' s'.
Proof.
  intros Hl R Hm [Hn0 Hn] Ha Hs Hr. destruct r; try done; cbn [admissible PostgresSim.pg_serve mem_serve] in *.
  - destruct Ha as [Ha Hroom]. destruct (sim_save_message meta_json json_meta payload_json json_payload json_delete pg_time horizon now msg d s Hl R Ha Hroom) as (row & E & R' & _).
    destruct Hs as [-> ->]. unfold pg_SaveMessage. rewrite E. eexists _, _. by split_and!.
  - destruct Hs as [ref [-> ->]]. eexists _, _. split_and!; [done| |done]. by apply (sim_get_message _ json_payload horizon).
  - destruct Ha. eapply alike_unit; [|exact Hs]. by apply sim_UpdateMessageSent.
  - destruct Ha as (? & ? & ?). eapply alike_unit; [|exact Hs]. by apply sim_UpdateMessageState.
Qed.

Lemma refine_pending horizon now r d d' s a :
  related horizon d s -> micro now -> 0 < now <= horizon -> admissible horizon now r d -> pg_serve now r d d' a ->
  match r with
  | RqSavePending _ | RqGetPending _ _ | RqListPendingByGatewayID _ | RqUpdatePendingDLR _ _ _ _ _ | RqMarkDLRReady _ _ _ _ _
  | RqMarkDLRDelivered _ _ | RqListReadyDLR _ _ | RqDeletePending _ _ | RqDeletePendingByGatewayID _ | RqPendingSize | RqSweepExpiredPending _ => True
  | _ => False
  end ->
  exists s' b, mem_serve now r s s' b /\ same_reply a b /\ related horizon d' s'.
Proof.
  intros R Hm [Hn0 Hn] Ha Hs Hr. destruct r; try done; cbn [admissible PostgresSim.pg_serve mem_serve] in *.
  - eapply alike_unit; [|exact Hs]. by apply sim_SavePending.
  - destruct Ha. eapply (read_reply _ APending (APending ∘ Ok) _ _ eq); [|exact Hs|done].
    by apply (pair_case _ (fun s' x => same_res eq _ (Ok x) /\ related horizon d s')), sim_GetPending.
  - eapply (read_reply _ APendings (APendings ∘ Ok) _ _ Permutation); [|exact Hs|done].
    by apply (pair_case _ (fun s' x => same_res Permutation _ (Ok x) /\ related horizon d s')), sim_ListPending.
  - destruct Ha as (? & ? & ? & ? & ? & ?). eapply alike_unit; [|exact Hs]. by apply sim_record_dlr.
  - destruct Ha as (? & ? & ? & ? & ? & ?). eapply alike_unit; [|exact Hs]. by apply sim_record_dlr.
  - destruct Ha. eapply alike_unit; [|exact Hs]. by apply sim_Delivered.
  - destruct (sim_ListReady json_meta json_payload text_lt horizon now systemID limit d s R Hn Ha) as (entries & Hp & Hx & R').
    destruct Hs as [-> ->]. eexists _, _. split_and!; [by eexists; split; [exact Hp|done]|exact Hx|exact R'].
  - destruct Ha. eapply alike_unit; [|exact Hs]. by apply sim_DeletePending.
  - eapply alike_unit; [|exact Hs]. by apply sim_DeleteByGateway.
  - destruct (sim_PendingSize json_meta json_payload horizon now d s R Hn) as [E R']. destruct Hs as [-> ->].
    eexists _, _. split_and!; [done| |exact R']. cbn. by rewrite E.
  - destruct Ha as [Hb Hh]. destruct (sim_Sweep json_meta json_payload pg_time horizon before d s R Hb Hh) as [E1 E2]. destruct Hs as [-> ->].
    rewrite E1. eexists _, _. split_and!; [done|by rewrite E2|by rewrite E2].
Qed.

(** The row of an item's message. *)
Lemma message_of_row horizon g d s : related horizon d s -> is_Some (db_messages d !! g) -> is_Some (GetMessage g s).
Proof. intros R [row Hr]. pose proof (rl_messages _ _ _ _ _ R g) as E. rewrite Hr in E. destruct (GetMessage g s); [eauto|done]. Qed.

(** Calls on the outbox, the keys and the ids. *)
Lemma refine_outbox horizon now r d d' s a :
  laws -> related horizon d s -> micro now -> 0 < now <= horizon -> admissible horizon now r d -> pg_serve now r d d' a ->
  match r with
  | RqEnqueueOutbox _ | RqClaimOutbox _ _ | RqMarkOutboxSending _ _ | RqCompleteOutboxSend _ _ _ | RqMarkOutboxUncertain _ _ _
  | RqRequeueStaleOutbox _ _ | RqAckOutbox _ | RqFailOutbox _ _ _ | RqOutboxDepth _ => True
  | _ => False
  end ->
  exists s' b, mem_serve now r s s' b /\ same_reply a b /\ related horizon d' s'.
Proof.
  intros Hl R Hm [Hn0 Hn] Ha Hs Hr. destruct r; try done; cbn [admissible PostgresSim.pg_serve mem_serve] in *.
  - destruct Ha as [Hf Hg]. pose proof (message_of_row _ _ _ _ R Hg) as Hmsg.
    destruct (sim_put_outbox meta_json json_meta payload_json json_payload json_delete pg_time horizon now item d s Hl R Hf Hm Hn0 Hmsg) as (d1 & E & R').
    destruct Hs as [-> ->]. unfold pg_EnqueueOutbox. rewrite E. unfold EnqueueOutbox. destruct (put_outbox now now item s) as [s1 id] eqn:Ep.
    eexists _, _. split_and!; [done|done|exact R'].
  - destruct Ha as [Hw Hat]. destruct Hs as (returning & Hret & Hs). eapply (alike_reply _ (same_res Permutation) AItems (AItems ∘ Ok)); [|exact Hs| |].
    + by apply (sim_Claim json_meta).
    + by destruct (ClaimOutbox now workerID limit s).
    + by destruct (ClaimOutbox now workerID limit s).
  - eapply alike_unit; [|exact Hs]. by apply sim_MarkSending.
  - eapply alike_unit; [|exact Hs]. by apply (sim_Complete meta_json json_meta payload_json).
  - eapply alike_unit; [|exact Hs]. by apply sim_Uncertain.
  - destruct Ha as [Hb Hbn]. destruct (sim_Requeue json_meta json_payload pg_time horizon now before limit d s R Hb Hbn) as (entries & Hp & Hx & R').
    destruct Hs as [-> ->]. eexists _, _. split_and!; [by eexists; split; [exact Hp|done]|exact Hx|exact R'].
  - eapply alike_unit; [|exact Hs]. by apply (sim_Ack meta_json json_meta payload_json).
  - destruct Ha as (He & Ht & Ht0 & Hat). eapply alike_unit; [|exact Hs]. apply sim_Fail; try done.
    intros Hne it Hit. destruct (rel_outbox_item _ _ _ _ _ (rl_outbox _ _ _ _ _ R) Hit) as (row & Hrow & Hi). specialize (Hat Hne row Hrow).
    destruct Hi as [_ (_ & _ & _ & _ & _ & -> & -> & _) _ _ _]. exact Hat.
  - destruct Hs as [-> ->]. eexists _, _. split_and!; [done| |done]. by apply (sim_Depth json_meta json_payload horizon).
Qed.

Lemma refine_step horizon now r d d' s a :
  laws -> related horizon d s -> micro now -> 0 < now <= horizon -> admissible horizon now r d -> pg_serve now r d d' a ->
  exists s' b, mem_serve now r s s' b /\ same_reply a b /\ related horizon d' s'.
Proof.
  intros Hl R Hm Hn Ha Hs. destruct r;
    try (eapply refine_messages; done); try (eapply refine_pending; done); try (eapply refine_outbox; done);
    destruct Hn as [Hn0 Hn]; cbn [admissible PostgresSim.pg_serve mem_serve] in *.
  - destruct Ha as [H1 H2]. rewrite <- (proj1 (rl_ids _ _ _ _ _ R)) in H2. eapply (alike_reply _ (same_res eq) ARange (ARange ∘ Ok)); [|exact Hs| |].
    + by apply sim_Reserve.
    + by destruct (ReserveGatewayIDRange span s).
    + by destruct (ReserveGatewayIDRange span s).
  - destruct Ha as [H1 H2]. eapply (alike_reply _ (same_res eq) AKey (AKey ∘ Ok)); [|exact Hs| |].
    + by apply sim_CheckIdempotency.
    + by destruct (CheckIdempotency now clientID key s).
    + by destruct (CheckIdempotency now clientID key s).
  - destruct Ha as (? & ? & ? & ? & ?). eapply alike_unit; [|exact Hs]. by apply sim_SaveIdempotency.
  - destruct Ha as [Ha Hroom]. eapply (alike_reply _ eq ASubmit ASubmit); [by eapply sim_Submit|exact Hs|done|by intros ? ->].
Qed.

(** ** Runs *)

(** A history of calls with their clock readings and replies. *)
Abbreviation history := (list (time * request * reply)).

Inductive pg_runs (horizon : time) : DB -> history -> DB -> Prop :=
| pg_none d : pg_runs horizon d [] d
| pg_call now r a d d1 d2 h :
    micro now -> 0 < now <= horizon -> admissible horizon now r d -> pg_serve now r d d1 a -> pg_runs horizon d1 h d2 ->
    pg_runs horizon d ((now, r, a) :: h) d2.

(** The same calls, answered alike. *)
Definition same_call (x y : time * request * reply) : Prop := x.1 = y.1 /\ same_reply x.2 y.2.

(** The tables after the migrations. *)
Definition empty_tables : DB := mkDB ∅ ∅ ∅ 0 ∅ ∅ (Some 0).
End ok.

Inductive mem_runs : MemoryStore -> list (time * request * reply) -> MemoryStore -> Prop :=
| mem_none s : mem_runs s [] s
| mem_call now r a s s1 s2 h : mem_serve now r s s1 a -> mem_runs s1 h s2 -> mem_runs s ((now, r, a) :: h) s2.

Section runs.
Context {J : Type}.
Context (meta_json : option (gmap string string) -> option J) (json_meta : J -> option (option (gmap string string))).
Context (payload_json : OutboxPayload -> option J) (json_payload : J -> option OutboxPayload) (json_delete : list string -> J -> J).
Context (pg_time : time -> time) (text_lt : string -> string -> bool).

Lemma empty_related horizon : related json_meta json_payload horizon empty_tables NewMemory.
Proof.
  split; try done.
  intros id. constructor.
Qed.

Lemma runs_refine horizon d h d' s :
  jsonb_laws meta_json json_meta payload_json json_payload json_delete -> related json_meta json_payload horizon d s ->
  pg_runs meta_json json_meta payload_json json_payload json_delete pg_time text_lt horizon d h d' ->
  exists h' s', mem_runs s h' s' /\ Forall2 same_call h h' /\ related json_meta json_payload horizon d' s'.
Proof.
  intros Hl R H. revert s R. induction H as [d|now r a d d1 d2 h Hm Hn Ha Hs _ IH]; intros s R; [by exists [], s; split_and!; [constructor|constructor|]|].
  destruct (refine_step meta_json json_meta payload_json json_payload json_delete pg_time text_lt horizon now r d d1 s a Hl R Hm Hn Ha Hs) as (s1 & b & Hb & Hab & R1).
  destruct (IH s1 R1) as (h' & s' & H1 & H2 & R'). exists ((now, r, b) :: h'), s'. split_and!; [by econstructor|by constructor|done].
Qed.

End runs.

(** ** An example *)

Inductive demo_json := DemoMeta (m : option (gmap string string)) | DemoPayload (p : OutboxPayload).
Definition demo_meta (m : option (gmap string string)) : option demo_json := Some (DemoMeta m).
Definition demo_json_meta (j : demo_json) : option (option (gmap string string)) := match j with DemoMeta m => Some m | DemoPayload _ => None end.
Definition demo_payload_json (p : OutboxPayload) : option demo_json := Some (DemoPayload p).
Definition demo_json_payload (j : demo_json) : option OutboxPayload := match j with DemoPayload p => Some p | DemoMeta _ => None end.
Definition demo_delete (_ : list string) (j : demo_json) : demo_json :=
  match j with DemoPayload p => DemoPayload (scrubOutboxPayload p) | DemoMeta m => DemoMeta m end.
Definition demo_time (t : time) : time := t / 1000 * 1000.

Lemma pg_demo_laws : jsonb_laws demo_meta demo_json_meta demo_payload_json demo_json_payload demo_delete.
Proof. split; [by intros m _; exists (DemoMeta m)|by intros p _; exists (DemoPayload p)|]. intros p [] E; by simplify_eq/=. Qed.

Definition pg_msg : Message := New 5000 "m0000001" DirectionMT "a" "b" "hi".
Definition pg_record : Pending :=
  {| p_ProviderID := "77"; p_GatewayID := "m0000001"; p_TenantID := ""; p_AccountID := ""; p_ClientMsgID := ""; p_SegmentIndex := 1; p_SegmentCount := 1;
     p_SourceKind := "smpp"; p_SourceSession := "s1"; p_SourceSystem := "sys"; p_CallbackURL := ""; p_CallbackRule := ""; p_From := "a"; p_To := "b";
     p_Text := "hi"; p_DataCoding := 0; p_RegisteredDelivery := 1; p_Provider := "p1"; p_Route := "r1"; p_ReceivedAt := 5000; p_ExpiresAt := 900000;
     p_DLRReady := false; p_DLRDelivered := false; p_DLRState := ""; p_DLRErrorCode := 0; p_DLRDoneAt := 0 |}.

(** A submission, its claim, its sending and its completion. *)
Definition pg_history : list (time * request * reply) :=
  [(100000, RqSubmitAtomic pg_msg (demo_item "m0000001") demo_opts, ASubmit (Ok (mkSubmitResult 1 "m0000001" false)));
   (101000, RqClaimOutbox "worker-1" 5,
    AItems (Ok [mkOutboxItem 1 "m0000001" "p1" (demo_payload "m0000001") "claimed" "worker-1" 101000 100000 1 5 "" 100000]));
   (102000, RqMarkOutboxSending 1 "worker-1", AUnit (Ok tt));
   (103000, RqCompleteOutboxSend 1 "worker-1" [pg_record], AUnit (Ok tt));
   (104000, RqGetPending "p1" "77", APending (Ok (Some pg_record)))].

Ltac fit := apply fits_ascii; vm_compute; reflexivity.

Lemma pg_record_fits : pending_fits demo_time 500000 pg_record.
Proof. split; try fit; try (vm_compute; reflexivity); cbn; try lia. by split_and!. Qed.

Lemma pg_submit_fits : submit_fits demo_time 500000 100000 pg_msg (demo_item "m0000001") demo_opts.
Proof.
  split; try fit.
  - split; try fit; [vm_compute; reflexivity|vm_compute; discriminate|vm_compute; split; discriminate| |split_and!; vm_compute; done].
    assert (msg_Metadata pg_msg = Some ∅) as -> by (vm_compute; reflexivity). apply map_Forall_empty.
  - split; try fit; try (cbn; lia); try done.
    + split; [repeat (constructor; [vm_compute; reflexivity|]); constructor|]. split_and!; [done|unfold json_time, Second; cbn [demo_item ob_Payload demo_payload op_ReceivedAt]; lia|]. cbn. repeat apply Forall_cons_2; try apply Forall_nil_2; unfold byte_ok; lia.
    + by left.
  - done.
  - split; [vm_compute; reflexivity|cbn; vm_compute; reflexivity].
Qed.

(** The tables after each of the calls that change them. *)
Definition pg_submitted : DB demo_json :=
  Eval vm_compute in (pg_SubmitAtomic demo_meta demo_payload_json demo_time 100000 100000 pg_msg (demo_item "m0000001") demo_opts empty_tables).1.
Definition pg_claimed : DB demo_json :=
  Eval vm_compute in (pg_ClaimOutbox demo_json_payload 101000 (fun _ => false) (fun l => l) "worker-1" 5 pg_submitted).1.
Definition pg_sending : DB demo_json := Eval vm_compute in (pg_MarkOutboxSending (fun d => d) 1 "worker-1" pg_claimed).1.
Definition pg_completed : DB demo_json :=
  Eval vm_compute in (pg_CompleteOutboxSend demo_delete demo_time 103000 103000 1 "worker-1" [pg_record] pg_sending).1.

