(* ===== verification/PostgresOutbox.v ===== *)
(** * The outbox table under several clients

    Any number of gateways share the tables: every statement or transaction is a
    step, with the rows that other transactions have locked left out. An item
    belongs to one name from the moment it is being sent. *)

From S2P Require Import Prelude Unicode Codec Segment Num GoTime GoParse Records Store StoreInv StoreSubmit Postgres PostgresSim PostgresRefine PostgresOk.

Section outbox.
Context {J : Type}.
Context (meta_json : option (gmap string string) -> option J) (payload_json : OutboxPayload -> option J) (json_payload : J -> option OutboxPayload).
Context (json_delete : list string -> J -> J) (pg_time : time -> time).

Abbreviation DB := (DB J).
Abbreviation outbox_row := (outbox_row J).
Implicit Types (d : DB) (r : outbox_row).

(** ** Steps *)

(** What any client may do to the outbox; the rest of the tables changes freely
    in between. *)
Inductive outbox_step : DB -> DB -> Prop :=
| os_other d d' : db_outbox d' = db_outbox d -> db_outbox_seq d <= db_outbox_seq d' -> outbox_step d d'
| os_enqueue now db_now item d : outbox_step d (pg_EnqueueOutbox payload_json pg_time now db_now item d).1
| os_submit now db_now msg item opts d : outbox_step d (pg_SubmitAtomic meta_json payload_json pg_time now db_now msg item opts d).1
| os_claim db_now locked returning worker limit d : outbox_step d (pg_ClaimOutbox json_payload db_now locked returning worker limit d).1
| os_sending id worker d : outbox_step d (pg_MarkOutboxSending (fun d => d) id worker d).1
| os_complete now db_now id worker recs d : outbox_step d (pg_CompleteOutboxSend json_delete pg_time now db_now id worker recs d).1
| os_uncertain db_now id worker e d : outbox_step d (pg_MarkOutboxUncertain db_now id worker e d).1
| os_requeue db_now locked before limit d : outbox_step d (pg_RequeueStaleOutbox pg_time db_now locked before limit d).1
| os_ack id d : outbox_step d (pg_AckOutbox json_delete id d).1
| os_fail id e t d : outbox_step d (pg_FailOutbox pg_time id e t d).1.

(** Rows are under their ids, which the sequence has given out. *)
Definition keyed d : Prop := map_Forall (fun id r => or_id r = id /\ id <= db_outbox_seq d) (db_outbox d).

(** An item past its claim: being sent under one name, or closed. *)
Definition past (worker : string) r : Prop :=
  (or_state r = "sending" /\ coalesce (or_claimed_by r) = worker) \/ or_state r = "uncertain" \/ or_state r = "done" \/ or_state r = "failed".
Definition past_at (id : Z) (worker : string) d : Prop := exists r, db_outbox d !! id = Some r /\ past worker r.

(** ** Rows that a step writes *)

(** The rows of [d'] are those of [d], some of them rewritten by [f], and no
    row past its claim is among them unless it stays so. *)
Definition rewrites d d' : Prop :=
  db_outbox_seq d <= db_outbox_seq d'
  /\ (forall id r', db_outbox d' !! id = Some r' ->
        (or_id r' = id /\ db_outbox_seq d < id <= db_outbox_seq d')
        \/ exists r, db_outbox d !! id = Some r /\ or_id r' = or_id r)
  /\ (forall id worker, keyed d -> past_at id worker d -> past_at id worker d').

Lemma rewrites_same d d' : db_outbox d' = db_outbox d -> db_outbox_seq d <= db_outbox_seq d' -> rewrites d d'.
Proof. intros E Hs. split_and!; [done| |]; [rewrite E; eauto|]. intros id w _. unfold past_at. by rewrite E. Qed.

Lemma rewrites_one id r r' d d' :
  db_outbox d !! id = Some r -> db_outbox d' = <[id := r']> (db_outbox d) -> db_outbox_seq d' = db_outbox_seq d -> or_id r' = or_id r ->
  (forall worker, past worker r -> past worker r') -> rewrites d d'.
Proof.
  intros Hr E Es Hid Hp. split_and!; [lia| |].
  - intros k x. rewrite E, lookup_insert_Some. intros [[<- <-]|[_ Hx]]; eauto.
  - intros k w _ (x & Hx & Hw). unfold past_at. rewrite E. destruct (decide (k = id)) as [->|Hne].
    + exists r'. rewrite lookup_insert_eq. split; [done|]. apply Hp. congruence.
    + exists x. by rewrite lookup_insert_ne.
Qed.

Lemma rewrites_keyed d d' : rewrites d d' -> keyed d -> keyed d'.
Proof.
  intros (Hs & Hr & _) Hk id r' Hr'. destruct (Hr id r' Hr') as [[H1 H2]|(r & H1 & H2)]; [lia|]. destruct (Hk _ _ H1) as [H3 H4]. rewrite H2. lia.
Qed.

Lemma rewrites_insert now db_now item d d' id :
  insert_outbox payload_json pg_time now db_now item d = Ok (d', id) -> rewrites d d'.
Proof.
  unfold insert_outbox. cbn zeta. set (row := _ ≫= _). destruct row as [x|] eqn:E; [|done]. intros [= <- <-].
  assert (or_id x = db_outbox_seq d + 1) as Hid.
  { subst row. repeat (apply bind_Some in E as (? & _ & E)). by injection E as <-. }
  split_and!; cbn [db_outbox db_outbox_seq db_set_outbox db_set_outbox_seq]; [lia| |].
  - intros k r. rewrite lookup_insert_Some. intros [[<- <-]|[_ Hr]]; [left; lia|eauto].
  - intros k w Hk (r & Hr & Hw). exists r. split; [|done]. cbn. rewrite lookup_insert_ne; [done|]. destruct (Hk _ _ Hr). lia.
Qed.

(** Rows that are claimable or stale are rewritten together. *)
Lemma rewrites_many (C : outbox_row -> bool) (f : outbox_row -> outbox_row) rows d :
  rows ⊆ filter (fun r => C r = true) (map_to_list (db_outbox d)).*2 -> (forall r, or_id (f r) = or_id r) ->
  (forall worker r, C r = true -> ~ past worker r) -> keyed d -> rewrites d (write_rows (f <$> rows) d).
Proof.
  intros Hsub Hid Hp Hk.
  assert (forall m : gmap Z outbox_row, (forall id r', foldl (fun m r => <[or_id r := r]> m) m (f <$> rows) !! id = Some r' ->
    m !! id = Some r' \/ exists r, r ∈ rows /\ r' = f r /\ id = or_id r) /\
    (forall id r, m !! id = Some r -> (forall r0, r0 ∈ rows -> or_id r0 <> id) -> foldl (fun m r => <[or_id r := r]> m) m (f <$> rows) !! id = Some r)) as Hf.
  { clear - Hid. induction rows as [|r rows IH]; intros m; [by split; eauto|]. cbn [fmap list_fmap foldl]. destruct (IH (<[or_id (f r) := f r]> m)) as [I1 I2]. split.
    - intros id r' H. destruct (I1 id r' H) as [H1|(r0 & H1 & -> & ->)]; [|right; exists r0; split_and!; [by right|done..]].
      rewrite Hid in H1. apply lookup_insert_Some in H1 as [[<- <-]|[_ H1]]; [right; exists r; split_and!; [by left|done..]|by left].
    - intros id x Hx Hno. apply I2; [|intros r0 H0; apply Hno; by right]. rewrite Hid, lookup_insert_ne; [done|]. apply Hno. by left. }
  assert (forall r, r ∈ rows -> C r = true /\ db_outbox d !! or_id r = Some r) as Hin.
  { intros r Hr%Hsub. apply list_elem_of_filter in Hr as [Hc ([k x] & -> & Hx%elem_of_map_to_list)%list_elem_of_fmap]. cbn [snd] in *.
    split; [done|]. by destruct (Hk _ _ Hx) as [-> _]. }
  destruct (Hf (db_outbox d)) as [H1 H2]. split_and!; [done| |].
  - intros id r' Hr'. right. destruct (H1 id r' Hr') as [H|(r & Hr & -> & ->)]; [eauto|]. exists r. split; [by apply Hin|apply Hid].
  - intros id w _ (r & Hr & Hw). exists r. split; [|done]. apply H2; [done|]. intros r0 Hr0 E. destruct (Hin r0 Hr0) as [Hc Hl]. rewrite E in Hl.
    apply (Hp w r0 Hc). congruence.
Qed.

(** Statements that leave the outbox alone. *)
Lemma same_outbox_saved now recs d d' :
  save_records pg_time now recs d = Ok d' -> db_outbox d' = db_outbox d /\ db_outbox_seq d' = db_outbox_seq d.
Proof.
  revert d. induction recs as [|p recs IH]; intros d; cbn [save_records]; [by intros [= ->]|]. unfold savePendingSQL.
  destruct (new_pending_row pg_time now p); [|done]. cbn [mbind res_bind]. intros H. by apply IH in H.
Qed.

Lemma same_outbox_sent db_now g p d d' b :
  sent_message db_now g p d = Ok (d', b) -> db_outbox d' = db_outbox d /\ db_outbox_seq d' = db_outbox_seq d.
Proof. unfold sent_message, update_message. intros H. by repeat case_match; simplify_eq. Qed.

Lemma same_outbox_key now db_now msg opts d d' g :
  claim_key pg_time now db_now msg opts d = Ok (d', g) -> db_outbox d' = db_outbox d /\ db_outbox_seq d' = db_outbox_seq d.
Proof. unfold claim_key. intros H. by repeat case_match; simplify_eq. Qed.

Lemma same_outbox_debit q d d' : debit q d = Ok d' -> db_outbox d' = db_outbox d /\ db_outbox_seq d' = db_outbox_seq d.
Proof.
  unfold debit. destruct q as [q|]; [|by intros [= ->]]. destruct (qd_Limit q <=? 0); [by intros [= ->]|].
  destruct (validateDailyQuotaDebit q); [|done]. cbn [mbind res_bind]. intros H. by repeat case_match; simplify_eq.
Qed.

(** What comes before a step that leaves the outbox alone does not matter. *)
Lemma rewrites_from d0 d d' : db_outbox d = db_outbox d0 -> db_outbox_seq d = db_outbox_seq d0 -> rewrites d d' -> rewrites d0 d'.
Proof. intros E1 E2. unfold rewrites, past_at, keyed. by rewrite E1, E2. Qed.

Lemma rewrites_submit now db_now msg item opts d : rewrites d (pg_SubmitAtomic meta_json payload_json pg_time now db_now msg item opts d).1.
Proof.
  unfold pg_SubmitAtomic. destruct (claim_key _ _ _ _ _ d) as [[d1 [g|]]|] eqn:E1; cbn [mbind res_bind statement fst]; try by apply rewrites_same.
  destruct (debit (so_Quota opts) d1) as [d2|] eqn:E2; cbn [mbind res_bind statement fst]; [|by apply rewrites_same].
  unfold saveMessageSQL. destruct (new_message_row _ _ _ _); cbn [mbind res_bind statement fst]; [|by apply rewrites_same].
  destruct (insert_outbox _ _ _ _ _ _) as [[d4 id]|] eqn:E4; cbn [mbind res_bind statement fst]; [|by apply rewrites_same].
  apply same_outbox_key in E1 as [A1 B1]. apply same_outbox_debit in E2 as [A2 B2].
  eapply rewrites_from; [| |by eapply rewrites_insert]; cbn; congruence.
Qed.

Lemma rewrites_complete now db_now id worker recs d : rewrites d (pg_CompleteOutboxSend json_delete pg_time now db_now id worker recs d).1.
Proof.
  unfold pg_CompleteOutboxSend. destruct (db_outbox d !! id) as [r|] eqn:Er; [|by apply rewrites_same].
  destruct (bool_decide _); [by apply rewrites_same|]. destruct (_ || _) eqn:Hs; [by apply rewrites_same|].
  destruct (validateOutboxCompletion _ recs) as [recs'|]; cbn [mbind res_bind statement fst]; [|by apply rewrites_same].
  destruct (sent_message _ _ _ d) as [[d1 [|]]|] eqn:E1; cbn [checked_rows mbind res_bind statement fst]; try by apply rewrites_same.
  destruct (save_records _ _ _ d1) as [d2|] eqn:E2; cbn [mbind res_bind statement fst]; [|by apply rewrites_same].
  apply same_outbox_sent in E1 as [A1 B1]. apply same_outbox_saved in E2 as [A2 B2].
  eapply (rewrites_one id r); [done|cbn; rewrite A2, A1; reflexivity|cbn; congruence|done|]. intros w _. right. right. by left.
Qed.

Lemma rewrites_uncertain db_now id worker e d : rewrites d (pg_MarkOutboxUncertain db_now id worker e d).1.
Proof.
  unfold pg_MarkOutboxUncertain. destruct (db_outbox d !! id) as [r|] eqn:Er; [|by apply rewrites_same]. destruct (_ || _) eqn:Hs; [by apply rewrites_same|].
  destruct (text e) as [e'|]; cbn [mbind res_bind]; [|by apply rewrites_same]. unfold update_message. cbn [db_messages db_set_outbox].
  destruct (db_messages d !! or_gateway_id r); cbn; [|by apply rewrites_same]. eapply (rewrites_one id r); [done..|]. intros w _. right. by left.
Qed.

Lemma rewrites_update id cond f d :
  (forall r, or_id (f r) = or_id r) -> (forall worker r, cond r = true -> past worker r -> past worker (f r)) ->
  rewrites d (statement (checked_rows (update_outbox id cond f d)) d).1.
Proof.
  intros Hid Hp. unfold update_outbox. destruct (db_outbox d !! id) as [r|] eqn:Er; [|by apply rewrites_same].
  destruct (cond r) eqn:Hc; [|by apply rewrites_same]. cbn. eapply (rewrites_one id r); [done..|apply Hid|]. intros w. by apply Hp.
Qed.

Lemma not_past_claimed worker r : or_state r = "claimed" -> ~ past worker r.
Proof. unfold past. intros ->. naive_solver. Qed.

Lemma not_past_pending worker r : or_state r = "pending" -> ~ past worker r.
Proof. unfold past. intros ->. naive_solver. Qed.

(** Every step keeps what is past its claim. *)
Lemma step_rewrites d d' : outbox_step d d' -> keyed d -> rewrites d d'.
Proof.
  intros H Hk. destruct H.
  - by apply rewrites_same.
  - unfold pg_EnqueueOutbox. destruct (insert_outbox _ _ _ _ _ _) as [[d' id]|] eqn:E; [by eapply rewrites_insert|by apply rewrites_same].
  - apply rewrites_submit.
  - unfold pg_ClaimOutbox. destruct (negb _); [by apply rewrites_same|]. destruct (varchar 64 worker) as [w|]; [|by apply rewrites_same].
    destruct (existsb _ _); [by apply rewrites_same|]. cbn [fst]. apply (rewrites_many (claimable_row db_now locked)); [|done| |done].
    + intros r Hr. unfold claim_rows in Hr. apply elem_of_take in Hr as (i & Hi%list_elem_of_lookup_2 & _). by rewrite sort_stable_Permutation in Hi.
    + intros w' r Hc. unfold claimable_row in Hc. apply not_past_pending. by apply andb_true_iff in Hc as [[Hc%bool_decide_eq_true _]%andb_true_iff _].
  - unfold pg_MarkOutboxSending, sending_already. destruct (negb _); [by apply rewrites_same|].
    destruct (db_outbox d !! id) as [r|] eqn:Er; [|by apply rewrites_same]. destruct (claimed_by worker r) eqn:Hc.
    + eapply (rewrites_one id r); [done..|]. intros w Hw. apply andb_true_iff in Hc as [Hc%bool_decide_eq_true _]. by destruct (not_past_claimed w r Hc).
    + destruct (_ && _); by apply rewrites_same.
  - apply rewrites_complete.
  - apply rewrites_uncertain.
  - apply (rewrites_many (stale_row pg_time before locked)); [|done| |done].
    + intros r Hr. apply elem_of_take in Hr as (i & Hi%list_elem_of_lookup_2 & _). by rewrite sort_stable_Permutation in Hi.
    + intros w r Hc. unfold stale_row in Hc. apply not_past_claimed. by apply andb_true_iff in Hc as [[Hc%bool_decide_eq_true _]%andb_true_iff _].
  - apply rewrites_update; [done|]. intros w r Hc%bool_decide_eq_true Hp. by destruct (not_past_claimed w r Hc).
  - unfold pg_FailOutbox. cbn zeta. destruct (bind_ok [e]); [|by apply rewrites_same]. apply rewrites_update; [done|].
    intros w r Hc Hp. unfold IsZero in *. destruct (t =? 0).
    + right. right. by right.
    + cbn in Hc. rewrite orb_diag in Hc. apply bool_decide_eq_true in Hc. by destruct (not_past_claimed w r Hc).
Qed.

Lemma steps_past d d' id worker : rtc outbox_step d d' -> keyed d -> past_at id worker d -> past_at id worker d'.
Proof.
  induction 1 as [|d d1 d' H _ IH]; [done|]. intros Hk Hp. pose proof (step_rewrites _ _ H Hk) as Hr. apply IH.
  - by eapply rewrites_keyed.
  - destruct Hr as (_ & _ & Hr). by apply Hr.
Qed.

Lemma steps_keyed d d' : rtc outbox_step d d' -> keyed d -> keyed d'.
Proof. induction 1 as [|d d1 d' H _ IH]; [done|]. intros Hk. apply IH. eapply rewrites_keyed; [by apply step_rewrites|done]. Qed.

(** Who may send has the name of the row, and nobody else has afterwards. *)
Lemma mark_sending_past other id worker d d' :
  pg_MarkOutboxSending other id worker d = (d', Ok tt) -> past_at id worker d' /\ (d' = other d \/ outbox_step d d').
Proof.
  intros H. assert (outbox_step d (pg_MarkOutboxSending (fun d => d) id worker d).1) as Hstep by constructor.
  unfold pg_MarkOutboxSending in *. destruct (negb _); [done|].
  assert (sending_already id worker (other d) = (d', Ok tt) -> past_at id worker d' /\ d' = other d) as Halready.
  { unfold sending_already. destruct (db_outbox (other d) !! id) as [r|] eqn:Er; [|done]. destruct (_ && _) eqn:Hc; [|done]. intros [= <-].
    apply andb_true_iff in Hc as [H1%bool_decide_eq_true H2%bool_decide_eq_true]. split; [|done]. exists r. split; [done|]. by left. }
  destruct (db_outbox d !! id) as [r|] eqn:Er; [|by destruct (Halready H); auto]. destruct (claimed_by worker r) eqn:Hc; [|by destruct (Halready H); auto].
  injection H as <-. split; [|by right]. eexists. cbn [db_outbox db_set_outbox]. rewrite lookup_insert_eq. split; [done|]. left. split; [done|].
  apply andb_true_iff in Hc as [_ Hc%bool_decide_eq_true]. cbn. by rewrite Hc.
Qed.

Lemma mark_sending_name other id worker worker' d d' :
  pg_MarkOutboxSending other id worker' d = (d', Ok tt) -> past_at id worker d -> past_at id worker (other d) -> worker' = worker.
Proof.
  intros H (r & Hr & Hp) (r1 & Hr1 & Hp1). unfold pg_MarkOutboxSending in H. destruct (negb _); [done|]. rewrite Hr in H.
  destruct (claimed_by worker' r) eqn:Hc.
  - apply andb_true_iff in Hc as [Hc%bool_decide_eq_true _]. by destruct (not_past_claimed worker r Hc).
  - unfold sending_already in H. rewrite Hr1 in H. destruct (_ && _) eqn:H1; [|done]. apply andb_true_iff in H1 as [H1%bool_decide_eq_true H2%bool_decide_eq_true].
    unfold past in Hp1. rewrite H1 in Hp1. naive_solver.
Qed.

(** C6: Whatever any number of gateways do to the shared tables, with the rows
    locked by others skipped, after one worker was told that it may send an
    item no worker of another name is told so. *)
Theorem pg_one_sender other other' id worker worker' d d1 d2 d3 :
  keyed d -> rtc outbox_step d (other d) -> pg_MarkOutboxSending other id worker d = (d1, Ok tt) ->
  rtc outbox_step d1 d2 -> rtc outbox_step d2 (other' d2) -> pg_MarkOutboxSending other' id worker' d2 = (d3, Ok tt) ->
  worker' = worker.
Proof.
  intros Hk Ho H1 Hsteps Ho' H2. destruct (mark_sending_past _ _ _ _ _ H1) as [Hp Hd].
  assert (keyed d1) as Hk1 by (destruct Hd as [->|Hd]; [by apply (steps_keyed d)|apply (steps_keyed d); [by apply rtc_once|done]]).
  assert (past_at id worker d2) as Hp2 by by apply (steps_past d1). eapply mark_sending_name; [exact H2|exact Hp2|].
  apply (steps_past d2); [done| |done]. by apply (steps_keyed d1).
Qed.

(** Names tell workers apart only if no two gateways use the same ones: who has
    claimed an item is known by a name, and a second one with that name may
    send it too. *)
Theorem pg_names_shared id worker d r :
  text_ok worker = true -> db_outbox d !! id = Some r -> claimed_by worker r = true ->
  exists d1, pg_MarkOutboxSending (fun d => d) id worker d = (d1, Ok tt) /\ pg_MarkOutboxSending (fun d => d) id worker d1 = (d1, Ok tt).
Proof.
  intros Hw Hr Hc. eexists. unfold pg_MarkOutboxSending at 1. rewrite bind_ok_fits by by repeat constructor. cbn [negb]. rewrite Hr, Hc. split; [done|].
  unfold pg_MarkOutboxSending, sending_already. rewrite bind_ok_fits by by repeat constructor. cbn [negb db_outbox db_set_outbox]. rewrite lookup_insert_eq.
  apply andb_true_iff in Hc as [_ Hc%bool_decide_eq_true]. cbn [or_claimed_by or_state or_set_state or_set].
  rewrite Hc. by rewrite !bool_decide_eq_true_2 by done.
Qed.

(** A provider id that does not fit its column makes the completion fail after
    the message was sent: nothing of it is kept. *)
Theorem pg_completion_refused now db_now id worker p recs d r :
  db_outbox d !! id = Some r -> or_state r <> "done" -> varchar 128 (p_ProviderID p) = None -> is_Some (db_messages d !! or_gateway_id r) ->
  exists e, pg_CompleteOutboxSend json_delete pg_time now db_now id worker (p :: recs) d = (d, Err e).
Proof.
  intros Hr Hs Hv [m Hm]. unfold pg_CompleteOutboxSend. rewrite Hr, bool_decide_eq_false_2 by done. destruct (_ || _); [by eexists|].
  destruct (validateOutboxCompletion _ _) as [recs'|] eqn:Ev; cbn [mbind res_bind statement]; [|by eexists].
  apply validate_normal in Ev as [-> _]. cbn [fmap list_fmap].
  assert (p_ProviderID (normalizePending p) = p_ProviderID p) as -> by (unfold normalizePending; by repeat case_match).
  unfold sent_message, update_message. rewrite Hm. destruct (bind_ok _); [|by eexists]. rewrite Hv. by eexists.
Qed.
End outbox.

(** ** Examples *)

Definition pg_requeued : DB demo_json := Eval vm_compute in (pg_RequeueStaleOutbox demo_time 110000 (fun _ => false) 109000 10 pg_claimed).1.
Definition pg_reclaimed : DB demo_json :=
  Eval vm_compute in (pg_ClaimOutbox demo_json_payload 111000 (fun _ => false) (fun l => l) "worker-1" 5 pg_requeued).1.

(** The tables after a requeue that comes while the item is being sent. *)
Definition pg_late : DB demo_json := (pg_RequeueStaleOutbox demo_time 110000 (fun _ => false) 109000 10 pg_sending).1.

Lemma pg_one_sender_witness :
  pg_MarkOutboxSending (fun d => d) 1 "worker-1" pg_claimed = (pg_sending, Ok tt)
  /\ forall d3, pg_MarkOutboxSending (fun d => d) 1 "worker-2" pg_late <> (d3, Ok tt).
Proof.
  split; [vm_compute; reflexivity|]. intros d3 H. assert ("worker-2" = "worker-1") as E; [|discriminate E].
  eapply (pg_one_sender demo_meta demo_payload_json demo_json_payload demo_delete demo_time (fun d => d) (fun d => d) 1 "worker-1" "worker-2" pg_claimed pg_sending pg_late).
  - apply map_Forall_to_list. eassert (map_to_list (db_outbox pg_claimed) = _) as -> by (vm_compute; reflexivity). apply Forall_cons_2; [cbn; lia|apply Forall_nil_2].
  - apply rtc_refl.
  - vm_compute. reflexivity.
  - apply rtc_once, (os_requeue _ _ _ _ _ 110000 (fun _ => false) 109000 10).
  - apply rtc_refl.
  - exact H.
Defined.

(** Two gateways whose workers have the same names: the first one is slow, its
    claim is taken back and given to the second, and then both send. *)
Example two_gateways_send :
  (pg_MarkOutboxSending (fun d => d) 1 "worker-1" pg_reclaimed).2 = Ok tt
  /\ (pg_MarkOutboxSending (fun d => d) 1 "worker-1" (pg_MarkOutboxSending (fun d => d) 1 "worker-1" pg_reclaimed).1).2 = Ok tt.
Proof. vm_compute. by split. Qed.

(** A provider id of 129 letters: the memory store takes it, Postgres does not. *)
Definition long_id : string := string_of_bytes (replicate 129 55).
Definition long_record : Pending :=
  {| p_ProviderID := long_id; p_GatewayID := "m0000001"; p_TenantID := ""; p_AccountID := ""; p_ClientMsgID := ""; p_SegmentIndex := 1; p_SegmentCount := 1;
     p_SourceKind := "smpp"; p_SourceSession := "s1"; p_SourceSystem := "sys"; p_CallbackURL := ""; p_CallbackRule := ""; p_From := "a"; p_To := "b";
     p_Text := "hi"; p_DataCoding := 0; p_RegisteredDelivery := 1; p_Provider := "p1"; p_Route := "r1"; p_ReceivedAt := 5000; p_ExpiresAt := 900000;
     p_DLRReady := false; p_DLRDelivered := false; p_DLRState := ""; p_DLRErrorCode := 0; p_DLRDoneAt := 0 |}.

Lemma pg_completion_refused_witness :
  exists e, pg_CompleteOutboxSend demo_delete demo_time 103000 103000 1 "worker-1" [long_record] pg_sending = (pg_sending, Err e).
Proof.
  eapply (pg_completion_refused demo_delete demo_time 103000 103000 1 "worker-1" long_record [] pg_sending);
    [vm_compute; reflexivity|vm_compute; discriminate|vm_compute; reflexivity|vm_compute; eauto].
Defined.

(** The memory store, on the same calls, takes the completion. *)
Example long_id_in_memory :
  let s := (MarkOutboxSending 1 "worker-1" (ClaimOutbox 101000 "worker-1" 5 (SubmitAtomic 100000 pg_msg (demo_item "m0000001") demo_opts NewMemory).1).1).1 in
  (CompleteOutboxSend 103000 1 "worker-1" [long_record] s).2 = Ok tt.
Proof. vm_compute. reflexivity. Qed.
