(* ===== verification/PostgresStart.v ===== *)
(** * Opening a store: internal/store/factory.go, NewPostgres and the check of the schema

    The catalog of the server as tables with their columns and unique indexes;
    the migrations as what they add to it; the statements of [EnsureSchema] over
    it. The connection is a parameter. *)

From S2P Require Import Prelude Unicode GoTime GoParse Records Store FileStore Config ConfigValid Postgres.

(** ** The catalog *)

Record table := mkTable {
  tb_columns : list string;
  tb_unique : list (list string) }.

Abbreviation catalog := (gmap string table).

(** The codes of errors the check tells apart. *)
Inductive sql_err :=
| undefined_table
| undefined_column
| no_unique_constraint
| connection_lost.

#[export] Instance sql_err_eq_dec : EqDecision sql_err.
Proof. solve_decision. Defined.

Definition isUndefinedTable (e : sql_err) : bool := bool_decide (e = undefined_table).

(** A statement that names these columns of a table. *)
Definition names_columns (name : string) (columns : list string) (c : catalog) : res sql_err unit :=
  match c !! name with
  | None => Err undefined_table
  | Some t => if forallb (fun k => bool_decide (k ∈ tb_columns t)) columns then Ok tt else Err undefined_column
  end.

(** [ON CONFLICT (columns)]: an index on just these columns, in any order. *)
Definition has_constraint (name : string) (columns : list string) (c : catalog) : bool :=
  match c !! name with
  | None => false
  | Some t => existsb (fun i => bool_decide (list_to_set i =@{gset string} list_to_set columns)) (tb_unique t)
  end.

(** [hasUniqueColumns]: an index on these columns in this order. *)
Definition hasUniqueColumns (name : string) (columns : list string) (c : catalog) : bool :=
  match c !! name with None => false | Some t => existsb (fun i => bool_decide (i = columns)) (tb_unique t) end.

(** ** The check *)

Inductive start_err :=
| dsn_required
| bad_dsn
| unreachable
| schema_missing
| id_alloc_missing
| pending_columns_missing
| pending_key_missing
| message_columns_missing
| quota_table_missing
| quota_key_missing
| sql_failed (e : sql_err).

Definition on_err (named : sql_err -> start_err) (r : res sql_err unit) : res start_err unit :=
  match r with Ok _ => Ok tt | Err e => Err (named e) end.

Definition missing_table (named : start_err) (e : sql_err) : start_err := if isUndefinedTable e then named else sql_failed e.

Definition pending_report_columns : list string :=
  ["provider"; "client_msg_id"; "segment_index"; "segment_count"; "dlr_ready"; "dlr_delivered"; "dlr_state"; "dlr_err"; "dlr_done_at"; "callback_url";
   "callback_rule"].

(** The statement that makes sure of the row of the allocator. *)
Definition insert_id_alloc (c : catalog) : res sql_err unit :=
  _ ← names_columns "id_alloc" ["name"; "value"] c;
  if has_constraint "id_alloc" ["name"] c then Ok tt else Err no_unique_constraint.

Section ensure.
Context {J : Type}.
Implicit Types (d : DB J).

(** [EnsureSchema]: the row of the allocator stays when a later check fails. *)
Definition EnsureSchema (c : catalog) d : DB J * res start_err unit :=
  match on_err (missing_table schema_missing) (names_columns "outbox" ["state"] c) with
  | Err e => (d, Err e)
  | Ok _ =>
    match on_err (missing_table id_alloc_missing) (insert_id_alloc c) with
    | Err e => (d, Err e)
    | Ok _ =>
      (db_set_id_alloc (Some (default 0 (db_id_alloc d))) d,
       _ ← on_err (fun _ => pending_columns_missing) (names_columns "pending" pending_report_columns c);
       _ ← (if hasUniqueColumns "pending" ["provider"; "provider_id"] c then Ok tt else Err pending_key_missing);
       _ ← on_err (fun _ => message_columns_missing) (names_columns "messages" ["tenant_id"; "account_id"; "client_msg_id"] c);
       _ ← on_err (fun _ => quota_table_missing) (names_columns "tenant_quota_usage" ["tenant_id"; "quota_date"; "used_segments"] c);
       if hasUniqueColumns "tenant_quota_usage" ["tenant_id"; "quota_date"] c then Ok tt else Err quota_key_missing)
    end
  end.

(** [NewPostgres]: [parse_config] gives the size of the pool, if the text says;
    [reach] is the server, if there is one. The first result tells whether a pool
    is left open. *)
Context (parse_config : string -> option Z) (reach : string -> Z -> option (catalog * DB J)).

Definition max_conns (maxConns : Z) : Z := if maxConns =? 0 then 50 else maxConns.

Definition NewPostgres (dsn : string) : bool * res start_err (catalog * DB J) :=
  if bool_decide (dsn = "") then (false, Err dsn_required)
  else
    match parse_config dsn with
    | None => (false, Err bad_dsn)
    | Some maxConns =>
      match reach dsn (max_conns maxConns) with
      | None => (false, Err unreachable)
      | Some (c, d) =>
        match EnsureSchema c d with
        | (d, Ok _) => (true, Ok (c, d))
        | (_, Err e) => (false, Err e)
        end
      end
    end.

(** ** The factory *)

Inductive opened {content} :=
| OpenMemory (s : MemoryStore)
| OpenFile (s : @FileStore content)
| OpenPostgres (c : catalog) (d : DB J).

Inductive factory_err :=
| file_failed (e : file_err)
| postgres_failed (e : start_err)
| unsupported_driver (driver : string).

(** [NewFromConfig]; [disk_at] is what is under a path. *)
Context {content : Type} (unmarshal : content -> option fileSnapshot) (disk_at : string -> @disk content).

Definition file_path (dsn : string) : string := if bool_decide (dsn = "") then "data/mysmpp-store.json" else dsn.

Definition NewFromConfig (cfg : StorageConfig) : res factory_err (@opened content) :=
  let is_driver := ToLowerEq (sg_Driver cfg) in
  if is_driver "" || is_driver "memory" then Ok (OpenMemory NewMemory)
  else if is_driver "file" || is_driver "json" then
    match NewFile unmarshal (disk_at (file_path (sg_DSN cfg))) with Ok s => Ok (OpenFile s) | Err e => Err (file_failed e) end
  else if is_driver "postgres" || is_driver "pg" then
    match (NewPostgres (sg_DSN cfg)).2 with Ok (c, d) => Ok (OpenPostgres c d) | Err e => Err (postgres_failed e) end
  else Err (unsupported_driver (sg_Driver cfg)).

Lemma on_err_named named r e : on_err named r = Err e -> exists x, e = named x.
Proof. destruct r; [done|]. intros [= <-]. eauto. Qed.

Lemma EnsureSchema_err c d : (EnsureSchema c d).2 <> Err dsn_required.
Proof.
  unfold EnsureSchema, missing_table. intros H.
  repeat match goal with
  | H : context [on_err ?n ?r] |- _ =>
    let E := fresh in destruct (on_err n r) eqn:E; [clear E|apply on_err_named in E as [? ->]]; cbn [mbind res_bind snd] in H
  | H : context [if ?b then _ else _] |- _ => destruct b; cbn [mbind res_bind snd] in H
  end; done.
Qed.

(** A configuration that was validated names a driver, and a server when it has
    to. *)
Theorem validated_driver cfg :
  validate_storage cfg = Ok tt ->
  match NewFromConfig cfg with Err (unsupported_driver _) | Err (postgres_failed dsn_required) => False | _ => True end.
Proof.
  unfold validate_storage, NewFromConfig, NewPostgres. cbn zeta. destruct (ToLowerEq _ ""), (ToLowerEq _ "memory"); try done. cbn [orb].
  destruct (ToLowerEq _ "file"), (ToLowerEq _ "json"); cbn [orb]; try by destruct (NewFile _ _).
  destruct (_ || _); [|done]. unfold fail_if. destruct (bool_decide _); [done|]. intros _.
  destruct (parse_config _); [|done]. destruct (reach _ _) as [[c d]|]; [|done]. pose proof (EnsureSchema_err c d) as H.
  destruct (EnsureSchema c d) as [d' [[]|e]]; cbn in *; [done|]. by destruct e.
Qed.
End ensure.

(** ** The migrations *)

Definition add_columns (columns : list string) (t : table) : table := mkTable (tb_columns t ++ columns) (tb_unique t).

Definition create (name : string) (t : table) (c : catalog) : catalog := match c !! name with None => <[name := t]> c | Some _ => c end.

Definition init : catalog -> catalog :=
  create "config_history" (mkTable ["id"; "config"; "applied_at"; "applied_by"] [["id"]])
  ∘ create "id_alloc" (mkTable ["name"; "value"] [["name"]])
  ∘ create "idempotency" (mkTable ["client_id"; "key"; "gateway_id"; "expires_at"] [["client_id"; "key"]])
  ∘ create "outbox" (mkTable ["id"; "gateway_id"; "provider"; "payload"; "state"; "claimed_by"; "claimed_at"; "next_retry_at"; "attempt"; "max_attempts";
                              "last_error"; "created_at"] [["id"]])
  ∘ create "pending" (mkTable ["provider_id"; "gateway_id"; "source_kind"; "source_session"; "source_system"; "from_addr"; "to_addr"; "text"; "data_coding";
                               "registered_delivery"; "provider"; "route"; "received_at"; "expires_at"; "dlr_ready"; "dlr_state"; "dlr_err"; "dlr_done_at"]
                        [["provider_id"]])
  ∘ create "messages" (mkTable ["gateway_id"; "provider_id"; "direction"; "from_addr"; "to_addr"; "text"; "encoding"; "data_coding"; "segments"; "route";
                                "provider"; "source_kind"; "source_session"; "source_system"; "client_id"; "state"; "error_code"; "received_at"; "sent_at";
                                "done_at"; "meta"] [["gateway_id"]]).

Definition migrations : list (catalog -> catalog) :=
  [init;
   alter (add_columns ["dlr_ready"; "dlr_state"; "dlr_err"; "dlr_done_at"]) "pending" ∘ create "id_alloc" (mkTable ["name"; "value"] [["name"]]);
   alter (add_columns ["callback_url"; "callback_rule"]) "pending";
   (fun c => c);
   (fun c => c);
   alter (fun t => mkTable (tb_columns t) [["provider"; "provider_id"]]) "pending"
   ∘ alter (add_columns ["tenant_id"; "account_id"; "client_msg_id"; "segment_index"; "segment_count"; "dlr_delivered"]) "pending";
   create "tenant_quota_usage" (mkTable ["tenant_id"; "quota_date"; "used_segments"; "updated_at"] [["tenant_id"; "quota_date"]])
   ∘ alter (add_columns ["tenant_id"; "account_id"; "client_msg_id"]) "messages"].

(** The catalog after the first migrations. *)
Definition migrated (k : nat) : catalog := foldl (fun c m => m c) ∅ (take k migrations).

(** The check of the schema at start passes after all migrations and after no
    fewer. *)
Theorem only_migrated_starts {J} (k : nat) (d : DB J) :
  (EnsureSchema (migrated k) d).2 = Ok tt <-> (7 <= k)%nat.
Proof.
  destruct (decide (7 <= k)%nat) as [H|H].
  - unfold migrated. rewrite take_ge by exact H. split; [done|]. intros _. vm_compute. reflexivity.
  - split; [|lia]. do 7 (destruct k as [|k]; [vm_compute; done|]). lia.
Qed.

(** The table of the idempotency keys is not looked at. *)
Example idempotency_not_checked {J} (d : DB J) : (EnsureSchema (delete "idempotency" (migrated 7)) d).2 = Ok tt.
Proof. vm_compute. reflexivity. Qed.
