(* ===== verification/DispatchRun.v ===== *)
(** * The goroutines of a dispatcher: internal/dispatch/dispatcher.go, New, StartWorkers, the loops and Close

    What [New] makes of a configuration, and the goroutines it starts as one
    transition system: a loop per worker that claims items and starts a goroutine
    for each, the workers of delivery reports, the goroutines [OnDLR] starts when
    the channel of reports is full, the requeueing and the sweeping loop, and
    [Close], which cancels the loops, waits for them and closes the sink of the
    records. A step is one choice of a select, one store operation, the start of a
    provider call or its answer, which may never come. *)

From S2P Require Import Prelude Unicode Codec Segment Num GoTime GoParse Records Store StoreInv StoreSubmit GatewayId Config ConfigValid.
From S2P Require Import Addr Router DlrAggregate Dispatch DispatchSubmit DispatchSend Workers.

(** ** Construction *)

(** [normalizeDispatcherConfig] *)
Definition positive_or (v default : Z) : Z := if v <=? 0 then default else v.

Definition normalizeDispatcherConfig (c : DispatcherConfig) : DispatcherConfig :=
  mkDispatcherConfig (positive_or (di_Workers c) 10) (positive_or (di_PerWorkerConcurrency c) 10) (positive_or (di_ClaimLimit c) 20)
    (positive_or (di_PollIntervalMS c) 20) (if bool_decide (di_PendingTTL c = "") then "30m" else di_PendingTTL c) (positive_or (di_MaxAttempts c) 5)
    (if bool_decide (di_ClaimTimeout c = "") then "60s" else di_ClaimTimeout c)
    (if bool_decide (di_PendingSweepInterval c = "") then "1m" else di_PendingSweepInterval c)
    (match di_ValidateDestAddr c with None => Some true | v => v end).

Definition duration_or (text : string) (default : duration) : duration :=
  match ParseDuration text with Some d => if d <=? 0 then default else d | None => default end.

(** The settings of the loops that the record of a dispatcher does not have. *)
Record loops := mkLoops {
  lp_pendingSweep : duration;
  lp_perWorkerConc : Z;
  lp_pollInterval : duration }.

Definition Millisecond : duration := 1000000.

Definition ValidateDestAddrEnabled (c : DispatcherConfig) : bool := match di_ValidateDestAddr c with None => true | Some v => v end.

(** [New], for a store that was given; the loops start afterwards. *)
Definition New (c : DispatcherConfig) (s : MemoryStore) : Dispatcher * loops :=
  let c := normalizeDispatcherConfig c in
  ({| d_store := s; d_idAlloc := newIDAllocator 1000; d_router := None; d_pendingTTL := duration_or (di_PendingTTL c) (30 * Minute);
      d_claimTimeout := duration_or (di_ClaimTimeout c) (60 * Second); d_workers := di_Workers c; d_claimLimit := di_ClaimLimit c;
      d_maxAttempts := di_MaxAttempts c; d_validateDest := ValidateDestAddrEnabled c; d_instanceID := None; d_cdrSink := false; d_cdr := [];
      d_dlrCh := []; d_dlrBg := []; d_dlrPick := 0 |},
   mkLoops (duration_or (di_PendingSweepInterval c) Minute) (di_PerWorkerConcurrency c) (i64 (di_PollIntervalMS c * Millisecond))).

(** ** The goroutines *)

(** A goroutine of [processOutbox] before it was started, while it holds a place
    of its worker, after it gave the place back, and at its end. *)
Inductive stage := Queued | Running | Released | Finished.

#[export] Instance stage_eq_dec : EqDecision stage.
Proof. solve_decision. Defined.

(** [workerLoop]: at its select, starting goroutines, waiting for them, returned. *)
Inductive worker_loop := AtSelect | Starting | Draining | Gone.

#[export] Instance worker_loop_eq_dec : EqDecision worker_loop.
Proof. solve_decision. Defined.

(** [dlrWorker] *)
Inductive dlr_loop := Waiting | Handling (dlr : DLR) | Left.

Definition has_left (l : dlr_loop) : bool := match l with Left => true | _ => false end.

(** [pendingSweepLoop]: it sweeps when it starts; a tick also flushes the
    reports that wait for a receiver. *)
Inductive sweep_loop := Sweeping | SweepWaits | SweepGone.

#[export] Instance sweep_loop_eq_dec : EqDecision sweep_loop.
Proof. solve_decision. Defined.

(** [Close]: not called, waiting for the wait group, closing the sink, returned. *)
Inductive close_state := Open | Closing | Flushing | Closed.

#[export] Instance close_state_eq_dec : EqDecision close_state.
Proof. solve_decision. Defined.

(** [rn_tasks] says for each task of the system whose it is and how far its
    goroutine is; [rn_calls] are those whose provider call is under way;
    [rn_bg] are the reports whose goroutines were started outside the workers
    and outside the wait group; [rn_sink] says whether there is a sink. *)
Record run := mkRun {
  rn_sys : system;
  rn_tasks : list (nat * stage);
  rn_workers : list worker_loop;
  rn_dlr : list dlr_loop;
  rn_requeue : bool;
  rn_sweep : sweep_loop;
  rn_ch : list DLR;
  rn_bg : list DLR;
  rn_calls : list nat;
  rn_sink : bool;
  rn_cancelled : bool;
  rn_close : close_state }.

Definition rn_set_sys (v : system) (r : run) : run :=
  mkRun v (rn_tasks r) (rn_workers r) (rn_dlr r) (rn_requeue r) (rn_sweep r) (rn_ch r) (rn_bg r) (rn_calls r) (rn_sink r) (rn_cancelled r) (rn_close r).
Definition rn_set_tasks (v : list (nat * stage)) (r : run) : run :=
  mkRun (rn_sys r) v (rn_workers r) (rn_dlr r) (rn_requeue r) (rn_sweep r) (rn_ch r) (rn_bg r) (rn_calls r) (rn_sink r) (rn_cancelled r) (rn_close r).
Definition rn_set_workers (v : list worker_loop) (r : run) : run :=
  mkRun (rn_sys r) (rn_tasks r) v (rn_dlr r) (rn_requeue r) (rn_sweep r) (rn_ch r) (rn_bg r) (rn_calls r) (rn_sink r) (rn_cancelled r) (rn_close r).
Definition rn_set_dlr (v : list dlr_loop) (r : run) : run :=
  mkRun (rn_sys r) (rn_tasks r) (rn_workers r) v (rn_requeue r) (rn_sweep r) (rn_ch r) (rn_bg r) (rn_calls r) (rn_sink r) (rn_cancelled r) (rn_close r).
Definition rn_set_requeue (v : bool) (r : run) : run :=
  mkRun (rn_sys r) (rn_tasks r) (rn_workers r) (rn_dlr r) v (rn_sweep r) (rn_ch r) (rn_bg r) (rn_calls r) (rn_sink r) (rn_cancelled r) (rn_close r).
Definition rn_set_sweep (v : sweep_loop) (r : run) : run :=
  mkRun (rn_sys r) (rn_tasks r) (rn_workers r) (rn_dlr r) (rn_requeue r) v (rn_ch r) (rn_bg r) (rn_calls r) (rn_sink r) (rn_cancelled r) (rn_close r).
Definition rn_set_ch (v : list DLR) (r : run) : run :=
  mkRun (rn_sys r) (rn_tasks r) (rn_workers r) (rn_dlr r) (rn_requeue r) (rn_sweep r) v (rn_bg r) (rn_calls r) (rn_sink r) (rn_cancelled r) (rn_close r).
Definition rn_set_bg (v : list DLR) (r : run) : run :=
  mkRun (rn_sys r) (rn_tasks r) (rn_workers r) (rn_dlr r) (rn_requeue r) (rn_sweep r) (rn_ch r) v (rn_calls r) (rn_sink r) (rn_cancelled r) (rn_close r).
Definition rn_set_calls (v : list nat) (r : run) : run :=
  mkRun (rn_sys r) (rn_tasks r) (rn_workers r) (rn_dlr r) (rn_requeue r) (rn_sweep r) (rn_ch r) (rn_bg r) v (rn_sink r) (rn_cancelled r) (rn_close r).
Definition rn_set_sink (v : bool) (r : run) : run :=
  mkRun (rn_sys r) (rn_tasks r) (rn_workers r) (rn_dlr r) (rn_requeue r) (rn_sweep r) (rn_ch r) (rn_bg r) (rn_calls r) v (rn_cancelled r) (rn_close r).
Definition rn_set_close (v : close_state) (r : run) : run :=
  mkRun (rn_sys r) (rn_tasks r) (rn_workers r) (rn_dlr r) (rn_requeue r) (rn_sweep r) (rn_ch r) (rn_bg r) (rn_calls r) (rn_sink r) true v.

(** The name of a worker. *)
Definition worker_name (w : nat) : string := "worker-" +:+ Itoa (Z.of_nat w + 1).

(** The places taken of a worker, and the goroutines it waits for. *)
Definition in_stage (w : nat) (st : stage) (t : nat * stage) : bool := bool_decide (t = (w, st)).
Definition count (P : nat * stage -> bool) (r : run) : Z := Z.of_nat (length (filter (fun t => P t = true) (rn_tasks r))).
Definition taken (w : nat) (r : run) : Z := count (in_stage w Running) r.
Definition in_flight (w : nat) (t : nat * stage) : bool := in_stage w Running t || in_stage w Released t.

(** The goroutine to start next. *)
Definition next_queued (w : nat) (r : run) : option nat := fst <$> list_find (fun t => in_stage w Queued t = true) (rn_tasks r).

Inductive action :=
| Tick (w : nat) (now : time)
| Start (w : nat)
| Stop (w : nat)
| Mark (i : nat) (last : bool)
| Call (i : nat)
| Answer (i : nat)
| FailEarly (i : nat) (errMsg : string) (next : time)
| After (i : nat) (c : call)
| Release (i : nat)
| Finish (i : nat)
| Exit (w : nat)
| Requeue (now : time) (order : list Z)
| RequeueStop
| SweepTick
| Sweep (c : call)
| Swept
| SweepStop
| Take (k : nat)
| Handle (k : nat) (c : call)
| Handled (k : nat)
| Leave (k : nat)
| Report (dlr : DLR)
| BgCall (k : nat) (c : call)
| BgDone (k : nat)
| SetSink (b : bool)
| Other (c : call)
| Cancel
| Return
| SinkClosed.

Section steps.
Context (claimLimit perWorkerConc : Z) (claimTimeout : duration) (requeueLimit : Z).

(** The phase of the task of a goroutine. *)
Definition phase_at (i : nat) (r : run) : option phase := tk_phase <$> sy_tasks (rn_sys r) !! i.

Definition set_stage (st : stage) (i : nat) (r : run) : run := rn_set_tasks (alter (fun t => (t.1, st)) i (rn_tasks r)) r.
Definition stage_at (i : nat) (r : run) : option stage := snd <$> rn_tasks r !! i.

(** A worker that is cancelled leaves the items it has not started. *)
Definition abandon (w : nat) (y : system) (ts : list (nat * stage)) : list task :=
  zip_with (fun t s => if in_stage w Queued s then set_phase Over t else t) (sy_tasks y) ts.

Definition forgo (w : nat) (t : nat * stage) : nat * stage := if in_stage w Queued t then (w, Finished) else t.

Definition all_gone (r : run) : bool :=
  forallb (fun l => bool_decide (l = Gone)) (rn_workers r) && forallb has_left (rn_dlr r)
  && negb (rn_requeue r) && bool_decide (rn_sweep r = SweepGone).

(** The goroutine has nothing more to ask of its provider. *)
Definition called_back (i : nat) (r : run) : bool :=
  bool_decide (stage_at i r = Some Running) && bool_decide (phase_at i r = Some Over) && bool_decide (i ∉ rn_calls r).

(** One step; what is not possible changes nothing. *)
Definition act (a : action) (r : run) : run :=
  match a with
  | Tick w now =>
    match rn_workers r !! w, claim_batch claimLimit perWorkerConc (taken w r) with
    | Some AtSelect, Some limit =>
      let y := sys_step (EClaim now (worker_name w) limit) (rn_sys r) in
      let new := (length (sy_tasks y) - length (sy_tasks (rn_sys r)))%nat in
      rn_set_workers (<[w := Starting]> (rn_workers r)) (rn_set_tasks (rn_tasks r ++ replicate new (w, Queued)) (rn_set_sys y r))
    | _, _ => r
    end
  | Start w =>
    match rn_workers r !! w, next_queued w r with
    | Some Starting, Some i => if taken w r <? perWorkerConc then set_stage Running i r else r
    | Some Starting, None => rn_set_workers (<[w := AtSelect]> (rn_workers r)) r
    | _, _ => r
    end
  | Stop w =>
    if negb (rn_cancelled r) then r
    else
      match rn_workers r !! w with
      | Some AtSelect | Some Starting =>
        let y := rn_sys r in
        rn_set_workers (<[w := Draining]> (rn_workers r))
          (rn_set_tasks (forgo w <$> rn_tasks r)
             (rn_set_sys (mkSystem (sy_store y) (abandon w y (rn_tasks r)) (sy_sent y)) r))
      | _ => r
      end
  | Mark i last => if bool_decide (stage_at i r = Some Running) then rn_set_sys (sys_step (EMark i last) (rn_sys r)) r else r
  | Call i =>
    if bool_decide (stage_at i r = Some Running) && bool_decide (phase_at i r = Some Marked)
    then rn_set_calls (i :: rn_calls r) (rn_set_sys (sys_step (ESend i) (rn_sys r)) r) else r
  | Answer i => rn_set_calls (filter (fun j => j <> i) (rn_calls r)) r
  | FailEarly i e t => if bool_decide (stage_at i r = Some Running) then rn_set_sys (sys_step (EFail i e t) (rn_sys r)) r else r
  | After i c =>
    if called_back i r then rn_set_sys (sys_step (EStore c) (rn_sys r)) r else r
  | Release i =>
    if called_back i r then set_stage Released i r else r
  | Finish i => if bool_decide (stage_at i r = Some Released) then set_stage Finished i r else r
  | Exit w =>
    match rn_workers r !! w with
    | Some Draining => if count (in_flight w) r =? 0 then rn_set_workers (<[w := Gone]> (rn_workers r)) r else r
    | _ => r
    end
  | Requeue now order =>
    if rn_requeue r then rn_set_sys (sys_step (ERequeue (now - claimTimeout) requeueLimit order) (rn_sys r)) r else r
  | RequeueStop => if rn_cancelled r then rn_set_requeue false r else r
  | SweepTick => match rn_sweep r with SweepWaits => rn_set_sweep Sweeping r | _ => r end
  | Sweep c => match rn_sweep r with Sweeping => rn_set_sys (sys_step (EStore c) (rn_sys r)) r | _ => r end
  | Swept => match rn_sweep r with Sweeping => rn_set_sweep SweepWaits r | _ => r end
  | SweepStop => match rn_sweep r with SweepWaits => if rn_cancelled r then rn_set_sweep SweepGone r else r | _ => r end
  | Take k =>
    match rn_dlr r !! k, rn_ch r with
    | Some Waiting, dlr :: ch => rn_set_dlr (<[k := Handling dlr]> (rn_dlr r)) (rn_set_ch ch r)
    | _, _ => r
    end
  | Handle k c => match rn_dlr r !! k with Some (Handling _) => rn_set_sys (sys_step (EStore c) (rn_sys r)) r | _ => r end
  | Handled k => match rn_dlr r !! k with Some (Handling _) => rn_set_dlr (<[k := Waiting]> (rn_dlr r)) r | _ => r end
  | Leave k =>
    match rn_dlr r !! k with Some Waiting => if rn_cancelled r then rn_set_dlr (<[k := Left]> (rn_dlr r)) r else r | _ => r end
  | Report dlr =>
    if (length (rn_ch r) <? dlr_buffer)%nat then rn_set_ch (rn_ch r ++ [dlr]) r else rn_set_bg (rn_bg r ++ [dlr]) r
  | BgCall k c => match rn_bg r !! k with Some _ => rn_set_sys (sys_step (EStore c) (rn_sys r)) r | None => r end
  | BgDone k => rn_set_bg (delete k (rn_bg r)) r
  | SetSink b => rn_set_sink b r
  | Other c => rn_set_sys (sys_step (EStore c) (rn_sys r)) r
  | Cancel => match rn_close r with Open => rn_set_close Closing r | _ => r end
  | Return => match rn_close r with Closing => if all_gone r then rn_set_close (if rn_sink r then Flushing else Closed) r else r | _ => r end
  | SinkClosed => match rn_close r with Flushing => rn_set_close Closed r | _ => r end
  end.

Definition acts (l : list action) (r : run) : run := foldl (flip act) r l.

(** [StartWorkers] on a store. *)
Definition StartWorkers (n : Z) (s : MemoryStore) : run :=
  let n := Z.to_nat (if n <=? 0 then 1 else n) in
  mkRun (mkSystem s [] []) [] (replicate n AtSelect) (replicate n Waiting) true Sweeping [] [] [] false false Open.
End steps.
