(* ===== verification/DispatchRunOk.v ===== *)
(** * What the goroutines of a dispatcher promise

    A worker never holds more items than it may, so that starting a goroutine
    never waits; providers are called once; [Close] waits for the provider calls
    under way, can return when they are answered, and after it has returned none
    of the goroutines it waited for runs. *)

From S2P Require Import Prelude Unicode Codec Segment Num GoTime GoParse Records Store StoreInv StoreSubmit GatewayId Config ConfigValid.
From S2P Require Import Addr Router DlrAggregate Dispatch DispatchSubmit DispatchSend Workers DispatchRun.

(** ** Construction *)

Lemma duration_or_positive text d : 0 < d -> 0 < duration_or text d.
Proof. intros H. unfold duration_or. destruct (ParseDuration text) as [x|]; [|done]. destruct (Z.leb_spec x 0); lia. Qed.

Lemma positive_or_positive v d : 0 < d -> 0 < positive_or v d.
Proof. intros H. unfold positive_or. destruct (Z.leb_spec v 0); lia. Qed.

(** Whatever the configuration, the settings of a dispatcher are usable. *)
Theorem new_settings_positive c s :
  let '(d, lp) := New c s in
  0 < d_pendingTTL d /\ 0 < d_claimTimeout d /\ 0 < d_workers d /\ 0 < d_claimLimit d /\ 0 < d_maxAttempts d
  /\ 0 < lp_pendingSweep lp /\ 0 < lp_perWorkerConc lp.
Proof.
  unfold New. cbn [d_pendingTTL d_claimTimeout d_workers d_claimLimit d_maxAttempts lp_pendingSweep lp_perWorkerConc normalizeDispatcherConfig di_Workers
    di_PerWorkerConcurrency di_ClaimLimit di_MaxAttempts].
  split_and!; first [apply duration_or_positive; unfold Minute, Second; lia|apply positive_or_positive; lia].
Qed.

(** The interval of the workers is computed in 64 bits: a valid configuration can
    make it negative, which ends the process at the first ticker. *)
Example poll_interval_overflows :
  let c := mkDispatcherConfig 10 10 20 9223372036855 "30m" 5 "60s" "1m" (Some true) in
  validate_dispatcher c = Ok tt /\ lp_pollInterval (New c NewMemory).2 < 0.
Proof. vm_compute. by split. Qed.

(** ** Counting goroutines *)

Lemma length_filter_alter {A} (P : A -> bool) (f : A -> A) (l : list A) i x :
  l !! i = Some x ->
  (length (filter (fun t => P t = true) (alter f i l)) + (if P x then 1 else 0)
   = length (filter (fun t => P t = true) l) + (if P (f x) then 1 else 0))%nat.
Proof.
  revert i. induction l as [|y l IH]; intros [|i] H; try done.
  - injection H as ->. cbn [alter list_alter]. rewrite !filter_cons. destruct (P x) eqn:E1, (P (f x)) eqn:E2; repeat case_decide; try done; cbn [length]; lia.
  - cbn [alter list_alter]. rewrite !filter_cons. specialize (IH i H). change (list_alter f i l) with (alter f i l). destruct (decide (P y = true)); cbn [length]; lia.
Qed.

Lemma count_set_stage P st i t r :
  rn_tasks r !! i = Some t -> count P (set_stage st i r) = count P r - (if P t then 1 else 0) + (if P (t.1, st) then 1 else 0).
Proof.
  intros H. unfold count, set_stage. cbn [rn_tasks rn_set_tasks]. pose proof (length_filter_alter P (fun t => (t.1, st)) _ i t H) as E.
  destruct (P t), (P (t.1, st)); lia.
Qed.

Lemma in_stage_pair w st w' st' : in_stage w st (w', st') = bool_decide (w' = w) && bool_decide (st' = st).
Proof. unfold in_stage. repeat case_bool_decide; naive_solver. Qed.

Lemma count_nonneg P r : 0 <= count P r.
Proof. unfold count. lia. Qed.

Lemma count_zero P r : (forall i t, rn_tasks r !! i = Some t -> P t = false) -> count P r = 0.
Proof.
  intros H. unfold count. assert (forall l, (forall t, t ∈ l -> P t = false) -> length (filter (fun t => P t = true) l) = 0%nat) as E.
  { intros l. induction l as [|t l IH]; intros Hl; [done|]. rewrite filter_cons_False by (rewrite Hl; [done|by left]). apply IH. intros x Hx. apply Hl. by right. }
  rewrite E; [done|]. intros t [i Hi]%list_elem_of_lookup. by apply (H i).
Qed.

Lemma count_positive P r i t : rn_tasks r !! i = Some t -> P t = true -> 0 < count P r.
Proof.
  intros Hi Hp. unfold count. assert (t ∈ filter (fun t => P t = true) (rn_tasks r)) as H by (apply list_elem_of_filter; split; [done|by eapply list_elem_of_lookup_2]).
  destruct (filter _ _); [by apply not_elem_of_nil in H|]. cbn. lia.
Qed.

(** ** The invariant *)

Section inv.
Context (claimLimit perWorkerConc : Z) (claimTimeout : duration) (requeueLimit : Z).
Context (Hconc : 0 < perWorkerConc).

Abbreviation act := (act claimLimit perWorkerConc claimTimeout requeueLimit).
Abbreviation acts := (acts claimLimit perWorkerConc claimTimeout requeueLimit).

(** Nothing is left to wait for. *)
Definition gone (r : run) : Prop :=
  (forall w l, rn_workers r !! w = Some l -> l = Gone) /\ (forall k l, rn_dlr r !! k = Some l -> l = Left)
  /\ rn_requeue r = false /\ rn_sweep r = SweepGone.

Lemma all_gone_spec r : all_gone r = true <-> gone r.
Proof.
  unfold all_gone, gone. rewrite !andb_true_iff, !negb_true_iff, !forallb_forall, bool_decide_eq_true. split.
  - intros (((H1 & H2) & ->) & ->). split_and!; [| |done..].
    + intros w l Hw. apply (bool_decide_eq_true (l = Gone)), H1, list_elem_of_In. by eapply list_elem_of_lookup_2.
    + intros k l Hk. assert (has_left l = true) as E by (apply H2, list_elem_of_In; by eapply list_elem_of_lookup_2). by destruct l.
  - intros (H1 & H2 & -> & ->). split_and!; [| |done..].
    + intros l [w Hw]%list_elem_of_In%list_elem_of_lookup. apply bool_decide_eq_true. eauto.
    + intros l [k Hk]%list_elem_of_In%list_elem_of_lookup. by rewrite (H2 k l Hk).
Qed.

Record run_ok (r : run) : Prop := {
  ro_len : length (rn_tasks r) = length (sy_tasks (rn_sys r));
  ro_cap : forall w, count (in_stage w Queued) r + taken w r <= perWorkerConc;
  ro_queued : forall i w, rn_tasks r !! i = Some (w, Queued) -> rn_workers r !! w = Some Starting;
  ro_owner : forall i w st, rn_tasks r !! i = Some (w, st) -> is_Some (rn_workers r !! w);
  ro_gone : forall i w st, rn_tasks r !! i = Some (w, st) -> rn_workers r !! w = Some Gone -> st = Finished;
  ro_cancelled : rn_close r <> Open -> rn_cancelled r = true;
  ro_closed : rn_close r = Flushing \/ rn_close r = Closed -> gone r;
  ro_calls : forall i, i ∈ rn_calls r -> stage_at i r = Some Running }.

(** Steps of the system that start no task keep the number of tasks. *)
Lemma sys_tasks_length e y :
  match e with EClaim _ _ _ => False | _ => True end -> length (sy_tasks (sys_step e y)) = length (sy_tasks y).
Proof. intros He. destruct e; try done; cbn; repeat case_match; cbn; by rewrite ?length_alter. Qed.

Lemma run_ok_sys y r : run_ok r -> length (sy_tasks y) = length (sy_tasks (rn_sys r)) -> run_ok (rn_set_sys y r).
Proof. intros [] E. split; try done. cbn. by rewrite E. Qed.

(** What a goroutine becomes. *)
Lemma run_ok_stage st i w st0 r :
  run_ok r -> rn_tasks r !! i = Some (w, st0) -> st <> Queued -> i ∉ rn_calls r ->
  (st = Running -> st0 = Queued) -> (rn_workers r !! w = Some Gone -> st = Finished) ->
  run_ok (set_stage st i r).
Proof.
  intros R Hi Hq Hcall Hrun Hg. pose proof R as []. split; try done.
  - cbn. by rewrite length_alter.
  - intros w'. specialize (ro_cap0 w'). pose proof (count_set_stage (in_stage w' Queued) st i _ r Hi) as E1. pose proof (count_set_stage (in_stage w' Running) st i _ r Hi) as E2.
    unfold taken in *. rewrite E1, E2. cbn [fst]. rewrite !in_stage_pair.
    assert (st = Running -> st0 = Queued) as Hrun' by done. clear - ro_cap0 Hq Hrun'.
    destruct (bool_decide (w = w')), st0, st; try done; try (by specialize (Hrun' eq_refl)); cbn [andb]; repeat case_bool_decide; try congruence; lia.
  - intros k w' H. cbn in H. destruct (decide (k = i)) as [->|Hne]; [|rewrite list_lookup_alter_ne in H by done; eauto].
    rewrite list_lookup_alter_eq, Hi in H. cbn in H. congruence.
  - intros k w' st' H. cbn in H. destruct (decide (k = i)) as [->|Hne]; [|rewrite list_lookup_alter_ne in H by done; eauto].
    rewrite list_lookup_alter_eq, Hi in H. cbn in H. simplify_eq. eauto.
  - intros k w' st' H Hw. cbn in H. destruct (decide (k = i)) as [->|Hne]; [|rewrite list_lookup_alter_ne in H by done; eauto].
    rewrite list_lookup_alter_eq, Hi in H. cbn in H. simplify_eq. by apply Hg.
  - intros k Hk. unfold stage_at, set_stage. cbn. rewrite list_lookup_alter_ne by (by intros ->). by apply ro_calls0.
Qed.

(** A goroutine that is not running has no call under way. *)
Lemma not_calling i st r : run_ok r -> stage_at i r = Some st -> st <> Running -> i ∉ rn_calls r.
Proof. intros R Hi Hst Hin. apply (ro_calls _ R) in Hin. congruence. Qed.

(** What a worker's loop becomes, with no goroutine of it queued. *)
Lemma run_ok_worker w l l0 r :
  run_ok r -> rn_workers r !! w = Some l0 -> l0 <> Gone -> (forall i, rn_tasks r !! i <> Some (w, Queued)) ->
  (l = Gone -> forall i st, rn_tasks r !! i = Some (w, st) -> st = Finished) ->
  run_ok (rn_set_workers (<[w := l]> (rn_workers r)) r).
Proof.
  intros [] Hw Hl0 Hq Hg. split; try done; cbn [rn_tasks rn_workers rn_close rn_set_workers].
  - intros i w' H. destruct (decide (w' = w)) as [->|Hne]; [by destruct (Hq i)|]. rewrite list_lookup_insert_ne by done. eauto.
  - intros i w' st H. destruct (decide (w' = w)) as [->|Hne]; [rewrite list_lookup_insert_eq by (by eapply lookup_lt_Some); eauto|].
    rewrite list_lookup_insert_ne by done. eauto.
  - intros i w' st H Hw'. destruct (decide (w' = w)) as [->|Hne].
    + rewrite list_lookup_insert_eq in Hw' by (by eapply lookup_lt_Some). injection Hw' as ->. by apply (Hg eq_refl i).
    + rewrite list_lookup_insert_ne in Hw' by done. eauto.
  - intros Hc. destruct (ro_closed0 Hc) as [H _]. by destruct (Hl0 (H _ _ Hw)).
Qed.

(** Claiming: as many goroutines are queued as there are places left. *)
Lemma claim_new now worker limit y :
  let y' := sys_step (EClaim now worker limit) y in
  exists items, Z.of_nat (length items) <= (if limit <=? 0 then 1 else limit) /\ sy_tasks y' = sy_tasks y ++ items.
Proof.
  cbn. unfold ClaimOutbox. eexists. split; [|reflexivity]. rewrite !length_fmap. unfold claim_candidates. rewrite length_take.
  destruct (Z.leb_spec limit 0); lia.
Qed.
Lemma filter_replicate {A} (P : A -> bool) n x :
  length (filter (fun t => P t = true) (replicate n x)) = if P x then n else 0%nat.
Proof. induction n as [|n IH]; [by destruct (P x)|]. cbn [replicate]. rewrite filter_cons. destruct (P x) eqn:E; case_decide; try done; cbn [length]; by rewrite IH. Qed.

Lemma claim_batch_room limit cap running n : claim_batch limit cap running = Some n -> 0 < cap - running /\ n <= cap - running.
Proof. unfold claim_batch. destruct (Z.leb_spec (cap - running) 0); [done|]. destruct (Z.ltb_spec (cap - running) limit); intros [= <-]; lia. Qed.

Lemma run_ok_tick w now r : run_ok r -> run_ok (act (Tick w now) r).
Proof.
  intros R. unfold DispatchRun.act. destruct (rn_workers r !! w) as [[]|] eqn:Hw; try done.
  destruct (claim_batch claimLimit perWorkerConc (taken w r)) as [limit|] eqn:Hb; [|done]. apply claim_batch_room in Hb as [Hav Hlim].
  destruct (claim_new now (worker_name w) limit (rn_sys r)) as (items & Hn & Ey). set (y := sys_step _ _) in *. clearbody y.
  assert (length (sy_tasks y) - length (sy_tasks (rn_sys r)) = length items)%nat as -> by (rewrite Ey, length_app; lia).
  assert (forall i, rn_tasks r !! i <> Some (w, Queued)) as Hq by (intros i Hi; pose proof (ro_queued _ R _ _ Hi); congruence).
  assert (Z.of_nat (length items) + taken w r <= perWorkerConc) as Hsum by (destruct (Z.leb_spec limit 0); lia).
  assert (forall w', count (in_stage w' Queued) r = 0 \/ w' <> w) as Hz.
  { intros w'. destruct (decide (w' = w)) as [->|]; [left|by right]. apply count_zero. intros i t Hi. unfold in_stage. case_bool_decide; [|done]. subst t. by destruct (Hq i). }
  pose proof R as []. split; cbn [rn_tasks rn_workers rn_sys rn_close rn_cancelled rn_set_workers rn_set_tasks rn_set_sys].
  - rewrite Ey, !length_app, length_replicate. lia.
  - intros w'. unfold taken, count. cbn [rn_tasks rn_set_workers rn_set_tasks rn_set_sys]. rewrite !filter_app, !length_app, !filter_replicate, !in_stage_pair.
    specialize (ro_cap0 w'). destruct (Hz w') as [E|Hne].
    + unfold taken, count in *. destruct (decide (w = w')) as [<-|Hne]; [rewrite (bool_decide_eq_true_2 (w = w)) by done|rewrite (bool_decide_eq_false_2 (w = w')) by done];
        cbn [andb]; repeat case_bool_decide; try congruence; lia.
    + rewrite (bool_decide_eq_false_2 (w = w')) by done. cbn [andb]. unfold taken, count in *. lia.
  - intros i w' H. apply lookup_app_Some in H as [H|[_ H]].
    + destruct (decide (w' = w)) as [->|Hne]; [by destruct (Hq i)|]. rewrite list_lookup_insert_ne by done. eauto.
    + apply lookup_replicate in H as [[= ->] _]. apply list_lookup_insert_eq. by eapply lookup_lt_Some.
  - intros i w' st H. apply lookup_lt_is_Some. rewrite length_insert. apply lookup_lt_is_Some. apply lookup_app_Some in H as [H|[_ H]]; [eauto|].
    apply lookup_replicate in H as [[= -> _] _]. eauto.
  - intros i w' st H Hg. destruct (decide (w' = w)) as [->|Hne]; [by rewrite list_lookup_insert_eq in Hg by by eapply lookup_lt_Some|].
    rewrite list_lookup_insert_ne in Hg by done. apply lookup_app_Some in H as [H|[_ H]]; [eauto|]. apply lookup_replicate in H as [[= -> _] _]. done.
  - done.
  - intros Hc. destruct (ro_closed0 Hc) as [H _]. by discriminate (H _ _ Hw).
  - intros i Hi. pose proof (ro_calls0 i Hi) as H. unfold stage_at in *. cbn [rn_tasks rn_set_workers rn_set_tasks rn_set_sys].
    apply fmap_Some in H as (t & Ht & ->). by rewrite (lookup_app_l_Some _ _ _ _ Ht).
Qed.

(** A worker that stops gives up what it has not started. *)
Lemma length_abandon w y ts : length ts = length (sy_tasks y) -> length (abandon w y ts) = length (sy_tasks y).
Proof. intros E. unfold abandon. rewrite length_zip_with. lia. Qed.

Lemma forgo_cases w t : (t = (w, Queued) /\ forgo w t = (w, Finished)) \/ (t <> (w, Queued) /\ forgo w t = t).
Proof. unfold forgo, in_stage. case_bool_decide; auto. Qed.

Lemma forgo_filter w (P : nat * stage -> bool) ts :
  P (w, Finished) = false ->
  (length (filter (fun t => P t = true) (forgo w <$> ts)) <= length (filter (fun t => P t = true) ts))%nat.
Proof.
  intros HP. induction ts as [|t ts IH]; [done|]. cbn [fmap list_fmap]. rewrite (filter_cons _ t). destruct (forgo_cases w t) as [[-> ->]|[_ ->]].
  - rewrite filter_cons_False by by rewrite HP. case_decide; cbn [length]; lia.
  - rewrite filter_cons. case_decide; cbn [length]; lia.
Qed.

Lemma forgo_lookup w (ts : list (nat * stage)) (i : nat) w' st :
  (forgo w <$> ts) !! i = Some (w', st) -> exists st0, ts !! i = Some (w', st0) /\ (st = st0 /\ (w', st) <> (w, Queued) \/ st0 = Queued /\ st = Finished /\ w' = w).
Proof.
  rewrite list_lookup_fmap. intros (t & Hi & E)%fmap_Some. destruct (forgo_cases w t) as [[Ht H]|[Hne H]]; rewrite H in E.
  - injection E as -> ->. rewrite Ht in Hi. eauto 10.
  - subst t. eauto 10.
Qed.

Lemma run_ok_stop w r : run_ok r -> run_ok (act (Stop w) r).
Proof.
  intros R. unfold DispatchRun.act. destruct (negb (rn_cancelled r)); [done|].
  assert (forall l0, rn_workers r !! w = Some l0 -> l0 <> Gone -> run_ok (rn_set_workers (<[w := Draining]> (rn_workers r))
    (rn_set_tasks (forgo w <$> rn_tasks r) (rn_set_sys (mkSystem (sy_store (rn_sys r)) (abandon w (rn_sys r) (rn_tasks r)) (sy_sent (rn_sys r))) r)))) as Hstop.
  { intros l0 Hw Hl0. set (r1 := rn_set_tasks _ _).
    assert (run_ok r1) as R1; [|apply (run_ok_worker w Draining l0 r1 R1 Hw Hl0); [|done]; intros i Hi; cbn in Hi; apply forgo_lookup in Hi as (st0 & _ & [[_ H]|(_ & H & _)]); [by apply H|done]].
    pose proof R as []. split; cbn [rn_tasks rn_workers rn_sys rn_close rn_cancelled rn_set_tasks rn_set_sys r1 sy_tasks]; try done.
    - rewrite length_fmap, length_abandon; done.
    - intros w'. specialize (ro_cap0 w'). unfold taken, count in *. cbn [rn_tasks rn_set_tasks rn_set_sys r1].
      pose proof (forgo_filter w (in_stage w' Queued) (rn_tasks r)) as E1. pose proof (forgo_filter w (in_stage w' Running) (rn_tasks r)) as E2.
      rewrite in_stage_pair in E1, E2. rewrite (bool_decide_eq_false_2 (Finished = Queued)) in E1 by done. rewrite (bool_decide_eq_false_2 (Finished = Running)) in E2 by done.
      rewrite andb_false_r in E1, E2. specialize (E1 eq_refl). specialize (E2 eq_refl). lia.
    - intros i w' H. apply forgo_lookup in H as (st0 & H & [[<- _]|(_ & H' & _)]); [eauto|done].
    - intros i w' st H. apply forgo_lookup in H as (st0 & H & _). eauto.
    - intros i w' st H Hg. apply forgo_lookup in H as (st0 & H & [[<- _]|(_ & H' & _)]); [eauto|done].
    - intros i Hi. specialize (ro_calls0 i Hi). unfold stage_at in *. cbn [rn_tasks rn_set_tasks rn_set_sys r1]. apply fmap_Some in ro_calls0 as (t & Ht & E).
      rewrite list_lookup_fmap, Ht. cbn. destruct (forgo_cases w t) as [[-> _]|[_ ->]]; [done|]. by rewrite <- E. }
  destruct (rn_workers r !! w) as [[]|] eqn:Hw; try done; by eapply Hstop.
Qed.

(** The steps of a goroutine. *)
Lemma run_ok_start_one w r : run_ok r -> run_ok (act (Start w) r).
Proof.
  intros R. unfold DispatchRun.act. destruct (rn_workers r !! w) as [[]|] eqn:Hw; try done.
  unfold next_queued. destruct (list_find _ _) as [[i t]|] eqn:Hf; cbn [fmap option_fmap option_map fst].
  - apply list_find_Some in Hf as (Hi & Ht & _). apply bool_decide_eq_true in Ht as ->. destruct (_ <? _); [|done].
    apply (run_ok_stage Running i w Queued); try done; [|congruence]. apply (not_calling i Queued); [done| |done]. unfold stage_at. by rewrite Hi.
  - apply (run_ok_worker w AtSelect Starting); try done. intros i Hi. apply list_find_None in Hf. rewrite Forall_forall in Hf.
    apply (Hf (w, Queued)); [by eapply list_elem_of_lookup_2|]. by apply bool_decide_eq_true.
Qed.

Lemma called_back_spec i r :
  called_back i r = true <-> stage_at i r = Some Running /\ phase_at i r = Some Over /\ i ∉ rn_calls r.
Proof. unfold called_back. rewrite !andb_true_iff, !bool_decide_eq_true. tauto. Qed.

Lemma run_ok_release i r : run_ok r -> run_ok (act (Release i) r).
Proof.
  intros R. unfold DispatchRun.act. destruct (called_back i r) eqn:Hb; [|done]. apply called_back_spec in Hb as (Hs & _ & Hc).
  unfold stage_at in Hs. apply fmap_Some in Hs as ([w st] & Hi & [= <-]). apply (run_ok_stage Released i w Running); try done.
  intros Hg. pose proof (ro_gone _ R _ _ _ Hi Hg). done.
Qed.

Lemma run_ok_finish i r : run_ok r -> run_ok (act (Finish i) r).
Proof.
  intros R. unfold DispatchRun.act. case_bool_decide as Hs; [|done]. pose proof (not_calling i Released r R Hs ltac:(done)).
  unfold stage_at in Hs. apply fmap_Some in Hs as ([w st] & Hi & [= <-]). by apply (run_ok_stage Finished i w Released).
Qed.

Lemma run_ok_exit w r : run_ok r -> run_ok (act (Exit w) r).
Proof.
  intros R. unfold DispatchRun.act. destruct (rn_workers r !! w) as [[]|] eqn:Hw; try done. destruct (Z.eqb_spec (count (in_flight w) r) 0) as [Hz|]; [|done].
  apply (run_ok_worker w Gone Draining); try done; [intros i Hi; pose proof (ro_queued _ R _ _ Hi); congruence|]. intros _ i st Hi.
  destruct st; [pose proof (ro_queued _ R _ _ Hi); congruence| | |done];
    (pose proof (count_positive (in_flight w) r i _ Hi) as Hp; unfold in_flight in Hp; rewrite !in_stage_pair in Hp;
     rewrite (bool_decide_eq_true_2 (w = w)) in Hp by done; specialize (Hp eq_refl); unfold in_flight in Hz; lia).
Qed.

Lemma run_ok_call i r : run_ok r -> run_ok (act (Call i) r).
Proof.
  intros R. unfold DispatchRun.act. case_bool_decide as Hs; [|done]. destruct (bool_decide _); [|done]. cbn [andb].
  pose proof (run_ok_sys _ r R (sys_tasks_length (ESend i) (rn_sys r) I)) as []. split; try done.
  intros k Hk. cbn in Hk. apply elem_of_cons in Hk as [->|Hk]; [done|]. by apply ro_calls0.
Qed.

(** The loops other than the workers': they run on while [Close] waits. *)
Lemma run_ok_dlr (l : list dlr_loop) r : run_ok r -> (gone r -> forall k x, l !! k = Some x -> x = Left) -> run_ok (rn_set_dlr l r).
Proof. intros [] H. split; try done. intros Hc. pose proof (ro_closed0 Hc) as G. destruct G as (? & ? & ? & ?). split_and!; [done| |done..]. cbn. apply H. by apply ro_closed0. Qed.

Lemma run_ok_handling k x y r : run_ok r -> rn_dlr r !! k = Some x -> x <> Left -> run_ok (rn_set_dlr (<[k := y]> (rn_dlr r)) r).
Proof. intros R Hk Hx. apply run_ok_dlr; [done|]. intros (_ & H & _). by destruct Hx, (H _ _ Hk). Qed.

Lemma run_ok_sweep x r : run_ok r -> (rn_sweep r = SweepGone -> x = SweepGone) -> run_ok (rn_set_sweep x r).
Proof. intros [] H. split; try done. intros Hc. destruct (ro_closed0 Hc) as (? & ? & ? & Hs). split_and!; try done. cbn. by apply H. Qed.

(** Every step keeps the invariant. *)
Lemma run_ok_act a r : run_ok r -> run_ok (act a r).
Proof.
  intros R. destruct a; first [by apply run_ok_tick|by apply run_ok_start_one|by apply run_ok_stop|by apply run_ok_release|by apply run_ok_finish|by apply run_ok_exit|by apply run_ok_call|unfold DispatchRun.act].
  - destruct (bool_decide _); [|done]. by apply run_ok_sys, sys_tasks_length.
  - destruct R. split; try done. intros k Hk. cbn in Hk. apply list_elem_of_filter in Hk as [_ Hk]. by apply ro_calls0.
  - destruct (bool_decide _); [|done]. by apply run_ok_sys, sys_tasks_length.
  - destruct (called_back _ _); [|done]. by apply run_ok_sys, sys_tasks_length.
  - destruct (rn_requeue r); [|done]. by apply run_ok_sys, sys_tasks_length.
  - destruct (rn_cancelled r) eqn:Hc; [|done]. destruct R. split; try done. intros H. destruct (ro_closed0 H) as (? & ? & ? & ?). done.
  - destruct (rn_sweep r) eqn:E; try done. apply run_ok_sweep; [done|congruence].
  - destruct (rn_sweep r); try done. by apply run_ok_sys, sys_tasks_length.
  - destruct (rn_sweep r) eqn:E; try done. apply run_ok_sweep; [done|congruence].
  - destruct (rn_sweep r) eqn:E; try done. destruct (rn_cancelled r); [|done]. by apply run_ok_sweep.
  - destruct (rn_dlr r !! k) as [[]|] eqn:Hk; try done. destruct (rn_ch r) as [|d ch]; [done|].
    apply (run_ok_handling k Waiting (Handling d) (rn_set_ch ch r)); try done. destruct R. by split.
  - destruct (rn_dlr r !! k) as [[]|]; try done. by apply run_ok_sys, sys_tasks_length.
  - destruct (rn_dlr r !! k) as [[]|] eqn:Hk; try done. by eapply run_ok_handling.
  - destruct (rn_dlr r !! k) as [[]|] eqn:Hk; try done. destruct (rn_cancelled r); [|done]. by eapply run_ok_handling.
  - destruct (_ <? _)%nat; destruct R; by split.
  - destruct (rn_bg r !! k); [|done]. by apply run_ok_sys, sys_tasks_length.
  - destruct R; by split.
  - destruct R; by split.
  - by apply run_ok_sys, sys_tasks_length.
  - destruct (rn_close r) eqn:Hc; try done. destruct R. split; try done. cbn. by intros [|].
  - destruct (rn_close r) eqn:Hc; try done. destruct (all_gone r) eqn:Hg; [|done]. apply all_gone_spec in Hg. destruct R. by split.
  - destruct (rn_close r) eqn:Hc; try done. destruct R. split; try done. intros _. apply ro_closed0. by left.
Qed.

Lemma run_ok_start n s : run_ok (StartWorkers n s).
Proof.
  split; try done.
  - intros w. cbn. unfold taken, count. cbn. lia.
  - by intros [|].
  - intros i Hi. by apply not_elem_of_nil in Hi.
Qed.

Lemma run_ok_acts l r : run_ok r -> run_ok (acts l r).
Proof. revert r. induction l as [|a l IH]; intros r R; [done|]. cbn. apply IH. by apply run_ok_act. Qed.

(** A worker never claims more items than it can run: those it claimed and has
    not started and those running are together no more than its concurrency,
    so it never waits for a place. *)
Theorem worker_capacity n s l w :
  let r := acts l (StartWorkers n s) in
  count (in_stage w Queued) r + taken w r <= perWorkerConc
  /\ forall i, rn_workers r !! w = Some Starting -> next_queued w r = Some i -> stage_at i (act (Start w) r) = Some Running.
Proof.
  cbn zeta. pose proof (run_ok_acts l _ (run_ok_start n s)) as R. set (r := acts l _) in *. clearbody r. split; [apply (ro_cap _ R)|].
  intros i Hw Hq. unfold DispatchRun.act. rewrite Hw, Hq. unfold next_queued in Hq. apply fmap_Some in Hq as ([k t] & Hf & ->).
  apply list_find_Some in Hf as (Hi & Ht & _). pose proof (count_positive _ r k t Hi Ht). pose proof (ro_cap _ R w). cbn [fst].
  rewrite (proj2 (Z.ltb_lt _ _)) by lia. unfold stage_at, set_stage. cbn [rn_tasks rn_set_tasks]. by rewrite list_lookup_alter_eq, Hi.
Qed.

(** ** Calls of providers *)

(** Tasks some of which are given up. *)
Lemma sys_ok_forgo y ts :
  sys_ok y -> Forall2 (fun t t' => t' = t \/ t' = set_phase Over t) (sy_tasks y) ts -> sys_ok (mkSystem (sy_store y) ts (sy_sent y)).
Proof.
  intros Hok HF.
  assert (live_ids ts `sublist_of` live_ids (sy_tasks y)) as Hsub.
  { clear - HF. induction HF as [|t t' l l' H _ IH]; [done|]. rewrite !live_ids_cons. destruct H as [->| ->]; [by apply sublist_app|].
    change (live (set_phase Over t)) with false. cbn [app]. by apply sublist_inserts_l. }
  assert (forall t, t ∈ ts -> tk_phase t <> Over -> t ∈ sy_tasks y) as Hin.
  { clear - HF. induction HF as [|t t' l l' H _ IH]; intros x Hx Hp; [by apply not_elem_of_nil in Hx|]. apply elem_of_cons in Hx as [->|Hx]; [|right; by apply IH].
    destruct H as [->| ->]; [by left|done]. }
  split; cbn [sy_tasks sy_store sy_sent]; [apply (so_wf _ Hok)| | | |apply (so_sent _ Hok)|].
  - eapply sublist_NoDup; [apply (so_live _ Hok)|exact Hsub].
  - intros t Ht Hp. apply (so_holding _ Hok); [apply Hin; [done|congruence]|done].
  - intros t Ht Hp. apply (so_marked _ Hok); [apply Hin; [done|congruence]|done].
  - intros id Hid. destruct (so_past _ Hok id Hid) as [H1 H2]. split; [done|]. intros H. apply H2. by eapply elem_of_sublist.
Qed.

Definition run_timely (a : action) (r : run) : Prop :=
  match a with Requeue now order => rn_requeue r = true -> timely (ERequeue (now - claimTimeout) requeueLimit order) (rn_sys r) | _ => True end.

Fixpoint runs_timely (l : list action) (r : run) : Prop :=
  match l with [] => True | a :: l => run_timely a r /\ runs_timely l (act a r) end.

Lemma sys_ok_act a r : run_ok r -> sys_ok (rn_sys r) -> run_timely a r -> sys_ok (rn_sys (act a r)).
Proof.
  intros R Hok Ht. destruct a; unfold DispatchRun.act; repeat case_match; try done; cbn [rn_sys rn_set_sys rn_set_tasks rn_set_workers rn_set_dlr rn_set_ch rn_set_calls rn_set_sweep rn_set_bg rn_set_sink set_stage];
    try (by apply sys_ok_step; [|apply Ht]).
  all: apply sys_ok_forgo; [done|]; unfold abandon; pose proof (ro_len _ R) as E; clear - E; revert E; generalize (rn_tasks r);
    induction (sy_tasks (rn_sys r)) as [|t l IH]; intros [|x k] E; try done; cbn; constructor; [destruct (in_stage w Queued x); auto|]; apply IH; by injection E.
Qed.

(** While no claim goes stale before its goroutine is over, the workers of a
    dispatcher call the provider at most once for each item, whatever the
    order of their steps. *)
Theorem dispatcher_calls_once n s l :
  wf s -> runs_timely l (StartWorkers n s) -> NoDup (sy_sent (rn_sys (acts l (StartWorkers n s)))).
Proof.
  intros Hwf. assert (forall r, run_ok r -> sys_ok (rn_sys r) -> runs_timely l r -> sys_ok (rn_sys (acts l r))) as H.
  { induction l as [|a l IH]; intros r R Hok Ht; [done|]. destruct Ht as [Ha Hl]. cbn. apply IH; [by apply run_ok_act|by apply sys_ok_act|done]. }
  intros Ht. apply so_sent, H; [apply run_ok_start| |done]. cbn. split; cbn; try done; [constructor| | |constructor|];
    intros x Hx; by apply not_elem_of_nil in Hx.
Qed.

(** ** Shutting down *)

(** What is not of the goroutines [Close] waits for: submissions, reports that
    come in, and the goroutines started for reports when the channel was full. *)
Definition outside (a : action) : bool :=
  match a with Other _ | Report _ | BgCall _ _ | BgDone _ | SetSink _ => true | _ => false end.

(** Everything [Close] waits for has ended. *)
Definition over (r : run) : Prop :=
  gone r /\ rn_close r = Closed /\ rn_cancelled r = true /\ rn_calls r = [] /\ forall i st, stage_at i r = Some st -> st = Finished.

Lemma closed_over r : run_ok r -> rn_close r = Closed -> over r.
Proof.
  intros R Hc. pose proof (ro_closed _ R (or_intror Hc)) as G.
  assert (forall i st, stage_at i r = Some st -> st = Finished) as Hst.
  { intros i st Hi. unfold stage_at in Hi. apply fmap_Some in Hi as ([w st'] & Hi & ->). destruct (ro_owner _ R _ _ _ Hi) as [x Hx].
    pose proof (proj1 G _ _ Hx) as ->. by apply (ro_gone _ R _ _ _ Hi). }
  split_and!; try done.
  - apply (ro_cancelled _ R). by rewrite Hc.
  - destruct (rn_calls r) as [|i l] eqn:E; [done|]. pose proof (ro_calls _ R i) as H. rewrite E in H. specialize (H ltac:(by left)). by apply Hst in H.
Qed.

Lemma over_stuck a r : over r -> outside a = false -> act a r = r.
Proof.
  intros ((Hw & Hd & Hrq & Hsw) & Hc & Hcan & Hcalls & Hst) Ho.
  assert (forall i st, st <> Finished -> bool_decide (stage_at i r = Some st) = false) as Hno
    by (intros i st Hne; apply bool_decide_eq_false; intros E; apply Hst in E; done).
  assert (forall i, called_back i r = false) as Hcb by (intros i; unfold called_back; by rewrite Hno).
  destruct a; try done; unfold DispatchRun.act; rewrite ?Hno, ?Hcb, ?Hrq, ?Hsw, ?Hcan, ?Hc by done; cbn [andb negb]; try done.
  1,2,3,5: destruct (rn_workers r !! w) as [x|] eqn:E; [pose proof (Hw _ _ E) as ->|]; done.
  3-6: destruct (rn_dlr r !! k) as [x|] eqn:E; [pose proof (Hd _ _ E) as ->|]; done.
  all: destruct r; cbn in *; by subst.
Qed.

(** What the steps from outside leave alone. *)
Definition at_rest (r r' : run) : Prop :=
  rn_workers r' = rn_workers r /\ rn_tasks r' = rn_tasks r /\ rn_dlr r' = rn_dlr r /\ rn_calls r' = rn_calls r /\ rn_close r' = rn_close r
  /\ sy_sent (rn_sys r') = sy_sent (rn_sys r) /\ rn_ch r `prefix_of` rn_ch r'.

Lemma at_rest_act a r : over r -> at_rest r (act a r).
Proof.
  intros O. destruct (outside a) eqn:Ho; [|by rewrite over_stuck]. destruct a; try done; unfold DispatchRun.act.
  - destruct (_ <? _)%nat; split_and!; try done. by apply prefix_app_r.
  - destruct (rn_bg r !! k); [|done]. split_and!; try done. cbn. by destruct (_ || _).
  - split_and!; try done. cbn. by destruct (_ || _).
Qed.

Lemma at_rest_trans r1 r2 r3 : at_rest r1 r2 -> at_rest r2 r3 -> at_rest r1 r3.
Proof. intros (E1 & E2 & E3 & E4 & E5 & E6 & P1) (F1 & F2 & F3 & F4 & F5 & F6 & P2). split_and!; try congruence. by etrans. Qed.

(** C31: Once Close has returned, whatever follows, no goroutine it waited for
    takes another step, none is started, no provider is called, and reports in
    the channel stay there. Submissions still reach the store, and so do the
    goroutines OnDLR started for reports that found the channel full, which
    Close does not wait for. *)
Theorem close_ends_all n s l l' a :
  let r := acts l (StartWorkers n s) in
  rn_close r = Closed ->
  let r' := acts l' r in
  at_rest r r' /\ (outside a = false -> act a r' = r').
Proof.
  cbn zeta. pose proof (run_ok_acts l _ (run_ok_start n s)) as R. set (r := acts l _) in *. clearbody r. intros Hc.
  assert (at_rest r (acts l' r) /\ run_ok (acts l' r) /\ rn_close (acts l' r) = Closed) as (H & R' & Hc').
  { revert r R Hc. induction l' as [|b l' IH]; intros r R Hc; [by split_and!|]. cbn. pose proof (at_rest_act b r (closed_over r R Hc)) as H.
    destruct (IH (act b r)) as (H' & ? & ?); [by apply run_ok_act|unfold at_rest in H; intuition congruence|]. split_and!; try done. exact (at_rest_trans _ _ _ H H'). }
  split; [done|]. apply over_stuck. by apply closed_over.
Qed.

(** A way to the end: the workers stop, their goroutines run to their ends, the
    workers leave, the reports in hand are handled and their workers leave. *)
Definition finish_task (i : nat) : list action := [Mark i true; Call i; Answer i; Release i; Finish i].
Definition finish_dlr (k : nat) : list action := [Handled k; Leave k].
Definition shutdown (workers tasks dlrs : nat) : list action :=
  (Stop <$> seq 0 workers) ++ (seq 0 tasks ≫= finish_task) ++ (Exit <$> seq 0 workers) ++ (seq 0 dlrs ≫= finish_dlr) ++ [RequeueStop; Swept; SweepStop; Return; SinkClosed].

Lemma acts_app l l' r : acts (l ++ l') r = acts l' (acts l r).
Proof. unfold DispatchRun.acts. by rewrite foldl_app. Qed.

(** A loop over indexes establishes what each round establishes for its own. *)
Lemma acts_seq (f : nat -> list action) (P : nat -> run -> Prop) n r :
  P 0%nat r -> (forall k x, (k < n)%nat -> P k x -> P (S k) (acts (f k) x)) -> P n (acts (seq 0 n ≫= f) r).
Proof.
  intros H0 Hs. assert (forall k, (k <= n)%nat -> P k (acts (seq 0 k ≫= f) r)) as H; [|by apply H].
  intros k. induction k as [|k IH]; intros Hk; [done|]. rewrite seq_S, bind_app. cbn [mbind list_bind]. rewrite app_nil_r, acts_app. apply Hs; [lia|]. apply IH. lia.
Qed.

Lemma fmap_bind_seq (f : nat -> action) l : f <$> l = l ≫= (fun k => [f k]).
Proof. induction l as [|k l IH]; [done|]. cbn. by rewrite IH. Qed.

(** Closing, with what a round does not touch. *)
Record closing (nw nt nd : nat) (r : run) : Prop := {
  cl_ok : run_ok r;
  cl_close : rn_close r = Closing;
  cl_workers : length (rn_workers r) = nw;
  cl_tasks : length (rn_tasks r) = nt;
  cl_dlr : length (rn_dlr r) = nd }.

Lemma closing_cancelled nw nt nd r : closing nw nt nd r -> rn_cancelled r = true.
Proof. intros C. apply (ro_cancelled _ (cl_ok _ _ _ _ C)). by rewrite (cl_close _ _ _ _ C). Qed.

Lemma closing_act nw nt nd a r :
  closing nw nt nd r -> match a with Tick _ _ | Return | SinkClosed => False | _ => True end -> closing nw nt nd (act a r).
Proof.
  intros C Ha. pose proof (run_ok_act a r (cl_ok _ _ _ _ C)) as R. destruct C as [_ E1 E2 E3 E4].
  split; [exact R|..]; clear R; destruct a; try done; unfold DispatchRun.act; repeat case_match; try done; cbn; rewrite ?length_insert, ?length_alter, ?length_fmap; congruence.
Qed.

Lemma closing_acts nw nt nd l r :
  closing nw nt nd r -> Forall (fun a => match a with Tick _ _ | Return | SinkClosed => False | _ => True end) l -> closing nw nt nd (acts l r).
Proof. intros C H. revert r C. induction H as [|a l Ha _ IH]; intros r C; [done|]. cbn. apply IH. by apply closing_act. Qed.

(** Workers that have stopped. *)
Definition stopped (k : nat) (r : run) : Prop := forall w x, (w < k)%nat -> rn_workers r !! w = Some x -> x = Draining \/ x = Gone.

Lemma stop_round nw nt nd k r : closing nw nt nd r -> stopped k r -> closing nw nt nd (acts [Stop k] r) /\ stopped (S k) (acts [Stop k] r).
Proof.
  intros C Hs. split; [by apply closing_acts; [|repeat constructor]|]. pose proof (closing_cancelled _ _ _ _ C) as Hc. cbn. rewrite Hc. cbn [negb]. intros w x Hw Hx.
  destruct (rn_workers r !! k) as [y|] eqn:Hk.
  - destruct (decide (w = k)) as [->|Hne].
    + destruct y; cbn in Hx; rewrite ?list_lookup_insert_eq in Hx by (by eapply lookup_lt_Some); simplify_eq; eauto; rewrite Hk in Hx; simplify_eq; eauto.
    + destruct y; cbn in Hx; rewrite ?list_lookup_insert_ne in Hx by done; apply (Hs w); [lia|done|lia|done|lia|done|lia|done].
  - destruct (decide (w = k)) as [->|Hne]; [congruence|]. apply (Hs w); [lia|done].
Qed.

(** Goroutines that have ended. *)
Definition ended (k : nat) (r : run) : Prop := forall i st, (i < k)%nat -> stage_at i r = Some st -> st = Queued \/ st = Finished.

Definition same_but (i : nat) (r r' : run) : Prop := rn_workers r' = rn_workers r /\ forall j, j <> i -> stage_at j r' = stage_at j r.

Lemma same_but_refl i r : same_but i r r.
Proof. by split. Qed.

Lemma same_but_act i a r : a ∈ finish_task i -> same_but i r (act a r).
Proof.
  intros Ha. assert (forall st, same_but i r (set_stage st i r)) as Hst.
  { intros st. split; [done|]. intros k Hne. unfold stage_at, set_stage. cbn. by rewrite list_lookup_alter_ne. }
  unfold finish_task in Ha. rewrite !elem_of_cons in Ha. destruct Ha as [->|[->|[->|[->|[->|Ha]]]]]; [..|by apply not_elem_of_nil in Ha];
    unfold DispatchRun.act; repeat case_match; try apply Hst; by split.
Qed.

Lemma same_but_trans i r1 r2 r3 : same_but i r1 r2 -> same_but i r2 r3 -> same_but i r1 r3.
Proof. intros [A1 B1] [A2 B2]. split; [congruence|]. intros k Hk. by rewrite B2, B1. Qed.

Lemma same_but_acts i l r : l ⊆ finish_task i -> same_but i r (acts l r).
Proof.
  revert r. induction l as [|a l IH]; intros r Hl; [apply same_but_refl|]. cbn. eapply same_but_trans; [apply same_but_act|apply IH].
  - apply Hl. by left.
  - intros x Hx. apply Hl. by right.
Qed.

(** A goroutine that runs is marked or not, asks its provider and is answered. *)
Lemma answered_over i r :
  stage_at i r = Some Running -> is_Some (phase_at i r) -> called_back i (act (Answer i) (act (Call i) (act (Mark i true) r))) = true.
Proof.
  intros Hs [ph Hp]. assert (stage_at i (act (Mark i true) r) = Some Running /\ (phase_at i (act (Mark i true) r) = Some Marked \/ phase_at i (act (Mark i true) r) = Some Over)) as [Hs1 Hp1].
  { unfold DispatchRun.act. rewrite bool_decide_eq_true_2 by done. split; [done|]. unfold phase_at in *. apply fmap_Some in Hp as ([it p] & Hi & ->). cbn [rn_sys rn_set_sys sys_step].
    rewrite Hi. destruct p; [|cbn; rewrite Hi; by left|cbn; rewrite Hi; by right].
    destruct (MarkOutboxSending _ _ _) as [s' [?|?]]; cbn; rewrite list_lookup_alter_eq, Hi; cbn; auto. }
  generalize dependent (act (Mark i true) r). intros r1 Hs1 Hp1.
  assert (stage_at i (act (Call i) r1) = Some Running /\ phase_at i (act (Call i) r1) = Some Over) as [Hs2 Hp2].
  { unfold DispatchRun.act. rewrite bool_decide_eq_true_2 by done. destruct Hp1 as [Hp1|Hp1]; [|rewrite bool_decide_eq_false_2 by congruence; done].
    rewrite bool_decide_eq_true_2 by done. split; [done|]. unfold phase_at in *. cbn [andb rn_sys rn_set_calls rn_set_sys sys_step].
    destruct (sy_tasks (rn_sys r1) !! i) as [[it p]|] eqn:Hi; [|done]. injection Hp1 as ->. cbn. by rewrite list_lookup_alter_eq, Hi. }
  apply called_back_spec. split_and!; [exact Hs2|exact Hp2|]. cbn. intros [H _]%list_elem_of_filter. done.
Qed.

Lemma finish_task_ends nw nt nd i r : closing nw nt nd r -> forall st, stage_at i (acts (finish_task i) r) = Some st -> st = Queued \/ st = Finished.
Proof.
  intros C st. change (acts (finish_task i) r) with (act (Finish i) (act (Release i) (act (Answer i) (act (Call i) (act (Mark i true) r))))).
  assert (forall r0, stage_at i r0 = Some Released -> stage_at i (act (Finish i) r0) = Some Finished) as Hfin.
  { intros r0 H. unfold DispatchRun.act. rewrite bool_decide_eq_true_2 by done. unfold stage_at, set_stage in *. cbn. rewrite list_lookup_alter_eq.
    by destruct (rn_tasks r0 !! i). }
  assert (stage_at i r <> Some Running -> stage_at i (act (Release i) (act (Answer i) (act (Call i) (act (Mark i true) r)))) = stage_at i r) as Hskip.
  { intros H. assert (forall r0, stage_at i r0 <> Some Running -> act (Mark i true) r0 = r0 /\ act (Call i) r0 = r0 /\ act (Release i) r0 = r0) as Hno
      by (intros r0 H0; unfold DispatchRun.act, called_back; by rewrite bool_decide_eq_false_2).
    destruct (Hno r H) as (E1 & E2 & _). rewrite E1, E2. by destruct (Hno (act (Answer i) r) H) as (_ & _ & ->). }
  assert (forall r0 st0, stage_at i r0 = Some st0 -> st0 <> Released -> act (Finish i) r0 = r0) as Hkeep
    by (intros r0 st0 H Hne; unfold DispatchRun.act; rewrite bool_decide_eq_false_2; [done|congruence]).
  destruct (stage_at i r) as [[]|] eqn:Hs.
  - rewrite (Hkeep _ Queued), Hskip by (rewrite ?Hskip; done). intros [= <-]. by left.
  - assert (is_Some (phase_at i r)) as Hp.
    { unfold phase_at. apply fmap_is_Some, lookup_lt_is_Some. rewrite <- (ro_len _ (cl_ok _ _ _ _ C)). unfold stage_at in Hs. apply fmap_Some in Hs as (t & Ht & _). by eapply lookup_lt_Some. }
    pose proof (answered_over i r Hs Hp) as Hb. generalize dependent (act (Answer i) (act (Call i) (act (Mark i true) r))). intros r2 _ Hb.
    rewrite Hfin; [intros [= <-]; by right|]. unfold DispatchRun.act. rewrite Hb. apply called_back_spec in Hb as (Hs2 & _). unfold stage_at, set_stage in *. cbn.
    rewrite list_lookup_alter_eq. by destruct (rn_tasks r2 !! i).
  - rewrite Hfin by (rewrite Hskip; done). intros [= <-]. by right.
  - rewrite (Hkeep _ Finished), Hskip by (rewrite ?Hskip; done). intros [= <-]. by right.
  - intros E. unfold DispatchRun.act in E at 1. rewrite bool_decide_eq_false_2 in E by (rewrite Hskip; done). by rewrite Hskip in E.
Qed.

Definition left_workers (k : nat) (r : run) : Prop := forall w x, (w < k)%nat -> rn_workers r !! w = Some x -> x = Gone.
Definition left_dlr (k : nat) (r : run) : Prop := forall i x, (i < k)%nat -> rn_dlr r !! i = Some x -> x = Left.

Lemma exit_round nw nt nd k r :
  closing nw nt nd r -> stopped nw r -> ended nt r -> left_workers k r -> (k < nw)%nat ->
  let r' := acts [Exit k] r in closing nw nt nd r' /\ stopped nw r' /\ ended nt r' /\ left_workers (S k) r'.
Proof.
  intros C Hs He Hl Hk. cbn zeta. split; [by apply closing_acts; [|repeat constructor]|]. cbn.
  destruct (rn_workers r !! k) as [x|] eqn:Hx; [|apply lookup_ge_None in Hx; rewrite (cl_workers _ _ _ _ C) in Hx; lia].
  destruct (Hs _ _ Hk Hx) as [->| ->].
  - rewrite (count_zero (in_flight k) r).
    + cbn. split_and!; [|done|].
      * intros w y Hw Hy. cbn in Hy. destruct (decide (w = k)) as [->|Hne]; [rewrite list_lookup_insert_eq in Hy by (by eapply lookup_lt_Some); simplify_eq; by right|].
        rewrite list_lookup_insert_ne in Hy by done. eauto.
      * intros w y Hw Hy. cbn in Hy. destruct (decide (w = k)) as [->|Hne]; [rewrite list_lookup_insert_eq in Hy by (by eapply lookup_lt_Some); by simplify_eq|].
        rewrite list_lookup_insert_ne in Hy by done. apply (Hl w); [lia|done].
    + intros i [w st] Hi. assert (st = Queued \/ st = Finished) as Hst.
      { apply (He i); [|unfold stage_at; by rewrite Hi]. apply lookup_lt_Some in Hi. rewrite (cl_tasks _ _ _ _ C) in Hi. done. }
      unfold in_flight. rewrite !in_stage_pair. destruct Hst as [->| ->]; rewrite !andb_false_r; done.
  - split_and!; [done|done|]. intros w y Hw Hy. destruct (decide (w = k)) as [->|Hne]; [congruence|]. apply (Hl w); [lia|done].
Qed.

Lemma dlr_round nw nt nd k r :
  closing nw nt nd r -> left_workers nw r -> left_dlr k r ->
  let r' := acts (finish_dlr k) r in closing nw nt nd r' /\ left_workers nw r' /\ left_dlr (S k) r'.
Proof.
  intros C Hw Hl. cbn zeta. pose proof (closing_cancelled _ _ _ _ C) as Hc. split; [by apply closing_acts; [|repeat constructor]|].
  change (acts (finish_dlr k) r) with (act (Leave k) (act (Handled k) r)).
  assert (forall l : list dlr_loop, (forall i x, (i < k)%nat -> l !! i = Some x -> x = Left) -> forall i x, (i < S k)%nat -> <[k := Left]> l !! i = Some x -> x = Left) as Hins.
  { intros l H i x Hi Hx. destruct (decide (i = k)) as [->|Hne]; [|rewrite list_lookup_insert_ne in Hx by done; apply (H i); [lia|done]].
    destruct (decide (k < length l)%nat); [rewrite list_lookup_insert_eq in Hx by done; by simplify_eq|].
    apply lookup_lt_Some in Hx. rewrite length_insert in Hx. lia. }
  destruct (rn_dlr r !! k) as [[| |]|] eqn:Hk; unfold DispatchRun.act; rewrite ?Hk; cbn.
  - rewrite ?Hk, ?Hc. split; [done|]. unfold left_dlr. cbn. by apply Hins.
  - rewrite list_lookup_insert_eq by (by eapply lookup_lt_Some). rewrite Hc. split; [done|]. unfold left_dlr. cbn. apply Hins.
    intros i x Hi Hx. rewrite list_lookup_insert_ne in Hx by lia. eauto.
  - rewrite ?Hk. split; [done|]. intros i x Hi Hx. destruct (decide (i = k)) as [->|Hne]; [congruence|]. apply (Hl i); [lia|done].
  - rewrite ?Hk. split; [done|]. intros i x Hi Hx. destruct (decide (i = k)) as [->|Hne]; [congruence|]. apply (Hl i); [lia|done].
Qed.

Lemma return_closes nw nt nd r :
  closing nw nt nd r -> left_workers nw r -> left_dlr nd r -> rn_close (acts [RequeueStop; Swept; SweepStop; Return; SinkClosed] r) = Closed.
Proof.
  intros C Hw Hd. assert (exists r1, acts [RequeueStop; Swept; SweepStop] r = r1 /\ closing nw nt nd r1 /\ gone r1) as (r1 & E & C1 & G).
  { eexists. split; [reflexivity|]. split; [apply closing_acts; [done|repeat constructor]|]. pose proof (closing_cancelled _ _ _ _ C) as Hc.
    assert (forall w x, rn_workers r !! w = Some x -> x = Gone) as Hw' by (intros w x Hx; apply (Hw w); [|done]; apply lookup_lt_Some in Hx; by rewrite (cl_workers _ _ _ _ C) in Hx).
    assert (forall k x, rn_dlr r !! k = Some x -> x = Left) as Hd' by (intros k x Hx; apply (Hd k); [|done]; apply lookup_lt_Some in Hx; by rewrite (cl_dlr _ _ _ _ C) in Hx).
    clear C Hw Hd. destruct r as [? ? ? ? ? sw ? ? ? ? ? ?]. cbn in Hc, Hw', Hd'. subst. by destruct sw. }
  change (acts [RequeueStop; Swept; SweepStop; Return; SinkClosed] r) with (act SinkClosed (act Return (acts [RequeueStop; Swept; SweepStop] r))).
  rewrite E. unfold DispatchRun.act. rewrite (cl_close _ _ _ _ C1), (proj2 (all_gone_spec r1) G). by destruct (rn_sink r1).
Qed.

Lemma shutdown_closes nw nt nd r : closing nw nt nd r -> rn_close (acts (shutdown nw nt nd) r) = Closed.
Proof.
  intros C. unfold shutdown. rewrite !acts_app, !fmap_bind_seq.
  pose proof (acts_seq (fun k => [Stop k]) (fun k x => closing nw nt nd x /\ stopped k x) nw r) as H1.
  destruct H1 as [C1 S1]; [split; [done|intros w x Hw; lia]|intros k x _ [Cx Sx]; by apply stop_round|]. generalize dependent (acts (seq 0 nw ≫= (fun k => [Stop k])) r). clear C r.
  intros r C S. pose proof (acts_seq finish_task (fun k x => closing nw nt nd x /\ stopped nw x /\ ended k x) nt r) as H2.
  destruct H2 as (C2 & S2 & E2).
  { split_and!; [done|done|intros i st Hi; lia]. }
  { intros k x Hk (Cx & Sx & Ex). destruct (same_but_acts k (finish_task k) x) as [Ew Es]; [done|]. split_and!.
    - by apply closing_acts; [|repeat constructor].
    - unfold stopped. by rewrite Ew.
    - intros i st Hi Hst. destruct (decide (i = k)) as [->|Hne]; [by eapply finish_task_ends|]. rewrite Es in Hst by done. apply (Ex i); [lia|done]. }
  generalize dependent (acts (seq 0 nt ≫= finish_task) r). clear C S r. intros r C S E.
  pose proof (acts_seq (fun k => [Exit k]) (fun k x => closing nw nt nd x /\ stopped nw x /\ ended nt x /\ left_workers k x) nw r) as H3.
  destruct H3 as (C3 & _ & _ & L3); [split_and!; [done..|intros w x Hw; lia]|intros k x Hk (Cx & Sx & Ex & Lx); by apply exit_round|].
  generalize dependent (acts (seq 0 nw ≫= (fun k => [Exit k])) r). clear C S E r. intros r C L.
  pose proof (acts_seq finish_dlr (fun k x => closing nw nt nd x /\ left_workers nw x /\ left_dlr k x) nd r) as H4.
  destruct H4 as (C4 & L4 & D4); [split_and!; [done..|intros i x Hi; lia]|intros k x _ (Cx & Lx & Dx); by apply dlr_round|].
  by eapply return_closes.
Qed.

(** While [Close] waits, what it waits for holds it up. *)
Definition held_up (r : run) (e : action) : Prop :=
  match e with
  | Answer i => i ∈ rn_calls r
  | Handled k => exists d, rn_dlr r !! k = Some (Handling d)
  | Swept => rn_sweep r = Sweeping
  | _ => False
  end.

Lemma held_up_not_gone r e : run_ok r -> held_up r e -> ~ gone r.
Proof.
  intros R He (Hw & Hd & _ & Hs). destruct e; cbn in He; try done; [| |by destruct He as [d H%Hd]].
  - pose proof (ro_calls _ R _ He) as H. unfold stage_at in H. apply fmap_Some in H as ([w st] & Hi & [= <-]). destruct (ro_owner _ R _ _ _ Hi) as [x Hx].
    pose proof (Hw _ _ Hx) as ->. by discriminate (ro_gone _ R _ _ _ Hi Hx).
  - congruence.
Qed.

Lemma held_up_act a e r : a <> e -> held_up r e -> held_up (act a r) e.
Proof.
  intros Hne He. destruct e; cbn in He; try done.
  - assert (forall b, b = a -> i ∈ rn_calls (act b r)) as H; [|by apply (H a)]. intros b Hb. destruct b; unfold DispatchRun.act; repeat case_match; try done; cbn.
    + by right.
    + apply list_elem_of_filter. split; [|done]. intros <-. by subst a.
  - cbn. destruct a; unfold DispatchRun.act; repeat case_match; try done; congruence.
  - destruct He as [d Hd]. assert (forall j x, j <> k -> <[j := x]> (rn_dlr r) !! k = Some (Handling d)) as Hins by (intros j x Hj; by rewrite list_lookup_insert_ne).
    exists d. destruct a as [| | | | | | | | | | | | | | | | |j|j ?|j|j| | | | | | | |]; unfold DispatchRun.act; repeat case_match; try done; apply Hins; congruence.
Qed.

Lemma closing_kept a r : rn_close r = Closing -> ~ gone r -> rn_close (act a r) = Closing.
Proof.
  intros Hc Hg. destruct (all_gone r) eqn:E; [by apply all_gone_spec in E|]. destruct a; unfold DispatchRun.act; rewrite ?Hc, ?E; repeat case_match; done.
Qed.

Lemma held_up_acts l e r : run_ok r -> rn_close r = Closing -> held_up r e -> e ∉ l -> rn_close (acts l r) = Closing.
Proof.
  revert r. induction l as [|a l IH]; intros r R Hc He Hl; [done|]. cbn. apply not_elem_of_cons in Hl as [Hne Hl].
  apply IH; [by apply run_ok_act|by apply closing_kept; [|eapply held_up_not_gone]|by apply held_up_act|done].
Qed.

Lemma shutdown_own nw nt nd : Forall (fun a => outside a = false) (shutdown nw nt nd).
Proof.
  unfold shutdown. rewrite !Forall_app. split_and!; [by apply Forall_fmap, Forall_true| |by apply Forall_fmap, Forall_true| |by repeat constructor];
    apply Forall_bind, Forall_true; intros i; by repeat constructor.
Qed.

(** C28: While Close waits for the goroutines of a dispatcher: it does not return
    before every provider call under way is answered, every report in the
    hands of a worker is handled and the sweep under way has ended, whatever
    else happens; and when these come to an end it can return, within two
    steps for each worker, five for each goroutine started, two for each
    worker of reports and five. *)
Theorem close_waits_then_returns n s l :
  let r := acts l (StartWorkers n s) in
  rn_close r = Closing ->
  (forall e l', held_up r e -> e ∉ l' -> rn_close (acts l' r) = Closing)
  /\ exists l', rn_close (acts l' r) = Closed /\ Forall (fun a => outside a = false) l'
    /\ (length l' <= 2 * length (rn_workers r) + 5 * length (rn_tasks r) + 2 * length (rn_dlr r) + 5)%nat.
Proof.
  cbn zeta. pose proof (run_ok_acts l _ (run_ok_start n s)) as R. set (r := acts l _) in *. clearbody r. intros Hc. split; [intros e l' He Hl; by eapply held_up_acts|].
  exists (shutdown (length (rn_workers r)) (length (rn_tasks r)) (length (rn_dlr r))). split; [by apply shutdown_closes|]. split; [apply shutdown_own|].
  unfold shutdown. rewrite !length_app, !length_fmap, !length_seq. cbn [length].
  assert (forall n k, length (seq k n ≫= finish_task) = (5 * n)%nat) as E1 by (clear; induction n as [|n IH]; intros k; [done|]; cbn [seq mbind list_bind]; rewrite length_app, IH; cbn [finish_task length]; lia).
  assert (forall n k, length (seq k n ≫= finish_dlr) = (2 * n)%nat) as E2 by (clear; induction n as [|n IH]; intros k; [done|]; cbn [seq mbind list_bind]; rewrite length_app, IH; cbn [finish_dlr length]; lia).
  rewrite E1, E2. lia.
Qed.

End inv.


(** ** Examples *)

Definition run_events : list action :=
  [Other (CSubmitAtomic 100 (demo_msg "m0000001") (demo_item "m0000001") demo_opts); Tick 0 200; Start 0; Start 0; Mark 0 false; Call 0;
   Report (mkDLR "p1" "77" "DELIVRD" 0 300); Cancel; Stop 0].

Definition started : run := StartWorkers 1 NewMemory.

Lemma dispatcher_calls_once_witness :
  sy_sent (rn_sys (acts 20 10 (60 * Second) 20 run_events started)) = [1] /\ NoDup (sy_sent (rn_sys (acts 20 10 (60 * Second) 20 run_events started))).
Proof.
  split; [vm_compute; reflexivity|]. apply (dispatcher_calls_once 20 10 (60 * Second) 20 ltac:(lia) 1 NewMemory); [apply wf_NewMemory|vm_compute; repeat split].
Defined.

Lemma worker_capacity_witness :
  let r := acts 20 10 (60 * Second) 20 [Other (CSubmitAtomic 100 (demo_msg "m0000001") (demo_item "m0000001") demo_opts); Tick 0 200] started in
  0 < 10 /\ count (in_stage 0 Queued) r + taken 0 r <= 10.
Proof. split; [lia|]. apply (worker_capacity 20 10 (60 * Second) 20 ltac:(lia) 1 NewMemory). Defined.

(** The call of the provider is under way: Close waits for its answer. *)
Lemma close_waits_then_returns_witness :
  let r := acts 20 10 (60 * Second) 20 run_events started in
  rn_calls r = [0%nat]
  /\ rn_close (acts 20 10 (60 * Second) 20 [Release 0; Exit 0; Leave 0; RequeueStop; Return] r) = Closing
  /\ exists l', rn_close (acts 20 10 (60 * Second) 20 l' r) = Closed.
Proof.
  cbn zeta. split; [vm_compute; reflexivity|].
  destruct (close_waits_then_returns 20 10 (60 * Second) 20 ltac:(lia) 1 NewMemory run_events) as (H1 & l' & H2 & _); [vm_compute; reflexivity|].
  split; [|by exists l']. apply (H1 (Answer 0)); [vm_compute; left|]. rewrite !not_elem_of_cons. split_and!; try done. apply not_elem_of_nil.
Defined.

(** Reports still buffered when the dispatcher closes are never handled. *)
Definition closed_run : list action := run_events ++ shutdown 1 1 1.

Lemma close_ends_all_witness :
  let r := acts 20 10 (60 * Second) 20 closed_run started in
  rn_close r = Closed
  /\ rn_ch r = [mkDLR "p1" "77" "DELIVRD" 0 300]
  /\ act 20 10 (60 * Second) 20 (Take 0) (acts 20 10 (60 * Second) 20 [Report (mkDLR "p1" "78" "DELIVRD" 0 300)] r)
     = acts 20 10 (60 * Second) 20 [Report (mkDLR "p1" "78" "DELIVRD" 0 300)] r.
Proof.
  cbn zeta. split; [vm_compute; reflexivity|]. split; [vm_compute; reflexivity|].
  apply (close_ends_all 20 10 (60 * Second) 20 ltac:(lia) 1 NewMemory closed_run); [vm_compute; reflexivity|reflexivity].
Defined.

(** The goroutine of a report that found the channel full is not waited for: it
    still changes the store after Close has returned. *)
Example report_outlives_close :
  let r := acts 20 10 (60 * Second) 20 (run_events ++ replicate dlr_buffer (Report (mkDLR "p1" "78" "DELIVRD" 0 300)) ++ shutdown 1 1 1) started in
  let r' := act 20 10 (60 * Second) 20 (BgCall 0 (CUpdateMessageState 700 "m0000001" "DELIVRD" 0)) r in
  rn_close r = Closed /\ length (rn_bg r) = 1%nat
  /\ (msg_State <$> GetMessage "m0000001" (sy_store (rn_sys r))) = Some "submitted"
  /\ (msg_State <$> GetMessage "m0000001" (sy_store (rn_sys r'))) = Some "DELIVRD".
Proof. cbn zeta. split_and!; vm_compute; reflexivity. Qed.
