(* ===== verification/PendingMap.v ===== *)
(** * The map of reports awaited: internal/dispatch/pending.go

    Records under the ids of providers, each with the time it expires at; a
    goroutine removes the expired ones once a minute until the map is closed. The
    maps differ from the reports of the store in that a record past its time is
    found until the goroutine has come by. *)

From S2P Require Import Prelude GoTime Records Dispatch.

Record pendingRecord := mkPendingRecord {
  pm_GatewayID : string;
  pm_ProviderID : string;
  pm_Source : SubmitSource;
  pm_ReceivedAt : time;
  pm_From : string;
  pm_To : string;
  pm_Text : string;
  pm_DataCoding : Z;
  pm_RegisteredDelivery : Z;
  pm_Provider : string;
  pm_Route : string;
  pm_expiresAt : time }.

Record pendingMap := mkPendingMap {
  pm_entries : gmap string pendingRecord;
  pm_ttl : duration;
  pm_stopped : bool }.

Definition newPendingMap (ttl : duration) : pendingMap := mkPendingMap ∅ (if ttl <=? 0 then 30 * Minute else ttl) false.

Definition pm_stamp (providerID : string) (expiresAt : time) (r : pendingRecord) : pendingRecord :=
  {| pm_GatewayID := pm_GatewayID r; pm_ProviderID := providerID; pm_Source := pm_Source r; pm_ReceivedAt := pm_ReceivedAt r; pm_From := pm_From r;
     pm_To := pm_To r; pm_Text := pm_Text r; pm_DataCoding := pm_DataCoding r; pm_RegisteredDelivery := pm_RegisteredDelivery r;
     pm_Provider := pm_Provider r; pm_Route := pm_Route r; pm_expiresAt := expiresAt |}.

Definition Put (now : time) (providerID : string) (r : pendingRecord) (m : pendingMap) : pendingMap :=
  mkPendingMap (<[providerID := pm_stamp providerID (now + pm_ttl m) r]> (pm_entries m)) (pm_ttl m) (pm_stopped m).

Definition Get (providerID : string) (m : pendingMap) : option pendingRecord := pm_entries m !! providerID.

Definition Complete (providerID : string) (m : pendingMap) : pendingMap :=
  mkPendingMap (delete providerID (pm_entries m)) (pm_ttl m) (pm_stopped m).

Definition Size (m : pendingMap) : Z := Z.of_nat (size (pm_entries m)).

Definition PendingMap_Close (m : pendingMap) : pendingMap := mkPendingMap (pm_entries m) (pm_ttl m) true.

(** A tick of [sweepLoop]; the goroutine has returned once the map is closed. *)
Definition sweep_tick (now : time) (m : pendingMap) : pendingMap :=
  if pm_stopped m then m
  else mkPendingMap (filter (fun kr => Before (pm_expiresAt kr.2) now = false) (pm_entries m)) (pm_ttl m) false.

(** ** Histories *)

Inductive pm_call :=
| PPut (now : time) (providerID : string) (r : pendingRecord)
| PComplete (providerID : string)
| PSweep (now : time)
| PClose.

Definition pm_exec (c : pm_call) (m : pendingMap) : pendingMap :=
  match c with
  | PPut now id r => Put now id r m
  | PComplete id => Complete id m
  | PSweep now => sweep_tick now m
  | PClose => PendingMap_Close m
  end.

Definition pm_run (cs : list pm_call) (m : pendingMap) : pendingMap := foldl (fun m c => pm_exec c m) m cs.

(** Records are under their ids, with the time to live positive. *)
Definition pm_wf (m : pendingMap) : Prop := 0 < pm_ttl m /\ map_Forall (fun id r => pm_ProviderID r = id) (pm_entries m).

Lemma pm_wf_exec c m : pm_wf m -> pm_wf (pm_exec c m).
Proof.
  intros [Ht Hm]. destruct c; cbn.
  - split; [done|]. by apply map_Forall_insert_2.
  - split; [done|]. by apply map_Forall_delete.
  - unfold sweep_tick. destruct (pm_stopped m); [done|]. split; [done|]. by apply map_Forall_filter.
  - by split.
Qed.

Lemma pm_wf_new ttl : pm_wf (newPendingMap ttl).
Proof. split; [|apply map_Forall_empty]. cbn. unfold Minute, Second. destruct (Z.leb_spec ttl 0); lia. Qed.

(** A call that neither completes the id nor puts it anew, nor sweeps after the
    time the record expires at. *)
Definition spares (id : string) (until : time) (c : pm_call) : Prop :=
  match c with PPut _ id' _ | PComplete id' => id' <> id | PSweep now => now <= until | PClose => True end.

(** A record that was put is found, as it was put, through any calls that spare
    it, for as long as it lives. *)
Theorem pending_kept now id r m cs :
  Forall (spares id (now + pm_ttl m)) cs -> Get id (pm_run cs (Put now id r m)) = Some (pm_stamp id (now + pm_ttl m) r).
Proof.
  intros H. assert (forall m', Get id m' = Some (pm_stamp id (now + pm_ttl m) r) -> Get id (pm_run cs m') = Some (pm_stamp id (now + pm_ttl m) r)) as Hr.
  { induction H as [|c cs Hc _ IH]; intros m' Hm'; [done|]. cbn. apply IH. unfold Get in *. destruct c; cbn in *.
    - by rewrite lookup_insert_ne.
    - by rewrite lookup_delete_ne.
    - unfold sweep_tick. destruct (pm_stopped m'); [done|]. cbn. apply map_lookup_filter_Some. split; [done|]. cbn. unfold Before. apply Z.ltb_ge. lia.
    - done. }
  apply Hr. unfold Get, Put. cbn. by rewrite lookup_insert_eq.
Qed.

(** A tick removes the records past their time and no others. *)
Theorem sweep_removes_expired now m id r :
  pm_stopped m = false -> Get id (sweep_tick now m) = Some r <-> Get id m = Some r /\ now <= pm_expiresAt r.
Proof.
  intros Hs. unfold sweep_tick, Get. rewrite Hs. cbn. rewrite map_lookup_filter_Some. cbn. unfold Before. by rewrite Z.ltb_ge.
Qed.
