(* ===== verification/CountryRules.v ===== *)
(** * The generator of the country tables: tools/countryrules/main.go

    From the rows of two worksheets to the two tables of country_rules.go and
    their text. The archive, the XML and the formatting of the result are not
    modelled; the cells of a sheet are. *)

From S2P Require Import Prelude Unicode Num NetIP Addr Admin.

Definition supplementalCodes : list string :=
  ["246"; "247"; "290"; "672"; "690"; "800"; "808"; "870"; "878"; "881"; "882"; "883"; "888"; "979"].

Inductive rules_err :=
| empty_worksheet
| header_missing (name : string)
| invalid_region_code (code : string)
| invalid_country_code (code : string)
| invalid_length (value code : string)
| conflicting_lengths (code : string) (a b : Z)
| unknown_code
| bad_shared_index (value : string)
| index_panic.

(** ** Rows *)

Definition rule_digits (value : string) : bool :=
  forallb (fun r => (48 <=? r) && (r <=? 57)) (runes value) && negb (bool_decide (value = "")).

Definition headerIndex (rows : list (list string)) (name : string) : res rules_err nat :=
  match rows with
  | [] => Err empty_worksheet
  | header :: _ =>
    match list_find (fun value => TrimSpace value = name) header with Some (i, _) => Ok i | None => Err (header_missing name) end
  end.

Fixpoint codes_loop (index : nat) (rows : list (list string)) (codes : gset string) : res rules_err (gset string) :=
  match rows with
  | [] => Ok codes
  | values :: rows =>
    match values !! index with
    | None => codes_loop index rows codes
    | Some value =>
      let code := TrimSpace value in
      if bool_decide (code = "") || (3 <? slen code)%nat then codes_loop index rows codes
      else if negb (rule_digits code) then Err (invalid_region_code code)
      else codes_loop index rows ({[code]} ∪ codes)
    end
  end.

Definition countryCodes (rows : list (list string)) : res rules_err (gset string) :=
  index ← headerIndex rows "region_code"; codes_loop index (tail rows) ∅.

Definition length_of (value : string) : option Z :=
  match Atoi (TrimSuffix (TrimSpace value) ".0") with Ok n => if n <=? 0 then None else Some (Z.min n 15) | Err _ => None end.

Fixpoint lengths_loop (codeIndex lengthIndex : nat) (rows : list (list string)) (lengths : gmap string Z) : res rules_err (gmap string Z) :=
  match rows with
  | [] => Ok lengths
  | values :: rows =>
    match values !! codeIndex, values !! lengthIndex with
    | Some code, Some value =>
      let code := TrimSpace code in
      if bool_decide (code = "") then lengths_loop codeIndex lengthIndex rows lengths
      else if negb (rule_digits code) then Err (invalid_country_code code)
      else
        match length_of value with
        | None => Err (invalid_length value code)
        | Some n =>
          match lengths !! code with
          | Some m => if m =? n then lengths_loop codeIndex lengthIndex rows (<[code := n]> lengths) else Err (conflicting_lengths code m n)
          | None => lengths_loop codeIndex lengthIndex rows (<[code := n]> lengths)
          end
        end
    | _, _ => lengths_loop codeIndex lengthIndex rows lengths
    end
  end.

Definition maxLengths (rows : list (list string)) : res rules_err (gmap string Z) :=
  codeIndex ← headerIndex rows "country code"; lengthIndex ← headerIndex rows "号码长度（最长）"; lengths_loop codeIndex lengthIndex (tail rows) ∅.

(** ** The tables *)

Definition code_less (a b : string) : bool := if (slen a =? slen b)%nat then String.ltb a b else (slen a <? slen b)%nat.

Definition code_list (codes : gset string) : list string := sort_stable code_less (elements codes).
Definition length_list (lengths : gmap string Z) : list (string * Z) := sort_stable (fun a b => code_less a.1 b.1) (map_to_list lengths).

(** [main], between reading the sheets and writing the file. *)
Definition tables (publicRows lengthRows : list (list string)) : res rules_err (list string * list (string * Z)) :=
  codes ← countryCodes publicRows;
  lengths ← maxLengths lengthRows;
  let codes := codes ∪ list_to_set supplementalCodes in
  if forallb (fun kv : string * Z => bool_decide (kv.1 ∈ codes)) (map_to_list lengths) then Ok (code_list codes, length_list lengths) else Err unknown_code.

Definition quote_mark : string := String (Ascii.ascii_of_nat 34) "".
Definition newline : string := String (Ascii.ascii_of_nat 10) "".
Definition tab : string := String (Ascii.ascii_of_nat 9) "".
Definition quoted_code (s : string) : string := quote_mark +:+ s +:+ quote_mark.

Definition generate (codes : gset string) (lengths : gmap string Z) (publicHash lengthHash : string) : string :=
  "// Code generated by tools/countryrules; DO NOT EDIT." +:+ newline +:+ newline +:+ "package dispatch" +:+ newline +:+ newline
  +:+ "const (" +:+ newline +:+ tab +:+ "publicCountrySourceSHA256 = " +:+ quoted_code publicHash +:+ newline
  +:+ tab +:+ "countryLengthSourceSHA256 = " +:+ quoted_code lengthHash +:+ newline +:+ ")" +:+ newline +:+ newline
  +:+ "var e164CountryCodes = map[string]struct{}{" +:+ newline
  +:+ String.concat "" ((fun code => tab +:+ quoted_code code +:+ ": {}," +:+ newline) <$> code_list codes)
  +:+ "}" +:+ newline +:+ newline +:+ "var countryMaxTotalLength = map[string]int{" +:+ newline
  +:+ String.concat "" ((fun kv => tab +:+ quoted_code kv.1 +:+ ": " +:+ Itoa kv.2 +:+ "," +:+ newline) <$> length_list lengths)
  +:+ "}" +:+ newline.

(** ** Cells *)

Record cell := mkCell {
  ce_Ref : string;
  ce_Type : string;
  ce_Val : string;
  ce_Text : string }.

(** [cellColumn]: the letters in front, as a number with digits from A to Z. *)
Fixpoint column_loop (rs : list Z) (column : Z) : Z :=
  match rs with
  | [] => column
  | r :: rs => if (r <? 65) || (90 <? r) then column else column_loop rs (i64 (column * 26 + (r - 65 + 1)))
  end.
Definition cellColumn (ref : string) : Z := i64 (column_loop (runes ref) 0 - 1).

Definition cell_value (shared : list string) (c : cell) : res rules_err string :=
  if bool_decide (ce_Type c = "s") then
    match Atoi (ce_Val c) with
    | Ok i => if i <? 0 then Err (bad_shared_index (ce_Val c)) else match shared !! Z.to_nat i with Some v => Ok v | None => Err (bad_shared_index (ce_Val c)) end
    | Err _ => Err (bad_shared_index (ce_Val c))
    end
  else if bool_decide (ce_Type c = "inlineStr") then Ok (ce_Text c)
  else Ok (ce_Val c).

(** A cell goes to its column; the row grows to it. A reference without letters
    has the column -1, and writing there panics. *)
Fixpoint sheet_row (shared : list string) (cells : list cell) (values : list string) : res rules_err (list string) :=
  match cells with
  | [] => Ok values
  | c :: cells =>
    let column := cellColumn (ce_Ref c) in
    let values := values ++ replicate (Z.to_nat (column + 1) - length values) "" in
    value ← cell_value shared c;
    if column <? 0 then Err index_panic else sheet_row shared cells (<[Z.to_nat column := value]> values)
  end.

(** ** What the tables have *)

Definition code_ok (code : string) : Prop := rule_digits code = true /\ (slen code <= 3)%nat.

Lemma codes_loop_ok index rows codes codes' :
  codes_loop index rows codes = Ok codes' -> set_Forall code_ok codes -> set_Forall code_ok codes'.
Proof.
  revert codes. induction rows as [|values rows IH]; intros codes; cbn [codes_loop]; [by intros [= ->]|].
  destruct (values !! index) as [value|]; [|by apply IH]. cbn zeta. destruct (_ || _) eqn:E1; [by apply IH|]. destruct (negb _) eqn:E2; [done|]. intros H Hc.
  apply (IH _ H). apply set_Forall_union; [|done]. apply set_Forall_singleton. apply orb_false_iff in E1 as [_ E1]. apply negb_false_iff in E2.
  split; [done|]. by apply Nat.ltb_ge.
Qed.

Lemma length_of_bounds v n : length_of v = Some n -> 1 <= n <= 15.
Proof. unfold length_of. destruct (Atoi _) as [x|]; [|done]. destruct (Z.leb_spec x 0); [done|]. intros [= <-]. lia. Qed.

Lemma lengths_loop_ok ci li rows m m' :
  lengths_loop ci li rows m = Ok m' -> map_Forall (fun _ n => 1 <= n <= 15) m -> map_Forall (fun _ n => 1 <= n <= 15) m'.
Proof.
  revert m. induction rows as [|values rows IH]; intros m; cbn [lengths_loop]; [by intros [= ->]|].
  destruct (values !! ci) as [code|]; [|by apply IH]. destruct (values !! li) as [v|]; [|by apply IH]. cbn zeta.
  destruct (bool_decide _); [by apply IH|]. destruct (negb _); [done|]. destruct (length_of v) as [n|] eqn:E; [|done]. apply length_of_bounds in E.
  intros H Hm. assert (map_Forall (fun _ n => 1 <= n <= 15) (<[TrimSpace code := n]> m)) as Hi by by apply map_Forall_insert_2.
  destruct (m !! TrimSpace code) as [x|]; [destruct (x =? n); [|done]|]; by apply (IH _ H).
Qed.

Lemma code_less_asym x y : code_less x y = true -> code_less y x = false.
Proof.
  unfold code_less. rewrite (Nat.eqb_sym (slen y)). destruct (Nat.eqb_spec (slen x) (slen y)); [|rewrite Nat.ltb_lt, Nat.ltb_ge; lia].
  unfold String.ltb. rewrite (String.compare_antisym y x). by destruct (String.compare x y).
Qed.

Lemma string_ltb_negtrans x y z : String.ltb x y = false -> String.ltb y z = false -> String.ltb x z = false.
Proof.
  revert y z. induction x as [|a x IH]; intros [|b y] [|c z]; unfold String.ltb; cbn [String.compare]; try done.
  unfold Ascii.compare. destruct (N.compare_spec (Ascii.N_of_ascii a) (Ascii.N_of_ascii b)), (N.compare_spec (Ascii.N_of_ascii b) (Ascii.N_of_ascii c)),
    (N.compare_spec (Ascii.N_of_ascii a) (Ascii.N_of_ascii c)); try done; try lia. apply IH.
Qed.

Lemma code_less_negtrans x y z : code_less x y = false -> code_less y z = false -> code_less x z = false.
Proof.
  unfold code_less. destruct (Nat.eqb_spec (slen x) (slen y)) as [E1|], (Nat.eqb_spec (slen y) (slen z)) as [E2|]; rewrite ?Nat.ltb_ge.
  - rewrite E1, E2, Nat.eqb_refl. apply string_ltb_negtrans.
  - rewrite E1. destruct (Nat.eqb_spec (slen y) (slen z)); [done|]. rewrite Nat.ltb_ge. lia.
  - rewrite <- E2. destruct (Nat.eqb_spec (slen x) (slen y)); [done|]. rewrite Nat.ltb_ge. lia.
  - intros H1 H2. destruct (Nat.eqb_spec (slen x) (slen z)); [lia|]. apply Nat.ltb_ge. lia.
Qed.

(** Whatever the sheets say, tables that come out have codes of one to three
    digits, the supplemental ones among them, lengths from 1 to 15 of known codes,
    each once and in the order of the file, whichever order maps are walked in. *)
Theorem tables_well_formed publicRows lengthRows codes lengths :
  tables publicRows lengthRows = Ok (codes, lengths) ->
  Forall code_ok codes /\ NoDup codes /\ supplementalCodes ⊆ codes /\ StronglySorted (fun a b => code_less b a = false) codes
  /\ Forall (fun kv => kv.1 ∈ codes /\ 1 <= kv.2 <= 15) lengths /\ NoDup lengths.*1
  /\ StronglySorted (fun a b => code_less b.1 a.1 = false) lengths.
Proof.
  unfold tables. destruct (countryCodes publicRows) as [cs|] eqn:E1; cbn [mbind res_bind]; [|done].
  destruct (maxLengths lengthRows) as [ls|] eqn:E2; cbn [mbind res_bind]; [|done]. destruct (forallb _ _) eqn:E3; [|done]. intros [= <- <-].
  set (all := cs ∪ list_to_set supplementalCodes) in *.
  assert (set_Forall code_ok all) as Hall.
  { subst all. apply set_Forall_union.
    - unfold countryCodes in E1. destruct (headerIndex publicRows _); [|done]. cbn in E1. apply codes_loop_ok in E1; [done|]. intros c Hc. by apply not_elem_of_empty in Hc.
    - intros c Hc%elem_of_list_to_set. assert (forallb (fun c => rule_digits c && (slen c <=? 3)%nat) supplementalCodes = true) as H by (vm_compute; reflexivity).
      rewrite forallb_forall in H. specialize (H c (proj1 (list_elem_of_In _ _) Hc)). apply andb_true_iff in H as [H1 H2]. split; [done|by apply Nat.leb_le]. }
  assert (map_Forall (fun _ n => 1 <= n <= 15) ls) as Hls.
  { unfold maxLengths in E2. destruct (headerIndex lengthRows "country code"); [|done]. cbn [mbind res_bind] in E2.
    destruct (headerIndex lengthRows _); [|done]. cbn [mbind res_bind] in E2. apply lengths_loop_ok in E2; [done|apply map_Forall_empty]. }
  assert (forall c, c ∈ code_list all <-> c ∈ all) as Hin by (intros c; unfold code_list; by rewrite sort_stable_Permutation, elem_of_elements).
  split_and!.
  - apply Forall_forall. intros c Hc%Hin. by apply Hall.
  - unfold code_list. rewrite sort_stable_Permutation. apply NoDup_elements.
  - intros c Hc. apply Hin, elem_of_union_r, elem_of_list_to_set, Hc.
  - apply sort_stable_sorted; [apply code_less_asym|apply code_less_negtrans].
  - apply Forall_forall. intros [k n] Hk. unfold length_list in Hk. rewrite sort_stable_Permutation in Hk. cbn. split.
    + apply Hin. rewrite forallb_forall in E3. specialize (E3 (k, n)). cbn in E3. rewrite bool_decide_eq_true in E3. by apply E3, list_elem_of_In.
    + apply elem_of_map_to_list in Hk. by apply (Hls k).
  - unfold length_list. rewrite sort_stable_Permutation. apply NoDup_fst_map_to_list.
  - apply sort_stable_sorted; [intros x y; apply code_less_asym|intros x y z; apply code_less_negtrans].
Qed.

(** The tables in the repository are what the generator makes of sheets with
    just their rows. *)
Definition code_sheet : list (list string) := ["region_code"] :: ((fun c => [c]) <$> e164CountryCodes).
Definition length_sheet : list (list string) :=
  ["country code"; "号码长度（最长）"] :: ((fun kv => [kv.1; Itoa kv.2 +:+ ".0"]) <$> countryMaxTotalLength).

Theorem tables_in_repository : tables code_sheet length_sheet = Ok (e164CountryCodes, countryMaxTotalLength).
Proof. vm_compute. reflexivity. Qed.

(** A cell without a column ends the program. *)
Example cell_without_column : sheet_row [] [mkCell "12" "" "7" ""] [] = Err index_panic.
Proof. vm_compute. reflexivity. Qed.

Example columns : cellColumn "A1" = 0 /\ cellColumn "Z9" = 25 /\ cellColumn "AA10" = 26 /\ cellColumn "7" = -1.
Proof. vm_compute. repeat split. Qed.
