(* ===== verification/TestEsme.v ===== *)
(** * The test client: cmd/testesme/main.go

    A client that binds, submits one text a number of times and prints the
    receipts it is sent, acknowledging each. What it writes is read here by the
    model of the server, and what the server sends by the model of the client.
    The socket takes every write; [answers] are the PDUs it delivers until it is
    closed or the deadline passes. *)

From S2P Require Import Prelude Unicode Codec Segment Pdu Num GoTime Submit SmppSession ReceiptRoundtrip.

(** ** Bodies *)

Definition bindBody (systemID password : string) : list Z :=
  CString systemID ++ CString password ++ CString "gateway" ++ [0x34; 0x00; 0x00] ++ CString "".

Definition esme_coding (text : string) : Z := if bool_decide (DetectEncoding text = "ucs2") then 0x08 else 0x00.

Definition submitBody (from to text : string) (registeredDelivery : Z) : list Z :=
  let dataCoding := esme_coding text in
  let encoded := EncodeText text dataCoding in
  CString "" ++ [0x01; 0x01] ++ CString from ++ [0x01; 0x01] ++ CString to ++ [0x00; 0x00; 0x00]
  ++ CString "" ++ CString "" ++ [registeredDelivery; 0x00; dataCoding; 0x00]
  ++ [u8 (Z.of_nat (length encoded))] ++ encoded.

(** [readCString]: the rest of the body when there is no terminator. Slicing
    from beyond the end panics. *)
Fixpoint cstring_len (rest : list Z) : nat :=
  match rest with
  | [] => 0
  | b :: rest => if b =? 0 then 0 else S (cstring_len rest)
  end.

Definition esme_readCString (body : list Z) (offset : nat) : option (string * nat) :=
  if (length body <? offset)%nat then None
  else
    let stop := (offset + cstring_len (drop offset body))%nat in
    Some (string_of_bytes (slice body offset stop), if (stop <? length body)%nat then S stop else stop).

Record deliverSM := mkDeliverSM {
  dm_from : string;
  dm_to : string;
  dm_text : string }.

(** [parseDeliverSM]; [None] is a panic. *)
Definition parseDeliverSM (body : list Z) : option deliverSM :=
  '(_, offset) ← esme_readCString body 0;
  '(from, offset) ← esme_readCString body (offset + 2);
  '(to, offset) ← esme_readCString body (offset + 2);
  '(_, offset) ← esme_readCString body (offset + 3);
  '(_, offset) ← esme_readCString body offset;
  let offset := (offset + 4)%nat in
  smLen ← Z.to_nat <$> body !! offset;
  let offset := S offset in
  if (length body <? offset + smLen)%nat then None
  else Some (mkDeliverSM from to (string_of_bytes (slice body offset (offset + smLen)))).

(** ** The program *)

Inductive esme_end := Returned | Fatal (status : option Z) | Panicked.

(** What it wrote and printed, and how it ended. *)
Record esme_run := mkEsmeRun {
  er_written : list PDU;
  er_submitted : list string;
  er_receipts : list deliverSM;
  er_end : esme_end }.

Definition er_cons (p : PDU) (r : esme_run) : esme_run := mkEsmeRun (p :: er_written r) (er_submitted r) (er_receipts r) (er_end r).
Definition er_stop (e : esme_end) : esme_run := mkEsmeRun [] [] [] e.

(** The loop that waits for receipts. *)
Fixpoint esme_wait (answers : list PDU) : esme_run :=
  match answers with
  | [] => er_stop Returned
  | p :: answers =>
    if negb (pdu_CommandID p =? commandDeliverSM) then esme_wait answers
    else
      match parseDeliverSM (pdu_Body p) with
      | None => er_stop Panicked
      | Some dlr =>
        let r := esme_wait answers in
        mkEsmeRun (pdu commandDeliverSMResp 0 (pdu_SequenceID p) [] :: er_written r) (er_submitted r) (dlr :: er_receipts r) (er_end r)
      end
  end.

(** The loop that submits, from the [i]-th message, [n] to go. *)
Fixpoint esme_submit (body : list Z) (i n : nat) (answers : list PDU) : esme_run :=
  match n with
  | O => esme_wait answers
  | S n =>
    er_cons (pdu commandSubmitSM 0 (u32 (Z.of_nat i + 2)) body)
      (match answers with
       | [] => er_stop (Fatal None)
       | resp :: answers =>
         if negb (pdu_Status resp =? 0) then er_stop (Fatal (Some (pdu_Status resp)))
         else
           match esme_readCString (pdu_Body resp) 0 with
           | None => er_stop Panicked
           | Some (id, _) =>
             let r := esme_submit body (S i) n answers in
             mkEsmeRun (er_written r) (id :: er_submitted r) (er_receipts r) (er_end r)
           end
       end)
  end.

Definition esme_main (user pass src dst text : string) (count : Z) (answers : list PDU) : esme_run :=
  er_cons (pdu commandBindTransceiver 0 1 (bindBody user pass))
    (match answers with
     | [] => er_stop (Fatal None)
     | resp :: answers =>
       if negb (pdu_Status resp =? 0) then er_stop (Fatal (Some (pdu_Status resp)))
       else esme_submit (submitBody src dst text 0x01) 0 (Z.to_nat count) answers
     end).

(** ** What the server reads *)

Lemma bind_body_read user pass :
  cstr_ok SMPPMaxSystemID user -> cstr_ok SMPPMaxPassword pass -> bind_fields (bindBody user pass) = Ok (user, pass).
Proof.
  intros Hu Hp. unfold bind_fields. set (body := bindBody user pass). assert (drop 0 body = body) as H by done.
  unfold body at 2, bindBody in H. generalize dependent body. intros body H.
  assert (cstr_ok SMPPMaxSystemType "gateway") as Hg by (vm_compute; split; [repeat constructor; done|lia]).
  wire_read H Hu. wire_read H Hp. by rewrite (read_at _ _ _ _ _ H Hg).
Qed.

Lemma submit_body_wire from to text reg :
  (length (EncodeText text (esme_coding text)) < 256)%nat ->
  submitBody from to text reg
  = submit_wire "" 1 1 from 1 1 to 0 0 0 "" "" reg 0 (esme_coding text) 0 (EncodeText text (esme_coding text)) [].
Proof.
  intros Hl. unfold submitBody, submit_wire. unfold u8. rewrite Z.mod_small by lia.
  change ([] ≫= tlv_bytes) with (@nil Z). by rewrite app_nil_r.
Qed.

Definition esme_text (text : string) : string := DecodeSubmitText (EncodeText text (esme_coding text)) (esme_coding text).

(** The server accepts the bind and the submission of the test client when the
    strings fit their fields and the encoded text its length byte: it reads the
    credentials, the addresses, the coding and the bytes that were meant, and a
    text sent as UCS-2 comes out as it went in. *)
Theorem esme_understood user pass from to text seq :
  cstr_ok SMPPMaxSystemID user -> cstr_ok SMPPMaxPassword pass ->
  cstr_ok SMPPMaxAddress from -> cstr_ok SMPPMaxAddress to ->
  (length (EncodeText text (esme_coding text)) < 256)%nat ->
  bind_fields (bindBody user pass) = Ok (user, pass)
  /\ exists sm, ParseSubmitSM (pdu commandSubmitSM 0 seq (submitBody from to text 1)) = Ok sm
     /\ sm_From sm = from /\ sm_To sm = to /\ sm_RegisteredDelivery sm = 1 /\ sm_DataCoding sm = esme_coding text
     /\ sm_Payload sm = EncodeText text (esme_coding text) /\ sm_Concat sm = None /\ sm_Text sm = esme_text text
     /\ (DetectEncoding text = "ucs2" -> valid_utf8 text -> sm_Text sm = text).
Proof.
  intros Hu Hp Hf Ht Hl. split; [by apply bind_body_read|]. rewrite submit_body_wire by done.
  assert (forall m, cstr_ok m "") as He by (intros m; split; [constructor|simpl; lia]).
  destruct (parse_submit_wire commandSubmitSM 0 seq "" 1 1 from 1 1 to 0 0 0 "" "" 1 0 (esme_coding text) 0
    (EncodeText text (esme_coding text)) [] (He _) Hf Ht (He _) (He _) (Forall_nil_2 _)) as [o ->].
  eexists. split; [reflexivity|]. split_and!; try reflexivity.
  intros Hd Hv. unfold esme_coding. rewrite bool_decide_eq_true_2 by done. cbn [sm_Text].
  change (DecodeText (EncodeText text 8) 8 = text). by apply ucs2_roundtrip.
Qed.

Lemma esme_understood_witness :
  exists sm, ParseSubmitSM (pdu commandSubmitSM 0 2 (submitBody "10690000" "13800138000" "ping" 1)) = Ok sm /\ sm_To sm = "13800138000".
Proof.
  assert (cstr_ok SMPPMaxSystemID "dev-esme" /\ cstr_ok SMPPMaxPassword "esmepw1" /\ cstr_ok SMPPMaxAddress "10690000" /\ cstr_ok SMPPMaxAddress "13800138000") as (H1 & H2 & H3 & H4).
  { split_and!; apply (bool_decide_eq_true_1 _); vm_compute; reflexivity. }
  destruct (esme_understood "dev-esme" "esmepw1" "10690000" "13800138000" "ping" 2 H1 H2 H3 H4) as [_ (sm & Hs & _ & Hto & _)].
  - apply Nat.ltb_lt. vm_compute. reflexivity.
  - exists sm. exact (conj Hs Hto).
Defined.

(** ** What the client reads *)

Lemma cstring_len_app l rest : Forall (fun b => b <> 0) l -> cstring_len (l ++ 0 :: rest) = length l.
Proof. induction 1 as [|b l Hb _ IH]; simpl; [done|]. rewrite IH. by destruct (Z.eqb_spec b 0). Qed.

Lemma esme_read_at body offset s rest :
  drop offset body = CString s ++ rest -> Forall (fun b => b <> 0) (bytes_of_string s) ->
  esme_readCString body offset = Some (s, (offset + slen s + 1)%nat).
Proof.
  intros Hd Hs. unfold esme_readCString. pose proof (f_equal length Hd) as Hl.
  rewrite length_drop, length_app, length_CString in Hl.
  destruct (Nat.ltb_spec (length body) offset); [lia|]. rewrite Hd. unfold CString in *. rewrite <- app_assoc in *. cbn [app] in *.
  rewrite cstring_len_app, length_bytes_of_string by done. unfold slice. rewrite Hd.
  replace (offset + slen s - offset)%nat with (slen s) by lia. rewrite take_app_length' by (by rewrite length_bytes_of_string).
  rewrite string_of_bytes_of_string. destruct (Nat.ltb_spec (offset + slen s) (length body)); [|lia]. do 2 f_equal. lia.
Qed.

Ltac esme_read H Hs :=
  rewrite (esme_read_at _ _ _ _ H Hs); cbn [mbind option_bind];
  match type of H with
  | drop ?o _ = CString ?s ++ _ =>
    apply (drop_next _ _ (slen s + 1)) in H; [|by rewrite ?length_CString];
    rewrite Nat.add_assoc in H; revert H; generalize (o + slen s + 1)%nat; try clear o; let o' := fresh "o" in intros o' H
  end.

Lemma parse_deliver_sm_wire from to (a b c d esm pid prio reg repl dc smd : Z) sm tlvs :
  Forall (fun b => b <> 0) (bytes_of_string from) -> Forall (fun b => b <> 0) (bytes_of_string to) ->
  parseDeliverSM (submit_wire "" a b from c d to esm pid prio "" "" reg repl dc smd sm tlvs)
  = Some (mkDeliverSM from to (string_of_bytes sm)).
Proof.
  intros Hfrom Hto. set (body := submit_wire _ _ _ _ _ _ _ _ _ _ _ _ _ _ _ _ _ _).
  assert (Forall (fun b => b <> 0) (bytes_of_string "")) as He by constructor.
  assert (drop 0 body = body) as H by done. unfold body at 2, submit_wire in H.
  unfold parseDeliverSM. generalize dependent body. intros body H.
  esme_read H He. wire_skip H 2%nat. esme_read H Hfrom. wire_skip H 2%nat. esme_read H Hto. wire_skip H 3%nat.
  esme_read H He. esme_read H He.
  pose proof (f_equal length H) as Hlen. rewrite length_drop, !length_app in Hlen. simpl in Hlen.
  assert (body !! (o + 4)%nat = Some (Z.of_nat (length sm))) as -> by (by rewrite <- lookup_drop, H).
  cbn [fmap option_fmap option_map mbind option_bind]. rewrite Nat2Z.id.
  destruct (Nat.ltb_spec (length body) (S (o + 4) + length sm)); [rewrite ?length_app in Hlen; lia|].
  do 2 f_equal. unfold slice. replace (S (o + 4) + length sm - S (o + 4))%nat with (length sm) by lia.
  replace (S (o + 4)) with (o + 5)%nat by lia.
  apply (drop_next _ _ 5 [reg; repl; dc; smd; Z.of_nat (length sm)]) in H; [|done]. rewrite H.
  f_equal. exact (take_app_length _ _).
Qed.

(** A receipt the server built, whose addresses have no zero byte and whose text
    fits the length byte, is printed by the test client with its addresses and its
    text. *)
Theorem esme_prints_receipt p :
  Forall (fun b => b <> 0) (bytes_of_string (dp_SourceAddr p)) -> Forall (fun b => b <> 0) (bytes_of_string (dp_DestAddr p)) ->
  (slen (FormatReceiptText p) < 256)%nat ->
  parseDeliverSM (pdu_Body (BuildDLR p)) = Some (mkDeliverSM (dp_SourceAddr p) (dp_DestAddr p) (FormatReceiptText p)).
Proof.
  intros Hs Hd Hl. rewrite built_body, parse_deliver_sm_wire by done. by rewrite string_of_bytes_of_string.
Qed.

(** ** The whole program *)

Definition delivers (ps : list PDU) : list PDU := filter (fun p => pdu_CommandID p = commandDeliverSM) ps.

Lemma esme_wait_all ps :
  er_end (esme_wait ps) = Returned ->
  er_written (esme_wait ps) = (fun p => pdu commandDeliverSMResp 0 (pdu_SequenceID p) []) <$> delivers ps
  /\ (Some <$> er_receipts (esme_wait ps)) = (parseDeliverSM ∘ pdu_Body) <$> delivers ps.
Proof.
  unfold delivers. induction ps as [|p ps IH]; [done|]. cbn [esme_wait]. intros H. rewrite filter_cons.
  destruct (Z.eqb_spec (pdu_CommandID p) commandDeliverSM) as [E|E]; cbn [negb] in *;
    [rewrite decide_True by done|rewrite decide_False by done; auto].
  destruct (parseDeliverSM (pdu_Body p)) as [d|] eqn:Ed; [|done]. cbn in H. destruct (IH H) as [IH1 IH2].
  split; cbn; [by rewrite IH1|]. rewrite Ed. f_equal. exact IH2.
Qed.

(** When the test client ends normally it bound once, submitted the message the
    asked number of times, each with its own sequence number, read an accepting
    answer to each, and acknowledged every deliver_sm that came after them, in
    order. *)
Theorem esme_complete user pass src dst text count answers :
  let n := Z.to_nat count in
  let r := esme_main user pass src dst text count answers in
  er_end r = Returned ->
  er_written r = pdu commandBindTransceiver 0 1 (bindBody user pass)
    :: ((fun i => pdu commandSubmitSM 0 (u32 (Z.of_nat i + 2)) (submitBody src dst text 1)) <$> seq 0 n)
    ++ ((fun p => pdu commandDeliverSMResp 0 (pdu_SequenceID p) []) <$> delivers (drop (S n) answers))
  /\ Forall (fun p => pdu_Status p = 0) (take (S n) answers) /\ (S n <= length answers)%nat
  /\ length (er_submitted r) = n.
Proof.
  intros n r. subst r. unfold esme_main. fold n. destruct answers as [|b answers]; [done|]. cbn [er_cons er_end er_written er_submitted].
  destruct (Z.eqb_spec (pdu_Status b) 0) as [Hb|]; cbn [negb]; [|done]. set (body := submitBody src dst text 1).
  cbn [drop take length]. intros H.
  enough (forall i, er_end (esme_submit body i n answers) = Returned ->
    er_written (esme_submit body i n answers)
    = ((fun i => pdu commandSubmitSM 0 (u32 (Z.of_nat i + 2)) body) <$> seq i n)
      ++ ((fun p => pdu commandDeliverSMResp 0 (pdu_SequenceID p) []) <$> delivers (drop n answers))
    /\ Forall (fun p => pdu_Status p = 0) (take n answers) /\ (n <= length answers)%nat
    /\ length (er_submitted (esme_submit body i n answers)) = n) as Hn.
  { destruct (Hn 0%nat H) as (-> & Hs & Hl & Hsub). split_and!; [done|by constructor|lia|done]. }
  clear H. generalize dependent n. clear b Hb. intros n. revert answers.
  induction n as [|n IH]; intros answers i; cbn [esme_submit].
  { rewrite take_0, drop_0. intros Hw. destruct (esme_wait_all _ Hw) as [-> _]. split_and!; [done|constructor|lia|].
    clear. induction answers as [|p ps IH]; [done|]. cbn. destruct (negb _); [done|]. by destruct (parseDeliverSM _). }
  cbn [er_cons er_end er_written er_submitted]. destruct answers as [|p ps]; [done|].
  destruct (Z.eqb_spec (pdu_Status p) 0) as [Hp|]; cbn [negb]; [|done].
  destruct (esme_readCString (pdu_Body p) 0) as [[id o]|]; [|done]. cbn [er_end er_written er_submitted drop take length].
  intros Hr. destruct (IH ps (S i) Hr) as (-> & Hs & Hl & Hsub). split_and!; [done|by constructor|lia|]. by rewrite Hsub.
Qed.

(** ** Examples *)

Example long_text_cut :
  let p := pdu commandSubmitSM 0 2 (submitBody "1" "2" (string_of_bytes (replicate 293 97)) 1) in
  exists e, ParseSubmitSM p = Err e.
Proof. eexists. vm_compute. reflexivity. Qed.

(** A deliver_sm cut short stops the client. *)
Example short_deliver_panics : parseDeliverSM (CString "" ++ [0; 0] ++ CString "1") = None.
Proof. reflexivity. Qed.
