(* ===== verification/GatewayMain.v ===== *)
(** * The gateway command: cmd/mysmpp/main.go, main

    How the parts are put together at start. Opening the store, the providers, the
    filter and the CDR writer are the operations of their own files; listening on
    sockets and the end of the process are not part of this one. *)

From S2P Require Import Prelude Unicode Codec Segment Num GoTime GoParse NetIP FilterAC Filter Records Store StoreInv StoreSubmit FileStore GatewayId.
From S2P Require Import Addr Router DlrAggregate Dispatch DispatchSubmit DispatchSend DispatchDlr Workers ClientReceipt ClientConn ClientPool.
From S2P Require Import Config ConfigValid ConfigOk ConfigWhole Float64 Tenant Json HttpRule HttpProvider RateLimit Providers CdrWriter RiskLimit HttpGw HttpGwOk HttpFlow.
From S2P Require Import Bootstrap BootstrapOk Postgres PostgresStart DispatchRun DispatchRunOk.

(** The reasons to leave with status 1. *)
Inductive main_err :=
| load_failed (e : boot_err)
| store_failed (e : factory_err)
| filter_failed (e : string)
| cdr_failed (e : string).

Section main.
Context {Location : Type} (UTC : Location) (LoadLocation : string -> option Location).
Context (regexp_Compile : string -> option regex) (ToLower : Z -> Z).
Context (range : list (string * string) -> list (string * string)) (ord : nat -> gmap Z nat -> list (Z * nat)).
Context {content : Type} (empty : content).
Context (marshal : Config -> content) (unmarshal : Config -> content -> option Config) (zero : Config).
Context {stored : Type} (read_store : stored -> option fileSnapshot) (disk_at : string -> @disk stored).
Context {J : Type} (parse_config : string -> option Z) (reach : string -> Z -> option (catalog * DB J)).

Abbreviation valid := (validate (fun z => bool_decide (is_Some (LoadLocation z))) regexp_Compile range).
Abbreviation okay auto := (config_ok auto (fun z => bool_decide (is_Some (LoadLocation z))) (fun s => regexp_Compile s <> None)).
Abbreviation load := (LoadStartup empty marshal unmarshal valid zero).
Abbreviation open_store := (NewFromConfig parse_config reach read_store disk_at).

Record MainEnv := mkMainEnv {
  me_boot : @BootEnv content;
  me_now : time;
  me_hostname : string;
  me_mkdir : bool }.

(** What the process is made of once it serves. *)
Record Running := mkRunning {
  mr_cfg : Config;
  mr_store : @opened J stored;
  mr_registry : World;
  mr_engine : option Engine;
  mr_writer : option Writer;
  mr_resolver : @StaticResolver Location }.

(** The handle of the dispatcher as the receiver of reports. *)
Definition on_dlr_handle : nat := 0.

(** The first half of [main]. The dispatcher and its workers start before the
    filter and the CDR writer are made; the second result says whether they did. *)
Definition main_start (path seedPath : string) (e : MainEnv) (d : @disk content) : @disk content * bool * res main_err Running :=
  match load path seedPath (me_boot e) d with
  | (d, Err err) => (d, false, Err (load_failed err))
  | (d, Ok (cfg, _)) =>
    match open_store (c_Storage cfg) with
    | Err err => (d, false, Err (store_failed err))
    | Ok st =>
      let registry := SetDLRHandler (Some on_dlr_handle) (Reload (me_now e) cfg NewRegistry) in
      match Compile ToLower regexp_Compile ord (c_Filter cfg) with
      | Err err => (d, true, Err (filter_failed err))
      | Ok engine =>
        match NewWriter (me_hostname e) (me_mkdir e) (c_CDR cfg) with
        | Err err => (d, true, Err (cdr_failed err))
        | Ok writer => (d, true, Ok (mkRunning cfg st registry engine writer (NewResolver UTC LoadLocation cfg)))
        end
      end
    end
  end.

Definition SetInstanceID (instance : string) (d : Dispatcher) : Dispatcher :=
  {| d_store := d_store d; d_idAlloc := d_idAlloc d; d_router := d_router d;
     d_pendingTTL := d_pendingTTL d; d_claimTimeout := d_claimTimeout d; d_workers := d_workers d;
     d_claimLimit := d_claimLimit d; d_maxAttempts := d_maxAttempts d; d_validateDest := d_validateDest d;
     d_instanceID := Some instance; d_cdrSink := d_cdrSink d; d_cdr := d_cdr d;
     d_dlrCh := d_dlrCh d; d_dlrBg := d_dlrBg d; d_dlrPick := d_dlrPick d |}.

(** [NewWithDispatcher] with what [main] gives it, over the contents of the store;
    CDR writers are named from 0. *)
Definition NewWithDispatcher (r : Running) (s : MemoryStore) : @Gateway Location :=
  let cfg := mr_cfg r in
  let d := HttpGw.ReloadRoutes (c_Routes cfg) (c_Providers cfg) (bool_decide (is_Some (mr_writer r))) (DispatchRun.New (c_Dispatcher cfg) s).1 in
  mkGateway cfg (SetInstanceID (cd_Instance (c_CDR cfg)) d)
    true (mr_engine r) (mr_resolver r) (Some (mr_registry r)) (match mr_writer r with Some _ => Some 0%nat | None => None end)
    (match mr_writer r with Some _ => 1%nat | None => 0%nat end) [] NewRisk.

(** ** What is loaded is checked *)

Lemma config_load_valid path d c : config_load unmarshal valid path true d = Ok c -> valid c true = Ok tt.
Proof.
  unfold config_load, checked.
  destruct (bool_decide _); [destruct (valid _ true) as [[]|] eqn:E; congruence|].
  destruct (d_path d); [|done]. destruct (unmarshal _ _); [|done]. destruct (valid _ true) as [[]|] eqn:E; congruence.
Qed.

Definition parts_ok (c : Config) : Prop :=
  storage_ok (c_Storage c) /\ filter_ok (fun s => regexp_Compile s <> None) (c_Filter c) /\ (cd_Enabled (c_CDR c) = true -> cdr_ok (c_CDR c))
  /\ unique_names c.

Lemma okay_parts auto c : okay auto c -> parts_ok c.
Proof. intros []. by split_and!. Qed.

Lemma load_parts path seedPath e d d' c b :
  (forall l, range l ≡ₚ l) -> load path seedPath e d = (d', Ok (c, b)) -> parts_ok c.
Proof.
  intros Hr. unfold LoadStartup. destruct (boot_seed _ _ _ _ _ _) as [d0 [seeded|]]; [|done].
  destruct (config_load _ _ _ _ _) as [c0|] eqn:Hc; [|done]. apply config_load_valid, (validate_correct _ _ _ _ _ Hr), okay_parts in Hc.
  unfold boot_generate, generateStartupSecrets. cbn beta iota zeta.
  destruct (bool_decide (foldl _ _ _ = ∅)).
  { intros [= _ <- _]. destruct Hc as (? & ? & ? & Hn). split_and!; try done. unfold unique_names in *. cbn. by rewrite imap_fmap_id. }
  destruct (valid (Normalize _) false) as [[]|] eqn:Hv; [|done]. apply (validate_correct _ _ _ _ _ Hr), okay_parts in Hv.
  destruct (AtomicWrite _ _ _ _ _ _) as [d1 []]; [|done]. destruct (be_credentials e); [|done]. by intros [= _ <- _].
Qed.

Lemma filter_compiles cfg : filter_ok (fun s => regexp_Compile s <> None) cfg -> exists e, Compile ToLower regexp_Compile ord cfg = Ok e.
Proof.
  intros Hf. unfold Compile, filter_ok in *. destruct (fc_Enabled cfg); cbn [negb]; [|by eexists].
  pose proof (compile_loop_some regexp_Compile ToLower (fc_Normalize cfg) (fc_Rules cfg) [] [] []) as H.
  destruct (compile_loop _ _ _ _ _ _ _) as [[[? ?] ?]|]; [by eexists|]. destruct H; [|done].
  eapply Forall_impl; [by apply Hf|]. intros rule [?|[]]; auto.
Qed.

Lemma writer_fails host mkdir cfg err :
  (cd_Enabled cfg = true -> cdr_ok cfg) -> NewWriter host mkdir cfg = Err err -> cd_Enabled cfg = true /\ (cd_Mode cfg = "settled" \/ mkdir = false).
Proof.
  intros Hc. unfold NewWriter. destruct (cd_Enabled cfg); cbn [negb]; [|done]. intros H. split; [done|].
  destruct (Hc eq_refl) as [_ [Hm _] _ _ _]. cbn zeta in H. cbn [cd_Mode] in H. unfold or_str in H.
  destruct mkdir; [left|by right]. rewrite !elem_of_cons in Hm. destruct Hm as [E|[E|[E|E]]]; [by rewrite E in H|by rewrite E in H|done|by apply elem_of_nil in E].
Qed.

Lemma new_writers_ok r s : writers_ok (NewWithDispatcher r s).
Proof.
  unfold writers_ok, NewWithDispatcher. cbn [g_closed g_cdrWriter g_nextWriter].
  destruct (mr_writer r); cbn [option_list app]; split; repeat constructor. by intros ?%elem_of_nil.
Qed.

(** C27: The start of the gateway command ends in one of these ways: the
    configuration was not loaded; the store could not be opened, though its
    driver is known and a server is named; the CDR writer was refused, for a
    mode that is not implemented or a directory that could not be made, after
    the workers were started; or the process serves with the configuration it
    loaded, its store, its filter, a sound provider registry and one CDR
    writer. The filter of a configuration that was loaded always compiles. *)
Theorem main_starts path seedPath e d :
  (forall l, range l ≡ₚ l) ->
  let '(d', workers, out) := main_start path seedPath e d in
  match out with
  | Err (load_failed err) => load path seedPath (me_boot e) d = (d', Err err) /\ workers = false
  | Err (store_failed err) => workers = false
      /\ match err with unsupported_driver _ | postgres_failed dsn_required => False | _ => True end
  | Err (filter_failed _) => False
  | Err (cdr_failed _) => workers = true /\ exists c b, load path seedPath (me_boot e) d = (d', Ok (c, b))
      /\ cd_Enabled (c_CDR c) = true /\ (cd_Mode (c_CDR c) = "settled" \/ me_mkdir e = false)
  | Ok r => workers = true /\ (exists b, load path seedPath (me_boot e) d = (d', Ok (mr_cfg r, b)))
      /\ open_store (c_Storage (mr_cfg r)) = Ok (mr_store r)
      /\ Compile ToLower regexp_Compile ord (c_Filter (mr_cfg r)) = Ok (mr_engine r)
      /\ reg_ok (mr_registry r) /\ (is_Some (mr_writer r) <-> cd_Enabled (c_CDR (mr_cfg r)) = true)
      /\ forall s, writers_ok (NewWithDispatcher r s)
  end.
Proof.
  intros Hr. unfold main_start. destruct (load path seedPath (me_boot e) d) as [d' [[c b]|err]] eqn:El; [|done].
  destruct (load_parts _ _ _ _ _ _ _ Hr El) as (Hs & Hf & Hc & Hn).
  pose proof (validated_driver parse_config reach read_store disk_at (c_Storage c) (proj2 (storage_ok_iff _) Hs)) as Hd.
  destruct (open_store (c_Storage c)) as [st|err] eqn:Es; [|by destruct err].
  destruct (filter_compiles _ Hf) as [engine Ee]. rewrite Ee.
  destruct (NewWriter _ _ _) as [writer|err] eqn:Ew.
  - cbn [mr_cfg mr_store mr_engine mr_registry mr_writer]. split_and!; try done; [by exists b|by apply SetDLRHandler_ok, Reload_ok, NewRegistry_ok| |].
    + revert Ew. unfold NewWriter. destruct (cd_Enabled (c_CDR c)); cbn [negb]; [|intros [= <-]; split; [by intros []|done]].
    cbn zeta. destruct (negb _); [done|]. destruct (negb _); [done|]. intros [= <-]. by split; [|eauto].
    + intros s. apply new_writers_ok.
  - split; [done|]. exists c, b. split; [done|]. by eapply writer_fails.
Qed.

End main.

(** ** Examples *)

Definition demo_settled (mode : string) : Config :=
  let c := demo_setup "secret" [] in
  {| c_Server := c_Server c; c_SMPP := c_SMPP c; c_Dispatcher := c_Dispatcher c; c_Tenants := c_Tenants c; c_ESMEs := c_ESMEs c;
     c_Routes := c_Routes c; c_Providers := c_Providers c; c_Inbound := c_Inbound c; c_Outbound := c_Outbound c; c_Clients := c_Clients c;
     c_TrustedProxies := c_TrustedProxies c; c_Risk := c_Risk c; c_Filter := c_Filter c;
     c_CDR := mkCDRConfig true "cdr" mode 10 "1h" 0 "" 0 "" "" false false; c_Storage := mkStorage "memory" ""; c_Admin := c_Admin c |}.

Definition demo_main (c : Config) : @disk Config * bool * res main_err (@Running unit Config unit) :=
  main_start tt (fun _ => Some tt) (fun _ => None) (fun z => z) id (fun _ m => map_to_list m) Default id (fun _ x => Some x) Default
    (fun _ : Config => None) (fun _ => mkDisk None None None) (fun _ => None) (fun _ _ => None) "/etc/mysmpp.json" ""
    (mkMainEnv (demo_boot None) 0 "host" true) (mkDisk (Some c) None None).

Example demo_main_serves : match demo_main (demo_settled "events") with (_, true, Ok r) => bool_decide (is_Some (mr_writer r)) | _ => false end = true.
Proof. vm_compute. reflexivity. Qed.

(** A configuration with settled CDRs passes validation, and ends the process
    after its workers were started. *)
Lemma main_starts_witness :
  exists d err, demo_main (demo_settled "settled") = (d, true, Err (cdr_failed err)) /\ cd_Mode (c_CDR (demo_settled "settled")) = "settled".
Proof.
  pose proof (main_starts tt (fun _ => Some tt) (fun _ => None) (fun z => z) id (fun _ m => map_to_list m) Default id (fun _ x => Some x) Default
    (fun _ : Config => None) (fun _ => mkDisk None None None) (J := unit) (fun _ => None) (fun _ _ => None) "/etc/mysmpp.json" ""
    (mkMainEnv (demo_boot None) 0 "host" true) (mkDisk (Some (demo_settled "settled")) None None) (fun l => Permutation_refl l)) as H.
  fold (demo_main (demo_settled "settled")) in H.
  assert (match demo_main (demo_settled "settled") with (_, _, Err (cdr_failed _)) => true | _ => false end = true) as E by (vm_compute; reflexivity).
  destruct (demo_main (demo_settled "settled")) as [[d workers] [r|[err|err|err|err]]]; try discriminate E.
  destruct H as [Hw _]. exists d, err. rewrite Hw. split; reflexivity.
Defined.
